(* ===== verification/_CoqProject ===== *)
-Q . S2P
Prelude.v
KList.v
KHlist.v
Sort.v
ListSort.v
Kfifo.v
KfifoConc.v
CString.v
CStringSpec.v
Uaccess.v
Vsprintf.v
VsprintfNum.v
VsprintfText.v
VsprintfPtr.v
VsprintfBuf.v
VsprintfRes.v
VsprintfFmt.v
Vsscanf.v
Native.v
EnvPosix.v
Irq.v
Idle.v
IrqConc.v
Jhash.v
Syscalls.v
SyscallsConc.v
Threads.v
ThreadsConc.v
Checksum.v
Rbtree.v
RbtreeRep.v
RbtreeInsert.v
RbtreeErase.v
RbtreeAug.v
Mem.v
Bitops.v
Buddy.v
BuddyInv.v
BuddyOps.v
BuddyAlloc.v
BuddyPcp.v
BuddyClients.v
BuddySpec.v
Bootmem.v
Eth.v
Disk.v
EnvFs.v
Timer.v
Traps.v
Setup.v
EnvLib.v
ImageWriter.v
EnvHosts.v
