(* ===== verification/Prelude.v ===== *)
(** * The Linux Kernel Library port: a verification development

    The repository is a port of Linux 2.6.35 that runs as a library inside a native
    application.  The port is an architecture of the kernel (src/lkl-2.6/arch/lkl): it has
    no hardware below it but a table of callbacks that the application provides
    (struct lkl_native_operations), and no user space above it but functions lkl_sys_* that
    native threads call.  src/lkl-image-writer is an application that uses it.  This library
    models the port, the generic kernel code it is built on, the POSIX host and the
    application, and proves what makes them correct.

    ** The parts and where they are modelled

    - KList, KHlist: include/linux/list.h, which every queue and table below is made of, over a
      heap of nodes; what the operations do on the sequences the nodes stand for.
    - Sort, ListSort: lib/sort.c, heap sort of an array of bytes in place, and lib/list_sort.c,
      merge sort on the heap of KList.
    - Kfifo, KfifoConc: kernel/kfifo.c and include/linux/kfifo.h.  Queues of bytes and of records
      in a ring buffer (Kfifo), and a writer and a reader without a lock, cut at every access to
      what they share (KfifoConc).
    - CString, CStringSpec: lib/string.c, lib/ctype.c and the memcpy of the port over a memory
      of bytes, and what each function does with strings.
    - Uaccess: include/asm/uaccess.h of the port, over the same memory.
    - Vsprintf: lib/vsprintf.c; reading numbers, and vsnprintf with all its conversions, on an
      output device that is the text itself or a buffer of bounded size.  VsprintfNum: digits,
      reading numbers back.  VsprintfText: the layout of numbers.  VsprintfPtr: the texts of
      addresses.  VsprintfBuf: formatting into a buffer against the text, decoding of formats,
      the arguments they need.  VsprintfRes: strings and resources.  VsprintfFmt: a whole call.
      Vsscanf: the scanning of text by a format.
    - Native: the callback table (include/asm/callbacks.h) as the type class
      [lkl_native_operations], and what the kernel relies on as the class [native_laws].
      Every component below is proved against the class.
    - EnvPosix: the host of envs/posix.c; semaphores from a mutex and a condition variable,
      memory, the timer pipe.  It shows that the host keeps [native_laws], and runs sem_up
      and sem_down of any number of threads at the grain of the pthread calls.
    - Irq, IrqConc, Idle: kernel/irq.c.  The queues of the interrupt lines, the triggers that
      any native thread may call, run_irqs (Irq), all interleavings of triggers with the loop
      (IrqConc), and the idle loop cpu_idle (Idle).
    - Jhash: include/linux/jhash.h, which syscalls.c hashes thread identifiers with.
    - Syscalls, SyscallsConc: kernel/syscalls.c.  The table and its dispatch, the queues and
      their hash, the kernel threads that serve them, the macro SYSCALL and each lkl_sys_*
      entry (Syscalls); native callers, the interrupt and the serving threads interleaved
      (SyscallsConc).
    - Threads, ThreadsConc: kernel/threads.c.  Every kernel thread is a native thread that
      runs only while it holds the CPU; creation, __switch_to, tear-down, the counter
      (Threads), and all interleavings (ThreadsConc).
    - Checksum: lib/checksum.c, include/asm/checksum.h, include/asm/swab.h.
    - Rbtree, RbtreeRep, RbtreeInsert, RbtreeErase: lib/rbtree.c at the level of pointers; its
      representation of coloured trees; insertion; removal, traversal and replacement.
      RbtreeAug: the values that a caller keeps of every subtree.
    - Mem: kernel/mem.c, the slab allocator of the port, over the red-black tree.
    - Bitops: include/asm-generic/bitops and lib/find_next_bit.c.
    - Buddy, BuddyInv, BuddyOps, BuddyAlloc, BuddyPcp, BuddyClients, BuddySpec: the free lists of
      a zone in mm/page_alloc.c (Buddy has the code); the invariant of the free lists, freeing and
      merging, splitting and the fallback between the lists by mobility, the lists of the CPU, the
      clients that own blocks, and the abstract allocator that all of it implements.
    - Bootmem: mem_init_0, mem_init and mem_cleanup of kernel/mem.c over mm/bootmem.c.
    - Eth: drivers/eth.c and envs/drivers/linux/eth.c, with the receive thread of the host.
    - Disk: drivers/disk.c, the host drivers of envs/drivers/*/disk.c, and the completion of
      requests in block/blk-core.c.
    - EnvFs: envs/lib/fs.c, with get_filesystem_list of fs/filesystems.c.
    - Timer: kernel/timer.c, the programming of clock events in kernel/time/clockevents.c,
      and the timer thread of envs/posix.c, interleaved with the kernel.
    - Traps: the trace of a stack of kernel/traps.c.
    - Setup: kernel/setup.c; lkl_start_kernel composes the hooks of Threads, Bootmem, Irq,
      Timer and Syscalls, start and stop.
    - EnvLib: envs/lib/utils.c, whose lkl_printf uses Vsprintf, and envs/lib/net.c.
    - EnvHosts: envs/nt.c, ntk.c, khaiku.c and apr.c; their semaphores, memory and timers as
      further instances of [lkl_native_operations], under which conditions they keep
      [native_laws], and what the limit of 100 tokens of the Windows hosts means for Irq.
    - ImageWriter: src/lkl-image-writer.

    ** How code is modelled

    A C function is a function on an explicit state with the result type [res] of this file:
    a value, a fault (BUG, a bad dereference, a use after free), a sleep, or too little fuel.
    The state of a component is a record of the globals of its file and of the objects they
    reach; what is below it (the host) and beside it (the rest of the kernel) are type
    parameters.  Machine integers are [Z] with [u8] to [u64] and [s32], [s64] written where
    the code converts; sizes are those of a 64-bit little-endian host, which the port is
    about.  Threads that run at the same time are step relations whose steps are the
    stretches between two points where the threads can meet.  Code that is neither under the
    component nor modelled elsewhere (handlers of system calls, the scheduler, the network
    stack, libc) is a parameter, with what is relied on as a record or class of laws; each
    property with laws has a witness on a concrete instance.

    ** What is proved

    - No lost wake-ups and no lost work: semaphores (EnvPosix), interrupts (IrqConc), system
      calls (SyscallsConc), the CPU of the kernel threads (ThreadsConc), timer events (Timer),
      bytes between a writer and a reader (KfifoConc).
    - Exclusion and integrity: one thread in the kernel at a time, each interrupt served
      once and in order, each reply to its caller, frames in order (Eth).
    - Functional correctness and refinement: the queue hash and the slab allocator as maps,
      red-black trees as sorted lists with the colour invariants, checksums as one's
      complement sums, bitmaps as sets of bits, boot memory as disjoint regions, disk
      requests as transfers of consecutive sectors, mounts as first success, linked lists and
      hash chains as sequences, decimal conversion as division by ten, printing and reading of
      numbers as inverse to each other, the page allocator as an allocator of aligned and disjoint
      blocks that loses no page and fails only when no block is free, sorting as a stable
      permutation, ring buffers as bounded queues.
    - Bounds: vsnprintf and the copying of strings stay inside their buffers and end them with
      a NUL, vsscanf writes only to the objects of its arguments, the arrays that texts are put together in are large enough, for every argument.
    - Termination and fuel: loops have fuel, and the theorems say how much is enough; it is
      bounded by the data (queue lengths, tree height, pages, text length).  A loop over a
      string has two turns more than the memory has bytes, one over a format twice as many,
      one that counts a 16-bit number down has 65536.  A
      sift of heap sort has as many turns as the array has bytes, a merge of lists as many as
      it has nodes; the loops of the page allocator are bounded by the orders, the types of
      mobility and the pages of a block.  run_irqs and cpu_idle terminate under the stated
      conditions.
    - Resources: what init takes, free gives back, for interrupts, boot memory, the whole of
      lkl_start_kernel, mounts, and the descriptors of the image writer.
    - Errors: theorems that exhibit faults of the code, where it has them (a failed trigger
      hangs its caller, an abandoned thread hits a BUG, eth stop loses ring entries, an early
      time_init loses an event).

    ** Not modelled

    - The console, which hands its text to the host.
    - The binary formatting of vbin_printf and bstr_printf, which only tracing uses.
    - Thread creation and the start of the hosts, but for the error paths of ntk.c.
    - The asynchronous completion of disk requests, which the driver rejects with a BUG_ON.
    - Spin locks and preemption: the kernel runs one thread at a time, without interrupts
      from outside, so that they are empty in this port.
    - Memory contents that no component reads, printk, statistics.
    - In the page allocator the choice of a zone by watermarks, reclaim, compound pages, the
      isolation of blocks and the set-up of the zones.
    - The generic kernel above the interfaces (scheduler, block and network layers, file
      systems, drivers, other architectures), except for the routines named above: it is
      mainline code that the port carries and does not change.

    This file has the result type and its notation, machine integers, arrays, error numbers,
    and the lemmas and tactics the components share. *)
From Stdlib Require Export ZArith Lia.
From stdpp Require Export base tactics option gmap sets numbers.
From stdpp Require Export list.

Open Scope Z_scope.

(** ** Results of C code

    [Ret] is a normal return.  [Bug] stands for a run that hits BUG(), BUG_ON or
    a dereference of a pointer that is not valid.  [Blocked] stands for a thread
    that sleeps inside the operation.  [OutOfFuel] is the answer of a loop whose
    fuel was too small; every totality theorem excludes it. *)
Inductive res (A : Type) : Type :=
| Ret (a : A)
| Bug
| Blocked
| OutOfFuel.
Arguments Ret {A} a.
Arguments Bug {A}.
Arguments Blocked {A}.
Arguments OutOfFuel {A}.

Definition res_bind {A B : Type} (m : res A) (k : A -> res B) : res B :=
  match m with
  | Ret a => k a
  | Bug => Bug
  | Blocked => Blocked
  | OutOfFuel => OutOfFuel
  end.

Definition BUG_ON (c : bool) : res unit := if c then Bug else Ret tt.

(** Reading through a pointer: an address that holds nothing is a fault. *)
Definition deref {A : Type} (o : option A) : res A :=
  match o with Some a => Ret a | None => Bug end.

Declare Scope lkl_scope.
Delimit Scope lkl_scope with lkl.
Notation "'let!' x ':=' m 'in' k" := (res_bind m (fun x => k))
  (at level 10, x pattern, m at level 100, k at level 200) : lkl_scope.
Open Scope lkl_scope.

(** ** Machine integers

    A w-bit unsigned object holds its value modulo [2^w]; a w-bit signed object
    holds the representative in [[-2^(w-1), 2^(w-1))].  The port is built for a
    64-bit target: [int] is [s32], [long] is [s64], [unsigned long] is [u64]. *)
Definition wrap (w z : Z) : Z := z mod 2 ^ w.
Definition swrap (w z : Z) : Z := (z + 2 ^ (w - 1)) mod 2 ^ w - 2 ^ (w - 1).

Abbreviation u8 := (wrap 8).
Abbreviation u16 := (wrap 16).
Abbreviation u32 := (wrap 32).
Abbreviation u64 := (wrap 64).
Abbreviation s32 := (swrap 32).
Abbreviation s64 := (swrap 64).

Definition in_u (w z : Z) : Prop := 0 <= z < 2 ^ w.
Definition in_s (w z : Z) : Prop := - 2 ^ (w - 1) <= z < 2 ^ (w - 1).

Definition NULL : Z := 0.
Definition INT_MAX : Z := 2147483647.

(** ** Arrays indexed by C integers

    An index below zero or past the end reads nothing ([None], a fault when it is
    dereferenced); [aset] is only used where the index was read before. *)
Definition aget {A : Type} (l : list A) (i : Z) : option A :=
  if i <? 0 then None else l !! Z.to_nat i.
Definition aset {A : Type} (l : list A) (i : Z) (x : A) : list A :=
  <[Z.to_nat i := x]> l.

(** ** Error numbers (include/asm-generic/errno-base.h and errno.h) *)
Definition EPERM : Z := 1.
Definition ENOENT : Z := 2.
Definition EIO : Z := 5.
Definition ENOMEM : Z := 12.
Definition EFAULT : Z := 14.
Definition EBUSY : Z := 16.
Definition EINVAL : Z := 22.
Definition ENOSYS : Z := 38.
Definition EUNATCH : Z := 49.

(** ** Shared lemmas *)

Lemma res_bind_Ret {A B : Type} (m : res A) (k : A -> res B) (b : B) :
  res_bind m k = Ret b <-> exists a, m = Ret a /\ k a = Ret b.
Proof. destruct m; simpl; naive_solver. Qed.

Lemma res_bind_assoc {A B C : Type} (m : res A) (k : A -> res B) (h : B -> res C) :
  res_bind (res_bind m k) h = res_bind m (fun a => res_bind (k a) h).
Proof. by destruct m. Qed.

Lemma wrap_range (w z : Z) : 0 <= w -> in_u w (wrap w z).
Proof. intros. apply Z.mod_pos_bound. lia. Qed.

Lemma wrap_id (w z : Z) : in_u w z -> wrap w z = z.
Proof. intros. by apply Z.mod_small. Qed.

Lemma wrap_wrap (w z : Z) : wrap w (wrap w z) = wrap w z.
Proof. apply Zmod_mod. Qed.

Lemma swrap_range (w z : Z) : 0 < w -> in_s w (swrap w z).
Proof.
  intros. unfold in_s, swrap.
  assert (2 ^ w = 2 * 2 ^ (w - 1)) as E.
  { rewrite <- Z.pow_succ_r by lia. f_equal. lia. }
  pose proof (Z.mod_pos_bound (z + 2 ^ (w - 1)) (2 ^ w) ltac:(lia)). lia.
Qed.

Lemma swrap_id (w z : Z) : 0 < w -> in_s w z -> swrap w z = z.
Proof.
  unfold in_s, swrap. intros.
  assert (2 ^ w = 2 * 2 ^ (w - 1)) as E.
  { rewrite <- Z.pow_succ_r by lia. f_equal. lia. }
  rewrite Z.mod_small; lia.
Qed.

(** A signed conversion changes the value by a multiple of [2^w]. *)
Lemma swrap_eqm (w z : Z) : 0 < w -> exists k, swrap w z = z + k * 2 ^ w.
Proof.
  intros. unfold swrap.
  exists (- ((z + 2 ^ (w - 1)) / 2 ^ w)).
  pose proof (Z.div_mod (z + 2 ^ (w - 1)) (2 ^ w) ltac:(lia)). nia.
Qed.

Lemma wrap_eqm (w z : Z) : 0 < w -> exists k, wrap w z = z + k * 2 ^ w.
Proof.
  intros. unfold wrap. exists (- (z / 2 ^ w)).
  pose proof (Z.div_mod z (2 ^ w) ltac:(lia)). nia.
Qed.

Lemma wrap_swrap (w z : Z) : 0 < w -> wrap w (swrap w z) = wrap w z.
Proof.
  intros. destruct (swrap_eqm w z) as [k ->]; [done|].
  unfold wrap. by rewrite Z.mod_add by lia.
Qed.

(** [x & ~mask] clears the low bits. *)
Lemma clear_low (x n : Z) : 0 <= n -> Z.land x (Z.lnot (Z.ones n)) = x / 2 ^ n * 2 ^ n.
Proof.
  intros Hn. rewrite <- Z.ldiff_land, Z.ldiff_ones_r by done.
  by rewrite Z.shiftl_mul_pow2, Z.shiftr_div_pow2.
Qed.

Lemma aget_Some {A : Type} (l : list A) (i : Z) (x : A) :
  aget l i = Some x -> 0 <= i < Z.of_nat (length l).
Proof.
  unfold aget. destruct (Z.ltb_spec i 0); [done|].
  intros Hx%lookup_lt_Some. lia.
Qed.

Lemma aget_is_Some {A : Type} (l : list A) (i : Z) :
  0 <= i < Z.of_nat (length l) -> is_Some (aget l i).
Proof.
  intros Hi. unfold aget. destruct (Z.ltb_spec i 0); [lia|].
  apply lookup_lt_is_Some. lia.
Qed.

Lemma aget_aset_eq {A : Type} (l : list A) (i : Z) (x y : A) :
  aget l i = Some y -> aget (aset l i x) i = Some x.
Proof.
  intros Hy. pose proof (aget_Some _ _ _ Hy). unfold aget, aset.
  destruct (Z.ltb_spec i 0); [lia|]. apply list_lookup_insert_eq. lia.
Qed.

Lemma aget_aset_ne {A : Type} (l : list A) (i j : Z) (x : A) :
  0 <= i -> i <> j -> aget (aset l i x) j = aget l j.
Proof.
  intros ??. unfold aget, aset. destruct (Z.ltb_spec j 0); [done|].
  apply list_lookup_insert_ne. lia.
Qed.

Lemma length_aset {A : Type} (l : list A) (i : Z) (x : A) : length (aset l i x) = length l.
Proof. apply length_insert. Qed.

Lemma aset_id {A : Type} (l : list A) (i : Z) (x : A) : aget l i = Some x -> aset l i x = l.
Proof.
  unfold aget, aset. destruct (i <? 0); [done|]. apply list_insert_id.
Qed.

Lemma aget_ext {A : Type} (l k : list A) : (forall i, aget l i = aget k i) -> l = k.
Proof.
  intros H. apply list_eq. intros i. specialize (H (Z.of_nat i)). unfold aget in H.
  destruct (Z.ltb_spec (Z.of_nat i) 0); [lia|]. by rewrite Nat2Z.id in H.
Qed.

Lemma aget_fmap {A B : Type} (f : A -> B) (l : list A) (i : Z) :
  aget (f <$> l) i = f <$> aget l i.
Proof. unfold aget. destruct (i <? 0); [done|]. apply list_lookup_fmap. Qed.

Lemma aset_aset {A : Type} (l : list A) (i : Z) (x y : A) : aset (aset l i x) i y = aset l i y.
Proof. apply list_insert_insert_eq. Qed.

(** Counting the entries of an array that satisfy a test. *)
Definition countb {A : Type} (f : A -> bool) (l : list A) : Z :=
  Z.of_nat (length (filter (fun x => f x = true) l)).

Lemma countb_app {A : Type} (f : A -> bool) (l k : list A) :
  countb f (l ++ k) = countb f l + countb f k.
Proof. unfold countb. rewrite filter_app, length_app. lia. Qed.

Lemma countb_cons {A : Type} (f : A -> bool) (x : A) (l : list A) :
  countb f (x :: l) = Z.b2z (f x) + countb f l.
Proof. unfold countb. rewrite filter_cons. destruct (f x) eqn:E; case_decide; simpl; try done; lia. Qed.

Lemma countb_nonneg {A : Type} (f : A -> bool) (l : list A) : 0 <= countb f l.
Proof. unfold countb. lia. Qed.

Lemma countb_insert {A : Type} (f : A -> bool) (l : list A) (i : nat) (x y : A) :
  l !! i = Some x -> countb f (<[i := y]> l) = countb f l - Z.b2z (f x) + Z.b2z (f y).
Proof.
  intros Hi. rewrite (insert_take_drop _ _ _ (lookup_lt_Some _ _ _ Hi)).
  rewrite <- (take_drop_middle l i x Hi) at 3. rewrite !countb_app, !countb_cons. lia.
Qed.

Lemma countb_pos {A : Type} (f : A -> bool) (l : list A) :
  0 < countb f l -> exists i x, l !! i = Some x /\ f x = true.
Proof.
  unfold countb. intros H. destruct (filter _ l) as [|x k] eqn:E; [simpl in H; lia|].
  assert (x ∈ filter (fun x => f x = true) l) as Hx by (rewrite E; set_solver).
  apply list_elem_of_filter in Hx as [Hf [i Hi]%list_elem_of_lookup]. eauto.
Qed.

Lemma countb_elem {A : Type} (f : A -> bool) (l : list A) (i : nat) (x : A) :
  l !! i = Some x -> f x = true -> 0 < countb f l.
Proof.
  intros Hi Hf. rewrite <- (take_drop_middle l i x Hi), countb_app, countb_cons, Hf.
  pose proof (countb_nonneg f (take i l)). pose proof (countb_nonneg f (drop (S i) l)). simpl. lia.
Qed.

Lemma submseteq_NoDup {A : Type} (l k : list A) : l ⊆+ k -> NoDup k -> NoDup l.
Proof. intros [k' ->]%submseteq_Permutation Hnd. by apply NoDup_app in Hnd as [? _]. Qed.

Create HintDb lkl.
#[export] Hint Resolve wrap_range swrap_range : lkl.
#[export] Hint Rewrite @res_bind_assoc @length_aset @aset_aset : lkl.

(** Splits the [let!] chain of a hypothesis that says a C function returned. *)
Ltac res_inv :=
  repeat match goal with
  | H : res_bind _ _ = Ret _ |- _ =>
      apply res_bind_Ret in H; destruct H as (? & ? & ?)
  | H : Ret _ = Ret _ |- _ => injection H as H
  | H : BUG_ON ?b = Ret _ |- _ => destruct b eqn:?; [discriminate H|]; simpl in H
  | H : deref ?o = Ret _ |- _ => destruct o eqn:?; [|discriminate H]; simpl in H
  | H : _ /\ _ |- _ => destruct H
  | H : (_, _) = (_, _) |- _ => injection H as ? ?
  end; simplify_eq/=.

(** Decides a closed arithmetic side condition that mentions [2 ^ w]. *)
Ltac pow_lia :=
  unfold in_u, in_s, NULL in *;
  repeat match goal with
  | |- context [2 ^ ?w] => let v := eval vm_compute in (2 ^ w) in change (2 ^ w) with v
  | H : context [2 ^ ?w] |- _ =>
      let v := eval vm_compute in (2 ^ w) in change (2 ^ w) with v in H
  end; lia.
