(* ===== verification/KList.v ===== *)
(** * Linked lists: include/linux/list.h

    The queues of the interrupt lines, the system call queues, the rings of the Ethernet
    driver and the free lists of the page allocator are circular doubly linked lists of
    nodes embedded in the objects; the queues of the system call hash are lists with a
    single pointer as their head.  Here both are modelled by address, and it is shown that
    the operations do to the sequence of the nodes what the other components take them to
    do. *)
From S2P Require Import Prelude.

(** ** struct list_head *)

Record list_head := List_head { next : Z; prev : Z }.
Notation lmem := (gmap Z list_head).

Definition LIST_POISON1 : Z := 0x00100100.
Definition LIST_POISON2 : Z := 0x00200200.

(** [p->next = v] and [p->prev = v]. *)
Definition set_next (p v : Z) (m : lmem) : res lmem :=
  let! n := deref (m !! p) in Ret (<[p := List_head v (prev n)]> m).
Definition set_prev (p v : Z) (m : lmem) : res lmem :=
  let! n := deref (m !! p) in Ret (<[p := List_head (next n) v]> m).
Definition get_next (p : Z) (m : lmem) : res Z := let! n := deref (m !! p) in Ret (next n).
Definition get_prev (p : Z) (m : lmem) : res Z := let! n := deref (m !! p) in Ret (prev n).

Definition INIT_LIST_HEAD (list : Z) (m : lmem) : res lmem :=
  let! m := set_next list list m in set_prev list list m.

Definition __list_add (new prev next : Z) (m : lmem) : res lmem :=
  let! m := set_prev next new m in
  let! m := set_next new next m in
  let! m := set_prev new prev m in
  set_next prev new m.
Definition list_add (new head : Z) (m : lmem) : res lmem :=
  let! n := get_next head m in __list_add new head n m.
Definition list_add_tail (new head : Z) (m : lmem) : res lmem :=
  let! p := get_prev head m in __list_add new p head m.

Definition __list_del (prev next : Z) (m : lmem) : res lmem :=
  let! m := set_prev next prev m in set_next prev next m.
(** [__list_del(entry->prev, entry->next)], the start of the removals. *)
Definition unlink_entry (entry : Z) (m : lmem) : res lmem :=
  let! p := get_prev entry m in
  let! n := get_next entry m in
  __list_del p n m.
Definition list_del (entry : Z) (m : lmem) : res lmem :=
  let! m := unlink_entry entry m in
  let! m := set_next entry LIST_POISON1 m in
  set_prev entry LIST_POISON2 m.
Definition list_del_init (entry : Z) (m : lmem) : res lmem :=
  let! m := unlink_entry entry m in INIT_LIST_HEAD entry m.
Definition list_move (list head : Z) (m : lmem) : res lmem :=
  let! m := unlink_entry list m in list_add list head m.
Definition list_move_tail (list head : Z) (m : lmem) : res lmem :=
  let! m := unlink_entry list m in list_add_tail list head m.

Definition list_replace (old new : Z) (m : lmem) : res lmem :=
  let! n := get_next old m in
  let! m := set_next new n m in
  let! n := get_next new m in
  let! m := set_prev n new m in
  let! p := get_prev old m in
  let! m := set_prev new p m in
  let! p := get_prev new m in
  set_next p new m.
Definition list_replace_init (old new : Z) (m : lmem) : res lmem :=
  let! m := list_replace old new m in INIT_LIST_HEAD old m.

Definition list_is_last (list head : Z) (m : lmem) : res bool :=
  let! n := get_next list m in Ret (n =? head).
Definition list_empty (head : Z) (m : lmem) : res bool :=
  let! n := get_next head m in Ret (n =? head).
Definition list_empty_careful (head : Z) (m : lmem) : res bool :=
  let! n := get_next head m in
  if n =? head then let! p := get_prev head m in Ret (n =? p) else Ret false.
Definition list_is_singular (head : Z) (m : lmem) : res bool :=
  let! e := list_empty head m in
  if e then Ret false
  else let! n := get_next head m in let! p := get_prev head m in Ret (n =? p).
Definition list_rotate_left (head : Z) (m : lmem) : res lmem :=
  let! e := list_empty head m in
  if e then Ret m else let! first := get_next head m in list_move_tail first head m.

Definition __list_cut_position (list head entry : Z) (m : lmem) : res lmem :=
  let! new_first := get_next entry m in
  let! n := get_next head m in
  let! m := set_next list n m in
  let! n := get_next list m in
  let! m := set_prev n list m in
  let! m := set_prev list entry m in
  let! m := set_next entry list m in
  let! m := set_next head new_first m in
  set_prev new_first head m.
Definition list_cut_position (list head entry : Z) (m : lmem) : res lmem :=
  let! e := list_empty head m in
  if e then Ret m
  else
    let! sing := list_is_singular head m in
    let! n := get_next head m in
    if sing && (negb (n =? entry) && negb (head =? entry)) then Ret m
    else if entry =? head then INIT_LIST_HEAD list m
    else __list_cut_position list head entry m.

Definition __list_splice (list prev next : Z) (m : lmem) : res lmem :=
  let! first := get_next list m in
  let! last := get_prev list m in
  let! m := set_prev first prev m in
  let! m := set_next prev first m in
  let! m := set_next last next m in
  set_prev next last m.
Definition list_splice (list head : Z) (m : lmem) : res lmem :=
  let! e := list_empty list m in
  if e then Ret m else let! n := get_next head m in __list_splice list head n m.
Definition list_splice_tail (list head : Z) (m : lmem) : res lmem :=
  let! e := list_empty list m in
  if e then Ret m else let! p := get_prev head m in __list_splice list p head m.
Definition list_splice_init (list head : Z) (m : lmem) : res lmem :=
  let! e := list_empty list m in
  if e then Ret m
  else let! n := get_next head m in let! m := __list_splice list head n m in INIT_LIST_HEAD list m.
Definition list_splice_tail_init (list head : Z) (m : lmem) : res lmem :=
  let! e := list_empty list m in
  if e then Ret m
  else let! p := get_prev head m in let! m := __list_splice list p head m in INIT_LIST_HEAD list m.

(** [list_first_entry], without the offset of the node in its object. *)
Definition list_first_entry (head : Z) (m : lmem) : res Z := get_next head m.

(** [list_for_each]: the nodes in the order of the loop. *)
Fixpoint for_each (fuel : nat) (pos head : Z) (m : lmem) : res (list Z) :=
  match fuel with
  | O => OutOfFuel
  | S fuel =>
      if pos =? head then Ret []
      else let! n := get_next pos m in let! l := for_each fuel n head m in Ret (pos :: l)
  end.
Definition list_for_each (fuel : nat) (head : Z) (m : lmem) : res (list Z) :=
  let! pos := get_next head m in for_each fuel pos head m.
(** [list_for_each_safe] around a body that changes the list. *)
Fixpoint for_each_safe (body : Z -> lmem -> res lmem) (fuel : nat) (pos n head : Z) (m : lmem) : res lmem :=
  match fuel with
  | O => OutOfFuel
  | S fuel =>
      if pos =? head then Ret m
      else
        let! m := body pos m in
        let pos := n in
        let! n := get_next pos m in
        for_each_safe body fuel pos n head m
  end.
Definition list_for_each_safe (body : Z -> lmem -> res lmem) (fuel : nat) (head : Z) (m : lmem) : res lmem :=
  let! pos := get_next head m in
  let! n := get_next pos m in
  for_each_safe body fuel pos n head m.

(** ** Rings of nodes *)

Definition nxt (m : lmem) (p : Z) : option Z := next <$> m !! p.
Definition prv (m : lmem) (p : Z) : option Z := prev <$> m !! p.
Definition joined (m : lmem) (p q : Z) : Prop := nxt m p = Some q /\ prv m q = Some p.
Definition join (m : lmem) (l1 l2 : list Z) : Prop :=
  forall p q, last l1 = Some p -> head l2 = Some q -> joined m p q.
Fixpoint links (m : lmem) (l : list Z) : Prop :=
  match l with
  | [] => True
  | p :: l => join m [p] l /\ links m l
  end.
(** The nodes [l] point to one another in this order, the last one to the first. *)
Definition ring (m : lmem) (l : list Z) : Prop := NoDup l /\ links m l /\ join m l l.
(** Disjoint rings. *)
Definition rings (m : lmem) (R : list (list Z)) : Prop := Forall (ring m) R /\ NoDup (concat R).

(** The writes, where the node exists. *)
Definition wnext (p v : Z) (m : lmem) : lmem := alter (fun n => List_head v (prev n)) p m.
Definition wprev (p v : Z) (m : lmem) : lmem := alter (fun n => List_head (next n) v) p m.

Lemma set_next_run (p v : Z) (m : lmem) : p ∈ dom m -> set_next p v m = Ret (wnext p v m).
Proof.
  intros [n E]%elem_of_dom. unfold set_next, wnext. rewrite E. cbn. f_equal.
  apply map_eq; intros q. destruct (decide (q = p)) as [->|Hq].
  - by rewrite lookup_insert_eq, lookup_alter_eq, E.
  - by rewrite lookup_insert_ne, lookup_alter_ne.
Qed.
Lemma set_prev_run (p v : Z) (m : lmem) : p ∈ dom m -> set_prev p v m = Ret (wprev p v m).
Proof.
  intros [n E]%elem_of_dom. unfold set_prev, wprev. rewrite E. cbn. f_equal.
  apply map_eq; intros q. destruct (decide (q = p)) as [->|Hq].
  - by rewrite lookup_insert_eq, lookup_alter_eq, E.
  - by rewrite lookup_insert_ne, lookup_alter_ne.
Qed.
Lemma get_next_run (p q : Z) (m : lmem) : nxt m p = Some q -> get_next p m = Ret q.
Proof. unfold nxt, get_next. destruct (m !! p); cbn; naive_solver. Qed.
Lemma get_prev_run (p q : Z) (m : lmem) : prv m p = Some q -> get_prev p m = Ret q.
Proof. unfold prv, get_prev. destruct (m !! p); cbn; naive_solver. Qed.

Lemma dom_wnext (p v : Z) (m : lmem) : dom (wnext p v m) = dom m.
Proof. apply dom_alter_L. Qed.
Lemma dom_wprev (p v : Z) (m : lmem) : dom (wprev p v m) = dom m.
Proof. apply dom_alter_L. Qed.
Lemma nxt_wnext (p v q : Z) (m : lmem) : p ∈ dom m -> nxt (wnext p v m) q = if decide (q = p) then Some v else nxt m q.
Proof.
  intros [n E]%elem_of_dom. unfold nxt, wnext. case_decide as Hq; [subst|].
  - by rewrite lookup_alter_eq, E.
  - by rewrite lookup_alter_ne by done.
Qed.
Lemma prv_wprev (p v q : Z) (m : lmem) : p ∈ dom m -> prv (wprev p v m) q = if decide (q = p) then Some v else prv m q.
Proof.
  intros [n E]%elem_of_dom. unfold prv, wprev. case_decide as Hq; [subst|].
  - by rewrite lookup_alter_eq, E.
  - by rewrite lookup_alter_ne by done.
Qed.
Lemma prv_wnext (p v q : Z) (m : lmem) : prv (wnext p v m) q = prv m q.
Proof.
  unfold prv, wnext. destruct (decide (q = p)) as [->|Hq].
  - rewrite lookup_alter_eq. by destruct (m !! p).
  - by rewrite lookup_alter_ne.
Qed.
Lemma nxt_wprev (p v q : Z) (m : lmem) : nxt (wprev p v m) q = nxt m q.
Proof.
  unfold nxt, wprev. destruct (decide (q = p)) as [->|Hq].
  - rewrite lookup_alter_eq. by destruct (m !! p).
  - by rewrite lookup_alter_ne.
Qed.
Lemma nxt_dom (m : lmem) (p q : Z) : nxt m p = Some q -> p ∈ dom m.
Proof. unfold nxt. intros E. apply elem_of_dom. destruct (m !! p); [by eexists|done]. Qed.

Ltac ldom := repeat first [rewrite dom_wnext | rewrite dom_wprev]; first [assumption | reflexivity].
(** Runs a sequence of writes on nodes of the memory. *)
Ltac lrun :=
  repeat first
    [ rewrite set_next_run by ldom
    | rewrite set_prev_run by ldom
    | progress cbn [res_bind] ].
(** Reads the fields of a memory written to. *)
Ltac lread :=
  repeat first
    [ rewrite nxt_wnext by ldom
    | rewrite prv_wprev by ldom
    | rewrite prv_wnext | rewrite nxt_wprev ].

Lemma join_frame (m m' : lmem) (l1 l2 : list Z) :
  join m l1 l2 ->
  (forall p, last l1 = Some p -> nxt m' p = nxt m p) ->
  (forall q, head l2 = Some q -> prv m' q = prv m q) -> join m' l1 l2.
Proof. intros H H1 H2 p q E1 E2. destruct (H p q E1 E2). split; [rewrite H1|rewrite H2]; done. Qed.

Lemma join_cons (m : lmem) (p : Z) (l1 l2 : list Z) : l1 <> [] -> join m (p :: l1) l2 <-> join m l1 l2.
Proof. intros H. unfold join. destruct l1 as [|q l1]; [done|]. by rewrite last_cons_cons. Qed.
Lemma join_app_l (m : lmem) (l1 l2 l3 : list Z) : l2 <> [] -> join m (l1 ++ l2) l3 <-> join m l2 l3.
Proof.
  intros H. induction l1 as [|p l1 IH]; [done|]. cbn [app]. rewrite join_cons; [done|].
  by destruct l1; [|discriminate].
Qed.
Lemma join_app_r (m : lmem) (l1 l2 l3 : list Z) : l2 <> [] -> join m l1 (l2 ++ l3) <-> join m l1 l2.
Proof. intros H. by destruct l2. Qed.
Lemma join_nil_l (m : lmem) (l : list Z) : join m [] l.
Proof. by intros p q E. Qed.
Lemma join_nil_r (m : lmem) (l : list Z) : join m l [].
Proof. by intros p q _ E. Qed.
#[local] Hint Resolve join_nil_l join_nil_r : core.

Lemma links_app (m : lmem) (l1 l2 : list Z) : links m (l1 ++ l2) <-> links m l1 /\ links m l2 /\ join m l1 l2.
Proof.
  induction l1 as [|p l1 IH]; cbn [links app]; [naive_solver|]. rewrite IH.
  destruct l1 as [|q l1].
  - cbn [app links]. naive_solver.
  - rewrite (join_cons m p (q :: l1) l2) by done. naive_solver.
Qed.

Lemma links_frame (m m' : lmem) (l : list Z) :
  NoDup l -> links m l ->
  (forall p, p ∈ l -> last l <> Some p -> nxt m' p = nxt m p) ->
  (forall p, p ∈ l -> head l <> Some p -> prv m' p = prv m p) -> links m' l.
Proof.
  induction l as [|p l IH]; [done|]. intros [Hp Hd]%NoDup_cons [Hj Hl] Hn Hq. split.
  - destruct l as [|q l]; [done|]. apply (join_frame m); [done| |].
    + intros p' [= <-]. apply Hn; [by left|].
      rewrite last_cons_cons. intros [l' E]%last_Some. apply Hp. rewrite E. set_solver.
    + intros q' [= <-]. apply Hq; [by right; left|]. cbn. intros [= ->]. apply Hp. by left.
  - apply IH; [done..| |].
    + intros q Hin Hlast. apply Hn; [by right|]. destruct l; [by apply elem_of_nil in Hin|]. by rewrite last_cons_cons.
    + intros q Hin _. apply Hq; [by right|]. cbn. intros [= ->]. done.
Qed.

Lemma ring_frame (m m' : lmem) (l : list Z) :
  ring m l -> (forall p, p ∈ l -> nxt m' p = nxt m p /\ prv m' p = prv m p) -> ring m' l.
Proof.
  intros (Hd & Hl & Hj) H. split_and!; [done| |].
  - apply (links_frame m); [done..| |]; intros p Hp _; by apply H.
  - apply (join_frame m); [done| |].
    + intros p [l' E]%last_Some. apply H. rewrite E. set_solver.
    + intros q E. destruct l; [done|]. injection E as ->. apply H. by left.
Qed.

(** A ring can be entered anywhere. *)
Lemma ring_rot (m : lmem) (l1 l2 : list Z) : ring m (l1 ++ l2) -> ring m (l2 ++ l1).
Proof.
  destruct (decide (l1 = [])) as [->|N1]; [by rewrite app_nil_r|].
  destruct (decide (l2 = [])) as [->|N2]; [by rewrite app_nil_r|].
  intros (Hd & (H1 & H2 & Hj)%links_app & Hj'). split_and!.
  - by rewrite Permutation_app_comm.
  - apply links_app. split_and!; [done..|]. rewrite join_app_l, join_app_r in Hj' by done. done.
  - by rewrite join_app_l, join_app_r by done.
Qed.

Lemma ring_in_dom (m : lmem) (l : list Z) (p : Z) : ring m l -> p ∈ l -> p ∈ dom m.
Proof.
  intros H (l1 & l2 & ->)%list_elem_of_split. apply ring_rot in H. destruct H as (_ & _ & Hj).
  cbn [app] in Hj. rewrite app_comm_cons in Hj.
  destruct (last (p :: l2 ++ l1)) as [q|] eqn:E; [|by apply last_None in E].
  destruct (Hj q p E eq_refl) as [_ Hq]. unfold prv in Hq. apply elem_of_dom. by destruct (m !! p).
Qed.

(** The fields of [m'] that differ from [m] are the [next] of [p] and the [prev] of [n], among the nodes [l]. *)
Definition relinked (m m' : lmem) (l : list Z) (p n : Z) : Prop :=
  forall q, q ∈ l -> (q <> p -> nxt m' q = nxt m q) /\ (q <> n -> prv m' q = prv m q).

Lemma links_relinked (m m' : lmem) (l : list Z) (p n : Z) :
  NoDup l -> links m l -> last l = Some p -> head l = Some n -> relinked m m' l p n -> links m' l.
Proof.
  intros Hd Hl Ep En H. apply (links_frame m); [done..| |].
  - intros q Hq Hne. apply (H q Hq). congruence.
  - intros q Hq Hne. apply (H q Hq). congruence.
Qed.
Lemma join_intro (m : lmem) (l1 l2 : list Z) (p n : Z) :
  last l1 = Some p -> head l2 = Some n -> joined m p n -> join m l1 l2.
Proof. intros E1 E2 H p' n' E1' E2'. congruence. Qed.
Lemma last_nonnil {A} (l : list A) (x : A) : last l = Some x -> l <> [].
Proof. by destruct l. Qed.

(** Closing an open path, by itself, with one more node, or with another path. *)
Lemma ring_close (m m' : lmem) (l : list Z) (p n : Z) :
  NoDup l -> links m l -> last l = Some p -> head l = Some n ->
  relinked m m' l p n -> joined m' p n -> ring m' l.
Proof. intros Hd Hl Ep En Hr J. split_and!; [done|by eapply links_relinked|by eapply join_intro]. Qed.

Lemma ring_snoc (m m' : lmem) (l : list Z) (p n e : Z) :
  NoDup l -> links m l -> last l = Some p -> head l = Some n -> e ∉ l ->
  relinked m m' l p n -> joined m' p e -> joined m' e n -> ring m' (l ++ [e]).
Proof.
  intros Hd Hl Ep En Hf Hr J1 J2. pose proof (last_nonnil _ _ Ep) as Hne. split_and!.
  - apply NoDup_app. split_and!; [done|set_solver|apply NoDup_singleton].
  - apply links_app. split_and!; [by eapply links_relinked| |by eapply join_intro]. cbn. auto.
  - rewrite join_app_l, join_app_r by done. by eapply join_intro.
Qed.

Lemma ring_merge (m m' : lmem) (l1 l2 : list Z) (p1 n1 p2 n2 : Z) :
  NoDup (l1 ++ l2) -> links m l1 -> links m l2 ->
  last l1 = Some p1 -> head l1 = Some n1 -> last l2 = Some p2 -> head l2 = Some n2 ->
  relinked m m' l1 p1 n1 -> relinked m m' l2 p2 n2 -> joined m' p1 n2 -> joined m' p2 n1 ->
  ring m' (l1 ++ l2).
Proof.
  intros Hd Hl1 Hl2 Ep1 En1 Ep2 En2 R1 R2 J1 J2. pose proof Hd as (Hd1 & _ & Hd2)%NoDup_app.
  pose proof (last_nonnil _ _ Ep1) as N1. pose proof (last_nonnil _ _ Ep2) as N2. split_and!; [done| |].
  - apply links_app. split_and!; [by eapply links_relinked..|by eapply join_intro].
  - rewrite join_app_l, join_app_r by done. by eapply join_intro.
Qed.

(** ** Disjoint rings *)

#[export] Instance rings_Proper (m : lmem) : Proper ((≡ₚ) ==> iff) (rings m).
Proof. intros R R' E. unfold rings. by rewrite E. Qed.

Lemma rings_rot (m : lmem) (l1 l2 : list Z) (R : list (list Z)) : rings m ((l1 ++ l2) :: R) -> rings m ((l2 ++ l1) :: R).
Proof.
  intros [[Hr HR]%Forall_cons Hd]. split; [constructor; [by apply ring_rot|done]|].
  cbn [concat] in *. by rewrite (Permutation_app_comm l2 l1).
Qed.

(** The nodes of the other rings keep their fields. *)
Definition untouched (m m' : lmem) (R : list (list Z)) : Prop :=
  forall q, q ∈ concat R -> nxt m' q = nxt m q /\ prv m' q = prv m q.

Lemma rings_update (m m' : lmem) (R R1 R2 : list (list Z)) :
  rings m (R1 ++ R) -> untouched m m' R -> Forall (ring m') R2 -> NoDup (concat (R2 ++ R)) -> rings m' (R2 ++ R).
Proof.
  intros [[_ HR]%Forall_app _] Hu H2 Hd. split; [|done]. apply Forall_app. split; [done|].
  apply list.Forall_forall. intros l Hl. rewrite list.Forall_forall in HR.
  apply (ring_frame m); [by apply HR|]. intros q Hq. apply Hu. apply list_elem_of_In, in_concat.
  exists l. by rewrite <- !list_elem_of_In.
Qed.

Lemma rings_in_dom (m : lmem) (R : list (list Z)) (p : Z) : rings m R -> p ∈ concat R -> p ∈ dom m.
Proof.
  intros [HR _] (l & Hl & Hp)%list_elem_of_In%in_concat. apply list_elem_of_In in Hl, Hp.
  rewrite list.Forall_forall in HR. eapply ring_in_dom; [by apply HR|done].
Qed.

Lemma rings_wnext (m : lmem) (R : list (list Z)) (p v : Z) : rings m R -> p ∈ dom m -> p ∉ concat R -> rings (wnext p v m) R.
Proof.
  intros H Hp Hf. apply (rings_update m _ R [] []); [done| |done|apply H].
  intros q Hq. lread. rewrite decide_False by set_solver. done.
Qed.
Lemma rings_wprev (m : lmem) (R : list (list Z)) (p v : Z) : rings m R -> p ∈ dom m -> p ∉ concat R -> rings (wprev p v m) R.
Proof.
  intros H Hp Hf. apply (rings_update m _ R [] []); [done| |done|apply H].
  intros q Hq. lread. rewrite decide_False by set_solver. done.
Qed.

Lemma concat_cons {A} (l : list A) (R : list (list A)) : concat (l :: R) = l ++ concat R.
Proof. done. Qed.
Lemma concat_singleton (l : list Z) : concat [l] = l.
Proof. apply app_nil_r. Qed.

(** A node in two places that have none in common. *)
Ltac ldisj :=
  exfalso;
  match goal with
  | H1 : ?q ∈ ?l, H2 : ?q ∉ ?l |- _ => exact (H2 H1)
  | H : ?l1 ## ?l2, H1 : ?q ∈ ?l1, H2 : ?q ∈ ?l2 |- _ => exact (H q H1 H2)
  | H : forall x, x ∈ ?l1 -> x ∉ ?l2, H1 : ?q ∈ ?l1, H2 : ?q ∈ ?l2 |- _ => exact (H q H1 H2)
  end.
(** The goals about single fields: reads through the writes, nodes told apart by the ring they are in. *)
Ltac lsolve :=
  repeat match goal with
  | |- relinked _ _ _ _ _ => intros ? ?
  | |- untouched _ _ _ => intros ? ?
  | |- joined _ _ _ => split
  end; lread; repeat case_decide; subst; try done; try congruence; try ldisj.

Lemma last_in (l : list Z) (p : Z) : last l = Some p -> p ∈ l.
Proof. intros [l' ->]%last_Some. set_solver. Qed.
Lemma head_in (l : list Z) (n : Z) : head l = Some n -> n ∈ l.
Proof. destruct l; [done|]. intros [= ->]. by left. Qed.
Lemma ends (l : list Z) : l <> [] -> exists p n, last l = Some p /\ head l = Some n.
Proof.
  intros H. destruct l as [|n l]; [done|]. destruct (last (n :: l)) as [p|] eqn:E; [by exists p, n|].
  by apply last_None in E.
Qed.

(** A ring that is not a single node, as the path between the neighbours of one of its nodes. *)
Lemma ring_open (m : lmem) (l : list Z) (e p n : Z) :
  ring m (l ++ [e]) -> last l = Some p -> head l = Some n -> NoDup l /\ links m l /\ e ∉ l /\ joined m p e /\ joined m e n.
Proof.
  intros (Hd & (Hl & _ & J1)%links_app & J2) Ep En. pose proof (last_nonnil _ _ Ep) as N.
  rewrite join_app_l, join_app_r in J2 by done. apply NoDup_app in Hd as (? & Hx & _).
  split_and!; [done..|set_solver|by apply J1|by apply J2].
Qed.

Lemma __list_add_ring (m : lmem) (l : list Z) (R : list (list Z)) (p n new : Z) :
  rings m (l :: R) -> last l = Some p -> head l = Some n -> new ∈ dom m -> new ∉ concat (l :: R) ->
  exists m', __list_add new p n m = Ret m' /\ rings m' ((l ++ [new]) :: R) /\ dom m' = dom m.
Proof.
  intros H Ep En Hnew Hf. pose proof (last_in _ _ Ep) as Hp. pose proof (head_in _ _ En) as Hn.
  rewrite concat_cons in Hf. apply not_elem_of_app in Hf as [Hf1 Hf2].
  pose proof H as [[(Hd & Hl & _) HR]%Forall_cons Hdis]. cbn [concat] in Hdis. pose proof Hdis as (_ & Hx & _)%NoDup_app.
  assert (p ∈ dom m) by (eapply rings_in_dom; [done|set_solver]).
  assert (n ∈ dom m) by (eapply rings_in_dom; [done|set_solver]).
  assert (new <> p /\ new <> n) as [? ?] by (split; intros ->; contradiction).
  unfold __list_add. lrun. eexists; split_and!; [done| |ldom].
  apply (rings_update m _ R [l] [l ++ [new]]); [done|lsolve| |].
  - apply Forall_singleton. eapply ring_snoc; [done..|lsolve|lsolve|lsolve].
  - rewrite concat_app, concat_singleton. rewrite (Permutation_app_comm l [new]). cbn. constructor; [set_solver|done].
Qed.

Lemma NoDup_concat_app (l1 l2 : list Z) (R : list (list Z)) :
  NoDup (concat ((l1 ++ l2) :: R)) -> NoDup (l1 ++ concat R) /\ NoDup (l2 ++ concat R) /\ l1 ## l2 /\ l1 ## concat R /\ l2 ## concat R.
Proof.
  cbn [concat]. rewrite <- app_assoc. intros (H1 & Hx & H2)%NoDup_app. pose proof H2 as (H3 & H4 & H5)%NoDup_app.
  split_and!; [apply NoDup_app; split_and!; [done|set_solver|done]|done|set_solver..].
Qed.

Lemma unlink_ring (m : lmem) (l : list Z) (R : list (list Z)) (e : Z) :
  rings m ((l ++ [e]) :: R) -> l <> [] ->
  exists m', unlink_entry e m = Ret m' /\ rings m' (l :: R) /\ dom m' = dom m /\ e ∉ concat (l :: R).
Proof.
  intros H (p & n & Ep & En)%ends. pose proof H as [[Hr HR]%Forall_cons Hdis].
  destruct (ring_open m l e p n Hr Ep En) as (Hd & Hl & He & [J1 J1'] & [J2 J2']).
  apply NoDup_concat_app in Hdis as (HdR & _ & _ & Hx & Hxe).
  pose proof (last_in _ _ Ep) as Hp. pose proof (head_in _ _ En) as Hn.
  assert (p ∈ dom m) by (eapply rings_in_dom; [done|set_solver]).
  assert (n ∈ dom m) by (eapply rings_in_dom; [done|set_solver]).
  assert (e ∉ concat R) by (clear - Hxe; set_solver).
  unfold unlink_entry. rewrite (get_prev_run e p), (get_next_run e n) by done. cbn [res_bind].
  unfold __list_del. lrun. eexists; split_and!; [done| |ldom|set_solver].
  apply (rings_update m _ R [l ++ [e]] [l]); [done|lsolve| |done].
  apply Forall_singleton. eapply ring_close; [done..|lsolve|lsolve].
Qed.

Lemma init_ring (m : lmem) (R : list (list Z)) (e : Z) :
  rings m R -> e ∈ dom m -> e ∉ concat R ->
  exists m', INIT_LIST_HEAD e m = Ret m' /\ rings m' ([e] :: R) /\ dom m' = dom m.
Proof.
  intros H He Hf. unfold INIT_LIST_HEAD. lrun. eexists; split_and!; [done| |ldom].
  apply (rings_update m _ R [] [[e]]); [done|lsolve| |].
  - apply Forall_singleton. split_and!; [apply NoDup_singleton|cbn; auto|].
    intros p q [= <-] [= <-]. lsolve.
  - cbn. constructor; [done|apply H].
Qed.

Lemma replace_ring (m : lmem) (l : list Z) (R : list (list Z)) (old new : Z) :
  rings m ((l ++ [old]) :: R) -> new ∈ dom m -> new ∉ concat ((l ++ [old]) :: R) ->
  exists m', list_replace old new m = Ret m' /\ rings m' ((l ++ [new]) :: R) /\ dom m' = dom m /\
    old ∉ concat ((l ++ [new]) :: R).
Proof.
  intros H Hnew Hf. pose proof H as [[Hr HR]%Forall_cons Hdis].
  assert (old ∈ dom m) as Hold by (eapply rings_in_dom; [done|set_solver]).
  apply NoDup_concat_app in Hdis as (HdR & _ & Hlo & Hx & Hxe). cbn [concat] in Hf.
  apply not_elem_of_app in Hf as [[Hf1 Hon%not_elem_of_cons]%not_elem_of_app Hf2]. destruct Hon as [Hon _].
  assert (old ∉ l /\ old ∉ concat R) as [Hf3 Hf4] by (clear - Hlo Hxe; set_solver).
  assert (NoDup (concat ([l ++ [new]] ++ R))) as HdR'.
  { rewrite concat_app, concat_singleton, (Permutation_app_comm l [new]). constructor; [set_solver|done]. }
  unfold list_replace. destruct (decide (l = [])) as [->|(p & n & Ep & En)%ends].
  - destruct Hr as (_ & _ & J). destruct (J old old eq_refl eq_refl) as [J1 J2].
    rewrite (get_next_run old old) by done. lrun. rewrite (get_next_run new old) by lsolve. lrun.
    rewrite (get_prev_run old new) by lsolve. lrun. rewrite (get_prev_run new new) by lsolve. lrun.
    eexists; split_and!; [done| |ldom|set_solver].
    apply (rings_update m _ R [[old]] [[new]]); [done|lsolve| |done].
    apply Forall_singleton. split_and!; [apply NoDup_singleton|cbn; auto|]. intros ? ? [= <-] [= <-]. lsolve.
  - destruct (ring_open m l old p n Hr Ep En) as (Hd & Hl & He & [J1 J1'] & [J2 J2']).
    pose proof (last_in _ _ Ep) as Hp. pose proof (head_in _ _ En) as Hn.
    assert (p ∈ dom m) by (eapply rings_in_dom; [done|set_solver]).
    assert (n ∈ dom m) by (eapply rings_in_dom; [done|set_solver]).
    assert (new <> p /\ new <> n /\ old <> p /\ old <> n) as (? & ? & ? & ?) by set_solver.
    rewrite (get_next_run old n) by done. lrun. rewrite (get_next_run new n) by lsolve. lrun.
    rewrite (get_prev_run old p) by lsolve. lrun. rewrite (get_prev_run new p) by lsolve. lrun.
    eexists; split_and!; [done| |ldom|set_solver].
    apply (rings_update m _ R [l ++ [old]] [l ++ [new]]); [done|lsolve| |done].
    apply Forall_singleton. eapply ring_snoc; [done..|set_solver|lsolve|lsolve|lsolve].
Qed.

Lemma splice_ring (m : lmem) (l1 l2 : list Z) (R : list (list Z)) (e p2 n2 : Z) :
  rings m ((l1 ++ [e]) :: l2 :: R) -> l1 <> [] -> last l2 = Some p2 -> head l2 = Some n2 ->
  exists m', __list_splice e p2 n2 m = Ret m' /\ rings m' ((l1 ++ l2) :: R) /\ dom m' = dom m /\
    e ∉ concat ((l1 ++ l2) :: R).
Proof.
  intros H (p1 & n1 & Ep1 & En1)%ends Ep2 En2.
  pose proof H as [[Hr1 [(Hd2 & Hl2 & J2) HR]%Forall_cons]%Forall_cons Hdis].
  destruct (ring_open m l1 e p1 n1 Hr1 Ep1 En1) as (Hd & Hl & He & [J1 J1'] & [J3 J3']).
  apply NoDup_concat_app in Hdis as (HdR & _ & Hlo & Hx & Hxe). cbn [concat] in HdR, Hx, Hxe.
  assert (l1 ## l2 /\ l1 ## concat R) as [? ?] by (clear - Hx; set_solver).
  pose proof HdR as (_ & _ & (_ & Hx2 & _)%NoDup_app)%NoDup_app.
  pose proof (last_in _ _ Ep1) as Hp1. pose proof (head_in _ _ En1) as Hn1.
  pose proof (last_in _ _ Ep2) as Hp2. pose proof (head_in _ _ En2) as Hn2.
  assert (p1 ∈ dom m /\ n1 ∈ dom m /\ p2 ∈ dom m /\ n2 ∈ dom m) as (? & ? & ? & ?).
  { split_and!; (eapply rings_in_dom; [done|cbn [concat]; set_solver]). }
  unfold __list_splice. rewrite (get_next_run e n1), (get_prev_run e p1) by done. cbn [res_bind]. lrun.
  assert (p1 <> p2 /\ n1 <> n2) as [? ?] by set_solver.
  eexists; split_and!; [done| |ldom|cbn [concat]; set_solver].
  apply (rings_update m _ R [l1 ++ [e]; l2] [l1 ++ l2]); [done|lsolve| |by rewrite concat_app, concat_singleton, <- app_assoc].
  apply Forall_singleton. eapply ring_merge; [|done..|lsolve|lsolve|lsolve|lsolve].
  rewrite app_assoc in HdR. by apply NoDup_app in HdR as [? _].
Qed.

Lemma cut_ring (m : lmem) (l1 l2 : list Z) (R : list (list Z)) (new entry hd : Z) :
  rings m ((l1 ++ l2) :: R) -> last l1 = Some entry -> last l2 = Some hd -> new ∈ dom m -> new ∉ concat ((l1 ++ l2) :: R) ->
  exists m', __list_cut_position new hd entry m = Ret m' /\ rings m' ((l1 ++ [new]) :: l2 :: R) /\ dom m' = dom m.
Proof.
  intros H Ep1 Ep2 Hnew Hf. pose proof (last_nonnil _ _ Ep1) as N1. pose proof (last_nonnil _ _ Ep2) as N2.
  destruct (ends l1 N1) as (? & n1 & ? & En1), (ends l2 N2) as (? & n2 & ? & En2). simplify_eq.
  pose proof H as [[(HdL & (Hl1 & Hl2 & J1)%links_app & J2) HR]%Forall_cons Hdis].
  rewrite join_app_l, join_app_r in J2 by done.
  destruct (J1 _ _ Ep1 En2) as [J1a J1b], (J2 _ _ Ep2 En1) as [J2a J2b].
  apply NoDup_concat_app in Hdis as (HdR & HdR2 & Hlo & Hx & Hx2).
  apply NoDup_app in HdL as (Hd1 & _ & Hd2).
  pose proof (last_in _ _ Ep1) as Hp1. pose proof (head_in _ _ En1) as Hn1.
  pose proof (last_in _ _ Ep2) as Hp2. pose proof (head_in _ _ En2) as Hn2.
  assert (entry ∈ dom m /\ n1 ∈ dom m /\ hd ∈ dom m /\ n2 ∈ dom m) as (? & ? & ? & ?).
  { split_and!; (eapply rings_in_dom; [done|cbn [concat]; set_solver]). }
  cbn [concat] in Hf. apply not_elem_of_app in Hf as [[Hf1 Hf2]%not_elem_of_app Hf3].
  assert (new <> entry /\ new <> n1 /\ new <> hd /\ new <> n2 /\ entry <> hd /\ n1 <> n2) as (? & ? & ? & ? & ? & ?) by set_solver.
  unfold __list_cut_position. rewrite (get_next_run entry n2), (get_next_run hd n1) by done. lrun.
  rewrite (get_next_run new n1) by lsolve. lrun. eexists; split_and!; [done| |ldom].
  apply (rings_update m _ R [l1 ++ l2] [l1 ++ [new]; l2]); [done|lsolve| |].
  - apply Forall_cons. split; [|apply Forall_singleton].
    + eapply ring_snoc; [done..|lsolve|lsolve|lsolve].
    + eapply ring_close; [done..|lsolve|lsolve].
  - cbn [app concat]. rewrite (Permutation_app_comm l1 [new]), <- app_assoc. cbn [app].
    constructor; [set_solver|]. apply NoDup_app. split_and!; [done|set_solver|done].
Qed.

(** ** The sequences the lists stand for

    The lists by their head, and the nodes that are on none. *)
Record lists := Lists { contents : gmap Z (list Z); loose : gset Z }.

Definition heap (L : gmap Z (list Z)) : list (list Z) := (fun '(h, xs) => h :: xs) <$> map_to_list L.
Definition rep (m : lmem) (A : lists) : Prop :=
  rings m (heap (contents A)) /\ loose A ⊆ dom m /\ (forall p, p ∈ loose A -> p ∉ concat (heap (contents A))).

Inductive list_op :=
| Init (l : Z)
| Add (new head : Z)
| AddTail (new head : Z)
| Del (entry : Z)
| DelInit (entry : Z)
| Move (list head : Z)
| MoveTail (list head : Z)
| Replace (old new : Z)
| ReplaceInit (old new : Z)
| RotateLeft (head : Z)
| Splice (list head : Z)
| SpliceTail (list head : Z)
| SpliceInit (list head : Z)
| SpliceTailInit (list head : Z)
| CutPosition (list head entry : Z).

Definition exec (o : list_op) (m : lmem) : res lmem :=
  match o with
  | Init l => INIT_LIST_HEAD l m
  | Add new head => list_add new head m
  | AddTail new head => list_add_tail new head m
  | Del entry => list_del entry m
  | DelInit entry => list_del_init entry m
  | Move list head => list_move list head m
  | MoveTail list head => list_move_tail list head m
  | Replace old new => list_replace old new m
  | ReplaceInit old new => list_replace_init old new m
  | RotateLeft head => list_rotate_left head m
  | Splice list head => list_splice list head m
  | SpliceTail list head => list_splice_tail list head m
  | SpliceInit list head => list_splice_init list head m
  | SpliceTailInit list head => list_splice_tail_init list head m
  | CutPosition list head entry => list_cut_position list head entry m
  end.
Fixpoint exec_all (os : list list_op) (m : lmem) : res lmem :=
  match os with
  | [] => Ret m
  | o :: os => let! m := exec o m in exec_all os m
  end.

(** What each operation promises. *)
Inductive lstep : list_op -> lists -> lists -> Prop :=
| S_Init L F l : l ∈ F -> lstep (Init l) (Lists L F) (Lists (<[l := []]> L) (F ∖ {[l]}))
| S_Add L F new h xs : new ∈ F -> L !! h = Some xs ->
    lstep (Add new h) (Lists L F) (Lists (<[h := new :: xs]> L) (F ∖ {[new]}))
| S_AddTail L F new h xs : new ∈ F -> L !! h = Some xs ->
    lstep (AddTail new h) (Lists L F) (Lists (<[h := xs ++ [new]]> L) (F ∖ {[new]}))
| S_Del L F e h xs ys : L !! h = Some (xs ++ e :: ys) ->
    lstep (Del e) (Lists L F) (Lists (<[h := xs ++ ys]> L) ({[e]} ∪ F))
| S_DelInit L F e h xs ys : L !! h = Some (xs ++ e :: ys) ->
    lstep (DelInit e) (Lists L F) (Lists (<[e := []]> (<[h := xs ++ ys]> L)) F)
| S_Move L F e h xs ys h' zs : L !! h = Some (xs ++ e :: ys) -> <[h := xs ++ ys]> L !! h' = Some zs ->
    lstep (Move e h') (Lists L F) (Lists (<[h' := e :: zs]> (<[h := xs ++ ys]> L)) F)
| S_MoveTail L F e h xs ys h' zs : L !! h = Some (xs ++ e :: ys) -> <[h := xs ++ ys]> L !! h' = Some zs ->
    lstep (MoveTail e h') (Lists L F) (Lists (<[h' := zs ++ [e]]> (<[h := xs ++ ys]> L)) F)
| S_Replace L F old new h xs ys : L !! h = Some (xs ++ old :: ys) -> new ∈ F ->
    lstep (Replace old new) (Lists L F) (Lists (<[h := xs ++ new :: ys]> L) ({[old]} ∪ F ∖ {[new]}))
| S_ReplaceHead L F old new xs : L !! old = Some xs -> new ∈ F ->
    lstep (Replace old new) (Lists L F) (Lists (<[new := xs]> (delete old L)) ({[old]} ∪ F ∖ {[new]}))
| S_ReplaceInit L F old new h xs ys : L !! h = Some (xs ++ old :: ys) -> new ∈ F ->
    lstep (ReplaceInit old new) (Lists L F) (Lists (<[old := []]> (<[h := xs ++ new :: ys]> L)) (F ∖ {[new]}))
| S_ReplaceHeadInit L F old new xs : L !! old = Some xs -> new ∈ F ->
    lstep (ReplaceInit old new) (Lists L F) (Lists (<[old := []]> (<[new := xs]> (delete old L))) (F ∖ {[new]}))
| S_RotateLeft L F h x xs : L !! h = Some (x :: xs) ->
    lstep (RotateLeft h) (Lists L F) (Lists (<[h := xs ++ [x]]> L) F)
| S_RotateEmpty L F h : L !! h = Some [] -> lstep (RotateLeft h) (Lists L F) (Lists L F)
| S_Splice L F l h xs ys : L !! l = Some xs -> L !! h = Some ys -> l <> h -> xs <> [] ->
    lstep (Splice l h) (Lists L F) (Lists (<[h := xs ++ ys]> (delete l L)) ({[l]} ∪ F))
| S_SpliceTail L F l h xs ys : L !! l = Some xs -> L !! h = Some ys -> l <> h -> xs <> [] ->
    lstep (SpliceTail l h) (Lists L F) (Lists (<[h := ys ++ xs]> (delete l L)) ({[l]} ∪ F))
| S_SpliceEmpty L F l h o : L !! l = Some [] ->
    o ∈ [Splice l h; SpliceTail l h; SpliceInit l h; SpliceTailInit l h] -> lstep o (Lists L F) (Lists L F)
| S_SpliceInit L F l h xs ys : L !! l = Some xs -> L !! h = Some ys -> l <> h -> xs <> [] ->
    lstep (SpliceInit l h) (Lists L F) (Lists (<[l := []]> (<[h := xs ++ ys]> (delete l L))) F)
| S_SpliceTailInit L F l h xs ys : L !! l = Some xs -> L !! h = Some ys -> l <> h -> xs <> [] ->
    lstep (SpliceTailInit l h) (Lists L F) (Lists (<[l := []]> (<[h := ys ++ xs]> (delete l L))) F)
| S_Cut L F l h e xs ys : L !! l = Some [] -> L !! h = Some (xs ++ e :: ys) -> l <> h ->
    lstep (CutPosition l h e) (Lists L F) (Lists (<[l := xs ++ [e]]> (<[h := ys]> L)) F)
| S_CutNothing L F l h xs : L !! l = Some [] -> L !! h = Some xs -> l <> h ->
    lstep (CutPosition l h h) (Lists L F) (Lists L F).

Inductive lsteps : list list_op -> lists -> lists -> Prop :=
| Steps_nil A : lsteps [] A A
| Steps_cons o os A1 A2 A3 : lstep o A1 A2 -> lsteps os A2 A3 -> lsteps (o :: os) A1 A3.

(** ** The operations on rings and loose nodes *)

Definition state (m : lmem) (R : list (list Z)) (F : gset Z) : Prop :=
  rings m R /\ F ⊆ dom m /\ (forall p, p ∈ F -> p ∉ concat R).

#[export] Instance state_Proper (m : lmem) : Proper ((≡ₚ) ==> (=) ==> iff) (state m).
Proof.
  intros R R' E F F' <-. unfold state. rewrite E. split; intros (? & ? & H); (split_and!; [done..|]).
  - intros p Hp. rewrite <- E. by apply H.
  - intros p Hp. rewrite E. by apply H.
Qed.
Lemma state_rot (m : lmem) (l1 l2 : list Z) (R : list (list Z)) (F : gset Z) : state m ((l1 ++ l2) :: R) F -> state m ((l2 ++ l1) :: R) F.
Proof.
  intros (H & HF & Hd). split_and!; [by apply rings_rot|done|]. intros p Hp. specialize (Hd p Hp).
  rewrite !concat_cons, !elem_of_app in *. tauto.
Qed.

(** Where the head of a ring points. *)
Lemma ring_next (m : lmem) (h : Z) (xs : list Z) (R : list (list Z)) (F : gset Z) :
  state m ((h :: xs) :: R) F -> exists n, head (xs ++ [h]) = Some n /\ nxt m h = Some n.
Proof.
  intros [[[Hr _]%Forall_cons _] _]. apply (ring_rot m [h] xs) in Hr. destruct Hr as (_ & _ & J).
  destruct (ends (xs ++ [h])) as (p & n & Ep & En); [by destruct xs|]. exists n. split; [done|].
  rewrite last_snoc in Ep. simplify_eq. apply (J p n); [by rewrite last_snoc|done].
Qed.
Lemma ring_prev (m : lmem) (h : Z) (xs : list Z) (R : list (list Z)) (F : gset Z) :
  state m ((h :: xs) :: R) F -> exists p, last (h :: xs) = Some p /\ prv m h = Some p.
Proof.
  intros [[[(_ & _ & J) _]%Forall_cons _] _]. destruct (ends (h :: xs)) as (p & n & Ep & En); [done|].
  exists p. split; [done|]. by apply (J p h).
Qed.

Lemma state_unlink (m : lmem) (l : list Z) (R : list (list Z)) (F : gset Z) (e : Z) :
  state m ((l ++ [e]) :: R) F -> l <> [] ->
  exists m', unlink_entry e m = Ret m' /\ state m' (l :: R) ({[e]} ∪ F).
Proof.
  intros (H & HF & Hd) N. assert (e ∈ dom m) by (eapply rings_in_dom; [done|rewrite concat_cons; set_solver]).
  destruct (unlink_ring m l R e H N) as (m' & Hm & H' & Hdom & He). exists m'. split; [done|]. split_and!; [done|set_solver|].
  intros p [->%elem_of_singleton|Hp]%elem_of_union; [done|]. specialize (Hd p Hp). set_solver.
Qed.
Lemma state_add (m : lmem) (l : list Z) (R : list (list Z)) (F : gset Z) (p n new : Z) :
  state m (l :: R) F -> last l = Some p -> head l = Some n -> new ∈ F ->
  exists m', __list_add new p n m = Ret m' /\ state m' ((l ++ [new]) :: R) (F ∖ {[new]}).
Proof.
  intros (H & HF & Hd) Ep En Hnew.
  destruct (__list_add_ring m l R p n new) as (m' & Hm & H' & Hdom); [done..|set_solver|by apply Hd|].
  exists m'. split; [done|]. split_and!; [done|set_solver|]. intros q [Hq Hne]%elem_of_difference. specialize (Hd q Hq). set_solver.
Qed.
Lemma state_init (m : lmem) (R : list (list Z)) (F : gset Z) (e : Z) :
  state m R F -> e ∈ F -> exists m', INIT_LIST_HEAD e m = Ret m' /\ state m' ([e] :: R) (F ∖ {[e]}).
Proof.
  intros (H & HF & Hd) He. destruct (init_ring m R e) as (m' & Hm & H' & Hdom); [done|set_solver|by apply Hd|].
  exists m'. split; [done|]. split_and!; [done|set_solver|]. intros q [Hq Hne]%elem_of_difference. specialize (Hd q Hq). set_solver.
Qed.
Lemma state_replace (m : lmem) (l : list Z) (R : list (list Z)) (F : gset Z) (old new : Z) :
  state m ((l ++ [old]) :: R) F -> new ∈ F ->
  exists m', list_replace old new m = Ret m' /\ state m' ((l ++ [new]) :: R) ({[old]} ∪ F ∖ {[new]}).
Proof.
  intros (H & HF & Hd) Hnew. assert (old ∈ dom m) by (eapply rings_in_dom; [done|rewrite concat_cons; set_solver]).
  destruct (replace_ring m l R old new) as (m' & Hm & H' & Hdom & Ho); [done|set_solver|by apply Hd|].
  exists m'. split; [done|]. split_and!; [done|set_solver|].
  intros q [->%elem_of_singleton|[Hq Hne]%elem_of_difference]%elem_of_union; [done|]. specialize (Hd q Hq). set_solver.
Qed.
Lemma state_splice (m : lmem) (l1 l2 : list Z) (R : list (list Z)) (F : gset Z) (e p n : Z) :
  state m ((l1 ++ [e]) :: l2 :: R) F -> l1 <> [] -> last l2 = Some p -> head l2 = Some n ->
  exists m', __list_splice e p n m = Ret m' /\ state m' ((l1 ++ l2) :: R) ({[e]} ∪ F).
Proof.
  intros (H & HF & Hd) N Ep En. assert (e ∈ dom m) by (eapply rings_in_dom; [done|rewrite concat_cons; set_solver]).
  destruct (splice_ring m l1 l2 R e p n) as (m' & Hm & H' & Hdom & He); [done..|].
  exists m'. split; [done|]. split_and!; [done|set_solver|].
  intros q [->%elem_of_singleton|Hq]%elem_of_union; [done|]. specialize (Hd q Hq). set_solver.
Qed.
Lemma state_cut (m : lmem) (l1 l2 : list Z) (R : list (list Z)) (F : gset Z) (new e h : Z) :
  state m ((l1 ++ l2) :: R) F -> last l1 = Some e -> last l2 = Some h -> new ∈ F ->
  exists m', __list_cut_position new h e m = Ret m' /\ state m' ((l1 ++ [new]) :: l2 :: R) (F ∖ {[new]}).
Proof.
  intros (H & HF & Hd) E1 E2 Hnew.
  destruct (cut_ring m l1 l2 R new e h) as (m' & Hm & H' & Hdom); [done..|set_solver|by apply Hd|].
  exists m'. split; [done|]. split_and!; [done|set_solver|]. intros q [Hq Hne]%elem_of_difference. specialize (Hd q Hq). set_solver.
Qed.
(** A ring that is not needed any more. *)
Lemma state_drop (m : lmem) (l : list Z) (R : list (list Z)) (F : gset Z) :
  state m (l :: R) F -> state m R (list_to_set l ∪ F).
Proof.
  intros (H & HF & Hd). pose proof H as [[_ HR]%Forall_cons (_ & Hx & HdR)%NoDup_app]. split_and!; [done| |].
  - intros p [Hp%elem_of_list_to_set|Hp]%elem_of_union; [|set_solver]. eapply rings_in_dom; [done|rewrite concat_cons; set_solver].
  - intros p [Hp%elem_of_list_to_set|Hp]%elem_of_union; [by apply Hx|]. specialize (Hd p Hp). set_solver.
Qed.

(** ** The operations on lists *)

Lemma heap_at (L : gmap Z (list Z)) (h : Z) (xs : list Z) : L !! h = Some xs -> heap L ≡ₚ (h :: xs) :: heap (delete h L).
Proof. intros E. unfold heap. by rewrite <- (map_to_list_delete L h xs E). Qed.
Lemma heap_put (L : gmap Z (list Z)) (h : Z) (xs : list Z) : heap (<[h := xs]> L) ≡ₚ (h :: xs) :: heap (delete h L).
Proof.
  unfold heap. rewrite <- insert_delete_eq, map_to_list_insert; [done|]. apply lookup_delete_eq.
Qed.

Definition refines (r : res lmem) (A : lists) : Prop := exists m', r = Ret m' /\ rep m' A.

(** A head that is not on a list, and a node that is on one, are no list of their own. *)
Lemma rep_loose_head (m : lmem) (L : gmap Z (list Z)) (F : gset Z) (e : Z) : rep m (Lists L F) -> e ∈ F -> L !! e = None.
Proof.
  intros (_ & _ & Hd) He. destruct (L !! e) as [xs|] eqn:E; [|done]. destruct (Hd e He). cbn [contents].
  rewrite (heap_at L e xs E). by left.
Qed.
Lemma rep_entry_fresh (m : lmem) (L : gmap Z (list Z)) (F : gset Z) (h e : Z) (xs ys : list Z) :
  rep m (Lists L F) -> L !! h = Some (xs ++ e :: ys) -> e ∉ F /\ e <> h /\ L !! e = None.
Proof.
  intros H E. pose proof H as (HR & _ & Hd). cbn [contents loose] in *. rewrite (heap_at L h _ E) in HR.
  assert (e <> h) as Hne. { intros ->. destruct HR as [[(Hn & _) _]%Forall_cons _]. apply NoDup_cons in Hn as [Hn _]. set_solver. }
  split_and!; [|done|].
  - intros He. apply (Hd e He). rewrite (heap_at L h _ E), concat_cons. set_solver.
  - destruct (L !! e) as [zs|] eqn:Ez; [|done]. exfalso.
    destruct HR as [_ Hn]. rewrite concat_cons, (heap_at (delete h L) e zs) in Hn by (by rewrite lookup_delete_ne).
    apply NoDup_app in Hn as (_ & Hn & _). apply (Hn e); [set_solver|]. rewrite concat_cons. set_solver.
Qed.

Lemma rep_add (m : lmem) (L : gmap Z (list Z)) (F : gset Z) (new h : Z) (xs : list Z) :
  rep m (Lists L F) -> new ∈ F -> L !! h = Some xs ->
  refines (list_add new h m) (Lists (<[h := new :: xs]> L) (F ∖ {[new]})).
Proof.
  intros H Hnew E. change (state m (heap L) F) in H. rewrite (heap_at L h xs E) in H.
  destruct (ring_next _ _ _ _ _ H) as (n & En & Hn). apply (state_rot m [h] xs) in H.
  unfold list_add, refines. rewrite (get_next_run h n m Hn). cbn [res_bind].
  destruct (state_add m (xs ++ [h]) _ F h n new H) as (m' & -> & H'); [by rewrite last_snoc|done..|].
  exists m'. split; [done|]. change (state m' (heap (<[h := new :: xs]> L)) (F ∖ {[new]})). rewrite heap_put.
  rewrite <- app_assoc in H'. apply state_rot in H'. exact H'.
Qed.
Lemma rep_add_tail (m : lmem) (L : gmap Z (list Z)) (F : gset Z) (new h : Z) (xs : list Z) :
  rep m (Lists L F) -> new ∈ F -> L !! h = Some xs ->
  refines (list_add_tail new h m) (Lists (<[h := xs ++ [new]]> L) (F ∖ {[new]})).
Proof.
  intros H Hnew E. change (state m (heap L) F) in H. rewrite (heap_at L h xs E) in H.
  destruct (ring_prev _ _ _ _ _ H) as (p & Ep & Hp).
  unfold list_add_tail, refines. rewrite (get_prev_run h p m Hp). cbn [res_bind].
  destruct (state_add m (h :: xs) _ F p h new H) as (m' & -> & H'); [done..|].
  exists m'. split; [done|]. change (state m' (heap (<[h := xs ++ [new]]> L)) (F ∖ {[new]})). by rewrite heap_put.
Qed.
Lemma rep_unlink (m : lmem) (L : gmap Z (list Z)) (F : gset Z) (e h : Z) (xs ys : list Z) :
  rep m (Lists L F) -> L !! h = Some (xs ++ e :: ys) ->
  refines (unlink_entry e m) (Lists (<[h := xs ++ ys]> L) ({[e]} ∪ F)).
Proof.
  intros H E. change (state m (heap L) F) in H. rewrite (heap_at L h _ E) in H.
  assert (state m (((ys ++ h :: xs) ++ [e]) :: heap (delete h L)) F) as H1.
  { rewrite <- app_assoc. apply state_rot. cbn [app]. by rewrite <- app_assoc. }
  destruct (state_unlink _ _ _ _ _ H1) as (m' & Hm & H'); [by destruct ys|]. exists m'. split; [done|].
  change (state m' (heap (<[h := xs ++ ys]> L)) ({[e]} ∪ F)). rewrite heap_put.
  apply (state_rot m' ys (h :: xs)). done.
Qed.
Lemma rep_init (m : lmem) (L : gmap Z (list Z)) (F : gset Z) (e : Z) :
  rep m (Lists L F) -> e ∈ F -> refines (INIT_LIST_HEAD e m) (Lists (<[e := []]> L) (F ∖ {[e]})).
Proof.
  intros H He. destruct (state_init m (heap L) F e H He) as (m' & Hm & H'). exists m'. split; [done|].
  change (state m' (heap (<[e := []]> L)) (F ∖ {[e]})). rewrite heap_put.
  by rewrite delete_id by (by eapply rep_loose_head).
Qed.
Lemma rep_poison (m : lmem) (L : gmap Z (list Z)) (F : gset Z) (e v w : Z) :
  rep m (Lists L F) -> e ∈ F -> refines (let! m := set_next e v m in set_prev e w m) (Lists L F).
Proof.
  intros (HR & HF & Hd) He. assert (e ∈ dom m) by (cbn [loose] in HF; set_solver).
  unfold refines. lrun. eexists. split; [done|]. split_and!; [|cbn [loose]; rewrite dom_wprev, dom_wnext; done|done].
  apply rings_wprev; [|rewrite dom_wnext; done|by apply Hd]. apply rings_wnext; [done..|by apply Hd].
Qed.

Lemma rep_replace (m : lmem) (L : gmap Z (list Z)) (F : gset Z) (old new h : Z) (xs ys : list Z) :
  rep m (Lists L F) -> L !! h = Some (xs ++ old :: ys) -> new ∈ F ->
  refines (list_replace old new m) (Lists (<[h := xs ++ new :: ys]> L) ({[old]} ∪ F ∖ {[new]})).
Proof.
  intros H E Hnew. change (state m (heap L) F) in H. rewrite (heap_at L h _ E) in H.
  assert (state m (((ys ++ h :: xs) ++ [old]) :: heap (delete h L)) F) as H1.
  { rewrite <- app_assoc. apply state_rot. cbn [app]. by rewrite <- app_assoc. }
  destruct (state_replace _ _ _ _ _ _ H1 Hnew) as (m' & Hm & H'). exists m'. split; [done|].
  change (state m' (heap (<[h := xs ++ new :: ys]> L)) ({[old]} ∪ F ∖ {[new]})). rewrite heap_put.
  rewrite <- app_assoc in H'. apply state_rot in H'. cbn [app] in H'. by rewrite <- app_assoc in H'.
Qed.
Lemma rep_replace_head (m : lmem) (L : gmap Z (list Z)) (F : gset Z) (old new : Z) (xs : list Z) :
  rep m (Lists L F) -> L !! old = Some xs -> new ∈ F ->
  refines (list_replace old new m) (Lists (<[new := xs]> (delete old L)) ({[old]} ∪ F ∖ {[new]})).
Proof.
  intros H E Hnew. pose proof (rep_loose_head _ _ _ _ H Hnew) as Hl.
  change (state m (heap L) F) in H. rewrite (heap_at L old _ E) in H. apply (state_rot m [old]) in H.
  destruct (state_replace _ _ _ _ _ _ H Hnew) as (m' & Hm & H'). exists m'. split; [done|].
  change (state m' (heap (<[new := xs]> (delete old L))) ({[old]} ∪ F ∖ {[new]})). rewrite heap_put.
  apply state_rot in H'. rewrite (delete_id (delete old L) new); [done|]. by rewrite lookup_delete_None, Hl; right.
Qed.

Lemma heap_at2 (L : gmap Z (list Z)) (l h : Z) (xs ys : list Z) :
  L !! l = Some xs -> L !! h = Some ys -> l <> h ->
  heap L ≡ₚ (l :: xs) :: (h :: ys) :: heap (delete h (delete l L)).
Proof. intros E1 E2 N. rewrite (heap_at L l xs E1). by rewrite (heap_at (delete l L) h ys) by (by rewrite lookup_delete_ne). Qed.

Lemma rep_splice (m : lmem) (L : gmap Z (list Z)) (F : gset Z) (l h : Z) (xs ys : list Z) :
  rep m (Lists L F) -> L !! l = Some xs -> L !! h = Some ys -> l <> h -> xs <> [] ->
  refines (let! n := get_next h m in __list_splice l h n m) (Lists (<[h := xs ++ ys]> (delete l L)) ({[l]} ∪ F)) /\
  refines (let! p := get_prev h m in __list_splice l p h m) (Lists (<[h := ys ++ xs]> (delete l L)) ({[l]} ∪ F)).
Proof.
  intros H E1 E2 N Nx. change (state m (heap L) F) in H. rewrite (heap_at2 L l h xs ys E1 E2 N) in H.
  apply (state_rot m [l]) in H. pose proof H as H2. rewrite Permutation_swap in H2.
  destruct (ring_next _ _ _ _ _ H2) as (n & En & Hn), (ring_prev _ _ _ _ _ H2) as (p & Ep & Hp). split.
  - unfold refines. rewrite (get_next_run h n m Hn). cbn [res_bind].
    apply (state_rot m [h]) in H2. rewrite Permutation_swap in H2.
    destruct (state_splice m xs (ys ++ [h]) _ F l h n H2 Nx) as (m' & -> & H'); [by rewrite last_snoc|done|].
    exists m'. split; [done|]. change (state m' (heap (<[h := xs ++ ys]> (delete l L))) ({[l]} ∪ F)). rewrite heap_put.
    rewrite app_assoc in H'. by apply state_rot in H'.
  - unfold refines. rewrite (get_prev_run h p m Hp). cbn [res_bind].
    destruct (state_splice m xs (h :: ys) _ F l p h H Nx) as (m' & -> & H'); [done..|].
    exists m'. split; [done|]. change (state m' (heap (<[h := ys ++ xs]> (delete l L))) ({[l]} ∪ F)). rewrite heap_put.
    by apply state_rot in H'.
Qed.

(** ** What is read from the lists *)

Lemma rep_ring (m : lmem) (A : lists) (h : Z) (xs : list Z) : rep m A -> contents A !! h = Some xs -> ring m (h :: xs).
Proof. intros (HR & _) E. rewrite (heap_at _ h xs E) in HR. by destruct HR as [[Hr _]%Forall_cons _]. Qed.
Lemma rep_next (m : lmem) (A : lists) (h : Z) (xs : list Z) :
  rep m A -> contents A !! h = Some xs -> exists n, head (xs ++ [h]) = Some n /\ nxt m h = Some n.
Proof.
  intros H E. eapply (ring_next m h xs (heap (delete h (contents A))) (loose A)).
  change (state m (heap (contents A)) (loose A)) in H. by rewrite (heap_at _ h xs E) in H.
Qed.
Lemma rep_prev (m : lmem) (A : lists) (h : Z) (xs : list Z) :
  rep m A -> contents A !! h = Some xs -> exists p, last (h :: xs) = Some p /\ prv m h = Some p.
Proof.
  intros H E. eapply (ring_prev m h xs (heap (delete h (contents A))) (loose A)).
  change (state m (heap (contents A)) (loose A)) in H. by rewrite (heap_at _ h xs E) in H.
Qed.

Lemma rep_list_empty (m : lmem) (A : lists) (h : Z) (xs : list Z) :
  rep m A -> contents A !! h = Some xs -> list_empty h m = Ret (bool_decide (xs = [])).
Proof.
  intros H E. destruct (rep_next _ _ _ _ H E) as (n & En & Hn). pose proof (rep_ring _ _ _ _ H E) as [Hd _].
  apply NoDup_cons in Hd as [Hd _]. unfold list_empty. rewrite (get_next_run h n m Hn). cbn [res_bind]. f_equal.
  destruct xs as [|x xs]; cbn in En; injection En as <-.
  - by rewrite Z.eqb_refl, bool_decide_true.
  - rewrite bool_decide_false by done. apply Z.eqb_neq. set_solver.
Qed.
Lemma rep_list_is_singular (m : lmem) (A : lists) (h : Z) (xs : list Z) :
  rep m A -> contents A !! h = Some xs -> list_is_singular h m = Ret (bool_decide (length xs = 1%nat)).
Proof.
  intros H E. destruct (rep_next _ _ _ _ H E) as (n & En & Hn), (rep_prev _ _ _ _ H E) as (p & Ep & Hp).
  unfold list_is_singular. rewrite (rep_list_empty m A h xs H E). cbn [res_bind].
  pose proof (rep_ring _ _ _ _ H E) as [[_ Hd]%NoDup_cons _]. case_bool_decide as N.
  - subst xs. by rewrite bool_decide_false.
  - rewrite (get_next_run h n m Hn), (get_prev_run h p m Hp). cbn [res_bind]. f_equal.
    destruct xs as [|x [|y xs]]; [done| |]; cbn [app head] in En; injection En as <-.
    + cbn in Ep. injection Ep as <-. by rewrite Z.eqb_refl, bool_decide_true.
    + rewrite bool_decide_false by done. apply Z.eqb_neq. rewrite last_cons_cons in Ep.
      rewrite last_cons_cons in Ep. apply last_in in Ep. apply NoDup_cons in Hd as [Hd _]. intros ->. done.
Qed.

(** The loop visits the nodes of the list in its order. *)
Lemma for_each_path (m : lmem) (h : Z) (xs : list Z) (fuel : nat) (n : Z) :
  links m (xs ++ [h]) -> h ∉ xs -> head (xs ++ [h]) = Some n -> (length xs < fuel)%nat ->
  for_each fuel n h m = Ret xs.
Proof.
  revert fuel n. induction xs as [|x xs IH]; intros fuel n Hl Hh En Hf; cbn in En; injection En as <-;
    (destruct fuel as [|fuel]; [cbn in Hf; lia|]); cbn [for_each].
  - by rewrite Z.eqb_refl.
  - apply not_elem_of_cons in Hh as [Hx Hh]. destruct Hl as [J Hl].
    rewrite (proj2 (Z.eqb_neq x h)) by congruence.
    destruct (ends (xs ++ [h])) as (? & n & _ & En); [by destruct xs|].
    destruct (J x n eq_refl En) as [Jn _]. rewrite (get_next_run x n m Jn). cbn [res_bind].
    rewrite (IH fuel n Hl Hh En) by (cbn in Hf; lia). done.
Qed.
Lemma rep_list_for_each (m : lmem) (A : lists) (h : Z) (xs : list Z) (fuel : nat) :
  rep m A -> contents A !! h = Some xs -> (length xs < fuel)%nat -> list_for_each fuel h m = Ret xs.
Proof.
  intros H E Hf. destruct (rep_next _ _ _ _ H E) as (n & En & Hn). unfold list_for_each.
  rewrite (get_next_run h n m Hn). cbn [res_bind].
  pose proof (rep_ring _ _ _ _ H E) as Hr. apply (ring_rot m [h]) in Hr as (Hd & Hl & _).
  apply NoDup_app in Hd as (_ & Hd & _). apply for_each_path; [done|set_solver|done..].
Qed.

(** ** Refinement *)

Lemma refines_bind (r : res lmem) (k : lmem -> res lmem) (A A' : lists) :
  refines r A -> (forall m, rep m A -> refines (k m) A') -> refines (res_bind r k) A'.
Proof. intros (m & -> & H) Hk. by apply Hk. Qed.

Lemma move_set (F : gset Z) (e : Z) : e ∉ F -> ({[e]} ∪ F) ∖ {[e]} = F.
Proof. set_solver. Qed.
Lemma delete_set (F : gset Z) (old new : Z) : old ∉ F -> ({[old]} ∪ F ∖ {[new]}) ∖ {[old]} = F ∖ {[new]}.
Proof. set_solver. Qed.

Lemma rep_del (m : lmem) (L : gmap Z (list Z)) (F : gset Z) (e h : Z) (xs ys : list Z) :
  rep m (Lists L F) -> L !! h = Some (xs ++ e :: ys) -> refines (list_del e m) (Lists (<[h := xs ++ ys]> L) ({[e]} ∪ F)).
Proof.
  intros H E. eapply refines_bind; [by eapply rep_unlink|]. intros m' H'. apply rep_poison; [done|set_solver].
Qed.
Lemma rep_move (m : lmem) (L : gmap Z (list Z)) (F : gset Z) (e h h' : Z) (xs ys zs : list Z) :
  rep m (Lists L F) -> L !! h = Some (xs ++ e :: ys) -> <[h := xs ++ ys]> L !! h' = Some zs ->
  refines (list_move e h' m) (Lists (<[h' := e :: zs]> (<[h := xs ++ ys]> L)) F) /\
  refines (list_move_tail e h' m) (Lists (<[h' := zs ++ [e]]> (<[h := xs ++ ys]> L)) F).
Proof.
  intros H E E'. destruct (rep_entry_fresh _ _ _ _ _ _ _ H E) as (He & _ & _).
  split; (eapply refines_bind; [by eapply rep_unlink|]); intros m' H'.
  - rewrite <- (move_set F e He). apply rep_add; [done|set_solver|done].
  - rewrite <- (move_set F e He). apply rep_add_tail; [done|set_solver|done].
Qed.
Lemma rep_del_init (m : lmem) (L : gmap Z (list Z)) (F : gset Z) (e h : Z) (xs ys : list Z) :
  rep m (Lists L F) -> L !! h = Some (xs ++ e :: ys) ->
  refines (list_del_init e m) (Lists (<[e := []]> (<[h := xs ++ ys]> L)) F).
Proof.
  intros H E. destruct (rep_entry_fresh _ _ _ _ _ _ _ H E) as (He & _ & _).
  eapply refines_bind; [by eapply rep_unlink|]. intros m' H'.
  rewrite <- (move_set F e He). apply rep_init; [done|set_solver].
Qed.
Lemma rep_rotate (m : lmem) (L : gmap Z (list Z)) (F : gset Z) (h x : Z) (xs : list Z) :
  rep m (Lists L F) -> L !! h = Some (x :: xs) ->
  refines (list_rotate_left h m) (Lists (<[h := xs ++ [x]]> L) F).
Proof.
  intros H E. unfold list_rotate_left. rewrite (rep_list_empty m (Lists L F) h _ H E). cbn [res_bind].
  rewrite bool_decide_false by done. destruct (rep_next _ _ _ _ H E) as (n & [= <-] & Hn).
  rewrite (get_next_run h x m Hn). cbn [res_bind].
  destruct (rep_move m L F x h h [] xs xs H E) as [_ H']; [by rewrite lookup_insert_eq|].
  by rewrite insert_insert_eq in H'.
Qed.
Lemma rep_splice_all (m : lmem) (L : gmap Z (list Z)) (F : gset Z) (l h : Z) (xs ys : list Z) :
  rep m (Lists L F) -> L !! l = Some xs -> L !! h = Some ys -> l <> h -> xs <> [] ->
  (refines (list_splice l h m) (Lists (<[h := xs ++ ys]> (delete l L)) ({[l]} ∪ F)) /\
   refines (list_splice_tail l h m) (Lists (<[h := ys ++ xs]> (delete l L)) ({[l]} ∪ F))) /\
  refines (list_splice_init l h m) (Lists (<[l := []]> (<[h := xs ++ ys]> (delete l L))) F) /\
  refines (list_splice_tail_init l h m) (Lists (<[l := []]> (<[h := ys ++ xs]> (delete l L))) F).
Proof.
  intros H E1 E2 N Nx. destruct (rep_splice m L F l h xs ys H E1 E2 N Nx) as [H1 H2].
  assert (l ∉ F) as Hl. { intros Hl. by rewrite (rep_loose_head _ _ _ _ H Hl) in E1. }
  unfold list_splice, list_splice_tail, list_splice_init, list_splice_tail_init.
  rewrite (rep_list_empty m (Lists L F) l _ H E1). cbn [res_bind]. rewrite bool_decide_false by done.
  split; [done|]. rewrite <- !res_bind_assoc.
  split; (eapply refines_bind; [done|]); intros m' H'; rewrite <- (move_set F l Hl); (apply rep_init; [done|set_solver]).
Qed.
Lemma rep_cut (m : lmem) (L : gmap Z (list Z)) (F : gset Z) (l h e : Z) (xs ys : list Z) :
  rep m (Lists L F) -> L !! l = Some [] -> L !! h = Some (xs ++ e :: ys) -> l <> h ->
  refines (list_cut_position l h e m) (Lists (<[l := xs ++ [e]]> (<[h := ys]> L)) F).
Proof.
  intros H E1 E2 N. assert (l ∉ F) as Hl. { intros Hl. by rewrite (rep_loose_head _ _ _ _ H Hl) in E1. }
  destruct (rep_entry_fresh _ _ _ _ _ _ _ H E2) as (_ & Heh & _).
  unfold list_cut_position. rewrite (rep_list_empty m (Lists L F) h _ H E2), (rep_list_is_singular m (Lists L F) h _ H E2).
  cbn [res_bind]. rewrite bool_decide_false by (by destruct xs). destruct (rep_next _ _ _ _ H E2) as (n & En & Hn).
  rewrite (get_next_run h n m Hn). cbn [res_bind].
  replace (bool_decide (length (xs ++ e :: ys) = 1%nat) && (negb (n =? e) && negb (h =? e))) with false.
  2: { symmetry. case_bool_decide as B; [|done]. destruct xs as [|x xs]; [|rewrite length_app in B; cbn in B; lia].
       cbn in En. injection En as <-. by rewrite Z.eqb_refl. }
  rewrite (proj2 (Z.eqb_neq e h)) by done.
  change (state m (heap L) F) in H. rewrite (heap_at2 L l h [] _ E1 E2 N) in H.
  apply state_drop in H. apply (state_rot m [h]) in H.
  replace ((xs ++ e :: ys) ++ [h]) with ((xs ++ [e]) ++ (ys ++ [h])) in H by (by rewrite <- !app_assoc).
  destruct (state_cut m _ _ _ _ l e h H) as (m' & Hm & H'); [by rewrite last_snoc..|set_solver|].
  exists m'. split; [done|]. change (state m' (heap (<[l := xs ++ [e]]> (<[h := ys]> L))) F).
  rewrite heap_put, delete_insert_ne, heap_put by done.
  replace (list_to_set [l] ∪ F) with ({[l]} ∪ F : gset Z) in H' by (clear; set_solver). rewrite (move_set F l Hl) in H'.
  apply (state_rot m' (xs ++ [e]) [l]) in H'. rewrite Permutation_swap in H'.
  apply (state_rot m' ys [h]) in H'. by rewrite Permutation_swap in H'.
Qed.
Lemma rep_cut_nothing (m : lmem) (L : gmap Z (list Z)) (F : gset Z) (l h : Z) (xs : list Z) :
  rep m (Lists L F) -> L !! l = Some [] -> L !! h = Some xs -> l <> h ->
  refines (list_cut_position l h h m) (Lists L F).
Proof.
  intros H E1 E2 N. assert (l ∉ F) as Hl. { intros Hl. by rewrite (rep_loose_head _ _ _ _ H Hl) in E1. }
  unfold list_cut_position. rewrite (rep_list_empty m (Lists L F) h _ H E2), (rep_list_is_singular m (Lists L F) h _ H E2).
  cbn [res_bind]. case_bool_decide; [by exists m|]. destruct (rep_next _ _ _ _ H E2) as (n & En & Hn).
  rewrite (get_next_run h n m Hn). cbn [res_bind]. rewrite Z.eqb_refl, !andb_false_r.
  change (state m (heap L) F) in H. rewrite (heap_at L l [] E1) in H. apply state_drop in H.
  replace (list_to_set [l] ∪ F) with ({[l]} ∪ F : gset Z) in H by (clear; set_solver).
  destruct (state_init m _ _ l H) as (m' & -> & H'); [set_solver|]. exists m'. split; [done|].
  rewrite (move_set F l Hl) in H'. change (state m' (heap L) F). by rewrite (heap_at L l [] E1).
Qed.

Lemma exec_refines (o : list_op) (m : lmem) (A A' : lists) : rep m A -> lstep o A A' -> refines (exec o m) A'.
Proof.
  intros H S. destruct S; cbn [exec].
  - by apply rep_init.
  - by apply rep_add.
  - by apply rep_add_tail.
  - by apply rep_del.
  - by apply rep_del_init.
  - by eapply rep_move.
  - by eapply rep_move.
  - by apply rep_replace.
  - by apply rep_replace_head.
  - destruct (rep_entry_fresh _ _ _ _ _ _ _ H ltac:(eassumption)) as (Ho & _ & _).
    eapply refines_bind; [by eapply rep_replace|]. intros m' H'. rewrite <- (delete_set F old new Ho).
    apply rep_init; [done|set_solver].
  - assert (old ∉ F) as Ho. { intros Ho. pose proof (rep_loose_head _ _ _ _ H Ho). congruence. }
    eapply refines_bind; [by eapply rep_replace_head|]. intros m' H'. rewrite <- (delete_set F old new Ho).
    apply rep_init; [done|set_solver].
  - by apply rep_rotate.
  - unfold list_rotate_left. rewrite (rep_list_empty m (Lists L F) h []) by done. by exists m.
  - by eapply rep_splice_all.
  - by eapply rep_splice_all.
  - assert (refines (Ret m) (Lists L F)) as Hm by (by exists m).
    repeat (match goal with H : _ ∈ _ :: _ |- _ => apply elem_of_cons in H as [->|H] end); [..|by apply elem_of_nil in H1];
      cbn [exec]; unfold list_splice, list_splice_tail, list_splice_init, list_splice_tail_init;
      rewrite (rep_list_empty m (Lists L F) l []) by done; done.
  - by eapply rep_splice_all.
  - by eapply rep_splice_all.
  - by apply rep_cut.
  - by eapply rep_cut_nothing.
Qed.

(** C29: every sequence of list operations that the abstract lists allow runs without following a
    bad pointer on the nodes in memory, and ends in a memory that stands for the resulting lists: each
    of them is read in its order by [list_for_each], and [list_empty] and [list_is_singular] tell
    its length.  The removed nodes are on no list. *)
Theorem list_operations_refine (os : list list_op) (m : lmem) (A A' : lists) :
  rep m A -> lsteps os A A' ->
  exists m', exec_all os m = Ret m' /\ rep m' A' /\
    (forall h xs, contents A' !! h = Some xs ->
      list_for_each (S (length xs)) h m' = Ret xs /\
      list_empty h m' = Ret (bool_decide (xs = [])) /\
      list_is_singular h m' = Ret (bool_decide (length xs = 1%nat))).
Proof.
  intros H S. revert m H. induction S as [A|o os A1 A2 A3 S1 S2 IH]; intros m H.
  - exists m. split_and!; [done..|]. intros h xs E.
    split_and!; [by eapply rep_list_for_each; [..|lia]|by eapply rep_list_empty|by eapply rep_list_is_singular].
  - destruct (exec_refines o m A1 A2 H S1) as (m1 & E1 & H1). cbn [exec_all]. rewrite E1. cbn [res_bind]. by apply IH.
Qed.

(** ** Removal in the loop *)

(** The body of a loop that takes the nodes chosen by [f] off the list. *)
Definition del_if (f : Z -> bool) (p : Z) (m : lmem) : res lmem := if f p then list_del p m else Ret m.

Lemma rep_next_at (m : lmem) (A : lists) (h x : Z) (ks xs : list Z) :
  rep m A -> contents A !! h = Some (ks ++ x :: xs) -> exists n, head (xs ++ [h]) = Some n /\ nxt m x = Some n.
Proof.
  intros H E. pose proof (rep_ring _ _ _ _ H E) as Hr. apply (ring_rot m [h]) in Hr as (_ & Hl & _).
  rewrite <- app_assoc in Hl. apply links_app in Hl as (_ & [J _] & _).
  destruct (ends (xs ++ [h])) as (? & n & _ & En); [by destruct xs|]. exists n. split; [done|].
  by apply (J x n).
Qed.

Lemma for_each_safe_path (f : Z -> bool) (fuel : nat) (L : gmap Z (list Z)) (F : gset Z) (m : lmem) (h pos n : Z) (ks xs : list Z) :
  rep m (Lists L F) -> L !! h = Some (ks ++ xs) -> head (xs ++ [h]) = Some pos -> nxt m pos = Some n ->
  (length xs < fuel)%nat ->
  refines (for_each_safe (del_if f) fuel pos n h m)
    (Lists (<[h := ks ++ filter (fun x => f x = false) xs]> L) (list_to_set (filter (fun x => f x = true) xs) ∪ F)).
Proof.
  revert L F m pos n ks xs. induction fuel as [|fuel IH]; intros L F m pos n ks xs H E Ep Hn Hf; [lia|].
  destruct xs as [|x xs]; cbn in Ep; injection Ep as <-; cbn [for_each_safe].
  - rewrite Z.eqb_refl, insert_id by done. exists m. split; [done|].
    replace (list_to_set _ ∪ F) with F by (cbn; set_solver). done.
  - destruct (rep_entry_fresh _ _ _ _ _ _ _ H E) as (HxF & Hxh & _). rewrite (proj2 (Z.eqb_neq x h)) by done.
    destruct (rep_next_at _ _ _ _ _ _ H E) as (n' & En' & Hn'). rewrite Hn in Hn'. injection Hn' as <-.
    assert (exists ks' m1 L1 F1, del_if f x m = Ret m1 /\ rep m1 (Lists L1 F1) /\ L1 !! h = Some (ks' ++ xs) /\
      (<[h := ks' ++ filter (fun x => f x = false) xs]> L1) = (<[h := ks ++ filter (fun x => f x = false) (x :: xs)]> L) /\
      list_to_set (filter (fun x => f x = true) xs) ∪ F1 = list_to_set (filter (fun x => f x = true) (x :: xs)) ∪ F)
      as (ks' & m1 & L1 & F1 & Hb & H1 & E1 & <- & <-).
    { unfold del_if. rewrite !filter_cons. destruct (f x) eqn:Fx.
      - destruct (rep_del m L F x h ks xs H E) as (m1 & Hm1 & H1). exists ks, m1. eexists _, _.
        split_and!; [done..|by rewrite lookup_insert_eq| |].
        + by rewrite insert_insert_eq, decide_False.
        + rewrite decide_True by done. cbn [list_to_set]. set_solver.
      - exists (ks ++ [x]), m, L, F. split_and!; [done..| | |].
        + by rewrite <- app_assoc.
        + by rewrite decide_True, <- app_assoc.
        + by rewrite decide_False. }
    rewrite Hb. cbn [res_bind]. assert (exists n1, nxt m1 n = Some n1) as [n1 Hn1].
    { destruct xs as [|y ys]; cbn in En'; injection En' as <-.
      - destruct (rep_next _ _ _ _ H1 E1) as (n1 & _ & ?). by exists n1.
      - destruct (rep_next_at _ _ _ _ _ _ H1 E1) as (n1 & _ & ?). by exists n1. }
    rewrite (get_next_run n n1 m1 Hn1). cbn [res_bind]. apply IH; [done..|cbn in Hf; lia].
Qed.

(** The loop [list_for_each_safe] may take the node it is at off the list: with any choice of
    nodes to remove it ends, the nodes not chosen stay on the list in their order, and the chosen
    ones are on no list. *)
Theorem list_for_each_safe_removes (f : Z -> bool) (L : gmap Z (list Z)) (F : gset Z) (m : lmem) (h : Z) (xs : list Z) :
  rep m (Lists L F) -> L !! h = Some xs ->
  refines (list_for_each_safe (del_if f) (S (length xs)) h m)
    (Lists (<[h := filter (fun x => f x = false) xs]> L) (list_to_set (filter (fun x => f x = true) xs) ∪ F)).
Proof.
  intros H E. destruct (rep_next _ _ _ _ H E) as (pos & Ep & Hp). unfold list_for_each_safe.
  rewrite (get_next_run h pos m Hp). cbn [res_bind].
  assert (exists n, nxt m pos = Some n) as [n Hn].
  { destruct xs as [|x xs]; cbn in Ep; injection Ep as <-; [by exists h|].
    destruct (rep_next_at m (Lists L F) h x [] xs H E) as (n & _ & ?). by exists n. }
  rewrite (get_next_run pos n m Hn). cbn [res_bind]. by apply (for_each_safe_path f _ L F m h pos n []); [..|lia].
Qed.

(** ** A run *)
Module Demo.
(** Two heads and three nodes, with nothing in them yet. *)
Definition m0 : lmem := list_to_map ((fun p => (p, List_head 0 0)) <$> [100; 200; 1; 2; 3]).
Definition A0 : lists := Lists ∅ {[100; 200; 1; 2; 3]}.
Lemma rep0 : rep m0 A0.
Proof. split_and!; [split; constructor| |intros p _ []%elem_of_nil]. apply (bool_decide_unpack _). vm_compute. done. Qed.

Definition script : list list_op :=
  [Init 100; Init 200; AddTail 1 100; AddTail 2 100; Add 3 100; Move 2 200; RotateLeft 100; SpliceTailInit 100 200].

Lemma list_operations_refine_witness :
  exists m', exec_all script m0 = Ret m' /\ list_for_each 4 200 m' = Ret [2; 1; 3] /\ list_empty 100 m' = Ret true.
Proof.
  assert (exists A', lsteps script A0 A' /\ contents A' !! 200 = Some [2; 1; 3] /\ contents A' !! 100 = Some []) as (A' & S & E2 & E1).
  { eexists. split.
    - unfold script, A0.
      eapply Steps_cons; [eapply S_Init; set_solver|].
      eapply Steps_cons; [eapply S_Init; set_solver|].
      eapply Steps_cons; [eapply S_AddTail; [set_solver|reflexivity]|].
      eapply Steps_cons; [eapply S_AddTail; [set_solver|reflexivity]|].
      eapply Steps_cons; [eapply S_Add; [set_solver|reflexivity]|].
      eapply Steps_cons; [apply (S_Move _ _ 2 100 [3; 1] [] 200 []); reflexivity|].
      eapply Steps_cons; [eapply S_RotateLeft; reflexivity|].
      eapply Steps_cons; [eapply S_SpliceTailInit; [reflexivity..|done|done]|]. apply Steps_nil.
    - split; reflexivity. }
  destruct (list_operations_refine script m0 A0 A' rep0 S) as (m' & Hm & _ & Hr). exists m'.
  destruct (Hr 200 _ E2) as (H2 & _). destruct (Hr 100 _ E1) as (_ & H1 & _). auto.
Defined.

Lemma list_for_each_safe_removes_witness :
  exists m, exec_all [Init 100; AddTail 1 100; AddTail 2 100; AddTail 3 100] m0 = Ret m /\
    exists m', list_for_each_safe (del_if Z.odd) 4 100 m = Ret m' /\ list_for_each 2 100 m' = Ret [2].
Proof.
  eexists. split; [vm_compute; reflexivity|].
  match goal with |- exists m', list_for_each_safe _ _ _ ?m = _ /\ _ => set (m1 := m) end.
  assert (rep m1 (Lists {[100 := [1; 2; 3]]} ∅)) as H.
  { split_and!; [|set_solver|set_solver]. split; [|apply (bool_decide_unpack _); vm_compute; done].
    apply Forall_singleton. split_and!; [apply (bool_decide_unpack _); vm_compute; done| |].
    - cbn. split_and!; try done; intros p q [= <-] [= <-]; split; vm_compute; reflexivity.
    - intros p q [= <-] [= <-]; split; vm_compute; reflexivity. }
  destruct (list_for_each_safe_removes Z.odd _ _ m1 100 [1; 2; 3] H eq_refl) as (m' & E & R). exists m'. split; [exact E|].
  vm_compute in E. injection E as <-. vm_compute. reflexivity.
Defined.
End Demo.
