(* ===== verification/KHlist.v ===== *)
(** * Lists with a single pointer as their head: struct hlist_head and struct hlist_node of include/linux/list.h

    The system call queues found by hash are on such lists.  A node points back to the pointer that
    points to it, which is the [first] of the head or the [next] of another node. *)
From S2P Require Import Prelude KList.

Inductive hptr :=
| PNull
| PPoison
| PFirst (h : Z)
| PNext (n : Z).
#[export] Instance hptr_eq_dec : EqDecision hptr.
Proof. solve_decision. Defined.

Record hlist_node := Hlist_node { hnext : Z; pprev : hptr }.
Record hmem := Hmem { heads : gmap Z Z; nodes : gmap Z hlist_node }.

Definition set_hnext (n v : Z) (m : hmem) : res hmem :=
  let! d := deref (nodes m !! n) in Ret (Hmem (heads m) (<[n := Hlist_node v (pprev d)]> (nodes m))).
Definition set_pprev (n : Z) (v : hptr) (m : hmem) : res hmem :=
  let! d := deref (nodes m !! n) in Ret (Hmem (heads m) (<[n := Hlist_node (hnext d) v]> (nodes m))).
Definition get_hnext (n : Z) (m : hmem) : res Z := let! d := deref (nodes m !! n) in Ret (hnext d).
Definition get_pprev (n : Z) (m : hmem) : res hptr := let! d := deref (nodes m !! n) in Ret (pprev d).
Definition get_first (h : Z) (m : hmem) : res Z := deref (heads m !! h).
Definition set_first (h v : Z) (m : hmem) : res hmem :=
  let! _ := deref (heads m !! h) in Ret (Hmem (<[h := v]> (heads m)) (nodes m)).
(** [*p = v]. *)
Definition store (p : hptr) (v : Z) (m : hmem) : res hmem :=
  match p with
  | PNull | PPoison => Bug
  | PFirst h => set_first h v m
  | PNext n => set_hnext n v m
  end.

Definition INIT_HLIST_HEAD (h : Z) (m : hmem) : res hmem := set_first h 0 m.
Definition INIT_HLIST_NODE (h : Z) (m : hmem) : res hmem :=
  let! m := set_hnext h 0 m in set_pprev h PNull m.
Definition hlist_unhashed (h : Z) (m : hmem) : res bool :=
  let! p := get_pprev h m in Ret (bool_decide (p = PNull)).
Definition hlist_empty (h : Z) (m : hmem) : res bool := let! f := get_first h m in Ret (f =? 0).

Definition __hlist_del (n : Z) (m : hmem) : res hmem :=
  let! next := get_hnext n m in
  let! pp := get_pprev n m in
  let! m := store pp next m in
  if next =? 0 then Ret m else set_pprev next pp m.
Definition hlist_del (n : Z) (m : hmem) : res hmem :=
  let! m := __hlist_del n m in
  let! m := set_hnext n LIST_POISON1 m in
  set_pprev n PPoison m.
Definition hlist_del_init (n : Z) (m : hmem) : res hmem :=
  let! u := hlist_unhashed n m in
  if u then Ret m else let! m := __hlist_del n m in INIT_HLIST_NODE n m.
Definition hlist_add_head (n h : Z) (m : hmem) : res hmem :=
  let! first := get_first h m in
  let! m := set_hnext n first m in
  let! m := if first =? 0 then Ret m else set_pprev first (PNext n) m in
  let! m := set_first h n m in
  set_pprev n (PFirst h) m.
Definition hlist_add_before (n next : Z) (m : hmem) : res hmem :=
  let! pp := get_pprev next m in
  let! m := set_pprev n pp m in
  let! m := set_hnext n next m in
  let! m := set_pprev next (PNext n) m in
  let! pp := get_pprev n m in
  store pp n m.
Definition hlist_add_after (n next : Z) (m : hmem) : res hmem :=
  let! nn := get_hnext n m in
  let! m := set_hnext next nn m in
  let! m := set_hnext n next m in
  let! m := set_pprev next (PNext n) m in
  let! nn := get_hnext next m in
  if nn =? 0 then Ret m
  else let! nn := get_hnext next m in set_pprev nn (PNext next) m.
Definition hlist_move_list (old new : Z) (m : hmem) : res hmem :=
  let! f := get_first old m in
  let! m := set_first new f m in
  let! f := get_first new m in
  let! m := if f =? 0 then Ret m else let! f := get_first new m in set_pprev f (PFirst new) m in
  set_first old 0 m.

(** [hlist_for_each]: the nodes in the order of the loop. *)
Fixpoint hfor_each (fuel : nat) (pos : Z) (m : hmem) : res (list Z) :=
  match fuel with
  | O => OutOfFuel
  | S fuel => if pos =? 0 then Ret [] else let! n := get_hnext pos m in let! l := hfor_each fuel n m in Ret (pos :: l)
  end.
Definition hlist_for_each (fuel : nat) (h : Z) (m : hmem) : res (list Z) :=
  let! pos := get_first h m in hfor_each fuel pos m.

(** ** Paths *)

Definition hread (m : hmem) (p : hptr) : option Z :=
  match p with
  | PNull | PPoison => None
  | PFirst h => heads m !! h
  | PNext n => hnext <$> nodes m !! n
  end.
Definition back (m : hmem) (n : Z) : option hptr := pprev <$> nodes m !! n.

(** From the pointer [p] over the nodes [xs] to the node [e]. *)
Fixpoint hpath (m : hmem) (p : hptr) (xs : list Z) (e : Z) : Prop :=
  match xs with
  | [] => hread m p = Some e
  | x :: xs => hread m p = Some x /\ x <> 0 /\ back m x = Some p /\ hpath m (PNext x) xs e
  end.
(** The pointer to what comes after [xs]. *)
Definition hend (p : hptr) (xs : list Z) : hptr := from_option PNext p (last xs).

Lemma hend_cons (p : hptr) (x : Z) (xs : list Z) : hend p (x :: xs) = hend (PNext x) xs.
Proof. unfold hend. destruct xs as [|y xs]; [done|]. rewrite last_cons_cons. by destruct (last (y :: xs)) eqn:E; [|apply last_None in E]. Qed.
Lemma hpath_app (m : hmem) (p : hptr) (xs ys : list Z) (y e : Z) :
  hpath m p (xs ++ y :: ys) e <-> hpath m p xs y /\ y <> 0 /\ back m y = Some (hend p xs) /\ hpath m (PNext y) ys e.
Proof.
  revert p. induction xs as [|x xs IH]; intros p; cbn [hpath app]; [done|]. rewrite hend_cons, IH. tauto.
Qed.
Lemma hpath_end (m : hmem) (p : hptr) (xs : list Z) (e : Z) : hpath m p xs e -> hread m (hend p xs) = Some e.
Proof. revert p. induction xs as [|x xs IH]; intros p; cbn [hpath]; [done|]. rewrite hend_cons. intros (_ & _ & _ & H). by apply IH. Qed.
(** The last pointer of a path can be set to another node. *)
Lemma hpath_change (m m' : hmem) (p : hptr) (xs : list Z) (e e' : Z) :
  hpath m p xs e -> NoDup xs -> (forall x, x ∈ xs -> p <> PNext x) ->
  (forall q, (q = p \/ exists x, x ∈ xs /\ q = PNext x) -> q <> hend p xs -> hread m' q = hread m q) ->
  (forall x, x ∈ xs -> back m' x = back m x) -> hread m' (hend p xs) = Some e' -> hpath m' p xs e'.
Proof.
  revert p. induction xs as [|x xs IH]; intros p H Hd Hp Hr Hb He; cbn [hpath] in *; [done|].
  destruct H as (H1 & H2 & H3 & H4). apply NoDup_cons in Hd as [Hx Hd]. rewrite hend_cons in *.
  split_and!; [|done|rewrite Hb by (by left); done|].
  - rewrite Hr; [done|by left|]. unfold hend. destruct (last xs) as [z|] eqn:E; cbn; [|by apply Hp; left].
    apply Hp. right. by apply last_in.
  - apply IH; [done..| | | |done].
    + intros y Hy [= ->]. done.
    + intros q Hq. apply Hr. right. destruct Hq as [->|(y & Hy & ->)]; [exists x|exists y]; split; [by left|done|by right|done].
    + intros y Hy. apply Hb. by right.
Qed.
Lemma hpath_split (m : hmem) (p : hptr) (xs ys : list Z) (e : Z) :
  hpath m p (xs ++ ys) e <-> hpath m p xs (hd e ys) /\ hpath m (hend p xs) ys e.
Proof.
  destruct ys as [|y ys].
  - rewrite app_nil_r. cbn [hd hpath]. split; [|tauto]. intros H. split; [done|by eapply hpath_end].
  - rewrite hpath_app. cbn [hd hpath]. split; [|tauto]. intros (H & ? & ? & ?). split_and!; try done. by eapply hpath_end.
Qed.
(** A path can be reached from another pointer. *)
Lemma hpath_restart (m m' : hmem) (p q : hptr) (ys : list Z) (e : Z) :
  hpath m q ys e -> NoDup ys -> hread m' p = Some (hd e ys) -> (forall y, head ys = Some y -> back m' y = Some p) ->
  (forall y, y ∈ ys -> hread m' (PNext y) = hread m (PNext y)) ->
  (forall y, y ∈ ys -> head ys <> Some y -> back m' y = back m y) -> hpath m' p ys e.
Proof.
  revert p q. induction ys as [|y ys IH]; intros p q H Hd Hp Hb Hr Hk; cbn [hpath hd] in *; [done|].
  destruct H as (_ & H2 & _ & H4). apply NoDup_cons in Hd as [Hy Hd]. split_and!; [done..|by apply Hb|].
  assert (hread m (PNext y) = Some (hd e ys)) as Hn by (destruct ys; [done|apply H4]).
  apply (IH (PNext y) (PNext y)); [done..| | | |].
  - rewrite Hr; [done|by left].
  - intros z Ez. destruct ys as [|z' ys]; [done|]. injection Ez as ->. rewrite Hk; [apply H4|by right; left|].
    cbn. intros [= ->]. apply Hy. by left.
  - intros z Hz. apply Hr. by right.
  - intros z Hz _. apply Hk; [by right|]. cbn. intros [= ->]. done.
Qed.

(** *** What an insertion and a removal do to the fields *)

Lemma hend_in (p : hptr) (xs : list Z) (z : Z) : hend p xs = PNext z -> z ∈ xs \/ p = PNext z.
Proof. unfold hend. destruct (last xs) as [x|] eqn:E; cbn; [|by right]. intros [= ->]. left. by apply last_in. Qed.

Lemma hpath_insert (m m' : hmem) (h n e : Z) (xs ys : list Z) :
  hpath m (PFirst h) (xs ++ ys) e -> NoDup (xs ++ ys) -> n ∉ xs ++ ys -> n <> 0 ->
  hread m' (hend (PFirst h) xs) = Some n -> back m' n = Some (hend (PFirst h) xs) -> hread m' (PNext n) = Some (hd e ys) ->
  (forall y, head ys = Some y -> back m' y = Some (PNext n)) ->
  (forall q, q <> hend (PFirst h) xs -> q <> PNext n -> hread m' q = hread m q) ->
  (forall x, x <> n -> head ys <> Some x -> back m' x = back m x) ->
  hpath m' (PFirst h) (xs ++ n :: ys) e.
Proof.
  intros [H1 H2]%hpath_split (Hd1 & Hx & Hd2)%NoDup_app [Hn1 Hn2]%not_elem_of_app N0 R1 B1 R2 B2 Rk Bk.
  apply hpath_split. cbn [hd hpath]. split_and!; try done.
  - apply (hpath_change m _ _ _ (hd e ys)); [done..| | |done].
    + intros q Hq Hne. apply Rk; [done|]. destruct Hq as [->|(x & Hx' & ->)]; [done|]. intros [= ->]. done.
    + intros x Hx'. apply Bk; [by intros ->|]. intros E%head_in. by apply (Hx x).
  - apply (hpath_restart m m' (PNext n) (hend (PFirst h) xs)); [done..| |].
    + intros y Hy. apply Rk; [|by intros [= ->]]. intros E. symmetry in E. apply hend_in in E as [E|E]; [by apply (Hx y)|done].
    + intros y Hy Hh. apply Bk; [by intros ->|done].
Qed.

Lemma hpath_remove (m m' : hmem) (h n e : Z) (xs ys : list Z) :
  hpath m (PFirst h) (xs ++ n :: ys) e -> NoDup (xs ++ n :: ys) ->
  hread m' (hend (PFirst h) xs) = Some (hd e ys) ->
  (forall y, head ys = Some y -> back m' y = Some (hend (PFirst h) xs)) ->
  (forall q, q <> hend (PFirst h) xs -> q <> PNext n -> hread m' q = hread m q) ->
  (forall x, x <> n -> head ys <> Some x -> back m' x = back m x) ->
  hpath m' (PFirst h) (xs ++ ys) e.
Proof.
  intros (H1 & N0 & B & H2)%hpath_app (Hd1 & Hx & Hd2)%NoDup_app R1 B1 Rk Bk.
  apply NoDup_cons in Hd2 as [Hn Hd2]. apply hpath_split. split.
  - apply (hpath_change m _ _ _ n); [done..| | |done].
    + intros q Hq Hne. apply Rk; [done|]. destruct Hq as [->|(x & Hx' & ->)]; [done|]. intros [= ->]. apply (Hx n); [done|by left].
    + intros x Hx'. apply Bk; [intros ->; apply (Hx n); [done|by left]|]. intros E%head_in. apply (Hx x); [done|by right].
  - apply (hpath_restart m m' _ (PNext n)); [done..| |].
    + intros y Hy. apply Rk; [|by intros [= ->]]. intros E. symmetry in E.
      apply hend_in in E as [E|E]; [apply (Hx y); [done|by right]|done].
    + intros y Hy Hh. apply Bk; [by intros ->|done].
Qed.

(** *** The writes, where the pointer is valid *)

Definition wstore (p : hptr) (v : Z) (m : hmem) : hmem :=
  match p with
  | PNull | PPoison => m
  | PFirst h => Hmem (<[h := v]> (heads m)) (nodes m)
  | PNext n => Hmem (heads m) (alter (fun d => Hlist_node v (pprev d)) n (nodes m))
  end.
Definition wpprev (n : Z) (v : hptr) (m : hmem) : hmem :=
  Hmem (heads m) (alter (fun d => Hlist_node (hnext d) v) n (nodes m)).

Lemma alter_insert (n : Z) (d : hlist_node) (f : hlist_node -> hlist_node) (N : gmap Z hlist_node) :
  N !! n = Some d -> alter f n N = <[n := f d]> N.
Proof.
  intros E. apply map_eq; intros q. destruct (decide (q = n)) as [->|Hq].
  - by rewrite lookup_insert_eq, lookup_alter_eq, E.
  - by rewrite lookup_insert_ne, lookup_alter_ne.
Qed.
Lemma store_run (p : hptr) (v : Z) (m : hmem) : is_Some (hread m p) -> store p v m = Ret (wstore p v m).
Proof.
  intros [w E]. destruct p as [| |h|n]; cbn in *; [done..| |].
  - unfold set_first. by rewrite E.
  - unfold set_hnext. destruct (nodes m !! n) as [d|] eqn:En; [|done]. cbn. by rewrite (alter_insert n d).
Qed.
Lemma set_pprev_run (n : Z) (v : hptr) (m : hmem) : is_Some (hread m (PNext n)) -> set_pprev n v m = Ret (wpprev n v m).
Proof.
  intros [w E]. cbn in E. unfold set_pprev, wpprev. destruct (nodes m !! n) as [d|] eqn:En; [|done]. cbn.
  by rewrite (alter_insert n d).
Qed.
Lemma set_hnext_store (n v : Z) (m : hmem) : set_hnext n v m = store (PNext n) v m.
Proof. done. Qed.
Lemma set_first_store (h v : Z) (m : hmem) : set_first h v m = store (PFirst h) v m.
Proof. done. Qed.
Lemma get_hnext_run (n v : Z) (m : hmem) : hread m (PNext n) = Some v -> get_hnext n m = Ret v.
Proof. cbn. unfold get_hnext. destruct (nodes m !! n); cbn; naive_solver. Qed.
Lemma get_pprev_run (n : Z) (v : hptr) (m : hmem) : back m n = Some v -> get_pprev n m = Ret v.
Proof. unfold back, get_pprev. destruct (nodes m !! n); cbn; naive_solver. Qed.
Lemma get_first_run (h v : Z) (m : hmem) : hread m (PFirst h) = Some v -> get_first h m = Ret v.
Proof. cbn. unfold get_first. by intros ->. Qed.

Lemma hread_wstore (p q : hptr) (v : Z) (m : hmem) :
  is_Some (hread m p) -> hread (wstore p v m) q = if decide (q = p) then Some v else hread m q.
Proof.
  intros [w E]. destruct p as [| |h|n]; [done..| |]; cbn [wstore]; case_decide as Hq; [subst| |subst|].
  - cbn. by rewrite lookup_insert_eq.
  - destruct q; cbn; try done. rewrite lookup_insert_ne; [done|congruence].
  - cbn in *. rewrite lookup_alter_eq. by destruct (nodes m !! n).
  - destruct q; cbn; try done. rewrite lookup_alter_ne; [done|congruence].
Qed.
Lemma back_wstore (p : hptr) (v x : Z) (m : hmem) : back (wstore p v m) x = back m x.
Proof.
  unfold back. destruct p as [| |h|n]; cbn; try done. destruct (decide (x = n)) as [->|].
  - rewrite lookup_alter_eq. by destruct (nodes m !! n).
  - by rewrite lookup_alter_ne.
Qed.
Lemma hread_wpprev (n : Z) (v : hptr) (q : hptr) (m : hmem) : hread (wpprev n v m) q = hread m q.
Proof.
  destruct q as [| |h|x]; cbn; try done. destruct (decide (x = n)) as [->|].
  - rewrite lookup_alter_eq. by destruct (nodes m !! n).
  - by rewrite lookup_alter_ne.
Qed.
Lemma back_wpprev (n x : Z) (v : hptr) (m : hmem) :
  is_Some (hread m (PNext n)) -> back (wpprev n v m) x = if decide (x = n) then Some v else back m x.
Proof.
  intros [w E]. cbn in E. unfold back, wpprev. cbn. case_decide as Hx; [subst|].
  - rewrite lookup_alter_eq. by destruct (nodes m !! n).
  - by rewrite lookup_alter_ne.
Qed.
Lemma valid_wstore (p q : hptr) (v : Z) (m : hmem) : is_Some (hread m p) -> is_Some (hread m q) -> is_Some (hread (wstore p v m) q).
Proof. intros Hp Hq. rewrite hread_wstore by done. case_decide; [by eexists|done]. Qed.
Lemma valid_wpprev (n : Z) (v : hptr) (q : hptr) (m : hmem) : is_Some (hread m q) -> is_Some (hread (wpprev n v m) q).
Proof. by rewrite hread_wpprev. Qed.
Lemma back_valid (m : hmem) (n : Z) : is_Some (hread m (PNext n)) <-> is_Some (back m n).
Proof. unfold back. cbn. by rewrite !fmap_is_Some. Qed.

Ltac hvalid := repeat first [assumption | apply valid_wpprev | apply valid_wstore | (eexists; eassumption)].
Ltac hrun :=
  repeat first
    [ rewrite set_hnext_store | rewrite set_first_store
    | rewrite store_run by hvalid | rewrite set_pprev_run by hvalid | progress cbn [res_bind] ].
Ltac hview :=
  repeat first
    [ rewrite hread_wstore by hvalid | rewrite hread_wpprev
    | rewrite back_wstore | rewrite back_wpprev by hvalid ].

(** ** A table of lists *)

Record table := Table { chains : gmap Z (list Z); unhashed : gset Z }.
Definition hrep (m : hmem) (A : table) : Prop :=
  (forall h xs, chains A !! h = Some xs -> hpath m (PFirst h) xs 0 /\ NoDup xs /\ (forall x, x ∈ xs -> x ∉ unhashed A)) /\
  (forall h h' xs xs', chains A !! h = Some xs -> chains A !! h' = Some xs' -> h <> h' -> xs ## xs') /\
  (forall x, x ∈ unhashed A -> x <> 0 /\ is_Some (hread m (PNext x))).

(** All that differs between [m] and [m'] is the head [h] and the nodes [ns]. *)
Definition only (m m' : hmem) (h : Z) (ns : Z -> Prop) : Prop :=
  (forall q, q <> PFirst h -> (forall x, ns x -> q <> PNext x) -> hread m' q = hread m q) /\
  (forall x, ~ ns x -> back m' x = back m x) /\
  (forall q, is_Some (hread m q) -> is_Some (hread m' q)).

Lemma hpath_same (m m' : hmem) (p : hptr) (xs : list Z) (e : Z) :
  hpath m p xs e -> hread m' p = hread m p -> (forall x, x ∈ xs -> hread m' (PNext x) = hread m (PNext x) /\ back m' x = back m x) ->
  hpath m' p xs e.
Proof.
  revert p. induction xs as [|x xs IH]; intros p H Hp Hx; cbn [hpath] in *; [congruence|].
  destruct H as (H1 & H2 & H3 & H4). destruct (Hx x (list_elem_of_here x xs)) as [R B]. split_and!; [congruence|done|congruence|].
  apply IH; [done..|]. intros y Hy. apply Hx. by right.
Qed.
Lemma hpath_valid (m : hmem) (p : hptr) (xs : list Z) (e x : Z) : hpath m p xs e -> x ∈ xs -> x <> 0 /\ is_Some (hread m (PNext x)).
Proof.
  revert p. induction xs as [|y xs IH]; intros p H Hx; [by apply elem_of_nil in Hx|].
  destruct H as (_ & H2 & H3 & H4). apply elem_of_cons in Hx as [->|Hx]; [|by eapply IH].
  split; [done|]. apply back_valid. by eexists.
Qed.

Lemma hrep_update (m m' : hmem) (T : gmap Z (list Z)) (F F' : gset Z) (h : Z) (xs xs' : list Z) :
  hrep m (Table T F) -> T !! h = Some xs -> hpath m' (PFirst h) xs' 0 -> NoDup xs' ->
  (forall x, x ∈ xs' \/ x ∈ F' -> x ∈ xs \/ x ∈ F) -> (forall x, x ∈ xs' -> x ∉ F') ->
  only m m' h (fun x => x ∈ xs \/ x ∈ F) -> hrep m' (Table (<[h := xs']> T) F').
Proof.
  intros (H1 & H2 & H3) E Hp Hd Hin Hdis (Ro & Bo & Vo). cbn [chains unhashed] in *.
  assert (forall h' ys, T !! h' = Some ys -> h <> h' -> forall y, y ∈ ys -> ~ (y ∈ xs \/ y ∈ F)) as Hoth.
  { intros h' ys E' N y Hy [Hx|Hx]; [by apply (H2 h h' xs ys E E' N y)|]. by apply (proj2 (proj2 (H1 h' ys E')) y). }
  split_and!; cbn [chains unhashed].
  - intros h' ys [[<- <-]|[N E']]%lookup_insert_Some; [done|]. destruct (H1 h' ys E') as (Hq & Hnd & Hf).
    split_and!; [|done|intros y Hy Hy'; apply (Hoth h' ys E' N y Hy), Hin; by right].
    apply (hpath_same m); [done|apply Ro; [congruence|done]|]. intros y Hy.
    split; [apply Ro; [done|]; intros x Hx [= ->]; by apply (Hoth h' ys E' N x)|apply Bo; by apply (Hoth h' ys E' N y)].
  - intros h1 h2 ys1 ys2 [[<- <-]|[N1 E1]]%lookup_insert_Some [[<- <-]|[N2 E2]]%lookup_insert_Some N; [done| | |by eapply H2].
    + intros y Hy1 Hy2. apply (Hoth h2 ys2 E2 N2 y Hy2), Hin. by left.
    + intros y Hy1 Hy2. apply (Hoth h1 ys1 E1 N1 y Hy1), Hin. by left.
  - intros x Hx. destruct (Hin x (or_intror Hx)) as [Hx'|Hx'].
    + destruct (hpath_valid m _ _ _ x (proj1 (H1 h xs E)) Hx'). auto.
    + destruct (H3 x Hx'). auto.
Qed.

Definition hrefines (r : res hmem) (A : table) : Prop := exists m', r = Ret m' /\ hrep m' A.

(** A node put anywhere on a list. *)
Lemma hrep_insert (m m' : hmem) (T : gmap Z (list Z)) (F : gset Z) (h n : Z) (xs ys : list Z) :
  hrep m (Table T F) -> T !! h = Some (xs ++ ys) -> n ∈ F ->
  hread m' (hend (PFirst h) xs) = Some n -> back m' n = Some (hend (PFirst h) xs) -> hread m' (PNext n) = Some (hd 0 ys) ->
  (forall y, head ys = Some y -> back m' y = Some (PNext n)) ->
  (forall q, q <> hend (PFirst h) xs -> q <> PNext n -> hread m' q = hread m q) ->
  (forall x, x <> n -> head ys <> Some x -> back m' x = back m x) ->
  (forall q, is_Some (hread m q) -> is_Some (hread m' q)) ->
  hrep m' (Table (<[h := xs ++ n :: ys]> T) (F ∖ {[n]})).
Proof.
  intros H E Hn R1 B1 R2 B2 Rk Bk V. pose proof H as (H1 & _ & H3). cbn [chains unhashed] in *.
  destruct (H1 h _ E) as (Hp & Hd & Hf). assert (n ∉ xs ++ ys) as Hn' by (intros ?; by apply (Hf n)).
  eapply hrep_update; [done..| | | | |].
  - apply (hpath_insert m); try done. by apply H3.
  - rewrite <- Permutation_middle. by constructor.
  - intros x. set_solver.
  - intros x Hx [HF Hne]%elem_of_difference. apply (Hf x); [set_solver|done].
  - split_and!; [| |done].
    + intros q Hq Hx. apply Rk; [|by apply Hx; right]. unfold hend. destruct (last xs) as [z|] eqn:Ez; cbn; [|done].
      apply Hx. left. apply last_in in Ez. set_solver.
    + intros x Hx. apply Bk; [intros ->; apply Hx; by right|]. intros Eh%head_in. apply Hx. left. set_solver.
Qed.
(** A node taken off a list. *)
Lemma hrep_remove (m m' : hmem) (T : gmap Z (list Z)) (F : gset Z) (h n : Z) (xs ys : list Z) :
  hrep m (Table T F) -> T !! h = Some (xs ++ n :: ys) ->
  hread m' (hend (PFirst h) xs) = Some (hd 0 ys) ->
  (forall y, head ys = Some y -> back m' y = Some (hend (PFirst h) xs)) ->
  (forall q, q <> hend (PFirst h) xs -> q <> PNext n -> hread m' q = hread m q) ->
  (forall x, x <> n -> head ys <> Some x -> back m' x = back m x) ->
  (forall q, is_Some (hread m q) -> is_Some (hread m' q)) ->
  hrep m' (Table (<[h := xs ++ ys]> T) ({[n]} ∪ F)).
Proof.
  intros H E R1 B1 Rk Bk V. pose proof H as (H1 & _ & H3). cbn [chains unhashed] in *.
  destruct (H1 h _ E) as (Hp & Hd & Hf). pose proof Hd as Hd'. rewrite <- Permutation_middle in Hd'.
  apply NoDup_cons in Hd' as [Hn Hd']. eapply hrep_update; [done..| |done| | |].
  - by eapply (hpath_remove m).
  - intros x. set_solver.
  - intros x Hx [->%elem_of_singleton|HF]%elem_of_union; [done|]. apply (Hf x); [set_solver|done].
  - split_and!; [| |done].
    + intros q Hq Hx. apply Rk; [|apply Hx; left; set_solver]. unfold hend. destruct (last xs) as [z|] eqn:Ez; cbn; [|done].
      apply Hx. left. apply last_in in Ez. set_solver.
    + intros x Hx. apply Bk; [intros ->; apply Hx; left; set_solver|]. intros Eh%head_in. apply Hx. left. set_solver.
Qed.

(** The goals about single fields. *)
Ltac hsolve := intros; hview; repeat case_decide; simplify_eq/=; try done; try congruence; try (by hvalid).

Lemma hrep_first (m : hmem) (T : gmap Z (list Z)) (F : gset Z) (h : Z) (xs : list Z) :
  hrep m (Table T F) -> T !! h = Some xs -> hread m (PFirst h) = Some (hd 0 xs).
Proof. intros (H1 & _) E. destruct (H1 h xs E) as (Hp & _). by apply (hpath_split m (PFirst h) [] xs) in Hp as [? _]. Qed.
Lemma hrep_at (m : hmem) (T : gmap Z (list Z)) (F : gset Z) (h n : Z) (xs ys : list Z) :
  hrep m (Table T F) -> T !! h = Some (xs ++ n :: ys) ->
  n <> 0 /\ hread m (hend (PFirst h) xs) = Some n /\ back m n = Some (hend (PFirst h) xs) /\ hread m (PNext n) = Some (hd 0 ys) /\
  hend (PFirst h) xs <> PNext n /\
  (forall y ys', ys = y :: ys' -> y <> 0 /\ y <> n /\ is_Some (hread m (PNext y)) /\ back m y = Some (PNext n)).
Proof.
  intros (H1 & _) E. cbn [chains] in H1. destruct (H1 h _ E) as (Hp & Hd & _). pose proof Hp as (Hx & N & B & Hy)%hpath_app.
  apply NoDup_app in Hd as (_ & Hdis & Hd). split_and!; [done|by eapply hpath_end|done|by apply (hpath_split m (PNext n) [] ys) in Hy as [? _]| |].
  - intros Ee. apply hend_in in Ee as [Ee|Ee]; [|done]. apply (Hdis n Ee). by left.
  - intros y ys' ->. destruct Hy as (_ & Ny & By & _). apply NoDup_cons in Hd as [Hd _].
    split_and!; [done|set_solver|apply back_valid; by eexists|done].
Qed.

Lemma hrep_add_head (m : hmem) (T : gmap Z (list Z)) (F : gset Z) (h n : Z) (xs : list Z) :
  hrep m (Table T F) -> T !! h = Some xs -> n ∈ F -> hrefines (hlist_add_head n h m) (Table (<[h := n :: xs]> T) (F ∖ {[n]})).
Proof.
  intros H E Hn. pose proof H as (H1 & _ & H3). destruct (H3 n Hn) as [N V]. pose proof (hrep_first _ _ _ _ _ H E) as Hf.
  assert (forall y ys, xs = y :: ys -> y <> 0 /\ y <> n /\ is_Some (hread m (PNext y))) as Hy.
  { intros y ys ->. destruct (hrep_at m T F h y [] ys H E) as (? & _ & B & _). split_and!; [done| |apply back_valid; by eexists].
    intros ->. apply (proj2 (proj2 (H1 h _ E)) n); [by left|done]. }
  assert (is_Some (hread m (PFirst h))) as Vh by (by eexists).
  unfold hlist_add_head, hrefines. rewrite (get_first_run h _ m Hf). cbn [res_bind].
  destruct xs as [|y ys]; cbn [hd].
  - rewrite Z.eqb_refl. hrun. eexists. split; [done|]. apply (hrep_insert m _ T F h n [] []); cbn [hend last from_option]; try done; hsolve.
  - destruct (Hy y ys eq_refl) as (Ny & Nyn & Vy). rewrite (proj2 (Z.eqb_neq y 0) Ny). hrun. eexists. split; [done|].
    apply (hrep_insert m _ T F h n [] (y :: ys)); cbn [hend last from_option]; try done; hsolve.
Qed.
Lemma hrep_del_ (m : hmem) (T : gmap Z (list Z)) (F : gset Z) (h n : Z) (xs ys : list Z) :
  hrep m (Table T F) -> T !! h = Some (xs ++ n :: ys) -> hrefines (__hlist_del n m) (Table (<[h := xs ++ ys]> T) ({[n]} ∪ F)).
Proof.
  intros H E. destruct (hrep_at _ _ _ _ _ _ _ H E) as (N & He & B & Hr & Ne & Hy).
  unfold __hlist_del, hrefines. rewrite (get_hnext_run n _ m Hr), (get_pprev_run n _ m B). cbn [res_bind].
  assert (is_Some (hread m (hend (PFirst h) xs))) as Ve by (by eexists).
  destruct ys as [|y ys]; cbn [hd].
  - rewrite Z.eqb_refl. hrun. eexists. split; [done|]. apply (hrep_remove m _ T F h n xs []); try done; hsolve.
  - destruct (Hy y ys eq_refl) as (Ny & Nyn & Vy & By). rewrite (proj2 (Z.eqb_neq y 0) Ny). hrun. eexists. split; [done|].
    apply (hrep_remove m _ T F h n xs (y :: ys)); try done; hsolve.
Qed.
Lemma hrep_loose (m : hmem) (T : gmap Z (list Z)) (F : gset Z) (n v : Z) (p : hptr) :
  hrep m (Table T F) -> n ∈ F -> hrefines (let! m := set_hnext n v m in set_pprev n p m) (Table T F).
Proof.
  intros (H1 & H2 & H3) Hn. cbn [chains unhashed] in *. destruct (H3 n Hn) as [N V]. unfold hrefines. hrun. eexists. split; [done|].
  split_and!; cbn [chains unhashed]; [|done|].
  - intros h xs E. destruct (H1 h xs E) as (Hp & Hd & Hf). split_and!; [|done..].
    apply (hpath_same m); [done|hsolve|]. intros x Hx. assert (x <> n) by (intros ->; by apply (Hf n)). split; hsolve.
  - intros x Hx. destruct (H3 x Hx). split; [done|]. hvalid.
Qed.
Lemma hrep_add_before (m : hmem) (T : gmap Z (list Z)) (F : gset Z) (h n e : Z) (xs ys : list Z) :
  hrep m (Table T F) -> T !! h = Some (xs ++ e :: ys) -> n ∈ F ->
  hrefines (hlist_add_before n e m) (Table (<[h := xs ++ n :: e :: ys]> T) (F ∖ {[n]})).
Proof.
  intros H E Hn. pose proof H as (H1 & _ & H3). destruct (H3 n Hn) as [N V].
  destruct (hrep_at _ _ _ _ _ _ _ H E) as (Ne & He & B & Hr & Nend & Hy).
  assert (n ∉ xs ++ e :: ys) as Hni. { intros Hi. by apply (proj2 (proj2 (H1 h _ E)) n). }
  assert (n <> e) as Nne by (clear - Hni; set_solver).
  assert (hend (PFirst h) xs <> PNext n) as Nen. { intros Ee%hend_in. clear - Ee Hni. destruct Ee; [set_solver|done]. }
  assert (is_Some (hread m (hend (PFirst h) xs)) /\ is_Some (hread m (PNext e))) as [Ve Vn] by (split; by eexists).
  unfold hlist_add_before, hrefines. rewrite (get_pprev_run e _ m B). hrun.
  rewrite (get_pprev_run n (hend (PFirst h) xs)) by hsolve. hrun. eexists. split; [done|].
  apply (hrep_insert m _ T F h n xs (e :: ys)); try done; hsolve.
Qed.
Lemma hrep_add_after (m : hmem) (T : gmap Z (list Z)) (F : gset Z) (h n e : Z) (xs ys : list Z) :
  hrep m (Table T F) -> T !! h = Some (xs ++ e :: ys) -> n ∈ F ->
  hrefines (hlist_add_after e n m) (Table (<[h := xs ++ e :: n :: ys]> T) (F ∖ {[n]})).
Proof.
  intros H E Hn. pose proof H as (H1 & _ & H3). destruct (H3 n Hn) as [N V].
  destruct (hrep_at _ _ _ _ _ _ _ H E) as (Ne & He & B & Hr & Nend & Hy).
  assert (n ∉ xs ++ e :: ys) as Hni. { intros Hi. by apply (proj2 (proj2 (H1 h _ E)) n). }
  assert (n <> e) as Nne by (clear - Hni; set_solver). assert (is_Some (hread m (PNext e))) as Ve by (by eexists).
  assert (hend (PFirst h) (xs ++ [e]) = PNext e) as Ee by (unfold hend; by rewrite last_snoc).
  replace (xs ++ e :: n :: ys) with ((xs ++ [e]) ++ n :: ys) by (by rewrite <- app_assoc).
  replace (xs ++ e :: ys) with ((xs ++ [e]) ++ ys) in E by (by rewrite <- app_assoc).
  unfold hlist_add_after, hrefines. rewrite (get_hnext_run e _ m Hr). hrun.
  rewrite (get_hnext_run n (hd 0 ys)) by hsolve. hrun. destruct ys as [|y ys]; cbn [hd].
  - rewrite Z.eqb_refl. eexists. split; [done|]. apply (hrep_insert m _ T F h n (xs ++ [e]) []); rewrite ?Ee; try done; hsolve.
  - destruct (Hy y ys eq_refl) as (Ny & Nyn & Vy & By). rewrite (proj2 (Z.eqb_neq y 0) Ny). hrun. eexists. split; [done|].
    assert (n <> y) by (clear - Hni; set_solver).
    apply (hrep_insert m _ T F h n (xs ++ [e]) (y :: ys)); rewrite ?Ee; try done; hsolve.
Qed.
Lemma hrep_moved (m m' : hmem) (T : gmap Z (list Z)) (F : gset Z) (old new : Z) (xs : list Z) :
  hrep m (Table T F) -> T !! old = Some xs -> T !! new = Some [] -> old <> new ->
  hread m' (PFirst old) = Some 0 -> hread m' (PFirst new) = Some (hd 0 xs) ->
  (forall q, q <> PFirst old -> q <> PFirst new -> hread m' q = hread m q) ->
  (forall y, head xs = Some y -> back m' y = Some (PFirst new)) -> (forall x, head xs <> Some x -> back m' x = back m x) ->
  hrep m' (Table (<[new := xs]> (<[old := []]> T)) F).
Proof.
  intros (H1 & H2 & H3) E1 E2 N R1 R2 Rk B1 Bk. cbn [chains unhashed] in *. destruct (H1 old xs E1) as (Hp & Hd & Hf).
  assert (forall h ys, <[new := xs]> (<[old := []]> T) !! h = Some ys ->
    (h = new /\ ys = xs) \/ (h = old /\ ys = []) \/ (h <> new /\ h <> old /\ T !! h = Some ys)) as Hc.
  { intros h ys [[<- <-]|[N1 [[<- <-]|[N2 E]]%lookup_insert_Some]]%lookup_insert_Some; auto 6. }
  split_and!; cbn [chains unhashed].
  - intros h ys [[-> ->]|[[-> ->]|(Nn & No & E)]]%Hc.
    + split_and!; [|done..]. apply (hpath_restart m m' _ (PFirst old)); try done; [intros; by apply Rk|auto].
    + split_and!; [done|constructor|intros x []%elem_of_nil].
    + destruct (H1 h ys E) as (Hq & Hd' & Hf'). split_and!; [|done..]. apply (hpath_same m); [done|apply Rk; congruence|].
      intros x Hx. split; [by apply Rk|]. apply Bk. intros Ex%head_in. by apply (H2 h old ys xs E E1 No x).
  - intros h h' ys ys' [[-> ->]|[[-> ->]|(Nn & No & E)]]%Hc [[-> ->]|[[-> ->]|(Nn' & No' & E')]]%Hc Nh;
      try done; try (intros x; by intros ? ?%elem_of_nil); try (intros x; by intros ?%elem_of_nil).
    + by apply (H2 old h').
    + by apply (H2 h old).
    + by apply (H2 h h').
  - intros x Hx. destruct (H3 x Hx). split; [done|]. by rewrite Rk.
Qed.
Lemma hrep_move_list (m : hmem) (T : gmap Z (list Z)) (F : gset Z) (old new : Z) (xs : list Z) :
  hrep m (Table T F) -> T !! old = Some xs -> T !! new = Some [] -> old <> new ->
  hrefines (hlist_move_list old new m) (Table (<[new := xs]> (<[old := []]> T)) F).
Proof.
  intros H E1 E2 N. pose proof (hrep_first _ _ _ _ _ H E1) as Ho. pose proof (hrep_first _ _ _ _ _ H E2) as Hnw.
  assert (is_Some (hread m (PFirst old)) /\ is_Some (hread m (PFirst new))) as [V1 V2] by (split; by eexists).
  unfold hlist_move_list, hrefines. rewrite (get_first_run old _ m Ho). hrun. rewrite (get_first_run new (hd 0 xs)) by hsolve.
  hrun. destruct xs as [|y ys]; cbn [hd].
  - rewrite Z.eqb_refl. hrun. eexists. split; [done|]. apply (hrep_moved m _ T F old new []); try done; hsolve.
  - destruct (hrep_at m T F old y [] ys H E1) as (Ny & _ & B & _). assert (is_Some (hread m (PNext y))) as Vy by (apply back_valid; by eexists).
    rewrite (proj2 (Z.eqb_neq y 0) Ny). hrun. eexists. split; [done|].
    apply (hrep_moved m _ T F old new (y :: ys)); try done; hsolve.
Qed.

(** ** Refinement *)

Inductive hlist_op :=
| HAddHead (n h : Z)
| HAddBefore (n next : Z)
| HAddAfter (n next : Z)
| HDel (n : Z)
| HDelInit (n : Z)
| HMoveList (old new : Z).
Definition hexec (o : hlist_op) (m : hmem) : res hmem :=
  match o with
  | HAddHead n h => hlist_add_head n h m
  | HAddBefore n next => hlist_add_before n next m
  | HAddAfter n next => hlist_add_after n next m
  | HDel n => hlist_del n m
  | HDelInit n => hlist_del_init n m
  | HMoveList old new => hlist_move_list old new m
  end.
Fixpoint hexec_all (os : list hlist_op) (m : hmem) : res hmem :=
  match os with
  | [] => Ret m
  | o :: os => let! m := hexec o m in hexec_all os m
  end.
Inductive hstep : hlist_op -> table -> table -> Prop :=
| H_AddHead T F n h xs : T !! h = Some xs -> n ∈ F -> hstep (HAddHead n h) (Table T F) (Table (<[h := n :: xs]> T) (F ∖ {[n]}))
| H_AddBefore T F n e h xs ys : T !! h = Some (xs ++ e :: ys) -> n ∈ F ->
    hstep (HAddBefore n e) (Table T F) (Table (<[h := xs ++ n :: e :: ys]> T) (F ∖ {[n]}))
| H_AddAfter T F n e h xs ys : T !! h = Some (xs ++ e :: ys) -> n ∈ F ->
    hstep (HAddAfter e n) (Table T F) (Table (<[h := xs ++ e :: n :: ys]> T) (F ∖ {[n]}))
| H_Del T F n h xs ys : T !! h = Some (xs ++ n :: ys) -> hstep (HDel n) (Table T F) (Table (<[h := xs ++ ys]> T) ({[n]} ∪ F))
| H_DelInit T F n h xs ys : T !! h = Some (xs ++ n :: ys) -> hstep (HDelInit n) (Table T F) (Table (<[h := xs ++ ys]> T) ({[n]} ∪ F))
| H_MoveList T F old new xs : T !! old = Some xs -> T !! new = Some [] -> old <> new ->
    hstep (HMoveList old new) (Table T F) (Table (<[new := xs]> (<[old := []]> T)) F).
Inductive hsteps : list hlist_op -> table -> table -> Prop :=
| HSteps_nil A : hsteps [] A A
| HSteps_cons o os A1 A2 A3 : hstep o A1 A2 -> hsteps os A2 A3 -> hsteps (o :: os) A1 A3.

Lemma hexec_refines (o : hlist_op) (m : hmem) (A A' : table) : hrep m A -> hstep o A A' -> hrefines (hexec o m) A'.
Proof.
  intros H S. destruct S as [T F n h xs|T F n e h xs ys|T F n e h xs ys|T F n h xs ys E|T F n h xs ys E|T F old new xs]; cbn [hexec].
  - by apply hrep_add_head.
  - by apply hrep_add_before.
  - by apply hrep_add_after.
  - destruct (hrep_del_ _ _ _ _ _ _ _ H E) as (m1 & E1 & H1). unfold hlist_del. rewrite E1. cbn [res_bind].
    apply hrep_loose; [done|set_solver].
  - destruct (hrep_del_ _ _ _ _ _ _ _ H E) as (m1 & E1 & H1). destruct (hrep_at _ _ _ _ _ _ _ H E) as (_ & _ & B & _).
    unfold hlist_del_init, hlist_unhashed. rewrite (get_pprev_run n _ m B), E1. cbn [res_bind].
    rewrite bool_decide_false by (unfold hend; destruct (last xs); discriminate).
    apply hrep_loose; [done|set_solver].
  - by apply hrep_move_list.
Qed.

Lemma hfor_each_path (m : hmem) (p : hptr) (xs : list Z) (fuel : nat) :
  hpath m p xs 0 -> (length xs < fuel)%nat -> hfor_each fuel (hd 0 xs) m = Ret xs.
Proof.
  revert p fuel. induction xs as [|x xs IH]; intros p fuel H Hf; (destruct fuel as [|fuel]; [cbn in Hf; lia|]); cbn [hfor_each hd]; [done|].
  destruct H as (_ & N & _ & H). rewrite (proj2 (Z.eqb_neq x 0) N).
  pose proof H as [Hn _]%(hpath_split m (PNext x) [] xs). rewrite (get_hnext_run x _ m Hn). cbn [res_bind].
  rewrite (IH (PNext x)) by (done || (cbn in Hf; lia)). done.
Qed.

(** C30: every sequence of operations on lists of this kind that the abstract lists allow runs without
    following a bad pointer, in spite of the pointers to pointers, and ends in a memory that stands for the
    resulting lists, each of them read in its order by [hlist_for_each]. *)
Theorem hlist_operations_refine (os : list hlist_op) (m : hmem) (A A' : table) :
  hrep m A -> hsteps os A A' ->
  exists m', hexec_all os m = Ret m' /\ hrep m' A' /\
    (forall h xs, chains A' !! h = Some xs ->
      hlist_for_each (S (length xs)) h m' = Ret xs /\ hlist_empty h m' = Ret (bool_decide (xs = []))).
Proof.
  intros H S. revert m H. induction S as [A|o os A1 A2 A3 S1 S2 IH]; intros m H.
  - exists m. split_and!; [done..|]. destruct A as [T F]. intros h xs E. pose proof (hrep_first m T F h xs H E) as Hf.
    unfold hlist_for_each, hlist_empty. rewrite (get_first_run h _ m Hf). cbn [res_bind].
    destruct (proj1 H h xs E) as (Hp & _). split; [apply (hfor_each_path m (PFirst h)); [done|lia]|]. f_equal.
    destruct xs as [|x xs]; [by rewrite bool_decide_true|]. rewrite bool_decide_false by done. apply Z.eqb_neq, Hp.
  - destruct (hexec_refines o m A1 A2 H S1) as (m1 & E1 & H1). cbn [hexec_all]. rewrite E1. cbn [res_bind]. by apply IH.
Qed.

(** ** A run *)
Module Demo.
Definition m0 : hmem := Hmem {[100 := 0]} (list_to_map ((fun p => (p, Hlist_node 0 PNull)) <$> [1; 2; 3])).
Lemma hrep0 : hrep m0 (Table {[100 := []]} {[1; 2; 3]}).
Proof.
  split_and!; cbn [chains unhashed].
  - intros h xs [<- <-]%lookup_singleton_Some. split_and!; [done|constructor|intros x []%elem_of_nil].
  - intros h h' xs xs' [<- <-]%lookup_singleton_Some [<- <-]%lookup_singleton_Some. done.
  - intros x Hx. assert (x = 1 \/ x = 2 \/ x = 3) as [->|[->| ->]] by set_solver; (split; [done|by eexists]).
Qed.
Lemma hlist_operations_refine_witness :
  exists m', hexec_all [HAddHead 1 100; HAddHead 2 100; HAddAfter 2 3; HDel 1] m0 = Ret m' /\ hlist_for_each 3 100 m' = Ret [2; 3].
Proof.
  assert (exists A', hsteps [HAddHead 1 100; HAddHead 2 100; HAddAfter 2 3; HDel 1] (Table {[100 := []]} {[1; 2; 3]}) A' /\
    chains A' !! 100 = Some [2; 3]) as (A' & S & E).
  { eexists. split.
    - eapply HSteps_cons; [eapply H_AddHead; [reflexivity|set_solver]|].
      eapply HSteps_cons; [eapply H_AddHead; [reflexivity|set_solver]|].
      eapply HSteps_cons; [apply (H_AddAfter _ _ 3 2 100 [] [1]); [reflexivity|set_solver]|].
      eapply HSteps_cons; [apply (H_Del _ _ 1 100 [2; 3] []); reflexivity|]. apply HSteps_nil.
    - reflexivity. }
  destruct (hlist_operations_refine _ m0 _ A' hrep0 S) as (m' & Hm & _ & Hr). exists m'. split; [done|]. exact (proj1 (Hr 100 _ E)).
Defined.
End Demo.
