(* ===== verification/Sort.v ===== *)
(** * Sorting an array: lib/sort.c

    Heap sort over an array of bytes, with offsets that are scaled by the size of an element, a comparison of the
    caller, and a swap of the caller or one of the two of the file. *)
From S2P Require Import Prelude.
#[local] Notation len l := (Z.of_nat (length l)).

(** ** The code *)

(** The [size] bytes at [base + off]; the array starts at offset 0. *)
Definition elem (off size : Z) (m : list Z) : res (list Z) :=
  if (0 <=? off) && (off + size <=? len m) then Ret (take (Z.to_nat size) (drop (Z.to_nat off) m)) else Bug.

(** A u32 is copied as its four bytes. *)
Definition store (off : Z) (v m : list Z) : list Z := take (Z.to_nat off) m ++ v ++ drop (Z.to_nat off + length v) m.
Definition u32_swap (a b : Z) (size : Z) (m : list Z) : res (list Z) :=
  let! t := elem a 4 m in
  let! v := elem b 4 m in
  let m := store a v m in
  Ret (store b t m).
Fixpoint generic_swap_loop (fuel : nat) (a b size : Z) (m : list Z) : res (list Z) :=
  match fuel with
  | O => OutOfFuel
  | S fuel =>
      let! t := deref (aget m a) in
      let! v := deref (aget m b) in
      let m := aset m a v in
      let m := aset m b t in
      let size := s32 (size - 1) in
      if 0 <? size then generic_swap_loop fuel (a + 1) (b + 1) size m else Ret m
  end.
Definition generic_swap (a b : Z) (size : Z) (m : list Z) : res (list Z) := generic_swap_loop (S (Z.to_nat size)) a b size m.

Section Sort.
Variable cmp_func : list Z -> list Z -> Z.
Variable swap_func : Z -> Z -> Z -> list Z -> res (list Z).

(** The inner loop: the element at [r] moves down in the heap of the first [n] bytes. *)
Fixpoint sift (fuel : nat) (size r n : Z) (m : list Z) : res (list Z) :=
  match fuel with
  | O => OutOfFuel
  | S fuel =>
      if u64 (s32 (r * 2) + size) <? u64 n then
        let c := s32 (u64 (s32 (r * 2) + size)) in
        let! c :=
          if u64 c <? u64 (n - size) then
            let! x := elem c size m in
            let! y := elem (c + size) size m in
            Ret (if cmp_func x y <? 0 then s32 (u64 (c + size)) else c)
          else Ret c in
        let! x := elem r size m in
        let! y := elem c size m in
        if 0 <=? cmp_func x y then Ret m
        else let! m := swap_func r c (s32 size) m in sift fuel size c n m
      else Ret m
  end.
Fixpoint heapify (fuel : nat) (size i n : Z) (m : list Z) : res (list Z) :=
  match fuel with
  | O => OutOfFuel
  | S fuel =>
      if 0 <=? i then
        let! m := sift (S (Z.to_nat n)) size i n m in
        heapify fuel size (s32 (u64 (i - size))) n m
      else Ret m
  end.
Fixpoint sort_down (fuel : nat) (size i : Z) (m : list Z) : res (list Z) :=
  match fuel with
  | O => OutOfFuel
  | S fuel =>
      if 0 <? i then
        let! m := swap_func 0 i (s32 size) m in
        let! m := sift (S (Z.to_nat i)) size 0 i m in
        sort_down fuel size (s32 (u64 (i - size))) m
      else Ret m
  end.
End Sort.
Definition sort (num size : Z) (cmp_func : list Z -> list Z -> Z) (swap_func : option (Z -> Z -> Z -> list Z -> res (list Z))) (m : list Z) : res (list Z) :=
  let i := s32 (u64 (u64 (num / 2 - 1) * size)) in
  let n := s32 (u64 (num * size)) in
  let swap_func := match swap_func with Some f => f | None => if size =? 4 then u32_swap else generic_swap end in
  let! m := heapify cmp_func swap_func (S (Z.to_nat n)) size i n m in
  sort_down cmp_func swap_func (S (Z.to_nat n)) size (s32 (u64 (n - size))) m.

(** ** Comparisons *)

Class comparison {A : Type} (cmp : A -> A -> Z) : Prop := Comparison {
  cmp_sym : forall a b, 0 <= cmp a b <-> cmp b a <= 0;
  cmp_trans : forall a b c, cmp a b <= 0 -> cmp b c <= 0 -> cmp a c <= 0 }.

(** ** Heaps, by position *)

Definition swapped {A : Type} (f : Z -> A) (i j : Z) : Z -> A := fun k => if k =? i then f j else if k =? j then f i else f k.
Definition child (p c : Z) : Prop := c = 2 * p + 1 \/ c = 2 * p + 2.

Section Heap.
Context {A : Type} (cmp : A -> A -> Z) `{!comparison cmp}.
#[local] Set Default Proof Using "Type*".

Definition larger (r n : Z) (f : Z -> A) : Z :=
  let c := 2 * r + 1 in if (c + 1 <? n) && (cmp (f c) (f (c + 1)) <? 0) then c + 1 else c.
Fixpoint isift (fuel : nat) (r n : Z) (f : Z -> A) : Z -> A :=
  match fuel with
  | O => f
  | S fuel =>
      if 2 * r + 1 <? n then
        if 0 <=? cmp (f r) (f (larger r n f)) then f else isift fuel (larger r n f) n (swapped f r (larger r n f))
      else f
  end.
(** The part of the array from [lo] to [n] is a heap, but maybe at [r]. *)
Definition heap_but (lo n r : Z) (f : Z -> A) : Prop := forall p c, lo <= p -> p <> r -> child p c -> c < n -> cmp (f c) (f p) <= 0.
Definition heap (lo n : Z) (f : Z -> A) : Prop := forall p c, lo <= p -> child p c -> c < n -> cmp (f c) (f p) <= 0.
(** The same elements in [0, n), and the same behind. *)
Definition reordered (n : Z) (f g : Z -> A) : Prop := (forall i, 0 <= i < n -> exists j, 0 <= j < n /\ g i = f j) /\ (forall i, n <= i -> g i = f i).

Lemma cmp_refl (a : A) : cmp a a <= 0.
Proof. destruct (Z.le_gt_cases (cmp a a) 0); [done|]. apply cmp_sym. lia. Qed.
Lemma cmp_ge (a b : A) : 0 <= cmp a b -> cmp b a <= 0.
Proof. by apply cmp_sym. Qed.

Lemma reordered_refl (n : Z) (f : Z -> A) : reordered n f f.
Proof. split; [intros i Hi; by exists i|done]. Qed.
Lemma reordered_trans (n : Z) (f g h : Z -> A) : reordered n f g -> reordered n g h -> reordered n f h.
Proof.
  intros [A1 A2] [B1 B2]. split; [|intros i Hi; by rewrite B2, A2]. intros i Hi. destruct (B1 i Hi) as (j & Hj & ->). by apply A1.
Qed.
Lemma reordered_swapped (n : Z) (f : Z -> A) (i j : Z) : 0 <= i < n -> 0 <= j < n -> reordered n f (swapped f i j).
Proof.
  intros Hi Hj. split; intros k Hk; unfold swapped; destruct (Z.eqb_spec k i), (Z.eqb_spec k j); try (by exists j); try (by exists i); try (by exists k); lia || done.
Qed.
(** The larger child. *)
Lemma larger_child (r n : Z) (f : Z -> A) : 2 * r + 1 < n ->
  child r (larger r n f) /\ larger r n f < n /\ forall c', child r c' -> c' < n -> cmp (f c') (f (larger r n f)) <= 0.
Proof.
  intros Hn. unfold larger. destruct (Z.ltb_spec (2 * r + 1 + 1) n) as [H1|H1]; cbn [andb].
  - destruct (Z.ltb_spec (cmp (f (2 * r + 1)) (f (2 * r + 1 + 1))) 0) as [H2|H2].
    + split; [right; lia|]. split; [lia|]. intros c' [->| ->] Hc'; [lia|]. replace (2 * r + 2) with (2 * r + 1 + 1) by lia. apply cmp_refl.
    + split; [by left|]. split; [lia|]. intros c' [->| ->] Hc'; [apply cmp_refl|]. replace (2 * r + 2) with (2 * r + 1 + 1) by lia. by apply cmp_ge.
  - split; [by left|]. split; [lia|]. intros c' [->| ->] Hc'; [apply cmp_refl|lia].
Qed.
Lemma isift_heap (fuel : nat) (lo r n : Z) (f : Z -> A) : 0 <= lo <= r -> n - r < Z.of_nat fuel -> heap_but lo n r f ->
  (forall p c, lo <= p -> child p r -> child r c -> c < n -> cmp (f c) (f p) <= 0) -> heap lo n (isift fuel r n f).
Proof.
  revert r f. induction fuel as [|fuel IH]; intros r f Hr Hf H1 H2.
  - intros p c Hp Hc Hn. apply H1; [done| |done..]. unfold child in Hc. lia.
  - cbn [isift]. destruct (Z.ltb_spec (2 * r + 1) n) as [Hlt|Hge].
    2: { intros p c Hp Hc Hn. apply H1; [done| |done..]. unfold child in Hc. lia. }
    destruct (larger_child r n f Hlt) as (Hc & Hcn & Hmax). set (c := larger r n f) in *. clearbody c.
    destruct (Z.leb_spec 0 (cmp (f r) (f c))) as [Hge|Hlt'].
    { intros p c' Hp Hc' Hn. destruct (decide (p = r)) as [->|N]; [|by apply H1]. eapply cmp_trans; [by apply Hmax|by apply cmp_ge]. }
    assert (r < c) by (unfold child in Hc; lia).
    apply IH; [lia|lia| |].
    + intros p c' Hp Np Hc' Hn. unfold swapped. unfold child in *. destruct (Z.eqb_spec p c); [done|]. destruct (Z.eqb_spec p r) as [->|Npr].
      * destruct (Z.eqb_spec c' r); [lia|]. destruct (Z.eqb_spec c' c) as [->|]; [lia|by apply Hmax].
      * destruct (Z.eqb_spec c' c); [lia|]. destruct (Z.eqb_spec c' r) as [->|]; [by apply H2|by apply H1].
    + intros p c' Hp Hpc Hc' Hn. assert (p = r) as -> by (unfold child in *; lia). unfold swapped, child in *. rewrite Z.eqb_refl.
      destruct (Z.eqb_spec c' r); [lia|]. destruct (Z.eqb_spec c' c); [lia|]. apply H1; [lia|lia|exact Hc'|lia].
Qed.
Lemma isift_reordered (fuel : nat) (r n : Z) (f : Z -> A) : 0 <= r < n -> reordered n f (isift fuel r n f).
Proof.
  revert r f. induction fuel as [|fuel IH]; intros r f Hr; [apply reordered_refl|]. cbn [isift]. destruct (Z.ltb_spec (2 * r + 1) n) as [Hlt|]; [|apply reordered_refl].
  destruct (larger_child r n f Hlt) as (Hc & Hcn & _). set (c := larger r n f) in *. clearbody c. destruct (0 <=? _); [apply reordered_refl|].
  assert (0 <= c < n) by (unfold child in Hc; lia). eapply reordered_trans; [apply (reordered_swapped n f r c); lia|]. by apply IH.
Qed.
(** The first element of a heap is the largest. *)
Lemma heap_max (n : Z) (f : Z -> A) (i : Z) : heap 0 n f -> 0 <= i < n -> cmp (f i) (f 0) <= 0.
Proof.
  intros Hh. induction i as [i IH] using (well_founded_induction (Z.lt_wf 0)). intros Hi. destruct (decide (i = 0)) as [->|N]; [apply cmp_refl|].
  pose proof (Z.div_mod (i - 1) 2 ltac:(lia)). pose proof (Z.mod_pos_bound (i - 1) 2 ltac:(lia)).
  eapply cmp_trans; [apply (Hh ((i - 1) / 2)); [lia|unfold child; lia|lia]|apply IH; lia].
Qed.

(** *** The two phases *)

(** [F] is the fuel for a part of the array. *)
Variable F : Z -> nat.
Hypothesis HF : forall n, 0 <= n -> n < Z.of_nat (F n).
Fixpoint iheapify (k : nat) (n : Z) (f : Z -> A) : Z -> A :=
  match k with O => f | S k => iheapify k n (isift (F n) (Z.of_nat k) n f) end.
Fixpoint isort_down (k : nat) (f : Z -> A) : Z -> A :=
  match k with O => f | S k' => isort_down k' (isift (F (Z.of_nat k)) 0 (Z.of_nat k) (swapped f 0 (Z.of_nat k))) end.

Lemma heap_but_above (lo n : Z) (f : Z -> A) : heap (lo + 1) n f -> heap_but lo n lo f.
Proof. intros H p c Hp Np Hc Hn. apply H; [lia|done..]. Qed.
Lemma iheapify_heap (k : nat) (n : Z) (f : Z -> A) : 0 <= n -> heap (Z.of_nat k) n f -> heap 0 n (iheapify k n f).
Proof.
  intros Hn. revert f. induction k as [|k IH]; intros f H; [done|]. cbn [iheapify]. apply IH. apply isift_heap; [lia|specialize (HF n Hn); lia| |].
  - apply heap_but_above. by replace (Z.of_nat k + 1) with (Z.of_nat (S k)) by lia.
  - intros p c Hp Hpk. unfold child in Hpk. lia.
Qed.
Lemma iheapify_reordered (k : nat) (n : Z) (f : Z -> A) : Z.of_nat k <= n -> reordered n f (iheapify k n f).
Proof.
  revert f. induction k as [|k IH]; intros f H; [apply reordered_refl|]. cbn [iheapify]. eapply reordered_trans; [apply (isift_reordered (F n) (Z.of_nat k)); lia|apply IH; lia].
Qed.
Definition ordered (lo hi : Z) (f : Z -> A) : Prop := forall i j, lo <= i -> i <= j -> j < hi -> cmp (f i) (f j) <= 0.
(** The largest element goes behind the others. *)
Lemma isort_down_ordered (k : nat) (n : Z) (f : Z -> A) : Z.of_nat k < n -> heap 0 (Z.of_nat k + 1) f -> ordered (Z.of_nat k + 1) n f ->
  (forall i j, 0 <= i <= Z.of_nat k -> Z.of_nat k < j < n -> cmp (f i) (f j) <= 0) -> ordered 0 n (isort_down k f).
Proof.
  revert f. induction k as [|k IH]; intros f Hk Hh Ho Hs; cbn [isort_down].
  - intros i j Hi Hij Hj. destruct (decide (i = 0)) as [->|N]; [|apply Ho; lia]. destruct (decide (j = 0)) as [->|N']; [apply cmp_refl|apply Hs; lia].
  - set (K := Z.of_nat (S k)) in *. set (g := swapped f 0 K). set (h := isift (F K) 0 K g).
    assert (reordered K g h) as [M1 M2] by (apply isift_reordered; lia).
    assert (forall i, 0 <= i < K -> exists j, 0 <= j <= K /\ h i = f j) as Hin.
    { intros i Hi. destruct (M1 i Hi) as (j & Hj & ->). unfold g, swapped. destruct (Z.eqb_spec j 0) as [->|]; [by exists K|]. destruct (Z.eqb_spec j K); [lia|]. exists j. by split; [lia|]. }
    assert (h K = f 0) as HK by (rewrite M2 by lia; unfold g, swapped; rewrite Z.eqb_refl; by destruct (Z.eqb_spec K 0) as [E|]; [lia|]).
    assert (forall i, K < i -> h i = f i) as Hout.
    { intros i Hi. rewrite M2 by lia. unfold g, swapped. destruct (Z.eqb_spec i 0); [lia|]. destruct (Z.eqb_spec i K); [lia|done]. }
    replace (Z.of_nat k + 1) with K in * by lia. apply IH; [lia| | |].
    + replace (Z.of_nat k + 1) with K by lia. apply isift_heap; [lia|specialize (HF K); lia| |intros p c Hp Hp0; unfold child in Hp0; lia].
      intros p c Hp Np Hc Hcn. unfold g, swapped. unfold child in Hc. destruct (Z.eqb_spec c 0); [lia|]. destruct (Z.eqb_spec c K); [lia|].
      destruct (Z.eqb_spec p 0); [lia|]. destruct (Z.eqb_spec p K); [lia|]. apply Hh; [lia|exact Hc|lia].
    + intros i j Hi Hij Hj. destruct (decide (j = K)) as [->|Nj]; [assert (i = K) as -> by lia; apply cmp_refl|]. rewrite (Hout j) by lia.
      destruct (decide (i = K)) as [->|Ni]; [rewrite HK; apply Hs; lia|]. rewrite Hout by lia. apply Ho; lia.
    + intros i j Hi Hj. destruct (Hin i ltac:(lia)) as (i' & Hi' & ->). destruct (decide (j = K)) as [->|Nj]; [rewrite HK; apply (heap_max (K + 1)); [done|lia]|].
      rewrite Hout by lia. apply Hs; lia.
Qed.
End Heap.

(** A permutation of the positions. *)
Lemma swapped_perm {A : Type} (f : Z -> A) (i j n : Z) : 0 <= i < n -> 0 <= j < n -> swapped f i j <$> seqZ 0 n ≡ₚ f <$> seqZ 0 n.
Proof.
  intros Hi Hj. set (t := fun k : Z => if k =? i then j else if k =? j then i else k).
  assert (t <$> seqZ 0 n ≡ₚ seqZ 0 n) as E.
  { apply NoDup_Permutation; [apply NoDup_fmap_2_strong; [|apply NoDup_seqZ]|apply NoDup_seqZ|].
    - intros x y _ _. unfold t. destruct (Z.eqb_spec x i), (Z.eqb_spec x j), (Z.eqb_spec y i), (Z.eqb_spec y j); lia.
    - intros x. rewrite list_elem_of_fmap, elem_of_seqZ. split.
      + intros (y & -> & Hy%elem_of_seqZ). unfold t. destruct (Z.eqb_spec y i), (Z.eqb_spec y j); lia.
      + intros Hx. exists (t x). rewrite elem_of_seqZ. unfold t. destruct (Z.eqb_spec x i) as [->|]; [|destruct (Z.eqb_spec x j) as [->|]].
        * destruct (Z.eqb_spec j i); [lia|]. rewrite Z.eqb_refl. lia.
        * rewrite Z.eqb_refl. lia.
        * destruct (Z.eqb_spec x i), (Z.eqb_spec x j); lia. }
  rewrite <- E at 2. rewrite <- list_fmap_compose. apply Permutation_refl'. apply list_fmap_ext. intros ? x _. unfold swapped, t. cbn. destruct (x =? i), (x =? j); done.
Qed.

Definition rearranged {A : Type} (n : Z) (f g : Z -> A) : Prop := g <$> seqZ 0 n ≡ₚ f <$> seqZ 0 n.
Section Rearranged.
Context {A : Type} (cmp : A -> A -> Z) `{!comparison cmp} (F : Z -> nat).
#[local] Set Default Proof Using "Type*".

Lemma isift_rearranged (fuel : nat) (r n N : Z) (f : Z -> A) : 0 <= r < n -> n <= N -> rearranged N f (isift cmp fuel r n f).
Proof.
  intros Hr HN. revert r f Hr. induction fuel as [|fuel IH]; intros r f Hr; [apply Permutation_refl|]. cbn [isift]. destruct (Z.ltb_spec (2 * r + 1) n) as [Hlt|]; [|apply Permutation_refl].
  destruct (larger_child cmp r n f Hlt) as (Hc & Hcn & _). set (c := larger cmp r n f) in *. clearbody c. destruct (0 <=? _); [apply Permutation_refl|].
  assert (0 <= c < n) by (unfold child in Hc; lia). unfold rearranged; etrans; [apply (IH c (swapped f r c)); lia|apply swapped_perm; lia].
Qed.
Lemma iheapify_rearranged (k : nat) (n : Z) (f : Z -> A) : Z.of_nat k <= n -> rearranged n f (iheapify cmp F k n f).
Proof.
  revert f. induction k as [|k IH]; intros f H; [apply Permutation_refl|]. cbn [iheapify]. unfold rearranged; etrans; [apply IH; lia|apply isift_rearranged; lia].
Qed.
Lemma isort_down_rearranged (k : nat) (n : Z) (f : Z -> A) : Z.of_nat k < n -> rearranged n f (isort_down cmp F k f).
Proof.
  revert f. induction k as [|k IH]; intros f H; [apply Permutation_refl|]. cbn [isort_down]. unfold rearranged; etrans; [apply IH; lia|]. etrans; [apply isift_rearranged; lia|apply swapped_perm; lia].
Qed.
End Rearranged.

(** ** Elements in memory *)

Definition chunk (size : Z) (m : list Z) (i : Z) : list Z := take (Z.to_nat size) (drop (Z.to_nat (i * size)) m).
(** Two blocks of [n] bytes have changed places. *)
Definition exchanged (a b n : Z) (m m' : list Z) : Prop :=
  length m' = length m /\ forall x, aget m' x = if (a <=? x) && (x <? a + n) then aget m (x - a + b) else if (b <=? x) && (x <? b + n) then aget m (x - b + a) else aget m x.
(** What a swap function does. *)
Class swaps (size num : Z) (swap_func : Z -> Z -> Z -> list Z -> res (list Z)) : Prop := swap_ok (m : list Z) (i j : Z) :
  len m = num * size -> 0 <= i < num -> 0 <= j < num -> i <> j ->
  exists m', swap_func (i * size) (j * size) (s32 size) m = Ret m' /\ len m' = num * size /\ forall k, 0 <= k < num -> chunk size m' k = swapped (chunk size m) i j k.

Lemma aget_slice (m : list Z) (a n y : Z) : 0 <= a -> 0 <= y < n -> aget (take (Z.to_nat n) (drop (Z.to_nat a) m)) y = aget m (a + y).
Proof.
  intros Ha Hy. unfold aget. destruct (Z.ltb_spec y 0); [lia|]. destruct (Z.ltb_spec (a + y) 0); [lia|]. rewrite lookup_take_lt by lia. rewrite lookup_drop. f_equal. lia.
Qed.
Lemma aget_slice_end (m : list Z) (a n y : Z) : ~ 0 <= y < n -> aget (take (Z.to_nat n) (drop (Z.to_nat a) m)) y = None.
Proof.
  intros Hy. unfold aget. destruct (Z.ltb_spec y 0); [done|]. apply lookup_ge_None_2. rewrite length_take. lia.
Qed.
Lemma exchanged_chunks (size num i j : Z) (m m' : list Z) : 1 <= size -> 0 <= i < num -> 0 <= j < num -> i <> j -> exchanged (i * size) (j * size) size m m' ->
  forall k, 0 <= k < num -> chunk size m' k = swapped (chunk size m) i j k.
Proof.
  intros Hs Hi Hj Nij [_ Hx] k Hk. assert (swapped (chunk size m) i j k = chunk size m (if k =? i then j else if k =? j then i else k)) as -> by (unfold swapped; by destruct (k =? i), (k =? j)).
  unfold chunk. apply aget_ext. intros y. destruct (decide (0 <= y < size)) as [Hy|Hy]; [|by rewrite !aget_slice_end by done].
  set (k' := if k =? i then j else if k =? j then i else k). assert (0 <= k' < num) by (unfold k'; destruct (k =? i), (k =? j); lia).
  rewrite !aget_slice by (done || nia). rewrite Hx. unfold k'.
  destruct (Z.eqb_spec k i) as [->|N1]; [|destruct (Z.eqb_spec k j) as [->|N2]].
  - rewrite (proj2 (Z.leb_le _ _)), (proj2 (Z.ltb_lt _ _)) by lia. cbn [andb]. f_equal. lia.
  - assert ((i * size <=? j * size + y) && (j * size + y <? i * size + size) = false) as ->.
    { apply andb_false_iff. rewrite Z.leb_gt, Z.ltb_ge. destruct (Z.lt_ge_cases j i); [left|right]; nia. }
    rewrite (proj2 (Z.leb_le _ _)), (proj2 (Z.ltb_lt _ _)) by lia. cbn [andb]. f_equal. lia.
  - assert (forall q, q <> k -> (q * size <=? k * size + y) && (k * size + y <? q * size + size) = false) as E.
    { intros q Hq. apply andb_false_iff. rewrite Z.leb_gt, Z.ltb_ge. destruct (Z.lt_ge_cases k q); [left|right]; nia. }
    by rewrite !E by congruence.
Qed.
Lemma generic_swap_loop_spec (fuel : nat) (a b n : Z) (m : list Z) : 1 <= n < 2 ^ 31 -> 0 <= a -> 0 <= b -> a + n <= len m -> b + n <= len m -> a + n <= b \/ b + n <= a ->
  n < Z.of_nat fuel + 1 -> exists m', generic_swap_loop fuel a b n m = Ret m' /\ exchanged a b n m m'.
Proof.
  revert a b n m. induction fuel as [|fuel IH]; intros a b n m Hn Ha Hb Hla Hlb Hd Hf; [lia|]. cbn [generic_swap_loop].
  destruct (aget_is_Some m a ltac:(lia)) as [t Et]. destruct (aget_is_Some m b ltac:(lia)) as [v Ev]. rewrite Et, Ev. cbn [deref res_bind]. set (m1 := aset (aset m a v) b t).
  assert (length m1 = length m) as Hl by (unfold m1; by rewrite !length_aset).
  assert (forall x, aget m1 x = if x =? a then Some v else if x =? b then Some t else aget m x) as H1.
  { intros x. unfold m1. assert (aget (aset m a v) b = Some v) as Eb by (rewrite aget_aset_ne by lia; done). destruct (Z.eqb_spec x a) as [->|Na]; [rewrite aget_aset_ne by lia; by eapply aget_aset_eq|].
    destruct (Z.eqb_spec x b) as [->|Nb]; [by eapply aget_aset_eq|]. by rewrite !aget_aset_ne by (done || lia). }
  clearbody m1. rewrite (swrap_id 32) by pow_lia. destruct (Z.ltb_spec 0 (n - 1)) as [Hlt|Hge].
  - destruct (IH (a + 1) (b + 1) (n - 1) m1) as (m' & E & Hl' & Hx); [lia|lia|lia|lia|lia|lia|lia|]. exists m'. split; [done|]. split; [congruence|]. intros x. rewrite Hx, !H1.
    repeat match goal with |- context [?p <=? ?q] => destruct (Z.leb_spec p q) | |- context [?p <? ?q] => destruct (Z.ltb_spec p q) | |- context [?p =? ?q] => destruct (Z.eqb_spec p q) end; cbn [andb];
      try lia; try (f_equal; lia); subst; try (rewrite <- Ev; f_equal; lia); try (rewrite <- Et; f_equal; lia).
  - assert (n = 1) as -> by lia. exists m1. split; [done|]. split; [done|]. intros x. rewrite H1.
    repeat match goal with |- context [?p <=? ?q] => destruct (Z.leb_spec p q) | |- context [?p <? ?q] => destruct (Z.ltb_spec p q) | |- context [?p =? ?q] => destruct (Z.eqb_spec p q) end; cbn [andb];
      try lia; subst; try (rewrite <- Ev; f_equal; lia); try (rewrite <- Et; f_equal; lia); try done.
Qed.

Lemma generic_swaps (size num : Z) : 1 <= size < 2 ^ 31 -> swaps size num generic_swap.
Proof.
  intros Hs m i j Hl Hi Hj N. unfold generic_swap. rewrite swrap_id by pow_lia.
  destruct (generic_swap_loop_spec (S (Z.to_nat size)) (i * size) (j * size) size m) as (m' & E & Hx); [done|nia|nia|nia|nia| |lia|].
  { destruct (Z.lt_ge_cases i j); [left|right]; nia. }
  exists m'. split; [done|]. split; [by rewrite (proj1 Hx)|]. apply exchanged_chunks; [lia|lia|lia|lia|done].
Qed.
Lemma aget_store (a x : Z) (v m : list Z) : 0 <= a -> a + len v <= len m -> aget (store a v m) x = if (a <=? x) && (x <? a + len v) then aget v (x - a) else aget m x.
Proof.
  intros Ha Hl. unfold store, aget. destruct (Z.ltb_spec x 0) as [Hx|Hx]; [by destruct (Z.leb_spec a x); [lia|]|].
  destruct (Z.leb_spec a x) as [H1|H1]; cbn [andb].
  - rewrite lookup_app_r by (rewrite length_take; lia). rewrite length_take, Nat.min_l by lia. destruct (Z.ltb_spec x (a + len v)) as [H2|H2].
    + destruct (Z.ltb_spec (x - a) 0); [lia|]. rewrite lookup_app_l by lia. f_equal. lia.
    + rewrite lookup_app_r by lia. rewrite lookup_drop. f_equal. lia.
  - rewrite lookup_app_l by (rewrite length_take; lia). rewrite lookup_take_lt by lia. done.
Qed.
Lemma length_store (a : Z) (v m : list Z) : 0 <= a -> a + len v <= len m -> length (store a v m) = length m.
Proof. intros Ha Hl. unfold store. rewrite !length_app, length_take, length_drop. lia. Qed.
Lemma elem_ok (a n : Z) (m : list Z) : 0 <= a -> 0 <= n -> a + n <= len m -> elem a n m = Ret (take (Z.to_nat n) (drop (Z.to_nat a) m)).
Proof. intros Ha Hn Hl. unfold elem. by rewrite (proj2 (Z.leb_le _ _)), (proj2 (Z.leb_le _ _)) by lia. Qed.
Lemma u32_swaps (num : Z) : swaps 4 num u32_swap.
Proof.
  intros m i j Hl Hi Hj N. unfold u32_swap. rewrite !elem_ok by lia. cbn [res_bind]. eexists. split; [reflexivity|].
  set (t := take _ (drop (Z.to_nat (i * 4)) m)). set (v := take _ (drop (Z.to_nat (j * 4)) m)).
  assert (length t = 4%nat) as Ht by (unfold t; rewrite length_take, length_drop; lia). assert (length v = 4%nat) as Hv by (unfold v; rewrite length_take, length_drop; lia).
  assert (length (store (i * 4) v m) = length m) as L1 by (apply length_store; lia). split; [rewrite length_store; lia|]. apply exchanged_chunks; [lia|lia|lia|lia|].
  split; [rewrite length_store; lia|]. intros x. rewrite !aget_store by lia. rewrite Ht, Hv. change (Z.of_nat 4) with 4.
  destruct (Z.leb_spec (i * 4) x), (Z.ltb_spec x (i * 4 + 4)), (Z.leb_spec (j * 4) x), (Z.ltb_spec x (j * 4 + 4)); cbn [andb]; try lia; try done;
    unfold t, v; rewrite aget_slice by lia; f_equal; lia.
Qed.

(** ** The code against the heap by position *)

(** An int that was computed as a size_t. *)
Lemma int_of_size (z : Z) : in_s 32 z -> s32 (u64 z) = z.
Proof.
  intros H. destruct (wrap_eqm 64 z ltac:(lia)) as [k ->]. rewrite <- (swrap_id 32 z) at 2 by (done || lia). unfold swrap. f_equal.
  replace (z + k * 2 ^ 64 + 2 ^ (32 - 1)) with (z + 2 ^ (32 - 1) + k * 2 ^ 32 * 2 ^ 32) by lia. by rewrite Z.mod_add by lia.
Qed.

Definition fuel_of (size n : Z) : nat := S (Z.to_nat (n * size)).
Lemma fuel_of_ok (size : Z) : 1 <= size -> forall n, 0 <= n -> n < Z.of_nat (fuel_of size n).
Proof. unfold fuel_of. nia. Qed.
Section Refines.
Context (cmp_func : list Z -> list Z -> Z) (swap_func : Z -> Z -> Z -> list Z -> res (list Z)) (size num : Z).
Context `{!swaps size num swap_func}.
Hypothesis Hsize : 1 <= size.
Hypothesis Hnum : 0 <= num.
Hypothesis Hlim : num * size < 2 ^ 30.
#[local] Set Default Proof Using "Type*".

Definition rep (m : list Z) (f : Z -> list Z) : Prop := len m = num * size /\ forall k, 0 <= k < num -> chunk size m k = f k.
Lemma rep_elem (m : list Z) (f : Z -> list Z) (i : Z) : rep m f -> 0 <= i < num -> elem (i * size) size m = Ret (f i).
Proof. intros [Hl Hf] Hi. rewrite elem_ok by nia. by rewrite <- (Hf i Hi). Qed.
Lemma rep_swap (m : list Z) (f : Z -> list Z) (i j : Z) : rep m f -> 0 <= i < num -> 0 <= j < num -> i <> j ->
  exists m', swap_func (i * size) (j * size) (s32 size) m = Ret m' /\ rep m' (swapped f i j).
Proof.
  intros [Hl Hf] Hi Hj N. destruct (swap_ok m i j Hl Hi Hj N) as (m' & E & Hl' & Hk). exists m'. split; [done|]. split; [done|]. intros k Hkn. rewrite (Hk k Hkn). unfold swapped. by rewrite !Hf.
Qed.
Lemma sift_refines (fuel : nat) (r n : Z) (m : list Z) (f : Z -> list Z) : rep m f -> 0 <= r < n -> n <= num -> n - r < Z.of_nat fuel ->
  exists m', sift cmp_func swap_func fuel size (r * size) (n * size) m = Ret m' /\ rep m' (isift cmp_func fuel r n f).
Proof.
  revert r m f. induction fuel as [|fuel IH]; intros r m f HR Hr Hn Hf; [lia|]. cbn [sift isift].
  assert (n * size < 2 ^ 30 /\ (r + 1) * size <= n * size) as [Hb Hrb] by nia. change (2 ^ 30) with 1073741824 in Hb. assert (0 <= r * size) by nia.
  rewrite (swrap_id 32 (r * size * 2)) by pow_lia. replace (r * size * 2 + size) with ((2 * r + 1) * size) by lia.
  rewrite (wrap_id 64 ((2 * r + 1) * size)), (wrap_id 64 (n * size)) by pow_lia.
  replace ((2 * r + 1) * size <? n * size) with (2 * r + 1 <? n) by (apply eq_bool_prop_intro; rewrite !Is_true_true, !Z.ltb_lt; nia).
  destruct (Z.ltb_spec (2 * r + 1) n) as [Hlt|Hge]; [|by exists m]. assert ((2 * r + 2) * size <= n * size) by nia. rewrite (swrap_id 32) by pow_lia.
  rewrite (wrap_id 64 ((2 * r + 1) * size)), (wrap_id 64 (n * size - size)) by pow_lia.
  assert (exists c, larger cmp_func r n f = c /\ r < c < n /\ (if (2 * r + 1) * size <? n * size - size then
      let! x := elem ((2 * r + 1) * size) size m in let! y := elem ((2 * r + 1) * size + size) size m in
      Ret (if cmp_func x y <? 0 then s32 (u64 ((2 * r + 1) * size + size)) else (2 * r + 1) * size) else Ret ((2 * r + 1) * size)) = Ret (c * size)) as (c & Ec & Hc & ->).
  { unfold larger. replace ((2 * r + 1) * size <? n * size - size) with (2 * r + 1 + 1 <? n) by (apply eq_bool_prop_intro; rewrite !Is_true_true, !Z.ltb_lt; nia).
    destruct (Z.ltb_spec (2 * r + 1 + 1) n) as [H2|H2]; cbn [andb]; [|exists (2 * r + 1); split; [done|split; [lia|done]]].
    replace ((2 * r + 1) * size + size) with ((2 * r + 1 + 1) * size) by lia. rewrite !(rep_elem m f) by (done || lia). cbn [res_bind].
    assert ((2 * r + 1 + 1 + 1) * size <= n * size) by nia. destruct (cmp_func _ _ <? 0); [|exists (2 * r + 1); split; [done|split; [lia|done]]].
    exists (2 * r + 1 + 1). split; [done|]. split; [lia|]. by rewrite (wrap_id 64), (swrap_id 32) by pow_lia. }
  rewrite Ec. cbn [res_bind]. rewrite !(rep_elem m f) by (done || lia). cbn [res_bind]. destruct (0 <=? _); [by exists m|].
  destruct (rep_swap m f r c HR) as (m1 & -> & R1); [lia|lia|lia|]. cbn [res_bind]. apply IH; [done|lia|done|lia].
Qed.
Lemma heapify_refines (k : nat) (fuel : nat) (m : list Z) (f : Z -> list Z) : rep m f -> Z.of_nat k <= num -> Z.of_nat k < Z.of_nat fuel ->
  exists m', heapify cmp_func swap_func fuel size ((Z.of_nat k - 1) * size) (num * size) m = Ret m' /\ rep m' (iheapify cmp_func (fuel_of size) k num f).
Proof.
  revert fuel m f. induction k as [|k IH]; intros fuel m f HR Hk Hf; (destruct fuel as [|fuel]; [lia|]); cbn [heapify iheapify].
  - rewrite (proj2 (Z.leb_gt _ _)) by lia. by exists m.
  - replace ((Z.of_nat (S k) - 1) * size) with (Z.of_nat k * size) by lia. rewrite (proj2 (Z.leb_le _ _)) by nia.
    destruct (sift_refines (fuel_of size num) (Z.of_nat k) num m f HR) as (m1 & E & R1); [lia|lia|pose proof (fuel_of_ok size Hsize num Hnum); lia|]. unfold fuel_of in E at 1. rewrite E. cbn [res_bind].
    destruct (IH fuel m1 _ R1) as (m2 & E2 & R2); [lia|lia|]. exists m2. split; [|done]. rewrite <- E2. f_equal. replace (Z.of_nat k * size - size) with ((Z.of_nat k - 1) * size) by lia.
    assert ((Z.of_nat k + 1) * size <= num * size) by nia. assert (- size <= (Z.of_nat k - 1) * size) by nia. change (2 ^ 30) with 1073741824 in Hlim. by rewrite int_of_size by pow_lia.
Qed.
Lemma sort_down_refines (k : nat) (fuel : nat) (m : list Z) (f : Z -> list Z) : rep m f -> Z.of_nat k < num -> Z.of_nat k < Z.of_nat fuel ->
  exists m', sort_down cmp_func swap_func fuel size (Z.of_nat k * size) m = Ret m' /\ rep m' (isort_down cmp_func (fuel_of size) k f).
Proof.
  revert fuel m f. induction k as [|k IH]; intros fuel m f HR Hk Hf; (destruct fuel as [|fuel]; [lia|]); cbn [sort_down isort_down]; [by exists m|].
  set (K := Z.of_nat (S k)) in *. rewrite (proj2 (Z.ltb_lt _ _)) by nia. destruct (rep_swap m f 0 K HR) as (m1 & E1 & R1); [lia|lia|lia|]. rewrite Z.mul_0_l in E1. rewrite E1. cbn [res_bind].
  destruct (sift_refines (fuel_of size K) 0 K m1 _ R1) as (m2 & E2 & R2); [lia|lia|pose proof (fuel_of_ok size Hsize K); lia|]. rewrite Z.mul_0_l in E2. unfold fuel_of in E2 at 1. rewrite E2. cbn [res_bind].
  destruct (IH fuel m2 _ R2) as (m3 & E3 & R3); [lia|lia|]. exists m3. split; [|done]. rewrite <- E3. f_equal. replace (K * size - size) with (Z.of_nat k * size) by lia.
  assert ((Z.of_nat k + 1) * size <= num * size) by nia. change (2 ^ 30) with 1073741824 in Hlim. by rewrite int_of_size by pow_lia.
Qed.
End Refines.

(** *** The whole sort *)

Lemma half_heap {A : Type} (cmp : A -> A -> Z) (n : Z) (f : Z -> A) : heap cmp (Z.of_nat (Z.to_nat (n / 2))) n f.
Proof.
  intros p c Hp Hc Hn. exfalso. unfold child in Hc. pose proof (Z.div_mod n 2 ltac:(lia)). pose proof (Z.mod_pos_bound n 2 ltac:(lia)). lia.
Qed.
(** What the caller's swap has to do, if there is one. *)
Definition swap_given (size num : Z) (swap_func : option (Z -> Z -> Z -> list Z -> res (list Z))) : Prop :=
  match swap_func with Some f => swaps size num f | None => True end.

(** C37: sort returns for every array of less than 2^30 bytes, with each of its own swaps or that of the caller; the elements are
    those of the array before, each as often as before, and in the order of the comparison. *)
Theorem sort_correct (num size : Z) (cmp_func : list Z -> list Z -> Z) (swap_func : option (Z -> Z -> Z -> list Z -> res (list Z))) (m : list Z) :
  comparison cmp_func -> swap_given size num swap_func -> 0 <= num -> 1 <= size -> size < 2 ^ 30 -> num * size < 2 ^ 30 -> len m = num * size ->
  exists m', sort num size cmp_func swap_func m = Ret m' /\ len m' = len m /\ chunk size m' <$> seqZ 0 num ≡ₚ chunk size m <$> seqZ 0 num /\
    forall i j, 0 <= i -> i <= j -> j < num -> cmp_func (chunk size m' i) (chunk size m' j) <= 0.
Proof.
  intros C Hsw Hn Hs Hs' Hlim Hl. unfold sort. set (sw := match swap_func with Some f => f | None => _ end).
  assert (swaps size num sw) as Sw.
  { destruct swap_func as [g|]; [exact Hsw|]. unfold sw. destruct (Z.eqb_spec size 4) as [->|]; [apply u32_swaps|apply generic_swaps; lia]. }
  clearbody sw. change (2 ^ 30) with 1073741824 in *. pose proof (Z.div_mod num 2 ltac:(lia)). pose proof (Z.mod_pos_bound num 2 ltac:(lia)).
  assert (s32 (u64 (u64 (num / 2 - 1) * size)) = (Z.of_nat (Z.to_nat (num / 2)) - 1) * size) as ->.
  { assert (u64 (u64 (num / 2 - 1) * size) = u64 ((num / 2 - 1) * size)) as -> by (unfold wrap; apply Zmult_mod_idemp_l). rewrite int_of_size; [by rewrite Z2Nat.id by lia|]. assert (0 <= num / 2 * size <= num * size) by (split; [apply Z.mul_nonneg_nonneg; lia|apply Z.mul_le_mono_nonneg_r; lia]). pow_lia. }
  rewrite (int_of_size (num * size)) by pow_lia. assert (rep size num m (chunk size m)) as R0 by (by split).
  destruct (heapify_refines cmp_func sw size num Hs Hn Hlim (Z.to_nat (num / 2)) (S (Z.to_nat (num * size))) m _ R0) as (m1 & -> & R1); [lia|nia|]. cbn [res_bind].
  set (f1 := iheapify _ _ _ _ _) in R1. destruct (decide (num = 0)) as [->|N0].
  { exists m1. rewrite int_of_size by pow_lia. cbn [Z.mul Z.to_nat sort_down]. rewrite (proj2 (Z.ltb_ge _ _)) by lia. split; [done|]. split; [by rewrite (proj1 R1)|]. split; [done|]. lia. }
  destruct (sort_down_refines cmp_func sw size num Hs Hn Hlim (Z.to_nat (num - 1)) (S (Z.to_nat (num * size))) m1 f1 R1) as (m2 & E2 & Hl2 & Hf2); [lia|nia|].
  rewrite Z2Nat.id in E2 by lia. exists m2. rewrite int_of_size by (assert (0 <= (num - 1) * size) by nia; pow_lia). replace (num * size - size) with ((num - 1) * size) by lia. split; [done|].
  split; [congruence|]. set (f2 := isort_down _ _ _ _) in Hf2. split.
  - transitivity (f2 <$> seqZ 0 num); [apply Permutation_refl'; apply list_fmap_ext; intros ? x Hx%list_elem_of_lookup_2%elem_of_seqZ; apply Hf2; lia|].
    etrans; [apply (isort_down_rearranged cmp_func (fuel_of size) (Z.to_nat (num - 1)) num f1); lia|]. apply (iheapify_rearranged cmp_func (fuel_of size) (Z.to_nat (num / 2)) num). lia.
  - intros i j Hi Hij Hj. rewrite !Hf2 by lia. apply (isort_down_ordered cmp_func (fuel_of size) (fuel_of_ok size Hs) _ num); [lia| | |lia|lia|lia|lia].
    + replace (Z.of_nat (Z.to_nat (num - 1)) + 1) with num by lia. apply iheapify_heap; [done|by apply fuel_of_ok|lia|apply half_heap].
    + intros x y. lia.
Qed.


Module SortDemo.
(** Pairs of bytes, by their first byte. *)
Definition by_first (a b : list Z) : Z := default 0 (aget a 0) - default 0 (aget b 0).
#[export] Instance by_first_comparison : comparison by_first.
Proof. split; unfold by_first; intros; lia. Qed.
Definition pairs : list Z := [5; 50; 3; 30; 9; 90; 1; 10; 3; 31].
Lemma sort_correct_witness : exists m', sort 5 2 by_first None pairs = Ret m' /\ len m' = len pairs /\ chunk 2 m' <$> seqZ 0 5 ≡ₚ chunk 2 pairs <$> seqZ 0 5 /\
  forall i j, 0 <= i -> i <= j -> j < 5 -> by_first (chunk 2 m' i) (chunk 2 m' j) <= 0.
Proof. apply (sort_correct 5 2 by_first None pairs); [apply by_first_comparison|exact I|lia|lia|lia|lia|reflexivity]. Defined.
Lemma sort_pairs : sort 5 2 by_first None pairs = Ret [1; 10; 3; 31; 3; 30; 5; 50; 9; 90].
Proof. vm_compute. reflexivity. Qed.
(** The condition on the size is needed: with elements of no size the index of the first loop never goes down. *)
Lemma sort_size_zero (fuel : nat) : heapify by_first generic_swap fuel 0 0 0 [] = OutOfFuel.
Proof. induction fuel as [|fuel IH]; [done|exact IH]. Qed.
End SortDemo.
