(* ===== verification/ListSort.v ===== *)
(** * Sorting a linked list: lib/list_sort.c

    A merge sort that keeps sorted runs of growing length in an array, with the lists ended by NULL and their back
    pointers out of date until the last merge restores them. *)
From Stdlib Require Import Sorted.
From S2P Require Import Prelude KList Sort.
#[local] Notation len l := (Z.of_nat (length l)).

(** ** The code *)

Definition MAX_LIST_LENGTH_BITS : Z := 20.

Section Code.
Variable cmp : Z -> Z -> Z.

(** [tail] is the local head of [merge] ([None], its next pointer is [hn]) or a node. *)
Definition set_tail_next (tail : option Z) (hn v : Z) (m : lmem) : res (Z * lmem) :=
  match tail with
  | None => Ret (v, m)
  | Some t => let! m := set_next t v m in Ret (hn, m)
  end.
Fixpoint merge_loop (fuel : nat) (tail : option Z) (hn a b : Z) (m : lmem) : res (Z * lmem) :=
  match fuel with
  | O => OutOfFuel
  | S fuel =>
      if negb (a =? NULL) && negb (b =? NULL) then
        if cmp a b <=? 0 then
          let! (hn, m) := set_tail_next tail hn a m in
          let! a' := get_next a m in
          merge_loop fuel (Some a) hn a' b m
        else
          let! (hn, m) := set_tail_next tail hn b m in
          let! b' := get_next b m in
          merge_loop fuel (Some b) hn a b' m
      else set_tail_next tail hn (if negb (a =? NULL) then a else b) m
  end.
(** The fuel is the number of nodes there are. *)
Definition merge (a b : Z) (m : lmem) : res (Z * lmem) := merge_loop (S (size (dom m) + size (dom m))) None NULL a b m.

(** The nodes left over get their back pointers; the last node is returned. *)
Fixpoint restore_loop (fuel : nat) (tail : Z) (m : lmem) : res (Z * lmem) :=
  match fuel with
  | O => OutOfFuel
  | S fuel =>
      let! n := get_next tail m in
      let! m := set_prev n tail m in
      let! tail := get_next tail m in
      let! n := get_next tail m in
      if negb (n =? NULL) then restore_loop fuel tail m else Ret (tail, m)
  end.
Fixpoint merge_back_loop (fuel : nat) (tail a b : Z) (m : lmem) : res (Z * lmem) :=
  match fuel with
  | O => OutOfFuel
  | S fuel' =>
      if negb (a =? NULL) && negb (b =? NULL) then
        if cmp a b <=? 0 then
          let! m := set_next tail a m in
          let! m := set_prev a tail m in
          let! a' := get_next a m in
          let! tail := get_next tail m in
          merge_back_loop fuel' tail a' b m
        else
          let! m := set_next tail b m in
          let! m := set_prev b tail m in
          let! b' := get_next b m in
          let! tail := get_next tail m in
          merge_back_loop fuel' tail a b' m
      else
        let! m := set_next tail (if negb (a =? NULL) then a else b) m in
        restore_loop fuel tail m
  end.
Definition merge_and_restore_back_links (head a b : Z) (m : lmem) : res lmem :=
  let! (tail, m) := merge_back_loop (S (size (dom m) + size (dom m))) head a b m in
  let! m := set_next tail head m in
  set_prev head tail m.

(** The runs below the first free place are merged into [cur]. *)
Fixpoint carry (fuel : nat) (lev : Z) (part : list Z) (cur : Z) (m : lmem) : res (Z * list Z * Z * lmem) :=
  match fuel with
  | O => OutOfFuel
  | S fuel =>
      let! p := deref (aget part lev) in
      if negb (p =? NULL) then
        let! (cur, m) := merge p cur m in
        carry fuel (lev + 1) (aset part lev NULL) cur m
      else Ret (lev, part, cur, m)
  end.
Fixpoint split_loop (fuel : nat) (lst : Z) (max_lev : Z) (part : list Z) (m : lmem) : res (Z * list Z * lmem) :=
  match fuel with
  | O => OutOfFuel
  | S fuel =>
      if negb (lst =? NULL) then
        let cur := lst in
        let! lst := get_next lst m in
        let! m := set_next cur NULL m in
        let! (r, m) := carry (S (length part)) 0 part cur m in
        let '(lev, part, cur) := r in
        let '(lev, max_lev) :=
          if max_lev <? lev then
            let lev := if len part - 1 <=? lev then lev - 1 else lev in (lev, lev)
          else (lev, max_lev) in
        let! _ := deref (aget part lev) in
        split_loop fuel lst max_lev (aset part lev cur) m
      else Ret (max_lev, part, m)
  end.
Fixpoint final_merges (fuel : nat) (lev max_lev lst : Z) (part : list Z) (m : lmem) : res (Z * lmem) :=
  match fuel with
  | O => OutOfFuel
  | S fuel =>
      if lev <? max_lev then
        let! p := deref (aget part lev) in
        let! (lst, m) := if negb (p =? NULL) then merge p lst m else Ret (lst, m) in
        final_merges fuel (lev + 1) max_lev lst part m
      else Ret (lst, m)
  end.
Definition list_sort (head : Z) (m : lmem) : res lmem :=
  let! e := list_empty head m in
  if e then Ret m
  else
    let part := replicate (Z.to_nat (MAX_LIST_LENGTH_BITS + 1)) NULL in
    let! last := get_prev head m in
    let! m := set_next last NULL m in
    let! lst := get_next head m in
    let! (r, m) := split_loop (S (size (dom m))) lst 0 part m in
    let '(max_lev, part) := r in
    let! (lst, m) := final_merges (S (length part)) 0 max_lev NULL part m in
    let! p := deref (aget part max_lev) in
    merge_and_restore_back_links head p lst m.
End Code.

(** ** Merging and stable sorting of sequences *)

Section Stable.
Variable cmp : Z -> Z -> Z.
Context `{!comparison cmp}.
#[local] Set Default Proof Using "Type*".

Fixpoint merged (l1 : list Z) : list Z -> list Z :=
  fix go (l2 : list Z) : list Z :=
    match l1, l2 with
    | [], _ => l2
    | _, [] => l1
    | a :: l1', b :: l2' => if cmp a b <=? 0 then a :: merged l1' l2 else b :: go l2'
    end.
Lemma merged_nil_r (l : list Z) : merged l [] = l.
Proof using Type. by destruct l. Qed.
Lemma merged_nil_l (l : list Z) : merged [] l = l.
Proof using Type. by destruct l. Qed.
Lemma merged_cons (a b : Z) (l1 l2 : list Z) : merged (a :: l1) (b :: l2) = if cmp a b <=? 0 then a :: merged l1 (b :: l2) else b :: merged (a :: l1) l2.
Proof using Type. done. Qed.
Lemma merged_perm (l1 l2 : list Z) : merged l1 l2 ≡ₚ l1 ++ l2.
Proof using Type.
  revert l2. induction l1 as [|a l1 IH1]; intros l2; [by rewrite merged_nil_l|]. induction l2 as [|b l2 IH2]; [by rewrite merged_nil_r, app_nil_r|].
  rewrite merged_cons. destruct (cmp a b <=? 0); [by rewrite IH1|]. rewrite IH2. solve_Permutation.
Qed.
Definition cmp_le (a b : Z) : Prop := cmp a b <= 0.
(** [l] is [xs] in order, and elements that compare equal keep their order. *)
Definition stable (xs l : list Z) : Prop :=
  StronglySorted cmp_le l /\ l ≡ₚ xs /\ forall x, filter (fun y => cmp x y = 0) l = filter (fun y => cmp x y = 0) xs.

Lemma filter_absent (P : Z -> Prop) `{!forall x, Decision (P x)} (l : list Z) : (forall x, x ∈ l -> ~ P x) -> filter P l = [].
Proof using Type. induction l as [|x l IH]; intros Hn; [done|]. rewrite filter_cons_False by (apply Hn; by left). apply IH. intros y Hy. apply Hn. by right. Qed.
Lemma cmp_eq (x a b : Z) : cmp x a = 0 -> cmp x b = 0 -> cmp a b <= 0.
Proof. intros Ha Hb. eapply cmp_trans; [apply (cmp_sym x a); lia|lia]. Qed.
Lemma merged_sorted (l1 l2 : list Z) : StronglySorted cmp_le l1 -> StronglySorted cmp_le l2 -> StronglySorted cmp_le (merged l1 l2).
Proof.
  intros H1. revert l2. induction H1 as [|a l1 H1 IH1 F1]; intros l2 H2; [by rewrite merged_nil_l|]. induction H2 as [|b l2 H2 IH2 F2]; [rewrite merged_nil_r; by constructor|].
  rewrite Forall_forall in F1, F2. rewrite merged_cons. destruct (Z.leb_spec (cmp a b) 0) as [Hab|Hab]; constructor.
  - apply IH1. constructor; [done|]. by apply Forall_forall.
  - apply Forall_forall. intros x. rewrite merged_perm, elem_of_app, elem_of_cons. intros [Hx|[->|Hx]]; [by apply F1|done|]. unfold cmp_le. eapply cmp_trans; [done|]. by apply F2.
  - done.
  - assert (cmp b a <= 0) as Hba by (apply cmp_sym; lia). apply Forall_forall. intros x. rewrite merged_perm, elem_of_app, elem_of_cons.
    intros [[->|Hx]|Hx]; [done| |by apply F2]. unfold cmp_le. eapply cmp_trans; [done|]. by apply F1.
Qed.
Lemma merged_filter (x : Z) (l1 l2 : list Z) : StronglySorted cmp_le l1 -> StronglySorted cmp_le l2 ->
  filter (fun y => cmp x y = 0) (merged l1 l2) = filter (fun y => cmp x y = 0) l1 ++ filter (fun y => cmp x y = 0) l2.
Proof.
  intros H1. revert l2. induction H1 as [|a l1 H1 IH1 F1]; intros l2 H2; [by rewrite merged_nil_l|]. induction H2 as [|b l2 H2 IH2 F2]; [by rewrite merged_nil_r, app_nil_r|].
  rewrite merged_cons. destruct (Z.leb_spec (cmp a b) 0) as [Hab|Hab].
  - rewrite !(filter_cons _ a). rewrite IH1 by (by constructor). by case_decide.
  - rewrite (filter_cons _ b (merged _ _)), IH2. destruct (decide (cmp x b = 0)) as [Hb|Hb]; [|by rewrite (filter_cons_False _ b l2)].
    rewrite (filter_cons_True _ b l2) by done. rewrite (filter_absent _ (a :: l1)); [done|]. rewrite Forall_forall in F1. intros y [->|Hy]%elem_of_cons Hxy.
    + pose proof (cmp_eq x a b Hxy Hb). lia.
    + pose proof (cmp_trans a y b (F1 y Hy) (cmp_eq x y b Hxy Hb)). lia.
Qed.
Lemma stable_merged (xs ys l1 l2 : list Z) : stable xs l1 -> stable ys l2 -> stable (xs ++ ys) (merged l1 l2).
Proof.
  intros (S1 & P1 & F1) (S2 & P2 & F2). split; [by apply merged_sorted|]. split; [by rewrite merged_perm, P1, P2|]. intros x. by rewrite merged_filter, filter_app, F1, F2.
Qed.
Lemma stable_nil : stable [] [].
Proof using Type. split; [constructor|done]. Qed.
Lemma stable_single (x : Z) : stable [x] [x].
Proof using Type. split; [constructor; constructor|done]. Qed.
End Stable.

(** ** Lists that end with NULL *)

Fixpoint chain (m : lmem) (a : Z) (l : list Z) : Prop :=
  match l with
  | [] => a = NULL
  | x :: l => a = x /\ x <> NULL /\ exists b, nxt m x = Some b /\ chain m b l
  end.
(** Only the next pointers of [l] may have changed. *)
Definition only (l : list Z) (m m' : lmem) : Prop := (forall q, q ∉ l -> nxt m' q = nxt m q) /\ (forall q, prv m' q = prv m q) /\ dom m' = dom m.
Lemma only_refl (l : list Z) (m : lmem) : only l m m.
Proof. done. Qed.
Lemma only_trans (l : list Z) (m1 m2 m3 : lmem) : only l m1 m2 -> only l m2 m3 -> only l m1 m3.
Proof. intros (A1 & A2 & A3) (B1 & B2 & B3). split; [intros q Hq; by rewrite B1, A1|]. split; [intros q; by rewrite B2, A2|congruence]. Qed.
Lemma only_weaken (l l' : list Z) (m m' : lmem) : only l m m' -> l ⊆ l' -> only l' m m'.
Proof. intros (A1 & A2 & A3) H. split; [intros q Hq; apply A1; set_solver|done]. Qed.
Lemma only_wnext (p v : Z) (m : lmem) : p ∈ dom m -> only [p] m (wnext p v m).
Proof. intros Hp. split; [intros q Hq; rewrite nxt_wnext by done; case_decide; [set_solver|done]|]. split; [intros q; apply prv_wnext|apply dom_wnext]. Qed.
Lemma chain_frame (m m' : lmem) (a : Z) (l : list Z) : chain m a l -> (forall q, q ∈ l -> nxt m' q = nxt m q) -> chain m' a l.
Proof.
  revert a. induction l as [|x l IH]; intros a; [done|]. intros (-> & Hx & b & Hb & Hc) H. split; [done|]. split; [done|]. exists b. split; [by rewrite H by (by left)|].
  apply IH; [done|]. intros q Hq. apply H. by right.
Qed.
Lemma chain_only (l0 : list Z) (m m' : lmem) (a : Z) (l : list Z) : chain m a l -> only l0 m m' -> (forall q, q ∈ l -> q ∉ l0) -> chain m' a l.
Proof. intros H (A1 & _) Hd. eapply chain_frame; [done|]. intros q Hq. by apply A1, Hd. Qed.
Lemma chain_dom (m : lmem) (a : Z) (l : list Z) : chain m a l -> forall q, q ∈ l -> q ∈ dom m.
Proof.
  revert a. induction l as [|x l IH]; intros a; [intros _ q Hq; by apply elem_of_nil in Hq|]. intros (-> & _ & b & Hb & Hc) q [->|Hq]%elem_of_cons; [by eapply nxt_dom|by eapply IH].
Qed.
Lemma chain_null (m : lmem) (a : Z) (l : list Z) : chain m a l -> (a = NULL <-> l = []).
Proof. destruct l as [|x l]; [by cbn; intros ->|]. intros (-> & Hx & _). by split. Qed.

Section Merge.
Variable cmp : Z -> Z -> Z.
#[local] Notation merged := (merged cmp).

Definition tails (tail : option Z) : list Z := match tail with Some t => [t] | None => [] end.
(** What a merge behind [tail] leaves. *)
Definition merged_at (tail : option Z) (hn hn' : Z) (l : list Z) (m' : lmem) : Prop :=
  exists h, chain m' h l /\ match tail with None => hn' = h | Some t => hn' = hn /\ nxt m' t = Some h end.
Lemma set_tail_next_spec (tail : option Z) (hn v : Z) (m : lmem) : (forall t, tail = Some t -> t ∈ dom m) ->
  exists hn' m', set_tail_next tail hn v m = Ret (hn', m') /\ only (tails tail) m m' /\ match tail with None => hn' = v | Some t => hn' = hn /\ nxt m' t = Some v end.
Proof.
  intros Ht. destruct tail as [t|]; cbn [set_tail_next]; [|by exists v, m]. specialize (Ht t eq_refl). rewrite set_next_run by done. cbn [res_bind]. exists hn, (wnext t v m).
  split; [done|]. split; [by apply only_wnext|]. split; [done|]. rewrite nxt_wnext by done. by rewrite decide_True.
Qed.
(** One node [x] is put behind [tail]; [l] is merged behind it. *)
Lemma merged_step (tail : option Z) (hn hn1 hn' x : Z) (l rest : list Z) (m m1 m' : lmem) : x <> NULL -> (forall t, tail = Some t -> t ∉ x :: rest) -> x ∉ rest ->
  only (tails tail) m m1 -> match tail with None => hn1 = x | Some t => hn1 = hn /\ nxt m1 t = Some x end ->
  only (rest ++ [x]) m1 m' -> merged_at (Some x) hn1 hn' l m' -> merged_at tail hn hn' (x :: l) m' /\ only (x :: rest ++ tails tail) m m'.
Proof.
  intros Hx Ht Hr O1 H1 O2 (h & Hc & -> & Hn). split.
  - exists x. split; [split; [done|]; split; [done|]; by exists h|]. destruct tail as [t|]; [|done]. destruct H1 as [-> H1]. split; [done|].
    specialize (Ht t eq_refl). rewrite (proj1 O2 t); [done|set_solver].
  - eapply only_trans; [eapply only_weaken; [exact O1|set_solver]|]. eapply only_weaken; [exact O2|set_solver].
Qed.
Lemma merge_runs_spec (fuel : nat) (la lb : list Z) (tail : option Z) (hn a b : Z) (m : lmem) : chain m a la -> chain m b lb -> NoDup (la ++ lb) ->
  (forall t, tail = Some t -> t ∈ dom m /\ t ∉ la ++ lb) -> (length la + length lb < fuel)%nat ->
  exists hn' m', merge_loop cmp fuel tail hn a b m = Ret (hn', m') /\ merged_at tail hn hn' (merged la lb) m' /\ only (la ++ lb ++ tails tail) m m'.
Proof.
  revert la lb tail hn a b m. induction fuel as [|fuel IH]; intros la lb tail hn a b m Ha Hb Hd Ht Hf; [lia|]. cbn [merge_loop].
  destruct (set_tail_next_spec tail hn (if negb (a =? NULL) then a else b) m) as (hn0 & m0 & E0 & O0 & H0); [intros t Et; by apply Ht|].
  destruct la as [|x la].
  { rewrite merged_nil_l. cbn in Ha. subst a. cbn [Z.eqb negb andb NULL] in *. exists hn0, m0. split; [done|]. split; [|eapply only_weaken; [exact O0|set_solver]].
    exists b. split; [|done]. eapply chain_only; [done..|]. intros q Hq. destruct tail as [t|]; [|set_solver]. destruct (Ht t eq_refl) as [_ Hn]. set_solver. }
  pose proof Ha as (-> & Hx & a' & Ha' & Hca). rewrite (proj2 (Z.eqb_neq x NULL) Hx) in *. cbn [negb andb] in *. destruct lb as [|y lb].
  { rewrite merged_nil_r. cbn in Hb. subst b. cbn [Z.eqb negb NULL]. exists hn0, m0. split; [done|]. split; [|eapply only_weaken; [exact O0|set_solver]].
    exists x. split; [|done]. eapply chain_only; [done..|]. intros q Hq. destruct tail as [t|]; [|set_solver]. destruct (Ht t eq_refl) as [_ Hn]. set_solver. }
  pose proof Hb as (-> & Hy & b' & Hb' & Hcb). rewrite (proj2 (Z.eqb_neq y NULL) Hy). cbn [negb]. rewrite merged_cons. clear E0 O0 H0 hn0 m0.
  assert (forall t, tail = Some t -> t ∈ dom m) as Htd by (intros t Et; by apply Ht).
  assert (forall q, q ∈ x :: la ++ y :: lb -> q ∉ tails tail) as Hqt by (intros q Hq Hqt; destruct tail as [t|]; [|set_solver]; destruct (Ht t eq_refl) as [_ Hn]; set_solver).
  destruct (Z.leb_spec (cmp x y) 0) as [Hle|Hgt].
  - destruct (set_tail_next_spec tail hn x m Htd) as (hn1 & m1 & -> & O1 & H1). cbn [res_bind].
    assert (nxt m1 x = Some a') as Hn1 by (rewrite (proj1 O1 x); [done|apply Hqt; set_solver]). rewrite (get_next_run x a' m1 Hn1). cbn [res_bind].
    cbn [app] in Hd. apply NoDup_cons in Hd as [Hdx Hd].
    destruct (IH la (y :: lb) (Some x) hn1 a' y m1) as (hn' & m' & E & Hm & O2).
    + eapply chain_only; [exact Hca|exact O1|]. intros q Hq. apply Hqt. set_solver.
    + eapply chain_only; [exact Hb|exact O1|]. intros q Hq. apply Hqt. set_solver.
    + done.
    + intros t [= <-]. split; [by eapply nxt_dom|done].
    + cbn in *. lia.
    + exists hn', m'. split; [done|]. destruct (merged_step tail hn hn1 hn' x (merged la (y :: lb)) (la ++ y :: lb) m m1 m') as [R1 R2]; try done.
      * intros t Et. destruct (Ht t Et) as [_ Hn]. done.
      * eapply only_weaken; [exact O2|set_solver].
      * split; [done|]. eapply only_weaken; [exact R2|set_solver].
  - destruct (set_tail_next_spec tail hn y m Htd) as (hn1 & m1 & -> & O1 & H1). cbn [res_bind].
    assert (nxt m1 y = Some b') as Hn1 by (rewrite (proj1 O1 y); [done|apply Hqt; set_solver]). rewrite (get_next_run y b' m1 Hn1). cbn [res_bind].
    assert (NoDup (y :: (x :: la) ++ lb)) as [Hdy Hd']%NoDup_cons by (by rewrite Permutation_middle).
    destruct (IH (x :: la) lb (Some y) hn1 x b' m1) as (hn' & m' & E & Hm & O2).
    + eapply chain_only; [exact Ha|exact O1|]. intros q Hq. apply Hqt. set_solver.
    + eapply chain_only; [exact Hcb|exact O1|]. intros q Hq. apply Hqt. set_solver.
    + done.
    + intros t [= <-]. split; [by eapply nxt_dom|done].
    + cbn in *. lia.
    + exists hn', m'. split; [done|]. destruct (merged_step tail hn hn1 hn' y (merged (x :: la) lb) ((x :: la) ++ lb) m m1 m') as [R1 R2]; try done.
      * intros t Et. destruct (Ht t Et) as [_ Hn]. set_solver.
      * eapply only_weaken; [exact O2|set_solver].
      * split; [done|]. eapply only_weaken; [exact R2|set_solver].
Qed.
Lemma nodes_bound (m : lmem) (l : list Z) : NoDup l -> (forall q, q ∈ l -> q ∈ dom m) -> (length l <= size (dom m))%nat.
Proof.
  intros Hd Hl. rewrite <- (size_list_to_set (C := gset Z) l Hd). apply subseteq_size. intros q Hq%elem_of_list_to_set. by apply Hl.
Qed.
Lemma merge_spec (la lb : list Z) (a b : Z) (m : lmem) : chain m a la -> chain m b lb -> NoDup (la ++ lb) ->
  exists h m', merge cmp a b m = Ret (h, m') /\ chain m' h (merged la lb) /\ only (la ++ lb) m m'.
Proof.
  intros Ha Hb Hd. pose proof Hd as (D1 & _ & D2)%NoDup_app. pose proof (nodes_bound m la D1 (chain_dom m a la Ha)). pose proof (nodes_bound m lb D2 (chain_dom m b lb Hb)).
  destruct (merge_runs_spec (S (size (dom m) + size (dom m))) la lb None NULL a b m Ha Hb Hd) as (hn' & m' & E & (h & Hc & ->) & O); [done|lia|].
  exists h, m'. split; [done|]. split; [done|]. cbn [tails] in O. by rewrite app_nil_r in O.
Qed.

(** *** Restoring the back pointers *)

(** Only the next pointers of [ln] and the back pointers of [lp] may have changed. *)
Definition touched (ln lp : list Z) (m m' : lmem) : Prop :=
  (forall q, q ∉ ln -> nxt m' q = nxt m q) /\ (forall q, q ∉ lp -> prv m' q = prv m q) /\ dom m' = dom m.
Lemma touched_trans (ln lp : list Z) (m1 m2 m3 : lmem) : touched ln lp m1 m2 -> touched ln lp m2 m3 -> touched ln lp m1 m3.
Proof. intros (A1 & A2 & A3) (B1 & B2 & B3). split; [intros q Hq; by rewrite B1, A1|]. split; [intros q Hq; by rewrite B2, A2|congruence]. Qed.
Lemma touched_weaken (ln lp ln' lp' : list Z) (m m' : lmem) : touched ln lp m m' -> ln ⊆ ln' -> lp ⊆ lp' -> touched ln' lp' m m'.
Proof. intros (A1 & A2 & A3) H1 H2. split; [intros q Hq; apply A1; set_solver|]. split; [intros q Hq; apply A2; set_solver|done]. Qed.
Lemma touched_links (p x v : Z) (m : lmem) : p ∈ dom m -> x ∈ dom m -> touched [p] [x] m (wprev x v (wnext p x m)) /\ nxt (wprev x v (wnext p x m)) p = Some x /\ prv (wprev x v (wnext p x m)) x = Some v.
Proof.
  intros Hp Hx. split; [split; [|split]|split].
  - intros q Hq. lread. by rewrite decide_False by set_solver.
  - intros q Hq. rewrite prv_wprev by ldom. rewrite decide_False by set_solver. apply prv_wnext.
  - by rewrite dom_wprev, dom_wnext.
  - lread. by rewrite decide_True.
  - rewrite prv_wprev by ldom. by rewrite decide_True.
Qed.
Lemma chain_last (m : lmem) (a t : Z) (l : list Z) : chain m a l -> last l = Some t -> nxt m t = Some NULL.
Proof.
  revert a. induction l as [|x l IH]; intros a; [done|]. intros (-> & Hx & b & Hb & Hc). destruct l as [|y l]; [cbn; intros [= <-]; cbn in Hc; by rewrite Hb, Hc|].
  rewrite last_cons_cons. by apply (IH b).
Qed.
(** The links from [p] to [x] and what is behind [x]. *)
Lemma links_step (m : lmem) (p x : Z) (l : list Z) : joined m p x -> links m (x :: l) -> links m (p :: x :: l).
Proof. intros Hj Hl. split; [|exact Hl]. by apply (join_intro m [p] (x :: l) p x). Qed.
Lemma restore_loop_spec (fuel : nat) (l : list Z) (tail x : Z) (m : lmem) : nxt m tail = Some x -> chain m x l -> l <> [] -> NoDup (tail :: l) -> (length l <= fuel)%nat ->
  exists t m', restore_loop fuel tail m = Ret (t, m') /\ last l = Some t /\ links m' (tail :: l) /\ touched [] l m m'.
Proof.
  revert l tail x m. induction fuel as [|fuel IH]; intros l tail x m Ht Hc Hne Hd Hf; [destruct l; [done|cbn in Hf; lia]|]. cbn [restore_loop].
  destruct l as [|y l]; [done|]. pose proof Hc as (-> & Hy & b & Hb & Hcb). assert (y ∈ dom m) as Hyd by (by eapply nxt_dom).
  rewrite (get_next_run tail y m Ht). cbn [res_bind]. rewrite set_prev_run by done. cbn [res_bind]. set (m1 := wprev y tail m).
  assert (touched [] [y] m m1) as T1 by (split; [intros q _; apply nxt_wprev|split; [intros q Hq; unfold m1; rewrite prv_wprev by done; by rewrite decide_False by set_solver|apply dom_wprev]]).
  assert (prv m1 y = Some tail) as Hp1 by (unfold m1; rewrite prv_wprev by done; by rewrite decide_True). clearbody m1. pose proof T1 as (N1 & P1 & D1).
  rewrite (get_next_run tail y m1) by (by rewrite N1 by set_solver). cbn [res_bind]. rewrite (get_next_run y b m1) by (by rewrite N1 by set_solver). cbn [res_bind].
  assert (joined m1 tail y) as J1 by (split; [by rewrite N1 by set_solver|done]). destruct (Z.eqb_spec b NULL) as [->|Nb]; cbn [negb].
  - assert (l = []) as -> by (by apply (chain_null m NULL l Hcb)). exists y, m1. split; [done|]. split; [done|]. split; [|done]. apply links_step; [done|]. split; [by intros ? ? _ [=]|done].
  - assert (l <> []) as Hl by (intros E; apply Nb; by apply (chain_null m b l Hcb)). apply NoDup_cons in Hd as [Hd1 Hd2].
    destruct (IH l y b m1) as (t & m2 & E & El & HL & T2); [by rewrite N1 by set_solver|eapply chain_frame; [exact Hcb|intros q Hq; apply N1; set_solver]|done|done|cbn in Hf; lia|].
    exists t, m2. split; [done|]. split; [destruct l; [done|by rewrite last_cons_cons]|]. pose proof T2 as (N2 & P2 & D2). apply NoDup_cons in Hd2 as [Hd2 Hd3].
    split; [|eapply touched_trans; [eapply touched_weaken; [exact T1|set_solver..]|eapply touched_weaken; [exact T2|set_solver..]]].
    apply links_step; [|done]. destruct J1 as [J1 J2]. split; [by rewrite N2 by set_solver|by rewrite P2 by done].
Qed.
(** One node [x] is linked behind [tail]; [l] follows. *)
Lemma back_step (tail x t : Z) (l rest : list Z) (m m1 m' : lmem) : tail ∉ x :: rest -> x ∉ rest -> touched [tail] [x] m m1 -> joined m1 tail x ->
  touched (x :: rest) rest m1 m' -> links m' (x :: l) -> links m' (tail :: x :: l) /\ touched (tail :: x :: rest) (x :: rest) m m'.
Proof.
  intros Ht Hx T1 [J1 J2] T2 HL. pose proof T2 as (N2 & P2 & _). split.
  - apply links_step; [|done]. split; [by rewrite N2 by done|by rewrite P2 by done].
  - eapply touched_trans; [eapply touched_weaken; [exact T1|set_solver..]|eapply touched_weaken; [exact T2|set_solver..]].
Qed.
Lemma merge_back_loop_spec (fuel : nat) (la lb : list Z) (tail a b : Z) (m : lmem) : chain m a la -> chain m b lb -> NoDup (tail :: la ++ lb) -> tail ∈ dom m ->
  la ++ lb <> [] -> (length la + length lb < fuel)%nat ->
  exists t m', merge_back_loop cmp fuel tail a b m = Ret (t, m') /\ last (merged la lb) = Some t /\ links m' (tail :: merged la lb) /\ touched (tail :: la ++ lb) (la ++ lb) m m'.
Proof.
  revert la lb tail a b m. induction fuel as [|fuel IH]; intros la lb tail a b m Ha Hb Hd Ht Hne Hf; [lia|]. cbn [merge_back_loop].
  assert (forall x l, chain m x l -> l <> [] -> NoDup (tail :: l) -> (length l < S fuel)%nat -> exists t m', (let! m := set_next tail x m in restore_loop (S fuel) tail m) = Ret (t, m') /\
    last l = Some t /\ links m' (tail :: l) /\ touched (tail :: l) l m m') as Hrest.
  { intros x l Hc Hl Hdl Hfl. rewrite set_next_run by done. cbn [res_bind]. pose proof (only_wnext tail x m Ht) as (O1 & O2 & O3).
    destruct (restore_loop_spec (S fuel) l tail x (wnext tail x m)) as (t & m' & E & El & HL & T); [rewrite nxt_wnext by done; by rewrite decide_True| |done|done|lia|].
    - eapply chain_frame; [done|]. intros q Hq. apply O1. apply NoDup_cons in Hdl as [Hdl _]. set_solver.
    - exists t, m'. split; [done|]. split; [done|]. split; [done|]. eapply touched_trans; [|eapply touched_weaken; [exact T|set_solver..]].
      split; [intros q Hq; apply O1; set_solver|done]. }
  destruct la as [|x la].
  { rewrite merged_nil_l. cbn in Ha. subst a. cbn [Z.eqb negb andb NULL app] in *. by apply (Hrest b lb). }
  pose proof Ha as (-> & Hx & a' & Ha' & Hca). rewrite (proj2 (Z.eqb_neq x NULL) Hx) in *. cbn [negb andb] in *. destruct lb as [|y lb].
  { rewrite merged_nil_r. cbn in Hb. subst b. rewrite app_nil_r in *. cbn [Z.eqb negb NULL length] in *. apply (Hrest x (x :: la)); [done|done|done|cbn; lia]. }
  pose proof Hb as (-> & Hy & b' & Hb' & Hcb). rewrite (proj2 (Z.eqb_neq y NULL) Hy). cbn [negb]. rewrite merged_cons. clear Hrest. apply NoDup_cons in Hd as [Hdt Hd].
  assert (x ∈ dom m) as Hxd by (by eapply nxt_dom). assert (y ∈ dom m) as Hyd by (by eapply nxt_dom).
  destruct (Z.leb_spec (cmp x y) 0) as [Hle|Hgt].
  - rewrite set_next_run by done. cbn [res_bind]. rewrite set_prev_run by ldom. cbn [res_bind]. destruct (touched_links tail x tail m Ht Hxd) as (T1 & J1 & J2). set (m1 := wprev _ _ _) in *. clearbody m1.
    pose proof T1 as (N1 & P1 & D1). assert (nxt m1 x = Some a') as Hn1 by (rewrite N1; [done|set_solver]). rewrite (get_next_run x a' m1 Hn1). cbn [res_bind].
    rewrite (get_next_run tail x m1 J1). cbn [res_bind]. cbn [app] in Hd. apply NoDup_cons in Hd as [Hdx Hd'].
    destruct (IH la (y :: lb) x a' y m1) as (t & m' & E & El & HL & T2).
    + eapply chain_frame; [exact Hca|]. intros q Hq. apply N1. set_solver.
    + eapply chain_frame; [exact Hb|]. intros q Hq. apply N1. set_solver.
    + by apply NoDup_cons.
    + by rewrite D1.
    + by destruct la.
    + cbn in *. lia.
    + exists t, m'. split; [done|]. split; [destruct (merged la (y :: lb)) eqn:Em; [done|by rewrite last_cons_cons]|]. by apply (back_step tail x t _ (la ++ y :: lb) m m1 m').
  - rewrite set_next_run by done. cbn [res_bind]. rewrite set_prev_run by ldom. cbn [res_bind]. destruct (touched_links tail y tail m Ht Hyd) as (T1 & J1 & J2). set (m1 := wprev _ _ _) in *. clearbody m1.
    pose proof T1 as (N1 & P1 & D1). assert (nxt m1 y = Some b') as Hn1 by (rewrite N1; [done|set_solver]). rewrite (get_next_run y b' m1 Hn1). cbn [res_bind].
    rewrite (get_next_run tail y m1 J1). cbn [res_bind]. assert (NoDup (y :: (x :: la) ++ lb)) as Hd' by (by rewrite Permutation_middle).
    destruct (IH (x :: la) lb y x b' m1) as (t & m' & E & El & HL & T2).
    + eapply chain_frame; [exact Ha|]. intros q Hq. apply N1. set_solver.
    + eapply chain_frame; [exact Hcb|]. intros q Hq. apply N1. set_solver.
    + done.
    + by rewrite D1.
    + done.
    + cbn in *. lia.
    + apply NoDup_cons in Hd' as [Hdy Hd']. exists t, m'. split; [done|]. split; [destruct (merged (x :: la) lb) eqn:Em; [done|by rewrite last_cons_cons]|].
      destruct (back_step tail y t (merged (x :: la) lb) ((x :: la) ++ lb) m m1 m') as [R1 R2]; [set_solver|done..|]. split; [done|]. eapply touched_weaken; [exact R2|set_solver..].
Qed.
Lemma merge_and_restore_spec (la lb : list Z) (head a b : Z) (m : lmem) : chain m a la -> chain m b lb -> NoDup (head :: la ++ lb) -> head ∈ dom m -> la ++ lb <> [] ->
  exists m', merge_and_restore_back_links cmp head a b m = Ret m' /\ ring m' (head :: merged la lb) /\ touched (head :: la ++ lb) (head :: la ++ lb) m m'.
Proof.
  intros Ha Hb Hd Hh Hne. pose proof Hd as [Hdh (D1 & _ & D2)%NoDup_app]%NoDup_cons. pose proof (nodes_bound m la D1 (chain_dom m a la Ha)). pose proof (nodes_bound m lb D2 (chain_dom m b lb Hb)).
  unfold merge_and_restore_back_links. destruct (merge_back_loop_spec (S (size (dom m) + size (dom m))) la lb head a b m Ha Hb Hd Hh Hne) as (t & m1 & -> & El & HL & T1); [lia|]. cbn [res_bind].
  set (r := merged la lb) in *. assert (t ∈ r) as Htr by (apply last_Some_elem_of in El; done). assert (r ≡ₚ la ++ lb) as Er by apply merged_perm. pose proof T1 as (N1 & P1 & Dm1).
  assert (t ∈ dom m1) as Htd by (rewrite Dm1; rewrite Er, elem_of_app in Htr; destruct Htr; [by eapply (chain_dom m a la)|by eapply (chain_dom m b lb)]).
  assert (head ∈ dom m1) as Hhd by (by rewrite Dm1). rewrite set_next_run by done. cbn [res_bind]. rewrite set_prev_run by ldom. eexists. split; [reflexivity|].
  assert (t ∈ la ++ lb) as Htl by (by rewrite <- Er).
  destruct (touched_links t head t m1 Htd Hhd) as (T2 & J1 & J2). set (m2 := wprev _ _ _) in *. clearbody m2. split.
  2: { eapply touched_trans; [eapply touched_weaken; [exact T1|done|by apply list_subseteq_cons]|]. eapply touched_weaken; [exact T2| |]; intros q ->%list_elem_of_singleton; [by right|by left]. }
  assert (last (head :: r) = Some t) as El' by (destruct r; [done|by rewrite last_cons_cons]). assert (NoDup (head :: r)) as Hdr by (by rewrite Er).
  split; [done|]. split; [|by apply (join_intro m2 (head :: r) (head :: r) t head)]. apply (links_relinked m1 m2 (head :: r) t head); [done|done|done|done|].
  intros q Hq. destruct T2 as (N2 & P2 & _). split; intros Hn; [apply N2|apply P2]; by intros ->%list_elem_of_singleton.
Qed.
End Merge.

(** ** The array of runs *)

(** What the runs come from, the oldest first: the runs of the higher places are older. *)
Definition source (Xs : list (list Z)) : list Z := concat (reverse Xs).

Lemma source_cons (X : list Z) (Xs : list (list Z)) : source (X :: Xs) = source Xs ++ X.
Proof. unfold source. rewrite reverse_cons, concat_app. cbn. by rewrite app_nil_r. Qed.
Lemma source_nils (n : nat) : source (replicate n []) = [].
Proof. induction n as [|n IH]; [done|]. cbn [replicate]. by rewrite source_cons, IH. Qed.
Lemma source_app (Xs Ys : list (list Z)) : source (Xs ++ Ys) = source Ys ++ source Xs.
Proof. unfold source. by rewrite reverse_app, concat_app. Qed.
Lemma chains_only (l0 : list Z) (m m' : lmem) (part : list Z) (Ls : list (list Z)) : Forall2 (chain m) part Ls -> only l0 m m' -> (forall q, q ∈ concat Ls -> q ∉ l0) -> Forall2 (chain m') part Ls.
Proof.
  intros H O. induction H as [|p L part Ls Hc H IH]; intros Hd; constructor.
  - eapply chain_only; [done..|]. intros q Hq. apply Hd. cbn. set_solver.
  - apply IH. intros q Hq. apply Hd. cbn. set_solver.
Qed.
(** A run is put at a place below or at [j] of an array that is free there. *)
Lemma source_put (j lev : nat) (X : list Z) (Xs : list (list Z)) : (lev <= j)%nat -> source (<[lev := X]> (replicate (S j) [] ++ Xs)) = source Xs ++ X.
Proof.
  intros H. rewrite insert_app_l by (rewrite length_replicate; lia). rewrite source_app. f_equal.
  replace (S j) with (lev + S (j - lev))%nat by lia. rewrite replicate_add. rewrite insert_app_r_alt by (by rewrite length_replicate). rewrite length_replicate, Nat.sub_diag. cbn [replicate insert list_insert].
  by rewrite source_app, source_cons, !source_nils, app_nil_r.
Qed.
Lemma concat_put (j lev : nat) (L : list Z) (Ls : list (list Z)) : (lev <= j)%nat -> concat (<[lev := L]> (replicate (S j) [] ++ Ls)) = L ++ concat Ls.
Proof.
  intros H. assert (forall n, concat (replicate n ([] : list Z)) = []) as Hn by (intros n; by induction n).
  rewrite insert_app_l by (rewrite length_replicate; lia). rewrite concat_app. f_equal.
  replace (S j) with (lev + S (j - lev))%nat by lia. rewrite replicate_add. rewrite insert_app_r_alt by (by rewrite length_replicate). rewrite length_replicate, Nat.sub_diag. cbn [replicate insert list_insert].
  rewrite concat_app. cbn [concat]. by rewrite !Hn, app_nil_r.
Qed.
(** The places that are used: the run at [max_lev] is there, and those above are not. *)
Definition levels (max_lev : nat) (Ls : list (list Z)) : Prop :=
  (max_lev < 20)%nat /\ (forall i, (max_lev < i)%nat -> (i < 21)%nat -> Ls !! i = Some []) /\ (Ls !! max_lev <> Some [] \/ max_lev = 0%nat /\ concat Ls = []).
(** The next place after a carry that stopped at [j], and the new highest place. *)
Definition place (max_lev j : nat) : nat := if decide (max_lev < j)%nat then if decide (20 <= j)%nat then 19%nat else j else j.
Definition highest (max_lev j : nat) : nat := if decide (max_lev < j)%nat then place max_lev j else max_lev.
Lemma levels_put (max_lev j : nat) (C : list Z) (Ls : list (list Z)) : levels max_lev Ls -> length Ls = 21%nat -> Ls !! j = Some [] -> (forall i, (i < j)%nat -> Ls !! i <> Some []) -> C <> [] ->
  (place max_lev j <= j)%nat /\ (place max_lev j < 20)%nat /\ levels (highest max_lev j) (<[place max_lev j := C]> (replicate (S j) [] ++ drop (S j) Ls)).
Proof.
  intros (H1 & H2 & H3) Hl Hj Hlt HC. apply lookup_lt_Some in Hj as Hj'. set (N := replicate (S j) [] ++ drop (S j) Ls).
  assert (length N = 21%nat) as HN by (unfold N; rewrite length_app, length_replicate, length_drop; lia).
  assert (forall i, (j < i)%nat -> N !! i = Ls !! i) as Hhi.
  { intros i Hi. unfold N. rewrite lookup_app_r by (rewrite length_replicate; lia). rewrite length_replicate, lookup_drop. f_equal. lia. }
  assert (forall i, (i <= j)%nat -> N !! i = Some []) as Hlo.
  { intros i Hi. unfold N. rewrite lookup_app_l by (rewrite length_replicate; lia). apply lookup_replicate. split; [done|lia]. }
  assert (j <= 20)%nat by lia. unfold highest, place. destruct (decide (max_lev < j)%nat) as [Hm|Hm].
  - set (lev := if decide (20 <= j)%nat then 19%nat else j). assert (lev <= j /\ lev < 20 /\ (20 <= j \/ lev = j))%nat as (L1 & L2 & L3) by (unfold lev; destruct (decide (20 <= j)%nat); lia).
    split; [done|]. split; [done|]. split; [done|]. split.
    + intros i Hi Hi'. rewrite list_lookup_insert_ne by lia. destruct (decide (i <= j)%nat); [by apply Hlo|]. rewrite Hhi by lia. apply H2; lia.
    + left. rewrite list_lookup_insert_eq by lia. congruence.
  - split; [done|]. split; [lia|]. split; [done|]. split.
    + intros i Hi Hi'. rewrite list_lookup_insert_ne by lia. rewrite Hhi by lia. by apply H2.
    + left. destruct (decide (j = max_lev)) as [->|Nj]; [rewrite list_lookup_insert_eq by lia; congruence|]. rewrite list_lookup_insert_ne by done. rewrite Hhi by lia. destruct H3 as [H3|[-> _]]; [done|lia].
Qed.
(** A ring whose last node is cut off from the head is a chain. *)
Lemma links_chain (m : lmem) (p x : Z) (l : list Z) : links m (p :: x :: l) -> NULL ∉ x :: l -> forall m', (forall q, q ∈ x :: l -> last (x :: l) <> Some q -> nxt m' q = nxt m q) ->
  (forall t, last (x :: l) = Some t -> nxt m' t = Some NULL) -> NoDup (x :: l) -> chain m' x (x :: l).
Proof.
  revert p x. induction l as [|y l IH]; intros p x [_ Hl] Hn m' Hk Ht Hd.
  - split; [done|]. split; [set_solver|]. exists NULL. by split; [apply Ht|].
  - apply NoDup_cons in Hd as [Hd1 Hd2]. split; [done|]. split; [set_solver|]. exists y. split.
    + rewrite Hk; [|set_solver|]; [|rewrite last_cons_cons; intros E%last_Some_elem_of; done]. by destruct Hl as [Hj _]; destruct (Hj x y eq_refl eq_refl).
    + apply (IH x y); [done|set_solver| |by intros t; specialize (Ht t); rewrite last_cons_cons in Ht|done]. intros q Hq Hq'. apply Hk; [set_solver|by rewrite last_cons_cons].
Qed.
Lemma levels_top (max_lev : nat) (Ls : list (list Z)) (L : list Z) : levels max_lev Ls -> length Ls = 21%nat -> Ls !! max_lev = Some L -> concat (drop max_lev Ls) = L.
Proof.
  intros (H1 & H2 & _) Hl HL. rewrite (drop_S Ls L max_lev HL). cbn [concat]. rewrite <- (app_nil_r L) at 2. f_equal.
  assert (forall K : list (list Z), (forall i, (i < length K)%nat -> K !! i = Some []) -> concat K = []) as Hz.
  { intros K HK. induction K as [|k K IH]; [done|]. pose proof (HK 0%nat ltac:(cbn; lia)) as [= ->]. cbn. apply IH. intros i Hi. apply (HK (S i)). cbn. lia. }
  apply Hz. intros i Hi. rewrite length_drop in Hi. rewrite lookup_drop. apply H2; lia.
Qed.


Section Runs.
Variable cmp : Z -> Z -> Z.
Context `{!comparison cmp}.
#[local] Set Default Proof Using "Type*".
#[local] Notation stable := (stable cmp).

(** The runs [Ls] behind the pointers of [part], and what each of them is the sorted form of. *)
Record runs (m : lmem) (part : list Z) (Ls Xs : list (list Z)) : Prop := Runs {
  r_chain : Forall2 (chain m) part Ls;
  r_stable : Forall2 stable Xs Ls }.
Lemma carry_spec (psuf : list Z) (Lsuf Xsuf : list (list Z)) (fuel k : nat) (cur : Z) (C XC : list Z) (m : lmem) : runs m psuf Lsuf Xsuf -> chain m cur C -> stable XC C -> C <> [] ->
  NoDup (concat Lsuf ++ C) -> last Lsuf = Some [] -> (length psuf < fuel)%nat ->
  exists j cur' C' XC' m', carry cmp fuel (Z.of_nat k) (replicate k NULL ++ psuf) cur m = Ret (Z.of_nat (k + j), replicate (k + S j) NULL ++ drop (S j) psuf, cur', m') /\
    Lsuf !! j = Some [] /\ (forall i, (i < j)%nat -> Lsuf !! i <> Some []) /\ runs m' (drop (S j) psuf) (drop (S j) Lsuf) (drop (S j) Xsuf) /\
    chain m' cur' C' /\ stable XC' C' /\ C' <> [] /\ concat (drop (S j) Lsuf) ++ C' ≡ₚ concat Lsuf ++ C /\ source (drop (S j) Xsuf) ++ XC' = source Xsuf ++ XC /\ only (concat Lsuf ++ C) m m'.
Proof.
  revert Lsuf Xsuf fuel k cur C XC m. induction psuf as [|p psuf IH]; intros Lsuf Xsuf fuel k cur C XC m [R1 R2] Hc HS HC Hd Hl Hf; [by inversion R1; subst|].
  destruct Lsuf as [|L Lsuf]; [done|]. destruct Xsuf as [|X Xsuf]; [by inversion R2|]. apply Forall2_cons in R1 as [Rp R1]. apply Forall2_cons in R2 as [RX R2].
  destruct fuel as [|fuel]; [lia|]. cbn [carry]. assert (aget (replicate k NULL ++ p :: psuf) (Z.of_nat k) = Some p) as ->.
  { unfold aget. rewrite (proj2 (Z.ltb_ge _ _)), Nat2Z.id by lia. rewrite lookup_app_r by (by rewrite length_replicate). by rewrite length_replicate, Nat.sub_diag. }
  cbn [deref res_bind]. destruct (Z.eqb_spec p NULL) as [->|Np]; cbn [negb].
  - assert (L = []) as -> by (by apply (chain_null m NULL L Rp)). assert (X = []) as -> by (destruct RX as (_ & HP & _); by apply Permutation_nil in HP).
    exists 0%nat, cur, C, XC, m. rewrite Nat.add_0_r. split; [rewrite replicate_add; cbn; by rewrite <- app_assoc|]. cbn [drop]. split; [done|]. split; [lia|]. split; [by split|].
    split; [done|]. split; [done|]. split; [done|]. split; [done|]. split; [by rewrite source_cons, app_nil_r|apply only_refl].
  - assert (L <> []) as HL by (intros ->; by apply Np, (chain_null m p [] Rp)). cbn [concat] in Hd. rewrite <- app_assoc in Hd.
    assert (NoDup (L ++ C)) as HdLC by (apply (submseteq_NoDup _ (L ++ concat Lsuf ++ C)); [|done]; apply submseteq_app; [done|by apply submseteq_inserts_l]).
    destruct (merge_spec cmp L C p cur m Rp Hc HdLC) as (cur1 & m1 & -> & Hc1 & O1). cbn [res_bind].
    assert (aset (replicate k NULL ++ p :: psuf) (Z.of_nat k) NULL = replicate (S k) NULL ++ psuf) as ->.
    { unfold aset. rewrite Nat2Z.id. rewrite insert_app_r_alt by (by rewrite length_replicate). rewrite length_replicate, Nat.sub_diag. cbn [insert list_insert].
      replace (S k) with (k + 1)%nat by lia. rewrite replicate_add. cbn. by rewrite <- app_assoc. }
    replace (Z.of_nat k + 1) with (Z.of_nat (S k)) by lia.
    assert (forall q, q ∈ concat Lsuf -> q ∉ L ++ C) as Hout.
    { intros q Hq Hq'. assert (NoDup (concat Lsuf ++ L ++ C)) as (_ & Hx & _)%NoDup_app; [|by apply (Hx q)]. by rewrite app_assoc, (Permutation_app_comm (concat Lsuf)), <- app_assoc. }
    assert (last Lsuf = Some []) as Hl'. { destruct Lsuf as [|L2 Lsuf]; [cbn in Hl; congruence|by rewrite last_cons_cons in Hl]. }
    destruct (IH Lsuf Xsuf fuel (S k) cur1 (merged cmp L C) (X ++ XC) m1) as (j & cur' & C' & XC' & m' & E & Ej & Hlt & R' & Hc' & HS' & HC' & HP & Hso & O').
    + split; [by eapply chains_only|done].
    + done.
    + by apply stable_merged.
    + intros E. assert (L ++ C = []) as E' by (apply Permutation_nil; by rewrite <- merged_perm, E). by destruct L.
    + rewrite merged_perm. by rewrite app_assoc, (Permutation_app_comm (concat Lsuf)), <- app_assoc.
    + done.
    + cbn in Hf. lia.
    + exists (S j), cur', C', XC', m'. split; [rewrite E; by replace (k + S (S j))%nat with (S k + S j)%nat by lia; replace (k + S j)%nat with (S k + j)%nat by lia|].
      cbn [drop lookup]. split; [done|]. split; [intros [|i] Hi; cbn; [congruence|apply Hlt; lia]|]. split; [done|]. split; [done|]. split; [done|]. split; [done|]. split; [|split].
      * rewrite HP, merged_perm. cbn [concat]. solve_Permutation.
      * by rewrite Hso, source_cons, app_assoc.
      * cbn [concat]. eapply only_trans; [eapply only_weaken; [exact O1|set_solver]|]. eapply only_weaken; [exact O'|]. intros q. rewrite !elem_of_app, merged_perm, elem_of_app. tauto.
Qed.

Lemma runs_put (m : lmem) (j lev : nat) (cur : Z) (C XC part : list Z) (Ls Xs : list (list Z)) : runs m part Ls Xs -> chain m cur C -> stable XC C ->
  runs m (<[lev := cur]> (replicate (S j) NULL ++ part)) (<[lev := C]> (replicate (S j) [] ++ Ls)) (<[lev := XC]> (replicate (S j) [] ++ Xs)).
Proof.
  intros [R1 R2] Hc HS. split; (apply Forall2_insert; [apply Forall2_app; [apply Forall2_replicate|done]|done]); [done|apply stable_nil].
Qed.
Lemma split_loop_spec (R : list Z) (fuel : nat) (lst : Z) (max_lev : nat) (part : list Z) (Ls Xs : list (list Z)) (m : lmem) : chain m lst R -> runs m part Ls Xs -> length part = 21%nat ->
  NoDup (concat Ls ++ R) -> levels max_lev Ls -> (length R < fuel)%nat ->
  exists max' part' Ls' Xs' m', split_loop cmp fuel lst (Z.of_nat max_lev) part m = Ret (Z.of_nat max', part', m') /\ runs m' part' Ls' Xs' /\ length part' = 21%nat /\
    concat Ls' ≡ₚ concat Ls ++ R /\ levels max' Ls' /\ source Xs' = source Xs ++ R /\ only (concat Ls ++ R) m m'.
Proof.
  revert fuel lst max_lev part Ls Xs m. induction R as [|x R IH]; intros fuel lst max_lev part Ls Xs m Hc HR Hlp Hd HL Hf; (destruct fuel as [|fuel]; [lia|]); cbn [split_loop].
  - cbn in Hc. subst lst. exists max_lev, part, Ls, Xs, m. rewrite !app_nil_r. by split_and!.
  - pose proof Hc as (-> & Hx & b & Hb & Hcb). rewrite (proj2 (Z.eqb_neq x NULL) Hx). cbn [negb]. rewrite (get_next_run x b m Hb). cbn [res_bind].
    assert (x ∈ dom m) as Hxd by (by eapply nxt_dom). rewrite set_next_run by done. cbn [res_bind]. pose proof (only_wnext x NULL m Hxd) as O1. set (m1 := wnext x NULL m) in *.
    assert (chain m1 x [x]) as Hcx by (split; [done|]; split; [done|]; exists NULL; split; [unfold m1; rewrite nxt_wnext by done; by rewrite decide_True|done]). clearbody m1.
    assert (NoDup (x :: R ++ concat Ls)) as [Hxn Hdn]%NoDup_cons by (by rewrite Permutation_app_comm in Hd).
    assert (Forall2 (chain m1) part Ls) as HR1 by (eapply chains_only; [apply HR|exact O1|set_solver]). pose proof (Forall2_length _ _ _ HR1) as HlL. pose proof (Forall2_length _ _ _ (r_stable _ _ _ _ HR)) as HlX.
    pose proof HL as (HL1 & HL2 & _).
    destruct (carry_spec part Ls Xs (S (length part)) 0 x [x] [x] m1) as (j & cur & C & XC & m2 & E & Ej & Hlt & R2 & Hc2 & HS2 & HC2 & HP2 & Hso & O2).
    { split; [done|apply HR]. } { done. } { apply stable_single. } { done. } { rewrite Permutation_app_comm. cbn. apply NoDup_cons. split; [set_solver|]. by apply NoDup_app in Hdn as (_ & _ & ?). }
    { rewrite last_lookup, <- HlL, Hlp. cbn. apply HL2; lia. } { lia. }
    cbn [replicate app] in E. change (Z.of_nat 0) with 0 in E. rewrite E. cbn [res_bind]. clear E. cbn [Nat.add].
    destruct (levels_put max_lev j C Ls HL ltac:(lia) Ej Hlt HC2) as (Hp1 & Hp2 & HL').
    set (part1 := replicate (S j) NULL ++ drop (S j) part). assert (length part1 = 21%nat) as Hl1.
    { unfold part1. rewrite length_app, length_replicate, length_drop. apply lookup_lt_Some in Ej. lia. }
    assert ((if Z.of_nat max_lev <? Z.of_nat j then (if len part1 - 1 <=? Z.of_nat j then Z.of_nat j - 1 else Z.of_nat j, if len part1 - 1 <=? Z.of_nat j then Z.of_nat j - 1 else Z.of_nat j) else (Z.of_nat j, Z.of_nat max_lev)) =
      (Z.of_nat (place max_lev j), Z.of_nat (highest max_lev j))) as ->.
    { rewrite Hl1. apply lookup_lt_Some in Ej. unfold highest, place. destruct (Z.ltb_spec (Z.of_nat max_lev) (Z.of_nat j)), (decide (max_lev < j)%nat); try lia; [|done].
      destruct (Z.leb_spec (Z.of_nat 21 - 1) (Z.of_nat j)), (decide (20 <= j)%nat); try lia; [|done]. f_equal; lia. }
    destruct (aget_is_Some part1 (Z.of_nat (place max_lev j)) ltac:(lia)) as [p0 ->]. cbn [deref res_bind]. unfold aset at 1. rewrite Nat2Z.id.
    destruct (IH fuel b (highest max_lev j) (<[place max_lev j := cur]> part1) (<[place max_lev j := C]> (replicate (S j) [] ++ drop (S j) Ls)) (<[place max_lev j := XC]> (replicate (S j) [] ++ drop (S j) Xs)) m2) as (max' & part' & Ls' & Xs' & m' & E' & R' & Hl' & HP' & HL2' & Hso' & O').
    + eapply (chain_only (concat Ls ++ [x])); [eapply chain_only; [exact Hcb|exact O1|set_solver]|exact O2|]. intros q Hq Hq'. apply elem_of_app in Hq' as [Hq'|Hq']; [|set_solver].
      apply NoDup_app in Hdn as (_ & Hdn & _). by apply (Hdn q).
    + by apply runs_put.
    + by rewrite length_insert.
    + rewrite concat_put by done. rewrite (Permutation_app_comm C), HP2. rewrite <- app_assoc. done.
    + done.
    + cbn in Hf. lia.
    + exists max', part', Ls', Xs', m'. split; [done|]. split; [done|]. split; [done|]. rewrite concat_put in HP', O' by done. rewrite source_put, Hso, <- app_assoc in Hso' by done.
      split; [rewrite HP', (Permutation_app_comm C), HP2, <- app_assoc; done|]. split; [done|]. split; [done|]. eapply only_trans; [eapply only_weaken; [exact O1|set_solver]|].
      eapply only_trans; [eapply only_weaken; [exact O2|set_solver]|]. eapply only_weaken; [exact O'|]. intros q. rewrite (Permutation_app_comm C), HP2. set_solver.
Qed.
Lemma source_perm (Ls Xs : list (list Z)) : Forall2 stable Xs Ls -> source Xs ≡ₚ concat Ls.
Proof. induction 1 as [|X L Xs Ls (_ & HP & _) H IH]; [done|]. rewrite source_cons, IH. cbn [concat]. rewrite HP. apply Permutation_app_comm. Qed.
Lemma final_merges_spec (n lev fuel : nat) (lst : Z) (C XC part : list Z) (Ls Xs : list (list Z)) (m : lmem) : runs m (drop lev part) (drop lev Ls) (drop lev Xs) -> chain m lst C -> stable XC C ->
  NoDup (concat (drop lev Ls) ++ C) -> (lev + n < length part)%nat -> (n < fuel)%nat ->
  exists lst' C' XC' m', final_merges cmp fuel (Z.of_nat lev) (Z.of_nat (lev + n)) lst part m = Ret (lst', m') /\ runs m' (drop (lev + n) part) (drop (lev + n) Ls) (drop (lev + n) Xs) /\
    chain m' lst' C' /\ stable XC' C' /\ concat (drop (lev + n) Ls) ++ C' ≡ₚ concat (drop lev Ls) ++ C /\ source (drop (lev + n) Xs) ++ XC' = source (drop lev Xs) ++ XC /\
    only (concat (drop lev Ls) ++ C) m m'.
Proof.
  revert lev fuel lst C XC m. induction n as [|n IH]; intros lev fuel lst C XC m HR Hc HS Hd Hl Hf; (destruct fuel as [|fuel]; [lia|]); cbn [final_merges].
  { rewrite Nat.add_0_r. rewrite (proj2 (Z.ltb_ge _ _)) by lia. exists lst, C, XC, m. by split_and!. }
  rewrite (proj2 (Z.ltb_lt _ _)) by lia. destruct (lookup_lt_is_Some_2 part lev ltac:(lia)) as [p Ep]. assert (aget part (Z.of_nat lev) = Some p) as -> by (unfold aget; rewrite (proj2 (Z.ltb_ge _ _)) by lia; by rewrite Nat2Z.id).
  cbn [deref res_bind]. pose proof HR as [R1 R2]. rewrite (drop_S part p lev Ep) in R1. destruct (drop lev Ls) as [|L Lr] eqn:EL; [by inversion R1|]. apply Forall2_cons in R1 as [Rp R1].
  destruct (drop lev Xs) as [|X Xr] eqn:EX; [by inversion R2|]. apply Forall2_cons in R2 as [RX R2].
  assert (drop (S lev) Ls = Lr) as EL1 by (by rewrite <- Nat.add_1_r, <- drop_drop, EL). assert (drop (S lev) Xs = Xr) as EX1 by (by rewrite <- Nat.add_1_r, <- drop_drop, EX).
  cbn [concat] in Hd. rewrite <- app_assoc in Hd.
  assert (exists lst1 m1, (if negb (p =? NULL) then merge cmp p lst m else Ret (lst, m)) = Ret (lst1, m1) /\ chain m1 lst1 (merged cmp L C) /\ only (L ++ C) m m1) as (lst1 & m1 & -> & Hc1 & O1).
  { destruct (Z.eqb_spec p NULL) as [->|Np]; cbn [negb].
    - assert (L = []) as -> by (by apply (chain_null m NULL L Rp)). exists lst, m. rewrite merged_nil_l. by split_and!.
    - apply merge_spec; [done|done|]. apply (submseteq_NoDup _ (L ++ concat Lr ++ C)); [|done]. apply submseteq_app; [done|by apply submseteq_inserts_l]. }
  cbn [res_bind]. replace (Z.of_nat lev + 1) with (Z.of_nat (S lev)) by lia. replace (lev + S n)%nat with (S lev + n)%nat by lia.
  assert (NoDup (concat Lr ++ L ++ C)) as Hd1 by (by rewrite app_assoc, (Permutation_app_comm (concat Lr)), <- app_assoc).
  destruct (IH (S lev) fuel lst1 (merged cmp L C) (X ++ XC) m1) as (lst' & C' & XC' & m' & E & R' & Hc' & HS' & HP & Hso & O'); rewrite ?EL1, ?EX1 in *.
  - split; [|done]. eapply chains_only; [exact R1|exact O1|]. apply NoDup_app in Hd1 as (_ & Hd1 & _). exact Hd1.
  - done.
  - by apply stable_merged.
  - by rewrite merged_perm.
  - lia.
  - lia.
  - exists lst', C', XC', m'. split; [done|]. split; [done|]. split; [done|]. split; [done|]. split; [rewrite HP, merged_perm; cbn [concat]; solve_Permutation|]. split; [by rewrite Hso, source_cons, app_assoc|].
    cbn [concat]. eapply only_trans; [eapply only_weaken; [exact O1|set_solver]|]. eapply only_weaken; [exact O'|]. intros q. rewrite !elem_of_app, merged_perm, elem_of_app. tauto.
Qed.
End Runs.


Module ListSortDemo.
(** Nodes at 10, 20, 30, 40 and 50, compared by their last digit but one, modulo 3. *)
Definition by_class (a b : Z) : Z := (a / 10) mod 3 - (b / 10) mod 3.
Definition nodes : lmem := list_to_map [(1, List_head 10 50); (10, List_head 20 1); (20, List_head 30 10); (30, List_head 40 20); (40, List_head 50 30); (50, List_head 1 40)].
#[export] Instance by_class_comparison : comparison by_class.
Proof. split; unfold by_class; intros; lia. Qed.
Lemma nodes_ring : ring nodes [1; 10; 20; 30; 40; 50].
Proof.
  split; [by apply (bool_decide_unpack _); vm_compute|]. split; [|by intros p q [= <-] [= <-]]. cbn [links]. repeat split; try done; (match goal with H : last _ = Some ?p |- _ => injection H as <- end);
    match goal with H : head _ = Some ?q |- _ => injection H as <- end; reflexivity.
Qed.
(** 30; then 10 and 40 in their order; then 20 and 50. *)
Lemma sorted_nodes : (let! m := list_sort by_class 1 nodes in list_for_each 10 1 m) = Ret [30; 10; 40; 20; 50].
Proof. vm_compute. reflexivity. Qed.
End ListSortDemo.
