(* ===== verification/Kfifo.v ===== *)
(** * Byte queues: kernel/kfifo.c and include/linux/kfifo.h

    A ring buffer whose size is a power of two, with indices that run freely and wrap around with their type, for bytes
    and for records with a length in front.  User memory is kernel memory in this port, so that copy_from_user and
    copy_to_user are memcpy. *)
From S2P Require Import Prelude.
#[local] Notation length_of l := (Z.of_nat (length l)).

(** ** The code *)

Record kfifo := Kfifo { buffer : option (list Z); size : Z; in_ : Z; out : Z }.
Definition set_buffer (b : list Z) (f : kfifo) : kfifo := Kfifo (Some b) (size f) (in_ f) (out f).

(** memcpy between two objects, from offset [soff] to offset [doff]; a copy that leaves one of them is a fault. *)
Definition copy (dst : list Z) (doff : Z) (src : list Z) (soff n : Z) : res (list Z) :=
  if (0 <=? doff) && (doff + n <=? length_of dst) && (0 <=? soff) && (soff + n <=? length_of src) && (0 <=? n)
  then Ret (take (Z.to_nat doff) dst ++ take (Z.to_nat n) (drop (Z.to_nat soff) src) ++ drop (Z.to_nat (doff + n)) dst)
  else Bug.
(** [copy_from_user] and [copy_to_user] of the port: the length is an int. *)
Definition copy_from_user (dst : list Z) (doff : Z) (src : list Z) (soff n : Z) : res (Z * list Z) :=
  let! d := copy dst doff src soff (u64 (s32 n)) in Ret (0, d).
Definition copy_to_user (dst : list Z) (doff : Z) (src : list Z) (soff n : Z) : res (Z * list Z) :=
  let! d := copy dst doff src soff (u64 (s32 n)) in Ret (0, d).

Definition kfifo_initialized (f : kfifo) : bool := match buffer f with Some _ => true | None => false end.
Definition kfifo_reset (f : kfifo) : kfifo := Kfifo (buffer f) (size f) 0 0.
Definition kfifo_reset_out (f : kfifo) : kfifo := Kfifo (buffer f) (size f) (in_ f) (in_ f).
Definition kfifo_size (f : kfifo) : Z := size f.
Definition kfifo_len (f : kfifo) : Z := u32 (in_ f - out f).
Definition kfifo_is_empty (f : kfifo) : bool := in_ f =? out f.
Definition kfifo_is_full (f : kfifo) : bool := kfifo_len f =? kfifo_size f.
Definition kfifo_avail (f : kfifo) : Z := u32 (kfifo_size f - kfifo_len f).
Definition __kfifo_add_out (f : kfifo) (off : Z) : kfifo := Kfifo (buffer f) (size f) (in_ f) (u32 (out f + off)).
Definition __kfifo_add_in (f : kfifo) (off : Z) : kfifo := Kfifo (buffer f) (size f) (u32 (in_ f + off)) (out f).
Definition __kfifo_off (f : kfifo) (off : Z) : Z := Z.land off (u32 (size f - 1)).

Definition is_power_of_2 (n : Z) : bool := negb (n =? 0) && (Z.land n (u64 (n - 1)) =? 0).
Definition _kfifo_init (b : option (list Z)) (n : Z) : kfifo := kfifo_reset (Kfifo b n 0 0).
Definition kfifo_init (b : list Z) (n : Z) : res kfifo :=
  let! _ := BUG_ON (negb (is_power_of_2 n)) in Ret (_kfifo_init (Some b) n).
(** [1UL << fls_long(n - 1)]; a shift by the width of the type has no meaning. *)
Definition roundup_pow_of_two (n : Z) : res Z :=
  let m := u64 (n - 1) in
  let fls := if m =? 0 then 0 else Z.log2 m + 1 in
  if fls <? 64 then Ret (u64 (Z.shiftl 1 fls)) else Bug.
(** [kmalloc] gives a block of the size asked for, or NULL. *)
Definition kfifo_alloc (kmalloc : Z -> option (list Z)) (n : Z) : res (Z * kfifo) :=
  let! n := if is_power_of_2 n then Ret n
            else let! _ := BUG_ON (0x80000000 <? n) in let! r := roundup_pow_of_two n in Ret (u32 r) in
  match kmalloc n with
  | None => Ret (- ENOMEM, _kfifo_init None 0)
  | Some b => Ret (0, _kfifo_init (Some b) n)
  end.
(** The block that goes back to [kfree], and the fifo. *)
Definition kfifo_free (f : kfifo) : option (list Z) * kfifo := (buffer f, _kfifo_init None 0).

Definition kfifo_skip (f : kfifo) (n : Z) : kfifo :=
  if n <? kfifo_len f then __kfifo_add_out f n else kfifo_reset_out f.

Definition __kfifo_in_data (f : kfifo) (from : list Z) (n off : Z) : res kfifo :=
  let off := __kfifo_off f (u32 (in_ f + off)) in
  let l := Z.min n (u32 (size f - off)) in
  let! b := deref (buffer f) in
  let! b := copy b off from 0 l in
  let! b := copy b 0 from l (u32 (n - l)) in
  Ret (set_buffer b f).
Definition __kfifo_out_data (f : kfifo) (to : list Z) (n off : Z) : res (list Z) :=
  let off := __kfifo_off f (u32 (out f + off)) in
  let l := Z.min n (u32 (size f - off)) in
  let! b := deref (buffer f) in
  let! to := copy to 0 b off l in
  copy to l b 0 (u32 (n - l)).
(** The error, [*lenout] and the fifo. *)
Definition __kfifo_from_user_data (f : kfifo) (from : list Z) (n off : Z) : res (Z * Z * kfifo) :=
  let off := __kfifo_off f (u32 (in_ f + off)) in
  let l := Z.min n (u32 (size f - off)) in
  let! b := deref (buffer f) in
  let! (ret, b) := copy_from_user b off from 0 l in
  if negb (ret =? 0) then Ret (- EFAULT, ret, set_buffer b f)
  else
    let lenout := l in
    let! (ret, b) := copy_from_user b 0 from l (u32 (n - l)) in
    let lenout := u32 (lenout + (if negb (ret =? 0) then ret else u32 (n - l))) in
    Ret (if negb (ret =? 0) then - EFAULT else 0, lenout, set_buffer b f).
Definition __kfifo_to_user_data (f : kfifo) (to : list Z) (n off : Z) : res (Z * Z * list Z) :=
  let off := __kfifo_off f (u32 (out f + off)) in
  let l := Z.min n (u32 (size f - off)) in
  let! b := deref (buffer f) in
  let! (ret, to) := copy_to_user to 0 b off l in
  let lenout := l in
  if negb (ret =? 0) then Ret (- EFAULT, u32 (lenout - ret), to)
  else
    let n := u32 (n - l) in
    let! (ret, to) := copy_to_user to l b 0 n in
    if negb (ret =? 0) then Ret (- EFAULT, u32 (lenout + (n - ret)), to)
    else Ret (0, u32 (lenout + n), to).

Definition kfifo_in (f : kfifo) (from : list Z) (n : Z) : res (Z * kfifo) :=
  let n := Z.min (kfifo_avail f) n in
  let! f := __kfifo_in_data f from n 0 in
  Ret (n, __kfifo_add_in f n).
Definition kfifo_out (f : kfifo) (to : list Z) (n : Z) : res (Z * list Z * kfifo) :=
  let n := Z.min (kfifo_len f) n in
  let! to := __kfifo_out_data f to n 0 in
  Ret (n, to, __kfifo_add_out f n).
Definition kfifo_out_peek (f : kfifo) (to : list Z) (n offset : Z) : res (Z * list Z) :=
  let n := Z.min (kfifo_len f) (u32 (n + offset)) in
  let! to := __kfifo_out_data f to n offset in
  Ret (n, to).
Definition kfifo_from_user (f : kfifo) (from : list Z) (n : Z) : res (Z * Z * kfifo) :=
  let n := Z.min (kfifo_avail f) n in
  let! (r, f) := __kfifo_from_user_data f from n 0 in
  let '(ret, total) := r in
  if negb (ret =? 0) then Ret (ret, total, f) else Ret (0, total, __kfifo_add_in f n).
Definition kfifo_to_user (f : kfifo) (to : list Z) (n : Z) : res (Z * Z * list Z * kfifo) :=
  let n := Z.min (kfifo_len f) n in
  let! (r, to) := __kfifo_to_user_data f to n 0 in
  let '(ret, lenout) := r in
  Ret (ret, lenout, to, __kfifo_add_out f lenout).

(** *** Records *)

Definition get_byte (f : kfifo) (off : Z) : res Z :=
  let! b := deref (buffer f) in deref (aget b (__kfifo_off f (u32 (out f + off)))).
Definition __kfifo_peek_n (f : kfifo) (recsize : Z) : res Z :=
  let! l := get_byte f 0 in
  if negb (u32 (recsize - 1) =? 0) then let! h := get_byte f 1 in Ret (Z.lor l (Z.shiftl h 8)) else Ret l.
Definition put_byte (f : kfifo) (off v : Z) : res kfifo :=
  let! b := deref (buffer f) in
  let i := __kfifo_off f (u32 (in_ f + off)) in
  let! _ := deref (aget b i) in
  Ret (set_buffer (aset b i v) f).
Definition __kfifo_poke_n (f : kfifo) (recsize n : Z) : res kfifo :=
  let! f := put_byte f 0 (u8 n) in
  if negb (u32 (recsize - 1) =? 0) then put_byte f 1 (u8 (Z.shiftr n 8)) else Ret f.
Definition __kfifo_in_n (f : kfifo) (from : list Z) (n recsize : Z) : res (Z * kfifo) :=
  if kfifo_avail f <? u32 (n + recsize) then Ret (u32 (n + 1), f)
  else let! f := __kfifo_in_data f from n recsize in Ret (0, f).
Definition __kfifo_in_rec (f : kfifo) (from : list Z) (n recsize : Z) : res (Z * kfifo) :=
  let! (ret, f) := __kfifo_in_n f from n recsize in
  if ret =? 0 then
    let! f := if negb (recsize =? 0) then __kfifo_poke_n f recsize n else Ret f in
    Ret (ret, __kfifo_add_in f (u32 (n + recsize)))
  else Ret (ret, f).
Definition __kfifo_out_n (f : kfifo) (to : list Z) (n recsize : Z) : res (Z * list Z * kfifo) :=
  if kfifo_len f <? u32 (n + recsize) then Ret (n, to, f)
  else
    let! to := __kfifo_out_data f to n recsize in
    Ret (0, to, __kfifo_add_out f (u32 (n + recsize))).
(** With [*total]. *)
Definition __kfifo_out_rec (f : kfifo) (to : list Z) (n recsize : Z) : res (Z * Z * list Z * kfifo) :=
  if recsize =? 0 then
    let! (r, f) := __kfifo_out_n f to n recsize in Ret (fst r, n, snd r, f)
  else
    let! l := __kfifo_peek_n f recsize in
    if n <? l then Ret (l, l, to, f)
    else let! (r, f) := __kfifo_out_n f to l recsize in Ret (fst r, l, snd r, f).
Definition __kfifo_from_user_n (f : kfifo) (from : list Z) (n recsize : Z) : res (Z * kfifo) :=
  if kfifo_avail f <? u32 (n + recsize) then Ret (u32 (n + 1), f)
  else
    let! (r, f) := __kfifo_from_user_data f from n recsize in
    Ret (snd r, f).
Definition __kfifo_from_user_rec (f : kfifo) (from : list Z) (n recsize : Z) : res (Z * kfifo) :=
  let! (ret, f) := __kfifo_from_user_n f from n recsize in
  if ret =? 0 then
    let! f := if negb (recsize =? 0) then __kfifo_poke_n f recsize n else Ret f in
    Ret (ret, __kfifo_add_in f (u32 (n + recsize)))
  else Ret (ret, f).
Definition __kfifo_to_user_n (f : kfifo) (to : list Z) (n reclen recsize : Z) : res (Z * list Z * kfifo) :=
  if kfifo_len f <? u32 (reclen + recsize) then Ret (n, to, f)
  else
    let! (r, to) := __kfifo_to_user_data f to reclen recsize in
    let '(ret, total) := r in
    Ret (total, to, if ret =? 0 then __kfifo_add_out f (u32 (reclen + recsize)) else f).
Definition __kfifo_to_user_rec (f : kfifo) (to : list Z) (n recsize : Z) : res (Z * Z * list Z * kfifo) :=
  if recsize =? 0 then
    let! (r, f) := __kfifo_to_user_n f to n n recsize in Ret (fst r, n, snd r, f)
  else
    let! l := __kfifo_peek_n f recsize in
    if n <? l then Ret (l, l, to, f)
    else let! (r, f) := __kfifo_to_user_n f to n l recsize in Ret (fst r, l, snd r, f).
Definition __kfifo_peek_generic (f : kfifo) (recsize : Z) : res Z :=
  if recsize =? 0 then Ret (kfifo_avail f) else __kfifo_peek_n f recsize.
(** [kfifo_peek_rec] with a size known to the compiler. *)
Definition kfifo_peek_rec (f : kfifo) (recsize : Z) : res Z :=
  if recsize =? 0 then Ret (kfifo_len f) else __kfifo_peek_n f recsize.
Definition __kfifo_skip_rec (f : kfifo) (recsize : Z) : res kfifo :=
  if negb (recsize =? 0) then
    let! l := __kfifo_peek_n f recsize in
    if u32 (l + recsize) <=? kfifo_len f then Ret (__kfifo_add_out f (u32 (l + recsize))) else Ret (kfifo_reset_out f)
  else Ret (kfifo_reset_out f).
Definition kfifo_avail_rec (f : kfifo) (recsize : Z) : Z :=
  let l := u32 (kfifo_size f - kfifo_len f) in if recsize <? l then u32 (l - recsize) else 0.

(** ** Copies and offsets *)

Lemma aget_app {A : Type} (l k : list A) (x : Z) : aget (l ++ k) x = if x <? length_of l then aget l x else aget k (x - length_of l).
Proof.
  unfold aget. destruct (Z.ltb_spec x 0) as [H|H]; [destruct (Z.ltb_spec x (length_of l)); [done|lia]|]. destruct (Z.ltb_spec x (length_of l)); [by rewrite lookup_app_l by lia|].
  rewrite lookup_app_r by lia. destruct (Z.ltb_spec (x - length_of l) 0); [lia|]. f_equal. lia.
Qed.
Lemma aget_take {A : Type} (n x : Z) (l : list A) : aget (take (Z.to_nat n) l) x = if x <? n then aget l x else None.
Proof.
  unfold aget. destruct (Z.ltb_spec x 0), (Z.ltb_spec x n); try done; [rewrite lookup_take_lt by lia; done|by rewrite lookup_take_ge by lia].
Qed.
Lemma aget_drop {A : Type} (n x : Z) (l : list A) : 0 <= n -> 0 <= x -> aget (drop (Z.to_nat n) l) x = aget l (n + x).
Proof. intros Hn Hx. unfold aget. destruct (Z.ltb_spec x 0), (Z.ltb_spec (n + x) 0); try lia. rewrite lookup_drop. f_equal. lia. Qed.
Lemma aget_out {A : Type} (l : list A) (x : Z) : ~ 0 <= x < length_of l -> aget l x = None.
Proof. intros H. unfold aget. destruct (Z.ltb_spec x 0); [done|]. apply lookup_ge_None_2. lia. Qed.
Lemma copy_spec (dst src : list Z) (doff soff n : Z) : 0 <= doff -> doff + n <= length_of dst -> 0 <= soff -> soff + n <= length_of src -> 0 <= n ->
  exists d, copy dst doff src soff n = Ret d /\ length d = length dst /\ forall x, aget d x = if (doff <=? x) && (x <? doff + n) then aget src (x - doff + soff) else aget dst x.
Proof.
  intros H1 H2 H3 H4 H5. unfold copy. rewrite !(proj2 (Z.leb_le _ _)) by lia. cbn [andb]. eexists. split; [reflexivity|].
  set (s := take (Z.to_nat n) (drop (Z.to_nat soff) src)). assert (length_of s = n) as Hs by (unfold s; rewrite length_take, length_drop; lia).
  assert (length_of (take (Z.to_nat doff) dst) = doff) as Hd by (rewrite length_take; lia). split; [rewrite !length_app, length_drop; lia|]. intros x.
  destruct (Z.lt_ge_cases x 0) as [Hx|Hx]; [rewrite !(aget_out _ x) by lia; by destruct (Z.leb_spec doff x); [lia|]|]. rewrite !aget_app, Hd, Hs.
  destruct (Z.ltb_spec x doff) as [Hl|Hl]; [destruct (Z.leb_spec doff x); [lia|]; cbn [andb]; rewrite aget_take; by destruct (Z.ltb_spec x doff); [|lia]|].
  rewrite (proj2 (Z.leb_le _ _)) by lia. cbn [andb]. destruct (Z.ltb_spec (x - doff) n) as [Hn|Hn]; destruct (Z.ltb_spec x (doff + n)); try lia.
  - unfold s. rewrite aget_take. destruct (Z.ltb_spec (x - doff) n); [|lia]. rewrite aget_drop by lia. f_equal. lia.
  - rewrite aget_drop by lia. f_equal. lia.
Qed.
Lemma wrap_mod (k z : Z) : 0 <= k <= 32 -> u32 z mod 2 ^ k = z mod 2 ^ k.
Proof.
  intros Hk. destruct (wrap_eqm 32 z ltac:(lia)) as [j ->]. replace (2 ^ 32) with (2 ^ (32 - k) * 2 ^ k) by (rewrite <- Z.pow_add_r by lia; f_equal; lia).
  rewrite Z.mul_assoc. apply Z.mod_add. apply Z.pow_nonzero; lia.
Qed.

(** A fifo whose buffer is [b]. *)
Record ready (f : kfifo) (b : list Z) (k : Z) : Prop := Ready {
  y_buffer : buffer f = Some b;
  y_pow : 0 <= k <= 31;
  y_size : size f = 2 ^ k;
  y_length : length_of b = 2 ^ k }.
Lemma size_pos (k : Z) : 0 <= k <= 31 -> 1 <= 2 ^ k <= 2 ^ 31.
Proof. intros H. split; [|apply Z.pow_le_mono_r; lia]. change 1 with (2 ^ 0). apply Z.pow_le_mono_r; lia. Qed.
Lemma off_spec (f : kfifo) (b : list Z) (k x : Z) : ready f b k -> __kfifo_off f (u32 x) = x mod 2 ^ k.
Proof.
  intros [_ Hk Hs _]. pose proof (size_pos k Hk). unfold __kfifo_off. rewrite Hs, (wrap_id 32 (2 ^ k - 1)) by (unfold in_u; lia).
  replace (2 ^ k - 1) with (Z.ones k) by (rewrite Z.ones_equiv; lia). rewrite Z.land_ones by lia. apply wrap_mod. lia.
Qed.
(** The place of [x] in a ring of [s] bytes, seen from [o]. *)
Lemma ring_place (s o x : Z) : 0 <= x < s -> 0 <= o < s -> (x - o) mod s = if o <=? x then x - o else x - o + s.
Proof.
  intros Hx Ho. destruct (Z.leb_spec o x); [apply Z.mod_small; lia|]. symmetry. apply (Z.mod_unique_pos _ _ (-1)); lia.
Qed.
Lemma in_data_spec (f : kfifo) (b from : list Z) (k n off : Z) : ready f b k -> 0 <= n <= 2 ^ k -> n <= length_of from ->
  exists b', __kfifo_in_data f from n off = Ret (set_buffer b' f) /\ length b' = length b /\
    forall x, 0 <= x < 2 ^ k -> aget b' x = if (x - (in_ f + off)) mod 2 ^ k <? n then aget from ((x - (in_ f + off)) mod 2 ^ k) else aget b x.
Proof.
  intros R Hn Hf. pose proof R as [Rb Rk Rs Rl]. pose proof (size_pos k Rk). unfold __kfifo_in_data. rewrite (off_spec f b k _ R), Rs, Rb. set (o := (in_ f + off) mod 2 ^ k).
  assert (0 <= o < 2 ^ k) as Ho by (apply Z.mod_pos_bound; lia). rewrite (wrap_id 32 (2 ^ k - o)) by (unfold in_u; lia). set (l := Z.min n (2 ^ k - o)). rewrite (wrap_id 32 (n - l)) by (unfold in_u; lia). cbn [deref res_bind].
  destruct (copy_spec b from o 0 l) as (b1 & -> & L1 & H1); [lia..|]. cbn [res_bind]. destruct (copy_spec b1 from 0 l (n - l)) as (b2 & -> & L2 & H2); [lia..|]. cbn [res_bind].
  exists b2. split; [done|]. split; [congruence|]. intros x Hx. assert ((x - (in_ f + off)) mod 2 ^ k = if o <=? x then x - o else x - o + 2 ^ k) as ->.
  { rewrite <- (ring_place (2 ^ k) o x Hx Ho). unfold o. by rewrite Zminus_mod_idemp_r. }
  rewrite H2, H1. destruct (Z.leb_spec o x), (Z.leb_spec 0 x); try lia; cbn [andb].
  - destruct (Z.ltb_spec x (0 + (n - l))); [lia|]. destruct (Z.ltb_spec x (o + l)), (Z.ltb_spec (x - o) n); try lia; [f_equal; lia|done].
  - destruct (Z.ltb_spec x (0 + (n - l))), (Z.ltb_spec (x - o + 2 ^ k) n); try lia; [f_equal; lia|done].
Qed.
Lemma out_data_spec (f : kfifo) (b to : list Z) (k n off : Z) : ready f b k -> 0 <= n <= 2 ^ k -> n <= length_of to ->
  exists to', __kfifo_out_data f to n off = Ret to' /\ length to' = length to /\
    forall x, 0 <= x -> aget to' x = if x <? n then aget b ((out f + off + x) mod 2 ^ k) else aget to x.
Proof.
  intros R Hn Hf. pose proof R as [Rb Rk Rs Rl]. pose proof (size_pos k Rk). unfold __kfifo_out_data. rewrite (off_spec f b k _ R), Rs, Rb. set (o := (out f + off) mod 2 ^ k).
  assert (0 <= o < 2 ^ k) as Ho by (apply Z.mod_pos_bound; lia). rewrite (wrap_id 32 (2 ^ k - o)) by (unfold in_u; lia). set (l := Z.min n (2 ^ k - o)). rewrite (wrap_id 32 (n - l)) by (unfold in_u; lia). cbn [deref res_bind].
  destruct (copy_spec to b 0 o l) as (t1 & -> & L1 & H1); [lia..|]. cbn [res_bind]. destruct (copy_spec t1 b l 0 (n - l)) as (t2 & -> & L2 & H2); [lia..|].
  exists t2. split; [done|]. split; [congruence|]. intros x Hx. rewrite H2, H1. destruct (Z.leb_spec 0 x); [|lia]. cbn [andb].
  assert (x < 2 ^ k -> (out f + off + x) mod 2 ^ k = if o + x <? 2 ^ k then o + x else o + x - 2 ^ k) as E.
  { intros Hlt. rewrite <- Zplus_mod_idemp_l. fold o. destruct (Z.ltb_spec (o + x) (2 ^ k)); [apply Z.mod_small; lia|]. symmetry. apply (Z.mod_unique_pos _ _ 1); lia. }
  destruct (Z.ltb_spec x n) as [Hxn|Hxn].
  - rewrite E by lia. destruct (Z.leb_spec l x); cbn [andb]; [destruct (Z.ltb_spec x (l + (n - l))); [|lia]|]; destruct (Z.ltb_spec (o + x) (2 ^ k)); try lia; [f_equal; lia|].
    destruct (Z.ltb_spec x (0 + l)); [f_equal; lia|lia].
  - destruct (Z.leb_spec l x), (Z.ltb_spec x (l + (n - l))), (Z.ltb_spec x (0 + l)); try lia; done.
Qed.

(** ** The queue in the buffer *)

(** The byte at position [i] from the oldest one on. *)
Definition cont (f : kfifo) (b : list Z) (k i : Z) : option Z := aget b ((out f + i) mod 2 ^ k).
Record holds (f : kfifo) (b : list Z) (k : Z) (q : list Z) : Prop := Holds {
  h_ready : ready f b k;
  h_in : in_u 32 (in_ f);
  h_out : in_u 32 (out f);
  h_len : kfifo_len f = length_of q;
  h_fits : length_of q <= 2 ^ k;
  h_cont : forall i, 0 <= i < length_of q -> cont f b k i = aget q i }.

Lemma holds_in_mod (f : kfifo) (b q : list Z) (k i off : Z) : holds f b k q -> ((out f + i) mod 2 ^ k - (in_ f + off)) mod 2 ^ k = (i - length_of q - off) mod 2 ^ k.
Proof.
  intros [[_ Hk _ _] _ _ Hl _ _]. pose proof (size_pos k Hk). rewrite Zminus_mod_idemp_l. pose proof (wrap_mod k (in_ f - out f) ltac:(lia)) as E. unfold kfifo_len in Hl. rewrite Hl in E.
  replace (out f + i - (in_ f + off)) with (i - off - (in_ f - out f)) by lia. rewrite <- Zminus_mod_idemp_r, <- E, Zminus_mod_idemp_r. f_equal. lia.
Qed.
Lemma holds_avail (f : kfifo) (b q : list Z) (k : Z) : holds f b k q -> kfifo_avail f = 2 ^ k - length_of q.
Proof. intros [[_ Hk Hs _] _ _ Hl Hf _]. pose proof (size_pos k Hk). unfold kfifo_avail, kfifo_size. rewrite Hl, Hs. apply wrap_id. unfold in_u. lia. Qed.
Lemma in_data_cont (f : kfifo) (b q from : list Z) (k n off : Z) : holds f b k q -> 0 <= off -> 0 <= n -> length_of q + off + n <= 2 ^ k -> n <= length_of from ->
  exists b', __kfifo_in_data f from n off = Ret (set_buffer b' f) /\ length b' = length b /\
    forall i, 0 <= i < 2 ^ k -> cont f b' k i = if (length_of q + off <=? i) && (i <? length_of q + off + n) then aget from (i - length_of q - off) else cont f b k i.
Proof.
  intros H Ho Hn Hs Hf. pose proof (size_pos k (y_pow _ _ _ (h_ready _ _ _ _ H))). destruct (in_data_spec f b from k n off (h_ready _ _ _ _ H)) as (b' & E & L & Hx); [lia|done|].
  exists b'. split; [done|]. split; [done|]. intros i Hi. unfold cont. rewrite Hx by (apply Z.mod_pos_bound; lia). rewrite (holds_in_mod f b q k i off H).
  assert ((i - length_of q - off) mod 2 ^ k = if length_of q + off <=? i then i - length_of q - off else i - length_of q - off + 2 ^ k) as ->.
  { destruct (Z.leb_spec (length_of q + off) i); [apply Z.mod_small; lia|]. symmetry. apply (Z.mod_unique_pos _ _ (-1)); lia. }
  destruct (Z.leb_spec (length_of q + off) i); cbn [andb].
  - destruct (Z.ltb_spec (i - length_of q - off) n), (Z.ltb_spec i (length_of q + off + n)); try lia; done.
  - destruct (Z.ltb_spec (i - length_of q - off + 2 ^ k) n); [lia|done].
Qed.
Lemma put_byte_cont (f : kfifo) (b q : list Z) (k off v : Z) : holds f b k q -> 0 <= off -> length_of q + off < 2 ^ k ->
  exists b', put_byte f off v = Ret (set_buffer b' f) /\ length b' = length b /\ forall i, 0 <= i < 2 ^ k -> cont f b' k i = if i =? length_of q + off then Some v else cont f b k i.
Proof.
  intros H Ho Hs. pose proof (h_ready _ _ _ _ H) as R. pose proof R as [Rb Rk Rs Rl]. pose proof (size_pos k Rk). unfold put_byte. rewrite Rb. cbn [deref res_bind]. rewrite (off_spec f b k _ R).
  set (o := (in_ f + off) mod 2 ^ k). assert (0 <= o < 2 ^ k) as Hb by (apply Z.mod_pos_bound; lia). destruct (aget_is_Some b o ltac:(lia)) as [y Ey]. rewrite Ey. cbn [deref res_bind].
  exists (aset b o v). split; [done|]. split; [apply length_aset|]. intros i Hi. unfold cont. pose proof (holds_in_mod f b q k i off H) as Em. rewrite <- Zminus_mod_idemp_r in Em. fold o in Em.
  set (x := (out f + i) mod 2 ^ k) in *. assert (0 <= x < 2 ^ k) as Hx by (apply Z.mod_pos_bound; lia). rewrite (ring_place (2 ^ k) o x Hx Hb) in Em.
  assert ((i - length_of q - off) mod 2 ^ k = if length_of q + off <=? i then i - length_of q - off else i - length_of q - off + 2 ^ k) as E2.
  { destruct (Z.leb_spec (length_of q + off) i); [apply Z.mod_small; lia|]. symmetry. apply (Z.mod_unique_pos _ _ (-1)); lia. }
  rewrite E2 in Em. destruct (Z.eqb_spec i (length_of q + off)) as [->|N].
  - assert (x = o) as -> by (destruct (Z.leb_spec o x), (Z.leb_spec (length_of q + off) (length_of q + off)); lia). by eapply aget_aset_eq.
  - apply aget_aset_ne; [lia|]. intros ->. destruct (Z.leb_spec x x), (Z.leb_spec (length_of q + off) i); lia.
Qed.
Lemma get_byte_cont (f : kfifo) (b q : list Z) (k off v : Z) : holds f b k q -> aget q off = Some v -> get_byte f off = Ret v.
Proof.
  intros H Hv. pose proof (h_ready _ _ _ _ H) as R. unfold get_byte. rewrite (y_buffer _ _ _ R). cbn [deref res_bind]. rewrite (off_spec f b k _ R).
  pose proof (h_cont _ _ _ _ H off (aget_Some _ _ _ Hv)) as E. unfold cont in E. by rewrite E, Hv.
Qed.
(** A byte can be read from anywhere in the buffer. *)
Lemma get_byte_any (f : kfifo) (b : list Z) (k off : Z) : ready f b k -> exists v, get_byte f off = Ret v.
Proof.
  intros R. pose proof R as [Rb Rk Rs Rl]. pose proof (size_pos k Rk). unfold get_byte. rewrite Rb. cbn [deref res_bind]. rewrite (off_spec f b k _ R).
  destruct (aget_is_Some b ((out f + off) mod 2 ^ k)) as [v ->]; [rewrite Rl; apply Z.mod_pos_bound; lia|]. by exists v.
Qed.
(** The buffer was filled behind the queue: the index goes on. *)
Lemma holds_add_in (f : kfifo) (b b' q e : list Z) (k : Z) : holds f b k q -> length b' = length b -> length_of q + length_of e <= 2 ^ k ->
  (forall i, 0 <= i < length_of q + length_of e -> cont f b' k i = aget (q ++ e) i) -> holds (__kfifo_add_in (set_buffer b' f) (length_of e)) b' k (q ++ e).
Proof.
  intros [[Rb Rk Rs Rl] Hi Ho Hl Hf Hc] Hb He Hx. pose proof (size_pos k Rk). split; cbn [in_ out __kfifo_add_in set_buffer].
  - split; [done..|]. by rewrite Hb.
  - apply wrap_range. lia.
  - done.
  - unfold kfifo_len in *. cbn [in_ out __kfifo_add_in set_buffer]. rewrite length_app, Nat2Z.inj_add, <- Hl. unfold wrap at 1. unfold wrap at 1. rewrite Zminus_mod_idemp_l.
    replace (in_ f + length_of e - out f) with (in_ f - out f + length_of e) by lia. rewrite <- Zplus_mod_idemp_l. change ((in_ f - out f) mod 2 ^ 32) with (u32 (in_ f - out f)). rewrite Hl. apply Z.mod_small. lia.
  - rewrite length_app. lia.
  - intros i Hi'. rewrite length_app in Hi'. apply Hx. lia.
Qed.
Lemma holds_add_out (f : kfifo) (b q : list Z) (k n : Z) : holds f b k q -> 0 <= n <= length_of q -> holds (__kfifo_add_out f n) b k (drop (Z.to_nat n) q).
Proof.
  intros [[Rb Rk Rs Rl] Hi Ho Hl Hf Hc] Hn. pose proof (size_pos k Rk). split; cbn [in_ out __kfifo_add_out].
  - by split.
  - done.
  - apply wrap_range. lia.
  - unfold kfifo_len in *. cbn [in_ out __kfifo_add_out]. unfold wrap at 1. unfold wrap at 1. rewrite Zminus_mod_idemp_r. replace (in_ f - (out f + n)) with (in_ f - out f - n) by lia.
    rewrite <- Zminus_mod_idemp_l. change ((in_ f - out f) mod 2 ^ 32) with (u32 (in_ f - out f)). rewrite Hl, length_drop. rewrite Z.mod_small; lia.
  - rewrite length_drop. lia.
  - intros i Hi'. rewrite length_drop in Hi'. rewrite aget_drop by lia. rewrite <- Hc by lia. unfold cont. cbn [out __kfifo_add_out]. f_equal.
    rewrite <- (Zplus_mod_idemp_l (u32 _)), wrap_mod, Zplus_mod_idemp_l by lia. f_equal. lia.
Qed.

(** ** Operations on bytes *)

Lemma aget_app_take (q from : list Z) (j i : Z) : 0 <= j <= length_of from -> 0 <= i < length_of q + j ->
  aget (q ++ take (Z.to_nat j) from) i = if i <? length_of q then aget q i else aget from (i - length_of q).
Proof.
  intros Hj Hi. rewrite aget_app. destruct (Z.ltb_spec i (length_of q)); [done|]. rewrite aget_take. by destruct (Z.ltb_spec (i - length_of q) j); [|lia].
Qed.
(** The two ways into the buffer, with [j] bytes that fit. *)
Lemma in_bytes (f : kfifo) (b q from : list Z) (k j : Z) : holds f b k q -> 0 <= j <= 2 ^ k - length_of q -> j <= length_of from ->
  exists f' b', __kfifo_in_data f from j 0 = Ret f' /\ holds (__kfifo_add_in f' j) b' k (q ++ take (Z.to_nat j) from) /\ size f' = size f.
Proof.
  intros H Hj Hf. pose proof (h_fits _ _ _ _ H). destruct (in_data_cont f b q from k j 0 H) as (b' & E & L & Hc); [lia..|].
  assert (length_of (take (Z.to_nat j) from) = j) as Ht by (rewrite length_take; lia). exists (set_buffer b' f), b'. split; [done|]. split; [|done].
  rewrite <- Ht at 1. apply (holds_add_in f b); [done|done|lia|]. rewrite Ht. intros i Hi. rewrite aget_app_take by lia. rewrite Hc by lia. destruct (Z.leb_spec (length_of q + 0) i); cbn [andb].
  - destruct (Z.ltb_spec i (length_of q + 0 + j)), (Z.ltb_spec i (length_of q)); try lia. f_equal. lia.
  - destruct (Z.ltb_spec i (length_of q)); [|lia]. apply (h_cont _ _ _ _ H). lia.
Qed.
(** Bytes from position [off] on. *)
Lemma out_bytes (f : kfifo) (b q to : list Z) (k n off : Z) : holds f b k q -> 0 <= off -> 0 <= n -> off + n <= length_of q -> n <= length_of to ->
  __kfifo_out_data f to n off = Ret (take (Z.to_nat n) (drop (Z.to_nat off) q) ++ drop (Z.to_nat n) to).
Proof.
  intros H Ho Hn Hq Ht. pose proof (h_fits _ _ _ _ H). destruct (out_data_spec f b to k n off (h_ready _ _ _ _ H)) as (to' & E & L & Hx); [lia|done|]. rewrite E. f_equal. apply aget_ext. intros x.
  assert (length_of (take (Z.to_nat n) (drop (Z.to_nat off) q)) = n) as Hl by (rewrite length_take, length_drop; lia).
  destruct (Z.lt_ge_cases x 0); [by rewrite !(aget_out _ x) by lia|]. rewrite aget_app, Hl, Hx by done. destruct (Z.ltb_spec x n).
  - rewrite aget_take. destruct (Z.ltb_spec x n); [|lia]. rewrite aget_drop by lia. rewrite <- (h_cont _ _ _ _ H) by lia. unfold cont. do 2 f_equal. lia.
  - rewrite aget_drop by lia. f_equal. lia.
Qed.
Lemma from_user_data_eq (f : kfifo) (from : list Z) (n off : Z) : 0 <= n < 2 ^ 31 -> __kfifo_from_user_data f from n off = let! f' := __kfifo_in_data f from n off in Ret (0, n, f').
Proof.
  intros Hn. unfold __kfifo_from_user_data, __kfifo_in_data. set (o := __kfifo_off _ _). pose proof (wrap_range 32 (size f - o) ltac:(lia)) as Hr. unfold in_u in Hr. set (l := Z.min n (u32 (size f - o))).
  assert (0 <= l <= n) by lia. destruct (buffer f) as [b0|]; [|done]. cbn [deref res_bind]. unfold copy_from_user.
  assert (forall y, 0 <= y <= n -> u64 (s32 y) = y) as E by (intros y Hy; rewrite (swrap_id 32), wrap_id by (lia || unfold in_s, in_u; lia); done).
  rewrite !E by (rewrite ?wrap_id by (unfold in_u; lia); lia). destruct (copy b0 o from 0 l) as [b1| | |]; [|done..]. cbn [res_bind Z.eqb negb]. rewrite (wrap_id 32 (n - l)) by (unfold in_u; lia).
  destruct (copy b1 0 from l (n - l)) as [b2| | |]; [|done..]. cbn [res_bind Z.eqb negb]. rewrite wrap_id by (unfold in_u; lia). do 3 f_equal. lia.
Qed.
Lemma to_user_data_eq (f : kfifo) (to : list Z) (n off : Z) : 0 <= n < 2 ^ 31 -> __kfifo_to_user_data f to n off = let! to' := __kfifo_out_data f to n off in Ret (0, n, to').
Proof.
  intros Hn. unfold __kfifo_to_user_data, __kfifo_out_data. set (o := __kfifo_off _ _). pose proof (wrap_range 32 (size f - o) ltac:(lia)) as Hr. unfold in_u in Hr. set (l := Z.min n (u32 (size f - o))).
  assert (0 <= l <= n) by lia. destruct (buffer f) as [b0|]; [|done]. cbn [deref res_bind]. unfold copy_to_user.
  assert (forall y, 0 <= y <= n -> u64 (s32 y) = y) as E by (intros y Hy; rewrite (swrap_id 32), wrap_id by (lia || unfold in_s, in_u; lia); done).
  rewrite !E by (rewrite ?wrap_id by (unfold in_u; lia); lia). destruct (copy to 0 b0 o l) as [t1| | |]; [|done..]. cbn [res_bind Z.eqb negb]. rewrite (wrap_id 32 (n - l)) by (unfold in_u; lia).
  destruct (copy t1 l b0 0 (n - l)) as [t2| | |]; [|done..]. cbn [res_bind Z.eqb negb]. rewrite wrap_id by (unfold in_u; lia). do 3 f_equal. lia.
Qed.

(** *** A queue of bytes *)

Inductive fop :=
  | In (from : list Z) (n : Z)
  | Out (to : list Z) (n : Z)
  | From_user (from : list Z) (n : Z)
  | To_user (to : list Z) (n : Z)
  | Skip (n : Z)
  | Reset
  | Reset_out.
(** Buffers of callers are as long as they say. *)
Definition fop_ok (a : fop) : Prop :=
  match a with
  | In l n | Out l n | From_user l n | To_user l n => 0 <= n <= length_of l
  | Skip n => 0 <= n
  | Reset | Reset_out => True
  end.
(** The number of bytes or the error, the buffer of the caller, and the fifo. *)
Definition exec_fop (f : kfifo) (a : fop) : res (Z * list Z * kfifo) :=
  match a with
  | In from n => let! (r, f) := kfifo_in f from n in Ret (r, from, f)
  | Out to n => kfifo_out f to n
  | From_user from n => let! (r, f) := kfifo_from_user f from n in let '(ret, total) := r in Ret (if ret =? 0 then total else ret, from, f)
  | To_user to n => let! (r, f) := kfifo_to_user f to n in let '(ret, total, to) := r in Ret (if ret =? 0 then total else ret, to, f)
  | Skip n => Ret (0, [], kfifo_skip f n)
  | Reset => Ret (0, [], kfifo_reset f)
  | Reset_out => Ret (0, [], kfifo_reset_out f)
  end.
Fixpoint exec_fops (f : kfifo) (l : list fop) : res (list (Z * list Z) * kfifo) :=
  match l with
  | [] => Ret ([], f)
  | a :: l => let! (r, f) := exec_fop f a in let! (rs, f) := exec_fops f l in Ret (r :: rs, f)
  end.
(** A queue of at most [s] bytes. *)
Definition queue_op (s : Z) (q : list Z) (a : fop) : Z * list Z * list Z :=
  match a with
  | In from n | From_user from n => let j := Z.min (s - length_of q) n in (j, from, q ++ take (Z.to_nat j) from)
  | Out to n | To_user to n => let j := Z.min (length_of q) n in (j, take (Z.to_nat j) q ++ drop (Z.to_nat j) to, drop (Z.to_nat j) q)
  | Skip n => (0, [], drop (Z.to_nat n) q)
  | Reset | Reset_out => (0, [], [])
  end.
Fixpoint queue_ops (s : Z) (q : list Z) (l : list fop) : list (Z * list Z) * list Z :=
  match l with
  | [] => ([], q)
  | a :: l => let '(r, q) := queue_op s q a in let '(rs, q) := queue_ops s q l in (r :: rs, q)
  end.

Lemma holds_reset_out (f : kfifo) (b q : list Z) (k : Z) : holds f b k q -> holds (kfifo_reset_out f) b k [].
Proof.
  intros [[Rb Rk Rs Rl] Hi Ho Hl Hf Hc]. pose proof (size_pos k Rk). split; cbn [in_ out kfifo_reset_out]; [by split|done|done| |cbn; lia|cbn; lia]. unfold kfifo_len. cbn. by rewrite Z.sub_diag.
Qed.
Lemma holds_reset (f : kfifo) (b q : list Z) (k : Z) : holds f b k q -> holds (kfifo_reset f) b k [].
Proof.
  intros [[Rb Rk Rs Rl] Hi Ho Hl Hf Hc]. pose proof (size_pos k Rk). split; cbn [in_ out kfifo_reset]; [by split|split; lia|split; lia|done|cbn; lia|cbn; lia].
Qed.
Lemma exec_fop_spec (f : kfifo) (b q : list Z) (k : Z) (a : fop) : holds f b k q -> k <= 30 -> fop_ok a ->
  exists f' b', exec_fop f a = Ret (fst (queue_op (2 ^ k) q a), f') /\ holds f' b' k (snd (queue_op (2 ^ k) q a)).
Proof.
  intros H Hk Ha. pose proof (h_fits _ _ _ _ H) as Hf. pose proof (h_ready _ _ _ _ H) as [_ Rk _ _]. pose proof (size_pos k Rk).
  assert (2 ^ k < 2 ^ 31) as Hlt by (apply Z.pow_lt_mono_r; lia). pose proof (holds_avail f b q k H) as Hav. pose proof (h_len _ _ _ _ H) as Hlen.
  destruct a as [from n|to n|from n|to n|n| |]; cbn [fop_ok] in Ha; cbn [exec_fop queue_op fst snd].
  - unfold kfifo_in. rewrite Hav. destruct (in_bytes f b q from k (Z.min (2 ^ k - length_of q) n) H) as (f' & b' & -> & H' & _); [lia|lia|]. cbn [res_bind]. eexists _, b'. by split.
  - unfold kfifo_out. rewrite Hlen. rewrite (out_bytes f b q to k) by (done || lia). cbn [res_bind]. eexists _, b. split; [done|]. apply holds_add_out; [done|lia].
  - unfold kfifo_from_user. rewrite Hav. rewrite from_user_data_eq by (done || lia). destruct (in_bytes f b q from k (Z.min (2 ^ k - length_of q) n) H) as (f' & b' & -> & H' & _); [lia|lia|].
    cbn [res_bind Z.eqb negb]. eexists _, b'. by split.
  - unfold kfifo_to_user. rewrite Hlen. rewrite to_user_data_eq by lia. rewrite (out_bytes f b q to k) by (done || lia). cbn [res_bind Z.eqb]. eexists _, b. split; [done|]. apply holds_add_out; [done|lia].
  - unfold kfifo_skip. rewrite Hlen. destruct (Z.ltb_spec n (length_of q)) as [Hl|Hl]; eexists _, b; (split; [done|]); [by apply holds_add_out; [|lia]|].
    rewrite drop_ge by lia. by eapply holds_reset_out.
  - eexists _, b. split; [done|]. by eapply holds_reset.
  - eexists _, b. split; [done|]. by eapply holds_reset_out.
Qed.

Lemma power_spec (n : Z) : 1 <= n <= 2 ^ 31 -> is_power_of_2 n = true -> n = 2 ^ Z.log2_up n.
Proof.
  intros Hn. unfold is_power_of_2. destruct (Z.eqb_spec n 0); [lia|]. cbn [negb andb]. rewrite wrap_id by (unfold in_u; lia). intros E%Z.eqb_eq. pose proof (Z.log2_spec n ltac:(lia)) as [Hl Hu].
  destruct (Z.eq_dec n (2 ^ Z.log2 n)) as [D|D]; [rewrite D at 2; rewrite Z.log2_up_pow2 by apply Z.log2_nonneg; exact D|]. exfalso.
  assert (Z.log2 (n - 1) = Z.log2 n) as E1 by (apply Z.log2_unique; [apply Z.log2_nonneg|lia]). assert (2 ^ Z.log2 n > 0) by (apply Z.lt_gt, Z.pow_pos_nonneg; [lia|apply Z.log2_nonneg]).
  assert (Z.testbit (Z.land n (n - 1)) (Z.log2 n) = true) as B; [|rewrite E, Z.bits_0 in B; done].
  rewrite Z.land_spec, Z.bit_log2 by lia. rewrite <- E1. apply Z.bit_log2. lia.
Qed.
Lemma roundup_spec (n : Z) : 1 < n <= 2 ^ 31 -> roundup_pow_of_two n = Ret (2 ^ Z.log2_up n).
Proof.
  intros Hn. unfold roundup_pow_of_two. rewrite (wrap_id 64 (n - 1)) by (unfold in_u; lia). destruct (Z.eqb_spec (n - 1) 0); [lia|]. rewrite Z.log2_up_eqn by lia. fold (Z.succ (Z.log2 (n - 1))).
  replace (Z.pred n) with (n - 1) by lia. assert (Z.log2 (n - 1) < 31) as Hl by (apply Z.log2_lt_pow2; lia). pose proof (Z.log2_nonneg (n - 1)). unfold Z.succ.
  destruct (Z.ltb_spec (Z.log2 (n - 1) + 1) 64); [|lia]. rewrite Z.shiftl_1_l, wrap_id; [done|]. split; [apply Z.pow_nonneg; lia|apply Z.pow_lt_mono_r; lia].
Qed.
(** The size is rounded up to a power of two. *)
Lemma kfifo_alloc_eq (kmalloc : Z -> option (list Z)) (n : Z) : 1 <= n <= 2 ^ 31 ->
  kfifo_alloc kmalloc n = Ret (match kmalloc (2 ^ Z.log2_up n) with Some b => (0, Kfifo (Some b) (2 ^ Z.log2_up n) 0 0) | None => (- ENOMEM, Kfifo None 0 0 0) end).
Proof.
  intros Hn. unfold kfifo_alloc. destruct (is_power_of_2 n) eqn:P; [cbn [res_bind]; rewrite <- (power_spec n Hn P); by destruct (kmalloc n)|].
  destruct (Z.eq_dec n 1) as [->|N]; [done|]. rewrite roundup_spec by lia. unfold BUG_ON. destruct (Z.ltb_spec 0x80000000 n); [lia|]. cbn [res_bind]. rewrite wrap_id; [by destruct (kmalloc _)|].
  split; [apply Z.pow_nonneg; lia|]. assert (Z.log2_up n <= 31) by (apply Z.log2_up_le_pow2; lia). apply Z.pow_lt_mono_r; lia.
Qed.
Lemma kfifo_init_eq (b : list Z) (k : Z) : 0 <= k <= 31 -> kfifo_init b (2 ^ k) = Ret (Kfifo (Some b) (2 ^ k) 0 0).
Proof.
  intros Hk. pose proof (size_pos k Hk). unfold kfifo_init, is_power_of_2. destruct (Z.eqb_spec (2 ^ k) 0); [lia|]. rewrite wrap_id by (unfold in_u; lia).
  replace (2 ^ k - 1) with (Z.ones k) by (rewrite Z.ones_equiv; lia). rewrite Z.land_ones by lia. by rewrite Z_mod_same_full.
Qed.
Lemma holds_fresh (b : list Z) (k : Z) : 0 <= k <= 31 -> length_of b = 2 ^ k -> holds (Kfifo (Some b) (2 ^ k) 0 0) b k [].
Proof. intros Hk Hb. pose proof (size_pos k Hk). split; [by split|split; cbn; lia|split; cbn; lia|done|cbn; lia|cbn; lia]. Qed.
Lemma exec_fops_spec (k : Z) (l : list fop) (f : kfifo) (b q : list Z) : holds f b k q -> k <= 30 -> Forall fop_ok l ->
  exists f' b', exec_fops f l = Ret (fst (queue_ops (2 ^ k) q l), f') /\ holds f' b' k (snd (queue_ops (2 ^ k) q l)).
Proof.
  intros H Hk Hl. revert f b q H. induction Hl as [|a l Ha Hl IH]; intros f b q H; [by exists f, b|]. cbn [exec_fops queue_ops].
  destruct (exec_fop_spec f b q k a H Hk Ha) as (f1 & b1 & -> & H1). destruct (queue_op (2 ^ k) q a) as [r q1]. cbn [fst snd res_bind] in *.
  destruct (IH f1 b1 q1 H1) as (f2 & b2 & -> & H2). destruct (queue_ops (2 ^ k) q1 l) as [rs q2]. cbn [fst snd res_bind] in *. by exists f2, b2.
Qed.
(** C39: from [kfifo_alloc] on, every sequence of byte operations on a fifo (in, out, the two for user memory, skip and
    the two resets), however often the indices wrap around their type and the ring its buffer, gives exactly the results
    and the bytes of a bounded first-in first-out queue whose capacity is the requested size rounded up to a power of two;
    no access leaves the buffer or the memory of the caller, and what the fifo says of its length, space, emptiness and
    fullness is what the queue says.  Where there is no memory the error is returned and no buffer is set. *)
Theorem kfifo_refines (kmalloc : Z -> option (list Z)) (n : Z) (l : list fop) :
  (forall m b, kmalloc m = Some b -> length_of b = m) -> 1 <= n <= 2 ^ 30 -> Forall fop_ok l ->
  let s := 2 ^ Z.log2_up n in let '(rs, q) := queue_ops s [] l in
  match kmalloc s with
  | None => kfifo_alloc kmalloc n = Ret (- ENOMEM, Kfifo None 0 0 0)
  | Some _ => exists f f', kfifo_alloc kmalloc n = Ret (0, f) /\ exec_fops f l = Ret (rs, f') /\ kfifo_len f' = length_of q /\ kfifo_avail f' = s - length_of q /\
      kfifo_is_empty f' = bool_decide (q = []) /\ kfifo_is_full f' = (length_of q =? s)
  end.
Proof.
  intros Hm Hn Hl s. assert (0 <= Z.log2_up n <= 30) as Hk by (split; [apply Z.log2_up_nonneg|apply Z.log2_up_le_pow2; lia]). rewrite kfifo_alloc_eq by lia. fold s.
  destruct (kmalloc s) as [b|] eqn:E; [|by destruct (queue_ops s [] l)]. destruct (exec_fops_spec (Z.log2_up n) l _ b [] (holds_fresh b (Z.log2_up n) ltac:(lia) (Hm _ _ E)) ltac:(lia) Hl) as (f' & b' & E' & H').
  fold s in E', H'. destruct (queue_ops s [] l) as [rs q]. cbn [fst snd] in *. eexists _, f'. split; [done|]. split; [done|]. split; [apply (h_len _ _ _ _ H')|]. split; [by apply (holds_avail _ _ _ _ H')|]. split.
  - unfold kfifo_is_empty. pose proof (h_len _ _ _ _ H') as Hlen. unfold kfifo_len in Hlen. pose proof (h_in _ _ _ _ H') as [? ?]. pose proof (h_out _ _ _ _ H') as [? ?].
    apply Bool.eq_iff_eq_true. rewrite Z.eqb_eq, bool_decide_eq_true. split; [intros Eq; rewrite Eq, Z.sub_diag in Hlen; cbn in Hlen; by destruct q|].
    intros ->. destruct (wrap_eqm 32 (in_ f' - out f') ltac:(lia)) as [j Ej]. cbn in Hlen. nia.
  - unfold kfifo_is_full. rewrite (h_len _ _ _ _ H'). unfold kfifo_size. by rewrite (y_size _ _ _ (h_ready _ _ _ _ H')).
Qed.

(** *** A queue of records *)

(** A length in [recsize] bytes. *)
Definition header (recsize n : Z) : list Z := if recsize =? 1 then [u8 n] else [u8 n; u8 (Z.shiftr n 8)].
Definition enc (recsize : Z) (r : list Z) : list Z := header recsize (length_of r) ++ r.
Definition bytes (b : list Z) : Prop := forall x v, aget b x = Some v -> in_u 8 v.
Record rholds (f : kfifo) (recsize k : Z) (b : list Z) (rs : list (list Z)) : Prop := RHolds {
  r_size : recsize = 1 \/ recsize = 2;
  r_holds : holds f b k (concat (map (enc recsize) rs));
  r_bytes : bytes b;
  r_lengths : Forall (fun r => length_of r < 256 ^ recsize) rs }.

Lemma length_header (recsize n : Z) : recsize = 1 \/ recsize = 2 -> length_of (header recsize n) = recsize.
Proof. by intros [->| ->]. Qed.
Lemma lor_shift8 (a b : Z) : in_u 8 a -> 0 <= b -> Z.lor a (Z.shiftl b 8) = a + 256 * b.
Proof.
  intros [Ha Hb] Hn. assert (Z.land a (Z.shiftl b 8) = 0) as E.
  { apply Z.bits_inj'. intros i Hi. rewrite Z.land_spec, Z.bits_0, Z.shiftl_spec by lia. destruct (Z.lt_ge_cases i 8); [rewrite (Z.testbit_neg_r b) by lia; apply andb_false_r|].
    assert (Z.log2 a < 8) by (destruct (Z.eq_dec a 0) as [->|]; [cbn; lia|apply Z.log2_lt_pow2; lia]). by rewrite (Z.bits_above_log2 a) by lia. }
  pose proof (Z.add_lor_land a (Z.shiftl b 8)) as E2. rewrite E in E2. rewrite Z.shiftl_mul_pow2 in * by lia. lia.
Qed.
Lemma length_low (n : Z) : 0 <= n < 256 -> u8 n = n.
Proof. intros Hn. apply wrap_id. unfold in_u. lia. Qed.
Lemma length_bytes (n : Z) : 0 <= n < 65536 -> Z.lor (u8 n) (Z.shiftl (u8 (Z.shiftr n 8)) 8) = n.
Proof.
  intros Hn. rewrite Z.shiftr_div_pow2 by lia. change (2 ^ 8) with 256. rewrite (wrap_id 8 (n / 256)) by (unfold in_u; change (2 ^ 8) with 256; split; [apply Z.div_pos; lia|apply Z.div_lt_upper_bound; lia]).
  rewrite lor_shift8 by (try apply wrap_range; try apply Z.div_pos; lia). unfold wrap. change (2 ^ 8) with 256. pose proof (Z.div_mod n 256). lia.
Qed.

(** [bytes] in terms of positions from the oldest byte on. *)
Lemma bytes_cont (f : kfifo) (b : list Z) (k : Z) : ready f b k -> bytes b <-> forall i v, 0 <= i < 2 ^ k -> cont f b k i = Some v -> in_u 8 v.
Proof.
  intros [_ Rk _ Rl]. pose proof (size_pos k Rk). unfold cont. split; intros Hy; [intros i v _; apply Hy|]. intros x v Hx. pose proof (aget_Some _ _ _ Hx) as Hb.
  apply (Hy ((x - out f) mod 2 ^ k)); [apply Z.mod_pos_bound; lia|]. rewrite Zplus_mod_idemp_r. replace (out f + (x - out f)) with x by lia. by rewrite Z.mod_small by lia.
Qed.
Lemma holds_behind (f : kfifo) (b b' q : list Z) (k : Z) : holds f b k q -> length b' = length b -> (forall i, 0 <= i < length_of q -> cont f b' k i = cont f b k i) ->
  holds (set_buffer b' f) b' k q.
Proof.
  intros [[Rb Rk Rs Rl] Hi Ho Hl Hf Hc] Hb He. split; [split; [done..|by rewrite Hb]|done..|]. intros i Hx. rewrite <- Hc by done. by apply He.
Qed.
(** The data, then the length in front of it. *)
Lemma poke_cont (f : kfifo) (b q : list Z) (k recsize n : Z) : holds f b k q -> recsize = 1 \/ recsize = 2 -> length_of q + recsize <= 2 ^ k ->
  exists b', __kfifo_poke_n f recsize n = Ret (set_buffer b' f) /\ length b' = length b /\
    forall i, 0 <= i < 2 ^ k -> cont f b' k i = if (length_of q <=? i) && (i <? length_of q + recsize) then aget (header recsize n) (i - length_of q) else cont f b k i.
Proof.
  intros H Hr Hs. unfold __kfifo_poke_n. destruct (put_byte_cont f b q k 0 (u8 n) H ltac:(lia) ltac:(lia)) as (b1 & -> & L1 & H1). cbn [res_bind]. destruct Hr as [->| ->]; cbn [negb].
  - change (negb (u32 (1 - 1) =? 0)) with false. cbn [header Z.eqb]. exists b1. split; [done|]. split; [done|]. intros i Hi. rewrite H1 by done.
    destruct (Z.eqb_spec i (length_of q + 0)), (Z.leb_spec (length_of q) i), (Z.ltb_spec i (length_of q + 1)); try lia; cbn [andb]; [|done..]. replace (i - length_of q) with 0 by lia. done.
  - change (negb (u32 (2 - 1) =? 0)) with true. cbn [header Z.eqb]. assert (holds (set_buffer b1 f) b1 k q) as Hb.
    { apply (holds_behind f b); [done|done|]. intros i Hi. rewrite H1 by lia. by destruct (Z.eqb_spec i (length_of q + 0)); [lia|]. }
    destruct (put_byte_cont _ b1 q k 1 (u8 (Z.shiftr n 8)) Hb ltac:(lia) ltac:(lia)) as (b2 & -> & L2 & H2). exists b2. split; [done|]. split; [congruence|]. intros i Hi.
    change (cont f b2 k i) with (cont (set_buffer b1 f) b2 k i). rewrite H2 by done. change (cont (set_buffer b1 f) b1 k i) with (cont f b1 k i). rewrite H1 by done.
    destruct (Z.eqb_spec i (length_of q + 1)), (Z.eqb_spec i (length_of q + 0)), (Z.leb_spec (length_of q) i), (Z.ltb_spec i (length_of q + 2)); try lia; cbn [andb]; [| |done..].
    + replace (i - length_of q) with 1 by lia. done.
    + replace (i - length_of q) with 0 by lia. done.
Qed.
Definition used (recsize : Z) (rs : list (list Z)) : list Z := concat (map (enc recsize) rs).
Lemma used_snoc (recsize : Z) (rs : list (list Z)) (r : list Z) : used recsize (rs ++ [r]) = used recsize rs ++ enc recsize r.
Proof. unfold used. rewrite map_app, concat_app. cbn. by rewrite app_nil_r. Qed.
Lemma rec_bound (recsize n : Z) : recsize = 1 \/ recsize = 2 -> n < 256 ^ recsize -> n < 65536.
Proof. intros [->| ->] H; cbn in H; lia. Qed.
Lemma length_enc (recsize : Z) (r : list Z) : recsize = 1 \/ recsize = 2 -> length_of (enc recsize r) = recsize + length_of r.
Proof. intros H. unfold enc. rewrite length_app, Nat2Z.inj_add, length_header by done. done. Qed.
(** A record that fits, with its length. *)
Lemma put_record (f : kfifo) (recsize k n : Z) (b from : list Z) (rs : list (list Z)) : rholds f recsize k b rs -> bytes from -> 0 <= n <= length_of from -> n < 256 ^ recsize ->
  length_of (used recsize rs) + recsize + n <= 2 ^ k ->
  exists b1 b2, __kfifo_in_data f from n recsize = Ret (set_buffer b1 f) /\ rholds (set_buffer b1 f) recsize k b1 rs /\ __kfifo_poke_n (set_buffer b1 f) recsize n = Ret (set_buffer b2 f) /\
    rholds (__kfifo_add_in (set_buffer b2 f) (n + recsize)) recsize k b2 (rs ++ [take (Z.to_nat n) from]).
Proof.
  intros [Hr H By Hl] Hf Hn Hb Hs. fold (used recsize rs) in H. destruct (in_data_cont f b _ from k n recsize H) as (b1 & E1 & L1 & H1); [lia..|].
  assert (holds (set_buffer b1 f) b1 k (used recsize rs)) as Hb1.
  { apply (holds_behind f b); [done|done|]. intros i Hi. rewrite H1 by lia. by destruct (Z.leb_spec (length_of (used recsize rs) + recsize) i); [lia|]. }
  destruct (poke_cont _ b1 _ k recsize n Hb1 Hr ltac:(lia)) as (b2 & E2 & L2 & H2). set (r := take (Z.to_nat n) from). assert (length_of r = n) as Er by (unfold r; rewrite length_take; lia).
  assert (bytes b1) as By1.
  { rewrite (bytes_cont _ b1 k (h_ready _ _ _ _ Hb1)). intros i v Hi. change (cont (set_buffer b1 f) b1 k i) with (cont f b1 k i). rewrite H1 by done. destruct (_ && _); [apply Hf|]. by apply (proj1 (bytes_cont f b k (h_ready _ _ _ _ H)) By). }
  exists b1, b2. split; [done|]. split; [done|]. split; [by rewrite E2|]. assert (holds (__kfifo_add_in (set_buffer b2 f) (n + recsize)) b2 k (used recsize rs ++ enc recsize r)) as Hb2.
  { replace (n + recsize) with (length_of (enc recsize r)) by (rewrite length_enc by done; lia). apply (holds_add_in f b); [done|congruence|rewrite length_enc by done; lia|]. rewrite length_enc, Er by done. intros i Hi.
    change (cont f b2 k i) with (cont (set_buffer b1 f) b2 k i). rewrite H2 by lia. change (cont (set_buffer b1 f) b1 k i) with (cont f b1 k i). rewrite H1 by lia. unfold enc. rewrite !aget_app, length_header, Er by done.
    destruct (Z.leb_spec (length_of (used recsize rs)) i), (Z.ltb_spec i (length_of (used recsize rs))); try lia; cbn [andb];
      [|destruct (Z.leb_spec (length_of (used recsize rs) + recsize) i); [lia|]; apply (h_cont _ _ _ _ H); lia].
    destruct (Z.ltb_spec i (length_of (used recsize rs) + recsize)), (Z.ltb_spec (i - length_of (used recsize rs)) recsize); try lia; [done|].
    destruct (Z.leb_spec (length_of (used recsize rs) + recsize) i), (Z.ltb_spec i (length_of (used recsize rs) + recsize + n)); try lia. cbn [andb]. unfold r. rewrite aget_take.
    destruct (Z.ltb_spec (i - length_of (used recsize rs) - recsize) n); [done|lia]. }
  split; [done| | |].
  - fold (used recsize (rs ++ [r])). by rewrite used_snoc.
  - rewrite (bytes_cont _ b2 k (h_ready _ _ _ _ Hb2)). intros i v Hi. change (cont (__kfifo_add_in _ _) b2 k i) with (cont (set_buffer b1 f) b2 k i). rewrite H2 by done. destruct (_ && _).
    + intros Hv. assert (v ∈ header recsize n) as Hin by (unfold aget in Hv; destruct (_ <? 0); [done|]; by eapply list_elem_of_lookup_2). unfold header in Hin. destruct (recsize =? 1); rewrite !elem_of_cons, elem_of_nil in Hin; destruct_or! Hin; try done; rewrite Hin; apply wrap_range; lia.
    + apply (proj1 (bytes_cont (set_buffer b1 f) b1 k (h_ready _ _ _ _ Hb1)) By1). done.
  - apply Forall_app. split; [done|]. constructor; [by rewrite Er|constructor].
Qed.

Inductive rop :=
  | In_rec (from : list Z) (n : Z)
  | From_user_rec (from : list Z) (n : Z)
  | Out_rec (to : list Z) (n : Z)
  | To_user_rec (to : list Z) (n : Z)
  | Peek_rec
  | Skip_rec.
(** A length has to fit into its field. *)
Definition rop_ok (recsize : Z) (a : rop) : Prop :=
  match a with
  | In_rec from n | From_user_rec from n => 0 <= n <= length_of from /\ n < 256 ^ recsize /\ bytes from
  | Out_rec to n | To_user_rec to n => 0 <= n <= length_of to
  | Peek_rec | Skip_rec => True
  end.
(** The value returned, [*total], the memory of the caller, and the fifo. *)
Definition exec_rop (f : kfifo) (recsize : Z) (a : rop) : res (Z * Z * list Z * kfifo) :=
  match a with
  | In_rec from n => let! (r, f) := __kfifo_in_rec f from n recsize in Ret (r, 0, from, f)
  | From_user_rec from n => let! (r, f) := __kfifo_from_user_rec f from n recsize in Ret (r, 0, from, f)
  | Out_rec to n => __kfifo_out_rec f to n recsize
  | To_user_rec to n => __kfifo_to_user_rec f to n recsize
  | Peek_rec => let! l := kfifo_peek_rec f recsize in Ret (l, 0, [], f)
  | Skip_rec => let! f := __kfifo_skip_rec f recsize in Ret (0, 0, [], f)
  end.
Fixpoint exec_rops (f : kfifo) (recsize : Z) (l : list rop) : res (list (Z * Z * list Z) * kfifo) :=
  match l with
  | [] => Ret ([], f)
  | a :: l => let! (r, f) := exec_rop f recsize a in let! (rs, f) := exec_rops f recsize l in Ret (r :: rs, f)
  end.
(** A queue of records of at most [s] bytes, lengths included.  From an empty queue nothing is taken; what is then
    reported as the length is whatever the buffer holds.  A record from user memory is queued only when it is empty. *)
Inductive rec_step (s recsize : Z) : list (list Z) -> rop -> Z * Z * list Z -> list (list Z) -> Prop :=
  | In_fits rs from n : length_of (used recsize rs) + recsize + n <= s -> rec_step s recsize rs (In_rec from n) (0, 0, from) (rs ++ [take (Z.to_nat n) from])
  | In_full rs from n : s < length_of (used recsize rs) + recsize + n -> rec_step s recsize rs (In_rec from n) (n + 1, 0, from) rs
  | From_user_lost rs from n : length_of (used recsize rs) + recsize + n <= s -> 0 < n -> rec_step s recsize rs (From_user_rec from n) (n, 0, from) rs
  | From_user_empty rs from : length_of (used recsize rs) + recsize <= s -> rec_step s recsize rs (From_user_rec from 0) (0, 0, from) (rs ++ [[]])
  | From_user_full rs from n : s < length_of (used recsize rs) + recsize + n -> rec_step s recsize rs (From_user_rec from n) (n + 1, 0, from) rs
  | Out_fits r rs to n : length_of r <= n -> rec_step s recsize (r :: rs) (Out_rec to n) (0, length_of r, r ++ drop (length r) to) rs
  | Out_small r rs to n : n < length_of r -> rec_step s recsize (r :: rs) (Out_rec to n) (length_of r, length_of r, to) (r :: rs)
  | Out_none l to n : rec_step s recsize [] (Out_rec to n) (l, l, to) []
  | To_user_fits r rs to n : length_of r <= n -> rec_step s recsize (r :: rs) (To_user_rec to n) (length_of r, length_of r, r ++ drop (length r) to) rs
  | To_user_small r rs to n : n < length_of r -> rec_step s recsize (r :: rs) (To_user_rec to n) (length_of r, length_of r, to) (r :: rs)
  | To_user_none l to n : rec_step s recsize [] (To_user_rec to n) (Z.max n l, l, to) []
  | Peek_first r rs : rec_step s recsize (r :: rs) Peek_rec (length_of r, 0, []) (r :: rs)
  | Peek_none l : rec_step s recsize [] Peek_rec (l, 0, []) []
  | Skip_first r rs : rec_step s recsize (r :: rs) Skip_rec (0, 0, []) rs
  | Skip_none : rec_step s recsize [] Skip_rec (0, 0, []) [].
Inductive rec_steps (s recsize : Z) : list (list Z) -> list rop -> list (Z * Z * list Z) -> list (list Z) -> Prop :=
  | Steps_nil rs : rec_steps s recsize rs [] [] rs
  | Steps_cons rs a o rs1 l os rs2 : rec_step s recsize rs a o rs1 -> rec_steps s recsize rs1 l os rs2 -> rec_steps s recsize rs (a :: l) (o :: os) rs2.

Lemma peek_any (f : kfifo) (recsize k : Z) (b : list Z) (rs : list (list Z)) : rholds f recsize k b rs -> exists l, __kfifo_peek_n f recsize = Ret l /\ 0 <= l < 65536.
Proof.
  intros [Hr H By _]. pose proof (h_ready _ _ _ _ H) as R. assert (forall off, exists v, get_byte f off = Ret v /\ 0 <= v < 256) as G.
  { intros off. destruct (get_byte_any f b k off R) as [v E]. exists v. split; [done|]. unfold get_byte in E. rewrite (y_buffer _ _ _ R) in E. cbn [deref res_bind] in E. destruct (aget b _) eqn:Ea; [|done]. injection E as <-. exact (By _ _ Ea). }
  unfold __kfifo_peek_n. destruct (G 0) as (v0 & -> & H0), (G 1) as (v1 & E1 & H1). cbn [res_bind]. destruct Hr as [->| ->].
  - exists v0. split; [done|lia].
  - change (negb (u32 (2 - 1) =? 0)) with true. cbv iota. rewrite E1. cbn [res_bind]. eexists. split; [done|]. rewrite lor_shift8 by (unfold in_u; lia). lia.
Qed.
Lemma peek_first (f : kfifo) (recsize k : Z) (b r : list Z) (rs : list (list Z)) : rholds f recsize k b (r :: rs) -> __kfifo_peek_n f recsize = Ret (length_of r).
Proof.
  intros [Hr H _ Hl]. inversion Hl as [|? ? Hlr _]; subst. pose proof (rec_bound _ _ Hr Hlr). unfold __kfifo_peek_n. cbn [map concat enc] in H. unfold enc at 1, header in H. destruct Hr as [->| ->]; cbn [Z.eqb app] in H.
  - rewrite (get_byte_cont f b _ k 0 _ H eq_refl). cbn in Hlr |- *. by rewrite length_low by lia.
  - rewrite (get_byte_cont f b _ k 0 _ H eq_refl). cbn [res_bind]. change (negb (u32 (2 - 1) =? 0)) with true. cbv iota. rewrite (get_byte_cont f b _ k 1 _ H eq_refl). cbn [res_bind]. by rewrite length_bytes by lia.
Qed.
(** The first record goes. *)
Lemma drop_record (f : kfifo) (recsize k : Z) (b r : list Z) (rs : list (list Z)) : rholds f recsize k b (r :: rs) ->
  kfifo_len f = recsize + length_of r + length_of (used recsize rs) /\ u32 (length_of r + recsize) = length_of r + recsize /\ rholds (__kfifo_add_out f (length_of r + recsize)) recsize k b rs.
Proof.
  intros [Hr H By Hl]. inversion Hl as [|? ? Hlr Hls]; subst. pose proof (rec_bound _ _ Hr Hlr). cbn [map concat] in H. fold (used recsize rs) in H. pose proof (length_enc recsize r Hr) as Le.
  split; [rewrite (h_len _ _ _ _ H), length_app; lia|]. split; [apply wrap_id; unfold in_u; lia|]. split; [done| |done|done]. fold (used recsize rs).
  pose proof (holds_add_out f b _ k (length_of r + recsize) H) as G. rewrite drop_app_length' in G by lia. apply G. rewrite length_app. lia.
Qed.
Lemma out_record (f : kfifo) (recsize k : Z) (b r to : list Z) (rs : list (list Z)) : rholds f recsize k b (r :: rs) -> length_of r <= length_of to ->
  __kfifo_out_data f to (length_of r) recsize = Ret (r ++ drop (length r) to).
Proof.
  intros [Hr H _ _] Ht. cbn [map concat] in H. fold (used recsize rs) in H. pose proof (length_enc recsize r Hr) as Le. rewrite (out_bytes f b _ to k) by (done || (try rewrite length_app); lia). unfold enc. rewrite <- !app_assoc.
  pose proof (length_header recsize (length_of r) Hr). rewrite drop_app_length' by lia. rewrite take_app_length' by lia. by rewrite Nat2Z.id.
Qed.

(** Each operation is a step. *)
Definition rec_ok (f : kfifo) (recsize k : Z) (rs : list (list Z)) (a : rop) : Prop :=
  exists o f' b' rs', exec_rop f recsize a = Ret (o, f') /\ rec_step (2 ^ k) recsize rs a o rs' /\ rholds f' recsize k b' rs'.
Lemma rec_avail (f : kfifo) (recsize k n : Z) (b : list Z) (rs : list (list Z)) : rholds f recsize k b rs -> 0 <= n < 256 ^ recsize ->
  u32 (n + recsize) = n + recsize /\ u32 (n + 1) = n + 1 /\ n < 2 ^ 31 /\ kfifo_avail f = 2 ^ k - length_of (used recsize rs).
Proof.
  intros [Hr H _ _] Hn. pose proof (rec_bound _ _ Hr (proj2 Hn)). rewrite !wrap_id by (unfold in_u; lia). split; [done|]. split; [done|]. split; [lia|]. by apply (holds_avail f b).
Qed.
Lemma in_rec_ok (f : kfifo) (recsize k n : Z) (b from : list Z) (rs : list (list Z)) : rholds f recsize k b rs -> rop_ok recsize (In_rec from n) -> rec_ok f recsize k rs (In_rec from n).
Proof.
  intros H (Hn & Hb & Hf). destruct (rec_avail f recsize k n b rs H) as (E1 & E2 & _ & E3); [lia|]. unfold rec_ok. cbn [exec_rop]. unfold __kfifo_in_rec, __kfifo_in_n. rewrite E1, E2, E3.
  destruct (Z.ltb_spec (2 ^ k - length_of (used recsize rs)) (n + recsize)) as [L|L].
  - cbn [res_bind]. destruct (Z.eqb_spec (n + 1) 0); [lia|]. cbn [res_bind]. exists (n + 1, 0, from), f, b, rs. split; [done|]. split; [apply In_full; lia|done].
  - destruct (put_record f recsize k n b from rs H Hf Hn Hb ltac:(lia)) as (b1 & b2 & -> & _ & Ep & H2). cbn [res_bind Z.eqb]. destruct (r_size _ _ _ _ _ H) as [->| ->]; cbn [Z.eqb negb]; rewrite Ep; cbn [res_bind].
    all: eexists (0, 0, from), _, b2, _; split; [done|]; split; [apply In_fits; lia|exact H2].
Qed.
Lemma from_user_rec_ok (f : kfifo) (recsize k n : Z) (b from : list Z) (rs : list (list Z)) : rholds f recsize k b rs -> rop_ok recsize (From_user_rec from n) -> rec_ok f recsize k rs (From_user_rec from n).
Proof.
  intros H (Hn & Hb & Hf). destruct (rec_avail f recsize k n b rs H) as (E1 & E2 & Hm & E3); [lia|]. unfold rec_ok. cbn [exec_rop]. unfold __kfifo_from_user_rec, __kfifo_from_user_n. rewrite E1, E2, E3.
  destruct (Z.ltb_spec (2 ^ k - length_of (used recsize rs)) (n + recsize)) as [L|L].
  - cbn [res_bind]. destruct (Z.eqb_spec (n + 1) 0); [lia|]. cbn [res_bind]. exists (n + 1, 0, from), f, b, rs. split; [done|]. split; [apply From_user_full; lia|done].
  - rewrite from_user_data_eq by lia. destruct (put_record f recsize k n b from rs H Hf Hn Hb ltac:(lia)) as (b1 & b2 & -> & H1 & Ep & H2). cbn [res_bind snd]. destruct (Z.eqb_spec n 0) as [->|N]; cbn [res_bind].
    + destruct (r_size _ _ _ _ _ H) as [->| ->]; cbn [Z.eqb negb]; rewrite Ep; cbn [res_bind]; eexists (0, 0, from), _, b2, _; (split; [done|]); (split; [apply From_user_empty; lia|exact H2]).
    + exists (n, 0, from), (set_buffer b1 f), b1, rs. split; [done|]. split; [apply From_user_lost; lia|done].
Qed.
(** Nothing is taken from an empty queue. *)
Lemma empty_len (f : kfifo) (recsize k l : Z) (b : list Z) : rholds f recsize k b [] -> 0 <= l < 65536 -> kfifo_len f = 0 /\ u32 (l + recsize) = l + recsize /\ 0 < recsize.
Proof. intros [Hr H _ _] Hl. split; [by rewrite (h_len _ _ _ _ H)|]. split; [apply wrap_id; unfold in_u; lia|lia]. Qed.
Lemma recsize_nonzero (f : kfifo) (recsize k : Z) (b : list Z) (rs : list (list Z)) : rholds f recsize k b rs -> (recsize =? 0) = false.
Proof. by intros [[->| ->] _ _ _]. Qed.
Lemma out_rec_ok (f : kfifo) (recsize k n : Z) (b to : list Z) (rs : list (list Z)) : rholds f recsize k b rs -> rop_ok recsize (Out_rec to n) -> rec_ok f recsize k rs (Out_rec to n).
Proof.
  intros H Hn. cbn in Hn. unfold rec_ok. cbn [exec_rop]. unfold __kfifo_out_rec, __kfifo_out_n. rewrite (recsize_nonzero _ _ _ _ _ H). destruct rs as [|r rs].
  - destruct (peek_any _ _ _ _ _ H) as (l & -> & Hl). cbn [res_bind]. destruct (empty_len f recsize k l b H Hl) as (-> & -> & ?). exists (l, l, to), f, b, []. split; [|split; [apply Out_none|done]].
    destruct (n <? l); [done|]. by destruct (Z.ltb_spec 0 (l + recsize)); [|lia].
  - rewrite (peek_first _ _ _ _ _ _ H). destruct (drop_record _ _ _ _ _ _ H) as (El & Eu & H'). cbn [res_bind]. destruct (Z.ltb_spec n (length_of r)) as [L|L]; [by eexists _, f, b, _; split; [done|]; split; [apply Out_small|]|].
    rewrite El, Eu. destruct (Z.ltb_spec (recsize + length_of r + length_of (used recsize rs)) (length_of r + recsize)); [lia|]. rewrite (out_record _ _ _ _ _ _ _ H) by lia. cbn [res_bind fst snd].
    eexists _, _, b, rs. split; [done|]. split; [by apply Out_fits|done].
Qed.
Lemma to_user_rec_ok (f : kfifo) (recsize k n : Z) (b to : list Z) (rs : list (list Z)) : rholds f recsize k b rs -> rop_ok recsize (To_user_rec to n) -> rec_ok f recsize k rs (To_user_rec to n).
Proof.
  intros H Hn. cbn in Hn. unfold rec_ok. cbn [exec_rop]. unfold __kfifo_to_user_rec, __kfifo_to_user_n. rewrite (recsize_nonzero _ _ _ _ _ H). destruct rs as [|r rs].
  - destruct (peek_any _ _ _ _ _ H) as (l & -> & Hl). cbn [res_bind]. destruct (empty_len f recsize k l b H Hl) as (-> & -> & ?). exists (Z.max n l, l, to), f, b, []. split; [|split; [apply To_user_none|done]].
    destruct (Z.ltb_spec n l); [by rewrite Z.max_r by lia|]. destruct (Z.ltb_spec 0 (l + recsize)); [|lia]. cbn. by rewrite Z.max_l by lia.
  - rewrite (peek_first _ _ _ _ _ _ H). destruct (drop_record _ _ _ _ _ _ H) as (El & Eu & H'). cbn [res_bind]. destruct (Z.ltb_spec n (length_of r)) as [L|L]; [by eexists _, f, b, _; split; [done|]; split; [apply To_user_small|]|].
    rewrite El, Eu. destruct (Z.ltb_spec (recsize + length_of r + length_of (used recsize rs)) (length_of r + recsize)); [lia|].
    pose proof (r_lengths _ _ _ _ _ H) as Hls. inversion Hls as [|? ? Hlr _]; subst. pose proof (rec_bound _ _ (r_size _ _ _ _ _ H) Hlr). rewrite to_user_data_eq by lia. rewrite (out_record _ _ _ _ _ _ _ H) by lia. cbn [res_bind fst snd Z.eqb].
    eexists _, _, b, rs. split; [done|]. split; [by apply To_user_fits|done].
Qed.
Lemma holds_reset_empty (f : kfifo) (recsize k : Z) (b : list Z) : rholds f recsize k b [] -> rholds (kfifo_reset_out f) recsize k b [].
Proof. intros [Hr H By Hl]. split; [done| |done|done]. by eapply holds_reset_out. Qed.
Lemma exec_rop_spec (f : kfifo) (recsize k : Z) (b : list Z) (rs : list (list Z)) (a : rop) : rholds f recsize k b rs -> rop_ok recsize a -> rec_ok f recsize k rs a.
Proof.
  intros H Ha. destruct a as [from n|from n|to n|to n| |]; [by eapply in_rec_ok|by eapply from_user_rec_ok|by eapply out_rec_ok|by eapply to_user_rec_ok| |]; unfold rec_ok; cbn [exec_rop].
  - unfold kfifo_peek_rec. rewrite (recsize_nonzero _ _ _ _ _ H). destruct rs as [|r rs].
    + destruct (peek_any _ _ _ _ _ H) as (l & -> & Hl). eexists _, f, b, []. split; [done|]. split; [apply Peek_none|done].
    + rewrite (peek_first _ _ _ _ _ _ H). eexists _, f, b, _. split; [done|]. split; [apply Peek_first|done].
  - unfold __kfifo_skip_rec. rewrite (recsize_nonzero _ _ _ _ _ H). cbn [negb]. destruct rs as [|r rs].
    + destruct (peek_any _ _ _ _ _ H) as (l & -> & Hl). cbn [res_bind]. destruct (empty_len f recsize k l b H Hl) as (-> & -> & ?). destruct (Z.leb_spec (l + recsize) 0); [lia|]. cbn [res_bind].
      eexists _, _, b, []. split; [done|]. split; [apply Skip_none|]. by apply holds_reset_empty.
    + rewrite (peek_first _ _ _ _ _ _ H). destruct (drop_record _ _ _ _ _ _ H) as (El & Eu & H'). cbn [res_bind]. rewrite Eu, El. destruct (Z.leb_spec (length_of r + recsize) (recsize + length_of r + length_of (used recsize rs))); [|lia].
      cbn [res_bind]. eexists _, _, b, rs. split; [done|]. split; [apply Skip_first|done].
Qed.
Lemma exec_rops_spec (recsize k : Z) (l : list rop) (f : kfifo) (b : list Z) (rs : list (list Z)) : rholds f recsize k b rs -> Forall (rop_ok recsize) l ->
  exists os f' b' rs', exec_rops f recsize l = Ret (os, f') /\ rec_steps (2 ^ k) recsize rs l os rs' /\ rholds f' recsize k b' rs'.
Proof.
  intros H Hl. revert f b rs H. induction Hl as [|a l Ha Hl IH]; intros f b rs H; [exists [], f, b, rs; split; [done|]; split; [constructor|done]|]. cbn [exec_rops].
  destruct (exec_rop_spec f recsize k b rs a H Ha) as (o & f1 & b1 & rs1 & -> & St & H1). cbn [res_bind]. destruct (IH f1 b1 rs1 H1) as (os & f2 & b2 & rs2 & -> & Sts & H2). cbn [res_bind].
  exists (o :: os), f2, b2, rs2. split; [done|]. split; [by econstructor|done].
Qed.
(** Every sequence of record operations with a length field of one or two bytes on a fifo set up by [kfifo_init] runs
    as a queue of records: a record goes in whole with its length or not at all, records come out whole in the order in
    which they were put, a buffer that is too small leaves the record where it is and learns its length, and the bytes in
    use are the records with their lengths; no access leaves the buffer or the memory of the caller.  The steps also say
    what the queue does not promise: on an empty fifo nothing is taken but a stale length is reported, and a record from
    user memory is lost unless it is empty. *)
Theorem kfifo_records (b : list Z) (k recsize : Z) (l : list rop) :
  0 <= k <= 31 -> length_of b = 2 ^ k -> bytes b -> recsize = 1 \/ recsize = 2 -> Forall (rop_ok recsize) l ->
  exists f os f' rs, kfifo_init b (2 ^ k) = Ret f /\ exec_rops f recsize l = Ret (os, f') /\ rec_steps (2 ^ k) recsize [] l os rs /\
    kfifo_len f' = length_of (used recsize rs) /\ kfifo_avail_rec f' recsize = Z.max 0 (2 ^ k - length_of (used recsize rs) - recsize).
Proof.
  intros Hk Hb By Hr Hl. pose proof (size_pos k Hk). rewrite kfifo_init_eq by done. eexists. assert (rholds (Kfifo (Some b) (2 ^ k) 0 0) recsize k b []) as H0 by (split; [done|by apply holds_fresh|done|constructor]).
  destruct (exec_rops_spec recsize k l _ b [] H0 Hl) as (os & f' & b' & rs & E & St & [_ H' _ _]). exists os, f', rs. split; [done|]. split; [done|]. split; [done|]. split; [apply (h_len _ _ _ _ H')|].
  fold (used recsize rs) in H'. pose proof (h_fits _ _ _ _ H'). pose proof (holds_avail _ _ _ _ H') as Ha. unfold kfifo_avail in Ha. unfold kfifo_avail_rec. rewrite Ha.
  destruct (Z.ltb_spec recsize (2 ^ k - length_of (used recsize rs))); [rewrite wrap_id by (unfold in_u; lia); lia|lia].
Qed.

(** ** Runs *)
Module KfifoDemo.

(** Memory for at most sixteen bytes. *)
Definition kmalloc16 (n : Z) : option (list Z) := if (0 <=? n) && (n <=? 16) then Some (repeat 0 (Z.to_nat n)) else None.
Lemma kmalloc16_length (m : Z) (b : list Z) : kmalloc16 m = Some b -> length_of b = m.
Proof. unfold kmalloc16. destruct (Z.leb_spec 0 m), (Z.leb_spec m 16); cbn [andb]; try discriminate. intros [= <-]. rewrite repeat_length. lia. Qed.
Definition demo_ops : list fop := [In [1; 2; 3] 3; Out [0; 0] 2; From_user [4; 5; 6; 7] 4; To_user [9; 9; 9; 9; 9] 3; Skip 0; In [8] 1].
(** The ring wraps and the queue is full on the way. *)
Lemma kfifo_refines_witness :
  exists f f', kfifo_alloc kmalloc16 3 = Ret (0, f) /\
    exec_fops f demo_ops = Ret ([(3, [1; 2; 3]); (2, [1; 2]); (3, [4; 5; 6; 7]); (3, [3; 4; 5; 9; 9]); (0, []); (1, [8])], f') /\
    kfifo_len f' = 2 /\ kfifo_avail f' = 2 /\ kfifo_is_empty f' = false /\ kfifo_is_full f' = false.
Proof.
  apply (kfifo_refines kmalloc16 3 demo_ops kmalloc16_length); [lia|]. unfold demo_ops. repeat constructor; cbn; lia.
Defined.
Definition demo_recs : list rop := [In_rec [7; 8] 2; In_rec [5; 6; 7; 8] 4; In_rec [1; 2] 2; Peek_rec; Out_rec [0] 1; Out_rec [0; 0; 0] 3; Skip_rec; Out_rec [0] 1].
Lemma kfifo_records_witness :
  exists f os f' rs, kfifo_init (repeat 0 8) (2 ^ 3) = Ret f /\ exec_rops f 1 demo_recs = Ret (os, f') /\ rec_steps (2 ^ 3) 1 [] demo_recs os rs /\
    kfifo_len f' = length_of (used 1 rs) /\ kfifo_avail_rec f' 1 = Z.max 0 (2 ^ 3 - length_of (used 1 rs) - 1).
Proof.
  assert (forall l : list Z, Forall (in_u 8) l -> bytes l) as B by (intros l Hl x v Hv; unfold aget in Hv; destruct (x <? 0); [done|]; by eapply (Forall_lookup_1 (in_u 8))).
  apply (kfifo_records (repeat 0 8) 3 1 demo_recs); [lia|reflexivity|apply B; repeat constructor; cbn; lia|by left|].
  unfold demo_recs. repeat (apply Forall_cons; split; [first [exact I|cbn; lia|split; [cbn; lia|split; [cbn; lia|apply B; repeat constructor; cbn; lia]]]|]). constructor.
Defined.

Definition four : kfifo := Kfifo (Some [1; 2; 3; 4; 0; 0; 0; 0]) 8 4 0.
(** Two bytes at offset two of a queue of four are asked for: four are copied, over the end of the caller's memory and
    from behind the end of the queue. *)
Example peek_at_offset : kfifo_out_peek four [0; 0] 2 2 = Bug /\ kfifo_out_peek four [9; 9; 9; 9] 2 2 = Ret (4, [3; 4; 0; 0]).
Proof. by split. Qed.
(** A record from user memory is copied but not queued, and counts as one that could not be copied. *)
Example user_record_lost : (let! (r, f) := __kfifo_from_user_rec (Kfifo (Some (repeat 0 8)) 8 0 0) [5; 6] 2 1 in Ret (r, kfifo_len f)) = Ret (2, 0).
Proof. reflexivity. Qed.
(** A record that was copied to user memory is reported as a failed copy. *)
Example user_record_read : (let! (_, f) := __kfifo_in_rec (Kfifo (Some (repeat 0 8)) 8 0 0) [5; 6] 2 1 in let! (r, f) := __kfifo_to_user_rec f [0; 0; 0] 3 1 in Ret (r, kfifo_len f)) = Ret (2, 2, [5; 6; 0], 0).
Proof. reflexivity. Qed.
(** An empty fifo seems to hold an empty record. *)
Example record_from_empty : __kfifo_out_rec (Kfifo (Some (repeat 0 8)) 8 0 0) [9] 1 1 = Ret (0, 0, [9], Kfifo (Some (repeat 0 8)) 8 0 0).
Proof. reflexivity. Qed.
(** Without records the length and the space are mixed up where the size of the field is not known to the compiler. *)
Example peek_generic_differs : kfifo_peek_rec (Kfifo (Some (repeat 0 8)) 8 3 0) 0 = Ret 3 /\ __kfifo_peek_generic (Kfifo (Some (repeat 0 8)) 8 3 0) 0 = Ret 5.
Proof. by split. Qed.
(** A fifo for no bytes is a shift by the width of the type. *)
Example alloc_nothing : kfifo_alloc kmalloc16 0 = Bug.
Proof. reflexivity. Qed.
(** The indices wrap around their type in the middle of a queue. *)
Example index_wraps : kfifo_in (Kfifo (Some (repeat 0 4)) 4 (2 ^ 32 - 1) (2 ^ 32 - 2)) [5; 6] 2 = Ret (2, Kfifo (Some [6; 0; 0; 5]) 4 1 (2 ^ 32 - 2)).
Proof. reflexivity. Qed.

End KfifoDemo.
