(* ===== verification/KfifoConc.v ===== *)
(** * A writer and a reader of a byte queue without a lock

    The comments of kernel/kfifo.c promise that one concurrent reader and one concurrent writer need no lock.  Here the
    calls of [kfifo_in] by one thread and of [kfifo_out] by another one are cut at every access to what they share: the
    sample of the other side's index, each byte that is copied, in any order memcpy likes, and the update of the own
    index, with the barriers of the code between them. *)
From S2P Require Import Prelude Kfifo.
#[local] Notation length_of l := (Z.of_nat (length l)).

(** A call in progress: the memory of the caller, the number of bytes and the bytes that are still to be copied. *)
Record call := Call { mem : list Z; count : Z; todo : list Z }.
Record conc := Conc { fifo : kfifo; writer : option call; reader : option call; sent : list Z; received : list Z }.

(** The place of byte [i] in the buffer for the two copies of [__kfifo_in_data] and [__kfifo_out_data]: up to the end of
    the buffer, then from its beginning. *)
Definition place (f : kfifo) (index n i : Z) : Z :=
  let off := __kfifo_off f index in
  let l := Z.min n (u32 (size f - off)) in
  if i <? l then off + i else i - l.

Inductive action :=
  | W_start (from : list Z) (n : Z)
  | W_byte (i : Z)
  | W_commit
  | R_start (to : list Z) (n : Z)
  | R_byte (i : Z)
  | R_commit.
Definition action_ok (a : action) : Prop :=
  match a with W_start l n | R_start l n => 0 <= n <= length_of l | _ => True end.
Definition without (i : Z) (l : list Z) : list Z := filter (fun j => j <> i) l.
(** An action that does not come next in its thread does nothing. *)
Definition w_start (s : conc) (from : list Z) (n : Z) : res conc :=
  match writer s with
  | None => let n := Z.min (kfifo_avail (fifo s)) n in Ret (Conc (fifo s) (Some (Call from n (seqZ 0 n))) (reader s) (sent s) (received s))
  | Some _ => Ret s
  end.
Definition w_byte (s : conc) (i : Z) : res conc :=
  match writer s with
  | Some (Call from n td) =>
      if bool_decide (i ∈ td) then
        let! b := deref (buffer (fifo s)) in
        let! v := deref (aget from i) in
        let p := place (fifo s) (in_ (fifo s)) n i in
        let! _ := deref (aget b p) in
        Ret (Conc (set_buffer (aset b p v) (fifo s)) (Some (Call from n (without i td))) (reader s) (sent s) (received s))
      else Ret s
  | None => Ret s
  end.
Definition w_commit (s : conc) : res conc :=
  match writer s with
  | Some (Call from n []) => Ret (Conc (__kfifo_add_in (fifo s) n) None (reader s) (sent s ++ take (Z.to_nat n) from) (received s))
  | _ => Ret s
  end.
Definition r_start (s : conc) (to : list Z) (n : Z) : res conc :=
  match reader s with
  | None => let n := Z.min (kfifo_len (fifo s)) n in Ret (Conc (fifo s) (writer s) (Some (Call to n (seqZ 0 n))) (sent s) (received s))
  | Some _ => Ret s
  end.
Definition r_byte (s : conc) (i : Z) : res conc :=
  match reader s with
  | Some (Call to n td) =>
      if bool_decide (i ∈ td) then
        let! b := deref (buffer (fifo s)) in
        let! v := deref (aget b (place (fifo s) (out (fifo s)) n i)) in
        let! _ := deref (aget to i) in
        Ret (Conc (fifo s) (writer s) (Some (Call (aset to i v) n (without i td))) (sent s) (received s))
      else Ret s
  | None => Ret s
  end.
Definition r_commit (s : conc) : res conc :=
  match reader s with
  | Some (Call to n []) => Ret (Conc (__kfifo_add_out (fifo s) n) (writer s) None (sent s) (received s ++ take (Z.to_nat n) to))
  | _ => Ret s
  end.
Definition act (s : conc) (a : action) : res conc :=
  match a with
  | W_start from n => w_start s from n
  | W_byte i => w_byte s i
  | W_commit => w_commit s
  | R_start to n => r_start s to n
  | R_byte i => r_byte s i
  | R_commit => r_commit s
  end.
Fixpoint acts (s : conc) (l : list action) : res conc :=
  match l with [] => Ret s | a :: l => let! s := act s a in acts s l end.
Lemma acts_app (l l' : list action) (s : conc) : acts s (l ++ l') = let! s := acts s l in acts s l'.
Proof. revert s. induction l as [|a l IH]; intros s; [done|]. cbn. destruct (act s a); [apply IH|done..]. Qed.

(** ** The invariant *)

(** What is written behind the queue, and what is read from its front. *)
Definition writing (f : kfifo) (b : list Z) (k : Z) (q : list Z) (w : option call) : Prop :=
  match w with
  | None => True
  | Some (Call from n td) => 0 <= n <= length_of from /\ length_of q + n <= 2 ^ k /\ (forall i, i ∈ td -> 0 <= i < n) /\
      forall i, 0 <= i < n -> i ∉ td -> cont f b k (length_of q + i) = aget from i
  end.
Definition reading (q : list Z) (r : option call) : Prop :=
  match r with
  | None => True
  | Some (Call to n td) => 0 <= n <= length_of to /\ n <= length_of q /\ (forall i, i ∈ td -> 0 <= i < n) /\
      forall i, 0 <= i < n -> i ∉ td -> aget to i = aget q i
  end.
Record inv (k : Z) (s : conc) (b q : list Z) : Prop := Inv {
  i_holds : holds (fifo s) b k q;
  i_writer : writing (fifo s) b k q (writer s);
  i_reader : reading q (reader s);
  i_history : sent s = received s ++ q }.

Lemma place_in (f : kfifo) (b : list Z) (k index n i : Z) : ready f b k -> in_u 32 index -> n <= 2 ^ k -> 0 <= i < n -> place f index n i = (index + i) mod 2 ^ k.
Proof.
  intros R Hi Hn Hx. pose proof (size_pos k (y_pow _ _ _ R)). unfold place. assert (__kfifo_off f index = index mod 2 ^ k) as -> by (rewrite <- (off_spec f b k index R), wrap_id; done). rewrite (y_size _ _ _ R). set (o := index mod 2 ^ k).
  assert (0 <= o < 2 ^ k) by (apply Z.mod_pos_bound; lia). rewrite (wrap_id 32 (2 ^ k - o)) by (unfold in_u; lia). rewrite <- Zplus_mod_idemp_l. fold o.
  destruct (Z.ltb_spec i (Z.min n (2 ^ k - o))); [symmetry; apply Z.mod_small; lia|]. apply (Z.mod_unique_pos _ _ 1); lia.
Qed.
Lemma elem_of_without (i j : Z) (l : list Z) : i ∈ without j l <-> i <> j /\ i ∈ l.
Proof. unfold without. by rewrite list_elem_of_filter. Qed.
(** A byte behind the queue. *)
Lemma write_cont (f : kfifo) (b q : list Z) (k n i v : Z) : holds f b k q -> length_of q + n <= 2 ^ k -> 0 <= i < n ->
  (exists y, aget b (place f (in_ f) n i) = Some y) /\ length (aset b (place f (in_ f) n i) v) = length b /\
  forall j, 0 <= j < 2 ^ k -> cont f (aset b (place f (in_ f) n i) v) k j = if j =? length_of q + i then Some v else cont f b k j.
Proof.
  intros H Hn Hi. pose proof (h_ready _ _ _ _ H) as R. destruct (put_byte_cont f b q k i v H) as (b' & E & L & Hc); [lia..|]. rewrite (place_in f b k) by (done || lia || apply (h_in _ _ _ _ H)).
  unfold put_byte in E. rewrite (y_buffer _ _ _ R) in E. cbn [deref res_bind] in E. rewrite (off_spec f b k _ R) in E. destruct (aget b _) as [y|]; [|discriminate]. cbn [deref res_bind] in E.
  injection E as <-. split; [by exists y|]. split; [apply length_aset|done].
Qed.

(** One action keeps the invariant, one lemma for each side. *)
Definition kept (k : Z) (s : conc) (a : action) : Prop := exists s' b' q', act s a = Ret s' /\ inv k s' b' q'.
Ltac unfold_act := cbn [act]; unfold w_start, w_byte, w_commit, r_start, r_byte, r_commit.
Lemma same_kept (k : Z) (s : conc) (a : action) (b q : list Z) : inv k s b q -> act s a = Ret s -> kept k s a.
Proof. intros H E. by exists s, b, q. Qed.
Lemma start_todo (n : Z) (P : Z -> Prop) : (forall i, i ∈ seqZ 0 n -> 0 <= i < n) /\ forall i, 0 <= i < n -> i ∉ seqZ 0 n -> P i.
Proof. split; intros i; rewrite elem_of_seqZ; [lia|]. intros Hi []. lia. Qed.
Lemma w_start_kept (k : Z) (s : conc) (b q from : list Z) (n : Z) : inv k s b q -> 0 <= n <= length_of from -> kept k s (W_start from n).
Proof.
  intros H Hn. destruct (writer s) eqn:E; [eapply same_kept; [done|]; unfold_act; by rewrite E|]. pose proof H as [Hh Hw Hr Hs]. pose proof (h_fits _ _ _ _ Hh). unfold kept. unfold_act. rewrite E, (holds_avail _ _ _ _ Hh).
  eexists _, b, q. split; [done|]. split; [done| |done|done]. cbn [writing writer fifo]. split; [lia|]. split; [lia|]. apply start_todo.
Qed.
Lemma r_start_kept (k : Z) (s : conc) (b q to : list Z) (n : Z) : inv k s b q -> 0 <= n <= length_of to -> kept k s (R_start to n).
Proof.
  intros H Hn. destruct (reader s) eqn:E; [eapply same_kept; [done|]; unfold_act; by rewrite E|]. pose proof H as [Hh Hw Hr Hs]. pose proof (h_fits _ _ _ _ Hh). unfold kept. unfold_act. rewrite E, (h_len _ _ _ _ Hh).
  eexists _, b, q. split; [done|]. split; [done|done| |done]. cbn [reading reader]. split; [lia|]. split; [lia|]. apply start_todo.
Qed.
Lemma w_byte_kept (k : Z) (s : conc) (b q : list Z) (i : Z) : inv k s b q -> kept k s (W_byte i).
Proof.
  intros H. destruct (writer s) as [[from n td]|] eqn:E; [|eapply same_kept; [done|]; unfold_act; by rewrite E]. destruct (decide (i ∈ td)) as [Hi|Hi]; [|eapply same_kept; [done|]; unfold_act; rewrite E; by rewrite bool_decide_eq_false_2].
  pose proof H as [Hh Hw Hr Hs]. rewrite E in Hw. cbn [writing] in Hw. destruct Hw as (Hn & Hf & Ht & Hc). pose proof (Ht i Hi) as Hin. unfold kept. unfold_act. rewrite E, bool_decide_eq_true_2 by done.
  rewrite (y_buffer _ _ _ (h_ready _ _ _ _ Hh)). cbn [deref res_bind]. destruct (aget_is_Some from i ltac:(lia)) as [v Ev]. rewrite Ev. cbn [deref res_bind].
  destruct (write_cont (fifo s) b q k n i v Hh Hf Hin) as ([y ->] & L & Hx). cbn [deref res_bind]. eexists _, _, q. split; [done|]. split; cbn [fifo writer reader sent received]; [| |done|done].
  - apply (holds_behind (fifo s) b); [done|done|]. intros j Hj. rewrite Hx by lia. by destruct (Z.eqb_spec j (length_of q + i)); [lia|].
  - cbn [writing]. split; [done|]. split; [done|]. split; [intros j [_ Hj]%elem_of_without; by apply Ht|]. intros j Hj Hnt. change (cont (set_buffer ?x (fifo s)) ?y k ?z) with (cont (fifo s) y k z).
    rewrite Hx by lia. destruct (Z.eqb_spec (length_of q + j) (length_of q + i)) as [Ej|Ej]; [replace j with i by lia; done|]. apply Hc; [done|]. intros Hj'. apply Hnt. apply elem_of_without. split; [lia|done].
Qed.
Lemma w_commit_kept (k : Z) (s : conc) (b q : list Z) : inv k s b q -> kept k s W_commit.
Proof.
  intros H. destruct (writer s) as [[from n [|i td]]|] eqn:E; [|eapply same_kept; [done|]; unfold_act; by rewrite E..]. pose proof H as [Hh Hw Hr Hs]. rewrite E in Hw. cbn [writing] in Hw. destruct Hw as (Hn & Hf & _ & Hc).
  unfold kept. unfold_act. rewrite E. set (e := take (Z.to_nat n) from). assert (length_of e = n) as El by (unfold e; rewrite length_take; lia). eexists _, b, (q ++ e). split; [done|]. split; cbn [fifo writer reader sent received]; [|done| |].
  - replace (fifo s) with (set_buffer b (fifo s)) by (unfold set_buffer; rewrite <- (y_buffer _ _ _ (h_ready _ _ _ _ Hh)); by destruct (fifo s)). rewrite <- El. apply (holds_add_in (fifo s) b); [done|done|lia|]. rewrite El. intros i Hi.
    unfold e. rewrite aget_app_take by lia. destruct (Z.ltb_spec i (length_of q)); [apply (h_cont _ _ _ _ Hh); lia|]. rewrite <- (Hc (i - length_of q)); [f_equal; lia|lia|apply not_elem_of_nil].
  - destruct (reader s) as [[to m td]|]; [|done]. cbn [reading] in *. destruct Hr as (? & ? & ? & Hg). rewrite length_app. split; [done|]. split; [lia|]. split; [done|]. intros i Hi Hx. rewrite Hg, aget_app by done. destruct (Z.ltb_spec i (length_of q)); [done|lia].
  - by rewrite Hs, app_assoc.
Qed.
Lemma r_byte_kept (k : Z) (s : conc) (b q : list Z) (i : Z) : inv k s b q -> kept k s (R_byte i).
Proof.
  intros H. destruct (reader s) as [[to n td]|] eqn:E; [|eapply same_kept; [done|]; unfold_act; by rewrite E]. destruct (decide (i ∈ td)) as [Hi|Hi]; [|eapply same_kept; [done|]; unfold_act; rewrite E; by rewrite bool_decide_eq_false_2].
  pose proof H as [Hh Hw Hr Hs]. rewrite E in Hr. cbn [reading] in Hr. destruct Hr as (Hn & Hq & Ht & Hg). pose proof (Ht i Hi) as Hin. pose proof (h_ready _ _ _ _ Hh) as R. pose proof (h_fits _ _ _ _ Hh). unfold kept. unfold_act. rewrite E, bool_decide_eq_true_2 by done.
  rewrite (y_buffer _ _ _ R), (place_in _ b k) by (done || lia || apply (h_out _ _ _ _ Hh)). cbn [deref res_bind]. pose proof (h_cont _ _ _ _ Hh i ltac:(lia)) as Ec. unfold cont in Ec. rewrite Ec.
  destruct (aget_is_Some q i ltac:(lia)) as [v Ev], (aget_is_Some to i ltac:(lia)) as [y Ey]. rewrite Ev, Ey. cbn [deref res_bind]. eexists _, b, q. split; [done|]. split; [done|done| |done]. cbn [reading reader]. rewrite length_aset.
  split; [done|]. split; [done|]. split; [intros j [_ Hj]%elem_of_without; by apply Ht|]. intros j Hj Hnt. destruct (Z.eq_dec j i) as [->|N]; [rewrite Ev; by eapply aget_aset_eq|]. rewrite aget_aset_ne by lia. apply Hg; [done|].
  intros Hj'. apply Hnt. by apply elem_of_without.
Qed.
Lemma r_commit_kept (k : Z) (s : conc) (b q : list Z) : inv k s b q -> kept k s R_commit.
Proof.
  intros H. destruct (reader s) as [[to n [|i td]]|] eqn:E; [|eapply same_kept; [done|]; unfold_act; by rewrite E..]. pose proof H as [Hh Hw Hr Hs]. rewrite E in Hr. cbn [reading] in Hr. destruct Hr as (Hn & Hq & _ & Hg).
  unfold kept. unfold_act. rewrite E. pose proof (size_pos k (y_pow _ _ _ (h_ready _ _ _ _ Hh))). assert (take (Z.to_nat n) to = take (Z.to_nat n) q) as Et.
  { apply aget_ext. intros i. rewrite !aget_take. destruct (Z.ltb_spec i n); [|done]. destruct (Z.lt_ge_cases i 0); [by rewrite !aget_out by lia|]. apply Hg; [lia|apply not_elem_of_nil]. }
  eexists _, b, (drop (Z.to_nat n) q). split; [done|]. split; cbn [fifo writer reader sent received]; [apply holds_add_out; [done|lia]| |done|].
  - destruct (writer s) as [[from m td]|]; [|done]. cbn [writing] in *. destruct Hw as (? & ? & ? & Hc). rewrite length_drop. split; [done|]. split; [lia|]. split; [done|]. intros i Hi Hx. rewrite <- Hc by done. unfold cont. cbn [out __kfifo_add_out]. f_equal.
    rewrite <- (Zplus_mod_idemp_l (u32 _)), wrap_mod, Zplus_mod_idemp_l by (pose proof (y_pow _ _ _ (h_ready _ _ _ _ Hh)); lia). f_equal. lia.
  - by rewrite Et, Hs, <- app_assoc, take_drop.
Qed.
Lemma act_kept (k : Z) (s : conc) (a : action) (b q : list Z) : inv k s b q -> action_ok a -> kept k s a.
Proof.
  intros H Ha. destruct a; cbn [action_ok] in Ha; [by eapply w_start_kept|by eapply w_byte_kept|by eapply w_commit_kept|by eapply r_start_kept|by eapply r_byte_kept|by eapply r_commit_kept].
Qed.
Lemma acts_kept (k : Z) (l : list action) (s : conc) (b q : list Z) : inv k s b q -> Forall action_ok l -> exists s' b' q', acts s l = Ret s' /\ inv k s' b' q'.
Proof.
  intros H Hl. revert s b q H. induction Hl as [|a l Ha Hl IH]; intros s b q H; [by exists s, b, q|]. cbn [acts].
  destruct (act_kept k s a b q H Ha) as (s1 & b1 & q1 & -> & H1). cbn [res_bind]. by apply (IH s1 b1 q1).
Qed.
(** C40: one thread that calls [kfifo_in] and one that calls [kfifo_out] need no lock: whatever the interleaving of their
    samples of the indices, of the bytes they copy in any order, and of their updates of the indices, no access leaves the
    buffer or the memory of a caller, and the bytes the reader has received so far, followed by the ones the indices hold
    in the fifo, are the bytes the writer has sent so far, so that nothing is lost, doubled, reordered or torn. *)
Theorem kfifo_lock_free (b : list Z) (k : Z) (l : list action) : 0 <= k <= 31 -> length_of b = 2 ^ k -> Forall action_ok l ->
  exists f s q, kfifo_init b (2 ^ k) = Ret f /\ acts (Conc f None None [] []) l = Ret s /\ sent s = received s ++ q /\ kfifo_len (fifo s) = length_of q /\ length_of q <= kfifo_size (fifo s).
Proof.
  intros Hk Hb Hl. rewrite kfifo_init_eq by done. eexists. destruct (acts_kept k l (Conc (Kfifo (Some b) (2 ^ k) 0 0) None None [] []) b []) as (s & b' & q & E & [Hh _ _ Hs]); [|done|].
  - split; [by apply holds_fresh|done..].
  - exists s, q. split; [done|]. split; [done|]. split; [done|]. split; [apply (h_len _ _ _ _ Hh)|]. unfold kfifo_size. rewrite (y_size _ _ _ (h_ready _ _ _ _ Hh)). apply (h_fits _ _ _ _ Hh).
Qed.

(** ** The calls by themselves *)

Lemma without_head (i : Z) (td : list Z) : NoDup (i :: td) -> without i (i :: td) = td.
Proof.
  intros [Hi _]%NoDup_cons. unfold without. rewrite filter_cons_False by tauto. induction td as [|j td IH]; [done|]. apply not_elem_of_cons in Hi as [Hj Hi]. rewrite filter_cons_True by congruence. f_equal. by apply IH.
Qed.
Lemma write_all (k n : Z) (from q : list Z) (r : option call) (se re : list Z) (td : list Z) (f : kfifo) (b : list Z) :
  holds f b k q -> length_of q + n <= 2 ^ k -> n <= length_of from -> NoDup td -> (forall i, i ∈ td -> 0 <= i < n) ->
  exists b', acts (Conc f (Some (Call from n td)) r se re) (map W_byte td) = Ret (Conc (set_buffer b' f) (Some (Call from n [])) r se re) /\ length b' = length b /\
    forall j, 0 <= j < 2 ^ k -> cont f b' k j = if bool_decide (j - length_of q ∈ td) then aget from (j - length_of q) else cont f b k j.
Proof.
  intros H Hq Hf Hd Ht. revert f b H Hd Ht. induction td as [|i td IH]; intros f b H Hd Ht.
  - exists b. split; [|done]. cbn [map acts]. unfold set_buffer. rewrite <- (y_buffer _ _ _ (h_ready _ _ _ _ H)). by destruct f.
  - cbn [map acts act w_start w_byte w_commit r_start r_byte r_commit writer fifo reader sent received]. rewrite bool_decide_eq_true_2 by set_solver. pose proof (Ht i ltac:(set_solver)) as Hi. rewrite (y_buffer _ _ _ (h_ready _ _ _ _ H)). cbn [deref res_bind].
    destruct (aget_is_Some from i ltac:(lia)) as [v Ev]. rewrite Ev. cbn [deref res_bind]. destruct (write_cont f b q k n i v H Hq Hi) as ([y ->] & L & Hx). cbn [deref res_bind]. rewrite without_head by done.
    destruct (IH (set_buffer (aset b (place f (in_ f) n i) v) f) (aset b (place f (in_ f) n i) v)) as (b' & E & L' & Hb).
    + apply (holds_behind f b); [done|done|]. intros j Hj. rewrite Hx by lia. by destruct (Z.eqb_spec j (length_of q + i)); [lia|].
    + by apply NoDup_cons in Hd as [_ Hd].
    + intros j Hj. apply Ht. set_solver.
    + exists b'. split; [exact E|]. split; [congruence|]. intros j Hj. specialize (Hb j Hj). change (cont (set_buffer ?x f) ?y k ?z) with (cont f y k z) in Hb. rewrite Hb, Hx by done.
      destruct (Z.eqb_spec j (length_of q + i)) as [->|N].
      * replace (length_of q + i - length_of q) with i by lia. apply NoDup_cons in Hd as [Hi' _]. rewrite bool_decide_eq_false_2 by done. by rewrite bool_decide_eq_true_2 by set_solver.
      * apply NoDup_cons in Hd as [Hi' _]. destruct (decide (j - length_of q ∈ td)) as [D|D]; [rewrite !bool_decide_eq_true_2 by set_solver; done|].
        rewrite !bool_decide_eq_false_2; [done| |done]. intros [?|?]%elem_of_cons; [lia|done].
Qed.
(** The buffer is known from its positions. *)
Lemma cont_ext (f : kfifo) (b b' : list Z) (k : Z) : 0 <= k <= 31 -> length_of b = 2 ^ k -> length b' = length b -> (forall j, 0 <= j < 2 ^ k -> cont f b' k j = cont f b k j) -> b' = b.
Proof.
  intros Hk Hb Hl Hc. pose proof (size_pos k Hk). apply aget_ext. intros x. destruct (decide (0 <= x < 2 ^ k)) as [Hx|Hx]; [|by rewrite !aget_out by lia]. specialize (Hc ((x - out f) mod 2 ^ k) ltac:(apply Z.mod_pos_bound; lia)).
  unfold cont in Hc. rewrite Zplus_mod_idemp_r in Hc. replace (out f + (x - out f)) with x in Hc by lia. by rewrite Z.mod_small in Hc by lia.
Qed.
(** A call of the writer that nothing interrupts is [kfifo_in]. *)
Lemma kfifo_in_alone (k n : Z) (f : kfifo) (b q from : list Z) (r : option call) (se re : list Z) : holds f b k q -> 0 <= n <= length_of from ->
  exists j f', kfifo_in f from n = Ret (j, f') /\
    acts (Conc f None r se re) (W_start from n :: map W_byte (seqZ 0 j) ++ [W_commit]) = Ret (Conc f' None r (se ++ take (Z.to_nat j) from) re).
Proof.
  intros H Hn. pose proof (h_fits _ _ _ _ H). pose proof (h_ready _ _ _ _ H) as R. unfold kfifo_in. cbn [acts act w_start w_byte w_commit r_start r_byte r_commit writer fifo reader sent received res_bind]. rewrite (holds_avail _ _ _ _ H). set (j := Z.min (2 ^ k - length_of q) n).
  destruct (in_data_cont f b q from k j 0 H) as (b1 & E1 & L1 & H1); [lia..|]. rewrite E1. cbn [res_bind]. eexists j, _. split; [done|].
  destruct (write_all k j from q r se re (seqZ 0 j) f b H) as (b2 & E2 & L2 & H2); [lia|lia|apply NoDup_seqZ|intros i; rewrite elem_of_seqZ; lia|]. rewrite acts_app, E2. cbn [res_bind acts act w_start w_byte w_commit r_start r_byte r_commit writer fifo reader sent received].
  assert (b2 = b1) as ->; [|done]. apply (cont_ext f b1 b2 k (y_pow _ _ _ R)); [rewrite L1; apply (y_length _ _ _ R)|congruence|]. intros i Hi. rewrite H1, H2 by done.
  destruct (decide (i - length_of q ∈ seqZ 0 j)) as [D|D]; [rewrite bool_decide_eq_true_2 by done|rewrite bool_decide_eq_false_2 by done]; rewrite elem_of_seqZ in D;
    destruct (Z.leb_spec (length_of q + 0) i), (Z.ltb_spec i (length_of q + 0 + j)); cbn [andb]; try lia; [f_equal; lia|done..].
Qed.
Lemma read_all (k n : Z) (q b : list Z) (w : option call) (se re : list Z) (f : kfifo) (td to : list Z) :
  holds f b k q -> n <= length_of q -> n <= length_of to -> NoDup td -> (forall i, i ∈ td -> 0 <= i < n) ->
  exists to', acts (Conc f w (Some (Call to n td)) se re) (map R_byte td) = Ret (Conc f w (Some (Call to' n [])) se re) /\
    forall j, aget to' j = if bool_decide (j ∈ td) then aget q j else aget to j.
Proof.
  intros H Hq Hf Hd Ht. pose proof (h_ready _ _ _ _ H) as R. pose proof (h_fits _ _ _ _ H). revert to Hf Hd Ht. induction td as [|i td IH]; intros to Hf Hd Ht; [by exists to|].
  cbn [map acts act w_start w_byte w_commit r_start r_byte r_commit writer fifo reader sent received]. rewrite bool_decide_eq_true_2 by set_solver. pose proof (Ht i ltac:(set_solver)) as Hi. rewrite (y_buffer _ _ _ R), (place_in _ b k) by (done || lia || apply (h_out _ _ _ _ H)).
  cbn [deref res_bind]. pose proof (h_cont _ _ _ _ H i ltac:(lia)) as Ec. unfold cont in Ec. rewrite Ec. destruct (aget_is_Some q i ltac:(lia)) as [v Ev], (aget_is_Some to i ltac:(lia)) as [y Ey]. rewrite Ev, Ey. cbn [deref res_bind].
  rewrite without_head by done. apply NoDup_cons in Hd as [Hi' Hd]. destruct (IH (aset to i v)) as (to' & E & Hx); [by rewrite length_aset|done|intros j Hj; apply Ht; set_solver|]. exists to'. split; [exact E|]. intros j. rewrite Hx.
  destruct (decide (j ∈ td)) as [D|D]; [rewrite !bool_decide_eq_true_2 by set_solver; done|]. rewrite bool_decide_eq_false_2 by done. destruct (Z.eq_dec j i) as [->|N].
  - rewrite bool_decide_eq_true_2 by set_solver. rewrite Ev. by eapply aget_aset_eq.
  - rewrite bool_decide_eq_false_2 by (intros [?|?]%elem_of_cons; done). apply aget_aset_ne; lia.
Qed.
(** A call of the reader that nothing interrupts is [kfifo_out]. *)
Lemma kfifo_out_alone (k n : Z) (f : kfifo) (b q to : list Z) (w : option call) (se re : list Z) : holds f b k q -> 0 <= n <= length_of to ->
  exists j to' f', kfifo_out f to n = Ret (j, to', f') /\
    acts (Conc f w None se re) (R_start to n :: map R_byte (seqZ 0 j) ++ [R_commit]) = Ret (Conc f' w None se (re ++ take (Z.to_nat j) to')).
Proof.
  intros H Hn. unfold kfifo_out. cbn [acts act w_start w_byte w_commit r_start r_byte r_commit writer fifo reader sent received res_bind]. rewrite (h_len _ _ _ _ H). set (j := Z.min (length_of q) n). rewrite (out_bytes f b q to k) by (done || lia). cbn [res_bind].
  eexists j, _, _. split; [done|]. destruct (read_all k j q b w se re f (seqZ 0 j) to H) as (t & E & Hx); [lia|lia|apply NoDup_seqZ|intros i; rewrite elem_of_seqZ; lia|]. rewrite acts_app, E. cbn [res_bind acts act w_start w_byte w_commit r_start r_byte r_commit writer fifo reader sent received].
  assert (take (Z.to_nat j) t = take (Z.to_nat j) (take (Z.to_nat j) (drop (Z.to_nat 0) q) ++ drop (Z.to_nat j) to)) as ->; [|done].
  rewrite take_app_length' by (rewrite length_take, length_drop; lia). change (drop (Z.to_nat 0) q) with q. apply aget_ext. intros x. rewrite !aget_take. destruct (Z.ltb_spec x j); [|done]. rewrite Hx. destruct (Z.lt_ge_cases x 0).
  - rewrite bool_decide_eq_false_2 by (rewrite elem_of_seqZ; lia). by rewrite !aget_out by lia.
  - by rewrite bool_decide_eq_true_2 by (rewrite elem_of_seqZ; lia).
Qed.

(** ** Runs *)
Module KfifoConcDemo.

(** The reader takes two bytes while the writer, which saw a full ring but one byte, is in the middle of its copy. *)
Definition demo : list action :=
  [W_start [1; 2; 3] 3; W_byte 2; W_byte 0; R_start [0; 0] 2; W_byte 1; W_commit; R_commit; R_start [0; 0] 2; W_start [4; 5] 2; R_byte 1; W_byte 0; R_byte 0; R_commit; W_commit].
Example demo_result : (let! s := acts (Conc (Kfifo (Some [0; 0; 0; 0]) 4 0 0) None None [] []) demo in Ret (sent s, received s, buffer (fifo s))) = Ret ([1; 2; 3; 4], [1; 2], Some [1; 2; 3; 4]).
Proof. by vm_compute. Qed.
Lemma kfifo_lock_free_witness :
  exists f s q, kfifo_init [0; 0; 0; 0] (2 ^ 2) = Ret f /\ acts (Conc f None None [] []) demo = Ret s /\ sent s = received s ++ q /\ kfifo_len (fifo s) = length_of q /\ length_of q <= kfifo_size (fifo s).
Proof. apply (kfifo_lock_free [0; 0; 0; 0] 2 demo); [lia|reflexivity|]. unfold demo. repeat (apply Forall_cons; split; [first [exact I|cbn; lia]|]). constructor. Defined.

End KfifoConcDemo.
