(* ===== verification/CString.v ===== *)
(** * Characters and strings: lib/ctype.c, lib/string.c and arch/lkl/lib/string.c

    The port defines only [memcpy] itself; the other string functions are the generic ones.
    Here they work on bytes by address: reading or writing an address that holds no byte is a
    bug.  Every loop reads or writes another address in each turn, so [size m] turns are enough
    for all of them. *)
From S2P Require Import Prelude.

(** ** lib/ctype.c *)

Definition _U : Z := 0x01.
Definition _L : Z := 0x02.
Definition _D : Z := 0x04.
Definition _C : Z := 0x08.
Definition _P : Z := 0x10.
Definition _S : Z := 0x20.
Definition _X : Z := 0x40.
Definition _SP : Z := 0x80.
Definition _ctype : list Z :=
  let CS := Z.lor _C _S in let SS := Z.lor _S _SP in let UX := Z.lor _U _X in let LX := Z.lor _L _X in
  [_C;_C;_C;_C;_C;_C;_C;_C;
   _C;CS;CS;CS;CS;CS;_C;_C;
   _C;_C;_C;_C;_C;_C;_C;_C;
   _C;_C;_C;_C;_C;_C;_C;_C;
   SS;_P;_P;_P;_P;_P;_P;_P;
   _P;_P;_P;_P;_P;_P;_P;_P;
   _D;_D;_D;_D;_D;_D;_D;_D;
   _D;_D;_P;_P;_P;_P;_P;_P;
   _P;UX;UX;UX;UX;UX;UX;_U;
   _U;_U;_U;_U;_U;_U;_U;_U;
   _U;_U;_U;_U;_U;_U;_U;_U;
   _U;_U;_U;_P;_P;_P;_P;_P;
   _P;LX;LX;LX;LX;LX;LX;_L;
   _L;_L;_L;_L;_L;_L;_L;_L;
   _L;_L;_L;_L;_L;_L;_L;_L;
   _L;_L;_L;_P;_P;_P;_P;_C;
   0;0;0;0;0;0;0;0;0;0;0;0;0;0;0;0;
   0;0;0;0;0;0;0;0;0;0;0;0;0;0;0;0;
   SS;_P;_P;_P;_P;_P;_P;_P;_P;_P;_P;_P;_P;_P;_P;_P;
   _P;_P;_P;_P;_P;_P;_P;_P;_P;_P;_P;_P;_P;_P;_P;_P;
   _U;_U;_U;_U;_U;_U;_U;_U;_U;_U;_U;_U;_U;_U;_U;_U;
   _U;_U;_U;_U;_U;_U;_U;_P;_U;_U;_U;_U;_U;_U;_U;_L;
   _L;_L;_L;_L;_L;_L;_L;_L;_L;_L;_L;_L;_L;_L;_L;_L;
   _L;_L;_L;_L;_L;_L;_L;_P;_L;_L;_L;_L;_L;_L;_L;_L].
Definition __ismask (x : Z) : Z := default 0 (aget _ctype (u8 x)).
Definition isalnum (c : Z) : bool := negb (Z.land (__ismask c) (Z.lor _U (Z.lor _L _D)) =? 0).
Definition isdigit (c : Z) : bool := negb (Z.land (__ismask c) _D =? 0).
Definition islower (c : Z) : bool := negb (Z.land (__ismask c) _L =? 0).
Definition isupper (c : Z) : bool := negb (Z.land (__ismask c) _U =? 0).
Definition isspace (c : Z) : bool := negb (Z.land (__ismask c) _S =? 0).
Definition isxdigit (c : Z) : bool := negb (Z.land (__ismask c) (Z.lor _D _X) =? 0).
Definition tolower (c : Z) : Z := if isupper (u8 c) then u8 (u8 c - (65 - 97)) else u8 c.
Definition toupper (c : Z) : Z := if islower (u8 c) then u8 (u8 c - (97 - 65)) else u8 c.

(** ** Bytes by address *)

Notation cmem := (gmap Z Z).
Definition rd (m : cmem) (p : Z) : res Z := deref (m !! p).
Definition wr (m : cmem) (p v : Z) : res cmem := let! _ := deref (m !! p) in Ret (<[p := u8 v]> m).
Definition turns (m : cmem) : nat := S (S (size m)).

(** [n] bytes at once, from the lowest address. *)
Fixpoint rdn (n : nat) (m : cmem) (p : Z) : res (list Z) :=
  match n with
  | O => Ret []
  | S n => let! c := rd m p in let! l := rdn n m (p + 1) in Ret (c :: l)
  end.
Fixpoint wrn (m : cmem) (p : Z) (l : list Z) : res cmem :=
  match l with
  | [] => Ret m
  | c :: l => let! m := wr m p c in wrn m (p + 1) l
  end.

(** ** arch/lkl/lib/string.c *)

(** The macro: while (count >= sizeof(type)). *)
Fixpoint do_copy (sz : Z) (fuel : nat) (m : cmem) (dest src count : Z) : res (cmem * Z * Z * Z) :=
  match fuel with
  | O => OutOfFuel
  | S fuel =>
      if sz <=? count then
        let! l := rdn (Z.to_nat sz) m src in
        let! m := wrn m dest l in
        do_copy sz fuel m (dest + sz) (src + sz) (count - sz)
      else Ret (m, dest, src, count)
  end.
Definition memcpy (m : cmem) (dest src count : Z) : res cmem :=
  let! (r, count) := do_copy 8 (turns m) m dest src count in
  let '(m, dest, src) := r in
  let! (r, _) := do_copy 1 (turns m) m dest src count in
  let '(m, _, _) := r in
  Ret m.

(** ** lib/string.c *)

Fixpoint strlen_loop (fuel : nat) (m : cmem) (sc : Z) : res Z :=
  match fuel with
  | O => OutOfFuel
  | S fuel => let! c := rd m sc in if c =? 0 then Ret sc else strlen_loop fuel m (sc + 1)
  end.
Definition strlen (m : cmem) (s : Z) : res Z := let! sc := strlen_loop (turns m) m s in Ret (sc - s).

Fixpoint strnlen_loop (fuel : nat) (m : cmem) (sc count : Z) : res Z :=
  match fuel with
  | O => OutOfFuel
  | S fuel =>
      if count =? 0 then Ret sc
      else
        let count := u64 (count - 1) in
        let! c := rd m sc in
        if c =? 0 then Ret sc else strnlen_loop fuel m (sc + 1) count
  end.
Definition strnlen (m : cmem) (s count : Z) : res Z :=
  let! sc := strnlen_loop (turns m) m s (u64 count) in Ret (sc - s).

(** [strnicmp]: with [len] characters left to compare. *)
Fixpoint strnicmp_loop (fuel : nat) (m : cmem) (s1 s2 len : Z) : res Z :=
  match fuel with
  | O => OutOfFuel
  | S fuel =>
      let! c1 := rd m s1 in
      let! c2 := rd m s2 in
      if (c1 =? 0) || (c2 =? 0) then Ret (c1 - c2)
      else
        let l1 := tolower c1 in
        let l2 := tolower c2 in
        if negb (c1 =? c2) && negb (l1 =? l2) then Ret (l1 - l2)
        else
          let len := u64 (len - 1) in
          if len =? 0 then Ret (if c1 =? c2 then c1 - c2 else l1 - l2)
          else strnicmp_loop fuel m (s1 + 1) (s2 + 1) len
  end.
Definition strnicmp (m : cmem) (s1 s2 len : Z) : res Z :=
  if u64 len =? 0 then Ret 0 else strnicmp_loop (turns m) m s1 s2 (u64 len).

Fixpoint strcasecmp_loop (fuel : nat) (m : cmem) (s1 s2 : Z) : res Z :=
  match fuel with
  | O => OutOfFuel
  | S fuel =>
      let! c1 := rd m s1 in
      let! c2 := rd m s2 in
      let c1 := tolower c1 in
      let c2 := tolower c2 in
      if (c1 =? c2) && negb (c1 =? 0) then strcasecmp_loop fuel m (s1 + 1) (s2 + 1) else Ret (c1 - c2)
  end.
Definition strcasecmp (m : cmem) (s1 s2 : Z) : res Z := strcasecmp_loop (turns m) m s1 s2.

Fixpoint strncasecmp_loop (fuel : nat) (m : cmem) (s1 s2 n : Z) : res Z :=
  match fuel with
  | O => OutOfFuel
  | S fuel =>
      let! c1 := rd m s1 in
      let! c2 := rd m s2 in
      let c1 := tolower c1 in
      let c2 := tolower c2 in
      let n := u64 (n - 1) in
      if (0 <? n) && (c1 =? c2) && negb (c1 =? 0) then strncasecmp_loop fuel m (s1 + 1) (s2 + 1) n else Ret (c1 - c2)
  end.
Definition strncasecmp (m : cmem) (s1 s2 n : Z) : res Z := strncasecmp_loop (turns m) m s1 s2 (u64 n).

(** The assignments [*dest++ = *src++] up to the one of the final zero. *)
Fixpoint strcpy_loop (fuel : nat) (m : cmem) (dest src : Z) : res cmem :=
  match fuel with
  | O => OutOfFuel
  | S fuel =>
      let! c := rd m src in
      let! m := wr m dest c in
      if c =? 0 then Ret m else strcpy_loop fuel m (dest + 1) (src + 1)
  end.
Definition strcpy (m : cmem) (dest src : Z) : res cmem := strcpy_loop (turns m) m dest src.

Fixpoint strncpy_loop (fuel : nat) (m : cmem) (tmp src count : Z) : res cmem :=
  match fuel with
  | O => OutOfFuel
  | S fuel =>
      if count =? 0 then Ret m
      else
        let! c := rd m src in
        let! m := wr m tmp c in
        strncpy_loop fuel m (tmp + 1) (if c =? 0 then src else src + 1) (count - 1)
  end.
Definition strncpy (m : cmem) (dest src count : Z) : res cmem := strncpy_loop (turns m) m dest src count.

Definition strlcpy (m : cmem) (dest src sz : Z) : res (Z * cmem) :=
  let! ret := strlen m src in
  if sz =? 0 then Ret (ret, m)
  else
    let len := if sz <=? ret then sz - 1 else ret in
    let! m := memcpy m dest src len in
    let! m := wr m (dest + len) 0 in
    Ret (ret, m).

(** [dest++] up to the final zero. *)
Fixpoint str_end (fuel : nat) (m : cmem) (dest : Z) : res Z :=
  match fuel with
  | O => OutOfFuel
  | S fuel => let! c := rd m dest in if c =? 0 then Ret dest else str_end fuel m (dest + 1)
  end.
Definition strcat (m : cmem) (dest src : Z) : res cmem :=
  let! dest := str_end (turns m) m dest in strcpy_loop (turns m) m dest src.

Fixpoint strncat_loop (fuel : nat) (m : cmem) (dest src count : Z) : res cmem :=
  match fuel with
  | O => OutOfFuel
  | S fuel =>
      let! c := rd m src in
      let! m := wr m dest c in
      if c =? 0 then Ret m
      else
        let count := count - 1 in
        if count =? 0 then wr m (dest + 1) 0 else strncat_loop fuel m (dest + 1) (src + 1) count
  end.
Definition strncat (m : cmem) (dest src count : Z) : res cmem :=
  if count =? 0 then Ret m
  else let! dest := str_end (turns m) m dest in strncat_loop (turns m) m dest src count.

Definition strlcat (m : cmem) (dest src count : Z) : res (Z * cmem) :=
  let! dsize := strlen m dest in
  let! len := strlen m src in
  let ret := u64 (dsize + len) in
  let! _ := BUG_ON (count <=? dsize) in
  let dest := dest + dsize in
  let count := count - dsize in
  let len := if count <=? len then count - 1 else len in
  let! m := memcpy m dest src len in
  let! m := wr m (dest + len) 0 in
  Ret (ret, m).

Fixpoint strcmp_loop (fuel : nat) (m : cmem) (cs ct : Z) : res Z :=
  match fuel with
  | O => OutOfFuel
  | S fuel =>
      let! c1 := rd m cs in
      let! c2 := rd m ct in
      if negb (c1 =? c2) then Ret (if c1 <? c2 then -1 else 1)
      else if c1 =? 0 then Ret 0
      else strcmp_loop fuel m (cs + 1) (ct + 1)
  end.
Definition strcmp (m : cmem) (cs ct : Z) : res Z := strcmp_loop (turns m) m cs ct.

Fixpoint strncmp_loop (fuel : nat) (m : cmem) (cs ct count : Z) : res Z :=
  match fuel with
  | O => OutOfFuel
  | S fuel =>
      if count =? 0 then Ret 0
      else
        let! c1 := rd m cs in
        let! c2 := rd m ct in
        if negb (c1 =? c2) then Ret (if c1 <? c2 then -1 else 1)
        else if c1 =? 0 then Ret 0
        else strncmp_loop fuel m (cs + 1) (ct + 1) (count - 1)
  end.
Definition strncmp (m : cmem) (cs ct count : Z) : res Z := strncmp_loop (turns m) m cs ct count.

Fixpoint strchr_loop (fuel : nat) (m : cmem) (s c : Z) : res Z :=
  match fuel with
  | O => OutOfFuel
  | S fuel =>
      let! x := rd m s in
      if x =? u8 c then Ret s else if x =? 0 then Ret NULL else strchr_loop fuel m (s + 1) c
  end.
Definition strchr (m : cmem) (s c : Z) : res Z := strchr_loop (turns m) m s c.

(** From the end of the string back to its start. *)
Fixpoint strrchr_loop (fuel : nat) (m : cmem) (s p c : Z) : res Z :=
  match fuel with
  | O => OutOfFuel
  | S fuel =>
      let! x := rd m p in
      if x =? u8 c then Ret p else if s <=? p - 1 then strrchr_loop fuel m s (p - 1) c else Ret NULL
  end.
Definition strrchr (m : cmem) (s c : Z) : res Z :=
  let! n := strlen m s in strrchr_loop (turns m) m s (s + n) c.

Fixpoint strnchr_loop (fuel : nat) (m : cmem) (s count c : Z) : res Z :=
  match fuel with
  | O => OutOfFuel
  | S fuel =>
      if count =? 0 then Ret NULL
      else
        let! x := rd m s in
        if x =? 0 then Ret NULL else if x =? u8 c then Ret s else strnchr_loop fuel m (s + 1) (count - 1) c
  end.
Definition strnchr (m : cmem) (s count c : Z) : res Z := strnchr_loop (turns m) m s count c.

Fixpoint skip_spaces_loop (fuel : nat) (m : cmem) (str : Z) : res Z :=
  match fuel with
  | O => OutOfFuel
  | S fuel => let! c := rd m str in if isspace c then skip_spaces_loop fuel m (str + 1) else Ret str
  end.
Definition skip_spaces (m : cmem) (str : Z) : res Z := skip_spaces_loop (turns m) m str.

(** Back over the white space at the end. *)
Fixpoint strim_loop (fuel : nat) (m : cmem) (s end_ : Z) : res Z :=
  match fuel with
  | O => OutOfFuel
  | S fuel =>
      if s <=? end_ then let! c := rd m end_ in if isspace c then strim_loop fuel m s (end_ - 1) else Ret end_
      else Ret end_
  end.
Definition strim (m : cmem) (s : Z) : res (Z * cmem) :=
  let! s := skip_spaces m s in
  let! n := strlen m s in
  if n =? 0 then Ret (s, m)
  else
    let! end_ := strim_loop (turns m) m s (s + n - 1) in
    let! m := wr m (end_ + 1) 0 in
    Ret (s, m).

(** The inner loop of [strspn], [strcspn] and [strpbrk]: where [x] is in the string, or its final zero. *)
Fixpoint find_in (fuel : nat) (m : cmem) (a x : Z) : res bool :=
  match fuel with
  | O => OutOfFuel
  | S fuel =>
      let! c := rd m a in
      if c =? 0 then Ret false else if x =? c then Ret true else find_in fuel m (a + 1) x
  end.
Fixpoint strspn_loop (fuel : nat) (m : cmem) (p accept count : Z) : res Z :=
  match fuel with
  | O => OutOfFuel
  | S fuel =>
      let! x := rd m p in
      if x =? 0 then Ret count
      else
        let! found := find_in (turns m) m accept x in
        if negb found then Ret count else strspn_loop fuel m (p + 1) accept (count + 1)
  end.
Definition strspn (m : cmem) (s accept : Z) : res Z := strspn_loop (turns m) m s accept 0.
Fixpoint strcspn_loop (fuel : nat) (m : cmem) (p reject count : Z) : res Z :=
  match fuel with
  | O => OutOfFuel
  | S fuel =>
      let! x := rd m p in
      if x =? 0 then Ret count
      else
        let! found := find_in (turns m) m reject x in
        if found then Ret count else strcspn_loop fuel m (p + 1) reject (count + 1)
  end.
Definition strcspn (m : cmem) (s reject : Z) : res Z := strcspn_loop (turns m) m s reject 0.
Fixpoint strpbrk_loop (fuel : nat) (m : cmem) (sc1 ct : Z) : res Z :=
  match fuel with
  | O => OutOfFuel
  | S fuel =>
      let! x := rd m sc1 in
      if x =? 0 then Ret NULL
      else
        let! found := find_in (turns m) m ct x in
        if found then Ret sc1 else strpbrk_loop fuel m (sc1 + 1) ct
  end.
Definition strpbrk (m : cmem) (cs ct : Z) : res Z := strpbrk_loop (turns m) m cs ct.

(** [strsep(&s, ct)]: the result, the new [s] and the memory. *)
Definition strsep (m : cmem) (s ct : Z) : res (Z * Z * cmem) :=
  if s =? NULL then Ret (NULL, s, m)
  else
    let! end_ := strpbrk m s ct in
    if end_ =? NULL then Ret (s, end_, m)
    else let! m := wr m end_ 0 in Ret (s, end_ + 1, m).

Fixpoint streq_skip (fuel : nat) (m : cmem) (s1 s2 : Z) : res (Z * Z) :=
  match fuel with
  | O => OutOfFuel
  | S fuel =>
      let! c1 := rd m s1 in
      if c1 =? 0 then Ret (s1, s2)
      else let! c2 := rd m s2 in if c1 =? c2 then streq_skip fuel m (s1 + 1) (s2 + 1) else Ret (s1, s2)
  end.
Definition sysfs_streq (m : cmem) (s1 s2 : Z) : res bool :=
  let! (s1, s2) := streq_skip (turns m) m s1 s2 in
  let! c1 := rd m s1 in
  let! c2 := rd m s2 in
  if c1 =? c2 then Ret true
  else
    let! nl2 := (if (c1 =? 0) && (c2 =? 10) then let! d := rd m (s2 + 1) in Ret (d =? 0) else Ret false) in
    if nl2 then Ret true
    else if c1 =? 10 then let! d := rd m (s1 + 1) in Ret ((d =? 0) && (c2 =? 0))
    else Ret false.

Fixpoint memset_loop (fuel : nat) (m : cmem) (xs c count : Z) : res cmem :=
  match fuel with
  | O => OutOfFuel
  | S fuel => if count =? 0 then Ret m else let! m := wr m xs c in memset_loop fuel m (xs + 1) c (count - 1)
  end.
Definition memset (m : cmem) (s c count : Z) : res cmem := memset_loop (turns m) m s c count.

(** while (count--) *tmp++ = *s++; *)
Fixpoint copy_up (fuel : nat) (m : cmem) (tmp s count : Z) : res cmem :=
  match fuel with
  | O => OutOfFuel
  | S fuel =>
      if count =? 0 then Ret m
      else let! c := rd m s in let! m := wr m tmp c in copy_up fuel m (tmp + 1) (s + 1) (count - 1)
  end.
(** while (count--) *--tmp = *--s; *)
Fixpoint copy_down (fuel : nat) (m : cmem) (tmp s count : Z) : res cmem :=
  match fuel with
  | O => OutOfFuel
  | S fuel =>
      if count =? 0 then Ret m
      else let! c := rd m (s - 1) in let! m := wr m (tmp - 1) c in copy_down fuel m (tmp - 1) (s - 1) (count - 1)
  end.
Definition memmove (m : cmem) (dest src count : Z) : res cmem :=
  if dest <=? src then copy_up (turns m) m dest src count
  else copy_down (turns m) m (dest + count) (src + count) count.

Fixpoint memcmp_loop (fuel : nat) (m : cmem) (su1 su2 count : Z) : res Z :=
  match fuel with
  | O => OutOfFuel
  | S fuel =>
      if 0 <? count then
        let! a := rd m su1 in
        let! b := rd m su2 in
        if negb (a - b =? 0) then Ret (a - b) else memcmp_loop fuel m (su1 + 1) (su2 + 1) (count - 1)
      else Ret 0
  end.
Definition memcmp (m : cmem) (cs ct count : Z) : res Z := memcmp_loop (turns m) m cs ct count.

Fixpoint memscan_loop (fuel : nat) (m : cmem) (p c sz : Z) : res Z :=
  match fuel with
  | O => OutOfFuel
  | S fuel =>
      if sz =? 0 then Ret p else let! x := rd m p in if x =? c then Ret p else memscan_loop fuel m (p + 1) c (sz - 1)
  end.
Definition memscan (m : cmem) (addr c sz : Z) : res Z := memscan_loop (turns m) m addr c sz.

Fixpoint memchr_loop (fuel : nat) (m : cmem) (p c n : Z) : res Z :=
  match fuel with
  | O => OutOfFuel
  | S fuel =>
      if n =? 0 then Ret NULL else let! x := rd m p in if u8 c =? x then Ret p else memchr_loop fuel m (p + 1) c (n - 1)
  end.
Definition memchr (m : cmem) (s c n : Z) : res Z := memchr_loop (turns m) m s c n.

(** The loop of [strstr] and [strnstr]: compare at [s1] while enough of it is left. *)
Fixpoint strstr_loop (fuel : nat) (m : cmem) (s1 s2 l1 l2 : Z) : res Z :=
  match fuel with
  | O => OutOfFuel
  | S fuel =>
      if l2 <=? l1 then
        let l1 := l1 - 1 in
        let! d := memcmp m s1 s2 l2 in
        if d =? 0 then Ret s1 else strstr_loop fuel m (s1 + 1) s2 l1 l2
      else Ret NULL
  end.
Definition strstr (m : cmem) (s1 s2 : Z) : res Z :=
  let! l2 := strlen m s2 in
  if l2 =? 0 then Ret s1
  else let! l1 := strlen m s1 in strstr_loop (turns m) m s1 s2 l1 l2.
Definition strnstr (m : cmem) (s1 s2 len : Z) : res Z :=
  let! l2 := strlen m s2 in
  if l2 =? 0 then Ret s1 else strstr_loop (turns m) m s1 s2 len l2.
