(* ===== verification/CStringSpec.v ===== *)
(** * What the string functions do

    The functions of CString.v on strings and blocks of bytes, each against its meaning on
    lists. *)
From S2P Require Import Prelude CString.

(** ** Bytes in memory *)

(** The bytes [l] are at [p] and the addresses after it. *)
Definition bytes_at (m : cmem) (p : Z) (l : list Z) : Prop :=
  forall (i : nat) c, l !! i = Some c -> m !! (p + Z.of_nat i) = Some c.
(** The [n] addresses from [p] can be written. *)
Definition mapped (m : cmem) (p n : Z) : Prop := forall a, p <= a < p + n -> is_Some (m !! a).
(** A string: characters and the final zero. *)
Definition chars (s : list Z) : Prop := Forall (fun c => 0 < c < 256) s.
Definition str_at (m : cmem) (p : Z) (s : list Z) : Prop := chars s /\ bytes_at m p (s ++ [0]).
(** The memory with [l] written to [p]. *)
Fixpoint wbytes (m : cmem) (p : Z) (l : list Z) : cmem :=
  match l with
  | [] => m
  | c :: l => wbytes (<[p := c]> m) (p + 1) l
  end.
Notation len l := (Z.of_nat (length l)).
Definition apart (p n q k : Z) : Prop := p + n <= q \/ q + k <= p.

Lemma bytes_at_cons (m : cmem) (p c : Z) (l : list Z) : bytes_at m p (c :: l) <-> m !! p = Some c /\ bytes_at m (p + 1) l.
Proof.
  unfold bytes_at. split.
  - intros H. split.
    + pose proof (H O c eq_refl) as H0. by rewrite Z.add_0_r in H0.
    + intros i d E. specialize (H (S i) d E). by replace (p + 1 + Z.of_nat i) with (p + Z.of_nat (S i)) by lia.
  - intros [H0 H] [|i] d E; cbn in E.
    + injection E as <-. by rewrite Z.add_0_r.
    + replace (p + Z.of_nat (S i)) with (p + 1 + Z.of_nat i) by lia. by apply H.
Qed.
Lemma bytes_at_app (m : cmem) (p : Z) (l k : list Z) : bytes_at m p (l ++ k) <-> bytes_at m p l /\ bytes_at m (p + len l) k.
Proof.
  revert p. induction l as [|c l IH]; intros p; cbn [app length].
  - rewrite Z.add_0_r. split; [|tauto]. intros H. split; [by intros i d E|done].
  - rewrite !bytes_at_cons, IH. replace (p + Z.of_nat (S (length l))) with (p + 1 + len l) by lia. tauto.
Qed.
Lemma bytes_at_insert (m : cmem) (p q v : Z) (l : list Z) :
  bytes_at m p l -> q < p \/ p + len l <= q -> bytes_at (<[q := v]> m) p l.
Proof. intros H Hq i c E. rewrite lookup_insert_ne; [by apply H|]. apply lookup_lt_Some in E. lia. Qed.
Lemma bytes_mapped (m : cmem) (p : Z) (l : list Z) : bytes_at m p l -> mapped m p (len l).
Proof.
  intros H a Ha. assert (Z.to_nat (a - p) < length l)%nat as [c E]%lookup_lt_is_Some by lia.
  exists c. specialize (H _ _ E). by replace (p + Z.of_nat (Z.to_nat (a - p))) with a in H by lia.
Qed.
Lemma mapped_insert (m : cmem) (p n q v : Z) : mapped m p n -> mapped (<[q := v]> m) p n.
Proof. intros H a Ha. apply lookup_insert_is_Some. destruct (decide (q = a)); [by left|right; auto]. Qed.
Lemma mapped_weaken (m : cmem) (p n q k : Z) : mapped m p n -> p <= q -> q + k <= p + n -> mapped m q k.
Proof. intros H ? ? a Ha. apply H. lia. Qed.

(** A loop over mapped addresses ends in time. *)
Lemma mapped_size (m : cmem) (p n : Z) : 0 <= n -> mapped m p n -> n <= Z.of_nat (size m).
Proof.
  intros Hn H. assert (list_to_set (seqZ p n) ⊆ dom m) as Hs.
  { intros a Ha%elem_of_list_to_set%elem_of_seqZ. apply elem_of_dom, H. lia. }
  apply subseteq_size in Hs. rewrite size_dom, size_list_to_set, length_seqZ in Hs by apply NoDup_seqZ. lia.
Qed.
Lemma bytes_turns (m : cmem) (p : Z) (l : list Z) : bytes_at m p l -> (S (length l) < turns m)%nat.
Proof. intros H%bytes_mapped%mapped_size; [|lia]. unfold turns. lia. Qed.
Lemma mapped_turns (m : cmem) (p n : Z) : 0 <= n -> mapped m p n -> (S (Z.to_nat n) < turns m)%nat.
Proof. intros Hn H%mapped_size; [|done]. unfold turns. lia. Qed.

Lemma lookup_wbytes (m : cmem) (p : Z) (l : list Z) (a : Z) :
  wbytes m p l !! a = if decide (p <= a < p + len l) then l !! Z.to_nat (a - p) else m !! a.
Proof.
  revert m p. induction l as [|c l IH]; intros m p; cbn [wbytes length].
  - case_decide; [lia|done].
  - rewrite IH. repeat case_decide; try lia.
    + replace (Z.to_nat (a - p)) with (S (Z.to_nat (a - (p + 1)))) by lia. done.
    + assert (a = p) as -> by lia. rewrite lookup_insert_eq. by replace (Z.to_nat (p - p)) with O by lia.
    + rewrite lookup_insert_ne; [done|lia].
Qed.
Lemma wbytes_app (m : cmem) (p : Z) (l k : list Z) : wbytes m p (l ++ k) = wbytes (wbytes m p l) (p + len l) k.
Proof.
  revert m p. induction l as [|c l IH]; intros m p; cbn [wbytes app length]; [by rewrite Z.add_0_r|].
  rewrite IH. f_equal. lia.
Qed.
(** The order of writes to different addresses does not matter. *)
Lemma wbytes_snoc (m : cmem) (p c : Z) (l : list Z) : wbytes (<[p + len l := c]> m) p l = wbytes m p (l ++ [c]).
Proof.
  apply map_eq. intros a. rewrite wbytes_app. cbn [wbytes]. rewrite lookup_wbytes.
  destruct (decide (a = p + len l)) as [->|N].
  - rewrite decide_False by lia. by rewrite !lookup_insert_eq.
  - rewrite !lookup_insert_ne, lookup_wbytes by done. done.
Qed.
Lemma bytes_at_wbytes (m : cmem) (p : Z) (l : list Z) : bytes_at (wbytes m p l) p l.
Proof.
  intros i c E. pose proof (lookup_lt_Some _ _ _ E). rewrite lookup_wbytes, decide_True by lia.
  by replace (Z.to_nat (p + Z.of_nat i - p)) with i by lia.
Qed.
Lemma bytes_at_wbytes_ne (m : cmem) (p q : Z) (l k : list Z) :
  bytes_at m p l -> apart p (len l) q (len k) -> bytes_at (wbytes m q k) p l.
Proof.
  intros H Ha i c E. pose proof (lookup_lt_Some _ _ _ E). rewrite lookup_wbytes, decide_False; [by apply H|].
  unfold apart in Ha. lia.
Qed.
Lemma mapped_wbytes (m : cmem) (p n q : Z) (k : list Z) : mapped m p n -> mapped (wbytes m q k) p n.
Proof.
  intros H a Ha. rewrite lookup_wbytes. case_decide; [apply lookup_lt_is_Some; lia|by apply H].
Qed.

Lemma rd_bytes (m : cmem) (p c : Z) (l : list Z) : bytes_at m p (c :: l) -> rd m p = Ret c.
Proof. intros [H _]%bytes_at_cons. unfold rd. by rewrite H. Qed.
Lemma wr_run (m : cmem) (p c n : Z) : mapped m p n -> 0 < n -> in_u 8 c -> wr m p c = Ret (<[p := c]> m).
Proof. intros H Hn Hc. unfold wr. destruct (H p) as [x E]; [lia|]. rewrite E. cbn [deref res_bind]. by rewrite (wrap_id 8 c Hc). Qed.
Lemma char_u8 (c : Z) : 0 < c < 256 -> in_u 8 c.
Proof. intros. pow_lia. Qed.

Lemma str_at_cons (m : cmem) (p c : Z) (s : list Z) : str_at m p (c :: s) <-> 0 < c < 256 /\ m !! p = Some c /\ str_at m (p + 1) s.
Proof. unfold str_at, chars. cbn [app]. rewrite bytes_at_cons, Forall_cons. tauto. Qed.
Lemma str_at_nil (m : cmem) (p : Z) : str_at m p [] <-> m !! p = Some 0.
Proof.
  unfold str_at, chars. cbn [app]. rewrite bytes_at_cons. split; [tauto|]. intros H. split_and!; [constructor|done|by intros i d E].
Qed.
Lemma str_turns (m : cmem) (p : Z) (s : list Z) : str_at m p s -> (S (S (length s)) < turns m)%nat.
Proof. intros [_ H%bytes_turns]. rewrite length_app in H. cbn in H. lia. Qed.

(** ** Blocks *)

(** Steps a loop at a string or block that is not finished. *)
Ltac rd_at H := rewrite (rd_bytes _ _ _ _ H); cbn [res_bind].

Lemma copy_up_spec (l : list Z) (m : cmem) (tmp s : Z) (fuel : nat) :
  bytes_at m s l -> mapped m tmp (len l) -> Forall (in_u 8) l -> tmp <= s \/ s + len l <= tmp -> (length l < fuel)%nat ->
  copy_up fuel m tmp s (len l) = Ret (wbytes m tmp l).
Proof.
  revert m tmp s fuel. induction l as [|c l IH]; intros m tmp s fuel H Hm Hu Ho Hf; (destruct fuel as [|fuel]; [cbn in Hf; lia|]);
    cbn [copy_up length wbytes]; [done|]. rewrite (proj2 (Z.eqb_neq _ 0)) by lia. rd_at H.
  apply Forall_cons in Hu as [Hc Hu]. cbn [length] in *. rewrite (wr_run m tmp c _ Hm) by (done || lia). cbn [res_bind].
  apply bytes_at_cons in H as [_ H]. replace (Z.of_nat (S (length l)) - 1) with (len l) by lia.
  apply IH; [|apply mapped_insert; eapply mapped_weaken; [done|lia..]|done|lia..]. apply bytes_at_insert; [done|lia].
Qed.
Lemma copy_down_spec (l : list Z) (m : cmem) (tmp s : Z) (fuel : nat) :
  bytes_at m s l -> mapped m tmp (len l) -> Forall (in_u 8) l -> s <= tmp -> (length l < fuel)%nat ->
  copy_down fuel m (tmp + len l) (s + len l) (len l) = Ret (wbytes m tmp l).
Proof.
  revert m fuel. induction l as [|c l IH] using rev_ind; intros m fuel H Hm Hu Ho Hf; (destruct fuel as [|fuel]; [lia|]);
    cbn [copy_down]; [done|]. rewrite length_app in *. cbn [length] in *. rewrite (proj2 (Z.eqb_neq _ 0)) by lia.
  apply bytes_at_app in H as [H Hc]. apply Forall_app in Hu as [Hu Hc']. rewrite Forall_singleton in Hc'.
  replace (s + Z.of_nat (length l + 1) - 1) with (s + len l) by lia. rd_at Hc.
  replace (tmp + Z.of_nat (length l + 1) - 1) with (tmp + len l) by lia.
  rewrite (wr_run m (tmp + len l) c 1) by (done || lia || (eapply mapped_weaken; [done|lia..])). cbn [res_bind].
  replace (Z.of_nat (length l + 1) - 1) with (len l) by lia.
  rewrite IH; [by rewrite wbytes_snoc| |apply mapped_insert; eapply mapped_weaken; [done|lia..]|done|lia|lia].
  apply bytes_at_insert; [done|lia].
Qed.

(** [memmove] leaves at [dest] the bytes that were at [src], however the two overlap, and changes
    nothing else; it reads and writes these bytes only. *)
Theorem memmove_correct (m : cmem) (dest src : Z) (l : list Z) :
  bytes_at m src l -> mapped m dest (len l) -> Forall (in_u 8) l -> memmove m dest src (len l) = Ret (wbytes m dest l).
Proof.
  intros H Hm Hu. pose proof (bytes_turns _ _ _ H). unfold memmove. destruct (Z.leb_spec dest src).
  - apply copy_up_spec; [done..|lia|lia].
  - apply copy_down_spec; [done..|lia|lia].
Qed.

Lemma rdn_spec (l : list Z) (m : cmem) (p : Z) : bytes_at m p l -> rdn (length l) m p = Ret l.
Proof.
  revert p. induction l as [|c l IH]; intros p H; [done|]. cbn [rdn length]. rd_at H.
  apply bytes_at_cons in H as [_ H]. by rewrite (IH _ H).
Qed.
Lemma wrn_spec (l : list Z) (m : cmem) (p : Z) : mapped m p (len l) -> Forall (in_u 8) l -> wrn m p l = Ret (wbytes m p l).
Proof.
  revert m p. induction l as [|c l IH]; intros m p Hm Hu; [done|]. apply Forall_cons in Hu as [Hc Hu]. cbn [wrn length wbytes] in *.
  rewrite (wr_run m p c _ Hm) by (done || lia). cbn [res_bind]. apply IH; [|done]. apply mapped_insert. eapply mapped_weaken; [done|lia..].
Qed.
Lemma do_copy_spec (sz : Z) (fuel : nat) (m : cmem) (dest src : Z) (l : list Z) :
  0 < sz -> bytes_at m src l -> mapped m dest (len l) -> Forall (in_u 8) l -> dest <= src \/ src + len l <= dest -> (length l < fuel)%nat ->
  exists l1 l2, l = l1 ++ l2 /\ len l2 < sz /\
    do_copy sz fuel m dest src (len l) = Ret (wbytes m dest l1, dest + len l1, src + len l1, len l2).
Proof.
  intros Hsz. revert m dest src l. induction fuel as [|fuel IH]; intros m dest src l H Hm Hu Ho Hf; [lia|]. cbn [do_copy].
  destruct (Z.leb_spec sz (len l)) as [Hle|Hlt].
  2: { exists [], l. split_and!; [done..|]. cbn [wbytes length]. by rewrite !Z.add_0_r. }
  assert (exists k r, l = k ++ r /\ len k = sz) as (k & r & -> & Ek).
  { exists (take (Z.to_nat sz) l), (drop (Z.to_nat sz) l). rewrite take_drop, length_take. split; [done|lia]. }
  rewrite length_app in *. apply bytes_at_app in H as [Hk Hr]. apply Forall_app in Hu as [Huk Hur].
  replace (Z.to_nat sz) with (length k) by lia. rewrite (rdn_spec k m src Hk). cbn [res_bind].
  rewrite (wrn_spec k m dest) by (done || (eapply mapped_weaken; [done|lia..])). cbn [res_bind].
  replace (Z.of_nat (length k + length r) - sz) with (len r) by lia.
  destruct (IH (wbytes m dest k) (dest + sz) (src + sz) r) as (l1 & l2 & -> & Hl2 & E).
  - rewrite <- Ek. apply bytes_at_wbytes_ne; [done|unfold apart; lia].
  - apply mapped_wbytes. eapply mapped_weaken; [done|lia..].
  - done.
  - lia.
  - lia.
  - exists (k ++ l1), l2. split_and!; [by rewrite app_assoc|done|]. rewrite E, wbytes_app, length_app, Ek, Nat2Z.inj_add, Ek, !Z.add_assoc. done.
Qed.
(** The copy by words and then by bytes. *)
Lemma memcpy_spec (m : cmem) (dest src : Z) (l : list Z) :
  bytes_at m src l -> mapped m dest (len l) -> Forall (in_u 8) l -> dest <= src \/ src + len l <= dest ->
  memcpy m dest src (len l) = Ret (wbytes m dest l).
Proof.
  intros H Hm Hu Ho. pose proof (bytes_turns _ _ _ H) as Ht. unfold memcpy.
  destruct (do_copy_spec 8 (turns m) m dest src l) as (l1 & l2 & -> & _ & ->); [lia|done..|lia|]. cbn [res_bind].
  rewrite length_app in *. apply bytes_at_app in H as [_ H]. apply Forall_app in Hu as [_ Hu].
  assert (turns (wbytes m dest l1) = turns m) as Et.
  { unfold turns. do 2 f_equal. rewrite <- !size_dom. f_equal. apply set_eq. intros a. rewrite !elem_of_dom, lookup_wbytes.
    case_decide; [|done]. split; [intros _; apply Hm; lia|intros _; apply lookup_lt_is_Some; lia]. }
  rewrite Et.
  destruct (do_copy_spec 1 (turns m) (wbytes m dest l1) (dest + len l1) (src + len l1) l2) as (l3 & l4 & -> & Hl4 & ->);
    [lia|apply bytes_at_wbytes_ne; [done|unfold apart; lia]|apply mapped_wbytes; eapply mapped_weaken; [done|lia..]|done|lia|lia|].
  cbn [res_bind]. destruct l4; [|cbn in Hl4; lia]. rewrite app_nil_r. by rewrite wbytes_app.
Qed.
Lemma memset_loop_spec (n fuel : nat) (m : cmem) (s c : Z) :
  mapped m s (Z.of_nat n) -> (n < fuel)%nat -> memset_loop fuel m s c (Z.of_nat n) = Ret (wbytes m s (replicate n (u8 c))).
Proof.
  revert m s fuel. induction n as [|n IH]; intros m s fuel H Ht; (destruct fuel as [|fuel]; [lia|]); cbn [memset_loop]; [done|].
  rewrite (proj2 (Z.eqb_neq _ 0)) by lia. unfold wr at 1. destruct (H s) as [x E]; [lia|]. rewrite E. cbn [deref res_bind].
  replace (Z.of_nat (S n) - 1) with (Z.of_nat n) by lia. rewrite IH; [done| |lia].
  apply mapped_insert. eapply mapped_weaken; [done|lia..].
Qed.
Lemma memset_spec (m : cmem) (s c : Z) (n : nat) : mapped m s (Z.of_nat n) -> memset m s c (Z.of_nat n) = Ret (wbytes m s (replicate n (u8 c))).
Proof. intros H. pose proof (mapped_turns m s (Z.of_nat n) ltac:(lia) H). apply memset_loop_spec; [done|lia]. Qed.

(** [memcmp]: the difference of the first bytes that differ. *)
Fixpoint first_diff (l k : list Z) : Z :=
  match l, k with
  | a :: l, b :: k => if a =? b then first_diff l k else a - b
  | _, _ => 0
  end.
Lemma memcmp_loop_spec (l k : list Z) (m : cmem) (p q : Z) (fuel : nat) :
  bytes_at m p l -> bytes_at m q k -> length l = length k -> (length l < fuel)%nat ->
  memcmp_loop fuel m p q (len l) = Ret (first_diff l k).
Proof.
  revert k p q fuel. induction l as [|a l IH]; intros [|b k] p q fuel H1 H2 E Hf; try discriminate;
    (destruct fuel as [|fuel]; [cbn in Hf; lia|]); cbn [memcmp_loop first_diff]; [done|].
  cbn [length] in *. rewrite (proj2 (Z.ltb_lt 0 _)) by lia. rd_at H1. rd_at H2.
  apply bytes_at_cons in H1 as [_ H1]. apply bytes_at_cons in H2 as [_ H2].
  destruct (Z.eqb_spec a b) as [->|N].
  - rewrite Z.sub_diag. cbn [Z.eqb negb]. replace (Z.of_nat (S (length l)) - 1) with (len l) by lia. apply IH; [done..|lia|lia].
  - rewrite (proj2 (Z.eqb_neq (a - b) 0)) by lia. done.
Qed.
Lemma memcmp_spec (l k : list Z) (m : cmem) (p q : Z) :
  bytes_at m p l -> bytes_at m q k -> length l = length k -> memcmp m p q (len l) = Ret (first_diff l k).
Proof. intros H1 H2 E. pose proof (bytes_turns _ _ _ H1). apply memcmp_loop_spec; [done..|lia]. Qed.
Lemma first_diff_0 (l k : list Z) : length l = length k -> first_diff l k = 0 <-> l = k.
Proof.
  revert k. induction l as [|a l IH]; intros [|b k] E; try discriminate; cbn [first_diff]; [done|]. injection E as E.
  destruct (Z.eqb_spec a b) as [->|N].
  - rewrite IH by done. split; [by intros ->|by intros [= ->]].
  - split; [lia|intros [= ]; lia].
Qed.

(** ** Strings *)

Lemma strlen_loop_spec (s : list Z) (m : cmem) (p : Z) (fuel : nat) :
  str_at m p s -> (length s < fuel)%nat -> strlen_loop fuel m p = Ret (p + len s).
Proof.
  revert p fuel. induction s as [|c s IH]; intros p fuel [Hc H] Hf; (destruct fuel as [|fuel]; [cbn in Hf; lia|]);
    cbn [strlen_loop length] in *; cbn [app] in H; rd_at H.
  - by rewrite Z.add_0_r.
  - apply Forall_cons in Hc as [Hc Hs]. apply bytes_at_cons in H as [_ H]. rewrite (proj2 (Z.eqb_neq c 0)) by lia.
    rewrite IH; [f_equal; lia|by split|lia].
Qed.
Lemma strlen_spec (m : cmem) (p : Z) (s : list Z) : str_at m p s -> strlen m p = Ret (len s).
Proof.
  intros H. pose proof (str_turns _ _ _ H). unfold strlen. rewrite (strlen_loop_spec s) by (done || lia).
  cbn [res_bind]. f_equal. lia.
Qed.
Lemma str_end_spec (s : list Z) (m : cmem) (p : Z) (fuel : nat) :
  str_at m p s -> (length s < fuel)%nat -> str_end fuel m p = Ret (p + len s).
Proof.
  intros H Hf. rewrite <- (strlen_loop_spec s m p fuel H Hf). clear. revert p. induction fuel as [|fuel IH]; intros p; [done|]. cbn [str_end strlen_loop].
  destruct (rd m p); cbn [res_bind]; [|done..]. by rewrite IH.
Qed.

(** The bytes of [s] before its end or the first [n] of them, whichever is shorter. *)
Lemma strnlen_loop_spec (s : list Z) (m : cmem) (p n : Z) (fuel : nat) :
  in_u 64 n -> chars s -> bytes_at m p (take (Z.to_nat n) (s ++ [0])) -> (Z.to_nat (Z.min n (len s)) < fuel)%nat ->
  strnlen_loop fuel m p n = Ret (p + Z.min n (len s)).
Proof.
  revert p n fuel. induction s as [|c s IH]; intros p n fuel Hn Hc H Hf; (destruct fuel as [|fuel]; [cbn in Hf; lia|]);
    cbn [strnlen_loop]; (destruct (Z.eqb_spec n 0) as [->|N0]; [cbn [length]; f_equal; lia|]);
    (assert (0 < n < 2 ^ 64) as Hn' by pow_lia); rewrite (wrap_id 64 (n - 1)) by pow_lia;
    replace (Z.to_nat n) with (S (Z.to_nat (n - 1))) in H by lia; cbn [app take] in H; rd_at H.
  - cbn [length]. f_equal. lia.
  - apply Forall_cons in Hc as [Hc Hs]. apply bytes_at_cons in H as [_ H]. rewrite (proj2 (Z.eqb_neq c 0)) by lia.
    cbn [length] in *. rewrite IH; [f_equal; lia|pow_lia|done|done|lia].
Qed.
Lemma strnlen_spec (s : list Z) (m : cmem) (p n : Z) :
  in_u 64 n -> chars s -> bytes_at m p (take (Z.to_nat n) (s ++ [0])) -> strnlen m p n = Ret (Z.min n (len s)).
Proof.
  intros Hn Hc H. pose proof (bytes_turns _ _ _ H) as Ht. rewrite length_take, length_app in Ht. cbn [length] in Ht.
  assert (0 <= n) by pow_lia. unfold strnlen. rewrite (wrap_id 64 n Hn), (strnlen_loop_spec s) by (done || lia).
  cbn [res_bind]. f_equal. lia.
Qed.

(** The order of strings, by the first characters that differ. *)
Fixpoint str_order (s t : list Z) : Z :=
  match s, t with
  | [], [] => 0
  | [], _ :: _ => -1
  | _ :: _, [] => 1
  | a :: s, b :: t => if a =? b then str_order s t else if a <? b then -1 else 1
  end.
Lemma str_order_0 (s t : list Z) : str_order s t = 0 <-> s = t.
Proof.
  revert t. induction s as [|a s IH]; intros [|b t]; cbn; try done. destruct (Z.eqb_spec a b) as [->|N].
  - rewrite IH. split; [by intros ->|by intros [= ->]].
  - split; [by destruct (a <? b)|intros [= ]; lia].
Qed.
Lemma str_order_antisym (s t : list Z) : str_order t s = - str_order s t.
Proof.
  revert t. induction s as [|a s IH]; intros [|b t]; cbn; try done. rewrite (Z.eqb_sym b a).
  destruct (Z.eqb_spec a b); [apply IH|]. destruct (Z.ltb_spec a b), (Z.ltb_spec b a); lia.
Qed.
Lemma strncmp_loop_spec (s t : list Z) (m : cmem) (p q : Z) (n fuel : nat) :
  str_at m p s -> str_at m q t -> (length s < fuel)%nat ->
  strncmp_loop fuel m p q (Z.of_nat n) = Ret (str_order (take n s) (take n t)).
Proof.
  revert t p q n fuel. induction s as [|a s IH]; intros [|b t] p q [|n] fuel H1 H2 Hf; (destruct fuel as [|fuel]; [cbn in Hf; lia|]);
    cbn [strncmp_loop]; try done; rewrite (proj2 (Z.eqb_neq _ 0)) by lia; cbn [take str_order];
    pose proof H1 as [_ R1]; pose proof H2 as [_ R2]; cbn [app] in R1, R2; rd_at R1; rd_at R2; [done|..].
  - apply str_at_cons in H2 as [Hb _]. rewrite (proj2 (Z.eqb_neq 0 b)), (proj2 (Z.ltb_lt 0 b)) by lia. done.
  - apply str_at_cons in H1 as [Ha _]. rewrite (proj2 (Z.eqb_neq a 0)), (proj2 (Z.ltb_ge a 0)) by lia. done.
  - apply str_at_cons in H1 as (Ha & _ & H1). apply str_at_cons in H2 as (Hb & _ & H2).
    destruct (Z.eqb_spec a b) as [->|N]; cbn [negb]; [|done]. rewrite (proj2 (Z.eqb_neq b 0)) by lia.
    replace (Z.of_nat (S n) - 1) with (Z.of_nat n) by lia. apply IH; [done..|cbn in Hf; lia].
Qed.
Lemma strcmp_loop_spec (s t : list Z) (m : cmem) (p q : Z) (fuel : nat) :
  str_at m p s -> str_at m q t -> (length s < fuel)%nat -> strcmp_loop fuel m p q = Ret (str_order s t).
Proof.
  revert t p q fuel. induction s as [|a s IH]; intros [|b t] p q fuel H1 H2 Hf; (destruct fuel as [|fuel]; [cbn in Hf; lia|]);
    cbn [strcmp_loop str_order]; pose proof H1 as [_ R1]; pose proof H2 as [_ R2]; cbn [app] in R1, R2; rd_at R1; rd_at R2; [done|..].
  - apply str_at_cons in H2 as [Hb _]. rewrite (proj2 (Z.eqb_neq 0 b)), (proj2 (Z.ltb_lt 0 b)) by lia. done.
  - apply str_at_cons in H1 as [Ha _]. rewrite (proj2 (Z.eqb_neq a 0)), (proj2 (Z.ltb_ge a 0)) by lia. done.
  - apply str_at_cons in H1 as (Ha & _ & H1). apply str_at_cons in H2 as (Hb & _ & H2).
    destruct (Z.eqb_spec a b) as [->|N]; cbn [negb]; [|done]. rewrite (proj2 (Z.eqb_neq b 0)) by lia.
    apply IH; [done..|cbn in Hf; lia].
Qed.
Lemma strcmp_spec (s t : list Z) (m : cmem) (p q : Z) : str_at m p s -> str_at m q t -> strcmp m p q = Ret (str_order s t).
Proof. intros H1 H2. pose proof (str_turns _ _ _ H1). apply strcmp_loop_spec; [done..|lia]. Qed.
Lemma strncmp_spec (s t : list Z) (m : cmem) (p q : Z) (n : nat) :
  str_at m p s -> str_at m q t -> strncmp m p q (Z.of_nat n) = Ret (str_order (take n s) (take n t)).
Proof. intros H1 H2. pose proof (str_turns _ _ _ H1). apply strncmp_loop_spec; [done..|lia]. Qed.

(** *** Copies *)

Lemma chars_u8 (s : list Z) : chars s -> Forall (in_u 8) s.
Proof. intros H. eapply Forall_impl; [exact H|]. intros c. apply char_u8. Qed.
Lemma chars_app (s t : list Z) : chars (s ++ t) <-> chars s /\ chars t.
Proof. apply Forall_app. Qed.
Lemma chars_take (n : nat) (s : list Z) : chars s -> chars (take n s).
Proof. apply Forall_take. Qed.
Lemma zero_u8 : in_u 8 0.
Proof. pow_lia. Qed.

Lemma strcpy_loop_spec (s : list Z) (m : cmem) (dest src : Z) (fuel : nat) :
  str_at m src s -> mapped m dest (len s + 1) -> dest <= src \/ src + len s + 1 <= dest -> (length s < fuel)%nat ->
  strcpy_loop fuel m dest src = Ret (wbytes m dest (s ++ [0])).
Proof.
  revert m dest src fuel. induction s as [|c s IH]; intros m dest src fuel H Hm Ho Hf; (destruct fuel as [|fuel]; [cbn in Hf; lia|]);
    cbn [strcpy_loop app wbytes length] in *; pose proof H as [_ R]; cbn [app] in R; rd_at R.
  - rewrite (wr_run m dest 0 _ Hm) by (first [apply zero_u8 | lia]). done.
  - apply str_at_cons in H as (Hc & _ & Hs). rewrite (wr_run m dest c _ Hm) by (first [apply char_u8; lia | lia]). cbn [res_bind].
    rewrite (proj2 (Z.eqb_neq c 0)) by lia. apply IH; [|apply mapped_insert; eapply mapped_weaken; [done|lia..]|lia|lia].
    destruct Hs as [Hs R']. split; [done|]. apply bytes_at_insert; [done|]. rewrite length_app. cbn. lia.
Qed.
Lemma strcpy_spec (s : list Z) (m : cmem) (dest src : Z) :
  str_at m src s -> mapped m dest (len s + 1) -> dest <= src \/ src + len s + 1 <= dest ->
  strcpy m dest src = Ret (wbytes m dest (s ++ [0])).
Proof. intros H Hm Ho. pose proof (str_turns _ _ _ H). apply strcpy_loop_spec; [done..|lia]. Qed.

Lemma strncpy_loop_spec (s : list Z) (m : cmem) (tmp src : Z) (n fuel : nat) :
  str_at m src s -> mapped m tmp (Z.of_nat n) -> apart src (len s + 1) tmp (Z.of_nat n) -> (n < fuel)%nat ->
  strncpy_loop fuel m tmp src (Z.of_nat n) = Ret (wbytes m tmp (take n s ++ replicate (n - length s) 0)).
Proof.
  revert s m tmp src fuel. induction n as [|n IH]; intros s m tmp src fuel H Hm Ho Hf; (destruct fuel as [|fuel]; [lia|]); cbn [strncpy_loop].
  - by rewrite Nat.sub_0_l.
  - rewrite (proj2 (Z.eqb_neq _ 0)) by lia. pose proof H as [_ R].
    assert (mapped m (tmp + 1) (Z.of_nat n)) as Hm' by (eapply mapped_weaken; [done|lia..]). unfold apart in *.
    replace (Z.of_nat (S n) - 1) with (Z.of_nat n) by lia.
    destruct s as [|c s]; cbn [app] in R; rd_at R; cbn [length] in *.
    + rewrite (wr_run m tmp 0 _ Hm) by (first [apply zero_u8 | lia]). cbn [res_bind].
      change (0 =? 0) with true. cbn iota. rewrite (IH []); [by destruct n| |by apply mapped_insert|unfold apart; cbn; lia|lia].
      apply str_at_nil. rewrite lookup_insert_ne by lia. by apply str_at_nil.
    + apply str_at_cons in H as (Hc & _ & Hs). rewrite (wr_run m tmp c _ Hm) by (first [apply char_u8; lia | lia]). cbn [res_bind].
      rewrite (proj2 (Z.eqb_neq c 0)) by lia. rewrite (IH s); [done| |by apply mapped_insert|unfold apart; lia|lia].
      destruct Hs as [Hs R']. split; [done|]. apply bytes_at_insert; [done|]. rewrite length_app. cbn. lia.
Qed.

(** What fits of [s] into a block of [sz] bytes, with its final zero. *)
Definition fit (sz : Z) (s : list Z) : list Z := take (Z.to_nat (sz - 1)) s.

Lemma length_fit (sz : Z) (s : list Z) : 0 < sz -> len (fit sz s) = Z.min (sz - 1) (len s).
Proof. intros. unfold fit. rewrite length_take. lia. Qed.
(** The block a string of at most [n] characters is copied from, by [memcpy] and a final zero. *)
Lemma copy_terminate (s : list Z) (m : cmem) (dest src n : Z) :
  str_at m src s -> 0 < n -> mapped m dest (len (fit n s) + 1) -> apart src (len s + 1) dest (len (fit n s) + 1) ->
  (let! m := memcpy m dest src (len (fit n s)) in wr m (dest + len (fit n s)) 0) = Ret (wbytes m dest (fit n s ++ [0])).
Proof.
  intros [Hc H] Hn Hm Ha. unfold apart in Ha. rewrite (length_fit n s Hn) in *.
  assert (bytes_at m src (fit n s)) as Hb.
  { apply bytes_at_app in H as [H _]. unfold fit. rewrite <- (take_drop (Z.to_nat (n - 1)) s) in H. by apply bytes_at_app in H as [H _]. }
  rewrite <- (length_fit n s Hn) in *. rewrite memcpy_spec; [|done|eapply mapped_weaken; [done|lia..]|apply chars_u8; by apply chars_take|].
  2: { rewrite (length_fit n s Hn). rewrite (length_fit n s Hn) in Ha. lia. }
  cbn [res_bind]. rewrite (wr_run _ _ 0 1); [by rewrite wbytes_app| |lia|apply zero_u8].
  apply mapped_wbytes. eapply mapped_weaken; [done|lia..].
Qed.

Lemma strlcpy_spec (s : list Z) (m : cmem) (dest src sz : Z) :
  str_at m src s -> 0 < sz -> mapped m dest (Z.min sz (len s + 1)) -> apart src (len s + 1) dest (Z.min sz (len s + 1)) ->
  strlcpy m dest src sz = Ret (len s, wbytes m dest (fit sz s ++ [0])).
Proof.
  intros H Hs Hm Ha. unfold strlcpy. rewrite (strlen_spec m src s H). cbn [res_bind].
  rewrite (proj2 (Z.eqb_neq sz 0)) by lia. pose proof (length_fit sz s Hs) as Hl.
  replace (if sz <=? len s then sz - 1 else len s) with (len (fit sz s)) by (destruct (Z.leb_spec sz (len s)); lia).
  rewrite <- res_bind_assoc, (copy_terminate s); [done..| |]; rewrite ?Hl; unfold apart in *.
  - eapply mapped_weaken; [done|lia..].
  - lia.
Qed.
Lemma strlcat_spec (d s : list Z) (m : cmem) (dest src count : Z) :
  str_at m dest d -> str_at m src s -> len d < count -> in_u 64 (len d + len s) ->
  mapped m dest count -> apart src (len s + 1) dest count ->
  strlcat m dest src count = Ret (len d + len s, wbytes m (dest + len d) (fit (count - len d) s ++ [0])).
Proof.
  intros Hd H Hc Hu Hm Ha. unfold strlcat. rewrite (strlen_spec m dest d Hd), (strlen_spec m src s H). cbn [res_bind].
  rewrite (wrap_id 64 _ Hu), (proj2 (Z.leb_gt count (len d))) by lia. cbn [BUG_ON res_bind].
  pose proof (length_fit (count - len d) s ltac:(lia)) as Hl.
  replace (if count - len d <=? len s then count - len d - 1 else len s) with (len (fit (count - len d) s))
    by (destruct (Z.leb_spec (count - len d) (len s)); lia).
  rewrite <- res_bind_assoc, (copy_terminate s); [done|done|lia| |]; unfold apart in *.
  - eapply mapped_weaken; [done|lia..].
  - lia.
Qed.

Lemma str_at_wbytes (m : cmem) (p : Z) (s : list Z) : chars s -> str_at (wbytes m p (s ++ [0])) p s.
Proof. intros H. split; [done|apply bytes_at_wbytes]. Qed.
Lemma str_at_wbytes_ne (m : cmem) (p q : Z) (s k : list Z) :
  str_at m p s -> apart p (len s + 1) q (len k) -> str_at (wbytes m q k) p s.
Proof. intros [Hc H] Ha. split; [done|]. apply bytes_at_wbytes_ne; [done|]. rewrite length_app. cbn [length]. unfold apart in *. lia. Qed.

(** A string put together in a block of [sz] bytes, with [strlcpy] and then [strlcat], is the two strings
    one after the other, cut to the [sz - 1] characters that fit; no byte outside the block is written, and
    both calls return a length the caller can see the cut by. *)
Theorem strlcpy_strlcat_bounded (s t : list Z) (m : cmem) (dest src1 src2 sz : Z) :
  str_at m src1 s -> str_at m src2 t -> 0 < sz -> mapped m dest sz ->
  apart src1 (len s + 1) dest sz -> apart src2 (len t + 1) dest sz -> in_u 64 (len s + len t) ->
  exists m1 m2,
    strlcpy m dest src1 sz = Ret (len s, m1) /\
    strlcat m1 dest src2 sz = Ret (len (fit sz s) + len t, m2) /\
    str_at m2 dest (fit sz (s ++ t)) /\ len (fit sz (s ++ t)) < sz /\
    (forall a, ~ (dest <= a < dest + sz) -> m2 !! a = m !! a).
Proof.
  intros Hs Ht Hsz Hm A1 A2 Hu. pose proof (length_fit sz s Hsz) as Hl. pose proof (length_fit sz (s ++ t) Hsz) as Hl2.
  exists (wbytes m dest (fit sz s ++ [0])). set (m1 := wbytes m dest (fit sz s ++ [0])).
  assert (chars (fit sz s)) as Hcs by apply chars_take, Hs.
  assert (len (fit sz s ++ [0]) = len (fit sz s) + 1) as Hl1 by (rewrite length_app; cbn; lia).
  assert (strlcat m1 dest src2 sz = Ret (len (fit sz s) + len t, wbytes m1 (dest + len (fit sz s)) (fit (sz - len (fit sz s)) t ++ [0]))) as Ec.
  { apply strlcat_spec; [by apply str_at_wbytes|apply str_at_wbytes_ne; [done|]|lia|unfold in_u in *; lia|by apply mapped_wbytes|done].
    unfold apart in *. lia. }
  eexists. split; [|split; [exact Ec|]].
  - apply strlcpy_spec; [done..| |]; [eapply mapped_weaken; [done|lia..]|unfold apart in *; lia].
  - assert (fit sz (s ++ t) = fit sz s ++ fit (sz - len (fit sz s)) t) as Ef.
    { unfold fit. rewrite take_app, length_take. f_equal. f_equal. lia. }
    pose proof (length_fit (sz - len (fit sz s)) t ltac:(lia)) as Hl3.
    split_and!; [|lia|].
    + rewrite Ef. split; [apply chars_app; split; [done|apply chars_take, Ht]|]. rewrite <- app_assoc. apply bytes_at_app. split.
      * pose proof (bytes_at_wbytes m dest (fit sz s ++ [0])) as [Hb _]%bytes_at_app.
        apply bytes_at_wbytes_ne; [done|]. unfold apart. lia.
      * apply bytes_at_wbytes.
    + intros a Ha. assert (len (fit (sz - len (fit sz s)) t ++ [0]) = len (fit (sz - len (fit sz s)) t) + 1) as Hl4 by (rewrite length_app; cbn; lia).
      rewrite lookup_wbytes, decide_False by lia. unfold m1. rewrite lookup_wbytes, decide_False by lia. done.
Qed.

(** *** Searches *)

Definition pos_or_null (p : Z) (i : option nat) : Z := from_option (fun i => p + Z.of_nat i) NULL i.
Lemma pos_or_null_S (p : Z) (i : option nat) : pos_or_null (p + 1) i = pos_or_null p (S <$> i).
Proof. destruct i; cbn; lia. Qed.

(** The place of the first element with [f]. *)
Fixpoint index (f : Z -> bool) (l : list Z) : option nat :=
  match l with
  | [] => None
  | c :: l => if f c then Some O else S <$> index f l
  end.
Lemma index_Some (f : Z -> bool) (l : list Z) (i : nat) :
  index f l = Some i <-> exists c, l !! i = Some c /\ f c = true /\ forall j d, (j < i)%nat -> l !! j = Some d -> f d = false.
Proof.
  revert i. induction l as [|c l IH]; intros i; cbn [index]; [split; [done|by intros (? & ? & _)]|]. destruct (f c) eqn:Fc.
  - split; [intros [= <-]; exists c; split_and!; [done..|intros; lia]|]. intros (d & E & Fd & Hj). destruct i as [|i]; [done|].
    specialize (Hj O c ltac:(lia) eq_refl). congruence.
  - rewrite fmap_Some. split.
    + intros (k & (d & E & Fd & Hj)%IH & ->). exists d. split_and!; [done..|]. intros [|j] e Hlt E'; [by injection E' as <-|].
      apply (Hj j); [lia|done].
    + intros (d & E & Fd & Hj). destruct i as [|i]; [cbn in E; congruence|]. exists i. split; [|done]. apply IH. exists d.
      split_and!; [done..|]. intros j e Hlt E'. apply (Hj (S j)); [lia|done].
Qed.

Lemma strchr_loop_spec (s : list Z) (m : cmem) (p c : Z) (fuel : nat) :
  str_at m p s -> (length s < fuel)%nat -> strchr_loop fuel m p c = Ret (pos_or_null p (index (Z.eqb (u8 c)) (s ++ [0]))).
Proof.
  revert p fuel. induction s as [|x s IH]; intros p fuel H Hf; (destruct fuel as [|fuel]; [cbn in Hf; lia|]);
    cbn [strchr_loop app index]; pose proof H as [_ R]; cbn [app] in R; rd_at R; rewrite (Z.eqb_sym (u8 c)).
  - destruct (Z.eqb_spec 0 (u8 c)); cbn; [by rewrite Z.add_0_r|done].
  - apply str_at_cons in H as (Hx & _ & H). destruct (Z.eqb_spec x (u8 c)); cbn [pos_or_null from_option]; [by rewrite Z.add_0_r|].
    rewrite (proj2 (Z.eqb_neq x 0)) by lia. rewrite IH by (done || (cbn in Hf; lia)). by rewrite pos_or_null_S.
Qed.
Lemma strchr_finds (s : list Z) (m : cmem) (p c : Z) : str_at m p s -> strchr m p c = Ret (pos_or_null p (index (Z.eqb (u8 c)) (s ++ [0]))).
Proof. intros H. pose proof (str_turns _ _ _ H). apply strchr_loop_spec; [done|lia]. Qed.

Definition memb (t : list Z) (x : Z) : bool := existsb (Z.eqb x) t.
Lemma find_in_spec (t : list Z) (m : cmem) (a x : Z) (fuel : nat) : str_at m a t -> (length t < fuel)%nat -> find_in fuel m a x = Ret (memb t x).
Proof.
  revert a fuel. induction t as [|c t IH]; intros a fuel H Hf; (destruct fuel as [|fuel]; [cbn in Hf; lia|]);
    cbn [find_in]; pose proof H as [_ R]; cbn [app] in R; rd_at R; [done|].
  apply str_at_cons in H as (Hc & _ & H). rewrite (proj2 (Z.eqb_neq c 0)) by lia. cbn [memb existsb].
  destruct (x =? c); cbn [orb]; [done|]. apply IH; [done|cbn in Hf; lia].
Qed.
Lemma strpbrk_loop_spec (s t : list Z) (m : cmem) (p q : Z) (fuel : nat) :
  str_at m p s -> str_at m q t -> (length s < fuel)%nat -> strpbrk_loop fuel m p q = Ret (pos_or_null p (index (memb t) s)).
Proof.
  intros H Ht. pose proof (str_turns _ _ _ Ht). revert p fuel H.
  induction s as [|x s IH]; intros p fuel H Hf; (destruct fuel as [|fuel]; [cbn in Hf; lia|]);
    cbn [strpbrk_loop index]; pose proof H as [_ R]; cbn [app] in R; rd_at R; [done|].
  apply str_at_cons in H as (Hx & _ & H). rewrite (proj2 (Z.eqb_neq x 0)) by lia.
  rewrite (find_in_spec t) by (done || lia). cbn [res_bind]. destruct (memb t x); [cbn; by rewrite Z.add_0_r|].
  rewrite IH by (done || (cbn in Hf; lia)). by rewrite pos_or_null_S.
Qed.
(** [strcspn] and [strspn] count. *)
Lemma strcspn_loop_spec (s t : list Z) (m : cmem) (p q n : Z) (fuel : nat) :
  str_at m p s -> str_at m q t -> (length s < fuel)%nat ->
  strcspn_loop fuel m p q n = Ret (n + from_option Z.of_nat (len s) (index (memb t) s)).
Proof.
  intros H Ht. pose proof (str_turns _ _ _ Ht). revert p n fuel H.
  induction s as [|x s IH]; intros p n fuel H Hf; (destruct fuel as [|fuel]; [cbn in Hf; lia|]);
    cbn [strcspn_loop index]; pose proof H as [_ R]; cbn [app] in R; rd_at R; [cbn; by rewrite Z.add_0_r|].
  apply str_at_cons in H as (Hx & _ & H). rewrite (proj2 (Z.eqb_neq x 0)) by lia.
  rewrite (find_in_spec t) by (done || lia). cbn [res_bind]. destruct (memb t x); [cbn; by rewrite Z.add_0_r|].
  rewrite IH by (done || (cbn in Hf; lia)). f_equal. destruct (index (memb t) s); cbn; lia.
Qed.
Lemma strspn_loop_spec (s t : list Z) (m : cmem) (p q n : Z) (fuel : nat) :
  str_at m p s -> str_at m q t -> (length s < fuel)%nat ->
  strspn_loop fuel m p q n = Ret (n + from_option Z.of_nat (len s) (index (fun x => negb (memb t x)) s)).
Proof.
  intros H Ht. pose proof (str_turns _ _ _ Ht). revert p n fuel H.
  induction s as [|x s IH]; intros p n fuel H Hf; (destruct fuel as [|fuel]; [cbn in Hf; lia|]);
    cbn [strspn_loop index]; pose proof H as [_ R]; cbn [app] in R; rd_at R; [cbn; by rewrite Z.add_0_r|].
  apply str_at_cons in H as (Hx & _ & H). rewrite (proj2 (Z.eqb_neq x 0)) by lia.
  rewrite (find_in_spec t) by (done || lia). cbn [res_bind]. destruct (memb t x); cbn [negb]; [|cbn; by rewrite Z.add_0_r].
  rewrite IH by (done || (cbn in Hf; lia)). f_equal. destruct (index _ s); cbn; lia.
Qed.

(** [strsep] cuts a string at the first of the characters [t]: the first part is the result, and the rest
    a string of its own. *)
Lemma strsep_spec (a b t : list Z) (d : Z) (m : cmem) (p q : Z) :
  str_at m p (a ++ d :: b) -> str_at m q t -> p <> NULL -> NULL < p ->
  memb t d = true -> Forall (fun x => memb t x = false) a ->
  exists m', strsep m p q = Ret (p, p + len a + 1, m') /\ str_at m' p a /\ str_at m' (p + len a + 1) b /\
    (forall x, x <> p + len a -> m' !! x = m !! x).
Proof.
  intros H Ht N Np Hd Ha. pose proof (str_turns _ _ _ H). unfold strsep, strpbrk. rewrite (proj2 (Z.eqb_neq p NULL)) by done.
  rewrite (strpbrk_loop_spec (a ++ d :: b) t) by (done || lia). cbn [res_bind].
  assert (index (memb t) (a ++ d :: b) = Some (length a)) as Ei.
  { apply index_Some. exists d. split_and!; [by rewrite list_lookup_middle|done|]. intros j e Hj E. rewrite lookup_app_l in E by done.
    by apply (Forall_lookup_1 _ _ _ _ Ha E). }
  rewrite Ei. cbn [pos_or_null from_option]. rewrite (proj2 (Z.eqb_neq (p + len a) NULL)) by lia.
  destruct H as [Hc R]. apply chars_app in Hc as [Hca Hcb%Forall_cons]. destruct Hcb as [_ Hcb].
  rewrite <- app_assoc in R. cbn [app] in R. apply bytes_at_app in R as [Ra (Rd & Rb)%bytes_at_cons].
  unfold wr. rewrite Rd. cbn [deref res_bind]. change (u8 0) with 0. eexists. split; [done|]. split_and!.
  - split; [done|]. apply bytes_at_app. split; [by apply bytes_at_insert; [|lia]|]. apply bytes_at_cons.
    split; [by rewrite lookup_insert_eq|]. by intros i c E.
  - split; [done|]. apply bytes_at_insert; [done|lia].
  - intros x Hx. by rewrite lookup_insert_ne by done.
Qed.

(** Where [t] first occurs in [s]. *)
Fixpoint find_sub (t s : list Z) : option nat :=
  if bool_decide (take (length t) s = t) then Some O
  else match s with
       | [] => None
       | _ :: s => S <$> find_sub t s
       end.
Lemma find_sub_short (t s : list Z) : (length s < length t)%nat -> find_sub t s = None.
Proof.
  induction s as [|c s IH]; intros Hl; cbn [find_sub]; (rewrite bool_decide_false by (intros E%(f_equal length); rewrite length_take in E; lia)); [done|].
  rewrite IH; [done|cbn in Hl; lia].
Qed.
Lemma strstr_loop_spec (s t k : list Z) (m : cmem) (p q : Z) (fuel : nat) :
  bytes_at m p (s ++ k) -> str_at m q t -> t <> [] -> (length s < fuel)%nat ->
  strstr_loop fuel m p q (len s) (len t) = Ret (pos_or_null p (find_sub t s)).
Proof.
  intros H Ht Nt. revert p fuel H. induction s as [|c s IH]; intros p fuel H Hf; (destruct fuel as [|fuel]; [cbn in Hf; lia|]); cbn [strstr_loop].
  - destruct (Z.leb_spec (len t) (len (@nil Z))); [destruct t; [done|cbn in *; lia]|]. rewrite find_sub_short; [done|destruct t; [done|cbn; lia]].
  - destruct (Z.leb_spec (len t) (len (c :: s))) as [Hle|Hlt]; [|rewrite find_sub_short by lia; done].
    assert (bytes_at m p (take (length t) (c :: s))) as Hb.
    { apply bytes_at_app in H as [H _]. rewrite <- (take_drop (length t) (c :: s)) in H. by apply bytes_at_app in H as [H _]. }
    assert (length (take (length t) (c :: s)) = length t) as El by (rewrite length_take; lia).
    assert (bytes_at m q t) as Hq by (destruct Ht as [_ Ht]; by apply bytes_at_app in Ht as [? _]).
    rewrite <- El at 1. rewrite (memcmp_spec _ t m p q Hb Hq El). cbn [res_bind find_sub].
    case_bool_decide as E.
    + rewrite (proj2 (first_diff_0 _ _ El) E). cbn. by rewrite Z.add_0_r.
    + rewrite (proj2 (Z.eqb_neq _ 0)) by (intros E'; apply E, (first_diff_0 _ _ El), E').
      replace (len (c :: s) - 1) with (len s) by (cbn; lia). cbn [app] in H. apply bytes_at_cons in H as [_ H].
      rewrite IH by (done || (cbn in Hf; lia)). by rewrite pos_or_null_S.
Qed.
Lemma strstr_spec (s t : list Z) (m : cmem) (p q : Z) :
  str_at m p s -> str_at m q t -> strstr m p q = Ret (pos_or_null p (find_sub t s)).
Proof.
  intros Hs Ht. pose proof (str_turns _ _ _ Hs). unfold strstr. rewrite (strlen_spec m q t Ht). cbn [res_bind].
  destruct (Z.eqb_spec (len t) 0) as [E|N].
  - destruct t; [|cbn in E; lia]. replace (find_sub [] s) with (Some O) by (by destruct s). cbn. by rewrite Z.add_0_r.
  - rewrite (strlen_spec m p s Hs). cbn [res_bind]. destruct Hs as [_ Hs]. apply (strstr_loop_spec s t [0]); [done..| |lia]. by intros ->.
Qed.

(** ** A run *)
Module Demo.
(** "abc" at 10, "de" at 20, and a block of five bytes at 30. *)
Definition m0 : cmem := wbytes (wbytes (wbytes ∅ 10 [97; 98; 99; 0]) 20 [100; 101; 0]) 30 [1; 1; 1; 1; 1].
Lemma strlcpy_strlcat_bounded_witness :
  exists m1 m2, strlcpy m0 30 10 5 = Ret (3, m1) /\ strlcat m1 30 20 5 = Ret (5, m2) /\ str_at m2 30 [97; 98; 99; 100].
Proof.
  destruct (strlcpy_strlcat_bounded [97; 98; 99] [100; 101] m0 30 10 20 5) as (m1 & m2 & E1 & E2 & Hs & _).
  - split; [repeat constructor|]. intros i c E. do 4 (destruct i as [|i]; [injection E as <-; vm_compute; reflexivity|]). discriminate E.
  - split; [repeat constructor|]. intros i c E. do 3 (destruct i as [|i]; [injection E as <-; vm_compute; reflexivity|]). discriminate E.
  - lia.
  - intros a Ha. assert (a = 30 \/ a = 31 \/ a = 32 \/ a = 33 \/ a = 34) as [->|[->|[->|[->| ->]]]] by lia; vm_compute; by eexists.
  - left. vm_compute. discriminate.
  - left. vm_compute. discriminate.
  - vm_compute. split; [discriminate|reflexivity].
  - exists m1, m2. split_and!; [exact E1|exact E2|exact Hs].
Defined.
Lemma memmove_correct_witness : memmove m0 11 10 3 = Ret (wbytes m0 11 [97; 98; 99]).
Proof.
  apply (memmove_correct m0 11 10 [97; 98; 99]).
  - intros i c E. do 3 (destruct i as [|i]; [injection E as <-; vm_compute; reflexivity|]). discriminate E.
  - intros a Ha. assert (a = 11 \/ a = 12 \/ a = 13) as [->|[->| ->]] by (cbn in Ha; lia); vm_compute; by eexists.
  - repeat constructor; vm_compute; discriminate.
Defined.
(** [memcpy] with the destination above the source in one region gets the last byte wrong: 7, not 8. *)
Example memcpy_overlap_up :
  match memcpy (wbytes ∅ 0 [0; 1; 2; 3; 4; 5; 6; 7; 8; 9]) 1 0 9 with Ret m => m !! 9 | _ => None end = Some 7.
Proof. vm_compute. reflexivity. Qed.
End Demo.
