(* ===== verification/Uaccess.v ===== *)
(** * Access to user memory: arch/lkl/include/asm/uaccess.h

    The kernel runs in the process that uses it: user memory is its own memory, every address is valid, and the
    functions are those of the string library with lengths that are ints. *)
From S2P Require Import Prelude CString CStringSpec.

(** ** The code *)

Definition access_ok (type addr size : Z) : Z := 1.
Definition copy_from_user (m : cmem) (to from n : Z) : res (Z * cmem) :=
  let! m := memcpy m to from (u64 (s32 n)) in Ret (0, m).
Definition copy_to_user (m : cmem) (to from len : Z) : res (Z * cmem) :=
  let! m := memcpy m to from (u64 (s32 len)) in Ret (0, m).
(** The comparison and its result are those of size_t. *)
Definition strncpy_from_user (m : cmem) (dst src count : Z) : res (Z * cmem) :=
  let count := s32 count in
  let! m := strncpy m dst src (u64 count) in
  let! l := strlen m src in
  if l <? u64 count then let! l := strlen m src in Ret (s32 l, m) else Ret (s32 (u64 count), m).
Definition strnlen_user (m : cmem) (str len : Z) : res Z :=
  let! l := strnlen m str (u64 len) in Ret (s32 (l + 1)).
Definition clear_user (m : cmem) (mem len : Z) : res (Z * cmem) :=
  let! m := memset m mem 0 (u64 (s32 len)) in Ret (0, m).

(** ** What the callers rely on *)

Lemma int_length (n : Z) : 0 <= n < 2 ^ 31 -> u64 (s32 n) = n.
Proof. intros Hn. rewrite (swrap_id 32), wrap_id by (lia || unfold in_s, in_u; lia). done. Qed.
(** Bytes that go to user memory and come back are the same, and no byte outside the two blocks changes. *)
Theorem user_roundtrip (m : cmem) (to from back : Z) (l : list Z) :
  bytes_at m from l -> Forall (in_u 8) l -> mapped m to (len l) -> mapped m back (len l) -> apart from (len l) to (len l) -> apart to (len l) back (len l) -> len l < 2 ^ 31 ->
  exists m1 m2, copy_to_user m to from (len l) = Ret (0, m1) /\ copy_from_user m1 back to (len l) = Ret (0, m2) /\ bytes_at m2 back l /\
    forall a, ~ to <= a < to + len l -> ~ back <= a < back + len l -> m2 !! a = m !! a.
Proof.
  intros Hf Hu Ht Hb A1 A2 Hl. unfold copy_to_user, copy_from_user. rewrite int_length by lia. rewrite memcpy_spec; [|done..|unfold apart in A1; lia]. cbn [res_bind]. eexists _, _. split; [done|].
  rewrite (memcpy_spec _ back to l); [|apply bytes_at_wbytes|by apply mapped_wbytes|done|unfold apart in A2; lia]. cbn [res_bind]. split; [done|]. split; [apply bytes_at_wbytes|].
  intros a N1 N2. rewrite !lookup_wbytes. by do 2 (case_decide; [lia|]).
Qed.
(** A string of user memory arrives with its final zero when it is shorter than the buffer, and the result is its length;
    otherwise the buffer is filled without one and the result is the size of the buffer. *)
Theorem strncpy_from_user_spec (m : cmem) (dst src count : Z) (s : list Z) :
  str_at m src s -> mapped m dst count -> apart src (len s + 1) dst count -> 0 <= count < 2 ^ 31 ->
  exists m', strncpy_from_user m dst src count = Ret (Z.min count (len s), m') /\ (if len s <? count then str_at m' dst s else bytes_at m' dst (take (Z.to_nat count) s)).
Proof.
  intros Hs Hm Ha Hc. unfold strncpy_from_user. rewrite (swrap_id 32 count), wrap_id by (lia || unfold in_s, in_u; lia). pose proof (mapped_turns m dst count ltac:(lia) Hm) as Ht.
  set (b := take (Z.to_nat count) s ++ replicate (Z.to_nat count - length s) 0). assert (len b = count) as Lb by (unfold b; rewrite length_app, length_take, length_replicate; lia).
  assert (strncpy m dst src count = Ret (wbytes m dst b)) as ->; [|cbn [res_bind]].
  { pose proof (strncpy_loop_spec s m dst src (Z.to_nat count) (turns m)) as E. rewrite Z2Nat.id in E by lia. apply E; [done..|lia]. }
  rewrite (strlen_spec _ src s) by (apply str_at_wbytes_ne; [done|by rewrite Lb]). cbn [res_bind]. exists (wbytes m dst b). pose proof (bytes_at_wbytes m dst b) as Hb. unfold b in Hb at 2.
  destruct (Z.ltb_spec (len s) count) as [L|L].
  - rewrite swrap_id, Z.min_r by (lia || unfold in_s; lia). split; [done|]. split; [apply Hs|]. rewrite take_ge in Hb by lia. replace (Z.to_nat count - length s)%nat with (S (Z.to_nat count - length s - 1)) in Hb by lia.
    cbn [replicate] in Hb. rewrite cons_middle, app_assoc in Hb. by apply bytes_at_app in Hb as [Hb _].
  - rewrite swrap_id, Z.min_l by (lia || unfold in_s; lia). split; [done|]. by apply bytes_at_app in Hb as [Hb _].
Qed.
(** The length with its final zero, or more than [n] when there is no zero in the first [n] bytes. *)
Theorem strnlen_user_spec (m : cmem) (p n : Z) (s : list Z) : str_at m p s -> 0 <= n < 2 ^ 31 - 1 -> strnlen_user m p n = Ret (Z.min n (len s) + 1).
Proof.
  intros [Hc Hb] Hn. unfold strnlen_user. rewrite wrap_id by (unfold in_u; lia). rewrite (strnlen_spec s); [|unfold in_u; lia|done|].
  - cbn [res_bind]. rewrite swrap_id by (lia || unfold in_s; lia). done.
  - rewrite <- (take_drop (Z.to_nat n) (s ++ [0])) in Hb. by apply bytes_at_app in Hb as [Hb _].
Qed.
Theorem clear_user_spec (m : cmem) (p n : Z) : mapped m p n -> 0 <= n < 2 ^ 31 -> clear_user m p n = Ret (0, wbytes m p (replicate (Z.to_nat n) 0)).
Proof. intros Hm Hn. unfold clear_user. rewrite int_length by lia. pose proof (memset_spec m p 0 (Z.to_nat n)) as E. rewrite Z2Nat.id in E by lia. by rewrite E. Qed.
