(* ===== verification/Vsprintf.v ===== *)
(** * Numbers and formats: lib/vsprintf.c

    Reading numbers from strings, and formatting into a buffer of given size.  The format and the
    strings to print are bytes in memory; they are apart from the buffer.  What is printed goes to an
    output device: the code writes to the buffer and counts ([Buf]); the reference is the text alone
    ([Text]). *)
From Stdlib Require Import Ascii.
From Stdlib Require String.
From S2P Require Import Prelude CString.
Import String.StringSyntax.

(** The code of a character. *)
Definition ch (a : ascii) : Z := Z.of_N (N_of_ascii a).
Arguments ch _%_char.
Definition codes (s : String.string) : list Z := ch <$> String.list_ascii_of_string s.
Arguments codes _%_string_scope.

Abbreviation s16 := (swrap 16).
Definition PAGE_SIZE : Z := 4096.
Definition INT_MAX : Z := 2 ^ 31 - 1.

(** ** From strings to numbers *)

Definition TOLOWER (x : Z) : Z := Z.lor x 0x20.

Definition simple_guess_base (m : cmem) (cp : Z) : res Z :=
  let! c0 := rd m cp in
  if c0 =? ch "0" then
    let! c1 := rd m (cp + 1) in
    if TOLOWER c1 =? ch "x" then let! c2 := rd m (cp + 2) in Ret (if isxdigit c2 then 16 else 8) else Ret 8
  else Ret 10.

Fixpoint strtoull_loop (fuel : nat) (m : cmem) (cp base result : Z) : res (Z * Z) :=
  match fuel with
  | O => OutOfFuel
  | S fuel =>
      let! c := rd m cp in
      if isxdigit c then
        let value := u32 (if isdigit c then c - ch "0" else TOLOWER c - ch "a" + 10) in
        if base <=? value then Ret (result, cp)
        else strtoull_loop fuel m (cp + 1) base (u64 (result * base + value))
      else Ret (result, cp)
  end.
(** The number, and the end of what was read. *)
Definition simple_strtoull (m : cmem) (cp base : Z) : res (Z * Z) :=
  let! base := if base =? 0 then simple_guess_base m cp else Ret base in
  let! hex := if base =? 16 then
                let! c0 := rd m cp in
                if c0 =? ch "0" then let! c1 := rd m (cp + 1) in Ret (TOLOWER c1 =? ch "x") else Ret false
              else Ret false in
  let cp := if hex then cp + 2 else cp in
  strtoull_loop (turns m) m cp base 0.
Definition simple_strtoul (m : cmem) (cp base : Z) : res (Z * Z) := simple_strtoull m cp base.
Definition simple_strtoll (m : cmem) (cp base : Z) : res (Z * Z) :=
  let! c := rd m cp in
  if c =? ch "-" then let! (v, e) := simple_strtoull m (cp + 1) base in Ret (s64 (u64 (- v)), e)
  else let! (v, e) := simple_strtoull m cp base in Ret (s64 v, e).
Definition simple_strtol (m : cmem) (cp base : Z) : res (Z * Z) :=
  let! c := rd m cp in
  if c =? ch "-" then let! (v, e) := simple_strtoul m (cp + 1) base in Ret (s64 (u64 (- v)), e)
  else let! (v, e) := simple_strtoul m cp base in Ret (s64 v, e).

(** The error code and [*res]. *)
Definition strict_strtoull (m : cmem) (cp base : Z) : res (Z * Z) :=
  let! n := strlen m cp in
  if n =? 0 then Ret (- EINVAL, 0)
  else
    let! (val, tail) := simple_strtoull m cp base in
    if tail =? cp then Ret (- EINVAL, 0)
    else
      let! c := rd m tail in
      if (c =? 0) || ((n =? u64 (tail - cp) + 1) && (c =? 10)) then Ret (0, val) else Ret (- EINVAL, 0).
Definition strict_strtoul (m : cmem) (cp base : Z) : res (Z * Z) :=
  let! n := strlen m cp in
  if n =? 0 then Ret (- EINVAL, 0)
  else
    let! (val, tail) := simple_strtoul m cp base in
    if tail =? cp then Ret (- EINVAL, 0)
    else
      let! c := rd m tail in
      if (c =? 0) || ((n =? u64 (tail - cp) + 1) && (c =? 10)) then Ret (0, val) else Ret (- EINVAL, 0).
Definition strict_strtoll (m : cmem) (cp base : Z) : res (Z * Z) :=
  let! c := rd m cp in
  if c =? ch "-" then
    let! (ret, v) := strict_strtoull m (cp + 1) base in
    Ret (ret, if ret =? 0 then s64 (- s64 v) else s64 v)
  else let! (ret, v) := strict_strtoull m cp base in Ret (ret, s64 v).
Definition strict_strtol (m : cmem) (cp base : Z) : res (Z * Z) :=
  let! c := rd m cp in
  if c =? ch "-" then
    let! (ret, v) := strict_strtoul m (cp + 1) base in
    Ret (ret, if ret =? 0 then s64 (- s64 v) else s64 v)
  else let! (ret, v) := strict_strtoul m cp base in Ret (ret, s64 v).

Fixpoint skip_atoi_loop (fuel : nat) (m : cmem) (s i : Z) : res (Z * Z) :=
  match fuel with
  | O => OutOfFuel
  | S fuel =>
      let! c := rd m s in
      if isdigit c then skip_atoi_loop fuel m (s + 1) (s32 (i * 10 + c - ch "0")) else Ret (i, s)
  end.
Definition skip_atoi (m : cmem) (s : Z) : res (Z * Z) := skip_atoi_loop (turns m) m s 0.

(** ** Decimal digits, the last one first *)

Definition put_dec_trunc (q : Z) : list Z :=
  let d1 := Z.land (Z.shiftr q 4) 0xf in
  let d2 := Z.land (Z.shiftr q 8) 0xf in
  let d3 := Z.shiftr q 12 in
  let d0 := u32 (6 * (d3 + d2 + d1) + Z.land q 0xf) in
  let q := Z.shiftr (u32 (d0 * 0xcd)) 11 in
  let d0 := u32 (d0 - 10 * q) in
  let d1 := u32 (q + 9 * d3 + 5 * d2 + d1) in
  u8 (d0 + ch "0") ::
  (if d1 =? 0 then []
   else
     let q := Z.shiftr (u32 (d1 * 0xcd)) 11 in
     let d1 := u32 (d1 - 10 * q) in
     let d2 := u32 (q + 2 * d2) in
     u8 (d1 + ch "0") ::
     (if (d2 =? 0) && (d3 =? 0) then []
      else
        let q := Z.shiftr (u32 (d2 * 0xd)) 7 in
        let d2 := u32 (d2 - 10 * q) in
        let d3 := u32 (q + 4 * d3) in
        u8 (d2 + ch "0") ::
        (if d3 =? 0 then []
         else
           let q := Z.shiftr (u32 (d3 * 0xcd)) 11 in
           let d3 := u32 (d3 - 10 * q) in
           u8 (d3 + ch "0") :: (if q =? 0 then [] else [u8 (q + ch "0")])))).

Definition put_dec_full (q : Z) : list Z :=
  let d1 := Z.land (Z.shiftr q 4) 0xf in
  let d2 := Z.land (Z.shiftr q 8) 0xf in
  let d3 := Z.shiftr q 12 in
  let d0 := u32 (6 * (d3 + d2 + d1) + Z.land q 0xf) in
  let q := Z.shiftr (u32 (d0 * 0xcd)) 11 in
  let d0 := u32 (d0 - 10 * q) in
  let d1 := u32 (q + 9 * d3 + 5 * d2 + d1) in
  let q := Z.shiftr (u32 (d1 * 0xcd)) 11 in
  let d1 := u32 (d1 - 10 * q) in
  let d2 := u32 (q + 2 * d2) in
  let q := Z.shiftr (u32 (d2 * 0xd)) 7 in
  let d2 := u32 (d2 - 10 * q) in
  let d3 := u32 (q + 4 * d3) in
  let q := Z.shiftr (u32 (d3 * 0xcd)) 11 in
  let d3 := u32 (d3 - 10 * q) in
  [u8 (d0 + ch "0"); u8 (d1 + ch "0"); u8 (d2 + ch "0"); u8 (d3 + ch "0"); u8 (q + ch "0")].

(** Four divisions by 100000 bring a number of 64 bits below 100000. *)
Fixpoint put_dec_loop (fuel : nat) (num : Z) : res (list Z) :=
  match fuel with
  | O => OutOfFuel
  | S fuel =>
      if num <? 100000 then Ret (put_dec_trunc (u32 num))
      else
        let rem := u32 (num mod 100000) in
        let num := num / 100000 in
        let! l := put_dec_loop fuel num in
        Ret (put_dec_full rem ++ l)
  end.
Definition put_dec (num : Z) : res (list Z) := put_dec_loop 5 num.

(** ** Formats *)

Definition ZEROPAD : Z := 1.
Definition SIGN : Z := 2.
Definition PLUS : Z := 4.
Definition SPACE : Z := 8.
Definition LEFT : Z := 16.
Definition SMALL : Z := 32.
Definition SPECIAL : Z := 64.

Inductive format_type :=
| FORMAT_TYPE_NONE
| FORMAT_TYPE_WIDTH
| FORMAT_TYPE_PRECISION
| FORMAT_TYPE_CHAR
| FORMAT_TYPE_STR
| FORMAT_TYPE_PTR
| FORMAT_TYPE_PERCENT_CHAR
| FORMAT_TYPE_INVALID
| FORMAT_TYPE_LONG_LONG
| FORMAT_TYPE_ULONG
| FORMAT_TYPE_LONG
| FORMAT_TYPE_UBYTE
| FORMAT_TYPE_BYTE
| FORMAT_TYPE_USHORT
| FORMAT_TYPE_SHORT
| FORMAT_TYPE_UINT
| FORMAT_TYPE_INT
| FORMAT_TYPE_NRCHARS
| FORMAT_TYPE_SIZE_T
| FORMAT_TYPE_PTRDIFF.
#[export] Instance format_type_eq_dec : EqDecision format_type.
Proof. solve_decision. Defined.

Record printf_spec := Printf_spec {
  type : format_type;
  flags : Z;
  base : Z;
  qualifier : Z;
  field_width : Z;
  precision : Z
}.
Definition set_type (t : format_type) (p : printf_spec) : printf_spec :=
  Printf_spec t (flags p) (base p) (qualifier p) (field_width p) (precision p).
Definition set_flags (f : Z) (p : printf_spec) : printf_spec :=
  Printf_spec (type p) (u8 f) (base p) (qualifier p) (field_width p) (precision p).
Definition set_base (b : Z) (p : printf_spec) : printf_spec :=
  Printf_spec (type p) (flags p) (u8 b) (qualifier p) (field_width p) (precision p).
Definition set_qualifier (q : Z) (p : printf_spec) : printf_spec :=
  Printf_spec (type p) (flags p) (base p) (u8 q) (field_width p) (precision p).
Definition set_field_width (w : Z) (p : printf_spec) : printf_spec :=
  Printf_spec (type p) (flags p) (base p) (qualifier p) (s16 w) (precision p).
Definition set_precision (n : Z) (p : printf_spec) : printf_spec :=
  Printf_spec (type p) (flags p) (base p) (qualifier p) (field_width p) (s16 n).
Definition has (f bit : Z) : bool := negb (Z.land f bit =? 0).

(** ** Output *)

(** Where characters go: [*buf = c; ++buf], the copy of [n] characters of memory, and the number of
    characters so far. *)
Class Out (S : Type) := {
  putc : Z -> S -> res S;
  copyin : cmem -> Z -> Z -> S -> res S;
  tell : S -> Z
}.

(** The text alone. *)
#[export] Instance Text : Out (list Z) := {
  putc c t := Ret (t ++ [u8 c]);
  copyin m p n t := let! l := rdn (Z.to_nat n) m p in Ret (t ++ ((fun c : Z => u8 c) <$> l));
  tell t := Z.of_nat (length t)
}.

(** The buffer: [str - buf], the bytes that are really there, and [end - buf]. *)
Record buffer := Buffer { pos : Z; bytes : list Z; room : Z }.
Fixpoint store_list (l : list Z) (i : Z) (b : list Z) : res (list Z) :=
  match l with
  | [] => Ret b
  | c :: l => let! _ := deref (aget b i) in store_list l (i + 1) (aset b i (u8 c))
  end.
#[export] Instance Buf : Out buffer := {
  putc c b :=
    if pos b <? room b then let! bs := store_list [c] (pos b) (bytes b) in Ret (Buffer (pos b + 1) bs (room b))
    else Ret (Buffer (pos b + 1) (bytes b) (room b));
  copyin m p n b :=
    if pos b <? room b then
      let copy := if room b - pos b <? n then room b - pos b else n in
      let! l := rdn (Z.to_nat copy) m p in
      let! bs := store_list l (pos b) (bytes b) in
      Ret (Buffer (pos b + n) bs (room b))
    else Ret (Buffer (pos b + n) (bytes b) (room b));
  tell b := pos b
}.

Section Output.
Context {S : Type} `{Out S}.

(** Enough turns for the loops that count a 16-bit number down. *)
Definition turns16 : nat := Z.to_nat (2 ^ 16).

(** while (--w >= 0) { *buf = c; ++buf; }, and [w] after it. *)
Fixpoint pad_pre (fuel : nat) (c w : Z) (st : S) : res (Z * S) :=
  match fuel with
  | O => OutOfFuel
  | Datatypes.S fuel =>
      let w := s16 (w - 1) in
      if 0 <=? w then let! st := putc c st in pad_pre fuel c w st else Ret (w, st)
  end.
(** while (len < w--) { *buf = ' '; ++buf; } *)
Fixpoint pad_post (fuel : nat) (len w : Z) (st : S) : res (Z * S) :=
  match fuel with
  | O => OutOfFuel
  | Datatypes.S fuel =>
      if len <? w then let! st := putc (ch " ") st in pad_post fuel len (s16 (w - 1)) st else Ret (s16 (w - 1), st)
  end.
(** while (i <= --precision) { *buf = '0'; ++buf; } *)
Fixpoint pad_zeros (fuel : nat) (i precision : Z) (st : S) : res S :=
  match fuel with
  | O => OutOfFuel
  | Datatypes.S fuel =>
      let precision := s16 (precision - 1) in
      if i <=? precision then let! st := putc (ch "0") st in pad_zeros fuel i precision st else Ret st
  end.
(** while (--i >= 0) { *buf = tmp[i]; ++buf; } *)
Fixpoint put_tmp (i : nat) (tmp : list Z) (st : S) : res S :=
  match i with
  | O => Ret st
  | Datatypes.S i => let! c := deref (tmp !! i) in let! st := putc c st in put_tmp i tmp st
  end.

Definition digits : list Z := codes "0123456789ABCDEF".
(** The digits in base 8 or 16, the last one first. *)
Fixpoint put_pow2 (fuel : nat) (mask shift locase num : Z) : res (list Z) :=
  match fuel with
  | O => OutOfFuel
  | Datatypes.S fuel =>
      let! d := deref (aget digits (Z.land (u8 num) mask)) in
      let num := Z.shiftr num shift in
      if num =? 0 then Ret [Z.lor d locase]
      else let! l := put_pow2 fuel mask shift locase num in Ret (Z.lor d locase :: l)
  end.

(** The sign, the absolute value and the width left, by the [SIGN] branch of [number]. *)
Definition number_sign (flags num width : Z) : Z * Z * Z :=
  if has flags SIGN then
    if s64 num <? 0 then (ch "-", u64 (- s64 num), s16 (width - 1))
    else if has flags PLUS then (ch "+", num, s16 (width - 1))
    else if has flags SPACE then (ch " ", num, s16 (width - 1))
    else (0, num, width)
  else (0, num, width).
(** The contents of [tmp]. *)
Definition number_digits (base locase num : Z) : res (list Z) :=
  if num =? 0 then Ret [ch "0"]
  else if negb (base =? 10) then put_pow2 64 (base - 1) (if base =? 16 then 4 else 3) locase num
  else put_dec num.
Definition putc_if (b : bool) (c : Z) (st : S) : res S := if b then putc c st else Ret st.

(** The second half of [number]: padding, sign, prefix and digits. *)
Definition number_emit (flags sign locase : Z) (need_pfx hex : bool) (tmp : list Z) (width precision : Z) (st : S) : res S :=
  let i := Z.of_nat (length tmp) in
  let! (width, st) := if negb (has flags (ZEROPAD + LEFT)) then pad_pre turns16 (ch " ") width st else Ret (width, st) in
  let! st := putc_if (negb (sign =? 0)) sign st in
  let! st := putc_if need_pfx (ch "0") st in
  let! st := putc_if (need_pfx && hex) (Z.lor (ch "X") locase) st in
  let! (width, st) :=
    if negb (has flags LEFT) then pad_pre turns16 (if has flags ZEROPAD then ch "0" else ch " ") width st else Ret (width, st) in
  let! st := pad_zeros turns16 i precision st in
  let! st := put_tmp (length tmp) tmp st in
  let! (_, st) := pad_pre turns16 (ch " ") width st in
  Ret st.
Definition number (num : Z) (spec : printf_spec) (st : S) : res S :=
  let need_pfx := has (flags spec) SPECIAL && negb (base spec =? 10) in
  let hex := base spec =? 16 in
  let locase := Z.land (flags spec) SMALL in
  let flags := if has (flags spec) LEFT then Z.land (flags spec) (u8 (Z.lnot ZEROPAD)) else flags spec in
  let '(sign, num, width) := number_sign flags num (field_width spec) in
  let width := if need_pfx then (if hex then s16 (s16 (width - 1) - 1) else s16 (width - 1)) else width in
  let! tmp := number_digits (base spec) locase num in
  let i := Z.of_nat (length tmp) in
  let precision := if precision spec <? i then s16 i else precision spec in
  number_emit flags sign locase need_pfx hex tmp (s16 (width - precision)) precision st.

(** for (i = 0; i < len; ++i) { *buf = *s; ++buf; ++s; } *)
Fixpoint put_str (n : nat) (m : cmem) (s : Z) (st : S) : res S :=
  match n with
  | O => Ret st
  | Datatypes.S n => let! c := rd m s in let! st := putc c st in put_str n m (s + 1) st
  end.
Definition string_at (m : cmem) (s : Z) (spec : printf_spec) (st : S) : res S :=
  let! n := strnlen m s (u64 (precision spec)) in
  let len := s32 n in
  let! (width, st) :=
    if negb (has (flags spec) LEFT) then pad_post turns16 len (field_width spec) st else Ret (field_width spec, st) in
  let! st := put_str (Z.to_nat len) m s st in
  let! (_, st) := pad_post turns16 len width st in
  Ret st.
(** A string that is not in [m]: a literal or a local array. *)
Definition literal (l : list Z) : cmem := list_to_map (zip (seqZ 0 (Z.of_nat (length l))) l).
Definition string (m : cmem) (s : Z) (spec : printf_spec) (st : S) : res S :=
  if s <? PAGE_SIZE then string_at (literal (codes "(null)" ++ [0])) 0 spec st else string_at m s spec st.
End Output.

(** *** [format_decode], by the labels of its code *)

(** The type of an integer conversion. *)
Definition integer_type (spec : printf_spec) : format_type :=
  let q := qualifier spec in
  let sign := has (flags spec) SIGN in
  if q =? ch "L" then FORMAT_TYPE_LONG_LONG
  else if q =? ch "l" then (if sign then FORMAT_TYPE_LONG else FORMAT_TYPE_ULONG)
  else if TOLOWER q =? ch "z" then FORMAT_TYPE_SIZE_T
  else if q =? ch "t" then FORMAT_TYPE_PTRDIFF
  else if q =? ch "H" then (if sign then FORMAT_TYPE_BYTE else FORMAT_TYPE_UBYTE)
  else if q =? ch "h" then (if sign then FORMAT_TYPE_SHORT else FORMAT_TYPE_USHORT)
  else (if sign then FORMAT_TYPE_INT else FORMAT_TYPE_UINT).
(** From [spec->base = 10] on. *)
Definition decode_conversion (m : cmem) (start fmt : Z) (spec : printf_spec) : res (Z * printf_spec) :=
  let spec := set_base 10 spec in
  let! c := rd m fmt in
  let integer spec := Ret (fmt + 1 - start, set_type (integer_type spec) spec) in
  if c =? ch "c" then Ret (fmt + 1 - start, set_type FORMAT_TYPE_CHAR spec)
  else if c =? ch "s" then Ret (fmt + 1 - start, set_type FORMAT_TYPE_STR spec)
  else if c =? ch "p" then Ret (fmt - start, set_type FORMAT_TYPE_PTR spec)
  else if c =? ch "n" then Ret (fmt + 1 - start, set_type FORMAT_TYPE_NRCHARS spec)
  else if c =? ch "%" then Ret (fmt + 1 - start, set_type FORMAT_TYPE_PERCENT_CHAR spec)
  else if c =? ch "o" then integer (set_base 8 spec)
  else if c =? ch "x" then integer (set_base 16 (set_flags (Z.lor (flags spec) SMALL) spec))
  else if c =? ch "X" then integer (set_base 16 spec)
  else if (c =? ch "d") || (c =? ch "i") then integer (set_flags (Z.lor (flags spec) SIGN) spec)
  else if c =? ch "u" then integer spec
  else Ret (fmt - start, set_type FORMAT_TYPE_INVALID spec).
(** From the label [qualifier] on. *)
Definition decode_qualifier (m : cmem) (start fmt : Z) (spec : printf_spec) : res (Z * printf_spec) :=
  let spec := set_qualifier (-1) spec in
  let! c := rd m fmt in
  if (c =? ch "h") || (TOLOWER c =? ch "l") || (TOLOWER c =? ch "z") || (c =? ch "t") then
    let spec := set_qualifier c spec in
    let fmt := fmt + 1 in
    let! d := rd m fmt in
    if qualifier spec =? d then
      if qualifier spec =? ch "l" then decode_conversion m start (fmt + 1) (set_qualifier (ch "L") spec)
      else if qualifier spec =? ch "h" then decode_conversion m start (fmt + 1) (set_qualifier (ch "H") spec)
      else decode_conversion m start fmt spec
    else decode_conversion m start fmt spec
  else decode_conversion m start fmt spec.
(** From the label [precision] on. *)
Definition decode_precision (m : cmem) (start fmt : Z) (spec : printf_spec) : res (Z * printf_spec) :=
  let spec := set_precision (-1) spec in
  let! c := rd m fmt in
  if c =? ch "." then
    let fmt := fmt + 1 in
    let! d := rd m fmt in
    if isdigit d then
      let! (n, fmt) := skip_atoi m fmt in
      let spec := set_precision n spec in
      let spec := if precision spec <? 0 then set_precision 0 spec else spec in
      decode_qualifier m start fmt spec
    else if d =? ch "*" then Ret (fmt + 1 - start, set_type FORMAT_TYPE_PRECISION spec)
    else decode_qualifier m start fmt spec
  else decode_qualifier m start fmt spec.
Definition decode_width (m : cmem) (start fmt : Z) (spec : printf_spec) : res (Z * printf_spec) :=
  let spec := set_field_width (-1) spec in
  let! c := rd m fmt in
  if isdigit c then
    let! (n, fmt) := skip_atoi m fmt in
    decode_precision m start fmt (set_field_width n spec)
  else if c =? ch "*" then Ret (fmt + 1 - start, set_type FORMAT_TYPE_WIDTH spec)
  else decode_precision m start fmt spec.
(** The loop over the flags, that starts at the percent sign. *)
Definition flag_of (c : Z) : option Z :=
  if c =? ch "-" then Some LEFT
  else if c =? ch "+" then Some PLUS
  else if c =? ch " " then Some SPACE
  else if c =? ch "#" then Some SPECIAL
  else if c =? ch "0" then Some ZEROPAD
  else None.
Fixpoint decode_flags (fuel : nat) (m : cmem) (fmt flags : Z) : res (Z * Z) :=
  match fuel with
  | O => OutOfFuel
  | S fuel =>
      let fmt := fmt + 1 in
      let! c := rd m fmt in
      match flag_of c with
      | Some f => decode_flags fuel m fmt (Z.lor flags f)
      | None => Ret (fmt, flags)
      end
  end.
Fixpoint find_percent (fuel : nat) (m : cmem) (fmt : Z) : res Z :=
  match fuel with
  | O => OutOfFuel
  | S fuel => let! c := rd m fmt in if (c =? 0) || (c =? ch "%") then Ret fmt else find_percent fuel m (fmt + 1)
  end.

Definition format_decode (m : cmem) (fmt : Z) (spec : printf_spec) : res (Z * printf_spec) :=
  let start := fmt in
  match type spec with
  | FORMAT_TYPE_WIDTH =>
      let spec := if field_width spec <? 0 then set_flags (Z.lor (flags spec) LEFT) (set_field_width (- field_width spec) spec) else spec in
      decode_precision m start fmt (set_type FORMAT_TYPE_NONE spec)
  | FORMAT_TYPE_PRECISION =>
      let spec := if precision spec <? 0 then set_precision 0 spec else spec in
      decode_qualifier m start fmt (set_type FORMAT_TYPE_NONE spec)
  | _ =>
      let spec := set_type FORMAT_TYPE_NONE spec in
      let! fmt := find_percent (turns m) m fmt in
      let! c := rd m fmt in
      if negb (fmt =? start) || (c =? 0) then Ret (fmt - start, spec)
      else
        let! (fmt, f) := decode_flags (turns m) m fmt 0 in
        decode_width m start fmt (set_flags f spec)
  end.

(** *** Pointers *)

Definition hex_asc : list Z := codes "0123456789abcdef".
Definition hex_asc_lo (x : Z) : Z := default 0 (aget hex_asc (Z.land x 0x0f)).
Definition hex_asc_hi (x : Z) : Z := default 0 (aget hex_asc (Z.shiftr (Z.land x 0xf0) 4)).
Definition pack_hex_byte (byte : Z) : list Z := [hex_asc_hi (u8 byte); hex_asc_lo (u8 byte)].

(** The contents of the local arrays before the final zero. *)
Definition mac_address_text (addr : list Z) (colons fddi : bool) : list Z :=
  concat (imap (fun i b => pack_hex_byte b ++ (if colons && negb (Nat.eqb i 5) then [if fddi then ch "-" else ch ":"] else [])) addr).

Definition ip4_order (c : Z) : list nat :=
  if (c =? ch "h") || (c =? ch "l") then [3; 2; 1; 0]%nat else [0; 1; 2; 3]%nat.
(** One turn of its loop: the quad at [index] of the address. *)
Definition ip4_quad (addr : list Z) (leading_zeros : bool) (i index : nat) : list Z :=
  let temp := put_dec_trunc (default 0 (addr !! index)) in
  let digits := length temp in
  (if leading_zeros then
     (if Nat.ltb digits 3 then [ch "0"] else []) ++ (if Nat.ltb digits 2 then [ch "0"] else [])
   else []) ++ reverse temp ++ (if Nat.ltb i 3 then [ch "."] else []).
Definition ip4_string (addr : list Z) (leading_zeros : bool) (order : list nat) : list Z :=
  concat (imap (ip4_quad addr leading_zeros) order).

(** A field of [in6], most significant byte first. *)
Definition s6_be (n : nat) (addr : list Z) (i : nat) : Z :=
  foldl (fun acc b => acc * 256 + b) 0 (take n (drop (n * i) addr)).
(** [ipv6_addr_v4mapped] and [ipv6_addr_is_isatap]; the words are compared in network order. *)
Definition ipv6_addr_v4mapped (addr : list Z) : bool :=
  Z.lor (Z.lor (s6_be 4 addr 0) (s6_be 4 addr 1)) (Z.lxor (s6_be 4 addr 2) 0x0000ffff) =? 0.
Definition ipv6_addr_is_isatap (addr : list Z) : bool := Z.lor (s6_be 4 addr 2) 0x02000000 =? 0x02005EFE.

(** The number of zero fields from [i] on, below [range]. *)
Fixpoint zero_run (n : nat) (addr : list Z) (i : nat) : Z :=
  match n with
  | O => 0
  | S n => if s6_be 2 addr i =? 0 then 1 + zero_run n addr (S i) else 0
  end.
(** The position and length of the longest run of more than one. *)
Definition longest_run (addr : list Z) (range : nat) : Z * Z :=
  foldl (fun '(colonpos, longest) (i : nat) =>
           let z := u8 (zero_run (range - i) addr i) in
           if longest <? z then (Z.of_nat i, z) else (colonpos, longest)) (-1, 1) (seq 0 range).
Definition ip6_field (addr : list Z) (i : nat) : list Z :=
  let word := s6_be 2 addr i in
  let hi := Z.shiftr word 8 in
  let lo := Z.land word 0xff in
  if negb (hi =? 0) then (if 0x0f <? hi then pack_hex_byte hi else [hex_asc_lo hi]) ++ pack_hex_byte lo
  else if 0x0f <? lo then pack_hex_byte lo
  else [hex_asc_lo lo].
(** The loop that emits the address, [n] turns of [i] below [range]. *)
Fixpoint ip6_emit (n : nat) (addr : list Z) (range : nat) (colonpos longest : Z) (i : Z) (needcolon : bool) : list Z * bool :=
  match n with
  | O => ([], needcolon)
  | S n =>
      if i <? Z.of_nat range then
        if i =? colonpos then
          let '(l, nc) := ip6_emit n addr range colonpos longest (i + longest - 1 + 1) false in
          ((if needcolon || (i =? 0) then [ch ":"] else []) ++ [ch ":"] ++ l, nc)
        else
          let '(l, nc) := ip6_emit n addr range colonpos longest (i + 1) true in
          ((if needcolon then [ch ":"] else []) ++ ip6_field addr (Z.to_nat i) ++ l, nc)
      else ([], needcolon)
  end.
Definition ip6_compressed_string (addr : list Z) : list Z :=
  let useIPv4 := ipv6_addr_v4mapped addr || ipv6_addr_is_isatap addr in
  let range := if useIPv4 then 6%nat else 8%nat in
  let '(colonpos, longest) := longest_run addr range in
  let '(l, needcolon) := ip6_emit 9 addr range colonpos longest 0 false in
  l ++ (if useIPv4 then (if needcolon then [ch ":"] else []) ++ ip4_string (drop 12 addr) false (ip4_order 0) else []).
Definition ip6_string (addr : list Z) (colons : bool) : list Z :=
  concat (imap (fun i b => pack_hex_byte b ++ (if colons && Nat.odd i && negb (Nat.eqb i 15) then [ch ":"] else [])) addr).

Definition uuid_be : list nat := [0;1;2;3;4;5;6;7;8;9;10;11;12;13;14;15]%nat.
Definition uuid_le : list nat := [3;2;1;0;5;4;7;6;8;9;10;11;12;13;14;15]%nat.
Definition uuid_text (addr : list Z) (c : Z) : list Z :=
  let uc := (c =? ch "L") || (c =? ch "B") in
  let index := if (c =? ch "L") || (c =? ch "l") then uuid_le else uuid_be in
  let l := concat (imap (fun (i j : nat) => pack_hex_byte (default 0 (addr !! j)) ++
             (if Nat.eqb i 3 || Nat.eqb i 5 || Nat.eqb i 7 || Nat.eqb i 9 then [ch "-"] else [])) index) in
  if uc then toupper <$> l else l.

Definition IORESOURCE_IO : Z := 0x00000100.
Definition IORESOURCE_MEM : Z := 0x00000200.
Definition IORESOURCE_IRQ : Z := 0x00000400.
Definition IORESOURCE_DMA : Z := 0x00000800.
Definition IORESOURCE_BUS : Z := 0x00001000.
Definition IORESOURCE_PREFETCH : Z := 0x00002000.
Definition IORESOURCE_MEM_64 : Z := 0x00100000.
Definition IORESOURCE_WINDOW : Z := 0x00200000.
Definition IORESOURCE_DISABLED : Z := 0x10000000.
(** The fields of struct resource that are printed. *)
Record resource := Resource { res_start : Z; res_end : Z; res_flags : Z }.

Definition io_spec : printf_spec := Printf_spec FORMAT_TYPE_NONE (Z.lor SPECIAL (Z.lor SMALL ZEROPAD)) 16 0 6 (-1).
Definition mem_spec : printf_spec := Printf_spec FORMAT_TYPE_NONE (Z.lor SPECIAL (Z.lor SMALL ZEROPAD)) 16 0 10 (-1).
Definition bus_spec : printf_spec := Printf_spec FORMAT_TYPE_NONE (Z.lor SMALL ZEROPAD) 16 0 2 (-1).
Definition dec_spec : printf_spec := Printf_spec FORMAT_TYPE_NONE 0 10 0 0 (-1).
Definition str_spec : printf_spec := Printf_spec FORMAT_TYPE_NONE LEFT 0 0 (-1) 10.
Definition flag_spec : printf_spec := Printf_spec FORMAT_TYPE_NONE (Z.lor SPECIAL SMALL) 16 0 0 (-1).

(** The size of [sym], by the size of resource_size_t. *)
Definition RSRC_BUF_SIZE (rsz : Z) : Z := 2 * rsz + 4.
Definition FLAG_BUF_SIZE : Z := 2 * 8.
Definition DECODED_BUF_SIZE : Z := Z.of_nat (length (codes "[mem - 64bit pref window disabled]")) + 1.
Definition RAW_BUF_SIZE : Z := Z.of_nat (length (codes "[mem - flags 0x]")) + 1.
Definition sym_size (rsz : Z) : Z :=
  Z.max (2 * RSRC_BUF_SIZE rsz + DECODED_BUF_SIZE) (2 * RSRC_BUF_SIZE rsz + FLAG_BUF_SIZE + RAW_BUF_SIZE).

(** [*p++ = c], whatever the room. *)
Definition poke (c : Z) (b : buffer) : res buffer :=
  let! bs := store_list [c] (pos b) (bytes b) in Ret (Buffer (pos b + 1) bs (room b)).
Definition lit_if (c : bool) (l : list Z) (b : buffer) : res buffer :=
  if c then string_at (literal (l ++ [0])) 0 str_spec b else Ret b.
(** What resource_string makes of [sym]. *)
Definition resource_sym (rsz : Z) (r : resource) (decode : bool) : res (list Z) :=
  let b := Buffer 0 (replicate (Z.to_nat (sym_size rsz)) 0) (sym_size rsz) in
  let! b := poke (ch "[") b in
  let fl := res_flags r in
  let '(name, specp, decode) :=
    if has fl IORESOURCE_IO then (codes "io  ", io_spec, decode)
    else if has fl IORESOURCE_MEM then (codes "mem ", mem_spec, decode)
    else if has fl IORESOURCE_IRQ then (codes "irq ", dec_spec, decode)
    else if has fl IORESOURCE_DMA then (codes "dma ", dec_spec, decode)
    else if has fl IORESOURCE_BUS then (codes "bus ", bus_spec, decode)
    else (codes "??? ", mem_spec, false) in
  let! b := lit_if true name b in
  let! b := number (res_start r) specp b in
  let! b := if negb (res_start r =? res_end r) then let! b := poke (ch "-") b in number (res_end r) specp b else Ret b in
  let! b :=
    if decode : bool then
      let! b := lit_if (has fl IORESOURCE_MEM_64) (codes " 64bit") b in
      let! b := lit_if (has fl IORESOURCE_PREFETCH) (codes " pref") b in
      let! b := lit_if (has fl IORESOURCE_WINDOW) (codes " window") b in
      lit_if (has fl IORESOURCE_DISABLED) (codes " disabled") b
    else let! b := lit_if true (codes " flags ") b in number fl flag_spec b in
  let! b := poke (ch "]") b in
  let! b := poke 0 b in
  Ret (bytes b).

Section Format.
(** The names of symbols (kernel/kallsyms.c), when the kernel has them; the resources by address, and the
    size of resource_size_t. *)
Variable kallsyms : option (Z -> Z -> list Z).
Variable resources : gmap Z resource.
Variable rsz : Z.
Context {S : Type} `{Out S}.

Definition symbol_string (value : Z) (spec : printf_spec) (ext : Z) (st : S) : res S :=
  match kallsyms with
  | Some text => string_at (literal (text value ext ++ [0])) 0 spec st
  | None =>
      let spec := set_field_width (2 * 8) spec in
      let spec := set_flags (Z.lor (flags spec) (Z.lor SPECIAL (Z.lor SMALL ZEROPAD))) spec in
      number value (set_base 16 spec) st
  end.
Definition resource_string (ptr : Z) (spec : printf_spec) (c : Z) (st : S) : res S :=
  let! r := deref (resources !! ptr) in
  let! sym := resource_sym rsz r (c =? ch "R") in
  string_at (literal sym) 0 spec st.
(** The plain pointer at the end of [pointer]. *)
Definition pointer_number (ptr : Z) (spec : printf_spec) (st : S) : res S :=
  let spec := set_flags (Z.lor (flags spec) SMALL) spec in
  let spec := if field_width spec =? -1 then set_flags (Z.lor (flags spec) ZEROPAD) (set_field_width (2 * 8) spec) else spec in
  number ptr (set_base 16 spec) st.
(** [fmt] is after the p. *)
Definition pointer (m : cmem) (fmt ptr : Z) (spec : printf_spec) (st : S) : res S :=
  let text l := string_at (literal (l ++ [0])) 0 spec st in
  if ptr =? 0 then text (codes "(null)")
  else
    let! c := rd m fmt in
    if (c =? ch "F") || (c =? ch "f") || (c =? ch "S") || (c =? ch "s") then symbol_string ptr spec c st
    else if (c =? ch "R") || (c =? ch "r") then resource_string ptr spec c st
    else if (c =? ch "M") || (c =? ch "m") then
      let! c1 := rd m (fmt + 1) in
      let! addr := rdn 6 m ptr in
      text (mac_address_text addr (c =? ch "M") (c1 =? ch "F"))
    else if (c =? ch "I") || (c =? ch "i") then
      let! c1 := rd m (fmt + 1) in
      if c1 =? ch "6" then
        let! c2 := (if c =? ch "I" then rd m (fmt + 2) else Ret 0) in
        let! addr := rdn 16 m ptr in
        text (if (c =? ch "I") && (c2 =? ch "c") then ip6_compressed_string addr else ip6_string addr (c =? ch "I"))
      else if c1 =? ch "4" then
        let! c2 := rd m (fmt + 2) in
        let! addr := rdn 4 m ptr in
        text (ip4_string addr (c =? ch "i") (ip4_order c2))
      else pointer_number ptr spec st
    else if c =? ch "U" then
      let! c1 := rd m (fmt + 1) in
      let! addr := rdn 16 m ptr in
      text (uuid_text addr c1)
    else pointer_number ptr spec st.

(** *** Arguments *)

(** An argument by how it is passed: 32 bits, 64 bits, or a pointer. *)
Inductive va := VInt (z : Z) | VLong (z : Z) | VPtr (z : Z).
Definition va_int (args : list va) : res (Z * list va) :=
  match args with VInt z :: args => Ret (s32 z, args) | _ => Bug end.
Definition va_long (args : list va) : res (Z * list va) :=
  match args with VLong z :: args => Ret (u64 z, args) | _ => Bug end.
Definition va_ptr (args : list va) : res (Z * list va) :=
  match args with VPtr z :: args => Ret (u64 z, args) | _ => Bug end.
(** The argument of an integer conversion, as the [unsigned long long num]. *)
Definition va_num (t : format_type) (args : list va) : res (Z * list va) :=
  match t with
  | FORMAT_TYPE_LONG_LONG | FORMAT_TYPE_ULONG | FORMAT_TYPE_LONG | FORMAT_TYPE_SIZE_T | FORMAT_TYPE_PTRDIFF => va_long args
  | _ =>
      let! (z, args) := va_int args in
      Ret (match t with
           | FORMAT_TYPE_UBYTE => u8 z
           | FORMAT_TYPE_BYTE => u64 (swrap 8 z)
           | FORMAT_TYPE_USHORT => u16 z
           | FORMAT_TYPE_SHORT => u64 (s16 z)
           | FORMAT_TYPE_INT => u64 z
           | _ => u32 z
           end, args)
  end.

(** while (--field_width > 0) { *str = ' '; ++str; } *)
Fixpoint pad_char (fuel : nat) (w : Z) (st : S) : res (Z * S) :=
  match fuel with
  | O => OutOfFuel
  | Datatypes.S fuel =>
      let w := s16 (w - 1) in
      if 0 <? w then let! st := putc (ch " ") st in pad_char fuel w st else Ret (w, st)
  end.
Fixpoint skip_alnum (fuel : nat) (m : cmem) (fmt : Z) : res Z :=
  match fuel with
  | O => OutOfFuel
  | Datatypes.S fuel => let! c := rd m fmt in if isalnum c then skip_alnum fuel m (fmt + 1) else Ret fmt
  end.

(** What one turn of the loop of [vsnprintf] leaves: the rest of the format, the specification, the rest of
    the arguments, the device, and the numbers stored for %n. *)
Record turn := Turn { t_fmt : Z; t_spec : printf_spec; t_args : list va; t_out : S; t_stores : list (Z * Z) }.

Definition format_turn (m : cmem) (t : turn) : res turn :=
  let old_fmt := t_fmt t in
  let! (read, spec) := format_decode m old_fmt (t_spec t) in
  let fmt := old_fmt + read in
  let args := t_args t in
  let st := t_out t in
  let go st args := Ret (Turn fmt spec args st (t_stores t)) in
  match type spec with
  | FORMAT_TYPE_NONE => let! st := copyin m old_fmt read st in go st args
  | FORMAT_TYPE_WIDTH =>
      let! (w, args) := va_int args in Ret (Turn fmt (set_field_width w spec) args st (t_stores t))
  | FORMAT_TYPE_PRECISION =>
      let! (p, args) := va_int args in Ret (Turn fmt (set_precision p spec) args st (t_stores t))
  | FORMAT_TYPE_CHAR =>
      let! (w, st) := if negb (has (flags spec) LEFT) then pad_char turns16 (field_width spec) st else Ret (field_width spec, st) in
      let! (c, args) := va_int args in
      let! st := putc (u8 c) st in
      let! (w, st) := pad_char turns16 w st in
      Ret (Turn fmt (set_field_width w spec) args st (t_stores t))
  | FORMAT_TYPE_STR =>
      let! (s, args) := va_ptr args in let! st := string m s spec st in go st args
  | FORMAT_TYPE_PTR =>
      let! (p, args) := va_ptr args in
      let! st := pointer m (fmt + 1) p spec st in
      let! fmt := skip_alnum (turns m) m fmt in
      Ret (Turn fmt spec args st (t_stores t))
  | FORMAT_TYPE_PERCENT_CHAR | FORMAT_TYPE_INVALID => let! st := putc (ch "%") st in go st args
  | FORMAT_TYPE_NRCHARS =>
      let! (ip, args) := va_ptr args in
      let q := qualifier spec in
      let v := if q =? ch "l" then s64 (tell st) else if TOLOWER q =? ch "z" then u64 (tell st) else s32 (tell st) in
      Ret (Turn fmt spec args st (t_stores t ++ [(ip, v)]))
  | ty =>
      let! (num, args) := va_num ty args in let! st := number num spec st in go st args
  end.

Fixpoint format_loop (fuel : nat) (m : cmem) (t : turn) : res turn :=
  match fuel with
  | O => OutOfFuel
  | Datatypes.S fuel =>
      let! c := rd m (t_fmt t) in
      if c =? 0 then Ret t else let! t := format_turn m t in format_loop fuel m t
  end.
Definition format_all (m : cmem) (fmt : Z) (args : list va) (st : S) : res turn :=
  format_loop (2 * turns m) m (Turn fmt (Printf_spec FORMAT_TYPE_NONE 0 0 0 0 0) args st []).
End Format.

Section Vsnprintf.
Variable kallsyms : option (Z -> Z -> list Z).
Variable resources : gmap Z resource.
Variable rsz : Z.

(** The result, what the buffer at [buf] holds afterwards, and the stores for %n. *)
Definition vsnprintf (m : cmem) (buf size fmt : Z) (args : list va) (b : list Z) : res (Z * list Z * list (Z * Z)) :=
  if s32 size <? 0 then Ret (0, b, [])
  else
    let wraps := u64 (buf + size) <? buf in
    let size := if wraps then 2 ^ 64 - 1 - buf else size in
    let! t := format_all kallsyms resources rsz m fmt args (Buffer 0 b size) in
    let o := t_out t in
    let! b :=
      if 0 <? size then
        store_list [0] (if pos o <? size then pos o else size - 1) (bytes o)
      else Ret (bytes o) in
    Ret (s32 (pos o), b, t_stores t).
(** [i >= size] compares as size_t. *)
Definition vscnprintf (m : cmem) (buf size fmt : Z) (args : list va) (b : list Z) : res (Z * list Z) :=
  let! (r, _) := vsnprintf m buf size fmt args b in
  let '(i, b) := r in
  Ret (if size <=? u64 i then s32 (u64 (size - 1)) else i, b).
Definition snprintf (m : cmem) (buf size fmt : Z) (args : list va) (b : list Z) : res (Z * list Z) :=
  let! (r, _) := vsnprintf m buf size fmt args b in Ret r.
Definition scnprintf (m : cmem) (buf size fmt : Z) (args : list va) (b : list Z) : res (Z * list Z) :=
  let! (r, _) := vsnprintf m buf size fmt args b in
  let '(i, b) := r in
  Ret (if size <=? u64 i then s32 (u64 (size - 1)) else i, b).
Definition vsprintf (m : cmem) (buf fmt : Z) (args : list va) (b : list Z) : res (Z * list Z) :=
  let! (r, _) := vsnprintf m buf INT_MAX fmt args b in Ret r.
Definition sprintf (m : cmem) (buf fmt : Z) (args : list va) (b : list Z) : res (Z * list Z) :=
  let! (r, _) := vsnprintf m buf INT_MAX fmt args b in Ret r.
End Vsnprintf.
