(* ===== verification/VsprintfNum.v ===== *)
(** * The digits of numbers

    The decimal conversion of lib/vsprintf.c, which divides by multiplying, against the generic one;
    reading a printed number back. *)
From Stdlib Require Import Ascii.
From Stdlib Require String.
From S2P Require Import Prelude CString CStringSpec Vsprintf.
Import String.StringSyntax.

(** ** Decimal digits *)

(** The generic code of the comment in [number]: the digits by division, the last one first. *)
Fixpoint generic_digits (fuel : nat) (b num : Z) : list Z :=
  match fuel with
  | O => []
  | S fuel => num mod b :: (if num / b =? 0 then [] else generic_digits fuel b (num / b))
  end.
(** The last [n] digits, with zeros. *)
Fixpoint low_digits (n : nat) (b num : Z) : list Z :=
  match n with
  | O => []
  | S n => num mod b :: low_digits n b (num / b)
  end.
Definition as_char (d : Z) : Z := d + 48.

(** A test of the [n] numbers from [z] on. *)
Fixpoint test_from (n : nat) (z : Z) (f : Z -> bool) : bool :=
  match n with
  | O => true
  | S n => f z && test_from n (z + 1) f
  end.
Lemma test_from_true (n : nat) (z : Z) (f : Z -> bool) :
  test_from n z f = true -> forall q, z <= q < z + Z.of_nat n -> f q = true.
Proof.
  revert z. induction n as [|n IH]; intros z H q Hq; [lia|]. cbn [test_from] in H. apply andb_true_iff in H as [H1 H2].
  destruct (decide (q = z)) as [->|]; [done|]. apply (IH (z + 1)); [done|lia].
Qed.

(** Dividing by ten with a product and a shift. *)
Lemma mul_cd_shift (x : Z) : 0 <= x < 1029 -> Z.shiftr (u32 (x * 0xcd)) 11 = x / 10.
Proof.
  intros H. apply Z.eqb_eq, (test_from_true (Z.to_nat 1029) 0 (fun x => Z.shiftr (u32 (x * 0xcd)) 11 =? x / 10)); [|lia].
  vm_compute. reflexivity.
Qed.
Lemma mul_d_shift (x : Z) : 0 <= x < 69 -> Z.shiftr (u32 (x * 0xd)) 7 = x / 10.
Proof.
  intros H. apply Z.eqb_eq, (test_from_true (Z.to_nat 69) 0 (fun x => Z.shiftr (u32 (x * 0xd)) 7 =? x / 10)); [|lia].
  vm_compute. reflexivity.
Qed.

(** The digits of the hexadecimal notation, from which the decimal ones are computed. *)
Lemma hex_parts (q : Z) : 0 <= q < 100000 ->
  exists d3 d2 d1 d0, q = 4096 * d3 + 256 * d2 + 16 * d1 + d0 /\ 0 <= d3 < 25 /\ 0 <= d2 < 16 /\ 0 <= d1 < 16 /\ 0 <= d0 < 16 /\
    Z.shiftr q 12 = d3 /\ Z.land (Z.shiftr q 8) 0xf = d2 /\ Z.land (Z.shiftr q 4) 0xf = d1 /\ Z.land q 0xf = d0.
Proof.
  intros H. change 0xf with (Z.ones 4). rewrite !Z.land_ones, !Z.shiftr_div_pow2 by lia.
  change (2 ^ 12) with 4096. change (2 ^ 8) with 256. change (2 ^ 4) with 16.
  eexists _, _, _, _. split_and!; [|..|reflexivity|reflexivity|reflexivity|reflexivity]; Z.to_euclidean_division_equations; lia.
Qed.

(** The chain of small divisions of both functions. *)
Lemma dec_chain (d3 d2 d1 d0 : Z) :
  let n := 4096 * d3 + 256 * d2 + 16 * d1 + d0 in
  let e0 := 6 * (d3 + d2 + d1) + d0 in
  let e1 := e0 / 10 + 9 * d3 + 5 * d2 + d1 in
  let e2 := e1 / 10 + 2 * d2 in
  let e3 := e2 / 10 + 4 * d3 in
  0 <= d3 < 25 -> 0 <= d2 < 16 -> 0 <= d1 < 16 -> 0 <= d0 < 16 -> n < 100000 ->
  0 <= e0 < 1029 /\ 0 <= e1 < 1029 /\ 0 <= e2 < 69 /\ 0 <= e3 < 1029 /\
  e0 - 10 * (e0 / 10) = n mod 10 /\ e1 - 10 * (e1 / 10) = n / 10 mod 10 /\ e2 - 10 * (e2 / 10) = n / 10 / 10 mod 10 /\
  e3 = n / 10 / 10 / 10 /\ n / 10 = e1 + 400 * d3 + 20 * d2 /\ n / 10 / 10 = e2 + 40 * d3.
Proof. cbn zeta. intros. split_and!; Z.to_euclidean_division_equations; lia. Qed.

(** Runs the steps of the code on the chain. *)
Ltac dec_run d3 d2 d1 d0 :=
  pose proof (dec_chain d3 d2 d1 d0) as Hc; cbn zeta in Hc; destruct Hc as (B0 & B1 & B2 & B3 & M0 & M1 & M2 & M3 & N1 & N2); [lia..|];
  set (e0 := 6 * (d3 + d2 + d1) + d0) in *; rewrite (wrap_id 32 e0) by pow_lia; rewrite (mul_cd_shift e0 B0);
  set (e1 := e0 / 10 + 9 * d3 + 5 * d2 + d1) in *; rewrite (wrap_id 32 e1) by pow_lia; rewrite (mul_cd_shift e1 B1);
  set (e2 := e1 / 10 + 2 * d2) in *; rewrite (wrap_id 32 e2) by pow_lia; rewrite (mul_d_shift e2 B2);
  set (e3 := e2 / 10 + 4 * d3) in *; rewrite (wrap_id 32 e3) by pow_lia; rewrite (mul_cd_shift e3 B3).
Lemma digit_char (e d : Z) : e = d -> 0 <= d < 10 -> u8 (u32 e + ch "0") = as_char d.
Proof. intros -> H. rewrite (wrap_id 32 d) by pow_lia. change (ch "0") with 48. rewrite wrap_id by pow_lia. done. Qed.
Lemma last_char (d : Z) : 0 <= d < 10 -> u8 (d + ch "0") = as_char d.
Proof. intros H. change (ch "0") with 48. rewrite wrap_id by pow_lia. done. Qed.

Lemma put_dec_full_correct (q : Z) : 0 <= q < 100000 -> put_dec_full q = as_char <$> low_digits 5 10 q.
Proof.
  intros H. destruct (hex_parts q H) as (d3 & d2 & d1 & d0 & E & H3 & H2 & H1 & H0 & E3 & E2 & E1 & E0).
  unfold put_dec_full. rewrite E3, E2, E1, E0. clear E3 E2 E1 E0. dec_run d3 d2 d1 d0. rewrite <- E in *. clearbody e0 e1 e2 e3.
  cbn [low_digits fmap list_fmap].
  assert (e3 / 10 = q / 10 / 10 / 10 / 10 mod 10) as M4 by (rewrite <- M3, Z.mod_small; [done|Z.to_euclidean_division_equations; lia]).
  assert (e3 - 10 * (e3 / 10) = q / 10 / 10 / 10 mod 10) as M5 by (rewrite <- M3; Z.to_euclidean_division_equations; lia).
  rewrite <- M4, (last_char (e3 / 10)) by (rewrite M4; apply Z.mod_pos_bound; lia).
  repeat f_equal; apply digit_char; try done; apply Z.mod_pos_bound; lia.
Qed.
(** For every number below 100000, the digits are the ones division gives. *)
Lemma put_dec_trunc_correct (q : Z) : 0 <= q < 100000 -> put_dec_trunc q = as_char <$> generic_digits 5 10 q.
Proof.
  intros H. destruct (hex_parts q H) as (d3 & d2 & d1 & d0 & E & H3 & H2 & H1 & H0 & E3 & E2 & E1 & E0).
  unfold put_dec_trunc. rewrite E3, E2, E1, E0. clear E3 E2 E1 E0. dec_run d3 d2 d1 d0. rewrite <- E in *.
  assert (9 * d3 + 5 * d2 <= e1) as P1 by (assert (0 <= e0 / 10) by (apply Z.div_pos; lia); lia). clearbody e0 e1 e2 e3.
  assert (e3 - 10 * (e3 / 10) = q / 10 / 10 / 10 mod 10) as M5 by (rewrite <- M3; Z.to_euclidean_division_equations; lia).
  cbn [generic_digits]. rewrite fmap_cons. f_equal; [apply digit_char; [done|apply Z.mod_pos_bound; lia]|].
  destruct (Z.eqb_spec e1 0), (Z.eqb_spec (q / 10) 0); try lia; [done|].
  rewrite fmap_cons. f_equal; [apply digit_char; [done|apply Z.mod_pos_bound; lia]|].
  destruct (Z.eqb_spec e2 0), (Z.eqb_spec d3 0), (Z.eqb_spec (q / 10 / 10) 0); cbn [andb]; try lia; try done.
  all: rewrite fmap_cons; f_equal; [apply digit_char; [done|apply Z.mod_pos_bound; lia]|].
  all: rewrite <- M3; destruct (Z.eqb_spec e3 0); [done|].
  all: rewrite fmap_cons; f_equal; [apply digit_char; [rewrite M5; by rewrite <- M3|apply Z.mod_pos_bound; lia]|].
  all: destruct (Z.eqb_spec (e3 / 10) 0); [done|].
  all: assert (0 <= e3 / 10 < 10) by (rewrite M3; Z.to_euclidean_division_equations; lia).
  all: rewrite last_char by done; rewrite (Z.mod_small (e3 / 10)) by done.
  all: by rewrite (Z.div_small (e3 / 10)) by done.
Qed.

Lemma low_digits_mod (n : nat) (b num : Z) : 1 < b -> low_digits n b (num mod b ^ Z.of_nat n) = low_digits n b num.
Proof.
  intros Hb. revert num. induction n as [|n IH]; intros num; [done|]. cbn [low_digits].
  replace (Z.of_nat (S n)) with (Z.of_nat n + 1) by lia. rewrite Z.pow_add_r, Z.pow_1_r by lia.
  assert (0 < b ^ Z.of_nat n) by (apply Z.pow_pos_nonneg; lia).
  rewrite (Z.mul_comm (b ^ _) b), Z.rem_mul_r by lia. f_equal.
  - rewrite Z.mul_comm, Z.mod_add by lia. by rewrite Z.mod_mod by lia.
  - rewrite Z.mul_comm, Z.div_add by lia. rewrite (Z.div_small (num mod b)) by (apply Z.mod_pos_bound; lia). apply IH.
Qed.
Lemma generic_digits_step (n fuel : nat) (b num : Z) :
  1 < b -> b ^ Z.of_nat n <= num -> generic_digits (n + fuel) b num = low_digits n b num ++ generic_digits fuel b (num / b ^ Z.of_nat n).
Proof.
  intros Hb. revert num. induction n as [|n IH]; intros num Hn.
  - cbn [Nat.add low_digits app]. by rewrite Z.pow_0_r, Z.div_1_r.
  - replace (Z.of_nat (S n)) with (1 + Z.of_nat n) in * by lia. rewrite Z.pow_add_r, Z.pow_1_r in * by lia.
    assert (0 < b ^ Z.of_nat n) by (apply Z.pow_pos_nonneg; lia).
    assert (b ^ Z.of_nat n <= num / b) as Hd by (apply Z.div_le_lower_bound; lia).
    cbn [Nat.add generic_digits low_digits app]. rewrite (proj2 (Z.eqb_neq (num / b) 0)) by lia.
    rewrite IH by done. by rewrite Z.div_div by lia.
Qed.
(** More fuel than digits does not matter. *)
Lemma generic_digits_fuel (f1 f2 : nat) (b num : Z) :
  1 < b -> 0 <= num < b ^ Z.of_nat f1 -> (0 < f1 <= f2)%nat -> generic_digits f2 b num = generic_digits f1 b num.
Proof.
  intros Hb. revert f2 num. induction f1 as [|f1 IH]; intros f2 num Hn Hf; [lia|]. destruct f2 as [|f2]; [lia|].
  cbn [generic_digits]. f_equal. destruct (Z.eqb_spec (num / b) 0); [done|]. destruct f1 as [|f1].
  - exfalso. apply n. apply Z.div_small. change (Z.of_nat 1) with 1 in Hn. rewrite Z.pow_1_r in Hn. lia.
  - apply IH; [|lia]. split; [apply Z.div_pos; lia|]. apply Z.div_lt_upper_bound; [lia|].
    replace (Z.of_nat (S (S f1))) with (1 + Z.of_nat (S f1)) in Hn by lia. rewrite Z.pow_add_r, Z.pow_1_r in Hn by lia. lia.
Qed.

Lemma put_dec_loop_correct (fuel : nat) (num : Z) :
  (0 < fuel)%nat -> 0 <= num < 100000 ^ Z.of_nat fuel -> num < 2 ^ 64 -> put_dec_loop fuel num = Ret (as_char <$> generic_digits (5 * fuel) 10 num).
Proof.
  revert num. induction fuel as [|fuel IH]; intros num Hf Hn Hu; [lia|]. cbn [put_dec_loop].
  destruct (Z.ltb_spec num 100000) as [Hlt|Hge].
  - rewrite (wrap_id 32 num) by pow_lia. rewrite put_dec_trunc_correct by lia. do 2 f_equal.
    symmetry. apply generic_digits_fuel; [lia|cbn; lia|lia].
  - pose proof (Z.mod_pos_bound num 100000 ltac:(lia)). rewrite (wrap_id 32 (num mod 100000)) by pow_lia.
    assert (0 <= num / 100000) by (apply Z.div_pos; lia). assert (num / 100000 <= num) by (apply Z.div_le_upper_bound; lia).
    rewrite IH; [|destruct fuel; [cbn in Hn; lia|lia]|split; [done|]|lia].
    + cbn [res_bind]. rewrite put_dec_full_correct by done. rewrite <- fmap_app. do 2 f_equal.
      change 100000 with (10 ^ Z.of_nat 5) at 1. rewrite low_digits_mod by lia.
      replace (5 * S fuel)%nat with (5 + 5 * fuel)%nat by lia. rewrite (generic_digits_step 5) by (try lia; cbn; lia). done.
    + apply Z.div_lt_upper_bound; [lia|]. replace (Z.of_nat (S fuel)) with (1 + Z.of_nat fuel) in Hn by lia.
      rewrite Z.pow_add_r, Z.pow_1_r in Hn by lia. lia.
Qed.

(** C33: the decimal conversion that multiplies and shifts instead of dividing gives, for every number of
    64 bits, exactly the digits that division by ten gives, in at most four rounds and twenty digits. *)
Theorem put_dec_is_division (num : Z) :
  in_u 64 num -> put_dec num = Ret (as_char <$> generic_digits 20 10 num).
Proof.
  intros Hu. assert (0 <= num < 2 ^ 64) as Hn by pow_lia. unfold put_dec. rewrite put_dec_loop_correct; [|lia|split; [lia|]|lia].
  - rewrite (generic_digits_fuel 20 (5 * 5)); [done|lia| |lia].
    split; [lia|]. assert (2 ^ 64 < 10 ^ Z.of_nat 20) by (vm_compute; reflexivity). lia.
  - assert (2 ^ 64 < 100000 ^ Z.of_nat 5) by (vm_compute; reflexivity). lia.
Qed.

(** ** Digits in base 8, 10 and 16 *)

(** The character of a digit; [locase] is 0 or 0x20. *)
Definition digit_code (locase d : Z) : Z := Z.lor (default 0 (aget digits d)) locase.

Lemma put_pow2_correct (fuel : nat) (k locase num : Z) :
  k = 3 \/ k = 4 -> (0 < fuel)%nat -> 0 <= num < 2 ^ (k * Z.of_nat fuel) ->
  put_pow2 fuel (2 ^ k - 1) k locase num = Ret (digit_code locase <$> generic_digits fuel (2 ^ k) num).
Proof.
  intros Hk. revert num. induction fuel as [|fuel IH]; intros num Hf Hn; [lia|]. cbn [put_pow2 generic_digits].
  assert (Z.land (u8 num) (2 ^ k - 1) = num mod 2 ^ k) as ->.
  { replace (2 ^ k - 1) with (Z.ones k) by (rewrite Z.ones_equiv; lia). rewrite Z.land_ones by lia. unfold wrap.
    change (2 ^ 8) with 256. destruct Hk as [-> | ->]; [change (2 ^ 3) with 8|change (2 ^ 4) with 16];
      Z.to_euclidean_division_equations; lia. }
  assert (0 <= num mod 2 ^ k < 16) as Hm by (pose proof (Z.mod_pos_bound num (2 ^ k)); destruct Hk as [-> | ->]; cbn in *; lia).
  destruct (aget_is_Some digits (num mod 2 ^ k)) as [d Ed]; [exact Hm|]. rewrite Z.shiftr_div_pow2 by lia.
  assert (digit_code locase (num mod 2 ^ k) = Z.lor d locase) as Ec by (unfold digit_code; by rewrite Ed).
  rewrite Ed. cbn [deref res_bind]. rewrite fmap_cons, Ec. destruct (Z.eqb_spec (num / 2 ^ k) 0) as [E0|N0]; [done|].
  destruct fuel as [|fuel].
  - exfalso. apply N0, Z.div_small. replace (k * Z.of_nat 1) with k in Hn by lia. lia.
  - rewrite IH; [done|lia|]. split; [apply Z.div_pos; lia|]. apply Z.div_lt_upper_bound; [lia|].
    rewrite <- Z.pow_add_r by lia. replace (k + k * Z.of_nat (S fuel)) with (k * Z.of_nat (S (S fuel))) by lia. lia.
Qed.

Lemma generic_digits_bound (fuel : nat) (b num : Z) : 1 < b -> 0 <= num -> Forall (fun d => 0 <= d < b) (generic_digits fuel b num).
Proof.
  intros Hb. revert num. induction fuel as [|fuel IH]; intros num Hn; [constructor|]. cbn [generic_digits].
  constructor; [apply Z.mod_pos_bound; lia|]. destruct (num / b =? 0); [constructor|]. apply IH, Z.div_pos; lia.
Qed.
(** The number a list of digits stands for, the last one first. *)
Fixpoint value (b : Z) (ds : list Z) : Z :=
  match ds with
  | [] => 0
  | d :: ds => d + b * value b ds
  end.
Lemma generic_digits_value (fuel : nat) (b num : Z) :
  1 < b -> (0 < fuel)%nat -> 0 <= num < b ^ Z.of_nat fuel -> value b (generic_digits fuel b num) = num.
Proof.
  intros Hb. revert num. induction fuel as [|fuel IH]; intros num Hf Hn; [lia|]. cbn [generic_digits value].
  pose proof (Z.div_mod num b ltac:(lia)). destruct (Z.eqb_spec (num / b) 0) as [E|N]; [cbn [value]; lia|].
  replace (Z.of_nat (S fuel)) with (1 + Z.of_nat fuel) in Hn by lia. rewrite Z.pow_add_r, Z.pow_1_r in Hn by lia.
  rewrite IH; [lia| |split; [apply Z.div_pos; lia|apply Z.div_lt_upper_bound; lia]].
  destruct fuel; [|lia]. exfalso. apply N, Z.div_small. cbn in Hn. lia.
Qed.

Definition base_ok (b : Z) : Prop := b = 8 \/ b = 10 \/ b = 16.
Definition locase_ok (l : Z) : Prop := l = 0 \/ l = 0x20.

(** The digits of a number of 64 bits; 22 are enough in every base. *)
Definition digits_of (b num : Z) : list Z := generic_digits 22 b num.

Lemma digits_of_fuel (fuel : nat) (b num : Z) : base_ok b -> in_u 64 num -> (22 <= fuel)%nat -> generic_digits fuel b num = digits_of b num.
Proof.
  intros Hb Hu Hf. unfold digits_of. apply generic_digits_fuel; [destruct Hb as [->|[->| ->]]; lia| |lia]. assert (0 <= num < 2 ^ 64) by pow_lia.
  assert (2 ^ 64 <= b ^ Z.of_nat 22) by (destruct Hb as [->|[->| ->]]; vm_compute; discriminate). lia.
Qed.
Lemma value_digits_of (b num : Z) : base_ok b -> in_u 64 num -> value b (digits_of b num) = num.
Proof.
  intros Hb Hu. unfold digits_of. apply generic_digits_value; [destruct Hb as [->|[->| ->]]; lia|lia|]. assert (0 <= num < 2 ^ 64) by pow_lia.
  assert (2 ^ 64 <= b ^ Z.of_nat 22) by (destruct Hb as [->|[->| ->]]; vm_compute; discriminate). lia.
Qed.
Lemma digits_of_bound (b num : Z) : base_ok b -> in_u 64 num -> Forall (fun d => 0 <= d < b) (digits_of b num).
Proof. intros Hb Hu. apply generic_digits_bound; [destruct Hb as [->|[->| ->]]; lia|pow_lia]. Qed.
Lemma length_generic_digits (fuel : nat) (b num : Z) : (length (generic_digits fuel b num) <= fuel)%nat.
Proof. revert num. induction fuel as [|fuel IH]; intros num; [done|]. cbn [generic_digits length]. destruct (num / b =? 0); [cbn; lia|]. specialize (IH (num / b)). lia. Qed.
Lemma length_digits_of (b num : Z) : (1 <= length (digits_of b num) <= 22)%nat.
Proof. split; [|apply length_generic_digits]. unfold digits_of. cbn [generic_digits length]. lia. Qed.

Lemma decimal_code (l d : Z) : locase_ok l -> 0 <= d < 10 -> digit_code l d = as_char d.
Proof.
  intros Hl Hd. apply Z.eqb_eq, (test_from_true 10 0 (fun d => digit_code l d =? as_char d)); [|lia].
  destruct Hl as [-> | ->]; vm_compute; reflexivity.
Qed.
(** What [number] puts into [tmp], in any of the bases. *)
Lemma number_digits_correct (b l num : Z) :
  base_ok b -> locase_ok l -> in_u 64 num -> number_digits b l num = Ret (digit_code l <$> digits_of b num).
Proof.
  intros Hb Hl Hu. assert (0 <= num < 2 ^ 64) by pow_lia. unfold number_digits. destruct (Z.eqb_spec num 0) as [->|N].
  { destruct Hb as [->|[->| ->]], Hl as [-> | ->]; reflexivity. }
  assert (forall k, k = 3 \/ k = 4 -> base_ok (2 ^ k) -> put_pow2 64 (2 ^ k - 1) k l num = Ret (digit_code l <$> digits_of (2 ^ k) num)) as Hp.
  { intros k Hk Hb'. assert (2 ^ 64 <= 2 ^ (k * Z.of_nat 64)) by (destruct Hk as [-> | ->]; vm_compute; discriminate).
    rewrite put_pow2_correct by lia.
    by rewrite digits_of_fuel by (done || lia). }
  destruct Hb as [->|[->| ->]]; cbn [Z.eqb negb].
  - by apply (Hp 3); [left|left].
  - change (put_dec num = Ret (digit_code l <$> digits_of 10 num)). unfold put_dec. rewrite put_dec_loop_correct; [|lia|split; [lia|]|lia].
    + rewrite (digits_of_fuel (5 * 5) 10 num) by (try lia; first [by right; left|done]). f_equal. apply Forall_fmap_ext_1.
      eapply Forall_impl; [apply (digits_of_bound 10 num); [by right; left|done]|]. intros d Hd. by rewrite decimal_code.
    + assert (2 ^ 64 < 100000 ^ Z.of_nat 5) by (vm_compute; reflexivity). lia.
  - by apply (Hp 4); [right|right; right].
Qed.

(** ** Reading numbers *)

(** The value of a character as a digit. *)
Definition char_value (c : Z) : Z := u32 (if isdigit c then c - ch "0" else TOLOWER c - ch "a" + 10).
Lemma digit_code_reads (l d : Z) : locase_ok l -> 0 <= d < 16 -> isxdigit (digit_code l d) = true /\ char_value (digit_code l d) = d.
Proof.
  intros Hl Hd. assert (isxdigit (digit_code l d) && (char_value (digit_code l d) =? d) = true) as [H1 H2%Z.eqb_eq]%andb_true_iff; [|done].
  apply (test_from_true 16 0 (fun d => isxdigit (digit_code l d) && (char_value (digit_code l d) =? d))); [|lia].
  destruct Hl as [-> | ->]; vm_compute; reflexivity.
Qed.
Lemma digit_code_char (l d : Z) : locase_ok l -> 0 <= d < 16 -> 48 <= digit_code l d < 103.
Proof.
  intros Hl Hd. assert ((48 <=? digit_code l d) && (digit_code l d <? 103) = true) as [H1%Z.leb_le H2%Z.ltb_lt]%andb_true_iff; [|done].
  apply (test_from_true 16 0 (fun d => (48 <=? digit_code l d) && (digit_code l d <? 103))); [|lia].
  destruct Hl as [-> | ->]; vm_compute; reflexivity.
Qed.

(** A character at which the reading of digits in base [b] stops. *)
Definition stops (b c : Z) : Prop := isxdigit c = false \/ b <= char_value c.

Lemma strtoull_loop_spec (ds : list Z) (m : cmem) (p b l r c : Z) (fuel : nat) :
  locase_ok l -> b <= 16 -> Forall (fun d => 0 <= d < b) ds -> bytes_at m p ((digit_code l <$> ds) ++ [c]) -> stops b c -> (length ds < fuel)%nat ->
  strtoull_loop fuel m p b r = Ret (foldl (fun r d => u64 (r * b + d)) r ds, p + len ds).
Proof.
  intros Hl Hb. revert p r fuel. induction ds as [|d ds IH]; intros p r fuel Hd H Hc Hf; (destruct fuel as [|fuel]; [cbn in Hf; lia|]);
    cbn [strtoull_loop foldl length] in *; cbn [fmap list_fmap app] in H; rd_at H.
  - rewrite Z.add_0_r. destruct Hc as [-> |Hv]; [done|]. unfold char_value in Hv. rewrite (proj2 (Z.leb_le _ _) Hv).
    by destruct (isxdigit c).
  - apply Forall_cons in Hd as [Hd Hds]. destruct (digit_code_reads l d Hl ltac:(lia)) as [-> Hv]. unfold char_value in Hv. rewrite Hv.
    rewrite (proj2 (Z.leb_gt b d)) by lia. apply bytes_at_cons in H as [_ H]. rewrite (IH (p + 1)) by (done || lia). do 2 f_equal. lia.
Qed.

Lemma fold_value (b r : Z) (ds : list Z) :
  foldl (fun r d => u64 (r * b + d)) (u64 r) (reverse ds) = u64 (r * b ^ len ds + value b ds).
Proof.
  revert r. induction ds as [|d ds IH]; intros r.
  - cbn [reverse foldl length value]. rewrite Z.pow_0_r, Z.mul_1_r, Z.add_0_r. done.
  - rewrite reverse_cons, foldl_app, IH. cbn [foldl length value]. unfold wrap.
    replace (Z.of_nat (S (length ds))) with (1 + len ds) by lia. rewrite Z.pow_add_r, Z.pow_1_r by lia.
    rewrite <- (Zplus_mod_idemp_l ((_ mod _) * b)), Zmult_mod_idemp_l, Zplus_mod_idemp_l. f_equal. lia.
Qed.

(** The text of the digits, and reading it. *)
Definition digits_text (b l num : Z) : list Z := reverse (digit_code l <$> digits_of b num).
Lemma strtoull_digits (m : cmem) (p b l num c : Z) (fuel : nat) :
  base_ok b -> locase_ok l -> in_u 64 num -> bytes_at m p (digits_text b l num ++ [c]) -> stops b c ->
  (length (digits_text b l num) < fuel)%nat ->
  strtoull_loop fuel m p b 0 = Ret (num, p + len (digits_text b l num)).
Proof.
  intros Hb Hl Hu H Hc Hf. unfold digits_text in *. rewrite <- fmap_reverse in *. rewrite length_fmap in *.
  rewrite (strtoull_loop_spec (reverse (digits_of b num)) m p b l 0 c fuel); [|done| |apply Forall_reverse, digits_of_bound; done|done|done|done].
  - rewrite <- (wrap_id 64 0) at 1 by pow_lia. rewrite fold_value, (value_digits_of b num Hb Hu), Z.mul_0_l, Z.add_0_l, wrap_id by done. done.
  - destruct Hb as [->|[->| ->]]; lia.
Qed.

Lemma digits_text_chars (b l num : Z) : base_ok b -> locase_ok l -> in_u 64 num -> Forall (fun c => 48 <= c < 103 /\ isxdigit c = true) (digits_text b l num).
Proof.
  intros Hb Hl Hu. unfold digits_text. apply Forall_reverse, Forall_fmap. eapply Forall_impl; [by apply digits_of_bound|].
  intros d Hd. cbn. assert (0 <= d < 16) by (destruct Hb as [->|[->| ->]]; lia).
  split; [by apply digit_code_char|by apply digit_code_reads].
Qed.
Lemma digits_text_nonnil (b l num : Z) : digits_text b l num <> [].
Proof. unfold digits_text. intros E%(f_equal length). rewrite length_reverse, length_fmap in E. pose proof (length_digits_of b num). cbn in E. lia. Qed.
Lemma stops_0 (b : Z) : stops b 0.
Proof. left. reflexivity. Qed.
Lemma stops_nl (b : Z) : stops b 10.
Proof. left. reflexivity. Qed.
(** Digits never look like the prefix of a hexadecimal number. *)
Lemma not_prefix (b l num c : Z) (rest : list Z) (m : cmem) (p : Z) :
  base_ok b -> locase_ok l -> in_u 64 num -> TOLOWER c <> ch "x" -> bytes_at m p (digits_text b l num ++ c :: rest) ->
  (let! c0 := rd m p in if c0 =? ch "0" then let! c1 := rd m (p + 1) in Ret (TOLOWER c1 =? ch "x") else Ret false) = Ret false.
Proof.
  intros Hb Hl Hu Hc H. pose proof (digits_text_chars b l num Hb Hl Hu) as Hd. pose proof (digits_text_nonnil b l num).
  destruct (digits_text b l num) as [|c0 t]; [done|]. cbn [app] in H. rd_at H. destruct (c0 =? ch "0"); [|done].
  apply bytes_at_cons in H as [_ H]. apply Forall_cons in Hd as [_ Hd].
  destruct t as [|c1 t]; cbn [app] in H; rd_at H.
  - by rewrite (proj2 (Z.eqb_neq _ _) Hc).
  - apply Forall_cons in Hd as [Hd _]. f_equal.
    assert (test_from 55 48 (fun c => negb (isxdigit c && (TOLOWER c =? ch "x"))) = true) as Ht by (vm_compute; reflexivity).
    destruct Hd as [Hr Hx]. pose proof (test_from_true _ _ _ Ht c1 ltac:(lia)) as Hc1. cbn beta in Hc1. rewrite Hx in Hc1.
    by destruct (TOLOWER c1 =? ch "x").
Qed.
Lemma simple_strtoull_spec (b l num c : Z) (rest : list Z) (m : cmem) (p : Z) :
  base_ok b -> locase_ok l -> in_u 64 num -> stops b c -> TOLOWER c <> ch "x" -> bytes_at m p (digits_text b l num ++ c :: rest) ->
  simple_strtoull m p b = Ret (num, p + len (digits_text b l num)).
Proof.
  intros Hb Hl Hu Hs Hc H. unfold simple_strtoull. rewrite (proj2 (Z.eqb_neq b 0)) by (destruct Hb as [->|[->| ->]]; lia). cbn [res_bind].
  assert ((if b =? 16 then let! c0 := rd m p in if c0 =? ch "0" then let! c1 := rd m (p + 1) in Ret (TOLOWER c1 =? ch "x") else Ret false
           else Ret false) = Ret false) as ->.
  { destruct (b =? 16); [|done]. by apply (not_prefix b l num c rest). }
  cbn [res_bind]. pose proof (bytes_turns _ _ _ H) as Ht. rewrite length_app in Ht. cbn [length] in Ht.
  change (c :: rest) with ([c] ++ rest) in H. rewrite app_assoc in H. apply bytes_at_app in H as [H _].
  apply (strtoull_digits m p b l num c); [done..|lia].
Qed.

(** What follows the digits for a strict conversion to accept them: nothing, or one newline. *)
Definition tail_ok (rest : list Z) : Prop := rest = [] \/ rest = [10].

Lemma strict_strtoull_run (b l num : Z) (rest : list Z) (m : cmem) (p : Z) :
  base_ok b -> locase_ok l -> in_u 64 num -> len (digits_text b l num ++ rest) < 2 ^ 64 ->
  str_at m p (digits_text b l num ++ rest) -> (forall c r, rest = c :: r -> stops b c /\ TOLOWER c <> ch "x") ->
  strict_strtoull m p b = Ret (if bool_decide (tail_ok rest) then (0, num) else (- EINVAL, 0)).
Proof.
  intros Hb Hl Hu Hlen H Hr. pose proof (digits_text_nonnil b l num) as Hn. unfold strict_strtoull. rewrite (strlen_spec _ _ _ H). cbn [res_bind].
  rewrite length_app, Nat2Z.inj_add in *. assert (0 < len (digits_text b l num)) by (destruct (digits_text b l num); [done|cbn; lia]).
  rewrite (proj2 (Z.eqb_neq _ 0)) by lia. destruct H as [Hch H].
  assert (exists c r, rest ++ [0] = c :: r /\ stops b c /\ TOLOWER c <> ch "x") as (c & r & Er & Hs & Hx).
  { destruct rest as [|c r]; [exists 0, []; split_and!; [done|apply stops_0|done]|]. destruct (Hr c r eq_refl). by exists c, (r ++ [0]). }
  rewrite <- app_assoc, Er in H. rewrite (simple_strtoull_spec b l num c r m p) by done. cbn [res_bind].
  rewrite (proj2 (Z.eqb_neq _ p)) by lia. apply bytes_at_app in H as [_ H]. rd_at H.
  replace (p + len (digits_text b l num) - p) with (len (digits_text b l num)) by lia. rewrite (wrap_id 64) by pow_lia.
  destruct rest as [|c' r']; cbn [app] in Er; injection Er as <- <-.
  - rewrite bool_decide_true by (by left). done.
  - apply chars_app in Hch as [_ [Hc _]%Forall_cons]. rewrite (proj2 (Z.eqb_neq c' 0)) by lia. cbn [orb length]. case_bool_decide as Ht.
    + destruct Ht as [Ht|Ht]; [done|]. injection Ht as -> ->. cbn [length]. by rewrite (proj2 (Z.eqb_eq _ _)) by lia.
    + destruct (Z.eqb_spec c' 10) as [->|N]; [|by rewrite andb_false_r]. rewrite andb_true_r.
      destruct r' as [|x r']; [destruct Ht; by right|]. cbn [length]. by rewrite (proj2 (Z.eqb_neq _ _)) by lia.
Qed.

Module Demo.
Lemma put_dec_is_division_witness :
  put_dec 18446744073709551615 = Ret (as_char <$> generic_digits 20 10 18446744073709551615) /\
  (as_char <$> generic_digits 20 10 18446744073709551615) = reverse (codes "18446744073709551615").
Proof. split; [apply (put_dec_is_division 18446744073709551615); pow_lia|vm_compute; reflexivity]. Defined.
End Demo.
