(* ===== verification/VsprintfText.v ===== *)
(** * What is printed

    The text of a number for every flag, width and precision; and the formatting into a buffer, which
    never writes past its end and leaves the text there, cut to the room, whatever the format. *)
From Stdlib Require Import Ascii.
From Stdlib Require String.
From S2P Require Import Prelude CString CStringSpec Vsprintf VsprintfNum.
Import String.StringSyntax.

(** ** Padding *)

Lemma s16_id (z : Z) : -32768 <= z <= 32767 -> s16 z = z.
Proof. intros. apply swrap_id; [lia|pow_lia]. Qed.
Lemma turns16_eq : Z.of_nat turns16 = 65536.
Proof. unfold turns16. rewrite Z2Nat.id; [reflexivity|vm_compute; discriminate]. Qed.
#[global] Opaque turns16.

Lemma replicate_S_snoc {A} (n : nat) (x : A) (l k : list A) : (l ++ [x]) ++ replicate n x ++ k = l ++ replicate (S n) x ++ k.
Proof. by rewrite <- app_assoc. Qed.

Lemma pad_pre_text (fuel : nat) (c w : Z) (st : list Z) :
  -32767 <= w <= 32767 -> w < Z.of_nat fuel -> (0 < fuel)%nat ->
  pad_pre fuel c w st = Ret (Z.min w 0 - 1, st ++ replicate (Z.to_nat w) (u8 c)).
Proof.
  revert w st. induction fuel as [|fuel IH]; intros w st Hw Hf H0; [lia|]. cbn [pad_pre]. rewrite (s16_id (w - 1)) by lia.
  destruct (Z.leb_spec 0 (w - 1)).
  - cbn [putc Text res_bind]. destruct fuel as [|fuel]; [lia|]. rewrite IH by lia. do 2 f_equal; [lia|].
    rewrite <- app_assoc. f_equal. replace (Z.to_nat w) with (S (Z.to_nat (w - 1))) by lia. done.
  - replace (Z.to_nat w) with O by lia. cbn [replicate]. rewrite app_nil_r. do 2 f_equal. lia.
Qed.
Lemma pad_post_text (fuel : nat) (n w : Z) (st : list Z) :
  0 <= n -> -32767 <= w <= 32767 -> w - n < Z.of_nat fuel -> (0 < fuel)%nat ->
  pad_post fuel n w st = Ret (Z.min w n - 1, st ++ replicate (Z.to_nat (w - n)) (ch " ")).
Proof.
  intros Hn. revert w st. induction fuel as [|fuel IH]; intros w st Hw Hf H0; [lia|]. cbn [pad_post].
  destruct (Z.ltb_spec n w).
  - cbn [putc Text res_bind]. destruct fuel as [|fuel]; [lia|]. rewrite (s16_id (w - 1)) by lia.
    rewrite IH by lia. do 2 f_equal; [lia|].
    rewrite <- app_assoc. f_equal. replace (Z.to_nat (w - n)) with (S (Z.to_nat (w - 1 - n))) by lia. done.
  - replace (Z.to_nat (w - n)) with O by lia. cbn [replicate]. rewrite app_nil_r, s16_id by lia. do 2 f_equal. lia.
Qed.
Lemma pad_zeros_text (fuel : nat) (i p : Z) (st : list Z) :
  0 <= i <= p -> p <= 32767 -> p - i < Z.of_nat fuel ->
  pad_zeros fuel i p st = Ret (st ++ replicate (Z.to_nat (p - i)) (ch "0")).
Proof.
  revert p st. induction fuel as [|fuel IH]; intros p st Hp Hm Hf; [lia|]. cbn [pad_zeros]. rewrite (s16_id (p - 1)) by lia.
  destruct (Z.leb_spec i (p - 1)).
  - cbn [putc Text res_bind]. rewrite IH by lia. f_equal. rewrite <- app_assoc. f_equal.
    replace (Z.to_nat (p - i)) with (S (Z.to_nat (p - 1 - i))) by lia. done.
  - replace (Z.to_nat (p - i)) with O by lia. cbn [replicate]. by rewrite app_nil_r.
Qed.
Lemma put_tmp_text (i : nat) (tmp st : list Z) :
  (i <= length tmp)%nat -> Forall (in_u 8) tmp -> put_tmp i tmp st = Ret (st ++ reverse (take i tmp)).
Proof.
  revert st. induction i as [|i IH]; intros st Hi Hu; cbn [put_tmp]; [by rewrite app_nil_r|].
  destruct (lookup_lt_is_Some_2 tmp i ltac:(lia)) as [c E]. rewrite E. cbn [deref res_bind putc Text].
  rewrite IH by (done || lia). rewrite (take_S_r _ _ _ E), reverse_app, <- app_assoc. change (reverse [c]) with [c].
  by rewrite (wrap_id 8 c (Forall_lookup_1 _ _ _ _ Hu E)).
Qed.

(** ** The text of a number *)

Definition number_text (num : Z) (spec : printf_spec) : list Z :=
  let fl := flags spec in
  let b := base spec in
  let locase := Z.land fl SMALL in
  let neg := has fl SIGN && (s64 num <? 0) in
  let sgn := if neg then [ch "-"] else if has fl SIGN && has fl PLUS then [ch "+"]
             else if has fl SIGN && has fl SPACE then [ch " "] else [] in
  let pfx := if has fl SPECIAL && negb (b =? 10) then ch "0" :: (if b =? 16 then [Z.lor (ch "X") locase] else []) else [] in
  let ds := digits_text b locase (if neg then - s64 num else num) in
  let body := replicate (Z.to_nat (precision spec - len ds)) (ch "0") ++ ds in
  let k := Z.to_nat (field_width spec - len sgn - len pfx - len body) in
  if has fl LEFT then sgn ++ pfx ++ body ++ replicate k (ch " ")
  else if has fl ZEROPAD then sgn ++ pfx ++ replicate k (ch "0") ++ body
  else replicate k (ch " ") ++ sgn ++ pfx ++ body.

(** A specification as the format gives it; widths and precisions up to this one do not wrap around. *)
Definition spec_ok (spec : printf_spec) : Prop :=
  base_ok (base spec) /\ 0 <= flags spec < 256 /\ -1 <= field_width spec <= 32767 /\ -1 <= precision spec <= 32700.

(** The flags after the test of [LEFT]. *)
Definition left_flags (f : Z) : Z := if has f LEFT then Z.land f (u8 (Z.lnot ZEROPAD)) else f.
Lemma flags_facts (f : Z) : 0 <= f < 256 ->
  locase_ok (Z.land f SMALL) /\ has (left_flags f) LEFT = has f LEFT /\ has (left_flags f) SIGN = has f SIGN /\
  has (left_flags f) PLUS = has f PLUS /\ has (left_flags f) SPACE = has f SPACE /\
  has (left_flags f) ZEROPAD = has f ZEROPAD && negb (has f LEFT) /\ has (left_flags f) (ZEROPAD + LEFT) = has f ZEROPAD || has f LEFT.
Proof.
  intros H. set (t := fun f => (((Z.land f SMALL =? 0) || (Z.land f SMALL =? 32)) &&
    Bool.eqb (has (left_flags f) LEFT) (has f LEFT) && Bool.eqb (has (left_flags f) SIGN) (has f SIGN) &&
    Bool.eqb (has (left_flags f) PLUS) (has f PLUS) && Bool.eqb (has (left_flags f) SPACE) (has f SPACE) &&
    Bool.eqb (has (left_flags f) ZEROPAD) (has f ZEROPAD && negb (has f LEFT)) &&
    Bool.eqb (has (left_flags f) (ZEROPAD + LEFT)) (has f ZEROPAD || has f LEFT))%bool).
  assert (t f = true) as Ht by (apply (test_from_true 256 0 t); [vm_compute; reflexivity|lia]).
  unfold t in Ht. rewrite !andb_true_iff, !eqb_true_iff, orb_true_iff, !Z.eqb_eq in Ht. unfold locase_ok. tauto.
Qed.

Lemma ch_u8 (a : ascii) : in_u 8 (ch a).
Proof. unfold ch. pose proof (N_ascii_bounded a). split; [lia|]. change (2 ^ 8) with 256. lia. Qed.
Arguments ch_u8 _%_char.
Lemma x_u8 (l : Z) : locase_ok l -> in_u 8 (Z.lor (ch "X") l).
Proof. intros [-> | ->]; [change (Z.lor (ch "X") 0) with 88|change (Z.lor (ch "X") 32) with 120]; pow_lia. Qed.
(** The sign and what is left of the number and the width. *)
Lemma number_sign_spec (f num w : Z) : in_u 64 num -> -32767 <= w <= 32767 ->
  let neg := has f SIGN && (s64 num <? 0) in
  let sgn := if neg then [ch "-"] else if has f SIGN && has f PLUS then [ch "+"] else if has f SIGN && has f SPACE then [ch " "] else [] in
  exists sign, number_sign f num w = (sign, if neg then - s64 num else num, w - len sgn) /\
    in_u 64 (if neg then - s64 num else num) /\ sgn = (if sign =? 0 then [] else [sign]) /\ in_u 8 sign.
Proof.
  intros Hu Hw. cbn zeta. unfold number_sign. pose proof (swrap_range 64 num ltac:(lia)) as Hs.
  assert (s64 num < 0 -> in_u 64 (- s64 num)) as Hn by (intros; unfold in_s in Hs; pow_lia).
  destruct (has f SIGN); cbn [andb].
  2: { exists 0. cbn [length]. rewrite Z.sub_0_r. split_and!; [done..|pow_lia]. }
  destruct (Z.ltb_spec (s64 num) 0).
  { exists (ch "-"). rewrite (wrap_id 64) by auto. rewrite s16_id by lia. split_and!; [done|auto|done|apply ch_u8..]. }
  destruct (has f PLUS); [exists (ch "+"); rewrite s16_id by lia; split_and!; [done|done|done|apply ch_u8..]|].
  destruct (has f SPACE); [exists (ch " "); rewrite s16_id by lia; split_and!; [done|done|done|apply ch_u8..]|].
  exists 0. cbn [length]. rewrite Z.sub_0_r. split_and!; [done..|pow_lia].
Qed.

Lemma putc_if_text (b : bool) (c : Z) (st : list Z) : in_u 8 c -> putc_if b c st = Ret (st ++ (if b then [c] else [])).
Proof. intros H. unfold putc_if. destruct b; cbn [putc Text]; [by rewrite (wrap_id 8 c H)|by rewrite app_nil_r]. Qed.
Lemma pad_if_text (b : bool) (c w : Z) (st : list Z) : -32767 <= w <= 32767 -> in_u 8 c ->
  (if b then pad_pre turns16 c w st else Ret (w, st)) =
  Ret (if b then Z.min w 0 - 1 else w, st ++ (if b then replicate (Z.to_nat w) c else [])).
Proof.
  intros Hw Hc. destruct b; [|by rewrite app_nil_r]. pose proof turns16_eq. rewrite pad_pre_text by lia. by rewrite (wrap_id 8 c Hc).
Qed.
Lemma digits_text_u8 (b l num : Z) : base_ok b -> locase_ok l -> in_u 64 num -> Forall (in_u 8) (digit_code l <$> digits_of b num).
Proof.
  intros Hb Hl Hu. rewrite <- (reverse_involutive (digit_code l <$> _)). apply Forall_reverse.
  eapply Forall_impl; [by apply (digits_text_chars b l num)|]. intros c [Hc _]. pow_lia.
Qed.

(** The layout, for a width that does not wrap around when it is counted down. *)
Lemma number_emit_text (f sign locase : Z) (np hex : bool) (tmp : list Z) (w p : Z) (st : list Z) :
  -32700 - 60 <= w <= 32767 -> len tmp <= p <= 32767 -> Forall (in_u 8) tmp -> in_u 8 sign -> locase_ok locase ->
  has f (ZEROPAD + LEFT) = has f ZEROPAD || has f LEFT -> has f ZEROPAD && has f LEFT = false ->
  let sgn := if sign =? 0 then [] else [sign] in
  let pfx := if np then ch "0" :: (if hex then [Z.lor (ch "X") locase] else []) else [] in
  let body := replicate (Z.to_nat (p - len tmp)) (ch "0") ++ reverse tmp in
  number_emit f sign locase np hex tmp w p st =
  Ret (st ++ (if has f LEFT then sgn ++ pfx ++ body ++ replicate (Z.to_nat w) (ch " ")
              else if has f ZEROPAD then sgn ++ pfx ++ replicate (Z.to_nat w) (ch "0") ++ body
              else replicate (Z.to_nat w) (ch " ") ++ sgn ++ pfx ++ body)).
Proof.
  intros Hw Hp Hu Hs Hl FZL FZ. cbn zeta. pose proof turns16_eq.
  pose proof (ch_u8 " ") as U1. pose proof (ch_u8 "0") as U2. pose proof (x_u8 locase Hl) as U3.
  unfold number_emit. rewrite FZL. rewrite (pad_if_text (negb (has f ZEROPAD || has f LEFT)) (ch " ") w st) by first [exact U1 | lia]. cbn [res_bind].
  rewrite (putc_if_text (negb (sign =? 0)) sign) by exact Hs. cbn [res_bind]. rewrite (putc_if_text np (ch "0")) by exact U2. cbn [res_bind].
  rewrite (putc_if_text (np && hex)) by exact U3. cbn [res_bind]. set (w2 := if negb (has f ZEROPAD || has f LEFT) then Z.min w 0 - 1 else w).
  assert (-32762 <= w2 <= 32767) as Hw2 by (unfold w2; destruct (negb _); lia).
  rewrite (pad_if_text (negb (has f LEFT)) (if has f ZEROPAD then ch "0" else ch " ") w2)
    by first [lia | destruct (has f ZEROPAD); assumption]. cbn [res_bind].
  rewrite pad_zeros_text by lia. cbn [res_bind]. rewrite put_tmp_text, firstn_all by first [lia | assumption]. cbn [res_bind].
  rewrite pad_pre_text by (try lia; destruct (negb (has f LEFT)); lia). cbn [res_bind]. rewrite (wrap_id 8 _ U1). f_equal. unfold w2. clear w2 Hw2.
  replace (if negb (sign =? 0) then [sign] else []) with (if sign =? 0 then [] else [sign]) by (by destruct (sign =? 0)).
  replace (if np then ch "0" :: (if hex then [Z.lor (ch "X") locase] else []) else [])
    with ((if np then [ch "0"] else []) ++ (if np && hex then [Z.lor (ch "X") locase] else [])) by (by destruct np, hex).
  assert (forall z, z <= 0 -> Z.to_nat z = O) as E0 by (intros; lia).
  destruct (has f ZEROPAD), (has f LEFT); try discriminate FZ; cbn [orb negb]; rewrite ?(E0 (Z.min _ 0 - 1)), ?(E0 (Z.min (Z.min _ 0 - 1) 0 - 1)) by lia;
    cbn [replicate]; rewrite ?app_nil_r, <- ?app_assoc; done.
Qed.

Lemma number_text_correct (num : Z) (spec : printf_spec) (st : list Z) :
  spec_ok spec -> in_u 64 num -> number num spec st = Ret (st ++ number_text num spec).
Proof.
  intros (Hb & Hf & Hw & Hp) Hu. pose proof (flags_facts _ Hf) as (Hl & FL & FS & FP & FSp & FZ & FZL).
  unfold number, number_text. fold (left_flags (flags spec)).
  destruct (number_sign_spec (left_flags (flags spec)) num (field_width spec) Hu ltac:(lia)) as (sign & -> & Hmag & Hsgn & Hsu).
  rewrite FS, FP, FSp in *. rewrite Hsgn.
  set (mag := if has (flags spec) SIGN && (s64 num <? 0) then - s64 num else num) in *.
  set (locase := Z.land (flags spec) SMALL) in *. rewrite (number_digits_correct (base spec) locase mag) by done. cbn [res_bind].
  set (np := has (flags spec) SPECIAL && negb (base spec =? 10)) in *. set (sgn := if sign =? 0 then [] else [sign]) in *.
  set (pfx := if np then ch "0" :: (if base spec =? 16 then [Z.lor (ch "X") locase] else []) else []).
  assert (len sgn <= 1 /\ len pfx <= 2) as [Ls Lp] by (unfold sgn, pfx; destruct (sign =? 0), np, (base spec =? 16); cbn; lia).
  set (w1 := field_width spec - len sgn) in *. unfold digits_text.
  replace (if np then if base spec =? 16 then s16 (s16 (w1 - 1) - 1) else s16 (w1 - 1) else w1) with (w1 - len pfx).
  2: { unfold pfx. destruct np, (base spec =? 16); cbn [length]; rewrite ?(s16_id (w1 - 1)) by (unfold w1; lia); rewrite ?s16_id by (unfold w1; lia); lia. }
  pose proof (length_digits_of (base spec) mag) as Hn. pose proof (digits_text_u8 (base spec) locase mag Hb Hl Hmag) as Htu.
  rewrite <- (length_fmap (digit_code locase)) in Hn. set (tmp := digit_code locase <$> digits_of (base spec) mag) in *.
  set (prec := if precision spec <? len tmp then s16 (len tmp) else precision spec).
  assert (prec = Z.max (precision spec) (len tmp)) as Eprec.
  { unfold prec. rewrite s16_id by lia. destruct (Z.ltb_spec (precision spec) (len tmp)); lia. }
  rewrite s16_id by (unfold w1; lia). rewrite number_emit_text; [|unfold w1; lia|lia|done..| |].
  - fold sgn pfx. rewrite FL, FZ, length_reverse, length_app, length_replicate, length_reverse.
    replace (Z.to_nat (prec - len tmp)) with (Z.to_nat (precision spec - len tmp)) by lia.
    replace (Z.to_nat (w1 - len pfx - prec)) with (Z.to_nat (w1 - len pfx - Z.of_nat (Z.to_nat (precision spec - len tmp) + length tmp))) by lia.
    by destruct (has (flags spec) LEFT), (has (flags spec) ZEROPAD).
  - rewrite FZL, FZ, FL. by destruct (has (flags spec) LEFT), (has (flags spec) ZEROPAD).
  - rewrite FZ, FL. by destruct (has (flags spec) LEFT), (has (flags spec) ZEROPAD).
Qed.

(** A number is printed as its sign, its prefix, the zeros the precision asks for and its digits, padded to the
    width on the left with spaces or, after the sign and the prefix, with zeros, or on the right. *)
Theorem number_layout (num : Z) (spec : printf_spec) :
  spec_ok spec -> in_u 64 num ->
  number num spec [] = Ret (number_text num spec) /\
  len (number_text num spec) >= field_width spec /\ len (number_text num spec) >= precision spec.
Proof.
  intros Hs Hu. split; [by rewrite number_text_correct|].
  unfold number_text. set (ds := digits_text _ _ _). destruct (has (flags spec) LEFT), (has (flags spec) ZEROPAD);
    rewrite !length_app, !length_replicate; lia.
Qed.

(** A specification without width and precision. *)
Definition plain (b fl : Z) : printf_spec := Printf_spec FORMAT_TYPE_NONE fl b 0 (-1) (-1).
Lemma plain_ok (b fl : Z) : base_ok b -> 0 <= fl < 256 -> spec_ok (plain b fl).
Proof. intros Hb Hf. split_and!; cbn; first [done | lia]. Qed.
Lemma number_text_plain (num b fl : Z) :
  has fl SPECIAL = false -> has fl LEFT = false -> has fl ZEROPAD = false -> has fl PLUS = false -> has fl SPACE = false ->
  let neg := has fl SIGN && (s64 num <? 0) in
  number_text num (plain b fl) = (if neg then [ch "-"] else []) ++ digits_text b (Z.land fl SMALL) (if neg then - s64 num else num).
Proof.
  intros F1 F2 F3 F4 F5. unfold number_text. cbn [plain flags base precision field_width]. rewrite F1, F2, F3, F4, F5, !andb_false_r. cbn [andb].
  set (ds := digits_text _ _ _). assert (forall z, z <= 0 -> Z.to_nat z = O) as E0 by (intros; lia).
  rewrite (E0 (-1 - len ds)) by lia. cbn [replicate app length]. rewrite E0 by lia. done.
Qed.

(** Reading a printed number, and the rest of the string after it. *)
Lemma reads_text (b l num : Z) (nl : list Z) (m : cmem) (p : Z) :
  base_ok b -> locase_ok l -> in_u 64 num -> tail_ok nl -> str_at m p (digits_text b l num ++ nl) ->
  simple_strtoull m p b = Ret (num, p + len (digits_text b l num)) /\ strict_strtoull m p b = Ret (0, num).
Proof.
  intros Hb Hl Hu Hnl H. assert (forall c r, nl = c :: r -> c = 10) as Hc by (destruct Hnl as [-> | ->]; naive_solver). split.
  - destruct H as [_ H]. rewrite <- app_assoc in H. destruct Hnl as [-> | ->]; cbn [app] in H.
    + apply (simple_strtoull_spec b l num 0 []); [done..|apply stops_0|done|done].
    + apply (simple_strtoull_spec b l num 10 [0]); [done..|apply stops_nl|done|done].
  - rewrite (strict_strtoull_run b l num nl m p); [by rewrite bool_decide_true|done..| |done|].
    + pose proof (length_digits_of b num). rewrite length_app. unfold digits_text. rewrite length_reverse, length_fmap.
      assert (length nl <= 1)%nat by (destruct Hnl as [-> | ->]; cbn; lia). change (2 ^ 64) with 18446744073709551616. lia.
    + intros c r ->. rewrite (Hc c r eq_refl). split; [apply stops_nl|done].
Qed.

Lemma swrap_wrap_id (w z : Z) : 0 < w -> swrap w (wrap w z) = swrap w z.
Proof.
  intros Hw. destruct (wrap_eqm w z Hw) as [k ->]. unfold swrap. f_equal.
  replace (z + k * 2 ^ w + 2 ^ (w - 1)) with (z + 2 ^ (w - 1) + k * 2 ^ w) by lia. apply Z.mod_add. lia.
Qed.
Lemma reads_signed (num : Z) (nl : list Z) (m : cmem) (p : Z) :
  in_u 64 num -> tail_ok nl ->
  let text := (if s64 num <? 0 then [ch "-"] else []) ++ digits_text 10 0 (if s64 num <? 0 then - s64 num else num) in
  str_at m p (text ++ nl) -> simple_strtoll m p 10 = Ret (s64 num, p + len text) /\ strict_strtoll m p 10 = Ret (0, s64 num).
Proof.
  intros Hu Hnl. cbn zeta. pose proof (swrap_range 64 num ltac:(lia)) as Hs. assert (base_ok 10) as Hb by (by right; left).
  unfold simple_strtoll, strict_strtoll. destruct (Z.ltb_spec (s64 num) 0) as [Hneg|Hpos].
  - assert (in_u 64 (- s64 num)) as Hm by (unfold in_s in Hs; pow_lia). cbn [app]. intros H. pose proof H as [_ R]. cbn [app] in R. rd_at R.
    rewrite Z.eqb_refl. apply str_at_cons in H as (_ & _ & H).
    destruct (reads_text 10 0 (- s64 num) nl m (p + 1) Hb ltac:(by left) Hm Hnl H) as [-> ->]. cbn [res_bind length Z.eqb].
    assert (s64 (u64 (s64 num)) = s64 num) as E.
    { by rewrite wrap_swrap, swrap_wrap_id by lia. }
    rewrite Z.opp_involutive, E. split; [do 2 f_equal; lia|]. do 2 f_equal.
    destruct (decide (s64 num = - 2 ^ 63)) as [->|N]; [vm_compute; reflexivity|]. unfold in_s in Hs.
    rewrite (swrap_id 64 (- s64 num)) by first [lia | pow_lia]. rewrite Z.opp_involutive. by apply swrap_id; [lia|].
  - cbn [app]. intros H. pose proof (digits_text_chars 10 0 num Hb ltac:(by left) Hu) as Hc.
    pose proof (digits_text_nonnil 10 0 num) as N. pose proof (reads_text 10 0 num nl m p Hb ltac:(by left) Hu Hnl H) as [E1 E2].
    destruct H as [_ H]. destruct (digits_text 10 0 num) as [|c t]; [done|]. cbn [app] in H. rd_at H.
    apply Forall_cons in Hc as [[Hc _] _]. change (ch "-") with 45. rewrite (proj2 (Z.eqb_neq c 45)) by lia. rewrite E1, E2. done.
Qed.

(** C32: what [number] prints for a number of 64 bits, the string functions read back: unsigned in any base, in either
    case of the letters, and signed in base 10; the strict ones as well, with or without a newline at the end. *)
Theorem number_strto_roundtrip (num b fl : Z) (nl : list Z) (m : cmem) (p : Z) :
  in_u 64 num -> base_ok b -> fl = 0 \/ fl = SMALL -> tail_ok nl ->
  (exists text, number num (plain b fl) [] = Ret text /\
    (str_at m p (text ++ nl) -> simple_strtoull m p b = Ret (num, p + len text) /\ strict_strtoull m p b = Ret (0, num))) /\
  (exists text, number num (plain 10 SIGN) [] = Ret text /\
    (str_at m p (text ++ nl) -> simple_strtoll m p 10 = Ret (s64 num, p + len text) /\ strict_strtoll m p 10 = Ret (0, s64 num))).
Proof.
  intros Hu Hb Hf Hnl.
  assert (0 <= fl < 256 /\ locase_ok (Z.land fl SMALL)) as [Hf' Hl] 
    by (destruct Hf as [-> | ->]; [split; [lia|by left]|split; [unfold SMALL; lia|by right]]).
  pose proof (reads_text b (Z.land fl SMALL) num nl m p Hb Hl Hu Hnl) as Hread.
  split; (eexists; split; [rewrite number_text_correct by first [done | apply plain_ok; [first [done | by right; left]|first [done | unfold SIGN; lia]]]; reflexivity|]).
  - rewrite number_text_plain by (destruct Hf as [-> | ->]; reflexivity).
    replace (has fl SIGN) with false by (destruct Hf as [-> | ->]; reflexivity). exact Hread.
  - rewrite number_text_plain by reflexivity. exact (reads_signed num nl m p Hu Hnl).
Qed.

Module Demo.
(** The conversion %#8.4x. *)
Definition wide_hex : printf_spec := Printf_spec FORMAT_TYPE_NONE (Z.lor SPECIAL SMALL) 16 0 8 4.
Lemma number_layout_witness : number 0xab wide_hex [] = Ret (codes "  0x00ab").
Proof.
  destruct (number_layout 0xab wide_hex) as [E _]; [split; [by right; right|cbv; split_and!; congruence]|pow_lia|].
  rewrite E. f_equal.
Defined.
Lemma number_strto_roundtrip_witness :
  exists text, number 255 (plain 16 SMALL) [] = Ret text /\ text = codes "ff" /\
    (str_at (list_to_map [(100, 102); (101, 102); (102, 10); (103, 0)]) 100 (text ++ [10]) ->
     strict_strtoull (list_to_map [(100, 102); (101, 102); (102, 10); (103, 0)]) 100 16 = Ret (0, 255)).
Proof.
  destruct (number_strto_roundtrip 255 16 SMALL [10] (list_to_map [(100, 102); (101, 102); (102, 10); (103, 0)]) 100) as [(text & E & H) _];
    [pow_lia|by right; right|by right|by right|].
  exists text. split; [exact E|]. split; [|intros Hs; apply (H Hs)].
  assert (number 255 (plain 16 SMALL) [] = Ret (codes "ff")) as E' by (vm_compute; reflexivity). rewrite E' in E. by injection E as <-.
Defined.
End Demo.
