(* ===== verification/VsprintfPtr.v ===== *)
(** * The extended pointer formats

    The texts of addresses and identifiers: they consist of characters and fit the local arrays they are put
    together in. *)
From Stdlib Require Import Ascii.
From Stdlib Require String.
From S2P Require Import Prelude CString CStringSpec Vsprintf VsprintfNum.
Import String.StringSyntax.

(** The bytes of an address. *)
Definition octets (n : nat) (l : list Z) : Prop := length l = n /\ Forall (fun c => 0 <= c < 256) l.

(** A piece of text: characters, at most [k] of them. *)
Definition piece (k : Z) (l : list Z) : Prop := chars l /\ len l <= k.

Lemma piece_app (j k : Z) (a b : list Z) : piece j a -> piece k b -> piece (j + k) (a ++ b).
Proof. intros [Ha La] [Hb Lb]. split; [by apply chars_app|]. rewrite length_app. lia. Qed.
Lemma piece_nil : piece 0 [].
Proof. split; [constructor|done]. Qed.
Lemma piece_one (c : Z) : 0 < c < 256 -> piece 1 [c].
Proof. intros H. split; [constructor; [done|constructor]|done]. Qed.
Lemma piece_weaken (j k : Z) (l : list Z) : piece j l -> j <= k -> piece k l.
Proof. intros [H L] Hj. split; [done|lia]. Qed.
Lemma piece_if (b : bool) (k : Z) (l : list Z) : 0 <= k -> piece k l -> piece k (if b then l else []).
Proof. intros Hk H. destruct b; [done|]. eapply piece_weaken; [apply piece_nil|done]. Qed.
Lemma piece_concat (k : Z) (ls : list (list Z)) : 0 <= k -> Forall (piece k) ls -> piece (k * len ls) (concat ls).
Proof.
  intros Hk H. induction H as [|l ls Hl _ IH]; [eapply piece_weaken; [apply piece_nil|lia]|]. cbn [concat length].
  eapply piece_weaken; [by apply piece_app|]. lia.
Qed.
Lemma Forall_imap {A B} (P : B -> Prop) (f : nat -> A -> B) (l : list A) : (forall i x, l !! i = Some x -> P (f i x)) -> Forall P (imap f l).
Proof.
  intros H. apply Forall_lookup. intros i y E. rewrite list_lookup_imap in E. apply fmap_Some in E as (x & E & ->). by apply H.
Qed.

Lemma hex_asc_char (x : Z) : 0 <= x < 16 -> 0 < default 0 (aget hex_asc x) < 256.
Proof.
  intros H. assert ((0 <? default 0 (aget hex_asc x)) && (default 0 (aget hex_asc x) <? 256) = true) as [H1%Z.ltb_lt H2%Z.ltb_lt]%andb_true_iff; [|done].
  apply (test_from_true 16 0 (fun x => (0 <? default 0 (aget hex_asc x)) && (default 0 (aget hex_asc x) <? 256))); [vm_compute; reflexivity|lia].
Qed.
Lemma hex_lo_char (x : Z) : 0 < hex_asc_lo x < 256.
Proof. apply hex_asc_char. change 0x0f with (Z.ones 4). rewrite Z.land_ones by lia. apply Z.mod_pos_bound. lia. Qed.
Lemma hex_hi_char (x : Z) : 0 < hex_asc_hi x < 256.
Proof.
  apply hex_asc_char. rewrite Z.shiftr_land. change (Z.shiftr 0xf0 4) with (Z.ones 4). rewrite Z.land_ones by lia. apply Z.mod_pos_bound. lia.
Qed.
Lemma pack_hex_piece (b : Z) : piece 2 (pack_hex_byte b).
Proof. split; [|done]. constructor; [apply hex_hi_char|]. constructor; [apply hex_lo_char|constructor]. Qed.

Lemma mac_piece (addr : list Z) (colons fddi : bool) : octets 6 addr -> piece 17 (mac_address_text addr colons fddi).
Proof.
  intros [Hl _]. unfold mac_address_text. do 7 (destruct addr as [|? addr]; try discriminate Hl). cbn -[pack_hex_byte ch andb].
  rewrite !andb_false_r, !andb_true_r, !app_nil_r.
  assert (forall b c, piece (2 + 1) (pack_hex_byte b ++ (if c : bool then [if fddi then ch "-" else ch ":"] else []))) as Hp.
  { intros b c. apply piece_app; [apply pack_hex_piece|]. apply piece_if; [lia|]. apply piece_one. destruct fddi; vm_compute; split; reflexivity. }
  change 17 with ((2 + 1) + ((2 + 1) + ((2 + 1) + ((2 + 1) + ((2 + 1) + 2))))). repeat (apply piece_app; [apply Hp|]). apply pack_hex_piece.
Qed.

Lemma dec_byte_piece (b : Z) : 0 <= b < 256 -> piece 3 (reverse (put_dec_trunc b)).
Proof.
  intros Hb. set (t := fun b => (length (put_dec_trunc b) <=? 3)%nat && forallb (fun c => (0 <? c) && (c <? 256)) (put_dec_trunc b)).
  assert (t b = true) as [H1%Nat.leb_le H2]%andb_true_iff by (apply (test_from_true 256 0 t); [vm_compute; reflexivity|lia]).
  split; [|rewrite length_reverse; lia]. apply Forall_reverse, Forall_forall. intros c Hc. rewrite forallb_forall in H2.
  apply list_elem_of_In, H2, andb_true_iff in Hc as [Hc1%Z.ltb_lt Hc2%Z.ltb_lt]. done.
Qed.
Lemma octet_at (n : nat) (l : list Z) (i : nat) : octets n l -> 0 <= default 0 (l !! i) < 256.
Proof. intros [_ H]. destruct (l !! i) eqn:E; cbn; [|lia]. by apply (Forall_lookup_1 _ _ _ _ H E). Qed.
Lemma dot_char : piece 1 [ch "."]. Proof. apply piece_one. vm_compute. split; reflexivity. Qed.
Lemma zero_char : piece 1 [ch "0"]. Proof. apply piece_one. vm_compute. split; reflexivity. Qed.
Lemma colon_char : piece 1 [ch ":"]. Proof. apply piece_one. vm_compute. split; reflexivity. Qed.
Lemma ip4_quad_piece (addr : list Z) (zeros : bool) (i index : nat) : octets 4 addr ->
  piece (3 + if Nat.ltb i 3 then 1 else 0) (ip4_quad addr zeros i index).
Proof.
  intros Ho. unfold ip4_quad. pose proof (dec_byte_piece _ (octet_at 4 addr index Ho)) as [Hc Hl].
  assert (put_dec_trunc (default 0 (addr !! index)) <> []) as Hp by discriminate.
  set (temp := put_dec_trunc (default 0 (addr !! index))) in *. clearbody temp. rewrite length_reverse in Hl.
  assert (0 < length temp)%nat by (destruct temp; [done|cbn; lia]). rewrite app_assoc.
  apply piece_app; [|destruct (Nat.ltb i 3); [apply dot_char|apply piece_nil]].
  destruct zeros; [|cbn [app]; split; [done|by rewrite length_reverse]].
  destruct (Nat.ltb_spec (length temp) 3), (Nat.ltb_spec (length temp) 2);
    (split; [rewrite !chars_app; split_and!; first [done | apply zero_char | constructor]|rewrite !length_app, length_reverse; cbn [length]; lia]).
Qed.
Lemma ip4_piece (addr : list Z) (zeros : bool) (c : Z) : octets 4 addr -> piece 15 (ip4_string addr zeros (ip4_order c)).
Proof.
  intros Ho. assert (forall a b c d, piece 15 (ip4_string addr zeros [a; b; c; d])) as Hall.
  { intros a b c' d. unfold ip4_string. cbn -[ip4_quad]. rewrite app_nil_r. change 15 with ((3 + 1) + ((3 + 1) + ((3 + 1) + (3 + 0)))).
    repeat (apply piece_app; [by apply (ip4_quad_piece addr zeros)|]). by apply (ip4_quad_piece addr zeros 3). }
  unfold ip4_order. destruct (_ || _); apply Hall.
Qed.
Lemma ip6_piece (addr : list Z) (colons : bool) : octets 16 addr -> piece 39 (ip6_string addr colons).
Proof.
  intros [Hl _]. unfold ip6_string. do 17 (destruct addr as [|? addr]; try discriminate Hl). cbn -[pack_hex_byte ch andb].
  rewrite !andb_false_r, !andb_true_r, !app_nil_r.
  assert (forall b (c : bool), piece (2 + 1) (pack_hex_byte b ++ (if c then [ch ":"] else []))) as Hp.
  { intros b c. apply piece_app; [apply pack_hex_piece|]. apply piece_if; [lia|apply colon_char]. }
  change 39 with (2 + (3 + (2 + (3 + (2 + (3 + (2 + (3 + (2 + (3 + (2 + (3 + (2 + (3 + (2 + 2))))))))))))))).
  repeat (apply piece_app; [first [apply pack_hex_piece | apply Hp]|]). apply pack_hex_piece.
Qed.

Lemma s6_be_range (n : nat) (addr : list Z) (i : nat) : Forall (fun c => 0 <= c < 256) addr -> 0 <= s6_be n addr i < 256 ^ Z.of_nat n.
Proof.
  intros H. unfold s6_be. set (l := take n (drop (n * i) addr)).
  assert (Forall (fun c => 0 <= c < 256) l) as Hl by (apply Forall_take, Forall_drop, H).
  assert (length l <= n)%nat as Hn by (unfold l; rewrite length_take; lia). clearbody l. clear H.
  assert (0 <= foldl (fun acc b => acc * 256 + b) 0 l < 256 ^ len l) as Hf.
  { induction l as [|c l IH] using rev_ind; [cbn; lia|]. apply Forall_app in Hl as [Hl Hc]. rewrite Forall_singleton in Hc.
    rewrite foldl_app, length_app in *. cbn [foldl length] in *. specialize (IH Hl ltac:(lia)).
    replace (Z.of_nat (length l + 1)) with (len l + 1) by lia. rewrite Z.pow_add_r, Z.pow_1_r by lia. lia. }
  assert (256 ^ len l <= 256 ^ Z.of_nat n) by (apply Z.pow_le_mono_r; lia). lia.
Qed.
Lemma ip6_field_piece (addr : list Z) (i : nat) : piece 4 (ip6_field addr i).
Proof.
  unfold ip6_field. pose proof pack_hex_piece as Hh. assert (forall x, piece 1 [hex_asc_lo x]) as H1 by (intros; apply piece_one, hex_lo_char).
  repeat case_match; first [eapply piece_weaken; [first [apply piece_app; [apply Hh|apply Hh] | apply piece_app; [apply H1|apply Hh] | apply Hh | apply H1]|lia]].
Qed.

(** A run of zero fields that is replaced has at least two fields. *)
Lemma zero_run_range (n : nat) (addr : list Z) (i : nat) : 0 <= zero_run n addr i <= Z.of_nat n.
Proof. revert i. induction n as [|n IH]; intros i; cbn [zero_run]; [lia|]. destruct (_ =? 0); [|lia]. specialize (IH (S i)). lia. Qed.
Lemma longest_run_range (addr : list Z) (range : nat) : (range <= 8)%nat ->
  let '(c, n) := longest_run addr range in c = -1 \/ (0 <= c /\ 2 <= n /\ c + n <= Z.of_nat range).
Proof.
  intros Hr. unfold longest_run.
  assert (forall l, (forall i, i ∈ l -> (i < range)%nat) -> forall p,
    ((p.1 = -1 /\ p.2 = 1) \/ (0 <= p.1 /\ 2 <= p.2 /\ p.1 + p.2 <= Z.of_nat range)) ->
    let '(c, n) := foldl (fun '(colonpos, longest) (i : nat) => let z := u8 (zero_run (range - i) addr i) in
                     if longest <? z then (Z.of_nat i, z) else (colonpos, longest)) p l in
    c = -1 \/ (0 <= c /\ 2 <= n /\ c + n <= Z.of_nat range)) as Hf.
  { induction l as [|i l IH]; intros Hl [c n] Hp; cbn [foldl]; [cbn in Hp; tauto|]. apply IH; [intros j Hj; apply Hl; by right|].
    pose proof (zero_run_range (range - i) addr i) as Hz. assert (i < range)%nat by (apply Hl; by left).
    rewrite (wrap_id 8) by pow_lia. destruct (Z.ltb_spec n (zero_run (range - i) addr i)); cbn in *; lia. }
  apply Hf; [|by left]. intros i Hi%elem_of_seq. lia.
Qed.
Lemma ip6_emit_piece (n : nat) (addr : list Z) (range : nat) (c k i : Z) (nc : bool) :
  c = -1 \/ (0 <= c /\ 2 <= k /\ c + k <= Z.of_nat range) -> 0 <= i ->
  piece (if i <? Z.of_nat range then 5 * (Z.of_nat range - i) - (if nc then 0 else 1) else 0) (ip6_emit n addr range c k i nc).1.
Proof.
  intros Hc. revert i nc. induction n as [|n IH]; intros i nc Hi; cbn [ip6_emit].
  { eapply piece_weaken; [apply piece_nil|]. destruct (Z.ltb_spec i (Z.of_nat range)), nc; lia. }
  destruct (Z.ltb_spec i (Z.of_nat range)) as [Hlt|]; [|apply piece_nil]. destruct (Z.eqb_spec i c) as [->|N].
  - pose proof (IH (c + k - 1 + 1) false ltac:(lia)) as Hr. destruct (ip6_emit n addr range c k (c + k - 1 + 1) false) as [l nc']. cbn [fst] in *.
    eapply piece_weaken; [apply piece_app; [apply piece_if; [|apply colon_char]; lia|apply piece_app; [apply colon_char|exact Hr]]|].
    destruct (Z.ltb_spec (c + k - 1 + 1) (Z.of_nat range)), nc; lia.
  - pose proof (IH (i + 1) true ltac:(lia)) as Hr. destruct (ip6_emit n addr range c k (i + 1) true) as [l nc']. cbn [fst] in *.
    assert (piece (if nc then 1 else 0) (if nc then [ch ":"] else [])) as Hcol by (destruct nc; [apply colon_char|apply piece_nil]).
    eapply piece_weaken; [apply piece_app; [exact Hcol|apply piece_app; [apply ip6_field_piece|exact Hr]]|].
    destruct (Z.ltb_spec (i + 1) (Z.of_nat range)), nc; lia.
Qed.
Lemma ip6_compressed_piece (addr : list Z) : octets 16 addr -> piece 45 (ip6_compressed_string addr).
Proof.
  intros [Hl Ho]. unfold ip6_compressed_string. set (v4 := ipv6_addr_v4mapped addr || ipv6_addr_is_isatap addr).
  assert (octets 4 (drop 12 addr)) as H4 by (split; [rewrite length_drop; lia|by apply Forall_drop]).
  pose proof (longest_run_range addr (if v4 then 6%nat else 8%nat) ltac:(destruct v4; lia)) as Hr.
  destruct (longest_run addr (if v4 then 6%nat else 8%nat)) as [c k].
  pose proof (ip6_emit_piece 9 addr (if v4 then 6%nat else 8%nat) c k 0 false Hr ltac:(lia)) as He.
  destruct (ip6_emit 9 addr (if v4 then 6%nat else 8%nat) c k 0 false) as [l nc]. cbn [fst] in He. destruct v4.
  - change 45 with (29 + (1 + 15)). apply piece_app; [exact He|]. apply piece_app; [apply piece_if; [lia|apply colon_char]|by apply ip4_piece].
  - rewrite app_nil_r. eapply piece_weaken; [exact He|]. cbn. lia.
Qed.

Lemma toupper_char (c : Z) : 0 < c < 256 -> 0 < toupper c < 256.
Proof.
  intros H. set (t := fun c => (c =? 0) || ((0 <? toupper c) && (toupper c <? 256))).
  assert (t c = true) as Ht by (apply (test_from_true 256 0 t); [vm_compute; reflexivity|lia]). unfold t in Ht.
  apply orb_true_iff in Ht as [Ht%Z.eqb_eq|[H1%Z.ltb_lt H2%Z.ltb_lt]%andb_true_iff]; lia.
Qed.
Lemma uuid_piece (addr : list Z) (c : Z) : piece 36 (uuid_text addr c).
Proof.
  unfold uuid_text. set (index := if (c =? ch "L") || (c =? ch "l") then uuid_le else uuid_be).
  set (l := concat (imap _ index)). assert (piece 36 l) as Hl.
  { assert (piece 1 [ch "-"]) as Hd by (apply piece_one; vm_compute; split; reflexivity). pose proof pack_hex_piece as Hh.
    unfold l, index. destruct (_ || _); unfold uuid_le, uuid_be; cbn -[pack_hex_byte ch app default lookup concat]; unfold concat; rewrite !app_nil_r;
      change 36 with (2 + (2 + (2 + ((2 + 1) + (2 + ((2 + 1) + (2 + ((2 + 1) + (2 + ((2 + 1) + (2 + (2 + (2 + (2 + (2 + 2)))))))))))))));
      repeat (apply piece_app; [first [apply piece_app; [apply Hh|apply Hd] | apply Hh]|]); apply Hh. }
  clearbody l. destruct ((c =? ch "L") || (c =? ch "B")); [|exact Hl]. destruct Hl as [Hc Hn]. split; [|by rewrite length_fmap]. apply Forall_fmap. eapply Forall_impl; [exact Hc|].
  intros x. apply toupper_char.
Qed.

(** The texts of the extended pointer formats fit the arrays on the stack they are built in, with their final zero:
    18 bytes for a hardware address, 16 for an IPv4 address, 46 for an IPv6 address, compressed or not, and 37 for a UUID. *)
Theorem pointer_texts_fit (addr : list Z) (c : Z) (f1 f2 : bool) :
  (octets 6 addr -> len (mac_address_text addr f1 f2) + 1 <= 18) /\
  (octets 4 addr -> len (ip4_string addr f1 (ip4_order c)) + 1 <= 16) /\
  (octets 16 addr -> len (ip6_string addr f1) + 1 <= 46 /\ len (ip6_compressed_string addr) + 1 <= 46 /\ len (uuid_text addr c) + 1 <= 37).
Proof.
  split_and!; intros Ho.
  - destruct (mac_piece addr f1 f2 Ho). lia.
  - destruct (ip4_piece addr f1 c Ho). lia.
  - destruct (ip6_piece addr f1 Ho), (ip6_compressed_piece addr Ho), (uuid_piece addr c). lia.
Qed.

Module Demo.
Lemma pointer_texts_fit_witness :
  len (ip6_compressed_string [0; 0; 0; 0; 0; 0; 0; 0; 0; 0; 255; 255; 192; 168; 100; 200]) + 1 <= 46 /\
  ip6_compressed_string [0; 0; 0; 0; 0; 0; 0; 0; 0; 0; 255; 255; 192; 168; 100; 200] = codes "::ffff:192.168.100.200".
Proof.
  split; [|vm_compute; reflexivity].
  destruct (pointer_texts_fit [0; 0; 0; 0; 0; 0; 0; 0; 0; 0; 255; 255; 192; 168; 100; 200] (ch "I") true true) as (_ & _ & H).
  apply H. split; [reflexivity|]. repeat constructor; lia.
Defined.
End Demo.
