(* ===== verification/VsprintfBuf.v ===== *)
(** * Formatting into a buffer

    The code of [vsnprintf] does the same with any output device; so what it leaves in the buffer follows
    from the text it prints.  Every format ends, and needs the arguments that [demands] lists. *)
From Stdlib Require Import Ascii.
From S2P Require Import Prelude CString CStringSpec Vsprintf VsprintfNum VsprintfText VsprintfPtr.

(** ** Two devices *)

(** If the first run returns, so does the second, with related results. *)
Definition rres {A B} (Q : A -> B -> Prop) (r1 : res A) (r2 : res B) : Prop :=
  forall a, r1 = Ret a -> exists b, r2 = Ret b /\ Q a b.
Lemma rres_ret {A B} (Q : A -> B -> Prop) (a : A) (b : B) : Q a b -> rres Q (Ret a) (Ret b).
Proof. intros H a' [= <-]. eauto. Qed.
Lemma rres_bind {A B A' B'} (Q : A -> B -> Prop) (Q' : A' -> B' -> Prop) r1 r2 k1 k2 :
  rres Q r1 r2 -> (forall a b, Q a b -> rres Q' (k1 a) (k2 b)) -> rres Q' (res_bind r1 k1) (res_bind r2 k2).
Proof. intros H Hk a E. apply res_bind_Ret in E as (x & E1 & E2). destruct (H x E1) as (y & -> & Hq). by apply (Hk x y). Qed.
Lemma rres_same {A A' B'} (Q' : A' -> B' -> Prop) (r : res A) k1 k2 :
  (forall a, r = Ret a -> rres Q' (k1 a) (k2 a)) -> rres Q' (res_bind r k1) (res_bind r k2).
Proof. intros Hk a E. apply res_bind_Ret in E as (x & -> & E2). by apply (Hk x). Qed.
Lemma rres_fail {A B} (Q : A -> B -> Prop) (r1 : res A) (r2 : res B) : (forall a, r1 <> Ret a) -> rres Q r1 r2.
Proof. intros H a E. by destruct (H a). Qed.

Section Devices.
Context {S1 S2 : Type} `{Out S1} `{Out S2}.
Variable R : S1 -> S2 -> Prop.
Hypothesis putc_sim : forall c a b, R a b -> rres R (putc c a) (putc c b).
Hypothesis copyin_sim : forall m p n a b, 0 <= n -> R a b -> rres R (copyin m p n a) (copyin m p n b).
Hypothesis tell_sim : forall a b, R a b -> tell a = tell b.

Definition Rw (x : Z * S1) (y : Z * S2) : Prop := x.1 = y.1 /\ R x.2 y.2.

#[local] Set Default Proof Using "Type putc_sim".

(** Steps two runs of the same code side by side. *)
Ltac both :=
  repeat match goal with
  | |- rres _ (res_bind ?r _) (res_bind ?r _) => apply rres_same; intros ? ?
  | |- rres _ (res_bind (putc ?c ?a) _) (res_bind (putc ?c ?b) _) => apply (rres_bind R); [by apply putc_sim|intros ? ? ?]
  | |- rres _ (if ?b then _ else _) (if ?b then _ else _) => destruct b
  | |- rres _ (let '(_, _) := ?p in _) (let '(_, _) := ?p in _) => destruct p
  | |- rres _ (Ret _) (Ret _) => apply rres_ret
  | |- rres _ OutOfFuel _ => by apply rres_fail
  | |- rres _ Bug _ => by apply rres_fail
  | |- rres R (putc _ _) (putc _ _) => by apply putc_sim
  end; try done.

Lemma pad_pre_sim (fuel : nat) (c w : Z) (a : S1) (b : S2) : R a b -> rres Rw (pad_pre fuel c w a) (pad_pre fuel c w b).
Proof. revert w a b. induction fuel as [|fuel IH]; intros w a b Hab; cbn [pad_pre]; both. by apply IH. Qed.
Lemma pad_post_sim (fuel : nat) (n w : Z) (a : S1) (b : S2) : R a b -> rres Rw (pad_post fuel n w a) (pad_post fuel n w b).
Proof. revert w a b. induction fuel as [|fuel IH]; intros w a b Hab; cbn [pad_post]; both. by apply IH. Qed.
Lemma pad_zeros_sim (fuel : nat) (i p : Z) (a : S1) (b : S2) : R a b -> rres R (pad_zeros fuel i p a) (pad_zeros fuel i p b).
Proof. revert p a b. induction fuel as [|fuel IH]; intros p a b Hab; cbn [pad_zeros]; both. by apply IH. Qed.
Lemma pad_char_sim (fuel : nat) (w : Z) (a : S1) (b : S2) : R a b -> rres Rw (pad_char fuel w a) (pad_char fuel w b).
Proof. revert w a b. induction fuel as [|fuel IH]; intros w a b Hab; cbn [pad_char]; both. by apply IH. Qed.
Lemma put_tmp_sim (i : nat) (tmp : list Z) (a : S1) (b : S2) : R a b -> rres R (put_tmp i tmp a) (put_tmp i tmp b).
Proof. revert a b. induction i as [|i IH]; intros a b Hab; cbn [put_tmp]; both. by apply IH. Qed.
Lemma put_str_sim (n : nat) (m : cmem) (s : Z) (a : S1) (b : S2) : R a b -> rres R (put_str n m s a) (put_str n m s b).
Proof. revert s a b. induction n as [|n IH]; intros s a b Hab; cbn [put_str]; both. by apply IH. Qed.
Lemma putc_if_sim (c : bool) (x : Z) (a : S1) (b : S2) : R a b -> rres R (putc_if c x a) (putc_if c x b).
Proof. intros Hab. unfold putc_if. both. Qed.

(** A choice between a loop that pads and nothing. *)
Lemma choice_sim (c : bool) (w : Z) (r1 : res (Z * S1)) (r2 : res (Z * S2)) (a : S1) (b : S2) :
  rres Rw r1 r2 -> R a b -> rres Rw (if c then r1 else Ret (w, a)) (if c then r2 else Ret (w, b)).
Proof. intros Hr Hab. destruct c; [done|]. by apply rres_ret. Qed.

Lemma number_emit_sim f sign l np hex tmp w p (a : S1) (b : S2) :
  R a b -> rres R (number_emit f sign l np hex tmp w p a) (number_emit f sign l np hex tmp w p b).
Proof.
  intros Hab. unfold number_emit.
  apply (rres_bind Rw); [apply choice_sim; [by apply pad_pre_sim|done]|]. intros [w1 a1] [w2 b1] [E1 H1]; cbn in E1, H1; subst w2.
  apply (rres_bind R); [by apply putc_if_sim|]. intros a2 b2 H2. apply (rres_bind R); [by apply putc_if_sim|]. intros a3 b3 H3.
  apply (rres_bind R); [by apply putc_if_sim|]. intros a4 b4 H4.
  apply (rres_bind Rw); [apply choice_sim; [by apply pad_pre_sim|done]|]. intros [w5 a5] [w6 b5] [E5 H5]; cbn in E5, H5; subst w6.
  apply (rres_bind R); [by apply pad_zeros_sim|]. intros a6 b6 H6. apply (rres_bind R); [by apply put_tmp_sim|]. intros a7 b7 H7.
  apply (rres_bind Rw); [by apply pad_pre_sim|]. intros [w8 a8] [w9 b8] [_ H8]. by apply rres_ret.
Qed.
Lemma number_sim (num : Z) (spec : printf_spec) (a : S1) (b : S2) : R a b -> rres R (number num spec a) (number num spec b).
Proof. intros Hab. unfold number. destruct (number_sign _ _ _) as [[sign n] w]. both. by apply number_emit_sim. Qed.
Lemma string_at_sim (m : cmem) (s : Z) (spec : printf_spec) (a : S1) (b : S2) : R a b -> rres R (string_at m s spec a) (string_at m s spec b).
Proof.
  intros Hab. unfold string_at. apply rres_same. intros n _.
  apply (rres_bind Rw); [apply choice_sim; [by apply pad_post_sim|done]|]. intros [w1 a1] [w2 b1] [E1 H1]; cbn in E1, H1; subst w2.
  apply (rres_bind R); [by apply put_str_sim|]. intros a2 b2 H2.
  apply (rres_bind Rw); [by apply pad_post_sim|]. intros [w3 a3] [w4 b3] [_ H3]. by apply rres_ret.
Qed.
Lemma string_sim (m : cmem) (s : Z) (spec : printf_spec) (a : S1) (b : S2) : R a b -> rres R (string m s spec a) (string m s spec b).
Proof. intros Hab. unfold string. destruct (s <? PAGE_SIZE); by apply string_at_sim. Qed.

Variable kallsyms : option (Z -> Z -> list Z).
Variable resources : gmap Z resource.
Variable rsz : Z.

Lemma pointer_sim (m : cmem) (fmt ptr : Z) (spec : printf_spec) (a : S1) (b : S2) :
  R a b -> rres R (pointer kallsyms resources rsz m fmt ptr spec a) (pointer kallsyms resources rsz m fmt ptr spec b).
Proof.
  intros Hab. unfold pointer, symbol_string, resource_string, pointer_number. destruct kallsyms.
  all: both; try (by apply string_at_sim); by apply number_sim.
Qed.
End Devices.

(** ** Decoding a format *)

Lemma str_rd (m : cmem) (p : Z) (s : list Z) : str_at m p s -> rd m p = Ret (hd 0 s).
Proof. intros [_ H]. destruct s; by rewrite (rd_bytes _ _ _ _ H). Qed.
Lemma str_suffix (m : cmem) (p : Z) (a b : list Z) : str_at m p (a ++ b) -> str_at m (p + len a) b.
Proof. intros [Hc H]. rewrite <- app_assoc in H. apply bytes_at_app in H as [_ H]. apply chars_app in Hc as [_ Hc]. by split. Qed.
Lemma str_tail (m : cmem) (p c : Z) (s : list Z) : str_at m p (c :: s) -> str_at m (p + 1) s.
Proof. intros H%(str_suffix m p [c]). exact H. Qed.

(** The first [k] characters of the format are read, the rest of it is still a string. *)
Definition reads (m : cmem) (fmt : Z) (s : list Z) (fmt' : Z) (s' : list Z) : Prop :=
  exists a, s = a ++ s' /\ fmt' = fmt + len a /\ str_at m fmt' s'.
Lemma reads_refl (m : cmem) (fmt : Z) (s : list Z) : str_at m fmt s -> reads m fmt s fmt s.
Proof. intros H. exists []. split_and!; [done|cbn; lia|done]. Qed.
Lemma reads_trans (m : cmem) (f1 f2 f3 : Z) (s1 s2 s3 : list Z) : reads m f1 s1 f2 s2 -> reads m f2 s2 f3 s3 -> reads m f1 s1 f3 s3.
Proof. intros (a & -> & -> & _) (b & -> & -> & H). exists (a ++ b). rewrite app_assoc, length_app. split_and!; [done|lia|done]. Qed.
(** One character, that is not the final zero. *)
Lemma reads_one (m : cmem) (f : Z) (s : list Z) : str_at m f s -> hd 0 s <> 0 -> exists s', reads m f s (f + 1) s'.
Proof. intros H N. destruct s as [|c s]; [done|]. exists s, [c]. split_and!; [done..|]. by eapply str_tail. Qed.
Lemma reads_length (m : cmem) (f f' : Z) (s s' : list Z) : reads m f s f' s' -> f' = f + (len s - len s') /\ len s' <= len s.
Proof. intros (a & -> & -> & _). rewrite length_app. lia. Qed.
Lemma reads_str (m : cmem) (f f' : Z) (s s' : list Z) : reads m f s f' s' -> str_at m f' s'.
Proof. by intros (a & _ & _ & H). Qed.

Lemma isdigit_nonzero (c : Z) : isdigit c = true -> c <> 0.
Proof. by intros H ->. Qed.
Lemma isalnum_nonzero (c : Z) : isalnum c = true -> c <> 0.
Proof. by intros H ->. Qed.

Lemma skip_atoi_loop_ok (s : list Z) (m : cmem) (f i : Z) (fuel : nat) :
  str_at m f s -> (length s < fuel)%nat -> exists v f' s', skip_atoi_loop fuel m f i = Ret (v, f') /\ reads m f s f' s'.
Proof.
  revert f i fuel. induction s as [|c s IH]; intros f i fuel H Hf; (destruct fuel as [|fuel]; [cbn in Hf; lia|]); cbn [skip_atoi_loop];
    rewrite (str_rd _ _ _ H); cbn [res_bind hd].
  - exists i, f, []. split; [done|]. by apply reads_refl.
  - destruct (isdigit c); [|exists i, f, (c :: s); split; [done|by apply reads_refl]].
    destruct (IH (f + 1) (s32 (i * 10 + c - ch "0")) fuel) as (v & f' & s' & -> & Hr); [by eapply str_tail|cbn in Hf; lia|].
    exists v, f', s'. split; [done|]. eapply reads_trans; [|done]. exists [c]. split_and!; [done..|by eapply str_tail].
Qed.
Lemma skip_atoi_ok (m : cmem) (f : Z) (s : list Z) : str_at m f s -> exists v f' s', skip_atoi m f = Ret (v, f') /\ reads m f s f' s'.
Proof. intros H. pose proof (str_turns _ _ _ H). apply skip_atoi_loop_ok; [done|lia]. Qed.
Lemma skip_alnum_ok (m : cmem) (f : Z) (s : list Z) : str_at m f s -> exists f' s', skip_alnum (turns m) m f = Ret f' /\ reads m f s f' s'.
Proof.
  intros H. pose proof (str_turns _ _ _ H) as Ht. revert Ht. generalize (turns m). intros fuel Ht.
  assert (length s < fuel)%nat as Hf by lia. clear Ht. revert f fuel H Hf.
  induction s as [|c s IH]; intros f fuel H Hf; (destruct fuel as [|fuel]; [cbn in Hf; lia|]); cbn [skip_alnum];
    rewrite (str_rd _ _ _ H); cbn [res_bind hd].
  - exists f, []. split; [done|]. by apply reads_refl.
  - destruct (isalnum c); [|exists f, (c :: s); split; [done|by apply reads_refl]].
    destruct (IH (f + 1) fuel) as (f' & s' & -> & Hr); [by eapply str_tail|cbn in Hf; lia|].
    exists f', s'. split; [done|]. eapply reads_trans; [|done]. exists [c]. split_and!; [done..|by eapply str_tail].
Qed.
Lemma find_percent_ok (m : cmem) (f : Z) (s : list Z) : str_at m f s ->
  exists f' s', find_percent (turns m) m f = Ret f' /\ reads m f s f' s' /\ (hd 0 s' = 0 \/ hd 0 s' = ch "%").
Proof.
  intros H. pose proof (str_turns _ _ _ H) as Ht. revert Ht. generalize (turns m). intros fuel Ht.
  assert (length s < fuel)%nat as Hf by lia. clear Ht. revert f fuel H Hf.
  induction s as [|c s IH]; intros f fuel H Hf; (destruct fuel as [|fuel]; [cbn in Hf; lia|]); cbn [find_percent];
    rewrite (str_rd _ _ _ H); cbn [res_bind hd].
  - exists f, []. split_and!; [done|by apply reads_refl|by left].
  - destruct ((c =? 0) || (c =? ch "%")) eqn:E.
    { exists f, (c :: s). split_and!; [done|by apply reads_refl|]. cbn. apply orb_true_iff in E as [E%Z.eqb_eq|E%Z.eqb_eq]; auto. }
    destruct (IH (f + 1) fuel) as (f' & s' & -> & Hr & Hh); [by eapply str_tail|cbn in Hf; lia|].
    exists f', s'. split_and!; [done| |done]. eapply reads_trans; [|done]. exists [c]. split_and!; [done..|by eapply str_tail].
Qed.
Lemma flag_nonzero (c f : Z) : flag_of c = Some f -> c <> 0.
Proof. by intros H ->. Qed.
Lemma decode_flags_ok (m : cmem) (f fl : Z) (s : list Z) : str_at m f s -> hd 0 s <> 0 ->
  exists f' s' fl', decode_flags (turns m) m f fl = Ret (f', fl') /\ reads m f s f' s' /\ len s' < len s.
Proof.
  intros H. pose proof (str_turns _ _ _ H) as Ht. revert Ht. generalize (turns m). intros fuel Ht.
  assert (length s < fuel)%nat as Hf by lia. clear Ht. revert f fl fuel H Hf.
  induction s as [|c s IH]; intros f fl fuel H Hf N; [done|]. destruct fuel as [|fuel]; [cbn in Hf; lia|]. cbn [decode_flags].
  pose proof (str_tail _ _ _ _ H) as H'. rewrite (str_rd _ _ _ H'). cbn [res_bind].
  assert (reads m f (c :: s) (f + 1) s) as Hr1 by (exists [c]; by split_and!).
  destruct (flag_of (hd 0 s)) as [g|] eqn:E; [|exists (f + 1), s, fl; split_and!; [done..|cbn; lia]].
  destruct (IH (f + 1) (Z.lor fl g) fuel) as (f' & s' & fl' & -> & Hr & Hl); [done|cbn in Hf; lia|by eapply flag_nonzero|].
  exists f', s', fl'. split_and!; [done|by eapply reads_trans|cbn; lia].
Qed.

(** The fields are in the range of their types. *)
Definition spec_wf (spec : printf_spec) : Prop :=
  0 <= flags spec < 256 /\ -32768 <= field_width spec <= 32767 /\ -32768 <= precision spec <= 32767.
Definition is_star (t : format_type) : bool :=
  match t with FORMAT_TYPE_WIDTH | FORMAT_TYPE_PRECISION => true | _ => false end.

Lemma u8_range (z : Z) : 0 <= u8 z < 256.
Proof. pose proof (wrap_range 8 z ltac:(lia)). pow_lia. Qed.
Lemma s16_range (z : Z) : -32768 <= s16 z <= 32767.
Proof. pose proof (swrap_range 16 z ltac:(lia)) as H. unfold in_s in H. change (2 ^ (16 - 1)) with 32768 in H. lia. Qed.
Lemma wf_set (spec : printf_spec) : spec_wf spec ->
  (forall t, spec_wf (set_type t spec)) /\ (forall f, spec_wf (set_flags f spec)) /\ (forall b, spec_wf (set_base b spec)) /\
  (forall q, spec_wf (set_qualifier q spec)) /\ (forall w, spec_wf (set_field_width w spec)) /\ (forall p, spec_wf (set_precision p spec)).
Proof.
  intros (H1 & H2 & H3). split_and!; intros z; (split_and!; cbn [flags field_width precision set_type set_flags set_base set_qualifier set_field_width set_precision]); try lia; try apply u8_range;
    pose proof (s16_range z); lia.
Qed.
Lemma wf_type spec t : spec_wf spec -> spec_wf (set_type t spec). Proof. intros H. by apply wf_set. Qed.
Lemma wf_flags spec f : spec_wf spec -> spec_wf (set_flags f spec). Proof. intros H. by apply wf_set. Qed.
Lemma wf_base spec b : spec_wf spec -> spec_wf (set_base b spec). Proof. intros H. by apply wf_set. Qed.
Lemma wf_qualifier spec q : spec_wf spec -> spec_wf (set_qualifier q spec). Proof. intros H. by apply wf_set. Qed.
Lemma wf_width spec w : spec_wf spec -> spec_wf (set_field_width w spec). Proof. intros H. by apply wf_set. Qed.
Lemma wf_precision spec p : spec_wf spec -> spec_wf (set_precision p spec). Proof. intros H. by apply wf_set. Qed.
Create HintDb wf.
#[export] Hint Resolve wf_type wf_flags wf_base wf_qualifier wf_width wf_precision : wf.

(** What decoding from [f] on gives. *)
Definition decodes (m : cmem) (start f : Z) (s : list Z) (r : res (Z * printf_spec)) : Prop :=
  exists f' s' spec', r = Ret (f' - start, spec') /\ reads m f s f' s' /\ spec_wf spec' /\
    (is_star (type spec') = false -> base_ok (base spec')) /\ (is_star (type spec') = true -> len s' < len s) /\
    (type spec' = FORMAT_TYPE_PTR -> hd 0 s' = ch "p").

Lemma decodes_reads (m : cmem) (start f f1 : Z) (s s1 : list Z) (r : res (Z * printf_spec)) :
  reads m f s f1 s1 -> decodes m start f1 s1 r -> decodes m start f s r.
Proof.
  intros Hr (f' & s' & spec' & -> & Hr' & Hw & Hb & Hs & Hp). exists f', s', spec'. pose proof (reads_length _ _ _ _ _ Hr).
  split_and!; [done|by eapply reads_trans|done|done| |done]. intros E. specialize (Hs E). lia.
Qed.

Lemma decode_conversion_ok (m : cmem) (start f : Z) (s : list Z) (spec : printf_spec) :
  str_at m f s -> spec_wf spec -> decodes m start f s (decode_conversion m start f spec).
Proof.
  intros H Hw. unfold decode_conversion. rewrite (str_rd _ _ _ H). cbn [res_bind].
  assert (base_ok 8 /\ base_ok 10 /\ base_ok 16) as (B8 & B10 & B16) by (unfold base_ok; lia).
  assert (forall c t spec', hd 0 s = c -> c <> 0 -> spec_wf spec' -> base_ok (base spec') -> is_star t = false /\ t <> FORMAT_TYPE_PTR ->
    decodes m start f s (Ret (f + 1 - start, set_type t spec'))) as Hone.
  { intros c t spec' Hc N Hw' Hb [Ht Hp]. destruct (reads_one m f s H) as [s' Hr]; [congruence|]. exists (f + 1), s', (set_type t spec').
    split_and!; [done..|auto with wf|done| |done]. cbn. by rewrite Ht. }
  assert (forall t, is_star t = false -> (t = FORMAT_TYPE_PTR -> hd 0 s = ch "p") -> decodes m start f s (Ret (f - start, set_type t (set_base 10 spec)))) as Hzero.
  { intros t Ht Hp. exists f, s, (set_type t (set_base 10 spec)). split_and!; [done|by apply reads_refl|auto with wf|done| |done]. cbn. by rewrite Ht. }
  assert (forall spec', is_star (integer_type spec') = false /\ integer_type spec' <> FORMAT_TYPE_PTR) as Hint.
  { intros spec'. unfold integer_type. repeat case_match; done. }
  repeat lazymatch goal with
  | |- decodes _ _ _ _ (if ?c =? ?d then _ else _) => destruct (Z.eqb_spec c d) as [E|_]; [first [apply (Hone d); [done|discriminate|auto 6 with wf|done|first [done|apply Hint]] | by apply Hzero]|]
  | |- decodes _ _ _ _ (if (?c =? ?d) || (?c =? ?e) then _ else _) =>
      destruct (Z.eqb_spec c d) as [E|_]; cbn [orb]; [apply (Hone d); [done|discriminate|auto 6 with wf|done|apply Hint]|];
      destruct (Z.eqb_spec c e) as [E|_]; [apply (Hone e); [done|discriminate|auto 6 with wf|done|apply Hint]|]
  end. by apply Hzero.
Qed.
Lemma decode_qualifier_ok (m : cmem) (start f : Z) (s : list Z) (spec : printf_spec) :
  str_at m f s -> spec_wf spec -> decodes m start f s (decode_qualifier m start f spec).
Proof.
  intros H Hw. unfold decode_qualifier. rewrite (str_rd _ _ _ H). cbn [res_bind].
  destruct (_ || _ || _ || _) eqn:E; [|apply decode_conversion_ok; auto with wf].
  destruct (reads_one m f s H) as [s1 Hr1]; [by intros E0; rewrite E0 in E|].
  apply (decodes_reads m start f (f + 1) s s1); [done|]. pose proof (reads_str _ _ _ _ _ Hr1) as H1.
  rewrite (str_rd _ _ _ H1). cbn [res_bind]. destruct (Z.eqb_spec (qualifier (set_qualifier (hd 0 s) (set_qualifier (-1) spec))) (hd 0 s1)) as [Eq|_];
    [|apply decode_conversion_ok; auto with wf].
  assert (forall q, qualifier (set_qualifier (hd 0 s) (set_qualifier (-1) spec)) = q -> q <> 0 -> exists s2, reads m (f + 1) s1 (f + 1 + 1) s2) as H2.
  { intros q E1 E2. apply reads_one; [done|congruence]. }
  destruct (Z.eqb_spec (qualifier (set_qualifier (hd 0 s) (set_qualifier (-1) spec))) (ch "l")) as [E1|_].
  { destruct (H2 _ E1 ltac:(discriminate)) as [s2 Hr2]. apply (decodes_reads m start _ _ _ _ _ Hr2).
    apply decode_conversion_ok; [by eapply reads_str|auto with wf]. }
  destruct (Z.eqb_spec (qualifier (set_qualifier (hd 0 s) (set_qualifier (-1) spec))) (ch "h")) as [E1|_].
  { destruct (H2 _ E1 ltac:(discriminate)) as [s2 Hr2]. apply (decodes_reads m start _ _ _ _ _ Hr2).
    apply decode_conversion_ok; [by eapply reads_str|auto with wf]. }
  apply decode_conversion_ok; auto with wf.
Qed.
Lemma decode_precision_ok (m : cmem) (start f : Z) (s : list Z) (spec : printf_spec) :
  str_at m f s -> spec_wf spec -> decodes m start f s (decode_precision m start f spec).
Proof.
  intros H Hw. unfold decode_precision. rewrite (str_rd _ _ _ H). cbn [res_bind].
  destruct (Z.eqb_spec (hd 0 s) (ch ".")) as [E|_]; [|apply decode_qualifier_ok; auto with wf].
  destruct (reads_one m f s H) as [s1 Hr1]; [by rewrite E|]. apply (decodes_reads m start _ _ _ _ _ Hr1).
  pose proof (reads_str _ _ _ _ _ Hr1) as H1. rewrite (str_rd _ _ _ H1). cbn [res_bind].
  destruct (isdigit (hd 0 s1)).
  - destruct (skip_atoi_ok m (f + 1) s1 H1) as (v & f2 & s2 & -> & Hr2). cbn [res_bind]. apply (decodes_reads m start _ _ _ _ _ Hr2).
    apply decode_qualifier_ok; [by eapply reads_str|]. destruct (_ <? 0); auto with wf.
  - destruct (Z.eqb_spec (hd 0 s1) (ch "*")) as [E2|_]; [|apply decode_qualifier_ok; auto with wf].
    destruct (reads_one m (f + 1) s1 H1) as [s2 Hr2]; [by rewrite E2|].
    eexists _, s2, _. split_and!; [done|done|auto with wf|done| |done]. intros _. pose proof (reads_length _ _ _ _ _ Hr2). lia.
Qed.
Lemma decode_width_ok (m : cmem) (start f : Z) (s : list Z) (spec : printf_spec) :
  str_at m f s -> spec_wf spec -> decodes m start f s (decode_width m start f spec).
Proof.
  intros H Hw. unfold decode_width. rewrite (str_rd _ _ _ H). cbn [res_bind]. destruct (isdigit (hd 0 s)).
  - destruct (skip_atoi_ok m f s H) as (v & f2 & s2 & -> & Hr2). cbn [res_bind]. apply (decodes_reads m start _ _ _ _ _ Hr2).
    apply decode_precision_ok; [by eapply reads_str|auto with wf].
  - destruct (Z.eqb_spec (hd 0 s) (ch "*")) as [E2|_]; [|apply decode_precision_ok; auto with wf].
    destruct (reads_one m f s H) as [s2 Hr2]; [by rewrite E2|].
    eexists _, s2, _. split_and!; [done|done|auto with wf|done| |done]. intros _. pose proof (reads_length _ _ _ _ _ Hr2). lia.
Qed.

(** A call of [format_decode] reads only the format, and gets on with it. *)
Lemma format_decode_ok (m : cmem) (f : Z) (s : list Z) (spec : printf_spec) :
  str_at m f s -> spec_wf spec -> s <> [] ->
  exists f' s' spec', format_decode m f spec = Ret (f' - f, spec') /\ reads m f s f' s' /\ spec_wf spec' /\
    (is_star (type spec') = false -> type spec' <> FORMAT_TYPE_NONE -> base_ok (base spec')) /\
    (type spec' = FORMAT_TYPE_PTR -> hd 0 s' = ch "p") /\
    (len s' < len s \/ (is_star (type spec) = true /\ is_star (type spec') = false)).
Proof.
  intros H Hw Ns. unfold format_decode.
  assert (forall r, is_star (type spec) = true -> decodes m f f s r -> exists f' s' spec', r = Ret (f' - f, spec') /\ reads m f s f' s' /\ spec_wf spec' /\
    (is_star (type spec') = false -> type spec' <> FORMAT_TYPE_NONE -> base_ok (base spec')) /\ (type spec' = FORMAT_TYPE_PTR -> hd 0 s' = ch "p") /\
    (len s' < len s \/ (is_star (type spec) = true /\ is_star (type spec') = false))) as Hgo.
  { intros r Hst (f' & s' & spec' & -> & Hr & Hw' & Hb & Hs & Hp). exists f', s', spec'. split_and!; [done..|by auto|done|].
    destruct (is_star (type spec')) eqn:E; [left; by apply Hs|right; by rewrite Hst]. }
  assert (exists f' s' spec', (let spec := set_type FORMAT_TYPE_NONE spec in let! fmt := find_percent (turns m) m f in let! c := rd m fmt in
      if negb (fmt =? f) || (c =? 0) then Ret (fmt - f, spec)
      else let! (fmt, fl) := decode_flags (turns m) m fmt 0 in decode_width m f fmt (set_flags fl spec)) = Ret (f' - f, spec') /\
    reads m f s f' s' /\ spec_wf spec' /\ (is_star (type spec') = false -> type spec' <> FORMAT_TYPE_NONE -> base_ok (base spec')) /\
    (type spec' = FORMAT_TYPE_PTR -> hd 0 s' = ch "p") /\ len s' < len s) as Hn.
  { destruct (find_percent_ok m f s H) as (f1 & s1 & -> & Hr1 & Hh). cbn [res_bind]. pose proof (reads_str _ _ _ _ _ Hr1) as H1.
    rewrite (str_rd _ _ _ H1). cbn [res_bind]. pose proof (reads_length _ _ _ _ _ Hr1) as [El Hl].
    destruct (Z.eqb_spec f1 f) as [E|N]; cbn [negb orb].
    - assert (s1 = s) as -> by (destruct Hr1 as (a & -> & -> & _); destruct a; [done|cbn in E; lia]). clear El. subst f1.
      assert (0 < hd 0 s) as Hp by (destruct s as [|c s]; [done|]; apply str_at_cons in H as [Hc _]; cbn; lia).
      rewrite (proj2 (Z.eqb_neq _ 0)) by lia. destruct (decode_flags_ok m f 0 s H) as (f2 & s2 & fl & -> & Hr2 & Hl2); [lia|]. cbn [res_bind].
      destruct (decode_width_ok m f f2 s2 (set_flags fl (set_type FORMAT_TYPE_NONE spec))) as (f3 & s3 & spec' & -> & Hr3 & Hw' & Hb & _ & Hp3);
        [by eapply reads_str|auto with wf|]. exists f3, s3, spec'. pose proof (reads_length _ _ _ _ _ Hr3).
      split_and!; [done|by eapply reads_trans|done|by auto|done|lia].
    - exists f1, s1, (set_type FORMAT_TYPE_NONE spec). split_and!; [done|done|auto with wf|done|done|lia]. }
  destruct Hn as (f' & s' & spec' & E & Hr & Hw' & Hb & Hp & Hl).
  destruct (type spec) eqn:Et; try (exists f', s', spec'; split; [exact E|split_and!; [done..|by left]]).
  - apply Hgo; [done|]. apply decode_precision_ok; [done|]. destruct (_ <? 0); auto with wf.
  - apply Hgo; [done|]. apply decode_qualifier_ok; [done|]. destruct (_ <? 0); auto with wf.
Qed.

(** ** The arguments a format needs *)

(** Conversions that take the same argument. *)
Definition kind_of (t : format_type) : format_type :=
  match t with
  | FORMAT_TYPE_INT | FORMAT_TYPE_UINT | FORMAT_TYPE_BYTE | FORMAT_TYPE_UBYTE | FORMAT_TYPE_SHORT | FORMAT_TYPE_USHORT => FORMAT_TYPE_UINT
  | FORMAT_TYPE_LONG | FORMAT_TYPE_ULONG | FORMAT_TYPE_LONG_LONG | FORMAT_TYPE_SIZE_T | FORMAT_TYPE_PTRDIFF => FORMAT_TYPE_ULONG
  | t => t
  end.
Definition same_kind (x y : Z * printf_spec) : Prop := x.1 = y.1 /\ kind_of (type x.2) = kind_of (type y.2).

(** How much a conversion reads and which argument it takes does not depend on the flags, widths and precisions. *)
Lemma integer_kind (a b : printf_spec) : qualifier a = qualifier b -> kind_of (integer_type a) = kind_of (integer_type b).
Proof. intros E. unfold integer_type. rewrite E. by repeat case_match. Qed.
Lemma decode_conversion_kind (m : cmem) (start f : Z) (a b : printf_spec) :
  qualifier a = qualifier b -> rres same_kind (decode_conversion m start f a) (decode_conversion m start f b).
Proof.
  intros E. unfold decode_conversion. apply rres_same. intros c _.
  repeat lazymatch goal with |- rres _ (if ?b then _ else _) _ => destruct b end; apply rres_ret; (split; [done|]); cbn [type set_type snd]; try done;
    apply integer_kind; exact E.
Qed.
Lemma decode_qualifier_kind (m : cmem) (start f : Z) (a b : printf_spec) :
  rres same_kind (decode_qualifier m start f a) (decode_qualifier m start f b).
Proof.
  unfold decode_qualifier. apply rres_same. intros c _. destruct (_ || _ || _ || _); [|by apply decode_conversion_kind].
  apply rres_same. intros d _. cbn [qualifier set_qualifier]. destruct (u8 c =? d); [|by apply decode_conversion_kind].
  destruct (u8 c =? ch "l"); [by apply decode_conversion_kind|]. destruct (u8 c =? ch "h"); by apply decode_conversion_kind.
Qed.
Lemma decode_precision_kind (m : cmem) (start f : Z) (a b : printf_spec) :
  rres same_kind (decode_precision m start f a) (decode_precision m start f b).
Proof.
  unfold decode_precision. apply rres_same. intros c _. destruct (c =? ch "."); [|apply decode_qualifier_kind].
  apply rres_same. intros d _. destruct (isdigit d); [apply rres_same; intros [v f'] _; apply decode_qualifier_kind|].
  destruct (d =? ch "*"); [by apply rres_ret|apply decode_qualifier_kind].
Qed.
Lemma decode_width_kind (m : cmem) (start f : Z) (a b : printf_spec) :
  rres same_kind (decode_width m start f a) (decode_width m start f b).
Proof.
  unfold decode_width. apply rres_same. intros c _. destruct (isdigit c); [apply rres_same; intros [v f'] _; apply decode_precision_kind|].
  destruct (c =? ch "*"); [by apply rres_ret|apply decode_precision_kind].
Qed.
Lemma format_decode_kind (m : cmem) (f : Z) (a b : printf_spec) :
  kind_of (type a) = kind_of (type b) -> rres same_kind (format_decode m f a) (format_decode m f b).
Proof.
  intros E. unfold format_decode.
  assert (forall a b : printf_spec, rres same_kind
    (let! fmt := find_percent (turns m) m f in let! c := rd m fmt in
     if negb (fmt =? f) || (c =? 0) then Ret (fmt - f, set_type FORMAT_TYPE_NONE a)
     else let! (fmt, fl) := decode_flags (turns m) m fmt 0 in decode_width m f fmt (set_flags fl (set_type FORMAT_TYPE_NONE a)))
    (let! fmt := find_percent (turns m) m f in let! c := rd m fmt in
     if negb (fmt =? f) || (c =? 0) then Ret (fmt - f, set_type FORMAT_TYPE_NONE b)
     else let! (fmt, fl) := decode_flags (turns m) m fmt 0 in decode_width m f fmt (set_flags fl (set_type FORMAT_TYPE_NONE b)))) as Hn.
  { intros x y. apply rres_same. intros f1 _. apply rres_same. intros c _. destruct (_ || _); [by apply rres_ret|].
    apply rres_same. intros [f2 fl] _. apply decode_width_kind. }
  destruct (type a) eqn:Ea, (type b) eqn:Eb; try discriminate E; first [apply Hn | apply decode_precision_kind | apply decode_qualifier_kind].
Qed.

(** The conversions of a format that take an argument, each with the place after it. *)
Definition takes_arg (t : format_type) : bool :=
  match t with FORMAT_TYPE_NONE | FORMAT_TYPE_PERCENT_CHAR | FORMAT_TYPE_INVALID => false | _ => true end.
Fixpoint demands_from (fuel : nat) (m : cmem) (fmt : Z) (spec : printf_spec) : list (format_type * Z) :=
  match fuel with
  | O => []
  | S fuel =>
      match rd m fmt, format_decode m fmt spec with
      | Ret c, Ret (read, spec) =>
          if c =? 0 then []
          else
            let here := if takes_arg (type spec) then [(kind_of (type spec), fmt + read + 1)] else [] in
            let next := match type spec with
                        | FORMAT_TYPE_PTR => match skip_alnum (turns m) m (fmt + read) with Ret f => f | _ => fmt + read end
                        | _ => fmt + read
                        end in
            here ++ demands_from fuel m next spec
      | _, _ => []
      end
  end.
Definition demands (m : cmem) (fmt : Z) : list (format_type * Z) :=
  demands_from (2 * turns m) m fmt (Printf_spec FORMAT_TYPE_NONE 0 0 0 0 0).

Section Arguments.
Variable resources : gmap Z resource.
Variable rsz : Z.

(** The fields of a resource at their widths. *)
Definition resource_ok (r : resource) : Prop := in_u (8 * rsz) (res_start r) /\ in_u (8 * rsz) (res_end r) /\ in_u 64 (res_flags r).
(** What has to be at the address for the conversion %p with the characters at [fmt]. *)
Definition ptr_ok (m : cmem) (fmt ptr : Z) : Prop :=
  ptr = 0 \/
  forall c, rd m fmt = Ret c ->
    ((c = ch "M" \/ c = ch "m") -> mapped m ptr 6) /\
    ((c = ch "I" \/ c = ch "i") -> rd m (fmt + 1) = Ret (ch "6") -> mapped m ptr 16) /\
    ((c = ch "I" \/ c = ch "i") -> rd m (fmt + 1) = Ret (ch "4") -> mapped m ptr 4) /\
    (c = ch "U" -> mapped m ptr 16) /\
    ((c = ch "R" \/ c = ch "r") -> exists r, resources !! ptr = Some r /\ resource_ok r).
Definition arg_ok (m : cmem) (d : format_type * Z) (a : va) : Prop :=
  match d.1 with
  | FORMAT_TYPE_STR => exists z, a = VPtr z /\ (u64 z < PAGE_SIZE \/ exists s, str_at m (u64 z) s /\ len s < 2 ^ 31)
  | FORMAT_TYPE_PTR => exists z, a = VPtr z /\ ptr_ok m d.2 (u64 z)
  | FORMAT_TYPE_NRCHARS => exists z, a = VPtr z
  | FORMAT_TYPE_ULONG => exists z, a = VLong z
  | _ => exists z, a = VInt z
  end.
End Arguments.

(** ** The buffer *)

Definition u8s (l : list Z) : list Z := (fun c : Z => u8 c) <$> l.

Section Buffer.
Variable b0 : list Z.
Variable sz : Z.
Hypothesis sz_ok : 0 <= sz <= len b0.
#[local] Set Default Proof Using "Type sz_ok".

(** What the buffer holds after the text [t]. *)
Definition held (t : list Z) : list Z := take (Z.to_nat sz) t ++ drop (length (take (Z.to_nat sz) t)) b0.
Definition bufR (t : list Z) (b : buffer) : Prop := room b = sz /\ pos b = len t /\ bytes b = held t.

Lemma length_held (t : list Z) : length (held t) = length b0.
Proof. unfold held. rewrite length_app, length_drop, length_take. lia. Qed.
Lemma held_full (t k : list Z) : sz <= len t -> held (t ++ k) = held t.
Proof. intros H. unfold held. by rewrite take_app_le by lia. Qed.
Lemma store_list_held (l t k : list Z) : len t + len l <= sz -> store_list l (len t) (t ++ k) = Ret (t ++ u8s l ++ drop (length l) k) \/ len k < len l.
Proof.
  revert t k. induction l as [|c l IH]; intros t k Hl; cbn [store_list length] in *; [by left|].
  destruct k as [|x k]; [right; cbn; lia|]. unfold aget at 1. rewrite (proj2 (Z.ltb_ge (len t) 0)) by lia.
  rewrite Nat2Z.id, list_lookup_middle by done. cbn [deref res_bind]. unfold aset. rewrite Nat2Z.id, insert_app_r_alt by lia. rewrite Nat.sub_diag. cbn [insert list_insert].
  replace (t ++ u8 c :: k) with ((t ++ [u8 c]) ++ k) by (by rewrite <- app_assoc). replace (len t + 1) with (len (t ++ [u8 c])) by (rewrite length_app; cbn; lia).
  destruct (IH (t ++ [u8 c]) k) as [E|E]; [rewrite length_app; cbn; lia| |right; cbn; lia]. left. rewrite E. cbn [u8s fmap list_fmap app drop].
  by rewrite <- app_assoc.
Qed.
(** Writing at the end of the text, as much as there is room for. *)
Lemma store_held (t l : list Z) : len t < sz ->
  store_list (take (Z.to_nat (sz - len t)) l) (len t) (held t) = Ret (held (t ++ u8s l)).
Proof.
  intros Ht. set (l' := take (Z.to_nat (sz - len t)) l). assert (len l' <= sz - len t) as Hl' by (unfold l'; rewrite length_take; lia).
  assert (held t = t ++ drop (length t) b0) as ->.
  { unfold held. rewrite take_ge by lia. done. }
  destruct (store_list_held l' t (drop (length t) b0)) as [-> |E]; [lia| |rewrite length_drop in E; lia]. f_equal. rewrite drop_drop.
  unfold held. rewrite take_app_ge by lia.
  assert (take (Z.to_nat sz - length t) (u8s l) = u8s l') as ->.
  { unfold l', u8s. rewrite fmap_take. f_equal. lia. }
  rewrite <- app_assoc, length_app. unfold u8s. rewrite length_fmap. done.
Qed.

Lemma putc_buf (c : Z) (t : list Z) (b : buffer) : bufR t b -> rres bufR (putc c t) (putc c b).
Proof.
  intros (Hr & Hp & Hb). cbn [putc Text]. intros t' [= <-]. cbn [putc Buf]. rewrite Hr, Hp, Hb.
  destruct (Z.ltb_spec (len t) sz).
  - pose proof (store_held t [c] H) as E. replace (take (Z.to_nat (sz - len t)) [c]) with [c] in E by (destruct (Z.to_nat (sz - len t)) eqn:?; [lia|by destruct n]).
    rewrite E. cbn [res_bind]. eexists. split; [done|]. split_and!; [done|cbn [pos]; rewrite length_app; cbn; lia|done].
  - eexists. split; [done|]. split_and!; [done|cbn [pos]; rewrite length_app; cbn; lia|]. cbn [bytes]. by rewrite held_full.
Qed.
Lemma rdn_take (n k : nat) (m : cmem) (p : Z) (l : list Z) : rdn n m p = Ret l -> (k <= n)%nat -> rdn k m p = Ret (take k l).
Proof.
  revert p l k. induction n as [|n IH]; intros p l [|k] E Hk; cbn [rdn] in *; [done|lia|done|].
  apply res_bind_Ret in E as (c & Ec & E). apply res_bind_Ret in E as (l' & El & E). injection E as <-.
  rewrite Ec. cbn [res_bind]. rewrite (IH _ _ k El) by lia. done.
Qed.
Lemma rdn_length (n : nat) (m : cmem) (p : Z) (l : list Z) : rdn n m p = Ret l -> length l = n.
Proof.
  revert p l. induction n as [|n IH]; intros p l E; cbn [rdn] in E; [by injection E as <-|].
  apply res_bind_Ret in E as (c & Ec & E). apply res_bind_Ret in E as (l' & El & E). injection E as <-. cbn. f_equal. by eapply IH.
Qed.
Lemma copyin_buf (m : cmem) (p n : Z) (t : list Z) (b : buffer) : 0 <= n -> bufR t b -> rres bufR (copyin m p n t) (copyin m p n b).
Proof.
  intros Hn (Hr & Hp & Hb) t' E. cbn [copyin Text] in E. apply res_bind_Ret in E as (l & El & E). injection E as <-.
  pose proof (rdn_length _ _ _ _ El) as Hl. cbn [copyin Buf]. rewrite Hr, Hp, Hb.
  assert (len (t ++ u8s l) = len t + n) as Hlen by (rewrite length_app; unfold u8s; rewrite length_fmap; lia).
  destruct (Z.ltb_spec (len t) sz) as [Hlt|Hge].
  - set (copy := if sz - len t <? n then sz - len t else n).
    assert (0 <= copy <= n /\ take (Z.to_nat copy) l = take (Z.to_nat (sz - len t)) l) as [Hc Et].
    { unfold copy. destruct (Z.ltb_spec (sz - len t) n); [split; [lia|done]|]. split; [lia|]. rewrite !take_ge by lia. done. }
    rewrite (rdn_take _ (Z.to_nat copy) _ _ _ El) by lia. cbn [res_bind]. rewrite Et, (store_held t l Hlt). cbn [res_bind].
    eexists. split; [done|]. split_and!; [done|exact (eq_sym Hlen)|done].
  - eexists. split; [done|]. split_and!; [done|exact (eq_sym Hlen)|]. cbn [bytes]. by rewrite held_full.
Qed.
End Buffer.

(** ** Every conversion returns *)

Definition returns {A} (r : res A) : Prop := exists a, r = Ret a.
Lemma returns_bind {A B} (r : res A) (k : A -> res B) : returns r -> (forall a, r = Ret a -> returns (k a)) -> returns (res_bind r k).
Proof. intros [a ->] Hk. by apply Hk. Qed.
Lemma returns_ret {A} (a : A) : returns (Ret a).
Proof. by exists a. Qed.

Lemma turns16_S : exists n, turns16 = S n /\ Z.of_nat n = 65535.
Proof. pose proof turns16_eq. destruct turns16 as [|n]; [done|]. exists n. split; [done|lia]. Qed.
Lemma pad_pre_returns (c w : Z) (st : list Z) : -32768 <= w <= 32767 -> exists w' t, pad_pre turns16 c w st = Ret (w', t) /\ -32768 <= w' <= 32767.
Proof.
  intros Hw. pose proof turns16_eq. destruct (decide (w = -32768)) as [->|N].
  - destruct turns16_S as (n & -> & En). cbn [pad_pre]. change (s16 (-32768 - 1)) with 32767. cbn [Z.leb Z.compare putc Text res_bind].
    rewrite pad_pre_text by lia. eexists _, _. split; [done|lia].
  - rewrite pad_pre_text by lia. eexists _, _. split; [done|lia].
Qed.
Lemma pad_char_returns_from (fuel : nat) (w : Z) (st : list Z) : -32767 <= w <= 32767 -> w < Z.of_nat fuel -> (0 < fuel)%nat ->
  exists w' t, pad_char fuel w st = Ret (w', t) /\ -32768 <= w' <= 32767.
Proof.
  revert w st. induction fuel as [|fuel IH]; intros w st Hw Hf H0; [lia|]. cbn [pad_char]. rewrite (s16_id (w - 1)) by lia.
  destruct (Z.ltb_spec 0 (w - 1)); [|eexists _, _; split; [done|lia]]. cbn [putc Text res_bind]. apply IH; lia.
Qed.
Lemma pad_char_returns (w : Z) (st : list Z) : -32768 <= w <= 32767 -> exists w' t, pad_char turns16 w st = Ret (w', t) /\ -32768 <= w' <= 32767.
Proof.
  intros Hw. pose proof turns16_eq. destruct (decide (w = -32768)) as [->|N]; [|apply pad_char_returns_from; lia].
  destruct turns16_S as (n & -> & En). cbn [pad_char]. change (s16 (-32768 - 1)) with 32767. cbn [Z.ltb Z.compare putc Text res_bind].
  apply pad_char_returns_from; lia.
Qed.
Lemma pad_post_returns (n w : Z) (st : list Z) : 0 <= n -> -32768 <= w <= 32767 -> exists w' t, pad_post turns16 n w st = Ret (w', t) /\ -32768 <= w' <= 32767.
Proof.
  intros Hn Hw. pose proof turns16_eq. destruct (decide (w = -32768)) as [->|N].
  - destruct turns16_S as (k & -> & En). cbn [pad_post]. rewrite (proj2 (Z.ltb_ge n _)) by lia. eexists _, _. split; [done|]. apply s16_range.
  - rewrite pad_post_text by lia. eexists _, _. split; [done|lia].
Qed.

Lemma number_sign_range (f num w : Z) : in_u 64 num -> -32768 <= w <= 32767 ->
  let '(_, n, w') := number_sign f num w in in_u 64 n /\ -32768 <= w' <= 32767.
Proof.
  intros Hu Hw. unfold number_sign. pose proof (s16_range (w - 1)). pose proof (wrap_range 64 (- s64 num) ltac:(lia)).
  repeat case_match; simplify_eq; done.
Qed.
Lemma number_emit_returns f sign l np hex tmp w p (st : list Z) : Forall (in_u 8) tmp -> -32768 <= w <= 32767 -> len tmp <= p <= 32767 ->
  returns (number_emit f sign l np hex tmp w p st).
Proof.
  intros Ht Hw Hp. unfold number_emit.
  assert (forall b c w (st : list Z), -32768 <= w <= 32767 -> exists w' t, (if b : bool then pad_pre turns16 c w st else Ret (w, st)) = Ret (w', t) /\ -32768 <= w' <= 32767) as Hpad.
  { intros b c w0 st0 Hw0. destruct b; [by apply pad_pre_returns|by exists w0, st0]. }
  assert (forall b c (st : list Z), returns (putc_if b c st)) as Hputc by (intros b c st0; destruct b; by eexists).
  destruct (Hpad (negb (has f (ZEROPAD + LEFT))) (ch " ") w st Hw) as (w1 & t1 & -> & Hw1). cbn [res_bind].
  apply returns_bind; [apply Hputc|]. intros t2 _. apply returns_bind; [apply Hputc|]. intros t3 _. apply returns_bind; [apply Hputc|]. intros t4 _.
  destruct (Hpad (negb (has f LEFT)) (if has f ZEROPAD then ch "0" else ch " ") w1 t4 Hw1) as (w2 & t5 & -> & Hw2). cbn [res_bind].
  rewrite pad_zeros_text by (pose proof turns16_eq; lia). cbn [res_bind]. rewrite put_tmp_text by first [lia | done]. cbn [res_bind].
  destruct (pad_pre_returns (ch " ") w2 ((t5 ++ replicate (Z.to_nat (p - len tmp)) (ch "0")) ++ reverse (take (length tmp) tmp)) Hw2) as (w3 & t6 & -> & _). by eexists.
Qed.
Lemma number_returns (num : Z) (spec : printf_spec) (st : list Z) : spec_wf spec -> base_ok (base spec) -> in_u 64 num -> returns (number num spec st).
Proof.
  intros (Hf & Hw & Hp) Hb Hu. unfold number. pose proof (flags_facts _ Hf) as (Hl & _). fold (left_flags (flags spec)).
  pose proof (number_sign_range (left_flags (flags spec)) num (field_width spec) Hu Hw) as Hs.
  destruct (number_sign _ _ _) as [[sign n] w]. destruct Hs as [Hn _].
  rewrite (number_digits_correct (base spec) (Z.land (flags spec) SMALL) n) by done. cbn [res_bind].
  pose proof (length_digits_of (base spec) n). apply number_emit_returns; [by apply digits_text_u8|apply s16_range|].
  rewrite length_fmap. rewrite s16_id by lia. destruct (Z.ltb_spec (precision spec) (len (digits_of (base spec) n))); lia.
Qed.

Lemma put_str_text (l : list Z) (m : cmem) (s : Z) (st : list Z) : bytes_at m s l -> put_str (length l) m s st = Ret (st ++ u8s l).
Proof.
  revert s st. induction l as [|c l IH]; intros s st H; cbn [put_str length u8s fmap list_fmap]; [by rewrite app_nil_r|]. rd_at H.
  cbn [putc Text res_bind]. apply bytes_at_cons in H as [_ H]. rewrite (IH _ _ H), <- app_assoc. done.
Qed.
Lemma string_at_returns (m : cmem) (s : Z) (l : list Z) (spec : printf_spec) (st : list Z) :
  str_at m s l -> len l < 2 ^ 31 -> spec_wf spec -> returns (string_at m s spec st).
Proof.
  intros [Hc Hb] Hl (_ & Hw & Hp). unfold string_at. pose proof (wrap_range 64 (precision spec) ltac:(lia)) as Hu.
  assert (forall k : nat, bytes_at m s (take k l) /\ bytes_at m s (take k (l ++ [0]))) as Htake.
  { intros k. split; [apply bytes_at_app in Hb as [Hb _]; rewrite <- (take_drop k l) in Hb|rewrite <- (take_drop k (l ++ [0])) in Hb];
      by apply bytes_at_app in Hb as [Hb _]. }
  rewrite (strnlen_spec l m s (u64 (precision spec))) by first [done | apply Htake]. cbn [res_bind].
  set (n := Z.min (u64 (precision spec)) (len l)). assert (0 <= n <= len l) as Hn by (unfold n, in_u in *; lia).
  rewrite (swrap_id 32 n) by first [lia | change (2 ^ 31) with 2147483648 in Hl; pow_lia || (unfold in_s; change (2 ^ (32 - 1)) with 2147483648; lia)].
  assert (forall (b : bool) w (st : list Z), -32768 <= w <= 32767 -> exists w' t, (if b then pad_post turns16 n w st else Ret (w, st)) = Ret (w', t) /\ -32768 <= w' <= 32767) as Hpad.
  { intros b w0 st0 Hw0. destruct b; [apply pad_post_returns; lia|by exists w0, st0]. }
  destruct (Hpad (negb (has (flags spec) LEFT)) (field_width spec) st Hw) as (w1 & t1 & -> & Hw1). cbn [res_bind].
  assert (Z.to_nat n = length (take (Z.to_nat n) l)) as En by (rewrite length_take; lia). rewrite En, (put_str_text (take (Z.to_nat n) l)) by apply Htake.
  cbn [res_bind]. destruct (pad_post_returns n w1 (t1 ++ u8s (take (Z.to_nat n) l))) as (w2 & t2 & -> & _); [lia|done|]. by eexists.
Qed.

Definition mem_ok (m : cmem) : Prop := map_Forall (fun _ c => 0 <= c < 256) m.
Lemma rdn_octets (n : nat) (m : cmem) (p : Z) : mem_ok m -> mapped m p (Z.of_nat n) -> exists l, rdn n m p = Ret l /\ octets n l.
Proof.
  intros Hm. revert p. induction n as [|n IH]; intros p H; cbn [rdn]; [by exists []|]. destruct (H p) as [c Ec]; [lia|].
  unfold rd. rewrite Ec. cbn [deref res_bind]. destruct (IH (p + 1)) as (l & -> & Hl & Hf); [eapply mapped_weaken; [done|lia..]|].
  exists (c :: l). split; [done|]. split; [cbn; by rewrite Hl|]. constructor; [by apply (Hm p)|done].
Qed.
Lemma bytes_at_literal (l : list Z) : bytes_at (literal l) 0 l.
Proof.
  intros i c E. unfold literal. apply elem_of_list_to_map_1.
  - rewrite fst_zip by (rewrite length_seqZ; lia). apply NoDup_seqZ.
  - apply list_elem_of_lookup. exists i. rewrite lookup_zip_with. pose proof (lookup_lt_Some _ _ _ E).
    rewrite (proj2 (lookup_seqZ 0 (len l) i (0 + Z.of_nat i))) by lia. cbn. by rewrite E.
Qed.
Lemma literal_str (s rest : list Z) : chars s -> str_at (literal (s ++ 0 :: rest)) 0 s.
Proof.
  intros H. split; [done|]. pose proof (bytes_at_literal (s ++ 0 :: rest)) as Hb.
  assert (s ++ 0 :: rest = (s ++ [0]) ++ rest) as E by (by rewrite <- app_assoc). rewrite E in Hb |- *. by apply bytes_at_app in Hb as [Hb _].
Qed.
Lemma piece_returns (k : Z) (l : list Z) (spec : printf_spec) (st : list Z) : piece k l -> k < 2 ^ 31 -> spec_wf spec ->
  returns (string_at (literal (l ++ [0])) 0 spec st).
Proof. intros [Hc Hl] Hk Hw. apply (string_at_returns _ _ l); [by apply literal_str|lia|done]. Qed.

