(* ===== verification/VsprintfRes.v ===== *)
(** * Strings and resources

    The text of a string conversion, and the text of a resource, which is put together in an array on the
    stack with writes that do not look at its end. *)
From Stdlib Require Import Ascii.
From Stdlib Require String.
From S2P Require Import Prelude CString CStringSpec Vsprintf VsprintfNum VsprintfText VsprintfPtr VsprintfBuf.
Import String.StringSyntax.

(** ** Strings *)

(** The part of [l] the precision allows, padded to the width. *)
Definition string_text (l : list Z) (spec : printf_spec) : list Z :=
  let s := if precision spec <? 0 then l else take (Z.to_nat (precision spec)) l in
  let k := Z.to_nat (field_width spec - len s) in
  if has (flags spec) LEFT then s ++ replicate k (ch " ") else replicate k (ch " ") ++ s.

Lemma u8s_chars (l : list Z) : chars l -> u8s l = l.
Proof.
  intros H. unfold u8s. rewrite <- (list_fmap_id l) at 2. apply Forall_fmap_ext_1. eapply Forall_impl; [exact H|]. intros c Hc.
  cbn in Hc |- *. unfold id. apply wrap_id. pow_lia.
Qed.
Lemma string_at_text (m : cmem) (s : Z) (l : list Z) (spec : printf_spec) (st : list Z) :
  str_at m s l -> len l < 2 ^ 31 -> -1 <= field_width spec <= 32767 -> -1 <= precision spec <= 32767 ->
  string_at m s spec st = Ret (st ++ string_text l spec).
Proof.
  intros [Hc Hb] Hl Hw Hp. unfold string_at, string_text. pose proof (wrap_range 64 (precision spec) ltac:(lia)) as Hu.
  change (2 ^ 31) with 2147483648 in Hl.
  assert (forall k : nat, bytes_at m s (take k l) /\ bytes_at m s (take k (l ++ [0]))) as Htake.
  { intros k. split; [apply bytes_at_app in Hb as [Hb _]; rewrite <- (take_drop k l) in Hb|rewrite <- (take_drop k (l ++ [0])) in Hb];
      by apply bytes_at_app in Hb as [Hb _]. }
  rewrite (strnlen_spec l m s (u64 (precision spec))) by first [done | apply Htake]. cbn [res_bind].
  set (t := if precision spec <? 0 then l else take (Z.to_nat (precision spec)) l).
  assert (bytes_at m s t /\ chars t /\ len t <= len l) as (Ht & Hct & Hlt).
  { unfold t. destruct (precision spec <? 0); [split_and!; [by apply bytes_at_app in Hb as [? _]|done|lia]|].
    split_and!; [apply Htake|by apply Forall_take|rewrite length_take; lia]. }
  assert (Z.min (u64 (precision spec)) (len l) = len t) as ->.
  { unfold t. destruct (Z.ltb_spec (precision spec) 0).
    - replace (precision spec) with (-1) by lia. change (u64 (-1)) with 18446744073709551615. lia.
    - rewrite (wrap_id 64) by pow_lia. rewrite length_take. lia. }
  rewrite (swrap_id 32) by first [lia | unfold in_s; change (2 ^ (32 - 1)) with 2147483648; lia].
  assert (forall (b : bool) w (st : list Z), -32767 <= w <= 32767 -> (if b then pad_post turns16 (len t) w st else Ret (w, st)) =
    Ret (if b then Z.min w (len t) - 1 else w, st ++ (if b then replicate (Z.to_nat (w - len t)) (ch " ") else []))) as Hpad.
  { intros b w st' Hw'. destruct b; [|by rewrite app_nil_r]. apply pad_post_text; (pose proof turns16_eq; lia). }
  rewrite (Hpad (negb (has (flags spec) LEFT))) by lia. cbn [res_bind]. rewrite Nat2Z.id, (put_str_text t) by done. cbn [res_bind].
  rewrite u8s_chars by done. set (w1 := if negb (has (flags spec) LEFT) then Z.min (field_width spec) (len t) - 1 else field_width spec).
  assert (-2 <= w1 <= 32767) as Hw1 by (unfold w1; destruct (negb _); lia).
  rewrite (Hpad true) by lia. cbn [res_bind]. f_equal. unfold w1. destruct (has (flags spec) LEFT); cbn [negb]; rewrite ?app_nil_r, <- ?app_assoc; [done|].
  replace (Z.to_nat (Z.min (field_width spec) (len t) - 1 - len t)) with O by lia. by rewrite app_nil_r.
Qed.

(** ** How long numbers are *)

Lemma generic_digits_short (fuel n : nat) (b num : Z) : 1 < b -> (0 < n)%nat -> 0 <= num < b ^ Z.of_nat n -> (length (generic_digits fuel b num) <= n)%nat.
Proof.
  intros Hb. revert n num. induction fuel as [|fuel IH]; intros n num Hn H; cbn [generic_digits length]; [lia|].
  destruct (Z.eqb_spec (num / b) 0) as [E|N]; [cbn; lia|]. destruct n as [|[|n]]; [lia| |].
  - exfalso. apply N, Z.div_small. change (Z.of_nat 1) with 1 in H. rewrite Z.pow_1_r in H. lia.
  - specialize (IH (S n) (num / b) ltac:(lia)). apply le_n_S, IH. split; [apply Z.div_pos; lia|]. apply Z.div_lt_upper_bound; [lia|].
    replace (Z.of_nat (S (S n))) with (1 + Z.of_nat (S n)) in H by lia. rewrite Z.pow_add_r, Z.pow_1_r in H by lia. lia.
Qed.
Lemma digits_chars (b l num : Z) : base_ok b -> locase_ok l -> in_u 64 num -> chars (digits_text b l num).
Proof. intros Hb Hl Hu. eapply Forall_impl; [by apply (digits_text_chars b l num)|]. intros c [Hc _]. lia. Qed.
Lemma replicate_chars (n : nat) (c : Z) : 0 < c < 256 -> chars (replicate n c).
Proof. intros H. apply Forall_replicate, H. Qed.
Lemma space_ch : 0 < ch " " < 256. Proof. vm_compute. split; reflexivity. Qed.
Lemma zero_ch : 0 < ch "0" < 256. Proof. vm_compute. split; reflexivity. Qed.

(** An unsigned number without precision: at most its width, or its prefix and digits. *)
Lemma unsigned_piece (num : Z) (spec : printf_spec) (k : nat) :
  spec_ok spec -> in_u 64 num -> has (flags spec) SIGN = false -> precision spec = -1 -> (0 < k)%nat -> num < base spec ^ Z.of_nat k ->
  piece (Z.max (field_width spec) (Z.of_nat k + (if has (flags spec) SPECIAL && negb (base spec =? 10) then 2 else 0))) (number_text num spec).
Proof.
  intros (Hb & Hf & Hw & Hp) Hu Fs Ep Hk Hn. pose proof (flags_facts _ Hf) as (Hl & _). unfold number_text. rewrite Fs, Ep. cbn [andb].
  set (ds := digits_text _ _ _). assert (chars ds) as Hd by (by apply digits_chars).
  assert (len ds <= Z.of_nat k) as Hlen.
  { unfold ds, digits_text. rewrite length_reverse, length_fmap. unfold digits_of. apply Nat2Z.inj_le, generic_digits_short; [|done|pow_lia].
    destruct Hb as [->|[->| ->]]; lia. }
  set (pfx := if has (flags spec) SPECIAL && negb (base spec =? 10) then ch "0" :: (if base spec =? 16 then [Z.lor (ch "X") (Z.land (flags spec) SMALL)] else []) else []).
  assert (chars pfx /\ len pfx <= (if has (flags spec) SPECIAL && negb (base spec =? 10) then 2 else 0)) as [Hpc Hpl].
  { unfold pfx. destruct (_ && _); [|split; [constructor|done]]. split; [|destruct (base spec =? 16); cbn; lia]. constructor; [apply zero_ch|].
    destruct (base spec =? 16); [|constructor]. constructor; [|constructor]. destruct Hl as [-> | ->]; vm_compute; split; reflexivity. }
  replace (Z.to_nat (-1 - len ds)) with O by lia. cbn [replicate app length].
  set (k' := Z.to_nat _). assert (Z.of_nat k' <= Z.max 0 (field_width spec - len pfx - len ds)) by (unfold k'; lia).
  pose proof (replicate_chars k' _ space_ch). pose proof (replicate_chars k' _ zero_ch).
  destruct (has (flags spec) LEFT), (has (flags spec) ZEROPAD); (split; [unfold chars in *; rewrite !Forall_app; done|rewrite !length_app, length_replicate; lia]).
Qed.

(** ** Writing into the array *)

Section Array.
Variable b0 : list Z.
Variable sz : Z.
Hypothesis sz_ok : 0 <= sz <= len b0.
#[local] Set Default Proof Using "Type sz_ok".
#[local] Notation holds := (bufR b0 sz).

Lemma poke_holds (c : Z) (t : list Z) (b : buffer) : holds t b -> len t < sz -> exists b', poke c b = Ret b' /\ holds (t ++ [u8 c]) b'.
Proof.
  intros Hb Hl. destruct (putc_buf b0 sz sz_ok c t b Hb (t ++ [u8 c]) eq_refl) as (b' & E & Hb'). exists b'. split; [|done].
  destruct Hb as (Hr & Hp & _). cbn [putc Buf] in E. unfold poke. rewrite Hr, Hp in E. rewrite (proj2 (Z.ltb_lt _ _) Hl) in E. rewrite Hr, Hp. exact E.
Qed.
Lemma number_holds (num : Z) (spec : printf_spec) (t : list Z) (b : buffer) : holds t b -> spec_ok spec -> in_u 64 num ->
  exists b', number num spec b = Ret b' /\ holds (t ++ number_text num spec) b'.
Proof.
  intros Hb Hs Hu. apply (number_sim holds (putc_buf b0 sz sz_ok) num spec t b Hb). by apply number_text_correct.
Qed.
Lemma lit_if_holds (c : bool) (l t : list Z) (b : buffer) : holds t b -> piece 10 l ->
  exists b', lit_if c l b = Ret b' /\ holds (t ++ (if c then l else [])) b'.
Proof.
  intros Hb [Hc Hl]. unfold lit_if. destruct c; [|exists b; by rewrite app_nil_r].
  apply (string_at_sim holds (putc_buf b0 sz sz_ok) (literal (l ++ [0])) 0 str_spec t b Hb).
  rewrite (string_at_text _ _ l) by first [by apply literal_str | cbn; lia]. unfold string_text.
  change (has (flags str_spec) LEFT) with true. change (precision str_spec <? 0) with false. change (field_width str_spec) with (-1).
  rewrite take_ge by (change (precision str_spec) with 10; lia). cbn iota. replace (Z.to_nat (-1 - len l)) with O by lia. by rewrite app_nil_r.
Qed.
End Array.

(** ** Resources *)

(** The name of the type of a resource, and how its numbers are printed; an unknown type is not decoded. *)
Definition resource_type (fl : Z) (decode : bool) : list Z * printf_spec * bool :=
  if has fl IORESOURCE_IO then (codes "io  ", io_spec, decode)
  else if has fl IORESOURCE_MEM then (codes "mem ", mem_spec, decode)
  else if has fl IORESOURCE_IRQ then (codes "irq ", dec_spec, decode)
  else if has fl IORESOURCE_DMA then (codes "dma ", dec_spec, decode)
  else if has fl IORESOURCE_BUS then (codes "bus ", bus_spec, decode)
  else (codes "??? ", mem_spec, false).
Definition flags_text (fl : Z) (decode : bool) : list Z :=
  if decode then (if has fl IORESOURCE_MEM_64 then codes " 64bit" else []) ++ (if has fl IORESOURCE_PREFETCH then codes " pref" else []) ++
    (if has fl IORESOURCE_WINDOW then codes " window" else []) ++ (if has fl IORESOURCE_DISABLED then codes " disabled" else [])
  else codes " flags " ++ number_text fl flag_spec.
Definition resource_text (r : resource) (decode : bool) : list Z :=
  let '(name, specp, decode) := resource_type (res_flags r) decode in
  [ch "["] ++ name ++ number_text (res_start r) specp ++
  (if res_start r =? res_end r then [] else [ch "-"] ++ number_text (res_end r) specp) ++ flags_text (res_flags r) decode ++ [ch "]"].

Definition res_spec (specp : printf_spec) : Prop := specp ∈ [io_spec; mem_spec; dec_spec; bus_spec].
Lemma resource_type_facts (fl : Z) (decode : bool) : let '(name, specp, _) := resource_type fl decode in piece 4 name /\ res_spec specp.
Proof.
  unfold resource_type, res_spec. repeat case_match; simplify_eq; (split; [split; [repeat constructor; reflexivity|cbn; lia]|set_solver]).
Qed.
Lemma res_spec_ok (specp : printf_spec) : res_spec specp -> spec_ok specp.
Proof.
  intros H. unfold res_spec in H. set_unfold in H. destruct_or? H; try done; subst; (split; [cbv; auto|split_and!; vm_compute; done]).
Qed.
Lemma resource_number_piece (rsz num : Z) (specp : printf_spec) : rsz = 4 \/ rsz = 8 -> in_u (8 * rsz) num -> res_spec specp ->
  piece (RSRC_BUF_SIZE rsz) (number_text num specp).
Proof.
  intros Hr Hu Hs. assert (in_u 64 num) as Hu' by (destruct Hr as [-> | ->]; pow_lia). pose proof (res_spec_ok _ Hs) as Hok.
  assert (num < 16 ^ Z.of_nat (Z.to_nat (2 * rsz)) /\ num < 10 ^ Z.of_nat (Z.to_nat (2 * rsz + 4))) as [H16 H10].
  { destruct Hr as [-> | ->].
    - change (16 ^ _) with (2 ^ 32). change (10 ^ _) with 1000000000000. pow_lia.
    - change (16 ^ _) with (2 ^ 64). change (10 ^ _) with 100000000000000000000. pow_lia. }
  unfold RSRC_BUF_SIZE, res_spec in *. set_unfold in Hs. destruct_or? Hs; try done; subst specp.
  - eapply piece_weaken; [apply (unsigned_piece num io_spec (Z.to_nat (2 * rsz))); [done|done|reflexivity|reflexivity|lia|exact H16]|].
    change (has _ _ && _) with true. change (field_width _) with 6. lia.
  - eapply piece_weaken; [apply (unsigned_piece num mem_spec (Z.to_nat (2 * rsz))); [done|done|reflexivity|reflexivity|lia|exact H16]|].
    change (has _ _ && _) with true. change (field_width _) with 10. lia.
  - eapply piece_weaken; [apply (unsigned_piece num dec_spec (Z.to_nat (2 * rsz + 4))); [done|done|reflexivity|reflexivity|lia|exact H10]|].
    change (has _ _ && _) with false. change (field_width _) with 0. lia.
  - eapply piece_weaken; [apply (unsigned_piece num bus_spec (Z.to_nat (2 * rsz))); [done|done|reflexivity|reflexivity|lia|exact H16]|].
    change (has _ _ && _) with false. change (field_width _) with 2. lia.
Qed.
Lemma flags_piece (fl : Z) (decode : bool) : in_u 64 fl -> piece 27 (flags_text fl decode).
Proof.
  intros Hu. assert (forall (c : bool) k l, 0 <= k -> piece k l -> piece k (if c then l else [])) as Hif by (intros; by apply piece_if).
  unfold flags_text. destruct decode.
  - change 27 with (6 + (5 + (7 + 9))). repeat apply piece_app; (apply Hif; [done|split; [repeat constructor; reflexivity|cbn; lia]]).
  - eapply (piece_weaken (7 + 18)); [apply piece_app|lia]; [split; [repeat constructor; reflexivity|cbn; lia]|].
    apply (unsigned_piece fl flag_spec 16); [split; [cbv; auto|split_and!; vm_compute; done]|done|reflexivity|reflexivity|lia|].
    change (base flag_spec ^ Z.of_nat 16) with (2 ^ 64). apply Hu.
Qed.

Lemma resource_text_piece (rsz : Z) (r : resource) (decode : bool) : rsz = 4 \/ rsz = 8 -> resource_ok rsz r ->
  piece (sym_size rsz - 1) (resource_text r decode).
Proof.
  intros Hr (Hs & He & Hf). unfold resource_text. pose proof (resource_type_facts (res_flags r) decode) as Ht.
  destruct (resource_type _ _) as [[name specp] decode']. destruct Ht as [Hn Hsp].
  assert (forall c, 0 < c < 256 -> piece 1 [c]) as H1 by (intros; by apply piece_one).
  eapply (piece_weaken (1 + (4 + (RSRC_BUF_SIZE rsz + ((1 + RSRC_BUF_SIZE rsz) + (27 + 1)))))).
  - repeat apply piece_app; try done; try (apply H1; vm_compute; split; reflexivity); try by apply resource_number_piece.
    + destruct (_ =? _); [eapply piece_weaken; [apply piece_nil|destruct Hr as [-> | ->]; done]|]. apply (piece_app 1); [apply H1; vm_compute; split; reflexivity|].
      by apply resource_number_piece.
    + by apply flags_piece.
  - destruct Hr as [-> | ->]; vm_compute; done.
Qed.
Lemma flags_holds (b0 : list Z) (sz fl : Z) (decode : bool) (t : list Z) (b : buffer) : 0 <= sz <= len b0 -> in_u 64 fl -> bufR b0 sz t b ->
  exists b', (if decode then
      let! b := lit_if (has fl IORESOURCE_MEM_64) (codes " 64bit") b in
      let! b := lit_if (has fl IORESOURCE_PREFETCH) (codes " pref") b in
      let! b := lit_if (has fl IORESOURCE_WINDOW) (codes " window") b in
      lit_if (has fl IORESOURCE_DISABLED) (codes " disabled") b
    else let! b := lit_if true (codes " flags ") b in number fl flag_spec b) = Ret b' /\ bufR b0 sz (t ++ flags_text fl decode) b'.
Proof.
  intros Hsz Hf H0. pose proof (lit_if_holds b0 sz Hsz) as Hlit.
  assert (forall l, forallb (fun c => (0 <? c) && (c <? 256)) l = true -> len l <= 10 -> piece 10 l) as Hp.
  { intros l Hl Hn. split; [|done]. apply Forall_forall. intros c Hc%list_elem_of_In. rewrite forallb_forall in Hl. specialize (Hl c Hc). lia. }
  unfold flags_text. destruct decode.
  - edestruct Hlit as (b1 & -> & H1); [exact H0|by apply Hp|]. cbn [res_bind]. edestruct Hlit as (b2 & -> & H2); [exact H1|by apply Hp|]. cbn [res_bind].
    edestruct Hlit as (b3 & -> & H3); [exact H2|by apply Hp|]. cbn [res_bind]. edestruct Hlit as (b4 & -> & H4); [exact H3|by apply Hp|].
    exists b4. split; [done|]. by rewrite !app_assoc.
  - edestruct Hlit as (b1 & -> & H1); [exact H0|by apply Hp|]. cbn [res_bind].
    destruct (number_holds b0 sz Hsz fl flag_spec _ _ H1) as (b2 & -> & H2); [split; [cbv; auto|split_and!; vm_compute; done]|done|].
    exists b2. split; [done|]. by rewrite app_assoc.
Qed.
Lemma resource_sym_text (rsz : Z) (r : resource) (decode : bool) : rsz = 4 \/ rsz = 8 -> resource_ok rsz r ->
  exists rest, resource_sym rsz r decode = Ret (resource_text r decode ++ 0 :: rest).
Proof.
  intros Hr Hok. pose proof (resource_text_piece rsz r decode Hr Hok) as [_ Hlen]. destruct Hok as (Hs & He & Hf).
  assert (forall z, in_u (8 * rsz) z -> in_u 64 z) as Hwide by (intros z; destruct Hr as [-> | ->]; pow_lia).
  set (sz := sym_size rsz) in *. set (b0 := replicate (Z.to_nat sz) 0).
  assert (0 <= sz <= len b0) as Hsz by (unfold b0; rewrite length_replicate; unfold sz; destruct Hr as [-> | ->]; vm_compute; split; congruence).
  unfold resource_sym. fold sz b0. unfold resource_text in *. pose proof (resource_type_facts (res_flags r) decode) as Ht.
  fold (resource_type (res_flags r) decode). destruct (resource_type _ _) as [[name specp] decode']. destruct Ht as [Hn Hsp].
  pose proof (res_spec_ok _ Hsp) as Hspec. rewrite !length_app in Hlen. cbn [length] in Hlen.
  destruct (poke_holds b0 sz Hsz (ch "[") [] (Buffer 0 b0 sz)) as (b1 & -> & H1); [split_and!; [done|done|unfold held; by rewrite take_nil]|cbn; lia|]. cbn [res_bind].
  destruct (lit_if_holds b0 sz Hsz true name _ _ H1) as (b2 & -> & H2); [eapply piece_weaken; [done|lia]|]. cbn [res_bind].
  destruct (number_holds b0 sz Hsz (res_start r) specp _ _ H2 Hspec (Hwide _ Hs)) as (b3 & -> & H3). cbn [res_bind].
  set (t3 := (_ ++ name) ++ _) in H3. set (mid := if res_start r =? res_end r then [] else [ch "-"] ++ number_text (res_end r) specp) in *.
  assert (len t3 = 1 + len name + len (number_text (res_start r) specp)) as L3 by (unfold t3; rewrite !length_app; cbn; lia).
  match goal with |- exists rest, res_bind ?x _ = _ => assert (exists b4, x = Ret b4 /\ bufR b0 sz (t3 ++ mid) b4) as (b4 & -> & H4) end.
  { unfold mid in *. destruct (res_start r =? res_end r); cbn [negb]; [exists b3; by rewrite app_nil_r|]. rewrite !length_app in Hlen. cbn [length] in Hlen.
    destruct (poke_holds b0 sz Hsz (ch "-") _ _ H3) as (b & -> & Hb); [lia|]. cbn [res_bind].
    destruct (number_holds b0 sz Hsz (res_end r) specp _ _ Hb Hspec (Hwide _ He)) as (b' & -> & Hb'). exists b'. split; [done|].
    by rewrite app_assoc. }
  cbn [res_bind].
  destruct (flags_holds b0 sz (res_flags r) decode' _ _ Hsz Hf H4) as (b5 & -> & H5). cbn [res_bind].
  destruct (poke_holds b0 sz Hsz (ch "]") _ _ H5) as (b6 & -> & H6); [rewrite !length_app; lia|]. cbn [res_bind].
  destruct (poke_holds b0 sz Hsz 0 _ _ H6) as (b7 & -> & (_ & _ & E7)); [rewrite !length_app; cbn [length]; lia|]. cbn [res_bind].
  rewrite E7. unfold held. rewrite take_ge by (rewrite !length_app; cbn [length]; lia). eexists. unfold t3. rewrite <- !app_assoc. reflexivity.
Qed.

(** The text of a resource fits the array on the stack it is put together in, whatever its flags, with addresses of 32
    and of 64 bits: the characters that are stored without a look at the end, the range dash, the closing bracket and
    the NUL, are inside it, and what the array holds up to the NUL is the text of the resource. *)
Theorem resource_string_fits (rsz : Z) (r : resource) (decode : bool) : rsz = 4 \/ rsz = 8 -> resource_ok rsz r ->
  len (resource_text r decode) < sym_size rsz /\
  exists rest, resource_sym rsz r decode = Ret (resource_text r decode ++ 0 :: rest).
Proof. intros Hr Hok. split; [pose proof (resource_text_piece rsz r decode Hr Hok) as [_ H]; lia|by apply resource_sym_text]. Qed.

Module Demo.
(** The interrupt line with the largest numbers and all flags takes the array to its last byte. *)
Definition widest : resource := Resource (2 ^ 64 - 2) (2 ^ 64 - 1)
  (Z.lor IORESOURCE_IRQ (Z.lor IORESOURCE_MEM_64 (Z.lor IORESOURCE_PREFETCH (Z.lor IORESOURCE_WINDOW IORESOURCE_DISABLED)))).
Lemma resource_string_fits_witness :
  resource_text widest true = codes "[irq 18446744073709551614-18446744073709551615 64bit pref window disabled]" /\
  len (resource_text widest true) = sym_size 8 - 1 /\ exists rest, resource_sym 8 widest true = Ret (resource_text widest true ++ 0 :: rest).
Proof.
  split; [vm_compute; reflexivity|]. split; [vm_compute; reflexivity|].
  apply (resource_string_fits 8 widest true); [by right|]. vm_compute. repeat split; discriminate || reflexivity.
Defined.
End Demo.
