(* ===== verification/VsprintfFmt.v ===== *)
(** * Formatting a whole string

    [vsnprintf] and the functions around it: that they return, what they store and how much of the buffer they
    touch. *)
From Stdlib Require Import Ascii.
From Stdlib Require String.
From S2P Require Import Prelude CString CStringSpec Vsprintf VsprintfNum VsprintfText VsprintfPtr VsprintfBuf VsprintfRes.
Import String.StringSyntax.

(** ** Turns of the loop on two devices *)

Section Turns.
Context {S1 S2 : Type} `{Out S1} `{Out S2}.
Variable R : S1 -> S2 -> Prop.
Hypothesis putc_sim : forall c a b, R a b -> rres R (putc c a) (putc c b).
Hypothesis copyin_sim : forall m p n a b, 0 <= n -> R a b -> rres R (copyin m p n a) (copyin m p n b).
Hypothesis tell_sim : forall a b, R a b -> tell a = tell b.
Variable kallsyms : option (Z -> Z -> list Z).
Variable resources : gmap Z resource.
Variable rsz : Z.
#[local] Set Default Proof Using "Type putc_sim copyin_sim tell_sim".

(** The same state, with related devices. *)
Definition turnR (a : turn (S := S1)) (b : turn (S := S2)) : Prop :=
  t_fmt a = t_fmt b /\ t_spec a = t_spec b /\ t_args a = t_args b /\ R (t_out a) (t_out b) /\ t_stores a = t_stores b.

Lemma format_turn_sim (m : cmem) (a : turn (S := S1)) (b : turn (S := S2)) :
  turnR a b -> (forall read spec, format_decode m (t_fmt a) (t_spec a) = Ret (read, spec) -> 0 <= read) ->
  rres turnR (format_turn kallsyms resources rsz m a) (format_turn kallsyms resources rsz m b).
Proof.
  intros (Ef & Es & Ea & Ho & Est) Hread. unfold format_turn. rewrite <- Ef, <- Es, <- Ea, <- Est. apply rres_same. intros [read spec] Hd.
  specialize (Hread _ _ Hd). destruct (type spec) eqn:Et.
  all: try (apply rres_same; intros [z args] _; by apply rres_ret).
  all: try (apply rres_same; intros [z args] _; apply (rres_bind R); [by apply number_sim|]; intros; by apply rres_ret).
  - apply (rres_bind R); [by apply copyin_sim|]. intros. by apply rres_ret.
  - apply (rres_bind (Rw R)); [apply (choice_sim R putc_sim); [by apply pad_char_sim|done]|]. intros [w1 a1] [w2 b1] [E1 H1]; cbn in E1, H1; subst w2.
    apply rres_same. intros [c args] _. apply (rres_bind R); [by apply putc_sim|]. intros a2 b2 H2.
    apply (rres_bind (Rw R)); [by apply pad_char_sim|]. intros [w3 a3] [w4 b3] [E3 H3]. cbn in E3, H3. subst w4. by apply rres_ret.
  - apply rres_same. intros [z args] _. apply (rres_bind R); [by apply string_sim|]. intros. by apply rres_ret.
  - apply rres_same. intros [z args] _. apply (rres_bind R); [by apply pointer_sim|]. intros a1 b1 H1. apply rres_same. intros f _. by apply rres_ret.
  - apply (rres_bind R); [by apply putc_sim|]. intros. by apply rres_ret.
  - apply (rres_bind R); [by apply putc_sim|]. intros. by apply rres_ret.
  - apply rres_same. intros [z args] _. apply rres_ret. rewrite (tell_sim _ _ Ho). done.
Qed.
End Turns.

(** ** Every turn returns *)

Section Returns.
Variable kallsyms : option (Z -> Z -> list Z).
Variable resources : gmap Z resource.
Variable rsz : Z.
(** The names of symbols are strings. *)
Hypothesis kallsyms_ok : forall text v c, kallsyms = Some text -> chars (text v c) /\ len (text v c) < 2 ^ 31.
Hypothesis rsz_ok : rsz = 4 \/ rsz = 8.
#[local] Set Default Proof Using "Type kallsyms_ok rsz_ok".

Lemma null_piece : piece 6 (codes "(null)").
Proof. split; [|done]. apply Forall_forall. intros c Hc. change (codes "(null)") with [40; 110; 117; 108; 108; 41] in Hc. set_unfold in Hc. lia. Qed.

Lemma pointer_returns (m : cmem) (fmt ptr : Z) (s : list Z) (spec : printf_spec) (st : list Z) :
  mem_ok m -> str_at m fmt s -> ptr_ok resources rsz m fmt ptr -> in_u 64 ptr -> spec_wf spec ->
  returns (pointer kallsyms resources rsz m fmt ptr spec st).
Proof.
  intros Hm H Hp Hu Hw. unfold pointer.
  assert (forall k l, piece k l -> k < 2 ^ 31 -> returns (string_at (literal (l ++ [0])) 0 spec st)) as Htext by (intros; by eapply piece_returns).
  assert (returns (pointer_number ptr spec st)) as Hnum.
  { unfold pointer_number. apply number_returns; [|right; right; done|done]. destruct (_ =? -1); auto with wf. }
  destruct (Z.eqb_spec ptr 0) as [->|N0]; [apply (Htext 6); [apply null_piece|done]|]. destruct Hp as [|Hp]; [done|].
  pose proof (str_rd _ _ _ H) as Hrd. specialize (Hp _ Hrd) as (HM & HI6 & HI4 & HU & HR). rewrite Hrd. cbn [res_bind]. set (c := hd 0 s) in *.
  assert (forall a b, (c =? a) || (c =? b) = true -> c = a \/ c = b) as Hor by (intros a b [E%Z.eqb_eq|E%Z.eqb_eq]%orb_true_iff; auto).
  assert (c <> 0 -> exists c1 s1, rd m (fmt + 1) = Ret c1 /\ str_at m (fmt + 1) s1 /\ c1 = hd 0 s1) as Hnext.
  { intros Hc. destruct (reads_one m fmt s H Hc) as [s1 Hr]. pose proof (reads_str _ _ _ _ _ Hr) as H1. exists (hd 0 s1), s1. split_and!; [by apply str_rd|done|done]. }
  destruct (_ || _ || _ || _).
  { unfold symbol_string. destruct kallsyms as [text|] eqn:Ek; [|apply number_returns; [auto with wf|right; right; done|done]].
    destruct (kallsyms_ok text ptr c eq_refl) as [Hk1 Hk2]. apply (string_at_returns _ _ (text ptr c)); [by apply literal_str|done..]. }
  destruct ((c =? ch "R") || (c =? ch "r")) eqn:ER.
  { destruct (HR (Hor _ _ ER)) as (r & Er & Hok). unfold resource_string. rewrite Er. cbn [deref res_bind].
    destruct (resource_sym_text rsz r (c =? ch "R") rsz_ok Hok) as [rest ->]. cbn [res_bind].
    destruct (resource_text_piece rsz r (c =? ch "R") rsz_ok Hok) as [Hc1 Hc2]. eapply string_at_returns; [by apply literal_str| |done].
    eapply Z.le_lt_trans; [exact Hc2|destruct rsz_ok as [-> | ->]; reflexivity]. }
  destruct ((c =? ch "M") || (c =? ch "m")) eqn:EM.
  { destruct Hnext as (c1 & s1 & -> & _ & _); [by destruct (Hor _ _ EM) as [-> | ->]|]. cbn [res_bind].
    destruct (rdn_octets 6 m ptr Hm (HM (Hor _ _ EM))) as (l & -> & Ho). cbn [res_bind]. apply (Htext 17); [by apply mac_piece|done]. }
  destruct ((c =? ch "I") || (c =? ch "i")) eqn:EI.
  { destruct Hnext as (c1 & s1 & Hc1 & Hs1 & Eh); [by destruct (Hor _ _ EI) as [-> | ->]|]. rewrite Hc1 in *. cbn [res_bind].
    assert (c1 <> 0 -> exists c2, rd m (fmt + 2) = Ret c2) as Hc2.
    { intros Hn. destruct (reads_one m (fmt + 1) s1 Hs1) as [s2 Hr]; [congruence|]. exists (hd 0 s2). replace (fmt + 2) with (fmt + 1 + 1) by lia.
      apply str_rd. by eapply reads_str. }
    destruct (Z.eqb_spec c1 (ch "6")) as [E6|_].
    - destruct Hc2 as [c2 E2]; [by rewrite E6|]. destruct (rdn_octets 16 m ptr Hm) as (l & El & Ho); [apply HI6; [by apply Hor|by rewrite E6]|].
      destruct (c =? ch "I"); rewrite ?E2; cbn [res_bind]; rewrite El; cbn [res_bind andb]; [destruct (c2 =? ch "c")|].
      + apply (Htext 45); [by apply ip6_compressed_piece|done].
      + apply (Htext 39); [by apply ip6_piece|done].
      + apply (Htext 39); [by apply ip6_piece|done].
    - destruct (Z.eqb_spec c1 (ch "4")) as [E4|_]; [|done]. destruct Hc2 as [c2 E2]; [by rewrite E4|]. rewrite E2. cbn [res_bind].
      destruct (rdn_octets 4 m ptr Hm) as (l & -> & Ho); [apply HI4; [by apply Hor|by rewrite E4]|]. cbn [res_bind]. apply (Htext 15); [by apply ip4_piece|done]. }
  destruct (Z.eqb_spec c (ch "U")) as [EU|_]; [|done]. destruct Hnext as (c1 & s1 & -> & _ & _); [by rewrite EU|]. cbn [res_bind].
  destruct (rdn_octets 16 m ptr Hm (HU EU)) as (l & -> & Ho). cbn [res_bind]. apply (Htext 36); [apply uuid_piece|done].
Qed.

Lemma va_num_returns (t : format_type) (z : va) (args : list va) (m : cmem) (f : Z) :
  takes_arg t = true -> is_star t = false -> t <> FORMAT_TYPE_CHAR -> t <> FORMAT_TYPE_STR -> t <> FORMAT_TYPE_PTR -> t <> FORMAT_TYPE_NRCHARS ->
  arg_ok resources rsz m (kind_of t, f) z -> exists num, va_num t (z :: args) = Ret (num, args) /\ in_u 64 num.
Proof.
  intros Ht Hs N1 N2 N3 N4 Ha. assert (forall w x, 0 <= w <= 64 -> in_u 64 (wrap w x)) as Hwr.
  { intros w x Hw. pose proof (wrap_range w x ltac:(lia)) as Hr. unfold in_u in *. pose proof (Z.pow_le_mono_r 2 w 64). lia. }
  destruct t; try done; destruct Ha as [x ->]; cbn [va_num va_int va_long res_bind]; (eexists; split; [reflexivity|apply Hwr; lia]).
Qed.
Lemma string_returns (m : cmem) (p : Z) (spec : printf_spec) (st : list Z) : spec_wf spec ->
  (p < PAGE_SIZE \/ exists s, str_at m p s /\ len s < 2 ^ 31) -> returns (string m p spec st).
Proof.
  intros Hw Hp. unfold string. destruct (Z.ltb_spec p PAGE_SIZE) as [|Hge]; [by apply (piece_returns 6); [apply null_piece|..]|].
  destruct Hp as [|(s & Hs & Hl)]; [lia|]. by apply (string_at_returns _ _ s).
Qed.

(** Where the format goes on after a conversion. *)
Definition next_fmt (m : cmem) (f : Z) (t : format_type) : Z :=
  match t with FORMAT_TYPE_PTR => match skip_alnum (turns m) m f with Ret f => f | _ => f end | _ => f end.
(** The argument of a conversion, if it takes one, is there and fits. *)
Definition arg_for (m : cmem) (t : format_type) (f : Z) (args rest : list va) : Prop :=
  if takes_arg t then exists a, args = a :: rest /\ arg_ok resources rsz m (kind_of t, f) a else args = rest.

Definition fmt_weight (s : list Z) (spec : printf_spec) : Z := 2 * len s + (if is_star (type spec) then 1 else 0).

(** A turn that returns past the format read so far. *)
Definition turn_done (m : cmem) (f : Z) (s : list Z) (ty : format_type) (rest : list va) (r : res (turn (S := list Z))) : Prop :=
  exists t' s', r = Ret t' /\ reads m f s (t_fmt t') s' /\ spec_wf (t_spec t') /\
    type (t_spec t') = ty /\ t_args t' = rest /\ t_fmt t' = next_fmt m f ty.
Lemma turn_done_bind {A} m f s ty rest (r : res A) (k : A -> res (turn (S := list Z))) :
  returns r -> (forall a, turn_done m f s ty rest (k a)) -> turn_done m f s ty rest (res_bind r k).
Proof using Type. intros [a ->] H. apply H. Qed.
Lemma turn_done_ret m f s ty w args st stores : str_at m f s -> spec_wf w -> type w = ty -> ty <> FORMAT_TYPE_PTR ->
  turn_done m f s ty args (Ret (Turn f w args st stores)).
Proof using Type. intros H Hw Ht N. eexists _, s. split_and!; [done|by apply reads_refl|done..|]. by destruct ty. Qed.

Lemma format_turn_returns (m : cmem) (t : turn (S := list Z)) (s : list Z) (f : Z) (spec : printf_spec) (rest : list va) :
  mem_ok m -> str_at m f s -> format_decode m (t_fmt t) (t_spec t) = Ret (f - t_fmt t, spec) -> 
  spec_wf spec -> mapped m (t_fmt t) (f - t_fmt t) -> 
  (is_star (type spec) = false -> type spec <> FORMAT_TYPE_NONE -> base_ok (base spec)) -> (type spec = FORMAT_TYPE_PTR -> hd 0 s = ch "p") ->
  arg_for m (type spec) (f + 1) (t_args t) rest ->
  turn_done m f s (type spec) rest (format_turn kallsyms resources rsz m t).
Proof.
  intros Hm H1 Hd Hw Hmap Hb Hp Ha. unfold format_turn. rewrite Hd. cbn [res_bind]. replace (t_fmt t + (f - t_fmt t)) with f by lia.
  unfold arg_for in Ha.
  assert (is_star (type spec) = false -> takes_arg (type spec) = true -> type spec <> FORMAT_TYPE_CHAR -> type spec <> FORMAT_TYPE_STR -> type spec <> FORMAT_TYPE_PTR -> type spec <> FORMAT_TYPE_NRCHARS ->
    turn_done m f s (type spec) rest (let! (num, args) := va_num (type spec) (t_args t) in let! st := number num spec (t_out t) in Ret (Turn f spec args st (t_stores t)))) as Hnum.
  { intros Hs Ht N1 N2 N3 N4. rewrite Ht in Ha. destruct Ha as (a & Ea & Ha). rewrite Ea. destruct (va_num_returns _ a rest m _ Ht Hs N1 N2 N3 N4 Ha) as (num & -> & Hn).
    cbn [res_bind]. apply turn_done_bind; [apply number_returns; [done|apply Hb; [done|by intros E; rewrite E in Ht]|done]|]. intros st. by apply turn_done_ret. }
  destruct (type spec) eqn:Et; cbn [takes_arg kind_of] in Ha; try (apply Hnum; done); clear Hnum.
  all: try (destruct Ha as (a & Ea & Ha); unfold arg_ok in Ha; cbn [fst snd] in Ha).
  - apply turn_done_bind; [|intros st; subst rest; by apply turn_done_ret]. cbn [copyin Text].
    destruct (rdn_octets (Z.to_nat (f - t_fmt t)) m (t_fmt t) Hm) as (l & -> & _); [|by eexists].
    destruct (Z.le_ge_cases 0 (f - t_fmt t)); [by rewrite Z2Nat.id|intros x Hx; lia].
  - destruct Ha as [z ->]. rewrite Ea. cbn [va_int res_bind]. apply turn_done_ret; auto with wf. 
  - destruct Ha as [z ->]. rewrite Ea. cbn [va_int res_bind]. apply turn_done_ret; auto with wf.
  - destruct Ha as [z ->]. rewrite Ea. destruct Hw as (Hf & Hfw & Hpr).
    assert (exists w1 t1, (if negb (has (flags spec) LEFT) then pad_char turns16 (field_width spec) (t_out t) else Ret (field_width spec, t_out t)) = Ret (w1, t1) /\
      -32768 <= w1 <= 32767) as (w1 & t1 & -> & Hw1) by (destruct (negb _); [by apply pad_char_returns|by eexists _, _]).
    cbn [res_bind va_int putc Text]. destruct (pad_char_returns w1 (t1 ++ [u8 (u8 (s32 z))]) Hw1) as (w2 & t2 & -> & _). cbn [res_bind].
    apply turn_done_ret; auto with wf. by apply wf_width.
  - destruct Ha as (z & -> & Hz). rewrite Ea. cbn [va_ptr res_bind]. apply turn_done_bind; [by apply string_returns|]. intros st. by apply turn_done_ret.
  - destruct Ha as (z & -> & Hz). rewrite Ea. cbn [va_ptr res_bind].
    destruct s as [|c s]; [by specialize (Hp eq_refl)|]. pose proof (str_tail _ _ _ _ H1) as H2.
    apply turn_done_bind; [apply (pointer_returns m (f + 1) (u64 z) s); [done..|apply wrap_range; lia|done]|]. intros st.
    destruct (skip_alnum_ok m f (c :: s) H1) as (f' & s' & E & Hr). rewrite E. cbn [res_bind].
    eexists _, s'. split_and!; [done..|]. cbn [t_fmt next_fmt]. by rewrite E.
  - subst rest. apply turn_done_bind; [by eexists|]. intros st. by apply turn_done_ret.
  - subst rest. apply turn_done_bind; [by eexists|]. intros st. by apply turn_done_ret.
  - destruct Ha as (z & ->). rewrite Ea. cbn [va_ptr res_bind]. by apply turn_done_ret.
Qed.

(** The arguments depend on the format alone. *)
Lemma demands_kind (fuel : nat) (m : cmem) (f : Z) (a b : printf_spec) : kind_of (type a) = kind_of (type b) ->
  demands_from fuel m f a = demands_from fuel m f b.
Proof using Type.
  revert f a b. induction fuel as [|fuel IH]; intros f a b E; [done|]. cbn [demands_from]. destruct (rd m f) as [c| | |]; [|done..].
  pose proof (format_decode_kind m f a b E) as Hab. pose proof (format_decode_kind m f b a (eq_sym E)) as Hba.
  destruct (format_decode m f a) as [[r x]| | |] eqn:Ea; destruct (format_decode m f b) as [[r' y]| | |] eqn:Eb;
    try (destruct (Hab _ eq_refl) as (? & [=] & _)); try (destruct (Hba _ eq_refl) as (? & [=] & _)); try done.
  destruct (Hab _ eq_refl) as (? & [= <-] & [E1 E2]). cbn [fst snd] in E1, E2. subst r'. destruct (c =? 0); [done|].
  assert (takes_arg (type x) = takes_arg (type y) /\ next_fmt m (f + r) (type x) = next_fmt m (f + r) (type y)) as [Et En]
    by (destruct (type x), (type y); try discriminate E2; done).
  fold (next_fmt m (f + r) (type x)) (next_fmt m (f + r) (type y)). rewrite Et, E2, En. f_equal. by apply IH.
Qed.

Lemma demand_args (m : cmem) (ty : format_type) (f : Z) (ds : list (format_type * Z)) (args used extra : list va) :
  Forall2 (arg_ok resources rsz m) ((if takes_arg ty then [(kind_of ty, f)] else []) ++ ds) used -> args = used ++ extra ->
  exists used', arg_for m ty f args (used' ++ extra) /\ Forall2 (arg_ok resources rsz m) ds used'.
Proof using Type.
  intros Hd Ha. unfold arg_for. destruct (takes_arg ty); cbn [app] in Hd; [|by exists used].
  inversion Hd as [|? a ? used' Ha1 Ha2]; subst. exists used'. split; [|done]. by exists a.
Qed.

Variable b0 : list Z.
Variable sz : Z.
Hypothesis sz_ok : 0 <= sz <= len b0.
#[local] Notation same := (turnR (bufR b0 sz)).
Lemma buffer_turn (m : cmem) (t t' : turn (S := list Z)) (b : turn (S := buffer)) (read : Z) (spec : printf_spec) :
  same t b -> format_decode m (t_fmt t) (t_spec t) = Ret (read, spec) -> 0 <= read -> format_turn kallsyms resources rsz m t = Ret t' ->
  exists b', format_turn kallsyms resources rsz m b = Ret b' /\ same t' b'.
Proof using sz_ok.
  intros Hb Ed Hr E. apply (format_turn_sim (bufR b0 sz) (putc_buf b0 sz sz_ok)) with (a := t); [..|done].
  - intros. by apply copyin_buf.
  - intros x y (_ & Ep & _). symmetry. exact Ep.
  - done.
  - intros read' spec' E'. congruence.
Qed.

(** The loop ends at the end of the format, with the arguments it needs, on either device. *)
Lemma format_loop_returns (fuel : nat) (m : cmem) (s : list Z) (t : turn (S := list Z)) (b : turn (S := buffer)) (used extra : list va) :
  mem_ok m -> str_at m (t_fmt t) s -> spec_wf (t_spec t) -> fmt_weight s (t_spec t) < Z.of_nat fuel ->
  Forall2 (arg_ok resources rsz m) (demands_from fuel m (t_fmt t) (t_spec t)) used -> t_args t = used ++ extra -> same t b ->
  exists t' b', format_loop kallsyms resources rsz fuel m t = Ret t' /\ t_args t' = extra /\
    format_loop kallsyms resources rsz fuel m b = Ret b' /\ same t' b'.
Proof using kallsyms_ok rsz_ok sz_ok.
  intros Hm. revert s t b used. induction fuel as [|fuel IH]; intros s t b used Hs Hw Hf Hd Ha Hb; [unfold fmt_weight in Hf; destruct (is_star _); lia|].
  cbn [format_loop demands_from] in *. pose proof Hb as (Eb & _). rewrite <- Eb. rewrite (str_rd _ _ _ Hs) in Hd |- *. cbn [res_bind].
  destruct s as [|c s]; cbn [hd] in *.
  { cbn. destruct (format_decode m (t_fmt t) (t_spec t)) as [[? ?]| | |]; inversion Hd; subst used; by exists t, b. }
  assert (0 < c) as Hc by (apply str_at_cons in Hs as [? _]; lia). rewrite (proj2 (Z.eqb_neq c 0)) in Hd |- * by lia.
  destruct (format_decode_ok m (t_fmt t) (c :: s) (t_spec t) Hs Hw ltac:(done)) as (f1 & s1 & spec & E & Hr & Hw1 & Hbase & Hp & Hdec).
  rewrite E in Hd. replace (t_fmt t + (f1 - t_fmt t)) with f1 in Hd by lia. fold (next_fmt m f1 (type spec)) in Hd.
  destruct (demand_args _ _ _ _ _ _ _ Hd Ha) as (used' & Harg & Hd'). pose proof (reads_length _ _ _ _ _ Hr) as [El1 Hl1].
  destruct (format_turn_returns m t s1 f1 spec (used' ++ extra)) as (t' & s' & Et' & Hr' & Hw' & Et & Eargs & En);
    [done|by eapply reads_str|done|done| |done..|].
  { destruct Hr as (x & Ex & -> & _). destruct Hs as [_ Hs]. replace (t_fmt t + len x - t_fmt t) with (len x) by lia.
    rewrite Ex, <- app_assoc in Hs. apply bytes_at_app in Hs as [Hs _]. by apply bytes_mapped. }
  destruct (buffer_turn m t t' b _ _ Hb E ltac:(lia) Et') as (b' & -> & Hb'). rewrite Et'. cbn [res_bind]. pose proof (reads_length _ _ _ _ _ Hr') as [_ Hl'].
  apply (IH s' t' b' used'); [by eapply reads_str|done| | |done..].
  - unfold fmt_weight in *. rewrite Et. destruct Hdec as [Hl|[E1 E2]]; [|rewrite E1 in Hf; rewrite E2; lia].
    destruct (is_star (type spec)), (is_star (type (t_spec t))); lia.
  - rewrite En. erewrite demands_kind; [exact Hd'|by rewrite Et].
Qed.
End Returns.

(** ** The buffer *)

Section Bounded.
Variable kallsyms : option (Z -> Z -> list Z).
Variable resources : gmap Z resource.
Variable rsz : Z.

(** What the caller of [vsnprintf] owes: a format in memory, with arguments that fit its conversions, more of
    them than needed are allowed; names of symbols that are strings; and a buffer [b] of at least [size] bytes. *)
Record call_ok (m : cmem) (buf size fmt : Z) (args : list va) (b : list Z) : Prop := CallOk {
  ok_symbols : forall text v c, kallsyms = Some text -> chars (text v c) /\ len (text v c) < 2 ^ 31;
  ok_rsz : rsz = 4 \/ rsz = 8;
  ok_mem : mem_ok m;
  ok_fmt : exists s, str_at m fmt s;
  ok_args : exists used extra, args = used ++ extra /\ Forall2 (arg_ok resources rsz m) (demands m fmt) used;
  ok_size : 0 <= size < 2 ^ 31 /\ size <= len b;
  ok_buf : 0 <= buf /\ buf + size < 2 ^ 64 }.

(** The text of a call, and the numbers it stores for %n. *)
Definition printed (m : cmem) (fmt : Z) (args : list va) (text : list Z) (stores : list (Z * Z)) : Prop :=
  exists t, format_all kallsyms resources rsz m fmt args [] = Ret t /\ t_out t = text /\ t_stores t = stores.
Lemma printed_fun (m : cmem) (fmt : Z) (args : list va) (t1 t2 : list Z) (s1 s2 : list (Z * Z)) :
  printed m fmt args t1 s1 -> printed m fmt args t2 s2 -> t1 = t2.
Proof. intros (x & E & <- & _) (y & E' & <- & _). rewrite E in E'. by injection E' as <-. Qed.
(** What a buffer of [size] bytes holds of the text: all of it or as much as there is room for, then a NUL;
    the bytes after that are as before. *)
Definition delivered (size : Z) (text b : list Z) : list Z :=
  if size =? 0 then b else
    let s := take (Z.to_nat (size - 1)) text in
    s ++ [0] ++ drop (S (length s)) b.

Lemma held_nul (size : Z) (text b : list Z) : 0 < size <= len b ->
  store_list [0] (if len text <? size then len text else size - 1) (held b size text) = Ret (delivered size text b).
Proof.
  intros H. unfold delivered. rewrite (proj2 (Z.eqb_neq size 0)) by lia. set (s := take (Z.to_nat (size - 1)) text).
  assert (len s = if len text <? size then len text else size - 1) as <-.
  { unfold s. rewrite length_take. destruct (Z.ltb_spec (len text) size); lia. }
  assert (len s < size) as Hs by (unfold s; rewrite length_take; lia).
  assert (take (length s) (held b size text) = s) as Et.
  { unfold held. rewrite take_app_le by (unfold s; rewrite !length_take; lia). unfold s at 1. rewrite length_take, take_take.
    destruct (decide (length text <= Z.to_nat (size - 1))%nat); [unfold s; rewrite !take_ge by lia; done|unfold s; f_equal; lia]. }
  assert (drop (S (length s)) (held b size text) = drop (S (length s)) b) as Ed.
  { unfold held. rewrite drop_app_ge by (unfold s; rewrite !length_take; lia). rewrite drop_drop. f_equal. unfold s. rewrite !length_take. lia. }
  rewrite <- (take_drop (length s) (held b size text)) at 1. rewrite Et.
  destruct (store_list_held b size ltac:(lia) [0] s (drop (length s) (held b size text))) as [-> |E]; [cbn [length]; lia| |].
  - rewrite <- Ed, drop_drop, Nat.add_1_r. done.
  - rewrite length_drop, (length_held b size ltac:(lia)) in E. cbn [length] in E. lia.
Qed.
Lemma vsnprintf_text (m : cmem) (buf size fmt : Z) (args : list va) (b : list Z) : call_ok m buf size fmt args b ->
  exists text stores, printed m fmt args text stores /\
    vsnprintf kallsyms resources rsz m buf size fmt args b = Ret (s32 (len text), delivered size text b, stores).
Proof.
  intros [Hk Hr Hm (s & Hs) (used & extra & Ea & Ha) [Hsz Hlen] [Hb0 Hb1]].
  set (spec0 := Printf_spec FORMAT_TYPE_NONE 0 0 0 0 0).
  destruct (format_loop_returns kallsyms resources rsz Hk Hr b size ltac:(lia) (2 * turns m) m s (Turn fmt spec0 args [] []) (Turn fmt spec0 args (Buffer 0 b size) []) used extra)
    as (t' & b' & E1 & _ & E2 & (_ & _ & _ & (Ero & Epos & Ebs) & Est)); [done|done|split_and!; cbn; lia| |done|done| |].
  { pose proof (str_turns _ _ _ Hs). unfold fmt_weight. unfold spec0. cbn [t_spec is_star type]. lia. }
  { split_and!; [done..| |done]. cbn. split_and!; [done|done|]. unfold held. by rewrite take_nil. }
  exists (t_out t'), (t_stores t'). split; [by exists t'|]. unfold vsnprintf.
  rewrite (swrap_id 32 size) by first [lia | unfold in_s; change (2 ^ (32 - 1)) with (2 ^ 31); lia]. rewrite (proj2 (Z.ltb_ge size 0)) by lia.
  rewrite (wrap_id 64 (buf + size)) by (unfold in_u; lia). rewrite (proj2 (Z.ltb_ge (buf + size) buf)) by lia.
  unfold format_all. fold spec0. rewrite E2. cbn [res_bind]. rewrite Epos, Ebs, <- Est. unfold delivered.
  destruct (Z.eqb_spec size 0) as [->|N].
  { cbn [Z.ltb Z.compare res_bind]. unfold held. cbn [Z.to_nat take length drop app]. done. }
  rewrite (proj2 (Z.ltb_lt 0 size)) by lia. rewrite held_nul by lia. cbn [res_bind]. unfold delivered.
  by rewrite (proj2 (Z.eqb_neq size 0)).
Qed.

Lemma delivered_bounds (size : Z) (text b : list Z) : 0 <= size <= len b ->
  length (delivered size text b) = length b /\ drop (Z.to_nat size) (delivered size text b) = drop (Z.to_nat size) b.
Proof.
  intros H. unfold delivered. destruct (Z.eqb_spec size 0) as [->|N]; [done|]. set (s := take (Z.to_nat (size - 1)) text).
  assert (len s < size) as Hs by (unfold s; rewrite length_take; lia). split.
  - rewrite !length_app, length_drop. cbn [length]. lia.
  - rewrite app_assoc, drop_app_ge by (rewrite length_app; cbn [length]; lia). rewrite drop_drop, length_app. cbn [length]. f_equal. lia.
Qed.

(** C31: a call of [vsnprintf] with a format and arguments that fit returns, in a number of turns bounded by the format. It
    gives the length of the whole text; the buffer holds as much of the text as fits before a terminating NUL inside
    [size], nothing at all when [size] is 0; and no byte from [size] on is touched, whatever the format and the
    arguments, widths and precisions that overflow their 16 bits included. *)
Theorem vsnprintf_bounded (m : cmem) (buf size fmt : Z) (args : list va) (b : list Z) : call_ok m buf size fmt args b ->
  exists text stores, printed m fmt args text stores /\
    let b' := delivered size text b in
    vsnprintf kallsyms resources rsz m buf size fmt args b = Ret (s32 (len text), b', stores) /\
    length b' = length b /\ drop (Z.to_nat size) b' = drop (Z.to_nat size) b /\ (size = 0 -> b' = b) /\
    (0 < size -> let k := take (Z.to_nat (size - 1)) text in len k < size /\ b' = k ++ 0 :: drop (S (length k)) b).
Proof.
  intros Hc. destruct (vsnprintf_text _ _ _ _ _ _ Hc) as (text & stores & Hp & E). exists text, stores. split; [done|]. split; [done|].
  destruct Hc as [_ _ _ _ _ [Hsz Hlen] _]. pose proof (delivered_bounds size text b ltac:(lia)) as [Hl Hd]. split_and!; [done|done| |].
  - unfold delivered. by intros ->.
  - intros Hs k. split; [unfold k; rewrite length_take; lia|]. unfold delivered. by rewrite (proj2 (Z.eqb_neq size 0)) by lia.
Qed.

(** [vscnprintf] and [scnprintf] give the number of characters in the buffer, never more than [size] - 1; but with a
    [size] of 0, where nothing is stored, they give -1. *)
Theorem scnprintf_counts_stored (m : cmem) (buf size fmt : Z) (args : list va) (b : list Z) : call_ok m buf size fmt args b ->
  exists text stores, printed m fmt args text stores /\
    (len text < 2 ^ 31 ->
     let n := if size =? 0 then -1 else len (take (Z.to_nat (size - 1)) text) in
     vscnprintf kallsyms resources rsz m buf size fmt args b = Ret (n, delivered size text b) /\
     scnprintf kallsyms resources rsz m buf size fmt args b = Ret (n, delivered size text b)).
Proof.
  intros Hc. destruct (vsnprintf_text _ _ _ _ _ _ Hc) as (text & stores & Hp & E). exists text, stores. split; [done|]. intros Ht.
  destruct Hc as [_ _ _ _ _ [Hsz Hlen] _]. unfold vscnprintf, scnprintf. rewrite E. cbn [res_bind].
  rewrite (swrap_id 32 (len text)) by first [lia | unfold in_s; change (2 ^ (32 - 1)) with (2 ^ 31); lia]. rewrite (wrap_id 64 (len text)) by pow_lia.
  assert ((if size <=? len text then s32 (u64 (size - 1)) else len text) = if size =? 0 then -1 else len (take (Z.to_nat (size - 1)) text)) as ->; [|done].
  destruct (Z.eqb_spec size 0) as [->|N]; [by rewrite (proj2 (Z.leb_le 0 _)) by lia|]. rewrite length_take. destruct (Z.leb_spec size (len text)); [|lia].
  rewrite (wrap_id 64 (size - 1)) by pow_lia. rewrite (swrap_id 32) by first [lia | pow_lia | unfold in_s; change (2 ^ (32 - 1)) with (2 ^ 31); pow_lia]. lia.
Qed.
End Bounded.

Module Demo.
Definition place (p : Z) (l : list Z) : cmem := list_to_map (zip (seqZ p (len l)) l).
(** A format, a string and an Ethernet address in memory. *)
Definition the_mem : cmem := place 10000 (codes "%s=%*d [%pM]" ++ [0]) ∪ place 20000 (codes "eth" ++ [0]) ∪ place 30000 [2; 0; 94; 16; 255; 1].
Definition the_args : list va := [VPtr 20000; VInt 5; VInt (-42); VPtr 30000].

Lemma bytes_at_dec (m : cmem) (p : Z) (l : list Z) : forallb (fun ic : Z * Z => bool_decide (m !! (p + ic.1) = Some ic.2)) (zip (seqZ 0 (len l)) l) = true -> bytes_at m p l.
Proof.
  intros H i c E. rewrite forallb_forall in H. specialize (H (Z.of_nat i, c)). apply (fun K => bool_decide_eq_true_1 _ (H K)).
  apply list_elem_of_In, list_elem_of_lookup. exists i. rewrite lookup_zip_with. pose proof (lookup_lt_Some _ _ _ E).
  rewrite (proj2 (lookup_seqZ 0 (len l) i (0 + Z.of_nat i))) by lia. cbn. by rewrite E.
Qed.
Lemma chars_dec (l : list Z) : forallb (fun c => (0 <? c) && (c <? 256)) l = true -> chars l.
Proof. intros H. apply Forall_forall. intros c Hc%list_elem_of_In. rewrite forallb_forall in H. specialize (H c Hc). lia. Qed.
Lemma mem_ok_dec (m : cmem) : forallb (fun ac : Z * Z => (0 <=? ac.2) && (ac.2 <? 256)) (map_to_list m) = true -> mem_ok m.
Proof. intros H a c E%elem_of_map_to_list%list_elem_of_In. rewrite forallb_forall in H. specialize (H _ E). cbn in H. lia. Qed.

Lemma demands_the_mem : demands the_mem 10000 = [(FORMAT_TYPE_STR, 10003); (FORMAT_TYPE_WIDTH, 10006); (FORMAT_TYPE_UINT, 10007); (FORMAT_TYPE_PTR, 10010)].
Proof. vm_compute. reflexivity. Qed.
Lemma the_call (buf size : Z) (b : list Z) : 0 <= buf < 2 ^ 40 -> 0 <= size < 1000 -> size <= len b -> call_ok None ∅ 8 the_mem buf size 10000 the_args b.
Proof.
  intros Hbuf Hs Hb. split.
  - discriminate.
  - by right.
  - apply mem_ok_dec. vm_compute. reflexivity.
  - exists (codes "%s=%*d [%pM]"). split; [apply chars_dec|apply bytes_at_dec]; vm_compute; reflexivity.
  - exists the_args, []. split; [done|]. rewrite demands_the_mem. repeat constructor; cbn [arg_ok fst snd].
    + exists 20000. split; [done|]. right. exists (codes "eth"). change (u64 20000) with 20000.
      split; [split; [apply chars_dec|apply bytes_at_dec]; vm_compute; reflexivity|vm_compute; reflexivity].
    + by exists 5.
    + by exists (-42).
    + exists 30000. split; [done|]. change (u64 30000) with 30000. right. intros c Hc.
      assert (rd the_mem 10010 = Ret (ch "M")) as E by (vm_compute; reflexivity). rewrite E in Hc. injection Hc as <-.
      split_and!; [intros _| | |discriminate|]; try (intros [[=]|[=]]). apply (bytes_mapped _ _ [2; 0; 94; 16; 255; 1]), bytes_at_dec. vm_compute. reflexivity.
  - pow_lia.
  - pow_lia.
Qed.

Lemma vsnprintf_bounded_witness :
  (exists text stores, printed None ∅ 8 the_mem 10000 the_args text stores /\
    vsnprintf None ∅ 8 the_mem 50000 8 10000 the_args (replicate 10 7) = Ret (s32 (len text), delivered 8 text (replicate 10 7), stores)) /\
  vsnprintf None ∅ 8 the_mem 50000 8 10000 the_args (replicate 10 7) = Ret (29, codes "eth=  -" ++ [0; 7; 7], []).
Proof.
  split; [|vm_compute; reflexivity].
  destruct (vsnprintf_bounded None ∅ 8 the_mem 50000 8 10000 the_args (replicate 10 7)) as (text & stores & Hp & E & _); [apply the_call; cbn; lia|].
  exists text, stores. exact (conj Hp E).
Defined.
Lemma scnprintf_counts_stored_witness :
  (exists text stores, printed None ∅ 8 the_mem 10000 the_args text stores /\
    (len text < 2 ^ 31 -> scnprintf None ∅ 8 the_mem 50000 0 10000 the_args [] = Ret (-1, []))) /\
  scnprintf None ∅ 8 the_mem 50000 0 10000 the_args [] = Ret (-1, []).
Proof.
  split; [|vm_compute; reflexivity].
  destruct (scnprintf_counts_stored None ∅ 8 the_mem 50000 0 10000 the_args []) as (text & stores & Hp & E); [apply the_call; cbn; lia|].
  exists text, stores. exact (conj Hp (fun Ht => proj2 (E Ht))).
Defined.
End Demo.
