(* ===== verification/Vsscanf.v ===== *)
(** * Reading formatted text: vsscanf of lib/vsprintf.c

    The text, the format and the objects that the arguments point to are in one memory.  The functions that read numbers
    are those of Vsprintf. *)
From Stdlib Require Import Ascii.
From Stdlib Require String.
From S2P Require Import Prelude CString CStringSpec Vsprintf VsprintfNum VsprintfText VsprintfBuf.
Import String.StringSyntax.

(** ** The code *)

Definition SHRT_MAX : Z := 32767.
(** The bytes of an integer in memory. *)
Definition le_bytes (n : nat) (v : Z) : list Z := (fun i => u8 (Z.shiftr v (8 * Z.of_nat i))) <$> seq 0 n.
(** All arguments are pointers. *)
Definition va_next (args : list Z) : res (Z * list Z) := match args with p :: args => Ret (p, args) | [] => Bug end.

(** The loops of %*, %c and %s. *)
Fixpoint skip_conversion (fuel : nat) (m : cmem) (fmt : Z) : res Z :=
  match fuel with
  | O => OutOfFuel
  | S fuel => let! c := rd m fmt in if negb (isspace c) && negb (c =? ch "%") && negb (c =? 0) then skip_conversion fuel m (fmt + 1) else Ret fmt
  end.
Fixpoint skip_word (fuel : nat) (m : cmem) (str : Z) : res Z :=
  match fuel with
  | O => OutOfFuel
  | S fuel => let! c := rd m str in if negb (isspace c) && negb (c =? 0) then skip_word fuel m (str + 1) else Ret str
  end.
Fixpoint copy_chars (fuel : nat) (m : cmem) (s str field_width : Z) : res (cmem * Z) :=
  match fuel with
  | O => OutOfFuel
  | S fuel =>
      let! c := rd m str in
      let! m := wr m s c in
      let field_width := s16 (field_width - 1) in
      let! more := if 0 <? field_width then let! c := rd m (str + 1) in Ret (negb (c =? 0)) else Ret false in
      if more then copy_chars fuel m (s + 1) (str + 1) field_width else Ret (m, str + 1)
  end.
Fixpoint copy_word (fuel : nat) (m : cmem) (s str field_width : Z) : res (cmem * Z * Z) :=
  match fuel with
  | O => OutOfFuel
  | S fuel =>
      let! c := rd m str in
      if negb (c =? 0) && negb (isspace c) && negb (field_width =? 0) then
        let! m := wr m s c in copy_word fuel m (s + 1) (str + 1) (s16 (field_width - 1))
      else Ret (m, s, str)
  end.

(** How a turn of the loop ends. *)
Inductive outcome :=
  | Continue (m : cmem) (str : Z) (args : list Z) (num : Z)
  | Break (str : Z)
  | Return.

(** The qualifier, 255 where there is none. *)
Definition scan_qualifier (m : cmem) (fmt : Z) : res (Z * Z) :=
  let! c := rd m fmt in
  if (c =? ch "h") || (TOLOWER c =? ch "l") || (TOLOWER c =? ch "z") then
    let qualifier := c in
    let fmt := fmt + 1 in
    let! c := rd m fmt in
    if qualifier =? c then
      if qualifier =? ch "h" then Ret (ch "H", fmt + 1)
      else if qualifier =? ch "l" then Ret (ch "L", fmt + 1)
      else Ret (qualifier, fmt)
    else Ret (qualifier, fmt)
  else Ret (255, fmt).
(** The number, where the text goes on, and the size of the object it is stored to. *)
Definition scan_number (m : cmem) (qualifier base : Z) (is_sign : bool) (str : Z) : res (Z * Z * nat) :=
  let signed := if qualifier =? ch "L" then simple_strtoll m str base else simple_strtol m str base in
  let unsigned := if qualifier =? ch "L" then simple_strtoull m str base else simple_strtoul m str base in
  let! r := if (qualifier =? ch "Z") || (qualifier =? ch "z") then unsigned else if is_sign then signed else unsigned in
  Ret (r, if qualifier =? ch "H" then 1%nat else if qualifier =? ch "h" then 2%nat
          else if (qualifier =? ch "l") || (qualifier =? ch "L") || (qualifier =? ch "Z") || (qualifier =? ch "z") then 8%nat else 4%nat).
Definition scan_integer (m : cmem) (qualifier base : Z) (is_sign : bool) (str : Z) (args : list Z) (num : Z) : res outcome :=
  let! str := skip_spaces m str in
  let! digit := rd m str in
  let! digit := if is_sign && (digit =? ch "-") then rd m (str + 1) else Ret digit in
  if (digit =? 0) || ((base =? 16) && negb (isxdigit digit)) || ((base =? 10) && negb (isdigit digit)) ||
     ((base =? 8) && (negb (isdigit digit) || (ch "7" <? digit))) || ((base =? 0) && negb (isdigit digit))
  then Ret (Break str)
  else
    let! (p, args) := va_next args in
    let! (r, n) := scan_number m qualifier base is_sign str in
    let '(v, next) := r in
    let! m := wrn m p (le_bytes n v) in
    Ret (Continue m next args (num + 1)).
Definition scan_conversion (m : cmem) (buf c qualifier field_width str : Z) (args : list Z) (num : Z) : res outcome :=
  if c =? ch "c" then
    let! (s, args) := va_next args in
    let field_width := if field_width =? -1 then 1 else field_width in
    let! (m, str) := copy_chars (turns m) m s str field_width in
    Ret (Continue m str args (num + 1))
  else if c =? ch "s" then
    let! (s, args) := va_next args in
    let field_width := if field_width =? -1 then SHRT_MAX else field_width in
    let! str := skip_spaces m str in
    let! (r, str) := copy_word (turns m) m s str field_width in
    let '(m, s) := r in
    let! m := wr m s 0 in
    Ret (Continue m str args (num + 1))
  else if c =? ch "n" then
    let! (i, args) := va_next args in
    let! m := wrn m i (le_bytes 4 (s32 (str - buf))) in
    Ret (Continue m str args num)
  else if c =? ch "o" then scan_integer m qualifier 8 false str args num
  else if (c =? ch "x") || (c =? ch "X") then scan_integer m qualifier 16 false str args num
  else if c =? ch "i" then scan_integer m qualifier 0 true str args num
  else if c =? ch "d" then scan_integer m qualifier 10 true str args num
  else if c =? ch "u" then scan_integer m qualifier 10 false str args num
  else if c =? ch "%" then
    let! d := rd m str in if d =? ch "%" then Ret (Continue m (str + 1) args num) else Ret Return
  else Ret Return.

(** Behind the loop. *)
Definition scan_end (m : cmem) (buf fmt str : Z) (args : list Z) (num : Z) : res (Z * cmem) :=
  let! c := rd m fmt in
  let! n := if c =? ch "%" then let! d := rd m (fmt + 1) in Ret (d =? ch "n") else Ret false in
  if n then
    let! (p, _) := va_next args in
    let! m := wrn m p (le_bytes 4 (s32 (str - buf))) in
    Ret (num, m)
  else Ret (num, m).
Fixpoint scan_loop (fuel : nat) (m : cmem) (buf fmt str : Z) (args : list Z) (num : Z) : res (Z * cmem) :=
  match fuel with
  | O => OutOfFuel
  | S fuel =>
      let! f := rd m fmt in
      let! c := rd m str in
      if (f =? 0) || (c =? 0) then scan_end m buf fmt str args num
      else
        let! (fmt, str) := if isspace f then let! fmt := skip_spaces m (fmt + 1) in let! str := skip_spaces m str in Ret (fmt, str) else Ret (fmt, str) in
        let! f := rd m fmt in
        if negb (f =? ch "%") && negb (f =? 0) then
          let! c := rd m str in
          if negb (f =? c) then scan_end m buf (fmt + 1) (str + 1) args num else scan_loop fuel m buf (fmt + 1) (str + 1) args num
        else if f =? 0 then scan_end m buf fmt str args num
        else
          let fmt := fmt + 1 in
          let! f := rd m fmt in
          if f =? ch "*" then
            let! fmt := skip_conversion (turns m) m fmt in
            let! str := skip_word (turns m) m str in
            scan_loop fuel m buf fmt str args num
          else
            let! (field_width, fmt) := if isdigit f then let! (w, fmt) := skip_atoi m fmt in Ret (s16 w, fmt) else Ret (-1, fmt) in
            let! (qualifier, fmt) := scan_qualifier m fmt in
            let! f := rd m fmt in
            let! c := rd m str in
            if (f =? 0) || (c =? 0) then scan_end m buf fmt str args num
            else
              let fmt := fmt + 1 in
              let! t := scan_conversion m buf f qualifier field_width str args num in
              match t with
              | Continue m str args num => scan_loop fuel m buf fmt str args num
              | Break str => scan_end m buf fmt str args num
              | Return => Ret (num, m)
              end
  end.
Definition vsscanf (m : cmem) (buf fmt : Z) (args : list Z) : res (Z * cmem) := scan_loop (turns m) m buf fmt buf args 0.

(** ** What is read *)

Lemma skip_ok (loop : nat -> cmem -> Z -> res Z) (test : Z -> bool) (m : cmem) (p : Z) (s : list Z) :
  (forall fuel m p, loop (S fuel) m p = let! c := rd m p in if test c then loop fuel m (p + 1) else Ret p) -> test 0 = false -> str_at m p s ->
  exists p' s', loop (turns m) m p = Ret p' /\ reads m p s p' s' /\ test (hd 0 s') = false.
Proof.
  intros Hl H0 H. pose proof (str_turns _ _ _ H) as Ht. assert (length s < turns m)%nat as Hf by lia. clear Ht. revert Hf. generalize (turns m). intros fuel Hf. revert p fuel H Hf.
  induction s as [|c s IH]; intros p fuel H Hf; (destruct fuel as [|fuel]; [cbn in Hf; lia|]); rewrite Hl, (str_rd _ _ _ H); cbn [res_bind hd].
  - rewrite H0. exists p, []. split; [done|]. split; [by apply reads_refl|done].
  - destruct (test c) eqn:E; [|exists p, (c :: s); split; [done|]; split; [by apply reads_refl|done]].
    destruct (IH (p + 1) fuel) as (p' & s' & -> & Hr & Hh); [by eapply str_tail|cbn in Hf; lia|]. exists p', s'. split; [done|]. split; [|done].
    eapply reads_trans; [|done]. exists [c]. split_and!; [done..|by eapply str_tail].
Qed.
Lemma skip_spaces_ok (m : cmem) (p : Z) (s : list Z) : str_at m p s -> exists p' s', skip_spaces m p = Ret p' /\ reads m p s p' s' /\ isspace (hd 0 s') = false.
Proof. apply (skip_ok skip_spaces_loop isspace); done. Qed.
Lemma skip_conversion_ok (m : cmem) (p : Z) (s : list Z) : str_at m p s -> exists p' s', skip_conversion (turns m) m p = Ret p' /\ reads m p s p' s'.
Proof. intros H. destruct (skip_ok skip_conversion (fun c => negb (isspace c) && negb (c =? ch "%") && negb (c =? 0)) m p s) as (p' & s' & ? & ? & _); [done..|by exists p', s']. Qed.
Lemma skip_word_ok (m : cmem) (p : Z) (s : list Z) : str_at m p s -> exists p' s', skip_word (turns m) m p = Ret p' /\ reads m p s p' s'.
Proof. intros H. destruct (skip_ok skip_word (fun c => negb (isspace c) && negb (c =? 0)) m p s) as (p' & s' & ? & ? & _); [done..|by exists p', s']. Qed.
Lemma strtoull_loop_ok (s : list Z) (m : cmem) (p base v : Z) (fuel : nat) : str_at m p s -> (length s < fuel)%nat ->
  exists v' e s', strtoull_loop fuel m p base v = Ret (v', e) /\ reads m p s e s'.
Proof.
  revert p v fuel. induction s as [|c s IH]; intros p v fuel H Hf; (destruct fuel as [|fuel]; [cbn in Hf; lia|]); cbn [strtoull_loop]; rewrite (str_rd _ _ _ H); cbn [res_bind hd].
  - exists v, p, []. split; [done|by apply reads_refl].
  - destruct (isxdigit c); [|exists v, p, (c :: s); split; [done|by apply reads_refl]]. destruct (base <=? _); [exists v, p, (c :: s); split; [done|by apply reads_refl]|].
    destruct (IH (p + 1) (u64 (v * base + u32 (if isdigit c then c - ch "0" else TOLOWER c - ch "a" + 10))) fuel) as (v' & e & s' & -> & Hr); [by eapply str_tail|cbn in Hf; lia|].
    exists v', e, s'. split; [done|]. eapply reads_trans; [|done]. exists [c]. split_and!; [done..|by eapply str_tail].
Qed.
Lemma str_rd1 (m : cmem) (p : Z) (c : Z) (s : list Z) : str_at m p (c :: s) -> rd m (p + 1) = Ret (hd 0 s).
Proof. intros H%str_tail. by apply str_rd. Qed.
Lemma simple_guess_base_ok (m : cmem) (p : Z) (s : list Z) : str_at m p s -> exists b, simple_guess_base m p = Ret b.
Proof.
  intros H. unfold simple_guess_base. rewrite (str_rd _ _ _ H). cbn [res_bind]. destruct s as [|c s]; [by exists 10|]. cbn [hd]. destruct (c =? ch "0"); [|by exists 10].
  rewrite (str_rd1 _ _ _ _ H). cbn [res_bind]. destruct s as [|d s]; [by exists 8|]. cbn [hd]. destruct (TOLOWER d =? ch "x"); [|by exists 8].
  apply str_tail in H. pose proof (str_rd1 _ _ _ _ H) as E. replace (p + 1 + 1) with (p + 2) in E by lia. rewrite E. cbn [res_bind]. by eexists.
Qed.
Lemma simple_strtoull_ok (m : cmem) (p base : Z) (s : list Z) : str_at m p s -> exists v e s', simple_strtoull m p base = Ret (v, e) /\ reads m p s e s'.
Proof.
  intros H. unfold simple_strtoull. assert (exists b, (if base =? 0 then simple_guess_base m p else Ret base) = Ret b) as [b ->] by (destruct (base =? 0); [by eapply simple_guess_base_ok|by exists base]). cbn [res_bind].
  assert (exists h p' s', (if b =? 16 then let! c0 := rd m p in if c0 =? ch "0" then let! c1 := rd m (p + 1) in Ret (TOLOWER c1 =? ch "x") else Ret false else Ret false) = Ret h /\ (if h : bool then p + 2 else p) = p' /\ reads m p s p' s') as (h & p' & s' & -> & Ep & Hr).
  { destruct (b =? 16); [|exists false, p, s; split; [done|]; split; [done|by apply reads_refl]]. rewrite (str_rd _ _ _ H). cbn [res_bind]. destruct s as [|c s]; [exists false, p, []; split; [done|]; split; [done|by apply reads_refl]|]. cbn [hd].
    destruct (c =? ch "0"); [|exists false, p, (c :: s); split; [done|]; split; [done|by apply reads_refl]]. rewrite (str_rd1 _ _ _ _ H). cbn [res_bind].
    destruct s as [|d s]; [exists false, p, [c]; split; [done|]; split; [done|by apply reads_refl]|]. cbn [hd]. destruct (TOLOWER d =? ch "x"); [|exists false, p, (c :: d :: s); split; [done|]; split; [done|by apply reads_refl]].
    exists true, (p + 2), s. split; [done|]. split; [done|]. exists [c; d]. split; [done|]. split; [done|]. replace (p + 2) with (p + 1 + 1) by lia. by do 2 eapply str_tail. }
  cbn [res_bind]. rewrite Ep. pose proof (reads_str _ _ _ _ _ Hr) as Hs. pose proof (str_turns _ _ _ Hs). destruct (strtoull_loop_ok s' m p' b 0 (turns m) Hs) as (v & e & s2 & -> & Hr2); [lia|].
  exists v, e, s2. split; [done|]. by eapply reads_trans.
Qed.
Lemma strto_signed_ok (f : cmem -> Z -> Z -> res (Z * Z)) (m : cmem) (p base : Z) (s : list Z) :
  f = simple_strtol \/ f = simple_strtoll -> str_at m p s -> exists v e s', f m p base = Ret (v, e) /\ reads m p s e s'.
Proof.
  intros Hf H. assert (f m p base = let! c := rd m p in if c =? ch "-" then let! (v, e) := simple_strtoull m (p + 1) base in Ret (s64 (u64 (- v)), e) else let! (v, e) := simple_strtoull m p base in Ret (s64 v, e)) as ->
    by (destruct Hf as [-> | ->]; done). rewrite (str_rd _ _ _ H). cbn [res_bind]. destruct (Z.eqb_spec (hd 0 s) (ch "-")) as [E|E].
  - destruct s as [|c s]; [done|]. destruct (simple_strtoull_ok m (p + 1) base s) as (v & e & s' & -> & Hr); [by eapply str_tail|]. eexists _, e, s'. split; [done|].
    eapply reads_trans; [|done]. exists [c]. split_and!; [done..|by eapply str_tail].
  - destruct (simple_strtoull_ok m p base s H) as (v & e & s' & -> & Hr). by eexists _, e, s'.
Qed.
Lemma scan_number_ok (m : cmem) (q base : Z) (sg : bool) (p : Z) (s : list Z) : str_at m p s ->
  exists v e n s', scan_number m q base sg p = Ret (v, e, n) /\ reads m p s e s' /\ (n <= 8)%nat.
Proof.
  intros H. unfold scan_number. assert (exists v e s', (if (q =? ch "Z") || (q =? ch "z") then if q =? ch "L" then simple_strtoull m p base else simple_strtoul m p base
    else if sg then if q =? ch "L" then simple_strtoll m p base else simple_strtol m p base else if q =? ch "L" then simple_strtoull m p base else simple_strtoul m p base) = Ret (v, e) /\ reads m p s e s') as (v & e & s' & -> & Hr).
  { destruct (_ || _); [destruct (q =? ch "L"); by apply simple_strtoull_ok|]. destruct sg, (q =? ch "L"); [apply (strto_signed_ok simple_strtoll); auto|apply (strto_signed_ok simple_strtol); auto|by apply simple_strtoull_ok..]. }
  cbn [res_bind]. eexists v, e, _, s'. split; [done|]. split; [done|]. repeat (case_match; try lia).
Qed.

(** ** Where it writes *)
Section Safe.
(** The format of [lf] characters and the text of [lb] characters; an argument has room for the whole text. *)
Variables F0 lf B0 lb : Z.
Variable A : list Z.
Definition room : Z := lb + 8.
Definition block_ok (m : cmem) (p : Z) : Prop := mapped m p room /\ apart F0 (lf + 1) p room /\ apart B0 (lb + 1) p room.
Definition at_fmt (m : cmem) (f : Z) (s : list Z) : Prop := str_at m f s /\ F0 <= f /\ f + len s = F0 + lf.
Definition at_buf (m : cmem) (p : Z) (s : list Z) : Prop := str_at m p s /\ B0 <= p /\ p + len s = B0 + lb.
(** Only the objects of [A] were written to. *)
Record ext (m m' : cmem) : Prop := Ext {
  e_fmt : forall f s, at_fmt m f s -> at_fmt m' f s;
  e_buf : forall p s, at_buf m p s -> at_buf m' p s;
  e_block : forall p, block_ok m p -> block_ok m' p;
  e_only : forall a, (forall p, p ∈ A -> ~ p <= a < p + room) -> m' !! a = m !! a }.
Lemma ext_refl (m : cmem) : ext m m.
Proof. by split. Qed.
Lemma ext_trans (m1 m2 m3 : cmem) : ext m1 m2 -> ext m2 m3 -> ext m1 m3.
Proof. intros H1 H2. split; intros; [by apply H2, H1..|]. rewrite (e_only _ _ H2), (e_only _ _ H1) by done. done. Qed.
Lemma ext_write (m : cmem) (p q : Z) (l : list Z) : p ∈ A -> block_ok m p -> p <= q -> q + len l <= p + room -> ext m (wbytes m q l).
Proof.
  intros Hp (Hm & Hf & Hb) H1 H2. unfold apart in Hf, Hb. split.
  - intros f s (Hs & Hl & He). split; [|done]. apply str_at_wbytes_ne; [done|]. unfold apart. lia.
  - intros f s (Hs & Hl & He). split; [|done]. apply str_at_wbytes_ne; [done|]. unfold apart. lia.
  - intros r (Hr & Hrest). split; [|done]. by apply mapped_wbytes.
  - intros a Ha. rewrite lookup_wbytes. specialize (Ha p Hp). case_decide; [lia|done].
Qed.
Lemma at_fmt_reads (m : cmem) (f f' : Z) (s s' : list Z) : at_fmt m f s -> reads m f s f' s' -> at_fmt m f' s'.
Proof. intros (_ & H1 & H2) Hr. pose proof (reads_length _ _ _ _ _ Hr). split; [by eapply reads_str|lia]. Qed.
Lemma at_buf_reads (m : cmem) (f f' : Z) (s s' : list Z) : at_buf m f s -> reads m f s f' s' -> at_buf m f' s'.
Proof. intros (_ & H1 & H2) Hr. pose proof (reads_length _ _ _ _ _ Hr). split; [by eapply reads_str|lia]. Qed.
Lemma at_buf_next (m : cmem) (p c : Z) (s : list Z) : at_buf m p (c :: s) -> at_buf m (p + 1) s.
Proof. intros (H & H1 & H2). cbn [length] in H2. split; [by eapply str_tail|lia]. Qed.
(** An integer, a character. *)
Lemma store_ok (m : cmem) (p v : Z) (n : nat) : p ∈ A -> block_ok m p -> 0 <= lb -> (n <= 8)%nat -> exists m', wrn m p (le_bytes n v) = Ret m' /\ ext m m'.
Proof.
  intros Hp Hb Hl Hn. assert (len (le_bytes n v) <= 8) as Le by (unfold le_bytes; rewrite length_fmap, length_seq; lia). pose proof Hb as [Hm _]. unfold room in Hm. eexists. split.
  - apply wrn_spec; [eapply mapped_weaken; [done|lia|lia]|]. unfold le_bytes. apply Forall_fmap, Forall_forall. intros i _. apply wrap_range. lia.
  - apply (ext_write m p p); [done..|lia|unfold room; lia].
Qed.
Lemma put_ok (m : cmem) (p q c : Z) : p ∈ A -> block_ok m p -> p <= q < p + room -> in_u 8 c -> wr m q c = Ret (<[q := c]> m) /\ ext m (<[q := c]> m).
Proof.
  intros Hp Hb Hq Hc. pose proof Hb as [Hm _]. split; [apply (wr_run m q c 1); [eapply mapped_weaken; [done|lia|lia]|lia|done]|]. apply (ext_write m p q [c]); [done..|lia|cbn; lia].
Qed.
Lemma copy_chars_ok (ss : list Z) (c : Z) (m : cmem) (p s str w : Z) (fuel : nat) : at_buf m str (c :: ss) -> p ∈ A -> block_ok m p -> p <= s -> s + len ss + 1 <= p + room -> (length ss < fuel)%nat ->
  exists m' str' ss', copy_chars fuel m s str w = Ret (m', str') /\ ext m m' /\ at_buf m' str' ss'.
Proof.
  revert c m s str w fuel. induction ss as [|d ss IH]; intros c m s str w fuel Hb Hp Hm H1 H2 Hf; (destruct fuel as [|fuel]; [lia|]); cbn [copy_chars]; pose proof Hb as (Hs & _); rewrite (str_rd _ _ _ Hs); cbn [res_bind hd].
  all: apply str_at_cons in Hs as (Hc & _ & _); destruct (put_ok m p s c Hp Hm ltac:(cbn in H2; lia) ltac:(apply char_u8; lia)) as [-> He]; cbn [res_bind].
  all: pose proof (at_buf_next _ _ _ _ (e_buf _ _ He _ _ Hb)) as Hn; pose proof Hn as (Hs' & _).
  - destruct (0 <? s16 (w - 1)); [rewrite (str_rd _ _ _ Hs')|]; cbn; eexists _, _, []; (split; [done|]); done.
  - assert (forall more : bool, exists m' str' ss', (if more then copy_chars fuel (<[s := c]> m) (s + 1) (str + 1) (s16 (w - 1)) else Ret (<[s := c]> m, str + 1)) = Ret (m', str') /\ ext m m' /\ at_buf m' str' ss') as G.
    { intros [|]; [|by eexists _, _, (d :: ss)]. destruct (IH d (<[s := c]> m) (s + 1) (str + 1) (s16 (w - 1)) fuel Hn Hp) as (m' & str' & ss' & -> & He' & Hb'); [by apply (e_block _ _ He)|lia|cbn in H2; lia|cbn in Hf; lia|].
      exists m', str', ss'. split; [done|]. split; [by eapply ext_trans|done]. }
    destruct (0 <? s16 (w - 1)); [rewrite (str_rd _ _ _ Hs')|]; cbn [res_bind]; [apply G|apply (G false)].
Qed.
Lemma copy_word_ok (ss : list Z) (m : cmem) (p s str w : Z) (fuel : nat) : at_buf m str ss -> p ∈ A -> block_ok m p -> p <= s -> s + len ss + 1 <= p + room -> (length ss < fuel)%nat ->
  exists m' s' str' ss', copy_word fuel m s str w = Ret (m', s', str') /\ ext m m' /\ at_buf m' str' ss' /\ p <= s' < p + room.
Proof.
  revert m s str w fuel. induction ss as [|d ss IH]; intros m s str w fuel Hb Hp Hm H1 H2 Hf; (destruct fuel as [|fuel]; [lia|]); cbn [copy_word]; pose proof Hb as (Hs & _); rewrite (str_rd _ _ _ Hs); cbn [res_bind hd].
  - exists m, s, str, []. split; [done|]. split; [apply ext_refl|]. split; [done|cbn in H2; lia].
  - destruct (_ && _); [|exists m, s, str, (d :: ss); split; [done|]; split; [apply ext_refl|]; split; [done|cbn in H2; lia]]. apply str_at_cons in Hs as (Hc & _ & _).
    destruct (put_ok m p s d Hp Hm ltac:(cbn in H2; lia) ltac:(apply char_u8; lia)) as [-> He]; cbn [res_bind]. pose proof (at_buf_next _ _ _ _ (e_buf _ _ He _ _ Hb)) as Hn.
    destruct (IH (<[s := d]> m) (s + 1) (str + 1) (s16 (w - 1)) fuel Hn Hp) as (m' & s' & str' & ss' & -> & He' & Hb' & Hs'); [by apply (e_block _ _ He)|lia|cbn in H2; lia|cbn in Hf; lia|].
    exists m', s', str', ss'. split; [done|]. split; [by eapply ext_trans|done].
Qed.

(** The outcome of a conversion. *)
Definition outcome_ok (m : cmem) (args : list Z) (num : Z) (t : outcome) : Prop :=
  match t with
  | Continue m' str' args' num' => ext m m' /\ (exists ss', at_buf m' str' ss') /\ (exists k, args = k ++ args' /\ (length k <= 1)%nat /\ num <= num' <= num + len k)
  | Break str' => exists ss', at_buf m str' ss'
  | Return => True
  end.
Lemma scan_integer_ok (m : cmem) (q base : Z) (sg : bool) (str : Z) (ss : list Z) (p : Z) (args : list Z) (num : Z) :
  at_buf m str ss -> p ∈ A -> block_ok m p -> 0 <= lb -> exists t, scan_integer m q base sg str (p :: args) num = Ret t /\ outcome_ok m (p :: args) num t.
Proof.
  intros Hb Hp Hm Hl. unfold scan_integer. pose proof Hb as (Hs & _). destruct (skip_spaces_ok m str ss Hs) as (str1 & s1 & -> & Hr & _). pose proof (at_buf_reads _ _ _ _ _ Hb Hr) as Hb1. pose proof Hb1 as (Hs1 & _). cbn [res_bind].
  rewrite (str_rd _ _ _ Hs1). cbn [res_bind]. assert (exists digit, (if sg && (hd 0 s1 =? ch "-") then rd m (str1 + 1) else Ret (hd 0 s1)) = Ret digit) as [digit ->].
  { destruct sg; [|by eexists]. cbn [andb]. destruct (Z.eqb_spec (hd 0 s1) (ch "-")) as [E|E]; [|by eexists]. destruct s1 as [|c s1]; [done|]. rewrite (str_rd1 _ _ _ _ Hs1). by eexists. }
  cbn [res_bind]. destruct (_ || _ || _ || _ || _); [eexists; split; [done|by exists s1]|]. cbn [va_next res_bind]. destruct (scan_number_ok m q base sg str1 s1 Hs1) as (v & e & n & s2 & -> & Hr2 & Hn). cbn [res_bind].
  destruct (store_ok m p v n Hp Hm Hl Hn) as (m' & -> & He). cbn [res_bind]. eexists. split; [done|]. cbn [outcome_ok]. split; [done|]. split; [exists s2; apply (e_buf _ _ He); by eapply at_buf_reads|]. exists [p]. cbn. split; [done|]. split; [done|lia].
Qed.
Lemma scan_conversion_ok (m : cmem) (buf c q w str : Z) (d : Z) (ss : list Z) (p : Z) (args : list Z) (num : Z) :
  at_buf m str (d :: ss) -> p ∈ A -> block_ok m p -> 0 <= lb -> exists t, scan_conversion m buf c q w str (p :: args) num = Ret t /\ outcome_ok m (p :: args) num t.
Proof.
  intros Hb Hp Hm Hl. pose proof Hb as (Hs & HB & HL). pose proof (str_turns _ _ _ Hs) as Ht. cbn [length] in HL, Ht. unfold scan_conversion. 
  destruct (c =? ch "c"); [|destruct (c =? ch "s"); [|destruct (c =? ch "n"); [|destruct (c =? ch "o"); [by eapply scan_integer_ok|destruct (_ || _); [by eapply scan_integer_ok|
    destruct (c =? ch "i"); [by eapply scan_integer_ok|destruct (c =? ch "d"); [by eapply scan_integer_ok|destruct (c =? ch "u"); [by eapply scan_integer_ok|destruct (c =? ch "%")]]]]]]]].
  - cbn [va_next res_bind]. destruct (copy_chars_ok ss d m p p str (if w =? -1 then 1 else w) (turns m) Hb Hp Hm) as (m' & str' & ss' & -> & He & Hb'); [lia|unfold room; lia|lia|]. cbn [res_bind].
    eexists. split; [done|]. split; [done|]. split; [by exists ss'|]. exists [p]. cbn. split; [done|]. split; [done|lia].
  - cbn [va_next res_bind]. destruct (skip_spaces_ok m str _ Hs) as (str1 & s1 & -> & Hr & _). pose proof (at_buf_reads _ _ _ _ _ Hb Hr) as Hb1. cbn [res_bind]. pose proof (reads_length _ _ _ _ _ Hr) as [_ Hrl]. cbn [length] in Hrl.
    destruct (copy_word_ok s1 m p p str1 (if w =? -1 then SHRT_MAX else w) (turns m) Hb1 Hp Hm) as (m' & s' & str' & ss' & -> & He & Hb' & Hs'); [lia|unfold room; lia|lia|]. cbn [res_bind].
    destruct (put_ok m' p s' 0 Hp (e_block _ _ He _ Hm) Hs' zero_u8) as [-> He2]. cbn [res_bind]. eexists. split; [done|]. split; [by eapply ext_trans|]. split; [exists ss'; by apply (e_buf _ _ He2)|]. exists [p]. cbn. split; [done|]. split; [done|lia].
  - cbn [va_next res_bind]. destruct (store_ok m p (s32 (str - buf)) 4 Hp Hm Hl ltac:(lia)) as (m' & -> & He). cbn [res_bind]. eexists. split; [done|]. split; [done|]. split; [exists (d :: ss); by apply (e_buf _ _ He)|]. exists [p]. cbn. split; [done|]. split; [done|lia].
  - rewrite (str_rd _ _ _ Hs). cbn [res_bind hd]. destruct (d =? ch "%"); [|by eexists]. eexists. split; [done|]. split; [apply ext_refl|]. split; [exists ss; by apply at_buf_next in Hb|]. exists []. split; [done|]. cbn. split; [lia|lia].
  - by eexists.
Qed.
(** Each conversion has a percent sign and at most one argument. *)
Definition percents (s : list Z) : nat := length (filter (fun c => c = ch "%") s).
Lemma percents_reads (m : cmem) (f f' : Z) (s s' : list Z) : reads m f s f' s' -> (percents s' <= percents s)%nat.
Proof. intros (a & -> & _). unfold percents. rewrite filter_app, length_app. lia. Qed.
Lemma percents_cons (s : list Z) : percents (ch "%" :: s) = S (percents s).
Proof. unfold percents. by rewrite filter_cons_True. Qed.
Lemma scan_end_ok (m : cmem) (buf fmt str : Z) (sf args : list Z) (num : Z) : at_fmt m fmt sf -> Forall (fun p => p ∈ A /\ block_ok m p) args -> 0 <= lb -> (percents sf <= length args)%nat ->
  exists m', scan_end m buf fmt str args num = Ret (num, m') /\ ext m m'.
Proof.
  intros (Hf & _) Ha Hl Hp. unfold scan_end. rewrite (str_rd _ _ _ Hf). cbn [res_bind]. destruct (Z.eqb_spec (hd 0 sf) (ch "%")) as [E|E]; [|exists m; split; [done|apply ext_refl]]. destruct sf as [|c sf]; [done|]. cbn [hd] in E. subst c.
  rewrite (str_rd1 _ _ _ _ Hf). cbn [res_bind]. destruct (hd 0 sf =? ch "n"); [|exists m; split; [done|apply ext_refl]]. rewrite percents_cons in Hp. destruct args as [|p args]; [cbn in Hp; lia|]. cbn [va_next res_bind].
  apply Forall_cons in Ha as [[Hp1 Hp2] _]. destruct (store_ok m p (s32 (str - buf)) 4 Hp1 Hp2 Hl ltac:(lia)) as (m' & -> & He). by exists m'.
Qed.
Lemma scan_qualifier_ok (m : cmem) (f : Z) (s : list Z) : str_at m f s -> exists q f' s', scan_qualifier m f = Ret (q, f') /\ reads m f s f' s'.
Proof.
  intros H. unfold scan_qualifier. rewrite (str_rd _ _ _ H). cbn [res_bind]. destruct (_ || _ || _) eqn:E; [|exists 255, f, s; split; [done|by apply reads_refl]]. destruct s as [|c s]; [done|]. cbn [hd] in *. rewrite (str_rd1 _ _ _ _ H). cbn [res_bind].
  assert (reads m f (c :: s) (f + 1) s) as R1 by (exists [c]; split_and!; [done..|by eapply str_tail]). destruct (Z.eqb_spec c (hd 0 s)) as [D|D]; [|by exists c, (f + 1), s]. destruct s as [|d s]; [by cbn in D; subst c|].
  assert (reads m f (c :: d :: s) (f + 1 + 1) s) as R2 by (eapply reads_trans; [exact R1|]; exists [d]; split_and!; [done..|by do 2 eapply str_tail]). destruct (c =? ch "h"); [by eexists _, _, s|]. destruct (c =? ch "l"); [by eexists _, _, s|by eexists _, _, (d :: s)].
Qed.
Lemma reads_head (m : cmem) (f c : Z) (s : list Z) : str_at m f (c :: s) -> reads m f (c :: s) (f + 1) s.
Proof. intros H. exists [c]. split_and!; [done..|by eapply str_tail]. Qed.
Lemma scan_space_ok (m : cmem) (f fmt str : Z) (sf ss : list Z) : str_at m fmt (f :: sf) -> str_at m str ss ->
  exists fmt' sf' str' ss', (if isspace f then let! fmt := skip_spaces m (fmt + 1) in let! str := skip_spaces m str in Ret (fmt, str) else Ret (fmt, str)) = Ret (fmt', str') /\ reads m fmt (f :: sf) fmt' sf' /\ reads m str ss str' ss'.
Proof.
  intros Hf Hs. destruct (isspace f); [|eexists _, _, _, _; split; [done|]; split; by apply reads_refl]. pose proof (reads_head _ _ _ _ Hf) as R1.
  destruct (skip_spaces_ok m (fmt + 1) sf) as (fmt' & sf' & -> & R2 & _); [by eapply reads_str|]. destruct (skip_spaces_ok m str ss Hs) as (str' & ss' & -> & R3 & _). cbn [res_bind].
  eexists _, sf', _, ss'. split; [done|]. split; [by eapply reads_trans|done].
Qed.
Lemma scan_width_ok (m : cmem) (f : Z) (s : list Z) : str_at m f s ->
  exists w f' s', (if isdigit (hd 0 s) then let! (w, fmt) := skip_atoi m f in Ret (s16 w, fmt) else Ret (-1, f)) = Ret (w, f') /\ reads m f s f' s'.
Proof.
  intros H. destruct (isdigit _); [|eexists _, _, _; split; [done|by apply reads_refl]]. destruct (skip_atoi_ok m f s H) as (v & f' & s' & -> & R). by eexists _, f', s'.
Qed.
Lemma scan_loop_ok (fuel : nat) (m : cmem) (buf fmt str : Z) (sf ss args : list Z) (num : Z) :
  at_fmt m fmt sf -> at_buf m str ss -> Forall (fun p => p ∈ A /\ block_ok m p) args -> 0 <= lb -> (percents sf <= length args)%nat -> (length sf < fuel)%nat ->
  exists n m', scan_loop fuel m buf fmt str args num = Ret (n, m') /\ num <= n <= num + len args /\ ext m m'.
Proof.
  revert m fmt str sf ss args num. induction fuel as [|fuel IH]; intros m fmt str sf ss args num Hf Hb Ha Hl Hp Hfu; [lia|]. cbn [scan_loop]. pose proof Hf as (Hfs & _). pose proof Hb as (Hbs & _).
  assert (forall fmt' str' sf', reads m fmt sf fmt' sf' -> exists n m', scan_end m buf fmt' str' args num = Ret (n, m') /\ num <= n <= num + len args /\ ext m m') as End.
  { intros fmt' str' sf' R. destruct (scan_end_ok m buf fmt' str' sf' args num) as (m' & -> & He); [by eapply at_fmt_reads|done..| |]; [pose proof (percents_reads _ _ _ _ _ R); lia|]. exists num, m'. split; [done|]. split; [lia|done]. }
  rewrite (str_rd _ _ _ Hfs), (str_rd _ _ _ Hbs). cbn [res_bind]. destruct (_ || _) eqn:E0; [by eapply End, reads_refl|]. apply orb_false_iff in E0 as [E0 E1]. destruct sf as [|f sf]; [done|]. destruct ss as [|c ss]; [done|]. cbn [hd] in *.
  destruct (scan_space_ok m f fmt str sf (c :: ss) Hfs Hbs) as (fmt1 & sf1 & str1 & ss1 & -> & Rf & Rs). cbn [res_bind]. pose proof (at_fmt_reads _ _ _ _ _ Hf Rf) as Hf1. pose proof (at_buf_reads _ _ _ _ _ Hb Rs) as Hb1.
  pose proof Hf1 as (Hfs1 & _). pose proof Hb1 as (Hbs1 & _). rewrite (str_rd _ _ _ Hfs1). cbn [res_bind]. pose proof (percents_reads _ _ _ _ _ Rf) as Pf. pose proof (reads_length _ _ _ _ _ Rf) as [_ Lf]. cbn [length] in Lf, Hfu.
  destruct sf1 as [|f1 sf2]; [cbn [hd]; change (negb (0 =? ch "%") && negb (0 =? 0)) with false; cbn iota; change (0 =? 0) with true; cbn iota; by eapply End|]. cbn [hd].
  pose proof (reads_head _ _ _ _ Hfs1) as Rh. pose proof (reads_trans _ _ _ _ _ _ _ Rf Rh) as Rfh. pose proof (proj1 (proj1 (str_at_cons _ _ _ _) Hfs1)) as Hnz. destruct (Z.eqb_spec f1 0); [lia|]. destruct (Z.eqb_spec f1 (ch "%")) as [->|Np]; cbn [negb andb].
  2: { rewrite (str_rd _ _ _ Hbs1). cbn [res_bind]. destruct (Z.eqb_spec f1 (hd 0 ss1)) as [Ec|Ec]; cbn [negb]; [|by eapply End]. destruct ss1 as [|c1 ss1]; [cbn in Ec; lia|].
    apply (IH m (fmt1 + 1) (str1 + 1) sf2 ss1); [by eapply at_fmt_reads|by eapply at_buf_next|done|done|pose proof (percents_reads _ _ _ _ _ Rfh); lia|cbn [length] in Lf; lia]. }
  rewrite percents_cons in Pf. pose proof (reads_str _ _ _ _ _ Rh) as Hs2. rewrite (str_rd _ _ _ Hs2). cbn [res_bind]. destruct (hd 0 sf2 =? ch "*").
  { destruct (skip_conversion_ok m (fmt1 + 1) sf2 Hs2) as (fmt3 & sf3 & -> & R3). destruct (skip_word_ok m str1 ss1 Hbs1) as (str3 & ss3 & -> & R4). cbn [res_bind]. pose proof (reads_length _ _ _ _ _ R3) as [_ L3]. pose proof (percents_reads _ _ _ _ _ R3).
    apply (IH m fmt3 str3 sf3 ss3); [eapply at_fmt_reads; [exact Hf|by eapply reads_trans]|by eapply at_buf_reads|done|done|lia|cbn [length] in Lf; lia]. }
  destruct (scan_width_ok m (fmt1 + 1) sf2 Hs2) as (w & fmt3 & sf3 & -> & R3). cbn [res_bind]. destruct (scan_qualifier_ok m fmt3 sf3 (reads_str _ _ _ _ _ R3)) as (q & fmt4 & sf4 & -> & R4). cbn [res_bind].
  pose proof (reads_trans _ _ _ _ _ _ _ R3 R4) as R34. pose proof (reads_trans _ _ _ _ _ _ _ Rfh R34) as R04. pose proof (reads_str _ _ _ _ _ R04) as Hs4. rewrite (str_rd _ _ _ Hs4), (str_rd _ _ _ Hbs1). cbn [res_bind].
  destruct (_ || _) eqn:E4; [by eapply End|]. apply orb_false_iff in E4 as [E4 E5]. destruct sf4 as [|f4 sf5]; [done|]. destruct ss1 as [|d ss1]; [done|]. cbn [hd] in *. destruct args as [|p args]; [cbn [length] in Hp; lia|]. pose proof Ha as [[Hp1 Hp2] Ha']%Forall_cons.
  pose proof (reads_trans _ _ _ _ _ _ _ R04 (reads_head _ _ _ _ Hs4)) as R05. pose proof (reads_trans _ _ _ _ _ _ _ R34 (reads_head _ _ _ _ Hs4)) as R35. pose proof (percents_reads _ _ _ _ _ R35) as P5. pose proof (reads_length _ _ _ _ _ R35) as [_ L5].
  destruct (scan_conversion_ok m buf f4 q w str1 d ss1 p args num Hb1 Hp1 Hp2 Hl) as (t & -> & Ht). cbn [res_bind]. destruct t as [m' str' args' num'|str'|]; cbn [outcome_ok] in Ht; [|by eapply End|exists num, m; split; [done|]; split; [lia|apply ext_refl]].
  destruct Ht as (He & [ss' Hb'] & k & Ek & Lk & Hn). cbn [length] in Hp.
  assert (Forall (fun p => p ∈ A /\ block_ok m' p) args') as Ha2. { rewrite Ek in Ha. apply Forall_app in Ha as [_ Ha2]. eapply Forall_impl; [exact Ha2|]. intros x [? ?]. split; [done|by apply (e_block _ _ He)]. }
  pose proof (f_equal length Ek) as Lek. rewrite length_app in Lek. cbn [length] in Lek.
  destruct (IH m' (fmt4 + 1) str' sf5 ss' args' num') as (n2 & m2 & -> & Hn2 & He2); [apply (e_fmt _ _ He), (at_fmt_reads _ _ _ _ _ Hf R05)|done|done|done|lia|cbn [length] in Lf; lia|].
  exists n2, m2. split; [done|]. cbn [length]. split; [lia|by eapply ext_trans].
Qed.
End Safe.

(** For every format and every text [vsscanf] returns, if each percent sign of the format has an argument and each argument
    points to an object with room for the text that overlaps neither string: it reads only the two strings, writes only to
    the objects, and the result is between 0 and the number of arguments. *)
Theorem vsscanf_safe (m : cmem) (buf fmt : Z) (ss sf args : list Z) :
  str_at m buf ss -> str_at m fmt sf -> Forall (block_ok fmt (len sf) buf (len ss) m) args -> (percents sf <= length args)%nat ->
  exists n m', vsscanf m buf fmt args = Ret (n, m') /\ 0 <= n <= len args /\ forall a, (forall p, p ∈ args -> ~ p <= a < p + room (len ss)) -> m' !! a = m !! a.
Proof.
  intros Hb Hf Ha Hp. pose proof (str_turns _ _ _ Hf). destruct (scan_loop_ok fmt (len sf) buf (len ss) args (turns m) m buf fmt buf sf ss args 0) as (n & m' & E & Hn & He); [split; [done|lia]|split; [done|lia]| |lia|done|lia|].
  - apply Forall_forall. intros p Hin. split; [done|]. by apply (proj1 (Forall_forall _ _) Ha).
  - exists n, m'. split; [done|]. split; [lia|]. apply (e_only _ _ _ _ _ _ _ He).
Qed.

(** ** Reading back what was printed *)

(** One conversion of a long, with nothing behind it. *)
Lemma scan_long (m : cmem) (buf fmt p c base : Z) (sg : bool) (text : list Z) (v : Z) :
  str_at m buf text -> str_at m fmt [ch "%"; ch "l"; c] -> mapped m p 8 -> apart fmt 4 p 8 -> apart buf (len text + 1) p 8 ->
  (forall m', scan_conversion m' buf c (ch "l") (-1) buf [p] 0 = scan_integer m' (ch "l") base sg buf [p] 0) -> c <> ch "l" -> text <> [] -> isspace (hd 0 text) = false ->
  (let digit := if sg && (hd 0 text =? ch "-") then hd 0 (tail text) else hd 0 text in (base = 10 /\ isdigit digit = true) \/ (base = 16 /\ isxdigit digit = true)) ->
  (if sg then simple_strtol m buf base else simple_strtoul m buf base) = Ret (v, buf + len text) ->
  vsscanf m buf fmt [p] = Ret (1, wbytes m p (le_bytes 8 v)).
Proof.
  intros Hb Hf Hm A1 A2 Hc Nl Nt Ns Hd Hv. unfold vsscanf. pose proof (str_turns _ _ _ Hf) as Ht. cbn [length] in Ht. set (fuel := turns m) in *. assert (fuel = turns m) as Ef by done. clearbody fuel. destruct fuel as [|[|fuel]]; [lia|lia|]. cbn [scan_loop].
  destruct text as [|x text]; [done|]. cbn [hd tail] in *. pose proof (str_rd _ _ _ Hb) as Rb. cbn [hd] in Rb. pose proof (proj1 (proj1 (str_at_cons _ _ _ _) Hb)) as Hx.
  pose proof (str_tail _ _ _ _ Hf) as Hf1. pose proof (str_tail _ _ _ _ Hf1) as Hf2. pose proof (str_tail _ _ _ _ Hf2) as Hf3. pose proof (proj1 (proj1 (str_at_cons _ _ _ _) Hf2)) as Hc0.
  rewrite (str_rd _ _ _ Hf), Rb. cbn [res_bind hd]. change (ch "%" =? 0) with false. destruct (Z.eqb_spec x 0); [lia|]. cbn [orb]. change (isspace (ch "%")) with false. cbn iota. cbn [res_bind]. rewrite (str_rd _ _ _ Hf). cbn [res_bind hd].
  change (negb (ch "%" =? ch "%") && negb (ch "%" =? 0)) with false. change (ch "%" =? 0) with false. cbn iota. rewrite (str_rd _ _ _ Hf1). cbn [res_bind hd]. change (ch "l" =? ch "*") with false. change (isdigit (ch "l")) with false. cbn iota. cbn [res_bind].
  unfold scan_qualifier. rewrite (str_rd _ _ _ Hf1). cbn [res_bind hd]. change ((ch "l" =? ch "h") || (TOLOWER (ch "l") =? ch "l") || (TOLOWER (ch "l") =? ch "z")) with true. cbn iota. rewrite (str_rd _ _ _ Hf2). cbn [res_bind hd].
  destruct (Z.eqb_spec (ch "l") c); [congruence|]. cbn [res_bind]. rewrite (str_rd _ _ _ Hf2), Rb. cbn [res_bind hd]. destruct (Z.eqb_spec c 0); [lia|]. destruct (Z.eqb_spec x 0); [lia|]. cbn [orb]. rewrite Hc.
  unfold scan_integer. assert (skip_spaces m buf = Ret buf) as -> by (unfold skip_spaces; rewrite <- Ef; cbn [skip_spaces_loop]; rewrite Rb; cbn [res_bind]; by rewrite Ns).
  cbn [res_bind]. rewrite Rb. cbn [res_bind]. assert ((if sg && (x =? ch "-") then rd m (buf + 1) else Ret x) = Ret (if sg && (x =? ch "-") then hd 0 text else x)) as -> by (destruct (sg && _); [by rewrite (str_rd1 _ _ _ _ Hb)|done]).
  cbn [res_bind]. set (digit := if sg && (x =? ch "-") then hd 0 text else x) in *. assert (((digit =? 0) || (base =? 16) && negb (isxdigit digit) || (base =? 10) && negb (isdigit digit) || (base =? 8) && (negb (isdigit digit) || (ch "7" <? digit)) || (base =? 0) && negb (isdigit digit)) = false) as ->.
  { destruct Hd as [[-> E]|[-> E]]; rewrite E; (destruct (Z.eqb_spec digit 0) as [E0|]; [by rewrite E0 in E|done]). }
  cbn [va_next res_bind]. unfold scan_number. change ((ch "l" =? ch "Z") || (ch "l" =? ch "z")) with false. change (ch "l" =? ch "L") with false. cbn iota.
  rewrite Hv. cbn [res_bind]. change (if ch "l" =? ch "H" then 1%nat else _) with 8%nat. rewrite wrn_spec by (unfold le_bytes; rewrite ?length_fmap, ?length_seq; first [exact Hm|apply Forall_fmap, Forall_forall; intros; apply wrap_range; lia]). cbn [res_bind].
  cbn [scan_loop]. assert (len (le_bytes 8 v) = 8) as L8 by done. assert (str_at (wbytes m p (le_bytes 8 v)) (fmt + 1 + 1 + 1) []) as Hf3'. { apply str_at_wbytes_ne; [done|]. unfold apart in *. cbn [length]. lia. }
  assert (str_at (wbytes m p (le_bytes 8 v)) (buf + len (x :: text)) []) as Hb'. { apply str_at_wbytes_ne; [by apply (str_suffix m buf (x :: text) []); rewrite app_nil_r|]. unfold apart in *. cbn [length] in *. lia. }
  rewrite (str_rd _ _ _ Hf3'), (str_rd _ _ _ Hb'). cbn [res_bind hd orb]. unfold scan_end. change ((0 =? 0) || (0 =? 0)) with true. cbn iota. rewrite (str_rd _ _ _ Hf3'). done.
Qed.
Lemma digit_heads (b l num : Z) : base_ok b -> locase_ok l -> in_u 64 num ->
  let c := hd 0 (digits_text b l num) in isspace c = false /\ c <> ch "-" /\ isxdigit c = true /\ (b = 10 -> isdigit c = true).
Proof.
  intros Hb Hl Hu. pose proof (digits_text_chars b l num Hb Hl Hu) as Hc. pose proof (digits_text_nonnil b l num) as Hn. assert (b = 10 -> Forall (fun c => isdigit c = true) (digits_text b l num)) as Hd.
  { intros ->. unfold digits_text. apply Forall_reverse, Forall_fmap. eapply Forall_impl; [apply (digits_of_bound 10 num); done|]. intros d Hd. cbn in Hd |- *.
    assert (d = 0 \/ d = 1 \/ d = 2 \/ d = 3 \/ d = 4 \/ d = 5 \/ d = 6 \/ d = 7 \/ d = 8 \/ d = 9) as E by lia. destruct Hl as [-> | ->]; destruct_or! E; subst d; reflexivity. }
  destruct (digits_text b l num) as [|c t]; [done|]. cbn [hd]. apply Forall_cons in Hc as [[Hr Hx] _].
  assert (test_from 55 48 (fun c => negb (isspace c) && negb (c =? ch "-")) = true) as Ht by (vm_compute; reflexivity). pose proof (test_from_true _ _ _ Ht c ltac:(lia)) as E. cbn beta in E. apply andb_true_iff in E as [E1 E2].
  split; [by destruct (isspace c)|]. split; [by destruct (Z.eqb_spec c (ch "-"))|]. split; [done|]. intros Eb. by apply Hd, Forall_cons in Eb as [? _].
Qed.
(** What [number] prints of a long in decimal with its sign, %ld reads back; what it prints in hexadecimal, %lx does. *)
Theorem sscanf_reads_back (num : Z) (m : cmem) (buf fmt p : Z) (text : list Z) :
  in_u 64 num -> mapped m p 8 -> apart fmt 4 p 8 -> apart buf (len text + 1) p 8 -> str_at m buf text ->
  (number num (plain 10 SIGN) [] = Ret text -> str_at m fmt (codes "%ld") -> vsscanf m buf fmt [p] = Ret (1, wbytes m p (le_bytes 8 (s64 num)))) /\
  (number num (plain 16 SMALL) [] = Ret text -> str_at m fmt (codes "%lx") -> vsscanf m buf fmt [p] = Ret (1, wbytes m p (le_bytes 8 num))).
Proof.
  intros Hu Hm A1 A2 Hb. split; intros E Hf.
  - rewrite number_text_correct in E by (first [done|apply plain_ok; [by right; left|unfold SIGN; lia]]). injection E as E. cbn [app] in E. rewrite number_text_plain in E by reflexivity. change (has SIGN SIGN) with true in E. cbn [andb] in E. change (Z.land SIGN SMALL) with 0 in E.
    pose proof (reads_signed num [] m buf Hu ltac:(by left)) as R. cbn zeta in R. rewrite app_nil_r, E in R. destruct (R Hb) as [R1 _]. pose proof (swrap_range 64 num ltac:(lia)) as Hs.
    destruct (digit_heads 10 0 (if s64 num <? 0 then - s64 num else num)) as (D1 & D2 & D3 & D4); [by right; left|by left|destruct (Z.ltb_spec (s64 num) 0); [unfold in_s in Hs; pow_lia|done]|].
    pose proof (digits_text_nonnil 10 0 (if s64 num <? 0 then - s64 num else num)) as Hn.
    apply (scan_long m buf fmt p (ch "d") 10 true text); [done|done|done|done|done|done|done| | | |exact R1]; subst text; destruct (s64 num <? 0); cbn [app hd tail andb]; try done.
    + left. split; [done|]. by apply D4.
    + left. split; [done|]. destruct (Z.eqb_spec (hd 0 (digits_text 10 0 num)) (ch "-")); [done|]. by apply D4.
  - rewrite number_text_correct in E by (first [done|apply plain_ok; [by right; right|unfold SMALL; lia]]). injection E as E. cbn [app] in E. rewrite number_text_plain in E by reflexivity. change (has SMALL SIGN) with false in E. cbn [andb app] in E. change (Z.land SMALL SMALL) with 32 in E.
    assert (base_ok 16) as Hb16 by (by right; right). assert (locase_ok 32) as Hl by (by right). destruct (reads_text 16 32 num [] m buf Hb16 Hl Hu) as [R1 _]; [by left|rewrite app_nil_r; by subst text|]. rewrite E in R1.
    destruct (digit_heads 16 32 num Hb16 Hl Hu) as (D1 & D2 & D3 & D4). pose proof (digits_text_nonnil 16 32 num) as Hn. rewrite E in *.
    apply (scan_long m buf fmt p (ch "x") 16 false text); [done|done|done|done|done|done|done|done|done|by right|exact R1].
Qed.

(** ** Runs *)
Module VsscanfDemo.

(** Texts at the given addresses. *)
Definition texts (l : list (Z * list Z)) : cmem := foldr (fun x m => wbytes m (fst x) (snd x)) ∅ l.
Definition scan (text fmt : list Z) : res (Z * list (option Z)) :=
  let m := texts [(1000, text ++ [0]); (2000, fmt ++ [0]); (100, repeat 170 40); (200, repeat 170 40)] in
  let! (n, m) := vsscanf m 1000 2000 [100; 200] in Ret (n, (fun a => m !! a) <$> [100; 101; 102; 103; 200; 201; 202; 203]).
Example scan_two : scan (codes "-2 abc") (codes "%hd %2s") = Ret (2, [Some 254; Some 255; Some 170; Some 170; Some 97; Some 98; Some 0; Some 170]).
Proof. by vm_compute. Qed.
(** The literal text does not match, but the position behind it is stored. *)
Example position_after_mismatch : scan (codes "b") (codes "a%n") = Ret (0, [Some 1; Some 0; Some 0; Some 0; Some 170; Some 170; Some 170; Some 170]).
Proof. by vm_compute. Qed.
(** The position stored is behind the final zero of the text. *)
Example position_after_end : scan (codes " ") (codes " a%n") = Ret (0, [Some 2; Some 0; Some 0; Some 0; Some 170; Some 170; Some 170; Some 170]).
Proof. by vm_compute. Qed.

End VsscanfDemo.
