(* ===== verification/Native.v ===== *)
(** * Native operations: the contract between the kernel and its host

    [struct lkl_native_operations] (arch/lkl/include/asm/callbacks.h) is the
    table of callbacks through which every part of the port reaches the host.
    It is a type class here: the operations are its fields, and the laws state
    what the comments of the table and the callers in arch/lkl/kernel rely on.
    The host state is abstract; [sems] gives the value of each live semaphore
    and [blocks] the size of each live memory block.  The kernel-side files are
    proved against this class and EnvPosix builds an instance of it. *)
From S2P Require Import Prelude.

(** Reserved deltas of the [timer] callback. *)
Definition LKL_TIMER_INIT : Z := 0.
Definition LKL_TIMER_SHUTDOWN : Z := 1.
Definition LKL_TIMER_LAST_OP : Z := 1.

Class lkl_native_operations (N : Type) : Type := {
  sem_alloc : Z -> N -> Z * N;
  sem_free : Z -> N -> res N;
  sem_up : Z -> N -> res N;
  sem_down : Z -> N -> res N;
  mem_alloc : Z -> N -> Z * N;
  mem_free : Z -> N -> res N;
  timer : Z -> N -> N;
  sems : N -> gmap Z Z;
  blocks : N -> gmap Z Z;
  sem_max : Z }.

(** What the host promises.  An allocation returns NULL and changes nothing, or
    a fresh object.  [sem_up] is only promised below the largest count a host
    semaphore can hold ([sem_max]); [sem_down] takes a token or sleeps. *)
Class native_laws (N : Type) {ops : lkl_native_operations N} : Prop := {
  sem_alloc_null : forall c n n', sem_alloc c n = (NULL, n') ->
    sems n' = sems n /\ blocks n' = blocks n;
  sem_alloc_ok : forall c n p n', sem_alloc c n = (p, n') -> p <> NULL ->
    sems n !! p = None /\ sems n' = <[p := c]> (sems n) /\ blocks n' = blocks n;
  sem_free_ok : forall p n c, sems n !! p = Some c ->
    exists n', sem_free p n = Ret n' /\
      sems n' = delete p (sems n) /\ blocks n' = blocks n;
  sem_up_ok : forall p n c, sems n !! p = Some c -> 0 <= c < sem_max ->
    exists n', sem_up p n = Ret n' /\
      sems n' = <[p := c + 1]> (sems n) /\ blocks n' = blocks n;
  sem_down_ok : forall p n c, sems n !! p = Some c -> 0 < c ->
    exists n', sem_down p n = Ret n' /\
      sems n' = <[p := c - 1]> (sems n) /\ blocks n' = blocks n;
  sem_down_blocks : forall p n c, sems n !! p = Some c -> c <= 0 ->
    sem_down p n = Blocked;
  mem_alloc_null : forall sz n n', mem_alloc sz n = (NULL, n') ->
    sems n' = sems n /\ blocks n' = blocks n;
  mem_alloc_ok : forall sz n p n', mem_alloc sz n = (p, n') -> p <> NULL ->
    blocks n !! p = None /\ blocks n' = <[p := sz]> (blocks n) /\ sems n' = sems n;
  mem_free_ok : forall p n sz, blocks n !! p = Some sz ->
    exists n', mem_free p n = Ret n' /\
      blocks n' = delete p (blocks n) /\ sems n' = sems n;
  timer_frame : forall d n, sems (timer d n) = sems n /\ blocks (timer d n) = blocks n;
  sem_max_pos : 1 < sem_max }.

Section native_facts.
Context {N : Type} {ops : lkl_native_operations N} {laws : native_laws N}.

(** A critical section in the style of the port: the lock is a semaphore created
    with count 1, so taking it while it is free does not sleep, and releasing it
    gives back the state in which it is free. *)
Lemma lock_ok (l : Z) (n : N) :
  sems n !! l = Some 1 ->
  exists n1 n2, sem_down l n = Ret n1 /\ sem_up l n1 = Ret n2 /\ sems n2 = sems n /\ blocks n2 = blocks n.
Proof.
  intros Hl. destruct (sem_down_ok l n 1 Hl ltac:(lia)) as (n1 & Hd & Hs1 & Hb1).
  destruct (sem_up_ok l n1 0) as (n2 & Hu & Hs2 & Hb2).
  { by rewrite Hs1, lookup_insert_eq. }
  { pose proof sem_max_pos. lia. }
  exists n1, n2. split_and!; [done | done | | congruence].
  rewrite Hs2, Hs1, insert_insert_eq. by apply insert_id.
Qed.

(** [sem_alloc] never reuses a live semaphore, so the others keep their count. *)
Lemma sem_alloc_other (c p q : Z) (n n' : N) (v : Z) :
  sem_alloc c n = (p, n') -> p <> NULL -> sems n !! q = Some v ->
  sems n' !! q = Some v /\ q <> p.
Proof.
  intros Ha Hp Hq. destruct (sem_alloc_ok _ _ _ _ Ha Hp) as (Hf & -> & _).
  assert (q <> p) by congruence. by rewrite lookup_insert_ne.
Qed.
End native_facts.
