(* ===== verification/EnvPosix.v ===== *)
(** * The POSIX host: arch/lkl/envs/posix.c

    The callbacks of [nops] on a heap of [malloc]ed cells: the counting semaphore
    built from a mutex and a condition variable, memory, and the timer pipe.
    [posix_native] shows that they keep the contract of Native.  The second half
    runs [sem_up] and [sem_down] of any number of threads at the granularity of
    the pthread calls. *)
From S2P Require Import Prelude Native.

(** [pthread_sem_t]; [sem_lock] says whether the mutex is held. *)
Record pthread_sem_t := Pthread_sem { sem_lock : bool; count : Z }.

Inductive cell :=
| Block (size : Z)
| Sem (s : pthread_sem_t).

Definition sizeof_sem : Z := 96.
Definition sizeof_long : Z := 8.

(** The heap and the bytes written to [timer_pipe], one entry per [write]. *)
Record posix := Posix { heap : gmap Z cell; timer_pipe : list Z }.

Section posix_host.
(** libc: [malloc] returns NULL or an address that is not in use. *)
Context (malloc : gmap Z cell -> Z -> Z).
Context (malloc_fresh : forall h sz, malloc h sz <> NULL -> h !! malloc h sz = None).

Definition set_heap (h : gmap Z cell) (w : posix) : posix := Posix h (timer_pipe w).

Definition posix_sem_alloc (count : Z) (w : posix) : Z * posix :=
  let sem := malloc (heap w) sizeof_sem in
  if sem =? NULL then (NULL, w)
  else (sem, set_heap (<[sem := Sem (Pthread_sem false count)]> (heap w)) w).

Definition posix_free (p : Z) (w : posix) : res posix :=
  match heap w !! p with
  | Some _ => Ret (set_heap (delete p (heap w)) w)
  | None => if p =? NULL then Ret w else Bug
  end.

Definition posix_sem_free (sem : Z) (w : posix) : res posix := posix_free sem w.

(** Reads the semaphore at an address and takes its mutex. *)
Definition get_sem (sem : Z) (w : posix) : res pthread_sem_t :=
  match heap w !! sem with Some (Sem s) => Ret s | _ => Bug end.
Definition put_sem (sem : Z) (s : pthread_sem_t) (w : posix) : posix :=
  set_heap (<[sem := Sem s]> (heap w)) w.
Definition mutex_lock (s : pthread_sem_t) : res pthread_sem_t :=
  if sem_lock s then Blocked else Ret (Pthread_sem true (count s)).
Definition mutex_unlock (s : pthread_sem_t) : pthread_sem_t := Pthread_sem false (count s).

(** With one runnable thread [pthread_cond_signal] has nobody to wake. *)
Definition posix_sem_up (sem : Z) (w : posix) : res posix :=
  let! s := get_sem sem w in
  let! s := mutex_lock s in
  let s := Pthread_sem (sem_lock s) (s32 (count s + 1)) in
  Ret (put_sem sem (mutex_unlock s) w).

(** [while (sem->count <= 0) pthread_cond_wait(...)]: the thread sleeps. *)
Definition posix_sem_down (sem : Z) (w : posix) : res posix :=
  let! s := get_sem sem w in
  let! s := mutex_lock s in
  if count s <=? 0 then Blocked
  else Ret (put_sem sem (mutex_unlock (Pthread_sem (sem_lock s) (count s - 1))) w).

Definition posix_mem_alloc (size : Z) (w : posix) : Z * posix :=
  let p := malloc (heap w) size in
  if p =? NULL then (NULL, w) else (p, set_heap (<[p := Block size]> (heap w)) w).

Definition posix_timer (delta : Z) (w : posix) : posix :=
  Posix (heap w) (timer_pipe w ++ [delta]).

Definition sem_count (c : cell) : option Z :=
  match c with Sem s => if sem_lock s then None else Some (count s) | Block _ => None end.
Definition block_size (c : cell) : option Z :=
  match c with Block sz => Some sz | Sem _ => None end.

#[local] Instance posix_native : lkl_native_operations posix := {|
  sem_alloc := posix_sem_alloc;
  sem_free := posix_sem_free;
  sem_up := posix_sem_up;
  sem_down := posix_sem_down;
  mem_alloc := posix_mem_alloc;
  mem_free := posix_free;
  timer := posix_timer;
  sems w := omap sem_count (heap w);
  blocks w := omap block_size (heap w);
  sem_max := INT_MAX |}.

Lemma sem_count_inv (w : posix) (p c : Z) :
  omap sem_count (heap w) !! p = Some c -> heap w !! p = Some (Sem (Pthread_sem false c)).
Proof.
  rewrite lookup_omap. destruct (heap w !! p) as [[|[[] ?]]|]; simpl; naive_solver.
Qed.

Lemma block_size_inv (w : posix) (p sz : Z) :
  omap block_size (heap w) !! p = Some sz -> heap w !! p = Some (Block sz).
Proof. rewrite lookup_omap. destruct (heap w !! p) as [[|]|]; simpl; naive_solver. Qed.

(** The two abstractions do not see each other's cells. *)
Lemma omap_insert_hidden (f : cell -> option Z) (h : gmap Z cell) (p : Z) (c : cell) :
  f c = None -> h !! p ≫= f = None -> omap f (<[p := c]> h) = omap f h.
Proof.
  intros Hc Hp. apply map_eq. intros q. rewrite !lookup_omap, lookup_insert.
  case_decide; subst; [by rewrite Hp|done].
Qed.

Lemma omap_insert_shown (f : cell -> option Z) (h : gmap Z cell) (p : Z) (c : cell) (v : Z) :
  f c = Some v -> omap f (<[p := c]> h) = <[p := v]> (omap f h).
Proof.
  intros Hc. apply map_eq. intros q. rewrite !lookup_omap, !lookup_insert.
  case_decide; subst; [done|]. by rewrite lookup_omap.
Qed.

Lemma omap_delete_hidden (f : cell -> option Z) (h : gmap Z cell) (p : Z) :
  h !! p ≫= f = None -> omap f (delete p h) = omap f h.
Proof.
  intros Hp. apply map_eq. intros q. rewrite !lookup_omap, lookup_delete.
  case_decide; subst; [by rewrite Hp|done].
Qed.

Lemma omap_delete_shown (f : cell -> option Z) (h : gmap Z cell) (p : Z) :
  omap f (delete p h) = delete p (omap f h).
Proof.
  apply map_eq. intros q. rewrite !lookup_omap, !lookup_delete.
  case_decide; subst; [done|]. by rewrite lookup_omap.
Qed.

#[local] Instance posix_laws : native_laws posix.
Proof.
  split; simpl.
  - intros c n n'. unfold posix_sem_alloc. destruct (Z.eqb_spec (malloc (heap n) sizeof_sem) NULL).
    + by intros [= <-].
    + by intros [= ? _].
  - intros c n p n'. unfold posix_sem_alloc.
    destruct (Z.eqb_spec (malloc (heap n) sizeof_sem) NULL) as [|Hne]; [by intros [= <- <-]|].
    intros [= <- <-] _. pose proof (malloc_fresh _ _ Hne) as Hf. simpl.
    rewrite lookup_omap, Hf, (omap_insert_shown _ _ _ _ c), omap_insert_hidden; by rewrite ?Hf.
  - intros p n c Hc%sem_count_inv. unfold posix_sem_free, posix_free. rewrite Hc.
    eexists. split; [done|]. simpl. by rewrite omap_delete_shown, omap_delete_hidden; rewrite ?Hc.
  - intros p n c Hc%sem_count_inv Hmax. unfold posix_sem_up, get_sem. rewrite Hc. simpl.
    eexists. split; [done|]. simpl.
    rewrite (omap_insert_shown _ _ _ _ (s32 (c + 1))), omap_insert_hidden; rewrite ?Hc; try done.
    by rewrite swrap_id by (unfold INT_MAX in *; pow_lia).
  - intros p n c Hc%sem_count_inv Hpos. unfold posix_sem_down, get_sem. rewrite Hc. simpl.
    rewrite (proj2 (Z.leb_gt c 0) Hpos). eexists. split; [done|]. simpl.
    by rewrite (omap_insert_shown _ _ _ _ (c - 1)), omap_insert_hidden; rewrite ?Hc.
  - intros p n c Hc%sem_count_inv Hpos. unfold posix_sem_down, get_sem. rewrite Hc. simpl.
    by rewrite (proj2 (Z.leb_le c 0) Hpos).
  - intros sz n n'. unfold posix_mem_alloc. destruct (Z.eqb_spec (malloc (heap n) sz) NULL).
    + by intros [= <-].
    + by intros [= ? _].
  - intros sz n p n'. unfold posix_mem_alloc.
    destruct (Z.eqb_spec (malloc (heap n) sz) NULL) as [|Hne]; [by intros [= <- <-]|].
    intros [= <- <-] _. pose proof (malloc_fresh _ _ Hne) as Hf. simpl.
    rewrite lookup_omap, Hf, (omap_insert_shown _ _ _ _ sz), omap_insert_hidden; by rewrite ?Hf.
  - intros p n sz Hc%block_size_inv. unfold posix_free. rewrite Hc.
    eexists. split; [done|]. simpl. by rewrite omap_delete_shown, omap_delete_hidden; rewrite ?Hc.
  - done.
  - done.
Qed.
End posix_host.

(** ** The semaphore under concurrency

    Threads run [sem_up] and [sem_down] on one [pthread_sem_t].  A program point
    is the pthread call or the access to [count] a thread executes next.  The
    mutex lets one thread at a time between [pthread_mutex_lock] and
    [pthread_mutex_unlock]; [pthread_cond_wait] releases it and sleeps; a
    signalled or spuriously woken thread has to take the mutex again. *)
Inductive sem_pc :=
| Out            (** not in a semaphore operation *)
| UpLock         (** pthread_mutex_lock in sem_up *)
| UpInc          (** sem->count++ *)
| UpSignal       (** if (sem->count > 0) pthread_cond_signal *)
| UpUnlock       (** pthread_mutex_unlock in sem_up *)
| DownLock       (** pthread_mutex_lock in sem_down *)
| DownTest       (** while (sem->count <= 0) *)
| DownWait       (** asleep in pthread_cond_wait *)
| DownWoken      (** woken, has to take the mutex again *)
| DownDec        (** sem->count-- *)
| DownUnlock.    (** pthread_mutex_unlock in sem_down *)

(** [owner] is the thread that holds the mutex; [ups] and [downs] count the
    increments and decrements done so far. *)
Record sem_state := Sem_state {
  owner : option nat;
  cnt : Z;
  pcs : list sem_pc;
  ups : Z;
  downs : Z }.

Definition goto (t : nat) (pc : sem_pc) (s : sem_state) : sem_state :=
  Sem_state (owner s) (cnt s) (<[t := pc]> (pcs s)) (ups s) (downs s).
Definition set_owner (o : option nat) (s : sem_state) : sem_state :=
  Sem_state o (cnt s) (pcs s) (ups s) (downs s).
Definition do_inc (s : sem_state) : sem_state :=
  Sem_state (owner s) (s32 (cnt s + 1)) (pcs s) (ups s + 1) (downs s).
Definition do_dec (s : sem_state) : sem_state :=
  Sem_state (owner s) (cnt s - 1) (pcs s) (ups s) (downs s + 1).

Inductive sem_step : sem_state -> sem_state -> Prop :=
| step_call_up s t : pcs s !! t = Some Out -> sem_step s (goto t UpLock s)
| step_call_down s t : pcs s !! t = Some Out -> sem_step s (goto t DownLock s)
| step_lock s t pc pc' :
    pcs s !! t = Some pc -> owner s = None ->
    (pc, pc') ∈ [(UpLock, UpInc); (DownLock, DownTest); (DownWoken, DownTest)] ->
    sem_step s (goto t pc' (set_owner (Some t) s))
| step_inc s t : pcs s !! t = Some UpInc -> sem_step s (goto t UpSignal (do_inc s))
| step_signal_none s t :
    pcs s !! t = Some UpSignal -> (cnt s <= 0 \/ DownWait ∉ pcs s) ->
    sem_step s (goto t UpUnlock s)
| step_signal_one s t w :
    pcs s !! t = Some UpSignal -> 0 < cnt s -> pcs s !! w = Some DownWait ->
    sem_step s (goto t UpUnlock (goto w DownWoken s))
| step_test_wait s t :
    pcs s !! t = Some DownTest -> cnt s <= 0 ->
    sem_step s (goto t DownWait (set_owner None s))
| step_test_go s t :
    pcs s !! t = Some DownTest -> 0 < cnt s -> sem_step s (goto t DownDec s)
| step_spurious s t : pcs s !! t = Some DownWait -> sem_step s (goto t DownWoken s)
| step_dec s t : pcs s !! t = Some DownDec -> sem_step s (goto t DownUnlock (do_dec s))
| step_unlock s t pc :
    pcs s !! t = Some pc -> pc ∈ [UpUnlock; DownUnlock] ->
    sem_step s (goto t Out (set_owner None s)).

(** The program points at which the mutex is held. *)
Definition holds (pc : sem_pc) : bool :=
  match pc with
  | UpInc | UpSignal | UpUnlock | DownTest | DownDec | DownUnlock => true
  | _ => false
  end.
Definition waits (pc : sem_pc) : bool := match pc with DownWait => true | _ => false end.
(** Threads on their way to a token, and an increment not yet signalled. *)
Definition takes (pc : sem_pc) : bool :=
  match pc with DownWoken | DownTest | DownDec | UpSignal => true | _ => false end.
Definition decs (pc : sem_pc) : bool := match pc with DownDec => true | _ => false end.

Definition sem_init (threads : nat) (c : Z) : sem_state :=
  Sem_state None c (replicate threads Out) 0 0.

Record sem_inv (c0 : Z) (s : sem_state) : Prop := {
  inv_owner : forall t pc, pcs s !! t = Some pc -> holds pc = true -> owner s = Some t;
  inv_tokens : c0 <= INT_MAX -> cnt s = s32 (c0 + ups s - downs s) /\ downs s <= c0 + ups s;
  inv_cnt : - 2 ^ 31 <= cnt s;
  inv_dec : forall t, pcs s !! t = Some DownDec -> 0 < cnt s;
  inv_wait : 0 < countb waits (pcs s) -> cnt s <= countb takes (pcs s);
  inv_mutex : countb holds (pcs s) = match owner s with Some _ => 1 | None => 0 end }.

Lemma sem_inv_init (threads : nat) (c0 : Z) : 0 <= c0 -> sem_inv c0 (sem_init threads c0).
Proof.
  intros Hc.
  assert (forall f : sem_pc -> bool, f Out = false -> countb f (replicate threads Out) = 0) as H0.
  { intros f Hf. induction threads; [done|]. simpl. rewrite countb_cons, Hf. simpl. done. }
  split; simpl; rewrite ?H0 by done; try done; try lia.
  - intros t pc Hpc. apply lookup_replicate in Hpc as [-> _]. done.
  - unfold INT_MAX. intros Hm. rewrite swrap_id; [lia|lia|]. unfold in_s. simpl in *. lia.
  - intros t Hpc. apply lookup_replicate in Hpc as [? _]. done.
Qed.

(** A thread that holds the mutex is its owner, so no other thread holds it. *)
Lemma sem_inv_excl (c0 : Z) (s : sem_state) (t t' : nat) (pc pc' : sem_pc) :
  sem_inv c0 s -> pcs s !! t = Some pc -> holds pc = true ->
  pcs s !! t' = Some pc' -> holds pc' = true -> t = t'.
Proof. intros [H _ _ _ _ _] H1 H2 H3 H4. pose proof (H _ _ H1 H2). pose proof (H _ _ H3 H4). congruence. Qed.

(** One thread moves: what has to be shown is about its old and new point. *)
Lemma sem_inv_goto (c0 : Z) (s s' : sem_state) (t : nat) (pc pc' : sem_pc) :
  sem_inv c0 s -> pcs s !! t = Some pc -> pcs s' = <[t := pc']> (pcs s) ->
  (holds pc' = true -> owner s' = Some t) ->
  (holds pc = false -> holds pc' = true -> owner s = None) ->
  (holds pc = true -> holds pc' = false -> owner s' = None) ->
  (holds pc = holds pc' -> owner s' = owner s) ->
  (c0 <= INT_MAX -> cnt s' = s32 (c0 + ups s' - downs s') /\ downs s' <= c0 + ups s') ->
  - 2 ^ 31 <= cnt s' ->
  (cnt s' = cnt s \/ holds pc = true) -> (pc' = DownDec -> 0 < cnt s') ->
  (0 < countb waits (pcs s) - Z.b2z (waits pc) + Z.b2z (waits pc') ->
     cnt s' <= countb takes (pcs s) - Z.b2z (takes pc) + Z.b2z (takes pc')) ->
  sem_inv c0 s'.
Proof.
  intros Hinv Ht Hpcs Ho1 Ho2 Ho3 Ho4 Htok Hcnt Hch Hdec Hw.
  assert (length (pcs s) > t)%nat as Hlen by (apply lookup_lt_Some in Ht; lia).
  pose proof Hinv as [I1 I2 I3 I4 I5 I6]. split; try done.
  - intros t' q. rewrite Hpcs. destruct (decide (t' = t)) as [->|Hne].
    { rewrite list_lookup_insert_eq by lia. intros [= ->]. auto. }
    rewrite list_lookup_insert_ne by done. intros Hq Hh.
    pose proof (I1 _ _ Hq Hh) as Hown. rewrite <- Hown. apply Ho4.
    destruct (holds pc) eqn:E; [by specialize (I1 _ _ Ht E); congruence|].
    destruct (holds pc') eqn:E'; [|done].
    rewrite (Ho2 eq_refl eq_refl) in Hown. done.
  - intros t'. rewrite Hpcs. destruct (decide (t' = t)) as [->|Hne].
    { rewrite list_lookup_insert_eq by lia. intros [= ->]. auto. }
    rewrite list_lookup_insert_ne by done. intros Hq.
    destruct Hch as [->|Hh]; [by eapply I4|].
    exfalso. by eapply Hne, (sem_inv_excl c0 s t' t DownDec pc).
  - rewrite Hpcs, !(countb_insert _ _ _ _ _ Ht). done.
  - rewrite Hpcs, (countb_insert _ _ _ _ _ Ht), I6.
    destruct (holds pc) eqn:E, (holds pc') eqn:E'; simpl.
    + rewrite (Ho4 eq_refl). lia.
    + rewrite (Ho3 eq_refl eq_refl), (I1 _ _ Ht E). lia.
    + rewrite (Ho1 eq_refl), (Ho2 eq_refl eq_refl). lia.
    + rewrite (Ho4 eq_refl). lia.
Qed.

(** [sem->count++] wraps around at INT_MAX, and only there. *)
Lemma s32_inc (x : Z) :
  - 2 ^ 31 <= x -> - 2 ^ 31 <= s32 (x + 1) <= x + 1.
Proof. intros H. unfold swrap. simpl in *. Z.div_mod_to_equations. lia. Qed.

Lemma s32_succ (x : Z) : s32 (s32 x + 1) = s32 (x + 1).
Proof. unfold swrap. simpl. Z.div_mod_to_equations. lia. Qed.

Lemma s32_pred (x : Z) : 0 <= x -> 0 < s32 x -> s32 x - 1 = s32 (x - 1) /\ 1 <= x.
Proof. unfold swrap. simpl. intros. Z.div_mod_to_equations. lia. Qed.

(** No waiter is left behind when the count of waiters is zero. *)
Lemma no_waits (l : list sem_pc) : DownWait ∉ l -> countb waits l = 0.
Proof.
  intros Hn. destruct (decide (0 < countb waits l)) as [Hp|]; [|pose proof (countb_nonneg waits l); lia].
  destruct (countb_pos _ _ Hp) as (i & x & Hi & Hx). destruct x; try done.
  exfalso. apply Hn. by eapply list_elem_of_lookup_2.
Qed.

Lemma sem_inv_step (c0 : Z) (s s' : sem_state) : sem_inv c0 s -> sem_step s s' -> sem_inv c0 s'.
Proof.
  intros Hinv Hstep. pose proof Hinv as [I1 I2 I3 I4 I5 I6].
  assert (forall t, pcs s !! t = Some DownWait -> sem_inv c0 (goto t DownWoken s)) as Hwake.
  { intros t Ht. eapply (sem_inv_goto c0 s _ t); [done | done | done | ..]; simpl; try done; auto; lia. }
  destruct Hstep as [s t Ht|s t Ht|s t pc pc' Ht Ho Hin|s t Ht|s t Ht Hc|s t w Ht Hc Hw
    |s t Ht Hc|s t Ht Hc|s t Ht|s t Ht|s t pc Ht Hin].
  - eapply (sem_inv_goto c0 s _ t); [done | done | done | ..]; simpl; try done; auto; lia.
  - eapply (sem_inv_goto c0 s _ t); [done | done | done | ..]; simpl; try done; auto; lia.
  - assert (holds pc = false /\ holds pc' = true /\ waits pc = false /\ waits pc' = false /\
            pc' <> DownDec /\ Z.b2z (takes pc) <= Z.b2z (takes pc')) as (H1 & H2 & H3 & H4 & H5 & H6).
    { repeat (apply elem_of_cons in Hin as [[= -> ->]|Hin]; [done|]). by apply elem_of_nil in Hin. }
    eapply (sem_inv_goto c0 s _ t); [done | done | done | ..]; simpl; rewrite ?H1, ?H2, ?H3, ?H4;
      simpl; try done; auto; lia.
  - pose proof (I1 _ _ Ht eq_refl). pose proof (s32_inc _ I3).
    eapply (sem_inv_goto c0 s _ t); [done | done | done | ..]; simpl; try done; auto; try lia.
    intros [E ?]%I2. rewrite E, s32_succ. split; [f_equal|]; lia.
  - pose proof (I1 _ _ Ht eq_refl).
    eapply (sem_inv_goto c0 s _ t); [done | done | done | ..]; simpl; try done; auto.
    destruct Hc as [Hc|Hc%no_waits].
    + pose proof (countb_elem takes _ _ _ Ht eq_refl). lia.
    + rewrite Hc. lia.
  - pose proof (Hwake w Hw) as Hinv'. pose proof Hinv' as [J1 J2 J3 J4 J5 J6].
    assert (pcs (goto w DownWoken s) !! t = Some UpSignal) as Ht'.
    { simpl. rewrite list_lookup_insert_ne; [done|]. intros ->. congruence. }
    pose proof (J1 _ _ Ht' eq_refl). simpl in *.
    eapply (sem_inv_goto c0 _ _ t); [exact Hinv' | done | done | ..]; simpl; try done; auto.
    rewrite !(countb_insert _ _ _ _ _ Hw) in *. simpl in *.
    pose proof (countb_elem waits _ _ _ Hw eq_refl). lia.
  - pose proof (I1 _ _ Ht eq_refl).
    eapply (sem_inv_goto c0 s _ t); [done | done | done | ..]; simpl; try done; auto.
    pose proof (countb_elem takes _ _ _ Ht eq_refl). lia.
  - pose proof (I1 _ _ Ht eq_refl).
    eapply (sem_inv_goto c0 s _ t); [done | done | done | ..]; simpl; try done; auto; lia.
  - by apply Hwake.
  - pose proof (I1 _ _ Ht eq_refl). pose proof (I4 _ Ht).
    eapply (sem_inv_goto c0 s _ t); [done | done | done | ..]; simpl; try done; auto; try lia.
    intros [E ?]%I2. destruct (s32_pred (c0 + ups s - downs s)) as [E' ?]; [lia|lia|].
    rewrite E, E'. split; [f_equal|]; lia.
  - assert (holds pc = true /\ waits pc = false /\ takes pc = false) as (H1 & H2 & H3).
    { repeat (apply elem_of_cons in Hin as [->|Hin]; [done|]). by apply elem_of_nil in Hin. }
    eapply (sem_inv_goto c0 s _ t); [done | done | done | ..]; simpl; rewrite ?H1, ?H2, ?H3;
      simpl; try done; auto; lia.
Qed.

Lemma sem_inv_reachable (threads : nat) (c0 : Z) (s : sem_state) :
  0 <= c0 -> rtc sem_step (sem_init threads c0) s -> sem_inv c0 s.
Proof.
  intros Hc Hr. assert (sem_inv c0 (sem_init threads c0)) as Hi by by apply sem_inv_init.
  induction Hr as [|x y z Hxy Hyz IH]; [done|]. eauto using sem_inv_step.
Qed.

(** ** Properties *)

(** C3: the callbacks of posix.c keep the contract the kernel relies on: for any
    [malloc] that returns NULL or an unused address, [sem_alloc], [sem_up],
    [sem_down], [sem_free], [mem_alloc], [mem_free] and [timer] satisfy every law
    of [native_laws], with counts up to INT_MAX. *)
Theorem posix_meets_native_contract (malloc : gmap Z cell -> Z -> Z)
    (malloc_fresh : forall h sz, malloc h sz <> NULL -> h !! malloc h sz = None) :
  native_laws posix (ops := posix_native malloc).
Proof. by apply posix_laws. Qed.

(** A bump allocator: the smallest positive address above all live ones. *)
Definition bump_malloc (h : gmap Z cell) (sz : Z) : Z :=
  1 + foldr Z.max 0 (elements (dom h)).

Lemma foldr_max_ge (l : list Z) (x : Z) : x ∈ l -> x <= foldr Z.max 0 l.
Proof.
  intros Hx. induction l as [|y l IH]; [by apply elem_of_nil in Hx|]. simpl.
  apply elem_of_cons in Hx as [->|Hx]; [lia|]. specialize (IH Hx). lia.
Qed.
Lemma foldr_max_pos (l : list Z) : 0 <= foldr Z.max 0 l.
Proof. induction l; simpl; lia. Qed.

Lemma bump_malloc_fresh (h : gmap Z cell) (sz : Z) :
  bump_malloc h sz <> NULL -> h !! bump_malloc h sz = None.
Proof.
  intros _. apply not_elem_of_dom. intros Hin%elem_of_elements.
  apply foldr_max_ge in Hin. unfold bump_malloc in Hin. lia.
Qed.

Lemma posix_meets_native_contract_witness :
  native_laws posix (ops := posix_native bump_malloc).
Proof. exact (posix_meets_native_contract bump_malloc bump_malloc_fresh). Defined.

(** Two threads sleep on an empty semaphore and a third one calls [sem_up]. *)
Definition two_waiters : sem_state :=
  Sem_state None 1 [DownWoken; Out; DownWait] 1 0.

Lemma two_waiters_reachable : rtc sem_step (sem_init 3 0) two_waiters.
Proof.
  eapply rtc_l; [by apply (step_call_down _ 0)|].
  eapply rtc_l; [eapply (step_lock _ 0 DownLock DownTest); [done|done|set_solver]|].
  eapply rtc_l; [by apply (step_test_wait _ 0)|].
  eapply rtc_l; [by apply (step_call_down _ 2)|].
  eapply rtc_l; [eapply (step_lock _ 2 DownLock DownTest); [done|done|set_solver]|].
  eapply rtc_l; [by apply (step_test_wait _ 2)|].
  eapply rtc_l; [by apply (step_call_up _ 1)|].
  eapply rtc_l; [eapply (step_lock _ 1 UpLock UpInc); [done|done|set_solver]|].
  eapply rtc_l; [by apply (step_inc _ 1)|].
  eapply rtc_l; [by apply (step_signal_one _ 1 0)|].
  eapply rtc_l; [eapply (step_unlock _ 1 UpUnlock); [done|set_solver]|].
  apply rtc_refl.
Qed.

(** C2: the semaphore of posix.c is safe under any interleaving of any number of
    threads, with [count] the C [int] that wraps around: at most one thread is
    inside the mutex; completed [sem_down]s never exceed the initial count plus
    the completed [sem_up]s; [count] is their difference cut to an [int], so it
    is that difference itself, and not negative, as long as no more than INT_MAX
    tokens are outstanding. *)
Theorem posix_sem_safe (threads : nat) (c0 : Z) (s : sem_state) :
  0 <= c0 <= INT_MAX -> rtc sem_step (sem_init threads c0) s ->
  countb holds (pcs s) <= 1 /\ downs s <= c0 + ups s /\
  cnt s = s32 (c0 + ups s - downs s) /\
  (c0 + ups s - downs s <= INT_MAX -> cnt s = c0 + ups s - downs s /\ 0 <= cnt s).
Proof.
  intros [Hc Hm] Hr. destruct (sem_inv_reachable _ _ _ Hc Hr) as [_ H2 _ _ _ H6].
  rewrite H6. destruct (H2 Hm) as [E Hd]. split_and!; [destruct (owner s); lia | done | done |].
  intros Hle. rewrite E, swrap_id; [lia|lia|]. unfold INT_MAX, in_s in *. simpl in *. lia.
Qed.

(** The woken thread holds the mutex, the other waiter sleeps, and one token of
    the [sem_up] is outstanding. *)
Lemma posix_sem_safe_witness :
  let s := goto 0 DownTest (set_owner (Some 0%nat) two_waiters) in
  countb holds (pcs s) = 1 /\ countb holds (pcs s) <= 1 /\ downs s <= 0 + ups s /\
  cnt s = s32 1 /\ cnt s = 1 /\ 0 <= cnt s.
Proof.
  split; [reflexivity|].
  destruct (posix_sem_safe 3 0 (goto 0 DownTest (set_owner (Some 0%nat) two_waiters)))
    as (H1 & H2 & H3 & H4); [by vm_compute | |].
  - eapply rtc_r; [apply two_waiters_reachable|].
    eapply (step_lock _ 0 DownWoken DownTest); [done | done | set_solver].
  - destruct H4 as [H4 H5]; [by vm_compute|]. exact (conj H1 (conj H2 (conj H3 (conj H4 H5)))).
Defined.

(** C1: no wake-up of the semaphore is lost: in every reachable state in which a
    thread sleeps in [sem_down] although the count is positive and the mutex is
    free, some thread has been woken and can take the mutex, pass the test and
    finish its [sem_down]. *)
Theorem posix_sem_no_lost_wakeup (threads : nat) (c0 : Z) (s : sem_state) (t : nat) :
  0 <= c0 -> rtc sem_step (sem_init threads c0) s ->
  pcs s !! t = Some DownWait -> 0 < cnt s -> owner s = None ->
  exists w s', pcs s !! w = Some DownWoken /\ rtc sem_step s s' /\
    pcs s' !! w = Some Out /\ downs s' = downs s + 1.
Proof.
  intros Hc Hr Ht Hcnt Ho. destruct (sem_inv_reachable _ _ _ Hc Hr) as [H1 _ _ _ H5 _].
  pose proof (countb_elem waits _ _ _ Ht eq_refl) as Hw. specialize (H5 Hw).
  destruct (countb_pos takes (pcs s) ltac:(lia)) as (w & pc & Hpc & Htk).
  assert (pc = DownWoken) as ->.
  { destruct pc; try done; specialize (H1 _ _ Hpc eq_refl); congruence. }
  assert (w < length (pcs s))%nat as Hlen by by eapply lookup_lt_Some.
  set (s1 := goto w DownTest (set_owner (Some w) s)).
  set (s2 := goto w DownDec s1). set (s3 := goto w DownUnlock (do_dec s2)).
  set (s4 := goto w Out (set_owner None s3)).
  assert (forall (l : list sem_pc) q, (w < length l)%nat -> <[w := q]> l !! w = Some q) as Hins.
  { intros. by apply list_lookup_insert_eq. }
  exists w, s4. split_and!; [done | | | simpl; lia].
  - eapply rtc_l; [eapply (step_lock s w DownWoken DownTest); [done|done|set_solver]|].
    eapply rtc_l; [eapply (step_test_go s1 w); [by apply Hins|done]|].
    eapply rtc_l; [eapply (step_dec s2 w); apply Hins; simpl; by rewrite !length_insert|].
    eapply rtc_l; [|apply rtc_refl].
    eapply (step_unlock s3 w DownUnlock); [apply Hins; simpl; by rewrite !length_insert|set_solver].
  - apply Hins. simpl. by rewrite !length_insert.
Qed.

Lemma posix_sem_no_lost_wakeup_witness :
  exists w s', pcs two_waiters !! w = Some DownWoken /\ rtc sem_step two_waiters s' /\
    pcs s' !! w = Some Out /\ downs s' = downs two_waiters + 1.
Proof.
  apply (posix_sem_no_lost_wakeup 3 0 two_waiters 2);
    [lia | apply two_waiters_reachable | done | done | done].
Defined.
