(* ===== verification/Irq.v ===== *)
(** * Interrupts of the port: arch/lkl/kernel/irq.c

    The host signals an interrupt with [lkl_trigger_irq] or
    [lkl_trigger_irq_with_data] from any native thread.  The kernel has no
    hardware to interrupt it: the idle thread runs the handlers from [run_irqs].
    This file models the queues, the loop that serves them and the idle loop,
    shows that one pass serves every queued interrupt once and in order, and
    that no wake-up is lost when triggers interleave with the loop. *)
From S2P Require Import Prelude Native EnvPosix.

Definition TIMER_IRQ : Z := 0.
Definition SYSCALL_IRQ : Z := 1.
Definition DISK_IRQ : Z := 2.
Definition ETH_IRQ : Z := 3.
Definition NR_IRQS : Z := 4.

(** [struct irq_data]: its address and the [regs.irq_data] it carries. *)
Record irq_data := Irq_data { id_addr : Z; id_regs : Z }.
Definition sizeof_irq_data : Z := 24.

(** [struct irq_info]: the queue of one interrupt line. *)
Record irq_info := Irq_info {
  data_list : list irq_data;
  no_data_count : Z;
  lock : Z }.

(** The globals of irq.c, the host, and the rest of the kernel.  [irq_regs] is
    what [get_irq_regs()] points to; [None] is an uninitialised [struct pt_regs].
    [delivered] is a ghost: the calls of [do_IRQ] so far, with their registers. *)
Record irq_state (N K : Type) := Irq_state {
  native : N;
  irqs : list irq_info;
  sem : Z;
  irqs_enabled : Z;
  irq_regs : option Z;
  world : K;
  delivered : list (Z * option Z) }.
Arguments Irq_state {N K}.
Arguments native {N K}.
Arguments irqs {N K}.
Arguments sem {N K}.
Arguments irqs_enabled {N K}.
Arguments irq_regs {N K}.
Arguments world {N K}.
Arguments delivered {N K}.

(** ** Well-formed queues

    [ksems] and [kblocks] give the semaphores and heap blocks that the rest of
    the kernel holds in a given state. *)
Section queues.
Context {K : Type} {ksems kblocks : K -> gset Z}.

Definition nodes (l : list irq_info) : list Z :=
  l ≫= fun ii => id_addr <$> data_list ii.

Record line_wf (S : gmap Z Z) (k : K) (ii : irq_info) : Prop := {
  line_lock : S !! lock ii = Some 1;
  line_own : lock ii ∉ ksems k;
  line_count : 0 <= no_data_count ii <= INT_MAX }.

(** Well-formed queues: four lines, every lock free, distinct semaphores, every
    queued node a distinct live block, and none of them held by the rest of the
    kernel, which itself only holds live objects. *)
Record queues_wf (S B : gmap Z Z) (k : K) (l : list irq_info) (s : Z) : Prop := {
  wf_len : length l = Z.to_nat NR_IRQS;
  wf_lines : Forall (line_wf S k) l;
  wf_sem : exists c, S !! s = Some c /\ 0 <= c;
  wf_sem_own : s ∉ ksems k;
  wf_distinct : NoDup (s :: (lock <$> l));
  wf_nodes : NoDup (nodes l);
  wf_live : Forall (fun p => is_Some (B !! p) /\ p ∉ kblocks k) (nodes l);
  wf_ksems : ksems k ⊆ dom S;
  wf_kblocks : kblocks k ⊆ dom B }.

Definition keeps (M M' : gmap Z Z) (X X' : gset Z) : Prop :=
  forall p v, p ∉ X -> M !! p = Some v -> M' !! p = Some v /\ p ∉ X'.

Definition drained (ii : irq_info) : irq_info := Irq_info [] 0 (lock ii).

Lemma nodes_split (l : list irq_info) (i : Z) (ii : irq_info) :
  aget l i = Some ii ->
  exists R, nodes l ≡ₚ (id_addr <$> data_list ii) ++ R /\
    forall x, nodes (aset l i x) ≡ₚ (id_addr <$> data_list x) ++ R.
Proof.
  unfold aget, aset. destruct (Z.ltb_spec i 0); [done|]. intros Hi.
  exists (nodes (take (Z.to_nat i) l) ++ nodes (drop (S (Z.to_nat i)) l)).
  assert (forall l1 x l2, nodes (l1 ++ x :: l2) ≡ₚ
            (id_addr <$> data_list x) ++ nodes l1 ++ nodes l2) as Hperm.
  { intros l1 x l2. unfold nodes. rewrite bind_app, bind_cons, !app_assoc.
    by rewrite (Permutation_app_comm (l1 ≫= _)). }
  split.
  - rewrite <- (take_drop_middle l _ _ Hi) at 1. apply Hperm.
  - intros x. rewrite (insert_take_drop _ _ _ (lookup_lt_Some _ _ _ Hi)). apply Hperm.
Qed.

Lemma locks_aset (l : list irq_info) (i : Z) (ii x : irq_info) :
  aget l i = Some ii -> lock x = lock ii -> lock <$> aset l i x = lock <$> l.
Proof.
  unfold aget, aset. destruct (i <? 0); [done|]. intros Hi Hx.
  rewrite list_fmap_insert, Hx. apply list_insert_id. by rewrite list_lookup_fmap, Hi.
Qed.

Lemma aget_elem {A : Type} (l : list A) (i : Z) (x : A) : aget l i = Some x -> x ∈ l.
Proof.
  unfold aget. destruct (i <? 0); [done|]. apply list_elem_of_lookup_2.
Qed.

Lemma Forall_aset {A : Type} (P : A -> Prop) (l : list A) (i : Z) (x : A) :
  Forall P l -> P x -> Forall P (aset l i x).
Proof. intros Hl Hx. by apply Forall_insert. Qed.

(** Replacing the queue of a line by one with no other nodes keeps the queues
    well formed, for any heap in which the remaining nodes are live. *)
Lemma wf_aset (S B B' : gmap Z Z) (k : K) (l : list irq_info) (s i : Z) (ii x : irq_info) :
  queues_wf S B k l s -> aget l i = Some ii -> lock x = lock ii ->
  0 <= no_data_count x <= INT_MAX ->
  (id_addr <$> data_list x) `sublist_of` (id_addr <$> data_list ii) ->
  (forall p, p ∈ nodes (aset l i x) -> is_Some (B !! p) -> is_Some (B' !! p)) ->
  kblocks k ⊆ dom B' ->
  queues_wf S B' k (aset l i x) s.
Proof.
  intros [Hlen Hlines Hsem Hown Hdist Hnd Hlive ? ?] Hi Hlock Hcount Hsub HB HK.
  destruct (nodes_split l i ii Hi) as (R & HR & Hx).
  assert (nodes (aset l i x) ⊆+ nodes l) as Hsm.
  { rewrite Hx, HR. apply submseteq_app; [by apply sublist_submseteq | done]. }
  split.
  - by rewrite length_aset.
  - apply Forall_aset; [done|]. rewrite Forall_forall in Hlines.
    destruct (Hlines ii (aget_elem _ _ _ Hi)). by split; rewrite ?Hlock.
  - done.
  - done.
  - by rewrite (locks_aset _ _ _ _ Hi Hlock).
  - by eapply submseteq_NoDup.
  - rewrite Forall_forall in Hlive |- *. intros p Hp.
    destruct (Hlive p) as [Hs Ho]; [by eapply elem_of_submseteq|]. split; [by apply HB | done].
  - done.
  - done.
Qed.

(** Reading a line of well-formed queues gives a usable lock. *)
Lemma wf_line (S B : gmap Z Z) (k : K) (l : list irq_info) (s i : Z) (ii : irq_info) :
  queues_wf S B k l s -> aget l i = Some ii -> line_wf S k ii.
Proof.
  intros [_ Hl _ _ _ _ _ _ _] Hi. rewrite Forall_forall in Hl. eauto using aget_elem.
Qed.

Lemma keeps_trans (M1 M2 M3 : gmap Z Z) (X1 X2 X3 : gset Z) :
  keeps M1 M2 X1 X2 -> keeps M2 M3 X2 X3 -> keeps M1 M3 X1 X3.
Proof. intros H1 H2 p v Hp Hv. destruct (H1 p v Hp Hv). by apply H2. Qed.

(** Well-formedness survives a step that keeps what it does not hold. *)
Lemma wf_frame (S S' B B' : gmap Z Z) (k k' : K) (l : list irq_info) (s : Z) :
  queues_wf S B k l s ->
  keeps S S' (ksems k) (ksems k') -> keeps B B' (kblocks k) (kblocks k') ->
  ksems k' ⊆ dom S' -> kblocks k' ⊆ dom B' ->
  queues_wf S' B' k' l s.
Proof.
  intros [Hlen Hlines (c & Hc & ?) Hown Hdist Hnd Hlive _ _] HS HB HkS HkB. split; try done.
  - eapply Forall_impl; [done|]. intros ii [? ? ?].
    destruct (HS (lock ii) 1) as [??]; [done..|]. by split.
  - destruct (HS s c) as [??]; [done..|]. by exists c.
  - by destruct (HS s c).
  - eapply Forall_impl; [done|]. intros p [[v Hv] ?].
    destruct (HB p v) as [Hv' ?]; [done..|]. by rewrite Hv'.
Qed.

(** Taking the first node off a queue and freeing it. *)
Lemma wf_pop (S B : gmap Z Z) (k : K) (l : list irq_info) (s i : Z) (ii : irq_info)
    (id : irq_data) (rest : list irq_data) :
  queues_wf S B k l s -> aget l i = Some ii -> data_list ii = id :: rest ->
  queues_wf S (delete (id_addr id) B) k
    (aset l i (Irq_info rest (no_data_count ii) (lock ii))) s.
Proof.
  intros Hwf Hi E. destruct (wf_line _ _ _ _ _ _ _ Hwf Hi) as [_ _ Hc].
  destruct (nodes_split _ _ _ Hi) as (R & HR & Hx).
  eapply wf_aset; [done | done | done | done | rewrite E; simpl; by constructor | |].
  - intros p Hp Hlive. rewrite lookup_delete_ne; [done|]. intros <-.
    destruct Hwf as [_ _ _ _ _ Hnd _ _ _]. rewrite HR, E in Hnd. simpl in Hnd.
    apply NoDup_cons in Hnd as [Hnot _]. apply Hnot. rewrite Hx in Hp. exact Hp.
  - destruct Hwf as [_ _ _ _ _ _ Hlive _ HkB]. rewrite Forall_forall in Hlive.
    assert (id_addr id ∉ kblocks k).
    { apply Hlive. rewrite HR, E. set_solver. }
    rewrite dom_delete_L. set_solver.
Qed.

(** Changing the count of the idle semaphore keeps the queues well formed. *)
Lemma wf_count (S B : gmap Z Z) (k : K) (l : list irq_info) (s c : Z) :
  queues_wf S B k l s -> 0 <= c -> queues_wf (<[s := c]> S) B k l s.
Proof.
  intros [Hlen Hlines _ Hown Hdist Hnd Hlive HkS HkB] Hc.
  apply NoDup_cons in Hdist as Hd. destruct Hd as [Hs _]. split; try done.
  - rewrite Forall_forall in Hlines |- *. intros ii Hii. destruct (Hlines ii Hii).
    split; try done. rewrite lookup_insert_ne; [done|]. intros ->. apply Hs.
    by apply list_elem_of_fmap_2.
  - exists c. by rewrite lookup_insert_eq.
  - rewrite dom_insert_L. set_solver.
Qed.

(** Appending a fresh node. *)
Lemma wf_push (S B : gmap Z Z) (k : K) (l : list irq_info) (s i : Z) (ii : irq_info) (p d sz : Z) :
  queues_wf S B k l s -> aget l i = Some ii -> B !! p = None ->
  queues_wf S (<[p := sz]> B) k
    (aset l i (Irq_info (data_list ii ++ [Irq_data p d]) (no_data_count ii) (lock ii))) s.
Proof.
  intros Hwf Hi Hp. destruct (wf_line _ _ _ _ _ _ _ Hwf Hi) as [Hl Ho Hc].
  destruct (nodes_split _ _ _ Hi) as (R & HR & Hx).
  destruct Hwf as [Hlen Hlines Hsem Hown Hdist Hnd Hlive HkS HkB].
  assert (nodes (aset l i (Irq_info (data_list ii ++ [Irq_data p d]) (no_data_count ii) (lock ii)))
          ≡ₚ p :: nodes l) as Hn.
  { rewrite Hx, HR. simpl. rewrite fmap_app. simpl. rewrite <- app_assoc. simpl.
    symmetry. apply Permutation_middle. }
  assert (p ∉ nodes l) as Hpn.
  { rewrite Forall_forall in Hlive. intros Hin. destruct (Hlive p Hin) as [[? ?] _]. congruence. }
  split; try done.
  - by rewrite length_aset.
  - apply Forall_aset; [done|]. by split.
  - by rewrite (locks_aset _ _ ii).
  - rewrite Hn. by apply NoDup_cons.
  - rewrite Hn. apply Forall_cons. split.
    + rewrite lookup_insert_eq. split; [done|]. apply not_elem_of_dom in Hp. set_solver.
    + eapply Forall_impl; [done|]. intros q [? ?]. split; [|done].
      rewrite lookup_insert. by case_decide.
  - rewrite dom_insert_L. set_solver.
Qed.

End queues.
Arguments queues_wf {K} ksems kblocks S B k l s.

Section irq.
Context {N K : Type} {ops : lkl_native_operations N}.

(** The generic interrupt layer: [irq_enter], [__do_IRQ] and [irq_exit] of
    kernel/softirq.c and kernel/irq/handle.c, and the tests [need_resched()] and
    [linux_halted].  They act on the host and on the rest of the kernel. *)
Context (irq_enter irq_exit : N * K -> res (N * K)).
Context (__do_IRQ : Z -> option Z -> N * K -> res (N * K)).
Context (need_resched linux_halted : K -> bool).

Abbreviation state := (irq_state N K).

Definition set_native (n : N) (st : state) : state :=
  Irq_state n (irqs st) (sem st) (irqs_enabled st) (irq_regs st) (world st) (delivered st).
Definition set_info (irq : Z) (ii : irq_info) (st : state) : state :=
  Irq_state (native st) (aset (irqs st) irq ii) (sem st) (irqs_enabled st) (irq_regs st)
    (world st) (delivered st).
Definition set_regs (r : option Z) (st : state) : state :=
  Irq_state (native st) (irqs st) (sem st) (irqs_enabled st) r (world st) (delivered st).
Definition set_host_world (nk : N * K) (st : state) : state :=
  Irq_state (fst nk) (irqs st) (sem st) (irqs_enabled st) (irq_regs st) (snd nk) (delivered st).
Definition log_delivery (irq : Z) (r : option Z) (st : state) : state :=
  Irq_state (native st) (irqs st) (sem st) (irqs_enabled st) (irq_regs st) (world st)
    (delivered st ++ [(irq, r)]).

Definition __local_save_flags (st : state) : Z := irqs_enabled st.
Definition __local_irq_restore (flags : Z) (st : state) : state :=
  Irq_state (native st) (irqs st) (sem st) flags (irq_regs st) (world st) (delivered st).
Definition local_irq_enable (st : state) : state := __local_irq_restore 1 st.
Definition local_irq_disable (st : state) : state := __local_irq_restore 0 st.

Definition do_IRQ (irq : Z) (regs : option Z) (st : state) : res state :=
  let old_regs := irq_regs st in
  let st := set_regs regs st in
  let! nk := irq_enter (native st, world st) in
  let! nk := __do_IRQ irq regs nk in
  let! nk := irq_exit nk in
  let st := log_delivery irq regs (set_host_world nk st) in
  Ret (set_regs old_regs st).

(** The part of a trigger that runs under the lock of the line. *)
Definition queue_nodata (irq : Z) (st : state) : res state :=
  let! _ := BUG_ON (NR_IRQS <=? irq) in
  let! ii := deref (aget (irqs st) irq) in
  let! n := sem_down (lock ii) (native st) in
  let st := set_info irq (Irq_info (data_list ii) (s32 (no_data_count ii + 1)) (lock ii)) st in
  let! n := sem_up (lock ii) n in
  Ret (set_native n st).

Definition lkl_trigger_irq (irq : Z) (st : state) : res state :=
  let! st := queue_nodata irq st in
  let! n := sem_up (sem st) (native st) in
  Ret (set_native n st).

(** Returns [-ENOMEM] when the node cannot be allocated, 0 when it was queued. *)
Definition queue_data (irq data : Z) (st : state) : res (Z * state) :=
  let! _ := BUG_ON (NR_IRQS <=? irq) in
  let '(id, n) := mem_alloc sizeof_irq_data (native st) in
  let st := set_native n st in
  if id =? NULL then Ret (- ENOMEM, st)
  else
    let! ii := deref (aget (irqs st) irq) in
    let! n := sem_down (lock ii) (native st) in
    let st := set_info irq
      (Irq_info (data_list ii ++ [Irq_data id data]) (no_data_count ii) (lock ii)) st in
    let! n := sem_up (lock ii) n in
    Ret (0, set_native n st).

Definition lkl_trigger_irq_with_data (irq data : Z) (st : state) : res (Z * state) :=
  let! (r, st) := queue_data irq data st in
  if r =? - ENOMEM then Ret (- ENOMEM, st)
  else
    let! n := sem_up (sem st) (native st) in
    Ret (0, set_native n st).

(** [list_for_each_safe] of the purge: free the nodes one by one. *)
Fixpoint free_nodes (l : list irq_data) (n : N) : res N :=
  match l with
  | [] => Ret n
  | id :: l => let! n := mem_free (id_addr id) n in free_nodes l n
  end.

Definition lkl_purge_irq_queue (irq : Z) (st : state) : res state :=
  let! _ := BUG_ON (NR_IRQS <=? irq) in
  let! ii := deref (aget (irqs st) irq) in
  let! n := sem_down (lock ii) (native st) in
  let! n := free_nodes (data_list ii) n in
  let st := set_info irq (Irq_info [] 0 (lock ii)) st in
  let! n := sem_up (lock ii) n in
  Ret (set_native n st).

Definition dequeue_data (irq : Z) (regs : option Z) (st : state) : res (Z * option Z * state) :=
  let! ii := deref (aget (irqs st) irq) in
  let! n := sem_down (lock ii) (native st) in
  match data_list ii with
  | [] =>
      let! n := sem_up (lock ii) n in
      Ret (- ENOENT, regs, set_native n st)
  | id :: rest =>
      let st := set_info irq (Irq_info rest (no_data_count ii) (lock ii)) st in
      let! n := sem_up (lock ii) n in
      let! n := mem_free (id_addr id) n in
      Ret (0, Some (id_regs id), set_native n st)
  end.

Definition dequeue_nodata (irq : Z) (st : state) : res (Z * state) :=
  let! ii := deref (aget (irqs st) irq) in
  let! n := sem_down (lock ii) (native st) in
  let count := no_data_count ii in
  let st := if 0 <? count
            then set_info irq (Irq_info (data_list ii) (count - 1) (lock ii)) st else st in
  let! n := sem_up (lock ii) n in
  let st := set_native n st in
  if count <=? 0 then Ret (- ENOENT, st) else Ret (0, st).

(** The two inner loops of [run_irqs]. *)
Fixpoint serve_nodata (fuel : nat) (irq : Z) (regs : option Z) (st : state) : res state :=
  match fuel with
  | O => OutOfFuel
  | S fuel =>
      let! (r, st) := dequeue_nodata irq st in
      if r =? 0 then
        let! st := do_IRQ irq regs st in
        serve_nodata fuel irq regs st
      else Ret st
  end.

Fixpoint serve_data (fuel : nat) (irq : Z) (regs : option Z) (st : state)
  : res (option Z * state) :=
  match fuel with
  | O => OutOfFuel
  | S fuel =>
      let! (r, regs, st) := dequeue_data irq regs st in
      if r =? 0 then
        let! st := do_IRQ irq regs st in
        serve_data fuel irq regs st
      else Ret (regs, st)
  end.

(** [for (i = 0; i < NR_IRQS; i++)], with [lines] the values of [i] left. *)
Fixpoint serve_lines (fuel : nat) (lines : list Z) (regs : option Z) (st : state)
  : res state :=
  match lines with
  | [] => Ret st
  | i :: lines =>
      let! st := serve_nodata fuel i regs st in
      let! (regs, st) := serve_data fuel i regs st in
      serve_lines fuel lines regs st
  end.

Definition all_lines : list Z := [0; 1; 2; 3].

(** One turn of the [do ... while] of [run_irqs]; [regs] starts uninitialised. *)
Definition run_pass (fuel : nat) (st : state) : res state :=
  let! n := if linux_halted (world st) then Ret (native st)
            else sem_down (sem st) (native st) in
  serve_lines fuel all_lines None (set_native n st).

Fixpoint run_passes (fuel : nat) (passes : nat) (st : state) : res state :=
  match passes with
  | O => OutOfFuel
  | S passes =>
      let! st := run_pass fuel st in
      if negb (need_resched (world st)) && negb (linux_halted (world st))
      then run_passes fuel passes st
      else Ret st
  end.

Definition run_irqs (fuel passes : nat) (st : state) : res state :=
  let st := local_irq_disable st in
  let! st := run_passes fuel passes st in
  Ret (local_irq_enable st).

(** [init_IRQ]: one semaphore for the idle loop and one lock per line; the
    registration of the flow handler is in the generic layer. *)
Fixpoint init_lines (k : nat) (n : N) : res (list irq_info * N) :=
  match k with
  | O => Ret ([], n)
  | S k =>
      let '(l, n) := sem_alloc 1 n in
      let! _ := BUG_ON (l =? NULL) in
      let! (rest, n) := init_lines k n in
      Ret (Irq_info [] 0 l :: rest, n)
  end.

Definition init_IRQ (n : N) (w : K) : res state :=
  let '(s, n) := sem_alloc 0 n in
  let! _ := BUG_ON (s =? NULL) in
  let! (ls, n) := init_lines (Z.to_nat NR_IRQS) n in
  Ret (Irq_state n ls s 0 None w []).

Fixpoint free_lines (l : list irq_info) (n : N) : res N :=
  match l with
  | [] => Ret n
  | ii :: l => let! n := sem_free (lock ii) n in free_lines l n
  end.

Definition free_IRQ (st : state) : res N :=
  let! n := free_lines (irqs st) (native st) in
  sem_free (sem st) n.

(** ** Specification of one pass

    What one pass is expected to hand to [do_IRQ] for a line: first the plain
    triggers, which see whatever the local [regs] holds, then the queued data in
    order of arrival. *)
Definition line_deliveries (i : Z) (ii : irq_info) (r : option Z) : list (Z * option Z) :=
  replicate (Z.to_nat (no_data_count ii)) (i, r) ++
  ((fun id => (i, Some (id_regs id))) <$> data_list ii).
Definition line_regs (ii : irq_info) (r : option Z) : option Z :=
  match last (data_list ii) with Some id => Some (id_regs id) | None => r end.
Fixpoint deliveries (lines : list Z) (l : list irq_info) (r : option Z)
  : list (Z * option Z) :=
  match lines with
  | [] => []
  | i :: lines =>
      match aget l i with
      | Some ii => line_deliveries i ii r ++ deliveries lines l (line_regs ii r)
      | None => []
      end
  end.

(** The semaphores and heap blocks that the rest of the kernel holds: a handler
    may change these and what it allocates, and nothing else. *)
Context (ksems kblocks : K -> gset Z).

Definition irq_wf (st : state) : Prop :=
  queues_wf ksems kblocks (sems (native st)) (blocks (native st)) (world st) (irqs st) (sem st).

(** The contract of a handler: it returns, it leaves what it does not hold as it
    was and does not get hold of it, and it never clears [linux_halted] (the port
    only ever sets it). *)
Definition serve (irq : Z) (r : option Z) (nk : N * K) : res (N * K) :=
  let! nk := irq_enter nk in
  let! nk := __do_IRQ irq r nk in
  irq_exit nk.

Definition handlers_ok : Prop :=
  forall irq r n k, ksems k ⊆ dom (sems n) -> kblocks k ⊆ dom (blocks n) ->
    exists n' k', serve irq r (n, k) = Ret (n', k') /\
      keeps (sems n) (sems n') (ksems k) (ksems k') /\
      keeps (blocks n) (blocks n') (kblocks k) (kblocks k') /\
      ksems k' ⊆ dom (sems n') /\ kblocks k' ⊆ dom (blocks n') /\
      (linux_halted k = true -> linux_halted k' = true).

(** Fuel that lets every inner loop of a pass finish. *)
Definition enough_fuel (fuel : nat) (l : list irq_info) : Prop :=
  Forall (fun ii => (Z.to_nat (no_data_count ii) < fuel)%nat /\
                    (length (data_list ii) < fuel)%nat) l.

Context {laws : native_laws N}.
(** [set_solver] without the functions of the section in its search. *)
Ltac set_solve :=
  try clear irq_enter irq_exit; try clear __do_IRQ;
  try clear need_resched; try clear linux_halted; try clear ksems; try clear kblocks; set_solver.
#[local] Set Default Proof Using "Type laws".

Lemma dequeue_nodata_some (i : Z) (ii : irq_info) (st : state) :
  irq_wf st -> aget (irqs st) i = Some ii -> 0 < no_data_count ii ->
  exists n', dequeue_nodata i st = Ret (0, set_native n'
      (set_info i (Irq_info (data_list ii) (no_data_count ii - 1) (lock ii)) st)) /\
    sems n' = sems (native st) /\ blocks n' = blocks (native st).
Proof.
  intros Hwf Hi Hc. destruct (wf_line _ _ _ _ _ _ _ Hwf Hi) as [Hl _ _].
  destruct (lock_ok _ _ Hl) as (n1 & n2 & Hd & Hu & Hs & Hb).
  exists n2. unfold dequeue_nodata. rewrite Hi. simpl. rewrite Hd. simpl. rewrite Hu. simpl.
  rewrite (proj2 (Z.ltb_lt _ _) Hc), (proj2 (Z.leb_gt _ _) Hc). done.
Qed.

Lemma dequeue_nodata_none (i : Z) (ii : irq_info) (st : state) :
  irq_wf st -> aget (irqs st) i = Some ii -> no_data_count ii = 0 ->
  exists n', dequeue_nodata i st = Ret (- ENOENT, set_native n' st) /\
    sems n' = sems (native st) /\ blocks n' = blocks (native st).
Proof.
  intros Hwf Hi Hc. destruct (wf_line _ _ _ _ _ _ _ Hwf Hi) as [Hl _ _].
  destruct (lock_ok _ _ Hl) as (n1 & n2 & Hd & Hu & Hs & Hb).
  exists n2. unfold dequeue_nodata. rewrite Hi. simpl. rewrite Hd. simpl. rewrite Hu. simpl.
  by rewrite Hc.
Qed.

Lemma dequeue_data_none (i : Z) (ii : irq_info) (r : option Z) (st : state) :
  irq_wf st -> aget (irqs st) i = Some ii -> data_list ii = [] ->
  exists n', dequeue_data i r st = Ret (- ENOENT, r, set_native n' st) /\
    sems n' = sems (native st) /\ blocks n' = blocks (native st).
Proof.
  intros Hwf Hi Hc. destruct (wf_line _ _ _ _ _ _ _ Hwf Hi) as [Hl _ _].
  destruct (lock_ok _ _ Hl) as (n1 & n2 & Hd & Hu & Hs & Hb).
  exists n2. unfold dequeue_data. rewrite Hi. simpl. rewrite Hd. simpl. rewrite Hc, Hu. done.
Qed.

Lemma dequeue_data_some (i : Z) (ii : irq_info) (id : irq_data) (rest : list irq_data)
    (r : option Z) (st : state) :
  irq_wf st -> aget (irqs st) i = Some ii -> data_list ii = id :: rest ->
  exists n', dequeue_data i r st = Ret (0, Some (id_regs id), set_native n'
      (set_info i (Irq_info rest (no_data_count ii) (lock ii)) st)) /\
    sems n' = sems (native st) /\ blocks n' = delete (id_addr id) (blocks (native st)).
Proof.
  intros Hwf Hi Hc. destruct (wf_line _ _ _ _ _ _ _ Hwf Hi) as [Hl _ _].
  destruct (lock_ok _ _ Hl) as (n1 & n2 & Hd & Hu & Hs & Hb).
  assert (is_Some (blocks n2 !! id_addr id)) as [sz Hsz].
  { rewrite Hb. destruct Hwf as [_ _ _ _ _ _ Hlive _ _]. rewrite Forall_forall in Hlive.
    apply Hlive. destruct (nodes_split _ _ _ Hi) as (R & -> & _). rewrite Hc. set_solve. }
  destruct (mem_free_ok _ _ _ Hsz) as (n3 & Hf & Hb3 & Hs3).
  exists n3. unfold dequeue_data. rewrite Hi. simpl. rewrite Hd. simpl. rewrite Hc, Hu. simpl.
  rewrite Hf. simpl. split_and!; [done | congruence | congruence].
Qed.

(** [do_IRQ] calls the handler once and restores the saved registers. *)
Lemma do_IRQ_ok (i : Z) (r : option Z) (st : state) :
  handlers_ok -> irq_wf st ->
  exists n' k', do_IRQ i r st = Ret (Irq_state n' (irqs st) (sem st) (irqs_enabled st)
      (irq_regs st) k' (delivered st ++ [(i, r)])) /\
    keeps (sems (native st)) (sems n') (ksems (world st)) (ksems k') /\
    queues_wf ksems kblocks (sems n') (blocks n') k' (irqs st) (sem st) /\
    (linux_halted (world st) = true -> linux_halted k' = true).
Proof.
  intros Hh Hwf.
  destruct (Hh i r (native st) (world st)) as (n' & k' & Hs & H1 & H2 & H3 & H4 & H5);
    [apply Hwf | apply Hwf |].
  exists n', k'. split_and!; [| done | by eapply wf_frame | done].
  unfold serve in Hs. unfold do_IRQ. simpl.
  destruct (irq_enter _) as [nk1| | |]; simpl in *; try done.
  destruct (__do_IRQ _ _ _) as [nk2| | |]; simpl in *; try done. by rewrite Hs.
Qed.

(** What a part of a pass leaves unchanged. *)
Record quiet (st st' : state) : Prop := {
  quiet_sem : sem st' = sem st;
  quiet_enabled : irqs_enabled st' = irqs_enabled st;
  quiet_regs : irq_regs st' = irq_regs st;
  quiet_sems :
    keeps (sems (native st)) (sems (native st')) (ksems (world st)) (ksems (world st'));
  quiet_halted : linux_halted (world st) = true -> linux_halted (world st') = true }.

#[local] Instance quiet_trans : Transitive quiet.
Proof.
  intros s1 s2 s3 [A1 A2 A3 A4 A5] [B1 B2 B3 B4 B5]. split; try congruence; [|auto].
  by eapply keeps_trans.
Qed.

Lemma quiet_native (st : state) (n' : N) :
  sems n' = sems (native st) -> quiet st (set_native n' st).
Proof. intros Hs. split; try done. intros p v ??. by rewrite <- Hs in *. Qed.

Lemma serve_nodata_ok (fuel : nat) (i : Z) (r : option Z) (ii : irq_info) (st : state) :
  handlers_ok -> irq_wf st -> aget (irqs st) i = Some ii ->
  (Z.to_nat (no_data_count ii) < fuel)%nat ->
  exists st', serve_nodata fuel i r st = Ret st' /\ irq_wf st' /\ quiet st st' /\
    irqs st' = aset (irqs st) i (Irq_info (data_list ii) 0 (lock ii)) /\
    delivered st' = delivered st ++ replicate (Z.to_nat (no_data_count ii)) (i, r).
Proof.
  intros Hh. revert ii st. induction fuel as [|fuel IH]; intros ii st Hwf Hi Hf; [lia|].
  destruct (wf_line _ _ _ _ _ _ _ Hwf Hi) as [_ _ Hc]. simpl.
  destruct (Z.eq_dec (no_data_count ii) 0) as [E|E].
  - destruct (dequeue_nodata_none i ii st Hwf Hi E) as (n' & -> & Hs & Hb). simpl.
    eexists. split; [done|]. rewrite E, app_nil_r. split_and!; [|by apply quiet_native| |done].
    + unfold irq_wf. simpl. by rewrite Hs, Hb.
    + simpl. symmetry. apply aset_id. rewrite Hi. destruct ii; simpl in *; congruence.
  - destruct (dequeue_nodata_some i ii st Hwf Hi ltac:(lia)) as (n' & -> & Hs & Hb). simpl.
    set (st1 := set_native n' _).
    destruct (do_IRQ_ok i r st1 Hh) as (n2 & k2 & -> & HS & HB & HH).
    { unfold irq_wf. simpl. rewrite Hs, Hb.
      eapply wf_aset; [done | done | done | simpl; lia | done | done | apply Hwf]. }
    simpl.
    edestruct (IH (Irq_info (data_list ii) (no_data_count ii - 1) (lock ii)))
      as (st' & -> & Hwf' & [Q1 Q2 Q3 Q4 Q5] & Hl & Hd).
    3: { simpl. lia. }
    2: { simpl. by eapply aget_aset_eq. }
    { done. }
    simpl in *. eexists. split; [done|]. split_and!; [done | split; try done | |].
    + rewrite <- Hs. by eapply keeps_trans.
    + simpl in *. auto.
    + by rewrite Hl, aset_aset.
    + rewrite Hd, <- app_assoc. f_equal.
      replace (Z.to_nat (no_data_count ii)) with (S (Z.to_nat (no_data_count ii - 1))) by lia.
      done.
Qed.

Lemma serve_data_ok (fuel : nat) (i : Z) (r : option Z) (ii : irq_info) (st : state) :
  handlers_ok -> irq_wf st -> aget (irqs st) i = Some ii ->
  (length (data_list ii) < fuel)%nat ->
  exists st', serve_data fuel i r st = Ret (line_regs ii r, st') /\ irq_wf st' /\
    quiet st st' /\
    irqs st' = aset (irqs st) i (Irq_info [] (no_data_count ii) (lock ii)) /\
    delivered st' = delivered st ++ ((fun id => (i, Some (id_regs id))) <$> data_list ii).
Proof.
  intros Hh. revert ii r st. induction fuel as [|fuel IH]; intros ii r st Hwf Hi Hf; [lia|].
  destruct (wf_line _ _ _ _ _ _ _ Hwf Hi) as [_ _ Hc]. simpl.
  destruct (data_list ii) as [|id rest] eqn:E.
  - destruct (dequeue_data_none i ii r st Hwf Hi E) as (n' & -> & Hs & Hb). simpl.
    eexists. split; [unfold line_regs; by rewrite E|]. rewrite app_nil_r.
    split_and!; [|by apply quiet_native| |done].
    + unfold irq_wf. simpl. by rewrite Hs, Hb.
    + simpl. symmetry. apply aset_id. rewrite Hi. destruct ii; simpl in *; congruence.
  - destruct (dequeue_data_some i ii id rest r st Hwf Hi E) as (n' & -> & Hs & Hb). simpl.
    set (st1 := set_native n' _).
    destruct (do_IRQ_ok i (Some (id_regs id)) st1 Hh) as (n2 & k2 & -> & HS & HB & HH).
    { unfold irq_wf. simpl. rewrite Hs, Hb. by apply (wf_pop _ _ _ _ _ _ _ _ _ Hwf Hi E). }
    simpl.
    edestruct (IH (Irq_info rest (no_data_count ii) (lock ii)) (Some (id_regs id)))
      as (st' & -> & Hwf' & [Q1 Q2 Q3 Q4 Q5] & Hl & Hd).
    3: { simpl in *. lia. }
    2: { simpl. by eapply aget_aset_eq. }
    { done. }
    simpl in *. exists st'. split.
    { unfold line_regs. simpl. rewrite E, last_cons. by destruct (last rest). }
    split_and!; [done | split; try done | |].
    + rewrite <- Hs. by eapply keeps_trans.
    + simpl in *. auto.
    + by rewrite Hl, aset_aset.
    + by rewrite Hd, <- app_assoc.
Qed.

Lemma deliveries_aset (lines : list Z) (l : list irq_info) (i : Z) (x : irq_info) (r : option Z) :
  0 <= i -> i ∉ lines -> deliveries lines (aset l i x) r = deliveries lines l r.
Proof.
  intros Hi. revert r. induction lines as [|j lines IH]; intros r Hn; [done|]. simpl.
  rewrite aget_aset_ne by set_solve. destruct (aget l j); [|done]. f_equal. set_solve.
Qed.

Lemma serve_lines_ok (fuel : nat) (lines : list Z) (r : option Z) (st : state) :
  handlers_ok -> irq_wf st -> NoDup lines ->
  Forall (fun i => 0 <= i < NR_IRQS) lines -> enough_fuel fuel (irqs st) ->
  exists st', serve_lines fuel lines r st = Ret st' /\ irq_wf st' /\ quiet st st' /\
    delivered st' = delivered st ++ deliveries lines (irqs st) r /\
    (forall i, aget (irqs st') i =
       if decide (i ∈ lines) then drained <$> aget (irqs st) i else aget (irqs st) i).
Proof.
  intros Hh. revert r st. induction lines as [|i lines IH]; intros r st Hwf Hnd Hr Hf.
  { exists st. simpl. rewrite app_nil_r. split_and!; try done; by apply Build_quiet. }
  apply NoDup_cons in Hnd as [Hni Hnd]. apply Forall_cons in Hr as [Hr0 Hr].
  assert (is_Some (aget (irqs st) i)) as [ii Hi].
  { apply aget_is_Some. rewrite (wf_len _ _ _ _ _ Hwf). unfold NR_IRQS in *. lia. }
  pose proof Hf as Hf0. unfold enough_fuel in Hf0. rewrite Forall_forall in Hf0.
  destruct (Hf0 ii (aget_elem _ _ _ Hi)) as [Hf1 Hf2]. simpl.
  destruct (serve_nodata_ok fuel i r ii st Hh Hwf Hi Hf1) as (st1 & -> & Hwf1 & Q1 & L1 & D1).
  simpl.
  edestruct (serve_data_ok fuel i r (Irq_info (data_list ii) 0 (lock ii)) st1)
    as (st2 & -> & Hwf2 & Q2 & L2 & D2); [done|done| |done|].
  { rewrite L1. by eapply aget_aset_eq. }
  simpl in *. rewrite L1, aset_aset in L2.
  destruct (IH (line_regs ii r) st2) as (st' & Hrun & Hwf' & Q3 & D3 & L3); try done.
  { rewrite L2. apply Forall_aset; [done|]. simpl. lia. }
  exists st'. split; [done|]. split; [done|]. split; [by do 2 (etrans; [done|])|]. split.
  - rewrite D3, D2, D1, L2, Hi, deliveries_aset by (done || lia).
    unfold line_deliveries. by rewrite !app_assoc.
  - intros j. rewrite L3, L2. destruct (decide (j = i)) as [->|Hji].
    + rewrite (decide_False (P := i ∈ lines)), (decide_True (P := i ∈ i :: lines)) by set_solver.
      by erewrite aget_aset_eq, Hi.
    + rewrite aget_aset_ne by lia. destruct (decide (j ∈ lines)).
      * by rewrite decide_True by set_solver.
      * by rewrite decide_False by set_solver.
Qed.
Lemma run_pass_ok (fuel : nat) (st : state) (c : Z) :
  handlers_ok -> irq_wf st -> enough_fuel fuel (irqs st) ->
  sems (native st) !! sem st = Some c -> linux_halted (world st) = true \/ 0 < c ->
  exists st', run_pass fuel st = Ret st' /\ irq_wf st' /\
    irqs st' = drained <$> irqs st /\ irqs_enabled st' = irqs_enabled st /\
    irq_regs st' = irq_regs st /\ sem st' = sem st /\
    delivered st' = delivered st ++ deliveries all_lines (irqs st) None /\
    sems (native st') !! sem st' = Some (if linux_halted (world st) then c else c - 1) /\
    (linux_halted (world st) = true -> linux_halted (world st') = true).
Proof.
  intros Hh Hwf Hf Hc Hgo. unfold run_pass.
  assert (exists n1, (if linux_halted (world st) then Ret (native st)
            else sem_down (sem st) (native st)) = Ret n1 /\
          irq_wf (set_native n1 st) /\
          sems n1 !! sem st = Some (if linux_halted (world st) then c else c - 1))
    as (n1 & -> & Hwf1 & Hc1).
  { destruct (linux_halted (world st)).
    - exists (native st). split_and!; [done | by destruct st | done].
    - destruct Hgo as [?|Hgo]; [done|].
      destruct (sem_down_ok _ _ _ Hc Hgo) as (n1 & -> & Hs1 & Hb1). exists n1.
      split_and!; [done | | by rewrite Hs1, lookup_insert_eq].
      unfold irq_wf. simpl. rewrite Hs1, Hb1. apply wf_count; [done|lia]. }
  simpl. destruct (serve_lines_ok fuel all_lines None (set_native n1 st)) as
    (st' & Hr & Hwf' & [Q1 Q2 Q3 Q4 Q5] & D & L); try done.
  { repeat constructor; set_solver. }
  { repeat constructor; done. }
  exists st'. simpl in *. split_and!; try done.
  - apply aget_ext. intros i. rewrite L, aget_fmap.
    destruct (decide (i ∈ all_lines)) as [|Hn]; [done|].
    destruct (aget (irqs st) i) eqn:E; [|done]. exfalso. apply Hn.
    pose proof (aget_Some _ _ _ E) as Hb. rewrite (wf_len _ _ _ _ _ Hwf) in Hb.
    assert (i = 0 \/ i = 1 \/ i = 2 \/ i = 3) as Hi by (unfold NR_IRQS in Hb; lia).
    unfold all_lines. destruct Hi as [-> | [-> | [-> | ->]]]; set_solver.
  - rewrite Q1. destruct (Q4 (sem st) _ (wf_sem_own _ _ _ _ _ Hwf) Hc1). done.
Qed.


Lemma run_pass_blocked (fuel : nat) (st : state) :
  sems (native st) !! sem st = Some 0 -> linux_halted (world st) = false ->
  run_pass fuel st = Blocked.
Proof. intros Hc Hh. unfold run_pass. by rewrite Hh, (sem_down_blocks _ _ 0). Qed.

Lemma drained_fuel (fuel : nat) (l : list irq_info) :
  enough_fuel fuel l -> enough_fuel fuel (drained <$> l).
Proof.
  unfold enough_fuel. rewrite Forall_fmap. intros H. eapply Forall_impl; [done|].
  intros ii [? ?]. unfold compose, drained. simpl. lia.
Qed.

Lemma run_passes_total (fuel passes : nat) (st : state) (c : Z) :
  handlers_ok -> irq_wf st -> enough_fuel fuel (irqs st) ->
  sems (native st) !! sem st = Some c -> (Z.to_nat c < passes)%nat ->
  run_passes fuel passes st = Blocked \/
  exists st', run_passes fuel passes st = Ret st' /\ irq_wf st' /\
    irqs st' = drained <$> irqs st /\
    delivered st `prefix_of` delivered st' /\
    (need_resched (world st') || linux_halted (world st') = true).
Proof.
  intros Hh. revert st c. induction passes as [|passes IH]; intros st c Hwf Hf Hc Hp; [lia|].
  destruct (wf_sem _ _ _ _ _ Hwf) as (c' & Hc' & Hpos). simplify_eq. simpl.
  destruct (linux_halted (world st)) eqn:Hhalt; [|destruct (Z.eq_dec c 0) as [->|Hnz]].
  2: { left. by rewrite run_pass_blocked. }
  all: destruct (run_pass_ok fuel st c Hh Hwf Hf Hc ltac:(auto with lia))
    as (st1 & -> & Hwf1 & L1 & _ & _ & S1 & D1 & C1 & H1); simpl.
  - specialize (H1 Hhalt). rewrite H1, Bool.andb_false_r. right. exists st1.
    split_and!; [done | done | done | by rewrite D1; apply prefix_app_r | by rewrite H1, Bool.orb_true_r].
  - rewrite Hhalt in C1.
    destruct (need_resched (world st1)) eqn:Hn; simpl.
    { right. exists st1. split_and!; [done | done | done | by rewrite D1; apply prefix_app_r |].
      by rewrite Hn. }
    destruct (linux_halted (world st1)) eqn:Hh1; simpl.
    { right. exists st1. split_and!; [done | done | done | by rewrite D1; apply prefix_app_r |].
      by rewrite Hh1, Bool.orb_true_r. }
    destruct (IH st1 (c - 1)) as [?|(st' & R & W & L & D & E)]; try done; [| lia | by left |].
    { rewrite L1. by apply drained_fuel. }
    right. exists st'. split_and!; try done.
    + rewrite L, L1, <- list_fmap_compose. done.
    + etrans; [|done]. rewrite D1. by apply prefix_app_r.
Qed.

Lemma queue_nodata_ok (i : Z) (ii : irq_info) (st : state) :
  irq_wf st -> aget (irqs st) i = Some ii -> no_data_count ii < INT_MAX ->
  exists n', queue_nodata i st = Ret (set_native n'
      (set_info i (Irq_info (data_list ii) (no_data_count ii + 1) (lock ii)) st)) /\
    sems n' = sems (native st) /\ blocks n' = blocks (native st).
Proof.
  intros Hwf Hi Hc. destruct (wf_line _ _ _ _ _ _ _ Hwf Hi) as [Hl _ Hb].
  pose proof (aget_Some _ _ _ Hi) as Hr. rewrite (wf_len _ _ _ _ _ Hwf) in Hr.
  destruct (lock_ok _ _ Hl) as (n1 & n2 & Hd & Hu & Hs & Hb2).
  exists n2. unfold queue_nodata. rewrite (proj2 (Z.leb_gt NR_IRQS i)) by (unfold NR_IRQS in *; lia).
  simpl. rewrite Hi. simpl. rewrite Hd. simpl. rewrite Hu. simpl.
  rewrite swrap_id; [done | lia |]. unfold INT_MAX in *. pow_lia.
Qed.

Lemma queue_data_ok (i : Z) (ii : irq_info) (d : Z) (st : state) :
  irq_wf st -> aget (irqs st) i = Some ii ->
  (exists n', queue_data i d st = Ret (- ENOMEM, set_native n' st) /\
     sems n' = sems (native st) /\ blocks n' = blocks (native st)) \/
  (exists p n', queue_data i d st = Ret (0, set_native n' (set_info i
       (Irq_info (data_list ii ++ [Irq_data p d]) (no_data_count ii) (lock ii)) st)) /\
     sems n' = sems (native st) /\ blocks (native st) !! p = None /\
     blocks n' = <[p := sizeof_irq_data]> (blocks (native st))).
Proof.
  intros Hwf Hi. destruct (wf_line _ _ _ _ _ _ _ Hwf Hi) as [Hl _ Hb].
  pose proof (aget_Some _ _ _ Hi) as Hr. rewrite (wf_len _ _ _ _ _ Hwf) in Hr.
  unfold queue_data. rewrite (proj2 (Z.leb_gt NR_IRQS i)) by (unfold NR_IRQS in *; lia). simpl.
  destruct (mem_alloc sizeof_irq_data (native st)) as [p n1] eqn:Ha.
  destruct (Z.eqb_spec p NULL) as [->|Hp].
  - left. exists n1. destruct (mem_alloc_null _ _ _ Ha). done.
  - right. destruct (mem_alloc_ok _ _ _ _ Ha Hp) as (Hf & Hb1 & Hs1). simpl. rewrite Hi. simpl.
    destruct (lock_ok (lock ii) n1) as (n2 & n3 & Hd & Hu & Hs & Hb2); [by rewrite Hs1|].
    exists p, n3. rewrite Hd. simpl. rewrite Hu. simpl. split_and!; [done|congruence|done|congruence].
Qed.

Lemma free_nodes_ok (l : list irq_data) (n : N) :
  NoDup (id_addr <$> l) -> Forall (fun p => is_Some (blocks n !! p)) (id_addr <$> l) ->
  exists n', free_nodes l n = Ret n' /\ sems n' = sems n /\
    forall q, blocks n' !! q = if decide (q ∈ id_addr <$> l) then None else blocks n !! q.
Proof.
  revert n. induction l as [|id l IH]; intros n Hnd Hl; simpl.
  { exists n. split_and!; try done. }
  apply NoDup_cons in Hnd as [Hni Hnd]. apply Forall_cons in Hl as [[sz Hsz] Hl].
  destruct (mem_free_ok _ _ _ Hsz) as (n1 & -> & Hb1 & Hs1). simpl.
  destruct (IH n1 Hnd) as (n' & -> & Hs & Hb).
  { rewrite Forall_forall in Hl |- *. intros p Hp. rewrite Hb1, lookup_delete_ne by set_solve.
    by apply Hl. }
  exists n'. split_and!; [done | congruence |]. intros q. rewrite Hb, Hb1.
  destruct (decide (q = id_addr id)) as [->|Hq].
  - rewrite (decide_True (P := id_addr id ∈ id_addr id :: _)) by set_solve.
    case_decide; [done|]. apply lookup_delete_eq.
  - rewrite lookup_delete_ne by done. repeat case_decide; set_solve.
Qed.

Lemma init_lines_ok (k : nat) (n : N) (ls : list irq_info) (n' : N) :
  init_lines k n = Ret (ls, n') ->
  length ls = k /\ blocks n' = blocks n /\ NoDup (lock <$> ls) /\
  Forall (fun ii => data_list ii = [] /\ no_data_count ii = 0 /\
                    sems n !! lock ii = None /\ sems n' !! lock ii = Some 1) ls /\
  (forall q, q ∉ lock <$> ls -> sems n' !! q = sems n !! q).
Proof.
  revert n ls n'. induction k as [|k IH]; intros n ls n' H; simpl in H.
  { res_inv. split_and!; try done; constructor. }
  destruct (sem_alloc 1 n) as [l n1] eqn:Ha.
  destruct (Z.eqb_spec l NULL) as [->|Hl]; [done|]. simpl in H.
  destruct (init_lines k n1) as [[rest n2]| | |] eqn:Hr; simpl in H; try done. res_inv.
  destruct (sem_alloc_ok _ _ _ _ Ha Hl) as (Hf & Hs1 & Hb1).
  destruct (IH _ _ _ Hr) as (Hlen & Hb & Hnd & Hall & Hother).
  assert (l ∉ lock <$> rest) as Hln.
  { intros (ii & -> & Hin)%list_elem_of_fmap. rewrite Forall_forall in Hall.
    destruct (Hall _ Hin) as (_ & _ & HN & _). by rewrite Hs1, lookup_insert_eq in HN. }
  split_and!; simpl.
  - by rewrite Hlen.
  - congruence.
  - by apply NoDup_cons.
  - apply Forall_cons. split.
    + simpl. rewrite (Hother _ Hln), Hs1, lookup_insert_eq. done.
    + eapply Forall_impl; [done|]. intros ii (? & ? & HN & ?). split_and!; try done.
      rewrite Hs1 in HN. by apply lookup_insert_None in HN as [? _].
  - intros q Hq. rewrite Hother, Hs1, lookup_insert_ne by set_solve. done.
Qed.

Lemma free_lines_ok (l : list irq_info) (n : N) :
  NoDup (lock <$> l) -> Forall (fun ii => sems n !! lock ii = Some 1) l ->
  exists n', free_lines l n = Ret n' /\ blocks n' = blocks n /\
    forall q, sems n' !! q = if decide (q ∈ lock <$> l) then None else sems n !! q.
Proof.
  revert n. induction l as [|ii l IH]; intros n Hnd Hl; simpl.
  { exists n. done. }
  apply NoDup_cons in Hnd as [Hni Hnd]. apply Forall_cons in Hl as [Hii Hl].
  destruct (sem_free_ok _ _ _ Hii) as (n1 & -> & Hs1 & Hb1). simpl.
  destruct (IH n1 Hnd) as (n' & -> & Hb & Hs).
  { rewrite Forall_forall in Hl |- *. intros x Hx. rewrite Hs1, lookup_delete_ne; [by apply Hl|].
    intros E. apply Hni. rewrite E. by apply list_elem_of_fmap_2. }
  exists n'. split_and!; [done | congruence |]. intros q. rewrite Hs, Hs1.
  destruct (decide (q = lock ii)) as [->|Hq].
  - rewrite (decide_True (P := lock ii ∈ lock ii :: _)) by set_solve.
    case_decide; [done|]. apply lookup_delete_eq.
  - rewrite lookup_delete_ne by done. repeat case_decide; set_solve.
Qed.

(** The state [init_IRQ] builds, and what it took from the host. *)
Lemma init_IRQ_ok (n : N) (w : K) (st : state) :
  init_IRQ n w = Ret st ->
  let n' := native st in
  length (irqs st) = Z.to_nat NR_IRQS /\ world st = w /\ blocks n' = blocks n /\
  NoDup (sem st :: (lock <$> irqs st)) /\ sems n !! sem st = None /\
  sems n' !! sem st = Some 0 /\
  Forall (fun ii => data_list ii = [] /\ no_data_count ii = 0 /\
                    sems n !! lock ii = None /\ sems n' !! lock ii = Some 1) (irqs st) /\
  (forall q, q ∉ sem st :: (lock <$> irqs st) -> sems n' !! q = sems n !! q).
Proof.
  intros Hinit. unfold init_IRQ in Hinit.
  destruct (sem_alloc 0 n) as [s n1] eqn:Ha.
  destruct (Z.eqb_spec s NULL) as [->|Hs]; [done|]. cbn [res_bind BUG_ON] in Hinit.
  destruct (sem_alloc_ok _ _ _ _ Ha Hs) as (Hf & Hs1 & Hb1).
  destruct (init_lines (Z.to_nat NR_IRQS) n1) as [[ls n2]| | |] eqn:Hr; try done.
  cbn [res_bind] in Hinit. injection Hinit as <-.
  destruct (init_lines_ok _ _ _ _ Hr) as (Hlen & Hb & Hnd & Hall & Hother). simpl.
  assert (s ∉ lock <$> ls) as Hsn.
  { intros (ii & -> & Hin)%list_elem_of_fmap. rewrite Forall_forall in Hall.
    destruct (Hall _ Hin) as (_ & _ & HN & _). by rewrite Hs1, lookup_insert_eq in HN. }
  split_and!; try done.
  - congruence.
  - by apply NoDup_cons.
  - by rewrite Hother, Hs1, lookup_insert_eq.
  - eapply Forall_impl; [done|]. intros ii (? & ? & HN & ?). split_and!; try done.
    rewrite Hs1 in HN. by apply lookup_insert_None in HN as [? _].
  - intros q Hq. by rewrite Hother, Hs1, lookup_insert_ne by set_solve.
Qed.

Lemma init_IRQ_wf (n : N) (w : K) (st : state) :
  ksems w ⊆ dom (sems n) -> kblocks w ⊆ dom (blocks n) -> init_IRQ n w = Ret st ->
  irq_wf st /\ irqs st = drained <$> irqs st.
Proof.
  intros HkS HkB (Hlen & Hw & Hb & Hnd & Hf & Hsem & Hall & Hother)%init_IRQ_ok.
  assert (forall p, sems n !! p = None -> p ∉ ksems w) as Hfresh.
  { intros p Hp%not_elem_of_dom. set_solve. }
  assert (nodes (irqs st) = []) as Hnodes.
  { clear -Hall. induction Hall as [|ii l (E & _) _ IH]; [done|].
    unfold nodes in *. simpl. by rewrite E. }
  split.
  - unfold irq_wf. rewrite Hw. split; rewrite ?Hnodes; try done; try constructor; auto.
    + eapply Forall_impl; [done|]. intros ii (_ & Hc & HN & H1).
      split; [done | by apply Hfresh |]. rewrite Hc. unfold INT_MAX. lia.
    + by exists 0.
    + intros p Hp. apply elem_of_dom. rewrite Hother; [apply elem_of_dom; set_solve|].
      intros [->|(ii & -> & Hin)%list_elem_of_fmap]%elem_of_cons; [by apply Hfresh in Hf|].
      rewrite Forall_forall in Hall. destruct (Hall _ Hin) as (_ & _ & HN & _).
      by apply Hfresh in HN.
    + by rewrite Hb.
  - apply list_eq. intros i. rewrite list_lookup_fmap.
    destruct (irqs st !! i) as [ii|] eqn:E; [|done].
    rewrite Forall_lookup in Hall. destruct (Hall _ _ E) as (H1 & H2 & _).
    destruct ii. simpl in *. by subst.
Qed.

(** ** Properties *)

(** One pass of [run_irqs] serves every interrupt queued when it starts.  With
    a token in the idle semaphore (or once halted) the pass returns; every line
    is left empty, and [do_IRQ] has been called exactly once for each queued
    trigger: line by line, plain triggers first, then the data in arrival order. *)
Theorem run_pass_serves_all (fuel : nat) (st : state) (c : Z) :
  handlers_ok -> irq_wf st -> enough_fuel fuel (irqs st) ->
  sems (native st) !! sem st = Some c -> linux_halted (world st) = true \/ 0 < c ->
  exists st', run_pass fuel st = Ret st' /\ irq_wf st' /\
    irqs st' = drained <$> irqs st /\ irq_regs st' = irq_regs st /\
    delivered st' = delivered st ++ deliveries all_lines (irqs st) None /\
    sems (native st') !! sem st' = Some (if linux_halted (world st) then c else c - 1).
Proof.
  intros Hh Hwf Hf Hc Hgo.
  destruct (run_pass_ok fuel st c Hh Hwf Hf Hc Hgo)
    as (st' & R & W & L & _ & G & _ & D & C & _).
  by exists st'.
Qed.

(** [run_irqs] always ends.  With fuel for the queued triggers and more turns
    than the idle semaphore has tokens, it either sleeps on the semaphore or
    returns with interrupts enabled, all queues empty and a reason to leave the
    loop (a task to schedule or a halted kernel); it never hits a BUG. *)
Theorem run_irqs_total (fuel passes : nat) (st : state) (c : Z) :
  handlers_ok -> irq_wf st -> enough_fuel fuel (irqs st) ->
  sems (native st) !! sem st = Some c -> (Z.to_nat c < passes)%nat ->
  run_irqs fuel passes st = Blocked \/
  exists st', run_irqs fuel passes st = Ret st' /\ irq_wf st' /\
    irqs st' = drained <$> irqs st /\ irqs_enabled st' = 1 /\
    delivered st `prefix_of` delivered st' /\
    (need_resched (world st') || linux_halted (world st') = true).
Proof.
  intros Hh Hwf Hf Hc Hp. unfold run_irqs.
  destruct (run_passes_total fuel passes (local_irq_disable st) c Hh)
    as [->|(st' & -> & W & L & D & E)]; try done; [by left|].
  right. simpl. eexists. split; [done|]. by split_and!.
Qed.

(** [lkl_purge_irq_queue] empties one line and frees exactly its nodes; the
    other lines, every semaphore and every other block stay as they were. *)
Theorem purge_empties_line (i : Z) (ii : irq_info) (st : state) :
  irq_wf st -> aget (irqs st) i = Some ii ->
  exists st', lkl_purge_irq_queue i st = Ret st' /\ irq_wf st' /\
    aget (irqs st') i = Some (drained ii) /\
    (forall j, j <> i -> aget (irqs st') j = aget (irqs st) j) /\
    sems (native st') = sems (native st) /\
    (forall q, blocks (native st') !! q =
       if decide (q ∈ id_addr <$> data_list ii) then None else blocks (native st) !! q).
Proof.
  intros Hwf Hi. destruct (wf_line _ _ _ _ _ _ _ Hwf Hi) as [Hl _ Hb].
  pose proof (aget_Some _ _ _ Hi) as Hr. pose proof Hr as Hr0.
  rewrite (wf_len _ _ _ _ _ Hwf) in Hr.
  unfold lkl_purge_irq_queue. rewrite (proj2 (Z.leb_gt NR_IRQS i)) by (unfold NR_IRQS in *; lia).
  simpl. rewrite Hi. simpl.
  destruct (sem_down_ok _ _ _ Hl ltac:(lia)) as (n1 & -> & Hs1 & Hb1). simpl.
  destruct (nodes_split _ _ _ Hi) as (R & HR & Hx).
  assert (id_addr <$> data_list ii ⊆+ nodes (irqs st)) as Hsub.
  { rewrite HR. by apply submseteq_inserts_r. }
  destruct (free_nodes_ok (data_list ii) n1) as (n2 & -> & Hs2 & Hb2).
  { eapply submseteq_NoDup; [done | apply Hwf]. }
  { rewrite Hb1. pose proof (wf_live _ _ _ _ _ Hwf) as Hlive. rewrite Forall_forall in Hlive |- *.
    intros p Hp. apply Hlive. by eapply elem_of_submseteq. }
  simpl. destruct (sem_up_ok (lock ii) n2 0) as (n3 & -> & Hs3 & Hb3).
  { by rewrite Hs2, Hs1, lookup_insert_eq. } { pose proof sem_max_pos. lia. }
  simpl. assert (sems n3 = sems (native st)) as Hs.
  { rewrite Hs3, Hs2, Hs1, insert_insert_eq. by apply insert_id. }
  eexists. split; [done|]. simpl. split_and!; try done.
  - unfold irq_wf. simpl. rewrite Hs, Hb3.
    eapply (wf_aset _ (blocks (native st))); [done | done | done | done |apply sublist_nil_l | |].
    + intros p Hp Hlive. rewrite Hb2, Hb1, decide_False; [done|]. intros Hin.
      pose proof (wf_nodes _ _ _ _ _ Hwf) as Hnd. rewrite HR in Hnd.
      apply NoDup_app in Hnd as (_ & Hnd & _). apply (Hnd p Hin). rewrite Hx in Hp. exact Hp.
    + intros p Hp. apply elem_of_dom. rewrite Hb2, Hb1, decide_False.
      { apply elem_of_dom. by apply (wf_kblocks _ _ _ _ _ Hwf). }
      intros Hin. pose proof (wf_live _ _ _ _ _ Hwf) as Hlive. rewrite Forall_forall in Hlive.
      by destruct (Hlive p) as [_ ?]; [eapply elem_of_submseteq|].
  - by eapply aget_aset_eq.
  - intros j Hj. apply aget_aset_ne; [lia|done].
  - intros q. by rewrite Hb3, Hb2, Hb1.
Qed.

(** [init_IRQ] followed by [free_IRQ] gives every host resource back.  When
    the allocations of [init_IRQ] succeed its state is well formed with empty
    queues, [free_IRQ] does not fault on it, and afterwards exactly the
    semaphores and blocks from before exist. *)
Theorem init_free_IRQ_roundtrip (n : N) (w : K) (st : state) :
  ksems w ⊆ dom (sems n) -> kblocks w ⊆ dom (blocks n) ->
  init_IRQ n w = Ret st ->
  irq_wf st /\ irqs st = drained <$> irqs st /\ sems (native st) !! sem st = Some 0 /\
  exists n', free_IRQ st = Ret n' /\ sems n' = sems n /\ blocks n' = blocks n.
Proof.
  intros HkS HkB Hinit. pose proof (init_IRQ_wf _ _ _ HkS HkB Hinit) as [Hwf Hd].
  apply init_IRQ_ok in Hinit as (_ & _ & Hb & Hnd & Hf & Hsem & Hall & Hother).
  apply NoDup_cons in Hnd as [Hsn Hnd]. split_and!; try done.
  unfold free_IRQ. destruct (free_lines_ok (irqs st) (native st)) as (n3 & -> & Hb3 & Hs3); [done| |].
  { eapply Forall_impl; [done|]. by intros ii (_ & _ & _ & ?). }
  simpl. destruct (sem_free_ok (sem st) n3 0) as (n4 & -> & Hs4 & Hb4).
  { by rewrite Hs3, decide_False. }
  exists n4. split_and!; [done | | congruence]. apply map_eq. intros q.
  rewrite Hs4, lookup_delete. case_decide; subst; [done|]. rewrite Hs3.
  destruct (decide (q ∈ lock <$> irqs st)) as [(ii & -> & Hin)%list_elem_of_fmap|Hq].
  - rewrite Forall_forall in Hall. by destruct (Hall _ Hin) as (_ & _ & -> & _).
  - apply Hother. set_solve.
Qed.
End irq.

(** ** A concrete instance

    The POSIX host with a bump allocator, a kernel whose world is the flag
    [linux_halted], handlers that do nothing.  The timer line has two pending
    triggers, the system call line one queued datum. *)
Module Demo.
#[local] Instance demo_native : lkl_native_operations posix := posix_native bump_malloc.
#[local] Instance demo_laws : native_laws posix := posix_laws bump_malloc bump_malloc_fresh.

Definition demo_sem (c : Z) : cell := Sem (Pthread_sem false c).
Definition demo_host : posix := Posix
  (<[10 := demo_sem 1]> (<[11 := demo_sem 1]> (<[12 := demo_sem 1]> (<[13 := demo_sem 1]>
    (<[14 := demo_sem 1]> (<[20 := Block sizeof_irq_data]> ∅)))))) [].
Definition demo_lines : list irq_info :=
  [Irq_info [] 2 11; Irq_info [Irq_data 20 77] 0 12; Irq_info [] 0 13; Irq_info [] 0 14].
Definition demo_state : irq_state posix bool :=
  Irq_state demo_host demo_lines 10 1 None false [].

Definition pass_through (nk : posix * bool) : res (posix * bool) := Ret nk.
Definition no_handler (irq : Z) (r : option Z) (nk : posix * bool) : res (posix * bool) := Ret nk.
Definition nothing (k : bool) : gset Z := ∅.

Lemma demo_handlers : handlers_ok pass_through pass_through no_handler id nothing nothing.
Proof.
  intros irq r n k HS HB. exists n, k. split_and!; try done; intros p v ??; done.
Qed.

Lemma demo_wf : irq_wf nothing nothing demo_state.
Proof.
  split.
  - done.
  - repeat constructor; simpl; try done; set_solver.
  - by exists 1.
  - set_solver.
  - by apply (bool_decide_unpack _).
  - by apply (bool_decide_unpack _).
  - repeat constructor; simpl; try done; set_solver.
  - set_solver.
  - set_solver.
Qed.

Lemma demo_fuel : enough_fuel 3 demo_lines.
Proof. repeat constructor; simpl; lia. Qed.

Lemma run_pass_serves_all_witness :
  exists st', run_pass pass_through pass_through no_handler id 3 demo_state = Ret st' /\
    irqs st' = drained <$> demo_lines /\
    delivered st' = [(TIMER_IRQ, None); (TIMER_IRQ, None); (SYSCALL_IRQ, Some 77)].
Proof.
  destruct (run_pass_serves_all pass_through pass_through no_handler id nothing nothing
    3 demo_state 1 demo_handlers demo_wf demo_fuel) as (st' & R & _ & L & _ & D & _);
    [reflexivity | right; lia |].
  exists st'. split; [exact R | split; [exact L | exact D]].
Defined.

Lemma run_irqs_total_witness :
  run_irqs pass_through pass_through no_handler (fun _ => true) id 3 2 demo_state = Blocked \/
  exists st', run_irqs pass_through pass_through no_handler (fun _ => true) id 3 2 demo_state
    = Ret st' /\ irqs_enabled st' = 1.
Proof.
  destruct (run_irqs_total pass_through pass_through no_handler (fun _ => true) id nothing nothing
    3 2 demo_state 1 demo_handlers demo_wf demo_fuel) as [H | (st' & R & _ & _ & E & _)];
    [reflexivity | lia | left; exact H | right; exists st'; split; [exact R | exact E]].
Defined.

Lemma purge_empties_line_witness :
  exists st', lkl_purge_irq_queue SYSCALL_IRQ demo_state = Ret st' /\
    aget (irqs st') SYSCALL_IRQ = Some (Irq_info [] 0 12) /\
    blocks (native st') !! 20 = None.
Proof.
  destruct (purge_empties_line nothing nothing SYSCALL_IRQ (Irq_info [Irq_data 20 77] 0 12)
    demo_state demo_wf eq_refl) as (st' & R & _ & L & _ & _ & B).
  exists st'. split; [exact R | split; [exact L | rewrite B; reflexivity]].
Defined.

Lemma init_free_IRQ_roundtrip_witness :
  exists st n', init_IRQ (Posix ∅ []) false = Ret st /\ free_IRQ st = Ret n' /\
    sems n' = sems (Posix ∅ []).
Proof.
  destruct (init_IRQ (Posix ∅ []) false) as [st| | |] eqn:E; [|vm_compute in E; discriminate..].
  destruct (init_free_IRQ_roundtrip nothing nothing (Posix ∅ []) false st) as (_ & _ & _ & n' & F & S & _);
    [set_solver | set_solver | exact E |].
  exists st, n'. split; [reflexivity | split; [exact F | exact S]].
Defined.
End Demo.
