(* ===== verification/Idle.v ===== *)
(** * The idle loop: [cpu_idle] of arch/lkl/kernel/irq.c

    The first thread of the kernel serves the interrupts and leaves the kernel once it is
    halted.  The counter [loop] decides when: a turn that finds the kernel halted takes one
    off, a turn that ends with work to do puts it back. *)
From S2P Require Import Prelude Native EnvPosix Irq.

Section idle.
Context {N K : Type} {ops : lkl_native_operations N}.
(** The generic layer, as in Irq. *)
Context (irq_enter irq_exit : N * K -> res (N * K)) (__do_IRQ : Z -> option Z -> N * K -> res (N * K)).
Context (need_resched linux_halted : K -> bool).
(** [rcu_done] is set by the callback that [call_rcu] registers; the scheduler and the tick
    act on the host and the kernel. *)
Context (rcu_done : K -> bool) (call_rcu : K -> K).
Context (tick_nohz_stop_sched_tick tick_nohz_restart_sched_tick schedule : N * K -> res (N * K)).
Context (fuel passes : nat).

Abbreviation state := (irq_state N K).
Abbreviation serve := (run_irqs irq_enter irq_exit __do_IRQ need_resched linux_halted fuel passes).

Definition on_nk (f : N * K -> res (N * K)) (st : state) : res state :=
  let! nk := f (native st, world st) in Ret (set_host_world nk st).

(** The body of the loop; [rcu_start] is the static flag. *)
Definition idle_turn (loop : Z) (rcu_start : bool) (st : state) : res (Z * bool * state) :=
  let '(loop, rcu_start, st) :=
    if linux_halted (world st) then
      (loop - 1, true, if rcu_start then st else set_host_world (native st, call_rcu (world st)) st)
    else (loop, rcu_start, st) in
  let! st := on_nk tick_nohz_stop_sched_tick st in
  let! st := serve st in
  if need_resched (world st) || negb (rcu_done (world st)) then
    let loop := if linux_halted (world st) then loop + 1 else loop in
    let! st := on_nk tick_nohz_restart_sched_tick st in
    let! st := on_nk schedule st in
    Ret (loop, rcu_start, st)
  else Ret (loop, rcu_start, st).

(** [while (loop)] *)
Fixpoint idle_loop (turns : nat) (loop : Z) (rcu_start : bool) (st : state) : res state :=
  match turns with
  | O => OutOfFuel
  | S turns =>
      if loop =? 0 then Ret st
      else let! (ls, st) := idle_turn loop rcu_start st in idle_loop turns (fst ls) (snd ls) st
  end.
Definition cpu_idle (turns : nat) (st : state) : res state := idle_loop turns 1 false st.

(** Only [machine_halt] writes [linux_halted], and it sets it. *)
Record halt_stays : Prop := {
  halt_rcu : forall k, linux_halted k = true -> linux_halted (call_rcu k) = true;
  halt_stop : forall n k n' k', tick_nohz_stop_sched_tick (n, k) = Ret (n', k') -> linux_halted k = true -> linux_halted k' = true;
  halt_restart : forall n k n' k', tick_nohz_restart_sched_tick (n, k) = Ret (n', k') -> linux_halted k = true -> linux_halted k' = true;
  halt_schedule : forall n k n' k', schedule (n, k) = Ret (n', k') -> linux_halted k = true -> linux_halted k' = true;
  halt_irqs : forall st st', serve st = Ret st' -> linux_halted (world st) = true -> linux_halted (world st') = true }.

(** What [loop] can be at the top of a turn. *)
Definition loop_inv (loop : Z) (st : state) : Prop :=
  loop = 1 \/ linux_halted (world st) = true /\ (loop = 0 \/ loop = 2).

Lemma on_nk_halted (f : N * K -> res (N * K)) (st st' : state) :
  (forall n k n' k', f (n, k) = Ret (n', k') -> linux_halted k = true -> linux_halted k' = true) ->
  on_nk f st = Ret st' -> linux_halted (world st) = true -> linux_halted (world st') = true.
Proof. intros Hf ([n' k'] & E & [= <-])%res_bind_Ret. by apply (Hf _ _ _ _ E). Qed.

(** A turn keeps [loop] within bounds; it becomes 0 only when nothing is left to do. *)
Lemma idle_turn_inv (loop loop' : Z) (start start' : bool) (st st' : state) :
  halt_stays -> loop <> 0 -> loop_inv loop st -> idle_turn loop start st = Ret (loop', start', st') ->
  loop_inv loop' st' /\
  (loop' = 0 -> need_resched (world st') = false /\ rcu_done (world st') = true).
Proof.
  intros [H1 H2 H3 H4 H5] Hl Hinv E. unfold idle_turn in E.
  set (h := linux_halted (world st)) in *.
  set (x := if h then _ else _) in E.
  assert (exists st0, x = (if h then loop - 1 else loop, if h then true else start, st0) /\ (h = true -> linux_halted (world st0) = true)) as (st0 & Ex & Hh).
  { unfold x. destruct h eqn:Eh; [|by eexists]. eexists. split; [done|]. intros _. destruct start; [done|]. by apply H1. }
  rewrite Ex in E. clear x Ex. apply res_bind_Ret in E as (st1 & E1 & E). apply res_bind_Ret in E as (st2 & E2 & E).
  assert (h = true -> linux_halted (world st2) = true) as Hh2.
  { intros Ht. eapply H5; [exact E2|]. eapply on_nk_halted; [exact H2|exact E1|auto]. }
  assert (loop = 1 \/ h = true /\ loop = 2) as Hinv' by (destruct Hinv as [?|[? [?|?]]]; [by left|done|by right]).
  destruct (need_resched (world st2) || negb (rcu_done (world st2))) eqn:Eb.
  - apply res_bind_Ret in E as (st3 & E3 & E). apply res_bind_Ret in E as (st4 & E4 & [= <- <- <-]).
    assert (linux_halted (world st2) = true -> linux_halted (world st4) = true) as Hh4.
    { intros Ht. eapply on_nk_halted; [exact H4|exact E4|]. by eapply on_nk_halted; [exact H3|exact E3|]. }
    split; [|destruct h; [rewrite Hh2 by done|destruct (linux_halted (world st2))]; lia].
    destruct h; [rewrite Hh2 by done|destruct (linux_halted (world st2)) eqn:E2h].
    + destruct Hinv' as [->|[_ ->]]; [left; lia|]. right. auto.
    + destruct Hinv' as [->|[? _]]; [|done]. right. auto.
    + destruct Hinv' as [->|[? _]]; [|done]. by left.
  - injection E as <- <- <-. apply orb_false_iff in Eb as [Eb1 Eb2%negb_false_iff]. split; [|done].
    destruct h; [|by destruct Hinv' as [->|[? _]]; [left|]]. destruct Hinv' as [->|[_ ->]]; [right; auto|by left].
Qed.

(** A state in which only the exit is left: halted, and turns find nothing to do. *)
Definition settled (P : state -> Prop) : Prop := forall st, P st ->
  linux_halted (world st) = true /\
  exists st', on_nk tick_nohz_stop_sched_tick st = Ret st' /\
    exists st'', serve st' = Ret st'' /\ P st'' /\ need_resched (world st'') = false /\ rcu_done (world st'') = true.

Lemma settled_exit (P : state -> Prop) (turns : nat) (st : state) : settled P -> P st ->
  exists st', P st' /\ idle_loop (S (S turns)) 1 true st = Ret st' /\ idle_loop (S (S (S turns))) 2 true st = idle_loop (S (S turns)) 1 true st'.
Proof.
  intros HP Hst. destruct (HP st Hst) as (Hh & st1 & E1 & st2 & E2 & Hst2 & En & Er). exists st2. split; [done|].
  assert (forall l, idle_turn l true st = Ret (l - 1, true, st2)) as Et.
  { intros l. unfold idle_turn. rewrite Hh. rewrite E1. cbn [res_bind]. rewrite E2. cbn [res_bind]. by rewrite En, Er. }
  split; cbn [idle_loop]; rewrite Et; done.
Qed.

(** The loop between two turns. *)
Definition turn_step (x y : Z * bool * state) : Prop :=
  let '(loop, start, st) := x in loop <> 0 /\ idle_turn loop start st = Ret y.

Lemma idle_loop_quiet (turns : nat) : halt_stays -> forall (loop : Z) (start : bool) (st st' : state),
  loop_inv loop st -> (loop = 0 -> need_resched (world st) = false /\ rcu_done (world st) = true) ->
  idle_loop turns loop start st = Ret st' ->
  linux_halted (world st') = true /\ need_resched (world st') = false /\ rcu_done (world st') = true.
Proof.
  intros Hs. induction turns as [|turns IH]; intros loop start st st' Hinv Hq E; [done|]. cbn [idle_loop] in E.
  destruct (Z.eqb_spec loop 0) as [->|Hl].
  - injection E as <-. destruct Hinv as [?|[? _]]; [done|]. by destruct (Hq eq_refl).
  - apply res_bind_Ret in E as ([[loop' start'] st1] & Et & E).
    destruct (idle_turn_inv _ _ _ _ _ _ Hs Hl Hinv Et) as [Hinv' Hq']. by eapply IH.
Qed.

Lemma turns_inv (m : nat) (x y : Z * bool * state) : halt_stays -> nsteps turn_step m x y ->
  loop_inv (fst (fst x)) (snd x) -> loop_inv (fst (fst y)) (snd y) /\
  forall turns, idle_loop (m + turns) (fst (fst x)) (snd (fst x)) (snd x) = idle_loop turns (fst (fst y)) (snd (fst y)) (snd y).
Proof.
  intros Hs. induction 1 as [x|m [[l st] s] [[l' st'] s'] z [Hl Et] _ IH]; [done|]. simpl in *. intros Hinv.
  destruct (idle_turn_inv _ _ _ _ _ _ Hs Hl Hinv Et) as [Hinv' _]. destruct (IH Hinv') as [Hz Hloop]. split; [done|]. intros turns.
  rewrite (proj2 (Z.eqb_neq _ _) Hl), Et. cbn [res_bind fst snd]. apply Hloop.
Qed.

(** C24: [cpu_idle] leaves the kernel when, and only when, it is halted and nothing is left to
    do.  It returns only with [linux_halted] set, no task to schedule and the RCU callback
    run; and when, after any number of turns, the halted kernel has settled, so that turns
    find nothing to do, it returns after at most two more turns, also when the kernel was
    halted in the middle of a turn and the counter stands at 2. *)
Theorem cpu_idle_leaves_when_quiet : halt_stays ->
  (forall turns st st', cpu_idle turns st = Ret st' ->
    linux_halted (world st') = true /\ need_resched (world st') = false /\ rcu_done (world st') = true) /\
  (forall P m st loop st1, settled P -> nsteps turn_step m (1, false, st) (loop, true, st1) -> P st1 ->
    exists st', cpu_idle (m + 3) st = Ret st' /\ P st').
Proof.
  intros Hs. split.
  - intros turns st st' E. eapply (idle_loop_quiet turns Hs 1 false); [by left|done|exact E].
  - intros P m st loop st1 HP Hn Hst. destruct (turns_inv _ _ _ Hs Hn) as [Hinv Hloop]; [by left|]. simpl in Hinv, Hloop.
    unfold cpu_idle. rewrite Hloop. destruct (settled_exit P 1 st1 HP Hst) as (st2 & H2 & E1 & _).
    destruct (settled_exit P 0 st1 HP Hst) as (st2' & H2' & _ & E2).
    destruct Hinv as [->|[_ [-> | ->]]]; [by exists st2|by exists st1|]. rewrite E2.
    destruct (settled_exit P 0 st2' HP H2') as (st3 & H3 & E3 & _). by exists st3.
Qed.
End idle.

(** Concrete instance: the kernel of the Irq example, halted, with an RCU callback that is
    run by the scheduler. *)
Module IdleDemo.
#[local] Instance idle_native : lkl_native_operations posix := posix_native bump_malloc.
#[local] Instance idle_laws : native_laws posix := posix_laws bump_malloc bump_malloc_fresh.
(** The state of RCU: none, waiting, done. *)
Definition quiet_k (k : Z) : bool := k =? 2.
Definition rcu_call (k : Z) : Z := 1.
Definition keep (nk : posix * Z) : res (posix * Z) := Ret nk.
Definition no_irq (irq : Z) (r : option Z) (nk : posix * Z) : res (posix * Z) := Ret nk.
Definition sched (nk : posix * Z) : res (posix * Z) := Ret (fst nk, if snd nk =? 1 then 2 else snd nk).
Definition never (k : Z) : bool := false.
Definition halted (k : Z) : bool := true.
Definition idle_start : irq_state posix Z :=
  Irq_state (Posix {[1 := Sem (Pthread_sem false 1)]} []) (replicate 4 (Irq_info [] 0 1)) 1 1 None 0 [].
Abbreviation demo_turn := (turn_step keep keep no_irq never halted quiet_k rcu_call keep keep sched 5 5).
Definition idle_done : irq_state posix Z :=
  Irq_state (Posix {[1 := Sem (Pthread_sem false 1)]} []) (replicate 4 (Irq_info [] 0 1)) 1 1 None 2 [].

Lemma cpu_idle_leaves_when_quiet_witness : exists st',
  cpu_idle keep keep no_irq never halted quiet_k rcu_call keep keep sched 5 5 (1 + 3) idle_start = Ret st' /\ st' = idle_done.
Proof.
  destruct (cpu_idle_leaves_when_quiet keep keep no_irq never halted quiet_k rcu_call keep keep sched 5 5) as [_ H]; [by split|].
  apply (H (fun st => st = idle_done) 1%nat idle_start 1 idle_done); [|econstructor; [|constructor]; by split|done].
  intros st ->. split; [done|]. eexists. split; [reflexivity|]. eexists. split; [vm_compute; reflexivity|]. by split_and!.
Defined.
End IdleDemo.
