(* ===== verification/IrqConc.v ===== *)
(** * Interrupt delivery under concurrency

    Native threads run [lkl_trigger_irq] and [lkl_trigger_irq_with_data] while the
    idle thread is anywhere in [run_irqs] (arch/lkl/kernel/irq.c).  A trigger has
    two visible actions: it queues under the lock of the line, then it posts the
    idle semaphore.  The idle thread moves between the lock-protected dequeues,
    the handlers and the wait; a driver may at any point throw away what waits on
    a line ([lkl_purge_irq_queue], called when a network device is stopped).  The
    step relation interleaves these actions in every order; the theorems hold in
    every reachable state. *)
From S2P Require Import Prelude Native EnvPosix Irq.

(** Where the idle thread is.  [Serving] has taken an interrupt off its queue and
    runs [do_IRQ] next; [item] is the datum taken, [None] for a plain trigger. *)
Inductive idle_pc :=
| Outside                                       (** not in [run_irqs] *)
| AtWait                                        (** before [sem_down(sem)] *)
| AtNodata (i : Z) (regs : option Z)            (** [while (dequeue_nodata(i))] *)
| AtData (i : Z) (regs : option Z)              (** [while (dequeue_data(i))] *)
| ServingNodata (i : Z) (regs : option Z)       (** [do_IRQ] of a plain trigger *)
| ServingData (i : Z) (d : Z).                  (** [do_IRQ] of a datum *)

(** [posting] triggers have queued and not yet posted the semaphore.  The last
    three fields are histories: the triggers queued and the handlers run, in
    order, and what left a queue, [true] for a trigger that the idle thread took
    and [false] for one that was purged. *)
Record conc (N K : Type) := Conc {
  c_st : irq_state N K;
  c_pc : idle_pc;
  posting : nat;
  sent : list (Z * option Z);
  served : list (Z * option Z);
  gone : list (bool * (Z * option Z)) }.
Arguments Conc {N K}.
Arguments c_st {N K}.
Arguments c_pc {N K}.
Arguments posting {N K}.
Arguments sent {N K}.
Arguments served {N K}.
Arguments gone {N K}.

Section conc.
Context {N K : Type} {ops : lkl_native_operations N}.
Context (irq_enter irq_exit : N * K -> res (N * K)).
Context (__do_IRQ : Z -> option Z -> N * K -> res (N * K)).
Context (need_resched linux_halted : K -> bool).
Context (ksems kblocks : K -> gset Z).

Abbreviation do_IRQ := (do_IRQ irq_enter irq_exit __do_IRQ).

(** Where the idle thread goes after the last datum of line [i]. *)
Definition next_line (i : Z) (regs : option Z) (k : K) : idle_pc :=
  if i + 1 <? NR_IRQS then AtNodata (i + 1) regs
  else if need_resched k || linux_halted k then Outside else AtWait.

(** What a purge of line [i] throws away. *)
Definition purged (i : Z) (ii : irq_info) : list (bool * (Z * option Z)) :=
  ((fun d : irq_data => (false, (i, Some (id_regs d)))) <$> data_list ii) ++
  replicate (Z.to_nat (no_data_count ii)) (false, (i, None)).
(** The triggers of a history of departures that the idle thread took. *)
Definition handed (l : list (bool * (Z * option Z))) : list (Z * option Z) :=
  omap (fun e : bool * (Z * option Z) => if fst e then Some (snd e) else None) l.

Inductive irq_step : conc N K -> conc N K -> Prop :=
(** a native thread: the locked part of a trigger, then the post *)
| step_queue_nodata st pc m h v l i ii st' :
    aget (irqs st) i = Some ii -> no_data_count ii < INT_MAX ->
    queue_nodata i st = Ret st' ->
    irq_step (Conc st pc m h v l) (Conc st' pc (S m) (h ++ [(i, None)]) v l)
| step_queue_data st pc m h v l i d st' :
    queue_data i d st = Ret (0, st') ->
    irq_step (Conc st pc m h v l) (Conc st' pc (S m) (h ++ [(i, Some d)]) v l)
| step_queue_nomem st pc m h v l i d st' :
    queue_data i d st = Ret (- ENOMEM, st') ->
    irq_step (Conc st pc m h v l) (Conc st' pc m h v l)
| step_post st pc m h v l c n' :
    sems (native st) !! sem st = Some c -> c < sem_max ->
    sem_up (sem st) (native st) = Ret n' ->
    irq_step (Conc st pc (S m) h v l) (Conc (set_native n' st) pc m h v l)
(** a driver throws away what waits on a line *)
| step_purge st pc m h v l i ii st' :
    aget (irqs st) i = Some ii -> lkl_purge_irq_queue i st = Ret st' ->
    irq_step (Conc st pc m h v l) (Conc st' pc m h v (l ++ purged i ii))
(** the idle thread in [run_irqs] *)
| step_enter st m h v l : irq_step (Conc st Outside m h v l) (Conc st AtWait m h v l)
| step_wait st m h v l n' :
    linux_halted (world st) = false -> sem_down (sem st) (native st) = Ret n' ->
    irq_step (Conc st AtWait m h v l) (Conc (set_native n' st) (AtNodata 0 None) m h v l)
| step_nowait st m h v l :
    linux_halted (world st) = true ->
    irq_step (Conc st AtWait m h v l) (Conc st (AtNodata 0 None) m h v l)
| step_nodata st m h v l i r st' :
    dequeue_nodata i st = Ret (0, st') ->
    irq_step (Conc st (AtNodata i r) m h v l) (Conc st' (ServingNodata i r) m h v (l ++ [(true, (i, None))]))
| step_serve_nodata st m h v l i r st' :
    do_IRQ i r st = Ret st' ->
    irq_step (Conc st (ServingNodata i r) m h v l)
             (Conc st' (AtNodata i r) m h (v ++ [(i, None)]) l)
| step_nodata_done st m h v l i r st' :
    dequeue_nodata i st = Ret (- ENOENT, st') ->
    irq_step (Conc st (AtNodata i r) m h v l) (Conc st' (AtData i r) m h v l)
| step_data st m h v l i r d st' :
    dequeue_data i r st = Ret (0, Some d, st') ->
    irq_step (Conc st (AtData i r) m h v l) (Conc st' (ServingData i d) m h v (l ++ [(true, (i, Some d))]))
| step_serve_data st m h v l i d st' :
    do_IRQ i (Some d) st = Ret st' ->
    irq_step (Conc st (ServingData i d) m h v l)
             (Conc st' (AtData i (Some d)) m h (v ++ [(i, Some d)]) l)
| step_data_done st m h v l i r r' st' :
    dequeue_data i r st = Ret (- ENOENT, r', st') ->
    irq_step (Conc st (AtData i r) m h v l) (Conc st' (next_line i r' (world st')) m h v l)
(** anything else the kernel or the host does, away from the interrupt layer *)
| step_other st pc m h v l n' k' :
    keeps (sems (native st)) (sems n') (ksems (world st)) (ksems k') ->
    keeps (blocks (native st)) (blocks n') (kblocks (world st)) (kblocks k') ->
    ksems k' ⊆ dom (sems n') -> kblocks k' ⊆ dom (blocks n') ->
    irq_step (Conc st pc m h v l) (Conc (set_host_world (n', k') st) pc m h v l).

(** ** The invariant *)

(** The lines of the current pass whose plain (data) queue has been passed. *)
Definition passed_plain (pc : idle_pc) (i : Z) : Prop :=
  match pc with
  | Outside | AtWait => True
  | AtNodata j _ | ServingNodata j _ => i < j
  | AtData j _ | ServingData j _ => i <= j
  end.
Definition passed_data (pc : idle_pc) (i : Z) : Prop :=
  match pc with
  | Outside | AtWait => True
  | AtNodata j _ | ServingNodata j _ | AtData j _ | ServingData j _ => i < j
  end.

(** Something is queued that the current pass will not look at again. *)
Definition missed (pc : idle_pc) (l : list irq_info) : Prop :=
  exists i ii, aget l i = Some ii /\
    ((passed_plain pc i /\ no_data_count ii <> 0) \/
     (passed_data pc i /\ data_list ii <> [])).

Definition in_hand (pc : idle_pc) : list (Z * option Z) :=
  match pc with
  | ServingNodata i _ => [(i, None)]
  | ServingData i d => [(i, Some d)]
  | _ => []
  end.

Definition data_of (i : Z) (h : list (Z * option Z)) : list Z :=
  omap (fun e => if decide (fst e = i) then snd e else None) h.
Definition plain_of (i : Z) (h : list (Z * option Z)) : Z :=
  countb (fun e => bool_decide (fst e = i) && negb (bool_decide (is_Some (snd e)))) h.

Record conc_inv (c : conc N K) : Prop := {
  cinv_wf : irq_wf ksems kblocks (c_st c);
  cinv_wake : missed (c_pc c) (irqs (c_st c)) ->
    (exists t, sems (native (c_st c)) !! sem (c_st c) = Some t /\ 0 < t) \/ (0 < posting c)%nat }.

Context {laws : native_laws N}.
#[local] Set Default Proof Using "Type laws".

Abbreviation irq_wf := (irq_wf ksems kblocks).
Abbreviation state := (irq_state N K).

(** What each locked operation did, read off its result. *)
Lemma dequeue_nodata_inv (i r : Z) (st st' : state) :
  irq_wf st -> dequeue_nodata i st = Ret (r, st') ->
  exists ii n', aget (irqs st) i = Some ii /\
    sems n' = sems (native st) /\ blocks n' = blocks (native st) /\
    ((r = 0 /\ 0 < no_data_count ii /\ st' = set_native n' (set_info i
        (Irq_info (data_list ii) (no_data_count ii - 1) (lock ii)) st)) \/
     (r = - ENOENT /\ no_data_count ii = 0 /\ st' = set_native n' st)).
Proof.
  intros Hwf H. destruct (aget (irqs st) i) as [ii|] eqn:Hi.
  2: { unfold dequeue_nodata in H. by rewrite Hi in H. }
  destruct (wf_line _ _ _ _ _ _ _ Hwf Hi) as [_ _ Hc].
  destruct (Z.eq_dec (no_data_count ii) 0) as [E|E].
  - destruct (dequeue_nodata_none ksems kblocks i ii st Hwf Hi E) as (n' & E' & Hs & Hb).
    rewrite E' in H. injection H as <- <-. exists ii, n'. split_and!; auto.
  - destruct (dequeue_nodata_some ksems kblocks i ii st Hwf Hi ltac:(lia)) as (n' & E' & Hs & Hb).
    rewrite E' in H. injection H as <- <-. exists ii, n'. split_and!; auto. left. split_and!; auto. lia.
Qed.

Lemma dequeue_data_inv (i r : Z) (g g' : option Z) (st st' : state) :
  irq_wf st -> dequeue_data i g st = Ret (r, g', st') ->
  exists ii n', aget (irqs st) i = Some ii /\ sems n' = sems (native st) /\
    ((exists id rest, r = 0 /\ data_list ii = id :: rest /\ g' = Some (id_regs id) /\
        blocks n' = delete (id_addr id) (blocks (native st)) /\
        st' = set_native n' (set_info i (Irq_info rest (no_data_count ii) (lock ii)) st)) \/
     (r = - ENOENT /\ data_list ii = [] /\ g' = g /\ blocks n' = blocks (native st) /\
        st' = set_native n' st)).
Proof.
  intros Hwf H. destruct (aget (irqs st) i) as [ii|] eqn:Hi.
  2: { unfold dequeue_data in H. by rewrite Hi in H. }
  destruct (data_list ii) as [|id rest] eqn:E.
  - destruct (dequeue_data_none ksems kblocks i ii g st Hwf Hi E) as (n' & E' & Hs & Hb).
    rewrite E' in H. injection H as <- <- <-. exists ii, n'. split_and!; auto.
    right. by split_and!.
  - destruct (dequeue_data_some ksems kblocks i ii id rest g st Hwf Hi E) as (n' & E' & Hs & Hb).
    rewrite E' in H. injection H as <- <- <-. exists ii, n'. split_and!; auto. left.
    exists id, rest. by split_and!.
Qed.

Lemma queue_data_inv (i d r : Z) (st st' : state) :
  irq_wf st -> queue_data i d st = Ret (r, st') ->
  (r = - ENOMEM /\ exists n', st' = set_native n' st /\ sems n' = sems (native st) /\
     blocks n' = blocks (native st)) \/
  (r = 0 /\ exists ii p n', aget (irqs st) i = Some ii /\ sems n' = sems (native st) /\
     blocks (native st) !! p = None /\
     blocks n' = <[p := sizeof_irq_data]> (blocks (native st)) /\
     st' = set_native n' (set_info i
       (Irq_info (data_list ii ++ [Irq_data p d]) (no_data_count ii) (lock ii)) st)).
Proof.
  intros Hwf H. destruct (aget (irqs st) i) as [ii|] eqn:Hi.
  - destruct (queue_data_ok ksems kblocks i ii d st Hwf Hi)
      as [(n' & E & Hs & Hb)|(p & n' & E & Hs & Hp & Hb)];
      rewrite E in H; injection H as <- <-; [left|right]; split; auto.
    + by exists n'.
    + exists ii, p, n'. by split_and!.
  - unfold queue_data in H. destruct (NR_IRQS <=? i); [done|]. simpl in H.
    destruct (mem_alloc sizeof_irq_data (native st)) as [p n1] eqn:Ha.
    destruct (Z.eqb_spec p NULL) as [->|Hp]; simpl in H; [|by rewrite Hi in H].
    injection H as <- <-. left. split; [done|]. destruct (mem_alloc_null _ _ _ Ha). by exists n1.
Qed.

Lemma purge_inv (i : Z) (ii : irq_info) (st st' : state) :
  irq_wf st -> aget (irqs st) i = Some ii -> lkl_purge_irq_queue i st = Ret st' ->
  irq_wf st' /\ irqs st' = aset (irqs st) i (drained ii) /\ sem st' = sem st /\
  sems (native st') = sems (native st).
Proof.
  intros Hwf Hi H.
  destruct (purge_empties_line ksems kblocks i ii st Hwf Hi) as (st2 & E & W & _ & _ & Hs & _).
  assert (st2 = st') as -> by congruence. split; [done|].
  unfold lkl_purge_irq_queue in H. destruct (NR_IRQS <=? i); [done|]. simpl in H.
  rewrite Hi in H. simpl in H. destruct (sem_down _ _) as [n1| | |]; try done. simpl in H.
  destruct (free_nodes _ _) as [n2| | |]; try done. simpl in H.
  destruct (sem_up _ _) as [n3| | |]; try done. simpl in H. by injection H as <-.
Qed.

(** Every step keeps the queues well formed. *)
Lemma irq_step_wf (c c' : conc N K) :
  handlers_ok irq_enter irq_exit __do_IRQ linux_halted ksems kblocks ->
  irq_step c c' -> irq_wf (c_st c) -> irq_wf (c_st c').
Proof.
  intros Hh Hstep Hwf. destruct Hstep as
    [st pc m h v l i ii st' Hi Hc Hq|st pc m h v l i d st' Hq|st pc m h v l i d st' Hq
    |st pc m h v l t n' Hc Hmax Hu|st pc m h v l i ii st' Hi Hq
    |st m h v l|st m h v l n' Hl Hd|st m h v l Hl
    |st m h v l i r st' Hq|st m h v l i r st' Hq|st m h v l i r st' Hq
    |st m h v l i r d st' Hq|st m h v l i d st' Hq|st m h v l i r r' st' Hq
    |st pc m h v l n' k' HS HB HkS HkB]; simpl in *; try done.
  - destruct (queue_nodata_ok ksems kblocks i ii st Hwf Hi Hc) as (n' & E & Hs & Hb).
    rewrite E in Hq. injection Hq as <-.
    destruct (wf_line _ _ _ _ _ _ _ Hwf Hi) as [_ _ ?].
    unfold Irq.irq_wf. simpl. rewrite Hs, Hb.
    eapply wf_aset; [done | done | done | simpl; lia | done | done | apply Hwf].
  - destruct (queue_data_inv _ _ _ _ _ Hwf Hq) as [[[=] _]|(_ & ii & p & n' & Hi & Hs & Hp & Hb & ->)].
    unfold Irq.irq_wf. simpl. rewrite Hs, Hb. by apply wf_push.
  - destruct (queue_data_inv _ _ _ _ _ Hwf Hq) as [(_ & n' & -> & Hs & Hb)|[[=] _]].
    unfold Irq.irq_wf. simpl. by rewrite Hs, Hb.
  - destruct (wf_sem _ _ _ _ _ Hwf) as (t' & Ht' & Hpos). simplify_eq.
    destruct (sem_up_ok _ _ _ Hc ltac:(lia)) as (n2 & E & Hs & Hb).
    assert (n2 = n') as -> by congruence.
    unfold Irq.irq_wf. simpl. rewrite Hs, Hb. apply wf_count; [done|lia].
  - by apply (purge_inv i ii st).
  - destruct (wf_sem _ _ _ _ _ Hwf) as (t & Ht & Hpos).
    destruct (Z.eq_dec t 0) as [->|Hnz]; [by rewrite (sem_down_blocks _ _ 0) in Hd|].
    destruct (sem_down_ok _ _ _ Ht ltac:(lia)) as (n2 & E & Hs & Hb).
    assert (n2 = n') as -> by congruence.
    unfold Irq.irq_wf. simpl. rewrite Hs, Hb. apply wf_count; [done|lia].
  - destruct (dequeue_nodata_inv _ _ _ _ Hwf Hq) as (ii & n' & Hi & Hs & Hb & [(_ & Hp & ->)|[[=] _]]).
    destruct (wf_line _ _ _ _ _ _ _ Hwf Hi) as [_ _ ?].
    unfold Irq.irq_wf. simpl. rewrite Hs, Hb.
    eapply wf_aset; [done | done | done | simpl; lia | done | done | apply Hwf].
  - destruct (do_IRQ_ok _ _ _ _ _ _ i r st Hh Hwf) as (n2 & k2 & E & _ & W & _).
    rewrite E in Hq. injection Hq as <-. exact W.
  - destruct (dequeue_nodata_inv _ _ _ _ Hwf Hq) as (ii & n' & Hi & Hs & Hb & [[[=] _]|(_ & Hp & ->)]).
    unfold Irq.irq_wf. simpl. by rewrite Hs, Hb.
  - destruct (dequeue_data_inv _ _ _ _ _ _ Hwf Hq)
      as (ii & n' & Hi & Hs & [(id & rest & _ & E & _ & Hb & ->)|[[=] _]]).
    unfold Irq.irq_wf. simpl. rewrite Hs, Hb. by eapply wf_pop.
  - destruct (do_IRQ_ok _ _ _ _ _ _ i (Some d) st Hh Hwf) as (n2 & k2 & E & _ & W & _).
    rewrite E in Hq. injection Hq as <-. exact W.
  - destruct (dequeue_data_inv _ _ _ _ _ _ Hwf Hq)
      as (ii & n' & Hi & Hs & [(id & rest & [=] & _)|(_ & E & _ & Hb & ->)]).
    unfold Irq.irq_wf. simpl. by rewrite Hs, Hb.
  - unfold Irq.irq_wf. simpl. by eapply wf_frame.
Qed.

(** ** No wake-up is lost *)

(** A line that changed in a way the current pass still looks at, or not at all,
    adds nothing to what is missed. *)
Lemma missed_aset (pc pc' : idle_pc) (l : list irq_info) (i : Z) (ii x : irq_info) :
  aget l i = Some ii ->
  (forall j, j <> i -> (passed_plain pc' j -> passed_plain pc j) /\
                       (passed_data pc' j -> passed_data pc j)) ->
  (passed_plain pc' i -> no_data_count x <> 0 -> passed_plain pc i /\ no_data_count ii <> 0) ->
  (passed_data pc' i -> data_list x <> [] -> passed_data pc i /\ data_list ii <> []) ->
  missed pc' (aset l i x) -> missed pc l.
Proof.
  intros Hi Ho Hp Hd (j & y & Hj & Hm). destruct (decide (j = i)) as [->|Hne].
  - rewrite (aget_aset_eq _ _ _ _ Hi) in Hj. injection Hj as <-.
    exists i, ii. split; [done|]. destruct Hm as [[? ?]|[? ?]]; [left|right]; auto.
  - pose proof (aget_Some _ _ _ Hi). rewrite aget_aset_ne in Hj by lia.
    exists j, y. split; [done|]. destruct (Ho j Hne) as [? ?].
    destruct Hm as [[? ?]|[? ?]]; [left|right]; auto.
Qed.

Lemma missed_pc (pc pc' : idle_pc) (l : list irq_info) :
  (forall i ii, aget l i = Some ii ->
     (passed_plain pc' i -> no_data_count ii <> 0 -> passed_plain pc i) /\
     (passed_data pc' i -> data_list ii <> [] -> passed_data pc i)) ->
  missed pc' l -> missed pc l.
Proof.
  intros H (i & ii & Hi & Hm). exists i, ii. split; [done|]. destruct (H i ii Hi) as [? ?].
  destruct Hm as [[? ?]|[? ?]]; [left|right]; auto.
Qed.

(** At the start of a pass nothing has been missed: no line has been passed. *)
Lemma missed_start (l : list irq_info) (r : option Z) : ~ missed (AtNodata 0 r) l.
Proof.
  intros (i & ii & Hi & Hm). pose proof (aget_Some _ _ _ Hi).
  destruct Hm as [[Hp _]|[Hp _]]; simpl in Hp; lia.
Qed.

Lemma missed_next (l : list irq_info) (i : Z) (ii : irq_info) (r : option Z) (k : K) :
  length l = Z.to_nat NR_IRQS -> aget l i = Some ii -> data_list ii = [] ->
  missed (next_line i r k) l -> missed (AtData i r) l.
Proof.
  intros Hlen Hi He. apply missed_pc. intros j jj Hj.
  pose proof (aget_Some _ _ _ Hj) as Hr. rewrite Hlen in Hr. unfold NR_IRQS in Hr.
  assert (data_list jj <> [] -> j <> i) as Hne by (intros ? ->; congruence).
  unfold next_line. destruct (Z.ltb_spec (i + 1) NR_IRQS) as [?|Hge]; simpl.
  - split; [lia|]. intros ? ?%Hne. lia.
  - unfold NR_IRQS in Hge. split; [lia|]. intros _ ?%Hne. lia.
Qed.

Lemma irq_step_wake (c c' : conc N K) :
  handlers_ok irq_enter irq_exit __do_IRQ linux_halted ksems kblocks ->
  irq_step c c' -> conc_inv c ->
  missed (c_pc c') (irqs (c_st c')) ->
  (exists t, sems (native (c_st c')) !! sem (c_st c') = Some t /\ 0 < t) \/ (0 < posting c')%nat.
Proof.
  intros Hh Hstep [Hwf Hw] Hm. destruct Hstep as
    [st pc m h v l i ii st' Hi Hc Hq|st pc m h v l i d st' Hq|st pc m h v l i d st' Hq
    |st pc m h v l t n' Hc Hmax Hu|st pc m h v l i ii st' Hi Hq
    |st m h v l|st m h v l n' Hl Hd|st m h v l Hl
    |st m h v l i r st' Hq|st m h v l i r st' Hq|st m h v l i r st' Hq
    |st m h v l i r d st' Hq|st m h v l i d st' Hq|st m h v l i r r' st' Hq
    |st pc m h v l n' k' HS HB HkS HkB]; simpl in *.
  - right. lia.
  - right. lia.
  - destruct (queue_data_inv _ _ _ _ _ Hwf Hq) as [(_ & n' & -> & Hs & Hb)|[[=] _]].
    simpl in *. rewrite Hs. auto.
  - left. destruct (wf_sem _ _ _ _ _ Hwf) as (t' & Ht' & Hpos). simplify_eq.
    destruct (sem_up_ok _ _ _ Hc ltac:(lia)) as (n2 & E & Hs & Hb).
    assert (n2 = n') as -> by congruence. exists (t + 1). rewrite Hs, lookup_insert_eq.
    split; [done|lia].
  - destruct (purge_inv _ _ _ _ Hwf Hi Hq) as (_ & El & -> & ->). rewrite El in Hm. apply Hw.
    eapply missed_aset; [done| | | |exact Hm]; simpl; auto; done.
  - auto.
  - by apply missed_start in Hm.
  - by apply missed_start in Hm.
  - destruct (dequeue_nodata_inv _ _ _ _ Hwf Hq) as (ii & n' & Hi & Hs & Hb & [(_ & Hp & ->)|[[=] _]]).
    simpl in *. rewrite Hs. apply Hw. eapply missed_aset; [done| | | |exact Hm]; simpl; auto with lia.
  - destruct (do_IRQ_ok _ _ _ _ _ _ i r st Hh Hwf) as (n2 & k2 & E & HS & _ & _).
    rewrite E in Hq. injection Hq as <-. simpl in *. destruct (Hw Hm) as [(t & Ht & Hp)|?]; [left|by right].
    exists t. split; [|done]. by apply HS; [apply (wf_sem_own _ _ _ _ _ Hwf)|].
  - destruct (dequeue_nodata_inv _ _ _ _ Hwf Hq) as (ii & n' & Hi & Hs & Hb & [[[=] _]|(_ & Hp & ->)]).
    simpl in *. rewrite Hs. apply Hw. eapply missed_pc; [|exact Hm]. simpl. intros j jj Hj.
    split; [|done]. intros Hle Hnz. destruct (decide (j = i)) as [->|]; [congruence|lia].
  - destruct (dequeue_data_inv _ _ _ _ _ _ Hwf Hq)
      as (ii & n' & Hi & Hs & [(id & rest & _ & E & _ & Hb & ->)|[[=] _]]).
    simpl in *. rewrite Hs. apply Hw. eapply missed_aset; [done| | | |exact Hm]; simpl; auto with lia.
  - destruct (do_IRQ_ok _ _ _ _ _ _ i (Some d) st Hh Hwf) as (n2 & k2 & E & HS & _ & _).
    rewrite E in Hq. injection Hq as <-. simpl in *. destruct (Hw Hm) as [(t & Ht & Hp)|?]; [left|by right].
    exists t. split; [|done]. by apply HS; [apply (wf_sem_own _ _ _ _ _ Hwf)|].
  - destruct (dequeue_data_inv _ _ _ _ _ _ Hwf Hq)
      as (ii & n' & Hi & Hs & [(id & rest & [=] & _)|(_ & E & -> & Hb & ->)]).
    simpl in *. rewrite Hs. apply Hw. eapply missed_next; [apply Hwf | done | done | exact Hm].
  - destruct (Hw Hm) as [(t & Ht & Hp)|?]; [left|by right].
    exists t. split; [|done]. by apply HS; [apply (wf_sem_own _ _ _ _ _ Hwf)|].
Qed.

(** ** Every trigger is served exactly once *)

Lemma data_of_app (i : Z) (h h' : list (Z * option Z)) : data_of i (h ++ h') = data_of i h ++ data_of i h'.
Proof. apply omap_app. Qed.
Lemma plain_of_app (i : Z) (h h' : list (Z * option Z)) : plain_of i (h ++ h') = plain_of i h + plain_of i h'.
Proof. apply countb_app. Qed.
Lemma data_of_one (i j : Z) (d : option Z) :
  data_of i [(j, d)] = if decide (j = i) then (match d with Some x => [x] | None => [] end) else [].
Proof. unfold data_of. simpl. case_decide; [by destruct d|done]. Qed.
Lemma plain_of_one (i j : Z) (d : option Z) :
  plain_of i [(j, d)] = if decide (j = i) then (match d with Some _ => 0 | None => 1 end) else 0.
Proof.
  unfold plain_of. rewrite countb_cons. simpl. case_decide.
  - rewrite (bool_decide_eq_true_2 (j = i)) by done. by destruct d.
  - rewrite (bool_decide_eq_false_2 (j = i)) by done. done.
Qed.

(** The accounting of one line, as a relation between the histories and a queue. *)
Definition accounts (i : Z) (h v : list (Z * option Z)) (ii : irq_info) : Prop :=
  data_of i h = data_of i v ++ (id_regs <$> data_list ii) /\
  plain_of i h = plain_of i v + no_data_count ii.

Lemma accounts_queue (i j : Z) (d : option Z) (h v : list (Z * option Z)) (l : list irq_info)
    (ii x jj : irq_info) :
  (forall j jj, aget l j = Some jj -> accounts j h v jj) ->
  aget l i = Some ii ->
  (id_regs <$> data_list x) = (id_regs <$> data_list ii) ++ (match d with Some y => [y] | None => [] end) ->
  no_data_count x = no_data_count ii + (match d with Some _ => 0 | None => 1 end) ->
  aget (aset l i x) j = Some jj -> accounts j (h ++ [(i, d)]) v jj.
Proof.
  intros Hacc Hi Hd Hp Hj. unfold accounts.
  rewrite data_of_app, plain_of_app, data_of_one, plain_of_one.
  destruct (decide (i = j)) as [<-|Hne].
  - rewrite (aget_aset_eq _ _ _ _ Hi) in Hj. injection Hj as <-. destruct (Hacc _ _ Hi) as [-> ->].
    rewrite Hd, Hp, app_assoc. split; [done|lia].
  - pose proof (aget_Some _ _ _ Hi). rewrite aget_aset_ne in Hj by lia.
    destruct (Hacc _ _ Hj) as [-> ->]. rewrite app_nil_r. split; [done|lia].
Qed.

Lemma accounts_take (i j : Z) (d : option Z) (h v : list (Z * option Z)) (l : list irq_info)
    (ii x jj : irq_info) :
  (forall j jj, aget l j = Some jj -> accounts j h v jj) ->
  aget l i = Some ii ->
  (id_regs <$> data_list ii) = (match d with Some y => [y] | None => [] end) ++ (id_regs <$> data_list x) ->
  no_data_count ii = no_data_count x + (match d with Some _ => 0 | None => 1 end) ->
  aget (aset l i x) j = Some jj -> accounts j h (v ++ [(i, d)]) jj.
Proof.
  intros Hacc Hi Hd Hp Hj. unfold accounts.
  rewrite data_of_app, plain_of_app, data_of_one, plain_of_one.
  destruct (decide (i = j)) as [<-|Hne].
  - rewrite (aget_aset_eq _ _ _ _ Hi) in Hj. injection Hj as <-. destruct (Hacc _ _ Hi) as [-> ->].
    rewrite Hd, Hp, app_assoc. split; [done|lia].
  - pose proof (aget_Some _ _ _ Hi). rewrite aget_aset_ne in Hj by lia.
    destruct (Hacc _ _ Hj) as [-> ->]. rewrite app_nil_r. split; [done|lia].
Qed.

Lemma data_of_purged (i j : Z) (ii : irq_info) :
  data_of j (snd <$> purged i ii) = if decide (i = j) then id_regs <$> data_list ii else [].
Proof.
  unfold purged. rewrite fmap_app, data_of_app.
  assert (forall m, data_of j (snd <$> replicate m (false, (i, @None Z))) = []) as ->.
  { intros m. unfold data_of. induction m; simpl; [done|]. by case_decide. }
  rewrite app_nil_r. unfold data_of. case_decide as Hij;
    (induction (data_list ii) as [|d l IH]; simpl in *; [done|]); case_decide; try done.
  by f_equal.
Qed.

Lemma plain_of_purged (i j : Z) (ii : irq_info) :
  0 <= no_data_count ii ->
  plain_of j (snd <$> purged i ii) = if decide (i = j) then no_data_count ii else 0.
Proof.
  intros Hc. unfold purged. rewrite fmap_app, plain_of_app.
  assert (forall l, plain_of j (snd <$> ((fun d => (false, (i, Some (id_regs d)))) <$> l)) = 0) as ->.
  { intros l. unfold plain_of. induction l as [|d l IH]; [done|]. rewrite !fmap_cons, countb_cons.
    simpl. by rewrite andb_false_r. }
  destruct (Z_of_nat_complete _ Hc) as [m ->]. rewrite Nat2Z.id. clear Hc.
  induction m as [|m IH]; [by case_decide|]. simpl replicate. rewrite fmap_cons.
  change (plain_of j ([(i, @None Z)] ++ (snd <$> replicate m (false, (i, @None Z)))) =
    if decide (i = j) then Z.of_nat (S m) else 0).
  rewrite plain_of_app, plain_of_one. case_decide; lia.
Qed.

Lemma accounts_purge (i j : Z) (h v : list (Z * option Z)) (l : list irq_info) (ii jj : irq_info) :
  (forall j jj, aget l j = Some jj -> accounts j h v jj) ->
  aget l i = Some ii -> 0 <= no_data_count ii ->
  aget (aset l i (drained ii)) j = Some jj -> accounts j h (v ++ (snd <$> purged i ii)) jj.
Proof.
  intros Hacc Hi Hc Hj. unfold accounts.
  rewrite data_of_app, plain_of_app, data_of_purged, plain_of_purged by done.
  destruct (decide (i = j)) as [<-|Hne].
  - rewrite (aget_aset_eq _ _ _ _ Hi) in Hj. injection Hj as <-. destruct (Hacc _ _ Hi) as [-> ->].
    simpl. rewrite app_nil_r. split; [done|lia].
  - pose proof (aget_Some _ _ _ Hi). rewrite aget_aset_ne in Hj by lia.
    destruct (Hacc _ _ Hj) as [-> ->]. rewrite app_nil_r. split; [done|lia].
Qed.

Lemma handed_app (l l' : list (bool * (Z * option Z))) : handed (l ++ l') = handed l ++ handed l'.
Proof. apply omap_app. Qed.

Lemma handed_purged (i : Z) (ii : irq_info) : handed (purged i ii) = [].
Proof.
  unfold purged. rewrite handed_app.
  assert (forall m, handed (replicate m (false, (i, @None Z))) = []) as -> by by induction 0.
  induction (data_list ii) as [|d l IH]; [done|]. apply IH.
Qed.

Definition once (c : conc N K) : Prop :=
  (forall i ii, aget (irqs (c_st c)) i = Some ii -> accounts i (sent c) (snd <$> gone c) ii) /\
  handed (gone c) = served c ++ in_hand (c_pc c).

Lemma irq_step_once (c c' : conc N K) :
  handlers_ok irq_enter irq_exit __do_IRQ linux_halted ksems kblocks ->
  irq_step c c' -> irq_wf (c_st c) -> once c -> once c'.
Proof.
  intros Hh Hstep Hwf Ho. destruct Hstep as
    [st pc m h v l i ii st' Hi Hc Hq|st pc m h v l i d st' Hq|st pc m h v l i d st' Hq
    |st pc m h v l t n' Hc Hmax Hu|st pc m h v l i ii st' Hi Hq
    |st m h v l|st m h v l n' Hl Hd|st m h v l Hl
    |st m h v l i r st' Hq|st m h v l i r st' Hq|st m h v l i r st' Hq
    |st m h v l i r d st' Hq|st m h v l i d st' Hq|st m h v l i r r' st' Hq
    |st pc m h v l n' k' HS HB HkS HkB]; destruct Ho as [Ho Hd'];
    unfold once in *; simpl in *; try done.
  - destruct (queue_nodata_ok ksems kblocks i ii st Hwf Hi Hc) as (n' & E & Hs & Hb).
    rewrite E in Hq. injection Hq as <-. simpl. split; [|done]. intros j jj.
    eapply accounts_queue; [done | done | simpl; by rewrite app_nil_r | done].
  - destruct (queue_data_inv _ _ _ _ _ Hwf Hq) as [[[=] _]|(_ & ii & p & n' & Hi & Hs & Hp & Hb & ->)].
    simpl. split; [|done]. intros j jj. eapply accounts_queue; [done | done | simpl; by rewrite fmap_app | simpl; lia].
  - destruct (queue_data_inv _ _ _ _ _ Hwf Hq) as [(_ & n' & -> & Hs & Hb)|[[=] _]]. done.
  - destruct (purge_inv _ _ _ _ Hwf Hi Hq) as (_ & El & _ & _).
    destruct (wf_line _ _ _ _ _ _ _ Hwf Hi) as [_ _ ?]. rewrite El, fmap_app. split.
    + intros j jj. apply accounts_purge; [done|done|lia].
    + by rewrite handed_app, handed_purged, Hd', app_nil_r.
  - destruct (dequeue_nodata_inv _ _ _ _ Hwf Hq) as (ii & n' & Hi & Hs & Hb & [(_ & Hp & ->)|[[=] _]]).
    rewrite app_nil_r in Hd'. simpl. rewrite handed_app, Hd', fmap_app. split; [|done].
    intros j jj. eapply accounts_take; [done | done | done | simpl; lia].
  - destruct (do_IRQ_ok _ _ _ _ _ _ i r st Hh Hwf) as (n2 & k2 & E & HS & _ & _).
    rewrite E in Hq. injection Hq as <-. simpl. by rewrite app_nil_r.
  - destruct (dequeue_nodata_inv _ _ _ _ Hwf Hq) as (ii & n' & Hi & Hs & Hb & [[[=] _]|(_ & Hp & ->)]). done.
  - destruct (dequeue_data_inv _ _ _ _ _ _ Hwf Hq)
      as (ii & n' & Hi & Hs & [(id & rest & _ & E & Hg & Hb & ->)|[[=] _]]).
    rewrite app_nil_r in Hd'. simpl. rewrite handed_app, Hd', fmap_app. split; [|done].
    intros j jj. eapply accounts_take; [done | done | | simpl; lia]. injection Hg as ->. by rewrite E.
  - destruct (do_IRQ_ok _ _ _ _ _ _ i (Some d) st Hh Hwf) as (n2 & k2 & E & HS & _ & _).
    rewrite E in Hq. injection Hq as <-. simpl. by rewrite app_nil_r.
  - destruct (dequeue_data_inv _ _ _ _ _ _ Hwf Hq)
      as (ii & n' & Hi & Hs & [(id & rest & [=] & _)|(_ & E & -> & Hb & ->)]).
    simpl. split; [done|]. rewrite Hd'. f_equal.
    unfold next_line. by repeat case_match.
Qed.

Definition conc_init (st : state) : conc N K := Conc st Outside 0 [] [] [].

Lemma conc_reachable (n : N) (w : K) (st : state) (c : conc N K) :
  handlers_ok irq_enter irq_exit __do_IRQ linux_halted ksems kblocks ->
  ksems w ⊆ dom (sems n) -> kblocks w ⊆ dom (blocks n) -> init_IRQ n w = Ret st ->
  rtc irq_step (conc_init st) c -> conc_inv c /\ once c.
Proof.
  intros Hh HkS HkB Hinit Hr.
  destruct (init_IRQ_wf ksems kblocks n w st HkS HkB Hinit) as [Hwf Hd].
  assert (forall i ii, aget (irqs st) i = Some ii -> no_data_count ii = 0 /\ data_list ii = []) as Hz.
  { intros i ii Hi. rewrite Hd, aget_fmap in Hi. destruct (aget (irqs st) i); [|done].
    by injection Hi as <-. }
  assert (conc_inv (conc_init st) /\ once (conc_init st)) as H0.
  { split; [split; [done|]|].
    - intros (i & ii & Hi & Hm). destruct (Hz _ _ Hi). simpl in Hm. tauto.
    - split; [|done]. intros i ii Hi. unfold accounts. destruct (Hz _ _ Hi) as [-> ->]. done. }
  clear Hinit Hwf Hd Hz HkS HkB. induction Hr as [|x y z Hxy Hyz IH]; [done|]. apply IH.
  destruct H0 as [Hinv Honce]. pose proof Hinv as [Hwf _]. split; [split|].
  - by eapply irq_step_wf.
  - by eapply irq_step_wake.
  - by eapply irq_step_once.
Qed.

(** The idle thread moves on its own: the steps of [run_irqs] as a function. *)
Definition idle_move (c : conc N K) : conc N K :=
  match c with
  | Conc st Outside m h v l => Conc st AtWait m h v l
  | Conc st AtWait m h v l =>
      if linux_halted (world st) then Conc st (AtNodata 0 None) m h v l
      else match sem_down (sem st) (native st) with
           | Ret n' => Conc (set_native n' st) (AtNodata 0 None) m h v l
           | _ => c
           end
  | Conc st (AtNodata i r) m h v l =>
      match dequeue_nodata i st with
      | Ret (0, st') => Conc st' (ServingNodata i r) m h v (l ++ [(true, (i, None))])
      | Ret (e, st') => if e =? - ENOENT then Conc st' (AtData i r) m h v l else c
      | _ => c
      end
  | Conc st (ServingNodata i r) m h v l =>
      match do_IRQ i r st with
      | Ret st' => Conc st' (AtNodata i r) m h (v ++ [(i, None)]) l
      | _ => c
      end
  | Conc st (AtData i r) m h v l =>
      match dequeue_data i r st with
      | Ret (0, Some d, st') => Conc st' (ServingData i d) m h v (l ++ [(true, (i, Some d))])
      | Ret (e, r', st') =>
          if e =? - ENOENT then Conc st' (next_line i r' (world st')) m h v l else c
      | _ => c
      end
  | Conc st (ServingData i d) m h v l =>
      match do_IRQ i (Some d) st with
      | Ret st' => Conc st' (AtData i (Some d)) m h (v ++ [(i, Some d)]) l
      | _ => c
      end
  end.

Lemma idle_move_steps (c : conc N K) : rtc irq_step c (idle_move c).
Proof using Type.
  destruct c as [st [| |i r|i r|i r|i d] m h v l]; simpl.
  - apply rtc_once, step_enter.
  - destruct (linux_halted (world st)) eqn:E; [by apply rtc_once, step_nowait|].
    destruct (sem_down _ _) eqn:Ed; try apply rtc_refl. by apply rtc_once, step_wait.
  - destruct (dequeue_nodata i st) as [[e st']| | |] eqn:E; try apply rtc_refl.
    destruct e; [by apply rtc_once, step_nodata|..];
      (case (Z.eqb_spec); [intros Ee; rewrite Ee in E|intros _; apply rtc_refl]);
      by apply rtc_once, step_nodata_done.
  - destruct (dequeue_data i r st) as [[[e r'] st']| | |] eqn:E; try apply rtc_refl.
    destruct e; [destruct r'|..]; try (by apply rtc_once, step_data); try apply rtc_refl;
      (case (Z.eqb_spec); [intros Ee; rewrite Ee in E|intros _; apply rtc_refl]);
      by eapply rtc_once, step_data_done.
  - destruct (do_IRQ i r st) eqn:E; try apply rtc_refl. by apply rtc_once, step_serve_nodata.
  - destruct (do_IRQ i (Some d) st) eqn:E; try apply rtc_refl. by apply rtc_once, step_serve_data.
Qed.

Lemma idle_moves (k : nat) (c : conc N K) : rtc irq_step c (Nat.iter k idle_move c).
Proof using Type. induction k as [|k IH]; [apply rtc_refl|]. simpl. etrans; [exact IH|]. apply idle_move_steps. Qed.

(** ** Properties *)

(** C4: no interrupt is lost.  In every interleaving of triggers with the idle
    thread, if the idle thread is about to sleep in [run_irqs] on an empty
    semaphore and no trigger is between queueing and posting, then every queue
    is empty: the idle thread never sleeps on work. *)
Theorem irq_no_lost_wakeup (n : N) (w : K) (st : state) (c : conc N K) :
  handlers_ok irq_enter irq_exit __do_IRQ linux_halted ksems kblocks ->
  ksems w ⊆ dom (sems n) -> kblocks w ⊆ dom (blocks n) -> init_IRQ n w = Ret st ->
  rtc irq_step (conc_init st) c ->
  c_pc c = AtWait -> posting c = 0%nat -> sems (native (c_st c)) !! sem (c_st c) = Some 0 ->
  irqs (c_st c) = drained <$> irqs (c_st c).
Proof.
  intros Hh HkS HkB Hinit Hr Hpc Hpost Hsem.
  destruct (conc_reachable _ _ _ _ Hh HkS HkB Hinit Hr) as [[Hwf Hwake] _].
  apply aget_ext. intros i. rewrite aget_fmap. destruct (aget (irqs (c_st c)) i) as [ii|] eqn:Hi; [|done].
  assert (~ missed (c_pc c) (irqs (c_st c))) as Hn.
  { intros [(t & Ht & Hp)|Hp]%Hwake; [|lia]. rewrite Hsem in Ht. injection Ht as <-. lia. }
  rewrite Hpc in Hn. unfold missed in Hn. simpl in Hn.
  destruct ii as [dl cnt lk]. simpl. f_equal. unfold drained. simpl.
  assert (dl = []) as ->.
  { destruct dl; [done|]. exfalso. apply Hn. exists i, (Irq_info (i0 :: dl) cnt lk). auto. }
  assert (cnt = 0) as ->; [|done].
  destruct (Z.eq_dec cnt 0); [done|]. exfalso. apply Hn. exists i, (Irq_info [] cnt lk). auto.
Qed.

End conc.

(** ** A concrete instance: the host and handlers of the Irq file's example. *)
Module ConcDemo.
Import Irq.Demo.
#[local] Existing Instance demo_native.
#[local] Existing Instance demo_laws.

Abbreviation dstep :=
  (irq_step pass_through pass_through no_handler (fun _ => false) id nothing nothing).

Definition booted : irq_state posix bool :=
  match init_IRQ (Posix ∅ []) false with Ret st => st | _ => demo_state end.

Lemma booted_ok : init_IRQ (Posix ∅ []) false = Ret booted.
Proof. vm_compute. reflexivity. Qed.

(** A frame arrives and the network device is stopped; then a native thread asks
    for a system call, and the idle thread serves it and goes back to wait. *)
Definition ret_of {A : Type} (m : res A) (a : A) : A := match m with Ret x => x | _ => a end.
Definition frame : irq_state posix bool := snd (ret_of (queue_data ETH_IRQ 7 booted) (0, booted)).
Definition stopped : irq_state posix bool := ret_of (lkl_purge_irq_queue ETH_IRQ frame) booted.
Definition asked : irq_state posix bool := snd (ret_of (queue_data SYSCALL_IRQ 42 stopped) (0, booted)).
Definition posted : irq_state posix bool :=
  set_native (ret_of (sem_up (sem asked) (native asked)) (native asked)) asked.

Definition again : irq_state posix bool :=
  set_native (ret_of (sem_up (sem posted) (native posted)) (native posted)) posted.
Definition both_c : conc posix bool :=
  Conc again Outside 0 [(ETH_IRQ, Some 7); (SYSCALL_IRQ, Some 42)] [] [(false, (ETH_IRQ, Some 7))].

Abbreviation dmove :=
  (idle_move pass_through pass_through no_handler (fun _ => false) id).
(** The idle thread in the handler of the call, and after two passes over the lines. *)
Definition serving_c : conc posix bool := Nat.iter 6 dmove both_c.
Definition idle_c : conc posix bool := Nat.iter 26 dmove both_c.

Lemma both_reachable : rtc dstep (conc_init booted) both_c.
Proof.
  eapply rtc_l.
  { apply (step_queue_data _ _ _ _ _ _ _ booted Outside 0 [] [] [] ETH_IRQ 7 frame).
    vm_compute. reflexivity. }
  eapply rtc_l.
  { apply (step_purge _ _ _ _ _ _ _ frame Outside 1 _ [] [] ETH_IRQ
      (Irq_info [Irq_data 6 7] 0 5) stopped); vm_compute; reflexivity. }
  eapply rtc_l.
  { apply (step_queue_data _ _ _ _ _ _ _ stopped Outside 1 _ [] _ SYSCALL_IRQ 42 asked).
    vm_compute. reflexivity. }
  eapply rtc_l.
  { apply (step_post _ _ _ _ _ _ _ asked Outside 1 _ [] _ 0 (native posted)); by vm_compute. }
  eapply rtc_l; [|apply rtc_refl].
  apply (step_post _ _ _ _ _ _ _ posted Outside 0 _ [] _ 1 (native again)); by vm_compute.
Qed.

(** After two passes nothing is left: the call was served. *)
Lemma irq_no_lost_wakeup_witness :
  served idle_c = [(SYSCALL_IRQ, Some 42)] /\
  irqs (c_st idle_c) = drained <$> irqs (c_st idle_c).
Proof.
  split; [vm_compute; reflexivity|].
  apply (irq_no_lost_wakeup pass_through pass_through no_handler (fun _ => false) id nothing nothing
    (Posix ∅ []) false booted idle_c demo_handlers);
    [set_solver | set_solver | apply booted_ok | | vm_compute; reflexivity..].
  etrans; [apply both_reachable | apply idle_moves].
Defined.

End ConcDemo.
