(* ===== verification/Jhash.v ===== *)
(** * Bob Jenkins' hash: include/linux/jhash.h

    The hash the port uses to find the system call queue of a native thread.
    Three [u32] registers are mixed with wrapping arithmetic. *)
From S2P Require Import Prelude.

Definition JHASH_GOLDEN_RATIO : Z := 0x9e3779b9.

Definition sub32 (a b : Z) : Z := u32 (a - b).
Definition add32 (a b : Z) : Z := u32 (a + b).
Definition shl32 (a n : Z) : Z := u32 (Z.shiftl a n).

(** One line of the macro: [x -= y; x -= z; x ^= e]. *)
Definition mix_step (x y z e : Z) : Z := Z.lxor (sub32 (sub32 x y) z) e.

Definition __jhash_mix (a b c : Z) : Z * Z * Z :=
  let a := mix_step a b c (Z.shiftr c 13) in
  let b := mix_step b c a (shl32 a 8) in
  let c := mix_step c a b (Z.shiftr b 13) in
  let a := mix_step a b c (Z.shiftr c 12) in
  let b := mix_step b c a (shl32 a 16) in
  let c := mix_step c a b (Z.shiftr b 5) in
  let a := mix_step a b c (Z.shiftr c 3) in
  let b := mix_step b c a (shl32 a 10) in
  let c := mix_step c a b (Z.shiftr b 15) in
  (a, b, c).

(** [k[0] + ((u32)k[1] << 8) + ((u32)k[2] << 16) + ((u32)k[3] << 24)] *)
Definition load32 (k0 k1 k2 k3 : Z) : Z :=
  add32 (add32 (add32 k0 (shl32 k1 8)) (shl32 k2 16)) (shl32 k3 24).

(** The [switch (len)] of [jhash]: the cases fall through from [len] down to 1. *)
Definition jhash_tail (k : list Z) (a b c : Z) : Z * Z * Z :=
  let byte i := nth i k 0 in
  let on i x s := if (i <? length k)%nat then add32 x (shl32 (byte i) s) else x in
  let c := on 10%nat c 24 in
  let c := on 9%nat c 16 in
  let c := on 8%nat c 8 in
  let b := on 7%nat b 24 in
  let b := on 6%nat b 16 in
  let b := on 5%nat b 8 in
  let b := on 4%nat b 0 in
  let a := on 3%nat a 24 in
  let a := on 2%nat a 16 in
  let a := on 1%nat a 8 in
  let a := on 0%nat a 0 in
  (a, b, c).

(** [while (len >= 12) ...] on the bytes left, then the tail and the last mix. *)
Fixpoint jhash_loop (length : Z) (k : list Z) (a b c : Z) {struct k} : Z :=
  match k with
  | k0 :: k1 :: k2 :: k3 :: k4 :: k5 :: k6 :: k7 :: k8 :: k9 :: k10 :: k11 :: k =>
      let '(a, b, c) := __jhash_mix (add32 a (load32 k0 k1 k2 k3))
        (add32 b (load32 k4 k5 k6 k7)) (add32 c (load32 k8 k9 k10 k11)) in
      jhash_loop length k a b c
  | _ =>
      let c := add32 c length in
      let '(a, b, c) := jhash_tail k a b c in
      snd (__jhash_mix a b c)
  end.

(** [key] is the list of its [length] bytes, fewer than [2^32]. *)
Definition jhash (key : list Z) (initval : Z) : Z :=
  jhash_loop (u32 (Z.of_nat (length key))) key JHASH_GOLDEN_RATIO JHASH_GOLDEN_RATIO initval.

Fixpoint jhash2_loop (length : Z) (k : list Z) (a b c : Z) {struct k} : Z :=
  match k with
  | k0 :: k1 :: k2 :: k =>
      let '(a, b, c) := __jhash_mix (add32 a k0) (add32 b k1) (add32 c k2) in
      jhash2_loop length k a b c
  | _ =>
      let c := add32 c (u32 (length * 4)) in
      let b := if (1 <? List.length k)%nat then add32 b (nth 1 k 0) else b in
      let a := if (0 <? List.length k)%nat then add32 a (nth 0 k 0) else a in
      snd (__jhash_mix a b c)
  end.

Definition jhash2 (k : list Z) (initval : Z) : Z :=
  jhash2_loop (u32 (Z.of_nat (length k))) k JHASH_GOLDEN_RATIO JHASH_GOLDEN_RATIO initval.

Definition jhash_3words (a b c initval : Z) : Z :=
  snd (__jhash_mix (add32 a JHASH_GOLDEN_RATIO) (add32 b JHASH_GOLDEN_RATIO) (add32 c initval)).
Definition jhash_2words (a b initval : Z) : Z := jhash_3words a b 0 initval.
Definition jhash_1word (a initval : Z) : Z := jhash_3words a 0 0 initval.

(** ** Lemmas *)

Lemma u32_range (z : Z) : in_u 32 (u32 z).
Proof. by apply wrap_range. Qed.

Lemma lxor_range (w a b : Z) : 0 <= w -> in_u w a -> in_u w b -> in_u w (Z.lxor a b).
Proof.
  unfold in_u. intros Hw Ha Hb. split; [apply Z.lxor_nonneg; lia|].
  destruct (Z.eq_dec (Z.lxor a b) 0) as [->|Hnz]; [lia|].
  assert (0 <= Z.lxor a b) by (apply Z.lxor_nonneg; lia).
  apply Z.log2_lt_pow2; [lia|].
  eapply Z.le_lt_trans; [apply Z.log2_lxor; lia|].
  apply Z.max_lub_lt.
  - destruct (Z.eq_dec a 0) as [->|]; [simpl; apply Z.le_neq; split; [done|]|apply Z.log2_lt_pow2; lia].
    intros <-. rewrite Z.pow_0_r in *. assert (b = 0) by lia. subst. done.
  - destruct (Z.eq_dec b 0) as [->|]; [simpl; apply Z.le_neq; split; [done|]|apply Z.log2_lt_pow2; lia].
    intros <-. rewrite Z.pow_0_r in *. assert (a = 0) by lia. subst. done.
Qed.

Lemma shiftr_range (w a n : Z) : 0 <= n -> in_u w a -> in_u w (Z.shiftr a n).
Proof.
  unfold in_u. intros Hn [Ha Hb]. rewrite Z.shiftr_div_pow2 by done. split.
  - apply Z.div_pos; lia.
  - eapply Z.le_lt_trans; [|exact Hb]. apply Z.div_le_upper_bound; [lia|]. nia.
Qed.

Lemma mix_step_range (x y z e : Z) : in_u 32 e -> in_u 32 (mix_step x y z e).
Proof. intros. apply lxor_range; [done | apply u32_range | done]. Qed.

#[export] Hint Resolve u32_range lxor_range shiftr_range mix_step_range : lkl.

Lemma jhash_mix_range (a b c a' b' c' : Z) :
  in_u 32 c -> __jhash_mix a b c = (a', b', c') -> in_u 32 c'.
Proof.
  unfold __jhash_mix. intros Hc [= <- <- <-]. apply mix_step_range.
  apply shiftr_range; [done|]. apply mix_step_range. apply u32_range.
Qed.

(** The hash is a 32-bit value. *)
Lemma jhash_3words_range (a b c initval : Z) : in_u 32 (jhash_3words a b c initval).
Proof.
  unfold jhash_3words.
  destruct (__jhash_mix _ _ _) as [[a' b'] c'] eqn:E. eapply jhash_mix_range; [|exact E].
  apply u32_range.
Qed.

(** ** The word version and the byte version agree *)

(** The bytes of a 32-bit word in little-endian order. *)
Definition bytes_of_word (w : Z) : list Z :=
  [w mod 2 ^ 8; (w / 2 ^ 8) mod 2 ^ 8; (w / 2 ^ 16) mod 2 ^ 8; (w / 2 ^ 24) mod 2 ^ 8].

Lemma add32_l (x y : Z) : add32 (u32 x) y = add32 x y.
Proof. unfold add32, wrap. by rewrite Zplus_mod_idemp_l. Qed.
Lemma add32_add (x y z : Z) : add32 (add32 x y) z = add32 x (y + z).
Proof. unfold add32 at 2. rewrite add32_l. unfold add32. f_equal. lia. Qed.
Lemma add32_r (x y : Z) : add32 x (u32 y) = add32 x y.
Proof. unfold add32, wrap. by rewrite Zplus_mod_idemp_r. Qed.

(** A word is the sum of its shifted bytes. *)
Lemma bytes_sum (w : Z) : in_u 32 w ->
  w mod 2 ^ 8 + Z.shiftl ((w / 2 ^ 8) mod 2 ^ 8) 8 + Z.shiftl ((w / 2 ^ 16) mod 2 ^ 8) 16 +
  Z.shiftl ((w / 2 ^ 24) mod 2 ^ 8) 24 = w.
Proof.
  unfold in_u. intros Hw. rewrite !Z.shiftl_mul_pow2 by done.
  change (2 ^ 8) with 256 in *. change (2 ^ 16) with (256 * 256) in *.
  change (2 ^ 24) with (256 * 256 * 256) in *. change (2 ^ 32) with (256 * 256 * 256 * 256) in *.
  rewrite <- !Z.div_div by lia.
  Z.div_mod_to_equations. lia.
Qed.

Lemma load32_bytes (w : Z) : in_u 32 w ->
  load32 (w mod 2 ^ 8) ((w / 2 ^ 8) mod 2 ^ 8) ((w / 2 ^ 16) mod 2 ^ 8) ((w / 2 ^ 24) mod 2 ^ 8) = w.
Proof.
  intros Hw. unfold load32, shl32. rewrite !add32_r, !add32_add. unfold add32.
  rewrite <- (wrap_id 32 w Hw) at 5. f_equal. rewrite <- (bytes_sum w Hw) at 5. lia.
Qed.

(** Adding the bytes of a word from the top one down adds the word. *)
Lemma add_bytes (x w : Z) : in_u 32 w ->
  add32 (add32 (add32 (add32 x (shl32 ((w / 2 ^ 24) mod 2 ^ 8) 24))
    (shl32 ((w / 2 ^ 16) mod 2 ^ 8) 16)) (shl32 ((w / 2 ^ 8) mod 2 ^ 8) 8))
    (shl32 (w mod 2 ^ 8) 0) = add32 x w.
Proof.
  intros Hw. unfold shl32. rewrite !add32_r, !add32_add, Z.shiftl_0_r.
  f_equal. rewrite <- (bytes_sum w Hw) at 5. lia.
Qed.

Lemma jhash_loop_words (len len' : Z) (ws : list Z) (a b c : Z) :
  u32 (len' * 4) = len -> Forall (in_u 32) ws ->
  jhash_loop len (ws ≫= bytes_of_word) a b c = jhash2_loop len' ws a b c.
Proof.
  intros Hlen. remember (length ws) as n eqn:Hn. revert ws Hn a b c.
  induction n as [n IH] using lt_wf_ind. intros ws Hn a b c Hws.
  destruct ws as [|w0 [|w1 [|w2 ws]]].
  - simpl. by rewrite Hlen.
  - apply Forall_cons in Hws as [H0 _]. simpl. unfold jhash_tail. simpl.
    by rewrite Hlen, add_bytes.
  - apply Forall_cons in Hws as [H0 [H1 _]%Forall_cons]. simpl. unfold jhash_tail. simpl.
    by rewrite Hlen, !add_bytes.
  - apply Forall_cons in Hws as [H0 [H1 [H2 Hws]%Forall_cons]%Forall_cons].
    change ((w0 :: w1 :: w2 :: ws) ≫= bytes_of_word) with
      (bytes_of_word w0 ++ bytes_of_word w1 ++ bytes_of_word w2 ++ (ws ≫= bytes_of_word)).
    cbn [jhash_loop jhash2_loop app bytes_of_word]. rewrite !load32_bytes by done.
    destruct (__jhash_mix _ _ _) as [[a' b'] c']. apply (IH (length ws)); [simpl in *; lia|done|done].
Qed.

(** ** Properties *)

(** The optimised word hash computes the byte hash: for every array of 32-bit
    words, [jhash2] of the words equals [jhash] of their bytes in little-endian
    order, for every initial value. *)
Theorem jhash2_is_jhash (ws : list Z) (initval : Z) :
  Forall (in_u 32) ws -> jhash2 ws initval = jhash (ws ≫= bytes_of_word) initval.
Proof.
  intros Hws. unfold jhash, jhash2. symmetry. apply jhash_loop_words; [|done].
  assert (length (ws ≫= bytes_of_word) = 4 * length ws)%nat as ->.
  { induction ws as [|w ws IH]; [done|]. apply Forall_cons in Hws as [_ Hws].
    rewrite bind_cons, length_app, (IH Hws). simpl. lia. }
  unfold wrap. rewrite Zmult_mod_idemp_l. f_equal. lia.
Qed.

Lemma jhash2_is_jhash_witness :
  jhash2 [0x01020304; 0xffffffff; 7; 0x80000000] 5 =
  jhash [4; 3; 2; 1; 255; 255; 255; 255; 7; 0; 0; 0; 0; 0; 0; 128] 5.
Proof.
  apply (jhash2_is_jhash [0x01020304; 0xffffffff; 7; 0x80000000] 5).
  repeat constructor; lia.
Defined.
