(* ===== verification/Syscalls.v ===== *)
(** * The system call interface: arch/lkl/kernel/syscalls.c

    A native thread calls [lkl_sys_*]; the macro SYSCALL puts a [struct syscall]
    on the thread's stack, raises SYSCALL_IRQ with its address and sleeps on a
    semaphore.  The interrupt handler [syscall_irq] moves the request to a queue;
    a kernel thread in [run_syscalls] (or the workqueue) runs the handler of the
    table, stores the result and posts the semaphore.  A thread may have a queue
    of its own, found through a hash table that a semaphore protects.  The queue
    hash is arch/lkl's, the interrupt queues are those of Irq. *)
From S2P Require Import Prelude Native EnvPosix Irq Jhash.

(** ** System call numbers (include/asm/unistd.h) *)
Inductive call_name :=
| ni_syscall | sync | reboot | write | close | unlink | open | poll | read | lseek | rename
| flock | newfstat | chmod | newlstat | mkdir | rmdir | getdents | newstat | utimes | utime
| nanosleep | mknod | safe_mount | umount | chdir | statfs | chroot | getcwd | chown | umask
| getuid | getgid | socketcall | ioctl | call | access | truncate | lkl_pread64 | lkl_pwrite64
| getpid | stat64 | lstat64 | fstat64.

#[global] Instance call_name_eq_dec : EqDecision call_name.
Proof. solve_decision. Defined.

Definition __NR (c : call_name) : Z :=
  match c with
  | ni_syscall => 0 | sync => 1 | reboot => 2 | write => 3 | close => 4 | unlink => 5
  | open => 6 | poll => 7 | read => 8 | lseek => 9 | rename => 10 | flock => 11
  | newfstat => 12 | chmod => 13 | newlstat => 14 | mkdir => 15 | rmdir => 16
  | getdents => 17 | newstat => 18 | utimes => 19 | utime => 20 | nanosleep => 21
  | mknod => 22 | safe_mount => 23 | umount => 24 | chdir => 25 | statfs => 26
  | chroot => 27 | getcwd => 28 | chown => 29 | umask => 30 | getuid => 31 | getgid => 32
  | socketcall => 33 | ioctl => 34 | call => 35 | access => 36 | truncate => 37
  | lkl_pread64 => 38 | lkl_pwrite64 => 39 | getpid => 40
  | stat64 | lstat64 | fstat64 => 0
  end.
Definition NR_syscalls : Z := 41.

(** The order of the INIT_STE lines of [init_syscall_table]. *)
Definition init_ste (CONFIG_NET : bool) : list call_name :=
  [ni_syscall; sync; reboot; write; close; unlink; open; poll; read; lseek; rename; flock;
   newfstat; chmod; newlstat; mkdir; rmdir; getdents; newstat; utimes; utime; nanosleep;
   mknod; safe_mount; umount; chdir; statfs; chroot; getcwd; chown; umask; getuid; getgid] ++
  (if CONFIG_NET then [socketcall] else []) ++
  [ioctl; call; access; truncate; lkl_pwrite64; lkl_pread64; getpid].

Definition table := list (option call_name).
Definition INIT_STE (t : table) (c : call_name) : table := aset t (__NR c) (Some c).
Definition init_syscall_table (CONFIG_NET : bool) (t : table) : table :=
  foldl INIT_STE t (init_ste CONFIG_NET).

(** ** Data *)

Definition SYSCALL_QUEUE_HASH_SIZE : Z := 113.

(** [struct syscall_queue]: [lh] holds the addresses of the queued requests. *)
Record syscall_queue := Syscall_queue { lh : list Z; thread : Z }.

(** [struct syscall]; the list node and the work item are in a union. *)
Record syscall := Syscall { no : Z; params : list Z; ret : Z; sc_sem : Z; queue : Z }.

(** The globals of syscalls.c and the objects they reach.  [works] is the
    workqueue of the kernel, [stack] the argument arrays on native stacks, [rest]
    everything else in the kernel. *)
Record sys (W : Type) := Sys {
  syscall_table : table;
  calls : gmap Z syscall;
  squeues : gmap Z syscall_queue;
  syscall_queue_hash : list (list Z);
  syscall_queue_hash_lock : Z;
  default_queue : Z;
  works : list Z;
  halt_sem : Z;
  stack : gmap Z (list Z);
  rest : W }.
Arguments Sys {W}.
Arguments syscall_table {W}.
Arguments calls {W}.
Arguments squeues {W}.
Arguments syscall_queue_hash {W}.
Arguments syscall_queue_hash_lock {W}.
Arguments default_queue {W}.
Arguments works {W}.
Arguments halt_sem {W}.
Arguments stack {W}.
Arguments rest {W}.

Section setters.
Context {W : Type}.
Definition set_table (x : table) (k : sys W) : sys W :=
  Sys x (calls k) (squeues k) (syscall_queue_hash k) (syscall_queue_hash_lock k)
    (default_queue k) (works k) (halt_sem k) (stack k) (rest k).
Definition set_calls (x : gmap Z syscall) (k : sys W) : sys W :=
  Sys (syscall_table k) x (squeues k) (syscall_queue_hash k) (syscall_queue_hash_lock k)
    (default_queue k) (works k) (halt_sem k) (stack k) (rest k).
Definition set_squeues (x : gmap Z syscall_queue) (k : sys W) : sys W :=
  Sys (syscall_table k) (calls k) x (syscall_queue_hash k) (syscall_queue_hash_lock k)
    (default_queue k) (works k) (halt_sem k) (stack k) (rest k).
Definition set_hash (x : list (list Z)) (k : sys W) : sys W :=
  Sys (syscall_table k) (calls k) (squeues k) x (syscall_queue_hash_lock k)
    (default_queue k) (works k) (halt_sem k) (stack k) (rest k).
Definition set_hash_lock (x : Z) (k : sys W) : sys W :=
  Sys (syscall_table k) (calls k) (squeues k) (syscall_queue_hash k) x
    (default_queue k) (works k) (halt_sem k) (stack k) (rest k).
Definition set_default_queue (x : Z) (k : sys W) : sys W :=
  Sys (syscall_table k) (calls k) (squeues k) (syscall_queue_hash k) (syscall_queue_hash_lock k)
    x (works k) (halt_sem k) (stack k) (rest k).
Definition set_works (x : list Z) (k : sys W) : sys W :=
  Sys (syscall_table k) (calls k) (squeues k) (syscall_queue_hash k) (syscall_queue_hash_lock k)
    (default_queue k) x (halt_sem k) (stack k) (rest k).
Definition set_halt_sem (x : Z) (k : sys W) : sys W :=
  Sys (syscall_table k) (calls k) (squeues k) (syscall_queue_hash k) (syscall_queue_hash_lock k)
    (default_queue k) (works k) x (stack k) (rest k).
Definition set_stack (x : gmap Z (list Z)) (k : sys W) : sys W :=
  Sys (syscall_table k) (calls k) (squeues k) (syscall_queue_hash k) (syscall_queue_hash_lock k)
    (default_queue k) (works k) (halt_sem k) x (rest k).
Definition set_rest (x : W) (k : sys W) : sys W :=
  Sys (syscall_table k) (calls k) (squeues k) (syscall_queue_hash k) (syscall_queue_hash_lock k)
    (default_queue k) (works k) (halt_sem k) (stack k) x.
End setters.

(** [jhash_2words(((u64)(u32)thread) >> 32, ((u64)(u32)thread) & 0xffffffff, 0) % 113] *)
Definition syscall_queue_hash_head (thread : Z) : Z :=
  jhash_2words (u32 (Z.shiftr (u64 (u32 thread)) 32))
    (u32 (Z.land (u64 (u32 thread)) 0xffffffff)) 0 mod SYSCALL_QUEUE_HASH_SIZE.

(** [hlist_for_each] over one bucket of the hash. *)
Fixpoint find_queue (qs : gmap Z syscall_queue) (l : list Z) (t : Z) : res (option Z) :=
  match l with
  | [] => Ret None
  | q :: l =>
      let! sq := deref (qs !! q) in
      if thread sq =? t then Ret (Some q) else find_queue qs l t
  end.

(** Missing initialisers of [.params = { _params }] are zero. *)
Definition pad6 (l : list Z) : list Z := take 6 (l ++ replicate 6 0).

(** ** Copying the arguments of mount: [sys_safe_mount]

    [__get_free_page] and [free_page] of mm/page_alloc.c, [strcpy] into a page and
    [sys_mount] act on the host and the rest of the kernel. *)
Section mount.
Context {S : Type}.
Context (__get_free_page : S -> Z * S) (free_page : Z -> S -> res S).
Context (strcpy : Z -> Z -> S -> res S) (sys_mount : list Z -> S -> res (Z * S)).

(** One of the three blocks [if (p) { ... }]; [None] is the jump to [out_free]. *)
Definition copy_arg (p : Z) (s : S) : res (option Z * S) :=
  if p =? NULL then Ret (Some 0, s)
  else
    let '(page, s) := __get_free_page s in
    if page =? 0 then Ret (None, s)
    else let! s := strcpy page p s in Ret (Some page, s).

Definition free_arg (page : Z) (s : S) : res S :=
  if page =? 0 then Ret s else free_page page s.

Definition out_free (err _dev_name _type _data : Z) (s : S) : res (Z * S) :=
  let! s := free_arg _dev_name s in
  let! s := free_arg _type s in
  let! s := free_arg _data s in
  Ret (err, s).

Definition sys_safe_mount (dev_name dir_name type flags data : Z) (s : S) : res (Z * S) :=
  let! (o, s) := copy_arg dev_name s in
  match o with
  | None => out_free (- ENOMEM) 0 0 0 s
  | Some _dev_name =>
      let! (o, s) := copy_arg type s in
      match o with
      | None => out_free (- ENOMEM) _dev_name 0 0 s
      | Some _type =>
          let! (o, s) := copy_arg data s in
          match o with
          | None => out_free (- ENOMEM) _dev_name _type 0 s
          | Some _data =>
              let! (err, s) := sys_mount [_dev_name; dir_name; _type; flags; _data] s in
              out_free (s32 err) _dev_name _type _data s
          end
      end
  end.
End mount.

(** ** Operations *)
Section syscalls.
Context {N W : Type} {ops : lkl_native_operations N}.

(** Code outside this file that the system calls reach: the handlers of the
    generic kernel, [sys_pread64], [sys_pwrite64] and [sys_mount], a call through
    a function pointer, the page and slab allocators. *)
Context (sys_handler : call_name -> list Z -> N * W -> res (Z * (N * W))).
Context (sys_pread64 sys_pwrite64 : list Z -> N * W -> res (Z * (N * W))).
Context (call_pointer : Z -> list Z -> N * W -> res (Z * (N * W))).
Context (__get_free_page : N * W -> Z * (N * W)) (free_page : Z -> N * W -> res (N * W)).
Context (strcpy : Z -> Z -> N * W -> res (N * W)).
Context (sys_mount : list Z -> N * W -> res (Z * (N * W))).
Context (kmalloc : Z -> N * W -> Z * (N * W)) (kfree : Z -> N * W -> res (N * W)).
Definition sizeof_syscall_queue : Z := 64.

Abbreviation hk := (N * sys W)%type.

(** Runs code of the rest of the kernel in a state of this file. *)
Definition with_rest {A : Type} (f : N * W -> res (A * (N * W))) (nk : hk) : res (A * hk) :=
  let! (a, (n, w)) := f (fst nk, rest (snd nk)) in
  Ret (a, (n, set_rest w (snd nk))).

Definition get_syscall_queue (thread : Z) (nk : hk) : res (Z * hk) :=
  let '(n, k) := nk in
  let! n := sem_down (syscall_queue_hash_lock k) n in
  let! head := deref (aget (syscall_queue_hash k) (syscall_queue_hash_head thread)) in
  let! r := find_queue (squeues k) head thread in
  let! n := sem_up (syscall_queue_hash_lock k) n in
  Ret (match r with Some q => q | None => default_queue k end, (n, k)).

Definition new_syscall_queue (thread : Z) (nk : hk) : res (Z * hk) :=
  let '(sq, (n, w)) := kmalloc sizeof_syscall_queue (fst nk, rest (snd nk)) in
  let k := set_rest w (snd nk) in
  if sq =? NULL then Ret (NULL, (n, k))
  else
    let k := set_squeues (<[sq := Syscall_queue [] thread]> (squeues k)) k in
    let! n := sem_down (syscall_queue_hash_lock k) n in
    let i := syscall_queue_hash_head thread in
    let! head := deref (aget (syscall_queue_hash k) i) in
    let k := set_hash (aset (syscall_queue_hash k) i (sq :: head)) k in
    let! n := sem_up (syscall_queue_hash_lock k) n in
    Ret (sq, (n, k)).

(** [hlist_del] unlinks the node from the bucket it is in. *)
Definition del_syscall_queue (sq : Z) (nk : hk) : res hk :=
  let '(n, k) := nk in
  let! n := sem_down (syscall_queue_hash_lock k) n in
  let! q := deref (squeues k !! sq) in
  let i := syscall_queue_hash_head (thread q) in
  let! head := deref (aget (syscall_queue_hash k) i) in
  let k := set_hash (aset (syscall_queue_hash k) i (filter (fun q => q <> sq) head)) k in
  let! n := sem_up (syscall_queue_hash_lock k) n in
  let k := set_squeues (delete sq (squeues k)) k in
  let! (n, w) := kfree sq (n, rest k) in
  Ret (n, set_rest w k).

(** The head is the list of the queue [q]; NULL when it is empty. *)
Definition dequeue_syscall (q : Z) (k : sys W) : res (Z * sys W) :=
  let! sq := deref (squeues k !! q) in
  match lh sq with
  | [] => Ret (NULL, k)
  | s :: l => Ret (s, set_squeues (<[q := Syscall_queue l (thread sq)]> (squeues k)) k)
  end.

(** *** The handlers of the table *)
Definition sys_ni_syscall : Z := - ENOSYS.
Definition sys_call (_f a1 a2 a3 a4 a5 : Z) (s : N * W) : res (Z * (N * W)) :=
  call_pointer _f [a1; a2; a3; a4; a5] s.
Definition position (pos_hi pos_lo : Z) : Z := s64 (s64 (Z.shiftl pos_hi 32) + pos_lo).
Definition sys_lkl_pwrite64 (fd buf count pos_hi pos_lo : Z) (s : N * W) : res (Z * (N * W)) :=
  sys_pwrite64 [fd; buf; count; position pos_hi pos_lo] s.
Definition sys_lkl_pread64 (fd buf count pos_hi pos_lo : Z) (s : N * W) : res (Z * (N * W)) :=
  sys_pread64 [fd; buf; count; position pos_hi pos_lo] s.

(** The call through the table: the six longs become the parameters of the
    handler, so an [unsigned int] one keeps the low 32 bits of its long. *)
Definition run_handler (c : call_name) (p : list Z) (s : N * W) : res (Z * (N * W)) :=
  match c, p with
  | ni_syscall, _ => Ret (sys_ni_syscall, s)
  | call, [p0; p1; p2; p3; p4; p5] => sys_call p0 p1 p2 p3 p4 p5 s
  | safe_mount, [p0; p1; p2; p3; p4; p5] =>
      sys_safe_mount __get_free_page free_page strcpy sys_mount p0 p1 p2 (u64 p3) p4 s
  | lkl_pwrite64, [p0; p1; p2; p3; p4; p5] => sys_lkl_pwrite64 (u32 p0) p1 (u64 p2) p3 p4 s
  | lkl_pread64, [p0; p1; p2; p3; p4; p5] => sys_lkl_pread64 (u32 p0) p1 (u64 p2) p3 p4 s
  | _, _ => sys_handler c p s
  end.

(** The choice of [run_syscall]: the result before it is stored. *)
Definition syscall_result (s : syscall) (nk : hk) : res (Z * hk) :=
  if (no s <? 0) || (NR_syscalls <=? no s) then Ret (- ENOSYS, nk)
  else
    let! entry := deref (aget (syscall_table (snd nk)) (no s)) in
    match entry with
    | None => Ret (- ENOSYS, nk)
    | Some c => with_rest (run_handler c (params s)) nk
    end.

(** [int ret]: the long a handler returns is cut to 32 bits, then stored. *)
Definition store_result (p : Z) (nk : hk) : res (Z * hk) :=
  let! s := deref (calls (snd nk) !! p) in
  let! (r, (n, k)) := syscall_result s nk in
  let ret := s32 r in
  Ret (ret, (n, set_calls (<[p := Syscall (no s) (params s) ret (sc_sem s) (queue s)]> (calls k)) k)).

(** [if (s->sem) lkl_nops->sem_up(s->sem)] *)
Definition wake_caller (p : Z) (nk : hk) : res hk :=
  let! s := deref (calls (snd nk) !! p) in
  if sc_sem s =? NULL then Ret nk
  else let! n := sem_up (sc_sem s) (fst nk) in Ret (n, snd nk).

Definition run_syscall (p : Z) (nk : hk) : res (Z * hk) :=
  let! (ret, nk) := store_result p nk in
  let! nk := wake_caller p nk in
  Ret (ret, nk).

(** The workqueue takes its first item and runs [run_syscall_work]. *)
Definition run_syscall_work (nk : hk) : res hk :=
  match works (snd nk) with
  | [] => Blocked
  | s :: l => let! (_, nk) := run_syscall s (fst nk, set_works l (snd nk)) in Ret nk
  end.

(** What follows the [break] of [run_syscalls]. *)
Definition run_syscalls_exit (sq s : Z) (nk : hk) : res hk :=
  let! (n, k) := del_syscall_queue sq nk in
  let! c := deref (calls k !! s) in
  let k := set_calls (<[s := Syscall (no c) (params c) 0 (sc_sem c) (queue c)]> (calls k)) k in
  let! n := sem_up (sc_sem c) n in
  Ret (n, k).

(** One turn of [while (1)]; [true] when the loop goes on.  An empty queue is the
    sleep of [wait_event]. *)
Definition run_syscalls_turn (sq : Z) (nk : hk) : res (bool * hk) :=
  let '(n, k) := nk in
  let! (s, k) := dequeue_syscall sq k in
  if s =? NULL then Blocked
  else
    let! c := deref (calls k !! s) in
    if no c =? __NR reboot then
      let! nk := run_syscalls_exit sq s (n, k) in Ret (false, nk)
    else let! (_, nk) := run_syscall s (n, k) in Ret (true, nk).

Fixpoint run_syscalls_loop (fuel : nat) (sq : Z) (nk : hk) : res hk :=
  match fuel with
  | O => OutOfFuel
  | S fuel =>
      let! (more, nk) := run_syscalls_turn sq nk in
      if more : bool then run_syscalls_loop fuel sq nk else Ret nk
  end.

(** The argument is NULL in the init thread; [do_exit] does not return. *)
Definition run_syscalls (fuel : nat) (_sq : Z) (nk : hk) : res hk :=
  let sq := if _sq =? NULL then default_queue (snd nk) else _sq in
  run_syscalls_loop fuel sq nk.

(** [list_add] puts the request first; [wake_up] lets [wait_event] look again. *)
Definition syscall_irq (regs : option Z) (nk : hk) : res hk :=
  let '(n, k) := nk in
  let! p := deref regs in
  let! s := deref (calls k !! p) in
  if queue s =? NULL then Ret (n, set_works (works k ++ [p]) k)
  else
    let! sq := deref (squeues k !! queue s) in
    Ret (n, set_squeues (<[queue s := Syscall_queue (p :: lh sq) (thread sq)]> (squeues k)) k).

(** *** The native side

    [frame] is the address of the [struct syscall] on the stack of the calling
    thread.  [others] is what the other threads do while it sleeps in the
    [sem_down] of the macro.  [thread_id] is [None] when the host has no such
    callback. *)
Context (others : irq_state N (sys W) -> res (irq_state N (sys W))).
Context (thread_id : option Z) (frame : Z).

Abbreviation state := (irq_state N (sys W)).

(** The initialised [struct syscall] and its semaphore; NULL when there is none. *)
Definition post_syscall (q nr : Z) (p : list Z) (nk : hk) : Z * hk :=
  let '(sem, n) := sem_alloc 0 (fst nk) in
  let s := Syscall nr (pad6 p) 0 sem q in
  (sem, (n, set_calls (<[frame := s]> (calls (snd nk))) (snd nk))).

(** The frame of the macro goes away with the function that called it. *)
Definition drop_frame (k : sys W) : sys W := set_calls (delete frame (calls k)) k.

(** From the wake-up to the end of the macro. *)
Definition end_syscall (nk : hk) : res (Z * hk) :=
  let '(n, k) := nk in
  let! s := deref (calls k !! frame) in
  let! n := sem_down (sc_sem s) n in
  let! n := sem_free (sc_sem s) n in
  Ret (ret s, (n, drop_frame k)).

Definition on_kernel {A : Type} (f : hk -> res (A * hk)) (st : state) : res (A * state) :=
  let! (a, nk) := f (native st, world st) in
  Ret (a, set_host_world nk st).

(** [inl] is the [return -ENOMEM] out of the calling function. *)
Definition SYSCALL_VIA_QUEUE (q : Z) (c : call_name) (p : list Z) (st : state)
  : res ((Z + Z) * state) :=
  let '(sem, nk) := post_syscall q (__NR c) p (native st, world st) in
  if sem =? NULL
  then Ret (inl (- ENOMEM), set_host_world (fst nk, drop_frame (snd nk)) st)
  else
    let! (_, st) := lkl_trigger_irq_with_data SYSCALL_IRQ frame (set_host_world nk st) in
    let! st := others st in
    let! (r, st) := on_kernel end_syscall st in
    Ret (inr r, st).

Definition syscall_target (st : state) : res (Z * state) :=
  match thread_id with
  | Some t => on_kernel (get_syscall_queue t) st
  | None => Ret (default_queue (world st), st)
  end.

(** [return SYSCALL(...)]: the result passes through an [int]. *)
Definition SYSCALL (c : call_name) (p : list Z) (st : state) : res (Z * state) :=
  let! (q, st) := syscall_target st in
  let! (r, st) := SYSCALL_VIA_QUEUE q c p st in
  match r with
  | inl e => Ret (e, st)
  | inr r => Ret (s32 r, st)
  end.

Definition SYSCALL_VIA_WORKQUEUE := SYSCALL_VIA_QUEUE NULL.

(** *** The [lkl_sys_*] functions

    Arguments have the value of their C type; a pointer or a [size_t] becomes a
    long in the parameter array. *)
Definition lkl_sys_sync : state -> res (Z * state) := SYSCALL sync [].
Definition lkl_sys_umount (path flags : Z) := SYSCALL umount [s64 path; flags].
Definition lkl_sys_write (fd buf count : Z) := SYSCALL write [fd; s64 buf; s64 count].
Definition lkl_sys_close (fd : Z) := SYSCALL close [fd].
Definition lkl_sys_unlink (pathname : Z) := SYSCALL unlink [s64 pathname].
Definition lkl_sys_open (filename flags mode : Z) := SYSCALL open [s64 filename; flags; mode].
Definition lkl_sys_poll (ufds nfds timeout : Z) := SYSCALL poll [s64 ufds; nfds; timeout].
Definition lkl_sys_read (fd buf count : Z) := SYSCALL read [fd; s64 buf; s64 count].
Definition lkl_sys_lseek (fd offset origin : Z) := SYSCALL lseek [fd; offset; origin].
Definition lkl_sys_rename (oldname newname : Z) := SYSCALL rename [s64 oldname; s64 newname].
Definition lkl_sys_flock (fd cmd : Z) := SYSCALL flock [fd; cmd].
Definition lkl_sys_newfstat (fd statbuf : Z) := SYSCALL newfstat [fd; s64 statbuf].
Definition lkl_sys_fstat64 (fd statbuf : Z) := SYSCALL fstat64 [fd; s64 statbuf].
Definition lkl_sys_chmod (filename mode : Z) := SYSCALL chmod [s64 filename; mode].
Definition lkl_sys_newlstat (filename statbuf : Z) := SYSCALL newlstat [s64 filename; s64 statbuf].
Definition lkl_sys_lstat64 (filename statbuf : Z) := SYSCALL lstat64 [s64 filename; s64 statbuf].
Definition lkl_sys_mkdir (pathname mode : Z) := SYSCALL mkdir [s64 pathname; mode].
Definition lkl_sys_rmdir (pathname : Z) := SYSCALL rmdir [s64 pathname].
Definition lkl_sys_getdents (fd dirent count : Z) := SYSCALL getdents [fd; s64 dirent; count].
Definition lkl_sys_newstat (filename statbuf : Z) := SYSCALL newstat [s64 filename; s64 statbuf].
Definition lkl_sys_stat64 (filename statbuf : Z) := SYSCALL stat64 [s64 filename; s64 statbuf].
Definition lkl_sys_utimes (filename utimes : Z) := SYSCALL utime [s64 filename; s64 utimes].
Definition lkl_sys_mount (dev mnt_point fs flags data : Z) :=
  SYSCALL safe_mount [s64 dev; s64 mnt_point; s64 fs; s64 flags; s64 data].
Definition lkl_sys_chdir (dir : Z) := SYSCALL chdir [s64 dir].
Definition lkl_sys_mknod (filename mode dev : Z) := SYSCALL mknod [s64 filename; mode; dev].
Definition lkl_sys_chroot (dir : Z) := SYSCALL chroot [s64 dir].
Definition lkl_sys_nanosleep (rqtp rmtp : Z) := SYSCALL nanosleep [s64 rqtp; s64 rmtp].
Definition lkl_sys_getcwd (buf size : Z) := SYSCALL getcwd [s64 buf; s64 size].
Definition lkl_sys_utime (filename buf : Z) := SYSCALL utime [s64 filename; s64 buf].
Definition lkl_sys_ioctl (fd cmd arg : Z) := SYSCALL ioctl [fd; cmd; s64 arg].
Definition lkl_sys_umask (mask : Z) := SYSCALL umask [mask].
Definition lkl_sys_getuid : state -> res (Z * state) := SYSCALL getuid [].
Definition lkl_sys_getgid : state -> res (Z * state) := SYSCALL getgid [].
Definition lkl_sys_call (f a1 a2 a3 a4 a5 : Z) := SYSCALL call [f; a1; a2; a3; a4; a5].
Definition lkl_sys_statfs (path buf : Z) := SYSCALL statfs [s64 path; s64 buf].
Definition lkl_sys_access (filename mode : Z) := SYSCALL access [s64 filename; mode].
Definition lkl_sys_truncate (path length : Z) := SYSCALL truncate [s64 path; s64 length].
Definition lkl_sys_pwrite64 (fd buf count pos : Z) :=
  SYSCALL lkl_pwrite64 [fd; s64 buf; s64 count; Z.shiftr pos 32; Z.land pos 0xffffffff].
Definition lkl_sys_pread64 (fd buf count pos : Z) :=
  SYSCALL lkl_pread64 [fd; s64 buf; s64 count; Z.shiftr pos 32; Z.land pos 0xffffffff].
Definition lkl_sys_getpid : state -> res (Z * state) := SYSCALL getpid [].

(** The socket calls: [long args[6]] is on the stack at [args]. *)
Definition SYS_SOCKET : Z := 1.
Definition SYS_BIND : Z := 2.
Definition SYS_CONNECT : Z := 3.
Definition SYS_SEND : Z := 9.
Definition SYS_RECV : Z := 10.
Definition put_args (args : Z) (l : list Z) (st : state) : state :=
  set_host_world (native st, set_stack (<[args := pad6 l]> (stack (world st))) (world st)) st.
Definition lkl_sys_socket (args family type protocol : Z) (st : state) : res (Z * state) :=
  SYSCALL socketcall [SYS_SOCKET; s64 args] (put_args args [family; type; protocol] st).
Definition lkl_sys_send (args sock buffer size flags : Z) (st : state) : res (Z * state) :=
  SYSCALL socketcall [SYS_SEND; s64 args] (put_args args [sock; s64 buffer; s64 size; flags] st).
Definition lkl_sys_recv (args sock buffer size flags : Z) (st : state) : res (Z * state) :=
  SYSCALL socketcall [SYS_RECV; s64 args] (put_args args [sock; s64 buffer; s64 size; flags] st).
Definition lkl_sys_connect (args sock saddr len : Z) (st : state) : res (Z * state) :=
  SYSCALL socketcall [SYS_CONNECT; s64 args] (put_args args [sock; s64 saddr; len] st).
Definition lkl_sys_bind (args sock saddr len : Z) (st : state) : res (Z * state) :=
  SYSCALL socketcall [SYS_BIND; s64 args] (put_args args [sock; s64 saddr; len] st).

(** [halted] is what the other threads do while this one sleeps on [halt_sem]. *)
Definition lkl_sys_halt (halted : state -> res state) (st : state) : res (Z * state) :=
  let '(sem, n) := sem_alloc 0 (native st) in
  let st := set_host_world (n, set_halt_sem sem (world st)) st in
  if sem =? NULL then Ret (- ENOMEM, st)
  else
    let! (r, st) := SYSCALL_VIA_QUEUE (default_queue (world st)) reboot [0; 0; 0; 0; 0; 0] st in
    match r with
    | inl e => Ret (e, st)
    | inr r =>
        let err := s32 r in
        if err <? 0 then Ret (err, st)
        else
          let! st := halted st in
          let! n := sem_down (halt_sem (world st)) (native st) in
          let! n := sem_free (halt_sem (world st)) n in
          Ret (0, set_native n st)
    end.

(** [kernel_thread] and [run_syscalls_fn] are the addresses of the functions. *)
Definition lkl_syscall_thread_init (kernel_thread run_syscalls_fn : Z) (st : state)
  : res (Z * state) :=
  match thread_id with
  | None => Ret (- EINVAL, st)
  | Some t =>
      let! (q, st) := on_kernel (get_syscall_queue t) st in
      if negb (q =? default_queue (world st)) then Ret (- EBUSY, st)
      else
        let! (sq, st) := on_kernel (new_syscall_queue t) st in
        if sq =? NULL then Ret (- ENOMEM, st)
        else
          let! (r, st) := SYSCALL_VIA_WORKQUEUE call
                            [kernel_thread; run_syscalls_fn; s64 sq; 0; 0] st in
          match r with
          | inl e => Ret (e, st)
          | inr r =>
              let err := s32 r in
              if err <? 0 then
                let! nk := del_syscall_queue sq (native st, world st) in
                Ret (err, set_host_world nk st)
              else Ret (0, st)
          end
  end.

Definition lkl_syscall_thread_cleanup (st : state) : res (Z * state) :=
  match thread_id with
  | None => Ret (- EINVAL, st)
  | Some t =>
      let! (sq, st) := on_kernel (get_syscall_queue t) st in
      if sq =? default_queue (world st) then Ret (- EINVAL, st)
      else
        let! (r, st) := SYSCALL_VIA_QUEUE sq reboot [0; 0; 0; 0; 0; 0] st in
        match r with
        | inl e => Ret (e, st)
        | inr r => Ret (s32 r, st)
        end
  end.

(** [setup_irq] registers [syscall_irq] with the generic interrupt layer. *)
Definition syscall_init (CONFIG_NET : bool) (nk : hk) : res hk :=
  let '(n, k) := nk in
  let k := set_table (init_syscall_table CONFIG_NET (syscall_table k)) k in
  let '(l, n) := sem_alloc 1 n in
  let k := set_hash_lock l k in
  let! _ := BUG_ON (l =? NULL) in
  let! (q, (n, k)) := new_syscall_queue NULL (n, k) in
  let k := set_default_queue q k in
  let! _ := BUG_ON (q =? NULL) in
  Ret (n, k).

Definition free_syscall (nk : hk) : res N :=
  sem_free (syscall_queue_hash_lock (snd nk)) (fst nk).

End syscalls.

(** ** Lemmas and properties *)

(** *** Mount arguments *)
Section mount_facts.
Context {S : Type}.
Context (__get_free_page : S -> Z * S) (free_page : Z -> S -> res S).
Context (strcpy : Z -> Z -> S -> res S) (sys_mount : list Z -> S -> res (Z * S)).

(** The page allocator, seen through the set of pages in use: an allocation
    fails or gives a page that was not in use; [strcpy] and [sys_mount] return
    and neither take nor give back pages for good. *)
Record pages_ok (pages : S -> gset Z) : Prop := {
  page_get : forall s p s', __get_free_page s = (p, s') ->
    if p =? 0 then pages s' = pages s else p ∉ pages s /\ pages s' = {[p]} ∪ pages s;
  page_free : forall p s, p ∈ pages s ->
    exists s', free_page p s = Ret s' /\ pages s' = pages s ∖ {[p]};
  page_strcpy : forall d p s, d ∈ pages s -> exists s', strcpy d p s = Ret s' /\ pages s' = pages s;
  page_mount : forall l s, exists e s', sys_mount l s = Ret (e, s') /\ pages s' = pages s }.

(** What an argument page adds to the pages in use. *)
Definition own (p : Z) : gset Z := if p =? 0 then ∅ else {[p]}.

Lemma copy_arg_ok (pages : S -> gset Z) (p : Z) (s : S) :
  pages_ok pages ->
  exists o s', copy_arg __get_free_page strcpy p s = Ret (o, s') /\
    match o with
    | None => p <> NULL /\ pages s' = pages s
    | Some q => (q = 0 <-> p = NULL) /\ own q ## pages s /\ pages s' = own q ∪ pages s
    end.
Proof.
  intros H. unfold copy_arg, own. destruct (Z.eqb_spec p NULL) as [->|Hp].
  - exists (Some 0), s. split_and!; [done|done|set_solver|]. simpl. by rewrite union_empty_l_L.
  - destruct (__get_free_page s) as [q s1] eqn:Hg. apply H in Hg.
    destruct (Z.eqb_spec q 0) as [->|Hq]; [by exists None, s1|].
    destruct Hg as [Hn Hs1]. destruct (page_strcpy _ H q p s1) as (s2 & -> & Hs2); [set_solver|].
    exists (Some q), s2. rewrite (proj2 (Z.eqb_neq q 0) Hq).
    split_and!; [done|done|set_solver|congruence].
Qed.

Lemma free_arg_ok (pages : S -> gset Z) (p : Z) (s : S) (P : gset Z) :
  pages_ok pages -> pages s = own p ∪ P -> own p ## P ->
  exists s', free_arg free_page p s = Ret s' /\ pages s' = P.
Proof.
  intros H Hs Hd. unfold free_arg, own in *. destruct (Z.eqb_spec p 0) as [->|Hp].
  - exists s. split; [done|]. by rewrite Hs, union_empty_l_L.
  - destruct (page_free _ H p s) as (s' & -> & Hs'); [set_solver|]. exists s'. split; [done|].
    rewrite Hs', Hs. set_solver.
Qed.

Lemma out_free_ok (pages : S -> gset Z) (err a b c : Z) (s : S) (P : gset Z) :
  pages_ok pages -> pages s = own c ∪ (own b ∪ (own a ∪ P)) ->
  own c ## own b ∪ (own a ∪ P) -> own b ## own a ∪ P -> own a ## P ->
  exists s', out_free free_page err a b c s = Ret (err, s') /\ pages s' = P.
Proof.
  intros H Hs Hc Hb Ha. unfold out_free.
  destruct (free_arg_ok pages a s (own c ∪ (own b ∪ P)) H) as (s1 & -> & H1); [set_solver|set_solver|]. simpl.
  destruct (free_arg_ok pages b s1 (own c ∪ P) H) as (s2 & -> & H2); [set_solver|set_solver|]. simpl.
  destruct (free_arg_ok pages c s2 P H) as (s3 & -> & H3); [set_solver|set_solver|]. simpl.
  by exists s3.
Qed.

(** [sys_safe_mount] gives back every page it takes, on every path: it either
    fails with [-ENOMEM] without mounting, or returns what [sys_mount] returned
    when given the copies, each copy a page of its own and NULL exactly where the
    argument was NULL; in both cases the pages in use are those of before. *)
Theorem safe_mount_frees_pages (pages : S -> gset Z) (dev dir type flags data : Z) (s : S) :
  pages_ok pages ->
  exists r s', sys_safe_mount __get_free_page free_page strcpy sys_mount dev dir type flags data s
      = Ret (r, s') /\ pages s' = pages s /\
    (r = - ENOMEM \/
     exists d t a s1 e s2, sys_mount [d; dir; t; flags; a] s1 = Ret (e, s2) /\ r = s32 e /\
       (d = 0 <-> dev = NULL) /\ (t = 0 <-> type = NULL) /\ (a = 0 <-> data = NULL) /\
       pages s1 = own a ∪ (own t ∪ (own d ∪ pages s)) /\
       own a ## own t ∪ (own d ∪ pages s) /\ own t ## own d ∪ pages s /\ own d ## pages s).
Proof.
  intros H. unfold sys_safe_mount.
  assert (own 0 = ∅) as H0 by done.
  destruct (copy_arg_ok pages dev s H) as ([d|] & s1 & -> & H1); simpl; last first.
  { destruct (out_free_ok pages (- ENOMEM) 0 0 0 s1 (pages s) H) as (s' & -> & ?);
      [rewrite H0; set_solver|set_solver..|]. eauto 6. }
  destruct H1 as (Hd & Hd1 & Hd2).
  destruct (copy_arg_ok pages type s1 H) as ([t|] & s2 & -> & H2); simpl; last first.
  { destruct (out_free_ok pages (- ENOMEM) d 0 0 s2 (pages s) H) as (s' & -> & ?);
      [rewrite H0; set_solver|set_solver..|]. eauto 6. }
  destruct H2 as (Ht & Ht1 & Ht2). rewrite Hd2 in Ht1, Ht2.
  destruct (copy_arg_ok pages data s2 H) as ([a|] & s3 & -> & H3); simpl; last first.
  { destruct (out_free_ok pages (- ENOMEM) d t 0 s3 (pages s) H) as (s' & -> & ?);
      [rewrite H0; set_solver|set_solver..|]. eauto 6. }
  destruct H3 as (Ha & Ha1 & Ha2). rewrite Ht2 in Ha1, Ha2.
  destruct (page_mount _ H [d; dir; t; flags; a] s3) as (e & s4 & Hm & H4).
  rewrite Hm. simpl.
  destruct (out_free_ok pages (s32 e) d t a s4 (pages s) H) as (s' & -> & ?);
    [congruence|done..|].
  exists (s32 e), s'. split_and!; [done|done|]. right. exists d, t, a, s3, e, s4. by split_and!.
Qed.
End mount_facts.

(** *** The hash of queues *)

Lemma hash_head_range (t : Z) : 0 <= syscall_queue_hash_head t < SYSCALL_QUEUE_HASH_SIZE.
Proof. by apply Z.mod_pos_bound. Qed.
#[global] Opaque syscall_queue_hash_head.


Lemma find_queue_ok (qs : gmap Z syscall_queue) (l : list Z) (t : Z) :
  Forall (fun q => is_Some (qs !! q)) l ->
  exists r, find_queue qs l t = Ret r /\
    match r with
    | Some q => q ∈ l /\ thread <$> qs !! q = Some t
    | None => forall q, q ∈ l -> thread <$> qs !! q <> Some t
    end.
Proof.
  induction l as [|q l IH]; intros Hl; simpl.
  - exists None. split; [done|]. set_solver.
  - apply Forall_cons in Hl as [[sq Hq] Hl]. rewrite Hq. simpl.
    destruct (Z.eqb_spec (thread sq) t) as [<-|Hne].
    + exists (Some q). rewrite Hq. split; [done|]. split; [set_solver|done].
    + destruct (IH Hl) as (r & -> & Hr). exists r. split; [done|]. destruct r as [q'|].
      * destruct Hr. split; [set_solver|done].
      * intros q' [->|?]%elem_of_cons; [rewrite Hq; naive_solver|by apply Hr].
Qed.

Section queue_facts.
Context {N W : Type} {ops : lkl_native_operations N}.
Context (kmalloc : Z -> N * W -> Z * (N * W)) (kfree : Z -> N * W -> res (N * W)).

(** The semaphores and the slab objects that the rest of the kernel holds. *)
Context (wsems live : W -> gset Z).

(** What the rest of the kernel may do to the host: it leaves the semaphores it
    does not hold alone, and holds only live ones. *)
Definition sems_kept (n n' : N) (w w' : W) : Prop :=
  keeps (sems n) (sems n') (wsems w) (wsems w') /\
  (wsems w ⊆ dom (sems n) -> wsems w' ⊆ dom (sems n')).

(** The slab allocator: NULL, or an object that was not in use. *)
Record slab_ok : Prop := {
  slab_alloc : forall sz n w p n' w', kmalloc sz (n, w) = (p, (n', w')) ->
    sems_kept n n' w w' /\
    if p =? NULL then live w' = live w else p ∉ live w /\ live w' = {[p]} ∪ live w;
  slab_free : forall p n w, p ∈ live w ->
    exists n' w', kfree p (n, w) = Ret (n', w') /\ sems_kept n n' w w' /\ live w' = live w ∖ {[p]} }.

(** The hash: its lock is free, every queue is in the bucket of its thread and
    nowhere else, and every entry of a bucket is a live queue. *)
Record hash_wf (n : N) (k : sys W) : Prop := {
  hash_lock : sems n !! syscall_queue_hash_lock k = Some 1;
  hash_own : syscall_queue_hash_lock k ∉ wsems (rest k);
  hash_len : length (syscall_queue_hash k) = Z.to_nat SYSCALL_QUEUE_HASH_SIZE;
  hash_elem : forall i head q, aget (syscall_queue_hash k) i = Some head ->
    q ∈ head <-> exists sq, squeues k !! q = Some sq /\ syscall_queue_hash_head (thread sq) = i;
  hash_live : forall q sq, squeues k !! q = Some sq -> q <> NULL /\ q ∈ live (rest k) }.

(** The abstract view: which queue a native thread has. *)
Definition queue_map (k : sys W) (m : gmap Z Z) : Prop :=
  forall t q, m !! t = Some q <-> exists sq, squeues k !! q = Some sq /\ thread sq = t.

Context {laws : native_laws N}.
#[local] Set Default Proof Using "Type laws".

(** The solvers without the functions of the section in their search. *)
Ltac solve_set := try clear kmalloc kfree; try clear wsems; try clear live; set_solver.
Ltac solve_naive := try clear kmalloc kfree; try clear wsems; try clear live; naive_solver.

Lemma hash_bucket (n : N) (k : sys W) (t : Z) :
  hash_wf n k -> is_Some (aget (syscall_queue_hash k) (syscall_queue_hash_head t)).
Proof.
  intros H. apply aget_is_Some. rewrite (hash_len _ _ H), Z2Nat.id; [apply hash_head_range|done].
Qed.

Lemma get_syscall_queue_ok (n : N) (k : sys W) (m : gmap Z Z) (t : Z) :
  hash_wf n k -> queue_map k m ->
  exists n', get_syscall_queue t (n, k) = Ret (default (default_queue k) (m !! t), (n', k)) /\
    sems n' = sems n /\ blocks n' = blocks n.
Proof.
  intros H Hm. destruct (lock_ok _ _ (hash_lock _ _ H)) as (n1 & n2 & Hd & Hu & Hs & Hb).
  destruct (hash_bucket _ _ t H) as [head Hh].
  destruct (find_queue_ok (squeues k) head t) as (r & Hf & Hr).
  { apply Forall_forall. intros q Hq. apply (hash_elem _ _ H _ _ _ Hh) in Hq as (? & -> & _). done. }
  exists n2. split; [|done]. unfold get_syscall_queue. rewrite Hd. simpl. rewrite Hh. simpl.
  rewrite Hf. simpl. rewrite Hu. simpl. do 3 f_equal. destruct r as [q|].
  - destruct Hr as [_ Hq]. destruct (squeues k !! q) as [sq|] eqn:E; [|done]. injection Hq as Hq.
    by rewrite (proj2 (Hm t q)) by eauto.
  - destruct (m !! t) as [q|] eqn:E; [|done]. apply Hm in E as (sq & E & <-).
    destruct (Hr q); [|by rewrite E]. apply (hash_elem _ _ H _ _ _ Hh). eauto.
Qed.

(** A state change that keeps the fields of the hash keeps it well formed. *)
Lemma hash_wf_frame (n n' : N) (k k' : sys W) :
  hash_wf n k -> sems n' !! syscall_queue_hash_lock k = Some 1 ->
  syscall_queue_hash_lock k ∉ wsems (rest k') ->
  syscall_queue_hash k' = syscall_queue_hash k ->
  syscall_queue_hash_lock k' = syscall_queue_hash_lock k ->
  (forall q, thread <$> squeues k' !! q = thread <$> squeues k !! q) ->
  live (rest k) ⊆ live (rest k') -> hash_wf n' k'.
Proof.
  intros [_ _ Hlen He Hlive] Hl' Ho' Eh El Eq Hsub.
  assert (forall q t, (exists sq, squeues k' !! q = Some sq /\ thread sq = t) <->
    exists sq, squeues k !! q = Some sq /\ thread sq = t) as Hqq.
  { intros q t. specialize (Eq q). clear -Eq. destruct (squeues k' !! q), (squeues k !! q); naive_solver. }
  split.
  - by rewrite El.
  - by rewrite El.
  - by rewrite Eh.
  - intros i head q. rewrite Eh. intros Hh. rewrite (He _ _ _ Hh).
    split; intros (sq & E & Et);
      (destruct (proj2 (Hqq q (thread sq))) as (sq' & ? & ?); [by eauto|]) ||
      (destruct (proj1 (Hqq q (thread sq))) as (sq' & ? & ?); [by eauto|]);
      exists sq'; split; congruence.
  - intros q sq Hq. specialize (Eq q). rewrite Hq in Eq.
    destruct (squeues k !! q) as [sq'|] eqn:E; [|done]. apply Hlive in E as [? ?]. solve_set.
Qed.

Lemma hash_wf_rest (n n' : N) (k : sys W) (w' : W) :
  hash_wf n k -> sems_kept n n' (rest k) w' -> live (rest k) ⊆ live w' ->
  hash_wf n' (set_rest w' k).
Proof.
  intros H [Hk _] Hl. destruct (Hk _ _ (hash_own _ _ H) (hash_lock _ _ H)).
  by eapply hash_wf_frame.
Qed.

Lemma new_syscall_queue_ok (n : N) (k : sys W) (t : Z) :
  slab_ok -> hash_wf n k -> 
  exists q n' k', new_syscall_queue kmalloc t (n, k) = Ret (q, (n', k')) /\
    hash_wf n' k' /\ sems_kept n n' (rest k) (rest k') /\
    default_queue k' = default_queue k /\ calls k' = calls k /\ works k' = works k /\
    syscall_table k' = syscall_table k /\ syscall_queue_hash_lock k' = syscall_queue_hash_lock k /\
    squeues k' = (if q =? NULL then squeues k else <[q := Syscall_queue [] t]> (squeues k)) /\
    (q <> NULL -> squeues k !! q = None).
Proof.
  intros Hsl H. unfold new_syscall_queue.
  destruct (kmalloc sizeof_syscall_queue (n, rest k)) as [q [n1 w1]] eqn:Hk. simpl. rewrite Hk.
  apply Hsl in Hk as [Hk Hlive]. destruct (Z.eqb_spec q NULL) as [->|Hq].
  { exists NULL, n1, (set_rest w1 k). split_and!; try done.
    destruct (proj1 Hk _ _ (hash_own _ _ H) (hash_lock _ _ H)).
    eapply hash_wf_frame; try done. simpl. by rewrite Hlive. }
  destruct Hlive as [Hnot Hlive]. destruct (proj1 Hk _ _ (hash_own _ _ H) (hash_lock _ _ H)) as [Hl Ho].
  destruct (lock_ok _ _ Hl) as (n2 & n3 & Hd & Hu & Hs & Hb).
  destruct (hash_bucket _ _ t H) as [head Hh].
  assert (squeues k !! q = None) as Hfresh.
  { destruct (squeues k !! q) as [sq|] eqn:E; [|done]. by apply (hash_live _ _ H) in E as [_ ?]. }
  simpl. rewrite Hd. simpl. rewrite Hh. simpl. rewrite Hu. simpl.
  eexists q, n3, _. split; [done|]. split_and!; try done; simpl; last first.
  { by rewrite (proj2 (Z.eqb_neq q NULL) Hq). }
  { unfold sems_kept in *. by rewrite Hs. }
  destruct H as [_ _ Hlen He Hlv]. split; simpl.
  - by rewrite Hs.
  - done.
  - by rewrite length_aset.
  - intros i hd p Hi. destruct (Z.eq_dec i (syscall_queue_hash_head t)) as [->|Hne].
    + rewrite (aget_aset_eq _ _ _ _ Hh) in Hi. injection Hi as <-.
      rewrite elem_of_cons, (He _ _ _ Hh), lookup_insert. clear -Hfresh. case_decide; naive_solver.
    + pose proof (hash_head_range t). rewrite aget_aset_ne in Hi by (done || lia).
      rewrite (He _ _ _ Hi), lookup_insert. clear -Hfresh Hne. case_decide; naive_solver.
  - intros p sq. rewrite lookup_insert, Hlive. case_decide; [solve_set|].
    intros [? ?]%Hlv. solve_set.
Qed.
Lemma del_syscall_queue_ok (n : N) (k : sys W) (q : Z) (sq : syscall_queue) :
  slab_ok -> hash_wf n k -> squeues k !! q = Some sq ->
  exists n' k', del_syscall_queue kfree q (n, k) = Ret (n', k') /\
    hash_wf n' k' /\ sems_kept n n' (rest k) (rest k') /\
    default_queue k' = default_queue k /\ calls k' = calls k /\ works k' = works k /\
    syscall_table k' = syscall_table k /\ squeues k' = delete q (squeues k).
Proof.
  intros Hsl H Hq. destruct (lock_ok _ _ (hash_lock _ _ H)) as (n1 & n2 & Hd & Hu & Hs & Hb).
  destruct (hash_bucket _ _ (thread sq) H) as [head Hh].
  destruct (hash_live _ _ H _ _ Hq) as [_ Hlive].
  destruct (slab_free Hsl q n2 (rest k) Hlive) as (n3 & w3 & Hf & Hk & Hl3).
  unfold del_syscall_queue. rewrite Hd. simpl. rewrite Hq. simpl. rewrite Hh. simpl. rewrite Hu.
  simpl. rewrite Hf. simpl.
  assert (sems_kept n n3 (rest k) w3) as Hk' by (unfold sems_kept in *; by rewrite Hs in Hk).
  clear Hk. rename Hk' into Hk.
  eexists n3, _. split; [done|]. split; [|by split_and!].
  destruct (proj1 Hk _ _ (hash_own _ _ H) (hash_lock _ _ H)) as [Hlk Ho].
  destruct H as [_ _ Hlen He Hlv]. split; simpl; try done.
  - by rewrite length_aset.
  - intros i hd p Hi. destruct (Z.eq_dec i (syscall_queue_hash_head (thread sq))) as [->|Hne].
    + rewrite (aget_aset_eq _ _ _ _ Hh) in Hi. injection Hi as <-.
      rewrite list_elem_of_filter, (He _ _ _ Hh), lookup_delete. clear. case_decide; naive_solver.
    + pose proof (hash_head_range (thread sq)). rewrite aget_aset_ne in Hi by (done || lia).
      rewrite (He _ _ _ Hi), lookup_delete. clear -Hq Hne. case_decide; naive_solver.
  - intros p sp. rewrite lookup_delete, Hl3. case_decide; [done|]. intros [? ?]%Hlv. solve_set.
Qed.

(** C9: the hash of system call queues implements a map from native threads to
    queues, whatever threads collide in a bucket: [get_syscall_queue] returns the
    queue of the thread or the default one, [new_syscall_queue] binds the thread
    to a fresh queue or fails and changes nothing, [del_syscall_queue] removes
    the binding; the lock is free again and the hash well formed after each. *)
Theorem queue_hash_refines_map (n : N) (k : sys W) (m : gmap Z Z) (t : Z) :
  slab_ok -> hash_wf n k -> queue_map k m ->
  (exists n', get_syscall_queue t (n, k) = Ret (default (default_queue k) (m !! t), (n', k)) /\
     hash_wf n' k) /\
  (m !! t = None -> exists q n' k', new_syscall_queue kmalloc t (n, k) = Ret (q, (n', k')) /\
     hash_wf n' k' /\ queue_map k' (if q =? NULL then m else <[t := q]> m)) /\
  (forall q, m !! t = Some q -> exists n' k', del_syscall_queue kfree q (n, k) = Ret (n', k') /\
     hash_wf n' k' /\ queue_map k' (delete t m)).
Proof.
  intros Hsl H Hm. split_and!.
  - destruct (get_syscall_queue_ok _ _ _ t H Hm) as (n' & -> & Hs & _). exists n'.
    split; [done|]. eapply hash_wf_frame; try done; [rewrite Hs|]; apply H.
  - intros Ht. destruct (new_syscall_queue_ok _ _ t Hsl H)
      as (q & n' & k' & -> & H' & _ & _ & _ & _ & _ & _ & Eq & Hf).
    exists q, n', k'. split_and!; [done|done|]. intros u p. rewrite Eq.
    destruct (Z.eqb_spec q NULL) as [|Hq]; [apply Hm|]. specialize (Hf Hq).
    destruct (decide (t = u)) as [<-|Hu], (decide (q = p)) as [<-|Hp];
      rewrite ?lookup_insert_eq, ?lookup_insert_ne by done.
    + split; [eauto|done].
    + split; [intros [= ->]; done|]. intros E. apply Hm in E. congruence.
    + split; [intros E; apply Hm in E as (? & ? & _); congruence|].
      intros (? & [= <-] & ?). done.
    + apply Hm.
  - intros q Ht. apply Hm in Ht as Hq. destruct Hq as (sq & Hq & Et).
    destruct (del_syscall_queue_ok _ _ q sq Hsl H Hq) as (n' & k' & -> & H' & _ & _ & _ & _ & _ & Eq).
    exists n', k'. split_and!; [done|done|]. intros u p. rewrite Eq, !lookup_delete.
    specialize (Hm u p) as Hup. repeat case_decide; subst.
    + split; [done|]. intros (? & [=] & _).
    + split; [done|]. intros E. apply Hup in E. congruence.
    + split; [|intros (? & [=] & _)]. intros E. apply Hup in E as (? & ? & ?). congruence.
    + apply Hup.
Qed.
End queue_facts.

(** *** The table *)

(** After [init_syscall_table] every number that names a handler leads to
    that handler and to no other: the slot of each call of the port holds it,
    the 64-bit stat calls, whose number is 0, lead to [sys_ni_syscall], and
    without CONFIG_NET only the slot of [socketcall] is left empty. *)
Theorem syscall_table_dispatch (net : bool) (t : table) (c : call_name) :
  length t = Z.to_nat NR_syscalls -> aget t (__NR socketcall) = Some None ->
  aget (init_syscall_table net t) (__NR c) =
    Some (match c with
          | stat64 | lstat64 | fstat64 => Some ni_syscall
          | socketcall => if net then Some socketcall else None
          | _ => Some c
          end).
Proof.
  intros Hlen Hs. do 41 (destruct t as [|? t]; [done|]). destruct t; [|done].
  cbn in Hs. injection Hs as ->. destruct net, c; reflexivity.
Qed.

Lemma syscall_table_dispatch_witness :
  aget (init_syscall_table false (replicate 41 None)) (__NR lkl_pread64) = Some (Some lkl_pread64).
Proof. by apply (syscall_table_dispatch false (replicate 41 None) lkl_pread64). Defined.

(** *** File positions *)

Lemma position_split (pos : Z) :
  in_s 64 pos -> position (Z.shiftr pos 32) (Z.land pos 0xffffffff) = pos.
Proof.
  intros Hp. unfold position. change 0xffffffff with (Z.ones 32). rewrite Z.land_ones by done.
  rewrite Z.shiftl_mul_pow2, Z.shiftr_div_pow2 by done.
  assert (pos / 2 ^ 32 * 2 ^ 32 = pos - pos mod 2 ^ 32) as -> by (Z.div_mod_to_equations; lia).
  rewrite (swrap_id 64 (pos - pos mod 2 ^ 32)); [rewrite swrap_id; [lia|done|]|done|].
  - replace (pos - pos mod 2 ^ 32 + pos mod 2 ^ 32) with pos by lia. done.
  - unfold in_s in *. change (2 ^ (64 - 1)) with (2 ^ 31 * 2 ^ 32) in *.
    change (2 ^ 31) with 2147483648 in *. change (2 ^ 32) with 4294967296 in *.
    Z.div_mod_to_equations; lia.
Qed.

(** *** Running a request *)
Section run_facts.
Context {N W : Type} {ops : lkl_native_operations N}.
Context (sys_handler : call_name -> list Z -> N * W -> res (Z * (N * W))).
Context (sys_pread64 sys_pwrite64 : list Z -> N * W -> res (Z * (N * W))).
Context (call_pointer : Z -> list Z -> N * W -> res (Z * (N * W))).
Context (__get_free_page : N * W -> Z * (N * W)) (free_page : Z -> N * W -> res (N * W)).
Context (strcpy : Z -> Z -> N * W -> res (N * W)).
Context (sys_mount : list Z -> N * W -> res (Z * (N * W))).
Context (wsems live : W -> gset Z).

Abbreviation run_handler := (run_handler sys_handler sys_pread64 sys_pwrite64 call_pointer
  __get_free_page free_page strcpy sys_mount).
Abbreviation syscall_result := (syscall_result sys_handler sys_pread64 sys_pwrite64 call_pointer
  __get_free_page free_page strcpy sys_mount).
Abbreviation store_result := (store_result sys_handler sys_pread64 sys_pwrite64 call_pointer
  __get_free_page free_page strcpy sys_mount).

(** The contract of the handlers: they return, and leave the semaphores that the
    rest of the kernel does not hold, and the slab objects in use, alone. *)
Definition syscalls_ok : Prop :=
  forall c p n w, exists r n' w', run_handler c p (n, w) = Ret (r, (n', w')) /\
    sems_kept wsems n n' w w' /\ live w ⊆ live w'.

(** The request with its result stored. *)
Definition with_ret (s : syscall) (r : Z) : syscall :=
  Syscall (no s) (params s) r (sc_sem s) (queue s).

Lemma sems_kept_refl (n : N) (w : W) : sems_kept wsems n n w w.
Proof. split; [intros p v ? ?|]; done. Qed.

Lemma syscall_result_ok (s : syscall) (n : N) (k : sys W) :
  syscalls_ok -> length (syscall_table k) = Z.to_nat NR_syscalls ->
  exists r n' w', syscall_result s (n, k) = Ret (r, (n', set_rest w' k)) /\
    sems_kept wsems n n' (rest k) w' /\ live (rest k) ⊆ live w'.
Proof.
  intros Hok Hlen.
  assert (forall A (x : A), Ret (x, (n, k)) = Ret (x, (n, set_rest (rest k) k))) as Hid
    by (by destruct k). unfold Syscalls.syscall_result.
  destruct (_ || _) eqn:Hno.
  { rewrite Hid. eexists _, _, _. split; [done|]. split; [apply sems_kept_refl|done]. }
  apply orb_false_iff in Hno as [H1%Z.ltb_ge H2%Z.leb_gt].
  destruct (aget_is_Some (syscall_table k) (no s)) as [[c|] Hc].
  { rewrite Hlen. unfold NR_syscalls in *. lia. }
  - simpl. rewrite Hc. simpl. unfold with_rest. simpl.
    destruct (Hok c (params s) n (rest k)) as (r & n' & w' & -> & Hk & Hl). simpl. eauto 7.
  - simpl. rewrite Hc. simpl. rewrite Hid. eexists _, _, _.
    split; [done|]. split; [apply sems_kept_refl|done].
Qed.

Lemma store_result_ok (p : Z) (s : syscall) (n : N) (k : sys W) :
  syscalls_ok -> length (syscall_table k) = Z.to_nat NR_syscalls -> calls k !! p = Some s ->
  exists r n' w', syscall_result s (n, k) = Ret (r, (n', set_rest w' k)) /\
    store_result p (n, k) =
      Ret (s32 r, (n', set_calls (<[p := with_ret s (s32 r)]> (calls k)) (set_rest w' k))) /\
    sems_kept wsems n n' (rest k) w' /\ live (rest k) ⊆ live w'.
Proof.
  intros Hok Hlen Hp. destruct (syscall_result_ok s n k Hok Hlen) as (r & n' & w' & E & Hk & Hl).
  exists r, n', w'. split_and!; try done. unfold Syscalls.store_result. simpl. rewrite Hp. simpl.
  by rewrite E.
Qed.

(** What a caller gets is the result of the handler cut to an [int]: the value
    stored in the request is the handler's result exactly when that fits in 32
    bits, so a file offset or a byte count beyond 2 GiB is reported wrongly. *)
Theorem stored_result_is_int (p : Z) (s : syscall) (n n' : N) (k k' : sys W) (v : Z) :
  calls k !! p = Some s -> store_result p (n, k) = Ret (v, (n', k')) ->
  exists r, syscall_result s (n, k) = Ret (r, (n', set_calls (calls k) k')) /\
    ret <$> calls k' !! p = Some v /\ (v = r <-> in_s 32 r).
Proof.
  intros Hp. unfold Syscalls.store_result. simpl. rewrite Hp. simpl.
  assert (forall r nk, syscall_result s (n, k) = Ret (r, nk) -> calls (snd nk) = calls k) as Hc.
  { intros r nk. unfold Syscalls.syscall_result, with_rest. simpl.
    destruct (_ || _); [by intros [= _ <-]|]. destruct (aget _ _) as [[c|]|]; simpl; try done.
    - destruct (run_handler _ _ _) as [[a [n1 w1]]| | |]; simpl; try done. by intros [= <- <-].
    - by intros [= _ <-]. }
  destruct (syscall_result s (n, k)) as [[r [n1 k1]]| | |] eqn:E; simpl; try done.
  intros [= <- <- <-]. specialize (Hc _ _ eq_refl). simpl in Hc.
  exists r. simpl. rewrite Hc, lookup_insert_eq. split_and!; [|done|].
  - rewrite <- Hc. by destruct k1.
  - split; [|apply swrap_id; done]. intros <-. by apply swrap_range.
Qed.

(** A 64-bit file position survives its trip through the parameters: for every
    [loff_t], the halves that [lkl_sys_pread64] and [lkl_sys_pwrite64] send make
    [sys_lkl_pread64] and [sys_lkl_pwrite64] call the real handler with that
    position, and with the descriptor, buffer and count the caller gave. *)
Theorem pread_pwrite_position (fd buf count pos : Z) (s : N * W) :
  in_u 32 fd -> in_u 64 count -> in_s 64 pos ->
  let p := pad6 [fd; s64 buf; s64 count; Z.shiftr pos 32; Z.land pos 0xffffffff] in
  run_handler lkl_pread64 p s = sys_pread64 [fd; s64 buf; count; pos] s /\
  run_handler lkl_pwrite64 p s = sys_pwrite64 [fd; s64 buf; count; pos] s.
Proof.
  intros Hfd Hc Hp. simpl. unfold sys_lkl_pread64, sys_lkl_pwrite64.
  rewrite (wrap_id 32 fd Hfd), wrap_swrap, (wrap_id 64 count Hc), position_split by done. done.
Qed.

(** A request whose number is out of range, whose slot is empty, or whose
    number is 0 after [init_syscall_table] (the 64-bit stat calls) is answered
    with [-ENOSYS] and no handler of the kernel runs: nothing else changes. *)
Theorem unknown_call_enosys (p : Z) (s : syscall) (n : N) (k : sys W) (net : bool) (t : table) :
  calls k !! p = Some s -> length t = Z.to_nat NR_syscalls -> aget t (__NR socketcall) = Some None ->
  syscall_table k = init_syscall_table net t ->
  no s < 0 \/ NR_syscalls <= no s \/ no s = __NR stat64 \/ no s = __NR lstat64 \/
    no s = __NR fstat64 \/ (no s = __NR socketcall /\ net = false) ->
  store_result p (n, k) =
    Ret (- ENOSYS, (n, set_calls (<[p := with_ret s (- ENOSYS)]> (calls k)) k)).
Proof.
  intros Hp Hlen Hsock Ht Hno. unfold Syscalls.store_result. simpl. rewrite Hp. simpl.
  enough (syscall_result s (n, k) = Ret (- ENOSYS, (n, k))) as -> by done.
  unfold Syscalls.syscall_result. simpl. rewrite Ht.
  destruct (Z.ltb_spec (no s) 0); [done|]. destruct (Z.leb_spec NR_syscalls (no s)); [done|].
  assert (no s = 0 \/ no s = 33 /\ net = false) as Hcase.
  { simpl in Hno. destruct Hno as [?|[?|[?|[?|[?|[? ?]]]]]]; auto; lia. }
  do 41 (destruct t as [|? t]; [done|]). destruct t; [|done]. cbn in Hsock. injection Hsock as ->.
  destruct Hcase as [-> | [-> ->]]; [destruct net|]; simpl; [by destruct k..|done].
Qed.
End run_facts.

(** ** A concrete instance

    The rest of the kernel is the list of slab objects in use; an allocation takes
    the next address above them.  Every handler answers 7. *)
Module SysDemo.
Import Irq.Demo.
#[local] Existing Instance demo_native.
#[local] Existing Instance demo_laws.

Definition slab := list Z.
Definition no_sems (w : slab) : gset Z := ∅.
Definition objects (w : slab) : gset Z := list_to_set w.
Definition next_object (w : slab) : Z := 1 + foldr Z.max 0 w.
Definition slab_kmalloc (sz : Z) (s : posix * slab) : Z * (posix * slab) :=
  (next_object (snd s), (fst s, next_object (snd s) :: snd s)).
Definition slab_kfree (p : Z) (s : posix * slab) : res (posix * slab) :=
  Ret (fst s, filter (fun q => q <> p) (snd s)).
Definition seven {A : Type} (_ : A) (s : posix * slab) : res (Z * (posix * slab)) := Ret (7, s).
Definition any_handler (c : call_name) := seven (A := list Z).
Definition any_pointer (f : Z) := seven (A := list Z).
Definition no_page (s : posix * slab) : Z * (posix * slab) := (0, s).
Definition no_free (p : Z) (s : posix * slab) : res (posix * slab) := Ret s.
Definition no_copy (d p : Z) (s : posix * slab) : res (posix * slab) := Ret s.

Lemma next_object_above (w : slab) (p : Z) : p ∈ w -> p < next_object w.
Proof.
  unfold next_object. induction w as [|q w IH]; simpl; [by intros ?%elem_of_nil|].
  intros [->|Hp]%elem_of_cons; [lia|]. specialize (IH Hp). lia.
Qed.

Lemma no_sems_kept (n : posix) (w w' : slab) : sems_kept no_sems n n w w'.
Proof. split; [|done]. intros p v _ ?. split; [done|apply not_elem_of_empty]. Qed.

Lemma demo_slab : slab_ok slab_kmalloc slab_kfree no_sems objects.
Proof.
  split.
  - intros sz n w p n' w' [= <- <- <-]. split; [apply no_sems_kept|].
    assert (0 < next_object w) by (unfold next_object; induction w; simpl; lia).
    rewrite (proj2 (Z.eqb_neq _ _)) by (unfold NULL; lia). split; [|done].
    unfold objects. rewrite elem_of_list_to_set. intros Hp%next_object_above. simpl in Hp. lia.
  - intros p n w Hp. eexists _, _. split; [done|]. split; [apply no_sems_kept|].
    unfold objects. apply set_eq. intros q.
    rewrite elem_of_list_to_set, list_elem_of_filter, elem_of_difference, elem_of_list_to_set,
      elem_of_singleton. tauto.
Qed.

Lemma demo_syscalls : syscalls_ok any_handler (seven (A := _)) (seven (A := _)) any_pointer
  no_page no_free no_copy (seven (A := _)) no_sems objects.
Proof.
  intros c p n w.
  assert (exists r, run_handler any_handler (seven (A := _)) (seven (A := _)) any_pointer
    no_page no_free no_copy (seven (A := _)) c p (n, w) = Ret (r, (n, w))) as [r Hr].
  { destruct c; try (by eexists);
      destruct p as [|p0 [|p1 [|p2 [|p3 [|p4 [|p5 [|]]]]]]]; try (by eexists); simpl.
    unfold sys_safe_mount, copy_arg, out_free, free_arg. simpl.
    destruct (p0 =? NULL); simpl; [|by eexists]. destruct (p2 =? NULL); simpl; [|by eexists].
    destruct (p4 =? NULL); simpl; by eexists. }
  exists r, n, w. split; [done|]. split; [apply no_sems_kept|done].
Qed.

(** The data of syscalls.c before and after [syscall_init]. *)
Definition blank : sys slab := Sys (replicate 41 None) ∅ ∅ (replicate 113 []) 0 0 [] 0 ∅ [].
Definition running : posix * sys slab :=
  match syscall_init slab_kmalloc true (Posix ∅ [], blank) with Ret nk => nk | _ => (Posix ∅ [], blank) end.

Lemma blank_wf (l : Z) (n : posix) :
  sems n !! l = Some 1 -> hash_wf no_sems objects n (set_hash_lock l blank).
Proof.
  intros Hl. split; try done. intros i head q Hh. unfold aget in Hh. destruct (i <? 0); [done|].
  apply lookup_replicate in Hh as [-> _]. split; [by intros ?%elem_of_nil|by intros (? & ? & _)].
Qed.

Lemma queue_hash_refines_map_witness :
  exists n', get_syscall_queue 4096 (Posix (<[5 := demo_sem 1]> ∅) [], set_hash_lock 5 blank) =
    Ret (0, (n', set_hash_lock 5 blank)).
Proof.
  destruct (queue_hash_refines_map slab_kmalloc slab_kfree no_sems objects
    (Posix (<[5 := demo_sem 1]> ∅) []) (set_hash_lock 5 blank) ∅ 4096 demo_slab) as ((n' & H & _) & _).
  - by apply blank_wf.
  - intros t q. rewrite lookup_empty. split; [done|by intros (? & ? & _)].
  - exists n'. exact H.
Defined.

(** A page allocator whose state is the set of pages in use. *)
Definition set_page (s : gset Z) : Z * gset Z := (fresh ({[0]} ∪ s), {[fresh ({[0]} ∪ s)]} ∪ s).
Definition set_free (p : Z) (s : gset Z) : res (gset Z) := Ret (s ∖ {[p]}).
Definition set_copy (d p : Z) (s : gset Z) : res (gset Z) := Ret s.
Definition set_mount (l : list Z) (s : gset Z) : res (Z * gset Z) := Ret (0, s).

Lemma demo_pages : pages_ok set_page set_free set_copy set_mount id.
Proof.
  split.
  - intros s p s' [= <- <-]. pose proof (is_fresh ({[0]} ∪ s)) as H. revert H.
    generalize (fresh ({[0]} ∪ s)). intros p Hp.
    destruct (Z.eqb_spec p 0) as [->|]; [set_solver|]. split; [set_solver|done].
  - intros p s Hp. by eexists.
  - intros d p s Hp. by eexists.
  - intros l s. by eexists _, _.
Qed.

Lemma safe_mount_frees_pages_witness :
  exists r s', sys_safe_mount set_page set_free set_copy set_mount 100 200 300 1 0 ∅ = Ret (r, s') /\
    s' = (∅ : gset Z).
Proof.
  destruct (safe_mount_frees_pages set_page set_free set_copy set_mount id 100 200 300 1 0 ∅ demo_pages)
    as (r & s' & H & Hs & _).
  exists r, s'. split; [exact H | exact Hs].
Defined.

(** A handler that reports a position of 4 GiB. *)
Definition far (c : call_name) (p : list Z) (s : posix * slab) : res (Z * (posix * slab)) := Ret (2 ^ 32, s).
Definition seek_call : syscall := Syscall (__NR lseek) (pad6 [3; 2 ^ 32; 0]) 0 9 1.
Definition seeking : sys slab := set_calls {[64 := seek_call]} (snd running).

Lemma stored_result_is_int_witness :
  exists r, syscall_result far (seven (A := _)) (seven (A := _)) any_pointer
      no_page no_free no_copy (seven (A := _)) seek_call (fst running, seeking) =
      Ret (r, (fst running, seeking)) /\ (0 = r <-> in_s 32 r).
Proof.
  destruct (stored_result_is_int far (seven (A := _)) (seven (A := _)) any_pointer
    no_page no_free no_copy (seven (A := _)) 64 seek_call (fst running) (fst running) seeking
    (set_calls {[64 := with_ret seek_call 0]} seeking) 0) as (r & H & _ & H');
    [vm_compute; reflexivity | vm_compute; reflexivity |].
  exists r. split; [exact H | exact H'].
Defined.

Definition idle_kernel : posix * slab := (fst running, []).

Lemma pread_pwrite_position_witness :
  run_handler any_handler (seven (A := _)) (seven (A := _)) any_pointer
      no_page no_free no_copy (seven (A := _)) lkl_pread64
      (pad6 [3; s64 4096; s64 512; Z.shiftr (- 2 ^ 63) 32; Z.land (- 2 ^ 63) 0xffffffff]) idle_kernel =
  seven [3; s64 4096; 512; - 2 ^ 63] idle_kernel.
Proof.
  apply (pread_pwrite_position any_handler (seven (A := _)) (seven (A := _)) any_pointer
    no_page no_free no_copy (seven (A := _)) 3 4096 512 (- 2 ^ 63) idle_kernel); pow_lia.
Defined.

Definition stat_call : syscall := Syscall (__NR fstat64) (pad6 [3; 4096]) 0 9 1.
Definition stating : sys slab := set_calls {[64 := stat_call]} (snd running).

Lemma unknown_call_enosys_witness :
  store_result any_handler (seven (A := _)) (seven (A := _)) any_pointer
      no_page no_free no_copy (seven (A := _)) 64 (fst running, stating) =
  Ret (- ENOSYS, (fst running, set_calls (<[64 := with_ret stat_call (- ENOSYS)]> (calls stating)) stating)).
Proof.
  apply (unknown_call_enosys any_handler (seven (A := _)) (seven (A := _)) any_pointer
    no_page no_free no_copy (seven (A := _)) 64 stat_call (fst running) stating
    true (replicate 41 None)); [reflexivity | reflexivity | reflexivity | vm_compute; reflexivity |].
  right. right. right. right. left. reflexivity.
Defined.
End SysDemo.
