(* ===== verification/SyscallsConc.v ===== *)
(** * System calls under concurrency

    Native threads call [lkl_sys_*] while the idle thread delivers SYSCALL_IRQ,
    kernel threads in [run_syscalls] serve their queues and the workqueue runs
    [run_syscall_work] (arch/lkl/kernel/syscalls.c).  The step relation
    interleaves the visible actions of these threads in every order; each step
    is one of the operations of Syscalls.  The interrupt layer appears as what
    IrqConc proves of it: a FIFO of the data queued on the line, each delivered
    once.  Requests to halt a queue ([__NR_reboot]) are outside this relation. *)
From S2P Require Import Prelude Native EnvPosix Irq Jhash Syscalls.

(** Where the request of a caller is.  A caller in [Posted] has filled its
    [struct syscall] and runs [lkl_trigger_irq_with_data] next; in the other
    stages it sleeps in [sem_down] (in [Lost], after a trigger that failed). *)
Inductive stage :=
| Posted
| Pending                 (** queued on SYSCALL_IRQ *)
| Queued                  (** in the list of its [syscall_queue] *)
| OnWork                  (** in the workqueue *)
| Taken (w : Z)           (** dequeued by the kernel thread [w] *)
| Stored (w : Z)          (** its result is stored, [w] runs [sem_up] next *)
| Ready                   (** its semaphore is posted *)
| Lost.

#[global] Instance stage_eq_dec : EqDecision stage.
Proof. solve_decision. Defined.

(** A call in progress; [ticket] numbers the calls. *)
Record caller := Caller { ticket : nat; c_no : Z; c_params : list Z; stg : stage }.

(** A kernel thread that serves requests: the queue's address names it, NULL is
    the workqueue. *)
Inductive worker := WIdle | WGot (f : Z) | WDone (f : Z).

(** [callers] is keyed by the address of the [struct syscall].  The histories
    [issued], [executed] (with the handler's result) and [returned] are ghosts. *)
Record sconc (N W : Type) := SConc {
  c_n : N;
  c_k : sys W;
  pending : list Z;
  callers : gmap Z caller;
  workers : gmap Z worker;
  next : nat;
  issued : list (nat * Z * list Z);
  executed : list (nat * Z * list Z * Z);
  returned : list (nat * Z) }.
Arguments SConc {N W}.
Arguments c_n {N W}.
Arguments c_k {N W}.
Arguments pending {N W}.
Arguments callers {N W}.
Arguments workers {N W}.
Arguments next {N W}.
Arguments issued {N W}.
Arguments executed {N W}.
Arguments returned {N W}.

Definition set_stage (g : stage) (f : Z) (C : gmap Z caller) : gmap Z caller :=
  alter (fun c => Caller (ticket c) (c_no c) (c_params c) g) f C.
Definition stage_of (C : gmap Z caller) (f : Z) : option stage := stg <$> C !! f.

Lemma stage_set_eq (C : gmap Z caller) (f : Z) (g : stage) :
  stage_of (set_stage g f C) f = (fun _ => g) <$> C !! f.
Proof. unfold stage_of, set_stage. rewrite lookup_alter_eq. by destruct (C !! f). Qed.
Lemma stage_set_ne (C : gmap Z caller) (f f' : Z) (g : stage) :
  f <> f' -> stage_of (set_stage g f C) f' = stage_of C f'.
Proof. intros. unfold stage_of, set_stage. by rewrite lookup_alter_ne. Qed.
Lemma lookup_set_stage (C : gmap Z caller) (f f' : Z) (g : stage) (d : caller) :
  set_stage g f C !! f' = Some d -> exists c, C !! f' = Some c /\ ticket d = ticket c /\
    c_no d = c_no c /\ c_params d = c_params c /\ stg d = if decide (f = f') then g else stg c.
Proof.
  unfold set_stage. rewrite lookup_alter. case_decide; [|eauto 10].
  subst. destruct (C !! f') as [c|]; [|done]. intros [= <-]. eauto 10.
Qed.
Lemma lookup_set_stage_is_Some (C : gmap Z caller) (f f' : Z) (g : stage) :
  is_Some (C !! f') -> is_Some (set_stage g f C !! f').
Proof. unfold set_stage. rewrite lookup_alter. case_decide; [|done]. subst. by intros [? ->]. Qed.

Lemma stage_other (C : gmap Z caller) (f f' : Z) (g0 g X : stage) :
  stage_of C f = Some g0 -> X <> g0 -> X <> g ->
  stage_of (set_stage g f C) f' = Some X <-> stage_of C f' = Some X.
Proof.
  intros H H0 Hg. destruct (decide (f = f')) as [<-|]; [|by rewrite stage_set_ne].
  rewrite stage_set_eq, H. unfold stage_of in H. destruct (C !! f); naive_solver.
Qed.
Lemma stage_new (C : gmap Z caller) (f f' : Z) (g0 g : stage) :
  stage_of C f = Some g0 ->
  stage_of (set_stage g f C) f' = Some g <-> f' = f \/ stage_of C f' = Some g.
Proof.
  intros H. destruct (decide (f = f')) as [<-|].
  - rewrite stage_set_eq. unfold stage_of in H. destruct (C !! f); naive_solver.
  - rewrite stage_set_ne by done. naive_solver.
Qed.
Lemma stage_old (C : gmap Z caller) (f f' : Z) (g0 g : stage) :
  stage_of C f = Some g0 -> g <> g0 ->
  stage_of (set_stage g f C) f' = Some g0 <-> f' <> f /\ stage_of C f' = Some g0.
Proof.
  intros H Hg. destruct (decide (f = f')) as [<-|].
  - rewrite stage_set_eq. unfold stage_of in H. destruct (C !! f); naive_solver.
  - rewrite stage_set_ne by done. naive_solver.
Qed.

(** The threads and the stages agree on who holds which request. *)
Definition hands (Wk : gmap Z worker) (C : gmap Z caller) : Prop :=
  (forall w f, Wk !! w = Some (WGot f) <-> stage_of C f = Some (Taken w)) /\
  (forall w f, Wk !! w = Some (WDone f) <-> stage_of C f = Some (Stored w)).

Lemma hands_take (Wk : gmap Z worker) (C : gmap Z caller) (w f : Z) (g : stage) :
  hands Wk C -> Wk !! w = Some WIdle -> stage_of C f = Some g ->
  (forall w, g <> Taken w) -> (forall w, g <> Stored w) ->
  hands (<[w := WGot f]> Wk) (set_stage (Taken w) f C).
Proof.
  intros [Hg Hd] Hw Hst Hn1 Hn2. split; intros w' f'; rewrite lookup_insert; case_decide as E.
  - subst w'. rewrite (stage_new _ _ _ _ _ Hst), <- Hg, Hw. naive_solver.
  - rewrite (stage_other _ _ _ _ _ _ Hst) by congruence. apply Hg.
  - subst w'. rewrite (stage_other _ _ _ _ _ _ Hst), <- Hd, Hw by congruence. naive_solver.
  - rewrite (stage_other _ _ _ _ _ _ Hst) by congruence. apply Hd.
Qed.
Lemma hands_run (Wk : gmap Z worker) (C : gmap Z caller) (w f : Z) :
  hands Wk C -> Wk !! w = Some (WGot f) ->
  hands (<[w := WDone f]> Wk) (set_stage (Stored w) f C).
Proof.
  intros [Hg Hd] Hw. apply Hg in Hw as Hst. split; intros w' f'; rewrite lookup_insert; case_decide as E.
  - subst w'. rewrite (stage_old _ _ _ _ _ Hst), <- Hg, Hw by congruence. naive_solver.
  - rewrite (stage_other _ _ _ _ _ _ Hst) by congruence. apply Hg.
  - subst w'. rewrite (stage_new _ _ _ _ _ Hst), <- Hd, Hw. naive_solver.
  - rewrite (stage_other _ _ _ _ _ _ Hst) by congruence. apply Hd.
Qed.
Lemma hands_wake (Wk : gmap Z worker) (C : gmap Z caller) (w f : Z) :
  hands Wk C -> Wk !! w = Some (WDone f) ->
  hands (<[w := WIdle]> Wk) (set_stage Ready f C).
Proof.
  intros [Hg Hd] Hw. apply Hd in Hw as Hst. split; intros w' f'; rewrite lookup_insert; case_decide as E.
  - subst w'. rewrite (stage_other _ _ _ _ _ _ Hst), <- Hg, Hw by congruence. naive_solver.
  - rewrite (stage_other _ _ _ _ _ _ Hst) by congruence. apply Hg.
  - subst w'. rewrite (stage_old _ _ _ _ _ Hst), <- Hd, Hw by congruence. naive_solver.
  - rewrite (stage_other _ _ _ _ _ _ Hst) by congruence. apply Hd.
Qed.

Section sconc.
Context {N W : Type} {ops : lkl_native_operations N}.
Context (sys_handler : call_name -> list Z -> N * W -> res (Z * (N * W))).
Context (sys_pread64 sys_pwrite64 : list Z -> N * W -> res (Z * (N * W))).
Context (call_pointer : Z -> list Z -> N * W -> res (Z * (N * W))).
Context (__get_free_page : N * W -> Z * (N * W)) (free_page : Z -> N * W -> res (N * W)).
Context (strcpy : Z -> Z -> N * W -> res (N * W)).
Context (sys_mount : list Z -> N * W -> res (Z * (N * W))).
Context (kmalloc : Z -> N * W -> Z * (N * W)) (kfree : Z -> N * W -> res (N * W)).
Context (wsems live : W -> gset Z).

Abbreviation syscall_result := (syscall_result sys_handler sys_pread64 sys_pwrite64 call_pointer
  __get_free_page free_page strcpy sys_mount).
Abbreviation store_result := (store_result sys_handler sys_pread64 sys_pwrite64 call_pointer
  __get_free_page free_page strcpy sys_mount).

Inductive sys_step : sconc N W -> sconc N W -> Prop :=
(** a native thread, from the start of the macro to its return *)
| step_call n k P C Wk x h ex re f q nr p sem n' k' :
    C !! f = None -> f <> NULL -> q = NULL \/ is_Some (squeues k !! q) -> nr <> __NR reboot ->
    post_syscall f q nr p (n, k) = (sem, (n', k')) -> sem <> NULL ->
    sys_step (SConc n k P C Wk x h ex re)
      (SConc n' k' P (<[f := Caller x nr (pad6 p) Posted]> C) Wk (S x)
         (h ++ [(x, nr, pad6 p)]) ex re)
| step_call_nomem n k P C Wk x h ex re f q nr p n' k' :
    C !! f = None -> post_syscall f q nr p (n, k) = (NULL, (n', k')) ->
    sys_step (SConc n k P C Wk x h ex re) (SConc n' (drop_frame f k') P C Wk x h ex re)
| step_trigger n k P C Wk x h ex re f :
    stage_of C f = Some Posted ->
    sys_step (SConc n k P C Wk x h ex re)
      (SConc n k (P ++ [f]) (set_stage Pending f C) Wk x h ex re)
| step_trigger_nomem n k P C Wk x h ex re f :
    stage_of C f = Some Posted ->
    sys_step (SConc n k P C Wk x h ex re)
      (SConc n k P (set_stage Lost f C) Wk x h ex re)
| step_return n k P C Wk x h ex re f c v n' k' :
    C !! f = Some c -> stg c <> Posted -> end_syscall f (n, k) = Ret (v, (n', k')) ->
    sys_step (SConc n k P C Wk x h ex re)
      (SConc n' k' P (delete f C) Wk x h ex (re ++ [(ticket c, v)]))
(** the idle thread delivers the first datum of the line *)
| step_irq n k P C Wk x h ex re f s n' k' :
    calls k !! f = Some s -> syscall_irq (Some f) (n, k) = Ret (n', k') ->
    sys_step (SConc n k (f :: P) C Wk x h ex re)
      (SConc n' k' P (set_stage (if queue s =? NULL then OnWork else Queued) f C) Wk x h ex re)
(** a kernel thread in [run_syscalls], or the workqueue *)
| step_fetch n k P C Wk x h ex re w f k' :
    w <> NULL -> Wk !! w = Some WIdle -> dequeue_syscall w k = Ret (f, k') -> f <> NULL ->
    sys_step (SConc n k P C Wk x h ex re)
      (SConc n k' P (set_stage (Taken w) f C) (<[w := WGot f]> Wk) x h ex re)
| step_work n k P C Wk x h ex re f l :
    Wk !! NULL = Some WIdle -> works k = f :: l ->
    sys_step (SConc n k P C Wk x h ex re)
      (SConc n (set_works l k) P (set_stage (Taken NULL) f C) (<[NULL := WGot f]> Wk) x h ex re)
| step_run n k P C Wk x h ex re w f c s r nk v n' k' :
    Wk !! w = Some (WGot f) -> C !! f = Some c -> calls k !! f = Some s ->
    syscall_result s (n, k) = Ret (r, nk) -> store_result f (n, k) = Ret (v, (n', k')) ->
    sys_step (SConc n k P C Wk x h ex re)
      (SConc n' k' P (set_stage (Stored w) f C) (<[w := WDone f]> Wk) x h
         (ex ++ [(ticket c, no s, params s, r)]) re)
| step_wake n k P C Wk x h ex re w f n' k' :
    Wk !! w = Some (WDone f) -> wake_caller f (n, k) = Ret (n', k') ->
    sys_step (SConc n k P C Wk x h ex re)
      (SConc n' k' P (set_stage Ready f C) (<[w := WIdle]> Wk) x h ex re)
(** a thread gets a queue of its own, and the queue its kernel thread *)
| step_new_queue n k P C Wk x h ex re t q n' k' :
    new_syscall_queue kmalloc t (n, k) = Ret (q, (n', k')) -> q <> NULL ->
    sys_step (SConc n k P C Wk x h ex re) (SConc n' k' P C (<[q := WIdle]> Wk) x h ex re)
(** anything else the kernel or the host does *)
| step_elsewhere n k P C Wk x h ex re n' w' :
    sems_kept wsems n n' (rest k) w' -> live (rest k) ⊆ live w' ->
    sys_step (SConc n k P C Wk x h ex re) (SConc n' (set_rest w' k) P C Wk x h ex re).

(** ** The invariant *)

Definition stored (g : stage) : bool :=
  match g with Stored _ | Ready => true | _ => false end.
Definition ready (g : stage) : bool := match g with Ready => true | _ => false end.

(** A call in progress: its frame is live and matches what was asked, and its
    semaphore is its own, posted exactly when the request is ready. *)
Record call_wf (n : N) (k : sys W) (f : Z) (c : caller) (s : syscall) : Prop := {
  call_live : calls k !! f = Some s;
  call_no : no s = c_no c;
  call_params : params s = c_params c;
  call_frame : f <> NULL;
  call_sem : sc_sem s <> NULL;
  call_own : sc_sem s ∉ wsems (rest k);
  call_lock : sc_sem s <> syscall_queue_hash_lock k;
  call_count : sems n !! sc_sem s = Some (Z.b2z (ready (stg c)));
  call_queue : queue s = NULL \/ is_Some (squeues k !! queue s) }.

Record res_inv_c (c : sconc N W) : Prop := {
  inv_hash : hash_wf wsems live (c_n c) (c_k c);
  inv_wsems : wsems (rest (c_k c)) ⊆ dom (sems (c_n c));
  inv_table : length (syscall_table (c_k c)) = Z.to_nat NR_syscalls;
  inv_calls : forall f d, callers c !! f = Some d -> exists s, call_wf (c_n c) (c_k c) f d s;
  inv_frames : forall f, is_Some (calls (c_k c) !! f) -> is_Some (callers c !! f);
  inv_distinct : forall f g s s', calls (c_k c) !! f = Some s -> calls (c_k c) !! g = Some s' ->
    sc_sem s = sc_sem s' -> f = g }.

(** Every request is in one place, the one its stage says. *)
Record place_inv (c : sconc N W) : Prop := {
  inv_pending : NoDup (pending c) /\
    forall f, f ∈ pending c <-> stage_of (callers c) f = Some Pending;
  inv_queued : forall q sq, squeues (c_k c) !! q = Some sq -> NoDup (lh sq) /\
    forall f, f ∈ lh sq <-> stage_of (callers c) f = Some Queued /\
      queue <$> calls (c_k c) !! f = Some q;
  inv_works : NoDup (works (c_k c)) /\
    forall f, f ∈ works (c_k c) <-> stage_of (callers c) f = Some OnWork;
  inv_onqueue : forall f s, stage_of (callers c) f = Some Queued ->
    calls (c_k c) !! f = Some s -> queue s <> NULL;
  inv_hands : hands (workers c) (callers c);
  inv_threads : forall q, is_Some (workers c !! q) <->
    q = NULL \/ is_Some (squeues (c_k c) !! q) }.

(** The histories agree with the calls in progress. *)
Record hist_inv (c : sconc N W) : Prop := {
  inv_ticket : forall f d, callers c !! f = Some d ->
    (ticket d < next c)%nat /\ (ticket d, c_no d, c_params d) ∈ issued c;
  inv_tickets : forall f g d e, callers c !! f = Some d -> callers c !! g = Some e ->
    ticket d = ticket e -> f = g;
  inv_stored : forall f d s, callers c !! f = Some d -> calls (c_k c) !! f = Some s ->
    if stored (stg d)
    then exists r, (ticket d, c_no d, c_params d, r) ∈ executed c /\ ret s = s32 r
    else ticket d ∉ (fun e => e.1.1.1) <$> executed c;
  inv_executed : NoDup ((fun e => e.1.1.1) <$> executed c) /\
    forall t nr p r, (t, nr, p, r) ∈ executed c -> (t < next c)%nat /\ (t, nr, p) ∈ issued c;
  inv_issued : NoDup ((fun e => e.1.1) <$> issued c) /\
    Forall (fun e => (e.1.1 < next c)%nat) (issued c);
  inv_returned : NoDup ((fun e => e.1) <$> returned c) /\
    forall t v, (t, v) ∈ returned c ->
      (exists nr p r, (t, nr, p, r) ∈ executed c /\ v = s32 r) /\
      forall f d, callers c !! f = Some d -> ticket d <> t }.

Context {laws : native_laws N}.
(** The solvers without the functions of the section in their search. *)
Ltac prune :=
  try clear sys_handler; try clear sys_pread64; try clear sys_pwrite64; try clear call_pointer;
  try clear __get_free_page; try clear free_page; try clear strcpy; try clear sys_mount;
  try clear kmalloc; try clear kfree; try clear wsems; try clear live.
#[local] Set Default Proof Using "Type laws".

(** ** Lemmas on the state *)

Lemma threads_is_Some (m m' : gmap Z syscall_queue) :
  (forall q, thread <$> m' !! q = thread <$> m !! q) ->
  forall q, is_Some (m !! q) -> is_Some (m' !! q).
Proof. intros H q [x Hx]. specialize (H q). rewrite Hx in H. by destruct (m' !! q). Qed.

Lemma call_wf_frame (n n' : N) (k k' : sys W) (f : Z) (c d : caller) (s : syscall) :
  call_wf n k f c s -> calls k' !! f = Some s -> sc_sem s ∉ wsems (rest k') ->
  syscall_queue_hash_lock k' = syscall_queue_hash_lock k ->
  sems n' !! sc_sem s = Some (Z.b2z (ready (stg d))) ->
  (forall q, is_Some (squeues k !! q) -> is_Some (squeues k' !! q)) ->
  c_no d = c_no c -> c_params d = c_params c -> call_wf n' k' f d s.
Proof.
  intros [? ? ? ? ? ? ? ? Hq] ? ? Hl ? Hs ? ?. split; try congruence.
  destruct Hq; [by left|right; auto].
Qed.

(** The rest of the kernel and the host moved on. *)
Lemma res_inv_host (n n' : N) (k k' : sys W) P C Wk x h ex re P' Wk' x' h' ex' re' :
  res_inv_c (SConc n k P C Wk x h ex re) ->
  sems_kept wsems n n' (rest k) (rest k') -> hash_wf wsems live n' k' ->
  calls k' = calls k -> syscall_table k' = syscall_table k ->
  syscall_queue_hash_lock k' = syscall_queue_hash_lock k ->
  (forall q, is_Some (squeues k !! q) -> is_Some (squeues k' !! q)) ->
  res_inv_c (SConc n' k' P' C Wk' x' h' ex' re').
Proof.
  intros [Hh Hw Ht Hc Hf Hd] Hk Hh' Ec Et El Es. split; simpl in *; try done.
  - by apply Hk.
  - by rewrite Et.
  - intros f d Hfd. destruct (Hc f d Hfd) as [s Hs]. exists s.
    destruct (proj1 Hk _ _ (call_own _ _ _ _ _ Hs) (call_count _ _ _ _ _ Hs)).
    eapply call_wf_frame; try done. rewrite Ec. apply Hs.
  - by rewrite Ec.
  - by rewrite Ec.
Qed.

(** A request moved from one place to another. *)
Lemma res_inv_move (n : N) (k k' : sys W) P C Wk x h ex re P' Wk' x' h' ex' re' g f :
  res_inv_c (SConc n k P C Wk x h ex re) ->
  calls k' = calls k -> rest k' = rest k -> syscall_table k' = syscall_table k ->
  syscall_queue_hash k' = syscall_queue_hash k ->
  syscall_queue_hash_lock k' = syscall_queue_hash_lock k ->
  (forall q, thread <$> squeues k' !! q = thread <$> squeues k !! q) ->
  (forall c, C !! f = Some c -> ready (stg c) = ready g) ->
  res_inv_c (SConc n k' P' (set_stage g f C) Wk' x' h' ex' re').
Proof.
  intros [Hh Hw Ht Hc Hf Hd] Ec Er Et Eh El Es Hg. simpl in *.
  assert (hash_wf wsems live n k') as Hh'.
  { eapply hash_wf_frame; try done; rewrite ?Er; try apply Hh. done. }
  split; simpl; rewrite ?Ec, ?Er, ?Et; try done.
  - intros f' d Hfd. apply lookup_set_stage in Hfd as (c & Hfc & _ & En & Ep & Eg).
    destruct (Hc _ _ Hfc) as [s Hs]. exists s.
    eapply call_wf_frame; try done.
    + rewrite Ec. apply Hs.
    + rewrite Er. apply Hs.
    + rewrite (call_count _ _ _ _ _ Hs), Eg. case_decide; [subst; by rewrite (Hg _ Hfc)|done].
    + by apply threads_is_Some.
  - intros f' Hf'. apply lookup_set_stage_is_Some. auto.
Qed.

Lemma post_syscall_inv (f q nr : Z) (p : list Z) (n n' : N) (k k' : sys W) (sem : Z) :
  post_syscall f q nr p (n, k) = (sem, (n', k')) ->
  sem_alloc 0 n = (sem, n') /\ k' = set_calls (<[f := Syscall nr (pad6 p) 0 sem q]> (calls k)) k.
Proof. unfold post_syscall. simpl. destruct (sem_alloc 0 n). by intros [= <- <- <-]. Qed.

Lemma end_syscall_inv (f v : Z) (n n' : N) (k k' : sys W) (c : caller) (s : syscall) :
  call_wf n k f c s -> end_syscall f (n, k) = Ret (v, (n', k')) ->
  ready (stg c) = true /\ v = ret s /\ k' = drop_frame f k /\
  sems n' = delete (sc_sem s) (sems n).
Proof.
  intros Hs. unfold end_syscall. rewrite (call_live _ _ _ _ _ Hs). simpl.
  pose proof (call_count _ _ _ _ _ Hs) as Hc. destruct (ready (stg c)) eqn:E; simpl in Hc.
  - destruct (sem_down_ok _ _ _ Hc ltac:(lia)) as (n1 & -> & Hs1 & _). simpl.
    destruct (sem_free_ok (sc_sem s) n1 0) as (n2 & -> & Hs2 & _).
    { by rewrite Hs1, lookup_insert_eq. }
    simpl. intros [= <- <- <-]. by rewrite Hs2, Hs1, delete_insert_eq.
  - by rewrite (sem_down_blocks _ _ 0).
Qed.

Lemma wake_caller_ok (f : Z) (n : N) (k : sys W) (c : caller) (s : syscall) :
  call_wf n k f c s -> ready (stg c) = false ->
  exists n', wake_caller f (n, k) = Ret (n', k) /\ sems n' = <[sc_sem s := 1]> (sems n).
Proof.
  intros Hs E. unfold wake_caller. simpl. rewrite (call_live _ _ _ _ _ Hs). simpl.
  rewrite (proj2 (Z.eqb_neq _ _) (call_sem _ _ _ _ _ Hs)).
  pose proof (call_count _ _ _ _ _ Hs) as Hc. rewrite E in Hc.
  destruct (sem_up_ok _ _ _ Hc) as (n' & -> & Hs' & _).
  { pose proof sem_max_pos. simpl. lia. }
  by exists n'.
Qed.

Lemma syscall_irq_inv (f : Z) (s : syscall) (n n' : N) (k k' : sys W) :
  calls k !! f = Some s -> syscall_irq (Some f) (n, k) = Ret (n', k') ->
  n' = n /\
  ((queue s = NULL /\ k' = set_works (works k ++ [f]) k) \/
   (queue s <> NULL /\ exists sq, squeues k !! queue s = Some sq /\
      k' = set_squeues (<[queue s := Syscall_queue (f :: lh sq) (thread sq)]> (squeues k)) k)).
Proof.
  intros Hf. unfold syscall_irq. simpl. rewrite Hf. simpl.
  destruct (Z.eqb_spec (queue s) NULL) as [E|E].
  - intros [= <- <-]. auto.
  - destruct (squeues k !! queue s) as [sq|]; [|done]. simpl. intros [= <- <-]. eauto 7.
Qed.

Lemma dequeue_syscall_inv (w f : Z) (k k' : sys W) :
  dequeue_syscall w k = Ret (f, k') -> f <> NULL ->
  exists sq l, squeues k !! w = Some sq /\ lh sq = f :: l /\
    k' = set_squeues (<[w := Syscall_queue l (thread sq)]> (squeues k)) k.
Proof.
  unfold dequeue_syscall. destruct (squeues k !! w) as [sq|] eqn:E; [|done]. simpl.
  destruct (lh sq) as [|f' l] eqn:El; [by intros [= <- <-]|]. intros [= <- <-] _. eauto 7.
Qed.

(** Replacing the list of a queue keeps its thread. *)
Lemma threads_insert (m : gmap Z syscall_queue) (q : Z) (sq : syscall_queue) (l : list Z) :
  m !! q = Some sq ->
  forall p, thread <$> <[q := Syscall_queue l (thread sq)]> m !! p = thread <$> m !! p.
Proof. intros Hq p. rewrite lookup_insert. case_decide; [subst; by rewrite Hq|done]. Qed.

Lemma stage_not_ready (C : gmap Z caller) (f : Z) (g : stage) (c : caller) :
  stage_of C f = Some g -> C !! f = Some c -> stg c = g.
Proof. unfold stage_of. intros H Hc. rewrite Hc in H. by injection H. Qed.

Definition contracts : Prop :=
  slab_ok kmalloc kfree wsems live /\
  syscalls_ok sys_handler sys_pread64 sys_pwrite64 call_pointer
    __get_free_page free_page strcpy sys_mount wsems live.

(** A new call: the semaphore is fresh, so it is nobody else's. *)
Lemma res_inv_call (n n' : N) (k : sys W) P C Wk x h ex re f c s h' :
  res_inv_c (SConc n k P C Wk x h ex re) -> C !! f = None -> f <> NULL ->
  queue s = NULL \/ is_Some (squeues k !! queue s) ->
  sem_alloc 0 n = (sc_sem s, n') -> sc_sem s <> NULL ->
  no s = c_no c -> params s = c_params c -> ready (stg c) = false ->
  res_inv_c (SConc n' (set_calls (<[f := s]> (calls k)) k) P (<[f := c]> C) Wk (S x) h' ex re).
Proof.
  intros [Hh Hw Ht Hc Hf Hd] Hnone HfN Hq Ha Hsem En Ep Er. simpl in *.
  destruct (sem_alloc_ok _ _ _ _ Ha Hsem) as (Hfresh & Hs & _).
  assert (sc_sem s ∉ dom (sems n)) as Hnd by by apply not_elem_of_dom.
  assert (sc_sem s <> syscall_queue_hash_lock k) as Hlk.
  { intros E. rewrite E in Hfresh. rewrite (hash_lock _ _ _ _ Hh) in Hfresh. done. }
  assert (forall g s', calls k !! g = Some s' -> sc_sem s' <> sc_sem s) as Hother.
  { intros g s' Hg E. destruct (Hf g) as [d Hgd]; [by rewrite Hg|].
    destruct (Hc g d Hgd) as [s'' Hs'']. pose proof (call_live _ _ _ _ _ Hs'') as Hl.
    rewrite Hg in Hl. injection Hl as ->. pose proof (call_count _ _ _ _ _ Hs'').
    rewrite E in *. congruence. }
  split; simpl; try done.
  - eapply hash_wf_frame; try done; [|apply Hh]. rewrite Hs, lookup_insert_ne by done. apply Hh.
  - rewrite Hs, dom_insert_L. clear -Hw. set_solver.
  - intros g d. rewrite lookup_insert. case_decide as Hg.
    + intros [= <-]. subst g. exists s. split; simpl; try done.
      * by rewrite lookup_insert_eq.
      * clear -Hw Hnd. set_solver.
      * by rewrite Hs, lookup_insert_eq, Er.
    + intros Hgd. destruct (Hc g d Hgd) as [s' Hs']. exists s'.
      eapply call_wf_frame; try done; simpl.
      * rewrite lookup_insert_ne by done. apply Hs'.
      * apply Hs'.
      * rewrite Hs, lookup_insert_ne; [apply Hs'|]. apply not_eq_sym.
        eapply Hother, Hs'.
  - intros g. rewrite !lookup_insert. case_decide; [by eauto|]. auto.
  - intros g g' s1 s2. rewrite !lookup_insert. repeat case_decide; subst; try done.
    + intros [= <-] H2 E. by destruct (Hother _ _ H2).
    + intros H1 [= <-] E. by destruct (Hother _ _ H1).
    + apply Hd.
Qed.

(** The end of a call: its semaphore and its frame go away. *)
Lemma res_inv_return (n n' : N) (k : sys W) P C Wk x h ex re f s re' :
  res_inv_c (SConc n k P C Wk x h ex re) -> calls k !! f = Some s ->
  syscall_queue_hash_lock k <> sc_sem s -> sc_sem s ∉ wsems (rest k) ->
  sems n' = delete (sc_sem s) (sems n) ->
  res_inv_c (SConc n' (drop_frame f k) P (delete f C) Wk x h ex re').
Proof.
  intros [Hh Hw Ht Hc Hf Hd] Hfs Hlk Hown Hs. simpl in *. split; simpl; try done.
  - eapply hash_wf_frame; try done; [|apply Hh]. rewrite Hs, lookup_delete_ne by done. apply Hh.
  - rewrite Hs, dom_delete_L. clear -Hw Hown. set_solver.
  - intros g d. rewrite lookup_delete. case_decide as Hg; [done|]. intros Hgd.
    destruct (Hc g d Hgd) as [s' Hs']. exists s'.
    eapply call_wf_frame; try done; simpl.
    + rewrite lookup_delete_ne by done. apply Hs'.
    + apply Hs'.
    + rewrite Hs, lookup_delete_ne; [apply Hs'|]. intros E. apply Hg. symmetry.
      eapply Hd; [apply Hs'|exact Hfs|done].
  - intros g. rewrite !lookup_delete. case_decide; [by intros [? ?]|]. auto.
  - intros g g' s1 s2. rewrite !lookup_delete. repeat case_decide; try done. apply Hd.
Qed.

Lemma res_inv_store (n : N) (k : sys W) P C Wk x h ex re Wk' ex' f s v g :
  res_inv_c (SConc n k P C Wk x h ex re) -> calls k !! f = Some s ->
  (forall c, C !! f = Some c -> ready (stg c) = ready g) ->
  res_inv_c (SConc n (set_calls (<[f := with_ret s v]> (calls k)) k) P (set_stage g f C) Wk' x h
               ex' re).
Proof.
  intros [Hh Hw Ht Hc Hf Hd] Hfs Hg. simpl in *. split; simpl; try done.
  - eapply hash_wf_frame; try done; apply Hh.
  - intros f' d Hfd. apply lookup_set_stage in Hfd as (c & Hfc & _ & En & Ep & Eg).
    destruct (Hc _ _ Hfc) as [s' Hs'].
    destruct (decide (f = f')) as [<-|Hne].
    + exists (with_ret s v). pose proof (call_live _ _ _ _ _ Hs') as Hl. rewrite Hfs in Hl.
      injection Hl as <-. destruct Hs' as [? ? ? ? ? ? ? Hcnt ?]. split; simpl; try congruence.
      * by rewrite lookup_insert_eq.
      * by rewrite Hcnt, Eg, (Hg _ Hfc).
    + exists s'. eapply call_wf_frame; try done; simpl.
      * rewrite lookup_insert_ne by done. apply Hs'.
      * apply Hs'.
      * rewrite Eg. apply Hs'.
  - intros f'. rewrite lookup_insert. intros Hf'. apply lookup_set_stage_is_Some, Hf.
    case_decide; [subst; by rewrite Hfs|done].
  - intros a b s1 s2. rewrite !lookup_insert. repeat case_decide; subst; try done.
    + intros [= <-] H2 E. by eapply Hd.
    + intros H1 [= <-] E. by eapply Hd.
    + apply Hd.
Qed.

Lemma res_inv_wake (n n' : N) (k : sys W) P C Wk x h ex re Wk' f s :
  res_inv_c (SConc n k P C Wk x h ex re) -> calls k !! f = Some s ->
  sems n' = <[sc_sem s := 1]> (sems n) -> syscall_queue_hash_lock k <> sc_sem s ->
  res_inv_c (SConc n' k P (set_stage Ready f C) Wk' x h ex re).
Proof.
  intros [Hh Hw Ht Hc Hf Hd] Hfs Hs Hlk. simpl in *. split; simpl; try done.
  - eapply hash_wf_frame; try done; [|apply Hh]. rewrite Hs, lookup_insert_ne by done. apply Hh.
  - rewrite Hs, dom_insert_L. clear -Hw. set_solver.
  - intros f' d Hfd. apply lookup_set_stage in Hfd as (c & Hfc & _ & En & Ep & Eg).
    destruct (Hc _ _ Hfc) as [s' Hs']. exists s'.
    eapply call_wf_frame; try done; try apply Hs'. rewrite Hs, Eg. case_decide as Hff.
    + subst f'. pose proof (call_live _ _ _ _ _ Hs') as Hl. rewrite Hfs in Hl.
      injection Hl as <-. by rewrite lookup_insert_eq.
    + rewrite lookup_insert_ne; [apply Hs'|]. intros E. apply Hff.
      by eapply Hd; [exact Hfs|apply Hs'|].
  - intros f' Hf'. apply lookup_set_stage_is_Some. auto.
Qed.

(** A state in which the stages, places and resources agree. *)
Definition sys_inv (c : sconc N W) : Prop := res_inv_c c /\ place_inv c /\ hist_inv c.

Lemma res_inv_step (c c' : sconc N W) :
  contracts -> sys_step c c' -> sys_inv c -> res_inv_c c'.
Proof.
  intros [Hslab Hsys] Hstep (Hr & Hp & _). destruct Hstep as
    [n k P C Wk x h ex re f q nr p sem n' k' Hf HfN Hq Hnr Hpost Hsem
    |n k P C Wk x h ex re f q nr p n' k' Hf Hpost
    |n k P C Wk x h ex re f Hst|n k P C Wk x h ex re f Hst
    |n k P C Wk x h ex re f c v n' k' Hf Hst Hend
    |n k P C Wk x h ex re f s n' k' Hfs Hirq
    |n k P C Wk x h ex re w f k' Hw Hidle Hdeq HfN|n k P C Wk x h ex re f l Hidle Hwk
    |n k P C Wk x h ex re w f c s r nk v n' k' Hgot Hf Hfs Hres Hrun
    |n k P C Wk x h ex re w f n' k' Hdone Hwake
    |n k P C Wk x h ex re t q n' k' Hnew Hq|n k P C Wk x h ex re n' w' Hk Hl].
  - destruct (post_syscall_inv _ _ _ _ _ _ _ _ _ Hpost) as [Ha ->].
    eapply res_inv_call; try done.
  - destruct (post_syscall_inv _ _ _ _ _ _ _ _ _ Hpost) as [Ha ->].
    destruct (sem_alloc_null _ _ _ Ha) as [Hs _].
    assert (calls k !! f = None) as Hfk.
    { apply eq_None_not_Some. intros [? E]%(inv_frames _ Hr). simpl in E. congruence. }
    eapply res_inv_host; try done; unfold sems_kept; simpl; try (by rewrite Hs).
    + eapply hash_wf_frame; try apply Hr; try done. rewrite Hs. apply Hr.
    + by rewrite delete_insert_id.
  - eapply res_inv_move; try done. intros c Hc. by rewrite (stage_not_ready _ _ _ _ Hst Hc).
  - eapply res_inv_move; try done. intros c Hc. by rewrite (stage_not_ready _ _ _ _ Hst Hc).
  - destruct (inv_calls _ Hr _ _ Hf) as [s Hs]. simpl in Hs.
    destruct (end_syscall_inv _ _ _ _ _ _ _ _ Hs Hend) as (_ & _ & -> & Hs').
    eapply res_inv_return; try done; try apply Hs. apply not_eq_sym, Hs.
  - assert (stage_of C f = Some Pending) as Hst by (apply (inv_pending _ Hp); left).
    assert (forall c, C !! f = Some c -> ready (stg c) = false) as Hnr.
    { intros c Hc. by rewrite (stage_not_ready _ _ _ _ Hst Hc). }
    destruct (syscall_irq_inv _ _ _ _ _ _ Hfs Hirq) as (-> & [[E ->]|(E & sq & Hq & ->)]).
    + rewrite E. simpl. by eapply res_inv_move.
    + rewrite (proj2 (Z.eqb_neq _ _) E). eapply res_inv_move; try done. simpl. by apply threads_insert.
  - destruct (dequeue_syscall_inv _ _ _ _ Hdeq HfN) as (sq & l & Hq & El & ->).
    assert (stage_of C f = Some Queued) as Hst.
    { apply (proj2 (inv_queued _ Hp _ _ Hq)). rewrite El. left. }
    eapply res_inv_move; try done.
    + simpl. by apply threads_insert.
    + intros c Hc. by rewrite (stage_not_ready _ _ _ _ Hst Hc).
  - assert (stage_of C f = Some OnWork) as Hst.
    { apply (inv_works _ Hp). simpl. rewrite Hwk. left. }
    eapply res_inv_move; try done. intros c Hc. by rewrite (stage_not_ready _ _ _ _ Hst Hc).
  - apply (proj1 (inv_hands _ Hp)) in Hgot as Hst. simpl in Hst.
    destruct (store_result_ok _ _ _ _ _ _ _ _ wsems live f s n k Hsys (inv_table _ Hr) Hfs)
      as (r' & n1 & w1 & _ & E & Hk & Hl). rewrite E in Hrun. injection Hrun as <- <- <-.
    eapply (res_inv_store n1 (set_rest w1 k) P C Wk x h ex re); [|done|].
    + eapply res_inv_host; try done. eapply hash_wf_rest; try done. apply Hr.
    + intros d Hd. by rewrite (stage_not_ready _ _ _ _ Hst Hd).
  - apply (proj2 (inv_hands _ Hp)) in Hdone as Hst. simpl in Hst.
    destruct (C !! f) as [c|] eqn:Hf; [|unfold stage_of in Hst; by rewrite Hf in Hst].
    destruct (inv_calls _ Hr _ _ Hf) as [s Hs]. simpl in Hs.
    destruct (wake_caller_ok _ _ _ _ _ Hs) as (n1 & E & Hn1).
    { by rewrite (stage_not_ready _ _ _ _ Hst Hf). }
    rewrite E in Hwake. injection Hwake as <- <-.
    eapply res_inv_wake; try done; [apply Hs|apply not_eq_sym, Hs].
  - destruct (new_syscall_queue_ok _ _ _ _ n k t Hslab (inv_hash _ Hr))
      as (q' & n1 & k1 & E & Hh & Hk & _ & Hc & _ & Ht & Hlk & Es & Hfr).
    rewrite E in Hnew. injection Hnew as -> -> ->.
    eapply res_inv_host; try done.
    intros p. rewrite Es, (proj2 (Z.eqb_neq _ _) Hq), lookup_insert. by case_decide.
  - eapply res_inv_host; try done. eapply hash_wf_rest; try done. apply Hr.
Qed.

(** ** Places *)

(** The stages in which a request is in some queue or in the hands of a thread. *)
Definition tracked (g : stage) : bool :=
  match g with Posted | Ready | Lost => false | _ => true end.

Lemma place_inv_same (n n' : N) (k k' : sys W) P C C' Wk x h ex re x' h' ex' re' :
  place_inv (SConc n k P C Wk x h ex re) ->
  (forall f X, tracked X = true -> stage_of C' f = Some X <-> stage_of C f = Some X) ->
  (forall f, stage_of C f = Some Queued -> calls k' !! f = calls k !! f) ->
  squeues k' = squeues k -> works k' = works k ->
  place_inv (SConc n' k' P C' Wk x' h' ex' re').
Proof.
  intros [[Hp1 Hp2] Hq [Hw1 Hw2] Ho [Hg Hd] Ht] HC Hcalls Es Ew. simpl in *.
  split; simpl; rewrite ?Es, ?Ew; try done.
  - split; [done|]. intros f. by rewrite HC.
  - intros q sq Hsq. destruct (Hq q sq Hsq) as [Hn Hl]. split; [done|]. intros f.
    rewrite HC, Hl by done. split; intros [Hst Hqq]; (split; [done|]); by rewrite Hcalls in *.
  - split; [done|]. intros f. by rewrite HC.
  - intros f s Hst Hfs. rewrite HC in Hst by done. rewrite Hcalls in Hfs by done. eauto.
  - split; intros w f; by rewrite HC.
Qed.

Lemma place_inv_trigger (n : N) (k : sys W) P C Wk x h ex re f :
  place_inv (SConc n k P C Wk x h ex re) -> stage_of C f = Some Posted ->
  place_inv (SConc n k (P ++ [f]) (set_stage Pending f C) Wk x h ex re).
Proof.
  intros [[Hp1 Hp2] Hq [Hw1 Hw2] Ho [Hg Hd] Ht] Hst. simpl in *. split; simpl; try done.
  - split.
    + apply NoDup_app. split_and!; [done| |apply NoDup_singleton].
      intros f' Hf' ->%list_elem_of_singleton. apply Hp2 in Hf'. congruence.
    + intros f'. rewrite (stage_new _ _ _ _ _ Hst), <- Hp2, elem_of_app, list_elem_of_singleton. clear. tauto.
  - intros q sq Hsq. destruct (Hq q sq Hsq) as [Hn Hl]. split; [done|]. intros f'.
    by rewrite (stage_other _ _ _ _ _ _ Hst), Hl.
  - split; [done|]. intros f'. by rewrite (stage_other _ _ _ _ _ _ Hst).
  - intros f' s. rewrite (stage_other _ _ _ _ _ _ Hst) by done. apply Ho.
  - split; intros w f'; by rewrite (stage_other _ _ _ _ _ _ Hst).
Qed.

Lemma place_inv_irq (n : N) (k k' : sys W) P C Wk x h ex re f s n' :
  place_inv (SConc n k (f :: P) C Wk x h ex re) -> calls k !! f = Some s ->
  syscall_irq (Some f) (n, k) = Ret (n', k') ->
  place_inv (SConc n' k' P (set_stage (if queue s =? NULL then OnWork else Queued) f C) Wk x h ex re).
Proof.
  intros [[Hp1 Hp2] Hq [Hw1 Hw2] Ho [Hg Hd] Ht] Hfs Hirq. simpl in *.
  assert (stage_of C f = Some Pending) as Hst by (apply Hp2; left).
  apply NoDup_cons in Hp1 as [Hnin Hp1].
  destruct (syscall_irq_inv _ _ _ _ _ _ Hfs Hirq) as (-> & [[E ->]|(E & sq & Hsq & ->)]).
  - rewrite E. simpl. split; simpl; try done.
    + split; [done|]. intros f'. rewrite (stage_old _ _ _ _ _ Hst), <- Hp2, elem_of_cons by done.
      clear -Hnin. naive_solver.
    + intros q sq Hqq. destruct (Hq q sq Hqq) as [Hn Hl]. split; [done|]. intros f'.
      by rewrite (stage_other _ _ _ _ _ _ Hst), Hl.
    + split.
      * apply NoDup_app. split_and!; [done| |apply NoDup_singleton].
        intros f' Hf' ->%list_elem_of_singleton. apply Hw2 in Hf'. congruence.
      * intros f'. rewrite (stage_new _ _ _ _ _ Hst), <- Hw2, elem_of_app, list_elem_of_singleton. clear. tauto.
    + intros f' s'. rewrite (stage_other _ _ _ _ _ _ Hst) by done. apply Ho.
    + split; intros w f'; by rewrite (stage_other _ _ _ _ _ _ Hst).
  - rewrite (proj2 (Z.eqb_neq _ _) E). split; simpl; try done.
    + split; [done|]. intros f'. rewrite (stage_old _ _ _ _ _ Hst), <- Hp2, elem_of_cons by done.
      clear -Hnin. naive_solver.
    + intros q sq'. rewrite lookup_insert. case_decide as Hqe.
      * intros [= <-]. simpl. subst q. destruct (Hq _ _ Hsq) as [Hn Hl]. split.
        -- apply NoDup_cons. split; [|done]. intros [? _]%Hl. congruence.
        -- intros f'. rewrite elem_of_cons, (stage_new _ _ _ _ _ Hst), Hl.
           assert (f' = f -> queue <$> calls k !! f' = Some (queue s)) as Hff by (intros ->; by rewrite Hfs).
           clear -Hff. tauto.
      * intros Hqq. destruct (Hq q sq' Hqq) as [Hn Hl]. split; [done|]. intros f'.
        rewrite (stage_new _ _ _ _ _ Hst), Hl.
        assert (f' = f -> queue <$> calls k !! f' <> Some q) as Hff
          by (intros ->; rewrite Hfs; simpl; congruence).
        clear -Hff. tauto.
    + split; [done|]. intros f'. by rewrite (stage_other _ _ _ _ _ _ Hst).
    + intros f' s'. rewrite (stage_new _ _ _ _ _ Hst). intros [-> | ?]; [|by apply Ho].
      rewrite Hfs. by intros [= <-].
    + split; intros w f'; by rewrite (stage_other _ _ _ _ _ _ Hst).
    + intros q. rewrite Ht, lookup_insert. case_decide; [subst q; rewrite Hsq|done].
      split; (intros [?|_]; [by left|by right]).
Qed.

Lemma threads_mono (Wk : gmap Z worker) (w q : Z) (x y : worker) :
  Wk !! w = Some x -> is_Some (<[w := y]> Wk !! q) <-> is_Some (Wk !! q).
Proof. intros Hw. rewrite lookup_insert. case_decide; [subst; by rewrite Hw|done]. Qed.

Lemma place_inv_fetch (n : N) (k k' : sys W) P C Wk x h ex re w f :
  place_inv (SConc n k P C Wk x h ex re) -> Wk !! w = Some WIdle ->
  dequeue_syscall w k = Ret (f, k') -> f <> NULL ->
  place_inv (SConc n k' P (set_stage (Taken w) f C) (<[w := WGot f]> Wk) x h ex re).
Proof.
  intros [[Hp1 Hp2] Hq [Hw1 Hw2] Ho Hh Ht] Hidle Hdeq HfN. simpl in *.
  destruct (dequeue_syscall_inv _ _ _ _ Hdeq HfN) as (sq & l & Hsq & El & ->).
  destruct (Hq _ _ Hsq) as [Hn Hl]. rewrite El in Hn, Hl. apply NoDup_cons in Hn as [Hfl Hn].
  destruct (proj1 (Hl f)) as [Hst Hqf]; [left|]. split; simpl; try done.
  - split; [done|]. intros f'. by rewrite (stage_other _ _ _ _ _ _ Hst).
  - intros q sq'. rewrite lookup_insert. case_decide as Hqe.
    + intros [= <-]. subst q. simpl. split; [done|]. intros f'.
      rewrite (stage_old _ _ _ _ _ Hst) by done. specialize (Hl f'). rewrite elem_of_cons in Hl.
      clear -Hl Hfl. naive_solver.
    + intros Hqq. destruct (Hq q sq' Hqq) as [Hn' Hl']. split; [done|]. intros f'.
      rewrite (stage_old _ _ _ _ _ Hst), Hl' by done. clear -Hqf Hqe. naive_solver congruence.
  - split; [done|]. intros f'. by rewrite (stage_other _ _ _ _ _ _ Hst).
  - intros f' s. rewrite (stage_old _ _ _ _ _ Hst) by done. intros [_ ?]. by apply Ho.
  - by eapply hands_take.
  - intros q. rewrite (threads_mono _ _ _ _ _ Hidle), Ht, lookup_insert.
    case_decide; [subst q; rewrite Hsq|done].
      split; (intros [?|_]; [by left|by right]).
Qed.

Lemma place_inv_work (n : N) (k : sys W) P C Wk x h ex re f l :
  place_inv (SConc n k P C Wk x h ex re) -> Wk !! NULL = Some WIdle -> works k = f :: l ->
  place_inv (SConc n (set_works l k) P (set_stage (Taken NULL) f C) (<[NULL := WGot f]> Wk) x h ex re).
Proof.
  intros [[Hp1 Hp2] Hq [Hw1 Hw2] Ho Hh Ht] Hidle Hwk. simpl in *.
  rewrite Hwk in Hw1, Hw2. apply NoDup_cons in Hw1 as [Hfl Hw1].
  assert (stage_of C f = Some OnWork) as Hst by (apply Hw2; left). split; simpl; try done.
  - split; [done|]. intros f'. by rewrite (stage_other _ _ _ _ _ _ Hst).
  - intros q sq Hsq. destruct (Hq q sq Hsq) as [Hn Hl]. split; [done|]. intros f'.
    by rewrite (stage_other _ _ _ _ _ _ Hst), Hl.
  - split; [done|]. intros f'. rewrite (stage_old _ _ _ _ _ Hst), <- Hw2, elem_of_cons by done.
    clear -Hfl. naive_solver.
  - intros f' s. rewrite (stage_other _ _ _ _ _ _ Hst) by done. apply Ho.
  - by eapply hands_take.
  - intros q. by rewrite (threads_mono _ _ _ _ _ Hidle).
Qed.

(** A request that a thread already holds moves on: the queues do not change. *)
Lemma place_inv_hold (n n' : N) (k k' : sys W) P C Wk x h ex re ex' w f g0 g y0 y :
  Wk !! w = Some y0 -> place_inv (SConc n k P C Wk x h ex re) -> stage_of C f = Some g0 ->
  (forall X, X ∈ [Pending; Queued; OnWork] -> X <> g0 /\ X <> g) ->
  (forall p, queue <$> calls k' !! p = queue <$> calls k !! p) ->
  squeues k' = squeues k -> works k' = works k ->
  hands (<[w := y]> Wk) (set_stage g f C) ->
  place_inv (SConc n' k' P (set_stage g f C) (<[w := y]> Wk) x h ex' re).
Proof.
  intros Hwk [[Hp1 Hp2] Hq [Hw1 Hw2] Ho Hh Ht] Hst HX Hcalls Es Ew Hh'. simpl in *.
  destruct (HX Pending) as [? ?]; [by repeat constructor|].
  destruct (HX Queued) as [? ?]; [by repeat constructor|].
  destruct (HX OnWork) as [? ?]; [by repeat constructor|]. split; simpl; rewrite ?Es, ?Ew; try done.
  - split; [done|]. intros f'. by rewrite (stage_other _ _ _ _ _ _ Hst).
  - intros q sq Hsq. destruct (Hq q sq Hsq) as [Hn Hl]. split; [done|]. intros f'.
    by rewrite (stage_other _ _ _ _ _ _ Hst), Hl, Hcalls.
  - split; [done|]. intros f'. by rewrite (stage_other _ _ _ _ _ _ Hst).
  - intros f' s. rewrite (stage_other _ _ _ _ _ _ Hst) by done. intros Hq' Hfs.
    specialize (Hcalls f'). rewrite Hfs in Hcalls. destruct (calls k !! f') as [s'|] eqn:E; [|done].
    injection Hcalls as ->. by apply (Ho f').
  - intros q. by rewrite (threads_mono _ _ _ _ _ Hwk).
Qed.

Lemma store_calls_queue (k : sys W) (w' : W) (f v : Z) (s : syscall) :
  calls k !! f = Some s ->
  forall p, queue <$> calls (set_calls (<[f := with_ret s v]> (calls k)) (set_rest w' k)) !! p =
            queue <$> calls k !! p.
Proof. intros Hf p. simpl. rewrite lookup_insert. case_decide; [subst; by rewrite Hf|done]. Qed.

(** A new queue is empty and gets an idle thread. *)
Lemma place_inv_queue (n n' : N) (k k' : sys W) P C Wk x h ex re q t :
  res_inv_c (SConc n k P C Wk x h ex re) -> place_inv (SConc n k P C Wk x h ex re) ->
  calls k' = calls k -> works k' = works k -> squeues k !! q = None -> q <> NULL ->
  squeues k' = <[q := Syscall_queue [] t]> (squeues k) ->
  place_inv (SConc n' k' P C (<[q := WIdle]> Wk) x h ex re).
Proof.
  intros Hr [[Hp1 Hp2] Hq [Hw1 Hw2] Ho [Hg Hd] Ht] Ec Ew Hfr HqN Es. simpl in *.
  assert (Wk !! q = None) as Hwq.
  { apply eq_None_not_Some. intros [?|E]%Ht; [done|]. rewrite Hfr in E. by apply is_Some_None in E. }
  split; simpl; rewrite ?Ec, ?Ew, ?Es; try done.
  - intros q' sq. rewrite lookup_insert. case_decide; [|apply Hq]. subst q'. intros [= <-]. simpl.
    split; [constructor|]. intros f. split; [by intros ?%elem_of_nil|]. intros [Hst Hqf].
    unfold stage_of in Hst. destruct (C !! f) as [c|] eqn:Hf; [|done].
    destruct (inv_calls _ Hr f c Hf) as [s Hs]. simpl in Hs. rewrite (call_live _ _ _ _ _ Hs) in Hqf.
    injection Hqf as E. destruct (call_queue _ _ _ _ _ Hs) as [E'|E']; rewrite E in E'; [done|].
    rewrite Hfr in E'. by apply is_Some_None in E'.
  - split; intros w f; rewrite lookup_insert; case_decide; try done; subst w;
      rewrite <- ?Hg, <- ?Hd, Hwq; done.
  - intros q'. rewrite !lookup_insert. case_decide; [|apply Ht]. split; [by right|done].
Qed.

Lemma place_inv_step (c c' : sconc N W) :
  contracts -> sys_step c c' -> sys_inv c -> place_inv c'.
Proof.
  intros [Hslab Hsys] Hstep (Hr & Hp & _). destruct Hstep as
    [n k P C Wk x h ex re f q nr p sem n' k' Hf HfN Hq Hnr Hpost Hsem
    |n k P C Wk x h ex re f q nr p n' k' Hf Hpost
    |n k P C Wk x h ex re f Hst|n k P C Wk x h ex re f Hst
    |n k P C Wk x h ex re f c v n' k' Hf Hst Hend
    |n k P C Wk x h ex re f s n' k' Hfs Hirq
    |n k P C Wk x h ex re w f k' Hw Hidle Hdeq HfN|n k P C Wk x h ex re f l Hidle Hwk
    |n k P C Wk x h ex re w f c s r nk v n' k' Hgot Hf Hfs Hres Hrun
    |n k P C Wk x h ex re w f n' k' Hdone Hwake
    |n k P C Wk x h ex re t q n' k' Hnew Hq|n k P C Wk x h ex re n' w' Hk Hl].
  - destruct (post_syscall_inv _ _ _ _ _ _ _ _ _ Hpost) as [Ha ->].
    eapply place_inv_same; try done.
    + intros f' X HX. unfold stage_of. rewrite lookup_insert. case_decide; [|done].
      subst f'. rewrite Hf. simpl. clear -HX. split; [by intros [= <-]|done].
    + intros f' Hst. simpl. rewrite lookup_insert_ne; [done|]. intros <-.
      unfold stage_of in Hst. by rewrite Hf in Hst.
  - destruct (post_syscall_inv _ _ _ _ _ _ _ _ _ Hpost) as [Ha ->].
    eapply place_inv_same; try done. intros f' Hst. simpl.
    assert (f <> f'). { intros <-. unfold stage_of in Hst. by rewrite Hf in Hst. }
    by rewrite lookup_delete_ne, lookup_insert_ne.
  - by apply place_inv_trigger.
  - eapply place_inv_same; try done. intros f' X HX.
    by apply (stage_other _ _ _ Posted); [|intros ->..].
  - destruct (inv_calls _ Hr _ _ Hf) as [s Hs]. simpl in Hs.
    destruct (end_syscall_inv _ _ _ _ _ _ _ _ Hs Hend) as (Hrd & _ & -> & Hs').
    eapply place_inv_same; try done.
    + intros f' X HX. unfold stage_of. rewrite lookup_delete. case_decide; [|done].
      subst f'. rewrite Hf. simpl. split; [done|]. intros [= <-]. by destruct (stg c).
    + intros f' Hst'. simpl. rewrite lookup_delete_ne; [done|]. intros <-.
      unfold stage_of in Hst'. rewrite Hf in Hst'. injection Hst' as E. by rewrite E in Hrd.
  - by eapply place_inv_irq.
  - by eapply place_inv_fetch.
  - by apply place_inv_work.
  - apply (proj1 (inv_hands _ Hp)) in Hgot as Hst. simpl in Hst.
    destruct (store_result_ok _ _ _ _ _ _ _ _ wsems live f s n k Hsys (inv_table _ Hr) Hfs)
      as (r' & n1 & w1 & _ & E & Hk & Hl). rewrite E in Hrun. injection Hrun as <- <- <-.
    eapply place_inv_hold; try done.
    + intros X HX. split; intros ->; by repeat (apply elem_of_cons in HX as [[=]|HX] || apply elem_of_nil in HX).
    + by apply store_calls_queue.
    + apply hands_run; [apply Hp|done].
  - apply (proj2 (inv_hands _ Hp)) in Hdone as Hst. simpl in Hst.
    assert (k' = k) as ->.
    { unfold wake_caller in Hwake. simpl in Hwake. destruct (calls k !! f) as [s|]; [|done].
      simpl in Hwake. destruct (sc_sem s =? NULL); [by injection Hwake|].
      by destruct (sem_up _ _); simpl in Hwake; [injection Hwake| | |]. }
    eapply place_inv_hold; try done.
    + intros X HX. split; intros ->; by repeat (apply elem_of_cons in HX as [[=]|HX] || apply elem_of_nil in HX).
    + apply hands_wake; [apply Hp|done].
  - destruct (new_syscall_queue_ok _ _ _ _ n k t Hslab (inv_hash _ Hr))
      as (q' & n1 & k1 & E & _ & _ & _ & Hc & Hwk & _ & _ & Es & Hfr).
    rewrite E in Hnew. injection Hnew as -> -> ->. specialize (Hfr Hq).
    rewrite (proj2 (Z.eqb_neq _ _) Hq) in Es.
    by eapply place_inv_queue.
  - by eapply place_inv_same.
Qed.

(** ** Histories *)

(** A stage change that neither stores a result nor forgets one. *)
Lemma hist_inv_move (n n' : N) (k k' : sys W) P C C' Wk x h ex re P' Wk' :
  hist_inv (SConc n k P C Wk x h ex re) ->
  (forall f d, C' !! f = Some d -> exists c, C !! f = Some c /\ ticket d = ticket c /\
     c_no d = c_no c /\ c_params d = c_params c /\ stored (stg d) = stored (stg c)) ->
  (forall f s, is_Some (C !! f) -> calls k' !! f = Some s -> calls k !! f = Some s) ->
  hist_inv (SConc n' k' P' C' Wk' x h ex re).
Proof.
  intros [H1 H2 H3 H4 H5 H6] HC Hk. simpl in *. split; simpl; try done.
  - intros f d (c & Hc & Et & En & Ep & _)%HC. rewrite Et, En, Ep. by eapply H1.
  - intros f g d e (c & Hc & Et & _)%HC (c' & Hc' & Et' & _)%HC E. eapply H2; [done..|congruence].
  - intros f d s (c & Hc & Et & En & Ep & Es)%HC Hs. rewrite Et, En, Ep, Es.
    eapply H3; [done|]. apply Hk; [by rewrite Hc|done].
  - destruct H6 as [H6 H7]. split; [done|]. intros t v Htv. destruct (H7 t v Htv) as [? H8].
    split; [done|]. intros f d (c & Hc & -> & _)%HC. by eapply H8.
Qed.

Lemma hist_inv_stage (n n' : N) (k k' : sys W) P C Wk x h ex re P' Wk' f g g0 :
  hist_inv (SConc n k P C Wk x h ex re) -> stage_of C f = Some g0 -> stored g0 = stored g ->
  calls k' = calls k -> hist_inv (SConc n' k' P' (set_stage g f C) Wk' x h ex re).
Proof.
  intros H Hst Hg Ec. eapply hist_inv_move; [done| |by rewrite Ec].
  intros f' d Hd. apply lookup_set_stage in Hd as (c & Hc & ? & ? & ? & Es).
  exists c. split_and!; try done. rewrite Es. case_decide; [|done]. subst f'.
  by rewrite (stage_not_ready _ _ _ _ Hst Hc).
Qed.

Lemma hist_inv_call (n n' : N) (k : sys W) P C Wk x h ex re f s nr p :
  hist_inv (SConc n k P C Wk x h ex re) -> C !! f = None ->
  hist_inv (SConc n' (set_calls (<[f := s]> (calls k)) k) P
    (<[f := Caller x nr p Posted]> C) Wk (S x) (h ++ [(x, nr, p)]) ex re).
Proof.
  intros [H1 H2 H3 [H4 H4'] [H5 H5'] [H6 H6']] Hf. simpl in *. rewrite Forall_forall in H5'.
  split; simpl.
  - intros g d. rewrite lookup_insert. case_decide.
    + intros [= <-]. simpl. split; [lia|]. apply elem_of_app. right. by apply list_elem_of_singleton.
    + intros Hd. destruct (H1 _ _ Hd). split; [lia|]. apply elem_of_app. by left.
  - intros a b d e. rewrite !lookup_insert. repeat case_decide; subst; try done.
    + intros [= <-] He. simpl. destruct (H1 _ _ He). lia.
    + intros Hd [= <-]. simpl. destruct (H1 _ _ Hd). lia.
    + apply H2.
  - intros g d s'. rewrite !lookup_insert. case_decide; [|apply H3].
    intros [= <-] _. simpl. intros ([[[t a] b] r] & E & He)%list_elem_of_fmap. simpl in E. subst t.
    apply H4' in He as [He _]. lia.
  - split; [done|]. intros t a b r [? ?]%H4'. split; [lia|]. apply elem_of_app. by left.
  - split.
    + rewrite fmap_app. simpl. apply NoDup_app. split_and!; [done| |apply NoDup_singleton].
      intros t (e & -> & He)%list_elem_of_fmap E%list_elem_of_singleton. apply H5' in He. lia.
    + apply Forall_app. split; [|by repeat constructor; simpl; lia].
      apply Forall_forall. intros e He%H5'. lia.
  - split; [done|]. intros t v Htv. destruct (H6' t v Htv) as [(a & b & r & He & Hv) H7].
    split; [by eauto|]. intros g d. rewrite lookup_insert. case_decide; [|apply H7].
    intros [= <-]. simpl. apply H4' in He as [He _]. lia.
Qed.

Lemma hist_inv_return (n n' : N) (k : sys W) P C Wk x h ex re f c s :
  hist_inv (SConc n k P C Wk x h ex re) -> C !! f = Some c -> calls k !! f = Some s ->
  stored (stg c) = true ->
  hist_inv (SConc n' (drop_frame f k) P (delete f C) Wk x h ex (re ++ [(ticket c, ret s)])).
Proof.
  intros [H1 H2 H3 H4 H5 [H6 H6']] Hf Hs Hst. simpl in *.
  pose proof (H3 _ _ _ Hf Hs) as Hr. rewrite Hst in Hr. destruct Hr as (r & Her & Hret).
  split; simpl; try done.
  - intros g d. rewrite lookup_delete. case_decide; [done|]. apply H1.
  - intros a b d e. rewrite !lookup_delete. repeat case_decide; try done. apply H2.
  - intros g d s'. rewrite !lookup_delete. case_decide; [done|]. apply H3.
  - split.
    + rewrite fmap_app. simpl. apply NoDup_app. split_and!; [done| |apply NoDup_singleton].
      intros t ([t' v] & -> & He)%list_elem_of_fmap E%list_elem_of_singleton. simpl in E.
      apply H6' in He as [_ He]. by destruct (He _ _ Hf).
    + intros t v [Htv|E%list_elem_of_singleton]%elem_of_app.
      * destruct (H6' t v Htv) as [? H7]. split; [done|]. intros g d. rewrite lookup_delete.
        case_decide; [done|]. apply H7.
      * injection E as -> ->. split; [by eauto|]. intros g d. rewrite lookup_delete.
        case_decide as Hg; [done|]. intros Hd E. apply Hg. by eapply H2.
Qed.

Lemma hist_inv_run (n n' : N) (k k' : sys W) P C Wk x h ex re f c s r w Wk' :
  hist_inv (SConc n k P C Wk x h ex re) -> C !! f = Some c -> calls k !! f = Some s ->
  stored (stg c) = false -> no s = c_no c -> params s = c_params c ->
  calls k' = <[f := with_ret s (s32 r)]> (calls k) ->
  hist_inv (SConc n' k' P (set_stage (Stored w) f C) Wk' x h
              (ex ++ [(ticket c, no s, params s, r)]) re).
Proof.
  intros [H1 H2 H3 [H4 H4'] H5 [H6 H6']] Hf Hs Hst En Ep Ek. simpl in *.
  pose proof (H3 _ _ _ Hf Hs) as Hnew. rewrite Hst in Hnew. split; simpl; try done.
  - intros g d (c' & Hc & -> & -> & -> & _)%lookup_set_stage. by eapply H1.
  - intros a b d e (c1 & Hc1 & -> & _)%lookup_set_stage (c2 & Hc2 & -> & _)%lookup_set_stage.
    by apply H2.
  - intros g d s' (c' & Hc & Et & En' & Ep' & Eg)%lookup_set_stage Hs'. rewrite Ek in Hs'.
    rewrite Et, En', Ep', Eg. case_decide as Hg.
    + subst g. assert (c' = c) as -> by congruence. rewrite lookup_insert_eq in Hs'.
      injection Hs' as <-. simpl. exists r. split; [|done]. apply elem_of_app. right.
      apply list_elem_of_singleton. congruence.
    + rewrite lookup_insert_ne in Hs' by done. pose proof (H3 _ _ _ Hc Hs') as Hc3.
      destruct (stored (stg c')).
      * destruct Hc3 as (r' & ? & ?). exists r'. split; [|done]. apply elem_of_app. by left.
      * rewrite fmap_app. intros [?|E%list_elem_of_singleton]%elem_of_app; [done|]. simpl in E.
        apply Hg. symmetry. by eapply H2.
  - split.
    + rewrite fmap_app. simpl. apply NoDup_app. split_and!; [done| |apply NoDup_singleton].
      by intros t Ht ->%list_elem_of_singleton.
    + intros t a b r' [He|E%list_elem_of_singleton]%elem_of_app; [by eapply H4'|].
      injection E as -> -> -> ->. rewrite En, Ep. by eapply H1.
  - split; [done|]. intros t v Htv. destruct (H6' t v Htv) as [(a & b & r' & He & Hv) H7]. split.
    + exists a, b, r'. split; [|done]. apply elem_of_app. by left.
    + intros g d (c' & Hc & -> & _)%lookup_set_stage. by eapply H7.
Qed.

Lemma wake_caller_same (f : Z) (n n' : N) (k k' : sys W) :
  wake_caller f (n, k) = Ret (n', k') -> k' = k.
Proof.
  unfold wake_caller. simpl. destruct (calls k !! f) as [s|]; [|done]. simpl.
  destruct (sc_sem s =? NULL); [by intros [= _ <-]|].
  destruct (sem_up _ _); simpl; [by intros [= _ <-]|done..].
Qed.

Lemma hist_inv_step (c c' : sconc N W) :
  contracts -> sys_step c c' -> sys_inv c -> hist_inv c'.
Proof.
  intros [Hslab Hsys] Hstep (Hr & Hp & Hh). destruct Hstep as
    [n k P C Wk x h ex re f q nr p sem n' k' Hf HfN Hq Hnr Hpost Hsem
    |n k P C Wk x h ex re f q nr p n' k' Hf Hpost
    |n k P C Wk x h ex re f Hst|n k P C Wk x h ex re f Hst
    |n k P C Wk x h ex re f c v n' k' Hf Hst Hend
    |n k P C Wk x h ex re f s n' k' Hfs Hirq
    |n k P C Wk x h ex re w f k' Hw Hidle Hdeq HfN|n k P C Wk x h ex re f l Hidle Hwk
    |n k P C Wk x h ex re w f c s r nk v n' k' Hgot Hf Hfs Hres Hrun
    |n k P C Wk x h ex re w f n' k' Hdone Hwake
    |n k P C Wk x h ex re t q n' k' Hnew Hq|n k P C Wk x h ex re n' w' Hk Hl].
  - destruct (post_syscall_inv _ _ _ _ _ _ _ _ _ Hpost) as [Ha ->]. by eapply hist_inv_call.
  - destruct (post_syscall_inv _ _ _ _ _ _ _ _ _ Hpost) as [Ha ->].
    eapply hist_inv_move; [done|by eauto 10|]. intros g s [d Hd]. simpl.
    assert (f <> g) by congruence. by rewrite lookup_delete_ne, lookup_insert_ne.
  - by eapply hist_inv_stage.
  - by eapply hist_inv_stage.
  - destruct (inv_calls _ Hr _ _ Hf) as [s Hs]. simpl in Hs.
    destruct (end_syscall_inv _ _ _ _ _ _ _ _ Hs Hend) as (Hrd & -> & -> & _).
    eapply hist_inv_return; [done|done|apply Hs|]. by destruct (stg c).
  - assert (stage_of C f = Some Pending) as Hst by (apply (inv_pending _ Hp); left).
    destruct (syscall_irq_inv _ _ _ _ _ _ Hfs Hirq) as (_ & [[E ->]|(E & sq & Hq & ->)]);
      (eapply hist_inv_stage; [done|done| |done]); by destruct (queue s =? NULL).
  - destruct (dequeue_syscall_inv _ _ _ _ Hdeq HfN) as (sq & l & Hq & El & ->).
    assert (stage_of C f = Some Queued) as Hst.
    { apply (proj2 (inv_queued _ Hp _ _ Hq)). rewrite El. left. }
    by eapply hist_inv_stage.
  - assert (stage_of C f = Some OnWork) as Hst.
    { apply (inv_works _ Hp). simpl. rewrite Hwk. left. }
    by eapply hist_inv_stage.
  - apply (proj1 (inv_hands _ Hp)) in Hgot as Hst. simpl in Hst.
    destruct (store_result_ok _ _ _ _ _ _ _ _ wsems live f s n k Hsys (inv_table _ Hr) Hfs)
      as (r' & n1 & w1 & Er & E & _ & _). rewrite E in Hrun. injection Hrun as <- <- <-.
    rewrite Er in Hres. injection Hres as <- <-.
    destruct (inv_calls _ Hr _ _ Hf) as [s' Hs]. simpl in Hs.
    assert (s' = s) as -> by (pose proof (call_live _ _ _ _ _ Hs); congruence).
    eapply hist_inv_run; try done; try apply Hs. by rewrite (stage_not_ready _ _ _ _ Hst Hf).
  - apply (proj2 (inv_hands _ Hp)) in Hdone as Hst. simpl in Hst.
    rewrite (wake_caller_same _ _ _ _ _ Hwake). by eapply hist_inv_stage.
  - destruct (new_syscall_queue_ok _ _ _ _ n k t Hslab (inv_hash _ Hr))
      as (q' & n1 & k1 & E & _ & _ & _ & Hc & _).
    rewrite E in Hnew. injection Hnew as -> -> ->.
    eapply hist_inv_move; [done|by eauto 10|]. by rewrite Hc.
  - eapply hist_inv_move; [done|by eauto 10|done].
Qed.

Lemma sys_inv_step (c c' : sconc N W) : contracts -> sys_step c c' -> sys_inv c -> sys_inv c'.
Proof.
  intros Hc Hs Hi. split_and!; [by eapply res_inv_step|by eapply place_inv_step|by eapply hist_inv_step].
Qed.

Lemma sys_inv_steps (c c' : sconc N W) : contracts -> rtc sys_step c c' -> sys_inv c -> sys_inv c'.
Proof. intros Hc. induction 1; eauto using sys_inv_step. Qed.

(** ** Start of the system *)

(** The zero-initialised data of syscalls.c, before [syscall_init]. *)
Record fresh_sys (n : N) (k : sys W) : Prop := {
  fresh_table : syscall_table k = replicate (Z.to_nat NR_syscalls) None;
  fresh_calls : calls k = ∅;
  fresh_queues : squeues k = ∅;
  fresh_hash : syscall_queue_hash k = replicate (Z.to_nat SYSCALL_QUEUE_HASH_SIZE) [];
  fresh_works : works k = [];
  fresh_wsems : wsems (rest k) ⊆ dom (sems n) }.

Definition booted_sys (n : N) (k : sys W) : sconc N W :=
  SConc n k [] ∅ (<[default_queue k := WIdle]> {[NULL := WIdle]}) 0 [] [] [].

Lemma init_table_length (net : bool) (t : table) :
  length (init_syscall_table net t) = length t.
Proof.
  unfold init_syscall_table. generalize (init_ste net). intros l. revert t.
  induction l as [|c l IH]; intros t; simpl; [done|]. rewrite IH. apply length_aset.
Qed.

Lemma hash_wf_empty (n : N) (k : sys W) :
  sems n !! syscall_queue_hash_lock k = Some 1 -> syscall_queue_hash_lock k ∉ wsems (rest k) ->
  squeues k = ∅ -> syscall_queue_hash k = replicate (Z.to_nat SYSCALL_QUEUE_HASH_SIZE) [] ->
  hash_wf wsems live n k.
Proof.
  intros Hl Ho Eq Eh. split; rewrite ?Eq, ?Eh; try done.
  intros i head q Hh. unfold aget in Hh. destruct (i <? 0); [done|].
  apply lookup_replicate in Hh as [-> _]. rewrite lookup_empty.
  split; [by intros ?%elem_of_nil|by intros (? & ? & _)].
Qed.

Lemma syscall_init_inv (net : bool) (n0 n : N) (k0 k : sys W) :
  contracts -> fresh_sys n0 k0 -> syscall_init kmalloc net (n0, k0) = Ret (n, k) ->
  sys_inv (booted_sys n k).
Proof.
  intros [Hslab _] [Ft Fc Fq Fh Fw Fs]. unfold syscall_init.
  destruct (sem_alloc 1 n0) as [l n1] eqn:Ha. destruct (Z.eqb_spec l NULL) as [->|Hl]; [done|].
  destruct (sem_alloc_ok _ _ _ _ Ha Hl) as (Hfr & Hs1 & _). simpl.
  set (k1 := set_hash_lock l (set_table (init_syscall_table net (syscall_table k0)) k0)).
  assert (hash_wf wsems live n1 k1) as Hh1.
  { apply hash_wf_empty; simpl; try done; [by rewrite Hs1, lookup_insert_eq|].
    apply not_elem_of_dom in Hfr. clear -Hfr Fs. set_solver. }
  destruct (new_syscall_queue_ok _ _ _ _ n1 k1 NULL Hslab Hh1)
    as (q & n2 & k2 & E & Hh & Hk & Ed & Ec & Ew & Et & El & Es & Hfq).
  rewrite E. simpl. destruct (Z.eqb_spec q NULL) as [->|Hq]; [done|]. simpl. intros [= <- <-].
  simpl in Et, Ec, Ew, Es.
  assert (wsems (rest k2) ⊆ dom (sems n2)) as Hw2.
  { apply Hk. simpl. rewrite Hs1, dom_insert_L. clear -Fs. set_solver. }
  split_and!.
  - split; simpl; try done.
    + eapply hash_wf_frame with (n := n2) (k := k2); [done|done|apply Hh|apply Hh|done..].
    + by rewrite Et, init_table_length, Ft.
    + intros f. rewrite Ec, Fc, lookup_empty. by intros [? ?].
    + intros f g s s'. by rewrite Ec, Fc, lookup_empty.
  - split; simpl; rewrite ?Ew, ?Fw, ?Ec, ?Fc, ?Es, ?Fq; try done.
    + split; [constructor|]. intros f. split; [by intros ?%elem_of_nil|done].
    + intros q' sq. rewrite lookup_insert, lookup_empty. case_decide; [|done]. intros [= <-].
      split; [constructor|]. intros f. split; [by intros ?%elem_of_nil|by intros [? _]].
    + split; [constructor|]. intros f. split; [by intros ?%elem_of_nil|done].
    + split; intros w f; rewrite lookup_insert, lookup_singleton; repeat case_decide; done.
    + intros q'. destruct (decide (q = q')) as [<-|Hne].
      * rewrite !lookup_insert_eq. split; [by right|done].
      * rewrite !lookup_insert_ne, lookup_empty by done. rewrite lookup_singleton.
        case_decide; [subst; split; [by left|done]|]. split; [by intros [? ?]|].
        by intros [?|[? ?]].
  - split; simpl; try done; (split; [by constructor|]); try done.
    all: by intros ? ? **; match goal with H : _ ∈ [] |- _ => apply elem_of_nil in H end.
Qed.

(** States that the system can be in after [syscall_init]. *)
Definition reachable (net : bool) (n0 : N) (k0 : sys W) (c : sconc N W) : Prop :=
  fresh_sys n0 k0 /\ exists n k, syscall_init kmalloc net (n0, k0) = Ret (n, k) /\
    rtc sys_step (booted_sys n k) c.

Lemma reachable_inv (net : bool) (n0 : N) (k0 : sys W) (c : sconc N W) :
  contracts -> reachable net n0 k0 c -> sys_inv c.
Proof.
  intros Hc (Hf & n & k & Hi & Hs). eapply sys_inv_steps; [done|done|]. by eapply syscall_init_inv.
Qed.


(** *** A failed trigger *)

Lemma lost_step (c c' : sconc N W) (f : Z) :
  contracts -> sys_step c c' -> sys_inv c ->
  stage_of (callers c) f = Some Lost -> stage_of (callers c') f = Some Lost.
Proof.
  intros Hc Hstep Hi Hst.
  assert (forall g0 g f', stage_of (callers c) f' = Some g0 -> g0 <> Lost ->
    stage_of (set_stage g f' (callers c)) f = Some Lost) as Hset.
  { intros g0 g f' Hf' Hg. rewrite stage_set_ne; [done|]. intros <-. congruence. }
  destruct Hi as (Hr & Hp & _). destruct Hstep; simpl in *; try done;
    try (by eapply Hset).
  - unfold stage_of in *. rewrite lookup_insert_ne; [done|]. intros <-. by rewrite H in Hst.
  - destruct (inv_calls _ Hr _ _ H) as [s Hs]. simpl in Hs.
    destruct (end_syscall_inv _ _ _ _ _ _ _ _ Hs H1) as (Hrd & _).
    unfold stage_of in *. rewrite lookup_delete_ne; [done|]. intros <-. rewrite H in Hst.
    injection Hst as E. by rewrite E in Hrd.
  - apply (Hset Pending); [|done]. apply (inv_pending _ Hp). left.
  - destruct (dequeue_syscall_inv _ _ _ _ H1 H2) as (sq & l & Hq & El & _).
    apply (Hset Queued); [|done]. apply (proj2 (inv_queued _ Hp _ _ Hq)). rewrite El. left.
  - apply (Hset OnWork); [|done]. apply (inv_works _ Hp). simpl. rewrite H0. left.
  - apply (proj1 (inv_hands _ Hp)) in H. by eapply Hset.
  - apply (proj2 (inv_hands _ Hp)) in H. by eapply Hset.
Qed.

(** C8: a call whose interrupt could not be queued hangs for ever: SYSCALL_VIA_QUEUE
    ignores the [-ENOMEM] of [lkl_trigger_irq_with_data], and from then on, in
    every later state, the caller still sleeps on its semaphore. *)
Theorem failed_trigger_hangs (net : bool) (n0 : N) (k0 : sys W) (c c' : sconc N W) (f : Z) :
  contracts -> reachable net n0 k0 c -> stage_of (callers c) f = Some Lost -> rtc sys_step c c' ->
  stage_of (callers c') f = Some Lost /\ end_syscall f (c_n c', c_k c') = Blocked.
Proof.
  intros Hc Hr Hst Hs. pose proof (reachable_inv _ _ _ _ Hc Hr) as Hi.
  assert (sys_inv c') as Hi' by by eapply sys_inv_steps.
  assert (stage_of (callers c') f = Some Lost) as Hst'.
  { clear Hr Hi'. revert Hi Hst. induction Hs as [|a b d Hab _ IH]; [done|]. intros Hi Hst.
    apply IH; [by eapply sys_inv_step|by eapply lost_step]. }
  split; [done|]. unfold stage_of in Hst'. destruct (callers c' !! f) as [d|] eqn:Hd; [|done].
  injection Hst' as E. destruct Hi' as (Hr' & _ & _). destruct (inv_calls _ Hr' _ _ Hd) as [s Hs'].
  unfold end_syscall. rewrite (call_live _ _ _ _ _ Hs'). simpl.
  pose proof (call_count _ _ _ _ _ Hs') as Hcnt. rewrite E in Hcnt. simpl in Hcnt.
  by rewrite (sem_down_blocks _ _ 0).
Qed.

(** *** Completion *)

(** The call with ticket [t] can still return. *)
Definition can_return (t : nat) (c : sconc N W) : Prop :=
  exists c' v, rtc sys_step c c' /\ (t, v) ∈ returned c'.

Lemma can_return_step (t : nat) (c c' : sconc N W) :
  sys_step c c' -> can_return t c' -> can_return t c.
Proof. intros Hs (c2 & v & Hr & Hv). exists c2, v. split; [by eapply rtc_l|done]. Qed.

Lemma lookup_stage (C : gmap Z caller) (f : Z) (g : stage) (d : caller) :
  C !! f = Some d -> set_stage g f C !! f = Some (Caller (ticket d) (c_no d) (c_params d) g).
Proof. intros Hf. unfold set_stage. by rewrite lookup_alter_eq, Hf. Qed.

Lemma ready_returns (c : sconc N W) (f : Z) (d : caller) :
  sys_inv c -> callers c !! f = Some d -> stg d = Ready -> can_return (ticket d) c.
Proof.
  intros (Hr & _ & _) Hd Hst. destruct (inv_calls _ Hr _ _ Hd) as [s Hs].
  destruct c as [n k P C Wk x h ex re]. simpl in *.
  pose proof (call_count _ _ _ _ _ Hs) as Hcnt. rewrite Hst in Hcnt. simpl in Hcnt.
  destruct (sem_down_ok _ _ _ Hcnt ltac:(lia)) as (n1 & Hdn & Hs1 & _).
  destruct (sem_free_ok (sc_sem s) n1 0) as (n2 & Hfr & _ & _).
  { by rewrite Hs1, lookup_insert_eq. }
  eexists _, (ret s). split.
  - eapply rtc_once, step_return; [done|by rewrite Hst|].
    unfold end_syscall. rewrite (call_live _ _ _ _ _ Hs). simpl. rewrite Hdn. simpl.
    rewrite Hfr. done.
  - simpl. apply elem_of_app. right. by apply list_elem_of_singleton.
Qed.

Lemma done_wakes (n : N) (k : sys W) P C Wk x h ex re (w f : Z) :
  sys_inv (SConc n k P C Wk x h ex re) -> Wk !! w = Some (WDone f) ->
  exists n', sys_step (SConc n k P C Wk x h ex re)
    (SConc n' k P (set_stage Ready f C) (<[w := WIdle]> Wk) x h ex re).
Proof.
  intros (Hr & Hp & _) Hw. apply (proj2 (inv_hands _ Hp)) in Hw as Hst. simpl in Hst.
  destruct (C !! f) as [d|] eqn:Hd; [|unfold stage_of in Hst; by rewrite Hd in Hst].
  destruct (inv_calls _ Hr _ _ Hd) as [s Hs].
  destruct (wake_caller_ok _ _ _ _ _ Hs) as (n' & E & _).
  { by rewrite (stage_not_ready _ _ _ _ Hst Hd). }
  exists n'. by eapply step_wake.
Qed.

Lemma got_runs (n : N) (k : sys W) P C Wk x h ex re (w f : Z) :
  contracts -> sys_inv (SConc n k P C Wk x h ex re) -> Wk !! w = Some (WGot f) ->
  exists s v w' n' ex', calls k !! f = Some s /\ sys_step (SConc n k P C Wk x h ex re)
    (SConc n' (set_calls (<[f := with_ret s v]> (calls k)) (set_rest w' k)) P
       (set_stage (Stored w) f C) (<[w := WDone f]> Wk) x h ex' re).
Proof.
  intros [_ Hsys] (Hr & Hp & _) Hw. apply (proj1 (inv_hands _ Hp)) in Hw as Hst. simpl in Hst.
  destruct (C !! f) as [d|] eqn:Hd; [|unfold stage_of in Hst; by rewrite Hd in Hst].
  destruct (inv_calls _ Hr _ _ Hd) as [s Hs]. pose proof (call_live _ _ _ _ _ Hs) as Hfs.
  destruct (store_result_ok _ _ _ _ _ _ _ _ wsems live f s n k Hsys (inv_table _ Hr) Hfs)
    as (r & n1 & w1 & Er & E & _ & _).
  exists s, (s32 r), w1, n1. eexists. split; [done|]. by eapply step_run.
Qed.

Lemma stored_returns (c : sconc N W) (f w : Z) (d : caller) :
  contracts -> sys_inv c -> callers c !! f = Some d -> stg d = Stored w -> can_return (ticket d) c.
Proof.
  intros Hc Hi Hd Hst. destruct c as [n k P C Wk x h ex re]. simpl in *.
  assert (Wk !! w = Some (WDone f)) as Hw.
  { apply (proj2 (inv_hands _ (proj1 (proj2 Hi)))). simpl. unfold stage_of. by rewrite Hd, <- Hst. }
  destruct (done_wakes _ _ _ _ _ _ _ _ _ _ _ Hi Hw) as [n' Hs].
  eapply can_return_step; [done|].
  apply (ready_returns _ f (Caller (ticket d) (c_no d) (c_params d) Ready)); [|by apply lookup_stage|done].
  by eapply sys_inv_step.
Qed.

Lemma taken_returns (c : sconc N W) (f w : Z) (d : caller) :
  contracts -> sys_inv c -> callers c !! f = Some d -> stg d = Taken w -> can_return (ticket d) c.
Proof.
  intros Hc Hi Hd Hst. destruct c as [n k P C Wk x h ex re]. simpl in *.
  assert (Wk !! w = Some (WGot f)) as Hw.
  { apply (proj1 (inv_hands _ (proj1 (proj2 Hi)))). simpl. unfold stage_of. by rewrite Hd, <- Hst. }
  destruct (got_runs _ _ _ _ _ _ _ _ _ _ _ Hc Hi Hw) as (s & v & w' & n' & ex' & _ & Hs).
  eapply can_return_step; [done|].
  apply (stored_returns _ f w (Caller (ticket d) (c_no d) (c_params d) (Stored w)));
    [done| |by apply lookup_stage|done].
  by eapply sys_inv_step.
Qed.

(** A kernel thread finishes what it holds, without touching the queues. *)
Lemma worker_gets_idle (n : N) (k : sys W) P C Wk x h ex re (w : Z) :
  contracts -> sys_inv (SConc n k P C Wk x h ex re) -> is_Some (Wk !! w) ->
  exists n' k' C' Wk' ex', rtc sys_step (SConc n k P C Wk x h ex re) (SConc n' k' P C' Wk' x h ex' re) /\
    Wk' !! w = Some WIdle /\ squeues k' = squeues k /\ works k' = works k /\
    forall f g, stage_of C f = Some g -> g = Queued \/ g = OnWork -> C' !! f = C !! f.
Proof.
  intros Hc Hi [y Hw].
  assert (forall f f' g, stage_of C f' = Some g -> stage_of C f = Some Queued \/ stage_of C f = Some OnWork ->
    g <> Queued -> g <> OnWork -> f <> f') as Hne.
  { intros f f' g H1 H2 ? ? ->. destruct H2; congruence. }
  assert (forall f g, stage_of C f = Some g -> g = Queued \/ g = OnWork ->
    stage_of C f = Some Queued \/ stage_of C f = Some OnWork) as Hq by naive_solver.
  destruct y as [|f|f].
  - eexists n, k, C, Wk, ex. by split_and!.
  - destruct (got_runs _ _ _ _ _ _ _ _ _ _ _ Hc Hi Hw) as (s & v & w' & n' & ex' & Hf & Hs).
    pose proof (sys_inv_step _ _ Hc Hs Hi) as Hi'.
    destruct (done_wakes _ _ _ _ _ _ _ _ _ w f Hi') as [n2 Hs2]; [by rewrite lookup_insert_eq|].
    eexists n2, _, _, _, ex'. split; [eapply rtc_l; [done|by apply rtc_once]|].
    split_and!; [by rewrite lookup_insert_eq|done|done|]. intros f' g Hg Hqo.
    apply (proj1 (inv_hands _ (proj1 (proj2 Hi)))) in Hw. simpl in Hw.
    assert (f' <> f) by (eapply Hne; eauto). unfold set_stage. by rewrite !lookup_alter_ne.
  - destruct (done_wakes _ _ _ _ _ _ _ _ _ w f Hi Hw) as [n2 Hs2].
    eexists n2, _, _, _, ex. split; [by apply rtc_once|].
    split_and!; [by rewrite lookup_insert_eq|done|done|]. intros f' g Hg Hqo.
    apply (proj2 (inv_hands _ (proj1 (proj2 Hi)))) in Hw. simpl in Hw.
    assert (f' <> f) by (eapply Hne; eauto). unfold set_stage. by rewrite lookup_alter_ne.
Qed.

Lemma can_return_steps (t : nat) (c c' : sconc N W) :
  rtc sys_step c c' -> can_return t c' -> can_return t c.
Proof. intros Hs (c2 & v & Hr & Hv). exists c2, v. split; [by etrans|done]. Qed.

(** The head of an idle thread's queue is taken; every other request stays. *)
Lemma queued_returns (l1 : list Z) (c : sconc N W) (f q : Z) (d : caller) (sq : syscall_queue) l2 :
  contracts -> sys_inv c -> callers c !! f = Some d -> stg d = Queued ->
  squeues (c_k c) !! q = Some sq -> lh sq = l1 ++ f :: l2 -> can_return (ticket d) c.
Proof.
  intros Hc. revert c sq. induction l1 as [|g l1 IH]; intros c sq Hi Hd Hst Hq El;
    destruct c as [n k P C Wk x h ex re]; simpl in *;
    destruct (worker_gets_idle n k P C Wk x h ex re q Hc Hi)
      as (n' & k' & C' & Wk' & ex' & Hs & Hw & Eq & _ & HC);
    try (apply (inv_threads _ (proj1 (proj2 Hi))); right; simpl; by rewrite Hq);
    (eapply can_return_steps; [exact Hs|]);
    pose proof (sys_inv_steps _ _ Hc Hs Hi) as Hi'; rewrite <- Eq in Hq;
    assert (C' !! f = Some d) as Hd' by (rewrite <- Hd; apply (HC f Queued); [|by left];
      unfold stage_of; by rewrite Hd, <- Hst);
    destruct (hash_live _ _ _ _ (inv_hash _ (proj1 Hi')) q sq Hq) as [HqN _].
  - assert (f <> NULL) as HfN.
    { destruct (inv_calls _ (proj1 Hi') _ _ Hd') as [s Hs']. apply Hs'. }
    assert (sys_step (SConc n' k' P C' Wk' x h ex' re) (SConc n'
      (set_squeues (<[q := Syscall_queue l2 (thread sq)]> (squeues k')) k') P
      (set_stage (Taken q) f C') (<[q := WGot f]> Wk') x h ex' re)) as Hstep.
    { eapply step_fetch; try done. unfold dequeue_syscall. rewrite Hq. simpl. by rewrite El. }
    eapply can_return_step; [exact Hstep|].
    apply (taken_returns _ f q (Caller (ticket d) (c_no d) (c_params d) (Taken q)));
      [done| |by apply lookup_stage|done]. by eapply sys_inv_step.
  - destruct (inv_queued _ (proj1 (proj2 Hi')) q sq Hq) as [Hnd Hl]. simpl in Hl. rewrite El in Hnd, Hl.
    destruct (proj1 (Hl g)) as [Hg _]; [left|].
    assert (g <> NULL) as HgN.
    { unfold stage_of in Hg. destruct (C' !! g) as [dg|] eqn:E; [|done].
      destruct (inv_calls _ (proj1 Hi') _ _ E) as [s Hs']. apply Hs'. }
    assert (g <> f) as Hgf.
    { intros ->. apply NoDup_cons in Hnd as [Hnd _]. apply Hnd, elem_of_app. right. left. }
    assert (sys_step (SConc n' k' P C' Wk' x h ex' re) (SConc n'
      (set_squeues (<[q := Syscall_queue (l1 ++ f :: l2) (thread sq)]> (squeues k')) k') P
      (set_stage (Taken q) g C') (<[q := WGot g]> Wk') x h ex' re)) as Hstep.
    { eapply step_fetch; try done. unfold dequeue_syscall. rewrite Hq. simpl. by rewrite El. }
    eapply can_return_step; [exact Hstep|].
    apply (IH _ (Syscall_queue (l1 ++ f :: l2) (thread sq))); simpl; try done.
    + by eapply sys_inv_step.
    + unfold set_stage. by rewrite lookup_alter_ne.
    + by rewrite lookup_insert_eq.
Qed.

Lemma onwork_returns (l1 : list Z) (c : sconc N W) (f : Z) (d : caller) l2 :
  contracts -> sys_inv c -> callers c !! f = Some d -> stg d = OnWork ->
  works (c_k c) = l1 ++ f :: l2 -> can_return (ticket d) c.
Proof.
  intros Hc. revert c. induction l1 as [|g l1 IH]; intros c Hi Hd Hst El;
    destruct c as [n k P C Wk x h ex re]; simpl in *;
    destruct (worker_gets_idle n k P C Wk x h ex re NULL Hc Hi)
      as (n' & k' & C' & Wk' & ex' & Hs & Hw & _ & Ew & HC);
    try (apply (inv_threads _ (proj1 (proj2 Hi))); by left);
    (eapply can_return_steps; [exact Hs|]);
    pose proof (sys_inv_steps _ _ Hc Hs Hi) as Hi'; rewrite <- Ew in El;
    assert (C' !! f = Some d) as Hd' by (rewrite <- Hd; apply (HC f OnWork); [|by right];
      unfold stage_of; by rewrite Hd, <- Hst).
  - eapply can_return_step; [by apply step_work|].
    apply (taken_returns _ f NULL (Caller (ticket d) (c_no d) (c_params d) (Taken NULL)));
      [done| |by apply lookup_stage|done]. eapply sys_inv_step; [done|by apply step_work|done].
  - destruct (inv_works _ (proj1 (proj2 Hi'))) as [Hnd _]. simpl in Hnd. rewrite El in Hnd.
    assert (g <> f) as Hgf.
    { intros ->. apply NoDup_cons in Hnd as [Hnd _]. apply Hnd, elem_of_app. right. left. }
    eapply can_return_step; [by apply step_work|]. apply IH; simpl; try done.
    + eapply sys_inv_step; [done|by apply step_work|done].
    + unfold set_stage. by rewrite lookup_alter_ne.
Qed.

(** In any stage but [Pending] and the ones before it, by the place it is in. *)
Lemma placed_returns (c : sconc N W) (f : Z) (d : caller) :
  contracts -> sys_inv c -> callers c !! f = Some d ->
  stg d <> Posted -> stg d <> Pending -> stg d <> Lost -> can_return (ticket d) c.
Proof.
  intros Hc Hi Hd H1 H2 H3.
  assert (stage_of (callers c) f = Some (stg d)) as Hst by (unfold stage_of; by rewrite Hd).
  destruct (stg d) as [| | | |w|w| |] eqn:E; try done.
  - destruct (inv_calls _ (proj1 Hi) _ _ Hd) as [s Hs].
    pose proof (inv_onqueue _ (proj1 (proj2 Hi)) _ _ Hst (call_live _ _ _ _ _ Hs)) as HqN.
    destruct (call_queue _ _ _ _ _ Hs) as [?|[sq Hsq]]; [done|].
    assert (f ∈ lh sq) as (l1 & l2 & El)%list_elem_of_split.
    { apply (inv_queued _ (proj1 (proj2 Hi)) _ _ Hsq). split; [done|].
      by rewrite (call_live _ _ _ _ _ Hs). }
    by eapply queued_returns.
  - assert (f ∈ works (c_k c)) as (l1 & l2 & El)%list_elem_of_split.
    { by apply (inv_works _ (proj1 (proj2 Hi))). }
    by eapply onwork_returns.
  - by eapply taken_returns.
  - by eapply stored_returns.
  - by eapply ready_returns.
Qed.

Lemma irq_enabled (n : N) (k : sys W) P C Wk x h ex re (f : Z) :
  sys_inv (SConc n k (f :: P) C Wk x h ex re) ->
  exists s k', calls k !! f = Some s /\ sys_step (SConc n k (f :: P) C Wk x h ex re)
    (SConc n k' P (set_stage (if queue s =? NULL then OnWork else Queued) f C) Wk x h ex re).
Proof.
  intros (Hr & Hp & _).
  assert (stage_of C f = Some Pending) as Hst by (apply (inv_pending _ Hp); left).
  destruct (C !! f) as [d|] eqn:Hd; [|unfold stage_of in Hst; by rewrite Hd in Hst].
  destruct (inv_calls _ Hr _ _ Hd) as [s Hs]. simpl in Hs.
  pose proof (call_live _ _ _ _ _ Hs) as Hf. exists s.
  assert (exists k', syscall_irq (Some f) (n, k) = Ret (n, k')) as [k' E].
  { unfold syscall_irq. simpl. rewrite Hf. simpl. destruct (Z.eqb_spec (queue s) NULL); [by eauto|].
    destruct (call_queue _ _ _ _ _ Hs) as [?|[sq Hq]]; [done|]. rewrite Hq. simpl. by eauto. }
  exists k'. split; [done|]. by eapply step_irq.
Qed.

Lemma pending_returns (l1 : list Z) (c : sconc N W) (f : Z) (d : caller) l2 :
  contracts -> sys_inv c -> callers c !! f = Some d -> stg d = Pending ->
  pending c = l1 ++ f :: l2 -> can_return (ticket d) c.
Proof.
  intros Hc. revert c. induction l1 as [|g l1 IH]; intros c Hi Hd Hst El;
    destruct c as [n k P C Wk x h ex re]; simpl in *; subst P;
    destruct (irq_enabled _ _ _ _ _ _ _ _ _ _ Hi) as (s & k' & _ & Hs);
    pose proof (sys_inv_step _ _ Hc Hs Hi) as Hi'; (eapply can_return_step; [exact Hs|]).
  - eapply (placed_returns _ f (Caller (ticket d) (c_no d) (c_params d) _)); [done|done|by apply lookup_stage|..];
      simpl; by destruct (queue s =? NULL).
  - destruct (inv_pending _ (proj1 (proj2 Hi))) as [Hnd _]. simpl in Hnd.
    assert (g <> f) as Hgf.
    { intros ->. apply NoDup_cons in Hnd as [Hnd _]. apply Hnd, elem_of_app. right. left. }
    apply IH; simpl; try done. unfold set_stage. by rewrite lookup_alter_ne.
Qed.

End sconc.

(** ** A concrete run *)
Module SysConcDemo.
Import Irq.Demo Syscalls.SysDemo.
#[local] Existing Instance demo_native.
#[local] Existing Instance demo_laws.

Abbreviation dstep := (sys_step any_handler (seven (A := _)) (seven (A := _)) any_pointer
  no_page no_free no_copy (seven (A := _)) slab_kmalloc no_sems objects).

Lemma demo_contracts : contracts any_handler (seven (A := _)) (seven (A := _)) any_pointer
  no_page no_free no_copy (seven (A := _)) slab_kmalloc slab_kfree no_sems objects.
Proof. split; [apply demo_slab | apply demo_syscalls]. Qed.

Lemma demo_fresh : fresh_sys no_sems (Posix ∅ []) blank.
Proof. split; try done. Qed.

Lemma demo_init : syscall_init slab_kmalloc true (Posix ∅ [], blank) = Ret (fst running, snd running).
Proof. vm_compute. reflexivity. Qed.

(** The thread with frame 64 asks for [getpid] on the default queue. *)
Definition q0 : Z := default_queue (snd running).
Definition posted : Z * (posix * sys slab) := post_syscall 64 q0 (__NR getpid) [] running.
Definition asked : sconc posix slab :=
  SConc (fst (snd posted)) (snd (snd posted)) [] (<[64 := Caller 0 (__NR getpid) (pad6 []) Posted]> ∅)
    (<[q0 := WIdle]> {[NULL := WIdle]}) 1 ([] ++ [(0%nat, __NR getpid, pad6 [])]) [] [].
#[local] Opaque running posted.

Lemma asked_step : dstep (booted_sys (fst running) (snd running)) asked.
Proof.
  apply (step_call _ _ _ _ _ _ _ _ _ _ _ (fst running) (snd running) [] ∅ _ 0 [] [] [] 64 q0
    (__NR getpid) [] (fst posted)).
  - reflexivity.
  - done.
  - right. vm_compute. by eexists.
  - done.
  - vm_compute. reflexivity.
  - by vm_compute.
Qed.

Lemma asked_reachable : reachable any_handler (seven (A := _)) (seven (A := _)) any_pointer
  no_page no_free no_copy (seven (A := _)) slab_kmalloc no_sems objects true (Posix ∅ []) blank asked.
Proof.
  split; [apply demo_fresh|]. exists (fst running), (snd running). split; [apply demo_init|].
  apply rtc_once, asked_step.
Qed.


(** The same call, when the interrupt could not be queued. *)
Definition lost : sconc posix slab :=
  SConc (c_n asked) (c_k asked) [] (set_stage Lost 64 (callers asked)) (workers asked) 1
    (issued asked) [] [].

Lemma lost_reachable : reachable any_handler (seven (A := _)) (seven (A := _)) any_pointer
  no_page no_free no_copy (seven (A := _)) slab_kmalloc no_sems objects true (Posix ∅ []) blank lost.
Proof.
  split; [apply demo_fresh|]. exists (fst running), (snd running). split; [apply demo_init|].
  eapply rtc_l; [apply asked_step|]. apply rtc_once.
  apply (step_trigger_nomem _ _ _ _ _ _ _ _ _ _ _ (c_n asked) (c_k asked)). reflexivity.
Qed.

Lemma failed_trigger_hangs_witness : end_syscall 64 (c_n lost, c_k lost) = Blocked.
Proof.
  apply (failed_trigger_hangs any_handler (seven (A := _)) (seven (A := _)) any_pointer
    no_page no_free no_copy (seven (A := _)) slab_kmalloc slab_kfree no_sems objects
    true (Posix ∅ []) blank lost lost 64);
    [apply demo_contracts | apply lost_reachable | reflexivity | apply rtc_refl].
Defined.

(** The whole way of the call: trigger, interrupt, dequeue, handler, wake-up. *)
Definition ret_of {A : Type} (m : res A) (a : A) : A := match m with Ret x => x | _ => a end.
Definition in_queue : posix * sys slab :=
  ret_of (syscall_irq (Some 64) (snd posted)) running.
Definition taken : Z * sys slab := ret_of (dequeue_syscall q0 (snd in_queue)) (0, blank).
Definition ran : Z * (posix * sys slab) :=
  ret_of (store_result any_handler (seven (A := _)) (seven (A := _)) any_pointer
    no_page no_free no_copy (seven (A := _)) 64 (fst in_queue, snd taken)) (0, running).
Definition woken : posix * sys slab := ret_of (wake_caller 64 (snd ran)) running.
Definition back : Z * (posix * sys slab) := ret_of (end_syscall 64 woken) (0, running).
#[local] Opaque in_queue taken ran woken back q0.

Lemma call_returns : exists c, rtc dstep asked c /\ returned c = [(0%nat, 7)].
Proof.
  eexists. split.
  - eapply rtc_l; [by apply (step_trigger _ _ _ _ _ _ _ _ _ _ _ _ _ _ _ _ _ _ _ _ 64)|].
    eapply rtc_l.
    { apply (step_irq _ _ _ _ _ _ _ _ _ _ _ _ _ _ _ _ _ _ _ _ 64
        (Syscall (__NR getpid) (pad6 []) 0 (fst posted) q0) (fst in_queue) (snd in_queue));
        vm_compute; reflexivity. }
    eapply rtc_l.
    { apply (step_fetch _ _ _ _ _ _ _ _ _ _ _ _ _ _ _ _ _ _ _ _ q0 64 (snd taken));
        [by vm_compute | reflexivity | vm_compute; reflexivity | done]. }
    eapply rtc_l.
    { eapply (step_run _ _ _ _ _ _ _ _ _ _ _ _ _ _ _ _ _ _ _ _ q0 64
        (Caller 0 (__NR getpid) (pad6 []) (Taken q0)) (Syscall (__NR getpid) (pad6 []) 0 (fst posted) q0)
        7 (fst in_queue, snd taken) 7 (fst (snd ran)) (snd (snd ran))); vm_compute; reflexivity. }
    eapply rtc_l.
    { apply (step_wake _ _ _ _ _ _ _ _ _ _ _ _ _ _ _ _ _ _ _ _ q0 64 (fst woken) (snd woken));
        vm_compute; reflexivity. }
    eapply rtc_l; [|apply rtc_refl].
    apply (step_return _ _ _ _ _ _ _ _ _ _ _ _ _ _ _ _ _ _ _ _ 64
      (Caller 0 (__NR getpid) (pad6 []) Ready) 7 (fst (snd back)) (snd (snd back)));
      [vm_compute; reflexivity | done | vm_compute; reflexivity].
  - reflexivity.
Qed.

End SysConcDemo.
