(* ===== verification/Threads.v ===== *)
(** * Kernel threads: arch/lkl/kernel/threads.c

    Every kernel thread is a native thread that may only run kernel code while it
    holds the CPU of the library kernel.  [__switch_to] hands the CPU over with
    one semaphore per thread.  A thread that is freed gets its semaphore posted
    once more, wakes up and tears itself down.  This file models the operations
    and the interleavings of the native threads between them. *)
From S2P Require Import Prelude Native EnvPosix Irq Syscalls.

(** [struct __thread_info], without the generic part [ti]. *)
Record thread_info := Thread_info { sched_sem : Z; ti_thread : Z; dead : bool; prev_sched : Z }.

(** [struct thread_bootstrap_arg] *)
Record bootstrap_arg := Bootstrap_arg { tba_ti : Z; tba_f : Z; tba_arg : Z }.

(** The globals of threads.c and the objects they reach. *)
Record thr (W : Type) := Thr {
  infos : gmap Z thread_info;
  tbas : gmap Z bootstrap_arg;
  threads_counter : Z;
  threads_counter_lock : Z;
  _current_thread_info : Z;
  trest : W }.
Arguments Thr {W}.
Arguments infos {W}.
Arguments tbas {W}.
Arguments threads_counter {W}.
Arguments threads_counter_lock {W}.
Arguments _current_thread_info {W}.
Arguments trest {W}.

Section thr_setters.
Context {W : Type}.
Definition set_infos (x : gmap Z thread_info) (k : thr W) : thr W :=
  Thr x (tbas k) (threads_counter k) (threads_counter_lock k) (_current_thread_info k) (trest k).
Definition set_tbas (x : gmap Z bootstrap_arg) (k : thr W) : thr W :=
  Thr (infos k) x (threads_counter k) (threads_counter_lock k) (_current_thread_info k) (trest k).
Definition set_counter (x : Z) (k : thr W) : thr W :=
  Thr (infos k) (tbas k) x (threads_counter_lock k) (_current_thread_info k) (trest k).
Definition set_counter_lock (x : Z) (k : thr W) : thr W :=
  Thr (infos k) (tbas k) (threads_counter k) x (_current_thread_info k) (trest k).
Definition set_current (x : Z) (k : thr W) : thr W :=
  Thr (infos k) (tbas k) (threads_counter k) (threads_counter_lock k) x (trest k).
Definition set_trest (x : W) (k : thr W) : thr W :=
  Thr (infos k) (tbas k) (threads_counter k) (threads_counter_lock k) (_current_thread_info k) x.
End thr_setters.

Definition with_dead (ti : thread_info) : thread_info :=
  Thread_info (sched_sem ti) (ti_thread ti) true (prev_sched ti).
Definition with_prev (p : Z) (ti : thread_info) : thread_info :=
  Thread_info (sched_sem ti) (ti_thread ti) (dead ti) p.
Definition with_thread (t : Z) (ti : thread_info) : thread_info :=
  Thread_info (sched_sem ti) t (dead ti) (prev_sched ti).

Definition sizeof_thread_info : Z := 136.
Definition sizeof_bootstrap_arg : Z := 24.

Section threads.
Context {N W : Type} {ops : lkl_native_operations N}.
(** Code outside threads.c: the slab allocator, the [thread_create] callback, and
    the field of a task that points to its [thread_info]. *)
Context (kmalloc : Z -> N * W -> Z * (N * W)) (kfree : Z -> N * W -> res (N * W)).
Context (thread_create : Z -> N -> Z * N).
Context (task_thread_info : Z -> Z).
Context (init_thread_info : Z).

Abbreviation hk := (N * thr W)%type.

Definition threads_counter_inc (nk : hk) : res hk :=
  let '(n, k) := nk in
  let! n := sem_down (threads_counter_lock k) n in
  let k := set_counter (s32 (threads_counter k + 1)) k in
  let! n := sem_up (threads_counter_lock k) n in
  Ret (n, k).

Definition threads_counter_dec (nk : hk) : res hk :=
  let '(n, k) := nk in
  let! n := sem_down (threads_counter_lock k) n in
  let k := set_counter (s32 (threads_counter k - 1)) k in
  let! n := sem_up (threads_counter_lock k) n in
  Ret (n, k).

Definition threads_counter_get (nk : hk) : res (Z * hk) :=
  let '(n, k) := nk in
  let! n := sem_down (threads_counter_lock k) n in
  let counter := threads_counter k in
  let! n := sem_up (threads_counter_lock k) n in
  Ret (counter, (n, k)).

Definition threads_init (nk : hk) : res hk :=
  let '(n, k) := nk in
  let! ti := deref (infos k !! init_thread_info) in
  let '(s, n) := sem_alloc 0 n in
  let k := set_infos (<[init_thread_info := Thread_info s (ti_thread ti) false NULL]> (infos k)) k in
  let! _ := BUG_ON (s =? NULL) in
  let '(l, n) := sem_alloc 1 n in
  let k := set_counter_lock l k in
  let! _ := BUG_ON (l =? NULL) in
  Ret (n, k).

(** [while (threads_counter_get()) schedule_timeout(1)]; the other threads run in
    [schedule_timeout]. *)
Fixpoint wait_threads (schedule_timeout : hk -> res hk) (fuel : nat) (nk : hk) : res hk :=
  match fuel with
  | O => OutOfFuel
  | S fuel =>
      let! (c, nk) := threads_counter_get nk in
      if c =? 0 then Ret nk
      else let! nk := schedule_timeout nk in wait_threads schedule_timeout fuel nk
  end.

Definition threads_cleanup (schedule_timeout : hk -> res hk) (fuel : nat) (nk : hk) : res hk :=
  let! (n, k) := wait_threads schedule_timeout fuel nk in
  let! ti := deref (infos k !! init_thread_info) in
  let! n := sem_free (sched_sem ti) n in
  let! n := sem_free (threads_counter_lock k) n in
  Ret (n, k).

Definition alloc_thread_info (nk : hk) : res (Z * hk) :=
  let '(n, k) := nk in
  let '(ti, (n, w)) := kmalloc sizeof_thread_info (n, trest k) in
  let k := set_trest w k in
  if ti =? NULL then Ret (NULL, (n, k))
  else
    let '(s, n) := sem_alloc 0 n in
    if s =? NULL then
      let! (n, w) := kfree ti (n, trest k) in
      Ret (NULL, (n, set_trest w k))
    else Ret (ti, (n, set_infos (<[ti := Thread_info s NULL false NULL]> (infos k)) k)).

Definition free_thread_info (_ti : Z) (nk : hk) : res hk :=
  let '(n, k) := nk in
  let! ti := deref (infos k !! _ti) in
  let k := set_infos (<[_ti := with_dead ti]> (infos k)) k in
  let! n := sem_up (sched_sem ti) n in
  Ret (n, k).

(** [__switch_to] up to the [sem_up] that hands the CPU to [next]. *)
Definition switch_out (prev next : Z) (nk : hk) : res hk :=
  let '(n, k) := nk in
  let _next := task_thread_info next in
  let! ti := deref (infos k !! _next) in
  let k := set_current _next k in
  let k := set_infos (<[_next := with_prev prev ti]> (infos k)) k in
  let! n := sem_up (sched_sem ti) n in
  Ret (n, k).

(** The [sem_down] of [prev]: [true] when it woke up dead. *)
Definition switch_in (prev : Z) (nk : hk) : res (bool * hk) :=
  let '(n, k) := nk in
  let! ti := deref (infos k !! task_thread_info prev) in
  let! n := sem_down (sched_sem ti) n in
  Ret (dead ti, (n, k)).

(** What a dead thread does: up to [kfree], then the counter; [thread_exit] ends
    the native thread. *)
Definition switch_free (prev : Z) (nk : hk) : res hk :=
  let '(n, k) := nk in
  let _prev := task_thread_info prev in
  let! ti := deref (infos k !! _prev) in
  let! n := sem_free (sched_sem ti) n in
  let! (n, w) := kfree _prev (n, trest k) in
  Ret (n, set_infos (delete _prev (infos k)) (set_trest w k)).

(** The whole function, with [others] what the other threads do before the
    [sem_down] returns; [None] when the thread does not come back. *)
Definition __switch_to (others : hk -> res hk) (prev next : Z) (nk : hk) : res (option Z * hk) :=
  let! nk := switch_out prev next nk in
  let! nk := others nk in
  let! (dead, nk) := switch_in prev nk in
  if dead : bool then
    let! nk := switch_free prev nk in
    let! nk := threads_counter_dec nk in
    Ret (None, nk)
  else Ret (Some prev, nk).

(** [thread_bootstrap] before and after its [sem_down]; [Some p] asks for
    [schedule_tail(p)], then the thread function runs and exits. *)
Definition bootstrap_begin (tba : Z) (nk : hk) : res (Z * hk) :=
  let '(n, k) := nk in
  let! a := deref (tbas k !! tba) in
  let k := set_tbas (delete tba (tbas k)) k in
  let! (n, w) := kfree tba (n, trest k) in
  Ret (tba_ti a, (n, set_trest w k)).

Definition bootstrap_wake (ti : Z) (nk : hk) : res (option Z * hk) :=
  let '(n, k) := nk in
  let! i := deref (infos k !! ti) in
  let! n := sem_down (sched_sem i) n in
  let! i := deref (infos k !! ti) in
  let! _ := BUG_ON (dead i) in
  Ret (if prev_sched i =? NULL then None else Some (prev_sched i), (n, k)).

(** [copy_thread] up to the creation of the native thread, then the counter.  The
    result of [kmalloc] is used unchecked. *)
Definition copy_thread_create (esp unused p : Z) (nk : hk) : res (Z * hk) :=
  let '(n, k) := nk in
  let '(tba, (n, w)) := kmalloc sizeof_bootstrap_arg (n, trest k) in
  let k := set_trest w k in
  let ti := task_thread_info p in
  let! _ := BUG_ON (tba =? NULL) in
  let k := set_tbas (<[tba := Bootstrap_arg ti esp unused]> (tbas k)) k in
  let '(t, n) := thread_create tba n in
  let! i := deref (infos k !! ti) in
  let k := set_infos (<[ti := with_thread t i]> (infos k)) k in
  if t =? NULL then
    let k := set_tbas (delete tba (tbas k)) k in
    let! (n, w) := kfree tba (n, trest k) in
    Ret (- EPERM, (n, set_trest w k))
  else Ret (0, (n, k)).

Definition copy_thread (esp unused p : Z) (nk : hk) : res (Z * hk) :=
  let! (r, nk) := copy_thread_create esp unused p nk in
  if r =? 0 then let! nk := threads_counter_inc nk in Ret (0, nk)
  else Ret (r, nk).

Definition CLONE_VM : Z := 0x00000100.
Definition CLONE_UNTRACED : Z := 0x00800000.
Definition kernel_thread (do_fork : Z -> Z -> Z -> hk -> res (Z * hk)) (fn arg flags : Z) (nk : hk)
  : res (Z * hk) :=
  let! (r, nk) := do_fork (Z.lor (Z.lor flags CLONE_VM) CLONE_UNTRACED) fn arg nk in
  Ret (s32 r, nk).
End threads.
