(* ===== verification/ThreadsConc.v ===== *)
(** * Handing over the CPU between native threads

    The native threads that carry the kernel threads of arch/lkl/kernel/threads.c
    interleave between the semaphore operations of [__switch_to],
    [thread_bootstrap], [copy_thread] and [free_thread_info].  The scheduler of
    the generic kernel is free to pick any live thread, and to free any thread
    that has switched away; the theorems show that, whatever it does, at most one
    thread runs kernel code, the CPU is never lost, and a dead thread is torn
    down once. *)
From S2P Require Import Prelude Native EnvPosix Irq Syscalls Threads.

(** Where a native thread is; [t] below is the address of its [thread_info]. *)
Inductive tpc :=
| PBoot (tba : Z)     (** start of [thread_bootstrap] *)
| PBootWait           (** before its [sem_down] *)
| PRun                (** runs kernel code *)
| PInc                (** in [copy_thread], before [threads_counter_inc] *)
| PSwitch             (** in [__switch_to], between [sem_up] and [sem_down] *)
| PFree.              (** woke up dead, before [sem_free] *)

Definition on_cpu (p : tpc) : bool := match p with PRun | PInc => true | _ => false end.

(** [exiting] threads have freed their [thread_info] and run
    [threads_counter_dec] next. *)
Record tconc (N W : Type) := TConc {
  t_n : N;
  t_k : thr W;
  pcs : gmap Z tpc;
  exiting : nat }.
Arguments TConc {N W}.
Arguments t_n {N W}.
Arguments t_k {N W}.
Arguments pcs {N W}.
Arguments exiting {N W}.

Section tconc.
Context {N W : Type} {ops : lkl_native_operations N}.
Context (kmalloc : Z -> N * W -> Z * (N * W)) (kfree : Z -> N * W -> res (N * W)).
Context (thread_create : Z -> N -> Z * N).
Context (task_thread_info : Z -> Z).
Context (init_thread_info : Z).
Context (wsems live : W -> gset Z).

Abbreviation tti := task_thread_info.

Inductive thr_step : tconc N W -> tconc N W -> Prop :=
(** [__switch_to]: the running thread hands over to a thread that is not dead *)
| step_switch_out n k pc e prev next ti n' k' :
    pc !! tti prev = Some PRun -> tti next <> tti prev ->
    is_Some (pc !! tti next) -> infos k !! tti next = Some ti -> dead ti = false ->
    switch_out task_thread_info prev next (n, k) = Ret (n', k') ->
    thr_step (TConc n k pc e) (TConc n' k' (<[tti prev := PSwitch]> pc) e)
| step_switch_in n k pc e prev d n' k' :
    pc !! tti prev = Some PSwitch -> switch_in task_thread_info prev (n, k) = Ret (d, (n', k')) ->
    thr_step (TConc n k pc e)
      (TConc n' k' (<[tti prev := if d : bool then PFree else PRun]> pc) e)
| step_switch_free n k pc e prev n' k' :
    pc !! tti prev = Some PFree -> switch_free kfree task_thread_info prev (n, k) = Ret (n', k') ->
    thr_step (TConc n k pc e) (TConc n' k' (delete (tti prev) pc) (S e))
| step_dec n k pc e n' k' :
    threads_counter_dec (n, k) = Ret (n', k') ->
    thr_step (TConc n k pc (S e)) (TConc n' k' pc e)
(** [thread_bootstrap] *)
| step_boot n k pc e t tba n' k' :
    pc !! t = Some (PBoot tba) -> bootstrap_begin kfree tba (n, k) = Ret (t, (n', k')) ->
    thr_step (TConc n k pc e) (TConc n' k' (<[t := PBootWait]> pc) e)
| step_boot_wake n k pc e t o n' k' :
    pc !! t = Some PBootWait -> bootstrap_wake t (n, k) = Ret (o, (n', k')) ->
    thr_step (TConc n k pc e) (TConc n' k' (<[t := PRun]> pc) e)
(** fork, on the running thread [t] *)
| step_alloc n k pc e t ti n' k' :
    pc !! t = Some PRun -> alloc_thread_info kmalloc kfree (n, k) = Ret (ti, (n', k')) ->
    thr_step (TConc n k pc e) (TConc n' k' pc e)
| step_create n k pc e t esp arg p tba n' k' :
    pc !! t = Some PRun -> pc !! tti p = None -> is_Some (infos k !! tti p) ->
    threads_counter k < INT_MAX ->
    copy_thread_create kmalloc kfree thread_create task_thread_info esp arg p (n, k) =
      Ret (0, (n', k')) ->
    tbas k !! tba = None -> tbas k' !! tba = Some (Bootstrap_arg (tti p) esp arg) ->
    thr_step (TConc n k pc e) (TConc n' k' (<[tti p := PBoot tba]> (<[t := PInc]> pc)) e)
| step_create_fails n k pc e t esp arg p r n' k' :
    pc !! t = Some PRun -> pc !! tti p = None -> is_Some (infos k !! tti p) ->
    copy_thread_create kmalloc kfree thread_create task_thread_info esp arg p (n, k) =
      Ret (r, (n', k')) -> r <> 0 ->
    thr_step (TConc n k pc e) (TConc n' k' pc e)
| step_inc n k pc e t n' k' :
    pc !! t = Some PInc -> threads_counter_inc (n, k) = Ret (n', k') ->
    thr_step (TConc n k pc e) (TConc n' k' (<[t := PRun]> pc) e)
(** the last reference to a thread that switched away is dropped *)
| step_free_info n k pc e t v ti n' k' :
    pc !! t = Some PRun -> t <> v -> pc !! v = Some PSwitch ->
    infos k !! v = Some ti -> dead ti = false -> v <> init_thread_info ->
    free_thread_info v (n, k) = Ret (n', k') ->
    thr_step (TConc n k pc e) (TConc n' k' pc e)
(** anything else the kernel or the host does *)
| step_thr_other n k pc e n' w' :
    sems_kept wsems n n' (trest k) w' -> live (trest k) ⊆ live w' ->
    thr_step (TConc n k pc e) (TConc n' (set_trest w' k) pc e).

(** ** The invariant *)

(** The count of a thread's semaphore: a dead thread has one token to wake up
    with, the current thread has one unless it has taken it, nobody else has. *)
Definition tokens (cur t : Z) (ti : thread_info) (p : option tpc) : Z :=
  if dead ti then match p with Some PFree => 0 | _ => 1 end
  else if decide (t = cur) then match p with Some p => Z.b2z (negb (on_cpu p)) | None => 0 end
  else 0.

Record info_wf (n : N) (k : thr W) (t : Z) (ti : thread_info) (p : option tpc) : Prop := {
  info_sem : sems n !! sched_sem ti = Some (tokens (_current_thread_info k) t ti p);
  info_own : sched_sem ti ∉ wsems (trest k);
  info_lock : sched_sem ti <> threads_counter_lock k;
  info_live : t ∈ live (trest k);
  info_dead : dead ti = true ->
    t <> _current_thread_info k /\ t <> init_thread_info /\ (p = Some PSwitch \/ p = Some PFree);
  info_free : p = Some PFree -> dead ti = true;
  info_run : (exists q, p = Some q /\ on_cpu q = true) -> t = _current_thread_info k;
  info_boot : forall tba, p = Some (PBoot tba) ->
    exists a, tbas k !! tba = Some a /\ tba_ti a = t }.

(** The increment of the counter that the current thread still owes. *)
Definition incs (k : thr W) (pc : gmap Z tpc) : Z :=
  match pc !! _current_thread_info k with Some PInc => 1 | _ => 0 end.

Record thr_inv (c : tconc N W) : Prop := {
  tinv_infos : forall t ti, infos (t_k c) !! t = Some ti -> info_wf (t_n c) (t_k c) t ti (pcs c !! t);
  tinv_pcs : forall t, is_Some (pcs c !! t) -> is_Some (infos (t_k c) !! t);
  tinv_current : is_Some (pcs c !! _current_thread_info (t_k c));
  tinv_init : is_Some (pcs c !! init_thread_info);
  tinv_distinct : forall t u ti ui, infos (t_k c) !! t = Some ti -> infos (t_k c) !! u = Some ui ->
    sched_sem ti = sched_sem ui -> t = u;
  tinv_tbas : forall a, is_Some (tbas (t_k c) !! a) ->
    a ∈ live (trest (t_k c)) /\ infos (t_k c) !! a = None;
  tinv_lock : sems (t_n c) !! threads_counter_lock (t_k c) = Some 1;
  tinv_lock_own : threads_counter_lock (t_k c) ∉ wsems (trest (t_k c));
  tinv_wsems : wsems (trest (t_k c)) ⊆ dom (sems (t_n c));
  tinv_count : threads_counter (t_k c) + incs (t_k c) (pcs c) =
    Z.of_nat (size (pcs c)) - 1 + Z.of_nat (exiting c);
  tinv_range : threads_counter (t_k c) + incs (t_k c) (pcs c) <= INT_MAX }.

Context {laws : native_laws N}.
#[local] Set Default Proof Using "Type laws".

Lemma tokens_range (cur t : Z) (ti : thread_info) (p : option tpc) : 0 <= tokens cur t ti p <= 1.
Proof.
  unfold tokens. destruct (dead ti); [destruct p as [[]|]; lia|].
  case_decide; [|lia]. destruct p as [q|]; [destruct (on_cpu q); simpl; lia|lia].
Qed.

(** What a step must keep about the threads it does not touch. *)
Lemma info_wf_frame (n n' : N) (k k' : thr W) (t : Z) (ti : thread_info) (p : option tpc) :
  info_wf n k t ti p ->
  sems n' !! sched_sem ti = Some (tokens (_current_thread_info k) t ti p) ->
  sched_sem ti ∉ wsems (trest k') -> threads_counter_lock k' = threads_counter_lock k ->
  _current_thread_info k' = _current_thread_info k -> t ∈ live (trest k') ->
  (forall tba, p = Some (PBoot tba) -> tbas k' !! tba = tbas k !! tba) ->
  info_wf n' k' t ti p.
Proof.
  intros [H1 H2 H3 H4 H5 H6 H7 H8] Hs Hw Hl Hc Hlv Hb. split; rewrite ?Hc, ?Hl; try done.
  intros tba Hp. rewrite (Hb tba Hp). by apply H8.
Qed.

(** A thread on the CPU is the current one, alive, and holds no token. *)
Lemma running_current (c : tconc N W) (t : Z) (q : tpc) :
  thr_inv c -> pcs c !! t = Some q -> on_cpu q = true ->
  t = _current_thread_info (t_k c) /\ exists ti, infos (t_k c) !! t = Some ti /\ dead ti = false.
Proof.
  intros Hi Hq Hon. destruct (tinv_pcs _ Hi t) as [ti Hti]; [by rewrite Hq|].
  pose proof (tinv_infos _ Hi _ _ Hti) as Hwf. rewrite Hq in Hwf.
  assert (t = _current_thread_info (t_k c)) as Hcur by (apply Hwf; eauto). split; [done|].
  exists ti. split; [done|]. destruct (dead ti) eqn:E; [|done].
  by destruct (info_dead _ _ _ _ _ Hwf E).
Qed.

Lemma incs_same (k k' : thr W) (pc pc' : gmap Z tpc) :
  _current_thread_info k' = _current_thread_info k ->
  pc' !! _current_thread_info k = pc !! _current_thread_info k -> incs k' pc' = incs k pc.
Proof. unfold incs. by intros -> ->. Qed.

Lemma size_insert_id (m : gmap Z tpc) (t : Z) (p q : tpc) :
  m !! t = Some p -> size (<[t := q]> m) = size m.
Proof. intros Hm. by rewrite map_size_insert_Some by eauto. Qed.

(** Posting a semaphore of a thread whose count is 0. *)
Lemma up_zero (s : Z) (n : N) :
  sems n !! s = Some 0 -> exists n', sem_up s n = Ret n' /\ sems n' = <[s := 1]> (sems n).
Proof.
  intros Hs. destruct (sem_up_ok s n 0 Hs) as (n' & Hu & E & _); [pose proof sem_max_pos; lia|].
  by exists n'.
Qed.

(** Taking a semaphore succeeds only on a token. *)
Lemma down_inv (s v : Z) (n n' : N) :
  sems n !! s = Some v -> sem_down s n = Ret n' -> 0 < v /\ sems n' = <[s := v - 1]> (sems n).
Proof.
  intros Hs Hd. destruct (Z_lt_le_dec 0 v) as [Hv|Hv].
  - destruct (sem_down_ok s n v Hs Hv) as (n1 & E & Hn1 & _). split; [done|]. congruence.
  - by rewrite (sem_down_blocks s n v Hs Hv) in Hd.
Qed.

(** A state change of the rest of the kernel keeps every thread as it is. *)
Lemma info_wf_rest (n n' : N) (k k' : thr W) (t : Z) (ti : thread_info) (p : option tpc) :
  info_wf n k t ti p -> sems_kept wsems n n' (trest k) (trest k') -> t ∈ live (trest k') ->
  threads_counter_lock k' = threads_counter_lock k ->
  _current_thread_info k' = _current_thread_info k ->
  (forall tba, p = Some (PBoot tba) -> tbas k' !! tba = tbas k !! tba) ->
  info_wf n' k' t ti p.
Proof.
  intros Hwf [Hk _] Hl El Ec Et.
  destruct (Hk _ _ (info_own _ _ _ _ _ Hwf) (info_sem _ _ _ _ _ Hwf)).
  by eapply info_wf_frame.
Qed.

(** ** Every step keeps the invariant *)

Lemma inv_switch_out (n n' : N) (k k' : thr W) (pc : gmap Z tpc) (e : nat) (prev next : Z)
    (ti : thread_info) :
  thr_inv (TConc n k pc e) -> pc !! tti prev = Some PRun -> tti next <> tti prev ->
  is_Some (pc !! tti next) -> infos k !! tti next = Some ti -> dead ti = false ->
  switch_out task_thread_info prev next (n, k) = Ret (n', k') ->
  thr_inv (TConc n' k' (<[tti prev := PSwitch]> pc) e).
Proof.
  intros Hi Hrun Hne [q Hq] Hti Hd Hsw.
  destruct (running_current _ _ _ Hi Hrun eq_refl) as [Hcur (pi & Hpi & Hpd)]. simpl in Hcur, Hpi.
  pose proof (tinv_infos _ Hi _ _ Hti) as Hwf. simpl in Hwf. rewrite Hq in Hwf.
  assert (on_cpu q = false) as Hoff.
  { destruct (on_cpu q) eqn:E; [|done]. destruct Hne. rewrite Hcur. apply Hwf. eauto. }
  assert (tokens (_current_thread_info k) (tti next) ti (Some q) = 0) as Htok.
  { unfold tokens. rewrite Hd. case_decide; [congruence|done]. }
  pose proof (info_sem _ _ _ _ _ Hwf) as Hs. rewrite Htok in Hs.
  destruct (up_zero _ _ Hs) as (n1 & Hu & Hn1).
  unfold switch_out in Hsw. rewrite Hti in Hsw. simpl in Hsw. rewrite Hu in Hsw.
  simpl in Hsw. injection Hsw as <- <-. destruct Hi as [I1 I2 I3 I4 I5 I6 I7 I8 I9 I10 I11].
  simpl in *. split; simpl; try done.
  - intros t ui. rewrite lookup_insert. case_decide as Ht.
    + intros [= <-]. subst t. rewrite lookup_insert_ne, Hq by done.
      split; simpl; try apply Hwf; try done.
      * rewrite Hn1, lookup_insert_eq. unfold tokens. simpl. rewrite Hd, decide_True by done.
        by rewrite Hoff.
      * intros E. congruence.
    + intros Hui. pose proof (I1 _ _ Hui) as Hu'. rewrite lookup_insert.
      assert (sched_sem ti <> sched_sem ui) as Hss by (intros E; apply Ht; by eapply I5).
      case_decide as Htp.
      * subst t. rewrite Hpi in Hui. injection Hui as <-. rewrite Hrun in Hu'.
        split; simpl; try apply Hu'; try done.
        -- rewrite Hn1, lookup_insert_ne, (info_sem _ _ _ _ _ Hu') by done. unfold tokens.
           rewrite Hpd, (decide_True _ _ Hcur). rewrite decide_False by done. done.
        -- intros E. congruence.
        -- by intros (? & [= <-] & ?).
      * assert (t <> _current_thread_info k) as Htc by congruence.
        split; simpl; try apply Hu'.
        -- rewrite Hn1, lookup_insert_ne, (info_sem _ _ _ _ _ Hu') by done. unfold tokens.
           destruct (dead ui); [done|]. by rewrite !decide_False by done.
        -- intros E. destruct (info_dead _ _ _ _ _ Hu' E) as (? & ? & ?). by split_and!.
        -- intros Hon. destruct Htc. by apply Hu'.
  - intros t. rewrite !lookup_insert. repeat case_decide; try done; [|apply I2].
    subst. by rewrite Hpi.
  - rewrite lookup_insert_ne by done. by rewrite Hq.
  - rewrite lookup_insert. by case_decide.
  - intros t u xi yi. rewrite !lookup_insert. repeat case_decide; subst; try done.
    + intros [= <-] Hy E. by eapply I5.
    + intros Hx [= <-] E. by eapply I5.
    + apply I5.
  - intros a Ha. destruct (I6 a Ha) as [? Hno]. split; [done|].
    rewrite lookup_insert_ne; [done|]. intros <-. congruence.
  - rewrite Hn1, lookup_insert_ne; [done|apply Hwf].
  - rewrite Hn1, dom_insert_L. clear -I9. set_solver.
  - rewrite size_insert_id with (p := PRun) by done.
    unfold incs in I10 |- *. simpl. rewrite lookup_insert_ne, Hq by done. rewrite <- Hcur, Hrun in I10.
    by destruct q.
  - unfold incs in I11 |- *. simpl. rewrite lookup_insert_ne, Hq by done. rewrite <- Hcur, Hrun in I11.
    by destruct q.
Qed.

Lemma inv_switch_in (n n' : N) (k k' : thr W) (pc : gmap Z tpc) (e : nat) (prev : Z) (d : bool) :
  thr_inv (TConc n k pc e) -> pc !! tti prev = Some PSwitch ->
  switch_in task_thread_info prev (n, k) = Ret (d, (n', k')) ->
  thr_inv (TConc n' k' (<[tti prev := if d then PFree else PRun]> pc) e).
Proof.
  intros Hi Hp Hsw. destruct (tinv_pcs _ Hi (tti prev)) as [ti Hti]; [simpl; by rewrite Hp|].
  pose proof (tinv_infos _ Hi _ _ Hti) as Hwf. simpl in Hwf, Hti. rewrite Hp in Hwf.
  pose proof (info_sem _ _ _ _ _ Hwf) as Hs.
  unfold switch_in in Hsw. rewrite Hti in Hsw. simpl in Hsw.
  destruct (sem_down (sched_sem ti) n) as [n1| | |] eqn:Hd; simpl in Hsw; try done.
  injection Hsw as <- <- <-. destruct (down_inv _ _ _ _ Hs Hd) as [Hpos Hn1].
  assert (dead ti = false -> tti prev = _current_thread_info k) as Hcur.
  { intros E. unfold tokens in Hpos. rewrite E in Hpos. case_decide; [done|lia]. }
  assert (tokens (_current_thread_info k) (tti prev) ti (Some PSwitch) = 1) as Htok.
  { pose proof (tokens_range (_current_thread_info k) (tti prev) ti (Some PSwitch)). lia. }
  rewrite Htok in Hn1. simpl in Hn1.
  destruct Hi as [I1 I2 I3 I4 I5 I6 I7 I8 I9 I10 I11]. simpl in *. split; simpl; try done.
  - intros t ui Hui. rewrite lookup_insert. case_decide as Ht.
    + subst t. rewrite Hti in Hui. injection Hui as <-.
      split; simpl; try apply Hwf.
      * rewrite Hn1, lookup_insert_eq. unfold tokens. destruct (dead ti); [done|].
        by rewrite decide_True by auto.
      * intros E. rewrite E. destruct (info_dead _ _ _ _ _ Hwf E) as (? & ? & _). split_and!; auto.
      * by destruct (dead ti).
      * intros (q & Hq & Hon). apply Hcur. destruct (dead ti); [|done]. injection Hq as <-. done.
      * intros tba. by destruct (dead ti).
    + pose proof (I1 _ _ Hui) as Hu'. eapply info_wf_frame; try done; try apply Hu'.
      rewrite Hn1, lookup_insert_ne; [apply Hu'|]. intros E. apply Ht. by eapply I5.
  - intros t. rewrite lookup_insert. case_decide; [|apply I2]. subst. by rewrite Hti.
  - rewrite lookup_insert. by case_decide.
  - rewrite lookup_insert. by case_decide.
  - rewrite Hn1, lookup_insert_ne; [done|]. apply Hwf.
  - rewrite Hn1, dom_insert_L. clear -I9. set_solver.
  - rewrite size_insert_id with (p := PSwitch) by done. rewrite <- I10. f_equal.
    unfold incs. rewrite lookup_insert. case_decide as Hc; [|done].
    rewrite <- Hc, Hp. by destruct (dead ti).
  - enough (incs k (<[tti prev := if dead ti then PFree else PRun]> pc) = incs k pc) as -> by done.
    unfold incs. rewrite lookup_insert. case_decide as Hc; [|done].
    rewrite <- Hc, Hp. by destruct (dead ti).
Qed.

(** The rest of the kernel, the counter and the bootstrap arguments changed. *)
Lemma inv_frame (n n' : N) (k k' : thr W) (pc : gmap Z tpc) (e e' : nat) :
  thr_inv (TConc n k pc e) -> infos k' = infos k ->
  _current_thread_info k' = _current_thread_info k ->
  threads_counter_lock k' = threads_counter_lock k ->
  sems_kept wsems n n' (trest k) (trest k') ->
  (forall t, is_Some (infos k !! t) -> t ∈ live (trest k')) ->
  (forall a, is_Some (tbas k' !! a) -> a ∈ live (trest k') /\ infos k !! a = None) ->
  (forall t tba, pc !! t = Some (PBoot tba) -> tbas k' !! tba = tbas k !! tba) ->
  threads_counter k' - Z.of_nat e' = threads_counter k - Z.of_nat e ->
  threads_counter k' <= threads_counter k ->
  thr_inv (TConc n' k' pc e').
Proof.
  intros [I1 I2 I3 I4 I5 I6 I7 I8 I9 I10 I11] Ei Ec El Hk Hlv Hta Hb Hcnt Hle. simpl in *.
  destruct (proj1 Hk _ _ I8 I7) as [Hlk Hlo].
  assert (incs k' pc = incs k pc) as Hinc by by apply incs_same.
  split; simpl; rewrite ?Ei, ?Ec, ?El, ?Hinc; try done; try lia.
  - intros t ti Hti. eapply info_wf_rest; try done; [by apply I1|by eauto|by eauto].
  - by apply Hk.
Qed.

Lemma sems_kept_eq (n n' : N) (w : W) : sems n' = sems n -> sems_kept wsems n n' w w.
Proof. intros E. split; [|by rewrite E]. intros p v ? ?. by rewrite E. Qed.

Lemma counter_lock_ok (k : thr W) (n : N) :
  sems n !! threads_counter_lock k = Some 1 ->
  exists n1 n2, sem_down (threads_counter_lock k) n = Ret n1 /\
    sem_up (threads_counter_lock k) n1 = Ret n2 /\ sems n2 = sems n.
Proof. intros H. destruct (lock_ok _ _ H) as (n1 & n2 & ? & ? & ? & _). eauto 6. Qed.

Lemma counter_range (n : N) (k : thr W) (pc : gmap Z tpc) (e : nat) :
  thr_inv (TConc n k pc e) -> -1 <= threads_counter k - Z.of_nat e /\ threads_counter k <= INT_MAX.
Proof.
  intros Hi. pose proof (tinv_count _ Hi) as H1. pose proof (tinv_range _ Hi) as H2. simpl in *.
  assert (0 <= incs k pc <= 1) by (unfold incs; destruct (pc !! _) as [[]|]; lia).
  assert (size pc <> 0%nat).
  { intros E%map_size_empty_inv. destruct (tinv_current _ Hi) as [? Hc]. simpl in Hc.
    by rewrite E, lookup_empty in Hc. }
  lia.
Qed.

Lemma inv_dec (n n' : N) (k k' : thr W) (pc : gmap Z tpc) (e : nat) :
  thr_inv (TConc n k pc (S e)) -> threads_counter_dec (n, k) = Ret (n', k') ->
  thr_inv (TConc n' k' pc e).
Proof.
  intros Hi. destruct (counter_lock_ok k n (tinv_lock _ Hi)) as (n1 & n2 & Hd & Hu & Hs).
  destruct (counter_range _ _ _ _ Hi) as [Hlo Hhi].
  unfold threads_counter_dec. rewrite Hd. simpl. rewrite Hu. simpl. intros [= <- <-].
  assert (s32 (threads_counter k - 1) = threads_counter k - 1) as E.
  { apply swrap_id; [done|]. unfold INT_MAX in *. pow_lia. }
  eapply inv_frame; try done; simpl; rewrite ?E; try lia.
  - by apply sems_kept_eq.
  - intros t [ti Hti]. eapply info_live, (tinv_infos _ Hi). exact Hti.
  - apply (tinv_tbas _ Hi).
Qed.

Lemma inv_inc (n n' : N) (k k' : thr W) (pc : gmap Z tpc) (e : nat) (t : Z) :
  thr_inv (TConc n k pc e) -> pc !! t = Some PInc -> threads_counter_inc (n, k) = Ret (n', k') ->
  thr_inv (TConc n' k' (<[t := PRun]> pc) e).
Proof.
  intros Hi Ht. destruct (counter_lock_ok k n (tinv_lock _ Hi)) as (n1 & n2 & Hd & Hu & Hs).
  destruct (counter_range _ _ _ _ Hi) as [Hlo Hhi].
  destruct (running_current _ _ _ Hi Ht eq_refl) as [Hcur (ti & Hti & Hdead)]. simpl in Hcur, Hti.
  unfold threads_counter_inc. rewrite Hd. simpl. rewrite Hu. simpl. intros [= <- <-].
  destruct Hi as [I1 I2 I3 I4 I5 I6 I7 I8 I9 I10 I11]. simpl in *.
  unfold incs in I10, I11. rewrite <- Hcur, Ht in I10, I11.
  assert (s32 (threads_counter k + 1) = threads_counter k + 1) as E.
  { apply swrap_id; [done|]. unfold INT_MAX in *. pow_lia. }
  split; simpl; rewrite ?Hs; try done.
  - intros u ui Hui. pose proof (I1 _ _ Hui) as Hwf. rewrite lookup_insert. case_decide as Hu'.
    + subst u. rewrite Hti in Hui. injection Hui as <-. rewrite Ht in Hwf.
      split; simpl; try apply Hwf; rewrite ?Hs; try done; try congruence.
      * rewrite (info_sem _ _ _ _ _ Hwf). unfold tokens. rewrite Hdead. by case_decide.
    + eapply info_wf_frame; try done; try apply Hwf. rewrite Hs. apply Hwf.
  - intros u. rewrite lookup_insert. case_decide; [subst; by rewrite Hti|apply I2].
  - rewrite lookup_insert. by case_decide.
  - rewrite lookup_insert. by case_decide.
  - rewrite E, size_insert_id with (p := PInc) by done. unfold incs. simpl.
    rewrite <- Hcur, lookup_insert_eq. lia.
  - rewrite E. unfold incs. simpl. rewrite <- Hcur, lookup_insert_eq. lia.
Qed.

(** A thread off the CPU moved from [PBoot] to [PBootWait]. *)
Lemma inv_boot_pc (n : N) (k : thr W) (pc : gmap Z tpc) (e : nat) (t tba : Z) :
  thr_inv (TConc n k pc e) -> pc !! t = Some (PBoot tba) ->
  thr_inv (TConc n k (<[t := PBootWait]> pc) e).
Proof.
  intros [I1 I2 I3 I4 I5 I6 I7 I8 I9 I10 I11] Ht. simpl in *.
  assert (incs k (<[t := PBootWait]> pc) = incs k pc) as Hinc.
  { unfold incs. rewrite lookup_insert. case_decide as Hc; [|done]. by rewrite <- Hc, Ht. }
  split; simpl; rewrite ?Hinc; try done.
  - intros u ui Hui. pose proof (I1 _ _ Hui) as Hwf. rewrite lookup_insert. case_decide; [|done].
    subst u. rewrite Ht in Hwf. split; simpl; try apply Hwf; try done.
    + intros E. by destruct (info_dead _ _ _ _ _ Hwf E) as (_ & _ & [?|?]).
    + by intros (? & [= <-] & ?).
  - intros u. rewrite lookup_insert. case_decide; [|apply I2]. intros _. subst. apply I2. by rewrite Ht.
  - rewrite lookup_insert. by case_decide.
  - rewrite lookup_insert. by case_decide.
  - by rewrite size_insert_id with (p := PBoot tba).
Qed.

Lemma inv_boot (n n' : N) (k k' : thr W) (pc : gmap Z tpc) (e : nat) (t tba : Z) :
  slab_ok kmalloc kfree wsems live ->
  thr_inv (TConc n k pc e) -> pc !! t = Some (PBoot tba) ->
  bootstrap_begin kfree tba (n, k) = Ret (t, (n', k')) ->
  thr_inv (TConc n' k' (<[t := PBootWait]> pc) e).
Proof.
  intros Hsl Hi Ht. destruct (tinv_pcs _ Hi t) as [ti Hti]; [simpl; by rewrite Ht|].
  pose proof (tinv_infos _ Hi _ _ Hti) as Hwf. simpl in Hwf, Hti.
  destruct (info_boot _ _ _ _ _ Hwf tba Ht) as (a & Ha & Hat).
  destruct (tinv_tbas _ Hi tba) as [Hlv Hno]; [simpl; by rewrite Ha|]. simpl in Hlv, Hno.
  destruct (slab_free _ _ _ _ Hsl tba n (trest k) Hlv) as (n1 & w1 & Hf & Hk & Hl1).
  unfold bootstrap_begin. rewrite Ha. simpl. rewrite Hf. simpl. intros [= _ <- <-].
  eapply (inv_frame n n1 k); [by eapply inv_boot_pc|try done..]; simpl.
  - intros u [ui Hui]. rewrite Hl1. pose proof (info_live _ _ _ _ _ (tinv_infos _ Hi _ _ Hui)).
    assert (u <> tba) by (simpl in Hui; congruence). clear -H H0. set_solver.
  - intros b. rewrite lookup_delete, Hl1. case_decide; [by intros [? ?]|]. intros Hb.
    destruct (tinv_tbas _ Hi b Hb). split; [|done]. clear -H H0. set_solver.
  - intros u b. rewrite !lookup_insert, lookup_delete. case_decide as Hut; [done|]. intros Hu.
    case_decide as Hb; [|done]. subst b. destruct (tinv_pcs _ Hi u) as [ui Hui]; [simpl; by rewrite Hu|].
    destruct (info_boot _ _ _ _ _ (tinv_infos _ Hi _ _ Hui) tba) as (a' & Ha' & ?); [done|].
    simpl in Ha'. congruence.
Qed.

Lemma inv_boot_wake (n n' : N) (k k' : thr W) (pc : gmap Z tpc) (e : nat) (t : Z) (o : option Z) :
  thr_inv (TConc n k pc e) -> pc !! t = Some PBootWait ->
  bootstrap_wake t (n, k) = Ret (o, (n', k')) ->
  thr_inv (TConc n' k' (<[t := PRun]> pc) e).
Proof.
  intros Hi Hp Hsw. destruct (tinv_pcs _ Hi t) as [ti Hti]; [simpl; by rewrite Hp|].
  pose proof (tinv_infos _ Hi _ _ Hti) as Hwf. simpl in Hwf, Hti. rewrite Hp in Hwf.
  pose proof (info_sem _ _ _ _ _ Hwf) as Hs.
  unfold bootstrap_wake in Hsw. rewrite Hti in Hsw. simpl in Hsw.
  destruct (sem_down (sched_sem ti) n) as [n1| | |] eqn:Hd; simpl in Hsw; try done.
  destruct (dead ti) eqn:Hdead; [done|]. simpl in Hsw. injection Hsw as _ <- <-.
  destruct (down_inv _ _ _ _ Hs Hd) as [Hpos Hn1].
  unfold tokens in Hpos, Hn1. rewrite Hdead in Hpos, Hn1. case_decide as Hcur; [|lia]. simpl in Hn1.
  destruct Hi as [I1 I2 I3 I4 I5 I6 I7 I8 I9 I10 I11]. simpl in *.
  assert (incs k (<[t := PRun]> pc) = incs k pc) as Hinc.
  { unfold incs. rewrite lookup_insert. case_decide as Hc; [|done]. by rewrite <- Hc, Hp. }
  split; simpl; rewrite ?Hinc; try done.
  - intros u ui Hui. pose proof (I1 _ _ Hui) as Hu'. rewrite lookup_insert. case_decide as Ht.
    + subst u. rewrite Hti in Hui. injection Hui as <-. split; simpl; try apply Hwf; try done.
      * rewrite Hn1, lookup_insert_eq. unfold tokens. rewrite Hdead. by rewrite decide_True.
      * intros E. congruence.
    + eapply info_wf_frame; try done; try apply Hu'.
      rewrite Hn1, lookup_insert_ne; [apply Hu'|]. intros E. apply Ht. by eapply I5.
  - intros u. rewrite lookup_insert. case_decide; [|apply I2]. subst. by rewrite Hti.
  - rewrite lookup_insert. by case_decide.
  - rewrite lookup_insert. by case_decide.
  - rewrite Hn1, lookup_insert_ne; [done|]. apply Hwf.
  - rewrite Hn1, dom_insert_L. clear -I9. set_solver.
  - by rewrite size_insert_id with (p := PBootWait).
Qed.

(** A dead thread frees its semaphore and its [thread_info]. *)
Lemma inv_switch_free (n n' : N) (k k' : thr W) (pc : gmap Z tpc) (e : nat) (prev : Z) :
  slab_ok kmalloc kfree wsems live ->
  thr_inv (TConc n k pc e) -> pc !! tti prev = Some PFree ->
  switch_free kfree task_thread_info prev (n, k) = Ret (n', k') ->
  thr_inv (TConc n' k' (delete (tti prev) pc) (S e)).
Proof.
  intros Hsl Hi Hp. destruct (tinv_pcs _ Hi (tti prev)) as [ti Hti]; [simpl; by rewrite Hp|].
  pose proof (tinv_infos _ Hi _ _ Hti) as Hwf. simpl in Hwf, Hti. rewrite Hp in Hwf.
  pose proof (info_free _ _ _ _ _ Hwf eq_refl) as Hdead.
  destruct (info_dead _ _ _ _ _ Hwf Hdead) as (Hcur & Hini & _).
  destruct (sem_free_ok _ _ _ (info_sem _ _ _ _ _ Hwf)) as (n1 & Hf1 & Hn1 & _).
  destruct (slab_free _ _ _ _ Hsl (tti prev) n1 (trest k) (info_live _ _ _ _ _ Hwf))
    as (n2 & w2 & Hf2 & Hk & Hl2).
  unfold switch_free. rewrite Hti. simpl. rewrite Hf1. simpl. rewrite Hf2. simpl. intros [= <- <-].
  destruct Hi as [I1 I2 I3 I4 I5 I6 I7 I8 I9 I10 I11]. simpl in *.
  assert (incs k (delete (tti prev) pc) = incs k pc) as Hinc.
  { unfold incs. by rewrite lookup_delete_ne by done. }
  assert (wsems (trest k) ⊆ dom (sems n1)) as Hws.
  { rewrite Hn1, dom_delete_L. pose proof (info_own _ _ _ _ _ Hwf). clear -I9 H. set_solver. }
  destruct (proj1 Hk (threads_counter_lock k) 1) as [Hlk Hlo]; [done| |].
  { rewrite Hn1, lookup_delete_ne; [done|apply Hwf]. }
  split; simpl; try done.
  - intros u ui. rewrite !lookup_delete. case_decide as Hu; [done|]. intros Hui.
    pose proof (I1 _ _ Hui) as Hu'.
    assert (sems n1 !! sched_sem ui = Some (tokens (_current_thread_info k) u ui (pc !! u))) as Hs1.
    { rewrite Hn1, lookup_delete_ne; [apply Hu'|]. intros E. apply Hu. by eapply I5. }
    destruct (proj1 Hk _ _ (info_own _ _ _ _ _ Hu') Hs1).
    eapply info_wf_frame; try done. simpl. rewrite Hl2. pose proof (info_live _ _ _ _ _ Hu').
    clear -H1 Hu. set_solver.
  - intros u. rewrite !lookup_delete. case_decide; [by intros [? ?]|]. apply I2.
  - by rewrite lookup_delete_ne.
  - by rewrite lookup_delete_ne.
  - intros a b ai bi. rewrite !lookup_delete. repeat case_decide; try done. apply I5.
  - intros a Ha. destruct (I6 a Ha) as [Hal Hno]. rewrite lookup_delete, Hl2.
    assert (a <> tti prev) by congruence. case_decide; split; try done; clear -Hal H; set_solver.
  - by apply Hk.
  - unfold incs in *. simpl. rewrite Hinc, map_size_delete_Some by (rewrite Hp; eauto).
    assert (size pc <> 0%nat).
    { intros E%map_size_empty_inv. by rewrite E, lookup_empty in Hp. }
    lia.
  - unfold incs in *. simpl. by rewrite Hinc.
Qed.

(** Addresses of threads and bootstrap arguments come from the slab. *)
Lemma infos_live (n : N) (k : thr W) (pc : gmap Z tpc) (e : nat) (t : Z) :
  thr_inv (TConc n k pc e) -> is_Some (infos k !! t) -> t ∈ live (trest k).
Proof. intros Hi [ti Hti]. eapply info_live, (tinv_infos _ Hi). exact Hti. Qed.

Lemma inv_other (n n' : N) (k : thr W) (pc : gmap Z tpc) (e : nat) (w' : W) :
  thr_inv (TConc n k pc e) -> sems_kept wsems n n' (trest k) w' -> live (trest k) ⊆ live w' ->
  thr_inv (TConc n' (set_trest w' k) pc e).
Proof.
  intros Hi Hk Hl. eapply inv_frame; try done; simpl.
  - intros t Ht. apply Hl. by eapply infos_live.
  - intros a Ha. destruct (tinv_tbas _ Hi a Ha). split; [by apply Hl|done].
Qed.

(** A new [thread_info], for which no native thread exists yet. *)
Lemma inv_new_info (n n' : N) (k : thr W) (pc : gmap Z tpc) (e : nat) (t s : Z) :
  thr_inv (TConc n k pc e) -> infos k !! t = None -> tbas k !! t = None -> t ∈ live (trest k) ->
  sem_alloc 0 n = (s, n') -> s <> NULL ->
  thr_inv (TConc n' (set_infos (<[t := Thread_info s NULL false NULL]> (infos k)) k) pc e).
Proof.
  intros [I1 I2 I3 I4 I5 I6 I7 I8 I9 I10 I11] Ht Hta Hlv Ha Hs. simpl in *.
  destruct (sem_alloc_ok _ _ _ _ Ha Hs) as (Hfr & Hn & _).
  assert (pc !! t = None) as Hpc.
  { apply eq_None_not_Some. intros [? E]%I2. congruence. }
  assert (forall u ui, infos k !! u = Some ui -> sched_sem ui <> s) as Hother.
  { intros u ui Hu <-. pose proof (info_sem _ _ _ _ _ (I1 _ _ Hu)). congruence. }
  split; simpl; try done.
  - intros u ui. rewrite lookup_insert. case_decide as Hu.
    + subst u. intros [= <-]. rewrite Hpc. split; simpl; try done.
      * rewrite Hn, lookup_insert_eq. unfold tokens. simpl. by case_decide.
      * apply not_elem_of_dom in Hfr. clear -Hfr I9. set_solver.
      * intros ->. congruence.
      * by intros (? & [=] & _).
    + intros Hui. pose proof (I1 _ _ Hui) as Hwf. eapply info_wf_frame; try done; try apply Hwf.
      rewrite Hn, lookup_insert_ne; [apply Hwf|]. apply not_eq_sym. by eapply Hother.
  - intros u Hu. rewrite lookup_insert. case_decide; [done|]. by apply I2.
  - intros a b ai bi. rewrite !lookup_insert. repeat case_decide; subst; try done.
    + intros [= <-] Hb E. by destruct (Hother _ _ Hb).
    + intros Ha' [= <-] E. by destruct (Hother _ _ Ha').
    + apply I5.
  - intros a Hat. destruct (I6 a Hat) as [? Hno]. split; [done|].
    rewrite lookup_insert_ne; [done|]. intros <-. rewrite Hta in Hat. by destruct Hat.
  - rewrite Hn, lookup_insert_ne; [done|]. intros ->. congruence.
  - rewrite Hn, dom_insert_L. clear -I9. set_solver.
Qed.

Lemma inv_alloc (n n' : N) (k k' : thr W) (pc : gmap Z tpc) (e : nat) (t : Z) :
  slab_ok kmalloc kfree wsems live -> thr_inv (TConc n k pc e) ->
  alloc_thread_info kmalloc kfree (n, k) = Ret (t, (n', k')) -> thr_inv (TConc n' k' pc e).
Proof.
  intros Hsl Hi. unfold alloc_thread_info.
  destruct (kmalloc sizeof_thread_info (n, trest k)) as [p [n1 w1]] eqn:Hkm.
  apply Hsl in Hkm as [Hk Hl]. destruct (Z.eqb_spec p NULL) as [->|Hp].
  { intros [= <- <- <-]. apply (inv_other n); try done. by rewrite Hl. }
  destruct Hl as [Hnew Hl].
  assert (thr_inv (TConc n1 (set_trest w1 k) pc e)) as Hi1.
  { apply (inv_other n); try done. rewrite Hl. clear. set_solver. }
  destruct (sem_alloc 0 n1) as [s n2] eqn:Ha. destruct (Z.eqb_spec s NULL) as [->|Hs].
  - destruct (sem_alloc_null _ _ _ Ha) as [Hs _].
    destruct (slab_free _ _ _ _ Hsl p n2 w1) as (n3 & w3 & Hf & Hk3 & Hl3); [rewrite Hl; clear; set_solver|].
    simpl. rewrite Hf. simpl. intros [= <- <- <-].
    apply (inv_frame n1 n3 (set_trest w1 k) _ pc e e Hi1); try done; simpl.
    + unfold sems_kept in *. by rewrite <- Hs.
    + intros u Hu. rewrite Hl3, Hl. pose proof (infos_live _ _ _ _ _ Hi Hu). clear -H Hnew. set_solver.
    + intros a Hat. destruct (tinv_tbas _ Hi a Hat) as [Hal ?]. split; [|done].
      simpl in Hal. rewrite Hl3, Hl. clear -Hal Hnew. set_solver.
  - intros [= <- <- <-]. apply (inv_new_info n1 n2 (set_trest w1 k)); try done; simpl.
    + apply eq_None_not_Some. intros Hu. apply Hnew. by eapply infos_live.
    + apply eq_None_not_Some. intros Hu. by destruct (tinv_tbas _ Hi p Hu).
    + rewrite Hl. clear. set_solver.
Qed.

(** [ti->thread] is not looked at by anything but the thread itself. *)
Lemma inv_thread (n : N) (k : thr W) (pc : gmap Z tpc) (e : nat) (t h : Z) (ti : thread_info) :
  thr_inv (TConc n k pc e) -> infos k !! t = Some ti ->
  thr_inv (TConc n (set_infos (<[t := with_thread h ti]> (infos k)) k) pc e).
Proof.
  intros [I1 I2 I3 I4 I5 I6 I7 I8 I9 I10 I11] Ht. simpl in *. split; simpl; try done.
  - intros u ui. rewrite lookup_insert. case_decide as Hu.
    + subst u. intros [= <-]. pose proof (I1 _ _ Ht) as Hwf. by split; simpl; apply Hwf.
    + intros Hui. pose proof (I1 _ _ Hui) as Hwf. by split; simpl; apply Hwf.
  - intros u Hu. rewrite lookup_insert. case_decide; [done|]. by apply I2.
  - intros a b ai bi. rewrite !lookup_insert. repeat case_decide; subst; try done.
    + intros [= <-] Hb E. by eapply I5.
    + intros Ha [= <-] E. by eapply I5.
    + apply I5.
  - intros a Ha. destruct (I6 a Ha) as [? Hno]. split; [done|].
    rewrite lookup_insert_ne; [done|]. intros <-. congruence.
Qed.

(** The CPU stays with the creator; the new thread starts without a token. *)
Lemma inv_new_thread (n : N) (k : thr W) (pc : gmap Z tpc) (e : nat) (t u tba : Z) (a : bootstrap_arg) :
  thr_inv (TConc n k pc e) -> pc !! t = Some PRun -> pc !! u = None -> is_Some (infos k !! u) ->
  tbas k !! tba = Some a -> tba_ti a = u -> threads_counter k < INT_MAX ->
  thr_inv (TConc n k (<[u := PBoot tba]> (<[t := PInc]> pc)) e).
Proof.
  intros Hi Ht Hu [ui Hui] Hta Hau Hmax.
  destruct (running_current _ _ _ Hi Ht eq_refl) as [Hcur (ti & Hti & Hdead)]. simpl in Hcur, Hti.
  destruct Hi as [I1 I2 I3 I4 I5 I6 I7 I8 I9 I10 I11]. simpl in *.
  assert (u <> t) as Hut by congruence.
  assert (incs k (<[u := PBoot tba]> (<[t := PInc]> pc)) = 1) as Hinc.
  { unfold incs. rewrite <- Hcur, lookup_insert_ne, lookup_insert_eq by done. done. }
  assert (incs k pc = 0) as Hinc0 by (unfold incs; by rewrite <- Hcur, Ht).
  split; simpl; rewrite ?Hinc; try done.
  - intros v vi Hvi. pose proof (I1 _ _ Hvi) as Hwf. rewrite lookup_insert. case_decide as Hv.
    + subst v. rewrite Hu in Hwf. split; simpl; try apply Hwf; try done.
      * rewrite (info_sem _ _ _ _ _ Hwf). unfold tokens.
        destruct (dead vi); [done|]. case_decide; [congruence|done].
      * intros E. by destruct (info_dead _ _ _ _ _ Hwf E) as (_ & _ & [?|?]).
      * by intros (? & [= <-] & ?).
      * intros b [= <-]. eauto.
    + rewrite lookup_insert. case_decide; [|done]. subst v. rewrite Ht in Hwf.
      rewrite Hti in Hvi. injection Hvi as <-. split; simpl; try apply Hwf; try done. congruence.
  - intros v. rewrite !lookup_insert. repeat case_decide; subst; eauto.
  - rewrite !lookup_insert. repeat case_decide; done.
  - rewrite !lookup_insert. repeat case_decide; done.
  - rewrite map_size_insert_None by (by rewrite lookup_insert_ne).
    rewrite size_insert_id with (p := PRun) by done. lia.
  - lia.
Qed.

(** The host callback only starts the native thread. *)
Definition thread_create_ok : Prop :=
  forall tba n t n', thread_create tba n = (t, n') -> sems n' = sems n.

Definition thr_contracts : Prop := slab_ok kmalloc kfree wsems live /\ thread_create_ok.

(** [copy_thread_create]: the new argument is fresh, the thread field is set. *)
Lemma copy_thread_create_inv (n n' : N) (k k' : thr W) (pc : gmap Z tpc) (e : nat) (esp arg p r : Z) :
  thr_contracts -> thr_inv (TConc n k pc e) ->
  copy_thread_create kmalloc kfree thread_create task_thread_info esp arg p (n, k) = Ret (r, (n', k')) ->
  thr_inv (TConc n' k' pc e) /\ threads_counter k' = threads_counter k /\
  (forall t, is_Some (infos k !! t) -> is_Some (infos k' !! t)).
Proof.
  intros [Hsl Htc] Hi. unfold copy_thread_create.
  destruct (kmalloc sizeof_bootstrap_arg (n, trest k)) as [tba [n1 w1]] eqn:Hkm.
  apply Hsl in Hkm as [Hk Hl]. destruct (Z.eqb_spec tba NULL) as [->|Hp]; [done|]. simpl.
  destruct Hl as [Hnew Hl].
  destruct (thread_create tba n1) as [t n2] eqn:Hc. apply Htc in Hc.
  destruct (infos k !! tti p) as [ti|] eqn:Hti; [|done]. simpl.
  assert (infos k !! tba = None) as Hno.
  { apply eq_None_not_Some. intros Hu. apply Hnew. by eapply infos_live. }
  set (k1 := set_tbas (<[tba := Bootstrap_arg (tti p) esp arg]> (tbas k)) (set_trest w1 k)).
  assert (tbas k !! tba = None) as Hta.
  { apply eq_None_not_Some. intros Hu. by destruct (tinv_tbas _ Hi tba Hu). }
  assert (thr_inv (TConc n2 k1 pc e)) as Hi1.
  { eapply inv_frame; try done; simpl.
    - unfold sems_kept in *. by rewrite Hc.
    - intros u Hu. rewrite Hl. pose proof (infos_live _ _ _ _ _ Hi Hu). clear -H. set_solver.
    - intros a. rewrite lookup_insert, Hl. case_decide; [subst a; intros _; split; [clear; set_solver|done]|].
      intros Ha. destruct (tinv_tbas _ Hi a Ha) as [Hal ?]. split; [|done]. simpl in Hal. clear -Hal. set_solver.
    - intros u b Hb. rewrite lookup_insert. case_decide; [|done]. subst b.
      destruct (tinv_pcs _ Hi u) as [ui Hui]; [simpl; by rewrite Hb|].
      destruct (info_boot _ _ _ _ _ (tinv_infos _ Hi _ _ Hui) tba Hb) as (a & Ha & _). simpl in Ha. congruence. }
  assert (forall u, is_Some (infos k !! u) -> is_Some (<[tti p := with_thread t ti]> (infos k) !! u)) as Hmono.
  { intros u Hu. rewrite lookup_insert. by case_decide. }
  assert (thr_inv (TConc n2 (set_infos (<[tti p := with_thread t ti]> (infos k)) k1) pc e)) as Hi2
    by by apply (inv_thread n2 k1).
  destruct (Z.eqb_spec t NULL) as [->|Ht].
  - destruct (slab_free _ _ _ _ Hsl tba n2 w1) as (n3 & w3 & Hf & Hk3 & Hl3); [rewrite Hl; clear; set_solver|].
    rewrite Hf. simpl. intros [= <- <- <-]. split_and!; try done.
    assert (delete tba (<[tba := Bootstrap_arg (tti p) esp arg]> (tbas k)) = tbas k) as Hdel
      by by apply delete_insert_id.
    eapply inv_frame; [exact Hi2|try done..]; simpl; rewrite ?Hdel.
    + intros u Hu. pose proof (infos_live _ _ _ _ _ Hi2 Hu) as Hul. simpl in Hul. rewrite Hl3.
      assert (u <> tba); [|clear -Hul H; set_solver]. intros ->.
      rewrite lookup_insert in Hu. case_decide; [congruence|]. rewrite Hno in Hu. by destruct Hu.
    + intros a Ha. destruct (tinv_tbas _ Hi a Ha) as [Hal Hai]. simpl in Hal, Hai.
      assert (a <> tba) by (intros ->; rewrite Hta in Ha; by destruct Ha). split.
      * rewrite Hl3, Hl. clear -Hal H. set_solver.
      * rewrite lookup_insert. case_decide; [congruence|done].
    + intros u b Hb. rewrite lookup_insert. case_decide; [|done]. subst b.
      destruct (tinv_pcs _ Hi u) as [ui Hui]; [simpl; by rewrite Hb|].
      destruct (info_boot _ _ _ _ _ (tinv_infos _ Hi _ _ Hui) tba Hb) as (a & Ha & _). simpl in Ha. congruence.
  - intros [= <- <- <-]. by split_and!.
Qed.

Lemma inv_free_info (n n' : N) (k k' : thr W) (pc : gmap Z tpc) (e : nat) (t v : Z) (ti : thread_info) :
  thr_inv (TConc n k pc e) -> pc !! t = Some PRun -> t <> v -> pc !! v = Some PSwitch ->
  infos k !! v = Some ti -> dead ti = false -> v <> init_thread_info ->
  free_thread_info v (n, k) = Ret (n', k') -> thr_inv (TConc n' k' pc e).
Proof.
  intros Hi Ht Htv Hv Hti Hd Hini.
  destruct (running_current _ _ _ Hi Ht eq_refl) as [Hcur _]. simpl in Hcur.
  pose proof (tinv_infos _ Hi _ _ Hti) as Hwf. simpl in Hwf. rewrite Hv in Hwf.
  pose proof (info_sem _ _ _ _ _ Hwf) as Hs. unfold tokens in Hs. rewrite Hd in Hs.
  rewrite decide_False in Hs by congruence.
  destruct (up_zero _ _ Hs) as (n1 & Hu & Hn1).
  unfold free_thread_info. rewrite Hti. simpl. rewrite Hu. simpl. intros [= <- <-].
  destruct Hi as [I1 I2 I3 I4 I5 I6 I7 I8 I9 I10 I11]. simpl in *. split; simpl; try done.
  - intros u ui. rewrite lookup_insert. case_decide as Hu'.
    + subst u. intros [= <-]. rewrite Hv. split; simpl; try apply Hwf; try done.
      * by rewrite Hn1, lookup_insert_eq.
      * intros _. split_and!; [congruence|done|by left].
    + intros Hui. pose proof (I1 _ _ Hui) as Hwf'. eapply info_wf_frame; try done; try apply Hwf'.
      rewrite Hn1, lookup_insert_ne; [apply Hwf'|]. intros E. apply Hu'. by eapply I5.
  - intros u Hu'. rewrite lookup_insert. case_decide; [done|]. by apply I2.
  - intros a b ai bi. rewrite !lookup_insert. repeat case_decide; subst; try done.
    + intros [= <-] Hb E. by eapply I5.
    + intros Ha [= <-] E. by eapply I5.
    + apply I5.
  - intros a Ha. destruct (I6 a Ha) as [? Hno]. split; [done|].
    rewrite lookup_insert_ne; [done|]. intros <-. congruence.
  - rewrite Hn1, lookup_insert_ne; [done|]. apply Hwf.
  - rewrite Hn1, dom_insert_L. clear -I9. set_solver.
Qed.

Lemma thr_inv_step (c c' : tconc N W) : thr_contracts -> thr_step c c' -> thr_inv c -> thr_inv c'.
Proof.
  intros Hc Hstep Hi. pose proof (proj1 Hc) as Hsl. destruct Hstep.
  - by eapply inv_switch_out.
  - by eapply inv_switch_in.
  - by eapply inv_switch_free.
  - by eapply inv_dec.
  - by eapply inv_boot.
  - by eapply inv_boot_wake.
  - by eapply inv_alloc.
  - destruct (copy_thread_create_inv _ _ _ _ _ _ _ _ _ _ Hc Hi H3) as (Hi' & E & Hmono).
    eapply inv_new_thread; try done; [by apply Hmono|by rewrite E].
  - by destruct (copy_thread_create_inv _ _ _ _ _ _ _ _ _ _ Hc Hi H2).
  - by eapply inv_inc.
  - by eapply inv_free_info.
  - by eapply inv_other.
Qed.

(** ** Start of the system *)

(** The data of threads.c before [threads_init]: the static [thread_info] of the
    init task, which is also the current one. *)
Record fresh_thr (n : N) (k : thr W) : Prop := {
  fresh_infos : exists ti, infos k = {[init_thread_info := ti]};
  fresh_tbas : tbas k = ∅;
  fresh_counter : threads_counter k = 0;
  fresh_current : _current_thread_info k = init_thread_info;
  fresh_live : init_thread_info ∈ live (trest k);
  fresh_own : wsems (trest k) ⊆ dom (sems n) }.

Definition thr_booted (n : N) (k : thr W) : tconc N W := TConc n k {[init_thread_info := PRun]} 0.

Lemma threads_init_inv (n0 n : N) (k0 k : thr W) :
  fresh_thr n0 k0 -> threads_init init_thread_info (n0, k0) = Ret (n, k) ->
  thr_inv (thr_booted n k).
Proof.
  intros [[ti Hti] Hta Hcnt Hcur Hlv Hws]. unfold threads_init.
  rewrite Hti, lookup_singleton_eq. simpl.
  destruct (sem_alloc 0 n0) as [s n1] eqn:Ha. destruct (Z.eqb_spec s NULL) as [->|Hs]; [done|]. simpl.
  destruct (sem_alloc 1 n1) as [l n2] eqn:Hb. destruct (Z.eqb_spec l NULL) as [->|Hl]; [done|]. simpl.
  intros [= <- <-].
  destruct (sem_alloc_ok _ _ _ _ Ha Hs) as (Hf1 & Hn1 & _).
  destruct (sem_alloc_ok _ _ _ _ Hb Hl) as (Hf2 & Hn2 & _).
  assert (s <> l) as Hsl. { intros ->. rewrite Hn1, lookup_insert_eq in Hf2. done. }
  assert (s ∉ wsems (trest k0) /\ l ∉ wsems (trest k0)) as [Hso Hlo].
  { apply not_elem_of_dom in Hf1. rewrite Hn1 in Hf2. apply lookup_insert_None in Hf2 as [Hf2 _].
    apply not_elem_of_dom in Hf2. clear -Hf1 Hf2 Hws. set_solver. }
  rewrite insert_singleton_eq. split; simpl; rewrite ?Hcur, ?Hta; try done.
  - intros t i. rewrite lookup_singleton. case_decide as E; [|done]. subst t. intros [= <-].
    rewrite lookup_singleton_eq. split; simpl; try done.
    rewrite Hn2, lookup_insert_ne, Hn1, lookup_insert_eq by done. unfold tokens. simpl. by case_decide.
  - intros t. rewrite !lookup_singleton. by case_decide.
  - by rewrite lookup_singleton_eq.
  - by rewrite lookup_singleton_eq.
  - intros t u xi yi. rewrite !lookup_singleton. repeat case_decide; try done. congruence.
  - intros a. rewrite lookup_empty. by intros [? ?].
  - by rewrite Hn2, lookup_insert_eq.
  - rewrite Hn2, Hn1, !dom_insert_L. clear -Hws. set_solver.
  - rewrite map_size_singleton. unfold incs. simpl. by rewrite Hcur, lookup_singleton_eq, Hcnt.
  - unfold incs. simpl. by rewrite Hcur, lookup_singleton_eq, Hcnt.
Qed.

Definition thr_reachable (n0 : N) (k0 : thr W) (c : tconc N W) : Prop :=
  fresh_thr n0 k0 /\ exists n k, threads_init init_thread_info (n0, k0) = Ret (n, k) /\
    rtc thr_step (thr_booted n k) c.

Lemma thr_reachable_inv (n0 : N) (k0 : thr W) (c : tconc N W) :
  thr_contracts -> thr_reachable n0 k0 c -> thr_inv c.
Proof.
  intros Hc (Hf & n & k & Hin & Hs).
  assert (thr_inv (thr_booted n k)) as Hb by by eapply threads_init_inv.
  revert Hb. induction Hs; eauto using thr_inv_step.
Qed.

(** ** Properties *)



(** C12: when [threads_counter_get] reads 0 on a thread in kernel code, as
    [threads_cleanup] waits for, no other native thread is left: every other one
    has freed its semaphore and its [thread_info] and left the counter. *)
Theorem threads_cleanup_waits_for_all (n0 n' : N) (k0 k' : thr W) (c : tconc N W) (t : Z) :
  thr_contracts -> thr_reachable n0 k0 c -> pcs c !! t = Some PRun ->
  threads_counter_get (t_n c, t_k c) = Ret (0, (n', k')) ->
  exiting c = 0%nat /\ pcs c = {[init_thread_info := PRun]} /\ t = init_thread_info.
Proof.
  intros Hc Hr Ht Hget. pose proof (thr_reachable_inv _ _ _ Hc Hr) as Hi. clear Hr.
  destruct (running_current _ _ _ Hi Ht eq_refl) as [Hcur _].
  destruct c as [n k pc e]. simpl in *.
  assert (threads_counter k = 0) as H0.
  { destruct (counter_lock_ok k n (tinv_lock _ Hi)) as (n1 & n2 & Hd & Hu & _).
    unfold threads_counter_get in Hget. rewrite Hd in Hget. simpl in Hget. rewrite Hu in Hget.
    simpl in Hget. congruence. }
  pose proof (tinv_count _ Hi) as Hcount. simpl in Hcount. unfold incs in Hcount.
  rewrite <- Hcur, Ht, H0 in Hcount.
  assert (size pc = 1%nat /\ e = 0%nat) as [Hsz ->].
  { assert (size pc <> 0%nat); [|lia]. intros E%map_size_empty_inv. by rewrite E, lookup_empty in Ht. }
  assert (delete t pc = ∅) as Hdel.
  { apply map_size_empty_inv. rewrite map_size_delete_Some by (rewrite Ht; eauto). lia. }
  assert (pc = {[t := PRun]}) as Hpc.
  { rewrite <- (insert_delete_id pc t PRun Ht), Hdel. done. }
  destruct (tinv_init _ Hi) as [q' Hq']. simpl in Hq'. rewrite Hpc in Hq'.
  apply lookup_singleton_Some in Hq' as [-> _]. done.
Qed.

(** A fork that fails after [copy_thread] kills the kernel: when
    [free_thread_info] is called for a thread that still waits to start, its
    [thread_bootstrap] wakes up and hits [BUG_ON(ti->dead)]. *)
Theorem abandoned_thread_hits_bug (n0 n' : N) (k0 k' : thr W) (c : tconc N W) (v : Z) :
  thr_contracts -> thr_reachable n0 k0 c -> pcs c !! v = Some PBootWait ->
  v <> _current_thread_info (t_k c) ->
  free_thread_info v (t_n c, t_k c) = Ret (n', k') -> bootstrap_wake v (n', k') = Bug.
Proof.
  intros Hc Hr Hv Hne. pose proof (thr_reachable_inv _ _ _ Hc Hr) as Hi. clear Hr.
  destruct (tinv_pcs _ Hi v) as [ti Hti]; [by rewrite Hv|].
  pose proof (tinv_infos _ Hi _ _ Hti) as Hwf. rewrite Hv in Hwf.
  assert (dead ti = false) as Hd.
  { destruct (dead ti) eqn:E; [|done]. by destruct (info_dead _ _ _ _ _ Hwf E) as (_ & _ & [?|?]). }
  pose proof (info_sem _ _ _ _ _ Hwf) as Hs. unfold tokens in Hs. rewrite Hd, decide_False in Hs by done.
  destruct (up_zero _ _ Hs) as (n1 & Hu & Hn1).
  unfold free_thread_info. rewrite Hti. simpl. rewrite Hu. simpl. intros [= <- <-].
  unfold bootstrap_wake. simpl. rewrite lookup_insert_eq. simpl.
  destruct (sem_down_ok (sched_sem ti) n1 1) as (n2 & -> & _); [by rewrite Hn1, lookup_insert_eq|lia|].
  done.
Qed.
End tconc.

(** ** A concrete run: the slab and host of the Syscalls example *)
Module ThreadsDemo.
Import Irq.Demo Syscalls.SysDemo.
#[local] Existing Instance demo_native.
#[local] Existing Instance demo_laws.

(** The init task has address 1; [thread_create] hands out one handle. *)
Definition demo_create (tba : Z) (n : posix) : Z * posix := (7, n).
Definition task_ti (p : Z) : Z := p.
Definition thr_blank : thr slab := Thr {[1 := Thread_info 0 0 false 0]} ∅ 0 0 1 [1].
Definition thr_start : posix * thr slab :=
  match threads_init 1 (Posix ∅ [], thr_blank) with Ret nk => nk | _ => (Posix ∅ [], thr_blank) end.
#[local] Opaque thr_start.

Abbreviation tstep := (thr_step slab_kmalloc slab_kfree demo_create task_ti 1 no_sems objects).
Abbreviation treach := (thr_reachable slab_kmalloc slab_kfree demo_create task_ti 1 no_sems objects
  (Posix ∅ []) thr_blank).

Lemma demo_thr_contracts : thr_contracts slab_kmalloc slab_kfree demo_create no_sems objects.
Proof. split; [apply demo_slab|]. by intros tba n t n' [= _ <-]. Qed.

Lemma demo_thr_fresh : fresh_thr 1 no_sems objects (Posix ∅ []) thr_blank.
Proof. split; try done. by eexists. Qed.

Lemma demo_threads_init : threads_init 1 (Posix ∅ [], thr_blank) = Ret (fst thr_start, snd thr_start).
Proof. vm_compute. reflexivity. Qed.

Lemma start_reachable : treach (thr_booted 1 (fst thr_start) (snd thr_start)).
Proof.
  split; [apply demo_thr_fresh|]. exists (fst thr_start), (snd thr_start).
  split; [apply demo_threads_init|]. apply rtc_refl.
Qed.



Lemma threads_cleanup_waits_for_all_witness :
  exiting (thr_booted 1 (fst thr_start) (snd thr_start)) = 0%nat /\
  exists n' k', threads_counter_get thr_start = Ret (0, (n', k')).
Proof.
  destruct (threads_counter_get thr_start) as [[r [n' k']]| | |] eqn:E; try (vm_compute in E; done).
  assert (r = 0) as -> by (vm_compute in E; congruence).
  split; [|by eauto].
  apply (threads_cleanup_waits_for_all slab_kmalloc slab_kfree demo_create task_ti 1 no_sems objects
    (Posix ∅ []) n' thr_blank k' (thr_booted 1 (fst thr_start) (snd thr_start)) 1);
    [apply demo_thr_contracts | apply start_reachable | reflexivity |].
  rewrite <- E. vm_compute. reflexivity.
Defined.

(** The init thread forks; the new thread gets as far as its first [sem_down]. *)
Definition got {A : Type} (m : res (A * (posix * thr slab))) : posix * thr slab :=
  match m with Ret (_, nk) => nk | _ => thr_start end.
Definition got' (m : res (posix * thr slab)) : posix * thr slab :=
  match m with Ret nk => nk | _ => thr_start end.
Definition with_info : posix * thr slab := got (alloc_thread_info slab_kmalloc slab_kfree thr_start).
Definition created : posix * thr slab :=
  got (copy_thread_create slab_kmalloc slab_kfree demo_create task_ti 5 6 2 with_info).
Definition counted : posix * thr slab := got' (threads_counter_inc created).
Definition waiting : posix * thr slab := got (bootstrap_begin slab_kfree 3 counted).
Definition freed : posix * thr slab := got' (free_thread_info 2 waiting).
Definition boot_pcs : gmap Z tpc :=
  <[2 := PBootWait]> (<[1 := PRun]> (<[2 := PBoot 3]> (<[1 := PInc]> {[1 := PRun]}))).
#[local] Opaque with_info created counted waiting freed.

Lemma waiting_reachable : treach (TConc (fst waiting) (snd waiting) boot_pcs 0).
Proof.
  split; [apply demo_thr_fresh|]. exists (fst thr_start), (snd thr_start).
  split; [apply demo_threads_init|].
  eapply rtc_l.
  { apply (step_alloc _ _ _ _ _ _ _ (fst thr_start) (snd thr_start) {[1 := PRun]} 0 1 2 (fst with_info)
      (snd with_info)); vm_compute; reflexivity. }
  eapply rtc_l.
  { apply (step_create _ _ _ _ _ _ _ (fst with_info) (snd with_info) {[1 := PRun]} 0 1 5 6 2 3
      (fst created) (snd created)); try (vm_compute; reflexivity). vm_compute. by eexists. }
  eapply rtc_l.
  { apply (step_inc _ _ _ _ _ _ _ (fst created) (snd created) _ 0 1 (fst counted) (snd counted));
      vm_compute; reflexivity. }
  apply rtc_once.
  apply (step_boot _ _ _ _ _ _ _ (fst counted) (snd counted) _ 0 2 3 (fst waiting) (snd waiting));
    vm_compute; reflexivity.
Qed.

Lemma abandoned_thread_hits_bug_witness : bootstrap_wake 2 (fst freed, snd freed) = Bug.
Proof.
  apply (abandoned_thread_hits_bug slab_kmalloc slab_kfree demo_create task_ti 1 no_sems objects
    (Posix ∅ []) (fst freed) thr_blank (snd freed) (TConc (fst waiting) (snd waiting) boot_pcs 0) 2);
    [apply demo_thr_contracts | apply waiting_reachable | reflexivity | by vm_compute
    | vm_compute; reflexivity].
Defined.
End ThreadsDemo.
