(* ===== verification/Checksum.v ===== *)
(** * Internet checksums: arch/lkl/lib/checksum.c, include/asm/checksum.h and swab.h

    The port sums 16-bit words in an [int] and folds the result.  The file states
    when this is the Internet checksum, shows that a checksum written into a
    header verifies, and that the byte swaps reverse the bytes.  A buffer is the
    list of its bytes; the host is little endian. *)
From S2P Require Import Prelude Jhash.

(** ** Operations *)

Definition from32to16 (x : Z) : Z :=
  let x := u64 (Z.land x 0xffff + Z.shiftr x 16) in
  let x := u64 (Z.land x 0xffff + Z.shiftr x 16) in
  u16 x.

(** The [u16] that [buff] points to. *)
Definition load16 (b0 b1 : Z) : Z := b0 + 2 ^ 8 * b1.

(** The loop and the odd byte of [csum_partial]; [int sum] wraps. *)
Fixpoint csum_loop (buff : list Z) (sum : Z) : Z :=
  match buff with
  | b0 :: b1 :: buff => csum_loop buff (s32 (sum + load16 b0 b1))
  | [b] => s32 (sum + b)
  | [] => sum
  end.

(** The [int] becomes the [unsigned long] argument of [from32to16]. *)
Definition csum_partial (buff : list Z) (_sum : Z) : Z :=
  from32to16 (u64 (csum_loop buff (s32 _sum))).

Definition ip_compute_csum (buff : list Z) : Z := u16 (Z.lnot (csum_partial buff 0)).

Definition csum_fold (csum : Z) : Z :=
  let sum := u32 csum in
  let sum := u32 (Z.land sum 0xffff + Z.shiftr sum 16) in
  let sum := u32 (Z.land sum 0xffff + Z.shiftr sum 16) in
  u16 (Z.lnot sum).

(** The first [ihl * 4] bytes of the header. *)
Definition ip_fast_csum (iph : list Z) (ihl : Z) : Z :=
  csum_fold (csum_partial (take (Z.to_nat (ihl * 4)) iph) 0).

(** [dst] after the copy, and the sum. *)
Definition csum_partial_copy_nocheck (src : list Z) (sum : Z) : list Z * Z :=
  (src, csum_partial src sum).

(** [copy_from_user] gives the bytes it copied; the rest of [dst] is zeroed and
    only the first [rem] bytes are summed.  Returns [dst], the sum and what is
    stored through [csum_err]. *)
Definition csum_partial_copy_from_user (copied : list Z) (len : nat) (sum : Z) : list Z * Z * Z :=
  let rem := (len - length copied)%nat in
  if (rem =? 0)%nat then (copied, csum_partial copied sum, 0)
  else
    let dst := copied ++ replicate rem 0 in
    (dst, csum_partial (take rem dst) sum, - EFAULT).

Definition ___arch__swab16 (x : Z) : Z := u16 (Z.shiftl (Z.land x 0xff) 8 + Z.shiftr x 8).
Definition ___arch__swab32 (x : Z) : Z :=
  u32 (Z.shiftl (___arch__swab16 (u16 (Z.land x 0xffff))) 16 + ___arch__swab16 (u16 (Z.shiftr x 16))).
Definition ___arch__swab64 (x : Z) : Z :=
  u64 (u64 (Z.shiftl (___arch__swab32 (u32 (Z.land x 0xffffffff))) 32) +
       ___arch__swab32 (u32 (Z.shiftr x 32))).

Definition htons (x : Z) : Z := ___arch__swab16 x.

(** The bytes of an array of [u16]. *)
Definition bytes16 (w : Z) : list Z := [w mod 2 ^ 8; w / 2 ^ 8].

Definition csum_tcpudp_nofold (saddr daddr len proto sum : Z) : Z :=
  let pseudo_header := [u16 (Z.shiftr saddr 16); u16 (Z.land saddr 0xffff);
                        u16 (Z.shiftr daddr 16); u16 (Z.land daddr 0xffff);
                        htons (Z.land proto 0xff); htons len] in
  csum_partial (pseudo_header ≫= bytes16) sum.

Definition csum_tcpudp_magic (saddr daddr len proto sum : Z) : Z :=
  csum_fold (csum_tcpudp_nofold saddr daddr len proto sum).

(** ** Specification: the sum of the 16-bit words of a buffer *)
Definition byte_ok (b : Z) : Prop := 0 <= b < 256.
Fixpoint word_sum (buff : list Z) : Z :=
  match buff with
  | b0 :: b1 :: buff => b0 + 256 * b1 + word_sum buff
  | [b] => b
  | [] => 0
  end.

(** The one's complement representative of a sum: 0 only for 0, else in
    [[1, 0xffff]] and equal modulo [0xffff]. *)
Definition ones (x : Z) : Z := if x =? 0 then 0 else (x - 1) mod 0xffff + 1.

(** ** Lemmas *)

Lemma low16 (x : Z) : Z.land x 0xffff = x mod 2 ^ 16.
Proof. change 0xffff with (Z.ones 16). by apply Z.land_ones. Qed.
Lemma high16 (x : Z) : Z.shiftr x 16 = x / 2 ^ 16.
Proof. by apply Z.shiftr_div_pow2. Qed.

(** Two folds of a number below [2^31] give its representative. *)
Lemma fold_ones (x : Z) : 0 <= x < 2 ^ 31 ->
  let y := x mod 2 ^ 16 + x / 2 ^ 16 in y mod 2 ^ 16 + y / 2 ^ 16 = ones x.
Proof.
  intros Hx y. unfold ones, y. change (2 ^ 31) with (32768 * 65536) in Hx.
  change (2 ^ 16) with 65536. change 0xffff with 65535.
  destruct (Z.eqb_spec x 0) as [->|Hn]; [done|].
  set (q := x / 65536). set (r := x mod 65536).
  assert (x = 65536 * q + r) as Ex by (apply Z.div_mod; lia).
  assert (0 <= r < 65536) by (apply Z.mod_pos_bound; lia).
  assert (0 <= q < 32768) by lia.
  destruct (Z_lt_le_dec (r + q) 65536) as [Hs|Hs].
  - rewrite Z.mod_small, Z.div_small by lia.
    assert ((x - 1) mod 65535 = r + q - 1) as ->; [|lia].
    symmetry. apply Z.mod_unique with q; lia.
  - assert ((r + q) / 65536 = 1) as -> by (symmetry; apply Z.div_unique with (r + q - 65536); lia).
    assert ((r + q) mod 65536 = r + q - 65536) as -> by (symmetry; apply Z.mod_unique with 1; lia).
    assert ((x - 1) mod 65535 = r + q - 65536) as ->; [|lia].
    symmetry. apply Z.mod_unique with (q + 1); lia.
Qed.

Lemma ones_range (x : Z) : 0 <= x -> 0 <= ones x <= 0xffff.
Proof.
  intros Hx. unfold ones. destruct (x =? 0); [lia|].
  pose proof (Z.mod_pos_bound (x - 1) 0xffff ltac:(lia)). lia.
Qed.

Lemma ones_eqm (x : Z) : 0 <= x -> ones x mod 0xffff = x mod 0xffff.
Proof.
  intros Hx. unfold ones. destruct (Z.eqb_spec x 0) as [->|]; [done|].
  rewrite Zplus_mod_idemp_l. f_equal. lia.
Qed.

Lemma from32to16_ones (x : Z) : 0 <= x < 2 ^ 31 -> from32to16 x = ones x.
Proof.
  intros Hx. unfold from32to16. rewrite !low16, !high16. pose proof (fold_ones x Hx) as Hf.
  pose proof (ones_range x ltac:(lia)).
  assert (0 <= x mod 2 ^ 16 + x / 2 ^ 16 < 2 ^ 64) as Hy.
  { change (2 ^ 64) with 18446744073709551616. change (2 ^ 16) with 65536.
    change (2 ^ 31) with 2147483648 in Hx. Z.div_mod_to_equations; lia. }
  rewrite (wrap_id 64 (x mod 2 ^ 16 + x / 2 ^ 16)) by done. simpl in Hf. rewrite Hf.
  rewrite (wrap_id 64), (wrap_id 16); [done|pow_lia|pow_lia].
Qed.

(** Below [2^31] the [int] accumulator does not wrap. *)
Lemma csum_loop_sum (buff : list Z) (sum : Z) :
  Forall byte_ok buff -> 0 <= sum -> sum + word_sum buff < 2 ^ 31 ->
  csum_loop buff sum = sum + word_sum buff /\ 0 <= word_sum buff.
Proof.
  remember (length buff) as n eqn:Hn. revert buff sum Hn.
  induction n as [n IH] using lt_wf_ind. intros buff sum Hn Hb Hs Hlt.
  destruct buff as [|b0 [|b1 buff]]; simpl in *.
  - lia.
  - apply Forall_cons in Hb as [H0 _]. unfold byte_ok in H0. rewrite swrap_id; [lia|lia|pow_lia].
  - apply Forall_cons in Hb as [H0 [H1 Hb]%Forall_cons]. unfold byte_ok, load16 in *.
    assert (0 <= word_sum buff) as Hw.
    { clear -Hb. remember (length buff) as n eqn:Hn. revert buff Hn Hb.
      induction n as [n IH] using lt_wf_ind. intros [|b0 [|b1 buff]] Hn Hb; simpl in *; [lia| |].
      - apply Forall_cons in Hb as [H0 _]. unfold byte_ok in H0. lia.
      - apply Forall_cons in Hb as [H0 [H1 Hb]%Forall_cons]. unfold byte_ok in *.
        specialize (IH (length buff) ltac:(lia) buff eq_refl Hb). lia. }
    change (2 ^ 8) with 256. rewrite swrap_id; [|lia|pow_lia].
    destruct (IH (length buff) ltac:(lia) buff (sum + (b0 + 256 * b1)) eq_refl Hb) as [-> _]; lia.
Qed.

Lemma word_sum_bound (buff : list Z) :
  Forall byte_ok buff -> 0 <= word_sum buff /\
  2 * word_sum buff <= 65535 * Z.of_nat (length buff).
Proof.
  remember (length buff) as n eqn:Hn. revert buff Hn. induction n as [n IH] using lt_wf_ind.
  intros [|b0 [|b1 buff]] Hn Hb; simpl in *; [lia| |].
  - apply Forall_cons in Hb as [H0 _]. unfold byte_ok in H0. lia.
  - apply Forall_cons in Hb as [H0 [H1 Hb]%Forall_cons]. unfold byte_ok in *.
    specialize (IH (length buff) ltac:(lia) buff eq_refl Hb). lia.
Qed.

Lemma word_sum_app (a b : list Z) :
  Nat.even (length a) = true -> word_sum (a ++ b) = word_sum a + word_sum b.
Proof.
  remember (length a) as n eqn:Hn. revert a Hn. induction n as [n IH] using lt_wf_ind.
  intros [|a0 [|a1 a]] Hn He; simpl in *; [lia|by subst n|].
  subst n. rewrite (IH (length a) ltac:(lia) a eq_refl He). lia.
Qed.

(** [csum_partial] computes the one's complement sum of anything that fits in an
    IP packet, started from a previous result. *)
Lemma csum_partial_ones (buff : list Z) (sum : Z) :
  Forall byte_ok buff -> Z.of_nat (length buff) <= 65535 -> 0 <= sum <= 0xffff ->
  csum_partial buff sum = ones (sum + word_sum buff).
Proof.
  intros Hb Hlen Hs. destruct (word_sum_bound buff Hb) as [H0 H1]. unfold csum_partial.
  assert (sum + word_sum buff < 2 ^ 31) as Hlt by pow_lia.
  rewrite (swrap_id 32 sum) by pow_lia.
  destruct (csum_loop_sum buff sum Hb) as [-> _]; [lia|done|].
  rewrite wrap_id by pow_lia. apply from32to16_ones. lia.
Qed.

Lemma ones_ones (x y : Z) : 0 <= x -> 0 <= y -> ones (ones x + y) = ones (x + y).
Proof.
  intros Hx Hy. unfold ones at 2. destruct (Z.eqb_spec x 0) as [->|Hn]; [done|].
  pose proof (Z.mod_pos_bound (x - 1) 0xffff ltac:(lia)) as Hm. unfold ones.
  rewrite !(proj2 (Z.eqb_neq _ _)) by lia. f_equal.
  replace ((x - 1) mod 65535 + 1 + y - 1) with ((x - 1) mod 65535 + y) by lia.
  rewrite Zplus_mod_idemp_l. f_equal. lia.
Qed.

Lemma csum_fold_small (x : Z) : 0 <= x <= 0xffff -> csum_fold x = 0xffff - x.
Proof.
  intros Hx. unfold csum_fold. rewrite (wrap_id 32 x) by pow_lia.
  rewrite !low16, !high16. change (2 ^ 16) with 65536.
  rewrite (Z.mod_small x), (Z.div_small x) by lia. rewrite Z.add_0_r, (wrap_id 32 x) by pow_lia.
  rewrite (Z.mod_small x), (Z.div_small x) by lia. rewrite Z.add_0_r, (wrap_id 32 x) by pow_lia.
  unfold wrap, Z.lnot. change (2 ^ 16) with 65536.
  symmetry. apply Z.mod_unique with (-1); lia.
Qed.

(** Adding the complement of a sum to it gives all ones. *)
Lemma ones_complement (x : Z) : 0 <= x -> ones (x + (0xffff - ones x)) = 0xffff.
Proof.
  intros Hx. pose proof (ones_range x Hx) as Hr. pose proof (ones_eqm x Hx) as He.
  unfold ones at 1. destruct (Z.eqb_spec (x + (0xffff - ones x)) 0) as [E|Hn].
  - unfold ones in *. destruct (Z.eqb_spec x 0); [lia|]. lia.
  - enough ((x + (65535 - ones x) - 1) mod 65535 = 65534) by lia.
    replace (x + (65535 - ones x) - 1) with ((x - ones x) + 65534) by lia.
    rewrite <- Zplus_mod_idemp_l, Zminus_mod, <- He, Z.sub_diag. done.
Qed.

Lemma bytes16_ok (w : Z) : in_u 16 w -> Forall byte_ok (bytes16 w) /\ word_sum (bytes16 w) = w.
Proof.
  unfold in_u. intros Hw. unfold bytes16. simpl. change (2 ^ 16) with 65536 in Hw.
  change (2 ^ 8) with 256. split.
  - repeat constructor; unfold byte_ok; Z.div_mod_to_equations; lia.
  - Z.div_mod_to_equations; lia.
Qed.

(** ** Properties *)


(** A header checksum verifies: writing [ip_fast_csum] of a header, computed
    with the checksum field zero, into that field makes [ip_fast_csum] of the
    header 0, wherever the field is at an even offset. *)
Theorem ip_checksum_verifies (a b : list Z) (ihl : Z) :
  Forall byte_ok a -> Forall byte_ok b -> Nat.even (length a) = true ->
  0 <= ihl <= 15 -> Z.of_nat (length a) + 2 + Z.of_nat (length b) = ihl * 4 ->
  ip_fast_csum (a ++ bytes16 (ip_fast_csum (a ++ [0; 0] ++ b) ihl) ++ b) ihl = 0.
Proof.
  intros Ha Hb He Hihl Hlen. destruct (word_sum_bound a Ha), (word_sum_bound b Hb).
  assert (forall x y, ip_fast_csum (a ++ [x; y] ++ b) ihl = csum_fold (csum_partial (a ++ [x; y] ++ b) 0)) as Hall.
  { intros x y. unfold ip_fast_csum. rewrite take_ge; [done|]. rewrite !length_app. simpl. lia. }
  assert (forall x y, byte_ok x -> byte_ok y -> csum_partial (a ++ [x; y] ++ b) 0 =
      ones (word_sum a + word_sum b + word_sum [x; y])) as Hsum.
  { intros x y Hx Hy. rewrite csum_partial_ones.
    - rewrite word_sum_app by done. f_equal. simpl. lia.
    - apply Forall_app. split; [done|]. simpl. by rewrite !Forall_cons.
    - rewrite !length_app. simpl. lia.
    - lia. }
  rewrite (Hall 0 0), Hsum by (unfold byte_ok; lia). set (T := word_sum a + word_sum b).
  rewrite Z.add_0_r. pose proof (ones_range T ltac:(unfold T; lia)).
  rewrite csum_fold_small by done.
  destruct (bytes16_ok (0xffff - ones T)) as [Hok Hw]; [pow_lia|]. unfold bytes16 in *.
  apply Forall_cons in Hok as [H1' [H2' _]%Forall_cons].
  rewrite Hall, Hsum, Hw by done. fold T. rewrite ones_complement by (unfold T; lia).
  by rewrite csum_fold_small.
Qed.

Lemma words_bytes_ok (ws : list Z) : Forall (in_u 16) ws -> Forall byte_ok (ws ≫= bytes16).
Proof.
  induction ws as [|w ws IH]; intros Hws; [constructor|]. apply Forall_cons in Hws as [Hw Hws].
  rewrite bind_cons. apply Forall_app. split; [by apply bytes16_ok|by apply IH].
Qed.

(** A TCP or UDP checksum verifies: writing [csum_tcpudp_magic] of a segment
    into its checksum field, which was zero and is at an even offset, makes
    [csum_tcpudp_magic] of the segment 0 for the same pseudo header. *)
Theorem tcpudp_checksum_verifies (a b : list Z) (saddr daddr len proto : Z) :
  Forall byte_ok a -> Forall byte_ok b -> Nat.even (length a) = true ->
  Z.of_nat (length a) + 2 + Z.of_nat (length b) <= 65535 ->
  let magic seg := csum_tcpudp_magic saddr daddr len proto (csum_partial seg 0) in
  magic (a ++ bytes16 (magic (a ++ [0; 0] ++ b)) ++ b) = 0.
Proof.
  intros Ha Hb He Hlen magic. destruct (word_sum_bound a Ha), (word_sum_bound b Hb).
  set (ph := [u16 (Z.shiftr saddr 16); u16 (Z.land saddr 0xffff); u16 (Z.shiftr daddr 16);
              u16 (Z.land daddr 0xffff); htons (Z.land proto 0xff); htons len] ≫= bytes16).
  assert (Forall byte_ok ph) as Hph by (apply words_bytes_ok; repeat constructor; by apply wrap_range).
  destruct (word_sum_bound ph Hph) as [Hp0 Hp1].
  assert (forall x y, byte_ok x -> byte_ok y -> magic (a ++ [x; y] ++ b) =
      0xffff - ones (word_sum ph + (word_sum a + word_sum b) + word_sum [x; y])) as Hmagic.
  { intros x y Hx Hy. assert (0 <= word_sum [x; y]) by (unfold byte_ok in *; simpl; lia).
    assert (csum_partial (a ++ [x; y] ++ b) 0 = ones (word_sum a + word_sum b + word_sum [x; y])) as Hs.
    { rewrite csum_partial_ones.
      - rewrite word_sum_app by done. f_equal. simpl. lia.
      - apply Forall_app. split; [done|]. simpl. by rewrite !Forall_cons.
      - rewrite !length_app. simpl. lia.
      - lia. }
    pose proof (ones_range (word_sum a + word_sum b + word_sum [x; y]) ltac:(lia)).
    unfold magic, csum_tcpudp_magic, csum_tcpudp_nofold. fold ph. rewrite Hs.
    rewrite csum_partial_ones; [|done|done|done]. rewrite ones_ones by lia.
    pose proof (ones_range (word_sum a + word_sum b + word_sum [x; y] + word_sum ph) ltac:(lia)).
    rewrite csum_fold_small by done. do 2 f_equal. lia. }
  set (T := word_sum ph + (word_sum a + word_sum b)) in *. assert (0 <= T) by (unfold T; lia).
  rewrite (Hmagic 0 0) by (unfold byte_ok; lia). simpl (word_sum [0; 0]). rewrite Z.add_0_r.
  pose proof (ones_range T ltac:(lia)).
  destruct (bytes16_ok (0xffff - ones T)) as [Hok Hw]; [pow_lia|]. unfold bytes16 in *.
  apply Forall_cons in Hok as [H1' [H2' _]%Forall_cons].
  rewrite Hmagic, Hw by done. rewrite ones_complement by lia. done.
Qed.

(** A 32-bit partial sum with its top bit set is folded wrongly: [csum_partial]
    keeps it in an [int], which is sign extended before it is folded, so feeding
    it [0x80000000] gives [0x7fff] instead of [0x8000]. *)
Theorem csum_partial_sign_extends :
  csum_partial [] 0x80000000 = 0x7fff /\ ones 0x80000000 = 0x8000.
Proof. split; vm_compute; reflexivity. Qed.

(** *** Byte swaps *)
Lemma swab16_val (x : Z) : in_u 16 x -> ___arch__swab16 x = 256 * (x mod 256) + x / 256.
Proof.
  unfold in_u. intros Hx. unfold ___arch__swab16. change 0xff with (Z.ones 8).
  rewrite Z.land_ones, Z.shiftl_mul_pow2, Z.shiftr_div_pow2 by done.
  change (2 ^ 16) with 65536 in *. change (2 ^ 8) with 256.
  rewrite wrap_id; [lia|]. unfold in_u. change (2 ^ 16) with 65536.
  Z.div_mod_to_equations; lia.
Qed.

Lemma swab16_range (x : Z) : in_u 16 (___arch__swab16 x).
Proof. by apply wrap_range. Qed.

Lemma swab32_val (x : Z) : in_u 32 x ->
  ___arch__swab32 x = 65536 * ___arch__swab16 (x mod 65536) + ___arch__swab16 (x / 65536).
Proof.
  unfold in_u. intros Hx. unfold ___arch__swab32. rewrite low16, high16, Z.shiftl_mul_pow2 by done.
  change (2 ^ 16) with 65536. change (2 ^ 32) with 4294967296 in Hx.
  rewrite (wrap_id 16 (x mod 65536)) by (unfold in_u; change (2 ^ 16) with 65536; Z.div_mod_to_equations; lia).
  rewrite (wrap_id 16 (x / 65536)) by (unfold in_u; change (2 ^ 16) with 65536; Z.div_mod_to_equations; lia).
  pose proof (swab16_range (x mod 65536)). pose proof (swab16_range (x / 65536)).
  rewrite wrap_id by pow_lia. lia.
Qed.

Lemma swab32_range (x : Z) : in_u 32 (___arch__swab32 x).
Proof. by apply wrap_range. Qed.

Lemma swab64_val (x : Z) : in_u 64 x ->
  ___arch__swab64 x = 2 ^ 32 * ___arch__swab32 (x mod 2 ^ 32) + ___arch__swab32 (x / 2 ^ 32).
Proof.
  unfold in_u. intros Hx. unfold ___arch__swab64. change 0xffffffff with (Z.ones 32).
  rewrite Z.land_ones, Z.shiftl_mul_pow2, Z.shiftr_div_pow2 by done.
  change (2 ^ 32) with 4294967296. change (2 ^ 64) with 18446744073709551616 in Hx.
  rewrite (wrap_id 32 (x mod 4294967296)) by (unfold in_u; change (2 ^ 32) with 4294967296; Z.div_mod_to_equations; lia).
  rewrite (wrap_id 32 (x / 4294967296)) by (unfold in_u; change (2 ^ 32) with 4294967296; Z.div_mod_to_equations; lia).
  pose proof (swab32_range (x mod 4294967296)). pose proof (swab32_range (x / 4294967296)).
  rewrite (wrap_id 64 (_ * _)) by pow_lia. rewrite wrap_id by pow_lia. lia.
Qed.

(** The number whose bytes, lowest first, are [l]. *)
Fixpoint le_bytes (l : list Z) : Z :=
  match l with [] => 0 | b :: l => b + 256 * le_bytes l end.

Lemma le_bytes_range (l : list Z) : Forall byte_ok l -> 0 <= le_bytes l < 256 ^ Z.of_nat (length l).
Proof.
  induction l as [|b l IH]; intros Hl; [simpl; lia|]. apply Forall_cons in Hl as [Hb Hl].
  specialize (IH Hl). unfold byte_ok in Hb. simpl le_bytes.
  change (length (b :: l)) with (S (length l)). rewrite Nat2Z.inj_succ, Z.pow_succ_r by lia. lia.
Qed.

(** Cutting the bytes in two halves. *)
Lemma le_bytes_app (l k : list Z) :
  le_bytes (l ++ k) = le_bytes l + 256 ^ Z.of_nat (length l) * le_bytes k.
Proof.
  induction l as [|b l IH]; [simpl; lia|]. simpl le_bytes. rewrite IH.
  change (length (b :: l)) with (S (length l)). rewrite Nat2Z.inj_succ, Z.pow_succ_r by lia. lia.
Qed.

Lemma le_bytes_cut (l k : list Z) (m : Z) :
  Forall byte_ok l -> m = 256 ^ Z.of_nat (length l) ->
  le_bytes (l ++ k) mod m = le_bytes l /\ le_bytes (l ++ k) / m = le_bytes k.
Proof.
  intros Hl ->. pose proof (le_bytes_range l Hl). rewrite le_bytes_app. split.
  - rewrite (Z.mul_comm (256 ^ _)), Z.mod_add by lia. by apply Z.mod_small.
  - rewrite (Z.mul_comm (256 ^ _)), Z.div_add by lia. rewrite Z.div_small by lia. lia.
Qed.

Lemma swab16_rev (l : list Z) : Forall byte_ok l -> length l = 2%nat ->
  ___arch__swab16 (le_bytes l) = le_bytes (reverse l).
Proof.
  intros Hl H2. pose proof (le_bytes_range l Hl) as Hr. rewrite H2 in Hr.
  rewrite swab16_val by (unfold in_u; change (2 ^ 16) with (256 ^ 2); lia).
  destruct l as [|a [|b [|]]]; try done. apply Forall_cons in Hl as [Ha _].
  destruct (le_bytes_cut [a] [b] 256) as [E1 E2]; [by apply Forall_singleton|done|].
  simpl app in E1, E2. rewrite E1, E2. change (reverse [a; b]) with [b; a]. simpl. lia.
Qed.

Lemma swab32_rev (l : list Z) : Forall byte_ok l -> length l = 4%nat ->
  ___arch__swab32 (le_bytes l) = le_bytes (reverse l).
Proof.
  intros Hl H4. pose proof (le_bytes_range l Hl) as Hr. rewrite H4 in Hr.
  rewrite swab32_val by (unfold in_u; change (2 ^ 32) with (256 ^ 4); lia).
  rewrite <- (take_drop 2 l) in *. apply Forall_app in Hl as [Hl1 Hl2].
  assert (length (take 2 l) = 2%nat) as L1 by (rewrite length_take, take_drop in *; lia).
  assert (length (drop 2 l) = 2%nat) as L2 by (rewrite length_drop, take_drop in *; lia).
  destruct (le_bytes_cut (take 2 l) (drop 2 l) 65536) as [-> ->]; [done|by rewrite L1|].
  rewrite !swab16_rev, reverse_app, le_bytes_app, length_reverse, L2 by done. lia.
Qed.

(** [___arch__swab64] reverses the bytes of every 64-bit value, as the
    16 and 32-bit swaps do for theirs; so each swap undoes itself. *)
Theorem swab_reverses_bytes (l : list Z) :
  Forall byte_ok l ->
  (length l = 2%nat -> ___arch__swab16 (le_bytes l) = le_bytes (reverse l)) /\
  (length l = 4%nat -> ___arch__swab32 (le_bytes l) = le_bytes (reverse l)) /\
  (length l = 8%nat -> ___arch__swab64 (le_bytes l) = le_bytes (reverse l)).
Proof.
  intros Hl. split_and!; [by apply swab16_rev|by apply swab32_rev|]. intros H8.
  pose proof (le_bytes_range l Hl) as Hr. rewrite H8 in Hr.
  rewrite swab64_val by (unfold in_u; change (2 ^ 64) with (256 ^ 8); lia).
  rewrite <- (take_drop 4 l) in *. apply Forall_app in Hl as [Hl1 Hl2].
  assert (length (take 4 l) = 4%nat) as L1 by (rewrite length_take, take_drop in *; lia).
  assert (length (drop 4 l) = 4%nat) as L2 by (rewrite length_drop, take_drop in *; lia).
  destruct (le_bytes_cut (take 4 l) (drop 4 l) (2 ^ 32)) as [-> ->]; [done|by rewrite L1|].
  rewrite !swab32_rev, reverse_app, le_bytes_app, length_reverse, L2 by done. change (2 ^ 32) with (256 ^ 4). lia.
Qed.

(** ** Concrete inputs *)
Module ChecksumDemo.
(** The header of the example of RFC 1071 texts: 20 bytes, checksum at offset 10. *)
Definition head_a : list Z := [0x45; 0x00; 0x00; 0x73; 0x00; 0x00; 0x40; 0x00; 0x40; 0x11].
Definition head_b : list Z := [0xc0; 0xa8; 0x00; 0x01; 0xc0; 0xa8; 0x00; 0xc7].

Lemma head_ok : Forall byte_ok head_a /\ Forall byte_ok head_b.
Proof. split; repeat constructor; unfold byte_ok; lia. Qed.


Lemma ip_checksum_verifies_witness :
  ip_fast_csum (head_a ++ bytes16 (ip_fast_csum (head_a ++ [0; 0] ++ head_b) 5) ++ head_b) 5 = 0.
Proof.
  apply (ip_checksum_verifies head_a head_b 5);
    [apply head_ok | apply head_ok | reflexivity | lia | reflexivity].
Defined.

Lemma tcpudp_checksum_verifies_witness :
  csum_tcpudp_magic 0x0100a8c0 0xc700a8c0 20 17
    (csum_partial (head_a ++ bytes16 (csum_tcpudp_magic 0x0100a8c0 0xc700a8c0 20 17
       (csum_partial (head_a ++ [0; 0] ++ head_b) 0)) ++ head_b) 0) = 0.
Proof.
  apply (tcpudp_checksum_verifies head_a head_b 0x0100a8c0 0xc700a8c0 20 17);
    [apply head_ok | apply head_ok | reflexivity | vm_compute; done].
Defined.

Lemma swab_reverses_bytes_witness :
  ___arch__swab64 (le_bytes [0; 1; 2; 3; 4; 5; 6; 7]) = le_bytes [7; 6; 5; 4; 3; 2; 1; 0].
Proof.
  apply (swab_reverses_bytes [0; 1; 2; 3; 4; 5; 6; 7]); [|reflexivity].
  repeat constructor; lia.
Defined.
End ChecksumDemo.
