(* ===== verification/Rbtree.v ===== *)
(** * Red-black trees: include/linux/rbtree.h and lib/rbtree.c

    The trees that hold the block table of the port's slab allocator
    (arch/lkl/kernel/mem.c).  The model keeps the pointers: a heap of
    [struct rb_node] with the parent pointer and the color packed in one word.
    A dereference of a pointer that is not in the heap is a fault.  The loops
    take fuel; RbtreeInsert and RbtreeErase show how much is enough. *)
From S2P Require Import Prelude.

(** ** Data *)

Record rb_node := Rb_node { rb_parent_color : Z; rb_right : Z; rb_left : Z }.
Definition RB_RED : Z := 0.
Definition RB_BLACK : Z := 1.

Abbreviation rb_heap := (gmap Z rb_node).

(** The heap and the [rb_node] field of the root. *)
Definition rb_tree := (rb_heap * Z)%type.

Definition rb_parent (r : rb_node) : Z := Z.land (rb_parent_color r) (Z.lnot 3).
Definition rb_color (r : rb_node) : Z := Z.land (rb_parent_color r) 1.
Definition rb_is_red (r : rb_node) : bool := rb_color r =? 0.
Definition rb_is_black (r : rb_node) : bool := negb (rb_color r =? 0).

Definition with_pc (f : Z -> Z) (r : rb_node) : rb_node :=
  Rb_node (f (rb_parent_color r)) (rb_right r) (rb_left r).
Definition with_right (v : Z) (r : rb_node) : rb_node := Rb_node (rb_parent_color r) v (rb_left r).
Definition with_left (v : Z) (r : rb_node) : rb_node := Rb_node (rb_parent_color r) (rb_right r) v.

(** [p->field = ...] *)
Definition upd (p : Z) (f : rb_node -> rb_node) (h : rb_heap) : res rb_heap :=
  let! r := deref (h !! p) in Ret (<[p := f r]> h).

Definition rb_set_red (p : Z) (h : rb_heap) : res rb_heap :=
  upd p (with_pc (fun pc => Z.land pc (Z.lnot 1))) h.
Definition rb_set_black (p : Z) (h : rb_heap) : res rb_heap :=
  upd p (with_pc (fun pc => Z.lor pc 1)) h.
Definition rb_set_parent (p q : Z) (h : rb_heap) : res rb_heap :=
  upd p (with_pc (fun pc => Z.lor (Z.land pc 3) q)) h.
Definition rb_set_color (p color : Z) (h : rb_heap) : res rb_heap :=
  upd p (with_pc (fun pc => Z.lor (Z.land pc (Z.lnot 1)) color)) h.
Definition set_right (p v : Z) (h : rb_heap) : res rb_heap := upd p (with_right v) h.
Definition set_left (p v : Z) (h : rb_heap) : res rb_heap := upd p (with_left v) h.

(** [if (p) rb_set_parent(p, q)] *)
Definition set_parent_if (p q : Z) (h : rb_heap) : res rb_heap :=
  if p =? NULL then Ret h else rb_set_parent p q h.

(** What an [rb_link] pointer points to: a child field of a node, or the root. *)
Inductive rb_link := LinkRoot | LinkLeft (p : Z) | LinkRight (p : Z).
Definition store_link (l : rb_link) (v : Z) (t : rb_tree) : res rb_tree :=
  match l with
  | LinkRoot => Ret (fst t, v)
  | LinkLeft p => let! h := set_left p v (fst t) in Ret (h, snd t)
  | LinkRight p => let! h := set_right p v (fst t) in Ret (h, snd t)
  end.

Definition rb_link_node (node parent : Z) (link : rb_link) (t : rb_tree) : res rb_tree :=
  store_link link node (<[node := Rb_node parent NULL NULL]> (fst t), snd t).

(** ** Rotations *)

(** [if (parent) ... else root->rb_node = new]: the link to [node] becomes [new]. *)
Definition relink (node new parent : Z) (t : rb_tree) : res rb_tree :=
  let '(h, root) := t in
  if parent =? NULL then Ret (h, new)
  else
    let! p := deref (h !! parent) in
    if node =? rb_left p
    then let! h := set_left parent new h in Ret (h, root)
    else let! h := set_right parent new h in Ret (h, root).

(** The same test made on the other side. *)
Definition relink_right (node new parent : Z) (t : rb_tree) : res rb_tree :=
  let '(h, root) := t in
  if parent =? NULL then Ret (h, new)
  else
    let! p := deref (h !! parent) in
    if node =? rb_right p
    then let! h := set_right parent new h in Ret (h, root)
    else let! h := set_left parent new h in Ret (h, root).

Definition __rb_rotate_left (node : Z) (t : rb_tree) : res rb_tree :=
  let '(h, root) := t in
  let! n := deref (h !! node) in
  let right := rb_right n in
  let parent := rb_parent n in
  let! r := deref (h !! right) in
  let! h := set_right node (rb_left r) h in
  let! h := set_parent_if (rb_left r) node h in
  let! h := set_left right node h in
  let! h := rb_set_parent right parent h in
  let! (h, root) := relink node right parent (h, root) in
  let! h := rb_set_parent node right h in
  Ret (h, root).

Definition __rb_rotate_right (node : Z) (t : rb_tree) : res rb_tree :=
  let '(h, root) := t in
  let! n := deref (h !! node) in
  let left := rb_left n in
  let parent := rb_parent n in
  let! l := deref (h !! left) in
  let! h := set_left node (rb_right l) h in
  let! h := set_parent_if (rb_right l) node h in
  let! h := set_right left node h in
  let! h := rb_set_parent left parent h in
  let! (h, root) := relink_right node left parent (h, root) in
  let! h := rb_set_parent node left h in
  Ret (h, root).

(** ** Insertion *)

(** [p && rb_is_red(p)] *)
Definition red_at (p : Z) (h : rb_heap) : res bool :=
  if p =? NULL then Ret false else let! r := deref (h !! p) in Ret (rb_is_red r).

(** [uncle] and [parent] become black, [gparent] red. *)
Definition recolor (uncle parent gparent : Z) (h : rb_heap) : res rb_heap :=
  let! h := rb_set_black uncle h in
  let! h := rb_set_black parent h in
  rb_set_red gparent h.

(** The body of the loop, for a parent that is a left (a right) child; returns the
    node the next turn starts from. *)
Definition insert_left (node parent gparent : Z) (t : rb_tree) : res (Z * rb_tree) :=
  let '(h, root) := t in
  let! g := deref (h !! gparent) in
  let uncle := rb_right g in
  let! red := red_at uncle h in
  if red : bool then let! h := recolor uncle parent gparent h in Ret (gparent, (h, root))
  else
    let! p := deref (h !! parent) in
    let! (node, parent, (h, root)) :=
      if rb_right p =? node
      then let! t := __rb_rotate_left parent (h, root) in Ret (parent, node, t)
      else Ret (node, parent, (h, root)) in
    let! h := rb_set_black parent h in
    let! h := rb_set_red gparent h in
    let! t := __rb_rotate_right gparent (h, root) in
    Ret (node, t).

Definition insert_right (node parent gparent : Z) (t : rb_tree) : res (Z * rb_tree) :=
  let '(h, root) := t in
  let! g := deref (h !! gparent) in
  let uncle := rb_left g in
  let! red := red_at uncle h in
  if red : bool then let! h := recolor uncle parent gparent h in Ret (gparent, (h, root))
  else
    let! p := deref (h !! parent) in
    let! (node, parent, (h, root)) :=
      if rb_left p =? node
      then let! t := __rb_rotate_right parent (h, root) in Ret (parent, node, t)
      else Ret (node, parent, (h, root)) in
    let! h := rb_set_black parent h in
    let! h := rb_set_red gparent h in
    let! t := __rb_rotate_left gparent (h, root) in
    Ret (node, t).

Fixpoint insert_loop (fuel : nat) (node : Z) (t : rb_tree) : res rb_tree :=
  match fuel with
  | O => OutOfFuel
  | S fuel =>
      let! n := deref (fst t !! node) in
      let parent := rb_parent n in
      let! red := red_at parent (fst t) in
      if red : bool then
        let! p := deref (fst t !! parent) in
        let gparent := rb_parent p in
        let! g := deref (fst t !! gparent) in
        let! (node, t) := if parent =? rb_left g then insert_left node parent gparent t
                          else insert_right node parent gparent t in
        insert_loop fuel node t
      else Ret t
  end.

Definition rb_insert_color (fuel : nat) (node : Z) (t : rb_tree) : res rb_tree :=
  let! (h, root) := insert_loop fuel node t in
  let! h := rb_set_black root h in
  Ret (h, root).

(** ** Removal *)

(** [!p || rb_is_black(p)] *)
Definition black_at (p : Z) (h : rb_heap) : res bool :=
  if p =? NULL then Ret true else let! r := deref (h !! p) in Ret (rb_is_black r).

(** The body of the loop of [__rb_erase_color], for a node that is a left (a right)
    child: the case of a red sibling, the final rotation, and the whole.  [inl] means
    that the loop goes on, with the new [node] and [parent]; [inr] is the [break]. *)
Definition erase_left_sibling (parent : Z) (t : rb_tree) : res (Z * rb_tree) :=
  let '(h, root) := t in
  let! p := deref (h !! parent) in
  let other := rb_right p in
  let! o := deref (h !! other) in
  if rb_is_red o then
    let! h := rb_set_black other h in
    let! h := rb_set_red parent h in
    let! (h, root) := __rb_rotate_left parent (h, root) in
    let! p := deref (h !! parent) in
    Ret (rb_right p, (h, root))
  else Ret (other, (h, root)).
Definition erase_left_rotate (parent other : Z) (t : rb_tree) : res rb_tree :=
  let '(h, root) := t in
  let! p := deref (h !! parent) in
  let! h := rb_set_color other (rb_color p) h in
  let! h := rb_set_black parent h in
  let! o := deref (h !! other) in
  let! h := rb_set_black (rb_right o) h in
  __rb_rotate_left parent (h, root).
Definition erase_left (parent : Z) (t : rb_tree) : res ((Z * Z + Z) * rb_tree) :=
  let! (other, (h, root)) := erase_left_sibling parent t in
  let! o := deref (h !! other) in
  let! bl := black_at (rb_left o) h in
  let! br := black_at (rb_right o) h in
  if bl && br then
    let! h := rb_set_red other h in
    let! n := deref (h !! parent) in
    Ret (inl (parent, rb_parent n), (h, root))
  else
    let! (other, (h, root)) :=
      if br : bool then
        let! h := rb_set_black (rb_left o) h in
        let! h := rb_set_red other h in
        let! (h, root) := __rb_rotate_right other (h, root) in
        let! p := deref (h !! parent) in
        Ret (rb_right p, (h, root))
      else Ret (other, (h, root)) in
    let! (h, root) := erase_left_rotate parent other (h, root) in
    Ret (inr root, (h, root)).

Definition erase_right_sibling (parent : Z) (t : rb_tree) : res (Z * rb_tree) :=
  let '(h, root) := t in
  let! p := deref (h !! parent) in
  let other := rb_left p in
  let! o := deref (h !! other) in
  if rb_is_red o then
    let! h := rb_set_black other h in
    let! h := rb_set_red parent h in
    let! (h, root) := __rb_rotate_right parent (h, root) in
    let! p := deref (h !! parent) in
    Ret (rb_left p, (h, root))
  else Ret (other, (h, root)).
Definition erase_right_rotate (parent other : Z) (t : rb_tree) : res rb_tree :=
  let '(h, root) := t in
  let! p := deref (h !! parent) in
  let! h := rb_set_color other (rb_color p) h in
  let! h := rb_set_black parent h in
  let! o := deref (h !! other) in
  let! h := rb_set_black (rb_left o) h in
  __rb_rotate_right parent (h, root).
Definition erase_right (parent : Z) (t : rb_tree) : res ((Z * Z + Z) * rb_tree) :=
  let! (other, (h, root)) := erase_right_sibling parent t in
  let! o := deref (h !! other) in
  let! bl := black_at (rb_left o) h in
  let! br := black_at (rb_right o) h in
  if bl && br then
    let! h := rb_set_red other h in
    let! n := deref (h !! parent) in
    Ret (inl (parent, rb_parent n), (h, root))
  else
    let! (other, (h, root)) :=
      if bl : bool then
        let! h := rb_set_black (rb_right o) h in
        let! h := rb_set_red other h in
        let! (h, root) := __rb_rotate_left other (h, root) in
        let! p := deref (h !! parent) in
        Ret (rb_left p, (h, root))
      else Ret (other, (h, root)) in
    let! (h, root) := erase_right_rotate parent other (h, root) in
    Ret (inr root, (h, root)).

(** The loop; returns the node at which it stops. *)
Fixpoint erase_loop (fuel : nat) (node parent : Z) (t : rb_tree) : res (Z * rb_tree) :=
  match fuel with
  | O => OutOfFuel
  | S fuel =>
      let! black := black_at node (fst t) in
      if black && negb (node =? snd t) then
        let! p := deref (fst t !! parent) in
        let! (o, t) := if rb_left p =? node then erase_left parent t
                       else erase_right parent t in
        match o with
        | inl (node, parent) => erase_loop fuel node parent t
        | inr node => Ret (node, t)
        end
      else Ret (node, t)
  end.

Definition __rb_erase_color (fuel : nat) (node parent : Z) (t : rb_tree) : res rb_tree :=
  let! (node, (h, root)) := erase_loop fuel node parent t in
  if node =? NULL then Ret (h, root)
  else let! h := rb_set_black node h in Ret (h, root).

(** [while ((left = node->rb_left) != NULL) node = left] *)
Fixpoint leftmost (fuel : nat) (node : Z) (h : rb_heap) : res Z :=
  match fuel with
  | O => OutOfFuel
  | S fuel =>
      let! n := deref (h !! node) in
      if rb_left n =? NULL then Ret node else leftmost fuel (rb_left n) h
  end.
Fixpoint rightmost (fuel : nat) (node : Z) (h : rb_heap) : res Z :=
  match fuel with
  | O => OutOfFuel
  | S fuel =>
      let! n := deref (h !! node) in
      if rb_right n =? NULL then Ret node else rightmost fuel (rb_right n) h
  end.

(** The two ways [rb_erase] unlinks a node, up to the label [color]: they give
    [child], [parent] and [color]. *)
Definition unlink_simple (node child : Z) (t : rb_tree) : res (Z * Z * Z * rb_tree) :=
  let '(h, root) := t in
  let! n := deref (h !! node) in
  let parent := rb_parent n in
  let color := rb_color n in
  let! h := set_parent_if child parent h in
  let! t := relink node child parent (h, root) in
  Ret (child, parent, color, t).

Definition unlink_successor (fuel : nat) (old : Z) (t : rb_tree) : res (Z * Z * Z * rb_tree) :=
  let '(h, root) := t in
  let! o := deref (h !! old) in
  let! node := leftmost fuel (rb_right o) h in
  let! (h, root) := relink old node (rb_parent o) (h, root) in
  let! n := deref (h !! node) in
  let child := rb_right n in
  let parent := rb_parent n in
  let color := rb_color n in
  let! (parent, h) :=
    if parent =? old then Ret (node, h)
    else
      let! h := set_parent_if child parent h in
      let! h := set_left parent child h in
      let! o := deref (h !! old) in
      let! h := set_right node (rb_right o) h in
      let! h := rb_set_parent (rb_right o) node h in
      Ret (parent, h) in
  let! o := deref (h !! old) in
  let! h := upd node (with_pc (fun _ => rb_parent_color o)) h in
  let! h := set_left node (rb_left o) h in
  let! h := rb_set_parent (rb_left o) node h in
  Ret (child, parent, color, (h, root)).

Definition rb_erase (fuel : nat) (node : Z) (t : rb_tree) : res rb_tree :=
  let! n := deref (fst t !! node) in
  let! (child, parent, color, t) :=
    if rb_left n =? NULL then unlink_simple node (rb_right n) t
    else if rb_right n =? NULL then unlink_simple node (rb_left n) t
    else unlink_successor fuel node t in
  if color =? RB_BLACK then __rb_erase_color fuel child parent t else Ret t.

(** ** Traversal and replacement *)

Definition rb_first (fuel : nat) (t : rb_tree) : res Z :=
  if snd t =? NULL then Ret NULL else leftmost fuel (snd t) (fst t).
Definition rb_last (fuel : nat) (t : rb_tree) : res Z :=
  if snd t =? NULL then Ret NULL else rightmost fuel (snd t) (fst t).

(** [while ((parent = rb_parent(node)) && node == parent->rb_right) node = parent] *)
Fixpoint climb_right (fuel : nat) (node : Z) (h : rb_heap) : res Z :=
  match fuel with
  | O => OutOfFuel
  | S fuel =>
      let! n := deref (h !! node) in
      let parent := rb_parent n in
      if parent =? NULL then Ret parent
      else
        let! p := deref (h !! parent) in
        if node =? rb_right p then climb_right fuel parent h else Ret parent
  end.
Fixpoint climb_left (fuel : nat) (node : Z) (h : rb_heap) : res Z :=
  match fuel with
  | O => OutOfFuel
  | S fuel =>
      let! n := deref (h !! node) in
      let parent := rb_parent n in
      if parent =? NULL then Ret parent
      else
        let! p := deref (h !! parent) in
        if node =? rb_left p then climb_left fuel parent h else Ret parent
  end.

Definition rb_next (fuel : nat) (node : Z) (h : rb_heap) : res Z :=
  let! n := deref (h !! node) in
  if rb_parent n =? node then Ret NULL
  else if negb (rb_right n =? NULL) then leftmost fuel (rb_right n) h
  else climb_right fuel node h.

Definition rb_prev (fuel : nat) (node : Z) (h : rb_heap) : res Z :=
  let! n := deref (h !! node) in
  if rb_parent n =? node then Ret NULL
  else if negb (rb_left n =? NULL) then rightmost fuel (rb_left n) h
  else climb_left fuel node h.

Definition rb_replace_node (victim new : Z) (t : rb_tree) : res rb_tree :=
  let '(h, root) := t in
  let! v := deref (h !! victim) in
  let! (h, root) := relink victim new (rb_parent v) (h, root) in
  let! v := deref (h !! victim) in
  let! h := set_parent_if (rb_left v) new h in
  let! h := set_parent_if (rb_right v) new h in
  let! v := deref (h !! victim) in
  Ret (<[new := v]> h, root).
