(* ===== verification/RbtreeRep.v ===== *)
(** * From pointers to trees

    How a heap of [struct rb_node] represents a tree, seen from a position inside
    it: a subtree and the path from it to the root.  Every operation of
    lib/rbtree.c that rotates, recolors or relinks is shown to change the
    represented tree as drawn in textbooks, and nothing outside of it. *)
From S2P Require Import Prelude Rbtree.

Arguments relink : simpl never.
Arguments relink_right : simpl never.
Arguments __rb_rotate_left : simpl never.
Arguments __rb_rotate_right : simpl never.
Arguments set_parent_if : simpl never.
Arguments red_at : simpl never.
Arguments black_at : simpl never.
Arguments recolor : simpl never.
Arguments insert_left : simpl never.
Arguments insert_right : simpl never.
Arguments erase_left : simpl never.
Arguments erase_right : simpl never.
Arguments rb_set_black : simpl never.
Arguments rb_set_red : simpl never.
Arguments rb_set_color : simpl never.
Arguments rb_set_parent : simpl never.

Inductive color := Red | Black.
Inductive tree := Leaf | Node (c : color) (l : tree) (n : Z) (r : tree).

#[global] Instance color_eq_dec : EqDecision color.
Proof. solve_decision. Defined.
#[global] Instance tree_eq_dec : EqDecision tree.
Proof. solve_decision. Defined.

Definition cz (c : color) : Z := match c with Red => RB_RED | Black => RB_BLACK end.

(** The pointer to a tree, and its nodes in order. *)
Definition ptr (t : tree) : Z := match t with Leaf => NULL | Node _ _ n _ => n end.
Fixpoint nodes (t : tree) : list Z :=
  match t with Leaf => [] | Node _ l n r => nodes l ++ n :: nodes r end.

(** Node addresses are aligned, so the low bits of a parent pointer are free. *)
Definition aligned (p : Z) : Prop := 0 <= p /\ p mod 4 = 0.
Definition ok_ptr (p : Z) : Prop := p <> NULL /\ aligned p.

Definition mk (par : Z) (c : color) (l r : Z) : rb_node := Rb_node (par + cz c) r l.

Fixpoint rep (h : rb_heap) (t : tree) (par : Z) : Prop :=
  match t with
  | Leaf => True
  | Node c l n r =>
      ok_ptr n /\ h !! n = Some (mk par c (ptr l) (ptr r)) /\ rep h l n /\ rep h r n
  end.

(** ** Paths to the root *)
Inductive frame := FL (c : color) (n : Z) (r : tree) | FR (c : color) (l : tree) (n : Z).

Definition fnode (f : frame) : Z := match f with FL _ n _ => n | FR _ _ n => n end.
Definition fcolor (f : frame) : color := match f with FL c _ _ => c | FR c _ _ => c end.
Definition fnodes (f : frame) : list Z :=
  match f with FL _ n r => n :: nodes r | FR _ l n => n :: nodes l end.
Definition znodes (z : list frame) : list Z := z ≫= fnodes.
Definition top (z : list frame) : Z := match z with [] => NULL | f :: _ => fnode f end.

Definition up (f : frame) (t : tree) : tree :=
  match f with FL c n r => Node c t n r | FR c l n => Node c l n t end.
Fixpoint plug (z : list frame) (t : tree) : tree :=
  match z with [] => t | f :: z => plug z (up f t) end.

(** The path [z] is in the heap, with [p] in its hole. *)
Fixpoint crep (h : rb_heap) (root : Z) (z : list frame) (p : Z) : Prop :=
  match z with
  | [] => root = p
  | FL c n r :: z =>
      ok_ptr n /\ h !! n = Some (mk (top z) c p (ptr r)) /\ rep h r n /\ crep h root z n
  | FR c l n :: z =>
      ok_ptr n /\ h !! n = Some (mk (top z) c (ptr l) p) /\ rep h l n /\ crep h root z n
  end.

(** The state holds the tree [plug z t]; the focus is on [t]. *)
Record at_pos (s : rb_tree) (z : list frame) (t : tree) : Prop := {
  at_rep : rep (fst s) t (top z);
  at_crep : crep (fst s) (snd s) z (ptr t);
  at_nodup : NoDup (nodes t ++ znodes z) }.

Definition same_outside (l : list Z) (h h' : rb_heap) : Prop :=
  forall p, p ∉ l -> h' !! p = h !! p.

(** ** Bits *)

Lemma land_low (x p : Z) : 0 <= x < 4 -> p mod 4 = 0 -> Z.land x p = 0.
Proof.
  intros Hx Hp. assert (x = Z.land x (Z.ones 2)) as -> by (rewrite Z.land_ones by done; symmetry; by apply Z.mod_small).
  rewrite <- Z.land_assoc, (Z.land_comm (Z.ones 2)), Z.land_ones by done.
  change (2 ^ 2) with 4. by rewrite Hp, Z.land_0_r.
Qed.
Lemma lor_low (x p : Z) : 0 <= x < 4 -> p mod 4 = 0 -> Z.lor x p = p + x.
Proof. intros Hx Hp. pose proof (Z.add_lor_land x p). rewrite (land_low x p) in H by done. lia. Qed.
Lemma cz_range (c : color) : 0 <= cz c <= 1.
Proof. destruct c; simpl; unfold RB_RED, RB_BLACK; lia. Qed.

Lemma aligned_split (p : Z) (c : color) : aligned p ->
  (p + cz c) / 4 = p / 4 /\ (p + cz c) mod 4 = cz c /\ p / 4 * 4 = p /\
  (p + cz c) / 2 * 2 = p /\ (p + cz c) mod 2 = cz c.
Proof. intros [H0 Hp]. pose proof (cz_range c). Z.div_mod_to_equations. lia. Qed.

Lemma mk_parent (par : Z) (c : color) (l r : Z) : aligned par -> rb_parent (mk par c l r) = par.
Proof.
  intros Hp. unfold rb_parent, mk. simpl. change 3 with (Z.ones 2). rewrite clear_low by done.
  change (2 ^ 2) with 4. destruct (aligned_split par c Hp) as (-> & _ & ? & _). done.
Qed.
Lemma mk_color (par : Z) (c : color) (l r : Z) : aligned par -> rb_color (mk par c l r) = cz c.
Proof.
  intros Hp. unfold rb_color, mk. simpl. change 1 with (Z.ones 1). rewrite Z.land_ones by done.
  by destruct (aligned_split par c Hp) as (_ & _ & _ & _ & ?).
Qed.
Lemma mk_is_red (par : Z) (c : color) (l r : Z) :
  aligned par -> rb_is_red (mk par c l r) = bool_decide (c = Red).
Proof. intros Hp. unfold rb_is_red. rewrite mk_color by done. by destruct c. Qed.
Lemma mk_is_black (par : Z) (c : color) (l r : Z) :
  aligned par -> rb_is_black (mk par c l r) = bool_decide (c = Black).
Proof. intros Hp. unfold rb_is_black. rewrite mk_color by done. by destruct c. Qed.

(** The field updates on nodes in packed form. *)
Lemma upd_parent (p par q : Z) (c : color) (l r : Z) (h : rb_heap) :
  aligned par -> aligned q -> h !! p = Some (mk par c l r) ->
  rb_set_parent p q h = Ret (<[p := mk q c l r]> h).
Proof.
  intros Hp Hq E. unfold rb_set_parent, upd. rewrite E. simpl. do 2 f_equal.
  unfold with_pc, mk. simpl. f_equal. change 3 with (Z.ones 2). rewrite Z.land_ones by done.
  change (2 ^ 2) with 4. destruct (aligned_split par c Hp) as (_ & -> & _).
  pose proof (cz_range c). apply lor_low; [lia|apply Hq].
Qed.
Lemma upd_red (p par : Z) (c : color) (l r : Z) (h : rb_heap) :
  aligned par -> h !! p = Some (mk par c l r) ->
  rb_set_red p h = Ret (<[p := mk par Red l r]> h).
Proof.
  intros Hp E. unfold rb_set_red, upd. rewrite E. simpl. do 2 f_equal.
  unfold with_pc, mk. simpl. f_equal. change 1 with (Z.ones 1). rewrite clear_low by done.
  change (2 ^ 1) with 2. destruct (aligned_split par c Hp) as (_ & _ & _ & -> & _).
  unfold RB_RED. lia.
Qed.
Lemma lor_one (p : Z) (c : color) : aligned p -> Z.lor (p + cz c) 1 = p + 1.
Proof.
  intros [H0 Hp]. pose proof (cz_range c).
  rewrite <- (lor_low (cz c) p), (Z.lor_comm (cz c)), <- Z.lor_assoc by (done || lia).
  assert (Z.lor (cz c) 1 = 1) as -> by (by destruct c). rewrite Z.lor_comm. apply lor_low; [lia|done].
Qed.
Lemma upd_black (p par : Z) (c : color) (l r : Z) (h : rb_heap) :
  aligned par -> h !! p = Some (mk par c l r) ->
  rb_set_black p h = Ret (<[p := mk par Black l r]> h).
Proof.
  intros Hp E. unfold rb_set_black, upd. rewrite E. simpl. do 2 f_equal.
  unfold with_pc, mk. simpl. f_equal. by apply lor_one.
Qed.
Lemma upd_color (p par : Z) (c c' : color) (l r : Z) (h : rb_heap) :
  aligned par -> h !! p = Some (mk par c l r) ->
  rb_set_color p (cz c') h = Ret (<[p := mk par c' l r]> h).
Proof.
  intros Hp E. unfold rb_set_color, upd. rewrite E. simpl. do 2 f_equal.
  unfold with_pc, mk. simpl. f_equal. change 1 with (Z.ones 1). rewrite clear_low by done.
  change (2 ^ 1) with 2. destruct (aligned_split par c Hp) as (_ & _ & _ & -> & _).
  rewrite Z.lor_comm. pose proof (cz_range c'). apply lor_low; [lia|apply Hp].
Qed.
Lemma upd_left (p par : Z) (c : color) (l r v : Z) (h : rb_heap) :
  h !! p = Some (mk par c l r) -> set_left p v h = Ret (<[p := mk par c v r]> h).
Proof. intros E. unfold set_left, upd. by rewrite E. Qed.
Lemma upd_right (p par : Z) (c : color) (l r v : Z) (h : rb_heap) :
  h !! p = Some (mk par c l r) -> set_right p v h = Ret (<[p := mk par c l v]> h).
Proof. intros E. unfold set_right, upd. by rewrite E. Qed.

(** ** Representation lemmas *)

Lemma rep_agree (h h' : rb_heap) (t : tree) (par : Z) :
  (forall p, p ∈ nodes t -> h' !! p = h !! p) -> rep h t par -> rep h' t par.
Proof.
  revert par. induction t as [|c l IHl n r IHr]; intros par Hag Hr; [done|].
  destruct Hr as (Hn & E & Hl & Hr'). simpl in *. split_and!.
  - done.
  - rewrite Hag; [done|set_solver].
  - apply IHl; [|done]. intros p Hp. apply Hag. set_solver.
  - apply IHr; [|done]. intros p Hp. apply Hag. set_solver.
Qed.

Lemma crep_agree (h h' : rb_heap) (root : Z) (z : list frame) (p : Z) :
  (forall q, q ∈ znodes z -> h' !! q = h !! q) -> crep h root z p -> crep h' root z p.
Proof.
  revert p. induction z as [|f z IH]; intros p Hag Hc; [done|].
  unfold znodes in *. simpl in Hag.
  destruct f as [c n r|c l n]; destruct Hc as (Hn & E & Hr & Hc); simpl in *; split_and!; try done.
  - rewrite Hag; [done|set_solver].
  - eapply rep_agree; [|done]. intros q Hq. apply Hag. set_solver.
  - apply IH; [|done]. intros q Hq. apply Hag. set_solver.
  - rewrite Hag; [done|set_solver].
  - eapply rep_agree; [|done]. intros q Hq. apply Hag. set_solver.
  - apply IH; [|done]. intros q Hq. apply Hag. set_solver.
Qed.

Lemma rep_insert (h : rb_heap) (t : tree) (par p : Z) (v : rb_node) :
  p ∉ nodes t -> rep h t par -> rep (<[p := v]> h) t par.
Proof.
  intros Hp. apply rep_agree. intros q Hq. apply lookup_insert_ne. by intros ->.
Qed.
Lemma crep_insert (h : rb_heap) (root : Z) (z : list frame) (p q : Z) (v : rb_node) :
  q ∉ znodes z -> crep h root z p -> crep (<[q := v]> h) root z p.
Proof.
  intros Hq. apply crep_agree. intros x Hx. apply lookup_insert_ne. by intros ->.
Qed.

Lemma crep_aligned (h : rb_heap) (root : Z) (z : list frame) (p : Z) :
  crep h root z p -> aligned (top z).
Proof. destruct z as [|[]]; [done|intros [[_ ?] _]; done..]. Qed.

Lemma ptr_nodes (t : tree) : ptr t <> NULL -> ptr t ∈ nodes t.
Proof. destruct t; [done|]. simpl. set_solver. Qed.
Lemma rep_ptr (h : rb_heap) (t : tree) (par : Z) : rep h t par -> ptr t = NULL <-> t = Leaf.
Proof. destruct t; [done|]. intros [[? _] _]. simpl. naive_solver. Qed.

Lemma nodes_plug (z : list frame) (t : tree) : nodes (plug z t) ≡ₚ nodes t ++ znodes z.
Proof.
  revert t. induction z as [|f z IH]; intros t; simpl; [by rewrite app_nil_r|].
  rewrite IH. unfold znodes. simpl. rewrite app_assoc. apply Permutation_app_tail.
  destruct f; simpl; solve_Permutation.
Qed.

(** The focus moves up and down the path. *)
Lemma at_up (s : rb_tree) (f : frame) (z : list frame) (t : tree) :
  at_pos s (f :: z) t <-> at_pos s z (up f t).
Proof.
  assert (nodes t ++ znodes (f :: z) ≡ₚ nodes (up f t) ++ znodes z) as Hp.
  { rewrite <- !nodes_plug. done. }
  split; intros [H1 H2 H3]; rewrite ?Hp in H3.
  - split; [| |done]; destruct f as [c n r|c l n]; destruct H2 as (Hn & E & Hr & Hc); simpl in *;
      try done; by split_and!.
  - split; [..|by rewrite Hp]; destruct f as [c n r|c l n]; destruct H1 as (Hn & E & Hl & Hr);
      simpl in *; try done; by split_and!.
Qed.

(** ** Pointer operations on a position *)

(** The link of a subtree to its parent. *)
Lemma set_parent_if_rep (h : rb_heap) (t : tree) (par q : Z) :
  rep h t par -> NoDup (nodes t) -> aligned par -> aligned q ->
  exists h', set_parent_if (ptr t) q h = Ret h' /\ rep h' t q /\ same_outside (nodes t) h h'.
Proof.
  intros Hr Hnd Hp Hq. unfold set_parent_if. destruct t as [|c l n r]; simpl.
  { exists h. split_and!; [done|done|]. by intros p ?. }
  destruct Hr as ([HnN Hn] & E & Hl & Hr). rewrite (proj2 (Z.eqb_neq _ _) HnN).
  exists (<[n := mk q c (ptr l) (ptr r)]> h). simpl in Hnd.
  apply NoDup_app in Hnd as (Hndl & Hd & [Hnr Hndr]%NoDup_cons).
  assert (n ∉ nodes l) as Hnl by (intros ?; by apply (Hd n); [|left]).
  split; [by apply (upd_parent _ par)|]. split.
  - simpl. rewrite lookup_insert_eq. refine (conj _ (conj _ (conj _ _))); [done|done|by apply rep_insert..].
  - intros p Hout. apply lookup_insert_ne. intros ->. set_solver.
Qed.

(** The link of a hole to what is in it.  Both versions of the test agree, since a
    sibling is never the node itself. *)
Lemma relink_crep (h : rb_heap) (root : Z) (z : list frame) (p q : Z) :
  crep h root z p -> p <> NULL -> p ∉ znodes z -> NoDup (znodes z) ->
  exists h' root', relink p q (top z) (h, root) = Ret (h', root') /\
    relink_right p q (top z) (h, root) = Ret (h', root') /\
    crep h' root' z q /\ same_outside (znodes z) h h'.
Proof.
  intros Hc HpN Hp Hnd. unfold relink, relink_right. destruct z as [|f z]; simpl.
  { exists h, q. split_and!; try done. }
  unfold znodes in *. simpl in Hp, Hnd.
  destruct f as [c n r|c l n]; destruct Hc as ([HnN Hn] & E & Hr & Hc); simpl in *;
    rewrite (proj2 (Z.eqb_neq _ _) HnN), E; simpl.
  - rewrite Z.eqb_refl.
    assert (p =? ptr r = false) as ->.
    { apply Z.eqb_neq. intros ->. pose proof (ptr_nodes r HpN). set_solver. }
    rewrite (upd_left _ _ _ _ _ _ _ E). simpl. eexists _, _. split; [done|]. split; [done|].
    rewrite lookup_insert_eq. apply NoDup_cons in Hnd as [Hnd _]. split; [split; [done|]; split; [done|split]|].
    + apply rep_insert; [|done]. set_solver.
    + apply crep_insert; [|done]. unfold znodes. set_solver.
    + intros x Hx. apply lookup_insert_ne. set_solver.
  - rewrite Z.eqb_refl.
    assert (p =? ptr l = false) as ->.
    { apply Z.eqb_neq. intros ->. pose proof (ptr_nodes l HpN). set_solver. }
    rewrite (upd_right _ _ _ _ _ _ _ E). simpl. eexists _, _. split; [done|]. split; [done|].
    rewrite lookup_insert_eq. apply NoDup_cons in Hnd as [Hnd _]. split; [split; [done|]; split; [done|split]|].
    + apply rep_insert; [|done]. set_solver.
    + apply crep_insert; [|done]. unfold znodes. set_solver.
    + intros x Hx. apply lookup_insert_ne. set_solver.
Qed.


Lemma disj_app (A B C : list Z) :
  (forall x, x ∈ A -> x ∉ B ++ C) ->
  (forall x, x ∈ A -> x ∉ B) /\ (forall x, x ∈ A -> x ∉ C).
Proof. intros H. split; intros x Hx; specialize (H x Hx); rewrite not_elem_of_app in H; tauto. Qed.
Lemma disj_cons (A C : list Z) (b : Z) :
  (forall x, x ∈ A -> x ∉ b :: C) -> b ∉ A /\ (forall x, x ∈ A -> x ∉ C).
Proof.
  intros H. split; [intros Hb; eapply H; [done|by left]|].
  intros x Hx Hc. eapply H; [done|by right].
Qed.

(** Takes [NoDup] and non-membership hypotheses apart into facts about single nodes and
    subtrees; [fresh_solver] proves what they give. *)
Ltac split_mem :=
  repeat match goal with
  | H : ?x ∉ _ ++ _ |- _ => apply not_elem_of_app in H as [? ?]
  | H : ?x ∉ _ :: _ |- _ => apply not_elem_of_cons in H as [? ?]
  | H : forall x, x ∈ _ -> x ∉ _ ++ _ |- _ => apply disj_app in H as [? ?]
  | H : forall x, x ∈ _ -> x ∉ _ :: _ |- _ => apply disj_cons in H as [? ?]
  end.
Ltac split_nodup H :=
  lazymatch type of H with
  | NoDup (_ ++ _) =>
      let A := fresh "N" in let B := fresh "N" in let C := fresh "N" in
      apply NoDup_app in H as (A & B & C); split_nodup A; split_nodup C
  | NoDup (_ :: _) =>
      let A := fresh "N" in let B := fresh "N" in
      apply NoDup_cons in H as [A B]; split_nodup B
  | _ => idtac
  end.
Ltac nodup H :=
  simpl in H; repeat (rewrite <- app_assoc in H; simpl in H); split_nodup H; split_mem.

Ltac reassoc H :=
  simpl in *; repeat (rewrite <- app_assoc in H; simpl in H);
  repeat (rewrite <- app_assoc; simpl); exact H.

Ltac fresh_one :=
  match goal with
  | H : ?P |- ?P => exact H
  | H : ?x <> ?y |- ?y <> ?x => intros ->; apply H; reflexivity
  | H1 : ?x ∈ ?A, H2 : forall y, y ∈ ?A -> y ∉ ?B |- ?x ∉ ?B => exact (H2 x H1)
  | H1 : ?x ∈ ?A, H2 : forall y, y ∈ ?B -> y ∉ ?A |- ?x ∉ ?B => intros ?; eapply H2; eassumption
  | H1 : ?x ∈ ?A, H2 : ?y ∉ ?A |- ?x <> ?y => intros ->; exact (H2 H1)
  | H1 : ?x ∈ ?A, H2 : ?y ∉ ?A |- ?y <> ?x => intros ->; exact (H2 H1)
  end.
Ltac fresh_solver :=
  split_mem;
  repeat match goal with
  | |- _ ∉ _ ++ _ => apply not_elem_of_app; split
  | |- _ ∉ _ :: _ => apply not_elem_of_cons; split
  end; first [fresh_one | done].

Lemma same_outside_trans (l : list Z) (h1 h2 h3 : rb_heap) :
  same_outside l h1 h2 -> same_outside l h2 h3 -> same_outside l h1 h3.
Proof. intros H1 H2 p Hp. by rewrite (H2 p Hp), (H1 p Hp). Qed.
Lemma same_outside_mono (l l' : list Z) (h h' : rb_heap) :
  same_outside l h h' -> l ⊆ l' -> same_outside l' h h'.
Proof. intros H Hl p Hp. apply H. set_solver. Qed.
Lemma same_outside_insert (l : list Z) (h : rb_heap) (p : Z) (v : rb_node) :
  p ∈ l -> same_outside l h (<[p := v]> h).
Proof. intros Hp q Hq. apply lookup_insert_ne. set_solver. Qed.

(** *** Rotations *)

Lemma rotate_left_at (s : rb_tree) (z : list frame) (c c2 : color) (a b d : tree) (n m : Z) :
  at_pos s z (Node c a n (Node c2 b m d)) ->
  exists s', __rb_rotate_left n s = Ret s' /\ at_pos s' z (Node c2 (Node c a n b) m d) /\
    same_outside (nodes (Node c a n (Node c2 b m d)) ++ znodes z) (fst s) (fst s').
Proof.
  destruct s as [h root]. intros [((HnN & Hn) & En & Ha & (HmN & Hm) & Em & Hb & Hd) Hc Hnd].
  pose proof (crep_aligned _ _ _ _ Hc) as Hpar. simpl in *. pose proof Hnd as Hnd'. nodup Hnd.
  unfold __rb_rotate_left. rewrite En. simpl. rewrite mk_parent by done. rewrite Em. simpl.
  rewrite (upd_right _ _ _ _ _ _ _ En). simpl.
  set (h1 := <[n := mk (top z) c (ptr a) (ptr b)]> h).
  destruct (set_parent_if_rep h1 b m n) as (h2 & -> & Hb2 & Hs2); [|done|done|done|].
  { apply rep_insert; [fresh_solver|done]. }
  simpl. assert (h2 !! m = Some (mk n c2 (ptr b) (ptr d))) as Em2.
  { rewrite Hs2 by fresh_solver. unfold h1. rewrite lookup_insert_ne by fresh_solver. done. }
  rewrite (upd_left _ _ _ _ _ _ _ Em2). simpl.
  rewrite (upd_parent m n (top z) c2 n (ptr d)); [|done|done|by rewrite lookup_insert_eq]. simpl.
  rewrite insert_insert_eq. set (h4 := <[m := mk (top z) c2 n (ptr d)]> h2).
  assert (forall p, p <> n -> p <> m -> p ∉ nodes b -> h4 !! p = h !! p) as Hh4.
  { intros p ? ? ?. unfold h4. rewrite lookup_insert_ne, Hs2 by done. unfold h1.
    by rewrite lookup_insert_ne. }
  destruct (relink_crep h4 root z n m) as (h5 & root5 & -> & _ & Hc5 & Hs5); [|done|fresh_solver|done|].
  { eapply crep_agree; [|exact Hc]. intros q Hq. apply Hh4; fresh_solver. }
  simpl. assert (h5 !! n = Some (mk (top z) c (ptr a) (ptr b))) as En5.
  { rewrite Hs5 by fresh_solver. unfold h4. rewrite lookup_insert_ne by fresh_solver.
    rewrite Hs2 by fresh_solver. unfold h1. by rewrite lookup_insert_eq. }
  rewrite (upd_parent n (top z) m c (ptr a) (ptr b)) by done. simpl.
  set (h6 := <[n := mk m c (ptr a) (ptr b)]> h5).
  assert (forall p, p <> n -> p ∉ znodes z -> h6 !! p = h4 !! p) as Hh6.
  { intros p ? ?. unfold h6. by rewrite lookup_insert_ne, Hs5. }
  exists (h6, root5). split; [done|]. split; [split|]; simpl.
  - split; [done|]. split.
    { rewrite Hh6 by fresh_solver. unfold h4. by rewrite lookup_insert_eq. }
    split; [split; [done|]; split; [by unfold h6; rewrite lookup_insert_eq|]; split|].
    + eapply rep_agree; [|exact Ha]. intros p Hp. rewrite Hh6, Hh4 by fresh_solver. done.
    + eapply rep_agree; [|exact Hb2]. intros p Hp. rewrite Hh6 by fresh_solver. unfold h4.
      by rewrite lookup_insert_ne by fresh_solver.
    + eapply rep_agree; [|exact Hd]. intros p Hp. rewrite Hh6, Hh4 by fresh_solver. done.
  - apply crep_insert; [fresh_solver|done].
  - reassoc Hnd'.
  - intros p Hp. rewrite Hh6, Hh4 by fresh_solver. done.
Qed.

Lemma rotate_right_at (s : rb_tree) (z : list frame) (c c2 : color) (a b d : tree) (n m : Z) :
  at_pos s z (Node c (Node c2 a m b) n d) ->
  exists s', __rb_rotate_right n s = Ret s' /\ at_pos s' z (Node c2 a m (Node c b n d)) /\
    same_outside (nodes (Node c (Node c2 a m b) n d) ++ znodes z) (fst s) (fst s').
Proof.
  destruct s as [h root]. intros [((HnN & Hn) & En & ((HmN & Hm) & Em & Ha & Hb) & Hd) Hc Hnd].
  pose proof (crep_aligned _ _ _ _ Hc) as Hpar. simpl in *. rewrite <- app_assoc in Hnd. simpl in Hnd.
  pose proof Hnd as Hnd'. nodup Hnd.
  unfold __rb_rotate_right. rewrite En. simpl. rewrite mk_parent by done. rewrite Em. simpl.
  rewrite (upd_left _ _ _ _ _ _ _ En). simpl.
  set (h1 := <[n := mk (top z) c (ptr b) (ptr d)]> h).
  destruct (set_parent_if_rep h1 b m n) as (h2 & -> & Hb2 & Hs2); [|done|done|done|].
  { apply rep_insert; [fresh_solver|done]. }
  simpl. assert (h2 !! m = Some (mk n c2 (ptr a) (ptr b))) as Em2.
  { rewrite Hs2 by fresh_solver. unfold h1. rewrite lookup_insert_ne by fresh_solver. done. }
  rewrite (upd_right _ _ _ _ _ _ _ Em2). simpl.
  rewrite (upd_parent m n (top z) c2 (ptr a) n); [|done|done|by rewrite lookup_insert_eq]. simpl.
  rewrite insert_insert_eq. set (h4 := <[m := mk (top z) c2 (ptr a) n]> h2).
  assert (forall p, p <> n -> p <> m -> p ∉ nodes b -> h4 !! p = h !! p) as Hh4.
  { intros p ? ? ?. unfold h4. rewrite lookup_insert_ne, Hs2 by done. unfold h1.
    by rewrite lookup_insert_ne. }
  destruct (relink_crep h4 root z n m) as (h5 & root5 & _ & -> & Hc5 & Hs5); [|done|fresh_solver|done|].
  { eapply crep_agree; [|exact Hc]. intros q Hq. apply Hh4; fresh_solver. }
  simpl. assert (h5 !! n = Some (mk (top z) c (ptr b) (ptr d))) as En5.
  { rewrite Hs5 by fresh_solver. unfold h4. rewrite lookup_insert_ne by fresh_solver.
    rewrite Hs2 by fresh_solver. unfold h1. by rewrite lookup_insert_eq. }
  rewrite (upd_parent n (top z) m c (ptr b) (ptr d)) by done. simpl.
  set (h6 := <[n := mk m c (ptr b) (ptr d)]> h5).
  assert (forall p, p <> n -> p ∉ znodes z -> h6 !! p = h4 !! p) as Hh6.
  { intros p ? ?. unfold h6. by rewrite lookup_insert_ne, Hs5. }
  exists (h6, root5). split; [done|]. split; [split|]; simpl.
  - split; [done|]. split.
    { rewrite Hh6 by fresh_solver. unfold h4. by rewrite lookup_insert_eq. }
    split; [|split; [done|]; split; [by unfold h6; rewrite lookup_insert_eq|]; split].
    + eapply rep_agree; [|exact Ha]. intros p Hp. rewrite Hh6, Hh4 by fresh_solver. done.
    + eapply rep_agree; [|exact Hb2]. intros p Hp. rewrite Hh6 by fresh_solver. unfold h4.
      by rewrite lookup_insert_ne by fresh_solver.
    + eapply rep_agree; [|exact Hd]. intros p Hp. rewrite Hh6, Hh4 by fresh_solver. done.
  - apply crep_insert; [fresh_solver|done].
  - reassoc Hnd'.
  - intros p Hp. rewrite Hh6, Hh4 by fresh_solver. done.
Qed.

(** *** Colors *)

Lemma recolor_at (s : rb_tree) (z : list frame) (c c' : color) (l r : tree) (n : Z) :
  at_pos s z (Node c l n r) ->
  exists h', fst s !! n = Some (mk (top z) c (ptr l) (ptr r)) /\ aligned (top z) /\
    h' = <[n := mk (top z) c' (ptr l) (ptr r)]> (fst s) /\
    at_pos (h', snd s) z (Node c' l n r) /\ same_outside (nodes (Node c l n r)) (fst s) h'.
Proof.
  destruct s as [h root]. intros [(Hn & En & Hl & Hr) Hc Hnd]. simpl in *.
  pose proof (crep_aligned _ _ _ _ Hc). eexists. split; [done|]. split; [done|]. split; [done|].
  pose proof Hnd as Hnd'. rewrite <- app_assoc in Hnd. nodup Hnd. split; [split|]; simpl.
  - rewrite lookup_insert_eq. split; [done|]. split; [done|]. split; apply rep_insert; fresh_solver.
  - apply crep_insert; [fresh_solver|done].
  - done.
  - apply same_outside_insert. set_solver.
Qed.

Lemma set_black_at (h : rb_heap) (root : Z) (z : list frame) (c : color) (l r : tree) (n : Z) :
  at_pos (h, root) z (Node c l n r) ->
  exists h', rb_set_black n h = Ret h' /\ at_pos (h', root) z (Node Black l n r) /\
    same_outside (nodes (Node c l n r)) h h'.
Proof.
  intros H. destruct (recolor_at _ _ _ Black _ _ _ H) as (h' & E & Ha & -> & H1 & H2).
  eexists. split; [apply (upd_black n (top z) c (ptr l) (ptr r)); done|done].
Qed.
Lemma set_red_at (h : rb_heap) (root : Z) (z : list frame) (c : color) (l r : tree) (n : Z) :
  at_pos (h, root) z (Node c l n r) ->
  exists h', rb_set_red n h = Ret h' /\ at_pos (h', root) z (Node Red l n r) /\
    same_outside (nodes (Node c l n r)) h h'.
Proof.
  intros H. destruct (recolor_at _ _ _ Red _ _ _ H) as (h' & E & Ha & -> & H1 & H2).
  eexists. split; [apply (upd_red n (top z) c (ptr l) (ptr r)); done|done].
Qed.
Lemma set_color_at (h : rb_heap) (root : Z) (z : list frame) (c c' : color) (l r : tree) (n : Z) :
  at_pos (h, root) z (Node c l n r) ->
  exists h', rb_set_color n (cz c') h = Ret h' /\ at_pos (h', root) z (Node c' l n r) /\
    same_outside (nodes (Node c l n r)) h h'.
Proof.
  intros H. destruct (recolor_at _ _ _ c' _ _ _ H) as (h' & E & Ha & -> & H1 & H2).
  eexists. split; [apply (upd_color n (top z) c c' (ptr l) (ptr r)); done|done].
Qed.

(** Reading the node in focus. *)
Lemma read_at (s : rb_tree) (z : list frame) (c : color) (l r : tree) (n : Z) :
  at_pos s z (Node c l n r) ->
  fst s !! n = Some (mk (top z) c (ptr l) (ptr r)) /\ aligned (top z) /\ n <> NULL.
Proof. intros [((? & _) & E & _) Hc _]. split_and!; [done|by eapply crep_aligned|done]. Qed.
