(* ===== verification/RbtreeInsert.v ===== *)
(** * Insertion into a red-black tree

    [rb_insert_color] on a heap that represents a tree whose new node is red: the
    loop ends within as many turns as the path to the root is long, and leaves a
    red-black tree of the same nodes in the same order. *)
From S2P Require Import Prelude Rbtree RbtreeRep.

(** ** The red-black rules *)

Definition col (t : tree) : color := match t with Leaf => Black | Node c _ _ _ => c end.

(** [rbt t k]: no red node has a red child, and every path from [t] to a leaf passes
    [k] black nodes. *)
Fixpoint rbt (t : tree) (k : nat) : Prop :=
  match t with
  | Leaf => k = O
  | Node Red l _ r => rbt l k /\ rbt r k /\ col l = Black /\ col r = Black
  | Node Black l _ r => exists k', k = S k' /\ rbt l k' /\ rbt r k'
  end.

(** A red-black tree: the root is black as well. *)
Definition rb_ok (t : tree) : Prop := col t = Black /\ exists k, rbt t k.

(** The color of the node above the hole of a path. *)
Definition pcol (z : list frame) : color := match z with [] => Black | f :: _ => fcolor f end.
Definition fsib (f : frame) : tree := match f with FL _ _ r => r | FR _ l _ => l end.

(** The path is part of a red-black tree whose hole has black height [k]. *)
Fixpoint zok (z : list frame) (k : nat) : Prop :=
  match z with
  | [] => True
  | f :: z =>
      rbt (fsib f) k /\
      match fcolor f with
      | Black => zok z (S k)
      | Red => col (fsib f) = Black /\ zok z k /\ pcol z = Black /\ z <> []
      end
  end.

(** ** Trees in the heap, changed in place *)

Definition holds (s : rb_tree) (t : tree) : Prop := at_pos s [] t.

(** From a state that holds [t] to one that holds [t'], with the same nodes in the same
    order; the other nodes of the heap are untouched. *)
Record moved (s : rb_tree) (t : tree) (s' : rb_tree) (t' : tree) : Prop := {
  mv_holds : holds s' t';
  mv_nodes : nodes t' = nodes t;
  mv_frame : same_outside (nodes t) (fst s) (fst s') }.

Lemma moved_refl (s : rb_tree) (t : tree) : holds s t -> moved s t s t.
Proof. intros H. split; [done|done|]. intros p _. done. Qed.
Lemma moved_trans (s1 s2 s3 : rb_tree) (t1 t2 t3 : tree) :
  moved s1 t1 s2 t2 -> moved s2 t2 s3 t3 -> moved s1 t1 s3 t3.
Proof.
  intros [H1 N1 F1] [H2 N2 F2]. split; [done|congruence|]. rewrite N1 in F2.
  by eapply same_outside_trans.
Qed.

Lemma at_plug (s : rb_tree) (z : list frame) (t : tree) : at_pos s z t <-> holds s (plug z t).
Proof.
  revert t. induction z as [|f z IH]; intros t; [done|]. rewrite at_up. apply IH.
Qed.
Lemma nodes_plug_eq (z : list frame) (t t' : tree) :
  nodes t = nodes t' -> nodes (plug z t) = nodes (plug z t').
Proof.
  revert t t'. induction z as [|f z IH]; intros t t' H; [done|]. simpl. apply IH.
  destruct f; simpl; by rewrite H.
Qed.

(** The nodes before and after the hole of a path, in order. *)
Fixpoint zpre (z : list frame) : list Z :=
  match z with [] => [] | FL _ _ _ :: z => zpre z | FR _ l n :: z => zpre z ++ nodes l ++ [n] end.
Fixpoint zpost (z : list frame) : list Z :=
  match z with [] => [] | FL _ n r :: z => n :: nodes r ++ zpost z | FR _ _ _ :: z => zpost z end.
Lemma nodes_plug_ord (z : list frame) (t : tree) : nodes (plug z t) = zpre z ++ nodes t ++ zpost z.
Proof.
  revert t. induction z as [|[c n r|c l n] z IH]; intros t; simpl; [by rewrite app_nil_r| |];
    rewrite IH; simpl; by rewrite <- ?app_assoc.
Qed.

(** A change at a position of the tree is a change of the tree. *)
Lemma moved_at (s s' : rb_tree) (z : list frame) (t t' : tree) (l : list Z) :
  at_pos s' z t' -> nodes t' = nodes t -> same_outside l (fst s) (fst s') ->
  l ⊆ nodes t ++ znodes z -> moved s (plug z t) s' (plug z t').
Proof.
  intros H Hn Hs Hl. split; [by apply (proj1 (at_plug _ _ _))|by apply nodes_plug_eq|].
  eapply same_outside_mono; [done|]. intros x Hx. rewrite nodes_plug. by apply Hl.
Qed.

Lemma rotate_left_moved (s : rb_tree) (z : list frame) (c c2 : color) (a b d : tree) (n m : Z) :
  holds s (plug z (Node c a n (Node c2 b m d))) ->
  exists s', __rb_rotate_left n s = Ret s' /\
    moved s (plug z (Node c a n (Node c2 b m d))) s' (plug z (Node c2 (Node c a n b) m d)).
Proof.
  rewrite <- at_plug. intros H. destruct (rotate_left_at _ _ _ _ _ _ _ _ _ H) as (s' & E & H' & F).
  exists s'. split; [done|]. eapply moved_at; [done| |exact F|done]. simpl. by rewrite <- app_assoc.
Qed.
Lemma rotate_right_moved (s : rb_tree) (z : list frame) (c c2 : color) (a b d : tree) (n m : Z) :
  holds s (plug z (Node c (Node c2 a m b) n d)) ->
  exists s', __rb_rotate_right n s = Ret s' /\
    moved s (plug z (Node c (Node c2 a m b) n d)) s' (plug z (Node c2 a m (Node c b n d))).
Proof.
  rewrite <- at_plug. intros H. destruct (rotate_right_at _ _ _ _ _ _ _ _ _ H) as (s' & E & H' & F).
  exists s'. split; [done|]. eapply moved_at; [done| |exact F|done]. simpl. by rewrite <- app_assoc.
Qed.

Lemma set_black_moved (h : rb_heap) (root : Z) (z : list frame) (c : color) (l r : tree) (n : Z) :
  holds (h, root) (plug z (Node c l n r)) ->
  exists h', rb_set_black n h = Ret h' /\
    moved (h, root) (plug z (Node c l n r)) (h', root) (plug z (Node Black l n r)).
Proof.
  rewrite <- at_plug. intros H. destruct (set_black_at _ _ _ _ _ _ _ H) as (h' & E & H' & F).
  exists h'. split; [done|]. eapply moved_at; [done|done|exact F|]. set_solver.
Qed.
Lemma set_red_moved (h : rb_heap) (root : Z) (z : list frame) (c : color) (l r : tree) (n : Z) :
  holds (h, root) (plug z (Node c l n r)) ->
  exists h', rb_set_red n h = Ret h' /\
    moved (h, root) (plug z (Node c l n r)) (h', root) (plug z (Node Red l n r)).
Proof.
  rewrite <- at_plug. intros H. destruct (set_red_at _ _ _ _ _ _ _ H) as (h' & E & H' & F).
  exists h'. split; [done|]. eapply moved_at; [done|done|exact F|]. set_solver.
Qed.
Lemma set_color_moved (h : rb_heap) (root : Z) (z : list frame) (c c' : color) (l r : tree) (n : Z) :
  holds (h, root) (plug z (Node c l n r)) ->
  exists h', rb_set_color n (cz c') h = Ret h' /\
    moved (h, root) (plug z (Node c l n r)) (h', root) (plug z (Node c' l n r)).
Proof.
  rewrite <- at_plug. intros H. destruct (set_color_at _ _ _ _ c' _ _ _ H) as (h' & E & H' & F).
  exists h'. split; [done|]. eapply moved_at; [done|done|exact F|]. set_solver.
Qed.

(** ** Reading the tree *)

Lemma read_tree (s : rb_tree) (z : list frame) (c : color) (l r : tree) (n : Z) :
  holds s (plug z (Node c l n r)) ->
  fst s !! n = Some (mk (top z) c (ptr l) (ptr r)) /\ aligned (top z) /\ n <> NULL.
Proof. rewrite <- at_plug. apply read_at. Qed.

Lemma is_red_tree (s : rb_tree) (z : list frame) (t : tree) :
  holds s (plug z t) -> red_at (ptr t) (fst s) = Ret (bool_decide (col t = Red)).
Proof.
  intros H. destruct t as [|c l n r]; [done|].
  destruct (read_tree _ _ _ _ _ _ H) as (E & Ha & Hn). unfold red_at. simpl.
  destruct (n =? NULL) eqn:En; [lia|]. rewrite E. simpl. by rewrite mk_is_red.
Qed.
Lemma is_black_tree (s : rb_tree) (z : list frame) (t : tree) :
  holds s (plug z t) -> black_at (ptr t) (fst s) = Ret (bool_decide (col t = Black)).
Proof.
  intros H. destruct t as [|c l n r]; [done|].
  destruct (read_tree _ _ _ _ _ _ H) as (E & Ha & Hn). unfold black_at. simpl.
  destruct (n =? NULL) eqn:En; [lia|]. rewrite E. simpl. by rewrite mk_is_black.
Qed.

(** The two children of a node are different, unless both are missing. *)
Lemma child_test (s : rb_tree) (z : list frame) (c : color) (l r : tree) (n : Z) :
  holds s (plug z (Node c l n r)) ->
  (l <> Leaf -> (ptr l =? ptr r) = false) /\ (r <> Leaf -> (ptr r =? ptr l) = false).
Proof.
  rewrite <- at_plug. intros [(_ & _ & Hl & Hr) _ Hnd]. nodup Hnd.
  assert (forall t, t <> Leaf -> rep (fst s) t n -> ptr t <> NULL /\ ptr t ∈ nodes t) as K.
  { intros [|? ? m ?] Ht Hrep; [done|]. simpl. destruct Hrep as ((? & _) & _). set_solver. }
  split; intros Hne; (destruct (K _ Hne ltac:(done)) as [Hp Hin]); apply Z.eqb_neq; intros E.
  - destruct r as [|? ? m ?]; [done|]. simpl in *. rewrite E in Hin. set_solver.
  - destruct l as [|? ? m ?]; [done|]. simpl in *. rewrite E in Hin. set_solver.
Qed.

(** ** The rules and paths *)

Lemma plug_rbt (z : list frame) (t : tree) (k : nat) :
  zok z k -> rbt t k -> (pcol z = Red -> col t = Black) -> exists k', rbt (plug z t) k'.
Proof.
  revert t k. induction z as [|f z IH]; intros t k Hz Ht Hc; [by exists k|].
  destruct Hz as (Hs & Hz). simpl in *. destruct (fcolor f) eqn:Ef.
  - destruct Hz as (Hcs & Hz & Hp & _). specialize (Hc eq_refl).
    apply (IH _ k); [done| |by rewrite Hp]. destruct f; simpl in *; by rewrite Ef.
  - apply (IH _ (S k)); [done| |]; destruct f; simpl in *; rewrite Ef; [by exists k..|done|done].
Qed.

Lemma rbt_plug (z : list frame) (t : tree) (k : nat) :
  rbt (plug z t) k -> col (plug z t) = Black ->
  exists k', zok z k' /\ rbt t k' /\ (pcol z = Red -> col t = Black).
Proof.
  revert t. induction z as [|f z IH]; intros t Ht Hc; [by exists k|].
  destruct (IH _ Ht Hc) as (k' & Hz & Hu & Hp). simpl in *.
  assert (col (up f t) = fcolor f) as Ecol by (by destruct f). rewrite Ecol in Hp.
  destruct (fcolor f) eqn:Ef.
  - assert (pcol z = Black) as Hpz by (destruct (pcol z); [by specialize (Hp eq_refl)|done]).
    assert (z <> []) as Hne by (intros ->; simpl in Hc; congruence).
    exists k'. destruct f; simpl in *; rewrite Ef in Hu; naive_solver.
  - destruct f; simpl in *; rewrite Ef in Hu; destruct Hu as (k2 & -> & ? & ?);
      exists k2; (split_and!; [done|done|done|done]).
Qed.

(** ** The loop *)

(** It stops below a black node, and at the root. *)
Lemma insert_loop_stop (s : rb_tree) (z : list frame) (c : color) (l r : tree) (n : Z) (fuel : nat) :
  holds s (plug z (Node c l n r)) -> pcol z = Black -> insert_loop (S fuel) n s = Ret s.
Proof.
  intros H Hp. destruct (read_tree _ _ _ _ _ _ H) as (E & Ha & _). simpl. rewrite E. simpl.
  rewrite mk_parent by done. destruct z as [|f z]; [done|]. cbn [top].
  assert (red_at (fnode f) (fst s) = Ret false) as ->; [|done].
  assert (ptr (up f (Node c l n r)) = fnode f) as <- by (by destruct f).
  rewrite (is_red_tree s z) by done. simpl in Hp.
  destruct f; simpl in *; by rewrite Hp.
Qed.

Ltac chain M1 M2 := pose proof (moved_trans _ _ _ _ _ _ M1 M2).

(** A red uncle: the three are recolored. *)
Lemma recolor_spec (h : rb_heap) (root g u : Z) (z : list frame) (f : frame) (t ul ur : tree) (side : bool) :
  let node c ft ut := if side then Node c ft g ut else Node c ut g ft in
  let up' c := up (match f with FL _ n r => FL c n r | FR _ l n => FR c l n end) in
  holds (h, root) (plug z (node (Black) (up' Red t) (Node Red ul u ur))) ->
  exists h', recolor u (fnode f) g h = Ret h' /\
    moved (h, root) (plug z (node Black (up' Red t) (Node Red ul u ur)))
          (h', root) (plug z (node Red (up' Black t) (Node Black ul u ur))).
Proof.
  intros node up' H. unfold recolor.
  assert (exists h1, rb_set_black u h = Ret h1 /\
    moved (h, root) (plug z (node Black (up' Red t) (Node Red ul u ur)))
          (h1, root) (plug z (node Black (up' Red t) (Node Black ul u ur)))) as (h1 & -> & M1).
  { destruct side.
    - exact (set_black_moved h root (FR Black (up' Red t) g :: z) Red ul ur u H).
    - exact (set_black_moved h root (FL Black g (up' Red t) :: z) Red ul ur u H). }
  assert (exists h2, rb_set_black (fnode f) h1 = Ret h2 /\
    moved (h1, root) (plug z (node Black (up' Red t) (Node Black ul u ur)))
          (h2, root) (plug z (node Black (up' Black t) (Node Black ul u ur)))) as (h2 & E2 & M2).
  { pose proof (mv_holds _ _ _ _ M1) as H1. destruct side, f as [c n r|c l n].
    - exact (set_black_moved h1 root (FL Black g (Node Black ul u ur) :: z) Red t r n H1).
    - exact (set_black_moved h1 root (FL Black g (Node Black ul u ur) :: z) Red l t n H1).
    - exact (set_black_moved h1 root (FR Black (Node Black ul u ur) g :: z) Red t r n H1).
    - exact (set_black_moved h1 root (FR Black (Node Black ul u ur) g :: z) Red l t n H1). }
  simpl. rewrite E2. simpl. pose proof (mv_holds _ _ _ _ M2) as H2.
  destruct side; destruct (set_red_moved h2 root z _ _ _ g H2) as (h3 & E3 & M3);
    exists h3; (split; [done|]; eapply moved_trans; [exact M1|eapply moved_trans; [exact M2|exact M3]]).
Qed.

Definition blacken (f : frame) : frame := match f with FL _ n r => FL Black n r | FR _ l n => FR Black l n end.
Lemma insert_left_recolor (h : rb_heap) (root g u : Z) (z : list frame) (f : frame) (t ul ur : tree) :
  fcolor f = Red -> holds (h, root) (plug z (Node Black (up f t) g (Node Red ul u ur))) ->
  exists h', insert_left (ptr t) (fnode f) g (h, root) = Ret (g, (h', root)) /\
    moved (h, root) (plug z (Node Black (up f t) g (Node Red ul u ur)))
          (h', root) (plug z (Node Red (up (blacken f) t) g (Node Black ul u ur))).
Proof.
  intros Hf H. unfold insert_left. destruct (read_tree _ _ _ _ _ _ H) as (E & _ & _).
  simpl in E. rewrite E. simpl.
  pose proof (is_red_tree (h, root) (FR Black (up f t) g :: z) (Node Red ul u ur) H) as E2.
  simpl in E2. rewrite E2. simpl.
  destruct (recolor_spec h root g u z f t ul ur true) as (h' & E3 & M).
  { destruct f; simpl in Hf; subst; exact H. }
  rewrite E3. exists h'. split; [done|]. destruct f; simpl in Hf; subst; exact M.
Qed.
Lemma insert_right_recolor (h : rb_heap) (root g u : Z) (z : list frame) (f : frame) (t ul ur : tree) :
  fcolor f = Red -> holds (h, root) (plug z (Node Black (Node Red ul u ur) g (up f t))) ->
  exists h', insert_right (ptr t) (fnode f) g (h, root) = Ret (g, (h', root)) /\
    moved (h, root) (plug z (Node Black (Node Red ul u ur) g (up f t)))
          (h', root) (plug z (Node Red (Node Black ul u ur) g (up (blacken f) t))).
Proof.
  intros Hf H. unfold insert_right. destruct (read_tree _ _ _ _ _ _ H) as (E & _ & _).
  simpl in E. rewrite E. simpl.
  pose proof (is_red_tree (h, root) (FL Black g (up f t) :: z) (Node Red ul u ur) H) as E2.
  simpl in E2. rewrite E2. simpl.
  destruct (recolor_spec h root g u z f t ul ur false) as (h' & E3 & M).
  { destruct f; simpl in Hf; subst; exact H. }
  rewrite E3. exists h'. split; [done|]. destruct f; simpl in Hf; subst; exact M.
Qed.

(** A black uncle.  The end of the branch: recolor parent and grandparent, rotate. *)
Lemma finish_left (h : rb_heap) (root p g : Z) (z : list frame) (t b U : tree) :
  holds (h, root) (plug z (Node Black (Node Red t p b) g U)) ->
  exists h1 h2 s', rb_set_black p h = Ret h1 /\ rb_set_red g h1 = Ret h2 /\
    __rb_rotate_right g (h2, root) = Ret s' /\
    moved (h, root) (plug z (Node Black (Node Red t p b) g U)) s'
          (plug z (Node Black t p (Node Red b g U))).
Proof.
  intros H.
  destruct (set_black_moved h root (FL Black g U :: z) Red t b p H) as (h1 & E1 & M1).
  pose proof (mv_holds _ _ _ _ M1) as H1. simpl in H1.
  destruct (set_red_moved h1 root z Black (Node Black t p b) U g H1) as (h2 & E2 & M2).
  destruct (rotate_right_moved (h2, root) z _ _ _ _ _ _ _ (mv_holds _ _ _ _ M2)) as (s3 & E3 & M3).
  exists h1, h2, s3. do 3 (split; [done|]). eapply moved_trans; [exact M1|]. eapply moved_trans; [exact M2|exact M3].
Qed.
Lemma finish_right (h : rb_heap) (root p g : Z) (z : list frame) (t b U : tree) :
  holds (h, root) (plug z (Node Black U g (Node Red b p t))) ->
  exists h1 h2 s', rb_set_black p h = Ret h1 /\ rb_set_red g h1 = Ret h2 /\
    __rb_rotate_left g (h2, root) = Ret s' /\
    moved (h, root) (plug z (Node Black U g (Node Red b p t))) s'
          (plug z (Node Black (Node Red U g b) p t)).
Proof.
  intros H.
  destruct (set_black_moved h root (FR Black U g :: z) Red b t p H) as (h1 & E1 & M1).
  pose proof (mv_holds _ _ _ _ M1) as H1. simpl in H1.
  destruct (set_red_moved h1 root z Black U (Node Black b p t) g H1) as (h2 & E2 & M2).
  destruct (rotate_left_moved (h2, root) z _ _ _ _ _ _ _ (mv_holds _ _ _ _ M2)) as (s3 & E3 & M3).
  exists h1, h2, s3. do 3 (split; [done|]). eapply moved_trans; [exact M1|]. eapply moved_trans; [exact M2|exact M3].
Qed.


Lemma insert_left_outer (h : rb_heap) (root n p g : Z) (z : list frame) (c : color) (l r b U : tree) :
  col U = Black -> holds (h, root) (plug z (Node Black (Node Red (Node c l n r) p b) g U)) ->
  exists s', insert_left n p g (h, root) = Ret (n, s') /\
    moved (h, root) (plug z (Node Black (Node Red (Node c l n r) p b) g U)) s'
          (plug z (Node Black (Node c l n r) p (Node Red b g U))).
Proof.
  intros HU H. unfold insert_left. destruct (read_tree _ _ _ _ _ _ H) as (E & _ & _).
  destruct (read_tree _ (FL Black g U :: z) _ _ _ _ H) as (E2 & _ & _).
  destruct (child_test _ (FL Black g U :: z) _ _ _ _ H) as [Ht _]. specialize (Ht ltac:(done)).
  simpl in *. rewrite E. simpl.
  pose proof (is_red_tree (h, root) (FR Black (Node Red (Node c l n r) p b) g :: z) U H) as E3.
  simpl in E3. rewrite E3, HU. simpl. rewrite E2. simpl. rewrite Z.eqb_sym, Ht. simpl.
  destruct (finish_left h root p g z _ _ _ H) as (h1 & h2 & s' & -> & Er & Es & M). simpl.
  rewrite Er. simpl. rewrite Es. simpl. by exists s'.
Qed.

Lemma insert_left_inner (h : rb_heap) (root n p g : Z) (z : list frame) (l r b U : tree) :
  col U = Black -> holds (h, root) (plug z (Node Black (Node Red b p (Node Red l n r)) g U)) ->
  exists s', insert_left n p g (h, root) = Ret (p, s') /\
    moved (h, root) (plug z (Node Black (Node Red b p (Node Red l n r)) g U)) s'
          (plug z (Node Black (Node Red b p l) n (Node Red r g U))).
Proof.
  intros HU H. unfold insert_left. destruct (read_tree _ _ _ _ _ _ H) as (E & _ & _).
  destruct (read_tree _ (FL Black g U :: z) _ _ _ _ H) as (E2 & _ & _).
  simpl in *. rewrite E. simpl.
  pose proof (is_red_tree (h, root) (FR Black (Node Red b p (Node Red l n r)) g :: z) U H) as E3.
  simpl in E3. rewrite E3, HU. simpl. rewrite E2. simpl. rewrite Z.eqb_refl. simpl.
  destruct (rotate_left_moved (h, root) (FL Black g U :: z) _ _ _ _ _ _ _ H) as ([h0 root0] & -> & M0).
  simpl in *. pose proof (mv_holds _ _ _ _ M0) as H0.
  destruct (finish_left h0 root0 n g z _ _ _ H0) as (h1 & h2 & s' & -> & Er & Es & M). simpl.
  rewrite Er. simpl. rewrite Es. simpl. exists s'. split; [done|]. by eapply moved_trans.
Qed.

Lemma insert_right_outer (h : rb_heap) (root n p g : Z) (z : list frame) (c : color) (l r b U : tree) :
  col U = Black -> holds (h, root) (plug z (Node Black U g (Node Red b p (Node c l n r)))) ->
  exists s', insert_right n p g (h, root) = Ret (n, s') /\
    moved (h, root) (plug z (Node Black U g (Node Red b p (Node c l n r)))) s'
          (plug z (Node Black (Node Red U g b) p (Node c l n r))).
Proof.
  intros HU H. unfold insert_right. destruct (read_tree _ _ _ _ _ _ H) as (E & _ & _).
  destruct (read_tree _ (FR Black U g :: z) _ _ _ _ H) as (E2 & _ & _).
  destruct (child_test _ (FR Black U g :: z) _ _ _ _ H) as [_ Ht]. specialize (Ht ltac:(done)).
  simpl in *. rewrite E. simpl.
  pose proof (is_red_tree (h, root) (FL Black g (Node Red b p (Node c l n r)) :: z) U H) as E3.
  simpl in E3. rewrite E3, HU. simpl. rewrite E2. simpl. rewrite Z.eqb_sym, Ht. simpl.
  destruct (finish_right h root p g z _ _ _ H) as (h1 & h2 & s' & -> & Er & Es & M). simpl.
  rewrite Er. simpl. rewrite Es. simpl. by exists s'.
Qed.

Lemma insert_right_inner (h : rb_heap) (root n p g : Z) (z : list frame) (l r b U : tree) :
  col U = Black -> holds (h, root) (plug z (Node Black U g (Node Red (Node Red l n r) p b))) ->
  exists s', insert_right n p g (h, root) = Ret (p, s') /\
    moved (h, root) (plug z (Node Black U g (Node Red (Node Red l n r) p b))) s'
          (plug z (Node Black (Node Red U g l) n (Node Red r p b))).
Proof.
  intros HU H. unfold insert_right. destruct (read_tree _ _ _ _ _ _ H) as (E & _ & _).
  destruct (read_tree _ (FR Black U g :: z) _ _ _ _ H) as (E2 & _ & _).
  simpl in *. rewrite E. simpl.
  pose proof (is_red_tree (h, root) (FL Black g (Node Red (Node Red l n r) p b) :: z) U H) as E3.
  simpl in E3. rewrite E3, HU. simpl. rewrite E2. simpl. rewrite Z.eqb_refl. simpl.
  destruct (rotate_right_moved (h, root) (FR Black U g :: z) _ _ _ _ _ _ _ H) as ([h0 root0] & -> & M0).
  simpl in *. pose proof (mv_holds _ _ _ _ M0) as H0.
  destruct (finish_right h0 root0 n g z _ _ _ H0) as (h1 & h2 & s' & -> & Er & Es & M). simpl.
  rewrite Er. simpl. rewrite Es. simpl. exists s'. split; [done|]. by eapply moved_trans.
Qed.

(** One turn below a red parent. *)
Lemma insert_loop_turn (s : rb_tree) (f1 f2 : frame) (z : list frame) (c : color) (l r : tree)
    (n : Z) (fuel : nat) :
  holds s (plug (f1 :: f2 :: z) (Node c l n r)) -> fcolor f1 = Red ->
  insert_loop (S fuel) n s =
  let! (node, t) := (match f2 with FL _ _ _ => insert_left | FR _ _ _ => insert_right end)
                      n (fnode f1) (fnode f2) s in
  insert_loop fuel node t.
Proof.
  intros H Hf. destruct (read_tree _ (f1 :: f2 :: z) _ _ _ _ H) as (E & Ha & _).
  assert (exists cl cr, up f1 (Node c l n r) = Node Red cl (fnode f1) cr /\ True) as (cl & cr & Eu & _).
  { destruct f1; simpl in *; subst; eauto. }
  assert (holds s (plug (f2 :: z) (Node Red cl (fnode f1) cr))) as H1 by (rewrite <- Eu; exact H).
  destruct (read_tree _ (f2 :: z) _ _ _ _ H1) as (E1 & Ha1 & _).
  pose proof (is_red_tree s (f2 :: z) _ H1) as E2. simpl in Ha, Ha1, E2. cbn [insert_loop].
  rewrite E. simpl. rewrite mk_parent by done. rewrite E2. simpl. rewrite E1. simpl.
  rewrite mk_parent by done. destruct f2 as [c2 g U|c2 U g]; simpl in *;
    destruct (read_tree s z _ _ _ _ H1) as (Eg & _ & _);
    destruct (child_test s z _ _ _ _ H1) as [T1 T2]; rewrite Eg; simpl.
  - by rewrite Z.eqb_refl.
  - specialize (T2 ltac:(done)). simpl in T2. by rewrite T2.
Qed.

(** What the loop promises for a red node [n] that may have a red parent. *)
Definition insert_done (fuel : nat) (n : Z) (s : rb_tree) (t : tree) : Prop :=
  exists s' t' k, insert_loop fuel n s = Ret s' /\ moved s t s' t' /\ rbt t' k /\ t' <> Leaf.

Lemma plug_not_leaf (z : list frame) (c : color) (l r : tree) (n : Z) : plug z (Node c l n r) <> Leaf.
Proof. revert c l n r. induction z as [|[] z IH]; intros; simpl; [done|apply IH..]. Qed.

Lemma insert_stop_done (fuel : nat) (z : list frame) (c : color) (l r : tree) (n : Z) (k : nat)
    (s0 s : rb_tree) (t0 : tree) (node : Z) (c' : color) (l' r' : tree) (z' : list frame) :
  moved s0 t0 s (plug z (Node c l n r)) -> zok z k -> rbt (Node c l n r) k ->
  (pcol z = Red -> c = Black) ->
  plug z (Node c l n r) = plug z' (Node c' l' node r') -> pcol z' = Black ->
  exists s' t' k', insert_loop (S fuel) node s = Ret s' /\ moved s0 t0 s' t' /\ rbt t' k' /\ t' <> Leaf.
Proof.
  intros M Hz Hr Hc Ez Hp. destruct (plug_rbt z _ k Hz Hr Hc) as [k' Hk'].
  exists s, (plug z (Node c l n r)), k'.
  split_and!; [|done|done|apply plug_not_leaf].
  eapply insert_loop_stop; [|exact Hp]. rewrite <- Ez. apply (mv_holds _ _ _ _ M).
Qed.

(** Below a black uncle: one rotation or two, and the loop stops. *)
Lemma insert_rotations (fuel : nat) (z : list frame) (f1 f2 : frame) (l r : tree) (n : Z) (k : nat)
    (h : rb_heap) (root : Z) :
  holds (h, root) (plug (f1 :: f2 :: z) (Node Red l n r)) -> rbt (Node Red l n r) k ->
  fcolor f1 = Red -> fcolor f2 = Black -> rbt (fsib f1) k -> rbt (fsib f2) k ->
  col (fsib f1) = Black -> col (fsib f2) = Black -> zok z (S k) ->
  exists s' t' k',
    (let! (node, t) := (match f2 with FL _ _ _ => insert_left | FR _ _ _ => insert_right end)
                         n (fnode f1) (fnode f2) (h, root) in
     insert_loop (S fuel) node t) = Ret s' /\
    moved (h, root) (plug (f1 :: f2 :: z) (Node Red l n r)) s' t' /\ rbt t' k' /\ t' <> Leaf.
Proof.
  intros H Hr Hp Hp2 Hs1 Hs2 Hb1 Hu Hz.
  destruct Hr as (Hl & Hrr & Hcl & Hcr).
  destruct f1 as [c1 p b|c1 b p], f2 as [c2 g U|c2 U g]; simpl in *; subst c1 c2.
  + destruct (insert_left_outer h root n p g z Red l r b U Hu H) as (s' & -> & M). cbn [res_bind].
    eapply (insert_stop_done fuel z _ _ _ _ (S k) _ _ _ _ _ _ _ (FL Black p _ :: z) M); try done.
    exists k. naive_solver.
  + destruct (insert_right_inner h root n p g z l r b U Hu H) as (s' & -> & M). cbn [res_bind].
    eapply (insert_stop_done fuel z _ _ _ _ (S k) _ _ _ _ _ _ _ (FR Black _ n :: z) M); try done.
    exists k. naive_solver.
  + destruct (insert_left_inner h root n p g z l r b U Hu H) as (s' & -> & M). cbn [res_bind].
    eapply (insert_stop_done fuel z _ _ _ _ (S k) _ _ _ _ _ _ _ (FL Black n _ :: z) M); try done.
    exists k. naive_solver.
  + destruct (insert_right_outer h root n p g z Red l r b U Hu H) as (s' & -> & M). cbn [res_bind].
    eapply (insert_stop_done fuel z _ _ _ _ (S k) _ _ _ _ _ _ _ (FR Black _ p :: z) M); try done.
    exists k. naive_solver.
Qed.

Lemma insert_loop_spec (fuel : nat) (z : list frame) (l r : tree) (n : Z) (k : nat) (s : rb_tree) :
  holds s (plug z (Node Red l n r)) -> rbt (Node Red l n r) k -> zok z k -> (length z < fuel)%nat ->
  insert_done fuel n s (plug z (Node Red l n r)).
Proof.
  revert z l r n k s. induction (lt_wf fuel) as [fuel _ IH]. intros z l r n k s H Hr Hz Hfuel.
  destruct fuel as [|fuel]; [lia|]. destruct (pcol z) eqn:Hp.
  2: { eapply (insert_stop_done fuel z Red l r n k s s); eauto using moved_refl. congruence. }
  destruct z as [|f1 [|f2 z]]; [done|simpl in *; rewrite Hp in Hz; naive_solver|].
  simpl in Hp, Hz. rewrite Hp in Hz. destruct Hz as (Hs1 & Hb1 & (Hs2 & Hz) & Hp2 & _).
  rewrite Hp2 in Hz. unfold insert_done.
  rewrite (insert_loop_turn s f1 f2 z Red l r n fuel H Hp). destruct s as [h root].
  assert (rbt (up (blacken f1) (Node Red l n r)) (S k)) as Hup.
  { destruct f1; simpl in *; exists k; naive_solver. }
  simpl in Hfuel. destruct (col (fsib f2)) eqn:Hu.
  - (* red uncle *)
    destruct f2 as [c2 g U|c2 U g]; simpl in Hp2, Hu, Hs2; subst c2;
      (destruct U as [|c2 ul u ur]; [done|]); simpl in Hu; subst c2.
    + destruct (insert_left_recolor h root g u z f1 (Node Red l n r) ul ur Hp H) as (h' & E & M).
      simpl in E. cbn [fnode]. rewrite E. cbn [res_bind].
      destruct (IH fuel ltac:(lia) z _ _ g (S k) (h', root) (mv_holds _ _ _ _ M))
        as (s' & t' & k' & E' & M' & Hk); [|done|lia|].
      { simpl in *. split_and!; try done; [exists k; naive_solver|by destruct f1]. }
      exists s', t', k'. split; [done|]. split; [by eapply moved_trans|done].
    + destruct (insert_right_recolor h root g u z f1 (Node Red l n r) ul ur Hp H) as (h' & E & M).
      simpl in E. cbn [fnode]. rewrite E. cbn [res_bind].
      destruct (IH fuel ltac:(lia) z _ _ g (S k) (h', root) (mv_holds _ _ _ _ M))
        as (s' & t' & k' & E' & M' & Hk); [|done|lia|].
      { simpl in *. split_and!; try done; [exists k; naive_solver|by destruct f1]. }
      exists s', t', k'. split; [done|]. split; [by eapply moved_trans|done].
  - (* black uncle: one rotation or two, and the loop stops *)
    destruct fuel as [|fuel]; [lia|]. by apply (insert_rotations fuel z f1 f2 l r n k).
Qed.

(** ** [rb_insert_color] *)

(** The link that the hole of a path stands for. *)
Definition link_of (z : list frame) : rb_link :=
  match z with [] => LinkRoot | FL _ n _ :: _ => LinkLeft n | FR _ _ n :: _ => LinkRight n end.

(** [rb_link_node]: a red node without children in the hole. *)
Lemma link_node_spec (s : rb_tree) (z : list frame) (n : Z) :
  holds s (plug z Leaf) -> ok_ptr n -> n ∉ nodes (plug z Leaf) ->
  exists s', rb_link_node n (top z) (link_of z) s = Ret s' /\
    holds s' (plug z (Node Red Leaf n Leaf)) /\
    same_outside (n :: nodes (plug z Leaf)) (fst s) (fst s').
Proof.
  rewrite nodes_plug. simpl. rewrite <- at_plug. intros [_ Hc Hnd] Hn Hin. destruct s as [h root].
  simpl in *. assert (mk (top z) Red NULL NULL = Rb_node (top z) NULL NULL) as Emk.
  { unfold mk, cz, RB_RED. f_equal. lia. }
  unfold rb_link_node. rewrite <- Emk. simpl.
  set (h1 := <[n := mk (top z) Red NULL NULL]> h).
  assert (crep h1 root z NULL) as Hc1 by (by apply crep_insert).
  assert (h1 !! n = Some (mk (top z) Red NULL NULL)) as En by (by unfold h1; rewrite lookup_insert_eq).
  assert (exists h' root', store_link (link_of z) n (h1, root) = Ret (h', root') /\
            crep h' root' z n /\ same_outside (znodes z) h1 h') as (h' & root' & E & Hc' & Hs').
  { clear Emk Hc En. destruct z as [|f z]; simpl in *; [by exists h1, n|].
    unfold znodes in Hnd, Hin. simpl in Hnd, Hin. pose proof Hnd as Hnd'. 
    destruct f as [c m t|c t m]; destruct Hc1 as (Hm & Em & Ht & Hz); simpl in *; nodup Hnd.
    - rewrite (upd_left _ _ _ _ _ _ _ Em). simpl. eexists _, root. split; [done|]. split.
      + split; [done|]. rewrite lookup_insert_eq. split; [done|].
        split; [apply rep_insert; [fresh_solver|done]|apply crep_insert; [fresh_solver|done]].
      + apply same_outside_insert. unfold znodes. set_solver.
    - rewrite (upd_right _ _ _ _ _ _ _ Em). simpl. eexists _, root. split; [done|]. split.
      + split; [done|]. rewrite lookup_insert_eq. split; [done|].
        split; [apply rep_insert; [fresh_solver|done]|apply crep_insert; [fresh_solver|done]].
      + apply same_outside_insert. unfold znodes. set_solver. }
  exists (h', root'). split; [done|]. split.
  - rewrite <- at_plug. split; simpl; [|done|by apply NoDup_cons].
    split; [done|]. split; [by rewrite Hs'|done].
  - intros p Hp. simpl. apply not_elem_of_cons in Hp as [? Hp].
    rewrite nodes_plug in Hp. simpl in Hp. rewrite Hs' by done.
    by apply lookup_insert_ne.
Qed.

(** The last statement: the root becomes black. *)
Lemma black_root_spec (h : rb_heap) (root : Z) (t : tree) (k : nat) :
  holds (h, root) t -> rbt t k -> t <> Leaf ->
  exists h' t', rb_set_black root h = Ret h' /\ moved (h, root) t (h', root) t' /\ rb_ok t'.
Proof.
  intros H Hk Hne. destruct t as [|c l n r]; [done|].
  assert (root = n) as -> by apply (at_crep _ _ _ H).
  destruct (set_black_moved h n [] c l r n H) as (h' & E & M). exists h', (Node Black l n r).
  split; [done|]. split; [done|]. split; [done|]. destruct c; simpl in Hk.
  - exists (S k). exists k. naive_solver.
  - by exists k.
Qed.

(** ** Height *)

Fixpoint height (t : tree) : nat :=
  match t with Leaf => O | Node _ l _ r => S (Nat.max (height l) (height r)) end.

Lemma rbt_height (t : tree) (k : nat) :
  rbt t k -> (height t <= 2 * k + (if decide (col t = Red) then 1 else 0))%nat /\
             (2 ^ k <= S (length (nodes t)))%nat.
Proof.
  revert k. induction t as [|c l IHl n r IHr]; intros k H; simpl in *; [subst; simpl; lia|].
  rewrite length_app. simpl. destruct c; simpl.
  - destruct H as (Hl & Hr & Cl & Cr). destruct (IHl _ Hl) as [H1 L1], (IHr _ Hr) as [H2 L2].
    rewrite Cl in H1. rewrite Cr in H2. simpl in *. lia.
  - destruct H as (k' & -> & Hl & Hr). destruct (IHl _ Hl) as [H1 L1], (IHr _ Hr) as [H2 L2].
    simpl. repeat case_decide; lia.
Qed.

Lemma path_height (z : list frame) (t : tree) : (length z + height t <= height (plug z t))%nat.
Proof.
  revert t. induction z as [|f z IH]; intros t; simpl; [lia|].
  specialize (IH (up f t)). destruct f; simpl in *; lia.
Qed.

(** Fuel: twice the binary logarithm of the number of nodes, and one turn more. *)
Definition rb_fuel (n : nat) : nat := (2 * Nat.log2 (S n) + 2)%nat.

Lemma rb_ok_height (t : tree) : rb_ok t -> (height t <= 2 * Nat.log2 (S (length (nodes t))))%nat.
Proof.
  intros [Hc [k Hk]]. destruct (rbt_height t k Hk) as [Hh Hn]. rewrite Hc in Hh. simpl in Hh.
  apply Nat.log2_le_pow2 in Hn; lia.
Qed.

Definition rb_insert (fuel : nat) (node parent : Z) (link : rb_link) (s : rb_tree) : res rb_tree :=
  let! s := rb_link_node node parent link s in rb_insert_color fuel node s.

Lemma rb_insert_spec (s : rb_tree) (z : list frame) (n : Z) (fuel : nat) :
  holds s (plug z Leaf) -> rb_ok (plug z Leaf) -> ok_ptr n -> n ∉ nodes (plug z Leaf) ->
  (rb_fuel (length (nodes (plug z Leaf))) <= fuel)%nat ->
  exists s' t', rb_insert fuel n (top z) (link_of z) s = Ret s' /\ holds s' t' /\ rb_ok t' /\
    nodes t' = nodes (plug z (Node Red Leaf n Leaf)) /\
    same_outside (n :: nodes (plug z Leaf)) (fst s) (fst s').
Proof.
  intros H Hok Hn Hin Hfuel. unfold rb_insert, rb_insert_color.
  destruct (link_node_spec s z n H Hn Hin) as (s1 & -> & H1 & F1). cbn [res_bind].
  pose proof (rb_ok_height _ Hok). pose proof (path_height z Leaf). unfold rb_fuel in Hfuel.
  destruct Hok as [Hb [k Hk]]. destruct (rbt_plug z Leaf k Hk Hb) as (k' & Hz & Hl & _).
  simpl in Hl. subst k'.
  destruct (insert_loop_spec fuel z Leaf Leaf n O s1 H1) as ([h2 root2] & t2 & k2 & -> & M2 & Hk2 & Hne);
    [done|done|lia|]. cbn [res_bind].
  destruct (black_root_spec h2 root2 t2 k2 (mv_holds _ _ _ _ M2) Hk2 Hne) as (h3 & t3 & -> & M3 & Hok3).
  cbn [res_bind]. pose proof (moved_trans _ _ _ _ _ _ M2 M3) as [H3 N3 F3].
  exists (h3, root2), t3. split_and!; try done; [apply Hok3..|].
  eapply same_outside_trans; [exact F1|]. eapply same_outside_mono; [exact F3|].
  intros x. rewrite !nodes_plug. simpl. set_solver.
Qed.

(** C14: inserting a node into a red-black tree (rb_link_node at an empty link, then
    rb_insert_color) ends within 2 log2(n+1) + 2 turns of the loop, without dereferencing
    a pointer outside the tree.  The result is a red-black tree that has the old nodes and
    the new one in the order of the links, its height is at most 2 log2(n+2), and no other
    node of the heap is touched. *)
Theorem rb_insert_correct (s : rb_tree) (z : list frame) (n : Z) (fuel : nat) :
  holds s (plug z Leaf) -> rb_ok (plug z Leaf) -> ok_ptr n -> n ∉ nodes (plug z Leaf) ->
  (rb_fuel (length (nodes (plug z Leaf))) <= fuel)%nat ->
  exists s' t',
    (let! s := rb_link_node n (top z) (link_of z) s in rb_insert_color fuel n s) = Ret s' /\
    holds s' t' /\ rb_ok t' /\
    (exists before after, nodes (plug z Leaf) = before ++ after /\
                          nodes t' = before ++ n :: after) /\
    (height t' <= 2 * Nat.log2 (S (S (length (nodes (plug z Leaf))))))%nat /\
    same_outside (n :: nodes (plug z Leaf)) (fst s) (fst s').
Proof.
  intros H Hok Hn Hin Hfuel.
  destruct (rb_insert_spec s z n fuel H Hok Hn Hin Hfuel) as (s' & t' & E & H' & Hok' & N & F).
  exists s', t'. split; [exact E|]. split; [done|]. split; [done|]. split; [|split; [|done]].
  - exists (zpre z), (zpost z). rewrite N, !nodes_plug_ord. done.
  - pose proof (rb_ok_height t' Hok') as Hh. rewrite N in Hh.
    assert (length (nodes (plug z (Node Red Leaf n Leaf))) = S (length (nodes (plug z Leaf)))) as <-; [|done].
    by rewrite !nodes_plug.
Qed.

Module RbInsertDemo.

(** Two nodes, and a third one that goes to the right of the second. *)
Definition two : rb_tree := ({[ 8 := mk 0 Black 0 16; 16 := mk 8 Red 0 0 ]}, 8).
Definition path : list frame := [FR Red Leaf 16; FR Black Leaf 8].

Lemma two_holds : holds two (plug path Leaf).
Proof.
  split; simpl; [|done|repeat constructor; set_solver].
  unfold ok_ptr, aligned, NULL. split_and!; try done; lia.
Qed.

Lemma rb_insert_correct_witness : exists s' t',
  (let! s := rb_link_node 24 16 (LinkRight 16) two in rb_insert_color 6 24 s) = Ret s' /\
  holds s' t' /\ rb_ok t' /\
  (exists before after, [8; 16] = before ++ after /\ nodes t' = before ++ 24 :: after) /\
  (height t' <= 4)%nat /\ same_outside [24; 8; 16] (fst two) (fst s').
Proof.
  apply (rb_insert_correct two path 24 6 two_holds).
  - split; [done|]. exists 1%nat. simpl. exists O. done.
  - done.
  - simpl. set_solver.
  - vm_compute. lia.
Defined.

End RbInsertDemo.
