(* ===== verification/RbtreeErase.v ===== *)
(** * Removal from a red-black tree

    [rb_erase]: the node, or its successor in its place, is unlinked; when a black node
    went, [__rb_erase_color] makes up for it.  The loop ends within as many turns as the
    path to the root is long, and leaves a red-black tree of the remaining nodes in order. *)
From S2P Require Import Prelude Rbtree RbtreeRep RbtreeInsert.

Arguments erase_left_sibling : simpl never.
Arguments erase_right_sibling : simpl never.
Arguments erase_left_rotate : simpl never.
Arguments erase_right_rotate : simpl never.

(** ** The cases of the loop *)

(** *** A node that is a left child *)

Lemma erase_left_rotate_spec (h : rb_heap) (root p w x : Z) (z : list frame) (cp c2 c3 : color)
    (t wl a b : tree) :
  holds (h, root) (plug z (Node cp t p (Node c2 wl w (Node c3 a x b)))) ->
  exists s', erase_left_rotate p w (h, root) = Ret s' /\
    moved (h, root) (plug z (Node cp t p (Node c2 wl w (Node c3 a x b)))) s' (plug z (Node cp (Node Black t p wl) w (Node Black a x b))).
Proof.
  intros H. unfold erase_left_rotate. destruct (read_tree _ _ _ _ _ _ H) as (E & Ha & _).
  simpl in E. rewrite E. cbn [deref res_bind]. rewrite mk_color by done.
  destruct (set_color_moved h root (FR cp t p :: z) c2 cp wl _ w H) as (h1 & E1 & M).
  rewrite E1. cbn [res_bind]. simpl in M.
  destruct (set_black_moved h1 root z cp _ _ p (mv_holds _ _ _ _ M)) as (h2 & E2 & M2).
  rewrite E2. cbn [res_bind]. eapply moved_trans in M2; [|exact M]. clear M. rename M2 into M.
  destruct (read_tree _ (FR Black t p :: z) _ _ _ _ (mv_holds _ _ _ _ M)) as (E3 & _ & _).
  simpl in E3. rewrite E3. cbn [deref res_bind rb_right mk ptr].
  destruct (set_black_moved h2 root (FR cp wl w :: FR Black t p :: z) c3 _ _ x
              (mv_holds _ _ _ _ M)) as (h4 & E4 & M4).
  rewrite E4. cbn [res_bind]. eapply moved_trans in M4; [|exact M]. clear M. rename M4 into M. simpl in M.
  destruct (rotate_left_moved (h4, root) z _ _ _ _ _ _ _ (mv_holds _ _ _ _ M)) as (s' & E5 & M5).
  exists s'. split; [done|]. by eapply moved_trans.
Qed.

Lemma erase_left_sibling_red (h : rb_heap) (root p w : Z) (z : list frame) (cp : color) (t wl wr : tree) :
  holds (h, root) (plug z (Node cp t p (Node Red wl w wr))) ->
  exists s', erase_left_sibling p (h, root) = Ret (ptr wl, s') /\
    moved (h, root) (plug z (Node cp t p (Node Red wl w wr))) s' (plug z (Node Black (Node Red t p wl) w wr)).
Proof.
  intros H. unfold erase_left_sibling. destruct (read_tree _ _ _ _ _ _ H) as (E & _ & _).
  simpl in E. rewrite E. cbn [deref res_bind rb_right mk ptr].
  destruct (read_tree _ (FR cp t p :: z) _ _ _ _ H) as (E2 & Ha & _).
  simpl in E2. rewrite E2. cbn [deref res_bind]. rewrite mk_is_red by done. cbn [bool_decide decide decide_rel color_eq_dec].
  destruct (set_black_moved h root (FR cp t p :: z) Red _ _ w H) as (h1 & E1 & M).
  simpl. rewrite E1. cbn [res_bind]. simpl in M.
  destruct (set_red_moved h1 root z cp _ _ p (mv_holds _ _ _ _ M)) as (h2 & E3 & M2).
  rewrite E3. cbn [res_bind]. eapply moved_trans in M2; [|exact M]. clear M. rename M2 into M.
  destruct (rotate_left_moved (h2, root) z _ _ _ _ _ _ _ (mv_holds _ _ _ _ M)) as ([h4 root4] & E5 & M5).
  rewrite E5. cbn [res_bind]. eapply moved_trans in M5; [|exact M]. clear M. rename M5 into M.
  destruct (read_tree _ (FL Black w wr :: z) _ _ _ _ (mv_holds _ _ _ _ M)) as (E6 & _ & _).
  simpl in E6. rewrite E6. by exists (h4, root4).
Qed.

Lemma erase_left_sibling_black (h : rb_heap) (root p w : Z) (z : list frame) (cp : color) (t wl wr : tree) :
  holds (h, root) (plug z (Node cp t p (Node Black wl w wr))) ->
  erase_left_sibling p (h, root) = Ret (w, (h, root)).
Proof.
  intros H. unfold erase_left_sibling. destruct (read_tree _ _ _ _ _ _ H) as (E & _ & _).
  simpl in E. rewrite E. cbn [deref res_bind rb_right mk ptr].
  destruct (read_tree _ (FR cp t p :: z) _ _ _ _ H) as (E2 & Ha & _).
  simpl in E2. rewrite E2. cbn [deref res_bind]. by rewrite mk_is_red.
Qed.

Lemma erase_left_push (s : rb_tree) (h : rb_heap) (root p w : Z) (z : list frame) (cp : color)
    (t wl wr : tree) :
  erase_left_sibling p s = Ret (w, (h, root)) -> col wl = Black -> col wr = Black ->
  holds (h, root) (plug z (Node cp t p (Node Black wl w wr))) ->
  exists s', erase_left p s = Ret (inl (p, top z), s') /\
    moved (h, root) (plug z (Node cp t p (Node Black wl w wr))) s' (plug z (Node cp t p (Node Red wl w wr))).
Proof.
  intros Es Hl Hr H. unfold erase_left. rewrite Es. cbn [res_bind].
  destruct (read_tree _ (FR cp t p :: z) _ _ _ _ H) as (Ew & _ & _).
  pose proof (is_black_tree _ (FL Black w wr :: FR cp t p :: z) _ H) as El.
  pose proof (is_black_tree _ (FR Black wl w :: FR cp t p :: z) _ H) as Er.
  simpl in Ew, El, Er. rewrite Ew. cbn [deref res_bind rb_left rb_right mk ptr] in *.
  rewrite El. cbn [res_bind]. rewrite Er. cbn [res_bind].
  rewrite Hl, Hr. simpl.
  destruct (set_red_moved h root (FR cp t p :: z) Black _ _ w H) as (h1 & E1 & M).
  rewrite E1. cbn [res_bind]. simpl in M.
  destruct (read_tree _ z _ _ _ _ (mv_holds _ _ _ _ M)) as (E2 & Ha & _). simpl in E2.
  rewrite E2. cbn [deref res_bind]. rewrite mk_parent by done. by exists (h1, root).
Qed.

Lemma erase_left_outer (s : rb_tree) (h : rb_heap) (root p w x : Z) (z : list frame) (cp : color)
    (t wl a b : tree) :
  erase_left_sibling p s = Ret (w, (h, root)) ->
  holds (h, root) (plug z (Node cp t p (Node Black wl w (Node Red a x b)))) ->
  exists s', erase_left p s = Ret (inr (snd s'), s') /\
    moved (h, root) (plug z (Node cp t p (Node Black wl w (Node Red a x b)))) s' (plug z (Node cp (Node Black t p wl) w (Node Black a x b))).
Proof.
  intros Es H. unfold erase_left. rewrite Es. cbn [res_bind].
  destruct (read_tree _ (FR cp t p :: z) _ _ _ _ H) as (Ew & _ & _).
  pose proof (is_black_tree _ (FL Black w (Node Red a x b) :: FR cp t p :: z) _ H) as El.
  pose proof (is_black_tree _ (FR Black wl w :: FR cp t p :: z) _ H) as Er.
  simpl in Ew, El, Er. rewrite Ew. cbn [deref res_bind rb_left rb_right mk ptr] in *.
  rewrite El. cbn [res_bind]. rewrite Er. cbn [res_bind].
  rewrite ?andb_false_r. cbn -[erase_left_rotate].
  destruct (erase_left_rotate_spec h root p w x z cp Black Red t wl a b H) as ([h1 root1] & -> & M).
  cbn [res_bind]. by exists (h1, root1).
Qed.

Lemma erase_left_inner (s : rb_tree) (h : rb_heap) (root p w x : Z) (z : list frame) (cp : color)
    (t a b wr : tree) :
  erase_left_sibling p s = Ret (w, (h, root)) -> col wr = Black ->
  holds (h, root) (plug z (Node cp t p (Node Black (Node Red a x b) w wr))) ->
  exists s', erase_left p s = Ret (inr (snd s'), s') /\
    moved (h, root) (plug z (Node cp t p (Node Black (Node Red a x b) w wr))) s' (plug z (Node cp (Node Black t p a) x (Node Black b w wr))).
Proof.
  intros Es Hr H. unfold erase_left. rewrite Es. cbn [res_bind].
  destruct (read_tree _ (FR cp t p :: z) _ _ _ _ H) as (Ew & _ & _).
  pose proof (is_black_tree _ (FL Black w wr :: FR cp t p :: z) _ H) as El.
  pose proof (is_black_tree _ (FR Black (Node Red a x b) w :: FR cp t p :: z) _ H) as Er.
  simpl in Ew, El, Er. rewrite Ew. cbn [deref res_bind rb_left rb_right mk ptr] in *.
  rewrite El. cbn [res_bind]. rewrite Er. cbn [res_bind].
  rewrite Hr. simpl.
  destruct (set_black_moved h root (FL Black w wr :: FR cp t p :: z) Red _ _ x H)
    as (h1 & E1 & M). rewrite E1. cbn [res_bind]. simpl in M.
  destruct (set_red_moved h1 root (FR cp t p :: z) Black _ _ w (mv_holds _ _ _ _ M)) as (h2 & E2 & M2).
  rewrite E2. cbn [res_bind]. eapply moved_trans in M2; [|exact M]. clear M. rename M2 into M. simpl in M.
  destruct (rotate_right_moved (h2, root) (FR cp t p :: z) _ _ _ _ _ _ _ (mv_holds _ _ _ _ M))
    as ([h3 root3] & E3 & M3).
  rewrite E3. cbn [res_bind]. eapply moved_trans in M3; [|exact M]. clear M. rename M3 into M. simpl in M.
  destruct (read_tree _ z _ _ _ _ (mv_holds _ _ _ _ M)) as (E4 & _ & _). simpl in E4. rewrite E4.
  cbn [deref res_bind rb_right mk ptr].
  destruct (erase_left_rotate_spec h3 root3 p x w z cp Black Red t a b wr (mv_holds _ _ _ _ M))
    as ([h4 root4] & -> & M4).
  cbn [res_bind]. exists (h4, root4). split; [done|]. by eapply moved_trans.
Qed.

(** *** A node that is a right child *)

Lemma erase_right_rotate_spec (h : rb_heap) (root p w x : Z) (z : list frame) (cp c2 c3 : color)
    (t wl a b : tree) :
  holds (h, root) (plug z (Node cp (Node c2 (Node c3 b x a) w wl) p t)) ->
  exists s', erase_right_rotate p w (h, root) = Ret s' /\
    moved (h, root) (plug z (Node cp (Node c2 (Node c3 b x a) w wl) p t)) s' (plug z (Node cp (Node Black b x a) w (Node Black wl p t))).
Proof.
  intros H. unfold erase_right_rotate. destruct (read_tree _ _ _ _ _ _ H) as (E & Ha & _).
  simpl in E. rewrite E. cbn [deref res_bind]. rewrite mk_color by done.
  destruct (set_color_moved h root (FL cp p t :: z) c2 cp _ wl w H) as (h1 & E1 & M).
  rewrite E1. cbn [res_bind]. simpl in M.
  destruct (set_black_moved h1 root z cp _ _ p (mv_holds _ _ _ _ M)) as (h2 & E2 & M2).
  rewrite E2. cbn [res_bind]. eapply moved_trans in M2; [|exact M]. clear M. rename M2 into M.
  destruct (read_tree _ (FL Black p t :: z) _ _ _ _ (mv_holds _ _ _ _ M)) as (E3 & _ & _).
  simpl in E3. rewrite E3. cbn [deref res_bind rb_left mk ptr].
  destruct (set_black_moved h2 root (FL cp w wl :: FL Black p t :: z) c3 _ _ x
              (mv_holds _ _ _ _ M)) as (h4 & E4 & M4).
  rewrite E4. cbn [res_bind]. eapply moved_trans in M4; [|exact M]. clear M. rename M4 into M. simpl in M.
  destruct (rotate_right_moved (h4, root) z _ _ _ _ _ _ _ (mv_holds _ _ _ _ M)) as (s' & E5 & M5).
  exists s'. split; [done|]. by eapply moved_trans.
Qed.

Lemma erase_right_sibling_red (h : rb_heap) (root p w : Z) (z : list frame) (cp : color) (t wl wr : tree) :
  holds (h, root) (plug z (Node cp (Node Red wr w wl) p t)) ->
  exists s', erase_right_sibling p (h, root) = Ret (ptr wl, s') /\
    moved (h, root) (plug z (Node cp (Node Red wr w wl) p t)) s' (plug z (Node Black wr w (Node Red wl p t))).
Proof.
  intros H. unfold erase_right_sibling. destruct (read_tree _ _ _ _ _ _ H) as (E & _ & _).
  simpl in E. rewrite E. cbn [deref res_bind rb_left mk ptr].
  destruct (read_tree _ (FL cp p t :: z) _ _ _ _ H) as (E2 & Ha & _).
  simpl in E2. rewrite E2. cbn [deref res_bind]. rewrite mk_is_red by done. cbn [bool_decide decide decide_rel color_eq_dec].
  destruct (set_black_moved h root (FL cp p t :: z) Red _ _ w H) as (h1 & E1 & M).
  simpl. rewrite E1. cbn [res_bind]. simpl in M.
  destruct (set_red_moved h1 root z cp _ _ p (mv_holds _ _ _ _ M)) as (h2 & E3 & M2).
  rewrite E3. cbn [res_bind]. eapply moved_trans in M2; [|exact M]. clear M. rename M2 into M.
  destruct (rotate_right_moved (h2, root) z _ _ _ _ _ _ _ (mv_holds _ _ _ _ M)) as ([h4 root4] & E5 & M5).
  rewrite E5. cbn [res_bind]. eapply moved_trans in M5; [|exact M]. clear M. rename M5 into M.
  destruct (read_tree _ (FR Black wr w :: z) _ _ _ _ (mv_holds _ _ _ _ M)) as (E6 & _ & _).
  simpl in E6. rewrite E6. by exists (h4, root4).
Qed.

Lemma erase_right_sibling_black (h : rb_heap) (root p w : Z) (z : list frame) (cp : color) (t wl wr : tree) :
  holds (h, root) (plug z (Node cp (Node Black wr w wl) p t)) ->
  erase_right_sibling p (h, root) = Ret (w, (h, root)).
Proof.
  intros H. unfold erase_right_sibling. destruct (read_tree _ _ _ _ _ _ H) as (E & _ & _).
  simpl in E. rewrite E. cbn [deref res_bind rb_left mk ptr].
  destruct (read_tree _ (FL cp p t :: z) _ _ _ _ H) as (E2 & Ha & _).
  simpl in E2. rewrite E2. cbn [deref res_bind]. by rewrite mk_is_red.
Qed.

Lemma erase_right_push (s : rb_tree) (h : rb_heap) (root p w : Z) (z : list frame) (cp : color)
    (t wl wr : tree) :
  erase_right_sibling p s = Ret (w, (h, root)) -> col wl = Black -> col wr = Black ->
  holds (h, root) (plug z (Node cp (Node Black wr w wl) p t)) ->
  exists s', erase_right p s = Ret (inl (p, top z), s') /\
    moved (h, root) (plug z (Node cp (Node Black wr w wl) p t)) s' (plug z (Node cp (Node Red wr w wl) p t)).
Proof.
  intros Es Hl Hr H. unfold erase_right. rewrite Es. cbn [res_bind].
  destruct (read_tree _ (FL cp p t :: z) _ _ _ _ H) as (Ew & _ & _).
  pose proof (is_black_tree _ (FL Black w wl :: FL cp p t :: z) _ H) as El.
  pose proof (is_black_tree _ (FR Black wr w :: FL cp p t :: z) _ H) as Er.
  simpl in Ew, El, Er. rewrite Ew. cbn [deref res_bind rb_left rb_right mk ptr] in *.
  rewrite El. cbn [res_bind]. rewrite Er. cbn [res_bind].
  rewrite Hl, Hr. simpl.
  destruct (set_red_moved h root (FL cp p t :: z) Black _ _ w H) as (h1 & E1 & M).
  rewrite E1. cbn [res_bind]. simpl in M.
  destruct (read_tree _ z _ _ _ _ (mv_holds _ _ _ _ M)) as (E2 & Ha & _). simpl in E2.
  rewrite E2. cbn [deref res_bind]. rewrite mk_parent by done. by exists (h1, root).
Qed.

Lemma erase_right_outer (s : rb_tree) (h : rb_heap) (root p w x : Z) (z : list frame) (cp : color)
    (t wl a b : tree) :
  erase_right_sibling p s = Ret (w, (h, root)) ->
  holds (h, root) (plug z (Node cp (Node Black (Node Red b x a) w wl) p t)) ->
  exists s', erase_right p s = Ret (inr (snd s'), s') /\
    moved (h, root) (plug z (Node cp (Node Black (Node Red b x a) w wl) p t)) s' (plug z (Node cp (Node Black b x a) w (Node Black wl p t))).
Proof.
  intros Es H. unfold erase_right. rewrite Es. cbn [res_bind].
  destruct (read_tree _ (FL cp p t :: z) _ _ _ _ H) as (Ew & _ & _).
  pose proof (is_black_tree _ (FL Black w wl :: FL cp p t :: z) _ H) as El.
  pose proof (is_black_tree _ (FR Black (Node Red b x a) w :: FL cp p t :: z) _ H) as Er.
  simpl in Ew, El, Er. rewrite Ew. cbn [deref res_bind rb_left rb_right mk ptr] in *.
  rewrite El. cbn [res_bind]. rewrite Er. cbn [res_bind].
  rewrite ?andb_false_r. cbn -[erase_right_rotate].
  destruct (erase_right_rotate_spec h root p w x z cp Black Red t wl a b H) as ([h1 root1] & -> & M).
  cbn [res_bind]. by exists (h1, root1).
Qed.

Lemma erase_right_inner (s : rb_tree) (h : rb_heap) (root p w x : Z) (z : list frame) (cp : color)
    (t a b wr : tree) :
  erase_right_sibling p s = Ret (w, (h, root)) -> col wr = Black ->
  holds (h, root) (plug z (Node cp (Node Black wr w (Node Red b x a)) p t)) ->
  exists s', erase_right p s = Ret (inr (snd s'), s') /\
    moved (h, root) (plug z (Node cp (Node Black wr w (Node Red b x a)) p t)) s' (plug z (Node cp (Node Black wr w b) x (Node Black a p t))).
Proof.
  intros Es Hr H. unfold erase_right. rewrite Es. cbn [res_bind].
  destruct (read_tree _ (FL cp p t :: z) _ _ _ _ H) as (Ew & _ & _).
  pose proof (is_black_tree _ (FL Black w (Node Red b x a) :: FL cp p t :: z) _ H) as El.
  pose proof (is_black_tree _ (FR Black wr w :: FL cp p t :: z) _ H) as Er.
  simpl in Ew, El, Er. rewrite Ew. cbn [deref res_bind rb_left rb_right mk ptr] in *.
  rewrite El. cbn [res_bind]. rewrite Er. cbn [res_bind].
  rewrite Hr. simpl.
  destruct (set_black_moved h root (FR Black wr w :: FL cp p t :: z) Red _ _ x H)
    as (h1 & E1 & M). rewrite E1. cbn [res_bind]. simpl in M.
  destruct (set_red_moved h1 root (FL cp p t :: z) Black _ _ w (mv_holds _ _ _ _ M)) as (h2 & E2 & M2).
  rewrite E2. cbn [res_bind]. eapply moved_trans in M2; [|exact M]. clear M. rename M2 into M. simpl in M.
  destruct (rotate_left_moved (h2, root) (FL cp p t :: z) _ _ _ _ _ _ _ (mv_holds _ _ _ _ M))
    as ([h3 root3] & E3 & M3).
  rewrite E3. cbn [res_bind]. eapply moved_trans in M3; [|exact M]. clear M. rename M3 into M. simpl in M.
  destruct (read_tree _ z _ _ _ _ (mv_holds _ _ _ _ M)) as (E4 & _ & _). simpl in E4. rewrite E4.
  cbn [deref res_bind rb_left mk ptr].
  destruct (erase_right_rotate_spec h3 root3 p x w z cp Black Red t a b wr (mv_holds _ _ _ _ M))
    as ([h4 root4] & -> & M4).
  cbn [res_bind]. exists (h4, root4). split; [done|]. by eapply moved_trans.
Qed.

(** ** One turn of the loop *)

(** [t] stands where one more black node is expected: black height [k], or a red node
    whose children have it. *)
Definition short (t : tree) (k : nat) : Prop :=
  match t with Node Red l _ r => rbt l k /\ rbt r k | _ => rbt t k end.

(** What a turn does: the loop goes on nearer to the root or at a red node, or the tree
    is repaired. *)
Definition turn_ok (s0 : rb_tree) (t0 : tree) (m : nat) (out : res ((Z * Z + Z) * rb_tree)) : Prop :=
  (exists s' z' t' k', out = Ret (inl (ptr t', top z'), s') /\ moved s0 t0 s' (plug z' t') /\
     short t' k' /\ zok z' (S k') /\ t' <> Leaf /\ (col t' = Red \/ (length z' <= m)%nat)) \/
  (exists s' t' k', out = Ret (inr (snd s'), s') /\ moved s0 t0 s' t' /\ rbt t' k' /\ t' <> Leaf).

(** What the path above a node of color [cp] has to be when its hole has height [k]. *)
Definition above (cp : color) (z : list frame) (k : nat) : Prop :=
  match cp with Red => zok z k /\ pcol z = Black | Black => zok z (S k) end.
Lemma above_plug (cp : color) (z : list frame) (k : nat) (l r : tree) (n : Z) :
  above cp z (S k) -> rbt l (S k) -> rbt r (S k) -> col l = Black -> col r = Black ->
  exists k', rbt (plug z (Node cp l n r)) k'.
Proof.
  intros Hz Hl Hr Cl Cr. destruct cp; simpl in Hz.
  - destruct Hz as [Hz Hp]. eapply plug_rbt; [exact Hz|by simpl|congruence].
  - eapply plug_rbt; [exact Hz| |done]. by exists (S k).
Qed.

Lemma erase_left_black (s0 s : rb_tree) (t0 : tree) (h : rb_heap) (root p w : Z) (z : list frame)
    (cp : color) (t wl wr : tree) (k m : nat) :
  erase_left_sibling p s = Ret (w, (h, root)) ->
  moved s0 t0 (h, root) (plug z (Node cp t p (Node Black wl w wr))) ->
  rbt t k -> col t = Black -> rbt wl k -> rbt wr k -> above cp z (S k) ->
  (cp = Red \/ (length z <= m)%nat) -> turn_ok s0 t0 m (erase_left p s).
Proof.
  intros Es M Ht Ct Hl Hr Hz Hm. pose proof (mv_holds _ _ _ _ M) as H.
  destruct (col wr) eqn:Cr; [|destruct (col wl) eqn:Cl].
  - destruct wr as [|c a x b]; [done|]. simpl in Cr. subst c. right. simpl in Hr.
    destruct (erase_left_outer s h root p w x z cp t wl a b Es H) as (s' & E & M').
    destruct (above_plug cp z k (Node Black t p wl) (Node Black a x b) w) as [k' Hk'];
      try done; [exists k; naive_solver..|].
    exists s', (plug z (Node cp (Node Black t p wl) w (Node Black a x b))), k'.
    split; [done|]. split; [by eapply moved_trans|]. split; [done|apply plug_not_leaf].
  - destruct wl as [|c a x b]; [done|]. simpl in Cl. subst c. right. simpl in Hl.
    destruct (erase_left_inner s h root p w x z cp t a b wr Es Cr H) as (s' & E & M').
    destruct (above_plug cp z k (Node Black t p a) (Node Black b w wr) x) as [k' Hk'];
      try done; [exists k; naive_solver..|].
    exists s', (plug z (Node cp (Node Black t p a) x (Node Black b w wr))), k'.
    split; [done|]. split; [by eapply moved_trans|]. split; [done|apply plug_not_leaf].
  - left. destruct (erase_left_push s h root p w z cp t wl wr Es Cl Cr H) as (s' & E & M').
    exists s', z, (Node cp t p (Node Red wl w wr)), (match cp with Red => k | Black => S k end).
    split; [done|]. split; [by eapply moved_trans|].
    destruct cp; simpl in Hz; (split; [|split; [|split]]); try done.
    + tauto.
    + exists k. split_and!; [done|..]; simpl; naive_solver.
Qed.

Lemma erase_left_turn (s : rb_tree) (p : Z) (z : list frame) (c : color) (t W : tree) (k : nat) :
  holds s (plug z (Node c t p W)) -> rbt t k -> col t = Black -> zok (FL c p W :: z) (S k) ->
  turn_ok s (plug z (Node c t p W)) (length z) (erase_left p s).
Proof.
  intros H Ht Ct [HW Hz]. destruct s as [h root]. destruct W as [|cw wl w wr]; [done|].
  simpl in HW, Hz. destruct cw.
  - destruct c; [naive_solver|]. destruct HW as (Hl & Hr & Cl & Cr).
    destruct (erase_left_sibling_red h root p w z Black t wl wr H) as ([h1 root1] & E & M).
    assert (exists a x b, wl = Node Black a x b /\ rbt a k /\ rbt b k) as (a & x & b & -> & Ha & Hb).
    { destruct wl as [|cc a x b]; [done|]. simpl in *. subst cc. naive_solver. }
    eapply (erase_left_black _ _ _ h1 root1 p x (FL Black w wr :: z) Red t a b k);
      try done; [by left].
  - destruct HW as (k' & [= <-] & Hl & Hr).
    eapply (erase_left_black _ _ _ h root p w z c t wl wr k);
      [by eapply erase_left_sibling_black|by apply moved_refl|done|done|done|done| |by right].
    destruct c; simpl in *; tauto.
Qed.

Lemma erase_right_black (s0 s : rb_tree) (t0 : tree) (h : rb_heap) (root p w : Z) (z : list frame)
    (cp : color) (t wl wr : tree) (k m : nat) :
  erase_right_sibling p s = Ret (w, (h, root)) ->
  moved s0 t0 (h, root) (plug z (Node cp (Node Black wr w wl) p t)) ->
  rbt t k -> col t = Black -> rbt wl k -> rbt wr k -> above cp z (S k) ->
  (cp = Red \/ (length z <= m)%nat) -> turn_ok s0 t0 m (erase_right p s).
Proof.
  intros Es M Ht Ct Hl Hr Hz Hm. pose proof (mv_holds _ _ _ _ M) as H.
  destruct (col wr) eqn:Cr; [|destruct (col wl) eqn:Cl].
  - destruct wr as [|c a x b]; [done|]. simpl in Cr. subst c. right. simpl in Hr.
    destruct (erase_right_outer s h root p w x z cp t wl b a Es H) as (s' & E & M').
    destruct (above_plug cp z k (Node Black a x b) (Node Black wl p t) w) as [k' Hk'];
      try done; [exists k; naive_solver..|].
    exists s', (plug z (Node cp (Node Black a x b) w (Node Black wl p t))), k'.
    split; [done|]. split; [by eapply moved_trans|]. split; [done|apply plug_not_leaf].
  - destruct wl as [|c a x b]; [done|]. simpl in Cl. subst c. right. simpl in Hl.
    destruct (erase_right_inner s h root p w x z cp t b a wr Es Cr H) as (s' & E & M').
    destruct (above_plug cp z k (Node Black wr w a) (Node Black b p t) x) as [k' Hk'];
      try done; [exists k; naive_solver..|].
    exists s', (plug z (Node cp (Node Black wr w a) x (Node Black b p t))), k'.
    split; [done|]. split; [by eapply moved_trans|]. split; [done|apply plug_not_leaf].
  - left. destruct (erase_right_push s h root p w z cp t wl wr Es Cl Cr H) as (s' & E & M').
    exists s', z, (Node cp (Node Red wr w wl) p t), (match cp with Red => k | Black => S k end).
    split; [done|]. split; [by eapply moved_trans|].
    destruct cp; simpl in Hz; (split; [|split; [|split]]); try done.
    + tauto.
    + exists k. split_and!; [done|..]; simpl; naive_solver.
Qed.

Lemma erase_right_turn (s : rb_tree) (p : Z) (z : list frame) (c : color) (t W : tree) (k : nat) :
  holds s (plug z (Node c W p t)) -> rbt t k -> col t = Black -> zok (FR c W p :: z) (S k) ->
  turn_ok s (plug z (Node c W p t)) (length z) (erase_right p s).
Proof.
  intros H Ht Ct [HW Hz]. destruct s as [h root]. destruct W as [|cw wl w wr]; [done|].
  simpl in HW, Hz. destruct cw.
  - destruct c; [naive_solver|]. destruct HW as (Hl & Hr & Cl & Cr).
    destruct (erase_right_sibling_red h root p w z Black t wr wl H) as ([h1 root1] & E & M).
    assert (exists a x b, wr = Node Black a x b /\ rbt a k /\ rbt b k) as (a & x & b & -> & Ha & Hb).
    { destruct wr as [|cc a x b]; [done|]. simpl in *. subst cc. naive_solver. }
    eapply (erase_right_black _ _ _ h1 root1 p x (FR Black wl w :: z) Red t b a k);
      try done; [by left].
  - destruct HW as (k' & [= <-] & Hl & Hr).
    eapply (erase_right_black _ _ _ h root p w z c t wr wl k);
      [by eapply erase_right_sibling_black|by apply moved_refl|done|done|done|done| |by right].
    destruct c; simpl in *; tauto.
Qed.

(** ** The loop *)

Lemma col_plug (z : list frame) (t : tree) (k : nat) :
  zok z k -> (z = [] -> col t = Black) -> col (plug z t) = Black.
Proof.
  revert t k. induction z as [|f z IH]; intros t k Hz Ht; [by apply Ht|].
  destruct Hz as [_ Hz]. simpl. destruct (fcolor f) eqn:Ef.
  - destruct Hz as (_ & Hz & _ & Hne). by apply (IH _ k).
  - apply (IH _ (S k)); [done|]. intros _. by destruct f.
Qed.

Lemma repaired (z : list frame) (l r : tree) (n : Z) (k : nat) :
  zok z (S k) -> rbt l k -> rbt r k -> rb_ok (plug z (Node Black l n r)).
Proof.
  intros Hz Hl Hr. split; [by eapply col_plug|]. eapply plug_rbt; [exact Hz| |done]. by exists k.
Qed.

(** Where the loop stops: painting the node black, if there is one, completes the repair. *)
Definition to_paint (z : list frame) (t : tree) : Prop :=
  match t with
  | Leaf => rb_ok (plug z Leaf)
  | Node _ l n r => rb_ok (plug z (Node Black l n r))
  end.

Lemma root_of (s : rb_tree) (z : list frame) (t : tree) : holds s (plug z t) -> snd s = ptr (plug z t).
Proof. intros H. apply (at_crep _ _ _ H). Qed.
Lemma ptr_plug (f : frame) (z : list frame) (t t' : tree) : ptr (plug (f :: z) t) = ptr (plug (f :: z) t').
Proof. revert f t t'. induction z as [|g z IH]; intros f t t'; [by destruct f|]. apply (IH g). Qed.

Lemma not_root (s : rb_tree) (f : frame) (z : list frame) (t : tree) :
  holds s (plug (f :: z) t) -> (ptr t =? snd s) = false.
Proof.
  intros H. rewrite (root_of _ (f :: z) t H). apply Z.eqb_neq. intros E.
  assert (ptr (plug (f :: z) t) <> NULL /\ ptr (plug (f :: z) t) ∈ znodes (f :: z)) as [Hn Hin].
  { assert (forall z f (t : tree), holds s (plug (f :: z) t) ->
      ptr (plug (f :: z) t) <> NULL /\ ptr (plug (f :: z) t) ∈ znodes (f :: z)) as K; [|by apply K].
    clear. induction z as [|g z IH]; intros f t H.
    - destruct f; simpl in *; destruct (read_tree s [] _ _ _ _ H) as (_ & _ & ?);
        unfold znodes; simpl; set_solver.
    - destruct (IH g (up f t) H) as [? ?]. split; [done|]. unfold znodes in *. simpl in *. set_solver. }
  apply (proj2 (at_plug s (f :: z) t)) in H as [_ _ Hnd]. apply NoDup_app in Hnd as (_ & Hd & _).
  destruct t as [|c l n r]; [by rewrite <- E in Hn|]. apply (Hd n); [simpl; set_solver|].
  simpl ptr in E at 1. by rewrite E.
Qed.

(** One turn of [erase_loop] at a black node below a parent. *)
Lemma erase_loop_turn (fuel : nat) (s : rb_tree) (f : frame) (z : list frame) (t : tree) :
  holds s (plug (f :: z) t) -> col t = Black -> fsib f <> Leaf ->
  erase_loop (S fuel) (ptr t) (fnode f) s =
  let! (o, s) := (match f with FL _ _ _ => erase_left | FR _ _ _ => erase_right end) (fnode f) s in
  match o with inl (node, parent) => erase_loop fuel node parent s | inr node => Ret (node, s) end.
Proof.
  intros H Ct Hs. cbn [erase_loop]. rewrite (is_black_tree s (f :: z) t H). cbn [res_bind].
  rewrite Ct, (not_root s f z t H). cbn [bool_decide decide decide_rel negb andb]. simpl.
  destruct f as [c p W|c W p]; simpl in *; destruct (read_tree s z _ _ _ _ H) as (E & _ & _);
    rewrite E; cbn [deref res_bind rb_left mk].
  - by rewrite Z.eqb_refl.
  - destruct (child_test s z _ _ _ _ H) as [Ht _]. by rewrite (Ht Hs).
Qed.

Lemma erase_loop_spec (fuel : nat) (s : rb_tree) (z : list frame) (t : tree) (k : nat) :
  holds s (plug z t) -> short t k -> zok z (S k) -> (0 < fuel)%nat ->
  (col t = Red \/ (length z < fuel)%nat) ->
  exists s' z' t', erase_loop fuel (ptr t) (top z) s = Ret (ptr t', s') /\
    moved s (plug z t) s' (plug z' t') /\ to_paint z' t'.
Proof.
  revert s z t k. induction fuel as [|fuel IH]; intros s z t k H Ht Hz Hpos Hf; [lia|].
  destruct (col t) eqn:Ct.
  { exists s, z, t. cbn [erase_loop]. rewrite (is_black_tree s z t H). cbn [res_bind]. rewrite Ct.
    split; [done|]. split; [by apply moved_refl|]. destruct t as [|c l n r]; [done|].
    simpl in Ct. subst c. destruct Ht. by eapply repaired. }
  destruct Hf as [|Hf]; [done|].
  assert (rbt t k) as Hr by (destruct t as [|[] l n r]; done).
  destruct z as [|f z].
  { exists s, [], t. cbn [erase_loop]. rewrite (is_black_tree s [] t H). cbn [res_bind].
    rewrite (root_of s [] t H), Z.eqb_refl, andb_false_r. split; [done|].
    split; [by apply moved_refl|]. destruct t as [|c l n r]; simpl in *; [by split; [|exists k]|].
    subst c. split; [done|]. by exists k. }
  cbn [top]. rewrite (erase_loop_turn fuel s f z t H Ct); [|by destruct Hz as [HW _]; destruct (fsib f)].
  assert (turn_ok s (plug (f :: z) t) (length z)
            ((match f with FL _ _ _ => erase_left | FR _ _ _ => erase_right end) (fnode f) s)) as Hturn.
  { destruct f as [c p W|c W p]; [by apply (erase_left_turn _ _ _ _ _ _ k)|
                                  by apply (erase_right_turn _ _ _ _ _ _ k)]. }
  simpl in Hf. destruct Hturn as [(s' & z' & t' & k' & -> & M & Ht' & Hz' & _ & Hd)|(s' & t' & k' & -> & M & Hr' & Hne)].
  - cbn [res_bind]. destruct (IH s' z' t' k' (mv_holds _ _ _ _ M) Ht' Hz') as (s2 & z2 & t2 & E & M2 & Hp);
      [lia|destruct Hd; [by left|right; lia]|].
    exists s2, z2, t2. split; [done|]. split; [by eapply moved_trans|done].
  - cbn [res_bind]. exists s', [], t'. split; [f_equal; f_equal; exact (root_of s' [] t' (mv_holds _ _ _ _ M))|].
    split; [done|]. destruct t' as [|c l n r]; [done|]. split; [done|].
    destruct c; simpl in Hr'; [exists (S k'); exists k'; naive_solver|by exists k'].
Qed.

Lemma erase_color_spec (fuel : nat) (s : rb_tree) (z : list frame) (t : tree) (k : nat) :
  holds s (plug z t) -> short t k -> zok z (S k) -> (length z < fuel)%nat ->
  exists s' t', __rb_erase_color fuel (ptr t) (top z) s = Ret s' /\
    moved s (plug z t) s' t' /\ rb_ok t'.
Proof.
  intros H Ht Hz Hf. unfold __rb_erase_color.
  destruct (erase_loop_spec fuel s z t k H Ht Hz ltac:(lia) ltac:(by right))
    as ([h root] & z' & t' & -> & M & Hp).
  cbn [res_bind]. destruct t' as [|c l n r]; [by exists (h, root), (plug z' Leaf)|].
  destruct (read_tree _ _ _ _ _ _ (mv_holds _ _ _ _ M)) as (_ & _ & Hn). simpl ptr.
  destruct (n =? NULL) eqn:En; [lia|].
  destruct (set_black_moved h root z' c l r n (mv_holds _ _ _ _ M)) as (h' & -> & M').
  exists (h', root), (plug z' (Node Black l n r)). split; [done|]. split; [by eapply moved_trans|done].
Qed.

(** ** Unlinking *)

Lemma unlink_simple_spec (h : rb_heap) (root n : Z) (z : list frame) (c : color) (l r t : tree) :
  holds (h, root) (plug z (Node c l n r)) -> (t = r /\ l = Leaf \/ t = l /\ r = Leaf) ->
  exists s', unlink_simple n (ptr t) (h, root) = Ret (ptr t, top z, cz c, s') /\
    holds s' (plug z t) /\ same_outside (nodes t ++ znodes z) h (fst s').
Proof.
  rewrite <- at_plug. intros [(Hn & E & Hl & Hr) Hc Hnd] Ht. simpl in *.
  pose proof (crep_aligned _ _ _ _ Hc) as Ha.
  assert (rep h t n /\ n ∉ nodes t /\ NoDup (nodes t ++ znodes z) /\ n ∉ znodes z) as (Hrt & Hnt & Hnd2 & Hnz).
  { destruct Ht as [[-> ->]|[-> ->]]; simpl in *.
    - apply NoDup_cons in Hnd as [Hni Hnd]. apply not_elem_of_app in Hni. naive_solver.
    - rewrite <- app_assoc in Hnd. apply NoDup_app in Hnd as (? & Hd & Hnd). simpl in *.
      apply NoDup_cons in Hnd as [? ?]. split_and!; [done| |apply NoDup_app; set_solver|done].
      intros Hin. apply (Hd n Hin). set_solver. }
  clear Hnd. unfold unlink_simple. rewrite E. cbn [deref res_bind]. rewrite mk_parent, mk_color by done.
  pose proof Hnd2 as Hnd2'. nodup Hnd2.
  destruct (set_parent_if_rep h t n (top z)) as (h1 & -> & Hr1 & Hs1); [done|done|apply Hn|done|].
  cbn [res_bind].
  destruct (relink_crep h1 root z n (ptr t)) as (h2 & root2 & -> & _ & Hc2 & Hs2); [|apply Hn|done|done|].
  { eapply crep_agree; [|exact Hc]. intros q Hq. apply Hs1. fresh_solver. }
  cbn [res_bind]. exists (h2, root2). split; [done|]. split.
  - rewrite <- at_plug. split; [|done|done]. simpl. eapply rep_agree; [|exact Hr1].
    intros q Hq. apply Hs2. fresh_solver.
  - intros p Hp. simpl. rewrite Hs2, Hs1 by fresh_solver. done.
Qed.

(** *** The successor *)

Definition is_left (f : frame) : Prop := match f with FL _ _ _ => True | FR _ _ _ => False end.

Lemma plug_app (z1 z2 : list frame) (t : tree) : plug (z1 ++ z2) t = plug z2 (plug z1 t).
Proof. revert t. induction z1 as [|f z1 IH]; intros t; [done|apply IH]. Qed.

Lemma leftmost_path (t : tree) : t <> Leaf ->
  exists zr c s r, t = plug zr (Node c Leaf s r) /\ Forall is_left zr.
Proof.
  induction t as [|c l IHl n r _]; [done|]. intros _. destruct l as [|cl ll m lr].
  - by exists [], c, n, r.
  - destruct IHl as (zr & cs & s & sr & E & Hz); [done|].
    exists (zr ++ [FL c n r]), cs, s, sr. rewrite plug_app, <- E. simpl. split; [done|].
    apply Forall_app. split; [done|]. by repeat constructor.
Qed.

Lemma leftmost_spec (h : rb_heap) (zr : list frame) (c : color) (s : Z) (sr : tree) (par : Z) (fuel : nat) :
  Forall is_left zr -> rep h (plug zr (Node c Leaf s sr)) par -> (length zr < fuel)%nat ->
  leftmost fuel (ptr (plug zr (Node c Leaf s sr))) h = Ret s.
Proof.
  revert par fuel. induction zr as [|f zr IH] using rev_ind; intros par fuel Hz Hr Hf.
  - destruct fuel; [simpl in Hf; lia|]. simpl in *. destruct Hr as (_ & -> & _). done.
  - apply Forall_app in Hz as [Hz Hl]. rewrite length_app in Hf. simpl in Hf.
    destruct fuel as [|fuel]; [lia|]. rewrite plug_app in *.
    destruct f as [c2 m u|]; [|by inversion Hl]. simpl in *. destruct Hr as (_ & -> & Hr & _).
    cbn [deref res_bind rb_left mk].
    assert (ptr (plug zr (Node c Leaf s sr)) <> NULL) as Hne.
    { intros E. apply (rep_ptr _ _ _ Hr) in E. by apply plug_not_leaf in E. }
    destruct (_ =? NULL) eqn:En; [lia|]. apply (IH m); [done|done|lia].
Qed.

(** The leftmost node goes; its right child takes its place. *)
Lemma splice_spec (h : rb_heap) (zr : list frame) (c : color) (s : Z) (sr : tree) (par : Z) :
  Forall is_left zr -> zr <> [] -> rep h (plug zr (Node c Leaf s sr)) par ->
  NoDup (nodes (plug zr (Node c Leaf s sr))) ->
  h !! s = Some (mk (top zr) c NULL (ptr sr)) /\ aligned (top zr) /\ top zr ∈ znodes zr /\
  exists h', (let! h := set_parent_if (ptr sr) (top zr) h in set_left (top zr) (ptr sr) h) = Ret h' /\
    rep h' (plug zr sr) par /\ same_outside (nodes (plug zr sr)) h h'.
Proof.
  revert par. induction zr as [|f zr IH] using rev_ind; intros par Hz Hne Hr Hnd; [done|].
  apply Forall_app in Hz as [Hz Hl]. rewrite plug_app in *.
  destruct f as [c2 m u|]; [|by inversion Hl]. simpl in *.
  destruct Hr as (Hm & Em & Hr & Hu). destruct (decide (zr = [])) as [->|Hne'].
  - simpl in *. destruct Hr as (Hs & Es & _ & Hsr). split; [done|]. split; [apply Hm|].
    split; [unfold znodes; simpl; set_solver|]. nodup Hnd.
    destruct (set_parent_if_rep h sr s m) as (h1 & -> & Hr1 & Hs1); [done|done|apply Hs|apply Hm|].
    cbn [res_bind]. assert (h1 !! m = Some (mk par c2 s (ptr u))) as Em1 by (by rewrite Hs1 by fresh_solver).
    rewrite (upd_left _ _ _ _ _ _ _ Em1). eexists. split; [done|]. split.
    + split; [done|]. rewrite lookup_insert_eq. split; [done|].
      split; (apply rep_insert; [fresh_solver|]); [done|].
      eapply rep_agree; [|exact Hu]. intros p Hp. apply Hs1. fresh_solver.
    + intros p Hp. apply not_elem_of_app in Hp as [? Hp]. apply not_elem_of_cons in Hp as [? ?].
      rewrite lookup_insert_ne by done. by apply Hs1.
  - assert (top (zr ++ [FL c2 m u]) = top zr) as -> by (by destruct zr).
    apply NoDup_app in Hnd as (Hnd1 & Hd & Hnd2).
    destruct (IH m Hz Hne' Hr Hnd1) as (Es & Ha & Hin & h' & E & Hr' & Hs').
    split; [done|]. split; [done|]. split; [unfold znodes in *; rewrite bind_app; set_solver|].
    assert (forall p, p ∈ nodes (plug zr sr) -> p <> m /\ p ∉ nodes u) as Hd'.
    { intros p Hp. enough (p ∉ m :: nodes u) by set_solver. apply Hd. rewrite nodes_plug in Hp |- *.
      simpl. set_solver. }
    exists h'. split; [done|]. split.
    + split; [done|]. assert (ptr (plug zr sr) = ptr (plug zr (Node c Leaf s sr))) as Ep.
      { destruct zr as [|f zr]; [done|]. apply ptr_plug. }
      split; [rewrite Ep, <- Em; apply Hs'; intros Hp; by apply Hd' in Hp as [? _]|].
      split; [done|]. eapply rep_agree; [|exact Hu]. intros p Hp. apply Hs'.
      intros Hp'. by apply Hd' in Hp' as [_ ?].
    + eapply same_outside_mono; [exact Hs'|]. set_solver.
Qed.

Lemma leftmost_ok (h : rb_heap) (zr : list frame) (c : color) (s : Z) (sr : tree) (par : Z) :
  rep h (plug zr (Node c Leaf s sr)) par -> ok_ptr s.
Proof.
  revert par. induction zr as [|f zr IH] using rev_ind; intros par Hr; [apply Hr|].
  rewrite plug_app in Hr. destruct f; simpl in Hr; destruct Hr as (_ & _ & H1 & H2); eauto.
Qed.

(** The branches of [parent == old], on the subtree below [old]. *)
Lemma successor_splice (h : rb_heap) (zr : list frame) (c cs : color) (n s : Z) (l sr : tree)
    (z : list frame) :
  let r := plug zr (Node cs Leaf s sr) in
  Forall is_left zr -> rep h r n -> NoDup (n :: nodes r) -> ok_ptr n ->
  h !! n = Some (mk (top z) c (ptr l) (ptr r)) ->
  exists ps h', h !! s = Some (mk ps cs NULL (ptr sr)) /\ aligned ps /\
    (if ps =? n then Ret (s, h)
     else
       let! h := set_parent_if (ptr sr) ps h in
       let! h := set_left ps (ptr sr) h in
       let! o := deref (h !! n) in
       let! h := set_right s (rb_right o) h in
       let! h := rb_set_parent (rb_right o) s h in
       Ret (ps, h)) = Ret (top (zr ++ FR c l s :: z), h') /\
    h' !! s = Some (mk ps cs NULL (ptr (plug zr sr))) /\ rep h' (plug zr sr) s /\
    same_outside (nodes r) h h'.
Proof.
  intros r Hz Hr Hnd Hn En. apply NoDup_cons in Hnd as [Hnr Hnd]. destruct (decide (zr = [])) as [->|Hne].
  { simpl in *. destruct Hr as (Hs & Es & _ & Hsr). exists n, h. rewrite Z.eqb_refl.
    split; [done|]. split; [apply Hn|]. split; [done|]. split; [done|]. split; [done|]. by intros p _. }
  destruct (splice_spec h zr cs s sr n Hz Hne Hr Hnd) as (Es & Ha & Hin & h1 & E & Hr1 & Hs1).
  assert (top zr <> n) as Htop.
  { intros Et. apply Hnr. unfold r. rewrite nodes_plug. rewrite <- Et. set_solver. }
  assert (s ∉ nodes (plug zr sr) /\ NoDup (nodes (plug zr sr)) /\ s ∈ nodes r /\
          (nodes (plug zr sr) ⊆ nodes r)) as (Hsn & Hnd' & Hsin & Hsub).
  { unfold r in *. rewrite nodes_plug in Hnd. simpl in Hnd. apply NoDup_cons in Hnd as [Hx Hnd].
    split_and!; [by rewrite nodes_plug|by rewrite nodes_plug|rewrite nodes_plug; simpl; set_solver|].
    intros x. rewrite !nodes_plug. simpl. set_solver. }
  assert (n ∉ nodes (plug zr sr)) as Hnr' by set_solver.
  assert (ptr (plug zr sr) = ptr r) as Ep by (unfold r; destruct zr; [done|apply ptr_plug]).
  exists (top zr). destruct (top zr =? n) eqn:Eq; [lia|].
  apply res_bind_Ret in E as (h0 & -> & E). cbn [res_bind]. rewrite E. cbn [res_bind].
  rewrite Hs1, En by done. cbn [deref res_bind rb_right mk].
  assert (h1 !! s = Some (mk (top zr) cs NULL (ptr sr))) as Es1 by (by rewrite Hs1).
  rewrite (upd_right _ _ _ _ _ _ _ Es1). cbn [res_bind].
  destruct (set_parent_if_rep (<[s := mk (top zr) cs NULL (ptr r)]> h1) (plug zr sr) n s) as (h2 & E2 & Hr2 & Hs2);
    [by apply rep_insert|done|apply Hn| |].
  { destruct (leftmost_ok h zr cs s sr n Hr) as [_ ?]. done. }
  assert (ptr r <> NULL) as HrN.
  { intros E0. unfold r in *. apply (rep_ptr _ _ _ Hr) in E0. by apply plug_not_leaf in E0. }
  unfold set_parent_if in E2. rewrite Ep, (proj2 (Z.eqb_neq _ _) HrN) in E2. rewrite E2. cbn [res_bind].
  exists h2. split; [done|]. split; [done|].
  assert (top (zr ++ FR c l s :: z) = top zr) as -> by (by destruct zr). split; [done|].
  split; [by rewrite Hs2, lookup_insert_eq, Ep|]. split; [done|].
  intros p Hp. rewrite Hs2 by set_solver. rewrite lookup_insert_ne by (intros ->; done).
  apply Hs1. set_solver.
Qed.

Lemma unlink_successor_spec (h : rb_heap) (root n s : Z) (z zr : list frame) (c cs : color)
    (l sr : tree) (fuel : nat) :
  let r := plug zr (Node cs Leaf s sr) in
  holds (h, root) (plug z (Node c l n r)) -> l <> Leaf -> Forall is_left zr ->
  (length zr < fuel)%nat ->
  exists s', unlink_successor fuel n (h, root) =
      Ret (ptr sr, top (zr ++ FR c l s :: z), cz cs, s') /\
    holds s' (plug (zr ++ FR c l s :: z) sr) /\
    same_outside (nodes (Node c l n r) ++ znodes z) h (fst s').
Proof.
  intros r. rewrite plug_app. cbn [plug up]. rewrite <- !at_plug.
  intros [(Hn & En & Hl & Hr) Hc Hnd] Hne Hz Hf. simpl in *.
  pose proof (crep_aligned _ _ _ _ Hc) as Ha. pose proof (leftmost_ok _ _ _ _ _ _ Hr) as Hs.
  assert (s ∈ nodes r) as Hsr by (unfold r; rewrite nodes_plug; simpl; set_solver).
  assert (nodes r ≡ₚ s :: nodes (plug zr sr)) as Hperm by (unfold r; by rewrite !nodes_plug).
  assert (NoDup (nodes (Node c l s (plug zr sr)) ++ znodes z)) as Hnd'.
  { simpl. rewrite <- Hperm.
    assert ((nodes l ++ n :: nodes r) ++ znodes z ≡ₚ n :: (nodes l ++ nodes r) ++ znodes z) as Hp
      by solve_Permutation.
    rewrite Hp in Hnd. by apply NoDup_cons in Hnd as [_ ?]. }
  nodup Hnd. unfold unlink_successor. rewrite En. cbn [deref res_bind rb_right mk].
  assert (leftmost fuel (ptr r) h = Ret s) as -> by (by eapply leftmost_spec). cbn [res_bind].
  rewrite mk_parent by done.
  destruct (relink_crep h root z n s) as (h1 & root1 & -> & _ & Hc1 & Hs1); [done|apply Hn|done|done|].
  cbn [res_bind].
  assert (rep h1 r n) as Hr1 by (eapply rep_agree; [|exact Hr]; intros p Hp; apply Hs1; fresh_solver).
  destruct (successor_splice h1 zr c cs n s l sr z Hz Hr1) as (ps & h2 & Es & Hps & E & Es2 & Hr2 & Hs2);
    [by apply NoDup_cons|done|by rewrite Hs1|].
  rewrite Es. cbn [deref res_bind rb_right mk]. rewrite mk_parent, mk_color by done.
  cbn [rb_right mk] in *. rewrite E. cbn [res_bind]. 
  assert (h2 !! n = Some (mk (top z) c (ptr l) (ptr r))) as En2 by (rewrite Hs2, Hs1 by fresh_solver; done).
  rewrite En2. cbn [deref res_bind]. unfold upd. rewrite Es2. cbn [deref res_bind].
  set (h3 := <[s := _]> h2).
  assert (h3 !! s = Some (mk (top z) c NULL (ptr (plug zr sr)))) as Es3 by (unfold h3; by rewrite lookup_insert_eq).
  rewrite (upd_left _ _ _ _ _ _ _ Es3). cbn [res_bind]. unfold h3. rewrite insert_insert_eq. clear h3 Es3.
  cbn [rb_left mk]. set (h4 := <[s := mk (top z) c (ptr l) (ptr (plug zr sr))]> h2).
  assert (ptr l <> NULL) as HlN by (intros E0; by apply (rep_ptr _ _ _ Hl) in E0).
  destruct (set_parent_if_rep h4 l n s) as (h5 & E5 & Hl5 & Hs5); [|done|apply Hn|apply Hs|].
  { apply rep_insert; [fresh_solver|]. eapply rep_agree; [|exact Hl].
    intros p Hp. rewrite Hs2, Hs1 by fresh_solver. done. }
  unfold set_parent_if in E5. rewrite (proj2 (Z.eqb_neq _ _) HlN) in E5. rewrite E5. cbn [res_bind].
  exists (h5, root1). split; [done|]. pose proof Hnd' as Hnd2. nodup Hnd2. split; [rewrite <- at_plug; split|].
  - simpl. split; [done|]. split; [rewrite Hs5 by fresh_solver; unfold h4; by rewrite lookup_insert_eq|].
    split; [done|]. eapply rep_agree; [|exact Hr2]. intros p Hp. rewrite Hs5 by fresh_solver.
    unfold h4. rewrite lookup_insert_ne by fresh_solver. done.
  - simpl. eapply crep_agree; [|exact Hc1]. intros p Hp. rewrite Hs5 by fresh_solver.
    unfold h4. rewrite lookup_insert_ne by fresh_solver. apply Hs2. fresh_solver.
  - done.
  - intros p Hp. simpl. split_mem. rewrite Hs5 by fresh_solver. unfold h4.
    rewrite lookup_insert_ne by fresh_solver. rewrite Hs2, Hs1 by fresh_solver. done.
Qed.

(** ** [rb_erase] *)

Lemma fix_after (s : rb_tree) (z : list frame) (t : tree) (k : nat) (cs : color) (fuel : nat) :
  holds s (plug z t) -> zok z k ->
  match cs with Red => rbt t k /\ col t = Black | Black => exists k', k = S k' /\ rbt t k' end ->
  (length z < fuel)%nat ->
  exists s' t', (if cz cs =? RB_BLACK then __rb_erase_color fuel (ptr t) (top z) s else Ret s) = Ret s' /\
    moved s (plug z t) s' t' /\ rb_ok t'.
Proof.
  intros H Hz Ht Hf. destruct cs; simpl.
  - exists s, (plug z t). destruct Ht as [Ht Ct]. split; [done|]. split; [by apply moved_refl|].
    split; [by eapply col_plug|]. by eapply plug_rbt.
  - destruct Ht as (k' & -> & Ht). apply (erase_color_spec fuel s z t k'); try done.
    destruct t as [|[] l n r]; simpl in *; naive_solver.
Qed.

Lemma zok_rename (zr z : list frame) (c : color) (l : tree) (n s : Z) (k : nat) :
  zok (zr ++ FR c l n :: z) k -> zok (zr ++ FR c l s :: z) k.
Proof.
  revert k. induction zr as [|f zr IH]; intros k; [done|]. simpl. intros [Hs Hz]. split; [done|].
  destruct (fcolor f); [|by apply IH]. destruct Hz as (? & Hz & Hp & _).
  split_and!; [done|by apply IH| |by destruct zr]. by destruct zr.
Qed.

Lemma zpre_left (zr : list frame) : Forall is_left zr -> zpre zr = [].
Proof. induction 1 as [|[] zr Hf _ IH]; [done|done|done]. Qed.

Lemma rb_erase_one_child (s : rb_tree) (z : list frame) (c : color) (l r t : tree) (n : Z) (fuel : nat) :
  holds s (plug z (Node c l n r)) -> rb_ok (plug z (Node c l n r)) ->
  (t = r /\ l = Leaf \/ t = l /\ r = Leaf) -> (length z < fuel)%nat ->
  exists s' t', (let! (child, parent, color, s) := unlink_simple n (ptr t) s in
                 if color =? RB_BLACK then __rb_erase_color fuel child parent s else Ret s) = Ret s' /\
    holds s' t' /\ rb_ok t' /\ nodes t' = nodes (plug z t) /\
    same_outside (nodes t ++ znodes z) (fst s) (fst s').
Proof.
  intros H [Hb [k0 Hk]] Ht Hf. destruct s as [h root].
  destruct (unlink_simple_spec h root n z c l r t H Ht) as (s1 & -> & H1 & F1). cbn [res_bind].
  destruct (rbt_plug z _ k0 Hk Hb) as (k & Hz & Hr & _).
  destruct (fix_after s1 z t k c fuel H1 Hz) as (s2 & t2 & -> & [H2 N2 F2] & Hok2); [|done|].
  { destruct c; simpl in Hr; destruct Ht as [[-> ->]|[-> ->]]; naive_solver. }
  exists s2, t2. split_and!; try done; [apply Hok2..|].
  eapply same_outside_trans; [exact F1|]. eapply same_outside_mono; [exact F2|].
  intros x. by rewrite nodes_plug.
Qed.

Lemma rb_erase_successor (s : rb_tree) (z : list frame) (c : color) (l r : tree) (n : Z) (fuel : nat) :
  holds s (plug z (Node c l n r)) -> rb_ok (plug z (Node c l n r)) ->
  l <> Leaf -> r <> Leaf -> (height (plug z (Node c l n r)) < fuel)%nat ->
  exists s' t', (let! (child, parent, color, s) := unlink_successor fuel n s in
                 if color =? RB_BLACK then __rb_erase_color fuel child parent s else Ret s) = Ret s' /\
    holds s' t' /\ rb_ok t' /\ nodes t' = zpre z ++ (nodes l ++ nodes r) ++ zpost z /\
    same_outside (nodes (Node c l n r) ++ znodes z) (fst s) (fst s').
Proof.
  intros H [Hb [k0 Hk]] Hl Hr Hf. destruct (leftmost_path r Hr) as (zr & cs & m & sr & -> & Hleft).
  assert (plug z (Node c l n (plug zr (Node cs Leaf m sr))) =
          plug (zr ++ FR c l n :: z) (Node cs Leaf m sr)) as Eplug by (by rewrite plug_app).
  assert (length (zr ++ FR c l n :: z) < fuel)%nat as Hlen.
  { rewrite Eplug in Hf. pose proof (path_height (zr ++ FR c l n :: z) (Node cs Leaf m sr)). lia. }
  rewrite length_app in Hlen. simpl in Hlen. destruct s as [h root].
  destruct (unlink_successor_spec h root n m z zr c cs l sr fuel H Hl Hleft ltac:(lia))
    as (s1 & -> & H1 & F1). cbn [res_bind].
  rewrite Eplug in Hk, Hb. destruct (rbt_plug _ _ k0 Hk Hb) as (k & Hz & Hrb & _).
  apply (zok_rename _ _ _ _ n m) in Hz.
  destruct (fix_after s1 _ sr k cs fuel H1 Hz) as (s2 & t2 & -> & [H2 N2 F2] & Hok2).
  { destruct cs; simpl in Hrb; naive_solver. }
  { rewrite length_app. simpl. lia. }
  exists s2, t2. split_and!; try done; [apply Hok2..| |].
  - rewrite N2, plug_app. cbn [plug up]. rewrite nodes_plug_ord. cbn [nodes].
    rewrite !nodes_plug_ord, !(zpre_left zr Hleft). done.
  - eapply same_outside_trans; [exact F1|]. eapply same_outside_mono; [exact F2|].
    intros x. rewrite plug_app. cbn [plug up]. rewrite nodes_plug. cbn [nodes].
    rewrite !elem_of_app, !elem_of_cons, !nodes_plug. simpl. set_solver.
Qed.

Lemma rb_erase_spec (s : rb_tree) (z : list frame) (c : color) (l r : tree) (n : Z) (fuel : nat) :
  holds s (plug z (Node c l n r)) -> rb_ok (plug z (Node c l n r)) ->
  (rb_fuel (length (nodes (plug z (Node c l n r)))) <= fuel)%nat ->
  exists s' t', rb_erase fuel n s = Ret s' /\ holds s' t' /\ rb_ok t' /\
    nodes t' = zpre z ++ (nodes l ++ nodes r) ++ zpost z /\
    same_outside (nodes (plug z (Node c l n r))) (fst s) (fst s').
Proof.
  intros H Hok Hf. pose proof (rb_ok_height _ Hok) as Hh. unfold rb_fuel in Hf.
  pose proof (path_height z (Node c l n r)) as Hp.
  assert (forall l' (s' : rb_tree), l' ⊆ nodes (Node c l n r) ++ znodes z -> same_outside l' (fst s) (fst s') ->
            same_outside (nodes (plug z (Node c l n r))) (fst s) (fst s')) as Hout.
  { intros l' s' Hsub F. eapply same_outside_mono; [exact F|]. intros x Hx. rewrite nodes_plug. by apply Hsub. }
  unfold rb_erase. destruct (read_tree _ _ _ _ _ _ H) as (E & Ha & _). rewrite E.
  cbn [deref res_bind rb_left rb_right mk].
  assert (forall t, t = l \/ t = r -> (ptr t =? NULL) = bool_decide (t = Leaf)) as Hnull.
  { intros t Ht. apply (proj2 (at_plug s z _)) in H as [(_ & _ & Hl & Hr) _ _].
    destruct t as [|? ? m ?]; [done|]. simpl. destruct Ht as [<-|<-]; apply Z.eqb_neq; [apply Hl|apply Hr]. }
  rewrite !Hnull by tauto. case_bool_decide as Hl; [|case_bool_decide as Hr].
  - destruct (rb_erase_one_child s z c l r r n fuel H Hok) as (s' & t' & -> & H' & Hok' & N & F);
      [by left|lia|].
    exists s', t'. split_and!; try done; [apply Hok'..|rewrite N, nodes_plug_ord, Hl; done|].
    eapply Hout; [|exact F]. simpl. set_solver.
  - destruct (rb_erase_one_child s z c l r l n fuel H Hok) as (s' & t' & -> & H' & Hok' & N & F);
      [by right|lia|].
    exists s', t'. split_and!; try done; [apply Hok'..|rewrite N, nodes_plug_ord, Hr; simpl; by rewrite app_nil_r|].
    eapply Hout; [|exact F]. simpl. set_solver.
  - destruct (rb_erase_successor s z c l r n fuel H Hok Hl Hr ltac:(lia)) as (s' & t' & -> & H' & Hok' & N & F).
    exists s', t'. split_and!; try done; [apply Hok'..|]. by eapply Hout; [|exact F].
Qed.

Lemma nodes_focus (t : tree) (n : Z) :
  n ∈ nodes t -> exists z c l r, t = plug z (Node c l n r).
Proof.
  induction t as [|c l IHl m r IHr]; intros Hn; simpl in Hn; [set_solver|].
  apply elem_of_app in Hn as [Hn|Hn]; [|apply elem_of_cons in Hn as [<-|Hn]].
  - destruct (IHl Hn) as (z & c' & l' & r' & ->). exists (z ++ [FL c m r]), c', l', r'. by rewrite plug_app.
  - by exists [], c, l, r.
  - destruct (IHr Hn) as (z & c' & l' & r' & ->). exists (z ++ [FR c l m]), c', l', r'. by rewrite plug_app.
Qed.

(** C15: removing a node of a red-black tree (rb_erase) ends within 2 log2(n+1) + 2 turns
    of each loop without dereferencing a pointer outside the tree.  It leaves a red-black
    tree of the other nodes in their order, of height at most 2 log2(n+1), and touches no
    other node of the heap. *)
Theorem rb_erase_correct (s : rb_tree) (t : tree) (n : Z) (fuel : nat) :
  holds s t -> rb_ok t -> n ∈ nodes t -> (rb_fuel (length (nodes t)) <= fuel)%nat ->
  exists s' t' before after, rb_erase fuel n s = Ret s' /\ holds s' t' /\ rb_ok t' /\
    nodes t = before ++ n :: after /\ nodes t' = before ++ after /\
    (height t' <= 2 * Nat.log2 (length (nodes t)))%nat /\
    same_outside (nodes t) (fst s) (fst s').
Proof.
  intros H Hok Hn Hf. destruct (nodes_focus t n Hn) as (z & c & l & r & ->).
  destruct (rb_erase_spec s z c l r n fuel H Hok Hf) as (s' & t' & E & H' & Hok' & N & F).
  exists s', t', (zpre z ++ nodes l), (nodes r ++ zpost z). 
  assert (nodes (plug z (Node c l n r)) = (zpre z ++ nodes l) ++ n :: nodes r ++ zpost z) as Nt.
  { rewrite nodes_plug_ord. simpl. by rewrite <- !app_assoc. }
  rewrite <- !app_assoc in N. split; [done|]. split; [done|]. split; [done|]. split; [done|].
  split; [by rewrite <- app_assoc|]. split; [|done].
  pose proof (rb_ok_height t' Hok') as Hh. 
  assert (length (nodes (plug z (Node c l n r))) = S (length (nodes t'))) as ->; [|done].
  rewrite N, Nt, !length_app. simpl. rewrite !length_app. lia.
Qed.

(** ** Traversal *)

Lemma climb_right_spec (fuel : nat) (s : rb_tree) (z : list frame) (c : color) (l r : tree) (n : Z) :
  holds s (plug z (Node c l n r)) -> (length z < fuel)%nat ->
  climb_right fuel n (fst s) = Ret (hd NULL (zpost z)).
Proof.
  revert fuel c l r n. induction z as [|f z IH]; intros fuel c l r n H Hf;
    (destruct fuel as [|fuel]; [simpl in Hf; lia|]); cbn [climb_right].
  - destruct (read_tree s [] _ _ _ _ H) as (-> & _ & _). cbn [deref res_bind]. by rewrite mk_parent.
  - destruct (read_tree s (f :: z) _ _ _ _ H) as (E & Ha & _). rewrite E. cbn [deref res_bind].
    rewrite mk_parent by done. simpl in Hf. destruct f as [c2 p u|c2 u p]; simpl in *;
      destruct (read_tree s z _ _ _ _ H) as (E2 & Ha2 & Hp2); rewrite (proj2 (Z.eqb_neq _ _) Hp2), E2;
      cbn [deref res_bind rb_right mk].
    + destruct (child_test s z _ _ _ _ H) as [Ht _]. specialize (Ht ltac:(done)). simpl in Ht. by rewrite Ht.
    + rewrite Z.eqb_refl. eapply (IH fuel); [exact H|lia].
Qed.
Lemma climb_left_spec (fuel : nat) (s : rb_tree) (z : list frame) (c : color) (l r : tree) (n : Z) :
  holds s (plug z (Node c l n r)) -> (length z < fuel)%nat ->
  climb_left fuel n (fst s) = Ret (default NULL (last (zpre z))).
Proof.
  revert fuel c l r n. induction z as [|f z IH]; intros fuel c l r n H Hf;
    (destruct fuel as [|fuel]; [simpl in Hf; lia|]); cbn [climb_left].
  - destruct (read_tree s [] _ _ _ _ H) as (-> & _ & _). cbn [deref res_bind]. by rewrite mk_parent.
  - destruct (read_tree s (f :: z) _ _ _ _ H) as (E & Ha & _). rewrite E. cbn [deref res_bind].
    rewrite mk_parent by done. simpl in Hf. destruct f as [c2 p u|c2 u p]; simpl in *;
      destruct (read_tree s z _ _ _ _ H) as (E2 & Ha2 & Hp2); rewrite (proj2 (Z.eqb_neq _ _) Hp2), E2;
      cbn [deref res_bind rb_left mk].
    + rewrite Z.eqb_refl. eapply (IH fuel); [exact H|lia].
    + destruct (child_test s z _ _ _ _ H) as [_ Ht]. specialize (Ht ltac:(done)). simpl in Ht.
      rewrite Ht, app_assoc, last_snoc. done.
Qed.

(** [leftmost] and [rightmost] from any subtree. *)
Lemma leftmost_tree (fuel : nat) (h : rb_heap) (t : tree) (par : Z) :
  rep h t par -> t <> Leaf -> (height t <= fuel)%nat -> leftmost fuel (ptr t) h = Ret (hd NULL (nodes t)).
Proof.
  revert fuel par. induction t as [|c l IHl n r _]; intros fuel par Hr Ht Hf; [done|].
  simpl in Hf. destruct fuel as [|fuel]; [lia|]. destruct Hr as (Hn & E & Hl & _). cbn [leftmost ptr].
  rewrite E. cbn [deref res_bind rb_left mk]. destruct l as [|c2 a m b]; [done|].
  cbn [ptr]. rewrite (proj2 (Z.eqb_neq _ _) (proj1 (proj1 Hl))).
  assert (leftmost fuel m h = _) as -> by (apply (IHl fuel n Hl); [done|lia]).
  simpl. by destruct (nodes a).
Qed.
Lemma rightmost_tree (fuel : nat) (h : rb_heap) (t : tree) (par : Z) :
  rep h t par -> t <> Leaf -> (height t <= fuel)%nat ->
  rightmost fuel (ptr t) h = Ret (default NULL (last (nodes t))).
Proof.
  revert fuel par. induction t as [|c l _ n r IHr]; intros fuel par Hr Ht Hf; [done|].
  simpl in Hf. destruct fuel as [|fuel]; [lia|]. destruct Hr as (Hn & E & _ & Hr). cbn [rightmost ptr].
  rewrite E. cbn [deref res_bind rb_right mk]. destruct r as [|c2 a m b].
  - simpl. by rewrite last_snoc.
  - cbn [ptr]. rewrite (proj2 (Z.eqb_neq _ _) (proj1 (proj1 Hr))).
    assert (rightmost fuel m h = _) as -> by (apply (IHr fuel n Hr); [done|lia]). f_equal. f_equal. cbn [nodes].
    by rewrite !last_app, !last_cons, last_app, last_cons; destruct (last (nodes b)).
Qed.

Lemma own_parent (s : rb_tree) (z : list frame) (c : color) (l r : tree) (n : Z) :
  holds s (plug z (Node c l n r)) -> (top z =? n) = false.
Proof.
  intros H. destruct (read_tree _ _ _ _ _ _ H) as (_ & _ & Hn). apply Z.eqb_neq. intros E.
  apply (proj2 (at_plug s z _)) in H as [_ _ Hnd]. apply NoDup_app in Hnd as (_ & Hd & _).
  destruct z as [|f z]; [by subst|]. apply (Hd n); [simpl; set_solver|]. rewrite <- E.
  unfold znodes. destruct f; simpl; set_solver.
Qed.

Lemma rb_next_spec (s : rb_tree) (z : list frame) (c : color) (l r : tree) (n : Z) (fuel : nat) :
  holds s (plug z (Node c l n r)) -> (height (plug z (Node c l n r)) <= fuel)%nat ->
  rb_next fuel n (fst s) = Ret (hd NULL (nodes r ++ zpost z)) /\
  rb_prev fuel n (fst s) = Ret (default NULL (last (zpre z ++ nodes l))).
Proof.
  intros H Hf. pose proof (path_height z (Node c l n r)) as Hp. cbn [height] in Hp.
  destruct (read_tree _ _ _ _ _ _ H) as (E & Ha & _). pose proof (own_parent _ _ _ _ _ _ H) as Ho.
  pose proof (proj2 (at_plug s z _) H) as [(_ & _ & Hl & Hr) _ _].
  unfold rb_next, rb_prev. rewrite E. cbn [deref res_bind]. rewrite mk_parent by done. rewrite Ho.
  cbn [rb_right rb_left mk]. split.
  - destruct r as [|c2 a m b].
    + simpl. eapply climb_right_spec; [exact H|lia].
    + destruct (ptr (Node c2 a m b) =? NULL) eqn:En; [destruct Hr as [[? _] _]; simpl in En; lia|].
      cbn [negb]. rewrite (leftmost_tree fuel (fst s) (Node c2 a m b) n Hr) by (done || lia).
      f_equal. simpl. by destruct (nodes a).
  - destruct l as [|c2 a m b].
    + simpl. rewrite app_nil_r. eapply climb_left_spec; [exact H|lia].
    + destruct (ptr (Node c2 a m b) =? NULL) eqn:En; [destruct Hl as [[? _] _]; simpl in En; lia|].
      cbn [negb]. rewrite (rightmost_tree fuel (fst s) (Node c2 a m b) n Hl) by (done || lia).
      f_equal. cbn [nodes]. rewrite app_assoc, !last_app, !last_cons. by destruct (last (nodes b)).
Qed.

Lemma split_unique (pre post pre' post' : list Z) (n : Z) :
  NoDup (pre ++ n :: post) -> pre ++ n :: post = pre' ++ n :: post' -> pre = pre' /\ post = post'.
Proof.
  revert pre'. induction pre as [|a pre IH]; intros [|b pre'] Hnd E; simpl in *; simplify_eq/=.
  - done.
  - apply NoDup_cons in Hnd as [Hn _]. set_solver.
  - apply NoDup_cons in Hnd as [Hn _]. set_solver.
  - apply NoDup_cons in Hnd as [_ Hnd]. destruct (IH pre' Hnd) as [-> ->]; [|done].
    match goal with H : _ ++ _ = _ ++ _ |- _ => exact H end.
Qed.

(** [rb_first] and [rb_last] return the ends of the tree's order (NULL when it is empty);
    from every node rb_next and rb_prev return its neighbours in that order, NULL at the
    ends.  So the for loops of the callers visit every node once, in order, forwards and
    backwards. *)
Theorem rb_traversal_in_order (s : rb_tree) (t : tree) (fuel : nat) :
  holds s t -> rb_ok t -> (rb_fuel (length (nodes t)) <= fuel)%nat ->
  rb_first fuel s = Ret (hd NULL (nodes t)) /\ rb_last fuel s = Ret (default NULL (last (nodes t))) /\
  forall pre n post, nodes t = pre ++ n :: post ->
    rb_next fuel n (fst s) = Ret (hd NULL post) /\
    rb_prev fuel n (fst s) = Ret (default NULL (last pre)).
Proof.
  intros H Hok Hf. pose proof (rb_ok_height t Hok) as Hh. unfold rb_fuel in Hf. split; [|split].
  - unfold rb_first. rewrite (root_of s [] t H). destruct t as [|c l n r]; [done|].
    destruct (read_tree s [] _ _ _ _ H) as (_ & _ & Hn). cbn [plug ptr].
    rewrite (proj2 (Z.eqb_neq _ _) Hn). apply (leftmost_tree fuel (fst s) (Node c l n r) NULL); [apply H|done|lia].
  - unfold rb_last. rewrite (root_of s [] t H). destruct t as [|c l n r]; [done|].
    destruct (read_tree s [] _ _ _ _ H) as (_ & _ & Hn). cbn [plug ptr].
    rewrite (proj2 (Z.eqb_neq _ _) Hn). apply (rightmost_tree fuel (fst s) (Node c l n r) NULL); [apply H|done|lia].
  - intros pre n post E. assert (n ∈ nodes t) as Hin by (rewrite E; set_solver).
    destruct (nodes_focus t n Hin) as (z & c & l & r & ->).
    assert (nodes (plug z (Node c l n r)) = (zpre z ++ nodes l) ++ n :: nodes r ++ zpost z) as Nt.
    { rewrite nodes_plug_ord. simpl. by rewrite <- !app_assoc. }
    assert (NoDup (nodes (plug z (Node c l n r)))) as Hnd.
    { pose proof (at_nodup _ _ _ H) as Hnd. simpl in Hnd. by rewrite app_nil_r in Hnd. }
    rewrite E in Nt, Hnd. destruct (split_unique _ _ _ _ _ Hnd Nt) as [-> ->].
    apply (rb_next_spec s z c l r n fuel H). lia.
Qed.

(** ** Replacement *)

(** [rb_replace_node] puts the new node exactly where the victim was: same position,
    color, parent and children; the rest of the tree is unchanged. *)
Theorem rb_replace_in_place (s : rb_tree) (z : list frame) (c : color) (l r : tree) (victim new : Z) :
  holds s (plug z (Node c l victim r)) -> ok_ptr new -> new ∉ nodes (plug z (Node c l victim r)) ->
  exists s', rb_replace_node victim new s = Ret s' /\ holds s' (plug z (Node c l new r)) /\
    same_outside (new :: nodes (plug z (Node c l victim r))) (fst s) (fst s').
Proof.
  rewrite nodes_plug, <- at_plug. destruct s as [h root].
  intros [(Hn & E & Hl & Hr) Hc Hnd] Hnew Hin. simpl in *. pose proof (crep_aligned _ _ _ _ Hc) as Ha.
  pose proof Hnd as Hnd'. rewrite <- app_assoc in Hin. simpl in Hin. nodup Hnd.
  unfold rb_replace_node. rewrite E. cbn [deref res_bind]. rewrite mk_parent by done.
  destruct (relink_crep h root z victim new) as (h1 & root1 & -> & _ & Hc1 & Hs1); [done|apply Hn|done|done|].
  cbn [res_bind]. rewrite Hs1, E by done. cbn [deref res_bind rb_left rb_right mk].
  destruct (set_parent_if_rep h1 l victim new) as (h2 & -> & Hl2 & Hs2); [|done|apply Hn|apply Hnew|].
  { eapply rep_agree; [|exact Hl]. intros p Hp. apply Hs1. fresh_solver. }
  cbn [res_bind].
  destruct (set_parent_if_rep h2 r victim new) as (h3 & -> & Hr3 & Hs3); [|done|apply Hn|apply Hnew|].
  { eapply rep_agree; [|exact Hr]. intros p Hp. rewrite Hs2, Hs1 by fresh_solver. done. }
  cbn [res_bind]. rewrite Hs3, Hs2, Hs1, E by fresh_solver. cbn [deref res_bind].
  eexists (_, root1). split; [done|]. split.
  - rewrite <- at_plug. split; simpl.
    + split; [done|]. rewrite lookup_insert_eq. split; [done|].
      split; (apply rep_insert; [fresh_solver|]); [|done].
      eapply rep_agree; [|exact Hl2]. intros p Hp. apply Hs3. fresh_solver.
    + apply crep_insert; [fresh_solver|]. eapply crep_agree; [|exact Hc1].
      intros p Hp. rewrite Hs3, Hs2 by fresh_solver. done.
    + rewrite <- app_assoc in *. simpl in *. rewrite NoDup_app, NoDup_cons in *.
      destruct Hnd' as (? & Hd & ? & ?). split; [done|]. split; [|split; [fresh_solver|done]].
      intros x Hx. specialize (Hd x Hx). apply not_elem_of_cons. split; [fresh_solver|].
      by apply not_elem_of_cons in Hd as [_ ?].
  - intros p Hp. apply not_elem_of_cons in Hp as [? Hp]. rewrite nodes_plug in Hp. simpl in Hp |- *.
    rewrite <- app_assoc in Hp. simpl in Hp. split_mem.
    rewrite lookup_insert_ne by done. rewrite Hs3, Hs2, Hs1 by fresh_solver. done.
Qed.

Module RbEraseDemo.

(** Four nodes: 16 with the children 8 and 24, and 32 below 24. *)
Definition four : rb_tree :=
  ({[ 16 := mk 0 Black 8 24; 8 := mk 16 Black 0 0; 24 := mk 16 Black 0 32; 32 := mk 24 Red 0 0 ]}, 16).
Definition four_tree : tree :=
  Node Black (Node Black Leaf 8 Leaf) 16 (Node Black Leaf 24 (Node Red Leaf 32 Leaf)).

Lemma four_holds : holds four four_tree.
Proof. split; [done|done|]. apply (bool_decide_unpack _). by vm_compute. Qed.
Lemma four_ok : rb_ok four_tree.
Proof. split; [done|]. exists 2%nat. exists 1%nat. split; [done|]. by split; exists O. Qed.

Lemma rb_erase_correct_witness : exists s' t' before after, rb_erase 6 8 four = Ret s' /\ holds s' t' /\ rb_ok t' /\
  [8; 16; 24; 32] = before ++ 8 :: after /\ nodes t' = before ++ after /\
  (height t' <= 4)%nat /\ same_outside [8; 16; 24; 32] (fst four) (fst s').
Proof.
  apply (rb_erase_correct four four_tree 8 6 four_holds four_ok).
  - apply (bool_decide_unpack _). by vm_compute.
  - vm_compute. lia.
Defined.

Lemma rb_traversal_in_order_witness :
  rb_first 6 four = Ret 8 /\ rb_last 6 four = Ret 32 /\
  forall pre n post, [8; 16; 24; 32] = pre ++ n :: post ->
    rb_next 6 n (fst four) = Ret (hd NULL post) /\ rb_prev 6 n (fst four) = Ret (default NULL (last pre)).
Proof. apply (rb_traversal_in_order four four_tree 6 four_holds four_ok). vm_compute. lia. Defined.

Lemma rb_replace_in_place_witness : exists s', rb_replace_node 24 40 four = Ret s' /\
  holds s' (Node Black (Node Black Leaf 8 Leaf) 16 (Node Black Leaf 40 (Node Red Leaf 32 Leaf))) /\
  same_outside (40 :: nodes four_tree) (fst four) (fst s').
Proof.
  apply (rb_replace_in_place four [FR Black (Node Black Leaf 8 Leaf) 16] Black Leaf
           (Node Red Leaf 32 Leaf) 24 40 four_holds).
  - done.
  - apply (bool_decide_unpack _). by vm_compute.
Defined.

End RbEraseDemo.
