(* ===== verification/RbtreeAug.v ===== *)
(** * Augmented red-black trees: rb_augment_* of lib/rbtree.c

    A caller can keep in every node a value that depends on its subtree, and gives a function that computes the value of
    a node from those of its children.  After a change of the tree the values on the way to the root, and those of the
    children beside the way that a rotation may have moved there, are computed again. *)
From S2P Require Import Prelude Rbtree RbtreeRep RbtreeInsert RbtreeErase.

(** ** The code *)
Section Code.
(** The state of the caller, where the values are; [func] has its [data] and the tree in it. *)
Context {D : Type}.
Variable func : Z -> D -> D.

Fixpoint rb_augment_path (fuel : nat) (node : Z) (h : rb_heap) (d : D) : res D :=
  match fuel with
  | O => OutOfFuel
  | S fuel =>
      let d := func node d in
      let! n := deref (h !! node) in
      let parent := rb_parent n in
      if parent =? NULL then Ret d
      else
        let! p := deref (h !! parent) in
        let d := if (node =? rb_left p) && negb (rb_right p =? NULL) then func (rb_right p) d
                 else if negb (rb_left p =? NULL) then func (rb_left p) d else d in
        rb_augment_path fuel parent h d
  end.
Definition rb_augment_insert (fuel : nat) (node : Z) (h : rb_heap) (d : D) : res D :=
  let! n := deref (h !! node) in
  let node := if negb (rb_left n =? NULL) then rb_left n else if negb (rb_right n =? NULL) then rb_right n else node in
  rb_augment_path fuel node h d.
Definition rb_augment_erase_begin (fuel : nat) (node : Z) (h : rb_heap) : res Z :=
  let! n := deref (h !! node) in
  if (rb_right n =? NULL) && (rb_left n =? NULL) then Ret (rb_parent n)
  else if rb_right n =? NULL then Ret (rb_left n)
  else if rb_left n =? NULL then Ret (rb_right n)
  else
    let! deepest := rb_next fuel node h in
    let! m := deref (h !! deepest) in
    if negb (rb_right m =? NULL) then Ret (rb_right m)
    else if negb (rb_parent m =? node) then Ret (rb_parent m)
    else Ret deepest.
Definition rb_augment_erase_end (fuel : nat) (node : Z) (h : rb_heap) (d : D) : res D :=
  if negb (node =? NULL) then rb_augment_path fuel node h d else Ret d.
End Code.

(** ** Values of subtrees *)

(** [func] sets the value of a node from those of its children, and no other one. *)
Class augmented {D V : Type} (h : rb_heap) (func : Z -> D -> D) (val : Z -> D -> V) (none : V) (agg : Z -> V -> V -> V) : Prop := {
  aug_set : forall n x d, h !! n = Some x ->
    val n (func n d) = agg n (if rb_left x =? NULL then none else val (rb_left x) d) (if rb_right x =? NULL then none else val (rb_right x) d);
  aug_keep : forall n m d, m <> n -> val m (func n d) = val m d }.

Section Augmented.
Context {D V : Type} (s : rb_tree) (func : Z -> D -> D) (val : Z -> D -> V) (none : V) (agg : Z -> V -> V -> V).
Context `{!augmented (fst s) func val none agg}.

Definition tval (d : D) (t : tree) : V := match t with Leaf => none | Node _ _ n _ => val n d end.
(** Every value is right; every value but that of the root. *)
Fixpoint good (d : D) (t : tree) : Prop :=
  match t with Leaf => True | Node _ l n r => good d l /\ good d r /\ val n d = agg n (tval d l) (tval d r) end.
Definition almost (d : D) (t : tree) : Prop := match t with Leaf => True | Node _ l _ r => good d l /\ good d r end.
Definition side (f : frame) : tree := match f with FL _ _ r => r | FR _ l _ => l end.
Definition zalmost (d : D) (z : list frame) : Prop := Forall (fun f => almost d (side f)) z.

Lemma tval_keep (d : D) (n : Z) (t : tree) : n ∉ nodes t -> tval (func n d) t = tval d t.
Proof using Type*. intros Hn. destruct t as [|c l m r]; [done|]. cbn. apply aug_keep. intros ->. apply Hn. cbn. set_solver. Qed.
Lemma good_keep (d : D) (n : Z) (t : tree) : n ∉ nodes t -> good d t -> good (func n d) t.
Proof using Type*.
  induction t as [|c l IHl m r IHr]; [done|]. cbn [nodes good]. intros Hn (Hl & Hr & E). assert (n ∉ nodes l /\ n ∉ nodes r /\ m <> n) as (H1 & H2 & H3) by (split_and!; set_solver).
  split; [by apply IHl|]. split; [by apply IHr|]. by rewrite (tval_keep d n l H1), (tval_keep d n r H2), (aug_keep n m d H3).
Qed.
Lemma almost_keep (d : D) (n : Z) (t : tree) : n ∉ nodes t -> almost d t -> almost (func n d) t.
Proof using Type*. destruct t as [|c l m r]; [done|]. cbn [nodes almost]. intros Hn [Hl Hr]. split; apply good_keep; set_solver. Qed.
Lemma zalmost_keep (d : D) (n : Z) (z : list frame) : n ∉ znodes z -> zalmost d z -> zalmost (func n d) z.
Proof using Type*.
  induction z as [|f z IH]; [intros _ _; constructor|]. intros Hn [Hf Hz]%Forall_cons. unfold znodes in Hn. cbn in Hn. apply not_elem_of_app in Hn as [Hn1 Hn2]. constructor; [|by apply IH].
  apply almost_keep; [|done]. destruct f; cbn in *; set_solver.
Qed.
Lemma good_almost (d : D) (t : tree) : good d t -> almost d t.
Proof using Type. destruct t; [done|]. by intros (? & ? & _). Qed.
(** A subtree that is right but for its root becomes right. *)
Lemma func_root (d : D) (c : color) (l r : tree) (n par : Z) : rep (fst s) (Node c l n r) par -> NoDup (nodes (Node c l n r)) -> almost d (Node c l n r) -> good (func n d) (Node c l n r).
Proof using Type*.
  intros (Hn & E & Hl & Hr) Hd [Gl Gr]. cbn [nodes] in Hd. apply NoDup_app in Hd as (_ & Hd1 & [Hd2 _]%NoDup_cons). assert (n ∉ nodes l) by (intros H; apply (Hd1 n H); set_solver). cbn [good].
  split; [by apply good_keep|]. split; [by apply good_keep|]. rewrite (aug_set n _ d E), !tval_keep by done. cbn [rb_left rb_right mk].
  assert (forall t p, rep (fst s) t p -> (if ptr t =? NULL then none else val (ptr t) d) = tval d t) as T.
  { intros t p Ht. destruct t as [|c' l' m r']; [done|]. cbn [ptr tval]. destruct Ht as ((Hm & _) & _). by rewrite (proj2 (Z.eqb_neq _ _) Hm). }
  by rewrite (T l n Hl), (T r n Hr).
Qed.

(** The value of a child beside the way, that is right or only wrong at its root. *)
Lemma func_side (d : D) (t : tree) (par : Z) : rep (fst s) t par -> NoDup (nodes t) -> almost d t -> ptr t <> NULL -> good (func (ptr t) d) t.
Proof using Type*. destruct t as [|c l n r]; [done|]. intros Hr Hd Ha _. by apply (func_root d c l r n par). Qed.
Lemma znodes_cons (f : frame) (z : list frame) : znodes (f :: z) = fnodes f ++ znodes z.
Proof using Type. done. Qed.
(** One step up: the child beside the way, too. *)
Lemma side_step (f : frame) (z : list frame) (c : color) (l r : tree) (n : Z) (d : D) :
  at_pos s (f :: z) (Node c l n r) -> good d (Node c l n r) -> almost d (side f) -> zalmost d z ->
  exists p, fst s !! fnode f = Some p /\
    let d' := if (n =? rb_left p) && negb (rb_right p =? NULL) then func (rb_right p) d else if negb (rb_left p =? NULL) then func (rb_left p) d else d in
    almost d' (up f (Node c l n r)) /\ zalmost d' z.
Proof using Type*.
  intros H Hg Ha Hz. pose proof H as [Hrep Hc Hd]. pose proof (proj1 (proj1 Hrep)) as Hn0. rewrite znodes_cons in Hd. apply NoDup_app in Hd as (Hdt & Hdis & Hdz). apply NoDup_app in Hdz as (Hdf & Hdis2 & _).
  set (t := Node c l n r) in *. assert (n ∈ nodes t) as Hnt by (unfold t; cbn; set_solver).
  destruct f as [c' q sib|c' sib q]; destruct Hc as (Hq & E & Hs & _); eexists; (split; [exact E|]); cbn [rb_left rb_right mk fnode side up ptr] in *; cbn [fnodes] in *; apply NoDup_cons in Hdf as [Hqs Hds].
  - change (ptr t) with n. rewrite Z.eqb_refl. cbn [andb]. destruct (Z.eqb_spec (ptr sib) NULL) as [E0|E0]; cbn [negb].
    + destruct sib as [|]; [|by destruct Hs as ((? & _) & _)]. rewrite (proj2 (Z.eqb_neq _ _) Hn0). cbn [negb].
      split; [split; [|done]|apply zalmost_keep; [|done]]; [by apply (func_root d c l r n (fnode (FL c' q Leaf))), good_almost|]. intros Hi. apply (Hdis n Hnt). set_solver.
    + assert (ptr sib ∈ nodes sib) as Hps by (by apply ptr_nodes). split; [split|].
      * apply good_keep; [|done]. intros Hi. apply (Hdis _ Hi). set_solver.
      * by apply (func_side d sib q).
      * apply zalmost_keep; [|done]. intros Hi. apply (Hdis2 (ptr sib)); [set_solver|done].
  - change (ptr t) with n. assert (n <> ptr sib) as Nn. { intros Eq. destruct sib as [|c2 a m b]; [done|]. cbn in Eq. subst m. apply (Hdis n Hnt). cbn. set_solver. } rewrite (proj2 (Z.eqb_neq _ _) Nn). cbn [andb].
    destruct (Z.eqb_spec (ptr sib) NULL) as [E0|E0]; cbn [negb].
    + destruct sib as [|]; [|by destruct Hs as ((? & _) & _)]. by split.
    + assert (ptr sib ∈ nodes sib) as Hps by (by apply ptr_nodes). split; [split|].
      * by apply (func_side d sib q).
      * apply good_keep; [|done]. intros Hi. apply (Hdis _ Hi). set_solver.
      * apply zalmost_keep; [|done]. intros Hi. apply (Hdis2 (ptr sib)); [set_solver|done].
Qed.
Lemma augment_path (z : list frame) (c : color) (l r : tree) (n : Z) (fuel : nat) (d : D) :
  at_pos s z (Node c l n r) -> almost d (Node c l n r) -> zalmost d z -> (length z < fuel)%nat ->
  exists d', rb_augment_path func fuel n (fst s) d = Ret d' /\ good d' (plug z (Node c l n r)).
Proof using Type*.
  revert c l r n fuel d. induction z as [|f z IH]; intros c l r n fuel d H Ha Hz Hf; (destruct fuel as [|fuel]; [lia|]); cbn [rb_augment_path]; destruct (read_at _ _ _ _ _ _ H) as (E & Hal & _); rewrite E; cbn [deref res_bind]; rewrite mk_parent by done;
    pose proof H as [Hrep Hc Hd]; pose proof Hd as Hd'; apply NoDup_app in Hd' as (Hdt & Hdis & _); pose proof (func_root d c l r n _ Hrep Hdt Ha) as Hg.
  - by eexists.
  - cbn [top]. assert (fnode f <> NULL) as Hp by (destruct f; by destruct Hc as ((? & _) & _)). rewrite (proj2 (Z.eqb_neq _ _) Hp). assert (n ∉ znodes (f :: z)) as Hnz by (apply Hdis; cbn; set_solver).
    pose proof (zalmost_keep d n _ Hnz Hz) as [Hz1 Hz2]%Forall_cons. destruct (side_step f z c l r n (func n d) H Hg Hz1 Hz2) as (p & -> & Ha' & Hz'). cbn [deref res_bind]. apply at_up in H.
    cbn [plug]. destruct f as [c' q sib|c' sib q]; cbn [up fnode] in *; apply IH; (done || cbn in Hf; lia).
Qed.

(** After an insertion: if values are wrong only on the way from the new node to the root, in its two children, and in the
    roots of the subtrees beside the way, then all values are right afterwards. *)
Theorem rb_augment_insert_restores (z : list frame) (c : color) (l r : tree) (n : Z) (fuel : nat) (d : D) :
  holds s (plug z (Node c l n r)) -> almost d l -> almost d r -> zalmost d z -> (height (plug z (Node c l n r)) < fuel)%nat ->
  exists d', rb_augment_insert func fuel n (fst s) d = Ret d' /\ good d' (plug z (Node c l n r)).
Proof using Type*.
  intros H Hl Hr Hz Hf. apply at_plug in H. pose proof (path_height z (Node c l n r)) as Hp. cbn [height] in Hp. unfold rb_augment_insert. destruct (read_at _ _ _ _ _ _ H) as (E & _). rewrite E. cbn [deref res_bind rb_left rb_right mk]. destruct H as [Hrep Hc Hd].
  pose proof Hrep as (Hn & _ & Hrl & Hrr). destruct l as [|c1 a m b]; cbn [ptr].
  - change (NULL =? NULL) with true. cbn [negb]. destruct r as [|c2 a2 m2 b2]; cbn [ptr].
    + change (NULL =? NULL) with true. cbn [negb]. apply (augment_path z c Leaf Leaf n); [by split|done|done|lia].
    + rewrite (proj2 (Z.eqb_neq _ _) (proj1 (proj1 Hrr))). cbn [negb]. apply (augment_path (FR c Leaf n :: z) c2 a2 b2 m2); [by apply at_up|done|by constructor|cbn; lia].
  - rewrite (proj2 (Z.eqb_neq _ _) (proj1 (proj1 Hrl))). cbn [negb]. apply (augment_path (FL c n r :: z) c1 a b m); [by apply at_up|done|by constructor|cbn; lia].
Qed.
(** After a removal, from the node that [rb_augment_erase_begin] found. *)
Theorem rb_augment_erase_end_restores (z : list frame) (t : tree) (fuel : nat) (d : D) :
  holds s (plug z t) -> almost d t -> zalmost d z -> (t = Leaf -> z = []) -> (height (plug z t) < fuel)%nat ->
  exists d', rb_augment_erase_end func fuel (ptr t) (fst s) d = Ret d' /\ good d' (plug z t).
Proof using Type*.
  intros H Ha Hz Ht Hf. apply at_plug in H. pose proof (path_height z t) as Hp. unfold rb_augment_erase_end. destruct t as [|c l n r].
  - rewrite (Ht eq_refl) in *. by eexists.
  - cbn [ptr]. rewrite (proj2 (Z.eqb_neq _ _) (proj1 (proj1 (at_rep _ _ _ H)))). cbn [negb]. apply augment_path; [done..|cbn [height] in Hp; lia].
Qed.
End Augmented.

(** The deepest node on the way that rebalancing goes when the node is removed: its parent or its only child; with two
    children, the child of its successor, else the parent of the successor, or the successor itself when that parent is
    the node. *)
Theorem rb_augment_erase_begin_spec (s : rb_tree) (z : list frame) (c : color) (l r : tree) (n : Z) (fuel : nat) :
  holds s (plug z (Node c l n r)) -> (height (plug z (Node c l n r)) <= fuel)%nat ->
  (l = Leaf -> r = Leaf -> rb_augment_erase_begin fuel n (fst s) = Ret (top z)) /\
  (l <> Leaf -> r = Leaf -> rb_augment_erase_begin fuel n (fst s) = Ret (ptr l)) /\
  (l = Leaf -> r <> Leaf -> rb_augment_erase_begin fuel n (fst s) = Ret (ptr r)) /\
  (forall z2 c2 m r2, l <> Leaf -> r = plug z2 (Node c2 Leaf m r2) -> hd NULL (nodes r) = m ->
     rb_augment_erase_begin fuel n (fst s) = Ret (match r2, z2 with Node _ _ q _, _ => q | Leaf, f :: _ => fnode f | Leaf, [] => m end)).
Proof.
  intros H Hf. destruct (read_tree _ _ _ _ _ _ H) as (E & Ha & Hn). pose proof (proj2 (at_plug s z _) H) as [(_ & _ & Hl & Hr) _ _]. unfold rb_augment_erase_begin. rewrite E. cbn [deref res_bind rb_left rb_right mk]. rewrite mk_parent by done.
  pose proof (proj1 (rep_ptr _ _ _ Hl)) as Pl. pose proof (proj1 (rep_ptr _ _ _ Hr)) as Pr. split; [|split; [|split]].
  - by intros -> ->.
  - intros Nl ->. cbn [ptr]. rewrite Z.eqb_refl. cbn [andb]. destruct (Z.eqb_spec (ptr l) NULL) as [E0|]; [by apply Pl in E0|done].
  - intros -> Nr. cbn [ptr]. rewrite Z.eqb_refl, andb_true_r. destruct (Z.eqb_spec (ptr r) NULL) as [E0|]; [by apply Pr in E0|done].
  - intros z2 c2 m r2 Nl Er Hh. assert (r <> Leaf) as Nr by (rewrite Er; intros E0; apply (f_equal (fun t => length (nodes t))) in E0; rewrite nodes_plug in E0; cbn in E0; lia).
    destruct (Z.eqb_spec (ptr r) NULL) as [E0|]; [by apply Pr in E0|]. destruct (Z.eqb_spec (ptr l) NULL) as [E0|]; [by apply Pl in E0|]. cbn [andb]. destruct (rb_next_spec s z c l r n fuel H Hf) as [-> _]. cbn [res_bind].
    assert (hd NULL (nodes r ++ zpost z) = m) as ->. { rewrite <- Hh. destruct (nodes r) eqn:En; [|done]. destruct r; [done|]. cbn in En. by destruct (nodes r1). }
    assert (holds s (plug (z2 ++ FR c l n :: z) (Node c2 Leaf m r2))) as H2. { rewrite plug_app. cbn [plug up]. by rewrite <- Er. }
    destruct (read_tree _ _ _ _ _ _ H2) as (E2 & Ha2 & Hm). pose proof (proj2 (at_plug s _ _) H2) as [(_ & _ & _ & Hr2) _ _]. pose proof (own_parent _ _ _ _ _ _ H) as Ho. rewrite E2. cbn [deref res_bind rb_right mk]. rewrite mk_parent by done.
    destruct r2 as [|c3 a q b]; cbn [ptr].
    + change (NULL =? NULL) with true. cbn [negb]. destruct z2 as [|f z2]; cbn [app top fnode]; [by rewrite Z.eqb_refl|].
      assert (fnode f <> n) as Nf. { apply (proj2 (at_plug s _ _)) in H2 as [_ _ Hnd]. cbn [app] in Hnd. rewrite znodes_cons in Hnd. apply NoDup_app in Hnd as (_ & _ & (_ & Hnd & _)%NoDup_app). intros Eq. apply (Hnd n); [rewrite <- Eq; destruct f; cbn; set_solver|].
        unfold znodes. rewrite bind_app. cbn. set_solver. }
      by rewrite (proj2 (Z.eqb_neq _ _) Nf).
    + by rewrite (proj2 (Z.eqb_neq _ _) (proj1 (proj1 Hr2))).
Qed.

(** ** The number of nodes of every subtree *)
Module RbtreeSizes.

Definition sizes (h : rb_heap) (n : Z) (d : gmap Z Z) : gmap Z Z :=
  let at_ p := if p =? NULL then 0 else default 0 (d !! p) in
  match h !! n with Some x => <[n := 1 + at_ (rb_left x) + at_ (rb_right x)]> d | None => d end.
#[export] Instance sizes_augmented (h : rb_heap) : augmented h (sizes h) (fun n d => default 0 (d !! n)) 0 (fun _ a b => 1 + a + b).
Proof.
  split.
  - intros n x d E. unfold sizes. rewrite E, lookup_insert_eq. done.
  - intros n m d N. unfold sizes. destruct (h !! n); [|done]. by rewrite lookup_insert_ne.
Qed.
Lemma good_sizes (d : gmap Z Z) (t : tree) :
  good (fun n d => default 0 (d !! n)) 0 (fun _ a b => 1 + a + b) d t -> tval (fun n d => default 0 (d !! n)) 0 d t = Z.of_nat (length (nodes t)).
Proof. induction t as [|c l IHl n r IHr]; [done|]. cbn [good tval nodes]. intros (Hl & Hr & ->). rewrite IHl, IHr by done. rewrite length_app. cbn [length]. lia. Qed.
(** Four nodes; the last one inserted is counted on the way up. *)
Example sizes_of_four : (let! d := rb_augment_insert (sizes (fst RbEraseDemo.four)) 6 32 (fst RbEraseDemo.four) {[ 8 := 1; 16 := 3; 24 := 1 ]} in
  Ret ((fun n => d !! n) <$> [8; 16; 24; 32])) = Ret [Some 1; Some 4; Some 2; Some 1].
Proof. by vm_compute. Qed.

End RbtreeSizes.
