(* ===== verification/Mem.v ===== *)
(** * The port's slab allocator: arch/lkl/kernel/mem.c

    With CONFIG_LKL_SLAB every object of the kernel is a block of the host, and a
    red-black tree of [struct mem_block_meta], kept outside of the blocks, remembers
    the size of each.  The theorems relate the tree to a finite map from block
    addresses to sizes; the page setup of the same file is in Bootmem. *)
From stdpp Require Import sorting.
From S2P Require Import Prelude Native EnvPosix Rbtree RbtreeRep RbtreeInsert RbtreeErase.

Record mem_block_meta := Meta { block : Z; size : Z }.
#[global] Instance mem_block_meta_eq_dec : EqDecision mem_block_meta.
Proof. solve_decision. Defined.

(** [struct mem_block_meta] is a pointer, a [size_t] and an [rb_node] of three words. *)
Definition sizeof_meta : Z := 40.
Definition sizeof_kmem_cache : Z := 32.
Definition sizeof_mem_block_rcu : Z := 24.
Definition rb_offset : Z := 16.
Definition rb_entry (i : Z) : Z := i - rb_offset.
Definition rb_of (mbm : Z) : Z := mbm + rb_offset.

Definition SLAB_PANIC : Z := 0x00040000.
Definition SLAB_DESTROY_BY_RCU : Z := 0x00080000.

Record kmem_cache := Kmem_cache {
  cache_size : Z; cache_flags : Z; cache_name : Z; cache_ctor : Z }.

(** [meta_tree] with the nodes it reaches, the other fields of each
    [mem_block_meta], the caches, the RCU callbacks that wait for a grace period, and
    the constructor calls made so far (function, block). *)
Record slab := Slab {
  meta_tree : rb_tree; metas : gmap Z mem_block_meta; caches : gmap Z kmem_cache;
  rcu_blocks : gmap Z Z; ctor_calls : list (Z * Z); lkl_slab_ready : Z }.

Definition set_tree (t : rb_tree) (s : slab) : slab :=
  Slab t (metas s) (caches s) (rcu_blocks s) (ctor_calls s) (lkl_slab_ready s).
Definition set_metas (m : gmap Z mem_block_meta) (s : slab) : slab :=
  Slab (meta_tree s) m (caches s) (rcu_blocks s) (ctor_calls s) (lkl_slab_ready s).
Definition set_caches (c : gmap Z kmem_cache) (s : slab) : slab :=
  Slab (meta_tree s) (metas s) c (rcu_blocks s) (ctor_calls s) (lkl_slab_ready s).
Definition set_rcu (r : gmap Z Z) (s : slab) : slab :=
  Slab (meta_tree s) (metas s) (caches s) r (ctor_calls s) (lkl_slab_ready s).
Definition log_ctor (f b : Z) (s : slab) : slab :=
  Slab (meta_tree s) (metas s) (caches s) (rcu_blocks s) (ctor_calls s ++ [(f, b)]) (lkl_slab_ready s).

(** ** The block table *)

(** The [while] loop of [mem_block_find_meta]. *)
Fixpoint find_meta_loop (fuel : nat) (i b : Z) (s : slab) : res Z :=
  match fuel with
  | O => OutOfFuel
  | S fuel =>
      if i =? NULL then Ret NULL
      else
        let mbm := rb_entry i in
        let! m := deref (metas s !! mbm) in
        if b <? block m then
          let! n := deref (fst (meta_tree s) !! i) in find_meta_loop fuel (rb_left n) b s
        else if block m <? b then
          let! n := deref (fst (meta_tree s) !! i) in find_meta_loop fuel (rb_right n) b s
        else if negb (b =? block m) then Ret NULL
        else Ret mbm
  end.
Definition mem_block_find_meta (fuel : nat) (b : Z) (s : slab) : res Z :=
  find_meta_loop fuel (snd (meta_tree s)) b s.

(** The descent of [mem_block_insert_meta]: [p] and [parent] when [*p] is NULL. *)
Fixpoint insert_meta_loop (fuel : nat) (cur : Z) (p : rb_link) (parent b : Z) (s : slab) : res (rb_link * Z) :=
  match fuel with
  | O => OutOfFuel
  | S fuel =>
      if cur =? NULL then Ret (p, parent)
      else
        let! i := deref (metas s !! rb_entry cur) in
        let! n := deref (fst (meta_tree s) !! cur) in
        if b <? block i then insert_meta_loop fuel (rb_left n) (LinkLeft cur) cur b s
        else if block i <? b then insert_meta_loop fuel (rb_right n) (LinkRight cur) cur b s
        else Bug
  end.
Definition mem_block_insert_meta (fuel : nat) (mbm : Z) (s : slab) : res slab :=
  let! m := deref (metas s !! mbm) in
  let! (p, parent) := insert_meta_loop fuel (snd (meta_tree s)) LinkRoot NULL (block m) s in
  let! t := rb_link_node (rb_of mbm) parent p (meta_tree s) in
  let! t := rb_insert_color fuel (rb_of mbm) t in
  Ret (set_tree t s).

(** The memory of a [mem_block_meta] goes back to the host with its node. *)
Definition drop_meta (mbm : Z) (s : slab) : slab :=
  set_metas (delete mbm (metas s))
    (set_tree (delete (rb_of mbm) (fst (meta_tree s)), snd (meta_tree s)) s).

Section slab_ops.
Context {N : Type} {ops : lkl_native_operations N}.

(** ** Blocks.  [mem_alloc] takes an [unsigned int]. *)
Definition __alloc_mem_block (fuel : nat) (sz : Z) (st : N * slab) : res (Z * (N * slab)) :=
  let '(n, s) := st in
  let '(mbm, n) := mem_alloc (u32 sizeof_meta) n in
  if mbm =? NULL then Ret (NULL, (n, s))
  else
    let '(b, n) := mem_alloc (u32 sz) n in
    if b =? NULL then
      let! n := mem_free mbm n in Ret (NULL, (n, s))
    else
      let! s := mem_block_insert_meta fuel mbm (set_metas (<[mbm := Meta b sz]> (metas s)) s) in
      Ret (mbm, (n, s)).

Definition alloc_mem_block (fuel : nat) (sz : Z) (st : N * slab) : res (Z * (N * slab)) :=
  let! (mbm, (n, s)) := __alloc_mem_block fuel sz st in
  if mbm =? NULL then Ret (NULL, (n, s))
  else let! m := deref (metas s !! mbm) in Ret (block m, (n, s)).

Definition free_mem_block (fuel : nat) (b : Z) (st : N * slab) : res (N * slab) :=
  let '(n, s) := st in
  let! mbm := mem_block_find_meta fuel b s in
  if mbm =? NULL then Bug
  else
    let! t := rb_erase fuel (rb_of mbm) (meta_tree s) in
    let s := drop_meta mbm (set_tree t s) in
    let! n := mem_free mbm n in
    let! n := mem_free b n in
    Ret (n, s).

(** ** The kernel's interface *)
Definition __kmalloc (fuel : nat) (sz : Z) (st : N * slab) : res (Z * (N * slab)) :=
  alloc_mem_block fuel sz st.
Definition kmalloc (fuel : nat) (sz : Z) (st : N * slab) : res (Z * (N * slab)) := __kmalloc fuel sz st.

Definition kfree (fuel : nat) (b : Z) (st : N * slab) : res (N * slab) :=
  if b =? NULL then Ret st else free_mem_block fuel b st.

Definition ksize (fuel : nat) (b : Z) (s : slab) : res Z :=
  let! mbm := mem_block_find_meta fuel b s in
  if mbm =? NULL then Bug else let! m := deref (metas s !! mbm) in Ret (size m).

(** [c->size] is an [unsigned int]; a failed allocation with SLAB_PANIC panics. *)
Definition kmem_cache_create (fuel : nat) (name sz flags ctor : Z) (st : N * slab) : res (Z * (N * slab)) :=
  let! (c, (n, s)) := alloc_mem_block fuel sizeof_kmem_cache st in
  if negb (c =? NULL) then
    Ret (c, (n, set_caches (<[c := Kmem_cache (u32 sz) flags name ctor]> (caches s)) s))
  else if negb (Z.land flags SLAB_PANIC =? 0) then Bug
  else Ret (c, (n, s)).

Definition kmem_cache_destroy (fuel : nat) (c : Z) (st : N * slab) : res (N * slab) :=
  let! (n, s) := free_mem_block fuel c st in
  Ret (n, set_caches (delete c (caches s)) s).

Definition kmem_cache_alloc (fuel : nat) (c : Z) (st : N * slab) : res (Z * (N * slab)) :=
  let! k := deref (caches (snd st) !! c) in
  let! (b, (n, s)) := alloc_mem_block fuel (cache_size k) st in
  if negb (cache_ctor k =? NULL) then Ret (b, (n, log_ctor (cache_ctor k) b s))
  else Ret (b, (n, s)).

Definition __kmem_cache_free (fuel : nat) (b : Z) (st : N * slab) : res (N * slab) :=
  free_mem_block fuel b st.

(** The callback that [call_rcu] runs after a grace period. *)
Definition kmem_rcu_free (fuel : nat) (mbr : Z) (st : N * slab) : res (N * slab) :=
  let! b := deref (rcu_blocks (snd st) !! mbr) in
  let! (n, s) := free_mem_block fuel b st in
  let! n := mem_free mbr n in
  Ret (n, set_rcu (delete mbr (rcu_blocks s)) s).

(** When the host has no memory for the RCU record, the NULL is printed and then
    dereferenced. *)
Definition kmem_cache_free (fuel : nat) (c b : Z) (st : N * slab) : res (N * slab) :=
  let '(n, s) := st in
  let! k := deref (caches s !! c) in
  if negb (Z.land (cache_flags k) SLAB_DESTROY_BY_RCU =? 0) then
    let '(mbr, n) := mem_alloc (u32 sizeof_mem_block_rcu) n in
    if mbr =? NULL then Bug
    else Ret (n, set_rcu (<[mbr := b]> (rcu_blocks s)) s)
  else __kmem_cache_free fuel b (n, s).

Definition kmem_cache_size (c : Z) (s : slab) : res Z :=
  let! k := deref (caches s !! c) in Ret (cache_size k).
Definition kmem_cache_name (c : Z) (s : slab) : res Z :=
  let! k := deref (caches s !! c) in Ret (cache_name k).
Definition kmem_cache_shrink (c : Z) : Z := 0.

Definition kmem_ptr_validate (fuel : nat) (c b : Z) (s : slab) : res Z :=
  let! mbm := mem_block_find_meta fuel b s in
  Ret (if mbm =? NULL then - EINVAL else 0).

Definition slab_is_available (s : slab) : Z := lkl_slab_ready s.
Definition kmem_cache_init (s : slab) : slab :=
  Slab (meta_tree s) (metas s) (caches s) (rcu_blocks s) (ctor_calls s) 1.

End slab_ops.

(** ** The table as a sorted tree *)

(** The key of a tree node: the block that its record describes. *)
Definition key (M : gmap Z mem_block_meta) (x : Z) : Z := default NULL (block <$> M !! rb_entry x).
Definition in_order (M : gmap Z mem_block_meta) (l : list Z) : Prop := StronglySorted Z.lt (key M <$> l).

Lemma in_order_app (M : gmap Z mem_block_meta) (l1 l2 : list Z) :
  in_order M (l1 ++ l2) <->
  in_order M l1 /\ in_order M l2 /\ (forall x y, x ∈ l1 -> y ∈ l2 -> key M x < key M y).
Proof.
  unfold in_order. rewrite fmap_app, StronglySorted_app. split.
  - intros (H & H1 & H2). split_and!; [done|done|]. intros x y Hx Hy.
    apply H; apply list_elem_of_fmap; eauto.
  - intros (H1 & H2 & H). split_and!; [|done|done]. intros x y Hx Hy.
    apply list_elem_of_fmap in Hx as (x' & -> & Hx'), Hy as (y' & -> & Hy'). by apply H.
Qed.
Lemma in_order_cons (M : gmap Z mem_block_meta) (n : Z) (l : list Z) :
  in_order M (n :: l) <-> in_order M l /\ (forall y, y ∈ l -> key M n < key M y).
Proof.
  rewrite (in_order_app M [n] l). split.
  - intros (_ & H & Hlt). split; [done|]. intros y Hy. apply Hlt; [set_solver|done].
  - intros [H Hlt]. split_and!; [repeat constructor|done|]. intros x y Hx Hy.
    apply list_elem_of_singleton in Hx as ->. by apply Hlt.
Qed.
Lemma in_order_ext (M M' : gmap Z mem_block_meta) (l : list Z) :
  (forall x, x ∈ l -> key M' x = key M x) -> in_order M l -> in_order M' l.
Proof.
  intros He. unfold in_order. assert (key M' <$> l = key M <$> l) as ->; [|done].
  apply list_fmap_ext. intros i x Hx. apply He. by eapply list_elem_of_lookup_2.
Qed.
Lemma in_order_insert (M : gmap Z mem_block_meta) (l1 l2 : list Z) (n : Z) :
  in_order M (l1 ++ l2) -> (forall x, x ∈ l1 -> key M x < key M n) ->
  (forall x, x ∈ l2 -> key M n < key M x) -> in_order M (l1 ++ n :: l2).
Proof.
  rewrite !in_order_app, in_order_cons. intros (H1 & H2 & H) Hl Hr. split_and!; try done.
  intros x y Hx. rewrite elem_of_cons. intros [->|Hy]; auto.
Qed.
Lemma in_order_delete (M : gmap Z mem_block_meta) (l1 l2 : list Z) (n : Z) :
  in_order M (l1 ++ n :: l2) -> in_order M (l1 ++ l2).
Proof.
  rewrite !in_order_app, in_order_cons. intros (H1 & [H2 _] & H). split_and!; try done.
  intros x y Hx Hy. apply H; [done|]. by right.
Qed.

(** The search follows the order. *)
Lemma find_meta_spec (s : slab) (t : tree) (par b : Z) (fuel : nat) :
  rep (fst (meta_tree s)) t par -> in_order (metas s) (nodes t) ->
  (forall x, x ∈ nodes t -> is_Some (metas s !! rb_entry x)) -> (height t < fuel)%nat ->
  (forall x, x ∈ nodes t -> key (metas s) x = b -> find_meta_loop fuel (ptr t) b s = Ret (rb_entry x)) /\
  ((forall x, x ∈ nodes t -> key (metas s) x <> b) -> find_meta_loop fuel (ptr t) b s = Ret NULL).
Proof.
  revert par fuel. induction t as [|c l IHl n r IHr]; intros par fuel Hr Hs Hm Hf;
    (destruct fuel as [|fuel]; [lia|]); cbn [nodes height] in *.
  { split; [intros x Hx; set_solver|done]. }
  destruct Hr as ((Hn & _) & E & Hl & Hr).
  apply in_order_app in Hs as (Sl & Sr & Slt). apply in_order_cons in Sr as [Sr Srt].
  destruct (Hm n) as [mn En]; [set_solver|].
  assert (key (metas s) n = block mn) as Kn by (unfold key; by rewrite En).
  destruct (IHl n fuel Hl Sl) as [Fl Nl]; [set_solver|lia|].
  destruct (IHr n fuel Hr Sr) as [Fr Nr]; [set_solver|lia|].
  cbn [find_meta_loop ptr]. rewrite (proj2 (Z.eqb_neq _ _) Hn), En, E. cbn [deref res_bind rb_left rb_right mk].
  rewrite <- Kn. split.
  - intros x Hx Kx. apply elem_of_app in Hx as [Hx|Hx]; [|apply elem_of_cons in Hx as [->|Hx]].
    + pose proof (Slt x n Hx ltac:(set_solver)) as Hlt. destruct (b <? key (metas s) n) eqn:Eb; [by apply Fl|lia].
    + rewrite <- Kx, !Z.ltb_irrefl, Z.eqb_refl. done.
    + pose proof (Srt x Hx) as Hlt. destruct (b <? key (metas s) n) eqn:Eb; [lia|].
      destruct (key (metas s) n <? b) eqn:Eb2; [by apply Fr|lia].
  - intros Hno. pose proof (Hno n ltac:(set_solver)). destruct (b <? key (metas s) n) eqn:Eb; [apply Nl; set_solver|].
    destruct (key (metas s) n <? b) eqn:Eb2; [apply Nr; set_solver|]. lia.
Qed.

(** The descent ends in the hole where the block belongs. *)
Lemma insert_meta_spec (s : slab) (t : tree) (z : list frame) (b : Z) (fuel : nat) :
  holds (meta_tree s) (plug z t) -> in_order (metas s) (nodes t) ->
  (forall x, x ∈ nodes t -> is_Some (metas s !! rb_entry x)) -> (height t < fuel)%nat ->
  (forall x, x ∈ nodes t -> key (metas s) x <> b) ->
  (forall x, x ∈ zpre z -> key (metas s) x < b) -> (forall x, x ∈ zpost z -> b < key (metas s) x) ->
  exists z', insert_meta_loop fuel (ptr t) (link_of z) (top z) b s = Ret (link_of z', top z') /\
    plug z t = plug z' Leaf /\
    (forall x, x ∈ zpre z' -> key (metas s) x < b) /\ (forall x, x ∈ zpost z' -> b < key (metas s) x).
Proof.
  revert z fuel. induction t as [|c l IHl n r IHr]; intros z fuel H Hs Hm Hf Hno Hpre Hpost;
    (destruct fuel as [|fuel]; [lia|]); cbn [nodes height] in *.
  { exists z. done. }
  destruct (read_tree _ _ _ _ _ _ H) as (E & _ & Hn).
  apply in_order_app in Hs as (Sl & Sr & Slt). apply in_order_cons in Sr as [Sr Srt].
  destruct (Hm n) as [mn En]; [set_solver|].
  assert (key (metas s) n = block mn) as Kn by (unfold key; by rewrite En).
  pose proof (Hno n ltac:(set_solver)) as Hnb.
  cbn [insert_meta_loop ptr]. rewrite (proj2 (Z.eqb_neq _ _) Hn), En, E.
  cbn [deref res_bind rb_left rb_right mk]. rewrite <- Kn. destruct (b <? key (metas s) n) eqn:Eb.
  - apply (IHl (FL c n r :: z)); [done|done|set_solver|lia|set_solver|done|]. simpl.
    intros x. rewrite elem_of_cons, elem_of_app. intros [->|[Hx|Hx]]; [lia| |by apply Hpost].
    pose proof (Srt x Hx). lia.
  - assert ((key (metas s) n <? b) = true) as -> by lia.
    apply (IHr (FR c l n :: z)); [done|done|set_solver|lia|set_solver| |done]. simpl.
    intros x. rewrite !elem_of_app, list_elem_of_singleton. intros [Hx|[Hx| ->]]; [by apply Hpre| |lia].
    pose proof (Slt x n Hx ltac:(set_solver)). lia.
Qed.

Lemma rb_fuel_mono (a b : nat) : (a <= b)%nat -> (rb_fuel a <= rb_fuel b)%nat.
Proof. intros H. unfold rb_fuel. pose proof (Nat.log2_le_mono (S a) (S b) ltac:(lia)). lia. Qed.

Section slab_spec.
Context {N : Type} {ops : lkl_native_operations N} {laws : native_laws N}.

(** The host's allocator returns addresses aligned for any object, as the low bits of a
    parent pointer require. *)
Definition aligned_alloc : Prop := forall sz n p n', mem_alloc sz n = (p, n') -> aligned p.

(** The allocator's state stands for the map [m] from live blocks to their sizes: the tree
    is a red-black tree of the records in the order of the blocks, and records and blocks
    are different live blocks of the host. *)
Record slab_rep (n : N) (s : slab) (m : gmap Z Z) (t : tree) : Prop := {
  sl_tree : holds (meta_tree s) t;
  sl_rb : rb_ok t;
  sl_nodes : forall x, x ∈ nodes t <-> is_Some (metas s !! rb_entry x);
  sl_order : in_order (metas s) (nodes t);
  sl_len : length (nodes t) = base.size m;
  sl_map : forall b sz, m !! b = Some sz <-> exists mbm, metas s !! mbm = Some (Meta b sz);
  sl_host : forall mbm b sz, metas s !! mbm = Some (Meta b sz) ->
    blocks n !! mbm = Some (u32 sizeof_meta) /\ blocks n !! b = Some (u32 sz) /\
    mbm <> NULL /\ b <> NULL;
  sl_disj : forall mbm b sz, metas s !! mbm = Some (Meta b sz) -> metas s !! b = None }.

Definition slab_inv (n : N) (s : slab) (m : gmap Z Z) : Prop := exists t, slab_rep n s m t.

Lemma slab_inv_init (n : N) (c : gmap Z kmem_cache) (r : gmap Z Z) (l : list (Z * Z)) (v : Z) :
  slab_inv n (Slab (∅, NULL) ∅ c r l v) ∅.
Proof.
  exists Leaf. split; simpl; try done.
  - split; [done|done|]. simpl. apply NoDup_nil_2.
  - split; [done|]. by exists O.
  - intros x. rewrite lookup_empty. split; [set_solver|by intros []].
  - constructor.
  - intros b sz. rewrite lookup_empty. split; [done|]. intros [mbm H]. by rewrite lookup_empty in H.
Qed.

#[local] Set Default Proof Using "Type laws".

Lemma rb_entry_of (mbm : Z) : rb_entry (rb_of mbm) = mbm.
Proof. unfold rb_entry, rb_of. lia. Qed.
Lemma rb_of_entry (x : Z) : rb_of (rb_entry x) = x.
Proof. unfold rb_entry, rb_of. lia. Qed.

(** Looking a block up in the table. *)
Lemma find_meta_inv (n : N) (s : slab) (m : gmap Z Z) (t : tree) (b : Z) (fuel : nat) :
  slab_rep n s m t -> (rb_fuel (base.size m) <= fuel)%nat ->
  match m !! b with
  | Some sz => exists mbm, mem_block_find_meta fuel b s = Ret mbm /\ mbm <> NULL /\
                 metas s !! mbm = Some (Meta b sz)
  | None => mem_block_find_meta fuel b s = Ret NULL
  end.
Proof.
  intros [Ht Hrb Hn Ho Hlen Hm Hh Hd] Hf. unfold mem_block_find_meta.
  pose proof (rb_ok_height t Hrb). unfold rb_fuel in Hf. rewrite Hlen in *.
  rewrite (root_of _ [] t Ht). cbn [plug].
  destruct (find_meta_spec s t NULL b fuel) as [Fy Fn]; [apply Ht|done|intros x; by apply Hn|lia|].
  destruct (m !! b) as [sz|] eqn:E.
  - apply Hm in E as [mbm Em]. exists mbm. destruct (Hh _ _ _ Em) as (_ & _ & ? & _). split_and!; [|done|done].
    rewrite <- (rb_entry_of mbm). apply Fy; [apply Hn; by rewrite rb_entry_of|].
    unfold key. by rewrite rb_entry_of, Em.
  - apply Fn. intros x Hx Kx. apply Hn in Hx as [[b' sz] Ex]. unfold key in Kx. rewrite Ex in Kx.
    simpl in Kx. subst b'. assert (m !! b = Some sz) by (apply Hm; eauto). congruence.
Qed.

Lemma slab_blocks_fresh (n : N) (s : slab) (m : gmap Z Z) (t : tree) (p : Z) :
  slab_rep n s m t -> blocks n !! p = None -> metas s !! p = None /\ m !! p = None.
Proof.
  intros [_ _ _ _ _ Hm Hh _] Hp. split.
  - destruct (metas s !! p) as [[b sz]|] eqn:E; [|done]. destruct (Hh _ _ _ E) as (? & _). congruence.
  - destruct (m !! p) as [sz|] eqn:E; [|done]. apply Hm in E as [mbm Em].
    destruct (Hh _ _ _ Em) as (_ & ? & _). congruence.
Qed.

(** The invariant after a record was inserted or removed, given the new tree. *)
Lemma slab_rep_insert (n n' : N) (s : slab) (m : gmap Z Z) (t t' : tree) (pt : rb_tree) (mbm b sz : Z)
    (pre post : list Z) :
  slab_rep n s m t -> blocks n !! mbm = None -> blocks n !! b = None -> mbm <> b ->
  mbm <> NULL -> b <> NULL ->
  blocks n' = <[b := u32 sz]> (<[mbm := u32 sizeof_meta]> (blocks n)) ->
  holds pt t' -> rb_ok t' -> nodes t = pre ++ post -> nodes t' = pre ++ rb_of mbm :: post ->
  in_order (<[mbm := Meta b sz]> (metas s)) (nodes t') ->
  slab_rep n' (set_tree pt (set_metas (<[mbm := Meta b sz]> (metas s)) s)) (<[b := sz]> m) t'.
Proof.
  intros Hrep Hfm Hfb Hne HmN HbN Hn' Hpt Hrb' Nt Nt' Ho'.
  destruct (slab_blocks_fresh _ _ _ _ _ Hrep Hfm) as [Mm Fm]. destruct (slab_blocks_fresh _ _ _ _ _ Hrep Hfb) as [Mb Fb].
  destruct Hrep as [Ht Hrb Hn Ho Hlen Hm Hh Hd].
  split; simpl; try done.
  - intros x. rewrite Nt', elem_of_app, elem_of_cons.
    assert (x ∈ nodes t <-> x ∈ pre \/ x ∈ post) as Hx by (by rewrite Nt, elem_of_app).
    rewrite lookup_insert. case_decide as E.
    + rewrite E, rb_of_entry. split; [by eauto|]. intros _. right. by left.
    + rewrite <- Hn, Hx. assert (x <> rb_of mbm) by (intros ->; by rewrite rb_entry_of in E). tauto.
  - rewrite Nt', length_app. simpl. rewrite map_size_insert_None by done. rewrite <- Hlen, Nt, length_app. lia.
  - intros b' sz'. rewrite lookup_insert. case_decide as E.
    + subst b'. split.
      * intros [= <-]. exists mbm. by rewrite lookup_insert_eq.
      * intros [mbm' E']. rewrite lookup_insert in E'. case_decide; [congruence|].
        assert (m !! b = Some sz') by (apply Hm; eauto). congruence.
    + rewrite Hm. split; intros [mbm' E'].
      * exists mbm'. rewrite lookup_insert_ne; [done|]. intros ->. congruence.
      * rewrite lookup_insert in E'. case_decide; [congruence|]. by exists mbm'.
  - intros mbm' b' sz'. rewrite Hn', lookup_insert. case_decide as E.
    + intros [= <- <-]. subst mbm'. by rewrite lookup_insert_ne, !lookup_insert_eq by done.
    + intros E'. destruct (Hh _ _ _ E') as (B1 & B2 & ?).
      rewrite !lookup_insert_ne by congruence. done.
  - intros mbm' b' sz'. rewrite lookup_insert. case_decide as E.
    + intros [= <- <-]. by rewrite lookup_insert_ne.
    + intros E'. destruct (Hh _ _ _ E') as (B1 & B2 & ?). rewrite lookup_insert_ne by congruence.
      by apply (Hd mbm' b' sz').
Qed.

Lemma slab_rep_delete (n n' : N) (s : slab) (m : gmap Z Z) (t t' : tree) (pt : rb_tree) (mbm b sz : Z)
    (pre post : list Z) :
  slab_rep n s m t -> metas s !! mbm = Some (Meta b sz) ->
  blocks n' = delete b (delete mbm (blocks n)) ->
  holds pt t' -> rb_ok t' -> nodes t = pre ++ rb_of mbm :: post -> nodes t' = pre ++ post ->
  slab_rep n' (set_metas (delete mbm (metas s)) (set_tree pt s)) (delete b m) t'.
Proof.
  intros [Ht Hrb Hn Ho Hlen Hm Hh Hd] Em Hn' Hpt Hrb' Nt Nt'.
  assert (NoDup (pre ++ rb_of mbm :: post)) as Hnd.
  { rewrite <- Nt. pose proof (at_nodup _ _ _ Ht) as H. simpl in H. by rewrite app_nil_r in H. }
  assert (rb_of mbm ∉ pre ++ post) as Hnin.
  { apply NoDup_app in Hnd as (_ & Hd1 & Hd2). apply NoDup_cons in Hd2 as [? _]. rewrite elem_of_app.
    intros [Hx|Hx]; [|done]. apply (Hd1 _ Hx). by left. }
  assert (forall mbm' sz', metas s !! mbm' = Some (Meta b sz') -> mbm' = mbm) as Huniq.
  { intros mbm' sz' E'. destruct (decide (mbm' = mbm)) as [|Hne]; [done|]. exfalso.
    assert (rb_of mbm' ∈ pre ++ post) as Hin.
    { assert (rb_of mbm' ∈ nodes t) as Hx by (apply Hn; rewrite rb_entry_of; eauto).
      rewrite Nt, elem_of_app, elem_of_cons in Hx. rewrite elem_of_app.
      destruct Hx as [?|[E|?]]; [tauto| |tauto]. unfold rb_of in E. lia. }
    assert (key (metas s) (rb_of mbm') = b /\ key (metas s) (rb_of mbm) = b) as [K1 K2].
    { unfold key. by rewrite !rb_entry_of, E', Em. }
    rewrite Nt in Ho. apply in_order_app in Ho as (_ & Ho & Hlt). apply in_order_cons in Ho as [_ Hlt2].
    apply elem_of_app in Hin as [Hin|Hin];
      [pose proof (Hlt _ (rb_of mbm) Hin ltac:(by left))|pose proof (Hlt2 _ Hin)]; lia. }
  assert (m !! b = Some sz) as Eb by (apply Hm; eauto).
  split; simpl; try done.
  - intros x. assert (x ∈ nodes t <-> x ∈ pre ++ post \/ x = rb_of mbm) as Hx.
    { rewrite Nt, !elem_of_app, elem_of_cons. tauto. }
    rewrite Nt', lookup_delete. case_decide as E.
    + subst mbm. rewrite rb_of_entry in Hnin. split; [done|]. by intros [].
    + rewrite <- Hn, Hx. split; [tauto|]. intros [?| ->]; [done|]. by rewrite rb_entry_of in E.
  - eapply in_order_ext; [|rewrite Nt'; rewrite Nt in Ho; by eapply in_order_delete].
    intros x Hx. rewrite Nt' in Hx. unfold key. rewrite lookup_delete_ne; [done|].
    intros ->. by rewrite rb_of_entry in Hnin.
  - rewrite Nt', map_size_delete_Some by done. rewrite <- Hlen, Nt, !length_app. simpl. lia.
  - intros b' sz'. rewrite lookup_delete. case_decide as E.
    + subst b'. split; [done|]. intros [mbm' E']. rewrite lookup_delete in E'. case_decide; [done|].
      by apply Huniq in E'.
    + rewrite Hm. split; intros [mbm' E'].
      * exists mbm'. rewrite lookup_delete_ne; [done|]. intros ->. congruence.
      * rewrite lookup_delete in E'. case_decide; [done|]. by exists mbm'.
  - intros mbm' b' sz' E'. rewrite lookup_delete in E'. case_decide as Hc; [done|].
    destruct (Hh _ _ _ E') as (B1 & B2 & HN). rewrite Hn'.
    assert (b <> b') by (intros <-; by apply Huniq in E'; subst).
    assert (b <> mbm') by (intros <-; rewrite (Hd _ _ _ Em) in E'; done).
    assert (mbm <> b') by (intros <-; rewrite (Hd _ _ _ E') in Em; done).
    by rewrite !lookup_delete_ne by done.
  - intros mbm' b' sz' E'. rewrite lookup_delete in E'. case_decide; [done|].
    rewrite lookup_delete. case_decide; [done|]. by apply (Hd _ _ _ E').
Qed.

(** Inserting the record of a block that is not in the table. *)
Lemma insert_meta_inv (n n' : N) (s : slab) (m : gmap Z Z) (t : tree) (mbm b sz : Z) (fuel : nat) :
  slab_rep n s m t -> blocks n !! mbm = None -> blocks n !! b = None -> mbm <> b ->
  ok_ptr mbm -> b <> NULL ->
  blocks n' = <[b := u32 sz]> (<[mbm := u32 sizeof_meta]> (blocks n)) ->
  (rb_fuel (base.size m) <= fuel)%nat ->
  exists s' t', mem_block_insert_meta fuel mbm (set_metas (<[mbm := Meta b sz]> (metas s)) s) = Ret s' /\
    metas s' = <[mbm := Meta b sz]> (metas s) /\ caches s' = caches s /\ rcu_blocks s' = rcu_blocks s /\
    ctor_calls s' = ctor_calls s /\ slab_rep n' s' (<[b := sz]> m) t'.
Proof.
  intros Hrep Hfm Hfb Hne Hok HbN Hn' Hf.
  destruct (slab_blocks_fresh _ _ _ _ _ Hrep Hfm) as [Mm _]. destruct (slab_blocks_fresh _ _ _ _ _ Hrep Hfb) as [Mb Fb].
  pose proof Hrep as [Ht Hrb Hn Ho Hlen Hm Hh Hd].
  set (M' := <[mbm := Meta b sz]> (metas s)).
  assert (forall x, x ∈ nodes t -> rb_entry x <> mbm) as Hnm.
  { intros x Hx E. apply Hn in Hx. rewrite E, Mm in Hx. by destruct Hx. }
  assert (forall x, x ∈ nodes t -> key M' x = key (metas s) x) as Hkey.
  { intros x Hx. unfold key, M'. rewrite lookup_insert_ne; [done|]. intros E. by apply (Hnm x Hx). }
  assert (key M' (rb_of mbm) = b) as Kb by (unfold key, M'; by rewrite rb_entry_of, lookup_insert_eq).
  assert (rb_of mbm ∉ nodes t) as Hnin by (intros Hx; apply (Hnm _ Hx), rb_entry_of).
  pose proof (rb_ok_height t Hrb) as Hht. pose proof Hf as Hf'. unfold rb_fuel in Hf'.
  destruct (insert_meta_spec (set_metas M' s) t [] b fuel) as (z & Ez & Ep & Hpre & Hpost); simpl; try done.
  { by eapply in_order_ext. }
  { intros x Hx. unfold M'. rewrite lookup_insert_ne; [by apply Hn|]. intros E. by apply (Hnm x Hx). }
  { rewrite Hlen in Hht. lia. }
  { intros x Hx. rewrite Hkey by done. intros Kx. pose proof Hx as Hx'. apply Hn in Hx' as [[b' sz'] Ex].
    unfold key in Kx. rewrite Ex in Kx. simpl in Kx. subst b'.
    assert (m !! b = Some sz') by (apply Hm; eauto). congruence. }
  { set_solver. }
  { set_solver. }
  cbn [link_of top] in Ez. simpl in Ep. assert (ok_ptr (rb_of mbm)) as Hok'.
  { destruct Hok as [HN [H0 Ha]]. unfold rb_of, rb_offset, ok_ptr, aligned, NULL in *.
    split; [lia|]. split; [lia|]. rewrite <- Z.add_mod_idemp_l, Ha by lia. done. }
  rewrite Ep in Ht, Hrb, Hnin, Hlen.
  destruct (rb_insert_spec (meta_tree s) z (rb_of mbm) fuel Ht Hrb Hok' Hnin) as (t2 & tr2 & E2 & H2 & Hrb2 & N2 & _).
  { by rewrite Hlen. }
  rewrite nodes_plug_ord in N2. simpl in N2. unfold mem_block_insert_meta. simpl.
  fold M'. unfold M' at 1. rewrite lookup_insert_eq. cbn [deref res_bind block].
  assert (snd (meta_tree s) = ptr t) as -> by (apply (root_of _ [] t); simpl; by rewrite Ep).
  rewrite Ez. cbn [res_bind]. unfold rb_insert in E2. apply res_bind_Ret in E2 as (t1 & -> & E2).
  cbn [res_bind]. rewrite E2. cbn [res_bind]. exists (set_tree t2 (set_metas M' s)), tr2.
  do 5 (split; [done|]).
  assert (nodes t = zpre z ++ zpost z) as Nt by (rewrite Ep, nodes_plug_ord; done).
  apply (slab_rep_insert n n' s m t tr2 t2 mbm b sz (zpre z) (zpost z) Hrep); try done; [apply Hok|].
  rewrite N2. fold M'. apply in_order_insert; [|by rewrite Kb..].
  rewrite <- Nt. by eapply in_order_ext.
Qed.

(** ** Allocation and release *)

Lemma alloc_mem_block_spec (n : N) (s : slab) (m : gmap Z Z) (sz : Z) (fuel : nat) :
  aligned_alloc -> slab_inv n s m -> (rb_fuel (base.size m) <= fuel)%nat ->
  exists p n' s', alloc_mem_block fuel sz (n, s) = Ret (p, (n', s')) /\ sems n' = sems n /\
    caches s' = caches s /\ rcu_blocks s' = rcu_blocks s /\ ctor_calls s' = ctor_calls s /\
    if decide (p = NULL) then slab_inv n' s' m /\ s' = s /\ blocks n' = blocks n
    else m !! p = None /\ blocks n !! p = None /\ slab_inv n' s' (<[p := sz]> m) /\
      exists mbm, mbm <> p /\ blocks n !! mbm = None /\ metas s' = <[mbm := Meta p sz]> (metas s) /\
        blocks n' = <[p := u32 sz]> (<[mbm := u32 sizeof_meta]> (blocks n)).
Proof.
  intros Hal [t Hrep] Hf. unfold alloc_mem_block, __alloc_mem_block.
  destruct (mem_alloc (u32 sizeof_meta) n) as [mbm n1] eqn:E1. pose proof (Hal _ _ _ _ E1) as Ha.
  destruct (Z.eqb_spec mbm NULL) as [->|HmN].
  { apply mem_alloc_null in E1 as [Hs Hb]. exists NULL, n1, s. cbn [res_bind]. simpl.
    split_and!; try done. exists t. destruct Hrep. split; try done. by rewrite Hb. }
  apply mem_alloc_ok in E1 as (Hf1 & Hb1 & Hs1); [|done].
  destruct (mem_alloc (u32 sz) n1) as [b n2] eqn:E2. destruct (Z.eqb_spec b NULL) as [->|HbN].
  { apply mem_alloc_null in E2 as [Hs2 Hb2].
    destruct (mem_free_ok mbm n2 (u32 sizeof_meta)) as (n3 & -> & Hb3 & Hs3).
    { by rewrite Hb2, Hb1, lookup_insert_eq. }
    assert (blocks n3 = blocks n) as Hb.
    { rewrite Hb3, Hb2, Hb1. by apply delete_insert_id. }
    exists NULL, n3, s. cbn [res_bind]. simpl. split_and!; try done; [congruence|].
    exists t. destruct Hrep. split; try done. by rewrite Hb. }
  apply mem_alloc_ok in E2 as (Hf2 & Hb2 & Hs2); [|done].
  assert (mbm <> b) as Hne by (intros ->; by rewrite Hb1, lookup_insert_eq in Hf2).
  rewrite Hb1, lookup_insert_ne in Hf2 by done.
  destruct (insert_meta_inv n n2 s m t mbm b sz fuel Hrep) as (s' & t' & -> & Hms & Hc & Hr & Hl & Hrep'); try done.
  { by rewrite Hb2, Hb1. }
  exists b, n2, s'. cbn [res_bind]. rewrite (proj2 (Z.eqb_neq _ _) HmN), Hms, lookup_insert_eq. simpl.
  split_and!; try done; [congruence|]. rewrite decide_False by done.
  split; [by apply (slab_blocks_fresh _ _ _ _ _ Hrep)|]. split; [done|]. split; [by exists t'|].
  exists mbm. split_and!; try done. by rewrite Hb2, Hb1.
Qed.

Lemma holds_delete (h : rb_heap) (root p : Z) (t : tree) :
  holds (h, root) t -> p ∉ nodes t -> holds (delete p h, root) t.
Proof.
  intros [H1 H2 H3] Hp. split; [|done|done]. simpl in *. eapply rep_agree; [|exact H1].
  intros q Hq. apply lookup_delete_ne. by intros ->.
Qed.

Lemma free_mem_block_spec (n : N) (s : slab) (m : gmap Z Z) (b : Z) (fuel : nat) :
  slab_inv n s m -> (rb_fuel (base.size m) <= fuel)%nat ->
  match m !! b with
  | None => free_mem_block fuel b (n, s) = Bug
  | Some sz => exists n' s' mbm, free_mem_block fuel b (n, s) = Ret (n', s') /\
      slab_inv n' s' (delete b m) /\ sems n' = sems n /\ caches s' = caches s /\
      rcu_blocks s' = rcu_blocks s /\ ctor_calls s' = ctor_calls s /\
      metas s' = delete mbm (metas s) /\ metas s !! mbm = Some (Meta b sz) /\
      blocks n' = delete b (delete mbm (blocks n))
  end.
Proof.
  intros [t Hrep] Hf. pose proof (find_meta_inv n s m t b fuel Hrep Hf) as Hfind.
  unfold free_mem_block. destruct (m !! b) as [sz|] eqn:Eb; [|by rewrite Hfind].
  destruct Hfind as (mbm & -> & HmN & Em). cbn [res_bind]. rewrite (proj2 (Z.eqb_neq _ _) HmN).
  pose proof Hrep as [Ht Hrb Hn Ho Hlen Hm Hh Hd].
  assert (rb_of mbm ∈ nodes t) as Hin by (apply Hn; rewrite rb_entry_of; eauto).
  destruct (nodes_focus t (rb_of mbm) Hin) as (z & c & l & r & ->).
  destruct (rb_erase_spec (meta_tree s) z c l r (rb_of mbm) fuel Ht Hrb) as ([h' root'] & t' & -> & Ht' & Hrb' & Nt' & _).
  { by rewrite Hlen. }
  cbn [res_bind]. destruct (Hh _ _ _ Em) as (B1 & B2 & _ & HbN).
  assert (mbm <> b) as Hne by (intros ->; rewrite (Hd _ _ _ Em) in Em; done).
  destruct (mem_free_ok mbm n _ B1) as (n1 & -> & Hb1 & Hs1). cbn [res_bind].
  destruct (mem_free_ok b n1 (u32 sz)) as (n2 & -> & Hb2 & Hs2).
  { by rewrite Hb1, lookup_delete_ne. }
  cbn [res_bind]. eexists n2, _, mbm. split; [done|]. unfold drop_meta. simpl.
  rewrite nodes_plug_ord in *. simpl in *.
  assert (zpre z ++ (nodes l ++ rb_of mbm :: nodes r) ++ zpost z =
          (zpre z ++ nodes l) ++ rb_of mbm :: (nodes r ++ zpost z)) as El by (by rewrite <- !app_assoc).
  split; [|split_and!; try done; [congruence..]].
  exists t'. apply (slab_rep_delete n n2 s m _ t' _ mbm b sz (zpre z ++ nodes l) (nodes r ++ zpost z) Hrep); try done.
  - congruence.
  - apply holds_delete; [done|]. rewrite Nt'. pose proof (at_nodup _ _ _ Ht) as Hnd.
    rewrite nodes_plug_ord in Hnd. simpl in Hnd. rewrite app_nil_r, El in Hnd.
    rewrite <- app_assoc. rewrite (app_assoc (zpre z)). apply NoDup_app in Hnd as (_ & H1 & H2).
    apply NoDup_cons in H2 as [H2 _]. rewrite elem_of_app. intros [Hx|Hx]; [|done]. apply (H1 _ Hx). by left.
  - rewrite nodes_plug_ord. simpl. done.
  - rewrite Nt'. by rewrite <- !app_assoc.
Qed.

(** C16: the slab allocator implements a finite map from live blocks to their sizes.  kmalloc
    returns NULL and changes nothing, or a block that was not live; kfree removes a live
    block, ignores NULL and stops on anything else; ksize gives the size asked for;
    kmem_ptr_validate tells live blocks from other pointers.  The search of the tree ends
    within its logarithmic height. *)
Theorem slab_refines_map (n : N) (s : slab) (m : gmap Z Z) (sz b : Z) (fuel : nat) :
  aligned_alloc -> slab_inv n s m -> (rb_fuel (base.size m) <= fuel)%nat ->
  (exists p n' s', kmalloc fuel sz (n, s) = Ret (p, (n', s')) /\
     if decide (p = NULL) then slab_inv n' s' m /\ blocks n' = blocks n
     else m !! p = None /\ slab_inv n' s' (<[p := sz]> m)) /\
  kfree fuel NULL (n, s) = Ret (n, s) /\
  match m !! b with
  | Some bsz =>
      ksize fuel b s = Ret bsz /\ kmem_ptr_validate fuel NULL b s = Ret 0 /\
      exists n' s', kfree fuel b (n, s) = Ret (n', s') /\ slab_inv n' s' (delete b m)
  | None =>
      ksize fuel b s = Bug /\ kmem_ptr_validate fuel NULL b s = Ret (- EINVAL) /\
      (b <> NULL -> kfree fuel b (n, s) = Bug)
  end.
Proof.
  intros Hal Hinv Hf. split; [|split].
  - destruct (alloc_mem_block_spec n s m sz fuel Hal Hinv Hf) as (p & n' & s' & E & _ & _ & _ & _ & Hp).
    exists p, n', s'. split; [exact E|]. case_decide; naive_solver.
  - done.
  - pose proof Hinv as [t Hrep]. pose proof (find_meta_inv n s m t b fuel Hrep Hf) as Hfind.
    pose proof (free_mem_block_spec n s m b fuel Hinv Hf) as Hfree.
    unfold ksize, kmem_ptr_validate, kfree. destruct (m !! b) as [bsz|] eqn:Eb.
    + destruct Hfind as (mbm & -> & HmN & Em). cbn [res_bind].
      rewrite (proj2 (Z.eqb_neq _ _) HmN), Em. split; [done|]. split; [done|].
      destruct Hfree as (n' & s' & mbm' & E & Hinv' & _). exists n', s'. split; [|done].
      destruct (Z.eqb_spec b NULL) as [->|]; [|done].
      destruct (sl_host _ _ _ _ Hrep _ _ _ Em) as (_ & _ & _ & ?). done.
    + rewrite Hfind. split; [done|]. split; [done|]. intros Hb. by rewrite (proj2 (Z.eqb_neq _ _) Hb).
Qed.

(** What kmalloc takes from the host, kfree gives back: after kmalloc and kfree of the
    block the host has exactly the blocks it had before, and the table stands for the same
    map. *)
Theorem kmalloc_kfree_no_leak (n n1 : N) (s s1 : slab) (m : gmap Z Z) (sz p : Z) (fuel : nat) :
  aligned_alloc -> slab_inv n s m -> (rb_fuel (S (base.size m)) <= fuel)%nat ->
  kmalloc fuel sz (n, s) = Ret (p, (n1, s1)) -> p <> NULL ->
  exists n2 s2, kfree fuel p (n1, s1) = Ret (n2, s2) /\ slab_inv n2 s2 m /\
    blocks n2 = blocks n /\ sems n2 = sems n /\ metas s2 = metas s.
Proof.
  intros Hal Hinv Hf E HpN.
  assert (rb_fuel (base.size m) <= fuel)%nat as Hf0.
  { etrans; [apply rb_fuel_mono|exact Hf]. lia. }
  destruct (alloc_mem_block_spec n s m sz fuel Hal Hinv Hf0) as (p' & n' & s' & E' & Hs & _ & _ & _ & Hp).
  unfold kmalloc, __kmalloc in E. rewrite E in E'. injection E' as <- <- <-. rewrite decide_False in Hp by done.
  destruct Hp as (Hmp & Hbp & Hinv1 & mbm & Hne & Hfm & Hms & Hb).
  pose proof (free_mem_block_spec n1 s1 (<[p := sz]> m) p fuel Hinv1) as Hfree.
  rewrite lookup_insert_eq, map_size_insert_None in Hfree by done.
  destruct (Hfree Hf) as (n2 & s2 & mbm' & E2 & Hinv2 & Hs2 & _ & _ & _ & Hms2 & Em & Hb2).
  rewrite delete_insert_id in Hinv2 by done. pose proof Hinv as [t Hrep].
  assert (mbm' = mbm) as ->.
  { rewrite Hms, lookup_insert in Em. case_decide; [done|].
    assert (m !! p = Some sz) by (apply (sl_map _ _ _ _ Hrep); eauto). congruence. }
  exists n2, s2. unfold kfree. rewrite (proj2 (Z.eqb_neq _ _) HpN). split_and!; try done; [|congruence|].
  - rewrite Hb2, Hb, delete_delete, delete_insert_id; [by apply delete_insert_id|by rewrite lookup_insert_ne].
  - rewrite Hms2, Hms. apply delete_insert_id. by apply (slab_blocks_fresh _ _ _ _ _ Hrep).
Qed.

(** The size the host is asked for is an unsigned int.  For a size below 4 GiB the block
    of kmalloc has that many bytes, as ksize reports; for 4 GiB and more the block has only
    the size modulo 2^32, and ksize still reports the size asked for. *)
Theorem kmalloc_size_truncated (n n' : N) (s s' : slab) (m : gmap Z Z) (sz p : Z) (fuel : nat) :
  aligned_alloc -> slab_inv n s m -> (rb_fuel (S (base.size m)) <= fuel)%nat -> in_u 64 sz ->
  kmalloc fuel sz (n, s) = Ret (p, (n', s')) -> p <> NULL ->
  ksize fuel p s' = Ret sz /\ blocks n' !! p = Some (u32 sz) /\ (u32 sz = sz <-> sz < 2 ^ 32).
Proof.
  intros Hal Hinv Hf Hsz E HpN.
  assert (rb_fuel (base.size m) <= fuel)%nat as Hf0.
  { etrans; [apply rb_fuel_mono|exact Hf]. lia. }
  destruct (alloc_mem_block_spec n s m sz fuel Hal Hinv Hf0) as (p' & n1 & s1 & E' & _ & _ & _ & _ & Hp).
  unfold kmalloc, __kmalloc in E. rewrite E in E'. injection E' as <- <- <-. rewrite decide_False in Hp by done.
  destruct Hp as (Hmp & Hbp & [t Hrep] & mbm & Hne & Hfm & Hms & Hb).
  pose proof (find_meta_inv n' s' _ t p fuel Hrep) as Hfind.
  rewrite lookup_insert_eq, map_size_insert_None in Hfind by done.
  destruct (Hfind Hf) as (mbm' & E3 & HN & Em). unfold ksize. rewrite E3. cbn [res_bind].
  rewrite (proj2 (Z.eqb_neq _ _) HN), Em. split; [done|]. split; [by rewrite Hb, lookup_insert_eq|].
  unfold in_u in Hsz. unfold u32, wrap. change (2 ^ 32) with 4294967296 in *. split; intros H.
  - pose proof (Z.mod_pos_bound sz 4294967296). lia.
  - apply Z.mod_small. lia.
Qed.

End slab_spec.

Module MemDemo.

(** A bump allocator that returns multiples of 16. *)
Definition bump16 (h : gmap Z cell) (sz : Z) : Z := 16 * bump_malloc h sz.
Lemma bump16_fresh (h : gmap Z cell) (sz : Z) : bump16 h sz <> NULL -> h !! bump16 h sz = None.
Proof.
  intros _. apply not_elem_of_dom. intros Hin%elem_of_elements.
  pose proof (foldr_max_ge _ _ Hin) as Hx. unfold bump16, bump_malloc in Hx.
  pose proof (foldr_max_pos (elements (dom h))). lia.
Qed.
#[local] Instance mem_native : lkl_native_operations posix := posix_native bump16.
#[local] Instance mem_laws : native_laws posix := posix_laws bump16 bump16_fresh.

Lemma bump16_aligned : aligned_alloc (N := posix).
Proof.
  intros sz n p n'. simpl. unfold posix_mem_alloc.
  destruct (Z.eqb_spec (bump16 (heap n) sz) NULL); intros [= <- <-]; [done|].
  unfold bump16, bump_malloc, aligned. pose proof (foldr_max_pos (elements (dom (heap n)))).
  split; [lia|]. rewrite Z.mul_comm. change 16 with (4 * 4). rewrite Z.mul_assoc. apply Z.mod_mul. lia.
Qed.

Definition empty : slab := Slab (∅, NULL) ∅ ∅ ∅ [] 1.
Definition start : posix := Posix ∅ [].
Definition one : posix * slab :=
  match kmalloc 4 100 (start, empty) with Ret (_, st) => st | _ => (start, empty) end.
Definition first_block : Z := 272.

Lemma one_ok : slab_inv (fst one) (snd one) {[first_block := 100]}.
Proof.
  destruct (alloc_mem_block_spec start empty ∅ 100 4 bump16_aligned) as (p & n' & s' & E & _ & _ & _ & _ & Hp).
  - apply slab_inv_init.
  - vm_compute. lia.
  - assert (p = first_block /\ one = (n', s')) as [-> ->].
    { assert (kmalloc 4 100 (start, empty) = Ret (p, (n', s'))) as E' by exact E. unfold one. rewrite E'.
      split; [|done]. assert (kmalloc 4 100 (start, empty) = Ret (first_block, one)) as E2 by by vm_compute.
      rewrite E2 in E'. congruence. }
    rewrite decide_False in Hp by done. apply Hp.
Qed.

Lemma slab_refines_map_witness :
  (exists p n' s', kmalloc 6 64 one = Ret (p, (n', s')) /\
     if decide (p = NULL) then slab_inv n' s' {[first_block := 100]} /\ blocks n' = blocks (fst one)
     else ({[first_block := 100]} : gmap Z Z) !! p = None /\
          slab_inv n' s' (<[p := 64]> {[first_block := 100]})) /\
  kfree 6 NULL one = Ret one /\
  ksize 6 first_block (snd one) = Ret 100 /\ kmem_ptr_validate 6 NULL first_block (snd one) = Ret 0 /\
  exists n' s', kfree 6 first_block one = Ret (n', s') /\ slab_inv n' s' (delete first_block {[first_block := 100]}).
Proof.
  pose proof (slab_refines_map (fst one) (snd one) {[first_block := 100]} 64 first_block 6
    bump16_aligned one_ok) as H.
  rewrite lookup_singleton_eq in H. rewrite <- (surjective_pairing one) in H.
  apply H. vm_compute. lia.
Defined.

Lemma kmalloc_kfree_no_leak_witness : exists n2 s2,
  kfree 4 first_block one = Ret (n2, s2) /\ slab_inv n2 s2 ∅ /\
  blocks n2 = blocks start /\ sems n2 = sems start /\ metas s2 = ∅.
Proof.
  destruct one as [n1 s1] eqn:E1.
  apply (kmalloc_kfree_no_leak start n1 empty s1 ∅ 100 first_block 4 bump16_aligned).
  - apply slab_inv_init.
  - vm_compute. lia.
  - rewrite <- E1. by vm_compute.
  - done.
Defined.

Definition big : posix * slab :=
  match kmalloc 4 (2 ^ 32 + 5) (start, empty) with Ret (_, st) => st | _ => (start, empty) end.

Lemma kmalloc_size_truncated_witness :
  ksize 4 first_block (snd big) = Ret (2 ^ 32 + 5) /\ blocks (fst big) !! first_block = Some 5 /\
  (5 = 2 ^ 32 + 5 <-> 2 ^ 32 + 5 < 2 ^ 32).
Proof.
  destruct big as [n1 s1] eqn:E1.
  apply (kmalloc_size_truncated start n1 empty s1 ∅ (2 ^ 32 + 5) first_block 4 bump16_aligned).
  - apply slab_inv_init.
  - vm_compute. lia.
  - unfold in_u. lia.
  - rewrite <- E1. by vm_compute.
  - done.
Defined.

End MemDemo.
