(* ===== verification/Bitops.v ===== *)
(** * Bitmaps: include/asm-generic/bitops and lib/find_next_bit.c

    The port uses the generic bit operations on arrays of unsigned long.  A bitmap is
    the list of its words; an access outside of it is a fault.  The word-at-a-time
    searches are shown to find the first bit of the wanted value. *)
From S2P Require Import Prelude.

Definition BITS_PER_LONG : Z := 64.
Definition bitmap := list Z.

Definition BIT_MASK (nr : Z) : Z := u64 (Z.shiftl 1 (Z.rem nr BITS_PER_LONG)).
Definition BIT_WORD (nr : Z) : Z := Z.quot nr BITS_PER_LONG.

(** The bit number is an [int]. *)
Definition test_bit (nr : Z) (addr : bitmap) : res bool :=
  let nr := s32 nr in
  let! w := deref (aget addr (BIT_WORD nr)) in
  Ret (negb (Z.land 1 (Z.shiftr w (Z.land nr (BITS_PER_LONG - 1))) =? 0)).

Definition set_bit (nr : Z) (addr : bitmap) : res bitmap :=
  let nr := s32 nr in
  let! w := deref (aget addr (BIT_WORD nr)) in
  Ret (aset addr (BIT_WORD nr) (Z.lor w (BIT_MASK nr))).
Definition clear_bit (nr : Z) (addr : bitmap) : res bitmap :=
  let nr := s32 nr in
  let! w := deref (aget addr (BIT_WORD nr)) in
  Ret (aset addr (BIT_WORD nr) (Z.land w (Z.lnot (BIT_MASK nr)))).
Definition test_and_set_bit (nr : Z) (addr : bitmap) : res (bool * bitmap) :=
  let nr := s32 nr in
  let! old := deref (aget addr (BIT_WORD nr)) in
  Ret (negb (Z.land old (BIT_MASK nr) =? 0), aset addr (BIT_WORD nr) (Z.lor old (BIT_MASK nr))).
Definition test_and_clear_bit (nr : Z) (addr : bitmap) : res (bool * bitmap) :=
  let nr := s32 nr in
  let! old := deref (aget addr (BIT_WORD nr)) in
  Ret (negb (Z.land old (BIT_MASK nr) =? 0), aset addr (BIT_WORD nr) (Z.land old (Z.lnot (BIT_MASK nr)))).

Definition change_bit (nr : Z) (addr : bitmap) : res bitmap :=
  let nr := s32 nr in
  let! w := deref (aget addr (BIT_WORD nr)) in
  Ret (aset addr (BIT_WORD nr) (Z.lxor w (BIT_MASK nr))).
Definition test_and_change_bit (nr : Z) (addr : bitmap) : res (bool * bitmap) :=
  let nr := s32 nr in
  let! old := deref (aget addr (BIT_WORD nr)) in
  Ret (negb (Z.land old (BIT_MASK nr) =? 0), aset addr (BIT_WORD nr) (Z.lxor old (BIT_MASK nr))).

(** The versions without a lock. *)
Definition __set_bit (nr : Z) (addr : bitmap) : res bitmap :=
  let nr := s32 nr in
  let! w := deref (aget addr (BIT_WORD nr)) in
  Ret (aset addr (BIT_WORD nr) (Z.lor w (BIT_MASK nr))).
Definition __clear_bit (nr : Z) (addr : bitmap) : res bitmap :=
  let nr := s32 nr in
  let! w := deref (aget addr (BIT_WORD nr)) in
  Ret (aset addr (BIT_WORD nr) (Z.land w (Z.lnot (BIT_MASK nr)))).
Definition __change_bit (nr : Z) (addr : bitmap) : res bitmap :=
  let nr := s32 nr in
  let! w := deref (aget addr (BIT_WORD nr)) in
  Ret (aset addr (BIT_WORD nr) (Z.lxor w (BIT_MASK nr))).
Definition __test_and_set_bit (nr : Z) (addr : bitmap) : res (bool * bitmap) :=
  let nr := s32 nr in
  let! old := deref (aget addr (BIT_WORD nr)) in
  Ret (negb (Z.land old (BIT_MASK nr) =? 0), aset addr (BIT_WORD nr) (Z.lor old (BIT_MASK nr))).
Definition __test_and_clear_bit (nr : Z) (addr : bitmap) : res (bool * bitmap) :=
  let nr := s32 nr in
  let! old := deref (aget addr (BIT_WORD nr)) in
  Ret (negb (Z.land old (BIT_MASK nr) =? 0), aset addr (BIT_WORD nr) (Z.land old (Z.lnot (BIT_MASK nr)))).
Definition __test_and_change_bit (nr : Z) (addr : bitmap) : res (bool * bitmap) :=
  let nr := s32 nr in
  let! old := deref (aget addr (BIT_WORD nr)) in
  Ret (negb (Z.land old (BIT_MASK nr) =? 0), aset addr (BIT_WORD nr) (Z.lxor old (BIT_MASK nr))).

(** ** The first set bit of a word *)

Definition ffs_step (mask k : Z) (nw : Z * Z) : Z * Z :=
  let '(num, word) := nw in
  if Z.land word mask =? 0 then (num + k, Z.shiftr word k) else (num, word).
Definition __ffs (word : Z) : Z :=
  let nw := ffs_step 0xffffffff 32 (0, word) in
  let nw := ffs_step 0xffff 16 nw in
  let nw := ffs_step 0xff 8 nw in
  let nw := ffs_step 0xf 4 nw in
  let '(num, word) := ffs_step 0x3 2 nw in
  if Z.land word 0x1 =? 0 then num + 1 else num.
Definition ffz (x : Z) : Z := __ffs (u64 (Z.lnot x)).

(** ** Searches *)

Definition ones64 : Z := u64 (Z.lnot 0).

(** The labels [found_first] and [found_middle]. *)
Definition found_next (result size tmp : Z) : Z :=
  let tmp := Z.land tmp (Z.shiftr ones64 (BITS_PER_LONG - size)) in
  if tmp =? 0 then result + size else result + __ffs tmp.
Definition found_zero (result size tmp : Z) : Z :=
  let tmp := Z.lor tmp (u64 (Z.shiftl ones64 size)) in
  if tmp =? ones64 then result + size else result + ffz tmp.

(** [while (size & ~(BITS_PER_LONG-1))] and what follows it. *)
Fixpoint next_bit_loop (fuel : nat) (addr : bitmap) (p size result : Z) : res Z :=
  match fuel with
  | O => OutOfFuel
  | S fuel =>
      if negb (Z.land size (Z.lnot (BITS_PER_LONG - 1)) =? 0) then
        let! tmp := deref (aget addr p) in
        if negb (tmp =? 0) then Ret (result + __ffs tmp)
        else next_bit_loop fuel addr (p + 1) (size - BITS_PER_LONG) (result + BITS_PER_LONG)
      else if size =? 0 then Ret result
      else let! tmp := deref (aget addr p) in Ret (found_next result size tmp)
  end.
Fixpoint next_zero_loop (fuel : nat) (addr : bitmap) (p size result : Z) : res Z :=
  match fuel with
  | O => OutOfFuel
  | S fuel =>
      if negb (Z.land size (Z.lnot (BITS_PER_LONG - 1)) =? 0) then
        let! tmp := deref (aget addr p) in
        if negb (u64 (Z.lnot tmp) =? 0) then Ret (result + ffz tmp)
        else next_zero_loop fuel addr (p + 1) (size - BITS_PER_LONG) (result + BITS_PER_LONG)
      else if size =? 0 then Ret result
      else let! tmp := deref (aget addr p) in Ret (found_zero result size tmp)
  end.

Definition find_next_bit (addr : bitmap) (size offset : Z) : res Z :=
  let p := offset / BITS_PER_LONG in
  let result := Z.land offset (Z.lnot (BITS_PER_LONG - 1)) in
  if size <=? offset then Ret size
  else
    let size := size - result in
    let offset := offset mod BITS_PER_LONG in
    if negb (offset =? 0) then
      let! tmp := deref (aget addr p) in
      let tmp := Z.land tmp (u64 (Z.shiftl ones64 offset)) in
      if size <? BITS_PER_LONG then Ret (found_next result size tmp)
      else if negb (tmp =? 0) then Ret (result + __ffs tmp)
      else next_bit_loop (S (length addr)) addr (p + 1) (size - BITS_PER_LONG) (result + BITS_PER_LONG)
    else next_bit_loop (S (length addr)) addr p size result.

Definition find_next_zero_bit (addr : bitmap) (size offset : Z) : res Z :=
  let p := offset / BITS_PER_LONG in
  let result := Z.land offset (Z.lnot (BITS_PER_LONG - 1)) in
  if size <=? offset then Ret size
  else
    let size := size - result in
    let offset := offset mod BITS_PER_LONG in
    if negb (offset =? 0) then
      let! tmp := deref (aget addr p) in
      let tmp := Z.lor tmp (Z.shiftr ones64 (BITS_PER_LONG - offset)) in
      if size <? BITS_PER_LONG then Ret (found_zero result size tmp)
      else if negb (u64 (Z.lnot tmp) =? 0) then Ret (result + ffz tmp)
      else next_zero_loop (S (length addr)) addr (p + 1) (size - BITS_PER_LONG) (result + BITS_PER_LONG)
    else next_zero_loop (S (length addr)) addr p size result.

(** ** Bits of a bitmap *)

Definition bit (addr : bitmap) (i : Z) : bool :=
  match aget addr (i / 64) with Some w => Z.testbit w (i mod 64) | None => false end.
Definition nbits (addr : bitmap) : Z := 64 * Z.of_nat (length addr).
Definition words_ok (addr : bitmap) : Prop := Forall (in_u 64) addr.

Lemma land_bit (w i : Z) : 0 <= i -> negb (Z.land w (Z.shiftl 1 i) =? 0) = Z.testbit w i.
Proof.
  intros Hi. rewrite Z.shiftl_1_l. destruct (Z.testbit w i) eqn:E.
  - apply negb_true_iff, Z.eqb_neq. intros H. apply (f_equal (fun z => Z.testbit z i)) in H.
    rewrite Z.land_spec, E, Z.pow2_bits_true, Z.bits_0 in H by done. done.
  - apply negb_false_iff, Z.eqb_eq. apply Z.bits_inj. intros j. rewrite Z.land_spec, Z.bits_0.
    destruct (decide (j = i)) as [->|Hne]; [by rewrite E|].
    rewrite Z.pow2_bits_false by congruence. apply andb_false_r.
Qed.
Lemma shift_bit (w i : Z) : 0 <= i -> negb (Z.land 1 (Z.shiftr w i) =? 0) = Z.testbit w i.
Proof.
  intros Hi. rewrite Z.land_comm, <- (Z.shiftl_0_r 1), land_bit by done. rewrite Z.shiftr_spec by done. f_equal. 
Qed.

(** A bit number that fits in an [int]. *)
Definition nr_ok (addr : bitmap) (i : Z) : Prop := 0 <= i < nbits addr /\ i < 2 ^ 31.

Lemma bit_index (addr : bitmap) (i : Z) : nr_ok addr i ->
  s32 i = i /\ BIT_WORD i = i / 64 /\ BIT_MASK i = Z.shiftl 1 (i mod 64) /\
  Z.land i (BITS_PER_LONG - 1) = i mod 64 /\ 0 <= i mod 64 < 64 /\
  exists w, aget addr (i / 64) = Some w /\ bit addr i = Z.testbit w (i mod 64).
Proof.
  intros [H1 H2]. assert (0 <= i mod 64 < 64) as Hm by (apply Z.mod_pos_bound; lia).
  split; [apply swrap_id; [done|unfold in_s; lia]|].
  split; [unfold BIT_WORD, BITS_PER_LONG; apply Z.quot_div_nonneg; lia|].
  split.
  { unfold BIT_MASK, BITS_PER_LONG. rewrite Z.rem_mod_nonneg by lia. apply wrap_id. unfold in_u.
    rewrite Z.shiftl_1_l. split; [lia|]. apply Z.pow_lt_mono_r; lia. }
  split; [unfold BITS_PER_LONG; change (64 - 1) with (Z.ones 6); by rewrite Z.land_ones|].
  split; [done|]. destruct (aget_is_Some addr (i / 64)) as [w Hw].
  { unfold nbits in H1. split; [apply Z.div_pos; lia|]. apply Z.div_lt_upper_bound; lia. }
  exists w. unfold bit. by rewrite Hw.
Qed.

Lemma test_bit_spec (addr : bitmap) (i : Z) : nr_ok addr i -> test_bit i addr = Ret (bit addr i).
Proof.
  intros H. destruct (bit_index addr i H) as (E1 & E2 & _ & E4 & Hm & w & Hw & Hb).
  unfold test_bit. rewrite E1, E2, Hw, E4. cbn [deref res_bind]. rewrite shift_bit, Hb by lia. done.
Qed.

(** Bits after a write of the word that holds bit [i]. *)
Lemma bit_write (addr : bitmap) (i j w v : Z) (b : bool) :
  aget addr (i / 64) = Some w -> 0 <= i -> 0 <= j ->
  (forall k, 0 <= k < 64 -> Z.testbit v k = if decide (k = i mod 64) then b else Z.testbit w k) ->
  bit (aset addr (i / 64) v) j = if decide (j = i) then b else bit addr j.
Proof.
  intros Hw Hi Hj Hv. unfold bit. assert (0 <= j mod 64 < 64) by (apply Z.mod_pos_bound; lia).
  destruct (decide (j / 64 = i / 64)) as [E|E].
  - rewrite E, (aget_aset_eq _ _ _ _ Hw), Hv, Hw by done. repeat case_decide; subst; try done.
    exfalso. pose proof (Z.div_mod i 64 ltac:(lia)). pose proof (Z.div_mod j 64 ltac:(lia)). lia.
  - rewrite aget_aset_ne; [|apply Z.div_pos; lia|congruence].
    rewrite decide_False; [done|]. by intros ->.
Qed.

Lemma words_ok_aset (addr : bitmap) (i v : Z) : words_ok addr -> in_u 64 v -> words_ok (aset addr i v).
Proof. intros H Hv. unfold aset. by apply Forall_insert. Qed.
Lemma words_ok_get (addr : bitmap) (i w : Z) : words_ok addr -> aget addr i = Some w -> in_u 64 w.
Proof.
  intros H Hw. unfold aget in Hw. destruct (i <? 0); [done|]. by eapply Forall_lookup_1.
Qed.

Lemma in_u_bits (w z : Z) : 0 <= w -> in_u w z <-> 0 <= z /\ forall i, w <= i -> Z.testbit z i = false.
Proof.
  intros Hw. unfold in_u. split.
  - intros [H0 H]. split; [done|]. intros i Hi.
    destruct (decide (z = 0)) as [->|]; [apply Z.bits_0|]. apply Z.bits_above_log2; [done|].
    apply Z.lt_le_trans with w; [|done]. by apply Z.log2_lt_pow2; [lia|].
  - intros [H0 H]. split; [done|]. destruct (decide (z < 2 ^ w)) as [|Hge]; [done|].
    assert (w <= Z.log2 z) as Hl by (apply Z.log2_le_pow2; lia).
    pose proof (Z.bit_log2 z ltac:(pose proof (Z.pow_pos_nonneg 2 w); lia)) as Hb.
    rewrite (H _ Hl) in Hb. done.
Qed.

(** What a word operation does to the bit under the mask. *)
Inductive bitop := OpSet | OpClear | OpChange.
Definition word_op (o : bitop) (w mask : Z) : Z :=
  match o with OpSet => Z.lor w mask | OpClear => Z.land w (Z.lnot mask) | OpChange => Z.lxor w mask end.
Definition bit_op (o : bitop) (b : bool) : bool :=
  match o with OpSet => true | OpClear => false | OpChange => negb b end.

Lemma word_op_bit (o : bitop) (w i k : Z) : 0 <= i -> 0 <= k ->
  Z.testbit (word_op o w (Z.shiftl 1 i)) k = if decide (k = i) then bit_op o (Z.testbit w k) else Z.testbit w k.
Proof.
  intros Hi Hk. rewrite Z.shiftl_1_l. assert (Z.testbit (2 ^ i) k = bool_decide (k = i)) as E.
  { case_bool_decide; [subst; by apply Z.pow2_bits_true|by apply Z.pow2_bits_false; congruence]. }
  destruct o; simpl; rewrite ?Z.lor_spec, ?Z.land_spec, ?Z.lnot_spec, ?Z.lxor_spec, E by done;
    case_decide; case_bool_decide; try done; by destruct (Z.testbit w k).
Qed.
Lemma word_op_range (o : bitop) (w i : Z) : in_u 64 w -> 0 <= i < 64 -> in_u 64 (word_op o w (Z.shiftl 1 i)).
Proof.
  intros Hw Hi. apply in_u_bits in Hw as [Hw0 Hw1]; [|lia]. apply in_u_bits; [lia|]. split.
  - assert (0 <= Z.shiftl 1 i) by (rewrite Z.shiftl_1_l; apply Z.pow_nonneg; lia). destruct o; simpl.
    + by apply Z.lor_nonneg.
    + apply Z.land_nonneg. by left.
    + by apply Z.lxor_nonneg.
  - intros k Hk. rewrite word_op_bit, decide_False, Hw1 by lia. done.
Qed.

(** All the operations have this shape. *)
Lemma bit_operation (o : bitop) (addr : bitmap) (i : Z) : words_ok addr -> nr_ok addr i ->
  exists w addr', s32 i = i /\ aget addr (BIT_WORD i) = Some w /\ negb (Z.land w (BIT_MASK i) =? 0) = bit addr i /\
    aset addr (BIT_WORD i) (word_op o w (BIT_MASK i)) = addr' /\ words_ok addr' /\ length addr' = length addr /\
    forall j, 0 <= j -> bit addr' j = if decide (j = i) then bit_op o (bit addr i) else bit addr j.
Proof.
  intros Hok H. destruct (bit_index addr i H) as (E1 & E2 & E3 & E4 & Hm & w & Hw & Hb).
  exists w. eexists. split; [done|]. rewrite E2, E3. split; [done|]. split; [by rewrite land_bit, <- Hb by lia|].
  split; [done|]. split; [|split; [apply length_aset|]].
  - apply words_ok_aset; [done|]. apply word_op_range; [by eapply words_ok_get|done].
  - intros j Hj. rewrite Hb. apply (bit_write _ _ _ w); [done|apply H|done|]. intros k Hk.
    rewrite word_op_bit by lia. case_decide; [by subst|done].
Qed.

Lemma test_and_set_bit_spec (addr : bitmap) (i : Z) :
  words_ok addr -> nr_ok addr i ->
  exists addr', test_and_set_bit i addr = Ret (bit addr i, addr') /\ words_ok addr' /\
    length addr' = length addr /\
    forall j, 0 <= j -> bit addr' j = if decide (j = i) then true else bit addr j.
Proof.
  intros Hok H. destruct (bit_operation OpSet addr i Hok H) as (w & addr' & E1 & E2 & E3 & E4 & Hr).
  exists addr'. split; [|done]. unfold test_and_set_bit. rewrite E1, E2. cbn [deref res_bind]. by rewrite E3, <- E4.
Qed.
Lemma test_and_clear_bit_spec (addr : bitmap) (i : Z) :
  words_ok addr -> nr_ok addr i ->
  exists addr', test_and_clear_bit i addr = Ret (bit addr i, addr') /\ words_ok addr' /\
    length addr' = length addr /\
    forall j, 0 <= j -> bit addr' j = if decide (j = i) then false else bit addr j.
Proof.
  intros Hok H. destruct (bit_operation OpClear addr i Hok H) as (w & addr' & E1 & E2 & E3 & E4 & Hr).
  exists addr'. split; [|done]. unfold test_and_clear_bit. rewrite E1, E2. cbn [deref res_bind]. by rewrite E3, <- E4.
Qed.

(** ** Searching *)

(** [n] is the lowest set bit of [w]. *)
Definition lowest (w n : Z) : Prop :=
  0 <= n /\ Z.testbit w n = true /\ forall j, 0 <= j < n -> Z.testbit w j = false.

Lemma land_ones_0 (w k : Z) : 0 <= k -> Z.land w (Z.ones k) = 0 <-> forall j, 0 <= j < k -> Z.testbit w j = false.
Proof.
  intros Hk. split.
  - intros H j Hj. apply (f_equal (fun z => Z.testbit z j)) in H.
    rewrite Z.land_spec, Z.ones_spec_low, Z.bits_0, andb_true_r in H by lia. done.
  - intros H. apply Z.bits_inj. intros j. rewrite Z.land_spec, Z.bits_0.
    destruct (decide (0 <= j < k)); [by rewrite H|]. destruct (decide (j < 0)); [by rewrite !Z.testbit_neg_r|].
    rewrite Z.ones_spec_high by lia. apply andb_false_r.
Qed.

Lemma ffs_step_spec (num w k n : Z) (num' w' : Z) :
  0 <= k -> Z.land w (Z.ones (2 * k)) <> 0 -> ffs_step (Z.ones k) k (num, w) = (num', w') ->
  Z.land w' (Z.ones k) <> 0 /\ (lowest w' (n - num') -> lowest w (n - num)).
Proof.
  intros Hk Hw. unfold ffs_step. destruct (Z.eqb_spec (Z.land w (Z.ones k)) 0) as [E|E]; intros [= <- <-]; [|done].
  rewrite land_ones_0 in E by done. split.
  - intros H. apply Hw. rewrite land_ones_0 in * by lia. intros j Hj.
    destruct (decide (j < k)); [apply E; lia|].
    specialize (H (j - k) ltac:(lia)). rewrite Z.shiftr_spec in H by lia. by replace (j - k + k) with j in H by lia.
  - intros (H0 & H1 & H2). rewrite Z.shiftr_spec in H1 by lia. replace (n - (num + k) + k) with (n - num) in H1 by lia.
    split; [lia|]. split; [done|]. intros j Hj. destruct (decide (j < k)); [apply E; lia|].
    specialize (H2 (j - k) ltac:(lia)). rewrite Z.shiftr_spec in H2 by lia. by replace (j - k + k) with j in H2 by lia.
Qed.

Lemma ffs_spec (w : Z) : in_u 64 w -> w <> 0 -> lowest w (__ffs w) /\ __ffs w < 64.
Proof.
  intros Hw Hne. assert (forall n, __ffs w = n -> lowest w (n - 0) /\ n < 64) as H; [|rewrite <- (Z.sub_0_r (__ffs w)) at 1; auto].
  unfold __ffs. intros n.
  destruct (ffs_step 0xffffffff 32 (0, w)) as [n1 w1] eqn:E1. destruct (ffs_step 0xffff 16 (n1, w1)) as [n2 w2] eqn:E2.
  destruct (ffs_step 0xff 8 (n2, w2)) as [n3 w3] eqn:E3. destruct (ffs_step 0xf 4 (n3, w3)) as [n4 w4] eqn:E4.
  destruct (ffs_step 0x3 2 (n4, w4)) as [n5 w5] eqn:E5. intros En.
  assert (0 <= n1 <= 32 /\ n2 <= n1 + 16 /\ n3 <= n2 + 8 /\ n4 <= n3 + 4 /\ n5 <= n4 + 2) as Hb.
  { unfold ffs_step in *. repeat case_match; simplify_eq; lia. }
  apply (ffs_step_spec 0 w 32 n) in E1 as [L1 H1]; [|lia|].
  2: { change (2 * 32) with 64. rewrite Z.land_ones by lia. unfold in_u in Hw. by rewrite Z.mod_small. }
  apply (ffs_step_spec n1 w1 16 n) in E2 as [L2 H2]; [|lia|done].
  apply (ffs_step_spec n2 w2 8 n) in E3 as [L3 H3]; [|lia|done].
  apply (ffs_step_spec n3 w3 4 n) in E4 as [L4 H4]; [|lia|done].
  apply (ffs_step_spec n4 w4 2 n) in E5 as [L5 H5]; [|lia|done].
  assert (n5 <= n <= n5 + 1) by (revert En; case_match; intros <-; lia).
  split; [|lia]. apply H1, H2, H3, H4, H5. revert En. change 1 with (Z.ones 1) at 1.
  destruct (Z.eqb_spec (Z.land w5 (Z.ones 1)) 0) as [E|E]; intros <-.
  - replace (n5 + 1 - n5) with 1 by lia. rewrite land_ones_0 in E by lia. split; [lia|]. split; [|exact E].
    destruct (Z.testbit w5 1) eqn:T; [done|]. exfalso. apply L5. apply land_ones_0; [lia|]. intros j Hj.
    assert (j = 0 \/ j = 1) as [->| ->] by lia; [apply E; lia|done].
  - rewrite Z.sub_diag. split; [lia|]. split; [|lia]. destruct (Z.testbit w5 0) eqn:T; [done|]. exfalso. apply E.
    apply land_ones_0; [lia|]. intros j Hj. by replace j with 0 by lia.
Qed.

Lemma u64_lnot_bit (w k : Z) : 0 <= k < 64 -> Z.testbit (u64 (Z.lnot w)) k = negb (Z.testbit w k).
Proof.
  intros Hk. unfold wrap. rewrite Z.mod_pow2_bits_low, Z.lnot_spec by lia. done.
Qed.
Lemma u64_lnot_0 (w : Z) : u64 (Z.lnot w) = 0 <-> forall k, 0 <= k < 64 -> Z.testbit w k = true.
Proof.
  split.
  - intros H k Hk. apply (f_equal (fun z => Z.testbit z k)) in H. rewrite u64_lnot_bit, Z.bits_0 in H by done.
    by apply negb_false_iff.
  - intros H. apply Z.bits_inj. intros k. rewrite Z.bits_0. destruct (decide (0 <= k < 64)) as [Hk|Hk].
    + by rewrite u64_lnot_bit, H.
    + destruct (decide (k < 0)); [by rewrite Z.testbit_neg_r|]. unfold wrap. by rewrite Z.mod_pow2_bits_high by lia.
Qed.
Lemma ffz_spec (w : Z) : u64 (Z.lnot w) <> 0 ->
  0 <= ffz w < 64 /\ Z.testbit w (ffz w) = false /\ forall j, 0 <= j < ffz w -> Z.testbit w j = true.
Proof.
  intros Hne. unfold ffz. destruct (ffs_spec (u64 (Z.lnot w))) as ((H0 & H1 & H2) & H3); [by apply wrap_range|done|].
  set (n := __ffs _) in *. rewrite u64_lnot_bit in H1 by lia. split; [lia|]. split; [by apply negb_true_iff|].
  intros j Hj. specialize (H2 j Hj). rewrite u64_lnot_bit in H2 by lia. by apply negb_false_iff.
Qed.

Lemma ones64_bit (k : Z) : 0 <= k < 64 -> Z.testbit ones64 k = true.
Proof. intros Hk. unfold ones64. by rewrite u64_lnot_bit, Z.bits_0. Qed.
Lemma shl_ones_bit (s k : Z) : 0 <= s -> 0 <= k < 64 -> Z.testbit (u64 (Z.shiftl ones64 s)) k = (s <=? k).
Proof.
  intros Hs Hk. unfold wrap. rewrite Z.mod_pow2_bits_low, Z.shiftl_spec by lia.
  destruct (Z.leb_spec s k); [apply ones64_bit; lia|]. apply Z.testbit_neg_r. lia.
Qed.
Lemma shr_ones_bit (s k : Z) : 0 <= s <= 64 -> 0 <= k < 64 -> Z.testbit (Z.shiftr ones64 (64 - s)) k = (k <? s).
Proof.
  intros Hs Hk. change ones64 with (Z.ones 64). rewrite Z.shiftr_spec by lia.
  destruct (Z.ltb_spec k s); [apply Z.ones_spec_low; lia|apply Z.ones_spec_high; lia].
Qed.
Lemma eq_ones64 (w : Z) : in_u 64 w -> w = ones64 <-> forall k, 0 <= k < 64 -> Z.testbit w k = true.
Proof.
  intros Hw. split; [intros -> k; apply ones64_bit|]. intros H. apply Z.bits_inj. intros k.
  destruct (decide (0 <= k < 64)) as [Hk|Hk]; [by rewrite H, ones64_bit|].
  destruct (decide (k < 0)); [by rewrite !Z.testbit_neg_r|]. change ones64 with (Z.ones 64).
  rewrite Z.ones_spec_high by lia. apply in_u_bits in Hw as [_ Hw]; [|lia]. apply Hw. lia.
Qed.

(** The first clear bit of the bitmap in [from, size), or [size]. *)
Definition first_zero (addr : bitmap) (size from r : Z) : Prop :=
  from <= r <= size /\ (forall i, from <= i < r -> bit addr i = true) /\ (r < size -> bit addr r = false).

Lemma bit_word (addr : bitmap) (p w k : Z) :
  aget addr p = Some w -> 0 <= k < 64 -> bit addr (64 * p + k) = Z.testbit w k.
Proof.
  intros Hw Hk. unfold bit. rewrite Z.mul_comm, Z.div_add_l, (Z.div_small k), Z.add_0_r by lia.
  rewrite Hw. f_equal. rewrite Z.add_comm, Z.mod_add by lia. by apply Z.mod_small.
Qed.

Lemma in_u_lor (a b : Z) : in_u 64 a -> in_u 64 b -> in_u 64 (Z.lor a b).
Proof.
  rewrite !in_u_bits by lia. intros [Ha Ha'] [Hb Hb']. split; [by apply Z.lor_nonneg|].
  intros i Hi. by rewrite Z.lor_spec, Ha', Hb'.
Qed.

(** The last word, of which [size] bits count; [tmp] has the bits below [off] set. *)
Lemma found_zero_spec (addr : bitmap) (p w tmp size off : Z) :
  aget addr p = Some w -> in_u 64 tmp -> 0 <= off <= size -> size < 64 ->
  (forall k, 0 <= k < 64 -> Z.testbit tmp k = if k <? off then true else Z.testbit w k) ->
  first_zero addr (64 * p + size) (64 * p + off) (found_zero (64 * p) size tmp).
Proof.
  intros Hw Hu Hoff Hsz Ht. unfold found_zero. set (t := Z.lor tmp _).
  assert (forall k, 0 <= k < 64 -> Z.testbit t k = Z.testbit tmp k || (size <=? k)) as Hbit.
  { intros k Hk. unfold t. by rewrite Z.lor_spec, shl_ones_bit by lia. }
  assert (in_u 64 t) as Htu by (apply in_u_lor; [done|by apply wrap_range]).
  destruct (Z.eqb_spec t ones64) as [E|E].
  - rewrite eq_ones64 in E by done. split; [lia|]. split; [|lia]. intros i Hi.
    replace i with (64 * p + (i - 64 * p)) by lia. rewrite (bit_word _ _ w) by (done || lia).
    specialize (E (i - 64 * p) ltac:(lia)). rewrite Hbit, Ht in E by lia.
    destruct (Z.ltb_spec (i - 64 * p) off); [lia|]. destruct (Z.leb_spec size (i - 64 * p)); [lia|].
    by rewrite orb_false_r in E.
  - destruct (ffz_spec t) as (Hn & H1 & H2).
    { intros H0. apply E. apply eq_ones64; [done|]. by apply u64_lnot_0. }
    set (n := ffz t) in *. rewrite Hbit, Ht in H1 by done. apply orb_false_iff in H1 as [H1 H1'].
    destruct (Z.ltb_spec n off); [done|]. split; [lia|]. split.
    + intros i Hi. replace i with (64 * p + (i - 64 * p)) by lia. rewrite (bit_word _ _ w) by (done || lia).
      specialize (H2 (i - 64 * p) ltac:(lia)). rewrite Hbit, Ht in H2 by lia.
      destruct (Z.ltb_spec (i - 64 * p) off); [lia|]. destruct (Z.leb_spec size (i - 64 * p)); [lia|].
      by rewrite orb_false_r in H2.
    + intros _. by rewrite (bit_word _ _ w).
Qed.

(** A whole word: the first clear bit in it, or none. *)
Lemma whole_word_spec (addr : bitmap) (p w tmp size off : Z) :
  aget addr p = Some w -> 0 <= off < 64 -> 64 <= size ->
  (forall k, 0 <= k < 64 -> Z.testbit tmp k = if k <? off then true else Z.testbit w k) ->
  if u64 (Z.lnot tmp) =? 0 then forall i, 64 * p + off <= i < 64 * (p + 1) -> bit addr i = true
  else first_zero addr (64 * p + size) (64 * p + off) (64 * p + ffz tmp).
Proof.
  intros Hw Hoff Hsz Ht. destruct (Z.eqb_spec (u64 (Z.lnot tmp)) 0) as [E|E].
  - intros i Hi. replace i with (64 * p + (i - 64 * p)) by lia. rewrite (bit_word _ _ w) by (done || lia).
    rewrite u64_lnot_0 in E. specialize (E (i - 64 * p) ltac:(lia)). rewrite Ht in E by lia.
    destruct (Z.ltb_spec (i - 64 * p) off); [lia|done].
  - destruct (ffz_spec tmp E) as (Hn & H1 & H2). set (n := ffz tmp) in *. rewrite Ht in H1 by done.
    destruct (Z.ltb_spec n off); [done|]. split; [lia|]. split.
    + intros i Hi. replace i with (64 * p + (i - 64 * p)) by lia. rewrite (bit_word _ _ w) by (done || lia).
      specialize (H2 (i - 64 * p) ltac:(lia)). rewrite Ht in H2 by lia.
      by destruct (Z.ltb_spec (i - 64 * p) off); [lia|].
    + intros _. by rewrite (bit_word _ _ w).
Qed.

Lemma size_test (size : Z) : 0 <= size -> negb (Z.land size (Z.lnot (BITS_PER_LONG - 1)) =? 0) = (64 <=? size).
Proof.
  intros Hs. unfold BITS_PER_LONG. change (64 - 1) with (Z.ones 6). rewrite clear_low by lia. change (2 ^ 6) with 64.
  destruct (Z.leb_spec 64 size).
  - apply negb_true_iff, Z.eqb_neq. assert (1 <= size / 64) by (apply Z.div_le_lower_bound; lia). lia.
  - by rewrite Z.div_small.
Qed.

Lemma next_zero_loop_spec (fuel : nat) (addr : bitmap) (p size : Z) :
  words_ok addr -> 0 <= p -> 0 <= size -> 64 * p + size <= nbits addr -> size < 64 * Z.of_nat fuel ->
  exists r, next_zero_loop fuel addr p size (64 * p) = Ret r /\ first_zero addr (64 * p + size) (64 * p) r.
Proof.
  intros Hok. revert p size. induction fuel as [|fuel IH]; intros p size Hp Hs Hn Hf; [lia|].
  unfold nbits in Hn. cbn [next_zero_loop]. rewrite size_test by done. destruct (Z.leb_spec 64 size).
  - destruct (aget_is_Some addr p) as [w Hw]; [lia|]. rewrite Hw. cbn [deref res_bind].
    pose proof (whole_word_spec addr p w w size 0 Hw ltac:(lia) ltac:(lia)) as Hword.
    rewrite Z.add_0_r in Hword. destruct (Z.eqb_spec (u64 (Z.lnot w)) 0) as [E|E]; cbn [negb].
    + specialize (Hword ltac:(intros k Hk; destruct (Z.ltb_spec k 0); [lia|done])).
      unfold BITS_PER_LONG. replace (64 * p + 64) with (64 * (p + 1)) by lia.
      destruct (IH (p + 1) (size - 64)) as (r & Er & Hr1 & Hr2 & Hr3); [lia|lia|unfold nbits; lia|lia|].
      exists r. split; [done|]. split; [lia|]. split; [|intros ?; apply Hr3; lia].
      intros i Hi. destruct (decide (i < 64 * (p + 1))); [apply Hword; lia|apply Hr2; lia].
    + eexists. split; [done|]. apply Hword. intros k Hk. by destruct (Z.ltb_spec k 0); [lia|].
  - destruct (Z.eqb_spec size 0) as [->|Hne].
    + exists (64 * p). split; [done|]. split; [lia|]. split; intros; lia.
    + destruct (aget_is_Some addr p) as [w Hw]; [lia|]. rewrite Hw. cbn [deref res_bind].
      eexists. split; [done|]. pose proof (found_zero_spec addr p w w size 0 Hw) as Hlast.
      rewrite Z.add_0_r in Hlast. apply Hlast; [by eapply words_ok_get|lia|lia|].
      intros k Hk. by destruct (Z.ltb_spec k 0); [lia|].
Qed.

(** [find_next_zero_bit] returns the first clear bit at or after [offset], or [size]. *)
Lemma find_next_zero_bit_spec (addr : bitmap) (size offset : Z) :
  words_ok addr -> 0 <= offset <= size -> size <= nbits addr ->
  exists r, find_next_zero_bit addr size offset = Ret r /\ first_zero addr size offset r.
Proof.
  intros Hok Ho Hn. unfold find_next_zero_bit, BITS_PER_LONG. destruct (Z.leb_spec size offset) as [|Hlt].
  { exists size. split; [done|]. split; [lia|]. split; intros; lia. }
  change (64 - 1) with (Z.ones 6). rewrite clear_low by lia. change (2 ^ 6) with 64.
  set (p := offset / 64). set (off := offset mod 64). rewrite (Z.mul_comm p).
  assert (offset = 64 * p + off) as Eo by (apply Z.div_mod; lia).
  assert (0 <= off < 64) as Hoff by (apply Z.mod_pos_bound; lia).
  assert (0 <= p) as Hp by (apply Z.div_pos; lia). unfold nbits in Hn.
  assert (forall p' f, 0 <= p' -> 64 * p' <= size -> f = S (length addr) ->
    exists r, next_zero_loop f addr p' (size - 64 * p') (64 * p') = Ret r /\ first_zero addr size (64 * p') r) as Hloop.
  { intros p' f Hp' Hp2 ->. destruct (next_zero_loop_spec (S (length addr)) addr p' (size - 64 * p')) as (r & Er & Hr);
      [done|done|lia|unfold nbits; lia|lia|].
    exists r. split; [done|]. by replace (64 * p' + (size - 64 * p')) with size in Hr by lia. }
  destruct (Z.eqb_spec off 0) as [E|E]; cbn [negb].
  { destruct (Hloop p _ Hp ltac:(lia) eq_refl) as (r & Er & Hr). exists r. split; [done|].
    by rewrite Eo, E, Z.add_0_r. }
  destruct (aget_is_Some addr p) as [w Hw]; [lia|]. rewrite Hw. cbn [deref res_bind].
  pose proof (words_ok_get _ _ _ Hok Hw) as Hwu. set (tmp := Z.lor w (Z.shiftr ones64 (64 - off))).
  assert (forall k, 0 <= k < 64 -> Z.testbit tmp k = if k <? off then true else Z.testbit w k) as Ht.
  { intros k Hk. unfold tmp. rewrite Z.lor_spec, shr_ones_bit by lia.
    destruct (k <? off); [apply orb_true_r|apply orb_false_r]. }
  destruct (Z.ltb_spec (size - 64 * p) 64) as [Hsmall|Hbig].
  - eexists. split; [done|]. rewrite Eo. replace size with (64 * p + (size - 64 * p)) at 1 by lia.
    apply (found_zero_spec addr p w tmp (size - 64 * p) off Hw); [|lia|lia|done].
    apply in_u_lor; [done|]. change ones64 with (Z.ones 64). unfold in_u. rewrite Z.shiftr_div_pow2 by lia.
    split; [apply Z.div_pos; [done|apply Z.pow_pos_nonneg; lia]|].
    apply Z.le_lt_trans with (Z.ones 64); [apply Z.div_le_upper_bound; [apply Z.pow_pos_nonneg; lia|]|done].
    assert (0 < 2 ^ (64 - off)) by (apply Z.pow_pos_nonneg; lia). assert (0 < Z.ones 64) by done. nia.
  - pose proof (whole_word_spec addr p w tmp (size - 64 * p) off Hw Hoff ltac:(lia) Ht) as Hword.
    replace (64 * p + (size - 64 * p)) with size in Hword by lia.
    destruct (Z.eqb_spec (u64 (Z.lnot tmp)) 0) as [E2|E2]; cbn [negb].
    + destruct (Hloop (p + 1) _ ltac:(lia) ltac:(lia) eq_refl) as (r & Er & Hr1 & Hr2 & Hr3). exists r. split.
      { rewrite <- Er. f_equal; lia. }
      split; [lia|]. split; [|done]. intros i Hi.
      destruct (decide (i < 64 * (p + 1))); [apply Hword; lia|apply Hr2; lia].
    + eexists. split; [done|]. by rewrite Eo.
Qed.

(** ** The search for a set bit is the search for a clear bit of the complement *)

Definition complement (addr : bitmap) : bitmap := (fun w => u64 (Z.lnot w)) <$> addr.

Lemma u64_bits_inj (a b : Z) : in_u 64 a -> in_u 64 b ->
  (forall k, 0 <= k < 64 -> Z.testbit a k = Z.testbit b k) -> a = b.
Proof.
  intros Ha Hb H. apply in_u_bits in Ha as [_ Ha]; [|lia]. apply in_u_bits in Hb as [_ Hb]; [|lia].
  apply Z.bits_inj. intros k. destruct (decide (k < 0)); [by rewrite !Z.testbit_neg_r|].
  destruct (decide (k < 64)); [apply H; lia|]. by rewrite Ha, Hb by lia.
Qed.
Lemma lnot64_involutive (w : Z) : in_u 64 w -> u64 (Z.lnot (u64 (Z.lnot w))) = w.
Proof.
  intros Hw. apply u64_bits_inj; [by apply wrap_range|done|]. intros k Hk. by rewrite !u64_lnot_bit, negb_involutive.
Qed.
Lemma aget_complement (addr : bitmap) (p : Z) : aget (complement addr) p = (fun w => u64 (Z.lnot w)) <$> aget addr p.
Proof. unfold aget, complement. destruct (p <? 0); [done|]. apply list_lookup_fmap. Qed.

Lemma found_next_complement (result size tmp : Z) : in_u 64 tmp -> 0 <= size < 64 ->
  found_next result size tmp = found_zero result size (u64 (Z.lnot tmp)).
Proof.
  intros Ht Hs. unfold found_next, found_zero, BITS_PER_LONG. set (a := Z.land _ _). set (b := Z.lor _ _).
  assert (u64 (Z.lnot b) = a) as E.
  { apply u64_bits_inj; [by apply wrap_range| |].
    - apply in_u_bits; [lia|]. apply in_u_bits in Ht as [H1 H2]; [|lia]. split; [apply Z.land_nonneg; by left|].
      intros i Hi. unfold a. by rewrite Z.land_spec, H2.
    - intros k Hk. unfold a, b.
      rewrite u64_lnot_bit, Z.lor_spec, Z.land_spec, u64_lnot_bit, shl_ones_bit, shr_ones_bit by lia.
      rewrite negb_orb, negb_involutive. f_equal. destruct (Z.leb_spec size k), (Z.ltb_spec k size); done || lia. }
  unfold ffz. rewrite E. assert (in_u 64 b) as Hb by (apply in_u_lor; by apply wrap_range).
  destruct (Z.eqb_spec a 0) as [E0|E0], (Z.eqb_spec b ones64) as [E1|E1]; try done.
  - exfalso. apply E1. apply eq_ones64; [done|]. apply u64_lnot_0. congruence.
  - exfalso. apply E0. rewrite <- E, E1. done.
Qed.

Lemma next_bit_loop_complement (fuel : nat) (addr : bitmap) (p size result : Z) : words_ok addr -> 0 <= size ->
  next_bit_loop fuel addr p size result = next_zero_loop fuel (complement addr) p size result.
Proof.
  intros Hok. revert p size result. induction fuel as [|fuel IH]; intros p size result Hs; [done|].
  cbn [next_bit_loop next_zero_loop]. rewrite size_test, aget_complement by done.
  destruct (aget addr p) as [w|] eqn:Hw; cbn [fmap option_fmap option_map deref res_bind].
  - pose proof (words_ok_get _ _ _ Hok Hw) as Hu. unfold ffz. rewrite lnot64_involutive by done.
    destruct (Z.leb_spec 64 size); [|by rewrite found_next_complement by (done || lia)].
    destruct (w =? 0); cbn [negb]; [|done]. apply IH. unfold BITS_PER_LONG. lia.
  - by destruct (64 <=? size), (size =? 0).
Qed.

Lemma find_next_bit_complement (addr : bitmap) (size offset : Z) : words_ok addr -> 0 <= offset ->
  find_next_bit addr size offset = find_next_zero_bit (complement addr) size offset.
Proof.
  intros Hok Ho. unfold find_next_bit, find_next_zero_bit, BITS_PER_LONG. destruct (Z.leb_spec size offset); [done|].
  change (64 - 1) with (Z.ones 6). rewrite clear_low by lia. change (2 ^ 6) with 64.
  assert (0 <= offset - offset / 64 * 64 < 64) as Hm.
  { pose proof (Z.div_mod offset 64 ltac:(lia)). pose proof (Z.mod_pos_bound offset 64 ltac:(lia)). lia. }
  assert (length (complement addr) = length addr) as -> by apply length_fmap. set (p := offset / 64) in *.
  assert (0 <= offset mod 64 < 64) by (apply Z.mod_pos_bound; lia). set (off := offset mod 64) in *.
  destruct (Z.eqb_spec off 0); cbn [negb]; [apply next_bit_loop_complement; [done|lia]|].
  rewrite aget_complement. destruct (aget addr p) as [w|] eqn:Hw; cbn [fmap option_fmap option_map deref res_bind]; [|done].
  pose proof (words_ok_get _ _ _ Hok Hw) as Hu. set (a := Z.land w _). set (b := Z.lor _ _).
  assert (in_u 64 a) as Ha.
  { apply in_u_bits; [lia|]. apply in_u_bits in Hu as [H1 H2]; [|lia]. split; [apply Z.land_nonneg; by left|].
    intros i Hi. unfold a. by rewrite Z.land_spec, H2. }
  assert (b = u64 (Z.lnot a)) as ->.
  { apply u64_bits_inj; [|by apply wrap_range|].
    - apply in_u_lor; [by apply wrap_range|]. apply in_u_bits; [lia|]. change ones64 with (Z.ones 64).
      split; [apply Z.shiftr_nonneg; done|]. intros i Hi. rewrite Z.shiftr_spec by lia. apply Z.ones_spec_high. lia.
    - intros k Hk. unfold a, b.
      rewrite u64_lnot_bit, Z.lor_spec, Z.land_spec, u64_lnot_bit, shl_ones_bit, shr_ones_bit by lia.
      rewrite negb_andb. f_equal. destruct (Z.leb_spec off k), (Z.ltb_spec k off); done || lia. }
  unfold ffz. rewrite lnot64_involutive by done.
  destruct (Z.ltb_spec (size - p * 64) 64); [by rewrite found_next_complement by (done || lia)|].
  destruct (a =? 0); cbn [negb]; [|done]. apply next_bit_loop_complement; [done|lia].
Qed.

Lemma bit_complement (addr : bitmap) (i : Z) : 0 <= i < nbits addr -> bit (complement addr) i = negb (bit addr i).
Proof.
  intros Hi. unfold bit, nbits in *. rewrite aget_complement. destruct (aget_is_Some addr (i / 64)) as [w ->].
  { split; [apply Z.div_pos; lia|apply Z.div_lt_upper_bound; lia]. }
  simpl. apply u64_lnot_bit. apply Z.mod_pos_bound. lia.
Qed.

(** ** The bitmap as a set of bits *)

Definition bitop_fun (o : bitop) (locked : bool) : Z -> bitmap -> res bitmap :=
  match o, locked with
  | OpSet, true => set_bit | OpSet, false => __set_bit
  | OpClear, true => clear_bit | OpClear, false => __clear_bit
  | OpChange, true => change_bit | OpChange, false => __change_bit
  end.
Definition test_bitop_fun (o : bitop) (locked : bool) : Z -> bitmap -> res (bool * bitmap) :=
  match o, locked with
  | OpSet, true => test_and_set_bit | OpSet, false => __test_and_set_bit
  | OpClear, true => test_and_clear_bit | OpClear, false => __test_and_clear_bit
  | OpChange, true => test_and_change_bit | OpChange, false => __test_and_change_bit
  end.

(** C17: the bit operations on a bitmap.  Each of them, with and without the lock, changes
    the bit it names, as set, clear or change says, and no other; the test versions return
    the old value and [test_bit] the present one.  The word-at-a-time searches return the
    first set and the first clear bit at or after the offset, or the size. *)
Theorem bitmap_operations_correct (addr : bitmap) (o : bitop) (locked : bool) (nr size offset : Z) :
  words_ok addr -> nr_ok addr nr -> 0 <= offset <= size -> size <= nbits addr ->
  test_bit nr addr = Ret (bit addr nr) /\
  (exists addr', bitop_fun o locked nr addr = Ret addr' /\ test_bitop_fun o locked nr addr = Ret (bit addr nr, addr') /\
     words_ok addr' /\ length addr' = length addr /\
     forall j, 0 <= j -> bit addr' j = if decide (j = nr) then bit_op o (bit addr nr) else bit addr j) /\
  (exists r, find_next_zero_bit addr size offset = Ret r /\ offset <= r <= size /\
     (forall i, offset <= i < r -> bit addr i = true) /\ (r < size -> bit addr r = false)) /\
  (exists r, find_next_bit addr size offset = Ret r /\ offset <= r <= size /\
     (forall i, offset <= i < r -> bit addr i = false) /\ (r < size -> bit addr r = true)).
Proof.
  intros Hok Hnr Ho Hs. split; [by apply test_bit_spec|]. split; [|split].
  - destruct (bit_operation o addr nr Hok Hnr) as (w & addr' & E1 & E2 & E3 & E4 & Hr). exists addr'.
    split; [|split; [|done]]; destruct o, locked; cbn [bitop_fun test_bitop_fun];
      unfold set_bit, clear_bit, change_bit, __set_bit, __clear_bit, __change_bit, test_and_set_bit, test_and_clear_bit,
        test_and_change_bit, __test_and_set_bit, __test_and_clear_bit, __test_and_change_bit;
      rewrite E1, E2; cbn [deref res_bind]; by rewrite <- ?E3, <- E4.
  - by apply find_next_zero_bit_spec.
  - rewrite find_next_bit_complement by (done || lia).
    destruct (find_next_zero_bit_spec (complement addr) size offset) as (r & E & H1 & H2 & H3).
    + apply Forall_fmap, Forall_true. intros w. by apply wrap_range.
    + done.
    + unfold nbits, complement in *. by rewrite length_fmap.
    + exists r. split; [done|]. split; [done|]. split.
      * intros i Hi. specialize (H2 i Hi). rewrite bit_complement in H2 by lia. by apply negb_true_iff.
      * intros Hr. specialize (H3 Hr). rewrite bit_complement in H3 by lia. by apply negb_false_iff.
Qed.

Module BitopsDemo.
Definition map : bitmap := [0xff; 0x10].

Lemma bitmap_operations_correct_witness :
  test_bit 68 map = Ret (bit map 68) /\
  (exists addr', bitop_fun OpChange false 68 map = Ret addr' /\ test_bitop_fun OpChange false 68 map = Ret (bit map 68, addr') /\
     words_ok addr' /\ length addr' = length map /\
     forall j, 0 <= j -> bit addr' j = if decide (j = 68) then bit_op OpChange (bit map 68) else bit map j) /\
  (exists r, find_next_zero_bit map 100 3 = Ret r /\ 3 <= r <= 100 /\
     (forall i, 3 <= i < r -> bit map i = true) /\ (r < 100 -> bit map r = false)) /\
  (exists r, find_next_bit map 100 3 = Ret r /\ 3 <= r <= 100 /\
     (forall i, 3 <= i < r -> bit map i = false) /\ (r < 100 -> bit map r = true)).
Proof.
  apply (bitmap_operations_correct map OpChange false 68 100 3).
  - repeat apply Forall_cons_2; [..|apply Forall_nil_2]; done.
  - split; done.
  - done.
  - done.
Defined.
End BitopsDemo.
