(* ===== verification/Buddy.v ===== *)
(** * The page allocator: mm/page_alloc.c

    The free lists of a zone and their blocks of 1, 2, 4, ... pages, splitting and merging of blocks, the
    lists by mobility, and the lists of single pages of the CPU above them.  A [struct page] is named by
    its frame number.  The lists are sequences of frame numbers; list_del takes a page from the list it is
    on.  The checks of the debugging configuration, VM_BUG_ON, are faults.  Frames in the memory map are
    valid, as there are no holes; compound pages, memory that is poisoned and the fields of pages that
    belong to its users are not modelled, so that the checks for bad pages come down to the reference count. *)
From S2P Require Import Prelude.

Definition MAX_ORDER : Z := 11.
Definition MIGRATE_UNMOVABLE : Z := 0.
Definition MIGRATE_RECLAIMABLE : Z := 1.
Definition MIGRATE_MOVABLE : Z := 2.
Definition MIGRATE_PCPTYPES : Z := 3.
Definition MIGRATE_RESERVE : Z := 3.
Definition MIGRATE_ISOLATE : Z := 4.
Definition MIGRATE_TYPES : Z := 5.
Definition pageblock_order : Z := MAX_ORDER - 1.
Definition pageblock_nr_pages : Z := Z.shiftl 1 pageblock_order.
Definition NR_PAGEBLOCK_BITS : Z := 3.

Record page := Page { PageBuddy : bool; private : Z; _count : Z; page_zone : Z }.

(** The lists of free blocks by order and type, the number of blocks of an order, the bits of the pageblocks,
    and NR_FREE_PAGES. *)
Record zone := Zone {
  mem_map : gmap Z page;
  free_list : Z -> Z -> list Z;
  nr_free : Z -> Z;
  pageblock_flags : gset Z;
  nr_free_pages : Z;
  zone_id : Z;
  zone_start_pfn : Z;
  spanned_pages : Z }.

Definition set_mem_map (m : gmap Z page) (z : zone) : zone :=
  Zone m (free_list z) (nr_free z) (pageblock_flags z) (nr_free_pages z) (zone_id z) (zone_start_pfn z) (spanned_pages z).
Definition set_free_list (f : Z -> Z -> list Z) (z : zone) : zone :=
  Zone (mem_map z) f (nr_free z) (pageblock_flags z) (nr_free_pages z) (zone_id z) (zone_start_pfn z) (spanned_pages z).
Definition set_nr_free (n : Z -> Z) (z : zone) : zone :=
  Zone (mem_map z) (free_list z) n (pageblock_flags z) (nr_free_pages z) (zone_id z) (zone_start_pfn z) (spanned_pages z).
Definition set_pageblock_flags (s : gset Z) (z : zone) : zone :=
  Zone (mem_map z) (free_list z) (nr_free z) s (nr_free_pages z) (zone_id z) (zone_start_pfn z) (spanned_pages z).
Definition mod_free_pages (d : Z) (z : zone) : zone :=
  Zone (mem_map z) (free_list z) (nr_free z) (pageblock_flags z) (s64 (nr_free_pages z + d)) (zone_id z) (zone_start_pfn z) (spanned_pages z).

(** ** Pages and lists *)

Definition update_page (f : page -> page) (p : Z) (z : zone) : res zone :=
  let! pg := deref (mem_map z !! p) in Ret (set_mem_map (<[p := f pg]> (mem_map z)) z).
Definition set_page_order (p order : Z) (z : zone) : res zone :=
  update_page (fun pg => Page true order (_count pg) (page_zone pg)) p z.
Definition rmv_page_order (p : Z) (z : zone) : res zone :=
  update_page (fun pg => Page false 0 (_count pg) (page_zone pg)) p z.
Definition set_page_private (p v : Z) (z : zone) : res zone :=
  update_page (fun pg => Page (PageBuddy pg) v (_count pg) (page_zone pg)) p z.
Definition set_page_count (p v : Z) (z : zone) : res zone :=
  update_page (fun pg => Page (PageBuddy pg) (private pg) v (page_zone pg)) p z.
Definition set_page_refcounted (p : Z) (z : zone) : res zone :=
  let! pg := deref (mem_map z !! p) in
  let! _ := BUG_ON (negb (_count pg =? 0)) in
  set_page_count p 1 z.
Definition get_page (p : Z) (z : zone) : res zone :=
  let! pg := deref (mem_map z !! p) in
  let! _ := BUG_ON (_count pg =? 0) in
  set_page_count p (s32 (_count pg + 1)) z.
Definition put_page_testzero (p : Z) (z : zone) : res (bool * zone) :=
  let! pg := deref (mem_map z !! p) in
  let! _ := BUG_ON (_count pg =? 0) in
  let! z := set_page_count p (s32 (_count pg - 1)) z in
  Ret (s32 (_count pg - 1) =? 0, z).
Definition page_order (p : Z) (z : zone) : res Z :=
  let! pg := deref (mem_map z !! p) in
  let! _ := BUG_ON (negb (PageBuddy pg)) in
  Ret (private pg).
Definition bad_range (p : Z) (z : zone) : res bool :=
  if (zone_start_pfn z + spanned_pages z <=? p) || (p <? zone_start_pfn z) then Ret true
  else let! pg := deref (mem_map z !! p) in Ret (negb (page_zone pg =? zone_id z)).

(** An index into free_area[].free_list[]. *)
Definition area_index (order mt : Z) : res unit :=
  BUG_ON (negb ((0 <=? order) && (order <? MAX_ORDER) && (0 <=? mt) && (mt <? MIGRATE_TYPES))).
Definition with_list (order mt : Z) (l : list Z) (z : zone) : zone :=
  set_free_list (fun o t => if (o =? order) && (t =? mt) then l else free_list z o t) z.
Definition list_add (p order mt : Z) (z : zone) : res zone :=
  let! _ := area_index order mt in Ret (with_list order mt (p :: free_list z order mt) z).
Definition list_add_tail (p order mt : Z) (z : zone) : res zone :=
  let! _ := area_index order mt in Ret (with_list order mt (free_list z order mt ++ [p]) z).
Definition list_del (p : Z) (z : zone) : zone :=
  set_free_list (fun o t => filter (fun x => x <> p) (free_list z o t)) z.
(** nr_free++ and nr_free--. *)
Definition add_nr_free (order d : Z) (z : zone) : zone :=
  set_nr_free (fun o => if o =? order then u64 (nr_free z o + d) else nr_free z o) z.

(** ** Types of pageblocks *)

Definition pfn_to_bitidx (z : zone) (pfn : Z) : Z :=
  s32 (Z.shiftr (u64 (pfn - zone_start_pfn z)) pageblock_order * NR_PAGEBLOCK_BITS).
Fixpoint get_bits (n : nat) (z : zone) (bit value : Z) : Z :=
  match n with
  | O => 0
  | S n => Z.lor (if decide (bit ∈ pageblock_flags z) then value else 0) (get_bits n z (bit + 1) (Z.shiftl value 1))
  end.
Definition get_pageblock_migratetype (p : Z) (z : zone) : Z :=
  get_bits 3 z (pfn_to_bitidx z p) 1.
Fixpoint set_bits (n : nat) (flags bit value : Z) (s : gset Z) : gset Z :=
  match n with
  | O => s
  | S n =>
      set_bits n flags (bit + 1) (Z.shiftl value 1) (if Z.land flags value =? 0 then s ∖ {[bit]} else {[bit]} ∪ s)
  end.
Definition set_pageblock_flags_group (p flags : Z) (z : zone) : res zone :=
  let! _ := BUG_ON (p <? zone_start_pfn z) in
  let! _ := BUG_ON (zone_start_pfn z + spanned_pages z <=? p) in
  Ret (set_pageblock_flags (set_bits 3 flags (pfn_to_bitidx z p) 1 (pageblock_flags z)) z).

(** ** Merging *)

Definition __page_find_buddy (page page_idx order : Z) : Z :=
  let buddy_idx := Z.lxor page_idx (Z.shiftl 1 order) in
  page + (buddy_idx - page_idx).
Definition __find_combined_index (page_idx order : Z) : Z :=
  Z.land page_idx (u64 (Z.lnot (Z.shiftl 1 order))).
Definition page_is_buddy (z : zone) (page buddy order : Z) : res bool :=
  let! pg := deref (mem_map z !! page) in
  let! b := deref (mem_map z !! buddy) in
  if negb (page_zone pg =? page_zone b) then Ret false
  else if PageBuddy b && (private b =? order) then let! _ := BUG_ON (negb (_count b =? 0)) in Ret true
  else Ret false.

Fixpoint merge_loop (fuel : nat) (z : zone) (page page_idx order : Z) : res (Z * Z * Z * zone) :=
  match fuel with
  | O => OutOfFuel
  | S fuel =>
      if order <? MAX_ORDER - 1 then
        let buddy := __page_find_buddy page page_idx order in
        let! b := page_is_buddy z page buddy order in
        if negb b then Ret (page, page_idx, order, z)
        else
          let z := list_del buddy z in
          let z := add_nr_free order (-1) z in
          let! z := rmv_page_order buddy z in
          let combined_idx := __find_combined_index page_idx order in
          merge_loop fuel z (page + (combined_idx - page_idx)) combined_idx (order + 1)
      else Ret (page, page_idx, order, z)
  end.
(** Whether the block above is likely to be complete soon. *)
Definition merge_soon (z : zone) (page page_idx order : Z) : res bool :=
  if order <? MAX_ORDER - 1 then
    let combined_idx := __find_combined_index page_idx order in
    let higher_page := page + combined_idx - page_idx in
    let higher_buddy := __page_find_buddy higher_page combined_idx (order + 1) in
    page_is_buddy z higher_page higher_buddy (order + 1)
  else Ret false.
Definition __free_one_page (page : Z) (z : zone) (order mt : Z) : res zone :=
  let! _ := BUG_ON (mt =? -1) in
  let page_idx := Z.land page (Z.shiftl 1 MAX_ORDER - 1) in
  let! _ := BUG_ON (negb (Z.land page_idx (Z.shiftl 1 order - 1) =? 0)) in
  let! bad := bad_range page z in
  let! _ := BUG_ON bad in
  let! (r, z) := merge_loop 12 z page page_idx order in
  let '(page, page_idx, order) := r in
  let! z := set_page_order page order z in
  let! soon := merge_soon z page page_idx order in
  let! z := if soon : bool then list_add_tail page order mt z else list_add page order mt z in
  Ret (add_nr_free order 1 z).

(** ** Splitting *)

Fixpoint expand_loop (fuel : nat) (z : zone) (page low high size mt : Z) : res zone :=
  match fuel with
  | O => OutOfFuel
  | S fuel =>
      if low <? high then
        let high := high - 1 in
        let size := Z.shiftr size 1 in
        let! bad := bad_range (page + size) z in
        let! _ := BUG_ON bad in
        let! z := list_add (page + size) high mt z in
        let z := add_nr_free high 1 z in
        let! z := set_page_order (page + size) high z in
        expand_loop fuel z page low high size mt
      else Ret z
  end.
Definition expand (z : zone) (page low high mt : Z) : res zone :=
  expand_loop 12 z page low high (Z.shiftl 1 high) mt.

Fixpoint smallest_loop (fuel : nat) (z : zone) (order current_order mt : Z) : res (option Z * zone) :=
  match fuel with
  | O => OutOfFuel
  | S fuel =>
      if current_order <? MAX_ORDER then
        let! _ := area_index current_order mt in
        match free_list z current_order mt with
        | [] => smallest_loop fuel z order (current_order + 1) mt
        | page :: _ =>
            let z := list_del page z in
            let! z := rmv_page_order page z in
            let z := add_nr_free current_order (-1) z in
            let! z := expand z page order current_order mt in
            Ret (Some page, z)
        end
      else Ret (None, z)
  end.
Definition __rmqueue_smallest (z : zone) (order mt : Z) : res (option Z * zone) := smallest_loop 12 z order order mt.

(** ** Fallbacks *)

(** The rows have four places, of which the last one is 0 where three are given. *)
Definition fallbacks (mt : Z) : list Z :=
  if mt =? MIGRATE_UNMOVABLE then [MIGRATE_RECLAIMABLE; MIGRATE_MOVABLE; MIGRATE_RESERVE; 0]
  else if mt =? MIGRATE_RECLAIMABLE then [MIGRATE_UNMOVABLE; MIGRATE_MOVABLE; MIGRATE_RESERVE; 0]
  else if mt =? MIGRATE_MOVABLE then [MIGRATE_RECLAIMABLE; MIGRATE_UNMOVABLE; MIGRATE_RESERVE; 0]
  else if mt =? MIGRATE_RESERVE then [MIGRATE_RESERVE; MIGRATE_RESERVE; MIGRATE_RESERVE; 0]
  else [0; 0; 0; 0].

Fixpoint move_loop (fuel : nat) (z : zone) (page end_page mt moved : Z) : res (Z * zone) :=
  match fuel with
  | O => OutOfFuel
  | S fuel =>
      if page <=? end_page then
        let! pg := deref (mem_map z !! page) in
        if negb (PageBuddy pg) then move_loop fuel z (page + 1) end_page mt moved
        else
          let! order := page_order page z in
          let z := list_del page z in
          let! z := list_add page order mt z in
          move_loop fuel z (page + Z.shiftl 1 order) end_page mt (s32 (moved + Z.shiftl 1 order))
      else Ret (moved, z)
  end.
Definition move_freepages (z : zone) (start_page end_page mt : Z) : res (Z * zone) :=
  let! s := deref (mem_map z !! start_page) in
  let! e := deref (mem_map z !! end_page) in
  let! _ := BUG_ON (negb (page_zone s =? page_zone e)) in
  move_loop (Z.to_nat (end_page - start_page + 2)) z start_page end_page mt 0.
Definition move_freepages_block (z : zone) (page mt : Z) : res (Z * zone) :=
  let start_pfn := Z.land page (u64 (Z.lnot (pageblock_nr_pages - 1))) in
  let end_pfn := start_pfn + pageblock_nr_pages - 1 in
  let start_page := if start_pfn <? zone_start_pfn z then page else start_pfn in
  if zone_start_pfn z + spanned_pages z <=? end_pfn then Ret (0, z)
  else move_freepages z start_page end_pfn mt.

Section Mobility.
Variable page_group_by_mobility_disabled : bool.

Definition set_pageblock_migratetype (p mt : Z) (z : zone) : res zone :=
  set_pageblock_flags_group p (if page_group_by_mobility_disabled then MIGRATE_UNMOVABLE else mt) z.
Fixpoint change_loop (n : nat) (p mt : Z) (z : zone) : res zone :=
  match n with
  | O => Ret z
  | S n => let! z := set_pageblock_migratetype p mt z in change_loop n (p + pageblock_nr_pages) mt z
  end.
Definition change_pageblock_range (p start_order mt : Z) (z : zone) : res zone :=
  change_loop (Z.to_nat (Z.shiftl 1 (start_order - pageblock_order))) p mt z.

(** A block of [current_order] is taken from a list of another type. *)
Definition steal (z : zone) (order current_order page start_mt mt : Z) : res (option Z * zone) :=
  let z := add_nr_free current_order (-1) z in
  let! (mt, z) :=
    if (Z.shiftr pageblock_order 1 <=? current_order) || (start_mt =? MIGRATE_RECLAIMABLE) || page_group_by_mobility_disabled then
      let! (pages, z) := move_freepages_block z page start_mt in
      let! z :=
        if (Z.shiftl 1 (pageblock_order - 1) <=? u64 pages) || page_group_by_mobility_disabled
        then set_pageblock_migratetype page start_mt z else Ret z in
      Ret (start_mt, z)
    else Ret (mt, z) in
  let z := list_del page z in
  let! z := rmv_page_order page z in
  let! z := if pageblock_order <=? current_order then change_pageblock_range page current_order start_mt z else Ret z in
  let! z := expand z page order current_order mt in
  Ret (Some page, z).
(** The types of a row, for one order: the first list that is not empty. *)
Fixpoint fallback_types (mts : list Z) (z : zone) (order current_order start_mt : Z) : res (option Z * zone) :=
  match mts with
  | [] => Ret (None, z)
  | mt :: mts =>
      if mt =? MIGRATE_RESERVE then fallback_types mts z order current_order start_mt
      else
        let! _ := area_index current_order mt in
        match free_list z current_order mt with
        | [] => fallback_types mts z order current_order start_mt
        | page :: _ => steal z order current_order page start_mt mt
        end
  end.
Fixpoint fallback_loop (fuel : nat) (z : zone) (order current_order start_mt : Z) : res (option Z * zone) :=
  match fuel with
  | O => OutOfFuel
  | S fuel =>
      if order <=? current_order then
        let! (r, z) := fallback_types (fallbacks start_mt) z order current_order start_mt in
        match r with Some page => Ret (Some page, z) | None => fallback_loop fuel z order (current_order - 1) start_mt end
      else Ret (None, z)
  end.
Definition __rmqueue_fallback (z : zone) (order start_mt : Z) : res (option Z * zone) :=
  fallback_loop 12 z order (MAX_ORDER - 1) start_mt.
Definition __rmqueue (z : zone) (order mt : Z) : res (option Z * zone) :=
  let! (page, z) := __rmqueue_smallest z order mt in
  match page with
  | Some p => Ret (Some p, z)
  | None =>
      if mt =? MIGRATE_RESERVE then Ret (None, z)
      else
        let! (page, z) := __rmqueue_fallback z order mt in
        match page with
        | Some p => Ret (Some p, z)
        | None => __rmqueue_smallest z order MIGRATE_RESERVE
        end
  end.
End Mobility.

(** ** The lists of the CPU *)

Record per_cpu_pages := Pcp { pcp_count : Z; high : Z; batch : Z; pcp_lists : Z -> list Z }.
Definition set_pcp_list (mt : Z) (l : list Z) (c : per_cpu_pages) : per_cpu_pages :=
  Pcp (pcp_count c) (high c) (batch c) (fun t => if t =? mt then l else pcp_lists c t).
Definition add_pcp_count (d : Z) (c : per_cpu_pages) : per_cpu_pages :=
  Pcp (s32 (pcp_count c + d)) (high c) (batch c) (pcp_lists c).
Definition pcp_index (mt : Z) : res unit := BUG_ON (negb ((0 <=? mt) && (mt <? MIGRATE_PCPTYPES))).

(** [setup_pageset] *)
Definition setup_pageset (n : Z) : per_cpu_pages := Pcp 0 (s32 (u64 (6 * n))) (s32 (Z.max 1 n)) (fun _ => []).

(** A zone with the lists of the one CPU. *)
Definition allocator : Type := zone * per_cpu_pages.

(** The first list from the next type on that is not empty, with the number of lists that were looked at. *)
Fixpoint next_list (fuel : nat) (c : per_cpu_pages) (mt batch_free : Z) : res (Z * Z) :=
  match fuel with
  | O => OutOfFuel
  | S fuel =>
      let batch_free := batch_free + 1 in
      let mt := if mt + 1 =? MIGRATE_PCPTYPES then 0 else mt + 1 in
      match pcp_lists c mt with [] => next_list fuel c mt batch_free | _ => Ret (mt, batch_free) end
  end.
(** The last page of the list of [mt] goes back, [batch_free] times or until the list or [count] is used up. *)
Fixpoint free_batch (fuel : nat) (z : zone) (c : per_cpu_pages) (mt count batch_free : Z) : res (Z * Z * allocator) :=
  match fuel with
  | O => OutOfFuel
  | S fuel =>
      let! page := deref (last (pcp_lists c mt)) in
      let c := set_pcp_list mt (removelast (pcp_lists c mt)) c in
      let! pg := deref (mem_map z !! page) in
      let! z := __free_one_page page z 0 (private pg) in
      let count := count - 1 in
      if count =? 0 then Ret (count, batch_free, (z, c))
      else
        let batch_free := batch_free - 1 in
        if batch_free =? 0 then Ret (count, batch_free, (z, c))
        else match pcp_lists c mt with [] => Ret (count, batch_free, (z, c)) | _ => free_batch fuel z c mt count batch_free end
  end.
Fixpoint free_pcp_loop (fuel : nat) (z : zone) (c : per_cpu_pages) (mt count batch_free : Z) : res allocator :=
  match fuel with
  | O => OutOfFuel
  | S fuel =>
      if count =? 0 then Ret (z, c)
      else
        let! (mt, batch_free) := next_list 3 c mt batch_free in
        let! (r, a) := free_batch (S (length (pcp_lists c mt))) z c mt count batch_free in
        let '(count, batch_free) := r in
        free_pcp_loop fuel (fst a) (snd a) mt count batch_free
  end.
Definition free_pcppages_bulk (z : zone) (count : Z) (c : per_cpu_pages) : res allocator :=
  free_pcp_loop (S (Z.to_nat count)) (mod_free_pages count z) c 0 count 0.
Definition free_one_page (z : zone) (page order mt : Z) : res zone :=
  __free_one_page page (mod_free_pages (Z.shiftl 1 order) z) order mt.

(** A page in use that is freed or handed out is reported, and stays out of the lists. *)
Definition bad_page (p : Z) (z : zone) : res zone :=
  update_page (fun pg => Page false (private pg) (_count pg) (page_zone pg)) p z.
Definition free_pages_check (p : Z) (z : zone) : res (Z * zone) :=
  let! pg := deref (mem_map z !! p) in
  if negb (_count pg =? 0) then let! z := bad_page p z in Ret (1, z) else Ret (0, z).
Fixpoint check_loop (n : nat) (p bad : Z) (z : zone) : res (Z * zone) :=
  match n with
  | O => Ret (bad, z)
  | S n => let! (b, z) := free_pages_check p z in check_loop n (p + 1) (bad + b) z
  end.
Definition free_pages_prepare (page order : Z) (z : zone) : res (bool * zone) :=
  let! (bad, z) := check_loop (Z.to_nat (Z.shiftl 1 order)) page 0 z in Ret (bad =? 0, z).
Definition __free_pages_ok (page order : Z) (a : allocator) : res allocator :=
  let '(z, c) := a in
  let! (ok, z) := free_pages_prepare page order z in
  if negb ok then Ret (z, c)
  else let! z := free_one_page z page order (get_pageblock_migratetype page z) in Ret (z, c).
Definition free_hot_cold_page (page : Z) (cold : bool) (a : allocator) : res allocator :=
  let '(z, c) := a in
  let! (ok, z) := free_pages_prepare page 0 z in
  if negb ok then Ret (z, c)
  else
    let mt := get_pageblock_migratetype page z in
    let! z := set_page_private page mt z in
    if (MIGRATE_PCPTYPES <=? mt) && (mt =? MIGRATE_ISOLATE) then let! z := free_one_page z page 0 mt in Ret (z, c)
    else
      let mt := if MIGRATE_PCPTYPES <=? mt then MIGRATE_MOVABLE else mt in
      let c := set_pcp_list mt (if cold then pcp_lists c mt ++ [page] else page :: pcp_lists c mt) c in
      let c := add_pcp_count 1 c in
      if high c <=? pcp_count c then
        let! (z, c) := free_pcppages_bulk z (batch c) c in Ret (z, add_pcp_count (- batch c) c)
      else Ret (z, c).
Definition __free_pages (page order : Z) (a : allocator) : res allocator :=
  let! (zero, z) := put_page_testzero page (fst a) in
  let a := (z, snd a) in
  if zero then if order =? 0 then free_hot_cold_page page false a else __free_pages_ok page order a else Ret a.
Definition drain_pages (a : allocator) : res allocator :=
  let! (z, c) := free_pcppages_bulk (fst a) (pcp_count (snd a)) (snd a) in
  Ret (z, Pcp 0 (high c) (batch c) (pcp_lists c)).

(** set_page_count(p, 0) for the [n] pages from [p] on. *)
Fixpoint clear_counts (n : nat) (p : Z) (z : zone) : res zone :=
  match n with
  | O => Ret z
  | S n => let! z := set_page_count p 0 z in clear_counts n (p + 1) z
  end.
Definition __free_pages_bootmem (page order : Z) (a : allocator) : res allocator :=
  let! z := clear_counts (if order =? 0 then 1%nat else 64%nat) page (fst a) in
  let! z := set_page_refcounted page z in
  __free_pages page order (z, snd a).

Section Allocation.
Variable page_group_by_mobility_disabled : bool.

(** The pages that were taken, in order. *)
Fixpoint bulk_loop (n : nat) (z : zone) (order mt : Z) : res (list Z * zone) :=
  match n with
  | O => Ret ([], z)
  | S n =>
      let! (page, z) := __rmqueue page_group_by_mobility_disabled z order mt in
      match page with
      | None => Ret ([], z)
      | Some page =>
          let! z := set_page_private page mt z in
          let! (l, z) := bulk_loop n z order mt in
          Ret (page :: l, z)
      end
  end.
(** Each page goes behind the one before it, or for cold pages in front of it at the end of the list. *)
Definition rmqueue_bulk (z : zone) (order count : Z) (l : list Z) (mt : Z) (cold : bool) : res (Z * list Z * zone) :=
  let! (ps, z) := bulk_loop (Z.to_nat count) z order mt in
  let i := Z.of_nat (length ps) in
  Ret (i, if cold then l ++ reverse ps else ps ++ l, mod_free_pages (- Z.shiftl i order) z).

Definition check_new_page (p : Z) (z : zone) : res (bool * zone) :=
  let! pg := deref (mem_map z !! p) in
  if negb (_count pg =? 0) then let! z := bad_page p z in Ret (true, z) else Ret (false, z).
Fixpoint check_new_pages (n : nat) (p : Z) (z : zone) : res (bool * zone) :=
  match n with
  | O => Ret (false, z)
  | S n => let! (bad, z) := check_new_page p z in if bad then Ret (true, z) else check_new_pages n (p + 1) z
  end.
Definition prep_new_page (page order : Z) (z : zone) : res (bool * zone) :=
  let! (bad, z) := check_new_pages (Z.to_nat (Z.shiftl 1 order)) page z in
  if bad then Ret (true, z)
  else
    let! z := set_page_private page 0 z in
    let! z := set_page_refcounted page z in
    Ret (false, z).

(** One round of [buffered_rmqueue], up to the checks of the page: a page of the list of the CPU, which is refilled when
    it is empty, or a block of the zone. *)
Definition take_page (a : allocator) (order mt : Z) (cold : bool) : res (option Z * allocator) :=
  let '(z, c) := a in
  if order =? 0 then
    let! _ := pcp_index mt in
    let! (c, z) :=
      match pcp_lists c mt with
      | [] =>
          let! (r, z) := rmqueue_bulk z 0 (batch c) [] mt cold in
          let '(i, l) := r in
          Ret (set_pcp_list mt l (add_pcp_count i c), z)
      | _ => Ret (c, z)
      end in
    match pcp_lists c mt with
    | [] => Ret (None, (z, c))
    | l =>
        let! page := deref (if cold then last l else head l) in
        Ret (Some page, (z, add_pcp_count (-1) (set_pcp_list mt (if cold then removelast l else tail l) c)))
    end
  else
    let! (page, z) := __rmqueue page_group_by_mobility_disabled z order mt in
    match page with
    | None => Ret (None, (z, c))
    | Some page => Ret (Some page, (mod_free_pages (- Z.shiftl 1 order) z, c))
    end.
(** A page that is bad is dropped and the next one is taken. *)
Fixpoint again (fuel : nat) (a : allocator) (order mt : Z) (cold : bool) : res (option Z * allocator) :=
  match fuel with
  | O => OutOfFuel
  | S fuel =>
      let! (r, a) := take_page a order mt cold in
      match r with
      | None => Ret (None, a)
      | Some page =>
          let! bad := bad_range page (fst a) in
          let! _ := BUG_ON bad in
          let! (bad, z) := prep_new_page page order (fst a) in
          if bad then again fuel (z, snd a) order mt cold else Ret (Some page, (z, snd a))
      end
  end.
(** Each round but the last drops a page, so that the pages of the zone bound the rounds. *)
Definition buffered_rmqueue (a : allocator) (order mt : Z) (cold : bool) : res (option Z * allocator) :=
  again (S (Z.to_nat (spanned_pages (fst a)))) a order mt cold.
End Allocation.
