(* ===== verification/BuddyInv.v ===== *)
(** * The free lists of a zone

    The invariant of the free lists: blocks are aligned, inside the zone and disjoint, the marks of the
    pages and the lists agree, no block is free next to its free buddy, and none is isolated, which only the
    code for memory that goes away does.  Taking a block out and putting
    a block in keep it. *)
From S2P Require Import Prelude Buddy.

Notation len l := (Z.of_nat (length l)).

(** ** Buddies *)

Definition aligned (p o : Z) : Prop := (2 ^ o | p).
Definition buddy (p o : Z) : Z := Z.lxor p (2 ^ o).
(** The start of the block of the next order. *)
Definition parent (p o : Z) : Z := Z.ldiff p (2 ^ o).

Lemma pow2_gt0 (o : Z) : 0 <= o -> 0 < 2 ^ o.
Proof. intros H. apply Z.pow_pos_nonneg; lia. Qed.
Lemma pow2_S (o : Z) : 0 <= o -> 2 ^ (o + 1) = 2 * 2 ^ o.
Proof. intros H. rewrite Z.pow_add_r by lia. lia. Qed.
Lemma pow2_le (o o' : Z) : o <= o' -> 2 ^ o <= 2 ^ o'.
Proof. intros H. apply Z.pow_le_mono_r; lia. Qed.
Lemma buddy_buddy (p o : Z) : buddy (buddy p o) o = p.
Proof. unfold buddy. by rewrite Z.lxor_assoc, Z.lxor_nilpotent, Z.lxor_0_r. Qed.
Lemma buddy_bit (p o : Z) : 0 <= o -> buddy p o = p + if Z.testbit p o then - 2 ^ o else 2 ^ o.
Proof.
  intros Ho. unfold buddy. destruct (Z.testbit p o) eqn:E.
  - assert (Z.ldiff (2 ^ o) p = 0) as Hd.
    { apply Z.bits_inj'. intros n Hn. rewrite Z.ldiff_spec, Z.bits_0, Z.pow2_bits_eqb by lia. destruct (Z.eqb_spec o n); [subst; by rewrite E|done]. }
    replace (p + - 2 ^ o) with (p - 2 ^ o) by lia. rewrite Z.sub_nocarry_ldiff by done. apply Z.bits_inj'. intros n Hn.
    rewrite Z.lxor_spec, Z.ldiff_spec, Z.pow2_bits_eqb by lia. destruct (Z.eqb_spec o n); [subst; by rewrite E|]. by rewrite xorb_false_r, andb_true_r.
  - symmetry. apply Z.add_nocarry_lxor.
    apply Z.bits_inj'. intros n Hn. rewrite Z.land_spec, Z.bits_0, Z.pow2_bits_eqb by lia. destruct (Z.eqb_spec o n); [subst; by rewrite E|by rewrite andb_false_r].
Qed.
Lemma parent_bit (p o : Z) : 0 <= o -> parent p o = p - if Z.testbit p o then 2 ^ o else 0.
Proof.
  intros Ho. unfold parent. destruct (Z.testbit p o) eqn:E.
  - symmetry. apply Z.sub_nocarry_ldiff. apply Z.bits_inj'. intros n Hn. rewrite Z.ldiff_spec, Z.bits_0, Z.pow2_bits_eqb by lia.
    destruct (Z.eqb_spec o n); [subst; by rewrite E|done].
  - rewrite Z.sub_0_r. apply Z.bits_inj'. intros n Hn. rewrite Z.ldiff_spec, Z.pow2_bits_eqb by lia.
    destruct (Z.eqb_spec o n); [subst; by rewrite E|by rewrite andb_true_r].
Qed.
Lemma aligned_bit (p o : Z) : 0 <= o -> aligned p o -> aligned (p - if Z.testbit p o then 2 ^ o else 0) (o + 1).
Proof.
  intros Ho [q ->]. unfold aligned. rewrite (pow2_S o Ho), Z.testbit_odd, Z.shiftr_div_pow2, Z.div_mul by (pose proof (pow2_gt0 o Ho); lia).
  destruct (Z.odd q) eqn:E; [apply Z.odd_spec in E as [k ->]; exists k; lia|].
  assert (Z.even q = true) as Hev by (rewrite <- Z.negb_odd, E; done). apply Z.even_spec in Hev as [k ->]. exists k. lia.
Qed.
Lemma buddy_cases (p o : Z) : 0 <= o -> aligned p o ->
  (buddy p o = p + 2 ^ o /\ parent p o = p /\ aligned p (o + 1)) \/
  (buddy p o = p - 2 ^ o /\ parent p o = p - 2 ^ o /\ aligned (p - 2 ^ o) (o + 1)).
Proof.
  intros Ho Hp. pose proof (aligned_bit p o Ho Hp) as Ha. rewrite (buddy_bit p o Ho), (parent_bit p o Ho).
  destruct (Z.testbit p o); [right|left]; rewrite ?Z.sub_0_r in *; split_and!; done || lia.
Qed.

(** The indices of the code are frame numbers modulo the largest block. *)
Definition idx (p : Z) : Z := Z.land p (Z.shiftl 1 MAX_ORDER - 1).
Lemma idx_mod (p : Z) : idx p = p mod 2 ^ 11.
Proof. unfold idx. change (Z.shiftl 1 MAX_ORDER - 1) with (Z.ones 11). by apply Z.land_ones. Qed.
Lemma idx_split (p : Z) : p = p - idx p + idx p /\ exists k, p - idx p = k * 2 ^ 11.
Proof. rewrite idx_mod. split; [lia|]. exists (p / 2 ^ 11). pose proof (Z.div_mod p (2 ^ 11) ltac:(lia)). lia. Qed.
Lemma idx_aligned (p o : Z) : 0 <= o <= 11 -> aligned p o -> aligned (idx p) o.
Proof.
  intros Ho Hp. destruct (idx_split p) as [E [k Hk]]. unfold aligned in *. replace (idx p) with (p - (p - idx p)) by lia. rewrite Hk.
  apply Z.divide_sub_r; [done|]. apply Z.divide_mul_r. exists (2 ^ (11 - o)). rewrite <- Z.pow_add_r by lia. f_equal. lia.
Qed.
Lemma idx_bit (p o : Z) : 0 <= o < 11 -> Z.testbit (idx p) o = Z.testbit p o.
Proof. intros Ho. rewrite idx_mod. apply Z.mod_pow2_bits_low. lia. Qed.
Lemma find_buddy (p o : Z) : 0 <= o < 11 -> __page_find_buddy p (idx p) o = buddy p o.
Proof.
  intros Ho. unfold __page_find_buddy. rewrite Z.shiftl_1_l. fold (buddy (idx p) o). rewrite !buddy_bit, idx_bit by lia. lia.
Qed.
Lemma combined_index (p o : Z) : 0 <= o < 11 -> 0 <= p -> __find_combined_index (idx p) o = idx (parent p o).
Proof.
  intros Ho Hp. unfold __find_combined_index. rewrite Z.shiftl_1_l. apply Z.bits_inj'. intros n Hn.
  unfold idx, parent. rewrite !Z.land_spec, Z.ldiff_spec, Z.pow2_bits_eqb by lia. change (Z.shiftl 1 MAX_ORDER - 1) with (Z.ones 11).
  unfold wrap. destruct (decide (n < 64)).
  - rewrite Z.mod_pow2_bits_low, Z.lnot_spec, Z.pow2_bits_eqb by lia. by destruct (Z.testbit p n), (Z.testbit (Z.ones 11) n), (o =? n).
  - rewrite (Z.testbit_ones_nonneg 11 n) by lia. rewrite (proj2 (Z.ltb_ge n 11)) by lia. by rewrite !andb_false_r.
Qed.
Lemma combined_page (p o : Z) : 0 <= o < 11 -> 0 <= p -> p + (__find_combined_index (idx p) o - idx p) = parent p o.
Proof.
  intros Ho Hp. rewrite combined_index by done. rewrite (parent_bit p o) by lia.
  assert (idx (parent p o) = idx p - if Z.testbit p o then 2 ^ o else 0) as E.
  { rewrite <- idx_bit by lia. rewrite <- parent_bit by lia. unfold idx, parent. apply Z.bits_inj'. intros n Hn.
    rewrite !Z.land_spec, !Z.ldiff_spec, Z.land_spec by lia. by destruct (Z.testbit p n), (Z.testbit (2 ^ o) n), (Z.testbit (Z.shiftl 1 MAX_ORDER - 1) n). }
  rewrite (parent_bit p o) in E by lia. rewrite E. lia.
Qed.

(** ** The invariant *)

Notation flists := (Z -> Z -> list Z).
(** The block of order [o] from [p] on is free. *)
Definition fb (fl : flists) (p o : Z) : Prop := exists mt, p ∈ fl o mt.
Definition in_block (x p o : Z) : Prop := p <= x < p + 2 ^ o.
Definition covered (fl : flists) (x : Z) : Prop := exists p o, fb fl p o /\ in_block x p o.
(** No page of the block is free. *)
Definition clear_of (fl : flists) (p o : Z) : Prop := forall x, in_block x p o -> ~ covered fl x.
(** No page of the block is in use. *)
Definition unused (m : gmap Z page) (p o : Z) : Prop := forall x pg, in_block x p o -> m !! x = Some pg -> _count pg = 0.

Section Zone.
Variables zid zs ze : Z.

Definition block_ok (p o : Z) : Prop := 0 <= o < MAX_ORDER /\ aligned p o /\ zs <= p /\ p + 2 ^ o <= ze.
(** The memory map reaches to the ends of the blocks of twice the largest order, which the check of the buddy of
    the block above looks at. *)
Definition spans (m : gmap Z page) : Prop :=
  forall x, zs / 2 ^ 11 <= x / 2 ^ 11 <= (ze - 1) / 2 ^ 11 -> is_Some (m !! x).

Record wf (m : gmap Z page) (fl : flists) : Prop := Wf {
  wf_range : 0 <= zs /\ ze < 2 ^ 31;
  wf_spans : spans m;
  wf_zone : forall x pg, zs <= x < ze -> m !! x = Some pg -> page_zone pg = zid;
  wf_list : forall p o mt, p ∈ fl o mt -> block_ok p o /\ 0 <= mt < MIGRATE_ISOLATE /\
    exists pg, m !! p = Some pg /\ PageBuddy pg = true /\ private pg = o;
  wf_mark : forall p pg, m !! p = Some pg -> PageBuddy pg = true -> fb fl p (private pg);
  wf_once : forall o mt, NoDup (fl o mt);
  wf_type : forall p o mt mt', p ∈ fl o mt -> p ∈ fl o mt' -> mt = mt';
  wf_apart : forall p o q o', fb fl p o -> fb fl q o' -> p <> q -> p + 2 ^ o <= q \/ q + 2 ^ o' <= p;
  wf_merged : forall p o, fb fl p o -> o < MAX_ORDER - 1 -> ~ fb fl (buddy p o) o;
  wf_unused : forall p o, fb fl p o -> unused m p o }.

Lemma fb_ok (m : gmap Z page) (fl : flists) (p o : Z) : wf m fl -> fb fl p o -> block_ok p o.
Proof. intros W [mt Hp]. by apply (wf_list m fl W) in Hp as [? _]. Qed.
Lemma fb_order (m : gmap Z page) (fl : flists) (p o o' : Z) : wf m fl -> fb fl p o -> fb fl p o' -> o = o'.
Proof.
  intros W [mt Hp] [mt' Hp']. apply (wf_list m fl W) in Hp as (_ & _ & pg & E & _ & <-). apply (wf_list m fl W) in Hp' as (_ & _ & pg' & E' & _ & <-). congruence.
Qed.
Lemma in_block_start (p o : Z) : 0 <= o -> in_block p p o.
Proof. intros H. pose proof (pow2_gt0 o H). unfold in_block. lia. Qed.
Lemma zone_page (m : gmap Z page) (fl : flists) (x : Z) : wf m fl -> zs <= x < ze -> exists pg, m !! x = Some pg /\ page_zone pg = zid.
Proof.
  intros W Hx. destruct (wf_spans _ _ W x) as [pg E]; [|exists pg; split; [done|]; by apply (wf_zone _ _ W x)].
  split; apply Z.div_le_mono; lia.
Qed.

(** *** Taking a block out *)

Definition taken_map (p : Z) (m : gmap Z page) : gmap Z page :=
  alter (fun pg => Page false 0 (_count pg) (page_zone pg)) p m.
Definition taken_lists (p : Z) (fl : flists) : flists := fun o t => filter (fun x => x <> p) (fl o t).

Lemma fb_taken (p q o : Z) (fl : flists) : fb (taken_lists p fl) q o <-> fb fl q o /\ q <> p.
Proof.
  unfold fb, taken_lists. split.
  - intros [mt H]. apply list_elem_of_filter in H as [? ?]. eauto.
  - intros [[mt H] N]. exists mt. by apply list_elem_of_filter.
Qed.
Lemma taken_map_inv (p : Z) (m : gmap Z page) (x : Z) (pg : page) : taken_map p m !! x = Some pg ->
  exists pg0, m !! x = Some pg0 /\ _count pg = _count pg0 /\ page_zone pg = page_zone pg0 /\ (x <> p -> pg = pg0) /\ (x = p -> PageBuddy pg = false).
Proof.
  unfold taken_map. destruct (decide (x = p)) as [->|N].
  - rewrite lookup_alter_eq. destruct (m !! p) as [pg0|]; cbn; intros [= <-]. by exists pg0.
  - rewrite lookup_alter_ne by done. intros E. by exists pg.
Qed.
Lemma spans_alter (f : page -> page) (p : Z) (m : gmap Z page) : spans m -> spans (alter f p m).
Proof. intros H x Hx. destruct (H x Hx) as [pg E]. destruct (decide (x = p)) as [->|N]; [rewrite lookup_alter_eq|rewrite lookup_alter_ne by done]; by rewrite E. Qed.
Lemma wf_take (m : gmap Z page) (fl : flists) (p o : Z) : wf m fl -> fb fl p o ->
  wf (taken_map p m) (taken_lists p fl) /\ clear_of (taken_lists p fl) p o /\ unused (taken_map p m) p o /\
  forall x, covered fl x <-> covered (taken_lists p fl) x \/ in_block x p o.
Proof.
  intros W Hp.
  pose proof (taken_map_inv p m) as Hmap.
  split; [|split_and!].
  - split.
    + apply W.
    + apply spans_alter, W.
    + intros x pg Hx E. destruct (Hmap _ _ E) as (pg0 & E0 & _ & -> & _). by apply (wf_zone _ _ W x).
    + intros q o' mt [N Hq]%list_elem_of_filter. destruct (wf_list _ _ W _ _ _ Hq) as (H1 & H2 & pg & E & H3). split; [done|]. split; [done|].
      exists pg. unfold taken_map. by rewrite lookup_alter_ne.
    + intros q pg E Hb. destruct (Hmap _ _ E) as (pg0 & E0 & _ & _ & N1 & N2). destruct (decide (q = p)) as [Eq|N]; [by rewrite (N2 Eq) in Hb|].
      rewrite (N1 N) in *. apply fb_taken. split; [by apply (wf_mark _ _ W)|done].
    + intros o' mt. apply NoDup_filter, W.
    + intros q o' mt mt' [_ H1]%list_elem_of_filter [_ H2]%list_elem_of_filter. by eapply (wf_type _ _ W).
    + intros q o1 q' o2 [H1 _]%fb_taken [H2 _]%fb_taken. by apply (wf_apart _ _ W).
    + intros q o' [H1 _]%fb_taken Ho [H2 _]%fb_taken. by apply (wf_merged _ _ W q o').
    + intros q o' [H1 _]%fb_taken x pg Hx E. destruct (Hmap _ _ E) as (pg0 & E0 & -> & _). by apply (wf_unused _ _ W q o' H1 x).
  - intros x Hx (q & o' & [Hq N]%fb_taken & Hxq). destruct (wf_apart _ _ W _ _ _ _ Hp Hq ltac:(done)); unfold in_block in *; lia.
  - intros x pg Hx E. destruct (Hmap _ _ E) as (pg0 & E0 & -> & _). by apply (wf_unused _ _ W p o Hp x).
  - intros x. split.
    + intros (q & o' & Hq & Hx). destruct (decide (q = p)) as [->|N]; [right; by rewrite <- (fb_order _ _ _ _ _ W Hq Hp)|].
      left. exists q, o'. split; [by apply fb_taken|done].
    + intros [(q & o' & [Hq _]%fb_taken & Hx)|Hx]; [by exists q, o'|by exists p, o].
Qed.

(** *** Putting a block in *)

Definition marked_map (p o : Z) (m : gmap Z page) : gmap Z page :=
  alter (fun pg => Page true o (_count pg) (page_zone pg)) p m.
Definition put_lists (o mt : Z) (l : list Z) (fl : flists) : flists := fun o' t => if (o' =? o) && (t =? mt) then l else fl o' t.

Lemma put_elem (fl : flists) (o mt p : Z) (l : list Z) (q o' mt' : Z) : l ≡ₚ p :: fl o mt ->
  q ∈ put_lists o mt l fl o' mt' <-> (q = p /\ o' = o /\ mt' = mt) \/ q ∈ fl o' mt'.
Proof.
  intros Hl. unfold put_lists. destruct (Z.eqb_spec o' o) as [->|N]; cbn [andb]; [destruct (Z.eqb_spec mt' mt) as [->|N]|].
  - rewrite Hl, elem_of_cons. naive_solver.
  - naive_solver.
  - naive_solver.
Qed.
Lemma fb_put (fl : flists) (o mt p : Z) (l : list Z) (q o' : Z) : l ≡ₚ p :: fl o mt -> fb (put_lists o mt l fl) q o' <-> (q = p /\ o' = o) \/ fb fl q o'.
Proof.
  intros Hl. unfold fb. setoid_rewrite (put_elem fl o mt p l q o'); [|done]. split.
  - intros [mt' [(-> & -> & ->)|H]]; eauto.
  - intros [[-> ->]|[mt' H]]; eauto.
Qed.
Lemma marked_map_inv (p o : Z) (m : gmap Z page) (x : Z) (pg : page) : marked_map p o m !! x = Some pg ->
  exists pg0, m !! x = Some pg0 /\ _count pg = _count pg0 /\ page_zone pg = page_zone pg0 /\ (x <> p -> pg = pg0) /\ (x = p -> private pg = o).
Proof.
  unfold marked_map. destruct (decide (x = p)) as [->|N].
  - rewrite lookup_alter_eq. destruct (m !! p) as [pg0|]; cbn; intros [= <-]. by exists pg0.
  - rewrite lookup_alter_ne by done. intros E. by exists pg.
Qed.
Lemma clear_apart (m : gmap Z page) (fl : flists) (p o : Z) : wf m fl -> 0 <= o -> clear_of fl p o ->
  forall q o', fb fl q o' -> p + 2 ^ o <= q \/ q + 2 ^ o' <= p.
Proof.
  intros W Ho Hclear q o' Hq. pose proof (fb_ok _ _ _ _ W Hq) as (Ho' & _). pose proof (pow2_gt0 o ltac:(lia)). pose proof (pow2_gt0 o' ltac:(lia)).
  destruct (Z.le_gt_cases (p + 2 ^ o) q); [by left|]. destruct (Z.le_gt_cases (q + 2 ^ o') p); [by right|].
  exfalso. apply (Hclear (Z.max p q)); [unfold in_block; lia|]. exists q, o'. split; [done|unfold in_block; lia].
Qed.
Lemma clear_new (m : gmap Z page) (fl : flists) (p o : Z) : wf m fl -> 0 <= o -> clear_of fl p o -> forall o', ~ fb fl p o'.
Proof.
  intros W Ho Hc o' Hp. pose proof (fb_ok _ _ _ _ W Hp) as (Ho' & _). pose proof (clear_apart m fl p o W Ho Hc p o' Hp).
  pose proof (pow2_gt0 o ltac:(lia)). pose proof (pow2_gt0 o' ltac:(lia)). lia.
Qed.
Lemma wf_put (m : gmap Z page) (fl : flists) (p o mt : Z) (l : list Z) :
  wf m fl -> block_ok p o -> clear_of fl p o -> unused m p o -> (o < MAX_ORDER - 1 -> ~ fb fl (buddy p o) o) -> 0 <= mt < MIGRATE_ISOLATE -> l ≡ₚ p :: fl o mt ->
  wf (marked_map p o m) (put_lists o mt l fl) /\ forall x, covered (put_lists o mt l fl) x <-> covered fl x \/ in_block x p o.
Proof.
  intros W Hok Hclear Hun Hbud Hmt Hl. pose proof (fun q o' => fb_put fl o mt p l q o' Hl) as Hfb. pose proof Hok as (Ho & _).
  pose proof (clear_new m fl p o W ltac:(lia) Hclear) as Hnew. pose proof (marked_map_inv p o m) as Hmap. pose proof (clear_apart m fl p o W ltac:(lia) Hclear) as Hap.
  split.
  - split.
    + apply W.
    + apply spans_alter, W.
    + intros x pg Hx E. destruct (Hmap _ _ E) as (pg0 & E0 & _ & -> & _). by apply (wf_zone _ _ W x).
    + intros q o' mt' [(-> & -> & ->)|Hq]%(put_elem _ _ _ p); [| |done].
      * split; [done|]. split; [done|]. destruct Hok as (_ & _ & Hz1 & Hz2). pose proof (pow2_gt0 o ltac:(lia)).
        destruct (zone_page m fl p W) as (pg & E & _); [lia|]. eexists. unfold marked_map. rewrite lookup_alter_eq, E. done.
      * destruct (wf_list _ _ W _ _ _ Hq) as (H1 & H2 & pg & E & H3). split; [done|]. split; [done|].
        exists pg. unfold marked_map. rewrite lookup_alter_ne; [done|]. intros ->. apply (Hnew o'). by exists mt'.
    + intros q pg E Hb. destruct (Hmap _ _ E) as (pg0 & E0 & _ & _ & N1 & N2). apply Hfb. destruct (decide (q = p)) as [Eq|N]; [left; by rewrite (N2 Eq)|].
      right. rewrite (N1 N) in *. by apply (wf_mark _ _ W).
    + intros o' mt'. unfold put_lists. destruct (Z.eqb_spec o' o) as [->|N]; cbn [andb]; [|apply W]. destruct (Z.eqb_spec mt' mt) as [->|N]; [|apply W].
      rewrite Hl. constructor; [|apply W]. intros Hp. apply (Hnew o). by exists mt.
    + intros q o' mt1 mt2 H1 H2. apply (put_elem _ _ _ p) in H1; [|done]. apply (put_elem _ _ _ p) in H2; [|done].
      destruct H1 as [(-> & -> & ->)|H1], H2 as [(E1 & E2 & E3)|H2]; subst; [done|exfalso; apply (Hnew o); by exists mt2|exfalso; apply (Hnew o); by exists mt1|by eapply (wf_type _ _ W)].
    + intros q o1 q' o2 H1 H2 N. apply Hfb in H1, H2. destruct H1 as [[-> ->]|H1], H2 as [[-> ->]|H2]; [done|by apply Hap| |by apply (wf_apart _ _ W)].
      destruct (Hap _ _ H1); [by right|by left].
    + intros q o' H1 Ho' H2. apply Hfb in H1, H2. destruct H1 as [[-> ->]|H1], H2 as [[E Eo]|H2]; try subst o'.
      * apply (f_equal (fun x => x - p)) in E. pose proof (buddy_cases p o ltac:(lia) (proj1 (proj2 Hok))). pose proof (pow2_gt0 o ltac:(lia)). lia.
      * by apply Hbud.
      * apply Hbud; [done|]. rewrite <- E, buddy_buddy. done.
      * by apply (wf_merged _ _ W q o').
    + intros q o' Hq x pg Hx E. destruct (Hmap _ _ E) as (pg0 & E0 & -> & _). apply Hfb in Hq as [[-> ->]|Hq]; [by apply (Hun x)|by apply (wf_unused _ _ W q o' Hq x)].
  - intros x. unfold covered. setoid_rewrite Hfb. split.
    + intros (q & o' & [[-> ->]|Hq] & Hx); [by right|left; by exists q, o'].
    + intros [(q & o' & Hq & Hx)|Hx]; [exists q, o'; by auto|exists p, o; by auto].
Qed.
End Zone.
