(* ===== verification/BuddyOps.v ===== *)
(** * Freeing and taking blocks

    What the operations of the page allocator do to the set of free pages, and that they keep the invariant
    and the counters. *)
From S2P Require Import Prelude Buddy BuddyInv.

Definition total (fl : flists) (o : Z) : Z := len (fl o 0) + len (fl o 1) + len (fl o 2) + len (fl o 3) + len (fl o 4).
Definition bump (e : Z -> Z) (o d : Z) : Z -> Z := fun o' => if o' =? o then e o' + d else e o'.

Section Zone.
Variables zid zs ze : Z.
#[local] Notation wf := (wf zid zs ze).
#[local] Notation block_ok := (block_ok zs ze).

(** The counters of blocks are off by [e]. *)
Record good (e : Z -> Z) (z : zone) : Prop := Good {
  g_wf : wf (mem_map z) (free_list z);
  g_count : forall o, nr_free z o = u64 (total (free_list z) o + e o);
  g_id : zone_id z = zid;
  g_start : zone_start_pfn z = zs;
  g_end : zs + spanned_pages z = ze;
  g_types : forall x, zs <= x < ze -> 0 <= get_pageblock_migratetype x z < MIGRATE_ISOLATE }.
#[local] Notation exact := (fun _ : Z => 0).

(** Only pages in [U] change, and no page in its reference count. *)
Record kept (U : Z -> Prop) (z z' : zone) : Prop := Kept {
  k_mem : forall x, ~ U x -> mem_map z' !! x = mem_map z !! x;
  k_count : forall x, _count <$> mem_map z' !! x = _count <$> mem_map z !! x;
  k_free : nr_free_pages z' = nr_free_pages z }.
Lemma kept_refl (U : Z -> Prop) (z : zone) : kept U z z.
Proof. by split. Qed.
Lemma kept_trans (U : Z -> Prop) (z1 z2 z3 : zone) : kept U z1 z2 -> kept U z2 z3 -> kept U z1 z3.
Proof. intros [A1 A2 A3] [B1 B2 B3]. split; [intros x Hx; by rewrite B1, A1|intros x; by rewrite B2, A2|congruence]. Qed.
Lemma kept_weaken (U V : Z -> Prop) (z1 z2 : zone) : kept U z1 z2 -> (forall x, U x -> V x) -> kept V z1 z2.
Proof. intros [A1 A2 A3] H. split; [intros x Hx; apply A1; naive_solver|done|done]. Qed.

Lemma good_ext (e e' : Z -> Z) (z : zone) : good e z -> (forall o, e o = e' o) -> good e' z.
Proof. intros [A B C D E F] H. split; try done. intros o. by rewrite <- H. Qed.
Lemma bump_back (e : Z -> Z) (o : Z) (z : zone) : good (bump (bump e o 1) o (-1)) z -> good e z.
Proof. intros H. eapply good_ext; [done|]. intros o'. unfold bump. destruct (o' =? o); lia. Qed.
Lemma bump_back' (e : Z -> Z) (o : Z) (z : zone) : good (bump (bump e o (-1)) o 1) z -> good e z.
Proof. intros H. eapply good_ext; [done|]. intros o'. unfold bump. destruct (o' =? o); lia. Qed.
Lemma u64_add (a d : Z) : u64 (u64 a + d) = u64 (a + d).
Proof. unfold wrap. by rewrite Zplus_mod_idemp_l. Qed.
Lemma good_nr (e : Z -> Z) (z : zone) (o d : Z) : good e z -> good (bump e o d) (add_nr_free o d z).
Proof.
  intros [A B C D E F]. split; try done. intros o'. cbn [nr_free free_list add_nr_free set_nr_free]. unfold bump. rewrite B.
  destruct (o' =? o); [|done]. rewrite u64_add. f_equal. lia.
Qed.
Lemma good_pages (e : Z -> Z) (z : zone) (d : Z) : good e z -> good e (mod_free_pages d z).
Proof. by intros [A B C D E F]. Qed.

Lemma length_filter_ne (p : Z) (l : list Z) : NoDup l -> len (filter (fun x => x <> p) l) = len l - if decide (p ∈ l) then 1 else 0.
Proof.
  intros Hn. induction Hn as [|x l Hx Hn IH]; [destruct (decide (p ∈ [])) as [H|]; [by apply elem_of_nil in H|cbn; lia]|]. destruct (decide (x = p)) as [->|N].
  - rewrite filter_cons_False by tauto. rewrite decide_True by left. rewrite decide_False in IH by done. cbn [length]. lia.
  - rewrite filter_cons_True by done. cbn [length]. destruct (decide (p ∈ l)), (decide (p ∈ x :: l)) as [Hd|Hd]; try lia.
    + exfalso. apply Hd. by right.
    + apply elem_of_cons in Hd as [->|]; done.
Qed.

(** A block off its list, whatever its type. *)
Definition unlink (p : Z) (z : zone) : zone := set_mem_map (taken_map p (mem_map z)) (list_del p z).
Lemma insert_is_alter {A : Type} (f : A -> A) (p : Z) (m : gmap Z A) (pg : A) : m !! p = Some pg -> <[p := f pg]> m = alter f p m.
Proof. intros E. apply map_eq. intros q. destruct (decide (q = p)) as [->|N]; [by rewrite lookup_insert_eq, lookup_alter_eq, E|by rewrite lookup_insert_ne, lookup_alter_ne]. Qed.
Lemma total_take (m : gmap Z page) (fl : flists) (p o o' : Z) : wf m fl -> fb fl p o -> total (taken_lists p fl) o' = total fl o' - if o' =? o then 1 else 0.
Proof.
  intros W Hp. unfold total, taken_lists. rewrite !length_filter_ne by apply W.
  destruct (Z.eqb_spec o' o) as [->|N].
  - destruct Hp as [mt Hmt]. destruct (wf_list _ _ _ _ _ W _ _ _ Hmt) as (_ & Hr & _). unfold MIGRATE_ISOLATE in Hr.
    assert (forall t, (if decide (p ∈ fl o t) then 1 else 0) = if t =? mt then 1 else 0) as H.
    { intros t. destruct (Z.eqb_spec t mt) as [->|N]; [by rewrite decide_True|]. rewrite decide_False; [done|]. intros Ht. apply N. by eapply (wf_type _ _ _ _ _ W). }
    rewrite !H. assert (mt = 0 \/ mt = 1 \/ mt = 2 \/ mt = 3 \/ mt = 4) as [->|[->|[->|[->| ->]]]] by lia; cbn; lia.
  - assert (forall t, p ∉ fl o' t) as H by (intros t Ht; apply N; eapply (fb_order _ _ _ _ _ _ _ _ W); [by exists t|done]).
    rewrite !decide_False by apply H. lia.
Qed.
Lemma unlink_good (e : Z -> Z) (z : zone) (p o : Z) : good e z -> fb (free_list z) p o ->
  good (bump e o 1) (unlink p z) /\ clear_of (free_list (unlink p z)) p o /\ unused (mem_map (unlink p z)) p o /\ block_ok p o /\
  (forall x, covered (free_list z) x <-> covered (free_list (unlink p z)) x \/ in_block x p o) /\ kept (fun x => x = p) z (unlink p z).
Proof.
  intros [A B C D E F] Hp. destruct (wf_take _ _ _ _ _ _ _ A Hp) as (W & Hc & Hu & Hx). split_and!; [|done|done|exact (fb_ok _ _ _ _ _ _ _ A Hp)|done|].
  - split; try done. intros o'. change (nr_free (unlink p z) o') with (nr_free z o'). change (free_list (unlink p z)) with (taken_lists p (free_list z)).
    rewrite B, (total_take _ _ _ _ _ A Hp). f_equal. unfold bump. destruct (o' =? o); lia.
  - split; [intros x N; by apply lookup_alter_ne| |done]. intros x. cbn [mem_map unlink set_mem_map]. unfold taken_map. destruct (decide (x = p)) as [->|N].
    + rewrite lookup_alter_eq. by destruct (mem_map z !! p).
    + by rewrite lookup_alter_ne.
Qed.
Lemma rmv_unlink (e : Z -> Z) (z : zone) (p o : Z) : good e z -> fb (free_list z) p o -> rmv_page_order p (list_del p z) = Ret (unlink p z).
Proof.
  intros G [mt Hp]. destruct (wf_list _ _ _ _ _ (g_wf e z G) _ _ _ Hp) as (_ & _ & pg & E & _). unfold rmv_page_order, update_page, unlink.
  cbn [mem_map list_del set_free_list]. rewrite E. cbn [deref res_bind]. by rewrite (insert_is_alter (fun pg => Page false 0 (_count pg) (page_zone pg)) p _ pg E).
Qed.

(** A block on a list. *)
Definition link (p o mt : Z) (l : list Z) (z : zone) : zone :=
  set_mem_map (marked_map p o (mem_map z)) (with_list o mt l z).
Lemma total_put (fl : flists) (p o mt o' : Z) (l : list Z) : 0 <= mt < MIGRATE_ISOLATE -> l ≡ₚ p :: fl o mt ->
  total (put_lists o mt l fl) o' = total fl o' + if o' =? o then 1 else 0.
Proof.
  intros Hmt Hl. unfold MIGRATE_ISOLATE in Hmt. apply Permutation_length in Hl. cbn [length] in Hl. unfold total, put_lists.
  destruct (Z.eqb_spec o' o) as [->|N]; cbn [andb]; [|lia].
  assert (mt = 0 \/ mt = 1 \/ mt = 2 \/ mt = 3 \/ mt = 4) as [->|[->|[->|[->| ->]]]] by lia; cbn [Z.eqb Pos.eqb]; lia.
Qed.
Lemma link_good (e : Z -> Z) (z : zone) (p o mt : Z) (l : list Z) :
  good e z -> block_ok p o -> clear_of (free_list z) p o -> unused (mem_map z) p o -> (o < MAX_ORDER - 1 -> ~ fb (free_list z) (buddy p o) o) ->
  0 <= mt < MIGRATE_ISOLATE -> l ≡ₚ p :: free_list z o mt ->
  good (bump e o (-1)) (link p o mt l z) /\
  (forall x, covered (free_list (link p o mt l z)) x <-> covered (free_list z) x \/ in_block x p o) /\ kept (fun x => x = p) z (link p o mt l z).
Proof.
  intros [A B C D E F] Hok Hc Hu Hb Hmt Hl. destruct (wf_put _ _ _ _ _ _ _ _ _ A Hok Hc Hu Hb Hmt Hl) as [W Hx]. split_and!; [|done|].
  - split; try done. intros o'. change (nr_free (link p o mt l z) o') with (nr_free z o'). change (free_list (link p o mt l z)) with (put_lists o mt l (free_list z)).
    rewrite B, (total_put _ p) by done. f_equal. unfold bump. destruct (o' =? o); lia.
  - split; [intros x N; by apply lookup_alter_ne| |done]. intros x. cbn [mem_map link set_mem_map]. unfold marked_map. destruct (decide (x = p)) as [->|N].
    + rewrite lookup_alter_eq. by destruct (mem_map z !! p).
    + by rewrite lookup_alter_ne.
Qed.

(** ** Merging *)

Lemma page_is_buddy_spec (e : Z -> Z) (z : zone) (p b o : Z) : good e z -> zs <= p < ze -> is_Some (mem_map z !! b) ->
  exists r, page_is_buddy z p b o = Ret r /\ (r = true <-> fb (free_list z) b o).
Proof.
  intros G Hp [pb Eb]. destruct (zone_page _ _ _ _ _ _ (g_wf _ _ G) Hp) as (pg & Ep & Hz). unfold page_is_buddy. rewrite Ep, Eb. cbn [deref res_bind].
  assert (forall o', fb (free_list z) b o' -> page_zone pb = zid /\ PageBuddy pb = true /\ private pb = o' /\ _count pb = 0) as Hfb.
  { intros o' Hb. pose proof (fb_ok _ _ _ _ _ _ _ (g_wf _ _ G) Hb) as (Ho & _ & H1 & H2). pose proof (pow2_gt0 o' ltac:(lia)).
    pose proof (wf_unused _ _ _ _ _ (g_wf _ _ G) _ _ Hb b pb ltac:(unfold in_block; lia) Eb).
    pose proof (wf_zone _ _ _ _ _ (g_wf _ _ G) b pb ltac:(lia) Eb). destruct Hb as [mt Hb].
    destruct (wf_list _ _ _ _ _ (g_wf _ _ G) _ _ _ Hb) as (_ & _ & pg' & E' & B3 & B4). naive_solver. }
  destruct (PageBuddy pb) eqn:Em.
  - pose proof (wf_mark _ _ _ _ _ (g_wf _ _ G) _ _ Eb Em) as Hm. destruct (Hfb _ Hm) as (Z1 & _ & _ & C1). rewrite Hz, Z1, Z.eqb_refl, C1. cbn [negb andb].
    destruct (Z.eqb_spec (private pb) o) as [<-|N]; cbn [BUG_ON res_bind Z.eqb negb]; eexists; (split; [done|]); [by split|].
    split; [done|]. intros Ho. by destruct (Hfb _ Ho) as (_ & _ & ? & _).
  - exists false. split; [by destruct (negb _)|]. split; [done|]. intros Ho. by destruct (Hfb _ Ho) as (_ & ? & _).
Qed.
(** The buddies of a page of the zone are in the memory map. *)
Lemma near_page (e : Z -> Z) (z : zone) (p x : Z) : good e z -> zs <= p < ze -> x / 2 ^ 11 = p / 2 ^ 11 -> is_Some (mem_map z !! x).
Proof. intros G Hp E. apply (wf_spans _ _ _ _ _ (g_wf _ _ G)). rewrite E. split; apply Z.div_le_mono; lia. Qed.
Lemma same_top (p o : Z) : 0 <= o < 11 -> 0 <= p -> buddy p o / 2 ^ 11 = p / 2 ^ 11 /\ parent p o / 2 ^ 11 = p / 2 ^ 11.
Proof.
  intros Ho Hp. assert (forall x, (forall n, 11 <= n -> Z.testbit x n = Z.testbit p n) -> x / 2 ^ 11 = p / 2 ^ 11) as H.
  { intros x Hx. apply Z.bits_inj'. intros n Hn. rewrite <- !Z.shiftr_div_pow2 by lia. rewrite !Z.shiftr_spec by lia. apply Hx. lia. }
  split; apply H; intros n Hn; unfold buddy, parent; rewrite ?Z.lxor_spec, ?Z.ldiff_spec, Z.pow2_bits_false by lia; by rewrite ?xorb_false_r, ?andb_true_r.
Qed.
Lemma block_zone (p o : Z) : block_ok p o -> zs <= p < ze.
Proof. intros (Ho & _ & H1 & H2). pose proof (pow2_gt0 o ltac:(lia)). lia. Qed.

(** A block and its buddy are the two halves of the block above. *)
Lemma merge_blocks (p o : Z) : 0 <= o -> aligned p o -> forall x, in_block x (parent p o) (o + 1) <-> in_block x p o \/ in_block x (buddy p o) o.
Proof.
  intros Ho Ha x. unfold in_block. rewrite (pow2_S o Ho). destruct (buddy_cases p o Ho Ha) as [(-> & -> & _)|(-> & -> & _)]; lia.
Qed.
Lemma merge_ok (p o : Z) : block_ok p o -> block_ok (buddy p o) o -> o < MAX_ORDER - 1 -> block_ok (parent p o) (o + 1).
Proof.
  intros (Ho & Ha & H1 & H2) (_ & _ & H3 & H4) Hlt. unfold BuddyInv.block_ok. rewrite (pow2_S o) by lia.
  destruct (buddy_cases p o ltac:(lia) Ha) as [(Eb & -> & Hal)|(Eb & -> & Hal)]; rewrite Eb in *; (split; [unfold MAX_ORDER in *; lia|split; [done|lia]]).
Qed.

Definition free_with (z : zone) (p o x : Z) : Prop := covered (free_list z) x \/ in_block x p o.
(** A block [p], [o] that is being freed, or that was taken out. *)
Definition loose (z : zone) (p o : Z) : Prop := block_ok p o /\ clear_of (free_list z) p o /\ unused (mem_map z) p o.

Lemma merge_step (z : zone) (p o : Z) : good exact z -> loose z p o -> o < MAX_ORDER - 1 -> fb (free_list z) (buddy p o) o ->
  let b := buddy p o in let z' := add_nr_free o (-1) (unlink b z) in
  good exact z' /\ loose z' (parent p o) (o + 1) /\ (forall x, free_with z p o x <-> free_with z' (parent p o) (o + 1) x) /\ kept (free_with z p o) z z'.
Proof.
  intros G (Hok & Hc & Hu) Ho Hb b z'. destruct (unlink_good _ _ _ _ G Hb) as (G1 & Hc1 & Hu1 & Hok1 & Hx & K). pose proof Hok as (Ho' & Ha & _).
  pose proof (merge_blocks p o ltac:(lia) Ha) as Hm. fold b in Hc1, Hu1, Hok1, Hx, K, G1.
  assert (forall x, free_with z p o x <-> free_with z' (parent p o) (o + 1) x) as Hfree.
  { intros x. unfold free_with. rewrite Hm, Hx. change (free_list z') with (free_list (unlink b z)). fold b. tauto. }
  split; [eapply bump_back, good_nr; exact G1|]. split; [|split; [done|]].
  - split; [by apply merge_ok|]. split.
    + intros x [Hp|Hp]%Hm Hcov; [|by apply (Hc1 x)]. apply (Hc x Hp). apply Hx. by left.
    + intros x pg [Hp|Hp]%Hm E; [|by apply (Hu1 x)]. pose proof (k_count _ _ _ K x) as Ek. change (mem_map z') with (mem_map (unlink b z)) in E. rewrite E in Ek.
      destruct (mem_map z !! x) as [pg0|] eqn:E0; cbn in Ek; [|done]. injection Ek as ->. by apply (Hu x).
  - destruct K as [K1 K2 K3]. split; [|done|done]. intros x N. apply K1. intros ->. apply N. left. exists b, o. split; [done|]. apply in_block_start. lia.
Qed.
Lemma kept_free (U V : Z -> Prop) (z z' : zone) : kept U z z' -> (forall x, U x <-> V x) -> kept V z z'.
Proof. intros K H. eapply kept_weaken; [done|]. intros x. apply H. Qed.

Lemma merge_loop_spec (fuel : nat) (z : zone) (p o : Z) : good exact z -> loose z p o -> 11 - o < Z.of_nat fuel ->
  exists p' o' z', merge_loop fuel z p (idx p) o = Ret (p', idx p', o', z') /\ good exact z' /\ loose z' p' o' /\
    (o' < MAX_ORDER - 1 -> ~ fb (free_list z') (buddy p' o') o') /\ (forall x, free_with z p o x <-> free_with z' p' o' x) /\ kept (free_with z p o) z z' /\
    pageblock_flags z' = pageblock_flags z.
Proof.
  revert z p o. induction fuel as [|fuel IH]; intros z p o G HL Hf; pose proof HL as ((Ho & Ha & Hz1 & Hz2) & Hc & Hu); unfold MAX_ORDER in Ho; [lia|].
  cbn [merge_loop]. destruct (Z.ltb_spec o (MAX_ORDER - 1)) as [Hlt|Hge].
  2: { exists p, o, z. split_and!; [done..|lia|done|apply kept_refl|done]. }
  pose proof (block_zone p o (proj1 HL)) as Hpz. assert (0 <= p) by (pose proof (wf_range _ _ _ _ _ (g_wf _ _ G)); lia).
  rewrite find_buddy by lia. destruct (page_is_buddy_spec _ z p (buddy p o) o G Hpz) as (r & -> & Hr); [eapply near_page; [done|done|by apply same_top]|].
  cbn [res_bind]. destruct r; cbn [negb].
  2: { exists p, o, z. split_and!; [done..| |done|apply kept_refl|done]. intros _ Hb. by apply Hr in Hb. }
  assert (fb (free_list z) (buddy p o) o) as Hb by (by apply Hr). destruct (merge_step z p o G HL Hlt Hb) as (G1 & HL1 & Hfree & K).
  assert (rmv_page_order (buddy p o) (add_nr_free o (-1) (list_del (buddy p o) z)) = Ret (add_nr_free o (-1) (unlink (buddy p o) z))) as ->.
  { pose proof (rmv_unlink _ _ _ _ G Hb) as E. unfold rmv_page_order, update_page in E |- *. cbn [mem_map list_del set_free_list add_nr_free set_nr_free] in E |- *.
    destruct (mem_map z !! buddy p o) as [pb|]; [|done]. cbn [deref res_bind] in E |- *. injection E as E. unfold unlink, taken_map. cbn. rewrite E. done. }
  cbn [res_bind]. rewrite combined_page, combined_index by lia.
  destruct (IH _ _ _ G1 HL1 ltac:(lia)) as (p' & o' & z' & -> & G' & HL' & Hb' & Hfree' & K' & Hfl).
  exists p', o', z'. split_and!; [done..| | |by rewrite Hfl].
  - intros x. by rewrite Hfree, Hfree'.
  - eapply kept_trans; [done|]. eapply kept_free; [done|]. intros x. by rewrite Hfree.
Qed.

Lemma page_is_buddy_returns (e : Z -> Z) (z : zone) (p o q b o' : Z) : good e z -> is_Some (mem_map z !! q) -> is_Some (mem_map z !! b) -> b <> p ->
  exists r, page_is_buddy (set_mem_map (marked_map p o (mem_map z)) z) q b o' = Ret r.
Proof.
  intros G [pq Eq] [pb Eb] N. unfold page_is_buddy. cbn [mem_map set_mem_map]. unfold marked_map. rewrite (lookup_alter_ne _ _ p b) by done. rewrite Eb.
  assert (exists pq', alter (fun pg => Page true o (_count pg) (page_zone pg)) p (mem_map z) !! q = Some pq') as [pq' ->].
  { destruct (decide (q = p)) as [->|N']; [rewrite lookup_alter_eq, Eq; by eexists|rewrite lookup_alter_ne by done; by eexists]. }
  cbn [deref res_bind]. destruct (negb _); [by eexists|]. destruct (PageBuddy pb) eqn:Em; cbn [andb]; [|by eexists].
  destruct (private pb =? o'); [|by eexists]. pose proof (wf_mark _ _ _ _ _ (g_wf _ _ G) _ _ Eb Em) as Hm.
  pose proof (fb_ok _ _ _ _ _ _ _ (g_wf _ _ G) Hm) as (Ho & _).
  rewrite (wf_unused _ _ _ _ _ (g_wf _ _ G) _ _ Hm b pb); [|apply in_block_start; lia|done]. by eexists.
Qed.
Lemma buddy_ne (p o : Z) : 0 <= o -> buddy p o <> p.
Proof. intros Ho. rewrite (buddy_bit p o Ho). pose proof (pow2_gt0 o Ho). destruct (Z.testbit p o); lia. Qed.
Lemma merge_soon_returns (e : Z -> Z) (z : zone) (p o : Z) : good e z -> block_ok p o ->
  exists r, merge_soon (set_mem_map (marked_map p o (mem_map z)) z) p (idx p) o = Ret r.
Proof.
  intros G Hok. unfold merge_soon. destruct (Z.ltb_spec o (MAX_ORDER - 1)) as [Hlt|_]; [|by eexists]. pose proof (block_zone _ _ Hok) as Hz.
  destruct Hok as (Ho & Ha & _). unfold MAX_ORDER in *. assert (0 <= p) by (pose proof (wf_range _ _ _ _ _ (g_wf _ _ G)); lia).
  replace (p + __find_combined_index (idx p) o - idx p) with (parent p o) by (rewrite <- combined_page by lia; lia). rewrite combined_index by lia.
  assert (0 <= parent p o) by (unfold parent; apply Z.ldiff_nonneg; lia).
  rewrite find_buddy by lia. destruct (same_top p o ltac:(lia) ltac:(lia)) as [_ E1]. destruct (same_top (parent p o) (o + 1) ltac:(lia) ltac:(lia)) as [E2 _].
  eapply page_is_buddy_returns; [done|eapply near_page; [done|done|lia]|eapply near_page; [done|done|lia]|].
  intros E. pose proof (buddy_bit (parent p o) (o + 1) ltac:(lia)) as Eb. rewrite E in Eb. rewrite (pow2_S o) in Eb by lia. pose proof (pow2_gt0 o ltac:(lia)).
  destruct (buddy_cases p o ltac:(lia) Ha) as [(_ & Ep & _)|(_ & Ep & _)]; rewrite Ep in Eb; destruct (Z.testbit _ (o + 1)); lia.
Qed.
Lemma bad_range_ok (e : Z -> Z) (z : zone) (p : Z) : good e z -> zs <= p < ze -> bad_range p z = Ret false.
Proof.
  intros G Hp. destruct (zone_page _ _ _ _ _ _ (g_wf _ _ G) Hp) as (pg & Ep & Hz). unfold bad_range. rewrite (g_start _ _ G), (g_end _ _ G), (g_id _ _ G).
  rewrite (proj2 (Z.leb_gt ze p)), (proj2 (Z.ltb_ge p zs)) by lia. cbn [orb]. rewrite Ep. cbn [deref res_bind]. by rewrite Hz, Z.eqb_refl.
Qed.
Lemma area_index_ok (o mt : Z) : 0 <= o < MAX_ORDER -> 0 <= mt < MIGRATE_ISOLATE -> area_index o mt = Ret tt.
Proof.
  intros H1 H2. unfold MIGRATE_ISOLATE in H2. unfold area_index, MIGRATE_TYPES. rewrite (proj2 (Z.leb_le 0 o)), (proj2 (Z.ltb_lt o _)), (proj2 (Z.leb_le 0 mt)), (proj2 (Z.ltb_lt mt _)) by lia. done.
Qed.

(** Freeing a block adds its pages to the free ones. *)
Lemma free_one_page_spec (z : zone) (p o mt : Z) : good exact z -> loose z p o -> 0 <= mt < MIGRATE_ISOLATE ->
  exists z', __free_one_page p z o mt = Ret z' /\ good exact z' /\ (forall x, covered (free_list z') x <-> free_with z p o x) /\
    kept (covered (free_list z')) z z' /\ pageblock_flags z' = pageblock_flags z.
Proof.
  intros G HL Hmt. pose proof HL as (Hok & _). pose proof Hok as (Ho & Ha & _). unfold __free_one_page. fold (idx p). unfold MAX_ORDER in Ho.
  rewrite (proj2 (Z.eqb_neq mt (-1))) by lia. cbn [BUG_ON res_bind].
  assert (Z.land (idx p) (Z.shiftl 1 o - 1) = 0) as ->.
  { rewrite Z.shiftl_1_l. replace (2 ^ o - 1) with (Z.ones o) by (rewrite Z.ones_equiv; lia). rewrite Z.land_ones by lia.
    apply Z.mod_divide; [pose proof (pow2_gt0 o ltac:(lia)); lia|]. apply idx_aligned; [lia|done]. }
  cbn [Z.eqb negb BUG_ON res_bind]. rewrite (bad_range_ok _ _ _ G (block_zone _ _ Hok)). cbn [res_bind BUG_ON].
  destruct (merge_loop_spec 12 z p o G HL ltac:(lia)) as (p' & o' & z1 & -> & G1 & (Hok1 & Hc1 & Hu1) & Hb1 & Hfree & K1 & Hfl). cbn [res_bind].
  destruct (zone_page _ _ _ _ _ _ (g_wf _ _ G1) (block_zone _ _ Hok1)) as (pg & Ep & _). unfold set_page_order, update_page. rewrite Ep. cbn [deref res_bind].
  rewrite (insert_is_alter (fun pg => Page true o' (_count pg) (page_zone pg)) p' _ pg Ep). fold (marked_map p' o' (mem_map z1)).
  destruct (merge_soon_returns _ z1 p' o' G1 Hok1) as [soon ->]. cbn [res_bind].
  assert (forall l, l ≡ₚ p' :: free_list z1 o' mt -> exists z', Ret (add_nr_free o' 1 (with_list o' mt l (set_mem_map (marked_map p' o' (mem_map z1)) z1))) = Ret z' /\
    good exact z' /\ (forall x, covered (free_list z') x <-> free_with z p o x) /\ kept (covered (free_list z')) z z' /\ pageblock_flags z' = pageblock_flags z) as Hend.
  { intros l Hl. destruct (link_good _ z1 p' o' mt l G1 Hok1 Hc1 Hu1 Hb1 Hmt Hl) as (G2 & Hx & K2). eexists. split; [done|].
    assert (forall x, covered (free_list (link p' o' mt l z1)) x <-> free_with z p o x) as Hcov by (intros x; by rewrite Hx, Hfree).
    split_and!; [eapply bump_back', good_nr; exact G2|exact Hcov| |exact Hfl].
    apply (kept_trans _ _ z1); [eapply kept_free; [done|]; intros x; symmetry; apply Hcov|].
    destruct K2 as [A B C]. split; [|exact B|exact C]. intros x N. apply A. intros ->. apply N. apply Hx. right. apply in_block_start. destruct Hok1; lia. }
  destruct soon; unfold list_add, list_add_tail; rewrite (area_index_ok o' mt (proj1 Hok1) Hmt); cbn [res_bind]; apply Hend; [|done].
  by rewrite Permutation_app_comm.
Qed.

(** ** Splitting *)

(** The upper half of a loose block goes back. *)
Lemma split_step (z : zone) (p h mt : Z) : good exact z -> loose z p (h + 1) -> 0 <= h -> 0 <= mt < MIGRATE_ISOLATE ->
  let q := p + 2 ^ h in let z' := add_nr_free h 1 (link q h mt (q :: free_list z h mt) z) in
  block_ok q h /\ good exact z' /\ loose z' p h /\ (forall x, free_with z p (h + 1) x <-> free_with z' p h x) /\ kept (free_with z p (h + 1)) z z'.
Proof.
  intros G ((Ho & Ha & Hz1 & Hz2) & Hc & Hu) Hh Hmt q z'. rewrite (pow2_S h Hh) in Hz2. pose proof (pow2_gt0 h Hh). unfold MAX_ORDER in Ho.
  assert (aligned p h) as Hah by (destruct Ha as [k ->]; exists (2 * k); rewrite (pow2_S h Hh); lia).
  assert (block_ok q h) as Hokq by (split; [unfold MAX_ORDER; lia|split; [by apply Z.divide_add_r; [|apply Z.divide_refl]|unfold q; lia]]).
  assert (forall x, in_block x p (h + 1) <-> in_block x p h \/ in_block x q h) as Hin by (intros x; unfold in_block, q; rewrite (pow2_S h Hh); lia).
  assert (buddy q h = p) as Hbq.
  { rewrite <- (buddy_buddy p h). f_equal. destruct (buddy_cases p h Hh Hah) as [(-> & _)|(_ & _ & [j Hj])]; [done|]. exfalso.
    destruct Ha as [k Hk]. rewrite (pow2_S h Hh) in Hj, Hk. assert (2 ^ h * (2 * (k - j) - 1) = 0) as E0 by nia. apply Z.mul_eq_0 in E0 as [|]; lia. }
  assert (clear_of (free_list z) p h) as Hcp by (intros x Hx; apply Hc, Hin; by left).
  destruct (link_good _ z q h mt (q :: free_list z h mt) G Hokq) as (G1 & Hx & K); [intros x Hx; apply Hc, Hin; by right|intros x pg Hx; apply Hu, Hin; by right| |done|done|].
  { intros _. rewrite Hbq. by apply (clear_new _ _ _ _ _ _ _ (g_wf _ _ G) Hh Hcp). }
  assert (forall x, covered (free_list z') x <-> covered (free_list z) x \/ in_block x q h) as Hcov by exact Hx.
  split; [done|]. split; [eapply bump_back', good_nr; exact G1|]. split; [|split].
  - split; [split; [unfold MAX_ORDER; lia|split; [done|lia]]|]. split.
    + intros x Hp [Hx'|Hx']%Hcov; [by apply (Hcp x)|]. unfold in_block, q in *. lia.
    + intros x pg Hp E. pose proof (k_count _ _ _ K x) as Ek. change (mem_map z') with (mem_map (link q h mt (q :: free_list z h mt) z)) in E. rewrite E in Ek.
      destruct (mem_map z !! x) as [pg0|] eqn:E0; cbn in Ek; [|done]. injection Ek as ->. apply (Hu x); [apply Hin; by left|done].
  - intros x. unfold free_with. rewrite Hcov, Hin. tauto.
  - destruct K as [A B C]. split; [|exact B|exact C]. intros x N. apply A. intros ->. apply N. right. apply Hin. right. by apply in_block_start.
Qed.
Lemma expand_loop_spec (fuel : nat) (z : zone) (p low high mt : Z) : good exact z -> loose z p high -> 0 <= low <= high -> high - low < Z.of_nat fuel -> 0 <= mt < MIGRATE_ISOLATE ->
  exists z', expand_loop fuel z p low high (2 ^ high) mt = Ret z' /\ good exact z' /\ loose z' p low /\
    (forall x, free_with z p high x <-> free_with z' p low x) /\ kept (free_with z p high) z z' /\ pageblock_flags z' = pageblock_flags z.
Proof.
  revert z high. induction fuel as [|fuel IH]; intros z high G HL Hlo Hf Hmt; [lia|]. cbn [expand_loop]. destruct (Z.ltb_spec low high) as [Hlt|Hge].
  2: { assert (high = low) as -> by lia. exists z. split_and!; [done..|apply kept_refl|done]. }
  set (h := high - 1). replace high with (h + 1) in * by lia. clearbody h.
  destruct (split_step z p h mt G HL ltac:(lia) Hmt) as (Hokq & G1 & HL1 & Hfree & K).
  replace (Z.shiftr (2 ^ (h + 1)) 1) with (2 ^ h).
  2: { rewrite Z.shiftr_div_pow2, (pow2_S h) by lia. change (2 ^ 1) with 2. rewrite Z.mul_comm. by rewrite Z.div_mul. }
  rewrite (bad_range_ok _ _ _ G (block_zone _ _ Hokq)). cbn [res_bind BUG_ON]. unfold list_add. rewrite (area_index_ok h mt (proj1 Hokq) Hmt). cbn [res_bind].
  assert (set_page_order (p + 2 ^ h) h (add_nr_free h 1 (with_list h mt (p + 2 ^ h :: free_list z h mt) z)) =
    Ret (add_nr_free h 1 (link (p + 2 ^ h) h mt (p + 2 ^ h :: free_list z h mt) z))) as ->.
  { destruct (zone_page _ _ _ _ _ _ (g_wf _ _ G) (block_zone _ _ Hokq)) as (pg & Ep & _). unfold set_page_order, update_page.
    cbn [mem_map add_nr_free set_nr_free with_list set_free_list]. rewrite Ep. cbn [deref res_bind].
    by rewrite (insert_is_alter (fun pg => Page true h (_count pg) (page_zone pg)) _ _ pg Ep). }
  cbn [res_bind]. destruct (IH _ h G1 HL1 ltac:(lia) ltac:(lia) Hmt) as (z' & -> & G' & HL' & Hfree' & K' & Hfl).
  exists z'. split_and!; [done..| | |by rewrite Hfl].
  - intros x. by rewrite Hfree, Hfree'.
  - eapply kept_trans; [done|]. eapply kept_free; [done|]. intros x. by rewrite Hfree.
Qed.

(** A block of order [o] was taken from the free pages. *)
Definition took (z : zone) (o p : Z) (z' : zone) : Prop :=
  good exact z' /\ loose z' p o /\ (forall x, covered (free_list z) x <-> free_with z' p o x) /\ kept (covered (free_list z)) z z'.

Lemma smallest_loop_spec (fuel : nat) (z : zone) (o cur mt : Z) : good exact z -> 0 <= o <= cur /\ cur <= 11 -> 11 - cur < Z.of_nat fuel -> 0 <= mt < MIGRATE_ISOLATE ->
  exists r z', smallest_loop fuel z o cur mt = Ret (r, z') /\
    match r with
    | Some p => took z o p z' /\ pageblock_flags z' = pageblock_flags z
    | None => z' = z /\ forall o', cur <= o' -> free_list z o' mt = []
    end.
Proof.
  intros G Ho. revert cur Ho. induction fuel as [|fuel IH]; intros cur Ho Hf Hmt; [lia|]. cbn [smallest_loop]. destruct (Z.ltb_spec cur MAX_ORDER) as [Hlt|Hge]; [unfold MAX_ORDER in Hlt|].
  2: { exists None, z. split; [done|]. split; [done|]. intros o' Ho'. destruct (free_list z o' mt) as [|p l] eqn:E; [done|]. exfalso.
       destruct (wf_list _ _ _ _ _ (g_wf _ _ G) p o' mt) as ((Hr & _) & _); [rewrite E; left|]. unfold MAX_ORDER in *; lia. }
  rewrite (area_index_ok cur mt) by (unfold MAX_ORDER; lia || done). cbn [res_bind]. destruct (free_list z cur mt) as [|p l] eqn:E.
  - destruct (IH (cur + 1) ltac:(lia) ltac:(lia) Hmt) as (r & z' & -> & H). exists r, z'. split; [done|]. destruct r; [done|]. destruct H as [-> H]. split; [done|].
    intros o' Ho'. destruct (decide (o' = cur)) as [->|]; [done|]. apply H. lia.
  - assert (fb (free_list z) p cur) as Hp by (exists mt; rewrite E; left). rewrite (rmv_unlink _ _ _ _ G Hp). cbn [res_bind].
    destruct (unlink_good _ _ _ _ G Hp) as (G1 & Hc1 & Hu1 & Hok1 & Hx & K). unfold expand. rewrite Z.shiftl_1_l.
    assert (good exact (add_nr_free cur (-1) (unlink p z))) as G2 by (eapply bump_back, good_nr; exact G1).
    destruct (expand_loop_spec 12 (add_nr_free cur (-1) (unlink p z)) p o cur mt G2) as (z' & -> & G' & HL' & Hfree & K' & Hfl); [done|lia|lia|done|].
    cbn [res_bind]. exists (Some p), z'. split; [done|]. split; [|by rewrite Hfl]. split; [done|]. split; [done|].
    assert (forall x, covered (free_list z) x <-> free_with (add_nr_free cur (-1) (unlink p z)) p cur x) as Hx' by exact Hx. split.
    + intros x. by rewrite Hx', Hfree.
    + apply (kept_trans _ _ (add_nr_free cur (-1) (unlink p z))).
      * destruct K as [A B C]. split; [|exact B|exact C]. intros x N. apply A. intros ->. apply N, Hx'. right. apply in_block_start. lia.
      * eapply kept_free; [done|]. intros x. by rewrite Hx'.
Qed.
End Zone.
