(* ===== verification/BuddyAlloc.v ===== *)
(** * Allocation

    Taking blocks from lists of other types, and that an allocation fails only if there is no free run of
    pages that would do. *)
From S2P Require Import Prelude Buddy BuddyInv BuddyOps.

(** ** Types of pageblocks *)

Lemma elem_set_bits (f b : Z) (s : gset Z) (x : Z) : 0 <= f < 8 ->
  x ∈ set_bits 3 f b 1 s <-> (x = b /\ Z.testbit f 0 = true) \/ (x = b + 1 /\ Z.testbit f 1 = true) \/ (x = b + 2 /\ Z.testbit f 2 = true) \/
    (x <> b /\ x <> b + 1 /\ x <> b + 2 /\ x ∈ s).
Proof.
  intros Hf. assert ((Z.land f 1 =? 0) = negb (Z.testbit f 0) /\ (Z.land f (Z.shiftl 1 1) =? 0) = negb (Z.testbit f 1) /\
    (Z.land f (Z.shiftl (Z.shiftl 1 1) 1) =? 0) = negb (Z.testbit f 2)) as (E0 & E1 & E2).
  { assert (f = 0 \/ f = 1 \/ f = 2 \/ f = 3 \/ f = 4 \/ f = 5 \/ f = 6 \/ f = 7) as Hc by lia.
    destruct Hc as [->|[->|[->|[->|[->|[->|[->| ->]]]]]]]; split_and!; reflexivity. }
  cbn [set_bits]. rewrite E0, E1, E2. replace (b + 2) with (b + 1 + 1) by lia.
  destruct (Z.testbit f 0), (Z.testbit f 1), (Z.testbit f 2); cbn [negb]; set_unfold; destruct (decide (x = b)), (decide (x = b + 1)), (decide (x = b + 1 + 1)); intuition (lia || congruence).
Qed.
Lemma get_bits_eq (z : zone) (b : Z) : get_bits 3 z b 1 =
  (if decide (b ∈ pageblock_flags z) then 1 else 0) + (if decide (b + 1 ∈ pageblock_flags z) then 2 else 0) + (if decide (b + 2 ∈ pageblock_flags z) then 4 else 0).
Proof.
  cbn [get_bits]. replace (b + 1 + 1) with (b + 2) by lia.
  destruct (decide (b ∈ _)), (decide (b + 1 ∈ _)), (decide (b + 2 ∈ _)); reflexivity.
Qed.
Lemma bitidx_eq (zs ze : Z) (z : zone) (x : Z) : zone_start_pfn z = zs -> 0 <= zs -> ze < 2 ^ 31 -> zs <= x < ze -> pfn_to_bitidx z x = 3 * ((x - zs) / 1024).
Proof.
  intros <- H0 H1 Hx. unfold pfn_to_bitidx, NR_PAGEBLOCK_BITS. rewrite (wrap_id 64) by pow_lia. change pageblock_order with 10. rewrite Z.shiftr_div_pow2 by lia. change (2 ^ 10) with 1024.
  change (2 ^ 31) with 2147483648 in H1. rewrite swrap_id; [lia|lia|]. unfold in_s. change (2 ^ (32 - 1)) with 2147483648. Z.to_euclidean_division_equations. lia.
Qed.

Section Zone.
Variables zid zs ze : Z.
Variable dis : bool.
#[local] Notation good := (good zid zs ze).
#[local] Notation block_ok := (block_ok zs ze).
#[local] Notation loose := (loose zs ze).
#[local] Notation took := (took zid zs ze).
#[local] Notation exact := (fun _ : Z => 0).

(** Zones that differ in the bits of the pageblocks only. *)
Definition same_but_types (z z' : zone) : Prop :=
  mem_map z' = mem_map z /\ free_list z' = free_list z /\ nr_free_pages z' = nr_free_pages z.
Lemma set_type_spec (e : Z -> Z) (z : zone) (p mt : Z) : good e z -> zs <= p < ze -> 0 <= mt < MIGRATE_ISOLATE ->
  exists z', set_pageblock_migratetype dis p mt z = Ret z' /\ good e z' /\ same_but_types z z'.
Proof.
  intros [A B C D E F] Hp Hmt. unfold set_pageblock_migratetype, set_pageblock_flags_group. rewrite D, E.
  rewrite (proj2 (Z.ltb_ge p zs)), (proj2 (Z.leb_gt ze p)) by lia. cbn [BUG_ON res_bind]. eexists. split; [done|]. split; [|done].
  set (f := if dis then MIGRATE_UNMOVABLE else mt). assert (0 <= f < 4) as Hf by (unfold f, MIGRATE_UNMOVABLE, MIGRATE_ISOLATE in *; destruct dis; lia).
  destruct (wf_range _ _ _ _ _ A) as [R1 R2]. split; try done. intros x Hx. specialize (F x Hx). unfold get_pageblock_migratetype in *. rewrite get_bits_eq in F |- *.
  change (pfn_to_bitidx (set_pageblock_flags _ z) x) with (pfn_to_bitidx z x). cbn [pageblock_flags set_pageblock_flags].
  rewrite (bitidx_eq zs ze z x), (bitidx_eq zs ze z p) in * by done. unfold MIGRATE_ISOLATE in *.
  set (i := 3 * ((x - zs) / 1024)) in *. set (j := 3 * ((p - zs) / 1024)).
  destruct (decide (i = j)) as [->|N].
  - assert (f = 0 \/ f = 1 \/ f = 2 \/ f = 3) as Hc by lia.
    assert (forall k, 0 <= k < 3 -> j + k ∈ set_bits 3 f j 1 (pageblock_flags z) <-> Z.testbit f k = true) as Hk.
    { intros k Hk. rewrite elem_set_bits by lia. assert (k = 0 \/ k = 1 \/ k = 2) as [->|[->| ->]] by lia; intuition lia. }
    pose proof (Hk 0 ltac:(lia)) as K0. rewrite Z.add_0_r in K0. pose proof (Hk 1 ltac:(lia)) as K1. pose proof (Hk 2 ltac:(lia)) as K2.
    rewrite (decide_ext _ _ _ _ K0), (decide_ext _ _ _ _ K1), (decide_ext _ _ _ _ K2). destruct Hc as [->|[->|[->| ->]]]; vm_compute; split; congruence.
  - assert (forall k, 0 <= k < 3 -> i + k ∈ set_bits 3 f j 1 (pageblock_flags z) <-> i + k ∈ pageblock_flags z) as Hk.
    { intros k Hk. rewrite elem_set_bits by lia. unfold i, j in *. split; [intuition lia|]. intros H. right. right. right. split_and!; [lia..|done]. }
    pose proof (Hk 0 ltac:(lia)) as K0. rewrite Z.add_0_r in K0. pose proof (Hk 1 ltac:(lia)) as K1. pose proof (Hk 2 ltac:(lia)) as K2.
    rewrite (decide_ext _ _ _ _ K0), (decide_ext _ _ _ _ K1), (decide_ext _ _ _ _ K2). done.
Qed.

(** ** Moving blocks between lists *)

Lemma remark (m : gmap Z page) (p o : Z) (pg : page) : m !! p = Some pg -> PageBuddy pg = true -> private pg = o -> marked_map p o (taken_map p m) = m.
Proof.
  intros E Hb Hp. apply map_eq. intros q. unfold marked_map, taken_map. destruct (decide (q = p)) as [->|N].
  - rewrite !lookup_alter_eq, E. cbn. destruct pg. cbn in *. by subst.
  - by rewrite !lookup_alter_ne.
Qed.
(** The same blocks are free, on other lists. *)
Definition same_blocks (z z' : zone) : Prop :=
  mem_map z' = mem_map z /\ (forall p o, fb (free_list z') p o <-> fb (free_list z) p o) /\ nr_free_pages z' = nr_free_pages z.
Lemma same_blocks_covered (z z' : zone) : same_blocks z z' -> forall x, covered (free_list z') x <-> covered (free_list z) x.
Proof. intros (_ & H & _) x. unfold covered. by setoid_rewrite H. Qed.
Lemma same_blocks_trans (z1 z2 z3 : zone) : same_blocks z1 z2 -> same_blocks z2 z3 -> same_blocks z1 z3.
Proof. intros (A1 & A2 & A3) (B1 & B2 & B3). split_and!; [congruence|intros p o; by rewrite B2, A2|congruence]. Qed.
Lemma types_same_blocks (z z' : zone) : same_but_types z z' -> same_blocks z z'.
Proof. intros (A & B & C). split_and!; [done|by rewrite B|done]. Qed.
Lemma relist (e : Z -> Z) (z : zone) (p o mt : Z) : good e z -> fb (free_list z) p o -> 0 <= mt < MIGRATE_ISOLATE ->
  exists z', list_add p o mt (list_del p z) = Ret z' /\ good e z' /\ same_blocks z z'.
Proof.
  intros G Hp Hmt. destruct (unlink_good _ _ _ _ _ _ _ G Hp) as (G1 & Hc & Hu & Hok & Hx & _). pose proof Hp as [mt0 Hp0].
  destruct (wf_list _ _ _ _ _ (g_wf _ _ _ _ _ G) _ _ _ Hp0) as (_ & _ & pg & E & Hb & Hpr).
  destruct (link_good _ _ _ _ _ p o mt (p :: free_list (unlink p z) o mt) G1 Hok Hc Hu) as (G2 & _ & _); [|done|done|].
  { intros Ho [Hbud _]%fb_taken. by apply (wf_merged _ _ _ _ _ (g_wf _ _ _ _ _ G) p o). }
  unfold list_add. rewrite (area_index_ok _ _ (proj1 Hok) Hmt). cbn [res_bind]. eexists. split; [done|].
  assert (link p o mt (p :: free_list (unlink p z) o mt) (unlink p z) = with_list o mt (p :: free_list (list_del p z) o mt) (list_del p z)) as El.
  { unfold link, unlink. cbn [mem_map set_mem_map]. rewrite (remark _ _ _ pg) by done. done. }
  rewrite <- El. split; [by apply bump_back in G2|]. split_and!; [cbn [mem_map link set_mem_map unlink]; by apply (remark _ _ _ pg)| |done].
  intros q o'. change (free_list (link _ _ _ _ _)) with (put_lists o mt (p :: free_list (unlink p z) o mt) (free_list (unlink p z))).
  rewrite (fb_put _ o mt p _ q o') by done. change (free_list (unlink p z)) with (taken_lists p (free_list z)). rewrite fb_taken.
  destruct (decide (q = p)) as [->|N]; [|naive_solver]. split; [intros [[_ ->]|[_ ?]]; done|]. intros Hq. left. split; [done|].
  exact (fb_order _ _ _ _ _ _ _ _ (g_wf _ _ _ _ _ G) Hq Hp).
Qed.

Lemma move_loop_spec (fuel : nat) (e : Z -> Z) (z : zone) (p last mt moved : Z) :
  good e z -> zs <= p -> last < ze -> Z.max 0 (last - p + 1) < Z.of_nat fuel -> 0 <= mt < MIGRATE_ISOLATE ->
  exists n z', move_loop fuel z p last mt moved = Ret (n, z') /\ good e z' /\ same_blocks z z'.
Proof.
  intros G Hp Hl. revert z p moved G Hp. induction fuel as [|fuel IH]; intros z p moved G Hp Hf Hmt; [lia|]. cbn [move_loop].
  destruct (Z.leb_spec p last) as [Hle|Hgt]; [|exists moved, z; by split_and!].
  destruct (zone_page _ _ _ _ _ p (g_wf _ _ _ _ _ G) ltac:(lia)) as (pg & E & _). rewrite E. cbn [deref res_bind].
  destruct (PageBuddy pg) eqn:Eb; cbn [negb]; [|apply IH; [done|lia|lia|done]].
  unfold page_order. rewrite E. cbn [deref res_bind]. rewrite Eb. cbn [negb BUG_ON res_bind].
  pose proof (wf_mark _ _ _ _ _ (g_wf _ _ _ _ _ G) _ _ E Eb) as Hfb. pose proof (fb_ok _ _ _ _ _ _ _ (g_wf _ _ _ _ _ G) Hfb) as (Ho & _).
  destruct (relist e z p (private pg) mt G Hfb Hmt) as (z1 & -> & G1 & S1). cbn [res_bind]. rewrite Z.shiftl_1_l. pose proof (pow2_gt0 (private pg) ltac:(lia)).
  destruct (IH z1 (p + 2 ^ private pg) (s32 (moved + 2 ^ private pg)) G1 ltac:(lia) ltac:(lia) Hmt) as (n & z' & -> & G' & S').
  exists n, z'. split; [done|]. split; [done|]. by eapply same_blocks_trans.
Qed.
Lemma move_freepages_block_spec (e : Z -> Z) (z : zone) (p mt : Z) : good e z -> zs <= p < ze -> 0 <= mt < MIGRATE_ISOLATE ->
  exists n z', move_freepages_block z p mt = Ret (n, z') /\ good e z' /\ same_blocks z z'.
Proof.
  intros G Hp Hmt. destruct (wf_range _ _ _ _ _ (g_wf _ _ _ _ _ G)) as [R1 R2]. unfold move_freepages_block. rewrite (g_start _ _ _ _ _ G), (g_end _ _ _ _ _ G).
  assert (Z.land p (u64 (Z.lnot (pageblock_nr_pages - 1))) = p - p mod 1024) as ->.
  { change (u64 (Z.lnot (pageblock_nr_pages - 1))) with (Z.shiftl (Z.ones 54) 10). rewrite <- Z.land_ones with (n := 10) by lia. rewrite Z.sub_nocarry_ldiff.
    - apply Z.bits_inj'. intros n Hn. rewrite Z.land_spec, Z.ldiff_spec, Z.land_spec, Z.shiftl_spec by lia.
      destruct (decide (n < 10)); [rewrite (Z.testbit_neg_r _ (n - 10)), (Z.ones_spec_low 10 n) by lia; by destruct (Z.testbit p n)|].
      rewrite (Z.ones_spec_high 10 n) by lia. destruct (decide (n < 64)); [rewrite Z.ones_spec_low by lia; by rewrite !andb_true_r, andb_false_r, andb_true_r|].
      rewrite (Z.bits_above_log2 p n); [done|lia|]. destruct (decide (p = 0)) as [->|]; [cbn; lia|]. apply Z.log2_lt_pow2; [lia|].
      pose proof (Z.pow_le_mono_r 2 31 n). lia.
    - apply Z.bits_inj'. intros n Hn. rewrite Z.ldiff_spec, Z.land_spec, Z.bits_0. by destruct (Z.testbit p n), (Z.testbit (Z.ones 10) n). }
  change pageblock_nr_pages with 1024. pose proof (Z.mod_pos_bound p 1024 ltac:(lia)).
  destruct (Z.leb_spec ze (p - p mod 1024 + 1024 - 1)) as [|Hend]; [exists 0, z; by split_and!|].
  set (start := if p - p mod 1024 <? zs then p else p - p mod 1024).
  assert (zs <= start <= p) as Hs by (unfold start; destruct (Z.ltb_spec (p - p mod 1024) zs); lia). unfold move_freepages.
  destruct (zone_page _ _ _ _ _ start (g_wf _ _ _ _ _ G) ltac:(lia)) as (pg & -> & Z1).
  destruct (zone_page _ _ _ _ _ (p - p mod 1024 + 1024 - 1) (g_wf _ _ _ _ _ G) ltac:(lia)) as (pg' & -> & Z2). cbn [deref res_bind].
  rewrite Z1, Z2, Z.eqb_refl. cbn [negb BUG_ON res_bind]. apply move_loop_spec; [done|lia|lia|lia|done].
Qed.

(** ** Taking a block of another type *)

Lemma change_range_spec (z : zone) (p o mt : Z) : good exact z -> loose z p o -> 0 <= mt < MIGRATE_ISOLATE ->
  exists z', (if pageblock_order <=? o then change_pageblock_range dis p o mt z else Ret z) = Ret z' /\ good exact z' /\ same_but_types z z'.
Proof.
  intros G (Hok & _) Hmt. pose proof Hok as (Ho & _). unfold MAX_ORDER in Ho. destruct (Z.leb_spec pageblock_order o) as [Hle|_]; [|by exists z].
  assert (o = 10) as -> by (change pageblock_order with 10 in Hle; lia). unfold change_pageblock_range. change (Z.to_nat (Z.shiftl 1 (10 - pageblock_order))) with 1%nat.
  cbn [change_loop]. destruct (set_type_spec exact z p mt G (block_zone _ _ _ _ Hok) Hmt) as (z' & -> & G' & S'). by exists z'.
Qed.
Lemma loose_types (z z' : zone) (p o : Z) : same_but_types z z' -> loose z p o -> loose z' p o.
Proof. intros (E1 & E2 & _) (A & B & C). split; [done|]. split; [by rewrite E2|by rewrite E1]. Qed.
(** The first part of [steal]: blocks change their lists only. *)
Lemma claim_spec (e : Z -> Z) (z : zone) (cur p start mt : Z) : good e z -> zs <= p < ze -> 0 <= start < MIGRATE_ISOLATE -> 0 <= mt < MIGRATE_ISOLATE ->
  exists mt' z', (if (Z.shiftr pageblock_order 1 <=? cur) || (start =? MIGRATE_RECLAIMABLE) || dis then
      let! (pages, z) := move_freepages_block z p start in
      let! z := if (Z.shiftl 1 (pageblock_order - 1) <=? u64 pages) || dis then set_pageblock_migratetype dis p start z else Ret z in
      Ret (start, z)
    else Ret (mt, z)) = Ret (mt', z') /\ good e z' /\ same_blocks z z' /\ 0 <= mt' < MIGRATE_ISOLATE.
Proof.
  intros G Hp Hs Hmt. destruct (_ || _ || _); [|by exists mt, z].
  destruct (move_freepages_block_spec e z p start G Hp Hs) as (n & z1 & -> & G1 & S1). cbn [res_bind].
  destruct (_ || _); [|by exists start, z1]. destruct (set_type_spec e z1 p start G1 Hp Hs) as (z2 & -> & G2 & S2). cbn [res_bind].
  exists start, z2. split_and!; [done|done| |lia..]. eapply same_blocks_trans; [done|by apply types_same_blocks].
Qed.
Lemma steal_spec (z : zone) (o cur p start mt : Z) : good exact z -> fb (free_list z) p cur -> 0 <= o <= cur -> 0 <= start < MIGRATE_ISOLATE -> 0 <= mt < MIGRATE_ISOLATE ->
  exists z', steal dis z o cur p start mt = Ret (Some p, z') /\ took z o p z'.
Proof.
  intros G Hp Ho Hs Hmt. pose proof (fb_ok _ _ _ _ _ _ _ (g_wf _ _ _ _ _ G) Hp) as Hok. unfold steal.
  destruct (claim_spec (bump exact cur (-1)) (add_nr_free cur (-1) z) cur p start mt (good_nr _ _ _ _ _ _ _ G) (block_zone _ _ _ _ Hok) Hs Hmt) as (mt' & z1 & -> & G1 & S1 & Hmt').
  cbn [res_bind]. assert (fb (free_list z1) p cur) as Hp1 by (by apply S1). rewrite (rmv_unlink _ _ _ _ _ _ _ G1 Hp1). cbn [res_bind].
  destruct (unlink_good _ _ _ _ _ _ _ G1 Hp1) as (G2 & Hc2 & Hu2 & _ & Hx2 & K2). apply bump_back' in G2.
  destruct (change_range_spec (unlink p z1) p cur start G2) as (z2 & -> & G3 & S3); [by split|done|]. cbn [res_bind]. unfold expand. rewrite Z.shiftl_1_l.
  assert (loose z2 p cur) as HL3 by (eapply loose_types; [done|by split]).
  destruct (expand_loop_spec _ _ _ 12 z2 p o cur mt' G3 HL3 Ho) as (z' & -> & G' & HL' & Hfree & K' & _); [destruct Hok as (Hr & _); unfold MAX_ORDER in Hr; lia|done|].
  cbn [res_bind]. exists z'. split; [done|].
  assert (forall x, covered (free_list z) x <-> free_with z2 p cur x) as Hcov.
  { intros x. unfold free_with. destruct S3 as (_ & -> & _). rewrite <- Hx2. symmetry. exact (same_blocks_covered _ _ S1 x). }
  split_and!; [done|done|intros x; by rewrite Hcov, Hfree|]. destruct S1 as (M1 & _ & N1), S3 as (M3 & _ & N3). apply (kept_trans _ _ z2).
  - destruct K2 as [A B C]. split; [|intros x; rewrite M3, B, M1; done|rewrite N3, C, N1; done].
    intros x N. rewrite M3, A, M1; [done|]. intros ->. apply N. exists p, cur. split; [done|]. apply in_block_start. lia.
  - eapply kept_free; [done|]. intros x. by rewrite Hcov.
Qed.

(** ** [__rmqueue] *)

Definition answers (z : zone) (o : Z) (r : option Z) (z' : zone) (none : Prop) : Prop :=
  match r with Some p => took z o p z' | None => z' = z /\ none end.
Lemma fallback_types_spec (mts : list Z) (z : zone) (o cur start : Z) : good exact z -> 0 <= o <= cur -> cur < MAX_ORDER -> 0 <= start < MIGRATE_ISOLATE ->
  Forall (fun mt => 0 <= mt < MIGRATE_ISOLATE) mts ->
  exists r z', fallback_types dis mts z o cur start = Ret (r, z') /\ answers z o r z' (forall mt, mt ∈ mts -> mt <> MIGRATE_RESERVE -> free_list z cur mt = []).
Proof.
  intros G Ho Hc Hs Hm. induction Hm as [|mt mts Hmt Hm IH]; cbn [fallback_types].
  { exists None, z. split; [done|]. split; [done|]. by intros mt H%elem_of_nil. }
  destruct IH as (r & z' & E & H). destruct (Z.eqb_spec mt MIGRATE_RESERVE) as [->|N].
  { exists r, z'. split; [done|]. destruct r; [done|]. destruct H as [-> H]. split; [done|]. intros t [->|Ht]%elem_of_cons Nt; [done|by apply H]. }
  rewrite area_index_ok by (done || lia). cbn [res_bind]. destruct (free_list z cur mt) as [|p l] eqn:El.
  { exists r, z'. split; [done|]. destruct r; [done|]. destruct H as [-> H]. split; [done|]. intros t [->|Ht]%elem_of_cons Nt; [done|by apply H]. }
  destruct (steal_spec z o cur p start mt G) as (z1 & -> & Ht); [exists mt; rewrite El; left|done..|]. by exists (Some p), z1.
Qed.
Lemma fallbacks_range (mt : Z) : Forall (fun mt => 0 <= mt < MIGRATE_ISOLATE) (fallbacks mt).
Proof. unfold fallbacks. repeat case_match; repeat (apply Forall_cons_2; [split; reflexivity || discriminate|]); by apply Forall_nil_2. Qed.
Lemma fallback_loop_spec (fuel : nat) (z : zone) (o cur start : Z) : good exact z -> 0 <= o -> cur < MAX_ORDER -> Z.max 0 (cur - o + 1) < Z.of_nat fuel -> 0 <= start < MIGRATE_ISOLATE ->
  exists r z', fallback_loop dis fuel z o cur start = Ret (r, z') /\
    answers z o r z' (forall o' mt, o <= o' <= cur -> mt ∈ fallbacks start -> mt <> MIGRATE_RESERVE -> free_list z o' mt = []).
Proof.
  intros G Ho. revert cur. induction fuel as [|fuel IH]; intros cur Hc Hf Hs; [lia|]. cbn [fallback_loop].
  destruct (Z.leb_spec o cur) as [Hle|Hgt]; [|exists None, z; split; [done|]; split; [done|]; intros; lia].
  destruct (fallback_types_spec (fallbacks start) z o cur start G ltac:(lia) Hc Hs (fallbacks_range start)) as (r & z' & -> & H). cbn [res_bind].
  destruct r as [p|]; [by exists (Some p), z'|]. destruct H as [-> H].
  destruct (IH (cur - 1) ltac:(lia) ltac:(lia) Hs) as (r & z' & -> & H'). exists r, z'. split; [done|]. destruct r; [done|]. destruct H' as [-> H']. split; [done|].
  intros o' mt Ho' Hmt N. destruct (decide (o' = cur)) as [->|]; [by apply H|apply H'; [lia|done..]].
Qed.
Lemma rmqueue_spec (z : zone) (o mt : Z) : good exact z -> 0 <= o < MAX_ORDER -> 0 <= mt < MIGRATE_PCPTYPES ->
  exists r z', __rmqueue dis z o mt = Ret (r, z') /\ answers z o r z' (forall o' t, o <= o' -> free_list z o' t = []).
Proof.
  intros G Ho Hmt. unfold __rmqueue, __rmqueue_smallest, __rmqueue_fallback. unfold MIGRATE_PCPTYPES, MAX_ORDER in *.
  assert (0 <= mt < MIGRATE_ISOLATE) as Hmt' by (unfold MIGRATE_ISOLATE; lia).
  destruct (smallest_loop_spec _ _ _ 12 z o o mt G ltac:(lia) ltac:(lia) Hmt') as (r & z1 & -> & H1). cbn [res_bind].
  destruct r as [p|]; [exists (Some p), z1; split; [done|apply H1]|]. destruct H1 as [-> H1]. rewrite (proj2 (Z.eqb_neq mt MIGRATE_RESERVE)) by (unfold MIGRATE_RESERVE; lia).
  destruct (fallback_loop_spec 12 z o (11 - 1) mt G ltac:(lia) ltac:(done) ltac:(lia) Hmt') as (r & z2 & -> & H2). cbn [res_bind].
  destruct r as [p|]; [by exists (Some p), z2|]. destruct H2 as [-> H2].
  destruct (smallest_loop_spec _ _ _ 12 z o o MIGRATE_RESERVE G ltac:(lia) ltac:(lia) ltac:(done)) as (r & z3 & -> & H3).
  exists r, z3. split; [done|]. destruct r as [p|]; [apply H3|]. destruct H3 as [-> H3]. split; [done|]. intros o' t Ho'.
  destruct (free_list z o' t) as [|q l] eqn:E; [done|]. exfalso.
  destruct (wf_list _ _ _ _ _ (g_wf _ _ _ _ _ G) q o' t) as ((Hr & _) & Ht & _); [rewrite E; left|]. unfold MIGRATE_ISOLATE, MAX_ORDER in *.
  assert (free_list z o' t = []); [|congruence]. destruct (decide (t = mt)) as [->|N1]; [by apply H1|]. destruct (decide (t = 3)) as [->|N3]; [by apply H3|].
  apply H2; [lia| |done]. assert (mt = 0 \/ mt = 1 \/ mt = 2) as [->|[->| ->]] by lia; cbn; set_unfold; unfold MIGRATE_RECLAIMABLE, MIGRATE_UNMOVABLE, MIGRATE_MOVABLE; lia.
Qed.

(** ** No fragmentation that is not there *)

Lemma aligned_le (p o o' : Z) : 0 <= o <= o' -> aligned p o' -> aligned p o.
Proof. intros Ho [k ->]. exists (k * 2 ^ (o' - o)). rewrite <- Z.mul_assoc, <- Z.pow_add_r by lia. do 2 f_equal. lia. Qed.
(** Blocks that are aligned are nested. *)
Lemma nested (p o q o' x : Z) : 0 <= o <= o' -> aligned p o -> aligned q o' -> in_block x p o -> in_block x q o' -> q <= p /\ p + 2 ^ o <= q + 2 ^ o'.
Proof.
  intros Ho [k ->] Hq Hx Hy. destruct (aligned_le q o o' Ho Hq) as [j ->]. unfold in_block in *. pose proof (pow2_gt0 o ltac:(lia)).
  replace (2 ^ o') with (2 ^ (o' - o) * 2 ^ o) in * by (rewrite <- Z.pow_add_r by lia; f_equal; lia).
  set (s := 2 ^ o) in *. set (n := 2 ^ (o' - o)) in *. assert (j < k + 1) by nia. assert (k < j + n) by nia. nia.
Qed.
(** When all pages of an aligned block are free, they are in one free block. *)
Lemma free_run (m : gmap Z page) (fl : flists) (n : nat) (p : Z) : wf zid zs ze m fl -> Z.of_nat n < MAX_ORDER -> aligned p (Z.of_nat n) ->
  (forall x, in_block x p (Z.of_nat n) -> covered fl x) -> exists q o, fb fl q o /\ Z.of_nat n <= o /\ in_block p q o.
Proof.
  intros W. revert p. induction n as [|n IH]; intros p Hn Ha Hc.
  - destruct (Hc p) as (q & o & Hq & Hx); [by apply in_block_start|]. exists q, o. split; [done|]. pose proof (fb_ok _ _ _ _ _ _ _ W Hq) as (Ho & _). split; [lia|done].
  - set (h := Z.of_nat n) in *. replace (Z.of_nat (S n)) with (h + 1) in * by lia. assert (0 <= h) as Hh by lia. pose proof (pow2_gt0 h Hh).
    assert (aligned p h) as Hah by (eapply aligned_le; [|done]; lia). assert (aligned (p + 2 ^ h) h) as Haq by (by apply Z.divide_add_r; [|apply Z.divide_refl]).
    assert (forall x, in_block x p (h + 1) <-> in_block x p h \/ in_block x (p + 2 ^ h) h) as Hin by (intros x; unfold in_block; rewrite (pow2_S h Hh); lia).
    destruct (IH p ltac:(lia) Hah) as (q & o & Hq & Hle & Hpq); [intros x Hx; apply Hc, Hin; by left|].
    destruct (decide (o = h)) as [->|N]; [|exists q, o; split_and!; [done|lia|apply Hpq..]].
    destruct (IH (p + 2 ^ h) ltac:(lia) Haq) as (q' & o' & Hq' & Hle' & Hpq'); [intros x Hx; apply Hc, Hin; by right|].
    pose proof (fb_ok _ _ _ _ _ _ _ W Hq) as (_ & Haq1 & _). pose proof (fb_ok _ _ _ _ _ _ _ W Hq') as (_ & Haq2 & _).
    assert (q = p) as ->.
    { destruct (nested p h q h p) as [? _]; [lia|done|done|by apply in_block_start|done|]. destruct (nested q h p h p) as [? _]; [lia|done|done|done|by apply in_block_start|]. lia. }
    destruct (decide (o' = h)) as [->|N].
    + exfalso. assert (q' = p + 2 ^ h) as ->.
      { destruct (nested (p + 2 ^ h) h q' h (p + 2 ^ h)) as [? _]; [lia|done|done|by apply in_block_start|done|].
        destruct (nested q' h (p + 2 ^ h) h (p + 2 ^ h)) as [? _]; [lia|done|done|done|by apply in_block_start|]. lia. }
      apply (wf_merged _ _ _ _ _ W p h Hq); [lia|]. destruct (buddy_cases p h Hh Hah) as [(-> & _)|(_ & _ & [j Hj])]; [done|].
      exfalso. destruct Ha as [k Hk]. rewrite (pow2_S h Hh) in Hj, Hk. assert (2 ^ h * (2 * (k - j) - 1) = 0) as E0 by nia. apply Z.mul_eq_0 in E0 as [|]; lia.
    + exists q', o'. split_and!; [done|lia|..]; (destruct (nested p (h + 1) q' o' (p + 2 ^ h)) as [? ?]; [lia|done|done|apply Hin; right; by apply in_block_start|done|]);
        pose proof (pow2_gt0 (h + 1) ltac:(lia)); unfold in_block; lia.
Qed.
End Zone.
