(* ===== verification/BuddyPcp.v ===== *)
(** * The allocator and its clients

    Single pages on the lists of the CPU, and the blocks that clients hold: every page of the allocator is
    free in the zone, on a list of the CPU, or in one block of a client. *)
From S2P Require Import Prelude Buddy BuddyInv BuddyOps BuddyAlloc.

Definition pages (b : Z * Z) : list Z := seqZ (fst b) (2 ^ snd b).
Definition pages_of (bs : list (Z * Z)) : list Z := bs ≫= pages.
#[export] Instance pages_of_Proper : Proper ((≡ₚ) ==> (≡ₚ)) pages_of.
Proof. intros a b H. unfold pages_of. by rewrite H. Qed.

Lemma elem_pages (x p o : Z) : x ∈ pages (p, o) <-> in_block x p o.
Proof. unfold pages, in_block. cbn. by rewrite elem_of_seqZ. Qed.
Lemma pages_of_cons (b : Z * Z) (bs : list (Z * Z)) : pages_of (b :: bs) = pages b ++ pages_of bs.
Proof. done. Qed.
Lemma length_pages (p o : Z) : 0 <= o -> len (pages (p, o)) = 2 ^ o.
Proof. intros H. pose proof (pow2_gt0 o H). unfold pages. cbn. rewrite length_seqZ. lia. Qed.

(** ** The lists of the CPU *)

Definition singles (l : list Z) : list (Z * Z) := (fun x => (x, 0)) <$> l.
Definition pcp_all (c : per_cpu_pages) : list Z := pcp_lists c 0 ++ pcp_lists c 1 ++ pcp_lists c 2.
(** Not in use, with the type of the list the page came from. *)
Definition idle (z : zone) (x : Z) : Prop := forall pg, mem_map z !! x = Some pg -> _count pg = 0 /\ 0 <= private pg < MIGRATE_ISOLATE.
(** The pages of [bs] stay as they are. *)
Definition frame (bs : list (Z * Z)) (z z' : zone) : Prop := forall x, x ∈ pages_of bs -> mem_map z' !! x = mem_map z !! x.

Lemma pages_singles (l : list Z) : pages_of (singles l) = l.
Proof. induction l as [|x l IH]; [done|]. cbn. unfold pages_of, singles in IH. by rewrite IH. Qed.
Lemma pages_of_app (a b : list (Z * Z)) : pages_of (a ++ b) = pages_of a ++ pages_of b.
Proof. apply bind_app. Qed.
#[export] Instance singles_Proper : Proper ((≡ₚ) ==> (≡ₚ)) singles.
Proof. intros a b H. unfold singles. by rewrite H. Qed.
Lemma pcp_all_set (mt : Z) (l : list Z) (c : per_cpu_pages) : 0 <= mt < MIGRATE_PCPTYPES -> pcp_lists c mt ++ pcp_all (set_pcp_list mt l c) ≡ₚ l ++ pcp_all c.
Proof.
  unfold MIGRATE_PCPTYPES, pcp_all. intros H. cbn [set_pcp_list pcp_lists]. assert (mt = 0 \/ mt = 1 \/ mt = 2) as [-> | [-> | ->]] by lia; cbn [Z.eqb Pos.eqb]; solve_Permutation.
Qed.
(** A list loses the page [x], or gets it. *)
Lemma pcp_take (mt x : Z) (l : list Z) (c : per_cpu_pages) : 0 <= mt < MIGRATE_PCPTYPES -> pcp_lists c mt ≡ₚ x :: l -> pcp_all c ≡ₚ x :: pcp_all (set_pcp_list mt l c).
Proof. intros H E. apply (Permutation_app_inv_l l). rewrite <- (pcp_all_set mt l c H), E. solve_Permutation. Qed.
Lemma pcp_give (mt x : Z) (l : list Z) (c : per_cpu_pages) : 0 <= mt < MIGRATE_PCPTYPES -> l ≡ₚ x :: pcp_lists c mt -> pcp_all (set_pcp_list mt l c) ≡ₚ x :: pcp_all c.
Proof. intros H E. apply (Permutation_app_inv_l (pcp_lists c mt)). rewrite (pcp_all_set mt l c H), E. solve_Permutation. Qed.
Lemma pcp_elem (mt x : Z) (c : per_cpu_pages) : 0 <= mt < MIGRATE_PCPTYPES -> x ∈ pcp_lists c mt -> x ∈ pcp_all c.
Proof.
  unfold MIGRATE_PCPTYPES, pcp_all. intros H Hx. rewrite !elem_of_app. assert (mt = 0 \/ mt = 1 \/ mt = 2) as [-> | [-> | ->]] by lia; auto.
Qed.
Lemma last_removelast (l : list Z) : l <> [] -> exists x, last l = Some x /\ l = removelast l ++ [x].
Proof. destruct l as [|x l _] using rev_ind; [done|]. intros _. exists x. by rewrite last_snoc, removelast_last. Qed.
(** Three steps find a list with a page. *)
Lemma next_list_spec (c : per_cpu_pages) (mt bf : Z) : 0 <= mt < MIGRATE_PCPTYPES -> 0 <= bf -> pcp_all c <> [] ->
  exists mt' bf', next_list 3 c mt bf = Ret (mt', bf') /\ 0 <= mt' < MIGRATE_PCPTYPES /\ pcp_lists c mt' <> [] /\ 1 <= bf'.
Proof.
  unfold MIGRATE_PCPTYPES, pcp_all. intros H Hb Hne.
  assert (mt = 0 \/ mt = 1 \/ mt = 2) as [-> | [-> | ->]] by lia; simpl; change (0 + 1) with 1; change (1 + 1) with 2;
    destruct (pcp_lists c 0) eqn:E0, (pcp_lists c 1) eqn:E1, (pcp_lists c 2) eqn:E2; try done;
    (eexists _, _; split; [reflexivity|]; split; [lia|]; split; [congruence|lia]).
Qed.

Section Zone.
Variables zid zs ze : Z.
Variable dis : bool.
#[local] Notation good := (good zid zs ze).
#[local] Notation block_ok := (block_ok zs ze).
#[local] Notation loose := (loose zs ze).
#[local] Notation took := (took zid zs ze).
#[local] Notation exact := (fun _ : Z => 0).

(** The pages [M] of the allocator are free or in one of the blocks [bs], which do not overlap; [d] more pages than
    NR_FREE_PAGES says are free. *)
Record outs (z : zone) (bs : list (Z * Z)) (M : Z -> Prop) (d : Z) : Prop := Outs {
  o_good : good exact z;
  o_ok : Forall (fun b => block_ok (fst b) (snd b)) bs;
  o_once : NoDup (pages_of bs);
  o_clear : forall x, x ∈ pages_of bs -> ~ covered (free_list z) x;
  o_all : forall x, M x <-> covered (free_list z) x \/ x ∈ pages_of bs;
  o_number : exists s : gset Z, (forall x, x ∈ s <-> covered (free_list z) x) /\ nr_free_pages z + d = Z.of_nat (size s) }.

Lemma outs_perm (z : zone) (bs bs' : list (Z * Z)) (M : Z -> Prop) (d : Z) : bs ≡ₚ bs' -> outs z bs M d -> outs z bs' M d.
Proof. intros E [A B C D F N]. split; [done|by rewrite <- E|by rewrite <- E|intros x; rewrite <- E; apply D|intros x; rewrite <- E; apply F|done]. Qed.
Lemma outs_nr (z : zone) (bs : list (Z * Z)) (M : Z -> Prop) (d e : Z) : outs z bs M d -> in_s 64 (nr_free_pages z + e) -> outs (mod_free_pages e z) bs M (d - e).
Proof.
  intros [A B C D F (s & Hs & Hn)] Hr. split; try done; [by apply good_pages|]. exists s. split; [done|].
  cbn [nr_free_pages mod_free_pages]. rewrite swrap_id by (done || lia). lia.
Qed.
(** The head of the list is loose, so that it can be freed. *)
Lemma outs_loose (z : zone) (p o : Z) (bs : list (Z * Z)) (M : Z -> Prop) (d : Z) : outs z ((p, o) :: bs) M d -> unused (mem_map z) p o -> loose z p o.
Proof.
  intros [A B C D F N] Hu. apply Forall_cons in B as [B _]. split; [done|]. split; [|done]. intros x Hx. apply D. rewrite pages_of_cons. apply elem_of_app. left. by apply elem_pages.
Qed.
Lemma size_block (s : gset Z) (p o : Z) : 0 <= o -> (forall x, in_block x p o -> x ∉ s) -> Z.of_nat (size (s ∪ list_to_set (pages (p, o)))) = Z.of_nat (size s) + 2 ^ o.
Proof.
  intros Ho Hd. rewrite size_union, size_list_to_set by first [apply NoDup_seqZ | intros x Hx Hy%elem_of_list_to_set%elem_pages; by apply (Hd x)].
  rewrite <- (length_pages p o Ho). lia.
Qed.
Lemma outs_free (z : zone) (p o mt : Z) (bs : list (Z * Z)) (M : Z -> Prop) (d : Z) : outs z ((p, o) :: bs) M d -> unused (mem_map z) p o -> 0 <= mt < MIGRATE_ISOLATE ->
  exists z', __free_one_page p z o mt = Ret z' /\ outs z' bs M (d + 2 ^ o) /\ (forall x, x ∈ pages_of bs -> mem_map z' !! x = mem_map z !! x) /\
    pageblock_flags z' = pageblock_flags z /\ nr_free_pages z' = nr_free_pages z.
Proof.
  intros HO Hu Hmt. pose proof (outs_loose _ _ _ _ _ _ HO Hu) as HL. destruct HO as [A B C D F (s & Hs & Hn)]. destruct HL as (Hok & Hc & Hu'). pose proof Hok as (Ho & _).
  destruct (free_one_page_spec _ _ _ z p o mt A ltac:(done) Hmt) as (z' & E & G' & Hcov & K & Hfl). exists z'. rewrite pages_of_cons in *.
  apply NoDup_app in C as (C1 & C2 & C3). apply Forall_cons in B as [_ B].
  assert (forall x, x ∈ pages_of bs -> ~ covered (free_list z') x) as Hclear.
  { intros x Hx Hcx. apply Hcov in Hcx as [Hcx|Hb]; [apply (D x); [apply elem_of_app; by right|done]|]. apply (C2 x); [by apply elem_pages|done]. }
  split; [done|]. split; [|split_and!; [|done|apply K]]. 2: { intros x Hx. apply K. by apply Hclear. }
  split; try done.
  - intros x. rewrite F, Hcov, elem_of_app, elem_pages. unfold free_with. tauto.
  - exists (s ∪ list_to_set (pages (p, o))). split.
    + intros x. rewrite Hcov, elem_of_union, elem_of_list_to_set, elem_pages, Hs. done.
    + rewrite size_block; [rewrite (k_free _ _ _ K); lia|lia|]. intros x Hx Hxs%Hs. by apply (Hc x).
Qed.
Lemma outs_take (z z' : zone) (p o : Z) (bs : list (Z * Z)) (M : Z -> Prop) (d : Z) : outs z bs M d -> took z o p z' ->
  outs z' ((p, o) :: bs) M (d - 2 ^ o) /\ unused (mem_map z') p o /\ (forall x, x ∈ pages_of bs -> mem_map z' !! x = mem_map z !! x) /\ nr_free_pages z' = nr_free_pages z.
Proof.
  intros [A B C D F (s & Hs & Hn)] (G' & (Hok & Hc & Hu) & Hcov & K). pose proof Hok as (Ho & _).
  split; [|split_and!; [done| |apply K]]. 2: { intros x Hx. apply K. by apply D. }
  assert (forall x, x ∈ pages (p, o) -> covered (free_list z) x) as Hin by (intros x Hx%elem_pages; apply Hcov; by right).
  split; [done|by constructor| | | |].
  - rewrite pages_of_cons. apply NoDup_app. split_and!; [apply NoDup_seqZ|intros x Hx Hy; apply (D x Hy); by apply Hin|done].
  - intros x. rewrite pages_of_cons, elem_of_app. intros [Hx%elem_pages|Hx]; [by apply Hc|]. intros Hcx. apply (D x Hx), Hcov. by left.
  - intros x. rewrite F, Hcov, pages_of_cons, elem_of_app, elem_pages. unfold free_with. tauto.
  - exists (s ∖ list_to_set (pages (p, o))). split.
    + intros x. rewrite elem_of_difference, elem_of_list_to_set, elem_pages, Hs, Hcov. unfold free_with. split; [tauto|]. intros Hx. split; [by left|]. intros Hb. by apply (Hc x).
    + assert (list_to_set (pages (p, o)) ⊆ s) as Hsub by (intros x Hx%elem_of_list_to_set; apply Hs; by apply Hin).
      rewrite size_difference by done. rewrite size_list_to_set by apply NoDup_seqZ. pose proof (subseteq_size _ _ Hsub) as Hle.
      rewrite size_list_to_set in Hle by apply NoDup_seqZ. pose proof (length_pages p o ltac:(lia)). rewrite (k_free _ _ _ K). lia.
Qed.

(** Changes of a page that is not free. *)
Lemma good_update (e : Z -> Z) (z : zone) (x : Z) (f : page -> page) : good e z -> ~ covered (free_list z) x ->
  (forall pg, PageBuddy (f pg) = PageBuddy pg /\ page_zone (f pg) = page_zone pg) -> good e (set_mem_map (alter f x (mem_map z)) z).
Proof.
  intros [[R S Z0 L K O T A C U] N I B E Y] Hx Hf. split; try done.
  assert (forall y pg, alter f x (mem_map z) !! y = Some pg -> exists pg0, mem_map z !! y = Some pg0 /\ PageBuddy pg = PageBuddy pg0 /\ page_zone pg = page_zone pg0 /\ (y <> x -> pg = pg0)) as Hm.
  { intros y pg. destruct (decide (y = x)) as [->|Ny]; [rewrite lookup_alter_eq|rewrite lookup_alter_ne by done; intros H; by exists pg].
    destruct (mem_map z !! x) as [pg0|]; cbn; intros [= <-]. exists pg0. destruct (Hf pg0). by split_and!. }
  assert (forall p o y, fb (free_list z) p o -> in_block y p o -> y <> x) as Hne by (intros p o y Hp Hy ->; apply Hx; by exists p, o).
  cbn [mem_map set_mem_map free_list]. split; [done|by apply spans_alter| | | |done|done|done|done|].
  - intros y pg Hy E1. destruct (Hm _ _ E1) as (pg0 & E0 & _ & -> & _). by apply (Z0 y).
  - intros p o mt Hp. destruct (L _ _ _ Hp) as (Hok & Hmt & pg & E1 & Hpg). split; [done|]. split; [done|]. exists pg. split; [|done].
    rewrite lookup_alter_ne; [done|]. intros E2. apply (Hne p o p); [by exists mt| |done]. apply in_block_start. destruct Hok; lia.
  - intros p pg E1 Hb. destruct (Hm _ _ E1) as (pg0 & E0 & Eb & _ & Ne). rewrite Eb in Hb. pose proof (K _ _ E0 Hb) as Hp.
    assert (p <> x) as Np by (apply (Hne p (private pg0) p Hp), in_block_start; destruct Hp as [mt Hp]; apply L in Hp as ((Ho & _) & _); lia). by rewrite (Ne Np).
  - intros p o Hp y pg Hy E1. rewrite lookup_alter_ne in E1 by (intros E2; by apply (Hne p o y)). by apply (U p o Hp y).
Qed.
Lemma outs_update (z : zone) (bs : list (Z * Z)) (M : Z -> Prop) (d x : Z) (f : page -> page) : outs z bs M d -> x ∈ pages_of bs ->
  (forall pg, PageBuddy (f pg) = PageBuddy pg /\ page_zone (f pg) = page_zone pg) -> outs (set_mem_map (alter f x (mem_map z)) z) bs M d.
Proof. intros [A B C D F N] Hx Hf. split; try done. apply good_update; [done|by apply D|done]. Qed.
(** A page of a block is in the memory map. *)
Lemma outs_page (z : zone) (bs : list (Z * Z)) (M : Z -> Prop) (d x : Z) : outs z bs M d -> x ∈ pages_of bs -> zs <= x < ze /\ exists pg, mem_map z !! x = Some pg.
Proof.
  intros [A B C D F N] ([p o] & Hx%elem_pages & Hb)%list_elem_of_bind. rewrite Forall_forall in B. destruct (B _ Hb) as (Ho & _ & H1 & H2). cbn in *.
  assert (zs <= x < ze) as Hz by (unfold in_block in Hx; lia). split; [done|]. destruct (zone_page _ _ _ _ _ x (g_wf _ _ _ _ _ A) Hz) as (pg & E & _). by exists pg.
Qed.
Lemma update_page_eq (f : page -> page) (x : Z) (z : zone) (pg : page) : mem_map z !! x = Some pg -> update_page f x z = Ret (set_mem_map (alter f x (mem_map z)) z).
Proof. intros E. unfold update_page. rewrite E. cbn [deref res_bind]. by rewrite (insert_is_alter f x _ pg E). Qed.
(** The pages of a zone are not more than its size. *)
Lemma outs_bound (z : zone) (bs : list (Z * Z)) (M : Z -> Prop) (d : Z) : outs z bs M d -> len (pages_of bs) < 2 ^ 31 /\ 0 <= nr_free_pages z + d < 2 ^ 31.
Proof.
  intros HO. pose proof HO as [A B C D F (s & Hs & Hn)]. destruct (wf_range _ _ _ _ _ (g_wf _ _ _ _ _ A)) as [R1 R2].
  assert (forall l : list Z, NoDup l -> (forall x, x ∈ l -> zs <= x < ze) -> len l < 2 ^ 31) as Hl.
  { intros l Hl Hx. assert (l ⊆+ seqZ zs (ze - zs)) as Hsub by (apply NoDup_submseteq; [done|]; intros x Hxl; apply elem_of_seqZ; specialize (Hx x Hxl); lia).
    apply submseteq_length in Hsub. rewrite length_seqZ in Hsub. lia. }
  split; [apply Hl; [done|]; intros x Hx; by eapply outs_page|]. rewrite Hn. split; [lia|].
  unfold size, set_size. apply Hl; [apply NoDup_elements|]. intros x Hx%elem_of_elements%Hs. destruct Hx as (p & o & Hp & Hx).
  destruct (fb_ok _ _ _ _ _ _ _ (g_wf _ _ _ _ _ A) Hp) as (_ & _ & H1 & H2). unfold in_block in Hx. lia.
Qed.

(** *** Pages on the lists go back to the zone *)

(** The allocator with the blocks [bs] of clients. *)
Record held (z : zone) (c : per_cpu_pages) (bs : list (Z * Z)) (M : Z -> Prop) (d : Z) : Prop := Held {
  h_outs : outs z (singles (pcp_all c) ++ bs) M d;
  h_idle : forall x, x ∈ pcp_all c -> idle z x }.

(** The last page of a list is freed. *)
Lemma held_back (z : zone) (c : per_cpu_pages) (bs : list (Z * Z)) (M : Z -> Prop) (d mt x : Z) : held z c bs M d -> 0 <= mt < MIGRATE_PCPTYPES ->
  pcp_lists c mt = removelast (pcp_lists c mt) ++ [x] -> let c' := set_pcp_list mt (removelast (pcp_lists c mt)) c in
  exists pg z', mem_map z !! x = Some pg /\ __free_one_page x z 0 (private pg) = Ret z' /\ held z' c' bs M (d + 1) /\ len (pcp_all c') = len (pcp_all c) - 1 /\
    frame bs z z' /\ nr_free_pages z' = nr_free_pages z.
Proof.
  intros [HO HI] Hmt El c'. assert (pcp_all c ≡ₚ x :: pcp_all c') as EP by (apply pcp_take; [done|]; rewrite El at 1; solve_Permutation).
  assert (outs z ((x, 0) :: singles (pcp_all c') ++ bs) M d) as HO' by (eapply outs_perm; [|exact HO]; by rewrite EP).
  destruct (outs_page _ _ _ _ x HO') as (Hz & pg & Epg); [rewrite pages_of_cons; cbn; set_solver|].
  assert (forall y, in_block y x 0 -> y = x) as Hy by (unfold in_block; intros y; change (2 ^ 0) with 1; lia).
  destruct (HI x ltac:(rewrite EP; set_solver) pg Epg) as [Hc Hp].
  destruct (outs_free z x 0 (private pg) _ M d HO') as (z' & E & HO2 & HF & _ & Hn); [intros y pg' ->%Hy E'; congruence|done|].
  rewrite pages_of_app, pages_singles in HF. exists pg, z'. split; [done|]. split; [done|]. split; [|split_and!; [|intros y Hy'; apply HF; set_solver|done]].
  - split; [done|]. intros y Hy' pg' E'. rewrite HF in E' by set_solver. apply (HI y); [rewrite EP; set_solver|done].
  - rewrite EP. cbn. lia.
Qed.
Definition same_limits (c c' : per_cpu_pages) : Prop := high c' = high c /\ batch c' = batch c /\ pcp_count c' = pcp_count c.
Definition gone (z : zone) (c : per_cpu_pages) (bs : list (Z * Z)) (M : Z -> Prop) (d n : Z) (z' : zone) (c' : per_cpu_pages) : Prop :=
  held z' c' bs M (d + n) /\ len (pcp_all c') = len (pcp_all c) - n /\ frame bs z z' /\ nr_free_pages z' = nr_free_pages z /\ same_limits c c'.
Lemma gone_trans (z1 z2 z3 : zone) (c1 c2 c3 : per_cpu_pages) (bs : list (Z * Z)) (M : Z -> Prop) (d n m : Z) :
  gone z1 c1 bs M d n z2 c2 -> gone z2 c2 bs M (d + n) m z3 c3 -> gone z1 c1 bs M d (n + m) z3 c3.
Proof.
  intros (A1 & A2 & A3 & A4 & A5 & A6 & A7) (B1 & B2 & B3 & B4 & B5 & B6 & B7). split; [by rewrite Z.add_assoc|]. split; [lia|].
  split; [intros x Hx; by rewrite B3, A3|]. split; [congruence|]. unfold same_limits. split_and!; congruence.
Qed.
Lemma free_batch_spec (fuel : nat) (z : zone) (c : per_cpu_pages) (mt count bf : Z) (bs : list (Z * Z)) (M : Z -> Prop) (d : Z) : held z c bs M d ->
  0 <= mt < MIGRATE_PCPTYPES -> pcp_lists c mt <> [] -> 1 <= count -> 1 <= bf -> (length (pcp_lists c mt) < fuel)%nat ->
  exists n bf' z' c', free_batch fuel z c mt count bf = Ret (count - n, bf', (z', c')) /\ gone z c bs M d n z' c' /\ 1 <= n <= count /\ 0 <= bf'.
Proof.
  revert z c count bf d. induction fuel as [|fuel IH]; intros z c count bf d H Hmt Hne Hc Hb Hf; [lia|]. cbn [free_batch].
  destruct (last_removelast _ Hne) as (x & Ex & El). rewrite Ex. cbn [deref res_bind]. destruct (held_back _ _ _ _ _ _ _ H Hmt El) as (pg & z' & Epg & E & H' & Hl & HF & Hn).
  rewrite Epg. cbn [deref res_bind]. rewrite E. cbn [res_bind]. set (c' := set_pcp_list mt (removelast (pcp_lists c mt)) c) in *.
  assert (gone z c bs M d 1 z' c') as G1 by (unfold gone; done).
  assert (pcp_lists c' mt = removelast (pcp_lists c mt)) as El' by (cbn; by rewrite Z.eqb_refl).
  destruct (Z.eqb_spec (count - 1) 0); [exists 1, bf, z', c'; split_and!; done || lia|].
  destruct (Z.eqb_spec (bf - 1) 0); [exists 1, (bf - 1), z', c'; split_and!; done || lia|].
  destruct (pcp_lists c' mt) eqn:E2; [exists 1, (bf - 1), z', c'; split_and!; done || lia|].
  destruct (IH z' c' (count - 1) (bf - 1) (d + 1) H' Hmt) as (m & bf' & z2 & c2 & E3 & G2 & Hm & Hb'); [by rewrite E2|lia|lia| |].
  { rewrite E2, El'. rewrite El in Hf. rewrite length_app in Hf. cbn in Hf. lia. }
  exists (1 + m), bf', z2, c2. split; [rewrite E3; by replace (count - 1 - m) with (count - (1 + m)) by lia|]. split; [by eapply gone_trans|lia].
Qed.
Lemma free_pcp_loop_spec (fuel : nat) (z : zone) (c : per_cpu_pages) (mt count bf : Z) (bs : list (Z * Z)) (M : Z -> Prop) (d : Z) : held z c bs M d ->
  0 <= mt < MIGRATE_PCPTYPES -> 0 <= count <= len (pcp_all c) -> 0 <= bf -> count < Z.of_nat fuel ->
  exists z' c', free_pcp_loop fuel z c mt count bf = Ret (z', c') /\ gone z c bs M d count z' c'.
Proof.
  revert z c mt count bf d. induction fuel as [|fuel IH]; intros z c mt count bf d H Hmt Hc Hb Hf; [lia|]. cbn [free_pcp_loop]. destruct (Z.eqb_spec count 0) as [->|N].
  { exists z, c. split; [done|]. split; [by rewrite Z.add_0_r|]. split; [lia|]. split; [done|]. split; [done|]. by split. }
  destruct (next_list_spec c mt bf Hmt Hb) as (mt' & bf1 & -> & Hmt' & Hne & Hb1); [intros E; rewrite E in Hc; cbn in Hc; lia|]. cbn [res_bind].
  destruct (free_batch_spec (S (length (pcp_lists c mt'))) z c mt' count bf1 bs M d H Hmt' Hne) as (n & bf2 & z2 & c2 & E & G & Hn & Hb2); [lia|done|lia|].
  rewrite E. cbn [res_bind fst snd]. pose proof G as (H2 & Hl & _). destruct (IH z2 c2 mt' (count - n) bf2 (d + n)) as (z3 & c3 & E3 & G3); [done|done|lia|done|lia|].
  exists z3, c3. split; [done|]. replace count with (n + (count - n)) by lia. by eapply gone_trans.
Qed.
Lemma free_pcppages_bulk_spec (z : zone) (c : per_cpu_pages) (count : Z) (bs : list (Z * Z)) (M : Z -> Prop) : held z c bs M 0 ->
  0 <= count <= len (pcp_all c) ->
  exists z' c', free_pcppages_bulk z count c = Ret (z', c') /\ held z' c' bs M 0 /\ len (pcp_all c') = len (pcp_all c) - count /\ frame bs z z' /\ same_limits c c'.
Proof.
  intros H Hc. pose proof (outs_bound _ _ _ _ (h_outs _ _ _ _ _ H)) as [B1 B2]. rewrite pages_of_app, length_app, pages_singles in B1.
  destruct (free_pcp_loop_spec (S (Z.to_nat count)) (mod_free_pages count z) c 0 count 0 bs M (0 - count)) as (z' & c' & E & H' & Hl & HF & _ & Hs);
    [|unfold MIGRATE_PCPTYPES; lia|done|lia|lia|].
  { split; [|apply H]. apply outs_nr; [apply H|]. unfold in_s. lia. }
  exists z', c'. split; [done|]. split; [|done]. by replace (0 - count + count) with 0 in H' by lia.
Qed.
End Zone.
