(* ===== verification/BuddyClients.v ===== *)
(** * Clients of the page allocator

    What the operations of the allocator do for their callers: blocks of pages are handed to the allocator at
    boot, allocated, shared by counting references, and given back. *)
From S2P Require Import Prelude Buddy BuddyInv BuddyOps BuddyAlloc BuddyPcp.

(** The fields of the lists of the CPU. *)
Record limits (c : per_cpu_pages) : Prop := Limits {
  l_count : pcp_count c = len (pcp_all c);
  l_batch : 1 <= batch c <= Z.max 1 (high c) }.
Definition counted (z : zone) (p n : Z) : Prop := forall x, p <= x < p + n -> exists pg, mem_map z !! x = Some pg /\ _count pg = 0.

Lemma check_loop_ok (n : nat) (p bad : Z) (z : zone) : counted z p (Z.of_nat n) -> check_loop n p bad z = Ret (bad, z).
Proof.
  revert p. induction n as [|n IH]; intros p H; [done|]. cbn [check_loop]. unfold free_pages_check.
  destruct (H p) as (pg & -> & E); [lia|]. cbn [deref res_bind]. rewrite E. cbn [Z.eqb negb res_bind]. rewrite Z.add_0_r. apply IH. intros x Hx. apply H. lia.
Qed.
Lemma check_new_pages_ok (n : nat) (p : Z) (z : zone) : counted z p (Z.of_nat n) -> check_new_pages n p z = Ret (false, z).
Proof.
  revert p. induction n as [|n IH]; intros p H; [done|]. cbn [check_new_pages]. unfold check_new_page.
  destruct (H p) as (pg & -> & E); [lia|]. cbn [deref res_bind]. rewrite E. cbn [Z.eqb negb res_bind]. apply IH. intros x Hx. apply H. lia.
Qed.

Section Zone.
Variables zid zs ze : Z.
Variable dis : bool.
#[local] Notation good := (good zid zs ze).
#[local] Notation block_ok := (block_ok zs ze).
#[local] Notation outs := (outs zid zs ze).
#[local] Notation held := (held zid zs ze).

Lemma counted_block (z : zone) (p o : Z) (bs : list (Z * Z)) (M : Z -> Prop) (d : Z) : outs z bs M d -> (p, o) ∈ bs -> unused (mem_map z) p o ->
  counted z p (Z.of_nat (Z.to_nat (Z.shiftl 1 o))).
Proof.
  intros HO Hp Hu x Hx. pose proof (o_ok _ _ _ _ _ _ _ HO) as Hok. rewrite Forall_forall in Hok. destruct (Hok _ Hp) as (Ho & _). cbn in Ho. pose proof (pow2_gt0 o ltac:(lia)).
  rewrite Z.shiftl_1_l in Hx. assert (in_block x p o) as Hb by (unfold in_block; lia).
  destruct (outs_page _ _ _ _ _ _ _ x HO) as (_ & pg & E); [apply list_elem_of_bind; exists (p, o); by rewrite elem_pages|]. exists pg. split; [done|]. by apply (Hu x pg).
Qed.
Lemma free_pages_prepare_ok (z : zone) (p o : Z) (bs : list (Z * Z)) (M : Z -> Prop) (d : Z) : outs z bs M d -> (p, o) ∈ bs -> unused (mem_map z) p o ->
  free_pages_prepare p o z = Ret (true, z).
Proof. intros HO Hp Hu. unfold free_pages_prepare. by rewrite (check_loop_ok _ _ _ _ (counted_block _ _ _ _ _ _ HO Hp Hu)). Qed.

(** A block at the head of the list of clients, among the others. *)
Lemma held_head (z : zone) (c : per_cpu_pages) (b : Z * Z) (bs : list (Z * Z)) (M : Z -> Prop) (d : Z) : held z c (b :: bs) M d ->
  outs z (b :: singles (pcp_all c) ++ bs) M d.
Proof. intros H. eapply outs_perm; [|apply H]. solve_Permutation. Qed.
Lemma held_perm (z : zone) (c : per_cpu_pages) (bs bs' : list (Z * Z)) (M : Z -> Prop) (d : Z) : bs ≡ₚ bs' -> held z c bs M d -> held z c bs' M d.
Proof. intros E [A B]. split; [|done]. eapply outs_perm; [|exact A]. by rewrite E. Qed.
Lemma held_update (z : zone) (c : per_cpu_pages) (bs : list (Z * Z)) (M : Z -> Prop) (d x : Z) (f : page -> page) : held z c bs M d -> x ∈ pages_of bs ->
  (forall pg, PageBuddy (f pg) = PageBuddy pg /\ page_zone (f pg) = page_zone pg) -> held (set_mem_map (alter f x (mem_map z)) z) c bs M d.
Proof.
  intros [A B] Hx Hf. split; [apply outs_update; [done|rewrite pages_of_app; set_solver|done]|].
  intros y Hy pg. cbn [mem_map set_mem_map]. rewrite lookup_alter_ne; [by apply B|]. intros ->. pose proof (o_once _ _ _ _ _ _ _ A) as HN.
  rewrite pages_of_app, pages_singles in HN. apply NoDup_app in HN as (_ & HN & _). by apply (HN y).
Qed.
Lemma held_free (z : zone) (c : per_cpu_pages) (p o mt : Z) (bs : list (Z * Z)) (M : Z -> Prop) (d : Z) : held z c ((p, o) :: bs) M d -> unused (mem_map z) p o ->
  0 <= mt < MIGRATE_ISOLATE -> exists z', __free_one_page p z o mt = Ret z' /\ held z' c bs M (d + 2 ^ o) /\ frame bs z z'.
Proof.
  intros H Hu Hmt. destruct (outs_free _ _ _ z p o mt _ M d (held_head _ _ _ _ _ _ H) Hu Hmt) as (z' & E & HO & HF & _). rewrite pages_of_app, pages_singles in HF.
  exists z'. split; [done|]. split; [|intros x Hx; apply HF; set_solver]. split; [done|]. intros x Hx pg Ex. rewrite HF in Ex by set_solver. by apply (h_idle _ _ _ _ _ _ _ _ H x).
Qed.
Lemma held_nr (z : zone) (c : per_cpu_pages) (bs : list (Z * Z)) (M : Z -> Prop) (e : Z) : held z c bs M 0 -> - 2 ^ 31 <= e <= 2 ^ 31 -> held (mod_free_pages e z) c bs M (0 - e).
Proof. intros [A B] He. split; [|done]. apply outs_nr; [done|]. pose proof (outs_bound _ _ _ _ _ _ _ A). unfold in_s. lia. Qed.
(** Freeing a block that nobody uses. *)
Lemma free_pages_ok_spec (z : zone) (c : per_cpu_pages) (p o : Z) (bs : list (Z * Z)) (M : Z -> Prop) : held z c ((p, o) :: bs) M 0 -> unused (mem_map z) p o ->
  exists z', __free_pages_ok p o (z, c) = Ret (z', c) /\ held z' c bs M 0 /\ frame bs z z'.
Proof.
  intros H Hu. unfold __free_pages_ok. pose proof (held_head _ _ _ _ _ _ H) as HO. rewrite (free_pages_prepare_ok z p o _ _ _ HO ltac:(set_solver) Hu). cbn [res_bind negb].
  pose proof (o_ok _ _ _ _ _ _ _ HO) as Hok. apply Forall_cons in Hok as [Hok _]. cbn in Hok. pose proof Hok as (Ho & _). unfold MAX_ORDER in Ho.
  pose proof (pow2_le o 11 ltac:(lia)) as Hle. change (2 ^ 11) with 2048 in Hle. pose proof (pow2_gt0 o ltac:(lia)). unfold free_one_page. rewrite Z.shiftl_1_l.
  destruct (held_free (mod_free_pages (2 ^ o) z) c p o (get_pageblock_migratetype p z) bs M (0 - 2 ^ o)) as (z' & E & H' & HF).
  - apply held_nr; [done|lia].
  - done.
  - apply (g_types _ _ _ _ _ (o_good _ _ _ _ _ _ _ HO)). by eapply block_zone.
  - exists z'. rewrite E. cbn [res_bind]. split; [done|]. split; [|done]. by replace (0 - 2 ^ o + 2 ^ o) with 0 in H' by lia.
Qed.

(** *** Single pages *)

Lemma single_block (x p : Z) : in_block x p 0 <-> x = p.
Proof. unfold in_block. change (2 ^ 0) with 1. lia. Qed.
Lemma set_page_private_eq (p v : Z) (z : zone) (pg : page) : mem_map z !! p = Some pg ->
  set_page_private p v z = Ret (set_mem_map (alter (fun pg => Page (PageBuddy pg) v (_count pg) (page_zone pg)) p (mem_map z)) z).
Proof. apply update_page_eq. Qed.
Lemma set_page_count_eq (p v : Z) (z : zone) (pg : page) : mem_map z !! p = Some pg ->
  set_page_count p v z = Ret (set_mem_map (alter (fun pg => Page (PageBuddy pg) (private pg) v (page_zone pg)) p (mem_map z)) z).
Proof. apply update_page_eq. Qed.
Lemma once_head (z : zone) (c : per_cpu_pages) (p o : Z) (bs : list (Z * Z)) (M : Z -> Prop) (d x : Z) : held z c ((p, o) :: bs) M d -> in_block x p o ->
  x ∉ pages_of bs /\ x ∉ pcp_all c.
Proof.
  intros H Hx. pose proof (o_once _ _ _ _ _ _ _ (held_head _ _ _ _ _ _ H)) as HN. rewrite pages_of_cons, pages_of_app, pages_singles in HN.
  apply NoDup_app in HN as (_ & HN & _). specialize (HN x ltac:(by apply elem_pages)). set_solver.
Qed.
(** A page goes on a list of the CPU, or leaves it. *)
Lemma held_list (z : zone) (c c' : per_cpu_pages) (x : Z) (bs : list (Z * Z)) (M : Z -> Prop) (d : Z) : held z c ((x, 0) :: bs) M d -> pcp_all c' ≡ₚ x :: pcp_all c -> idle z x ->
  held z c' bs M d.
Proof. intros H E Hi. split; [eapply outs_perm; [|exact (held_head _ _ _ _ _ _ H)]; by rewrite E|]. intros y. rewrite E, elem_of_cons. intros [->|Hy]; [done|by apply H]. Qed.
Lemma held_unlist (z : zone) (c c' : per_cpu_pages) (x : Z) (bs : list (Z * Z)) (M : Z -> Prop) (d : Z) : held z c bs M d -> pcp_all c ≡ₚ x :: pcp_all c' ->
  held z c' ((x, 0) :: bs) M d /\ idle z x.
Proof.
  intros [A B] E. split; [|apply B; rewrite E; set_solver]. split; [|intros y Hy; apply B; rewrite E; set_solver].
  eapply outs_perm; [|exact A]. rewrite E. unfold singles. cbn. solve_Permutation.
Qed.
Lemma held_length (z : zone) (c : per_cpu_pages) (bs : list (Z * Z)) (M : Z -> Prop) (d : Z) : held z c bs M d -> len (pcp_all c) < 2 ^ 31.
Proof. intros [A _]. pose proof (outs_bound _ _ _ _ _ _ _ A) as [B _]. rewrite pages_of_app, length_app, pages_singles in B. lia. Qed.

Lemma free_hot_cold_page_spec (z : zone) (c : per_cpu_pages) (p : Z) (cold : bool) (bs : list (Z * Z)) (M : Z -> Prop) : held z c ((p, 0) :: bs) M 0 -> limits c ->
  unused (mem_map z) p 0 -> exists z' c', free_hot_cold_page p cold (z, c) = Ret (z', c') /\ held z' c' bs M 0 /\ limits c' /\ frame bs z z'.
Proof.
  intros H [Lc Lb] Hu. pose proof (held_head _ _ _ _ _ _ H) as HO. unfold free_hot_cold_page. rewrite (free_pages_prepare_ok z p 0 _ _ _ HO ltac:(set_solver) Hu). cbn [res_bind negb].
  assert (p ∈ pages_of ((p, 0) :: bs)) as Hp by (rewrite pages_of_cons; apply elem_of_app; left; by apply elem_pages, single_block).
  destruct (outs_page _ _ _ _ _ _ _ p (h_outs _ _ _ _ _ _ _ _ H)) as (Hz & pg & Epg); [rewrite pages_of_app; set_solver|].
  pose proof (g_types _ _ _ _ _ (o_good _ _ _ _ _ _ _ HO) p Hz) as Hmt. set (mt := get_pageblock_migratetype p z) in *. clearbody mt. unfold MIGRATE_ISOLATE in Hmt.
  rewrite (set_page_private_eq p mt z pg Epg). cbn [res_bind]. set (z1 := set_mem_map _ z). rewrite (proj2 (Z.eqb_neq mt MIGRATE_ISOLATE)), andb_false_r by (unfold MIGRATE_ISOLATE; lia).
  set (t := if MIGRATE_PCPTYPES <=? mt then MIGRATE_MOVABLE else mt).
  assert (0 <= t < MIGRATE_PCPTYPES) as Ht by (unfold t, MIGRATE_PCPTYPES, MIGRATE_MOVABLE in *; destruct (Z.leb_spec 3 mt); lia). clearbody t.
  set (l := if cold then _ else _). assert (l ≡ₚ p :: pcp_lists c t) as El by (unfold l; destruct cold; solve_Permutation). clearbody l.
  set (c1 := set_pcp_list t l c). assert (pcp_all c1 ≡ₚ p :: pcp_all c) as E1 by (by apply pcp_give).
  assert (held z1 c1 bs M 0) as H1.
  { eapply held_list; [apply held_update; [exact H|done|by intros]|done|]. intros pg'. unfold z1. cbn [mem_map set_mem_map]. rewrite lookup_alter_eq, Epg. cbn. intros [= <-]. cbn.
    split; [apply (Hu p pg); [by apply single_block|done]|done]. }
  assert (frame bs z z1) as F1 by (intros x Hx; unfold z1; cbn [mem_map set_mem_map]; apply lookup_alter_ne; intros ->; destruct (once_head _ _ _ _ _ _ _ x H) as [N _]; [by apply single_block|done]).
  assert (held z1 (add_pcp_count 1 c1) bs M 0) as H2 by (destruct H1; by split). pose proof (held_length _ _ _ _ _ H1) as Hb.
  assert (pcp_count (add_pcp_count 1 c1) = len (pcp_all c1)) as Ec by (rewrite E1 in *; cbn in *; rewrite Lc, swrap_id; unfold in_s; lia).
  clearbody z1. destruct (Z.leb_spec (high (add_pcp_count 1 c1)) (pcp_count (add_pcp_count 1 c1))) as [Hle|Hgt].
  2: { exists z1, (add_pcp_count 1 c1). by split_and!. }
  destruct (free_pcppages_bulk_spec _ _ _ z1 (add_pcp_count 1 c1) (batch (add_pcp_count 1 c1)) bs M H2) as (z2 & c2 & E & H3 & Hl & F2 & S1 & S2 & S3).
  { rewrite Ec in Hle. cbn in *. rewrite E1 in *. cbn in *. lia. }
  rewrite E. cbn [res_bind]. exists z2, (add_pcp_count (- batch c2) c2). split; [done|]. split; [destruct H3; by split|]. split; [|intros x Hx; by rewrite F2, F1].
  change (pcp_all (add_pcp_count 1 c1)) with (pcp_all c1) in Hl. change (batch (add_pcp_count 1 c1)) with (batch c) in *. change (high (add_pcp_count 1 c1)) with (high c) in *.
  split; cbn [add_pcp_count pcp_count batch high]; [|by rewrite S1, S2].
  change (pcp_all (add_pcp_count (- batch c2) c2)) with (pcp_all c2). rewrite swrap_id; unfold in_s; lia.
Qed.
Lemma drain_pages_spec (z : zone) (c : per_cpu_pages) (bs : list (Z * Z)) (M : Z -> Prop) : held z c bs M 0 -> limits c ->
  exists z' c', drain_pages (z, c) = Ret (z', c') /\ held z' c' bs M 0 /\ limits c' /\ frame bs z z' /\ pcp_all c' = [].
Proof.
  intros H [Lc Lb]. unfold drain_pages. cbn [fst snd]. rewrite Lc. destruct (free_pcppages_bulk_spec _ _ _ z c (len (pcp_all c)) bs M H) as (z' & c' & -> & H' & Hl & HF & S1 & S2 & S3); [lia|].
  cbn [res_bind]. assert (pcp_all c' = []) as E by (apply nil_length_inv; lia). eexists z', _. split; [done|]. split; [destruct H'; by split|]. split; [|done].
  split; [change (0 = len (pcp_all c')); by rewrite E|cbn; by rewrite S1, S2].
Qed.

(** *** Allocation *)

Definition none_left (z : zone) (o : Z) : Prop := forall o' t, o <= o' -> free_list z o' t = [].
(** A block of the zone, or none is left. *)
Lemma rmqueue_outs (z : zone) (o mt : Z) (bs : list (Z * Z)) (M : Z -> Prop) (d : Z) : outs z bs M d -> 0 <= o < MAX_ORDER -> 0 <= mt < MIGRATE_PCPTYPES ->
  exists r z', __rmqueue dis z o mt = Ret (r, z') /\
    match r with
    | Some p => outs z' ((p, o) :: bs) M (d - 2 ^ o) /\ unused (mem_map z') p o /\ frame bs z z' /\ nr_free_pages z' = nr_free_pages z
    | None => z' = z /\ none_left z o
    end.
Proof.
  intros HO Ho Hmt. destruct (rmqueue_spec zid zs ze dis z o mt (o_good _ _ _ _ _ _ _ HO) Ho) as (r & z' & E & H); [unfold MIGRATE_PCPTYPES, MIGRATE_RESERVE in *; lia|].
  exists r, z'. split; [done|]. destruct r as [p|]; [|done]. by apply (outs_take _ _ _ z).
Qed.
Lemma frame_app (a b : list (Z * Z)) (z z' : zone) : frame (a ++ b) z z' -> frame a z z' /\ frame b z z'.
Proof. intros H. split; intros x Hx; apply H; rewrite pages_of_app; set_solver. Qed.
Lemma bulk_loop_spec (n : nat) (z : zone) (mt : Z) (bs : list (Z * Z)) (M : Z -> Prop) (d : Z) : outs z bs M d -> 0 <= mt < MIGRATE_PCPTYPES ->
  exists ps z', bulk_loop dis n z 0 mt = Ret (ps, z') /\ outs z' (singles ps ++ bs) M (d - len ps) /\ (forall x, x ∈ ps -> idle z' x) /\ frame bs z z' /\
    nr_free_pages z' = nr_free_pages z /\ (n <> O -> ps = [] -> z' = z /\ none_left z 0).
Proof.
  intros HO Hmt. revert z bs d HO. induction n as [|n IH]; intros z bs d HO; cbn [bulk_loop].
  { exists [], z. cbn. rewrite Z.sub_0_r. split_and!; [done|done|by intros x ?%elem_of_nil|done|done|done]. }
  destruct (rmqueue_outs z 0 mt bs M d HO ltac:(unfold MAX_ORDER; lia) Hmt) as (r & z1 & -> & H). cbn [res_bind]. destruct r as [p|].
  2: { destruct H as [-> H]. exists [], z. cbn. rewrite Z.sub_0_r. split_and!; [done|done|by intros x ?%elem_of_nil|done|done|done]. }
  destruct H as (O1 & Hu & F1 & N1). assert (p ∈ pages_of ((p, 0) :: bs)) as Hp by (rewrite pages_of_cons; apply elem_of_app; left; by apply elem_pages, single_block).
  destruct (outs_page _ _ _ _ _ _ _ p O1 Hp) as (_ & pg & Epg). rewrite (set_page_private_eq p mt z1 pg Epg). cbn [res_bind]. set (z2 := set_mem_map _ z1).
  assert (outs z2 ((p, 0) :: bs) M (d - 1)) as O2 by (by apply outs_update). destruct (IH z2 _ _ O2) as (ps & z3 & E & O3 & Hi & F3 & N3 & _). rewrite E. cbn [res_bind].
  exists (p :: ps), z3. split; [done|]. assert (p ∉ pages_of bs) as Hn.
  { pose proof (o_once _ _ _ _ _ _ _ O1) as HN. rewrite pages_of_cons in HN. apply NoDup_app in HN as (_ & HN & _). apply HN. by apply elem_pages, single_block. }
  split; [eapply outs_perm; [|replace (d - len (p :: ps)) with (d - 1 - len ps) by (cbn; lia); exact O3]; unfold singles; cbn; solve_Permutation|]. split; [|split_and!; [|by rewrite N3|done]].
  - intros x [->|Hx]%elem_of_cons; [|by apply Hi]. intros pg'. rewrite F3 by done. unfold z2. cbn [mem_map set_mem_map]. rewrite lookup_alter_eq, Epg. cbn. intros [= <-]. cbn.
    split; [apply (Hu p pg); [by apply single_block|done]|]. unfold MIGRATE_PCPTYPES, MIGRATE_ISOLATE in *. lia.
  - intros x Hx. rewrite F3 by (rewrite pages_of_cons; set_solver). unfold z2. cbn [mem_map set_mem_map]. rewrite lookup_alter_ne by (by intros ->). by apply F1.
Qed.
(** The list of the CPU for [mt] is refilled. *)
Lemma refill_spec (z : zone) (c : per_cpu_pages) (mt : Z) (cold : bool) (bs : list (Z * Z)) (M : Z -> Prop) : held z c bs M 0 -> limits c -> 0 <= mt < MIGRATE_PCPTYPES ->
  pcp_lists c mt = [] ->
  exists i l z', rmqueue_bulk dis z 0 (batch c) [] mt cold = Ret (i, l, z') /\ let c' := set_pcp_list mt l (add_pcp_count i c) in
    held z' c' bs M 0 /\ limits c' /\ frame bs z z' /\ (l = [] -> none_left z 0).
Proof.
  intros H [Lc Lb] Hmt El. unfold rmqueue_bulk. destruct (bulk_loop_spec (Z.to_nat (batch c)) z mt _ M 0 (h_outs _ _ _ _ _ _ _ _ H) Hmt) as (ps & z1 & -> & O1 & Hi & F1 & N1 & Hnone).
  cbn [res_bind]. eexists _, _, _. split; [reflexivity|]. rewrite Z.shiftl_0_r. set (l := if cold then _ else _). set (c' := set_pcp_list _ _ _). cbn zeta.
  apply frame_app in F1 as [F0 F1].
  assert (l ≡ₚ ps) as E by (unfold l; destruct cold; cbn; [apply reverse_Permutation|by rewrite app_nil_r]).
  assert (pcp_all c' ≡ₚ ps ++ pcp_all c) as EP by (pose proof (pcp_all_set mt l (add_pcp_count (len ps) c) Hmt) as HP; cbn [pcp_lists add_pcp_count] in HP; rewrite El in HP; cbn in HP; rewrite <- E; exact HP).
  assert (held (mod_free_pages (- len ps) z1) c' bs M 0) as H'.
  { split.
    - replace 0 with (0 - len ps - - len ps) by lia. apply outs_nr; [eapply outs_perm; [|exact O1]; rewrite EP; unfold singles; rewrite fmap_app; solve_Permutation|].
      pose proof (outs_bound _ _ _ _ _ _ _ (h_outs _ _ _ _ _ _ _ _ H)). pose proof (outs_bound _ _ _ _ _ _ _ O1) as [B _]. rewrite pages_of_app, length_app, pages_singles in B.
      rewrite N1. unfold in_s. lia.
    - intros x. rewrite EP. intros [Hx|Hx]%elem_of_app; [by apply Hi|]. intros pg. cbn [mem_map mod_free_pages]. rewrite F0 by (by rewrite pages_singles). by apply H. }
  split; [done|]. pose proof (held_length _ _ _ _ _ H') as Hl. split; [|split; [done|]].
  - split; [|done]. change (pcp_count c') with (s32 (pcp_count c + len ps)). rewrite EP, length_app in *. rewrite swrap_id; unfold in_s; lia.
  - intros El'. rewrite El' in E. apply Permutation_nil in E. destruct Hnone; [lia|done|]. done.
Qed.
Lemma head_tail (l : list Z) (cold : bool) : l <> [] -> exists x, (if cold then last l else head l) = Some x /\ l ≡ₚ x :: (if cold then removelast l else tail l).
Proof.
  destruct cold; [|destruct l as [|x l]; [done|]; intros _; by exists x]. intros Hne. destruct (last_removelast l Hne) as (x & E1 & E2). exists x. split; [done|]. rewrite E2 at 1. solve_Permutation.
Qed.
Lemma take_page_spec (z : zone) (c : per_cpu_pages) (o mt : Z) (cold : bool) (bs : list (Z * Z)) (M : Z -> Prop) : held z c bs M 0 -> limits c -> 0 <= o < MAX_ORDER ->
  0 <= mt < MIGRATE_PCPTYPES -> exists r z' c', take_page dis (z, c) o mt cold = Ret (r, (z', c')) /\ limits c' /\ frame bs z z' /\
    match r with Some p => held z' c' ((p, o) :: bs) M 0 /\ unused (mem_map z') p o | None => held z' c' bs M 0 /\ none_left z o end.
Proof.
  intros H L Ho Hmt. unfold take_page. destruct (Z.eqb_spec o 0) as [->|No].
  - unfold pcp_index. replace (_ && _) with true by (symmetry; apply andb_true_iff; rewrite Z.leb_le, Z.ltb_lt; lia). cbn [negb BUG_ON res_bind].
    assert (exists z1 c1, match pcp_lists c mt with
        | [] => let! (r, z) := rmqueue_bulk dis z 0 (batch c) [] mt cold in let '(i, l) := r in Ret (set_pcp_list mt l (add_pcp_count i c), z)
        | _ => Ret (c, z) end = Ret (c1, z1) /\ held z1 c1 bs M 0 /\ limits c1 /\ frame bs z z1 /\ (pcp_lists c1 mt = [] -> none_left z 0)) as (z1 & c1 & -> & H1 & L1 & F1 & Hn).
    { destruct (pcp_lists c mt) eqn:El; [|exists z, c; split_and!; [done..|congruence]].
      destruct (refill_spec z c mt cold bs M H L Hmt El) as (i & l & z1 & -> & H1 & L1 & F1 & Hn). cbn [res_bind]. eexists z1, _. split; [done|]. split_and!; try done.
      cbn [set_pcp_list pcp_lists]. by rewrite Z.eqb_refl. }
    cbn [res_bind]. destruct (pcp_lists c1 mt) as [|x0 l0] eqn:El; [exists None, z1, c1; split_and!; try done; by apply Hn|]. rewrite <- El in *.
    destruct (head_tail (pcp_lists c1 mt) cold ltac:(by rewrite El)) as (x & -> & EP). cbn [deref res_bind]. eexists (Some x), z1, _. split; [reflexivity|].
    set (l := if cold then removelast _ else _) in *. clearbody l. pose proof (pcp_take mt x l c1 Hmt EP) as Ea. destruct (held_unlist z1 c1 (set_pcp_list mt l c1) x bs M 0 H1 Ea) as [H2 Hi].
    split; [|split; [done|split; [destruct H2; by split|intros y pg ->%single_block Ey; by apply Hi]]]. destruct L1 as [Lc Lb]. pose proof (held_length _ _ _ _ _ H1) as Hl.
    split; [|done]. change (s32 (pcp_count c1 + -1) = len (pcp_all (set_pcp_list mt l c1))). rewrite Lc, Ea in *. cbn in *. rewrite swrap_id; unfold in_s; lia.
  - destruct (rmqueue_outs z o mt _ M 0 (h_outs _ _ _ _ _ _ _ _ H) Ho Hmt) as (r & z1 & -> & Hr). cbn [res_bind]. destruct r as [p|].
    2: { destruct Hr as [-> Hr]. exists None, z, c. by split_and!. }
    destruct Hr as (O1 & Hu & F1 & N1). apply frame_app in F1 as [F0 F1]. rewrite Z.shiftl_1_l. eexists (Some p), _, c. split; [reflexivity|]. split; [done|]. split; [done|]. split; [|done].
    unfold MAX_ORDER in Ho. pose proof (pow2_le o 11 ltac:(lia)) as Hle. change (2 ^ 11) with 2048 in Hle. pose proof (pow2_gt0 o ltac:(lia)).
    split; [|intros x Hx pg; cbn [mem_map mod_free_pages]; rewrite F0 by (by rewrite pages_singles); by apply H]. replace 0 with (0 - 2 ^ o - - 2 ^ o) by lia.
    apply outs_nr; [eapply outs_perm; [|exact O1]; solve_Permutation|]. rewrite N1. pose proof (outs_bound _ _ _ _ _ _ _ (h_outs _ _ _ _ _ _ _ _ H)). unfold in_s. lia.
Qed.

(** The first page of a block in use counts its references. *)
Definition used (m : gmap Z page) (p o r : Z) : Prop := forall x pg, in_block x p o -> m !! x = Some pg -> _count pg = if x =? p then r else 0.
Lemma held_page (z : zone) (c : per_cpu_pages) (p o : Z) (bs : list (Z * Z)) (M : Z -> Prop) (d : Z) : held z c ((p, o) :: bs) M d ->
  block_ok p o /\ in_block p p o /\ p ∈ pages_of ((p, o) :: bs) /\ exists pg, mem_map z !! p = Some pg.
Proof.
  intros H. pose proof (held_head _ _ _ _ _ _ H) as HO. pose proof (o_ok _ _ _ _ _ _ _ HO) as Hok. apply Forall_cons in Hok as [Hok _]. cbn in Hok. split; [done|].
  assert (in_block p p o) as Hb by (apply in_block_start; destruct Hok; lia). split; [done|]. assert (p ∈ pages_of ((p, o) :: bs)) as Hp by (rewrite pages_of_cons; apply elem_of_app; left; by apply elem_pages).
  split; [done|]. destruct (outs_page _ _ _ _ _ _ _ p (h_outs _ _ _ _ _ _ _ _ H)) as (_ & pg & E); [rewrite pages_of_app; set_solver|]. by exists pg.
Qed.
(** The count of the first page of a block is set. *)
Lemma set_count_spec (z : zone) (c : per_cpu_pages) (p o r r' : Z) (bs : list (Z * Z)) (M : Z -> Prop) (d : Z) : held z c ((p, o) :: bs) M d -> used (mem_map z) p o r ->
  exists z', set_page_count p r' z = Ret z' /\ held z' c ((p, o) :: bs) M d /\ used (mem_map z') p o r' /\ frame bs z z'.
Proof.
  intros H Hu. destruct (held_page _ _ _ _ _ _ _ H) as (Hok & Hb & Hp & pg & E). rewrite (set_page_count_eq p r' z pg E). eexists. split; [reflexivity|]. split; [by apply held_update|].
  cbn [mem_map set_mem_map]. split.
  - intros x pg' Hx. destruct (Z.eqb_spec x p) as [->|N]; [rewrite lookup_alter_eq, E; cbn; by intros [= <-]|]. rewrite lookup_alter_ne by done. intros E'.
    rewrite (Hu x pg' Hx E'). by rewrite (proj2 (Z.eqb_neq x p) N).
  - intros x Hx. cbn [mem_map set_mem_map]. apply lookup_alter_ne. intros ->. by destruct (once_head _ _ _ _ _ _ _ x H Hb) as [N _].
Qed.
Lemma used_unused (m : gmap Z page) (p o : Z) : used m p o 0 <-> unused m p o.
Proof. split; intros H x pg Hx E; [rewrite (H x pg Hx E)|rewrite (H x pg Hx E)]; by destruct (x =? p). Qed.

Lemma prep_new_page_spec (z : zone) (c : per_cpu_pages) (p o : Z) (bs : list (Z * Z)) (M : Z -> Prop) (d : Z) : held z c ((p, o) :: bs) M d -> unused (mem_map z) p o ->
  exists z', prep_new_page p o z = Ret (false, z') /\ held z' c ((p, o) :: bs) M d /\ used (mem_map z') p o 1 /\ frame bs z z'.
Proof.
  intros H Hu. destruct (held_page _ _ _ _ _ _ _ H) as (Hok & Hb & Hp & pg & E). unfold prep_new_page.
  rewrite (check_new_pages_ok _ _ _ (counted_block z p o _ _ _ (held_head _ _ _ _ _ _ H) ltac:(set_solver) Hu)). cbn [res_bind].
  rewrite (set_page_private_eq p 0 z pg E). cbn [res_bind]. set (z1 := set_mem_map _ z).
  assert (held z1 c ((p, o) :: bs) M d) as H1 by (by apply held_update).
  assert (unused (mem_map z1) p o) as U1.
  { intros x pg' Hx. unfold z1. cbn [mem_map set_mem_map]. destruct (decide (x = p)) as [->|N]; [rewrite lookup_alter_eq, E; cbn; intros [= <-]; by apply (Hu p pg)|].
    rewrite lookup_alter_ne by done. by apply Hu. }
  destruct (set_count_spec z1 c p o 0 1 bs M d H1 ltac:(by apply used_unused)) as (z2 & E2 & H2 & U2 & F2). unfold set_page_refcounted.
  destruct (held_page _ _ _ _ _ _ _ H1) as (_ & _ & _ & pg1 & E1). rewrite E1. cbn [deref res_bind]. rewrite (U1 p pg1 Hb E1). cbn [Z.eqb negb BUG_ON res_bind]. rewrite E2. cbn [res_bind].
  exists z2. split_and!; [done..|]. intros x Hx. rewrite F2 by done. unfold z1. cbn [mem_map set_mem_map]. apply lookup_alter_ne. intros ->. by destruct (once_head _ _ _ _ _ _ _ x H Hb) as [N _].
Qed.
Lemma head_in_range (z : zone) (c : per_cpu_pages) (p o : Z) (bs : list (Z * Z)) (M : Z -> Prop) (d : Z) : held z c ((p, o) :: bs) M d -> bad_range p z = Ret false.
Proof.
  intros H. destruct (held_page _ _ _ _ _ _ _ H) as (Hok & _ & _ & pg & E). pose proof (block_zone _ _ _ _ Hok) as Hz. pose proof (o_good _ _ _ _ _ _ _ (h_outs _ _ _ _ _ _ _ _ H)) as [W _ Gi Gs Ge _].
  unfold bad_range. rewrite Gs, Ge, Gi. rewrite (proj2 (Z.leb_gt _ _)), (proj2 (Z.ltb_ge _ _)) by lia. cbn [orb]. rewrite E. cbn [deref res_bind]. rewrite (wf_zone _ _ _ _ _ W p pg Hz E).
  by rewrite Z.eqb_refl.
Qed.
Lemma buffered_rmqueue_spec (z : zone) (c : per_cpu_pages) (o mt : Z) (cold : bool) (bs : list (Z * Z)) (M : Z -> Prop) : held z c bs M 0 -> limits c -> 0 <= o < MAX_ORDER ->
  0 <= mt < MIGRATE_PCPTYPES -> exists r z' c', buffered_rmqueue dis (z, c) o mt cold = Ret (r, (z', c')) /\ limits c' /\ frame bs z z' /\
    match r with Some p => held z' c' ((p, o) :: bs) M 0 /\ used (mem_map z') p o 1 | None => held z' c' bs M 0 /\ none_left z o end.
Proof.
  intros H L Ho Hmt. unfold buffered_rmqueue. cbn [again fst]. destruct (take_page_spec z c o mt cold bs M H L Ho Hmt) as (r & z1 & c1 & -> & L1 & F1 & H1). cbn [res_bind].
  destruct r as [p|]; [|by exists None, z1, c1]. destruct H1 as [H1 U1]. cbn [fst snd]. rewrite (head_in_range _ _ _ _ _ _ _ H1). cbn [res_bind BUG_ON].
  destruct (prep_new_page_spec z1 c1 p o bs M 0 H1 U1) as (z2 & -> & H2 & U2 & F2). cbn [res_bind]. exists (Some p), z2, c1. split; [done|]. split; [done|]. split; [|done]. intros x Hx. by rewrite F2, F1.
Qed.

(** *** References and freeing *)

(** Dropping a reference frees the block with the last one. *)
Lemma free_pages_spec (z : zone) (c : per_cpu_pages) (p o r : Z) (bs : list (Z * Z)) (M : Z -> Prop) : held z c ((p, o) :: bs) M 0 -> limits c -> used (mem_map z) p o r ->
  1 <= r < 2 ^ 31 -> exists z' c', __free_pages p o (z, c) = Ret (z', c') /\ limits c' /\ frame bs z z' /\
    if r =? 1 then held z' c' bs M 0 else held z' c' ((p, o) :: bs) M 0 /\ used (mem_map z') p o (r - 1).
Proof.
  intros H L Hu Hr. destruct (held_page _ _ _ _ _ _ _ H) as (Hok & Hb & Hp & pg & E). unfold __free_pages, put_page_testzero. cbn [fst snd]. rewrite E. cbn [deref res_bind].
  rewrite (Hu p pg Hb E), Z.eqb_refl, (proj2 (Z.eqb_neq r 0)) by lia. cbn [BUG_ON res_bind].
  assert (s32 (r - 1) = r - 1) as -> by (apply swrap_id; [lia|unfold in_s; lia]).
  destruct (set_count_spec z c p o r (r - 1) bs M 0 H Hu) as (z1 & -> & H1 & U1 & F1). cbn [res_bind]. destruct (Z.eqb_spec r 1) as [->|N].
  2: { rewrite (proj2 (Z.eqb_neq (r - 1) 0)) by lia. exists z1, c. by split_and!. }
  cbn [Z.sub Z.eqb Z.add Z.opp Z.pos_sub]. rewrite Z.eqb_refl. apply used_unused in U1. destruct (Z.eqb_spec o 0) as [->|No].
  - destruct (free_hot_cold_page_spec z1 c p false bs M H1 L U1) as (z2 & c2 & E2 & H2 & L2 & F2). exists z2, c2. split; [done|]. split; [done|]. split; [|done]. intros x Hx. by rewrite F2, F1.
  - destruct (free_pages_ok_spec z1 c p o bs M H1 U1) as (z2 & E2 & H2 & F2). exists z2, c. split; [done|]. split; [done|]. split; [|done]. intros x Hx. by rewrite F2, F1.
Qed.
Lemma get_page_spec (z : zone) (c : per_cpu_pages) (p o r : Z) (bs : list (Z * Z)) (M : Z -> Prop) : held z c ((p, o) :: bs) M 0 -> used (mem_map z) p o r ->
  1 <= r < 2 ^ 31 - 1 -> exists z', get_page p z = Ret z' /\ held z' c ((p, o) :: bs) M 0 /\ used (mem_map z') p o (r + 1) /\ frame bs z z'.
Proof.
  intros H Hu Hr. destruct (held_page _ _ _ _ _ _ _ H) as (Hok & Hb & Hp & pg & E). unfold get_page. rewrite E. cbn [deref res_bind].
  rewrite (Hu p pg Hb E), Z.eqb_refl, (proj2 (Z.eqb_neq r 0)) by lia. cbn [BUG_ON res_bind].
  assert (s32 (r + 1) = r + 1) as -> by (apply swrap_id; [lia|unfold in_s; lia]). by apply (set_count_spec z c p o r).
Qed.
(** *** Pages from the boot allocator *)

(** A block that the allocator has not seen. *)
Lemma held_new (z : zone) (c : per_cpu_pages) (p o : Z) (bs : list (Z * Z)) (M : Z -> Prop) (d : Z) : held z c bs M d -> block_ok p o -> (forall x, in_block x p o -> ~ M x) ->
  held z c ((p, o) :: bs) (fun x => M x \/ in_block x p o) d.
Proof.
  intros [[A B C D F N] I] Hok Hx. split; [|done]. eapply outs_perm; [apply Permutation_middle|]. pose proof (fun x Hb HM => Hx x Hb (proj2 (F x) HM)) as Hf. split; try done.
  - by constructor.
  - rewrite pages_of_cons. apply NoDup_app. split_and!; [apply NoDup_seqZ| |done]. intros x Hb%elem_pages Hp. by apply (Hf x Hb); right.
  - intros x. rewrite pages_of_cons, elem_of_app, elem_pages. intros [Hb|Hp]; [|by apply D]. intros Hc. by apply (Hf x Hb); left.
  - intros x. rewrite pages_of_cons, elem_of_app, elem_pages, F. tauto.
Qed.
Lemma clear_counts_spec (n : nat) (z : zone) (c : per_cpu_pages) (q p o : Z) (bs : list (Z * Z)) (M : Z -> Prop) (d : Z) : held z c ((p, o) :: bs) M d ->
  (forall x, q <= x < q + Z.of_nat n -> in_block x p o) ->
  exists z', clear_counts n q z = Ret z' /\ held z' c ((p, o) :: bs) M d /\ frame bs z z' /\
    forall x pg, mem_map z' !! x = Some pg -> q <= x < q + Z.of_nat n \/ _count <$> mem_map z !! x = Some 0 -> _count pg = 0.
Proof.
  revert q z. induction n as [|n IH]; intros q z H Hq; cbn [clear_counts].
  { exists z. split; [done|]. split; [done|]. split; [done|]. intros x pg E [?|H0]; [lia|]. rewrite E in H0. by injection H0. }
  assert (in_block q p o) as Hb by (apply Hq; lia). assert (q ∈ pages_of ((p, o) :: bs)) as Hp by (rewrite pages_of_cons; apply elem_of_app; left; by apply elem_pages).
  destruct (outs_page _ _ _ _ _ _ _ q (h_outs _ _ _ _ _ _ _ _ H)) as (_ & pg0 & E0); [rewrite pages_of_app; set_solver|].
  rewrite (set_page_count_eq q 0 z pg0 E0). cbn [res_bind]. set (z1 := set_mem_map _ z). assert (held z1 c ((p, o) :: bs) M d) as H1 by (by apply held_update).
  destruct (IH (q + 1) z1 H1) as (z2 & -> & H2 & F2 & Hc); [intros x Hx; apply Hq; lia|]. exists z2. split; [done|]. split; [done|]. split.
  - intros x Hx. rewrite F2 by done. unfold z1. cbn [mem_map set_mem_map]. apply lookup_alter_ne. intros ->. by destruct (once_head _ _ _ _ _ _ _ x H Hb) as [N _].
  - intros x pg E Hx. apply (Hc x pg E). unfold z1. cbn [mem_map set_mem_map]. destruct (decide (x = q)) as [->|N]; [right; by rewrite lookup_alter_eq, E0|].
    rewrite lookup_alter_ne by done. destruct Hx as [?|?]; [left; lia|by right].
Qed.
Lemma free_pages_bootmem_spec (z : zone) (c : per_cpu_pages) (p o : Z) (bs : list (Z * Z)) (M : Z -> Prop) : held z c bs M 0 -> limits c -> o = 0 \/ o = 6 -> block_ok p o ->
  (forall x, in_block x p o -> ~ M x) ->
  exists z' c', __free_pages_bootmem p o (z, c) = Ret (z', c') /\ held z' c' bs (fun x => M x \/ in_block x p o) 0 /\ limits c' /\ frame bs z z'.
Proof.
  intros H L Ho Hok Hx. pose proof (held_new z c p o bs M 0 H Hok Hx) as H0. unfold __free_pages_bootmem. cbn [fst snd].
  set (n := if o =? 0 then 1%nat else 64%nat). assert (Z.of_nat n = 2 ^ o) as Hn by (by destruct Ho as [-> | ->]).
  destruct (clear_counts_spec n z c p p o bs _ 0 H0) as (z1 & -> & H1 & F1 & Hc); [intros x; by rewrite Hn|]. cbn [res_bind].
  assert (used (mem_map z1) p o 0) as U1 by (apply used_unused; intros x pg Hb E; apply (Hc x pg E); left; by rewrite Hn).
  destruct (set_count_spec z1 c p o 0 1 bs _ 0 H1 U1) as (z2 & E2 & H2 & U2 & F2). destruct (held_page _ _ _ _ _ _ _ H1) as (_ & Hb & _ & pg & E). unfold set_page_refcounted.
  rewrite E. cbn [deref res_bind]. rewrite (U1 p pg Hb E), Z.eqb_refl. cbn [Z.eqb negb BUG_ON res_bind]. rewrite E2. cbn [res_bind].
  destruct (free_pages_spec z2 c p o 1 bs _ H2 L U2) as (z3 & c3 & E3 & L3 & F3 & H3); [lia|]. rewrite Z.eqb_refl in H3. exists z3, c3. split_and!; [done..|].
  intros x Hb'. by rewrite F3, F2, F1.
Qed.
End Zone.
