(* ===== verification/BuddySpec.v ===== *)
(** * The page allocator implements an allocator of aligned blocks

    The abstract allocator owns a set of pages and knows the blocks of its clients with their references.  Every
    operation of mm/page_alloc.c gives an answer that the abstract allocator allows, never faults, and loses no
    page; after the lists of the CPU are drained an allocation fails only when no aligned run of pages is free. *)
From S2P Require Import Prelude Buddy BuddyInv BuddyOps BuddyAlloc BuddyPcp BuddyClients.

(** ** The abstract allocator *)

(** The pages that were handed over at boot, and for the first page of each block in use its order and references. *)
Record clients := Clients { owned : gset Z; live : gmap Z (Z * Z) }.
Inductive op :=
  | Boot (p order : Z)
  | Alloc (order mt : Z) (cold : bool)
  | Get (p : Z)
  | Put (p order : Z)
  | Drain.

Definition in_use (cl : clients) (x : Z) : Prop := exists p o r, live cl !! p = Some (o, r) /\ in_block x p o.
(** An aligned run of pages that no client uses. *)
Definition free_for (cl : clients) (p o : Z) : Prop := aligned p o /\ forall x, in_block x p o -> x ∈ owned cl /\ ~ in_use cl x.
(** What an answer may be. *)
Definition legal (cl : clients) (a : op) (r : option Z) : Prop :=
  match a, r with
  | Alloc o _ _, Some p => free_for cl p o
  | _, r => r = None
  end.
Definition after (cl : clients) (a : op) (r : option Z) : clients :=
  match a, r with
  | Boot p o, _ => Clients (owned cl ∪ list_to_set (pages (p, o))) (live cl)
  | Alloc o _ _, Some p => Clients (owned cl) (<[p := (o, 1)]> (live cl))
  | Get p, _ => Clients (owned cl) (alter (fun b => (fst b, snd b + 1)) p (live cl))
  | Put p _, _ =>
      match live cl !! p with
      | Some (o, r) => Clients (owned cl) (if r =? 1 then delete p (live cl) else <[p := (o, r - 1)]> (live cl))
      | None => cl
      end
  | _, _ => cl
  end.
Definition blocks (cl : clients) : list (Z * Z) := map_to_list (fst <$> live cl).
Definition used_pages (cl : clients) : Z := foldr (fun b n => 2 ^ snd b + n) 0 (blocks cl).

Lemma in_use_pages (cl : clients) (x : Z) : in_use cl x <-> x ∈ pages_of (blocks cl).
Proof.
  unfold in_use, pages_of, blocks. rewrite list_elem_of_bind. split.
  - intros (p & o & r & E & Hx). exists (p, o). rewrite elem_pages. split; [done|]. apply elem_of_map_to_list. by rewrite lookup_fmap, E.
  - intros ([p o] & Hx%elem_pages & H%elem_of_map_to_list). rewrite lookup_fmap in H. destruct (live cl !! p) as [[o' r]|] eqn:E; [|done]. injection H as ->. by exists p, o, r.
Qed.
Definition without (p : Z) (cl : clients) : clients := Clients (owned cl) (delete p (live cl)).
Lemma blocks_at (p o r : Z) (cl : clients) : live cl !! p = Some (o, r) -> blocks cl ≡ₚ (p, o) :: blocks (without p cl).
Proof.
  intros E. unfold blocks. cbn [without live]. rewrite fmap_delete. symmetry. apply map_to_list_delete. by rewrite lookup_fmap, E.
Qed.
Lemma blocks_new (p o r : Z) (w : gset Z) (l : gmap Z (Z * Z)) : l !! p = None -> blocks (Clients w (<[p := (o, r)]> l)) ≡ₚ (p, o) :: blocks (Clients w l).
Proof. intros E. unfold blocks. cbn [live]. rewrite fmap_insert. apply map_to_list_insert. by rewrite lookup_fmap, E. Qed.
Lemma blocks_set (p o r r' : Z) (cl : clients) : live cl !! p = Some (o, r) ->
  blocks (Clients (owned cl) (<[p := (o, r')]> (live cl))) ≡ₚ (p, o) :: blocks (without p cl).
Proof. intros E. rewrite <- (insert_delete_eq (live cl)). apply blocks_new. apply lookup_delete_eq. Qed.
Lemma blocks_live (p o r : Z) (cl : clients) : live cl !! p = Some (o, r) -> (p, o) ∈ blocks cl.
Proof. intros E. apply elem_of_map_to_list. by rewrite lookup_fmap, E. Qed.
Lemma frame_used (bs : list (Z * Z)) (z z' : zone) (p o r : Z) : frame bs z z' -> (p, o) ∈ bs -> used (mem_map z) p o r -> used (mem_map z') p o r.
Proof. intros F Hp U x pg Hx. rewrite F; [by apply U|]. apply list_elem_of_bind. exists (p, o). by rewrite elem_pages. Qed.

(** ** The operations of the code *)

Section Spec.
Variables zid zs ze : Z.
Variable dis : bool.
#[local] Notation block_ok := (block_ok zs ze).
#[local] Notation held := (held zid zs ze).

Definition exec (a : op) (s : allocator) : res (option Z * allocator) :=
  match a with
  | Boot p o => let! s := __free_pages_bootmem p o s in Ret (None, s)
  | Alloc o mt cold => buffered_rmqueue dis s o mt cold
  | Get p => let! z := get_page p (fst s) in Ret (None, (z, snd s))
  | Put p o => let! s := __free_pages p o s in Ret (None, s)
  | Drain => let! s := drain_pages s in Ret (None, s)
  end.
(** What callers keep to: blocks from the boot allocator are new, and references are dropped with the order of the block. *)
Definition allowed (cl : clients) (a : op) : Prop :=
  match a with
  | Boot p o => (o = 0 \/ o = 6) /\ block_ok p o /\ forall x, in_block x p o -> x ∉ owned cl
  | Alloc o mt _ => 0 <= o < MAX_ORDER /\ 0 <= mt < MIGRATE_PCPTYPES
  | Get p => exists o r, live cl !! p = Some (o, r) /\ r < 2 ^ 31 - 1
  | Put p o => exists r, live cl !! p = Some (o, r)
  | Drain => True
  end.
(** A zone whose pages are all still with the boot allocator. *)
Record fresh (z : zone) : Prop := Fresh {
  f_range : 0 <= zs /\ ze < 2 ^ 31;
  f_spans : spans zs ze (mem_map z);
  f_zone : forall x pg, zs <= x < ze -> mem_map z !! x = Some pg -> page_zone pg = zid;
  f_marks : forall x pg, mem_map z !! x = Some pg -> PageBuddy pg = false;
  f_lists : forall o t, free_list z o t = [];
  f_counts : forall o, nr_free z o = 0;
  f_pages : nr_free_pages z = 0;
  f_id : zone_id z = zid;
  f_bounds : zone_start_pfn z = zs /\ zs + spanned_pages z = ze;
  f_types : forall x, zs <= x < ze -> 0 <= get_pageblock_migratetype x z < MIGRATE_ISOLATE }.
(** The states that callers can bring about. *)
Inductive reach : clients -> allocator -> Prop :=
  | reach_boot (z : zone) (n : Z) : fresh z -> 0 <= n < 2 ^ 28 -> reach (Clients ∅ ∅) (z, setup_pageset n)
  | reach_step (cl : clients) (s s' : allocator) (a : op) (r : option Z) :
      reach cl s -> allowed cl a -> exec a s = Ret (r, s') -> reach (after cl a r) s'.

(** *** The invariant *)

Record sound (cl : clients) (s : allocator) : Prop := Sound {
  s_held : held (fst s) (snd s) (blocks cl) (fun x => x ∈ owned cl) 0;
  s_used : forall p o r, live cl !! p = Some (o, r) -> 1 <= r < 2 ^ 31 /\ used (mem_map (fst s)) p o r;
  s_limits : limits (snd s) }.

(** The blocks of other clients keep their counts. *)
Lemma others_used (cl : clients) (s : allocator) (z' : zone) (p : Z) : sound cl s -> frame (blocks (without p cl)) (fst s) z' ->
  forall q o r, q <> p -> live cl !! q = Some (o, r) -> 1 <= r < 2 ^ 31 /\ used (mem_map z') q o r.
Proof.
  intros [_ U _] F q o r N E. destruct (U q o r E) as [Hr Hu]. split; [done|]. eapply frame_used; [exact F| |done]. apply (blocks_live q o r). cbn. by rewrite lookup_delete_ne.
Qed.
Lemma all_used (cl : clients) (s : allocator) (z' : zone) : sound cl s -> frame (blocks cl) (fst s) z' ->
  forall q o r, live cl !! q = Some (o, r) -> 1 <= r < 2 ^ 31 /\ used (mem_map z') q o r.
Proof. intros [_ U _] F q o r E. destruct (U q o r E) as [Hr Hu]. split; [done|]. eapply frame_used; [exact F| |done]. by eapply blocks_live. Qed.
Lemma held_pages (z : zone) (c : per_cpu_pages) (bs : list (Z * Z)) (M M' : Z -> Prop) (d : Z) : held z c bs M d -> (forall x, M x <-> M' x) -> held z c bs M' d.
Proof. intros [[A B C D F N] I] E. split; [|done]. split; try done. intros x. by rewrite <- E. Qed.

Lemma boot_step (cl : clients) (s : allocator) (p o : Z) : sound cl s -> allowed cl (Boot p o) ->
  exists s', exec (Boot p o) s = Ret (None, s') /\ sound (after cl (Boot p o) None) s'.
Proof.
  intros S (Ho & Hok & Hx). destruct s as [z c]. pose proof S as [H U L]. cbn [fst snd] in *.
  destruct (free_pages_bootmem_spec zid zs ze z c p o _ _ H L Ho Hok Hx) as (z' & c' & E & H' & L' & F). cbn [exec]. rewrite E. eexists. split; [reflexivity|]. cbn [after].
  split; cbn [fst snd live owned]; [|by apply (all_used cl (z, c))|done]. eapply held_pages; [exact H'|]. intros x. rewrite elem_of_union, elem_of_list_to_set, elem_pages. done.
Qed.
Lemma alloc_step (cl : clients) (s : allocator) (o mt : Z) (cold : bool) : sound cl s -> allowed cl (Alloc o mt cold) ->
  exists r s', exec (Alloc o mt cold) s = Ret (r, s') /\ legal cl (Alloc o mt cold) r /\ sound (after cl (Alloc o mt cold) r) s' /\ (r = None -> none_left (fst s) o).
Proof.
  intros S (Ho & Hmt). destruct s as [z c]. pose proof S as [H U L]. cbn [fst snd] in *.
  destruct (buffered_rmqueue_spec zid zs ze dis z c o mt cold _ _ H L Ho Hmt) as (r & z' & c' & E & L' & F & Hr). cbn [exec]. exists r, (z', c'). split; [done|].
  destruct r as [p|]; cbn [after legal]; [|destruct Hr as [Hr Hn]; split; [done|]; split; [|done]; split; cbn [fst snd]; [done|by apply (all_used cl (z, c))|done]].
  destruct Hr as [H' U']. destruct (held_page _ _ _ _ _ _ _ _ _ _ H') as (Hok & Hb & _). pose proof Hok as (_ & Ha & _).
  assert (forall x, in_block x p o -> x ∈ owned cl /\ ~ in_use cl x) as Hfree.
  { intros x Hx. rewrite in_use_pages. split; [|by apply (once_head _ _ _ _ _ _ _ _ _ _ x H' Hx)]. apply (o_all _ _ _ _ _ _ _ (h_outs _ _ _ _ _ _ _ _ H')). right.
    rewrite pages_of_app, pages_of_cons, !elem_of_app. right. left. by apply elem_pages. }
  split; [by split|]. split; [|done]. assert (live cl !! p = None) as Ep.
  { destruct (live cl !! p) as [[o' r]|] eqn:Ep; [|done]. exfalso. apply (Hfree p Hb). exists p, o', r. split; [done|]. apply in_block_start.
    pose proof (o_ok _ _ _ _ _ _ _ (h_outs _ _ _ _ _ _ _ _ H)) as Hall. rewrite Forall_forall in Hall. destruct (Hall (p, o')) as (Ho' & _); [apply elem_of_app; right; by eapply blocks_live|].
    cbn in Ho'. lia. }
  split; cbn [fst snd live owned]; [|intros q o' r Hq|done].
  - eapply held_perm; [|exact H']. symmetry. destruct cl. by apply blocks_new.
  - destruct (decide (q = p)) as [->|N]; [rewrite lookup_insert_eq in Hq; injection Hq as <- <-; split; [lia|done]|].
    rewrite lookup_insert_ne in Hq by done. by apply (all_used cl (z, c)).
Qed.
Lemma get_step (cl : clients) (s : allocator) (p : Z) : sound cl s -> allowed cl (Get p) -> exists s', exec (Get p) s = Ret (None, s') /\ sound (after cl (Get p) None) s'.
Proof.
  intros S (o & r & E & Hr). destruct s as [z c]. pose proof S as [H U L]. cbn [fst snd] in *. destruct (U _ _ _ E) as [Hr' Hu].
  destruct (get_page_spec zid zs ze z c p o r (blocks (without p cl)) (fun x => x ∈ owned cl)) as (z' & E' & H' & U' & F); [eapply held_perm; [|exact H]; by eapply blocks_at|done|lia|].
  cbn [exec fst snd]. rewrite E'. eexists. split; [reflexivity|]. cbn [after].
  assert (alter (fun b => (fst b, snd b + 1)) p (live cl) = <[p := (o, r + 1)]> (live cl)) as -> by (symmetry; by apply (insert_is_alter (fun b : Z * Z => (fst b, snd b + 1)) p (live cl) (o, r))).
  split; cbn [fst snd live owned]; [|intros q o' r'' Hq|done].
  - eapply held_perm; [|exact H']. symmetry. by eapply blocks_set.
  - destruct (decide (q = p)) as [->|N]; [rewrite lookup_insert_eq in Hq; injection Hq as <- <-; split; [lia|done]|].
    rewrite lookup_insert_ne in Hq by done. by apply (others_used cl (z, c) z' p).
Qed.
Lemma put_step (cl : clients) (s : allocator) (p o : Z) : sound cl s -> allowed cl (Put p o) -> exists s', exec (Put p o) s = Ret (None, s') /\ sound (after cl (Put p o) None) s'.
Proof.
  intros S (r & E). destruct s as [z c]. pose proof S as [H U L]. cbn [fst snd] in *. destruct (U _ _ _ E) as [Hr Hu].
  destruct (free_pages_spec zid zs ze z c p o r (blocks (without p cl)) (fun x => x ∈ owned cl)) as (z' & c' & E' & L' & F & H');
    [eapply held_perm; [|exact H]; by eapply blocks_at|done|done|done|].
  cbn [exec]. rewrite E'. eexists. split; [reflexivity|]. cbn [after]. rewrite E. destruct (Z.eqb_spec r 1) as [->|N1].
  - split; cbn [fst snd live owned]; [done|intros q o' r' Hq|done]. destruct (decide (q = p)) as [->|N]; [by rewrite lookup_delete_eq in Hq|].
    rewrite lookup_delete_ne in Hq by done. by apply (others_used cl (z, c) z' p).
  - destruct H' as [H' U']. split; cbn [fst snd live owned]; [|intros q o' r' Hq|done].
    + eapply held_perm; [|exact H']. symmetry. by eapply blocks_set.
    + destruct (decide (q = p)) as [->|N]; [rewrite lookup_insert_eq in Hq; injection Hq as <- <-; split; [lia|done]|].
      rewrite lookup_insert_ne in Hq by done. by apply (others_used cl (z, c) z' p).
Qed.
Lemma drain_step (cl : clients) (s : allocator) : sound cl s -> exists s', drain_pages s = Ret s' /\ sound cl s' /\ pcp_all (snd s') = [].
Proof.
  intros S. destruct s as [z c]. pose proof S as [H U L]. cbn [fst snd] in *. destruct (drain_pages_spec zid zs ze z c _ _ H L) as (z' & c' & E & H' & L' & F & Hn).
  exists (z', c'). split; [done|]. split; [|done]. split; [done|by apply (all_used cl (z, c))|done].
Qed.

Lemma fresh_good (z : zone) : fresh z -> good zid zs ze (fun _ => 0) z.
Proof.
  intros [R S Z0 K Fl Fc Fp Fi [Fs Fe] Ft]. assert (forall p o, ~ fb (free_list z) p o) as Hno by (intros p o [mt Hp]; rewrite Fl in Hp; by apply elem_of_nil in Hp).
  split; [|intros o; rewrite Fc; unfold total; by rewrite !Fl|done..]. split; try done.
  - intros p o mt Hp. rewrite Fl in Hp. by apply elem_of_nil in Hp.
  - intros p pg E Hb. by rewrite (K p pg E) in Hb.
  - intros o mt. rewrite Fl. apply NoDup_nil_2.
  - intros p o mt mt' Hp. rewrite Fl in Hp. by apply elem_of_nil in Hp.
  - intros p o q o' Hp. by apply Hno in Hp.
  - intros p o Hp. by apply Hno in Hp.
Qed.
Lemma sound_boot (z : zone) (n : Z) : fresh z -> 0 <= n < 2 ^ 28 -> sound (Clients ∅ ∅) (z, setup_pageset n).
Proof.
  intros Hf Hn. assert (forall x, ~ covered (free_list z) x) as Hc by (intros x (p & o & [mt Hp] & _); rewrite (f_lists z Hf) in Hp; by apply elem_of_nil in Hp).
  split; [|by intros p o r; cbn; rewrite lookup_empty|].
  - split; [|by intros x ?%elem_of_nil]. cbn [fst snd]. change (blocks _) with (@nil (Z * Z)). change (pcp_all _) with (@nil Z). cbn. split; [by apply fresh_good|constructor|constructor|..].
    + by intros x ?%elem_of_nil.
    + intros x. split; [set_solver|]. intros [?%Hc|?%elem_of_nil]; done.
    + exists ∅. split; [intros x; split; [set_solver|by intros ?%Hc]|]. by rewrite (f_pages z Hf).
  - split; cbn; [done|]. rewrite wrap_id by pow_lia. rewrite !swrap_id by pow_lia. lia.
Qed.
Lemma step_sound (cl : clients) (s : allocator) (a : op) : sound cl s -> allowed cl a -> exists r s', exec a s = Ret (r, s') /\ legal cl a r /\ sound (after cl a r) s'.
Proof.
  intros S A. destruct a as [p o|o mt cold|p|p o|].
  - destruct (boot_step cl s p o S A) as (s' & E & S'). by exists None, s'.
  - destruct (alloc_step cl s o mt cold S A) as (r & s' & E & Hl & S' & _). by exists r, s'.
  - destruct (get_step cl s p S A) as (s' & E & S'). by exists None, s'.
  - destruct (put_step cl s p o S A) as (s' & E & S'). by exists None, s'.
  - destruct (drain_step cl s S) as (s' & E & S' & _). exists None, s'. cbn [exec]. by rewrite E.
Qed.
Lemma reach_sound (cl : clients) (s : allocator) : reach cl s -> sound cl s.
Proof.
  induction 1 as [z n Hf Hn|cl s s' a r _ S A E]; [by apply sound_boot|]. destruct (step_sound cl s a S A) as (r' & s2 & E2 & _ & S2). rewrite E in E2. by injection E2 as -> ->.
Qed.

(** *** Conservation *)

Lemma length_pages_of (bs : list (Z * Z)) : Forall (fun b => block_ok (fst b) (snd b)) bs -> len (pages_of bs) = foldr (fun b n => 2 ^ snd b + n) 0 bs.
Proof. induction 1 as [|[p o] bs (Ho & _) _ IH]; [done|]. cbn [fst snd foldr] in *. rewrite pages_of_cons, length_app, Nat2Z.inj_add, IH, length_pages; [done|lia]. Qed.
Lemma held_count (cl : clients) (s : allocator) : sound cl s -> nr_free_pages (fst s) + pcp_count (snd s) + used_pages cl = Z.of_nat (size (owned cl)).
Proof.
  intros [[[A B C D F (f & Hf & Hn)] _] _ [Lc _]]. destruct s as [z c]. cbn [fst snd] in *. rewrite Lc. unfold used_pages. rewrite Forall_app in B. rewrite <- length_pages_of by apply B.
  set (l := pages_of _) in *. assert (owned cl = f ∪ list_to_set l) as -> by (apply set_eq; intros x; rewrite F, elem_of_union, elem_of_list_to_set, Hf; done).
  rewrite size_union by (intros x Hx%Hf Hy%elem_of_list_to_set; by apply (D x)). rewrite size_list_to_set by done. unfold l. rewrite pages_of_app, length_app, pages_singles. lia.
Qed.
Lemma live_apart (cl : clients) (s : allocator) (p o r q o' r' x : Z) : sound cl s -> live cl !! p = Some (o, r) -> live cl !! q = Some (o', r') -> p <> q ->
  in_block x p o -> ~ in_block x q o'.
Proof.
  intros [H _ _] Ep Eq N Hx Hy. assert (held (fst s) (snd s) ((p, o) :: blocks (without p cl)) (fun x => x ∈ owned cl) 0) as H' by (eapply held_perm; [|exact H]; by eapply blocks_at).
  destruct (once_head _ _ _ _ _ _ _ _ _ _ x H' Hx) as [N' _]. apply N'. apply list_elem_of_bind. exists (q, o'). rewrite elem_pages. split; [done|].
  apply (blocks_live q o' r'). cbn. by rewrite lookup_delete_ne.
Qed.

(** When the CPU keeps no page, an aligned run that no client uses is in one free block of the zone. *)
Lemma run_left (cl : clients) (s : allocator) (p o : Z) : sound cl s -> pcp_all (snd s) = [] -> 0 <= o < MAX_ORDER -> free_for cl p o -> ~ none_left (fst s) o.
Proof.
  intros [[[A B C D F N] _] _ _] Hn Ho [Ha Hf] Hnone. rewrite Hn in F. cbn in F.
  destruct (free_run zid zs ze (mem_map (fst s)) (free_list (fst s)) (Z.to_nat o) p) as (q & o' & [mt Hq] & Hle & _); [apply A|lia|by rewrite Z2Nat.id by lia| |].
  - intros x. rewrite Z2Nat.id by lia. intros Hx. destruct (Hf x Hx) as [Hw Hu]. rewrite in_use_pages in Hu. apply F in Hw as [|]; done.
  - rewrite Z2Nat.id in Hle by lia. rewrite (Hnone o' mt Hle) in Hq. by apply elem_of_nil in Hq.
Qed.

(** C35: no page is lost or used twice: NR_FREE_PAGES, the pages that the CPU keeps and the pages of the blocks in use add up to
    the pages that the allocator was given; blocks in use are inside the zone and do not overlap; the number of free blocks
    of each order is the length of its lists, and two buddies are never both free without having been merged. *)
Theorem buddy_conserves (cl : clients) (s : allocator) : reach cl s ->
  nr_free_pages (fst s) + pcp_count (snd s) + used_pages cl = Z.of_nat (size (owned cl)) /\
  (forall p o r, live cl !! p = Some (o, r) -> block_ok p o) /\
  (forall p o r q o' r' x, live cl !! p = Some (o, r) -> live cl !! q = Some (o', r') -> p <> q -> in_block x p o -> ~ in_block x q o') /\
  (forall o, nr_free (fst s) o = u64 (total (free_list (fst s)) o)) /\
  (forall p o, fb (free_list (fst s)) p o -> o < MAX_ORDER - 1 -> ~ fb (free_list (fst s)) (buddy p o) o).
Proof.
  intros S%reach_sound. split; [by apply held_count|]. pose proof (o_good _ _ _ _ _ _ _ (h_outs _ _ _ _ _ _ _ _ (s_held _ _ S))) as G.
  split; [|split; [intros p o r q o' r' x; by apply (live_apart cl s)|split; [|apply (wf_merged _ _ _ _ _ (g_wf _ _ _ _ _ G))]]].
  - intros p o r E. pose proof (o_ok _ _ _ _ _ _ _ (h_outs _ _ _ _ _ _ _ _ (s_held _ _ S))) as Hall. rewrite Forall_forall in Hall.
    apply (Hall (p, o)). apply elem_of_app. right. by eapply blocks_live.
  - intros o. rewrite (g_count _ _ _ _ _ G). by rewrite Z.add_0_r.
Qed.
(** C36: after drain_pages an allocation of 2^order pages fails exactly when no aligned run of that size is free of clients' blocks:
    merging and the fallback to the lists of other types miss no block. *)
Theorem buddy_complete (cl : clients) (s : allocator) (o mt : Z) (cold : bool) : reach cl s -> 0 <= o < MAX_ORDER -> 0 <= mt < MIGRATE_PCPTYPES ->
  exists s1 r s2, drain_pages s = Ret s1 /\ buffered_rmqueue dis s1 o mt cold = Ret (r, s2) /\ (r = None <-> forall p, ~ free_for cl p o).
Proof.
  intros S%reach_sound Ho Hmt. destruct (drain_step cl s S) as (s1 & E1 & S1 & Hn). destruct (alloc_step cl s1 o mt cold S1) as (r & s2 & E2 & Hl & _ & Hr); [done|].
  exists s1, r, s2. split; [done|]. split; [done|]. split.
  - intros Er p Hp. by apply (run_left cl s1 p o S1 Hn Ho Hp), Hr.
  - intros Hno. destruct r as [p|]; [|done]. exfalso. by apply (Hno p).
Qed.
End Spec.

(** ** A zone of 2048 pages *)

Module BuddyDemo.
Definition frames (n : Z) : gmap Z page := list_to_map ((fun p => (p, Page false 0 0 1)) <$> seqZ 0 n).
Definition empty_zone (n : Z) : zone := Zone (frames n) (fun _ _ => []) (fun _ => 0) ∅ 0 1 0 n.
Definition state_after (r : res (option Z * allocator)) : allocator := match r with Ret (_, s) => s | _ => (empty_zone 0, setup_pageset 0) end.
Definition booted : allocator := state_after (exec false (Boot 0 6) (empty_zone 2048, setup_pageset 4)).
Definition boot_clients : clients := after (Clients ∅ ∅) (Boot 0 6) None.

Lemma frames_lookup (n x : Z) : frames n !! x = if decide (0 <= x < n) then Some (Page false 0 0 1) else None.
Proof.
  unfold frames. destruct (decide (0 <= x < n)) as [H|H].
  - apply elem_of_list_to_map_1; [|apply list_elem_of_fmap; exists x; split; [done|by apply elem_of_seqZ]]. rewrite <- list_fmap_compose. cbn. rewrite list_fmap_id. apply NoDup_seqZ.
  - apply not_elem_of_list_to_map_1. rewrite <- list_fmap_compose. cbn. rewrite list_fmap_id, elem_of_seqZ. lia.
Qed.
Lemma empty_types (n x : Z) : get_pageblock_migratetype x (empty_zone n) = 0.
Proof.
  unfold get_pageblock_migratetype. generalize (pfn_to_bitidx (empty_zone n) x), 1. generalize 3%nat. intros k. induction k as [|k IH]; intros b v; [done|].
  cbn [get_bits]. by rewrite IH, decide_False by (cbn [pageblock_flags empty_zone]; set_solver).
Qed.
Lemma empty_fresh : fresh 1 0 2048 (empty_zone 2048).
Proof.
  split; [lia| | | |intros o t; reflexivity|intros o; reflexivity|reflexivity|reflexivity|split; reflexivity|intros x _; rewrite empty_types; unfold MIGRATE_ISOLATE; lia]; cbn [mem_map empty_zone].
  - intros x Hx. rewrite frames_lookup, decide_True; [by eexists|]. change (2 ^ 11) with 2048 in Hx. change (0 / 2048) with 0 in Hx. change ((2048 - 1) / 2048) with 0 in Hx.
    pose proof (Z.div_mod x 2048 ltac:(lia)). pose proof (Z.mod_pos_bound x 2048 ltac:(lia)). lia.
  - intros x pg _. rewrite frames_lookup. destruct (decide _); [by intros [= <-]|done].
  - intros x pg. rewrite frames_lookup. destruct (decide _); [by intros [= <-]|done].
Qed.
Lemma boot_allowed : allowed 0 2048 (Clients ∅ ∅) (Boot 0 6).
Proof.
  split; [by right|]. split; [split; [unfold MAX_ORDER; lia|split; [by exists 0|change (2 ^ 6) with 64; lia]]|]. intros x _ Hx. by apply not_elem_of_empty in Hx.
Qed.
Lemma boot_reach : reach 1 0 2048 false boot_clients booted.
Proof.
  destruct (boot_step 1 0 2048 false (Clients ∅ ∅) (empty_zone 2048, setup_pageset 4) 0 6) as (s & E & _); [apply sound_boot; [exact empty_fresh|lia]|exact boot_allowed|].
  unfold booted. rewrite E. cbn [state_after].
  refine (reach_step 1 0 2048 false (Clients ∅ ∅) (empty_zone 2048, setup_pageset 4) s (Boot 0 6) None _ boot_allowed E). apply reach_boot; [exact empty_fresh|lia].
Qed.
Lemma buddy_conserves_witness : nr_free_pages (fst booted) + pcp_count (snd booted) + used_pages boot_clients = Z.of_nat (size (owned boot_clients)).
Proof. exact (proj1 (buddy_conserves 1 0 2048 false boot_clients booted boot_reach)). Defined.
Lemma buddy_complete_witness : exists s1 r s2, drain_pages booted = Ret s1 /\ buffered_rmqueue false s1 6 MIGRATE_UNMOVABLE true = Ret (r, s2) /\
  (r = None <-> forall p, ~ free_for boot_clients p 6).
Proof. apply (buddy_complete 1 0 2048 false boot_clients booted 6 MIGRATE_UNMOVABLE true boot_reach); split; vm_compute; congruence. Defined.

(** Blocks of 64 pages from the boot allocator, one after the other. *)
Fixpoint boot_blocks (n : nat) (p : Z) (s : allocator) : res allocator :=
  match n with
  | O => Ret s
  | S n => let! s := __free_pages_bootmem p 6 s in boot_blocks n (p + 64) s
  end.
(** The memory map of a node is aligned to the largest block, 1024 pages, but the look for the buddy of the next order reaches
    beyond it: when eight blocks of 64 pages have merged to one of order 9, the struct page at 1024 is read. *)
Lemma higher_buddy_beyond_map : boot_blocks 8 0 (empty_zone 1024, setup_pageset 4) = Bug /\ frames 1024 !! 1024 = None.
Proof. split; [vm_compute; reflexivity|]. rewrite frames_lookup. reflexivity. Qed.
End BuddyDemo.
