(* ===== verification/Bootmem.v ===== *)
(** * Boot memory: mm/bootmem.c and the page setup of arch/lkl/kernel/mem.c

    The host gives the kernel one block of memory; [mem_init_0] aligns it to pages and
    hands it to the boot-time allocator, a bitmap with one bit for each page (set:
    reserved).  Addresses of the kernel are host addresses, its physical addresses are
    offsets from [phys_mem].  Kernel numbers are unsigned longs of 64 bits, but
    [phys_addr_t] has 32: CONFIG_64BIT is set by a header of the port and not by
    Kconfig.  The contents of the pages are not modelled. *)
From S2P Require Import Prelude Native EnvPosix Bitops.

Definition PAGE_SHIFT : Z := 12.
Definition PAGE_SIZE : Z := 4096.

Definition ALIGN (x a : Z) : Z := Z.land (u64 (x + (a - 1))) (Z.lnot (a - 1)).
Definition PAGE_ALIGN (x : Z) : Z := ALIGN x PAGE_SIZE.
Definition PFN_UP (x : Z) : Z := Z.shiftr (u64 (x + PAGE_SIZE - 1)) PAGE_SHIFT.
Definition PFN_DOWN (x : Z) : Z := Z.shiftr x PAGE_SHIFT.
Definition PFN_PHYS (x : Z) : Z := u32 (Z.shiftl (u32 x) PAGE_SHIFT).

(** PAGE_OFFSET is the variable [phys_mem]. *)
Definition __pa (phys_mem x : Z) : Z := u64 (x - phys_mem).
Definition __va (phys_mem x : Z) : Z := u64 (x + phys_mem).
Definition virt_to_phys (phys_mem address : Z) : Z := __pa phys_mem address.
Definition phys_to_virt (phys_mem address : Z) : Z := __va phys_mem address.
Definition virt_to_pfn (phys_mem kaddr : Z) : Z := Z.shiftr (__pa phys_mem kaddr) PAGE_SHIFT.

(** [node_bootmem_map] is a pointer to the bitmap; [bootmap] is what it points to. *)
Record bootmem_data := Bootmem_data {
  node_min_pfn : Z; node_low_pfn : Z; node_bootmem_map : Z; bootmap : bitmap;
  last_end_off : Z; hint_idx : Z }.

Definition set_bootmap (m : bitmap) (b : bootmem_data) : bootmem_data :=
  Bootmem_data (node_min_pfn b) (node_low_pfn b) (node_bootmem_map b) m (last_end_off b) (hint_idx b).
Definition set_hint (v : Z) (b : bootmem_data) : bootmem_data :=
  Bootmem_data (node_min_pfn b) (node_low_pfn b) (node_bootmem_map b) (bootmap b) (last_end_off b) v.
Definition set_last_end (v : Z) (b : bootmem_data) : bootmem_data :=
  Bootmem_data (node_min_pfn b) (node_low_pfn b) (node_bootmem_map b) (bootmap b) v (hint_idx b).

(** ** Registering memory *)

Definition bootmap_bytes (pages : Z) : Z := ALIGN (u64 (pages + 7) / 8) 8.
Definition bootmem_bootmap_pages (pages : Z) : Z := Z.shiftr (PAGE_ALIGN (bootmap_bytes pages)) PAGE_SHIFT.

Fixpoint link_bootmem (bdata : bootmem_data) (bdata_list : list bootmem_data) : list bootmem_data :=
  match bdata_list with
  | [] => [bdata]
  | ent :: rest =>
      if node_min_pfn bdata <? node_min_pfn ent then bdata :: ent :: rest
      else ent :: link_bootmem bdata rest
  end.

(** The map is all ones: a [memset] of [mapsize] bytes, a multiple of a word. *)
Definition init_bootmem_core (phys_mem : Z) (bdata : bootmem_data) (mapstart start end_ : Z)
    (bdata_list : list bootmem_data) : Z * list bootmem_data :=
  let mapsize := bootmap_bytes (u64 (end_ - start)) in
  let bdata := Bootmem_data start end_ (phys_to_virt phys_mem (PFN_PHYS mapstart))
                 (replicate (Z.to_nat (mapsize / 8)) ones64) (last_end_off bdata) (hint_idx bdata) in
  (mapsize, link_bootmem bdata bdata_list).

(** [NODE_DATA(0)->bdata] is a static object of zeroes. *)
Definition bootmem_node_data_0 : bootmem_data := Bootmem_data 0 0 NULL [] 0 0.
Definition init_bootmem (phys_mem start pages : Z) (bdata_list : list bootmem_data) : Z * list bootmem_data :=
  init_bootmem_core phys_mem bootmem_node_data_0 start 0 pages bdata_list.

(** ** Marking pages *)

Definition BOOTMEM_DEFAULT : Z := 0.
Definition BOOTMEM_EXCLUSIVE : Z := 1.

(** [for (idx = sidx; idx < eidx; idx++)] of [__free] and [__reserve]; [n] counts the
    turns that are left. *)
Fixpoint free_loop (n : nat) (idx : Z) (m : bitmap) : res bitmap :=
  match n with
  | O => Ret m
  | S n => let! (old, m) := test_and_clear_bit idx m in
           if old : bool then free_loop n (idx + 1) m else Bug
  end.
Definition __free (bdata : bootmem_data) (sidx eidx : Z) : res bootmem_data :=
  let bdata := if sidx <? hint_idx bdata then set_hint sidx bdata else bdata in
  let! m := free_loop (Z.to_nat (eidx - sidx)) sidx (bootmap bdata) in
  Ret (set_bootmap m bdata).

Fixpoint reserve_loop (n : nat) (sidx idx : Z) (exclusive : bool) (b : bootmem_data) : res (Z * bootmem_data) :=
  match n with
  | O => Ret (0, b)
  | S n =>
      let! (old, m) := test_and_set_bit idx (bootmap b) in
      let b := set_bootmap m b in
      if (old : bool) && exclusive then let! b := __free b sidx idx in Ret (- EBUSY, b)
      else reserve_loop n sidx (idx + 1) exclusive b
  end.
Definition __reserve (bdata : bootmem_data) (sidx eidx flags : Z) : res (Z * bootmem_data) :=
  reserve_loop (Z.to_nat (eidx - sidx)) sidx sidx (negb (Z.land flags BOOTMEM_EXCLUSIVE =? 0)) bdata.

Definition mark_bootmem_node (bdata : bootmem_data) (start end_ : Z) (reserve : bool) (flags : Z) :
    res (Z * bootmem_data) :=
  if (start <? node_min_pfn bdata) || (node_low_pfn bdata <? end_) then Bug
  else
    let sidx := u64 (start - node_min_pfn bdata) in
    let eidx := u64 (end_ - node_min_pfn bdata) in
    if reserve then __reserve bdata sidx eidx flags
    else let! b := __free bdata sidx eidx in Ret (0, b).

(** The loop of [mark_bootmem] over the nodes; [inl] is the error of a reservation with
    the page where it stopped. *)
Fixpoint mark_nodes (bs : list bootmem_data) (start pos end_ : Z) (reserve : bool) (flags : Z) :
    res ((Z * Z) * list bootmem_data + list bootmem_data) :=
  match bs with
  | [] => Bug
  | b :: rest =>
      if (pos <? node_min_pfn b) || (node_low_pfn b <=? pos) then
        if negb (pos =? start) then Bug
        else
          let! r := mark_nodes rest start pos end_ reserve flags in
          match r with inl (e, rest) => Ret (inl (e, b :: rest)) | inr rest => Ret (inr (b :: rest)) end
      else
        let max := Z.min (node_low_pfn b) end_ in
        let! (err, b) := mark_bootmem_node b pos max reserve flags in
        if reserve && negb (err =? 0) then Ret (inl ((err, pos), b :: rest))
        else if max =? end_ then Ret (inr (b :: rest))
        else
          let! r := mark_nodes rest start (node_low_pfn b) end_ reserve flags in
          match r with inl (e, rest) => Ret (inl (e, b :: rest)) | inr rest => Ret (inr (b :: rest)) end
  end.
Definition mark_bootmem (start end_ : Z) (reserve : bool) (flags : Z) (bs : list bootmem_data) :
    res (Z * list bootmem_data) :=
  let! r := mark_nodes bs start start end_ reserve flags in
  match r with
  | inr bs => Ret (0, bs)
  | inl ((err, pos), bs) =>
      let! r := mark_nodes bs start start pos false 0 in
      match r with inr bs => Ret (err, bs) | inl (_, bs) => Ret (err, bs) end
  end.

Definition free_bootmem (phys_mem addr size : Z) (bs : list bootmem_data) : res (list bootmem_data) :=
  let start := PFN_UP (virt_to_phys phys_mem addr) in
  let end_ := PFN_DOWN (virt_to_phys phys_mem (u64 (addr + size))) in
  let! (_, bs) := mark_bootmem start end_ false 0 bs in Ret bs.
Definition reserve_bootmem (phys_mem addr size flags : Z) (bs : list bootmem_data) : res (Z * list bootmem_data) :=
  let start := PFN_DOWN (virt_to_phys phys_mem addr) in
  let end_ := PFN_UP (virt_to_phys phys_mem (u64 (addr + size))) in
  mark_bootmem start end_ true flags bs.
Definition free_bootmem_node (b : bootmem_data) (physaddr size : Z) : res bootmem_data :=
  let! (_, b) := mark_bootmem_node b (PFN_UP physaddr) (PFN_DOWN (u64 (physaddr + size))) false 0 in Ret b.
Definition reserve_bootmem_node (b : bootmem_data) (physaddr size flags : Z) : res (Z * bootmem_data) :=
  mark_bootmem_node b (PFN_DOWN physaddr) (PFN_UP (u64 (physaddr + size))) true flags.

(** ** Allocating *)

Definition align_idx (b : bootmem_data) (idx step : Z) : Z :=
  let base := node_min_pfn b in u64 (ALIGN (u64 (base + idx)) step - base).
Definition align_off (b : bootmem_data) (off align : Z) : Z :=
  let base := PFN_PHYS (node_min_pfn b) in u64 (ALIGN (u64 (base + off)) align - base).

(** [for (i = sidx; i < eidx; i++) if (test_bit(i, ...))]: the first reserved page. *)
Fixpoint first_busy (n : nat) (i : Z) (m : bitmap) : res (option Z) :=
  match n with
  | O => Ret None
  | S n => let! busy := test_bit i m in
           if busy : bool then Ret (Some i) else first_busy n (i + 1) m
  end.

(** From the label [find_block]: the first page of a free range, if there is one. *)
Fixpoint find_block (fuel : nat) (b : bootmem_data) (size step midx sidx fallback : Z) : res (option Z) :=
  match fuel with
  | O => OutOfFuel
  | S fuel =>
      let! sidx := find_next_zero_bit (bootmap b) midx sidx in
      let sidx := align_idx b sidx step in
      let eidx := u64 (sidx + PFN_UP size) in
      if (midx <=? sidx) || (midx <? eidx) then
        if negb (fallback =? 0)
        then find_block fuel b size step midx (align_idx b (fallback - 1) step) 0
        else Ret None
      else
        let! busy := first_busy (Z.to_nat (eidx - sidx)) sidx (bootmap b) in
        match busy with
        | None => Ret (Some sidx)
        | Some i =>
            let sidx := align_idx b i step in
            let sidx := if sidx =? i then u64 (sidx + step) else sidx in
            find_block fuel b size step midx sidx fallback
        end
  end.

(** The range is taken; it starts in the page of the last allocation when that left room. *)
Definition take_block (phys_mem : Z) (b : bootmem_data) (size align sidx : Z) : res (Z * bootmem_data) :=
  let start_off :=
    if negb (Z.land (last_end_off b) (PAGE_SIZE - 1) =? 0) && (PFN_DOWN (last_end_off b) + 1 =? sidx)
    then align_off b (last_end_off b) align
    else PFN_PHYS sidx in
  let merge := if PFN_DOWN start_off <? sidx then 1 else 0 in
  let end_off := u64 (start_off + size) in
  let b := set_hint (PFN_UP end_off) (set_last_end end_off b) in
  let! (err, b) := __reserve b (PFN_DOWN start_off + merge) (PFN_UP end_off) BOOTMEM_EXCLUSIVE in
  if negb (err =? 0) then Bug
  else Ret (phys_to_virt phys_mem (u64 (PFN_PHYS (node_min_pfn b) + start_off)), b).

Definition alloc_bootmem_core (fuel : nat) (phys_mem : Z) (b : bootmem_data) (size align goal limit : Z) :
    res (Z * bootmem_data) :=
  if (size =? 0) || negb (Z.land align (u64 (align - 1)) =? 0) ||
     (negb (limit =? 0) && (limit <? u64 (goal + size))) then Bug
  else if node_bootmem_map b =? NULL then Ret (NULL, b)
  else
    let min := node_min_pfn b in
    let max := node_low_pfn b in
    let goal := Z.shiftr goal PAGE_SHIFT in
    let limit := Z.shiftr limit PAGE_SHIFT in
    let max := if negb (limit =? 0) && (limit <? max) then limit else max in
    if max <=? min then Ret (NULL, b)
    else
      let step := Z.max (Z.shiftr align PAGE_SHIFT) 1 in
      let start := if negb (goal =? 0) && (min <? goal) && (goal <? max) then ALIGN goal step
                   else ALIGN min step in
      let sidx := u64 (start - min) in
      let midx := u64 (max - min) in
      let '(sidx, fallback) :=
        if sidx <? hint_idx b then (align_idx b (hint_idx b) step, u64 (sidx + 1)) else (sidx, 0) in
      let! r := find_block fuel b size step midx sidx fallback in
      match r with
      | Some sidx => take_block phys_mem b size align sidx
      | None => Ret (NULL, b)
      end.

(** Once the slab allocator is up, requests go to [kzalloc]; its answer is a parameter. *)
Definition alloc_arch_preferred_bootmem (slab_available : bool) (kzalloc : Z -> Z) (size : Z) : Z :=
  if slab_available then kzalloc size else NULL.

(** [list_for_each_entry] of [___alloc_bootmem_nopanic]. *)
Fixpoint alloc_nodes (fuel : nat) (phys_mem : Z) (bs : list bootmem_data) (size align goal limit : Z) :
    res (Z * list bootmem_data) :=
  match bs with
  | [] => Ret (NULL, [])
  | b :: rest =>
      if negb (goal =? 0) && (node_low_pfn b <=? PFN_DOWN goal) then
        let! (region, rest) := alloc_nodes fuel phys_mem rest size align goal limit in Ret (region, b :: rest)
      else if negb (limit =? 0) && (PFN_DOWN limit <=? node_min_pfn b) then Ret (NULL, b :: rest)
      else
        let! (region, b) := alloc_bootmem_core fuel phys_mem b size align goal limit in
        if negb (region =? NULL) then Ret (region, b :: rest)
        else let! (region, rest) := alloc_nodes fuel phys_mem rest size align goal limit in Ret (region, b :: rest)
  end.

Section alloc.
Context (fuel : nat) (phys_mem : Z) (slab_available : bool) (kzalloc : Z -> Z).

(** The second turn of [restart] has goal 0. *)
Definition ___alloc_bootmem_nopanic (size align goal limit : Z) (bs : list bootmem_data) :
    res (Z * list bootmem_data) :=
  let region := alloc_arch_preferred_bootmem slab_available kzalloc size in
  if negb (region =? NULL) then Ret (region, bs)
  else
    let! (region, bs) := alloc_nodes fuel phys_mem bs size align goal limit in
    if negb (region =? NULL) then Ret (region, bs)
    else if negb (goal =? 0) then alloc_nodes fuel phys_mem bs size align 0 limit
    else Ret (NULL, bs).
Definition __alloc_bootmem_nopanic (size align goal : Z) (bs : list bootmem_data) : res (Z * list bootmem_data) :=
  ___alloc_bootmem_nopanic size align goal 0 bs.

(** Without memory the kernel panics. *)
Definition ___alloc_bootmem (size align goal limit : Z) (bs : list bootmem_data) : res (Z * list bootmem_data) :=
  let! (mem, bs) := ___alloc_bootmem_nopanic size align goal limit bs in
  if negb (mem =? NULL) then Ret (mem, bs) else Bug.
Definition __alloc_bootmem (size align goal : Z) (bs : list bootmem_data) : res (Z * list bootmem_data) :=
  ___alloc_bootmem size align goal 0 bs.
Definition ARCH_LOW_ADDRESS_LIMIT : Z := 0xffffffff.
Definition __alloc_bootmem_low (size align goal : Z) (bs : list bootmem_data) : res (Z * list bootmem_data) :=
  ___alloc_bootmem size align goal ARCH_LOW_ADDRESS_LIMIT bs.

(** [alloc_bootmem_pages]: MAX_DMA_ADDRESS is [phys_mem], so the goal is 0. *)
Definition alloc_bootmem_pages (x : Z) (bs : list bootmem_data) : res (Z * list bootmem_data) :=
  __alloc_bootmem x PAGE_SIZE (__pa phys_mem phys_mem) bs.
End alloc.

(** ** Giving the pages to the page allocator *)

(** [while (vec && off < BITS_PER_LONG)]; the pages released, each with its order. *)
Fixpoint release_word (n : nat) (start off vec : Z) : list (Z * Z) :=
  match n with
  | O => []
  | S n =>
      if vec =? 0 then []
      else (if Z.land vec 1 =? 0 then [] else [(start + off, 0)]) ++
           release_word n start (off + 1) (Z.shiftr vec 1)
  end.
Fixpoint release_words (fuel : nat) (b : bootmem_data) (aligned : bool) (start : Z) : res (list (Z * Z)) :=
  match fuel with
  | O => OutOfFuel
  | S fuel =>
      if negb (start <? node_low_pfn b) then Ret []
      else
        let idx := start - node_min_pfn b in
        let! w := deref (aget (bootmap b) (idx / BITS_PER_LONG)) in
        let vec := u64 (Z.lnot w) in
        let pages :=
          if aligned && (vec =? ones64) && (start + BITS_PER_LONG <? node_low_pfn b)
          then [(start, 6)]
          else release_word 64 start 0 vec in
        let! rest := release_words fuel b aligned (start + BITS_PER_LONG) in
        Ret (pages ++ rest)
  end.
Definition free_all_bootmem_core (fuel : nat) (phys_mem : Z) (b : bootmem_data) : res (Z * list (Z * Z)) :=
  if node_bootmem_map b =? NULL then Ret (0, [])
  else
    let start := node_min_pfn b in
    let aligned := Z.land start (BITS_PER_LONG - 1) =? 0 in
    let! freed := release_words fuel b aligned start in
    let page := virt_to_pfn phys_mem (node_bootmem_map b) in
    let pages := bootmem_bootmap_pages (node_low_pfn b - node_min_pfn b) in
    let own := (fun i : nat => (page + Z.of_nat i, 0)) <$> seq 0 (Z.to_nat pages) in
    Ret (foldr Z.add 0 ((fun po => 2 ^ snd po) <$> freed) + pages, freed ++ own).
Fixpoint free_all_bootmem (fuel : nat) (phys_mem : Z) (bs : list bootmem_data) : res (Z * list (Z * Z)) :=
  match bs with
  | [] => Ret (0, [])
  | b :: rest =>
      let! (count, pages) := free_all_bootmem_core fuel phys_mem b in
      let! (total, more) := free_all_bootmem fuel phys_mem rest in
      Ret (count + total, pages ++ more)
  end.

(** ** [mem_init_0], [mem_init] and [mem_cleanup] *)

Record boot := Boot {
  phys_mem : Z; phys_mem_size : Z; memory_end : Z; _phys_mem : Z; empty_zero_page : Z;
  zone_normal_pages : Z; bdata_list : list bootmem_data; freed_pages : list (Z * Z);
  totalram_pages : Z; max_mapnr : Z }.

Section mem_init.
Context {N : Type} {ops : lkl_native_operations N}.

(** [nops_phys_mem_size] is the [unsigned int] of the callback table. *)
Definition mem_init_0 (fuel : nat) (slab_available : bool) (kzalloc : Z -> Z) (nops_phys_mem_size : Z)
    (n : N) : res (N * boot) :=
  let size := u32 nops_phys_mem_size in
  let '(p, n) := mem_alloc size n in
  if p =? NULL then Bug
  else
    let memory_end := u64 (p + size) in
    let '(pm, sz) :=
      if negb (PAGE_ALIGN p =? p) then
        let sz := u64 (size - (PAGE_ALIGN p - p)) in
        (PAGE_ALIGN p, sz / PAGE_SIZE * PAGE_SIZE)
      else (p, size) in
    let '(bootmap_size, bs) :=
      init_bootmem pm (virt_to_pfn pm pm) (virt_to_pfn pm (u64 (pm + sz))) [] in
    let! bs := free_bootmem pm pm sz bs in
    let! (_, bs) := reserve_bootmem pm pm (s32 bootmap_size) BOOTMEM_DEFAULT bs in
    let! (zero, bs) := alloc_bootmem_pages fuel pm slab_available kzalloc PAGE_SIZE bs in
    Ret (n, Boot pm sz memory_end p zero (Z.shiftr sz PAGE_SHIFT) bs [] 0 0).

(** [high_memory] is set by the memory map of the generic code. *)
Definition mem_init (fuel : nat) (high_memory : Z) (b : boot) : res boot :=
  let mapnr := Z.shiftr (u64 (high_memory - phys_mem b)) PAGE_SHIFT in
  let! (total, pages) := free_all_bootmem fuel (phys_mem b) (bdata_list b) in
  Ret (Boot (phys_mem b) (phys_mem_size b) (memory_end b) (_phys_mem b) (empty_zero_page b)
         (zone_normal_pages b) (bdata_list b) pages total mapnr).

Definition mem_cleanup (n : N) (b : boot) : res N := mem_free (_phys_mem b) n.

End mem_init.

(** ** Arithmetic *)

Definition pow2 (a : Z) : Prop := exists k, 0 <= k <= 31 /\ a = 2 ^ k.

Lemma ALIGN_spec (x a : Z) : pow2 a -> 0 <= x < 2 ^ 62 ->
  x <= ALIGN x a < x + a /\ ALIGN x a mod a = 0.
Proof.
  intros (k & Hk & ->) Hx. assert (0 < 2 ^ k <= 2 ^ 31) as Ha.
  { split; [apply Z.pow_pos_nonneg; lia|apply Z.pow_le_mono_r; lia]. }
  assert (Z.lnot (2 ^ k - 1) = Z.lnot (Z.ones k)) as El by (rewrite Z.ones_equiv; f_equal; lia).
  unfold ALIGN. rewrite El, wrap_id by (unfold in_u; lia). rewrite clear_low by lia.
  set (a := 2 ^ k) in *. pose proof (Z.div_mod (x + (a - 1)) a ltac:(lia)).
  pose proof (Z.mod_pos_bound (x + (a - 1)) a ltac:(lia)). split; [lia|]. apply Z.mod_mul. lia.
Qed.
(** The least multiple: nothing aligned lies between [x] and [ALIGN x a]. *)
Lemma ALIGN_least (x a y : Z) : pow2 a -> 0 <= x < 2 ^ 62 -> x <= y -> y mod a = 0 -> ALIGN x a <= y.
Proof.
  intros Ha Hx Hy Hm. destruct (ALIGN_spec x a Ha Hx) as [H1 H2].
  assert (0 < a) as Hpos by (destruct Ha as (k & ? & ->); apply Z.pow_pos_nonneg; lia).
  destruct (decide (ALIGN x a <= y)) as [|Hn]; [done|].
  pose proof (Z.div_mod y a ltac:(lia)). pose proof (Z.div_mod (ALIGN x a) a ltac:(lia)). rewrite Hm, H2 in *.
  assert (y / a < ALIGN x a / a) by nia. nia.
Qed.
Lemma pow2_pos (a : Z) : pow2 a -> 0 < a <= 2 ^ 31.
Proof.
  intros (k & Hk & ->). split; [apply Z.pow_pos_nonneg; lia|apply Z.pow_le_mono_r; lia].
Qed.
Lemma pow2_step (a : Z) : pow2 a ->
  pow2 (Z.max (Z.shiftr a PAGE_SHIFT) 1) /\ (PAGE_SIZE * Z.max (Z.shiftr a PAGE_SHIFT) 1) mod a = 0.
Proof.
  intros (k & Hk & ->). unfold PAGE_SHIFT, PAGE_SIZE. rewrite Z.shiftr_div_pow2 by lia.
  destruct (decide (12 <= k)).
  - assert (2 ^ k / 2 ^ 12 = 2 ^ (k - 12)) as -> by (rewrite Z.pow_sub_r; lia).
    assert (0 < 2 ^ (k - 12)) by (apply Z.pow_pos_nonneg; lia). rewrite Z.max_l by lia. split; [exists (k - 12); lia|].
    change 4096 with (2 ^ 12). rewrite <- Z.pow_add_r by lia. replace (12 + (k - 12)) with k by lia. apply Z.mod_same. lia.
  - assert (2 ^ k < 2 ^ 12) by (apply Z.pow_lt_mono_r; lia). assert (0 < 2 ^ k) by (apply Z.pow_pos_nonneg; lia).
    rewrite Z.div_small by lia. split; [exists 0; done|]. change (4096 * Z.max 0 1) with (2 ^ 12).
    replace 12 with (12 - k + k) by lia. rewrite Z.pow_add_r by lia. apply Z.mod_mul. lia.
Qed.
Lemma pow2_mask (a : Z) : pow2 a -> Z.land a (u64 (a - 1)) = 0.
Proof.
  intros (k & Hk & ->). assert (0 < 2 ^ k <= 2 ^ 31).
  { split; [apply Z.pow_pos_nonneg; lia|apply Z.pow_le_mono_r; lia]. }
  rewrite wrap_id by (unfold in_u; lia). rewrite Z.sub_1_r, <- Z.ones_equiv, Z.land_ones by lia.
  apply Z.mod_same. lia.
Qed.

Lemma PFN_UP_spec (x : Z) : 0 <= x < 2 ^ 62 -> x <= 4096 * PFN_UP x < x + 4096.
Proof.
  intros Hx. unfold PFN_UP, PAGE_SIZE, PAGE_SHIFT. rewrite wrap_id by (unfold in_u; lia).
  rewrite Z.shiftr_div_pow2 by lia. change (2 ^ 12) with 4096.
  pose proof (Z.div_mod (x + 4096 - 1) 4096 ltac:(lia)). pose proof (Z.mod_pos_bound (x + 4096 - 1) 4096 ltac:(lia)). lia.
Qed.
Lemma PFN_DOWN_spec (x : Z) : 4096 * PFN_DOWN x <= x < 4096 * PFN_DOWN x + 4096.
Proof.
  unfold PFN_DOWN, PAGE_SHIFT. rewrite Z.shiftr_div_pow2 by lia. change (2 ^ 12) with 4096.
  pose proof (Z.div_mod x 4096 ltac:(lia)). pose proof (Z.mod_pos_bound x 4096 ltac:(lia)). lia.
Qed.
Lemma PFN_PHYS_spec (x : Z) : 0 <= x < 2 ^ 20 -> PFN_PHYS x = 4096 * x.
Proof.
  intros Hx. unfold PFN_PHYS, PAGE_SHIFT. rewrite (wrap_id _ x) by (unfold in_u; lia).
  rewrite Z.shiftl_mul_pow2, wrap_id by (unfold in_u; lia). lia.
Qed.

(** ** The bitmap of a node *)

(** A node of at most 2^20 pages: the size of the memory is an [unsigned int]. *)
Record node_ok (b : bootmem_data) : Prop := {
  nd_min : 0 <= node_min_pfn b <= node_low_pfn b;
  nd_low : node_low_pfn b < 2 ^ 20;
  nd_map : node_bootmem_map b <> NULL;
  nd_words : words_ok (bootmap b);
  nd_bits : node_low_pfn b - node_min_pfn b <= nbits (bootmap b);
  nd_hint : 0 <= hint_idx b <= 2 ^ 20;
  nd_last : 0 <= last_end_off b <= 4096 * 2 ^ 20 }.

Definition pages_of (b : bootmem_data) : Z := node_low_pfn b - node_min_pfn b.
(** Page [i] of the node is reserved. *)
Definition reserved (b : bootmem_data) (i : Z) : bool := bit (bootmap b) i.

Lemma node_nr_ok (b : bootmem_data) (i : Z) : node_ok b -> 0 <= i < pages_of b -> nr_ok (bootmap b) i.
Proof. intros [] Hi. unfold pages_of in Hi. split; lia. Qed.

Definition same_node (b b' : bootmem_data) : Prop :=
  node_min_pfn b' = node_min_pfn b /\ node_low_pfn b' = node_low_pfn b /\
  node_bootmem_map b' = node_bootmem_map b /\ length (bootmap b') = length (bootmap b).

Lemma free_loop_spec (n : nat) (i : Z) (m : bitmap) :
  words_ok m -> 0 <= i -> i + Z.of_nat n <= nbits m -> i + Z.of_nat n <= 2 ^ 31 ->
  (forall j, i <= j < i + Z.of_nat n -> bit m j = true) ->
  exists m', free_loop n i m = Ret m' /\ words_ok m' /\ length m' = length m /\
    forall j, 0 <= j -> bit m' j = if decide (i <= j < i + Z.of_nat n) then false else bit m j.
Proof.
  revert i m. induction n as [|n IH]; intros i m Hok Hi Hn H31 Hb.
  { exists m. split_and!; try done. intros j Hj. rewrite decide_False by lia. done. }
  destruct (test_and_clear_bit_spec m i Hok) as (m1 & E & Hok1 & Hlen1 & Hb1); [split; lia|].
  cbn [free_loop]. rewrite E, (Hb i) by lia. cbn [res_bind].
  destruct (IH (i + 1) m1) as (m2 & E2 & Hok2 & Hlen2 & Hb2); [done|lia|unfold nbits in *; lia|lia| |].
  { intros j Hj. rewrite Hb1 by lia. rewrite decide_False by lia. apply Hb. lia. }
  exists m2. split_and!; [done|done|congruence|]. intros j Hj. rewrite Hb2, Hb1 by lia.
  repeat case_decide; try done; lia.
Qed.

Lemma reserve_loop_spec (n : nat) (sidx i : Z) (excl : bool) (b : bootmem_data) :
  words_ok (bootmap b) -> 0 <= i -> i + Z.of_nat n <= nbits (bootmap b) -> i + Z.of_nat n <= 2 ^ 31 ->
  (excl = true -> forall j, i <= j < i + Z.of_nat n -> reserved b j = false) ->
  exists m', reserve_loop n sidx i excl b = Ret (0, set_bootmap m' b) /\ words_ok m' /\
    length m' = length (bootmap b) /\
    forall j, 0 <= j -> bit m' j = if decide (i <= j < i + Z.of_nat n) then true else reserved b j.
Proof.
  revert i b. induction n as [|n IH]; intros i b Hok Hi Hn H31 Hb.
  { exists (bootmap b). split_and!; try done; [by destruct b|]. intros j Hj. rewrite decide_False by lia. done. }
  destruct (test_and_set_bit_spec (bootmap b) i Hok) as (m1 & E & Hok1 & Hlen1 & Hb1); [split; lia|].
  cbn [reserve_loop]. rewrite E. cbn [res_bind].
  assert (bit (bootmap b) i && excl = false) as ->.
  { destruct excl; [|apply andb_false_r]. rewrite andb_true_r. apply Hb; [done|lia]. }
  destruct (IH (i + 1) (set_bootmap m1 b)) as (m2 & E2 & Hok2 & Hlen2 & Hb2); simpl; [done|lia|unfold nbits in *; lia|lia| |].
  { intros He j Hj. unfold reserved. simpl. rewrite Hb1 by lia. rewrite decide_False by lia. apply Hb; [done|lia]. }
  exists m2. split_and!; [done|done|simpl in *; congruence|]. intros j Hj. rewrite Hb2 by done.
  unfold reserved. simpl. rewrite Hb1 by done. repeat case_decide; try done; lia.
Qed.

Lemma first_busy_spec (n : nat) (i : Z) (m : bitmap) :
  words_ok m -> 0 <= i -> i + Z.of_nat n <= nbits m -> i + Z.of_nat n <= 2 ^ 31 ->
  exists r, first_busy n i m = Ret r /\
    match r with
    | Some k => i <= k < i + Z.of_nat n /\ bit m k = true
    | None => forall j, i <= j < i + Z.of_nat n -> bit m j = false
    end.
Proof.
  revert i. induction n as [|n IH]; intros i Hok Hi Hn H31.
  { exists None. split; [done|]. lia. }
  cbn [first_busy]. rewrite test_bit_spec by (split; lia). cbn [res_bind]. destruct (bit m i) eqn:Eb.
  { exists (Some i). split; [done|]. split; [lia|done]. }
  destruct (IH (i + 1)) as (r & Er & Hr); [done|lia|lia|lia|]. exists r. split; [done|].
  destruct r as [k|]; [split; [lia|apply Hr]|].
  intros j Hj. destruct (decide (j = i)) as [->|]; [done|]. apply Hr. lia.
Qed.

(** ** The search for a free range *)

Definition aligned_at (b : bootmem_data) (step s : Z) : Prop := (node_min_pfn b + s) mod step = 0.

Lemma align_idx_spec (b : bootmem_data) (idx step : Z) :
  node_ok b -> pow2 step -> 0 <= idx <= 2 ^ 40 ->
  idx <= align_idx b idx step < idx + step /\ aligned_at b step (align_idx b idx step) /\
  forall s, idx <= s -> aligned_at b step s -> align_idx b idx step <= s.
Proof.
  intros [Hm Hl _ _ _ _ _] Hp Hi. unfold align_idx, aligned_at.
  rewrite (wrap_id _ (node_min_pfn b + idx)) by (unfold in_u; lia).
  destruct (ALIGN_spec (node_min_pfn b + idx) step Hp ltac:(lia)) as [H1 H2].
  pose proof (pow2_pos step Hp). rewrite wrap_id by (unfold in_u; lia).
  split; [lia|]. split; [by rewrite Zplus_minus|]. intros s Hs Ha.
  pose proof (ALIGN_least (node_min_pfn b + idx) step (node_min_pfn b + s) Hp ltac:(lia) ltac:(lia) Ha). lia.
Qed.
Lemma aligned_next (b : bootmem_data) (step s i : Z) :
  pow2 step -> aligned_at b step s -> aligned_at b step i -> i < s -> i + step <= s.
Proof.
  intros Hp Hs Hi Hlt. pose proof (pow2_pos step Hp). unfold aligned_at in *.
  pose proof (Z.div_mod (node_min_pfn b + s) step ltac:(lia)).
  pose proof (Z.div_mod (node_min_pfn b + i) step ltac:(lia)). rewrite Hs, Hi in *.
  assert ((node_min_pfn b + i) / step < (node_min_pfn b + s) / step) by nia. nia.
Qed.

(** [n] free pages from [s] on, within the first [midx] pages, at an aligned place. *)
Definition fits (b : bootmem_data) (step n midx s : Z) : Prop :=
  aligned_at b step s /\ s + n <= midx /\ forall j, s <= j < s + n -> reserved b j = false.

Lemma find_block_spec (fuel : nat) (b : bootmem_data) (size step midx sidx fallback : Z) :
  node_ok b -> pow2 step -> 0 < size <= 2 ^ 40 -> 0 <= midx <= pages_of b ->
  0 <= sidx <= 2 ^ 40 -> 0 <= fallback <= 2 ^ 39 ->
  Z.max 0 (midx - sidx) + 1 + (if fallback =? 0 then 0 else midx + 1) <= Z.of_nat fuel ->
  exists r, find_block fuel b size step midx sidx fallback = Ret r /\
    match r with
    | Some s => 0 <= s /\ fits b step (PFN_UP size) midx s
    | None => forall s, (if fallback =? 0 then sidx else fallback - 1) <= s ->
                ~ fits b step (PFN_UP size) midx s
    end.
Proof.
  intros Hok Hstep Hsize Hmidx. revert sidx fallback.
  induction fuel as [|fuel IH]; intros sidx fallback Hs Hfb Hfuel; [destruct (fallback =? 0); lia|].
  pose proof (PFN_UP_spec size ltac:(lia)) as Hn. set (n := PFN_UP size) in *.
  pose proof (pow2_pos step Hstep) as Hst. pose proof Hok as [Hmin Hlow _ Hw Hbits _ _]. unfold pages_of in Hmidx.
  cbn [find_block]. fold n.
  assert (exists z, find_next_zero_bit (bootmap b) midx sidx = Ret z /\ (midx <= sidx -> midx <= z) /\ z <= midx /\ 0 <= z /\
            (sidx < midx -> sidx <= z) /\ (forall j, sidx <= j < z -> reserved b j = true)) as (z & -> & Hz & Hz1 & Hz0 & Hz2 & Hz3).
  { destruct (decide (sidx <= midx)) as [Hle|Hgt].
    - destruct (find_next_zero_bit_spec (bootmap b) midx sidx Hw) as (z & Ez & Hz1 & Hz2 & _); [lia|lia|].
      exists z. split_and!; [done|lia|lia|lia|lia|done].
    - unfold find_next_zero_bit. destruct (Z.leb_spec midx sidx); [|lia]. exists midx. split_and!; try lia; done. }
  cbn [res_bind]. destruct (align_idx_spec b z step Hok Hstep ltac:(lia)) as (Ha1 & Ha2 & Ha3).
  set (s1 := align_idx b z step) in *. rewrite (wrap_id _ (s1 + n)) by (unfold in_u; lia).
  assert (forall s, sidx <= s -> s < s1 -> ~ fits b step n midx s) as Hbelow.
  { intros s Hs1 Hs2 (Fa & Fm & Ff). destruct (decide (z <= s)) as [Hge|Hlt]; [specialize (Ha3 s Hge Fa); lia|].
    specialize (Ff s ltac:(lia)). rewrite Hz3 in Ff by lia. done. }
  destruct ((midx <=? s1) || (midx <? s1 + n)) eqn:Ebr.
  - assert (forall s, sidx <= s -> ~ fits b step n midx s) as Hnone.
    { intros s Hs1 Hfit. destruct (decide (s < s1)); [by eapply Hbelow|]. destruct Hfit as (_ & Fm & _).
      apply orb_true_iff in Ebr as [?|?]; lia. }
    destruct (Z.eqb_spec fallback 0) as [->|Hfne]; cbn [negb]; [by exists None|].
    destruct (align_idx_spec b (fallback - 1) step Hok Hstep ltac:(lia)) as (Hb1 & Hb2 & Hb3).
    destruct (IH (align_idx b (fallback - 1) step) 0) as (r & Er & Hr); [lia|lia|simpl; lia|].
    exists r. split; [done|]. destruct r as [s|]; [done|]. intros s Hs1 Hfit.
    apply (Hr s); [|done]. simpl. apply Hb3; [done|apply Hfit].
  - apply orb_false_iff in Ebr as [Eb1 Eb2].
    destruct (first_busy_spec (Z.to_nat (s1 + n - s1)) s1 (bootmap b) Hw) as (r & -> & Hr); [lia|lia|lia|].
    cbn [res_bind]. rewrite Z2Nat.id in Hr by lia. replace (s1 + (s1 + n - s1)) with (s1 + n) in Hr by lia.
    destruct r as [i|].
    2: { exists (Some s1). split; [done|]. split; [lia|]. split; [done|]. split; [lia|done]. }
    destruct Hr as [Hi1 Hi2]. destruct (align_idx_spec b i step Hok Hstep ltac:(lia)) as (Hc1 & Hc2 & Hc3).
    set (s2 := align_idx b i step) in *. set (s3 := if s2 =? i then u64 (s2 + step) else s2).
    assert (i < s3 /\ s3 <= i + step /\ forall s, i < s -> aligned_at b step s -> s3 <= s) as (Hs3 & Hs3' & Hs3'').
    { unfold s3. destruct (Z.eqb_spec s2 i) as [E|E].
      - rewrite wrap_id by (unfold in_u; lia). split; [lia|]. split; [lia|]. intros s Hlt Hal.
        rewrite E in *. by apply (aligned_next b).
      - split; [lia|]. split; [lia|]. intros s Hlt Hal. apply Hc3; [lia|done]. }
    destruct (decide (sidx <= z)) as [Hsz|]; [|lia].
    destruct (IH s3 fallback) as (r & Er & Hr); [lia|lia|lia|].
    exists r. split; [done|]. destruct r as [s|]; [done|]. intros s Hlo Hfit.
    destruct (decide (s3 <= s)) as [Hge|Hlt].
    + apply (Hr s); [|done]. destruct (fallback =? 0); lia.
    + destruct (Z.eqb_spec fallback 0) as [Ef|Ef]; [|by apply (Hr s)].
      destruct Hfit as (Fa & Fm & Ff). destruct (decide (s < s1)).
      * apply (Hbelow s); [lia|done|by split_and!].
      * destruct (decide (i < s)) as [His|]; [specialize (Hs3'' s His Fa); lia|].
        specialize (Ff i ltac:(lia)). unfold reserved in Ff. congruence.
Qed.

(** ** Taking the range *)

(** Where the new region starts: at the first free page, or in the page before it, behind
    the last allocation. *)
Definition starts_at (b : bootmem_data) (sidx o : Z) : Prop :=
  o = 4096 * sidx \/
  (last_end_off b <= o <= 4096 * sidx /\ 4096 * (sidx - 1) < last_end_off b < 4096 * sidx).

Lemma page_offset (x : Z) : Z.land x (PAGE_SIZE - 1) = x mod 4096.
Proof. unfold PAGE_SIZE. change (4096 - 1) with (Z.ones 12). by rewrite Z.land_ones. Qed.

Lemma aligned_bytes (b : bootmem_data) (align s : Z) :
  pow2 align -> aligned_at b (Z.max (Z.shiftr align PAGE_SHIFT) 1) s ->
  (4096 * (node_min_pfn b + s)) mod align = 0.
Proof.
  intros Ha Hs. destruct (pow2_step align Ha) as [Hp Hm]. unfold PAGE_SIZE in Hm.
  set (step := Z.max (Z.shiftr align PAGE_SHIFT) 1) in *. pose proof (pow2_pos step Hp). pose proof (pow2_pos align Ha).
  unfold aligned_at in Hs. apply Z.mod_divide in Hs as [q Hq]; [|lia]. apply Z.mod_divide in Hm as [q' Hq']; [|lia].
  apply Z.mod_divide; [lia|]. exists (q * q'). rewrite Hq. transitivity (q * (4096 * step)); [ring|]. rewrite Hq'. ring.
Qed.

Lemma start_off_spec (b : bootmem_data) (align sidx : Z) :
  node_ok b -> pow2 align -> 0 <= sidx < pages_of b ->
  aligned_at b (Z.max (Z.shiftr align PAGE_SHIFT) 1) sidx ->
  exists o, (if negb (Z.land (last_end_off b) (PAGE_SIZE - 1) =? 0) && (PFN_DOWN (last_end_off b) + 1 =? sidx)
             then align_off b (last_end_off b) align else PFN_PHYS sidx) = o /\
    starts_at b sidx o /\ 0 <= o /\ (4096 * node_min_pfn b + o) mod align = 0 /\
    PFN_DOWN o + (if PFN_DOWN o <? sidx then 1 else 0) = sidx.
Proof.
  intros [Hmin Hlow _ _ _ _ Hlast] Ha Hs Hal. unfold pages_of in Hs. eexists. split; [done|].
  pose proof (aligned_bytes b align sidx Ha Hal) as Hby. rewrite page_offset.
  pose proof (PFN_DOWN_spec (last_end_off b)) as Hd.
  assert (forall x, PFN_DOWN (4096 * x) = x) as Hdx by (intros x; pose proof (PFN_DOWN_spec (4096 * x)); lia).
  destruct (negb (last_end_off b mod 4096 =? 0) && (PFN_DOWN (last_end_off b) + 1 =? sidx)) eqn:E.
  - apply andb_true_iff in E as [E1 E2]. apply negb_true_iff, Z.eqb_neq in E1. apply Z.eqb_eq in E2.
    assert (last_end_off b <> 4096 * PFN_DOWN (last_end_off b)) as Hne.
    { intros H. apply E1. rewrite H, Z.mul_comm. apply Z.mod_mul. lia. }
    unfold align_off. rewrite PFN_PHYS_spec by lia. rewrite (wrap_id _ (4096 * node_min_pfn b + last_end_off b)) by (unfold in_u; lia).
    destruct (ALIGN_spec (4096 * node_min_pfn b + last_end_off b) align Ha ltac:(lia)) as [H1 H2].
    pose proof (ALIGN_least (4096 * node_min_pfn b + last_end_off b) align (4096 * (node_min_pfn b + sidx)) Ha ltac:(lia) ltac:(lia) Hby) as H3.
    pose proof (pow2_pos align Ha). rewrite wrap_id by (unfold in_u; lia). set (o := ALIGN _ _ - _).
    assert (last_end_off b <= o <= 4096 * sidx) as Ho by lia.
    split; [right; lia|]. split; [lia|]. split; [unfold o; by rewrite Zplus_minus|].
    pose proof (PFN_DOWN_spec o). destruct (Z.ltb_spec (PFN_DOWN o) sidx); lia.
  - rewrite PFN_PHYS_spec by lia. split; [by left|]. split; [lia|].
    split; [by rewrite <- Z.mul_add_distr_l|]. rewrite Hdx. destruct (Z.ltb_spec sidx sidx); lia.
Qed.

Lemma take_block_spec (phys_mem : Z) (b : bootmem_data) (size align sidx : Z) :
  node_ok b -> pow2 align -> 0 < size <= 2 ^ 40 -> 0 <= sidx ->
  fits b (Z.max (Z.shiftr align PAGE_SHIFT) 1) (PFN_UP size) (pages_of b) sidx ->
  exists o b', take_block phys_mem b size align sidx =
      Ret (phys_to_virt phys_mem (4096 * node_min_pfn b + o), b') /\
    node_ok b' /\ same_node b b' /\ starts_at b sidx o /\ (4096 * node_min_pfn b + o) mod align = 0 /\
    0 <= o /\ o + size <= 4096 * (sidx + PFN_UP size) /\ last_end_off b' = o + size /\
    forall j, 0 <= j -> reserved b' j = if decide (sidx <= j < PFN_UP (o + size)) then true else reserved b j.
Proof.
  intros Hok Ha Hsize Hs (Fa & Fm & Ff). pose proof (PFN_UP_spec size ltac:(lia)) as Hn.
  pose proof Hok as [Hmin Hlow Hmap Hw Hbits Hh Hlast].
  destruct (start_off_spec b align sidx Hok Ha ltac:(lia) Fa) as (o & Eo & Ho & Ho0 & Hoa & Hpage).
  unfold take_block. rewrite Eo. assert (o <= 4096 * sidx) as Hole by (unfold starts_at in Ho; lia).
  unfold pages_of in Fm. rewrite (wrap_id _ (o + size)) by (unfold in_u; lia).
  pose proof (PFN_UP_spec (o + size) ltac:(lia)) as He. rewrite Hpage.
  set (b1 := set_hint _ _). unfold __reserve.
  destruct (reserve_loop_spec (Z.to_nat (PFN_UP (o + size) - sidx)) sidx sidx true b1) as (m' & E & Hw' & Hlen' & Hb');
    unfold b1; simpl; [done|lia|lia|lia| |].
  { intros _ j Hj. apply Ff. lia. }
  unfold b1 in E. change (negb (Z.land BOOTMEM_EXCLUSIVE BOOTMEM_EXCLUSIVE =? 0)) with true. rewrite E. cbn [res_bind].
  change (negb (0 =? 0)) with false. cbn [node_min_pfn set_bootmap set_hint set_last_end].
  rewrite PFN_PHYS_spec, wrap_id by (unfold in_u; lia). eexists o, _. split; [done|].
  split; [split; simpl; try done; try lia; unfold nbits in *; rewrite Hlen'; simpl; lia|].
  split; [done|]. split; [done|]. split; [done|]. split; [done|]. split; [lia|]. split; [done|].
  intros j Hj. unfold reserved at 1. simpl. rewrite Hb' by done. repeat case_decide; try done; lia.
Qed.

(** ** The regions handed out *)

(** [A] lists the regions (offset from the start of the node, size) in use: each lies in
    reserved pages, no two overlap, and the rest of the page behind the last one is not
    used by any. *)
Definition disjoint (r r' : Z * Z) : Prop := fst r + snd r <= fst r' \/ fst r' + snd r' <= fst r.
Record regions_ok (b : bootmem_data) (A : list (Z * Z)) : Prop := {
  rg_pages : forall o s, (o, s) ∈ A -> 0 <= o /\ 0 < s /\
    forall j, 4096 * j < o + s -> o < 4096 * (j + 1) -> reserved b j = true;
  rg_disj : ForallOrdPairs disjoint A;
  rg_tail : forall o s, (o, s) ∈ A -> o + s <= last_end_off b \/ 4096 * PFN_UP (last_end_off b) <= o;
  rg_last : forall j, 4096 * j < last_end_off b < 4096 * (j + 1) -> reserved b j = true }.

Lemma take_block_regions (b b' : bootmem_data) (A : list (Z * Z)) (sidx n o size : Z) :
  node_ok b -> regions_ok b A -> starts_at b sidx o -> 0 <= o -> 0 <= sidx -> 0 < size <= 2 ^ 40 -> o + size <= 4096 * (sidx + n) ->
  sidx + n <= 2 ^ 20 -> (forall j, sidx <= j < sidx + n -> reserved b j = false) -> last_end_off b' = o + size ->
  (forall j, 0 <= j -> reserved b' j = if decide (sidx <= j < PFN_UP (o + size)) then true else reserved b j) ->
  regions_ok b' ((o, size) :: A).
Proof.
  intros [_ _ _ _ _ _ Hl] [Hp Hd Ht Hlast] Hst Ho Hsi Hsz Hend Hn20 Hfree Hl' Hb'.
  pose proof (PFN_UP_spec (o + size) ltac:(lia)) as He. pose proof (PFN_UP_spec (last_end_off b) ltac:(lia)) as Hle.
  assert (forall j, 0 <= j -> reserved b j = true -> reserved b' j = true) as Hmono.
  { intros j Hj Hr. rewrite Hb' by done. by case_decide. }
  assert (forall o' s' x, (o', s') ∈ A -> o' <= x < o' + s' -> 4096 * sidx <= x < 4096 * (sidx + n) -> False) as Hnew.
  { intros o' s' x Hin Hx Hx'. destruct (Hp _ _ Hin) as (H0 & _ & Hr). pose proof (PFN_DOWN_spec x).
    specialize (Hr (PFN_DOWN x) ltac:(lia) ltac:(lia)). rewrite Hfree in Hr by lia. done. }
  assert (forall o' s', (o', s') ∈ A -> o + size <= o' \/ o' + s' <= o) as Hdis.
  { intros o' s' Hin. destruct (decide (o + size <= o')) as [|H1]; [by left|]. destruct (decide (o' + s' <= o)) as [|H2]; [by right|].
    exfalso. destruct (Hp _ _ Hin) as (H0 & Hs' & _). destruct Hst as [->|(Hs1 & Hs2)].
    - apply (Hnew o' s' (Z.max (4096 * sidx) o') Hin); lia.
    - destruct (Ht _ _ Hin) as [?|?]; [lia|]. apply (Hnew o' s' o' Hin); lia. }
  split.
  - intros o' s'. rewrite elem_of_cons. intros [[= -> ->]|Hin].
    + split; [lia|]. split; [lia|]. intros j H1 H2. destruct (decide (sidx <= j)).
      * rewrite Hb' by lia. rewrite decide_True by lia. done.
      * apply Hmono; [lia|]. apply Hlast. unfold starts_at in Hst. lia.
    + destruct (Hp _ _ Hin) as (H0 & Hs' & Hr). split; [lia|]. split; [lia|]. intros j H1 H2. apply Hmono; [lia|]. by apply Hr.
  - constructor; [|done]. apply Forall_forall. intros [o' s'] Hin. apply (Hdis o' s' Hin).
  - rewrite Hl'. intros o' s'. rewrite elem_of_cons. intros [[= -> ->]|Hin]; [by left|].
    destruct (decide (o' + s' <= o + size)) as [|H1]; [by left|]. right.
    destruct (Hdis _ _ Hin) as [H2|H2]; [|lia]. destruct (decide (4096 * PFN_UP (o + size) <= o')) as [|H3]; [done|]. exfalso.
    destruct (Hp _ _ Hin) as (H0 & Hs' & _). destruct (decide (4096 * sidx <= o')).
    + apply (Hnew o' s' o' Hin); lia.
    + destruct (Ht _ _ Hin) as [?|?]; unfold starts_at in Hst; lia.
  - rewrite Hl'. intros j Hj. destruct (decide (sidx <= j)).
    + rewrite Hb' by lia. rewrite decide_True by lia. done.
    + apply Hmono; [unfold starts_at in Hst; lia|]. apply Hlast. unfold starts_at in Hst. lia.
Qed.

(** The pages that are reserved afterwards: those before, and those the region touches. *)
Lemma take_block_marks (b b' : bootmem_data) (A : list (Z * Z)) (sidx o size : Z) :
  node_ok b -> regions_ok b A -> starts_at b sidx o -> 0 <= o <= 2 ^ 33 -> 0 < size <= 2 ^ 40 ->
  (forall j, 0 <= j -> reserved b' j = if decide (sidx <= j < PFN_UP (o + size)) then true else reserved b j) ->
  forall j, 0 <= j -> reserved b' j = true <-> reserved b j = true \/ (4096 * j < o + size /\ o < 4096 * (j + 1)).
Proof.
  intros _ [_ _ _ Hlast] Hst Ho Hsz Hb' j Hj. pose proof (PFN_UP_spec (o + size) ltac:(lia)). rewrite Hb' by done.
  case_decide as Hd.
  - split; [intros _; right; unfold starts_at in Hst; lia|done].
  - split; [by left|]. intros [?|Ht]; [done|]. apply Hlast. unfold starts_at in Hst. lia.
Qed.

(** ** Requests *)

Record request := Request { rq_size : Z; rq_align : Z; rq_goal : Z; rq_limit : Z }.
Record valid_request (r : request) : Prop := {
  vr_size : 0 < rq_size r <= 2 ^ 40;
  vr_align : pow2 (rq_align r);
  vr_goal : 0 <= rq_goal r <= 2 ^ 40;
  vr_limit : rq_limit r = 0 \/ rq_goal r + rq_size r <= rq_limit r <= 2 ^ 50 }.
Definition step_of (r : request) : Z := Z.max (Z.shiftr (rq_align r) PAGE_SHIFT) 1.

Lemma shiftr_page (x : Z) : 0 <= x -> 0 <= Z.shiftr x PAGE_SHIFT <= x.
Proof.
  intros Hx. unfold PAGE_SHIFT. rewrite Z.shiftr_div_pow2 by lia. change (2 ^ 12) with 4096.
  split; [apply Z.div_pos; lia|apply Z.div_le_upper_bound; lia].
Qed.

(** From where the search starts, and the fallback. *)
Lemma search_start (b : bootmem_data) (step goal max : Z) :
  node_ok b -> pow2 step -> 0 <= goal -> node_min_pfn b <= max <= node_low_pfn b ->
  exists sidx, u64 ((if negb (goal =? 0) && (node_min_pfn b <? goal) && (goal <? max)
                     then ALIGN goal step else ALIGN (node_min_pfn b) step) - node_min_pfn b) = sidx /\
    0 <= sidx <= 2 ^ 33 /\ (goal = 0 -> forall s, 0 <= s -> aligned_at b step s -> sidx <= s).
Proof.
  intros [Hm Hl _ _ _ _ _] Hp Hg Hmax. pose proof (pow2_pos step Hp). eexists. split; [done|].
  destruct (negb (goal =? 0) && (node_min_pfn b <? goal) && (goal <? max)) eqn:E.
  - apply andb_true_iff in E as [E E3]. apply andb_true_iff in E as [E1 E2].
    destruct (ALIGN_spec goal step Hp ltac:(lia)) as [H1 _]. rewrite wrap_id by (unfold in_u; lia).
    split; [lia|]. intros ->. done.
  - destruct (ALIGN_spec (node_min_pfn b) step Hp ltac:(lia)) as [H1 _]. rewrite wrap_id by (unfold in_u; lia).
    split; [lia|]. intros _ s Hs Ha.
    pose proof (ALIGN_least (node_min_pfn b) step (node_min_pfn b + s) Hp ltac:(lia) ltac:(lia) Ha). lia.
Qed.

Lemma alloc_bootmem_core_spec (fuel : nat) (phys_mem : Z) (b : bootmem_data) (A : list (Z * Z)) (r : request) :
  node_ok b -> regions_ok b A -> valid_request r -> 2 * pages_of b + 2 <= Z.of_nat fuel ->
  exists region b', alloc_bootmem_core fuel phys_mem b (rq_size r) (rq_align r) (rq_goal r) (rq_limit r) = Ret (region, b') /\
    node_ok b' /\ same_node b b' /\
    ((region = NULL /\ b' = b /\
      (rq_goal r = 0 -> rq_limit r = 0 -> forall s, 0 <= s -> ~ fits b (step_of r) (PFN_UP (rq_size r)) (pages_of b) s)) \/
     exists o, region = phys_to_virt phys_mem (4096 * node_min_pfn b + o) /\
       (4096 * node_min_pfn b + o) mod rq_align r = 0 /\ 0 <= o /\ o + rq_size r <= 4096 * pages_of b /\
       regions_ok b' ((o, rq_size r) :: A) /\
       forall j, 0 <= j -> reserved b' j = true <->
         reserved b j = true \/ (4096 * j < o + rq_size r /\ o < 4096 * (j + 1))).
Proof.
  intros Hok Hreg [Hsz Hal Hg Hli] Hf. destruct r as [size align goal limit]. unfold step_of. simpl in *.
  pose proof Hok as [Hmin Hlow Hmap _ _ Hh _]. unfold alloc_bootmem_core.
  assert ((size =? 0) || negb (Z.land align (u64 (align - 1)) =? 0) ||
          (negb (limit =? 0) && (limit <? u64 (goal + size))) = false) as ->.
  { rewrite pow2_mask by done. destruct (Z.eqb_spec size 0); [lia|]. simpl.
    rewrite wrap_id by (unfold in_u; lia). destruct Hli as [->|Hli]; [done|].
    destruct (Z.ltb_spec limit (goal + size)); [lia|apply andb_false_r]. }
  rewrite (proj2 (Z.eqb_neq _ _) Hmap). pose proof (shiftr_page goal ltac:(lia)) as Hg'.
  set (g := Z.shiftr goal PAGE_SHIFT) in *. set (li := Z.shiftr limit PAGE_SHIFT) in *.
  set (max := if negb (li =? 0) && (li <? node_low_pfn b) then li else node_low_pfn b).
  assert (max <= node_low_pfn b /\ (limit = 0 -> max = node_low_pfn b)) as [Hmax Hmax0].
  { unfold max. destruct (Z.ltb_spec li (node_low_pfn b)), (Z.eqb_spec li 0); simpl; split; try lia; intros ->; done. }
  destruct (Z.leb_spec max (node_min_pfn b)) as [Hle|Hgt].
  { exists NULL, b. split; [done|]. split; [done|]. split; [done|]. left. split; [done|]. split; [done|].
    intros _ Hl0 s Hs (_ & Fm & _). specialize (Hmax0 Hl0). pose proof (PFN_UP_spec size ltac:(lia)). unfold pages_of in Fm. lia. }
  destruct (pow2_step align Hal) as [Hstep _]. set (step := Z.max (Z.shiftr align PAGE_SHIFT) 1) in *.
  destruct (search_start b step g max Hok Hstep ltac:(lia) ltac:(lia)) as (sidx & Es & Hs & Hs0). rewrite Es.
  rewrite (wrap_id _ (max - node_min_pfn b)) by (unfold in_u; lia).
  assert (exists si fb, (if sidx <? hint_idx b then (align_idx b (hint_idx b) step, u64 (sidx + 1)) else (sidx, 0)) = (si, fb) /\
            0 <= si <= 2 ^ 40 /\ 0 <= fb <= 2 ^ 39 /\ (if fb =? 0 then si else fb - 1) = sidx) as (si & fb & -> & Hsi & Hfb & Hlo).
  { destruct (Z.ltb_spec sidx (hint_idx b)).
    - destruct (align_idx_spec b (hint_idx b) step Hok Hstep ltac:(lia)) as [Hi _]. pose proof (pow2_pos step Hstep).
      eexists _, _. split; [done|]. rewrite wrap_id by (unfold in_u; lia). destruct (Z.eqb_spec (sidx + 1) 0); lia.
    - exists sidx, 0. split; [done|]. simpl. lia. }
  destruct (find_block_spec fuel b size step (max - node_min_pfn b) si fb Hok Hstep Hsz) as (r & -> & Hr);
    [unfold pages_of; lia|done|done|unfold pages_of in Hf; destruct (fb =? 0); lia|].
  cbn [res_bind]. destruct r as [s|].
  - destruct Hr as (Hs1 & Fa & Fm & Ff).
    destruct (take_block_spec phys_mem b size align s Hok Hal Hsz Hs1) as (o & b' & -> & Hok' & Hsame & Hst & Hoa & Ho & Hend & Hl' & Hb').
    { split; [done|]. split; [unfold pages_of; lia|done]. }
    eexists _, b'. split; [done|]. split; [done|]. split; [done|]. right. exists o. split; [done|]. split; [done|].
    split; [done|]. split; [unfold pages_of; lia|].
    split; [by apply (take_block_regions b b' A s (PFN_UP size)); try lia|].
    apply (take_block_marks b b' A s o size Hok Hreg Hst); [unfold pages_of in *; lia|done|done].
  - exists NULL, b. split; [done|]. split; [done|]. split; [done|]. left. split; [done|]. split; [done|].
    intros Hg0 Hl0 s Hs1 Hfit. apply (Hr s).
    + rewrite Hlo. apply Hs0; [unfold g; by rewrite Hg0|done|apply Hfit].
    + by rewrite (Hmax0 Hl0).
Qed.

(** A sequence of requests to one node. *)
Fixpoint alloc_run (fuel : nat) (phys_mem : Z) (b : bootmem_data) (reqs : list request) : res (list Z * bootmem_data) :=
  match reqs with
  | [] => Ret ([], b)
  | r :: reqs =>
      let! (a, b) := alloc_bootmem_core fuel phys_mem b (rq_size r) (rq_align r) (rq_goal r) (rq_limit r) in
      let! (addrs, b) := alloc_run fuel phys_mem b reqs in
      Ret (a :: addrs, b)
  end.
(** The regions that were handed out, as offsets in the node. *)
Definition taken (base : Z) (reqs : list request) (addrs : list Z) : list (Z * Z) :=
  (fun ra : request * Z => (snd ra - base, rq_size (fst ra))) <$>
  filter (fun ra : request * Z => snd ra <> NULL) (zip reqs addrs).

(** Page [j] of the node holds a byte of the region. *)
Definition meets (j : Z) (r : Z * Z) : Prop := 4096 * j < fst r + snd r /\ fst r < 4096 * (j + 1).

Lemma alloc_run_spec (fuel : nat) (phys_mem : Z) (reqs : list request) (b : bootmem_data) (A : list (Z * Z)) :
  0 < phys_mem -> phys_mem + 2 ^ 33 < 2 ^ 64 ->
  node_ok b -> regions_ok b A -> Forall valid_request reqs -> 2 * pages_of b + 2 <= Z.of_nat fuel ->
  exists addrs b', alloc_run fuel phys_mem b reqs = Ret (addrs, b') /\ node_ok b' /\ same_node b b' /\
    regions_ok b' (rev (taken (phys_mem + 4096 * node_min_pfn b) reqs addrs) ++ A) /\
    Forall2 (fun r a => a = NULL \/
      ((a - phys_mem) mod rq_align r = 0 /\ phys_mem + 4096 * node_min_pfn b <= a /\
       a + rq_size r <= phys_mem + 4096 * node_low_pfn b)) reqs addrs /\
    forall j, 0 <= j -> reserved b' j = true <->
      reserved b j = true \/ Exists (meets j) (taken (phys_mem + 4096 * node_min_pfn b) reqs addrs).
Proof.
  intros Hp1 Hp2. revert b A. induction reqs as [|r reqs IH]; intros b A Hok Hreg Hv Hf.
  { exists [], b. split; [done|]. split; [done|]. split; [done|]. split; [done|]. split; [constructor|].
    intros j _. unfold taken. simpl. rewrite Exists_nil. tauto. }
  apply Forall_cons in Hv as [Hr Hv].
  destruct (alloc_bootmem_core_spec fuel phys_mem b A r Hok Hreg Hr Hf) as (a & b1 & E & Hok1 & Hsame & Hcase).
  cbn [alloc_run]. rewrite E. cbn [res_bind]. pose proof Hsame as (S1 & S2 & S3 & S4).
  assert (2 * pages_of b1 + 2 <= Z.of_nat fuel) as Hf1 by (unfold pages_of in *; lia).
  destruct Hcase as [(-> & -> & _)|(o & -> & Hal & Ho & Hend & Hreg1 & Hm1)].
  - destruct (IH b A Hok Hreg Hv Hf) as (addrs & b' & -> & Hok' & Hs' & Hreg' & H2 & Hm).
    exists (NULL :: addrs), b'. split; [done|]. split; [done|]. split; [done|]. split; [done|].
    split; [constructor; [by left|done]|exact Hm].
  - destruct (IH b1 _ Hok1 Hreg1 Hv Hf1) as (addrs & b' & -> & Hok' & Hs' & Hreg' & H2 & Hm). rewrite S1, S2 in *.
    pose proof Hok as [Hmin Hlow _ _ _ _ _]. unfold pages_of in Hend. destruct Hr as [Hsz _ _ _].
    unfold phys_to_virt, __va. rewrite wrap_id by (unfold in_u; lia).
    set (a := 4096 * node_min_pfn b + o + phys_mem) in *. assert (a <> NULL) as HaN by (unfold a, NULL; lia).
    assert (taken (phys_mem + 4096 * node_min_pfn b) (r :: reqs) (a :: addrs) =
      (o, rq_size r) :: taken (phys_mem + 4096 * node_min_pfn b) reqs addrs) as Et.
    { unfold taken. cbn [zip zip_with]. rewrite filter_cons, decide_True by done. cbn [fmap list_fmap fst snd].
      by replace (a - (phys_mem + 4096 * node_min_pfn b)) with o by (unfold a; lia). }
    exists (a :: addrs), b'. rewrite Et. split; [done|]. split; [done|].
    split; [unfold same_node in *; naive_solver congruence|]. split; [|split].
    + cbn [rev]. rewrite <- app_assoc. exact Hreg'.
    + constructor; [right|done]. unfold a. replace (4096 * node_min_pfn b + o + phys_mem - phys_mem) with (4096 * node_min_pfn b + o) by lia.
      split; [done|]. lia.
    + intros j Hj. rewrite Hm, Hm1, Exists_cons by done. unfold meets at 2. cbn [fst snd]. tauto.
Qed.

(** ** Releasing the pages *)

Definition expand (po : Z * Z) : list Z := seqZ (fst po) (2 ^ snd po).

Lemma filter_none {A} (P : A -> Prop) {dP : forall x, Decision (P x)} (l : list A) :
  (forall x, x ∈ l -> ~ P x) -> filter P l = [].
Proof.
  induction l as [|x l IH]; intros H; [done|]. rewrite filter_cons, decide_False by (apply H; by left).
  apply IH. intros y Hy. apply H. by right.
Qed.
Lemma filter_all {A} (P : A -> Prop) {dP : forall x, Decision (P x)} (l : list A) :
  (forall x, x ∈ l -> P x) -> filter P l = l.
Proof.
  induction l as [|x l IH]; intros H; [done|]. rewrite filter_cons, decide_True by (apply H; by left).
  f_equal. apply IH. intros y Hy. apply H. by right.
Qed.
Lemma filter_ext_in {A} (P Q : A -> Prop) {dP : forall x, Decision (P x)} {dQ : forall x, Decision (Q x)} (l : list A) :
  (forall x, x ∈ l -> P x <-> Q x) -> filter P l = filter Q l.
Proof.
  induction l as [|x l IH]; intros H; [done|]. rewrite !filter_cons, IH by (intros y Hy; apply H; by right).
  assert (P x <-> Q x) as Hx by (apply H; by left). repeat case_decide; tauto.
Qed.

Lemma release_word_spec (n : nat) (start off vec : Z) :
  release_word n start off vec ≫= expand =
  filter (fun p => Z.testbit vec (p - (start + off)) = true) (seqZ (start + off) (Z.of_nat n)).
Proof.
  revert off vec. induction n as [|n IH]; intros off vec; [done|]. cbn [release_word].
  destruct (Z.eqb_spec vec 0) as [->|Hne].
  { symmetry. apply filter_none. intros x _. by rewrite Z.bits_0. }
  rewrite bind_app, IH. rewrite (seqZ_cons (start + off)) by lia. rewrite Nat2Z.inj_succ, Z.pred_succ, filter_cons, Z.sub_diag.
  assert (Z.testbit vec 0 = negb (Z.land vec 1 =? 0)) as Ebit.
  { rewrite <- (land_bit vec 0) by lia. done. }
  assert (filter (fun p => Z.testbit (Z.shiftr vec 1) (p - (start + (off + 1))) = true) (seqZ (start + (off + 1)) (Z.of_nat n)) =
          filter (fun p => Z.testbit vec (p - (start + off)) = true) (seqZ (Z.succ (start + off)) (Z.of_nat n))) as ->.
  { replace (start + (off + 1)) with (Z.succ (start + off)) by lia. apply filter_ext_in. intros x Hx%elem_of_seqZ.
    rewrite Z.shiftr_spec by lia. by replace (x - Z.succ (start + off) + 1) with (x - (start + off)) by lia. }
  rewrite Ebit. destruct (Z.land vec 1 =? 0); cbn [negb]; [rewrite decide_False by done; done|rewrite decide_True by done; done].
Qed.

(** The pages of the node that are free, in order. *)
Definition free_in (b : bootmem_data) (from len : Z) : list Z :=
  filter (fun p => reserved b (p - node_min_pfn b) = false) (seqZ from len).

Lemma free_in_app (b : bootmem_data) (from l1 l2 : Z) :
  0 <= l1 -> 0 <= l2 -> free_in b from (l1 + l2) = free_in b from l1 ++ free_in b (from + l1) l2.
Proof. intros H1 H2. unfold free_in. by rewrite seqZ_app, filter_app by done. Qed.

Lemma word_pages (b : bootmem_data) (i w : Z) (bulk : bool) :
  aget (bootmap b) i = Some w -> 0 <= i -> (bulk = true -> u64 (Z.lnot w) = ones64) ->
  (if bulk then [(node_min_pfn b + 64 * i, 6)] else release_word 64 (node_min_pfn b + 64 * i) 0 (u64 (Z.lnot w))) ≫= expand =
  free_in b (node_min_pfn b + 64 * i) 64.
Proof.
  intros Hw Hi Hb. set (start := node_min_pfn b + 64 * i).
  assert (forall x, x ∈ seqZ start 64 -> reserved b (x - node_min_pfn b) = negb (Z.testbit (u64 (Z.lnot w)) (x - start))) as Hbit.
  { intros x Hx%elem_of_seqZ. unfold reserved, start in *. replace (x - node_min_pfn b) with (64 * i + (x - (node_min_pfn b + 64 * i))) by lia.
    rewrite (bit_word _ _ w) by (done || lia). rewrite u64_lnot_bit by lia. by rewrite negb_involutive. }
  destruct bulk.
  - cbn [mbind list_bind]. rewrite app_nil_r. unfold expand, free_in. simpl. symmetry. apply filter_all.
    intros x Hx. rewrite Hbit by done. apply elem_of_seqZ in Hx. rewrite Hb by done. by rewrite ones64_bit by lia.
  - rewrite release_word_spec. rewrite Z.add_0_r. unfold free_in. apply filter_ext_in. intros x Hx.
    rewrite Hbit by done. destruct (Z.testbit _ _); done.
Qed.

Lemma release_words_spec (fuel : nat) (b : bootmem_data) (al : bool) (i : Z) :
  node_ok b -> 0 <= i -> (0 < fuel)%nat -> pages_of b - 64 * i <= 64 * Z.of_nat fuel - 64 ->
  exists freed, release_words fuel b al (node_min_pfn b + 64 * i) = Ret freed /\
    freed ≫= expand = free_in b (node_min_pfn b + 64 * i) (64 * Z.max 0 ((pages_of b - 64 * i + 63) / 64)).
Proof.
  intros Hok. pose proof Hok as [Hmin Hlow _ Hw Hbits _ _]. unfold pages_of. revert i.
  induction fuel as [|fuel IH]; intros i Hi Hpos Hf; [lia|].
  cbn [release_words]. destruct (Z.ltb_spec (node_min_pfn b + 64 * i) (node_low_pfn b)) as [Hlt|Hge]; cbn [negb].
  2: { exists []. split; [done|]. rewrite Z.max_l; [done|].
       assert ((node_low_pfn b - node_min_pfn b - 64 * i + 63) / 64 < 1) by (apply Z.div_lt_upper_bound; lia). lia. }
  unfold BITS_PER_LONG. replace (node_min_pfn b + 64 * i - node_min_pfn b) with (i * 64) by lia. rewrite Z.div_mul by lia.
  destruct (aget_is_Some (bootmap b) i) as [w Ew]; [unfold nbits in Hbits; lia|]. rewrite Ew. cbn [deref res_bind].
  replace (node_min_pfn b + 64 * i + 64) with (node_min_pfn b + 64 * (i + 1)) by lia.
  destruct (IH (i + 1)) as (rest & -> & Erest); [lia|lia|lia|]. cbn [res_bind]. eexists. split; [done|].
  rewrite bind_app, Erest. rewrite word_pages; [|done|done|].
  2: { intros E. apply andb_true_iff in E as [E _]. apply andb_true_iff in E as [_ E]. by apply Z.eqb_eq in E. }
  replace (node_min_pfn b + 64 * (i + 1)) with (node_min_pfn b + 64 * i + 64) by lia.
  rewrite <- free_in_app by lia. f_equal.
  replace (node_low_pfn b - node_min_pfn b - 64 * i + 63) with (node_low_pfn b - node_min_pfn b - 64 * (i + 1) + 63 + 1 * 64) by lia.
  rewrite Z.div_add by lia.
  assert (0 <= (node_low_pfn b - node_min_pfn b - 64 * (i + 1) + 63) / 64) by (apply Z.div_pos; lia). lia.
Qed.

(** Without the bits behind the last page, which stay set. *)
Lemma free_in_pad (b : bootmem_data) (len : Z) :
  pages_of b <= len -> 0 <= pages_of b -> (forall j, pages_of b <= j < len -> reserved b j = true) ->
  free_in b (node_min_pfn b) len = free_in b (node_min_pfn b) (pages_of b).
Proof.
  intros H1 H2 Hp. replace len with (pages_of b + (len - pages_of b)) by lia. rewrite free_in_app by lia.
  rewrite <- (app_nil_r (free_in _ _ (pages_of b))) at 2. f_equal. apply filter_none.
  intros x Hx%elem_of_seqZ. rewrite Hp by lia. done.
Qed.

Lemma count_expand (l : list (Z * Z)) :
  (forall po, po ∈ l -> 0 <= snd po) ->
  foldr Z.add 0 ((fun po => 2 ^ snd po) <$> l) = Z.of_nat (length (l ≫= expand)).
Proof.
  induction l as [|po l IH]; intros H; [done|]. cbn [fmap list_fmap foldr mbind list_bind].
  rewrite IH by (intros; apply H; by right). rewrite length_app. unfold expand at 2. rewrite length_seqZ.
  assert (0 < 2 ^ snd po) by (apply Z.pow_pos_nonneg; [lia|apply H; by left]). lia.
Qed.
Lemma release_word_order (n : nat) (start off vec : Z) (po : Z * Z) : po ∈ release_word n start off vec -> snd po = 0.
Proof.
  revert off vec. induction n as [|n IH]; intros off vec; cbn [release_word]; [set_solver|].
  destruct (vec =? 0); [set_solver|]. rewrite elem_of_app. intros [H|H]; [|by eapply IH].
  destruct (Z.land vec 1 =? 0); [set_solver|]. by apply list_elem_of_singleton in H as ->.
Qed.
#[local] Opaque release_word.
Lemma release_words_order (fuel : nat) (b : bootmem_data) (al : bool) (start : Z) (freed : list (Z * Z)) (po : Z * Z) :
  release_words fuel b al start = Ret freed -> po ∈ freed -> 0 <= snd po.
Proof.
  revert start freed. induction fuel as [|fuel IH]; intros start freed; cbn [release_words]; [done|].
  destruct (negb _); [intros [= <-]; set_solver|]. destruct (aget _ _) as [w|]; [|done]. cbn [deref res_bind].
  destruct (release_words fuel b al _) as [rest| | |] eqn:E; try done. cbn [res_bind]. intros [= <-].
  rewrite elem_of_app. intros [H|H]; [|by eapply IH].
  destruct (al && _ && _); [by apply list_elem_of_singleton in H as ->|]. by rewrite (release_word_order _ _ _ _ _ H).
Qed.

(** [free_all_bootmem_core]: every free page of the node and the pages of the bitmap. *)
Lemma free_all_bootmem_core_spec (fuel : nat) (phys_mem : Z) (b : bootmem_data) :
  node_ok b -> pages_of b <= 64 * Z.of_nat fuel - 64 ->
  (forall j, pages_of b <= j < 64 * ((pages_of b + 63) / 64) -> reserved b j = true) ->
  0 <= bootmem_bootmap_pages (pages_of b) ->
  exists count pages, free_all_bootmem_core fuel phys_mem b = Ret (count, pages) /\
    count = Z.of_nat (length (pages ≫= expand)) /\
    pages ≫= expand = free_in b (node_min_pfn b) (pages_of b) ++
      seqZ (virt_to_pfn phys_mem (node_bootmem_map b)) (bootmem_bootmap_pages (pages_of b)).
Proof.
  intros Hok Hf Hpad Hbm. pose proof Hok as [Hmin Hlow Hmap _ _ _ _]. unfold free_all_bootmem_core.
  rewrite (proj2 (Z.eqb_neq _ _) Hmap).
  destruct (release_words_spec fuel b (Z.land (node_min_pfn b) (BITS_PER_LONG - 1) =? 0) 0 Hok) as (freed & E & Ef); [lia|unfold pages_of in Hf; lia|lia|].
  rewrite Z.mul_0_r, Z.add_0_r in E, Ef. rewrite E. cbn [res_bind]. rewrite Z.sub_0_r in Ef.
  assert (0 <= pages_of b) as H0 by (unfold pages_of; lia).
  assert (0 <= (pages_of b + 63) / 64) by (apply Z.div_pos; lia). rewrite Z.max_r in Ef by done.
  pose proof (Z.div_mod (pages_of b + 63) 64 ltac:(lia)). pose proof (Z.mod_pos_bound (pages_of b + 63) 64 ltac:(lia)).
  rewrite free_in_pad in Ef by (done || lia). fold (pages_of b).
  set (own := (fun i : nat => _) <$> _).
  assert (own ≫= expand = seqZ (virt_to_pfn phys_mem (node_bootmem_map b)) (bootmem_bootmap_pages (pages_of b))) as Eown.
  { unfold own. set (q := virt_to_pfn _ _). unfold seqZ. clear -Hbm. rewrite <- (Z2Nat.id (bootmem_bootmap_pages (pages_of b))) at 2 by done.
    rewrite Nat2Z.id. induction (seq 0 _) as [|x l IH]; [done|]. cbn [fmap list_fmap mbind list_bind]. rewrite IH.
    unfold expand, seqZ. simpl. f_equal. lia. }
  eexists _, _. split; [done|]. rewrite bind_app, Eown, Ef, length_app. split; [|done].
  rewrite (count_expand freed) by (intros po Hpo; by eapply release_words_order).
  rewrite Ef, Nat2Z.inj_add, length_seqZ. f_equal. lia.
Qed.

(** ** Setting memory up *)

Lemma bootmap_bytes_spec (pages : Z) : 0 <= pages <= 2 ^ 20 ->
  let w := bootmap_bytes pages / 8 in
  bootmap_bytes pages = 8 * w /\ pages <= 64 * w < pages + 64 /\ (pages + 63) / 64 = w.
Proof.
  intros Hp w. unfold w, bootmap_bytes. rewrite (wrap_id _ (pages + 7)) by (unfold in_u; lia).
  pose proof (Z.div_mod (pages + 7) 8 ltac:(lia)). pose proof (Z.mod_pos_bound (pages + 7) 8 ltac:(lia)).
  destruct (ALIGN_spec ((pages + 7) / 8) 8) as [H1 H2]; [by exists 3|lia|].
  set (x := ALIGN _ _) in *. pose proof (Z.div_mod x 8 ltac:(lia)) as Hx. rewrite H2 in Hx.
  split; [lia|]. split; [lia|]. symmetry. apply Z.div_unique with (pages + 63 - 64 * (x / 8)); lia.
Qed.
Lemma bootmap_pages_spec (pages : Z) : 0 <= pages <= 2 ^ 20 ->
  bootmem_bootmap_pages pages = PFN_UP (bootmap_bytes pages).
Proof.
  intros Hp. destruct (bootmap_bytes_spec pages Hp) as (H1 & H2 & _). unfold bootmem_bootmap_pages, PAGE_ALIGN, PFN_UP.
  set (x := bootmap_bytes pages) in *. destruct (ALIGN_spec x PAGE_SIZE) as [Ha Hb]; [by exists 12|lia|].
  unfold PAGE_SIZE, PAGE_SHIFT in *. rewrite wrap_id by (unfold in_u; lia). rewrite !Z.shiftr_div_pow2 by lia. change (2 ^ 12) with 4096.
  set (y := ALIGN x 4096) in *. pose proof (Z.div_mod y 4096 ltac:(lia)). rewrite Hb in *.
  apply Z.div_unique with (x + 4096 - 1 - y); lia.
Qed.

Lemma bit_replicate (k : nat) (i : Z) : 0 <= i < 64 * Z.of_nat k -> bit (replicate k ones64) i = true.
Proof.
  intros Hi. unfold bit, aget. assert (0 <= i / 64 < Z.of_nat k).
  { split; [apply Z.div_pos; lia|apply Z.div_lt_upper_bound; lia]. }
  destruct (Z.ltb_spec (i / 64) 0); [lia|]. rewrite lookup_replicate_2 by lia. apply ones64_bit.
  apply Z.mod_pos_bound. lia.
Qed.

(** The node that [init_bootmem] registers: every page is reserved. *)
Lemma init_bootmem_spec (pm pages : Z) : 0 < pm < 2 ^ 63 -> 0 < pages < 2 ^ 20 ->
  exists b, init_bootmem pm 0 pages [] = (bootmap_bytes pages, [b]) /\ node_ok b /\
    node_min_pfn b = 0 /\ node_low_pfn b = pages /\ node_bootmem_map b = pm /\ last_end_off b = 0 /\
    nbits (bootmap b) = 64 * ((pages + 63) / 64) /\ forall j, 0 <= j < nbits (bootmap b) -> reserved b j = true.
Proof.
  intros Hpm Hp. unfold init_bootmem, init_bootmem_core. rewrite Z.sub_0_r, (wrap_id _ pages) by (unfold in_u; lia).
  destruct (bootmap_bytes_spec pages ltac:(lia)) as (H1 & H2 & H3). set (w := bootmap_bytes pages / 8) in *.
  rewrite H3. assert (phys_to_virt pm (PFN_PHYS 0) = pm) as Ev.
  { unfold phys_to_virt, __va. rewrite PFN_PHYS_spec by lia. rewrite wrap_id; unfold in_u; lia. }
  rewrite Ev. eexists. split; [done|].
  assert (nbits (replicate (Z.to_nat w) ones64) = 64 * w) as Hnb by (unfold nbits; rewrite length_replicate; lia).
  split.
  - split; simpl; try lia; [unfold NULL; lia|].
    apply Forall_replicate. by apply wrap_range.
  - simpl. split_and!; try done. intros j Hj. rewrite Hnb in Hj. apply bit_replicate. lia.
Qed.

Lemma node_ok_map (b : bootmem_data) (m : bitmap) (h : Z) :
  node_ok b -> words_ok m -> length m = length (bootmap b) -> 0 <= h <= 2 ^ 20 -> node_ok (set_bootmap m (set_hint h b)).
Proof. intros [] Hw Hl Hh. split; simpl; try done. unfold nbits in *. by rewrite Hl. Qed.

Lemma free_first_pages (pm sz : Z) (b : bootmem_data) :
  0 < pm < 2 ^ 62 -> node_ok b -> node_min_pfn b = 0 -> 0 < node_low_pfn b ->
  4096 * node_low_pfn b <= sz < 4096 * (node_low_pfn b + 1) -> 
  (forall j, 0 <= j < pages_of b -> reserved b j = true) ->
  exists b', free_bootmem pm pm sz [b] = Ret [b'] /\ node_ok b' /\ same_node b b' /\ last_end_off b' = last_end_off b /\
    forall j, 0 <= j -> reserved b' j = if decide (j < pages_of b) then false else reserved b j.
Proof.
  intros Hpm Hok Hmin Hlow Hsz Hr. pose proof Hok as [_ Hl20 _ Hw Hbits Hh _]. unfold pages_of in *. rewrite Hmin, Z.sub_0_r in *.
  unfold free_bootmem, virt_to_phys, __pa. rewrite Z.sub_diag. change (PFN_UP (u64 0)) with 0.
  rewrite (wrap_id _ (pm + sz)) by (unfold in_u; lia). replace (pm + sz - pm) with sz by lia. rewrite wrap_id by (unfold in_u; lia).
  pose proof (PFN_DOWN_spec sz). assert (PFN_DOWN sz = node_low_pfn b) as -> by lia.
  unfold mark_bootmem. cbn [mark_nodes]. rewrite Hmin, Z.ltb_irrefl. destruct (Z.leb_spec (node_low_pfn b) 0); [lia|]. cbn [orb].
  rewrite Z.min_id. unfold mark_bootmem_node. rewrite Hmin, Z.ltb_irrefl. cbn [orb].
  rewrite !Z.sub_0_r, (wrap_id _ (node_low_pfn b)) by (unfold in_u; lia). change (u64 0) with 0. unfold __free.
  set (h := if 0 <? hint_idx b then 0 else hint_idx b).
  assert ((if 0 <? hint_idx b then set_hint 0 b else b) = set_hint h b) as -> by (unfold h; destruct (0 <? hint_idx b); [done|by destruct b]).
  assert (0 <= h <= 2 ^ 20) as Hh' by (unfold h; destruct (0 <? hint_idx b); lia).
  destruct (free_loop_spec (Z.to_nat (node_low_pfn b - 0)) 0 (bootmap (set_hint h b))) as (m & -> & Hw' & Hlen & Hb'); simpl; try done; try lia.
  { intros j Hj. apply Hr. lia. }
  cbn [res_bind]. simpl. rewrite Z.eqb_refl, Z.ltb_irrefl. simpl. eexists. split; [done|].
  split; [by apply node_ok_map|]. split; [done|]. split; [done|].
  intros j Hj. unfold reserved at 1. simpl. rewrite Hb' by done. rewrite Z.sub_0_r, Z2Nat.id, Z.add_0_l by lia.
  repeat case_decide; try done; lia.
Qed.

Lemma reserve_first_pages (pm sz : Z) (b : bootmem_data) :
  0 < pm < 2 ^ 62 -> node_ok b -> node_min_pfn b = 0 -> 0 < sz -> PFN_UP sz <= node_low_pfn b -> sz < 2 ^ 33 ->
  exists b', reserve_bootmem pm pm sz BOOTMEM_DEFAULT [b] = Ret (0, [b']) /\ node_ok b' /\ same_node b b' /\
    last_end_off b' = last_end_off b /\
    forall j, 0 <= j -> reserved b' j = if decide (j < PFN_UP sz) then true else reserved b j.
Proof.
  intros Hpm Hok Hmin Hsz Hle Hs33. pose proof Hok as [_ Hl20 _ Hw Hbits Hh _]. rewrite Hmin, Z.sub_0_r in *.
  unfold reserve_bootmem, virt_to_phys, __pa. rewrite Z.sub_diag. change (PFN_DOWN (u64 0)) with 0.
  rewrite (wrap_id _ (pm + sz)) by (unfold in_u; lia). replace (pm + sz - pm) with sz by lia. rewrite wrap_id by (unfold in_u; lia).
  pose proof (PFN_UP_spec sz ltac:(lia)). set (e := PFN_UP sz) in *.
  unfold mark_bootmem. cbn [mark_nodes]. rewrite Hmin, Z.ltb_irrefl. destruct (Z.leb_spec (node_low_pfn b) 0); [lia|]. cbn [orb].
  rewrite Z.min_r by lia. unfold mark_bootmem_node. rewrite Hmin, Z.ltb_irrefl. destruct (Z.ltb_spec (node_low_pfn b) e); [lia|]. cbn [orb].
  rewrite !Z.sub_0_r, (wrap_id _ e) by (unfold in_u; lia). change (u64 0) with 0. unfold __reserve.
  change (negb (Z.land BOOTMEM_DEFAULT BOOTMEM_EXCLUSIVE =? 0)) with false.
  destruct (reserve_loop_spec (Z.to_nat (e - 0)) 0 0 false b) as (m & -> & Hw' & Hlen & Hb'); try done; try lia.
  cbn [res_bind]. simpl. rewrite Z.eqb_refl. simpl. eexists. split; [done|].
  split. { assert (set_bootmap m b = set_bootmap m (set_hint (hint_idx b) b)) as -> by done. by apply node_ok_map. }
  split; [done|]. split; [done|].
  intros j Hj. unfold reserved at 1. simpl. rewrite Hb' by done. rewrite Z.sub_0_r, Z2Nat.id, Z.add_0_l by lia.
  repeat case_decide; try done; lia.
Qed.

(** The page-aligned part of the host's block. *)
Lemma page_part (p size : Z) : 0 < p < 2 ^ 61 -> 12288 <= size < 2 ^ 32 ->
  exists pm sz, (if negb (PAGE_ALIGN p =? p) then
                   (PAGE_ALIGN p, u64 (size - (PAGE_ALIGN p - p)) / PAGE_SIZE * PAGE_SIZE)
                 else (p, size)) = (pm, sz) /\
    pm mod 4096 = 0 /\ p <= pm < p + 4096 /\ pm + sz <= p + size /\ p + size < pm + sz + 4096 + 4096 /\
    8192 <= sz < 2 ^ 32.
Proof.
  intros Hp Hs. unfold PAGE_ALIGN. destruct (ALIGN_spec p PAGE_SIZE) as [H1 H2]; [by exists 12|lia|]. unfold PAGE_SIZE in *.
  destruct (Z.eqb_spec (ALIGN p 4096) p) as [E|E]; cbn [negb]; eexists _, _; (split; [done|]).
  - rewrite E in H2. lia.
  - rewrite wrap_id by (unfold in_u; lia). set (x := size - (ALIGN p 4096 - p)) in *.
    pose proof (Z.div_mod x 4096 ltac:(lia)). pose proof (Z.mod_pos_bound x 4096 ltac:(lia)). split; [done|]. lia.
Qed.

(** The bitmap of a block of at least two pages leaves room for one more page. *)
Lemma bootmap_room (P : Z) : 2 <= P < 2 ^ 20 ->
  0 < bootmap_bytes P < 2 ^ 18 /\ 1 <= PFN_UP (bootmap_bytes P) < P.
Proof.
  intros HP. destruct (bootmap_bytes_spec P ltac:(lia)) as (H1 & H2 & _). pose proof (PFN_UP_spec (bootmap_bytes P) ltac:(lia)).
  set (x := bootmap_bytes P) in *. set (y := PFN_UP x) in *. lia.
Qed.

(** The allocation of one page succeeds when a page is free, outside the regions that are
    in use. *)
Lemma alloc_one_page (fuel : nat) (pm : Z) (kzalloc : Z -> Z) (b : bootmem_data) (A : list (Z * Z)) (k : Z) :
  0 < pm < 2 ^ 62 -> node_ok b -> regions_ok b A -> node_min_pfn b = 0 -> 2 * pages_of b + 2 <= Z.of_nat fuel ->
  0 <= k < pages_of b -> reserved b k = false ->
  exists z b', alloc_bootmem_pages fuel pm false kzalloc PAGE_SIZE [b] = Ret (pm + 4096 * z, [b']) /\
    node_ok b' /\ same_node b b' /\ 0 <= z < pages_of b /\ regions_ok b' ((4096 * z, 4096) :: A) /\
    forall j, 0 <= j -> reserved b' j = true <-> reserved b j = true \/ j = z.
Proof.
  intros Hpm Hok Hreg Hmin Hf Hk Hfree. pose proof Hok as [_ Hl20 _ _ _ _ _].
  assert (pages_of b < 2 ^ 20) as HP by (unfold pages_of; lia).
  unfold alloc_bootmem_pages, __alloc_bootmem, ___alloc_bootmem, ___alloc_bootmem_nopanic, alloc_arch_preferred_bootmem.
  unfold __pa. rewrite Z.sub_diag. change (u64 0) with 0. cbn [alloc_nodes]. change (negb (NULL =? NULL)) with false.
  change (negb (0 =? 0)) with false. cbn [andb].
  destruct (alloc_bootmem_core_spec fuel pm b A (Request PAGE_SIZE PAGE_SIZE 0 0) Hok Hreg) as
    (a & b' & E & Hok' & Hsame & Hcase); [|done|].
  { split; simpl; unfold PAGE_SIZE; try lia. by exists 12. }
  cbn [rq_size rq_align rq_goal rq_limit] in *. rewrite E. cbn [res_bind].
  destruct Hcase as [(_ & _ & Hno)|(o & -> & Hal & Ho & Hend & Hreg' & Hb')].
  { exfalso. apply (Hno eq_refl eq_refl k); [lia|]. change (PFN_UP PAGE_SIZE) with 1. split; [|split].
    - unfold aligned_at, step_of. simpl. apply Z.mod_1_r.
    - lia.
    - intros j Hj. replace j with k by lia. done. }
  rewrite Hmin, Z.mul_0_r, Z.add_0_l in *. unfold PAGE_SIZE in *.
  pose proof (Z.div_mod o 4096 ltac:(lia)) as Hz. rewrite Hal, Z.add_0_r in Hz. set (z := o / 4096) in *.
  assert (phys_to_virt pm o = pm + 4096 * z) as ->.
  { unfold phys_to_virt, __va. rewrite wrap_id; unfold in_u; lia. }
  assert ((pm + 4096 * z =? NULL) = false) as Hnn by (apply Z.eqb_neq; unfold NULL; lia).
  rewrite Hnn. cbn [negb res_bind]. rewrite Hnn. cbn [negb res_bind]. rewrite Hnn. cbn [negb].
  exists z, b'. split; [done|]. split; [done|]. split; [done|]. split; [lia|].
  split; [by rewrite <- Hz|].
  intros j Hj. rewrite Hb' by done. split; (intros [?|?]; [by left|right; lia]).
Qed.

(** What [mem_init_0] leaves: one node over the pages of the block, in which the pages of
    the bitmap and the zero page are reserved. *)
Record booted (p size : Z) (b : boot) (P k z : Z) (nd : bootmem_data) : Prop := {
  bt_aligned : phys_mem b mod 4096 = 0;
  bt_inside : p <= phys_mem b /\ phys_mem b + 4096 * P <= p + size < phys_mem b + 4096 * P + 12288;
  bt_pages : zone_normal_pages b = P /\ P = phys_mem_size b / 4096 /\ 2 <= P;
  bt_host : _phys_mem b = p;
  bt_node : bdata_list b = [nd] /\ node_ok nd /\ node_min_pfn nd = 0 /\ node_low_pfn nd = P /\
            node_bootmem_map nd = phys_mem b;
  bt_pad : forall j, P <= j < 64 * ((P + 63) / 64) -> reserved nd j = true;
  bt_regions : regions_ok nd [(4096 * z, 4096); (0, 4096 * k)];
  bt_map : k = bootmem_bootmap_pages P /\ 1 <= k <= z;
  bt_zero : empty_zero_page b = phys_mem b + 4096 * z /\ z < P;
  bt_marks : forall j, 0 <= j < P -> reserved nd j = true <-> j < k \/ j = z }.

Section mem_init_spec.
Context {N : Type} {ops : lkl_native_operations N} {laws : native_laws N}.
#[local] Set Default Proof Using "Type".

Lemma mem_init_0_spec (fuel : nat) (kzalloc : Z -> Z) (size p : Z) (n n' : N) :
  mem_alloc (u32 size) n = (p, n') -> 0 < p < 2 ^ 61 -> 12288 <= u32 size -> u32 size + 8192 <= 2048 * Z.of_nat fuel ->
  exists b P k z nd, mem_init_0 fuel false kzalloc size n = Ret (n', b) /\ booted p (u32 size) b P k z nd.
Proof.
  intros Ha Hp Hs Hf. assert (u32 size < 2 ^ 32) as Hs32 by (by apply wrap_range).
  unfold mem_init_0. rewrite Ha. destruct (Z.eqb_spec p NULL); [unfold NULL in *; lia|].
  destruct (page_part p (u32 size) Hp ltac:(lia)) as (pm & sz & -> & Hal & Hin & Hend & Hbig & Hsz).
  assert (virt_to_pfn pm pm = 0) as ->.
  { unfold virt_to_pfn, __pa. by rewrite Z.sub_diag. }
  assert (virt_to_pfn pm (u64 (pm + sz)) = PFN_DOWN sz) as ->.
  { unfold virt_to_pfn, __pa. rewrite (wrap_id _ (pm + sz)) by (unfold in_u; lia).
    replace (pm + sz - pm) with sz by lia. by rewrite wrap_id by (unfold in_u; lia). }
  pose proof (PFN_DOWN_spec sz) as HP. set (P := PFN_DOWN sz) in *.
  destruct (init_bootmem_spec pm P ltac:(lia) ltac:(lia)) as (b0 & -> & Hok0 & M0 & L0 & N0 & E0 & B0 & R0).
  assert (P <= nbits (bootmap b0)) as HPn by (destruct Hok0; lia).
  destruct (free_first_pages pm sz b0) as (b1 & -> & Hok1 & (M1 & L1 & N1 & W1) & E1 & R1);
    [lia|done|done|lia|lia|intros j Hj; apply R0; unfold pages_of in Hj; lia|].
  cbn [res_bind]. destruct (bootmap_room P ltac:(lia)) as [Hbb Hroom].
  rewrite swrap_id by (unfold in_s; lia).
  destruct (reserve_first_pages pm (bootmap_bytes P) b1) as (b2 & -> & Hok2 & (M2 & L2 & N2 & W2) & E2 & R2);
    [lia|done|lia|lia|lia|lia|].
  cbn [res_bind]. set (k := PFN_UP (bootmap_bytes P)) in *.
  assert (pages_of b0 = P) as P0 by (unfold pages_of; lia). assert (pages_of b2 = P) as P2 by (unfold pages_of; lia).
  destruct (alloc_one_page fuel pm kzalloc b2 [(0, 4096 * k)] k) as (z & b3 & -> & Hok3 & (M3 & L3 & N3 & W3) & Hz & Hreg3 & R3); [lia|done| |lia|lia|lia| |].
  { split.
    - intros o s [= -> ->]%list_elem_of_singleton. split; [lia|]. split; [lia|]. intros j H1 H2.
      by rewrite R2, decide_True by lia.
    - repeat constructor.
    - intros o s [= -> ->]%list_elem_of_singleton. right. by rewrite E2, E1, E0.
    - intros j Hj. lia. }
  { rewrite R2, decide_False, R1, decide_True by lia. done. }
  cbn [res_bind]. eexists _, P, k, z, b3. split; [done|].
  assert (forall j, 0 <= j < P -> reserved b2 j = true <-> j < k) as Hr2.
  { intros j Hj. rewrite R2, R1 by lia. repeat case_decide; try lia; done. }
  assert (k <= z) as Hkz.
  { destruct Hreg3 as [_ Hdis _ _]. inversion Hdis as [|x l Hd _ Ex]. rewrite Forall_singleton in Hd.
    unfold disjoint in Hd. cbn [fst snd] in Hd. lia. }
  split; simpl.
  - done.
  - lia.
  - split; [done|]. split; [|lia]. unfold P, PFN_DOWN, PAGE_SHIFT. by rewrite Z.shiftr_div_pow2 by lia.
  - done.
  - split; [done|]. split; [done|]. lia.
  - intros j Hj. apply R3; [lia|]. left. rewrite R2, decide_False, R1, decide_False by lia. apply R0. lia.
  - done.
  - split; [|lia]. by rewrite bootmap_pages_spec by lia.
  - lia.
  - intros j Hj. rewrite R3, Hr2 by lia. done.
Qed.

(** Between [mem_init_0] and [mem_init] the generic code allocates from the node: the memory
    map in [free_area_init], then what else is set up before the page allocator.  Which
    requests it makes is a parameter. *)
Definition boot_allocations (fuel : nat) (reqs : list request) (b : boot) : res (list Z * boot) :=
  match bdata_list b with
  | nd :: rest =>
      let! (addrs, nd) := alloc_run fuel (phys_mem b) nd reqs in
      Ret (addrs, Boot (phys_mem b) (phys_mem_size b) (memory_end b) (_phys_mem b) (empty_zero_page b)
             (zone_normal_pages b) (nd :: rest) (freed_pages b) (totalram_pages b) (max_mapnr b))
  | [] => Bug
  end.

(** [mem_init] on one node whose first [k] pages, reserved, hold the bitmap. *)
Lemma mem_init_spec (fuel : nat) (high_memory : Z) (b : boot) (P k : Z) (nd : bootmem_data) :
  bdata_list b = [nd] -> node_ok nd -> node_min_pfn nd = 0 -> node_low_pfn nd = P -> node_bootmem_map nd = phys_mem b ->
  (forall j, P <= j < 64 * ((P + 63) / 64) -> reserved nd j = true) ->
  k = bootmem_bootmap_pages P -> 0 <= k <= P -> (forall j, 0 <= j < k -> reserved nd j = true) ->
  P <= 64 * Z.of_nat fuel - 64 ->
  exists b', mem_init fuel high_memory b = Ret b' /\ _phys_mem b' = _phys_mem b /\
    totalram_pages b' = Z.of_nat (length (freed_pages b' ≫= expand)) /\ NoDup (freed_pages b' ≫= expand) /\
    forall q, q ∈ freed_pages b' ≫= expand <-> 0 <= q < P /\ (q < k \/ reserved nd q = false).
Proof.
  intros Hbd Hok M L Nm Hpad Hk Hkz Hres Hf. assert (pages_of nd = P) as HPn by (unfold pages_of; lia).
  unfold mem_init. rewrite Hbd. cbn [free_all_bootmem].
  destruct (free_all_bootmem_core_spec fuel (phys_mem b) nd Hok) as (c & pages & -> & Hc & Hx);
    rewrite ?HPn; [done|done|lia|].
  cbn [res_bind]. eexists. split; [done|]. cbn [_phys_mem totalram_pages freed_pages].
  rewrite app_nil_r, Z.add_0_r. split; [done|]. split; [done|].
  assert (virt_to_pfn (phys_mem b) (phys_mem b) = 0) as E0 by (unfold virt_to_pfn, __pa; by rewrite Z.sub_diag).
  rewrite Hx, HPn, M, Nm, <- Hk, E0. unfold free_in. split.
  - apply NoDup_app. split; [apply NoDup_filter, NoDup_seqZ|]. split; [|apply NoDup_seqZ].
    intros q [Hr Hq]%list_elem_of_filter. rewrite elem_of_seqZ in *. intros Hq'.
    rewrite M, Z.sub_0_r, Hres in Hr by lia. done.
  - intros q. rewrite elem_of_app, list_elem_of_filter, !elem_of_seqZ, M, Z.sub_0_r. split; [naive_solver lia|].
    intros [Hq [Hk'|Hr]]; [right; lia|left; split; [done|lia]].
Qed.

Lemma ord_pairs_cross {A} (R : A -> A -> Prop) (l l' : list A) (x y : A) :
  ForallOrdPairs R (l ++ l') -> x ∈ l -> y ∈ l' -> R x y.
Proof.
  induction l as [|a l IH]; intros H Hx Hy; [by apply not_elem_of_nil in Hx|].
  inversion H as [|b m Ha Hl]; subst. apply elem_of_cons in Hx as [->|Hx]; [|by apply IH].
  rewrite Forall_app, !Forall_forall in Ha. by apply Ha.
Qed.

(** The pages that [mem_init] releases are those that no region meets. *)
Lemma boot_page_free (P k z q : Z) (nd nd' : bootmem_data) (R : list (Z * Z)) :
  0 <= q < P -> k <= z ->
  (reserved nd q = true <-> q < k \/ q = z) -> (reserved nd' q = true <-> reserved nd q = true \/ Exists (meets q) R) ->
  (forall o s, (o, s) ∈ R -> 0 <= o /\ 0 < s) -> (forall r, r ∈ R -> disjoint r (0, 4096 * k)) ->
  (q < k \/ reserved nd' q = false) <-> ~ Exists (meets q) ((4096 * z, 4096) :: R).
Proof.
  intros Hq Hkz Hm Hm' Hpos Hdis. rewrite Exists_cons, <- not_true_iff_false, Hm', Hm.
  assert (meets q (4096 * z, 4096) <-> q = z) as -> by (unfold meets; cbn [fst snd]; lia).
  assert (q < k -> ~ Exists (meets q) R) as Hex.
  { intros Hk ([o s] & Hin & Hme)%Exists_exists. specialize (Hpos _ _ Hin). specialize (Hdis _ Hin).
    unfold meets, disjoint in *. cbn [fst snd] in *. lia. }
  split.
  - intros [Hk|Hn]; [|tauto]. intros [?|?]; [lia|by apply Hex].
  - intros Hn. destruct (decide (q < k)); [by left|right]. tauto.
Qed.

(** C18: the pages of the machine.  For every block of at least three pages that the host
    gives, [mem_init_0] returns; the memory it sets up is page aligned, inside the block,
    and loses less than three pages at its ends.  One page [z] becomes the zero page.
    Whatever the generic code then allocates, [mem_init] gives to the page allocator every
    page that holds no byte of the zero page or of an allocation, each exactly once (the
    pages of the allocator's own bitmap included), and counts them; [mem_cleanup] gives the
    block back to the host. *)
Theorem boot_pages_released_once (fuel : nat) (kzalloc : Z -> Z) (size high_memory p : Z) (reqs : list request) (n n' : N) :
  mem_alloc (u32 size) n = (p, n') -> 0 < p < 2 ^ 61 -> 12288 <= u32 size ->
  u32 size + 8192 <= 2048 * Z.of_nat fuel -> Forall valid_request reqs ->
  exists b addrs b1 b' n2 P z, mem_init_0 fuel false kzalloc size n = Ret (n', b) /\
    boot_allocations fuel reqs b = Ret (addrs, b1) /\ mem_init fuel high_memory b1 = Ret b' /\
    (phys_mem b mod 4096 = 0 /\ p <= phys_mem b /\ phys_mem b + 4096 * P <= p + u32 size < phys_mem b + 4096 * P + 12288) /\
    zone_normal_pages b = P /\ empty_zero_page b = phys_mem b + 4096 * z /\ 0 <= z < P /\
    NoDup (freed_pages b' ≫= expand) /\
    (forall q, q ∈ freed_pages b' ≫= expand <->
       0 <= q < P /\ ~ Exists (meets q) ((4096 * z, 4096) :: taken (phys_mem b) reqs addrs)) /\
    totalram_pages b' = Z.of_nat (length (freed_pages b' ≫= expand)) /\
    mem_cleanup n' b' = Ret n2 /\ blocks n2 = blocks n /\ sems n2 = sems n.
Proof using laws.
  intros Ha Hp Hs Hf Hv. destruct (mem_init_0_spec fuel kzalloc size p n n' Ha Hp Hs Hf) as (b & P & k & z & nd & E & Hb).
  destruct Hb as [B1 B2 (B3 & _ & HP) Hh (Hbd & Hok & M & L & Nm) Hpad Hreg [Hk Hkz] [B7 Hz] Hm].
  assert (u32 size < 2 ^ 32) as Hs32 by (by apply wrap_range).
  destruct (alloc_run_spec fuel (phys_mem b) reqs nd _ ltac:(lia) ltac:(lia) Hok Hreg Hv) as
    (addrs & nd' & Er & Hok' & (M' & L' & N' & W') & [Rp Rd _ _] & _ & Hm'); [unfold pages_of; lia|].
  rewrite M, Z.mul_0_r, Z.add_0_r in *. set (T := taken _ _ _) in *.
  assert (forall r, r ∈ T -> r ∈ rev T) as Hrev by (intros r; rewrite !list_elem_of_In; apply in_rev).
  assert (forall o s, (o, s) ∈ T -> 0 <= o /\ 0 < s) as Tpos.
  { intros o s Hin%Hrev. destruct (Rp o s) as (H1 & H2 & _); [apply elem_of_app; by left|done]. }
  assert (forall r, r ∈ T -> disjoint r (0, 4096 * k)) as Tdis.
  { intros r Hin%Hrev. eapply ord_pairs_cross; [exact Rd|done|set_solver]. }
  assert (exists b1, boot_allocations fuel reqs b = Ret (addrs, b1) /\ bdata_list b1 = [nd'] /\
    phys_mem b1 = phys_mem b /\ _phys_mem b1 = _phys_mem b) as (b1 & E1 & D1 & D2 & D3).
  { unfold boot_allocations. rewrite Hbd, Er. by eexists. }
  destruct (mem_init_spec fuel high_memory b1 P k nd') as (b' & E' & Hh' & Ht & Hnd & Hx); try done; try congruence; try lia.
  { intros j Hj. apply Hm'; [lia|]. left. by apply Hpad. }
  { intros j Hj. apply Hm'; [lia|]. left. apply Hm; lia. }
  destruct (mem_alloc_ok _ _ _ _ Ha ltac:(unfold NULL; lia)) as (Hfresh & Hbl & Hse).
  destruct (mem_free_ok p n' (u32 size)) as (n2 & Hfree & Hbl2 & Hse2); [by rewrite Hbl, lookup_insert_eq|].
  exists b, addrs, b1, b', n2, P, z. do 6 (split; [done|]). split; [lia|]. split; [done|]. split; [|split; [done|]].
  - intros q. rewrite Hx. split; intros [Hq Hr]; (split; [done|]); revert Hr;
      apply (boot_page_free P k z q nd nd' T Hq); auto with lia.
  - unfold mem_cleanup. rewrite Hh', D3, Hh. split; [done|]. split; [|congruence].
    by rewrite Hbl2, Hbl, delete_insert_id.
Qed.
End mem_init_spec.

(** C19: the boot allocator never hands out memory twice.  A sequence of allocations from a
    node returns; each answer is NULL or aligned as asked and inside the node; and the
    regions handed out are disjoint from each other and from those that were in use
    before, although an allocation may start in the last page of the one before it. *)
Theorem bootmem_regions_never_overlap (fuel : nat) (phys_mem : Z) (reqs : list request) (b : bootmem_data) (A : list (Z * Z)) :
  0 < phys_mem -> phys_mem + 2 ^ 33 < 2 ^ 64 ->
  node_ok b -> regions_ok b A -> Forall valid_request reqs -> 2 * pages_of b + 2 <= Z.of_nat fuel ->
  exists addrs b', alloc_run fuel phys_mem b reqs = Ret (addrs, b') /\
    ForallOrdPairs disjoint (rev (taken (phys_mem + 4096 * node_min_pfn b) reqs addrs) ++ A) /\
    Forall2 (fun r a => a = NULL \/
      ((a - phys_mem) mod rq_align r = 0 /\ phys_mem + 4096 * node_min_pfn b <= a /\
       a + rq_size r <= phys_mem + 4096 * node_low_pfn b)) reqs addrs.
Proof.
  intros H1 H2 Hok Hreg Hv Hf.
  destruct (alloc_run_spec fuel phys_mem reqs b A H1 H2 Hok Hreg Hv Hf) as (addrs & b' & E & _ & _ & [_ Hd _ _] & Ha & _).
  by exists addrs, b'.
Qed.

Module BootDemo.
#[local] Instance boot_native : lkl_native_operations posix := posix_native bump_malloc.
#[local] Instance boot_laws : native_laws posix := posix_laws bump_malloc bump_malloc_fresh.
Definition start : posix := Posix ∅ [].
Definition size : Z := 40000.
Definition block : Z := fst (mem_alloc size start).

(** A memory map of 320 bytes and a table of two pages. *)
Definition boot_reqs : list request := [Request 320 64 0 0; Request 8192 4096 0 0].
Lemma boot_reqs_valid : Forall valid_request boot_reqs.
Proof.
  repeat apply Forall_cons_2; [..|apply Forall_nil_2]; split; cbn [rq_size rq_align rq_goal rq_limit]; try lia;
    match goal with |- pow2 ?a => exists (Z.log2 a); done end.
Qed.

Lemma boot_pages_released_once_witness :
  exists b addrs b1 b' n2 P z, mem_init_0 24 false (fun _ => NULL) size start = Ret (snd (mem_alloc size start), b) /\
    boot_allocations 24 boot_reqs b = Ret (addrs, b1) /\ mem_init 24 0 b1 = Ret b' /\
    (phys_mem b mod 4096 = 0 /\ block <= phys_mem b /\ phys_mem b + 4096 * P <= block + u32 size < phys_mem b + 4096 * P + 12288) /\
    zone_normal_pages b = P /\ empty_zero_page b = phys_mem b + 4096 * z /\ 0 <= z < P /\
    NoDup (freed_pages b' ≫= expand) /\
    (forall q, q ∈ freed_pages b' ≫= expand <->
       0 <= q < P /\ ~ Exists (meets q) ((4096 * z, 4096) :: taken (phys_mem b) boot_reqs addrs)) /\
    totalram_pages b' = Z.of_nat (length (freed_pages b' ≫= expand)) /\
    mem_cleanup (snd (mem_alloc size start)) b' = Ret n2 /\ blocks n2 = blocks start /\ sems n2 = sems start.
Proof.
  apply (boot_pages_released_once 24 (fun _ => NULL) size 0 block boot_reqs start (snd (mem_alloc size start))).
  - reflexivity.
  - vm_compute. done.
  - vm_compute. done.
  - vm_compute. done.
  - apply boot_reqs_valid.
Defined.

(** A node of 100 pages, all free, and a run that fills the rest of a page and wraps. *)
Definition node : bootmem_data := Bootmem_data 0 100 65536 [0; 0] 0 0.
Definition reqs : list request :=
  [Request 100 16 0 0; Request 5000 64 0 0; Request 4096 4096 8192 0; Request 500000 8 0 0; Request 8 8 0 409600].

Lemma bootmem_regions_never_overlap_witness :
  exists addrs b', alloc_run 300 65536 node reqs = Ret (addrs, b') /\
    ForallOrdPairs disjoint (rev (taken (65536 + 4096 * node_min_pfn node) reqs addrs) ++ []) /\
    Forall2 (fun r a => a = NULL \/
      ((a - 65536) mod rq_align r = 0 /\ 65536 + 4096 * node_min_pfn node <= a /\
       a + rq_size r <= 65536 + 4096 * node_low_pfn node)) reqs addrs.
Proof.
  apply (bootmem_regions_never_overlap 300 65536 reqs node []).
  - done.
  - done.
  - split; [done|done|done| |done|done|done]. repeat apply Forall_cons_2; [..|apply Forall_nil_2]; done.
  - split; [set_solver|constructor|set_solver|]. intros j Hj. change (last_end_off node) with 0 in Hj. lia.
  - repeat apply Forall_cons_2; [..|apply Forall_nil_2]; split; cbn [rq_size rq_align rq_goal rq_limit]; try lia;
      match goal with |- pow2 ?a => exists (Z.log2 a); done end.
  - done.
Defined.
End BootDemo.
