(* ===== verification/Eth.v ===== *)
(** * The Ethernet driver: arch/lkl/drivers/eth.c and envs/drivers/linux/eth.c

    The driver keeps a ring of receive buffers.  A native thread takes a buffer from the
    ready list, receives a frame into it and raises the Ethernet interrupt; the handler
    gives the buffer to the network stack and puts a new one on the ready list.  The
    driver's operations come first, then the host side, then the interleaving of the
    native thread with the kernel.  What the kernel's allocators and the host's calls
    answer is an argument of the operations. *)
From S2P Require Import Prelude Native EnvPosix Irq.

Definition MAX_FRAME_LENGTH : Z := 1518.

Record sk_buff := Sk_buff { skb_data : Z; skb_len : Z; tailroom : Z }.
Record lkl_eth_desc := Led { led_data : Z; led_len : Z }.
(** The descriptor is the first member: its address is that of the entry. *)
Record rx_ring_entry := Rre { led : lkl_eth_desc; rre_netdev : Z; rre_skb : Z }.
Record netdev_data := Netdev_data {
  native_handle : Z; native_dev : Z; rx_ring_ready : list Z; rx_ring_inuse : list Z; rx_ring_lock : Z }.

(** The objects of the driver: devices, ring entries, socket buffers, what the receive
    buffers hold, the frames that went to the network stack with the socket buffers it
    owns, and the index of registered devices. *)
Record eth := Eth {
  netdevs : gmap Z netdev_data; rres : gmap Z rx_ring_entry; skbs : gmap Z sk_buff;
  bufs : gmap Z (list Z); netif : list (list Z); stack : gset Z; ifindexes : gmap Z Z; failed_init : bool }.

Definition set_netdevs (m : gmap Z netdev_data) (s : eth) : eth :=
  Eth m (rres s) (skbs s) (bufs s) (netif s) (stack s) (ifindexes s) (failed_init s).
Definition set_rres (m : gmap Z rx_ring_entry) (s : eth) : eth :=
  Eth (netdevs s) m (skbs s) (bufs s) (netif s) (stack s) (ifindexes s) (failed_init s).
Definition set_skbs (m : gmap Z sk_buff) (s : eth) : eth :=
  Eth (netdevs s) (rres s) m (bufs s) (netif s) (stack s) (ifindexes s) (failed_init s).
Definition set_bufs (m : gmap Z (list Z)) (s : eth) : eth :=
  Eth (netdevs s) (rres s) (skbs s) m (netif s) (stack s) (ifindexes s) (failed_init s).
Definition set_ifindexes (m : gmap Z Z) (s : eth) : eth :=
  Eth (netdevs s) (rres s) (skbs s) (bufs s) (netif s) (stack s) m (failed_init s).
Definition set_rings (ready inuse : list Z) (nd : netdev_data) : netdev_data :=
  Netdev_data (native_handle nd) (native_dev nd) ready inuse (rx_ring_lock nd).
Definition set_handle (h : Z) (nd : netdev_data) : netdev_data :=
  Netdev_data h (native_dev nd) (rx_ring_ready nd) (rx_ring_inuse nd) (rx_ring_lock nd).

(** [list_del]: the entry leaves the list it is on. *)
Definition list_del (e : Z) (l : list Z) : list Z := filter (fun x => x <> e) l.

(** What the ring lock protects: the two list moves. *)
Definition ring_put (rre : Z) (nd : netdev_data) : netdev_data :=
  set_rings (rre :: list_del rre (rx_ring_ready nd)) (list_del rre (rx_ring_inuse nd)) nd.
Definition ring_get (nd : netdev_data) : Z * netdev_data :=
  match rx_ring_ready nd with
  | [] => (NULL, nd)
  | rre :: ready => (rre, set_rings (list_del rre ready) (rre :: list_del rre (rx_ring_inuse nd)) nd)
  end.

(** [dev_alloc_skb(MAX_FRAME_LENGTH)] answers a socket buffer and the address of its data. *)
Definition reload_buffer (rre : Z) (a : Z * Z) (s : eth) : res eth :=
  let '(skb, data) := a in
  let! e := deref (rres s !! rre) in
  Ret (set_rres (<[rre := Rre (Led data MAX_FRAME_LENGTH) (rre_netdev e) skb]> (rres s))
        (set_skbs (<[skb := Sk_buff data 0 MAX_FRAME_LENGTH]> (skbs s))
          (set_bufs (<[data := []]> (bufs s)) s))).

(** [skb_put] of the received length (an unsigned int), then [netif_rx]. *)
Definition net_deliver (led_ : Z) (s : eth) : res eth :=
  let! e := deref (rres s !! led_) in
  let! skb := deref (skbs s !! rre_skb e) in
  let len := u32 (led_len (led e)) in
  if tailroom skb <? len then Bug
  else
    let! bytes := deref (bufs s !! skb_data skb) in
    Ret (Eth (netdevs s) (rres s)
           (<[rre_skb e := Sk_buff (skb_data skb) (skb_len skb + len) (tailroom skb - len)]> (skbs s))
           (bufs s) (netif s ++ [take (Z.to_nat (skb_len skb + len)) bytes]) ({[rre_skb e]} ∪ stack s)
           (ifindexes s) (failed_init s)).

Section driver.
Context {N : Type} {ops : lkl_native_operations N}.

Definition reload_rx_ring_entry (netdev rre : Z) (a : Z * Z) (st : N * eth) : res (Z * (N * eth)) :=
  let '(n, s) := st in
  if fst a =? NULL then Ret (- ENOMEM, (n, s))
  else
    let! s := reload_buffer rre a s in
    let! nd := deref (netdevs s !! netdev) in
    let! n := sem_down (rx_ring_lock nd) n in
    let s := set_netdevs (<[netdev := ring_put rre nd]> (netdevs s)) s in
    let! n := sem_up (rx_ring_lock nd) n in
    Ret (0, (n, s)).

Definition lkl_eth_get_rx_desc (netdev : Z) (st : N * eth) : res (Z * (N * eth)) :=
  let '(n, s) := st in
  let! nd := deref (netdevs s !! netdev) in
  let! n := sem_down (rx_ring_lock nd) n in
  let '(rre, nd') := ring_get nd in
  let s := set_netdevs (<[netdev := nd']> (netdevs s)) s in
  let! n := sem_up (rx_ring_lock nd) n in
  Ret (rre, (n, s)).

Definition lkl_net_irq (led_ : Z) (a : Z * Z) (st : N * eth) : res (N * eth) :=
  let '(n, s) := st in
  let! e := deref (rres s !! led_) in
  let! s := net_deliver led_ s in
  let! (_, st) := reload_rx_ring_entry (rre_netdev e) led_ a (n, s) in
  Ret st.

(** [start_xmit]: [err] is the answer of the native driver; on success the buffer is freed. *)
Definition start_xmit (skb err : Z) (s : eth) : Z * eth :=
  if err =? 0 then (err, set_skbs (delete skb (skbs s)) s) else (err, s).

(** The native driver's cleanup is [native_cleanup]. *)
Definition cleanup_netdev (native_cleanup : Z -> N -> res N) (netdev : Z) (st : N * eth) : res (N * eth) :=
  let '(n, s) := st in
  let! nd := deref (netdevs s !! netdev) in
  let! n := if negb (native_handle nd =? NULL) then native_cleanup (native_handle nd) n else Ret n in
  let s := set_rres (foldr delete (rres s) (rx_ring_inuse nd)) s in
  let s := set_rres (foldr delete (rres s) (rx_ring_ready nd)) s in
  let! n := if negb (rx_ring_lock nd =? NULL) then sem_free (rx_ring_lock nd) n else Ret n in
  Ret (n, set_netdevs (delete netdev (netdevs s)) s).

Definition open (native_init : Z -> N -> Z * N) (netdev : Z) (st : N * eth) : res (Z * (N * eth)) :=
  let '(n, s) := st in
  let! nd := deref (netdevs s !! netdev) in
  let '(h, n) := native_init (native_dev nd) n in
  let s := set_netdevs (<[netdev := set_handle h nd]> (netdevs s)) s in
  if h =? NULL then Ret (- EUNATCH, (n, s)) else Ret (0, (n, s)).

(** [purge] is [lkl_purge_irq_queue(ETH_IRQ)]. *)
Definition stop (native_cleanup : Z -> N -> res N) (purge : N -> res N) (netdev : Z) (st : N * eth) :
    res (Z * (N * eth)) :=
  let '(n, s) := st in
  let! nd := deref (netdevs s !! netdev) in
  let! n := native_cleanup (native_handle nd) n in
  let s := set_netdevs (<[netdev := set_handle NULL nd]> (netdevs s)) s in
  let! n := purge n in
  Ret (0, (n, s)).

(** [unregister_netdev] closes a device that is up. *)
Definition _lkl_del_eth (native_cleanup : Z -> N -> res N) (purge : N -> res N) (ifindex : Z) (st : N * eth) :
    res (Z * (N * eth)) :=
  let '(n, s) := st in
  match ifindexes s !! ifindex with
  | None => Ret (-1, (n, s))
  | Some netdev =>
      let! nd := deref (netdevs s !! netdev) in
      let! (_, (n, s)) := if negb (native_handle nd =? NULL) then stop native_cleanup purge netdev (n, s)
                          else Ret (0, (n, s)) in
      let s := set_ifindexes (delete ifindex (ifindexes s)) s in
      let! (n, s) := cleanup_netdev native_cleanup netdev (n, s) in
      Ret (0, (n, s))
  end.

(** The loop of [_lkl_add_eth]: [allocs] has the answers of [kmalloc] and [dev_alloc_skb];
    the answer is true when an allocation failed.  The members of a new entry are set by
    [reload_rx_ring_entry] before anything reads them. *)
Fixpoint fill_ring (netdev : Z) (allocs : list (Z * (Z * Z))) (st : N * eth) : res (bool * (N * eth)) :=
  match allocs with
  | [] => Ret (false, st)
  | (rre, a) :: allocs =>
      let '(n, s) := st in
      if rre =? NULL then Ret (true, (n, s))
      else
        let! nd := deref (netdevs s !! netdev) in
        let s := set_rres (<[rre := Rre (Led 0 0) netdev 0]> (rres s)) s in
        let s := set_netdevs (<[netdev := set_rings (rx_ring_ready nd) (rre :: rx_ring_inuse nd) nd]> (netdevs s)) s in
        let! (err, st) := reload_rx_ring_entry netdev rre a (n, s) in
        if err <? 0 then Ret (true, st) else fill_ring netdev allocs st
  end.

(** What the generic code answers to [_lkl_add_eth]. *)
Record add_answers := Add_answers {
  an_netdev : Z; an_allocs : list (Z * (Z * Z)); an_native_dev : Z; an_register : Z; an_ifindex : Z }.

Definition _lkl_add_eth (native_cleanup : Z -> N -> res N) (an : add_answers) (st : N * eth) : res (Z * (N * eth)) :=
  let '(n, s) := st in
  if failed_init s then Ret (- EUNATCH, (n, s))
  else if an_netdev an =? NULL then Ret (- ENOMEM, (n, s))
  else
    let d := an_netdev an in
    let '(lock, n) := sem_alloc 1 n in
    let s := set_netdevs (<[d := Netdev_data NULL NULL [] [] lock]> (netdevs s)) s in
    if lock =? NULL then let! st := cleanup_netdev native_cleanup d (n, s) in Ret (0, st)
    else
      let! (error, (n, s)) := fill_ring d (an_allocs an) (n, s) in
      if error : bool then let! st := cleanup_netdev native_cleanup d (n, s) in Ret (0, st)
      else
        let! nd := deref (netdevs s !! d) in
        let s := set_netdevs (<[d := Netdev_data (native_handle nd) (an_native_dev an) (rx_ring_ready nd)
                                       (rx_ring_inuse nd) (rx_ring_lock nd)]> (netdevs s)) s in
        if negb (an_register an =? 0) then let! st := cleanup_netdev native_cleanup d (n, s) in Ret (0, st)
        else Ret (an_ifindex an, (n, set_ifindexes (<[an_ifindex an := d]> (ifindexes s)) s)).

(** [err] is the answer of [request_irq]. *)
Definition eth_init (err : Z) (s : eth) : Z * eth :=
  if negb (err =? 0) then (err, s)
  else (0, Eth (netdevs s) (rres s) (skbs s) (bufs s) (netif s) (stack s) (ifindexes s) false).
End driver.

(** ** The host side: envs/drivers/linux/eth.c *)

Record handle := Handle { h_thread : Z; h_ifindex : Z; h_sock : Z; h_pod : Z * Z; h_netdev : Z }.
(** Live handles, open file descriptors and running receive threads of the host process. *)
Record nethost := Nethost { handles : gmap Z handle; fds : gset Z; rx_threads : gset Z }.

Definition free_h (p : Z) (h : nethost) : nethost := Nethost (delete p (handles h)) (fds h) (rx_threads h).
Definition close (fd : Z) (h : nethost) : nethost := Nethost (handles h) (fds h ∖ {[fd]}) (rx_threads h).
Definition opened (fd : Z) (h : nethost) : nethost := Nethost (handles h) ({[fd]} ∪ fds h) (rx_threads h).

(** What the host answers: [malloc], [if_nametoindex], [socket], [bind], [pipe] with its two
    descriptors, [pthread_create] with the thread. *)
Record init_answers := Init_answers {
  ia_malloc : Z; ia_ifindex : Z; ia_socket : Z; ia_bind : Z; ia_pipe : Z; ia_pod : Z * Z;
  ia_create : Z; ia_thread : Z }.

Definition lkl_eth_native_init (netdev : Z) (a : init_answers) (h : nethost) : Z * nethost :=
  let p := ia_malloc a in
  if p =? NULL then (NULL, h)
  else
    let new := Handle (ia_thread a) (ia_ifindex a) (ia_socket a) (ia_pod a) netdev in
    let h := Nethost (<[p := new]> (handles h)) (fds h) (rx_threads h) in
    if ia_ifindex a =? 0 then (NULL, free_h p h)
    else if ia_socket a <? 0 then (NULL, free_h p h)
    else
      let h := opened (ia_socket a) h in
      if ia_bind a <? 0 then (NULL, free_h p (close (ia_socket a) h))
      else if ia_pipe a <? 0 then (NULL, free_h p (close (ia_socket a) h))
      else
        let h := opened (snd (ia_pod a)) (opened (fst (ia_pod a)) h) in
        if ia_create a <? 0 then
          (NULL, free_h p (close (ia_socket a) (close (snd (ia_pod a)) (close (fst (ia_pod a)) h))))
        else
          (* [pthread_create] starts the thread when it answers 0 *)
          (p, if ia_create a =? 0 then Nethost (handles h) (fds h) ({[ia_thread a]} ∪ rx_threads h) else h).

(** The thread leaves its loop when the pipe is readable; joining one that never started
    is undefined. *)
Definition lkl_eth_native_cleanup (p : Z) (h : nethost) : res nethost :=
  let! x := deref (handles h !! p) in
  if decide (h_thread x ∈ rx_threads h) then
    let h := Nethost (handles h) (fds h) (rx_threads h ∖ {[h_thread x]}) in
    Ret (free_h p (close (snd (h_pod x)) (close (fst (h_pod x)) h)))
  else Bug.

(** [err] is the answer of [sendto]. *)
Definition lkl_eth_native_xmit (err : Z) : Z := if 0 <=? err then 0 else err.

(** [recv] into the descriptor's buffer, which truncates the frame, and [led->len=len]. *)
Definition recv_frame (e : Z) (frame : list Z) (s : eth) : res eth :=
  let! x := deref (rres s !! e) in
  let bytes := take (Z.to_nat (led_len (led x))) frame in
  Ret (set_rres (<[e := Rre (Led (led_data (led x)) (Z.of_nat (length bytes))) (rre_netdev x) (rre_skb x)]> (rres s))
        (set_bufs (<[led_data (led x) := bytes]> (bufs s)) s)).

(** ** The interleaving of the receive thread with the kernel *)

(** The receive thread is at the top of its loop, with or without a descriptor, or about to
    raise the interrupt. *)
Inductive rxstate := RxLoop (led_ : option Z) | RxTrigger (led_ : Z).

(** [irqq] is the queue of the Ethernet interrupt; [reloading] the entry of which the handler
    has given the buffer away.  [accepted] records the frames that were queued. *)
Record world := World {
  dev : eth; rx : option rxstate; irqq : list Z; reloading : option Z; accepted : list (list Z) }.

(** An answer of [dev_alloc_skb]: NULL or a new socket buffer with a new data area. *)
Definition skb_answer (a : Z * Z) (s : eth) : Prop :=
  fst a = NULL \/ (skbs s !! fst a = None /\ forall p x, skbs s !! p = Some x -> skb_data x <> snd a).

(** The frame a queued descriptor holds. *)
Definition frame_of (s : eth) (e : Z) : list Z :=
  match rres s !! e with
  | Some x => match bufs s !! led_data (led x) with Some b => b | None => [] end
  | None => []
  end.

Inductive eth_step (d : Z) : world -> world -> Prop :=
| rx_get s q r acc nd e nd' :
    (* the thread takes a descriptor under the ring lock *)
    netdevs s !! d = Some nd -> ring_get nd = (e, nd') -> e <> NULL ->
    eth_step d (World s (Some (RxLoop None)) q r acc)
      (World (set_netdevs (<[d := nd']> (netdevs s)) s) (Some (RxLoop (Some e))) q r acc)
| rx_drop s q r acc nd :
    (* the ring is empty: the frame is dropped *)
    netdevs s !! d = Some nd -> rx_ring_ready nd = [] ->
    eth_step d (World s (Some (RxLoop None)) q r acc) (World s (Some (RxLoop None)) q r acc)
| rx_recv s q r acc e frame s' :
    frame <> [] -> recv_frame e frame s = Ret s' ->
    eth_step d (World s (Some (RxLoop (Some e))) q r acc) (World s' (Some (RxTrigger e)) q r acc)
| rx_trigger s q r acc e :
    eth_step d (World s (Some (RxTrigger e)) q r acc)
      (World s (Some (RxLoop None)) (q ++ [e]) r (acc ++ [frame_of s e]))
| rx_trigger_fail s q r acc e :
    (* no memory for the interrupt's node; the error is ignored *)
    eth_step d (World s (Some (RxTrigger e)) q r acc) (World s (Some (RxLoop None)) q r acc)
| irq_deliver s t e q acc s' :
    net_deliver e s = Ret s' ->
    eth_step d (World s t (e :: q) None acc) (World s' t q (Some e) acc)
| irq_reload s t q e acc a nd s' :
    skb_answer a s -> fst a <> NULL -> reload_buffer e a s = Ret s' -> netdevs s' !! d = Some nd ->
    eth_step d (World s t q (Some e) acc)
      (World (set_netdevs (<[d := ring_put e nd]> (netdevs s')) s') t q None acc)
| irq_reload_fail s t q e acc :
    eth_step d (World s t q (Some e) acc) (World s t q None acc)
| dev_stop s o q acc nd :
    (* the thread has left its loop; the queue is purged *)
    netdevs s !! d = Some nd ->
    eth_step d (World s (Some (RxLoop o)) q None acc)
      (World (set_netdevs (<[d := set_handle NULL nd]> (netdevs s)) s) None [] None (netif s))
| dev_open s q acc nd h :
    netdevs s !! d = Some nd -> h <> NULL ->
    eth_step d (World s None q None acc)
      (World (set_netdevs (<[d := set_handle h nd]> (netdevs s)) s) (Some (RxLoop None)) q None acc)
| stack_free s t q r acc p :
    p ∈ stack s ->
    eth_step d (World s t q r acc)
      (World (Eth (netdevs s) (rres s) (delete p (skbs s)) (bufs s) (netif s) (stack s ∖ {[p]}) (ifindexes s) (failed_init s)) t q r acc).

(** ** Buffers *)

(** Entry [e] owns a live buffer that the network stack does not have; [filled] tells
    whether a frame was received into it. *)
Definition buf_ok (d : Z) (s : eth) (ef : Z * bool) : Prop :=
  exists x k b, rres s !! fst ef = Some x /\ rre_netdev x = d /\ skbs s !! rre_skb x = Some k /\
    rre_skb x ∉ stack s /\ led_data (led x) = skb_data k /\ skb_len k = 0 /\ tailroom k = MAX_FRAME_LENGTH /\
    bufs s !! led_data (led x) = Some b /\
    if snd ef then 1 <= led_len (led x) <= MAX_FRAME_LENGTH /\ Z.of_nat (length b) = led_len (led x)
    else led_len (led x) = MAX_FRAME_LENGTH.

(** The entries of [l] own different buffers. *)
Record bufs_ok (d : Z) (s : eth) (l : list (Z * bool)) : Prop := {
  bo_nodup : NoDup l.*1;
  bo_each : forall ef, ef ∈ l -> buf_ok d s ef;
  bo_skb : forall e1 e2 x1 x2, e1 ∈ l.*1 -> e2 ∈ l.*1 -> rres s !! e1 = Some x1 -> rres s !! e2 = Some x2 ->
    rre_skb x1 = rre_skb x2 -> e1 = e2;
  bo_data : forall p q x y, skbs s !! p = Some x -> skbs s !! q = Some y -> skb_data x = skb_data y -> p = q }.

Lemma bufs_ok_sub (d : Z) (s : eth) (l l' : list (Z * bool)) : bufs_ok d s l -> l' ⊆+ l -> bufs_ok d s l'.
Proof.
  intros [H1 H2 H3 H4] Hs. assert (forall ef, ef ∈ l' -> ef ∈ l) as Hin by (intros; by eapply elem_of_submseteq).
  assert (forall e, e ∈ l'.*1 -> e ∈ l.*1) as Hin1.
  { intros e (ef & -> & He)%list_elem_of_fmap. apply list_elem_of_fmap. eauto. }
  split; eauto. eapply submseteq_NoDup; [|exact H1]. by apply fmap_submseteq.
Qed.

(** Two entries of the list have different data areas. *)
Lemma bufs_ok_distinct (d : Z) (s : eth) (l : list (Z * bool)) (ef ef' : Z * bool) (x x' : rx_ring_entry) :
  bufs_ok d s l -> ef ∈ l -> ef' ∈ l -> fst ef <> fst ef' -> rres s !! fst ef = Some x -> rres s !! fst ef' = Some x' ->
  rre_skb x <> rre_skb x' /\ led_data (led x) <> led_data (led x').
Proof.
  intros [_ H2 H3 H4] Hi Hi' Hne Hx Hx'.
  destruct (H2 _ Hi) as (y & k & b & E & _ & Ek & _ & Ed & _). destruct (H2 _ Hi') as (y' & k' & b' & E' & _ & Ek' & _ & Ed' & _).
  simplify_eq. assert (rre_skb x <> rre_skb x') as Hs.
  { intros Hs. apply Hne. eapply H3; [| |done|done|done]; apply list_elem_of_fmap; eauto. }
  split; [done|]. rewrite Ed, Ed'. intros Hd. apply Hs. by eapply H4.
Qed.

Lemma recv_frame_spec (d : Z) (s : eth) (e : Z) (l : list (Z * bool)) (frame : list Z) :
  bufs_ok d s ((e, false) :: l) -> frame <> [] ->
  exists s', recv_frame e frame s = Ret s' /\ bufs_ok d s' ((e, true) :: l) /\
    netdevs s' = netdevs s /\ stack s' = stack s /\ netif s' = netif s /\ skbs s' = skbs s /\
    dom (rres s') = dom (rres s) /\ (forall e', e' ∈ l.*1 -> frame_of s' e' = frame_of s e') /\
    (forall e', e' <> e -> rres s' !! e' = rres s !! e').
Proof.
  intros Hok Hf. pose proof Hok as [H1 H2 H3 H4]. apply NoDup_cons in H1 as [Hni H1].
  destruct (H2 (e, false)) as (x & k & b & Ex & Ed & Ek & Est & Eda & El & Et & Eb & Elen); [by left|]. simpl in *.
  unfold recv_frame. rewrite Ex. cbn [deref res_bind]. eexists. split; [done|].
  assert (forall ef y, ef ∈ l -> rres s !! fst ef = Some y -> led_data (led y) <> led_data (led x) /\ fst ef <> e) as Hother.
  { intros ef y Hi Hy. assert (fst ef <> e) as Hne by (intros Heq; apply Hni, list_elem_of_fmap; eauto). split; [|done].
    eapply (bufs_ok_distinct d s _ ef (e, false)); [done|by right|by left|done|done|done]. }
  split; [split|].
  - cbn [fmap list_fmap fst]. by constructor.
  - intros ef [->|Hi]%elem_of_cons; unfold buf_ok; cbn [fst snd set_rres set_bufs rres skbs bufs stack].
    + eexists _, k, _. rewrite lookup_insert_eq. split; [done|]. cbn [rre_netdev rre_skb led led_data led_len].
      split; [done|]. split; [done|]. split; [done|]. split; [done|]. split; [done|]. split; [done|].
      split; [by rewrite lookup_insert_eq|]. rewrite length_take, Elen. unfold MAX_FRAME_LENGTH.
      destruct frame as [|z fr]; [done|]. cbn [length]. split; [lia|done].
    + destruct (H2 ef) as (y & k' & b' & Ey & R); [by right|]. destruct (Hother _ _ Hi Ey) as [Hd Hne].
      exists y, k', b'. by rewrite !lookup_insert_ne.
  - cbn [set_rres set_bufs rres fmap list_fmap fst]. intros e1 e2 x1 x2 Hi1 Hi2 Hx1 Hx2 Hs.
    assert (forall e' x', <[e:=Rre (Led (led_data (led x)) (Z.of_nat (length (take (Z.to_nat (led_len (led x))) frame))))
        (rre_netdev x) (rre_skb x)]> (rres s) !! e' = Some x' ->
      exists y, rres s !! e' = Some y /\ rre_skb y = rre_skb x') as Hback.
    { intros e' x'. rewrite lookup_insert. case_decide; intros; simplify_eq; eauto. }
    apply Hback in Hx1 as (y1 & Hy1 & Es1). apply Hback in Hx2 as (y2 & Hy2 & Es2).
    eapply (H3 e1 e2); [done|done|done|done|congruence].
  - cbn [set_rres set_bufs skbs]. done.
  - cbn [set_rres set_bufs rres netdevs stack netif skbs bufs]. do 4 (split; [done|]). split.
    { rewrite dom_insert_L. apply elem_of_dom_2 in Ex. set_solver. }
    split; [|intros e' Hne; by apply lookup_insert_ne].
    intros e' (ef & -> & Hi)%list_elem_of_fmap. destruct (H2 ef) as (y & k' & b' & Ey & _); [by right|].
    destruct (Hother _ _ Hi Ey) as [Hd Hne]. unfold frame_of. cbn [set_rres set_bufs rres bufs].
    by rewrite lookup_insert_ne, Ey, lookup_insert_ne.
Qed.

(** The handler finds the frame in the buffer, never overruns it, and the stack owns the
    buffer afterwards. *)
Lemma net_deliver_spec (d : Z) (s : eth) (e : Z) (l : list (Z * bool)) :
  bufs_ok d s ((e, true) :: l) ->
  exists s', net_deliver e s = Ret s' /\ bufs_ok d s' l /\ netif s' = netif s ++ [frame_of s e] /\
    netdevs s' = netdevs s /\ rres s' = rres s /\ bufs s' = bufs s /\
    (exists p, stack s' = {[p]} ∪ stack s /\ p ∈ dom (skbs s)) /\ dom (skbs s') = dom (skbs s).
Proof.
  intros Hok. pose proof Hok as [H1 H2 H3 H4]. apply NoDup_cons in H1 as [Hni H1].
  destruct (H2 (e, true)) as (x & k & b & Ex & Ed & Ek & Est & Eda & El & Et & Eb & Elen & Hlb); [by left|]. simpl in *.
  assert (u32 (led_len (led x)) = led_len (led x)) as Eu by (apply wrap_id; unfold in_u, MAX_FRAME_LENGTH in *; lia).
  unfold net_deliver. rewrite Ex. cbn [deref res_bind]. rewrite Ek. cbn [deref res_bind]. rewrite Eu.
  destruct (Z.ltb_spec (tailroom k) (led_len (led x))); [lia|]. rewrite <- Eda, Eb. cbn [deref res_bind].
  eexists. split; [done|]. cbn [netif netdevs rres bufs stack skbs]. split; [|split; [|split; [done|split; [done|split; [done|]]]]].
  - split.
    + done.
    + intros ef Hi. destruct (H2 ef) as (y & k' & b' & Ey & En & Eky & Esy & R); [by right|].
      assert (fst ef <> e) as Hne by (intros Heq; apply Hni, list_elem_of_fmap; eauto).
      destruct (bufs_ok_distinct d s _ ef (e, true) y x Hok) as [Hs _]; [by right|by left|done|done|done|].
      exists y, k', b'. cbn [rres skbs bufs stack]. rewrite lookup_insert_ne by done.
      split; [done|]. split; [done|]. split; [done|]. split; [set_solver|done].
    + intros e1 e2 x1 x2 Hi1 Hi2. apply H3; by right.
    + assert (forall p y, <[rre_skb x := Sk_buff (led_data (led x)) (skb_len k + led_len (led x)) (tailroom k - led_len (led x))]> (skbs s) !! p = Some y ->
        exists y', skbs s !! p = Some y' /\ skb_data y' = skb_data y) as Hback.
      { intros p y. rewrite lookup_insert. case_decide; intros; simplify_eq; eauto. }
      cbn [skbs]. intros p q y y' (z & Hz & Ez)%Hback (z' & Hz' & Ez')%Hback Hyy. eapply H4; [done|done|congruence].
  - f_equal. f_equal. unfold frame_of. rewrite Ex, Eb, El, Z.add_0_l. apply take_ge. lia.
  - split; [exists (rre_skb x); split; [done|by eapply elem_of_dom_2]|].
    rewrite dom_insert_L. apply elem_of_dom_2 in Ek. set_solver.
Qed.

Lemma reload_buffer_spec (d : Z) (s : eth) (e : Z) (x : rx_ring_entry) (a : Z * Z) (l : list (Z * bool)) :
  bufs_ok d s l -> e ∉ l.*1 -> rres s !! e = Some x -> rre_netdev x = d ->
  skb_answer a s -> fst a <> NULL -> stack s ⊆ dom (skbs s) ->
  exists s', reload_buffer e a s = Ret s' /\ bufs_ok d s' ((e, false) :: l) /\
    netif s' = netif s /\ netdevs s' = netdevs s /\ stack s' = stack s /\ dom (rres s') = dom (rres s) /\
    dom (skbs s) ⊆ dom (skbs s') /\ (forall e', e' ∈ l.*1 -> frame_of s' e' = frame_of s e').
Proof.
  intros Hok Hni Hx Hd [Hn|[Hfresh Hdata]] Ha Hst; [done|]. pose proof Hok as [H1 H2 H3 H4]. destruct a as [skb data].
  unfold reload_buffer. rewrite Hx. cbn [deref res_bind fst snd] in *. eexists. split; [done|].
  assert (skb ∉ stack s) as Hns by (intros Hi%Hst; apply elem_of_dom in Hi as [? ?]; congruence).
  assert (forall ef, ef ∈ l -> fst ef <> e) as Hne by (intros ef Hi Heq; apply Hni, list_elem_of_fmap; eauto).
  split; [split|].
  - cbn [fmap list_fmap fst]. by constructor.
  - intros ef [->|Hi]%elem_of_cons; unfold buf_ok; cbn [fst snd set_rres set_skbs set_bufs rres skbs bufs stack].
    + eexists _, _, []. rewrite lookup_insert_eq. split; [done|]. cbn [rre_netdev rre_skb led led_data led_len].
      rewrite !lookup_insert_eq. by split_and!.
    + destruct (H2 ef Hi) as (y & k & b & Ey & En & Ek & Es & Eda & R). specialize (Hne _ Hi).
      exists y, k, b. rewrite !lookup_insert_ne; [done|..].
      * rewrite Eda. apply not_eq_sym. by eapply Hdata.
      * congruence.
      * done.
  - cbn [set_rres set_skbs set_bufs rres fmap list_fmap fst]. intros e1 e2 x1 x2 Hi1 Hi2 Hx1 Hx2 Hs.
    assert (forall e', e' ∈ l.*1 -> exists y, rres s !! e' = Some y /\ rre_skb y <> skb /\ e' <> e) as Hold.
    { intros e' (ef & -> & Hi)%list_elem_of_fmap. destruct (H2 ef Hi) as (y & k & b & Ey & En & Ek & _).
      exists y. split; [done|]. split; [congruence|by apply Hne]. }
    apply elem_of_cons in Hi1 as [->|Hi1], Hi2 as [->|Hi2]; [done|..].
    + destruct (Hold _ Hi2) as (y & Hy & Hsk & Hn2). rewrite lookup_insert_ne in Hx2 by done.
      rewrite lookup_insert_eq in Hx1. injection Hx1 as <-. simpl in Hs. congruence.
    + destruct (Hold _ Hi1) as (y & Hy & Hsk & Hn1). rewrite lookup_insert_ne in Hx1 by done.
      rewrite lookup_insert_eq in Hx2. injection Hx2 as <-. simpl in Hs. congruence.
    + destruct (Hold _ Hi1) as (y1 & Hy1 & _ & Hn1), (Hold _ Hi2) as (y2 & Hy2 & _ & Hn2).
      rewrite lookup_insert_ne in Hx1, Hx2 by done. exact (H3 e1 e2 x1 x2 Hi1 Hi2 Hx1 Hx2 Hs).
  - cbn [set_rres set_skbs set_bufs skbs]. intros p q y y' Hp Hq Hyy. rewrite lookup_insert in Hp, Hq.
    repeat case_decide; simplify_eq; simpl in *; try done; [| |by eapply H4].
    + exfalso. by eapply Hdata.
    + exfalso. by eapply Hdata.
  - cbn [set_rres set_skbs set_bufs rres netdevs stack netif skbs bufs]. do 3 (split; [done|]).
    split; [rewrite dom_insert_L; apply elem_of_dom_2 in Hx; set_solver|]. split; [rewrite dom_insert_L; set_solver|].
    intros e' (ef & -> & Hi)%list_elem_of_fmap. destruct (H2 ef Hi) as (y & k & b & Ey & En & Ek & Es & Eda & _).
    unfold frame_of. cbn [set_rres set_skbs set_bufs rres bufs]. rewrite lookup_insert_ne by (symmetry; by apply Hne).
    rewrite Ey, lookup_insert_ne; [done|]. rewrite Eda. apply not_eq_sym. by eapply Hdata.
Qed.

(** ** The ring *)

(** The two lists together hold each entry of the ring once. *)
Record ring_ok (L : nat) (s : eth) (l : list Z) : Prop := {
  ro_nodup : NoDup l; ro_len : length l = L; ro_dom : forall e, e ∈ l <-> e ∈ dom (rres s); ro_null : NULL ∉ l }.

Lemma ring_ok_perm (L : nat) (s s' : eth) (l l' : list Z) :
  ring_ok L s l -> l ≡ₚ l' -> dom (rres s') = dom (rres s) -> ring_ok L s' l'.
Proof. intros [H1 H2 H3 H4] Hp Hd. split; [by rewrite <- Hp|by rewrite <- Hp|intros e; by rewrite <- Hp, Hd|by rewrite <- Hp]. Qed.

Lemma list_del_notin (e : Z) (l : list Z) : e ∉ l -> list_del e l = l.
Proof.
  unfold list_del. induction l as [|x l IH]; intros H; [done|]. apply not_elem_of_cons in H as [Hx H].
  rewrite filter_cons, decide_True by done. by rewrite IH.
Qed.
Lemma list_del_perm (e : Z) (l : list Z) : NoDup l -> e ∈ l -> e :: list_del e l ≡ₚ l.
Proof.
  induction l as [|x l IH]; intros Hn Hi; [by apply not_elem_of_nil in Hi|]. apply NoDup_cons in Hn as [Hx Hn].
  unfold list_del. rewrite filter_cons. case_decide as Hd.
  - apply elem_of_cons in Hi as [->|Hi]; [done|]. rewrite Permutation_swap. f_equiv. by apply IH.
  - assert (x = e) as -> by (destruct (decide (x = e)); tauto). fold (list_del e l). by rewrite list_del_notin.
Qed.

Definition heldl (t : option rxstate) : list (Z * bool) :=
  match t with Some (RxLoop (Some e)) => [(e, false)] | Some (RxTrigger e) => [(e, true)] | _ => [] end.
(** The entries that own a buffer: ready, held by the receive thread, queued. *)
Definition armed (nd : netdev_data) (t : option rxstate) (q : list Z) : list (Z * bool) :=
  ((fun e => (e, false)) <$> rx_ring_ready nd) ++ heldl t ++ ((fun e => (e, true)) <$> q).
Definition out_of_ring (t : option rxstate) (q : list Z) (r : option Z) : list Z :=
  (heldl t).*1 ++ q ++ match r with Some e => [e] | None => [] end.

Record world_ok (d : Z) (L : nat) (nd : netdev_data) (w : world) : Prop := {
  wo_nd : netdevs (dev w) !! d = Some nd;
  wo_ring : ring_ok L (dev w) (rx_ring_ready nd ++ rx_ring_inuse nd);
  wo_bufs : bufs_ok d (dev w) (armed nd (rx w) (irqq w));
  wo_out : forall e, e ∈ out_of_ring (rx w) (irqq w) (reloading w) -> e ∈ rx_ring_inuse nd;
  wo_reload : forall e, reloading w = Some e -> e ∉ (armed nd (rx w) (irqq w)).*1 /\
    exists x, rres (dev w) !! e = Some x /\ rre_netdev x = d;
  wo_stack : stack (dev w) ⊆ dom (skbs (dev w));
  wo_frames : accepted w = netif (dev w) ++ (frame_of (dev w) <$> irqq w) }.

Lemma world_ok_get (d : Z) (L : nat) (nd nd' : netdev_data) (s : eth) (q : list Z) (r : option Z) (acc : list (list Z)) (e : Z) :
  world_ok d L nd (World s (Some (RxLoop None)) q r acc) -> ring_get nd = (e, nd') -> e <> NULL ->
  world_ok d L nd' (World (set_netdevs (<[d := nd']> (netdevs s)) s) (Some (RxLoop (Some e))) q r acc).
Proof.
  intros [H1 H2 H3 H4 H5 H6 H7] Hg He. unfold ring_get in Hg. simpl in *.
  destruct (rx_ring_ready nd) as [|e' ready] eqn:Er; simplify_eq. pose proof H2 as [Hn _ _ _].
  apply NoDup_cons in Hn as [Hni Hn]. rewrite elem_of_app in Hni.
  assert (armed nd (Some (RxLoop None)) q ≡ₚ armed (set_rings (list_del e ready) (e :: list_del e (rx_ring_inuse nd)) nd) (Some (RxLoop (Some e))) q) as Hp.
  { unfold armed. rewrite Er. simpl. rewrite list_del_notin by tauto. solve_Permutation. }
  split; simpl.
  - by rewrite lookup_insert_eq.
  - eapply ring_ok_perm; [exact H2| |done]. rewrite !list_del_notin by tauto. solve_Permutation.
  - destruct (bufs_ok_sub d s _ _ H3 (Permutation_submseteq _ _ (symmetry Hp))). by split.
  - intros e' Hi. rewrite list_del_notin by tauto. unfold out_of_ring in *. simpl in *. rewrite elem_of_cons in Hi |- *.
    destruct Hi as [->|Hi]; [by left|right; auto].
  - intros e' Hr. destruct (H5 e' Hr) as [Hna Hx]. split; [|done]. by rewrite <- Hp.
  - done.
  - done.
Qed.

Lemma world_ok_put (d : Z) (L : nat) (nd : netdev_data) (s s' : eth) (t : option rxstate) (q : list Z) (acc : list (list Z)) (e : Z) :
  world_ok d L nd (World s t q (Some e) acc) -> netdevs s' = netdevs s -> dom (rres s') = dom (rres s) ->
  netif s' = netif s -> stack s' = stack s -> dom (skbs s) ⊆ dom (skbs s') ->
  bufs_ok d s' ((e, false) :: armed nd t q) -> (forall e', e' ∈ (armed nd t q).*1 -> frame_of s' e' = frame_of s e') ->
  world_ok d L (ring_put e nd) (World (set_netdevs (<[d := ring_put e nd]> (netdevs s')) s') t q None acc).
Proof.
  intros [H1 H2 H3 H4 H5 H6 H7] E1 E2 E3 E4 E5 Hb Hf. simpl in *. pose proof H2 as [Hn _ _ _].
  destruct (H5 e eq_refl) as [Hna _]. assert (e ∈ rx_ring_inuse nd) as Hin.
  { apply H4. unfold out_of_ring. rewrite !elem_of_app. right. right. by left. }
  assert (NoDup (rx_ring_inuse nd)) as Hni by (by apply NoDup_app in Hn as (_ & _ & Hn)).
  assert (e ∉ rx_ring_ready nd) as Hnr by (apply NoDup_app in Hn as (_ & Hn & _); intros Hr; by apply (Hn e)).
  assert (forall e', e' ∈ heldl t ++ ((fun e => (e, true)) <$> q) -> e'.1 <> e) as Hne.
  { intros ef Hi Heq. apply Hna. apply list_elem_of_fmap. exists ef. split; [done|]. unfold armed. apply elem_of_app. by right. }
  split; simpl.
  - by rewrite lookup_insert_eq.
  - eapply ring_ok_perm; [exact H2| |done]. rewrite list_del_notin by done. rewrite <- (list_del_perm e (rx_ring_inuse nd)) at 1 by done. solve_Permutation.
  - unfold armed at 1. simpl. rewrite list_del_notin by done. destruct Hb. by split.
  - intros e' Hi. unfold out_of_ring in *. rewrite !elem_of_app in Hi.
    assert (e' <> e) as Hne'.
    { destruct Hi as [(ef & -> & Hi)%list_elem_of_fmap|[Hi|Hi]]; [apply Hne, elem_of_app; by left| |by apply not_elem_of_nil in Hi].
      apply (Hne (e', true)), elem_of_app. right. apply list_elem_of_fmap. eauto. }
    apply list_elem_of_filter. split; [done|]. apply H4. rewrite !elem_of_app.
    destruct Hi as [Hi|[Hi|Hi]]; [by left|right; by left|by apply not_elem_of_nil in Hi].
  - done.
  - set_solver.
  - rewrite E3, H7. f_equal. apply list_fmap_ext. intros i e' He'. symmetry. apply Hf. unfold armed.
    rewrite !fmap_app, !elem_of_app. right. right. apply list_elem_of_fmap. exists (e', true). split; [done|].
    apply list_elem_of_fmap. exists e'. split; [done|]. by eapply list_elem_of_lookup_2.
Qed.

(** Steps that only let go of entries. *)
Lemma world_ok_sub (d : Z) (L : nat) (nd nd' : netdev_data) (m : gmap Z netdev_data) (s : eth)
    (t t' : option rxstate) (q q' : list Z) (r r' : option Z) (acc acc' : list (list Z)) :
  world_ok d L nd (World s t q r acc) -> m !! d = Some nd' ->
  rx_ring_ready nd' = rx_ring_ready nd -> rx_ring_inuse nd' = rx_ring_inuse nd ->
  heldl t' ++ ((fun e => (e, true)) <$> q') ⊆+ heldl t ++ ((fun e => (e, true)) <$> q) ->
  (forall e, e ∈ out_of_ring t' q' r' -> e ∈ out_of_ring t q r) -> r' = None \/ r' = r ->
  acc' = netif s ++ (frame_of s <$> q') ->
  world_ok d L nd' (World (set_netdevs m s) t' q' r' acc').
Proof.
  intros [H1 H2 H3 H4 H5 H6 H7] Hm Er Ei Hsub Hout Hr Hacc. simpl in *.
  assert (armed nd' t' q' ⊆+ armed nd t q) as Ha by (unfold armed; rewrite Er; by apply submseteq_skips_l).
  split; simpl; try done.
  - rewrite Er, Ei. by destruct H2.
  - destruct (bufs_ok_sub _ _ _ _ H3 Ha). by split.
  - intros e Hi. rewrite Ei. auto.
  - intros e ->. destruct Hr as [|<-]; [done|]. destruct (H5 e eq_refl) as [Hna Hx]. split; [|done].
    intros Hi. apply Hna. eapply elem_of_submseteq; [exact Hi|]. by apply fmap_submseteq.
Qed.

Lemma world_ok_recv (d : Z) (L : nat) (nd : netdev_data) (s s' : eth) (q : list Z) (r : option Z) (acc : list (list Z)) (e : Z) (frame : list Z) :
  world_ok d L nd (World s (Some (RxLoop (Some e))) q r acc) -> frame <> [] -> recv_frame e frame s = Ret s' ->
  world_ok d L nd (World s' (Some (RxTrigger e)) q r acc).
Proof.
  intros [H1 H2 H3 H4 H5 H6 H7] Hf E. simpl in *.
  set (l := ((fun e => (e, false)) <$> rx_ring_ready nd) ++ ((fun e => (e, true)) <$> q)).
  assert (armed nd (Some (RxLoop (Some e))) q ≡ₚ (e, false) :: l) as Hp by (unfold armed, l; simpl; solve_Permutation).
  assert ((e, true) :: l ≡ₚ armed nd (Some (RxTrigger e)) q) as Hp' by (unfold armed, l; simpl; solve_Permutation).
  destruct (recv_frame_spec d s e l frame) as (s2 & E2 & Hb & E3 & E4 & E5 & E6 & E7 & Hfr & Hoth);
    [by eapply bufs_ok_sub, Permutation_submseteq; [|symmetry]|done|]. assert (s2 = s') as -> by congruence.
  split; simpl.
  - congruence.
  - eapply ring_ok_perm; [exact H2|done|done].
  - eapply bufs_ok_sub, Permutation_submseteq; [exact Hb|by symmetry].
  - done.
  - intros e' Hr. destruct (H5 e' Hr) as [Hna Hx]. rewrite Hp in Hna. rewrite <- Hp'. split; [done|].
    cbn [fmap list_fmap fst] in Hna. apply not_elem_of_cons in Hna as [Hne _]. by rewrite Hoth.
  - by rewrite E4, E6.
  - rewrite E5, H7. f_equal. apply list_fmap_ext. intros i e' He'. symmetry. apply Hfr. unfold l.
    rewrite fmap_app, elem_of_app. right. apply list_elem_of_fmap. exists (e', true). split; [done|].
    apply list_elem_of_fmap. exists e'. split; [done|]. by eapply list_elem_of_lookup_2.
Qed.

Lemma world_ok_deliver (d : Z) (L : nat) (nd : netdev_data) (s : eth) (t : option rxstate) (q : list Z) (acc : list (list Z)) (e : Z) :
  world_ok d L nd (World s t (e :: q) None acc) ->
  exists s', net_deliver e s = Ret s' /\ world_ok d L nd (World s' t q (Some e) acc).
Proof.
  intros [H1 H2 H3 H4 H5 H6 H7]. simpl in *.
  assert (armed nd t (e :: q) ≡ₚ (e, true) :: armed nd t q) as Hp by (unfold armed; simpl; solve_Permutation).
  assert (bufs_ok d s ((e, true) :: armed nd t q)) as Hb by (by eapply bufs_ok_sub, Permutation_submseteq; [|symmetry]).
  destruct (net_deliver_spec d s e _ Hb) as (s' & E & Hb' & E1 & E2 & E3 & E4 & (p & E5 & Hps) & E6). exists s'. split; [done|].
  assert (forall e', frame_of s' e' = frame_of s e') as Hfr by (intros e'; unfold frame_of; by rewrite E3, E4).
  split; simpl.
  - congruence.
  - eapply ring_ok_perm; [exact H2|done|by rewrite E3].
  - done.
  - intros e' Hi. apply H4. unfold out_of_ring in *. rewrite !elem_of_app in *. rewrite elem_of_cons.
    destruct Hi as [Hi|[Hi|Hi%list_elem_of_singleton]]; tauto.
  - intros e' [= <-]. destruct Hb as [Hn He _ _]. apply NoDup_cons in Hn as [Hni _]. split; [done|].
    destruct (He (e, true)) as (x & k & b & Ex & Ed & _); [by left|]. exists x. by rewrite E3.
  - rewrite E5, E6. set_solver.
  - rewrite E1, H7. rewrite <- app_assoc. f_equal. simpl. f_equal. apply list_fmap_ext. intros i e' _. by rewrite Hfr.
Qed.

Lemma world_ok_free (d : Z) (L : nat) (nd : netdev_data) (s : eth) (t : option rxstate) (q : list Z) (r : option Z) (acc : list (list Z)) (p : Z) :
  world_ok d L nd (World s t q r acc) -> p ∈ stack s ->
  world_ok d L nd (World (Eth (netdevs s) (rres s) (delete p (skbs s)) (bufs s) (netif s) (stack s ∖ {[p]}) (ifindexes s) (failed_init s)) t q r acc).
Proof.
  intros [H1 H2 [B1 B2 B3 B4] H4 H5 H6 H7] Hp. simpl in *. split; simpl; try done.
  - by destruct H2.
  - split; try done.
    + intros ef Hi. destruct (B2 ef Hi) as (x & k & b & Ex & Ed & Ek & Es & R). exists x, k, b. simpl.
      split; [done|]. split; [done|]. split; [|split; [set_solver|done]].
      rewrite lookup_delete_ne; [done|]. by intros ->.
    + simpl. intros p1 p2 x y Hx Hy. rewrite lookup_delete in Hx, Hy. repeat case_decide; simplify_eq. by apply B4.
  - rewrite dom_delete_L. set_solver.
Qed.

Lemma eth_step_ok (d : Z) (L : nat) (nd : netdev_data) (w w' : world) :
  world_ok d L nd w -> eth_step d w w' -> exists nd', world_ok d L nd' w'.
Proof.
  intros Hw Hs. pose proof (wo_nd _ _ _ _ Hw) as Hnd. pose proof (wo_frames _ _ _ _ Hw) as Hacc.
  destruct Hs as [s q r acc nd0 e nd1 Hd Hg He|s q r acc nd0 Hd He|s q r acc e frame s' Hf Hr|s q r acc e|s q r acc e|
    s t e q acc s' Hr|s t q e acc a nd0 s' Ha Hne Hr Hd|s t q e acc|s o q acc nd0 Hd|s q acc nd0 h Hd Hh|s t q r acc p Hp];
    simpl in *; try (assert (nd0 = nd) as -> by congruence).
  - exists nd1. by eapply world_ok_get.
  - by exists nd.
  - exists nd. by eapply world_ok_recv.
  - exists nd. replace s with (set_netdevs (netdevs s) s) at 1 by by destruct s.
    eapply world_ok_sub; try done; [| |by right|].
    + simpl. rewrite fmap_app. simpl. apply Permutation_submseteq. solve_Permutation.
    + intros e'. unfold out_of_ring. simpl. rewrite !elem_of_app, !elem_of_cons, !elem_of_app. set_solver.
    + rewrite Hacc, fmap_app. simpl. by rewrite app_assoc.
  - exists nd. replace s with (set_netdevs (netdevs s) s) at 1 by by destruct s.
    eapply world_ok_sub; try done; [| |by right].
    + simpl. by apply submseteq_cons.
    + intros e'. unfold out_of_ring. simpl. set_solver.
  - exists nd. destruct (world_ok_deliver _ _ _ _ _ _ _ _ Hw) as (s2 & E & H). by assert (s2 = s') as -> by congruence.
  - destruct (wo_reload _ _ _ _ Hw e eq_refl) as (Hna & x & Hx & Hxd).
    destruct (reload_buffer_spec d s e x a (armed nd t q)) as (s2 & E & Hb & E1 & E2 & E3 & E4 & E5 & Hf); try done;
      [by destruct Hw|by destruct Hw|]. assert (s2 = s') as -> by congruence. assert (nd0 = nd) as -> by congruence.
    exists (ring_put e nd). eapply world_ok_put; try done.
  - exists nd. replace s with (set_netdevs (netdevs s) s) at 1 by by destruct s.
    eapply world_ok_sub; try done; [|by left]. intros e'. unfold out_of_ring. set_solver.
  - exists (set_handle NULL nd).
    apply (world_ok_sub d L nd (set_handle NULL nd) _ s (Some (RxLoop o)) None q [] None None acc); try done.
    + by rewrite lookup_insert_eq.
    + apply submseteq_nil_l.
    + intros e' Hi. by apply not_elem_of_nil in Hi.
    + by left.
    + by rewrite app_nil_r.
  - exists (set_handle h nd).
    apply (world_ok_sub d L nd (set_handle h nd) _ s None (Some (RxLoop None)) q q None None acc); try done.
    + by rewrite lookup_insert_eq.
    + by left.
  - exists nd. by apply world_ok_free.
Qed.

(** ** Adding a device *)

(** The answers of the allocators are NULL or new: [R], [S] and [D] hold the entries, socket
    buffers and data areas in use. *)
Fixpoint allocs_fresh (R S D : gset Z) (l : list (Z * (Z * Z))) : Prop :=
  match l with
  | [] => True
  | (rre, (skb, data)) :: l =>
      (rre = NULL \/ rre ∉ R) /\ (skb = NULL \/ (skb ∉ S /\ data ∉ D)) /\
      allocs_fresh ({[rre]} ∪ R) ({[skb]} ∪ S) ({[data]} ∪ D) l
  end.

Record filled (d : Z) (k : nat) (lock : Z) (s0 s : eth) (nd : netdev_data) : Prop := {
  fi_nd : netdevs s !! d = Some nd;
  fi_lists : rx_ring_inuse nd = [] /\ native_handle nd = NULL /\ rx_ring_lock nd = lock;
  fi_ring : ring_ok k s (rx_ring_ready nd);
  fi_bufs : bufs_ok d s ((fun e => (e, false)) <$> rx_ring_ready nd);
  fi_stack : stack s ⊆ dom (skbs s);
  fi_frame : delete d (netdevs s) = delete d (netdevs s0) /\ netif s = netif s0 /\ stack s = stack s0 /\
    ifindexes s = ifindexes s0 /\ failed_init s = failed_init s0 }.

(** What is left when an allocation failed: the entries that exist are on the lists. *)
Record half_filled (d lock : Z) (s0 s : eth) (nd : netdev_data) : Prop := {
  hf_nd : netdevs s !! d = Some nd;
  hf_lists : native_handle nd = NULL /\ rx_ring_lock nd = lock;
  hf_ring : forall e, e ∈ dom (rres s) -> e ∈ rx_ring_ready nd ++ rx_ring_inuse nd;
  hf_frame : delete d (netdevs s) = delete d (netdevs s0) /\ netif s = netif s0 /\ stack s = stack s0 /\
    ifindexes s = ifindexes s0 /\ failed_init s = failed_init s0 }.

Section add_eth.
Context {N : Type} {ops : lkl_native_operations N} {laws : native_laws N}.
#[local] Set Default Proof Using "Type laws".

Lemma reload_new_entry (d : Z) (n : N) (s : eth) (nd : netdev_data) (rre skb data : Z) (x : rx_ring_entry) :
  netdevs s !! d = Some nd -> sems n !! rx_ring_lock nd = Some 1 -> rres s !! rre = Some x -> skb <> NULL ->
  exists n' s', reload_rx_ring_entry d rre (skb, data) (n, s) = Ret (0, (n', set_netdevs (<[d := ring_put rre nd]> (netdevs s')) s')) /\
    reload_buffer rre (skb, data) s = Ret s' /\ netdevs s' = netdevs s /\ sems n' = sems n /\ blocks n' = blocks n.
Proof.
  intros Hd Hl Hx Hn. destruct (lock_ok (rx_ring_lock nd) n Hl) as (n1 & n2 & E1 & E2 & Es & Eb).
  assert (exists s', reload_buffer rre (skb, data) s = Ret s' /\ netdevs s' = netdevs s) as (s' & Er & En).
  { unfold reload_buffer. rewrite Hx. by eexists. }
  unfold reload_rx_ring_entry. cbn [fst]. rewrite (proj2 (Z.eqb_neq _ _) Hn), Er. cbn [res_bind].
  rewrite En, Hd. cbn [deref res_bind]. rewrite E1. cbn [res_bind]. rewrite E2. cbn [res_bind].
  exists n2, s'. by rewrite En.
Qed.

Lemma fill_ring_spec (d lock : Z) (s0 : eth) (allocs : list (Z * (Z * Z))) (R S D : gset Z) :
  forall (k : nat) (n : N) (s : eth) (nd : netdev_data),
  filled d k lock s0 s nd -> sems n !! lock = Some 1 -> allocs_fresh R S D allocs ->
  dom (rres s) ⊆ R -> dom (skbs s) ⊆ S -> (forall p x, skbs s !! p = Some x -> skb_data x ∈ D) ->
  exists error n' s' nd', fill_ring d allocs (n, s) = Ret (error, (n', s')) /\ sems n' = sems n /\ blocks n' = blocks n /\
    if error : bool then half_filled d lock s0 s' nd' else filled d (k + length allocs) lock s0 s' nd'.
Proof.
  revert R S D. induction allocs as [|[rre [skb data]] allocs IH]; intros R S D k n s nd Hf Hl Ha HR HS HD.
  { exists false, n, s, nd. rewrite Nat.add_0_r. done. }
  destruct Ha as (Hr & Hs & Ha). pose proof Hf as [F1 (F2 & F3 & F4) F5 F6 F7 F8]. cbn [fill_ring].
  destruct (Z.eqb_spec rre NULL) as [E0|E0].
  { exists true, n, s, nd. do 3 (split; [done|]). split; try done. intros e He. destruct F5 as [_ _ Hd _].
    rewrite elem_of_app. left. by apply Hd. }
  destruct Hr as [|Hr]; [done|]. rewrite F1. cbn [deref res_bind]. assert (rre ∉ dom (rres s)) as Hnew by set_solver.
  set (s1 := set_rres (<[rre:=Rre (Led 0 0) d 0]> (rres s)) s).
  set (nd1 := set_rings (rx_ring_ready nd) (rre :: rx_ring_inuse nd) nd).
  set (s2 := set_netdevs (<[d:=nd1]> (netdevs s1)) s1).
  assert (netdevs s2 !! d = Some nd1) as Hnd2 by apply lookup_insert_eq.
  destruct (decide (skb = NULL)) as [->|Hskb].
  { assert (reload_rx_ring_entry d rre (NULL, data) (n, s2) = Ret (- ENOMEM, (n, s2))) as -> by done. cbn [res_bind].
    exists true, n, s2, nd1. do 3 (split; [done|]). split; simpl; try done.
    - rewrite dom_insert_L. intros e He. destruct F5 as [_ _ Hd _]. rewrite elem_of_app, elem_of_cons, Hd. set_solver.
    - rewrite delete_insert_eq. done. }
  destruct Hs as [|[Hs1 Hs2]]; [done|].
  destruct (reload_new_entry d n s2 nd1 rre skb data (Rre (Led 0 0) d 0)) as (n' & s3 & -> & Er & En & Es & Eb);
    [done|by rewrite <- F4 in Hl|apply lookup_insert_eq|done|]. cbn [res_bind]. change (0 <? 0) with false. cbn iota.
  assert (rre ∉ rx_ring_ready nd) as Hnr by (intros Hi; apply Hnew; by apply F5).
  assert (bufs_ok d s2 ((fun e => (e, false)) <$> rx_ring_ready nd)) as Hb2.
  { assert (forall e, e ∈ rx_ring_ready nd -> rres s2 !! e = rres s !! e) as Hold.
    { intros e He. apply lookup_insert_ne. congruence. }
    destruct F6 as [B1 B2 B3 B4]. split; [done| | |done].
    - intros ef Hi. destruct (B2 ef Hi) as (x & kk & b & Ex & R'). exists x, kk, b. split; [|done].
      apply list_elem_of_fmap in Hi as (e & -> & Hi). simpl in *. by rewrite Hold.
    - intros e1 e2 x1 x2 Hi1 Hi2 Hx1 Hx2. apply (B3 e1 e2 x1 x2 Hi1 Hi2);
        [rewrite <- Hx1; symmetry|rewrite <- Hx2; symmetry]; apply Hold.
      + by rewrite <- list_fmap_compose, list_fmap_id in Hi1.
      + by rewrite <- list_fmap_compose, list_fmap_id in Hi2. }
  destruct (reload_buffer_spec d s2 rre (Rre (Led 0 0) d 0) (skb, data) _ Hb2) as (s3' & Er' & Hb3 & G1 & G2 & G3 & G4 & G5 & _); try done.
  { by rewrite <- list_fmap_compose, list_fmap_id. }
  { apply lookup_insert_eq. }
  { right. split; [apply not_elem_of_dom; set_solver|]. intros p x Hp Hd. apply Hs2. simpl in Hd. rewrite <- Hd. by eapply HD. }
  assert (s3' = s3) as -> by congruence.
  assert (rres s2 !! rre = Some (Rre (Led 0 0) d 0)) as Hx2 by apply lookup_insert_eq.
  assert (skbs s3 = <[skb := Sk_buff data 0 MAX_FRAME_LENGTH]> (skbs s) /\ ifindexes s3 = ifindexes s /\ failed_init s3 = failed_init s) as (Ek & Ei & Efi).
  { unfold reload_buffer in Er. rewrite Hx2 in Er. by injection Er as <-. }
  assert (ring_put rre nd1 = set_rings (rre :: rx_ring_ready nd) [] nd) as Enp.
  { unfold ring_put, nd1. simpl. rewrite list_del_notin by done. unfold list_del. rewrite filter_cons, decide_False, F2 by tauto. done. }
  rewrite Enp. set (nd4 := set_rings (rre :: rx_ring_ready nd) [] nd).
  destruct (IH ({[rre]} ∪ R) ({[skb]} ∪ S) ({[data]} ∪ D) (Datatypes.S k) n' (set_netdevs (<[d:=nd4]> (netdevs s3)) s3) nd4) with (3 := Ha) as
    (err & n4 & s4 & nd5 & E4 & Es4 & Eb4 & H4); [|by rewrite Es|..].
  - split; simpl; [apply lookup_insert_eq|done| |..].
    + destruct F5 as [O1 O2 O3 O4]. split; [by constructor|simpl; by rewrite O2| |].
      * intros e. simpl. rewrite G4. unfold s2. simpl. rewrite dom_insert_L, elem_of_cons, O3. set_solver.
      * apply not_elem_of_cons. done.
    + destruct Hb3. by split.
    + rewrite G3. etransitivity; [|exact G5]. exact F7.
    + rewrite G2. unfold s2. simpl. rewrite !delete_insert_eq, Ei, Efi, G1, G3. exact F8.
  - simpl. rewrite G4. unfold s2. simpl. rewrite dom_insert_L. set_solver.
  - simpl. rewrite Ek, dom_insert_L. set_solver.
  - simpl. rewrite Ek. intros p x. rewrite lookup_insert. case_decide; [intros [= <-]; set_solver|].
    intros Hp. apply elem_of_union_r. by eapply HD.
  - exists err, n4, s4, nd5. rewrite Es4, Eb4. split; [done|]. split; [done|]. split; [done|].
    destruct err; [done|]. simpl. by rewrite Nat.add_succ_r.
Qed.

Lemma filled_half (d : Z) (k : nat) (lock : Z) (s0 s : eth) (nd : netdev_data) :
  filled d k lock s0 s nd -> half_filled d lock s0 s nd.
Proof using Type.
  intros [F1 (F2 & F3 & F4) [_ _ F5 _] _ _ F8]. split; try done. intros e He. rewrite elem_of_app, F5. by left.
Qed.

Lemma lookup_foldr_delete {A} (m : gmap Z A) (l : list Z) (e : Z) :
  foldr delete m l !! e = if decide (e ∈ l) then None else m !! e.
Proof using Type.
  induction l as [|x l IH]; cbn [foldr]; [by rewrite decide_False by apply not_elem_of_nil|].
  destruct (decide (x = e)) as [->|Hx].
  - rewrite lookup_delete_eq, decide_True; [done|by left].
  - rewrite lookup_delete_ne, IH by done. destruct (decide (e ∈ l)) as [Hi|Hi].
    + rewrite decide_True; [done|by right].
    + rewrite decide_False; [done|]. apply not_elem_of_cons. split; [congruence|done].
Qed.

Lemma cleanup_releases (native_cleanup : Z -> N -> res N) (d lock : Z) (s0 s : eth) (nd : netdev_data) (n : N) :
  half_filled d lock s0 s nd -> lock = NULL \/ sems n !! lock = Some 1 -> netdevs s0 !! d = None ->
  exists n' s', cleanup_netdev native_cleanup d (n, s) = Ret (n', s') /\ rres s' = ∅ /\ netdevs s' = netdevs s0 /\
    ifindexes s' = ifindexes s0 /\ sems n' = (if lock =? NULL then sems n else delete lock (sems n)) /\ blocks n' = blocks n.
Proof.
  intros [H1 [H2 H3] H4 (H5 & _ & _ & H6 & _)] Hl Hd. unfold cleanup_netdev. rewrite H1. cbn [deref res_bind].
  rewrite H2. change (negb (NULL =? NULL)) with false. cbn iota. cbn [res_bind]. rewrite H3.
  assert (foldr delete (foldr delete (rres s) (rx_ring_inuse nd)) (rx_ring_ready nd) = ∅) as Er.
  { apply map_eq. intros e. rewrite !lookup_foldr_delete, lookup_empty. repeat case_decide; try done.
    apply not_elem_of_dom. intros He%H4. rewrite elem_of_app in He. tauto. }
  assert (delete d (netdevs s) = netdevs s0) as En by (rewrite H5; by apply delete_id).
  destruct (Z.eqb_spec lock NULL) as [E|E]; cbn [negb res_bind].
  - eexists n, _. split; [done|]. simpl. by rewrite Er.
  - destruct Hl as [|Hl]; [done|]. destruct (sem_free_ok lock n 1 Hl) as (n' & -> & Es & Eb). cbn [res_bind].
    eexists n', _. split; [done|]. simpl. by rewrite Er.
Qed.

(** [_lkl_add_eth] returns the interface with a full ring, or an error after releasing
    everything it took except the socket buffers. *)
Lemma add_eth_spec (native_cleanup : Z -> N -> res N) (an : add_answers) (n : N) (s : eth) (R S D : gset Z) :
  failed_init s = false -> an_netdev an <> NULL -> netdevs s !! an_netdev an = None -> rres s = ∅ ->
  stack s ⊆ dom (skbs s) -> dom (skbs s) ⊆ S -> (forall p x, skbs s !! p = Some x -> skb_data x ∈ D) ->
  (forall p q x y, skbs s !! p = Some x -> skbs s !! q = Some y -> skb_data x = skb_data y -> p = q) ->
  allocs_fresh R S D (an_allocs an) ->
  exists r n' s', _lkl_add_eth native_cleanup an (n, s) = Ret (r, (n', s')) /\ blocks n' = blocks n /\
    ((exists nd, r = an_ifindex an /\ netdevs s' = <[an_netdev an := nd]> (netdevs s) /\
        ifindexes s' = <[r := an_netdev an]> (ifindexes s) /\ native_handle nd = NULL /\
        world_ok (an_netdev an) (length (an_allocs an)) nd (World s' None [] None (netif s')) /\
        sems n !! rx_ring_lock nd = None /\ sems n' = <[rx_ring_lock nd := 1]> (sems n)) \/
     (r = 0 /\ rres s' = ∅ /\ netdevs s' = netdevs s /\ ifindexes s' = ifindexes s /\ sems n' = sems n)).
Proof.
  intros Hfi Hd Hnew Hr Hst HS HD Hinj Hal. unfold _lkl_add_eth. rewrite Hfi, (proj2 (Z.eqb_neq _ _) Hd).
  set (d := an_netdev an) in *. destruct (sem_alloc 1 n) as [lock n1] eqn:Ea.
  set (nd0 := Netdev_data NULL NULL [] [] lock). set (s1 := set_netdevs (<[d:=nd0]> (netdevs s)) s).
  assert (filled d 0 lock s s1 nd0) as Hf0.
  { split; [apply lookup_insert_eq|done| | |done|].
    - split; [constructor|done| |apply not_elem_of_nil]. intros e. simpl. rewrite Hr, dom_empty_L. set_solver.
    - split; [constructor|intros ef Hi; by apply not_elem_of_nil in Hi|intros e1 e2 x1 x2 Hi; by apply not_elem_of_nil in Hi|done].
    - simpl. by rewrite delete_insert_eq. }
  destruct (Z.eqb_spec lock NULL) as [El|El].
  - subst lock. destruct (sem_alloc_null _ _ _ Ea) as [Es Eb].
    destruct (cleanup_releases native_cleanup d NULL s s1 nd0 n1 (filled_half _ _ _ _ _ _ Hf0)) as
      (n2 & s2 & -> & C1 & C2 & C3 & C4 & C5); [by left|done|]. cbn [res_bind]. exists 0, n2, s2.
    split; [done|]. split; [congruence|]. right. rewrite C4. split_and!; try done.
  - destruct (sem_alloc_ok _ _ _ _ Ea El) as (Hfr & Es & Eb).
    destruct (fill_ring_spec d lock s (an_allocs an) R S D 0 n1 s1 nd0 Hf0) as (err & n2 & s2 & nd2 & -> & Es2 & Eb2 & Hfill);
      [by rewrite Es, lookup_insert_eq|done|simpl; rewrite Hr; set_solver|done|done|].
    assert (sems n2 !! lock = Some 1) as Hl2 by (by rewrite Es2, Es, lookup_insert_eq).
    assert (delete lock (sems n2) = sems n) as Hback by (rewrite Es2, Es; by apply delete_insert_id).
    cbn [res_bind]. destruct err.
    + destruct (cleanup_releases native_cleanup d lock s s2 nd2 n2 Hfill) as (n3 & s3 & -> & C1 & C2 & C3 & C4 & C5);
        [by right|done|]. cbn [res_bind]. exists 0, n3, s3. rewrite (proj2 (Z.eqb_neq _ _) El), Hback in C4.
      split; [done|]. split; [congruence|]. right. split_and!; done.
    + pose proof Hfill as [F1 (F2 & F3 & F4) F5 F6 F7 F8]. rewrite F1. cbn [deref res_bind].
      set (nd3 := Netdev_data (native_handle nd2) (an_native_dev an) (rx_ring_ready nd2) (rx_ring_inuse nd2) (rx_ring_lock nd2)).
      set (s3 := set_netdevs (<[d:=nd3]> (netdevs s2)) s2).
      assert (half_filled d lock s s3 nd3) as Hh.
      { destruct F8 as (G1 & G). split; [apply lookup_insert_eq|done| |].
        - intros e He. rewrite elem_of_app. left. by apply F5.
        - split; [simpl; by rewrite delete_insert_eq|done]. }
      destruct (negb (an_register an =? 0)).
      * destruct (cleanup_releases native_cleanup d lock s s3 nd3 n2 Hh) as (n4 & s4 & -> & C1 & C2 & C3 & C4 & C5);
          [by right|done|]. cbn [res_bind]. exists 0, n4, s4. rewrite (proj2 (Z.eqb_neq _ _) El), Hback in C4.
        split; [done|]. split; [congruence|]. right. split_and!; done.
      * eexists _, n2, _. split; [done|]. split; [congruence|]. left. exists nd3. destruct F8 as (G1 & G2 & G3 & G4 & G5).
        simpl. rewrite F4. split; [done|]. split.
        { rewrite <- (insert_delete_eq (netdevs s2)), G1, (delete_id (netdevs s)) by done. done. }
        split; [by rewrite G4|]. split; [done|]. split; [|by rewrite Es2].
        destruct F6 as [B1 B2 B3 B4]. split; simpl; try done; try apply lookup_insert_eq.
        { rewrite F2, app_nil_r. by destruct F5. }
        { unfold armed. simpl. rewrite app_nil_r. by split. }
        { intros e He. by apply not_elem_of_nil in He. }
        { by rewrite app_nil_r. }
Qed.
End add_eth.

(** ** The device in use *)

(** The driver before its first device is added, and answers of the allocators. *)
Record add_pre (an : add_answers) (s : eth) (R S D : gset Z) : Prop := {
  ap_init : failed_init s = false; ap_netdev : an_netdev an <> NULL /\ netdevs s !! an_netdev an = None;
  ap_rres : rres s = ∅; ap_stack : stack s ⊆ dom (skbs s); ap_skbs : dom (skbs s) ⊆ S;
  ap_data : forall p x, skbs s !! p = Some x -> skb_data x ∈ D;
  ap_inj : forall p q x y, skbs s !! p = Some x -> skbs s !! q = Some y -> skb_data x = skb_data y -> p = q;
  ap_allocs : allocs_fresh R S D (an_allocs an); ap_ifindex : an_ifindex an <> 0 }.

Definition added (s : eth) : world := World s None [] None (netif s).

(** An entry on the inuse list that neither the receive thread nor the interrupt queue nor
    the handler knows about. *)
Definition lost (nd : netdev_data) (w : world) (e : Z) : Prop :=
  e ∈ rx_ring_inuse nd /\ e ∉ out_of_ring (rx w) (irqq w) (reloading w).

Lemma world_ok_nd (d : Z) (L : nat) (nd nd' : netdev_data) (w : world) :
  world_ok d L nd w -> netdevs (dev w) !! d = Some nd' -> nd' = nd.
Proof. intros [H _ _ _ _ _ _] E. congruence. Qed.

Lemma lost_stays_lost (d : Z) (L : nat) (nd nd' : netdev_data) (w w' : world) :
  world_ok d L nd w -> eth_step d w w' -> netdevs (dev w') !! d = Some nd' ->
  forall e, lost nd w e -> lost nd' w' e.
Proof.
  intros Hw Hs Hnd' e [Hin Hout]. pose proof (wo_nd _ _ _ _ Hw) as Hnd. pose proof (ro_nodup _ _ _ (wo_ring _ _ _ _ Hw)) as Hn.
  assert (forall e0, e0 ∈ rx_ring_ready nd -> e0 <> e) as Hne.
  { intros e0 Hr ->. apply NoDup_app in Hn as (_ & Hn & _). by apply (Hn e). }
  destruct Hs as [s q r acc nd0 e0 nd1 Hd Hg He|s q r acc nd0 Hd He|s q r acc e0 frame s' Hf Hr|s q r acc e0|s q r acc e0|
    s t e0 q acc s' Hr|s t q e0 acc a nd0 s' Ha Hnn Hr Hd|s t q e0 acc|s o q acc nd0 Hd|s q acc nd0 h Hd Hh|s t q r acc p Hp];
    simpl in *; unfold lost, out_of_ring in *; simpl in *.
  - rewrite lookup_insert_eq in Hnd'. injection Hnd' as <-. assert (nd0 = nd) as -> by congruence.
    unfold ring_get in Hg. destruct (rx_ring_ready nd) as [|e1 ready] eqn:Er; simplify_eq. simpl.
    assert (e0 <> e) by (apply Hne; by left). split; [|set_solver]. right. apply list_elem_of_filter. split; [congruence|done].
  - by assert (nd' = nd) as -> by congruence.
  - unfold recv_frame in Hr. destruct (rres s !! e0); [|done]. injection Hr as <-. simpl in *.
    by assert (nd' = nd) as -> by congruence.
  - assert (nd' = nd) as -> by congruence. set_solver.
  - assert (nd' = nd) as -> by congruence. set_solver.
  - assert (netdevs s' = netdevs s) as En.
    { unfold net_deliver in Hr. destruct (rres s !! e0); [|done]. simpl in Hr. destruct (skbs s !! _); [|done]. simpl in Hr.
      case_match; [done|]. destruct (bufs s !! _); [|done]. by injection Hr as <-. }
    assert (nd' = nd) as -> by congruence. set_solver.
  - assert (netdevs s' = netdevs s) as En by (unfold reload_buffer in Hr; destruct a, (rres s !! e0); [by injection Hr as <-|done]).
    rewrite lookup_insert_eq in Hnd'. injection Hnd' as <-. assert (nd0 = nd) as -> by congruence. simpl.
    assert (e <> e0) by set_solver. split; [by apply list_elem_of_filter|set_solver].
  - assert (nd' = nd) as -> by congruence. set_solver.
  - rewrite lookup_insert_eq in Hnd'. injection Hnd' as <-. assert (nd0 = nd) as -> by congruence. simpl. set_solver.
  - rewrite lookup_insert_eq in Hnd'. injection Hnd' as <-. assert (nd0 = nd) as -> by congruence. done.
  - by assert (nd' = nd) as -> by congruence.
Qed.

Lemma lost_forever (d : Z) (L : nat) (nd : netdev_data) (w w' : world) :
  rtc (eth_step d) w w' -> world_ok d L nd w ->
  exists nd', world_ok d L nd' w' /\ forall e, lost nd w e -> lost nd' w' e.
Proof.
  intros Hr. revert nd. induction Hr as [w|w w1 w2 Hs Hr IH]; intros nd Hw; [eauto|].
  destruct (eth_step_ok d L nd w w1 Hw Hs) as (nd1 & Hw1). destruct (IH nd1 Hw1) as (nd2 & Hw2 & Hl). exists nd2. split; [done|].
  intros e He. apply Hl. eapply (lost_stays_lost d L nd nd1); [done|done|by destruct Hw1|done].
Qed.

Section eth_claims.
Context {N : Type} {ops : lkl_native_operations N} {laws : native_laws N}.
#[local] Set Default Proof Using "Type laws".

Lemma added_ok (native_cleanup : Z -> N -> res N) (an : add_answers) (n n' : N) (s s' : eth) (R S D : gset Z) :
  add_pre an s R S D -> _lkl_add_eth native_cleanup an (n, s) = Ret (an_ifindex an, (n', s')) ->
  exists nd, world_ok (an_netdev an) (length (an_allocs an)) nd (added s').
Proof.
  intros [A1 [A2 A2'] A3 A4 A5 A6 A7 A8 A9] E.
  destruct (add_eth_spec native_cleanup an n s R S D A1 A2 A2' A3 A4 A5 A6 A7 A8) as (r & n2 & s2 & E' & _ & [(nd & _ & _ & _ & _ & H & _)|(-> & _)]).
  - assert (s' = s2) as -> by congruence. by exists nd.
  - congruence.
Qed.

(** C20: the receive ring is well formed.  After [_lkl_add_eth] has returned an interface, and
    whatever the receive thread, the interrupt handler, the network stack and the stopping
    and opening of the device do, the two lists hold each of the entries that were allocated
    exactly once; an entry that is ready, held by the receive thread or queued owns a live
    buffer of its own that the network stack does not have; and the handler never finds
    more data than the buffer holds. *)
Theorem eth_ring_well_formed (native_cleanup : Z -> N -> res N) (an : add_answers) (n n' : N) (s s' : eth) (R S D : gset Z) (w : world) :
  add_pre an s R S D -> _lkl_add_eth native_cleanup an (n, s) = Ret (an_ifindex an, (n', s')) ->
  rtc (eth_step (an_netdev an)) (added s') w ->
  exists nd, netdevs (dev w) !! an_netdev an = Some nd /\
    NoDup (rx_ring_ready nd ++ rx_ring_inuse nd) /\ length (rx_ring_ready nd ++ rx_ring_inuse nd) = length (an_allocs an) /\
    (forall e, e ∈ rx_ring_ready nd ++ rx_ring_inuse nd <-> e ∈ dom (rres (dev w))) /\
    NoDup (armed nd (rx w) (irqq w)).*1 /\ (forall ef, ef ∈ armed nd (rx w) (irqq w) -> buf_ok (an_netdev an) (dev w) ef) /\
    (forall e1 e2 x1 x2, e1 ∈ (armed nd (rx w) (irqq w)).*1 -> e2 ∈ (armed nd (rx w) (irqq w)).*1 ->
       rres (dev w) !! e1 = Some x1 -> rres (dev w) !! e2 = Some x2 -> rre_skb x1 = rre_skb x2 -> e1 = e2) /\
    (forall e q, irqq w = e :: q -> reloading w = None -> exists s2, net_deliver e (dev w) = Ret s2).
Proof.
  intros Ha E Hr. destruct (added_ok native_cleanup an n n' s s' R S D Ha E) as (nd0 & H0).
  destruct (lost_forever _ _ _ _ _ Hr H0) as (nd & Hw & _). exists nd. pose proof Hw as [W1 [O1 O2 O3 _] [B1 B2 B3 _] _ _ _ _].
  do 7 (split; [done|]). intros e q Eq Er. destruct w as [s1 t q1 r acc]. simpl in *. subst.
  destruct (world_ok_deliver _ _ _ _ _ _ _ _ Hw) as (s2 & E2 & _). eauto.
Qed.


(** Stopping the device loses receive buffers.  The entries that are not on the ready
    list when [stop] purges the interrupt queue (held by the receive thread, queued, or lost
    before) are never handed out again, in any later state, opened again or not: the ring
    serves with the entries that were ready. *)
Theorem eth_stop_loses_entries (native_cleanup : Z -> N -> res N) (an : add_answers) (n n' : N) (s s' s1 : eth)
    (R S D : gset Z) (o : option Z) (q : list Z) (acc : list (list Z)) (nd : netdev_data) (w : world) :
  add_pre an s R S D -> _lkl_add_eth native_cleanup an (n, s) = Ret (an_ifindex an, (n', s')) ->
  rtc (eth_step (an_netdev an)) (added s') (World s1 (Some (RxLoop o)) q None acc) -> netdevs s1 !! an_netdev an = Some nd ->
  rtc (eth_step (an_netdev an))
    (World (set_netdevs (<[an_netdev an := set_handle NULL nd]> (netdevs s1)) s1) None [] None (netif s1)) w ->
  exists nd', netdevs (dev w) !! an_netdev an = Some nd' /\
    (forall e, e ∈ rx_ring_inuse nd -> e ∈ rx_ring_inuse nd' /\ e ∉ rx_ring_ready nd' /\
       e ∉ out_of_ring (rx w) (irqq w) (reloading w)) /\
    (length (rx_ring_ready nd') <= length (an_allocs an) - length (rx_ring_inuse nd))%nat.
Proof.
  intros Ha E Hr Hnd Hr2. destruct (added_ok native_cleanup an n n' s s' R S D Ha E) as (nd0 & H0).
  destruct (lost_forever _ _ _ _ _ Hr H0) as (nd1 & Hw & _). assert (nd1 = nd) as -> by (pose proof (wo_nd _ _ _ _ Hw); simpl in *; congruence).
  destruct (eth_step_ok _ _ _ _ _ Hw (dev_stop _ s1 o q acc nd Hnd)) as (nd2 & Hw2).
  assert (nd2 = set_handle NULL nd) as ->.
  { pose proof (wo_nd _ _ _ _ Hw2) as H. simpl in H. rewrite lookup_insert_eq in H. congruence. }
  destruct (lost_forever _ _ _ _ _ Hr2 Hw2) as (nd' & Hw' & Hl). exists nd'. split; [by destruct Hw'|].
  pose proof (wo_ring _ _ _ _ Hw') as [O1 O2 _ _]. pose proof (wo_ring _ _ _ _ Hw) as [P1 P2 _ _]. simpl in *.
  assert (forall e, e ∈ rx_ring_inuse nd -> lost nd' w e) as Hlost.
  { intros e He. apply Hl. split; [done|apply not_elem_of_nil]. }
  pose proof O1 as (_ & O3 & O4)%NoDup_app. split.
  - intros e He. destruct (Hlost e He) as [H1 H2]. split; [done|]. split; [|done]. intros H3. by apply (O3 e).
  - assert (rx_ring_inuse nd ⊆+ rx_ring_inuse nd') as Hsub.
    { apply NoDup_submseteq; [by apply NoDup_app in P1 as (_ & _ & P1)|]. intros e He. by apply Hlost. }
    apply submseteq_length in Hsub. rewrite length_app in O2. lia.
Qed.
End eth_claims.

(** [lkl_eth_native_init] leaks nothing when it fails. *)
Lemma native_init_error (netdev : Z) (a : init_answers) (h h' : nethost) :
  handles h !! ia_malloc a = None -> ia_socket a ∉ fds h -> fst (ia_pod a) ∉ fds h -> snd (ia_pod a) ∉ fds h ->
  lkl_eth_native_init netdev a h = (NULL, h') -> h' = h.
Proof.
  intros Hm Hs H1 H2. unfold lkl_eth_native_init, free_h, close, opened. destruct h as [hs f t]. simpl in *.
  destruct (Z.eqb_spec (ia_malloc a) NULL) as [E|E]; [by intros [= <-]|].
  repeat case_match; intros Heq; simplify_eq; try done; rewrite delete_insert_id by done; f_equal; set_solver.
Qed.
(** After a successful start, [lkl_eth_native_cleanup] leaves the socket open. *)
Lemma native_cleanup_leaks_socket (netdev : Z) (a : init_answers) (h h' : nethost) :
  handles h !! ia_malloc a = None -> ia_malloc a <> NULL -> ia_socket a ∉ fds h -> fst (ia_pod a) ∉ fds h ->
  snd (ia_pod a) ∉ fds h -> fst (ia_pod a) <> ia_socket a -> snd (ia_pod a) <> ia_socket a -> ia_thread a ∉ rx_threads h ->
  ia_create a = 0 -> lkl_eth_native_init netdev a h = (ia_malloc a, h') ->
  lkl_eth_native_cleanup (ia_malloc a) h' = Ret (Nethost (handles h) ({[ia_socket a]} ∪ fds h) (rx_threads h)).
Proof.
  intros Hm Hp Hs H1 H2 H3 H4 Ht Hc. unfold lkl_eth_native_init. rewrite Hc, (proj2 (Z.eqb_neq _ _) Hp).
  change (0 <? 0) with false. change (0 =? 0) with true. cbn iota.
  destruct (ia_ifindex a =? 0); [congruence|]. destruct (ia_socket a <? 0); [congruence|].
  destruct (ia_bind a <? 0); [congruence|]. destruct (ia_pipe a <? 0); [congruence|]. intros [= <-].
  destruct h as [hs f t]. unfold lkl_eth_native_cleanup, opened. cbn [handles fds rx_threads]. rewrite lookup_insert_eq.
  cbn [deref res_bind h_thread h_pod]. rewrite decide_True by set_solver.
  unfold free_h, close. cbn [handles fds rx_threads]. rewrite delete_insert_id by done. do 2 f_equal.
  - clear -H1 H2 H3 H4. set_solver.
  - clear -Ht. set_solver.
Qed.

Module EthDemo.
#[local] Instance eth_native : lkl_native_operations posix := posix_native bump_malloc.
#[local] Instance eth_laws : native_laws posix := posix_laws bump_malloc bump_malloc_fresh.
Definition start : posix := Posix ∅ [].
Definition no_cleanup (h : Z) (n : posix) : res posix := Ret n.
Definition idle : eth := Eth ∅ ∅ ∅ ∅ [] ∅ ∅ false.
Definition answers : add_answers := Add_answers 100 [(200, (300, 400)); (201, (301, 401))] 1 0 2.
Definition result : res (Z * (posix * eth)) := _lkl_add_eth no_cleanup answers (start, idle).
Definition host1 : posix := match result with Ret (_, (n, _)) => n | _ => start end.
Definition dev1 : eth := match result with Ret (_, (_, s)) => s | _ => idle end.
Definition data_of (s : eth) : netdev_data :=
  match netdevs s !! 100 with Some nd => nd | None => Netdev_data 0 0 [] [] 0 end.

Lemma answers_ok : add_pre answers idle ∅ ∅ ∅.
Proof.
  split; try done.
  simpl. split; [right; set_solver|]. split; [right; set_solver|]. split; [right; set_solver|].
  split; [right; set_solver|done].
Qed.
Lemma added_result : _lkl_add_eth no_cleanup answers (start, idle) = Ret (an_ifindex answers, (host1, dev1)).
Proof. by vm_compute. Qed.

(** The device is opened and the thread takes a descriptor and receives a frame. *)
Definition opened_dev (h : Z) (s : eth) : eth := set_netdevs (<[100 := set_handle h (data_of s)]> (netdevs s)) s.
Definition dev2 : eth := opened_dev 9 dev1.
Definition dev3 : eth := set_netdevs (<[100 := snd (ring_get (data_of dev2))]> (netdevs dev2)) dev2.
Definition frame : list Z := [1; 2; 3; 4].
Definition dev4 : eth := match recv_frame 201 frame dev3 with Ret s => s | _ => dev3 end.
Definition holding : world := World dev3 (Some (RxLoop (Some 201))) [] None [].
Definition queued : world := World dev4 (Some (RxLoop None)) [201] None [frame].

Lemma run_holding : rtc (eth_step 100) (added dev1) holding.
Proof.
  eapply rtc_l; [apply (dev_open 100 dev1 [] [] (data_of dev1) 9); [by vm_compute|done]|].
  eapply rtc_l; [|apply rtc_refl].
  apply (rx_get 100 dev2 [] None [] (data_of dev2) 201 (snd (ring_get (data_of dev2)))); [by vm_compute|by vm_compute|done].
Qed.
Lemma run_queued : rtc (eth_step 100) (added dev1) queued.
Proof.
  eapply rtc_r; [eapply rtc_r; [apply run_holding|]|].
  - apply (rx_recv 100 dev3 [] None [] 201 frame dev4); [done|by vm_compute].
  - change [frame] with ([] ++ [frame_of dev4 201]). apply (rx_trigger 100 dev4 [] None [] 201).
Qed.

Lemma eth_ring_well_formed_witness :
  exists nd, netdevs (dev queued) !! an_netdev answers = Some nd /\
    NoDup (rx_ring_ready nd ++ rx_ring_inuse nd) /\ length (rx_ring_ready nd ++ rx_ring_inuse nd) = length (an_allocs answers) /\
    (forall e, e ∈ rx_ring_ready nd ++ rx_ring_inuse nd <-> e ∈ dom (rres (dev queued))) /\
    NoDup (armed nd (rx queued) (irqq queued)).*1 /\ (forall ef, ef ∈ armed nd (rx queued) (irqq queued) -> buf_ok (an_netdev answers) (dev queued) ef) /\
    (forall e1 e2 x1 x2, e1 ∈ (armed nd (rx queued) (irqq queued)).*1 -> e2 ∈ (armed nd (rx queued) (irqq queued)).*1 ->
       rres (dev queued) !! e1 = Some x1 -> rres (dev queued) !! e2 = Some x2 -> rre_skb x1 = rre_skb x2 -> e1 = e2) /\
    (forall e q, irqq queued = e :: q -> reloading queued = None -> exists s2, net_deliver e (dev queued) = Ret s2).
Proof.
  exact (eth_ring_well_formed no_cleanup answers start host1 idle dev1 ∅ ∅ ∅ queued answers_ok added_result run_queued).
Defined.


(** The device is stopped while the thread holds a descriptor, and opened again. *)
Definition stopped_dev : eth := set_netdevs (<[an_netdev answers := set_handle NULL (data_of dev3)]> (netdevs dev3)) dev3.
Definition again : world := World (opened_dev 9 stopped_dev) (Some (RxLoop None)) [] None [].

Lemma eth_stop_loses_entries_witness :
  exists nd', netdevs (dev again) !! an_netdev answers = Some nd' /\
    (forall e, e ∈ rx_ring_inuse (data_of dev3) -> e ∈ rx_ring_inuse nd' /\ e ∉ rx_ring_ready nd' /\
       e ∉ out_of_ring (rx again) (irqq again) (reloading again)) /\
    (length (rx_ring_ready nd') <= length (an_allocs answers) - length (rx_ring_inuse (data_of dev3)))%nat.
Proof.
  apply (eth_stop_loses_entries no_cleanup answers start host1 idle dev1 dev3 ∅ ∅ ∅ (Some 201) [] [] (data_of dev3) again
    answers_ok added_result run_holding).
  - by vm_compute.
  - eapply rtc_l; [|apply rtc_refl]. apply (dev_open 100 stopped_dev [] [] (data_of stopped_dev) 9); [by vm_compute|done].
Defined.
End EthDemo.
