(* ===== verification/Disk.v ===== *)
(** * The disk driver: arch/lkl/drivers/disk.c and envs/drivers/*/disk.c

    The request function of the driver walks each request of the block queue segment by
    segment through [blk_update_request] (block/blk-core.c) and lets the host's
    [lkl_disk_do_rw] transfer each one.  The drivers of the hosts work on a file. *)
From S2P Require Import Prelude Native EnvPosix.

(** ** Requests of the block layer *)

Record bio_vec := Bio_vec { bv_addr : Z; bv_len : Z }.
(** [bi_idx] is the current segment; [bi_size] counts the bytes that are left. *)
Record bio := Bio { bi_id : Z; bi_size : Z; bi_idx : nat; bi_io_vec : list bio_vec; bi_uptodate : bool }.
Record request := Request {
  cmd_fs : bool; cmd_write : bool; rq_sector : Z; rq_data_len : Z; rq_bio : list bio; rq_dev : Z }.

(** [bio_endio] reports the error of a bio that has no bytes left. *)
Definition req_bio_endio (b : bio) (nbytes error : Z) : bio * list (Z * Z) :=
  let uptodate := if negb (error =? 0) then false else bi_uptodate b in
  let error := if negb (error =? 0) then error else if bi_uptodate b then 0 else - EIO in
  let nbytes := if bi_size b <? nbytes then bi_size b else nbytes in
  let size := bi_size b - nbytes in
  (Bio (bi_id b) size (bi_idx b) (bi_io_vec b) uptodate, if size =? 0 then [(bi_id b, error)] else []).

Definition bio_cur_bytes (b : bio) : res Z :=
  match bi_io_vec b with
  | [] => Ret (bi_size b)
  | _ => let! v := deref (bi_io_vec b !! bi_idx b) in Ret (bv_len v)
  end.
Definition bio_data (b : bio) : res Z :=
  match bi_io_vec b with
  | [] => Ret NULL
  | _ => let! v := deref (bi_io_vec b !! bi_idx b) in Ret (bv_addr v)
  end.
Definition blk_rq_cur_bytes (rq : request) : res Z :=
  match rq_bio rq with [] => Ret 0 | b :: _ => bio_cur_bytes b end.
Definition blk_rq_pos (rq : request) : Z := rq_sector rq.
Definition blk_rq_cur_sectors (rq : request) : res Z :=
  let! n := blk_rq_cur_bytes rq in Ret (Z.shiftr n 9).
(** [rq->buffer] is the data of the current segment. *)
Definition rq_buffer (rq : request) : res Z :=
  match rq_bio rq with [] => Ret NULL | b :: _ => bio_data b end.

(** The loop of [blk_update_request]: the bios that are left, then [nr_bytes],
    [total_bytes], [bio_nbytes] and [next_idx]; the last component has the bios that ended. *)
Record progress := Progress {
  pr_bio : list bio; nr_bytes : Z; total_bytes : Z; bio_nbytes : Z; next_idx : nat; pr_ended : list (Z * Z) }.
Fixpoint update_loop (fuel : nat) (error : Z) (p : progress) : res progress :=
  match fuel with
  | O => OutOfFuel
  | S fuel =>
      match pr_bio p with
      | [] => Ret p
      | b :: rest =>
          if bi_size b <=? nr_bytes p then
            let nbytes := bi_size b in
            let '(_, e) := req_bio_endio b nbytes error in
            let p := Progress rest (nr_bytes p - nbytes) (total_bytes p + nbytes) 0 0 (pr_ended p ++ e) in
            match rest with
            | [] => update_loop fuel error p
            | _ => if nr_bytes p <=? 0 then Ret p else update_loop fuel error p
            end
          else
            let idx := (bi_idx b + next_idx p)%nat in
            match bi_io_vec b !! idx with
            | None => Ret p
            | Some v =>
                let nbytes := bv_len v in
                if bi_size b <? nbytes then Bug
                else if nr_bytes p <? nbytes then
                  Ret (Progress (b :: rest) (nr_bytes p) (total_bytes p + nr_bytes p) (bio_nbytes p + nr_bytes p)
                         (next_idx p) (pr_ended p))
                else
                  let p := Progress (b :: rest) (nr_bytes p - nbytes) (total_bytes p + nbytes) (bio_nbytes p + nbytes)
                             (S (next_idx p)) (pr_ended p) in
                  if nr_bytes p <=? 0 then Ret p else update_loop fuel error p
            end
      end
  end.

(** The state of a bio that was completed in part. *)
Definition bio_advance (b : bio) (p : progress) (error : Z) : bio * list (Z * Z) :=
  if negb (bio_nbytes p =? 0) then
    let '(b, e) := req_bio_endio b (bio_nbytes p) error in
    let idx := (bi_idx b + next_idx p)%nat in
    let vec := match bi_io_vec b !! idx with
               | Some v => <[idx := Bio_vec (bv_addr v + nr_bytes p) (bv_len v - nr_bytes p)]> (bi_io_vec b)
               | None => bi_io_vec b
               end in
    (Bio (bi_id b) (bi_size b) idx vec (bi_uptodate b), e)
  else (b, []).

(** The answer is true when the request has bytes left; the last component has the bios
    that ended. *)
Definition blk_update_request (rq : request) (error bytes : Z) : res (bool * request * list (Z * Z)) :=
  match rq_bio rq with
  | [] => Ret (false, rq, [])
  | bios =>
      let fuel := (2 + foldr (fun b n => 1 + length (bi_io_vec b) + n) 0 bios)%nat in
      let! p := update_loop fuel error (Progress bios bytes 0 0 0 []) in
      match pr_bio p with
      | [] => Ret (false, Request (cmd_fs rq) (cmd_write rq) (rq_sector rq) 0 [] (rq_dev rq), pr_ended p)
      | b :: rest =>
          let '(b, e) := bio_advance b p error in
          let len := rq_data_len rq - total_bytes p in
          let sector := if cmd_fs rq then rq_sector rq + Z.shiftr (total_bytes p) 9 else rq_sector rq in
          let! cur := bio_cur_bytes b in
          let len := if len <? cur then cur else len in
          Ret (true, Request (cmd_fs rq) (cmd_write rq) sector len (b :: rest) (rq_dev rq), pr_ended p ++ e)
      end
  end.

Definition __blk_end_request_cur (rq : request) (error : Z) : res (bool * request * list (Z * Z)) :=
  let! n := blk_rq_cur_bytes rq in
  blk_update_request rq error n.

(** ** The driver *)

Definition LKL_DISK_CS_SUCCESS : Z := 0.
Definition LKL_DISK_CS_ERROR : Z := 1.
Record lkl_disk_cs := Cs { cs_error : Z; cs_sync : Z }.

Section driver.
Context {H : Type} (lkl_disk_do_rw : Z -> Z -> Z -> Z -> bool -> H -> lkl_disk_cs * H).

(** The host and the bios that ended. *)
Record disk_state := Disk_state { disk_host : H; ended : list (Z * Z) }.

(** [do ... while (__blk_end_request_cur(...))]. *)
Fixpoint rw_loop (fuel : nat) (rq : request) (st : disk_state) : res disk_state :=
  match fuel with
  | O => OutOfFuel
  | S fuel =>
      let! nsect := blk_rq_cur_sectors rq in
      let! buffer := rq_buffer rq in
      let '(cs, h) := lkl_disk_do_rw (rq_dev rq) (blk_rq_pos rq) nsect buffer (cmd_write rq) (disk_host st) in
      if cs_sync cs =? 0 then Bug
      else
        let! (r, e) := __blk_end_request_cur rq (if negb (cs_error cs =? 0) then - EIO else 0) in
        let '(more, rq) := r in
        let st := Disk_state h (ended st ++ e) in
        if more : bool then rw_loop fuel rq st else Ret st
  end.

(** The list is the queue that [blk_fetch_request] takes the requests from. *)
Fixpoint lkl_disk_request (fuel : nat) (q : list request) (st : disk_state) : res disk_state :=
  match q with
  | [] => Ret st
  | rq :: q =>
      if negb (cmd_fs rq) then
        let! (_, e) := __blk_end_request_cur rq (- EIO) in
        lkl_disk_request fuel q (Disk_state (disk_host st) (ended st ++ e))
      else
        let! st := rw_loop fuel rq st in
        lkl_disk_request fuel q st
  end.
End driver.
Arguments disk_state : clear implicits.
Arguments Disk_state {H} _ _.

(** ** What a request means *)

(** The segments of a bio that are left. *)
Definition segs (b : bio) : list bio_vec := drop (bi_idx b) (bi_io_vec b).
Definition bytes_of (l : list bio_vec) : Z := foldr (fun v n => bv_len v + n) 0 l.

(** A bio of whole sectors whose size is that of its segments. *)
Record bio_wf (b : bio) : Prop := {
  bw_segs : segs b <> [];
  bw_len : Forall (fun v => 0 < bv_len v /\ bv_len v mod 512 = 0) (segs b);
  bw_size : bi_size b = bytes_of (segs b) }.
Record request_wf (rq : request) : Prop := {
  rw_fs : cmd_fs rq = true;
  rw_bios : rq_bio rq <> [] /\ Forall bio_wf (rq_bio rq);
  rw_bytes : rq_data_len rq = foldr (fun b n => bi_size b + n) 0 (rq_bio rq) }.
Definition nsegs (bios : list bio) : nat := foldr (fun b n => length (segs b) + n)%nat 0%nat bios.

Section meaning.
Context {H : Type} (lkl_disk_do_rw : Z -> Z -> Z -> Z -> bool -> H -> lkl_disk_cs * H).

(** The segments go to the host one after the other, at consecutive sectors. *)
Fixpoint serve_segs (dev : Z) (write : bool) (pos : Z) (l : list bio_vec) (ok : bool) (h : H) : bool * Z * H :=
  match l with
  | [] => (ok, pos, h)
  | v :: l =>
      let '(cs, h) := lkl_disk_do_rw dev pos (bv_len v / 512) (bv_addr v) write h in
      serve_segs dev write (pos + bv_len v / 512) l (ok && (cs_error cs =? 0)) h
  end.
(** A bio ends once, with an error when one of its transfers failed. *)
Fixpoint serve_bios (dev : Z) (write : bool) (pos : Z) (bios : list bio) (h : H) : list (Z * Z) * H :=
  match bios with
  | [] => ([], h)
  | b :: bios =>
      let '(ok, pos, h) := serve_segs dev write pos (segs b) (bi_uptodate b) h in
      let '(e, h) := serve_bios dev write pos bios h in
      ((bi_id b, if ok then 0 else - EIO) :: e, h)
  end.
Fixpoint serve_queue (q : list request) (h : H) : list (Z * Z) * H :=
  match q with
  | [] => ([], h)
  | rq :: q =>
      let '(e, h) := serve_bios (rq_dev rq) (cmd_write rq) (rq_sector rq) (rq_bio rq) h in
      let '(e', h) := serve_queue q h in
      (e ++ e', h)
  end.
End meaning.

Lemma bytes_of_pos (l : list bio_vec) : Forall (fun v => 0 < bv_len v /\ bv_len v mod 512 = 0) l -> l <> [] -> 0 < bytes_of l.
Proof.
  induction 1 as [|v l [Hv _] Hl IH]; [done|]. intros _. simpl. destruct l as [|w l]; [simpl; lia|]. specialize (IH ltac:(done)). lia.
Qed.
Lemma sizes_nonneg (bios : list bio) : Forall bio_wf bios -> 0 <= foldr (fun b n => bi_size b + n) 0 bios.
Proof.
  induction 1 as [|b bios [H1 H2 H3] Hb IH]; [done|]. simpl. pose proof (bytes_of_pos _ H2 H1). lia.
Qed.

Lemma segs_cons (b : bio) (v : bio_vec) (l : list bio_vec) :
  segs b = v :: l -> bi_io_vec b !! bi_idx b = Some v /\ bi_io_vec b <> [] /\
  bi_io_vec b !! S (bi_idx b) = head l /\ drop (S (bi_idx b)) (bi_io_vec b) = l.
Proof.
  unfold segs. intros E. assert (bi_io_vec b !! bi_idx b = Some v) as Hv.
  { rewrite <- (Nat.add_0_r (bi_idx b)), <- lookup_drop, E. done. }
  assert (drop (S (bi_idx b)) (bi_io_vec b) = l) as Hl by (apply drop_S in Hv; congruence).
  split_and!; [done| |rewrite <- (Nat.add_0_r (S _)), <- lookup_drop, Hl; by destruct l|done].
  intros E0. by rewrite E0 in Hv.
Qed.

(** The bio after its current segment, with more segments to come. *)
Definition next_seg (b : bio) (v : bio_vec) (error : Z) : bio :=
  Bio (bi_id b) (bi_size b - bv_len v) (S (bi_idx b)) (bi_io_vec b) (bi_uptodate b && (error =? 0)).

Lemma bio_cur (b : bio) (v : bio_vec) (l : list bio_vec) : segs b = v :: l ->
  bio_cur_bytes b = Ret (bv_len v) /\ bio_data b = Ret (bv_addr v).
Proof.
  intros E. destruct (segs_cons b v l E) as (H1 & H2 & _). unfold bio_cur_bytes, bio_data.
  destruct (bi_io_vec b); [done|]. by rewrite H1.
Qed.

(** One segment is done: the bio ends with it, or goes on with the next one. *)
Lemma end_segment (rq : request) (b : bio) (rest : list bio) (v : bio_vec) (l : list bio_vec) (error : Z) :
  request_wf rq -> rq_bio rq = b :: rest -> segs b = v :: l ->
  __blk_end_request_cur rq error =
    match l with
    | [] =>
        let e := [(bi_id b, if negb (error =? 0) then error else if bi_uptodate b then 0 else - EIO)] in
        match rest with
        | [] => Ret (false, Request (cmd_fs rq) (cmd_write rq) (rq_sector rq) 0 [] (rq_dev rq), e)
        | _ => Ret (true, Request (cmd_fs rq) (cmd_write rq) (rq_sector rq + bv_len v / 512) (rq_data_len rq - bv_len v) rest (rq_dev rq), e)
        end
    | _ => Ret (true, Request (cmd_fs rq) (cmd_write rq) (rq_sector rq + bv_len v / 512) (rq_data_len rq - bv_len v)
                        (next_seg b v error :: rest) (rq_dev rq), [])
    end.
Proof.
  intros [Hfs [_ Hwf] Hlen] Hb Hs. rewrite Hb in Hwf. apply Forall_cons in Hwf as [[W1 W2 W3] Hrest].
  destruct (segs_cons b v l Hs) as (Hv & Hne & Hnext & Hdrop). destruct (bio_cur b v l Hs) as [Hc _].
  rewrite Hs in W2, W3. apply Forall_cons in W2 as [[Hpos Hmod] W2]. simpl in W3.
  unfold __blk_end_request_cur, blk_rq_cur_bytes. rewrite Hb, Hc. cbn [res_bind]. unfold blk_update_request. rewrite Hb.
  cbn [foldr Nat.add]. set (fuel := foldr _ _ _). cbn [update_loop pr_bio nr_bytes].
  assert (Z.shiftr (bv_len v) 9 = bv_len v / 512) as Esh by (by rewrite Z.shiftr_div_pow2).
  destruct l as [|w l].
  - simpl in W3. assert (bi_size b = bv_len v) as Esz by lia. rewrite Esz, Z.leb_refl. unfold req_bio_endio at 1.
    rewrite Esz, Z.ltb_irrefl, Z.sub_diag. change (0 =? 0) with true. cbn iota. cbn [total_bytes pr_ended nr_bytes app].
    destruct rest as [|b2 rest].
    + destruct fuel; done.
    + change (0 <=? 0) with true. cbn iota. cbn [res_bind pr_bio].
      unfold bio_advance. cbn [bio_nbytes]. change (negb (0 =? 0)) with false. cbn iota. cbn [total_bytes pr_ended].
      apply Forall_cons in Hrest as [[V1 V2 V3] Hrest]. destruct (segs b2) as [|v2 l2] eqn:E2; [done|].
      destruct (bio_cur b2 v2 l2 E2) as [-> _]. cbn [res_bind]. rewrite Hfs, Z.add_0_l, Esh.
      rewrite Hb in Hlen. simpl in Hlen, V3. pose proof (sizes_nonneg rest Hrest).
      assert (0 <= bytes_of l2).
      { apply Forall_cons in V2 as [_ V2]. destruct l2; [done|]. apply Z.lt_le_incl, bytes_of_pos; done. }
      destruct (Z.ltb_spec (rq_data_len rq - bv_len v) (bv_len v2)); [lia|]. by rewrite app_nil_r.
  - assert (0 < bytes_of (w :: l)) as Hrem by (by apply bytes_of_pos).
    destruct (Z.leb_spec (bi_size b) (bv_len v)); [lia|]. cbn [next_idx]. rewrite Nat.add_0_r, Hv.
    destruct (Z.ltb_spec (bi_size b) (bv_len v)); [lia|]. rewrite Z.ltb_irrefl. cbn [nr_bytes bio_nbytes total_bytes pr_ended].
    rewrite Z.sub_diag. change (0 <=? 0) with true. cbn iota. cbn [res_bind pr_bio]. unfold bio_advance. cbn [bio_nbytes].
    rewrite Z.add_0_l, (proj2 (Z.eqb_neq (bv_len v) 0)) by lia. cbn [negb]. unfold req_bio_endio.
    destruct (Z.ltb_spec (bi_size b) (bv_len v)); [lia|]. rewrite (proj2 (Z.eqb_neq (bi_size b - bv_len v) 0)) by lia.
    cbn [bi_id bi_size bi_idx bi_io_vec bi_uptodate next_idx nr_bytes]. rewrite Nat.add_1_r, Hnext. cbn [head].
    rewrite Z.add_0_r, Z.sub_0_r. assert (Bio_vec (bv_addr w) (bv_len w) = w) as -> by by destruct w.
    rewrite list_insert_id by done. cbn [total_bytes pr_ended app].
    assert ((if negb (error =? 0) then false else bi_uptodate b) = bi_uptodate b && (error =? 0)) as ->
      by (destruct (error =? 0), (bi_uptodate b); done).
    fold (next_seg b v error). assert (segs (next_seg b v error) = w :: l) as En by done.
    destruct (bio_cur _ _ _ En) as [-> _]. cbn [res_bind]. rewrite Hfs, Esh, Hb in *. simpl in Hlen, W3.
    pose proof (sizes_nonneg rest Hrest). assert (0 <= bytes_of l).
    { apply Forall_cons in W2 as [_ W2]. destruct l; [done|]. apply Z.lt_le_incl, bytes_of_pos; done. }
    destruct (Z.ltb_spec (rq_data_len rq - bv_len v) (bv_len w)); [simpl in *; lia|done].
Qed.

(** ** The driver serves the queue *)

Section served.
Context {H : Type} (lkl_disk_do_rw : Z -> Z -> Z -> Z -> bool -> H -> lkl_disk_cs * H).
Hypothesis sync : forall dev pos n addr write h, cs_sync (fst (lkl_disk_do_rw dev pos n addr write h)) <> 0.

Lemma rw_loop_spec (fuel : nat) (rq : request) (st : disk_state H) :
  request_wf rq -> (nsegs (rq_bio rq) <= fuel)%nat ->
  rw_loop lkl_disk_do_rw fuel rq st =
    let '(e, h) := serve_bios lkl_disk_do_rw (rq_dev rq) (cmd_write rq) (rq_sector rq) (rq_bio rq) (disk_host st) in
    Ret (Disk_state h (ended st ++ e)).
Proof using sync.
  revert rq st. induction fuel as [|fuel IH]; intros rq st Hwf Hf.
  - exfalso. destruct Hwf as [_ [Hne Hb] _]. destruct (rq_bio rq) as [|b rest]; [done|]. apply Forall_cons in Hb as [[Hs _ _] _].
    simpl in Hf. destruct (segs b); [done|]. simpl in Hf. lia.
  - pose proof Hwf as [Hfs [Hne Hb] Hlen]. destruct (rq_bio rq) as [|b rest] eqn:Erq; [done|].
    apply Forall_cons in Hb as [[W1 W2 W3] Hrest]. destruct (segs b) as [|v l] eqn:Es; [done|].
    destruct (bio_cur b v l Es) as [Ec Ed]. cbn [rw_loop]. unfold blk_rq_cur_sectors, blk_rq_cur_bytes, rq_buffer.
    rewrite Erq, Ec, Ed. cbn [res_bind]. rewrite Z.shiftr_div_pow2 by done. change (2 ^ 9) with 512.
    cbn [serve_bios]. rewrite Es. cbn [serve_segs]. unfold blk_rq_pos. pose proof (sync (rq_dev rq) (rq_sector rq) (bv_len v / 512) (bv_addr v) (cmd_write rq) (disk_host st)) as Hsync.
    destruct (lkl_disk_do_rw _ _ _ _ _ _) as [cs h]. simpl in Hsync. rewrite (proj2 (Z.eqb_neq _ _) Hsync).
    rewrite (end_segment rq b rest v l _ Hwf Erq Es). set (err := if negb (cs_error cs =? 0) then - EIO else 0).
    assert ((err =? 0) = (cs_error cs =? 0)) as Eerr by (unfold err; by destruct (cs_error cs =? 0)).
    assert ((if negb (err =? 0) then err else if bi_uptodate b then 0 else - EIO) =
      if bi_uptodate b && (cs_error cs =? 0) then 0 else - EIO) as Eend.
    { rewrite Eerr. unfold err. by destruct (cs_error cs =? 0), (bi_uptodate b). }
    simpl in W3, Hlen, Hf. rewrite Es in Hf. simpl in Hf. apply Forall_cons in W2 as [_ W2]. destruct l as [|w l].
    + rewrite Eend. cbn [serve_segs]. destruct rest as [|b2 rest]; cbn [res_bind]; [done|].
      rewrite IH; [|split; [done|done|cbn [rq_data_len rq_bio]; simpl in W3; lia]|simpl in *; lia].
      cbn [rq_dev cmd_write rq_sector rq_bio disk_host ended].
      destruct (serve_bios _ _ _ _ _ _) as [e h']. by rewrite <- app_assoc.
    + cbn [res_bind]. rewrite IH; [|split; [done| |]|].
      * cbn [rq_dev cmd_write rq_sector rq_bio disk_host ended serve_bios]. rewrite app_nil_r. cbn [next_seg bi_uptodate bi_id].
        rewrite Eerr. assert (segs (next_seg b v err) = w :: l) as -> by by apply (segs_cons b v (w :: l) Es). done.
      * split; [done|]. apply Forall_cons. split; [|done].
        assert (segs (next_seg b v err) = w :: l) as En by by apply (segs_cons b v (w :: l) Es).
        split; rewrite En; [done|done|]. simpl in *. lia.
      * cbn [rq_data_len rq_bio]. simpl in *. lia.
      * simpl. assert (segs (next_seg b v err) = w :: l) as -> by by apply (segs_cons b v (w :: l) Es). simpl in *. lia.
Qed.

End served.

(** A request that is not of the file system loses only its first segment: with more than
    one it is taken from the queue and never ends. *)
Lemma non_fs_request_not_ended {H : Type} (do_rw : Z -> Z -> Z -> Z -> bool -> H -> lkl_disk_cs * H) (fuel : nat)
    (id a1 a2 pos dev : Z) (write : bool) (st : disk_state H) :
  lkl_disk_request do_rw fuel [Request false write pos 1024 [Bio id 1024 0 [Bio_vec a1 512; Bio_vec a2 512] true] dev] st = Ret st.
Proof.
  cbn [lkl_disk_request cmd_fs negb]. set (r := __blk_end_request_cur _ _).
  assert (exists rq, r = Ret (true, rq, [])) as [rq ->] by (eexists; vm_compute; reflexivity).
  cbn [res_bind]. destruct st. simpl. by rewrite app_nil_r.
Qed.

(** ** The drivers of the hosts *)

(** A host file, its position, and the buffers of the kernel the host can reach. *)
Record file := File { content : list Z; f_pos : Z; mem : gmap Z (list Z) }.

(** [bs] replaces what the file holds at [p]; a gap reads as zeroes. *)
Definition overwrite (c : list Z) (p : Z) (bs : list Z) : list Z :=
  let p := Z.to_nat p in
  take p c ++ replicate (p - length c) 0 ++ bs ++ drop (p + length bs) c.

Section hosts.
(** Where the host fails to transfer. *)
Context (io_error : Z -> bool).

Definition lseek (off : Z) (f : file) : Z * file :=
  if off <? 0 then (-1, f) else (off, File (content f) off (mem f)).
Definition write_ (addr n : Z) (f : file) : Z * file :=
  match mem f !! addr with
  | Some bs =>
      if io_error (f_pos f) || (Z.of_nat (length bs) <? n) then (-1, f)
      else (n, File (overwrite (content f) (f_pos f) (take (Z.to_nat n) bs)) (f_pos f + n) (mem f))
  | None => (-1, f)
  end.
Definition read_ (addr n : Z) (f : file) : Z * file :=
  match mem f !! addr with
  | Some bs =>
      if io_error (f_pos f) || (Z.of_nat (length bs) <? n) then (-1, f)
      else
        let got := take (Z.to_nat n) (drop (Z.to_nat (f_pos f)) (content f)) in
        let k := Z.of_nat (length got) in
        (k, File (content f) (f_pos f + k) (<[addr := got ++ drop (length got) bs]> (mem f)))
  | None => (-1, f)
  end.
Definition transfer (addr n : Z) (write : bool) (f : file) : Z * file :=
  if write then write_ addr n f else read_ addr n f.

(** envs/drivers/posix/disk.c: the result is an [int], compared with an unsigned long. *)
Definition lkl_disk_do_rw_posix (data sector nsect buffer : Z) (dir : bool) (f : file) : lkl_disk_cs * file :=
  let '(r, f) := lseek (s64 (512 * sector)) f in
  if r <? 0 then (Cs LKL_DISK_CS_ERROR 1, f)
  else
    let '(err, f) := transfer buffer (u64 (512 * nsect)) dir f in
    if negb (u64 (s32 err) =? u64 (nsect * 512)) then (Cs LKL_DISK_CS_ERROR 1, f)
    else (Cs LKL_DISK_CS_SUCCESS 1, f).

(** envs/drivers/ansi/disk.c: [fread] and [fwrite] count elements of 512 bytes. *)
Definition lkl_disk_do_rw_ansi (data sector nsect buffer : Z) (dir : bool) (f : file) : lkl_disk_cs * file :=
  let '(r, f) := lseek (s64 (sector * 512)) f in
  if r <? 0 then (Cs LKL_DISK_CS_ERROR 1, f)
  else
    let '(n, f) := transfer buffer (512 * nsect) dir f in
    let err := if n <? 0 then 0 else n / 512 in
    if negb (u64 (s32 err) =? u64 nsect) then (Cs LKL_DISK_CS_ERROR 1, f)
    else (Cs LKL_DISK_CS_SUCCESS 1, f).

(** envs/drivers/apr/disk.c: the full transfers fail when they are short. *)
Definition lkl_disk_do_rw_apr (data sector nsect buffer : Z) (dir : bool) (f : file) : lkl_disk_cs * file :=
  let len := u64 (nsect * 512) in
  let '(r, f) := lseek (s64 (u64 (sector * 512))) f in
  if r <? 0 then (Cs LKL_DISK_CS_ERROR 1, f)
  else
    let '(n, f) := transfer buffer len dir f in
    if n =? len then (Cs LKL_DISK_CS_SUCCESS 1, f) else (Cs LKL_DISK_CS_ERROR 1, f).

(** envs/drivers/khaiku/disk.c: a short transfer counts as a success. *)
Definition lkl_disk_do_rw_khaiku (data sector nsect buffer : Z) (dir : bool) (f : file) : lkl_disk_cs * file :=
  let '(_, f) := lseek (s64 (sector * 512)) f in
  let '(n, f) := transfer buffer (u64 (512 * nsect)) dir f in
  let rc := s32 n in
  (Cs (if rc <? 0 then LKL_DISK_CS_ERROR else LKL_DISK_CS_SUCCESS) 1, f).
End hosts.

Definition STATUS_SUCCESS : Z := 0.
Definition STATUS_PENDING : Z := 0x103.
(** envs/drivers/ntk/disk.c: [irp] tells whether a packet was allocated, [call] is the answer
    of the driver below, [done] the status it stores when the transfer is complete; [junk] is
    the variable [status], which nothing sets. *)
Definition lkl_disk_do_rw_ntk (irp : bool) (call done_ junk : Z) : lkl_disk_cs :=
  if negb irp then Cs LKL_DISK_CS_ERROR 1
  else
    let status := if negb (call =? STATUS_PENDING) then junk else done_ in
    Cs (if status =? STATUS_SUCCESS then LKL_DISK_CS_SUCCESS else LKL_DISK_CS_ERROR) 1.

(** ** Adding and removing disks *)

Record gendisk := Gendisk { gd_major : Z; gd_first_minor : Z; gd_queue : Z; gd_private_data : Z; gd_capacity : Z }.
Record lkl_disk_dev := Lkl_disk_dev { dd_data : Z; dd_queue : Z; dd_gd : Z }.
(** The driver's variables, its devices, and the queues and disks of the block layer. *)
Record disks_state := Disks_state {
  major : Z; disk_failed : bool; disks : Z; devs : gmap Z lkl_disk_dev; queues : gset Z; gendisks : gmap Z gendisk;
  irq_taken : bool }.

Definition MINORBITS : Z := 20.
Definition MKDEV (ma mi : Z) : Z := Z.lor (Z.shiftl ma MINORBITS) mi.
Definition MAJOR (dev : Z) : Z := Z.shiftr dev MINORBITS.
Definition MINOR (dev : Z) : Z := Z.land dev (2 ^ MINORBITS - 1).
Definition new_encode_dev (dev : Z) : Z :=
  let mj := MAJOR dev in
  let mi := MINOR dev in
  u32 (Z.lor (Z.lor (Z.land mi 0xff) (Z.shiftl mj 8)) (Z.shiftl (Z.land mi (Z.lnot 0xff)) 12)).
Definition new_decode_dev (dev : Z) : Z :=
  let mj := Z.shiftr (Z.land dev 0xfff00) 8 in
  let mi := Z.lor (Z.land dev 0xff) (Z.land (Z.shiftr dev 12) 0xfff00) in
  MKDEV mj mi.

(** What the allocators answer. *)
Record disk_answers := Disk_answers { da_dev : Z; da_queue : Z; da_gd : Z }.

Definition _lkl_disk_add_disk (data sectors : Z) (a : disk_answers) (s : disks_state) : Z * disks_state :=
  if disk_failed s then (0, s)
  else if da_dev a =? NULL then (0, s)
  else if da_queue a =? NULL then (0, s)
  else
    let s := Disks_state (major s) (disk_failed s) (disks s) (devs s) ({[da_queue a]} ∪ queues s) (gendisks s) (irq_taken s) in
    if da_gd a =? NULL then (0, s)
    else
      let gd := Gendisk (major s) (disks s) (da_queue a) (da_dev a) sectors in
      let s' := Disks_state (major s) (disk_failed s) (s32 (disks s + 1))
                 (<[da_dev a := Lkl_disk_dev data (da_queue a) (da_gd a)]> (devs s)) (queues s)
                 (<[da_gd a := gd]> (gendisks s)) (irq_taken s) in
      (new_encode_dev (MKDEV (major s) (disks s)), s').

(** [bdget] and [get_gendisk] are what the generic lookups answer. *)
Definition _lkl_disk_del_disk (bdget : bool) (get_gendisk : Z -> option (Z * gendisk)) (devt : Z) (s : disks_state) :
    Z * disks_state :=
  if negb bdget then (- EINVAL, s)
  else
    match get_gendisk (new_decode_dev devt) with
    | None => (- EINVAL, s)
    | Some (p, gd) =>
        if negb (gd_major gd =? major s) then (- EINVAL, s)
        else (0, Disks_state (major s) (disk_failed s) (disks s) (devs s)
                   (if negb (gd_queue gd =? NULL) then queues s ∖ {[gd_queue gd]} else queues s)
                   (delete p (gendisks s)) (irq_taken s))
    end.

(** [err] is the answer of [request_irq], [ma] that of [register_blkdev]. *)
Definition disk_init (err ma : Z) (s : disks_state) : Z * disks_state :=
  if negb (err =? 0) then (err, Disks_state (major s) true (disks s) (devs s) (queues s) (gendisks s) (irq_taken s))
  else if ma <? 0 then (- EBUSY, Disks_state ma true (disks s) (devs s) (queues s) (gendisks s) false)
  else (0, Disks_state ma (disk_failed s) (disks s) (devs s) (queues s) (gendisks s) true).

(** A device number survives the trip to the application and back. *)
Lemma dev_roundtrip (ma mi : Z) : 0 <= ma < 2 ^ 12 -> 0 <= mi < 2 ^ 20 ->
  new_decode_dev (new_encode_dev (MKDEV ma mi)) = MKDEV ma mi.
Proof.
  intros Hma Hmi. assert (forall k, 12 <= k -> Z.testbit ma k = false) as Ba.
  { intros k Hk. destruct (decide (ma = 0)) as [->|]; [apply Z.bits_0|]. apply Z.bits_above_log2; [lia|]. apply Z.log2_lt_pow2; [lia|].
    apply Z.lt_le_trans with (2 ^ 12); [lia|]. apply Z.pow_le_mono_r; lia. }
  assert (forall k, 20 <= k -> Z.testbit mi k = false) as Bi.
  { intros k Hk. destruct (decide (mi = 0)) as [->|]; [apply Z.bits_0|]. apply Z.bits_above_log2; [lia|]. apply Z.log2_lt_pow2; [lia|].
    apply Z.lt_le_trans with (2 ^ 20); [lia|]. apply Z.pow_le_mono_r; lia. }
  assert (MAJOR (MKDEV ma mi) = ma /\ MINOR (MKDEV ma mi) = mi) as [E1 E2].
  { unfold MAJOR, MINOR, MKDEV, MINORBITS. split; apply Z.bits_inj'; intros k Hk.
    - rewrite Z.shiftr_spec, Z.lor_spec, Z.shiftl_spec, (Bi (k + 20)), orb_false_r by lia. f_equal. lia.
    - change (2 ^ 20 - 1) with (Z.ones 20). rewrite Z.land_spec, Z.lor_spec, Z.shiftl_spec by lia. destruct (decide (k < 20)).
      + rewrite Z.testbit_neg_r, Z.ones_spec_low by lia. apply andb_true_r.
      + rewrite Z.ones_spec_high, Bi by lia. apply andb_false_r. }
  assert (forall k, 0 <= k < 32 -> Z.testbit (new_encode_dev (MKDEV ma mi)) k =
    if k <? 8 then Z.testbit mi k else if k <? 20 then Z.testbit ma (k - 8) else Z.testbit mi (k - 12)) as Henc.
  { intros k Hk. unfold new_encode_dev. rewrite E1, E2. unfold wrap. rewrite Z.mod_pow2_bits_low by lia.
    change 0xff with (Z.ones 8). rewrite !Z.lor_spec, !Z.shiftl_spec, Z.land_spec by lia.
    destruct (Z.ltb_spec k 8); [|destruct (Z.ltb_spec k 20)].
    - rewrite Z.ones_spec_low, (Z.testbit_neg_r ma), (Z.testbit_neg_r _ (k - 12)) by lia. by rewrite andb_true_r, !orb_false_r.
    - rewrite Z.ones_spec_high, andb_false_r by lia. cbn [orb]. destruct (decide (k < 12)); [rewrite (Z.testbit_neg_r _ (k - 12)) by lia; apply orb_false_r|].
      rewrite Z.land_spec, Z.lnot_spec, Z.ones_spec_low by lia. cbn [negb]. by rewrite andb_false_r, orb_false_r.
    - rewrite Z.ones_spec_high, andb_false_r, (Ba (k - 8)), Z.land_spec, Z.lnot_spec, Z.ones_spec_high by lia. apply andb_true_r. }
  assert (forall k, 32 <= k -> Z.testbit (new_encode_dev (MKDEV ma mi)) k = false) as Hhigh.
  { intros k Hk. unfold new_encode_dev, wrap. by rewrite Z.mod_pow2_bits_high by lia. }
  unfold new_decode_dev. set (e := new_encode_dev _) in *. change 0xfff00 with (Z.shiftl (Z.ones 12) 8). change 0xff with (Z.ones 8).
  f_equal; apply Z.bits_inj'; intros k Hk.
  - rewrite Z.shiftr_spec, Z.land_spec, Z.shiftl_spec by lia. replace (k + 8 - 8) with k by lia. destruct (decide (k < 12)).
    + rewrite Z.ones_spec_low, andb_true_r, Henc by lia. destruct (Z.ltb_spec (k + 8) 8), (Z.ltb_spec (k + 8) 20); try lia. f_equal. lia.
    + rewrite Z.ones_spec_high, andb_false_r, Ba by lia. done.
  - rewrite Z.lor_spec, !Z.land_spec, Z.shiftr_spec, Z.shiftl_spec by lia. destruct (decide (k < 8)); [|destruct (decide (k < 20))].
    + rewrite Z.ones_spec_low, (Z.testbit_neg_r _ (k - 8)), andb_true_r, andb_false_r, orb_false_r, Henc by lia.
      destruct (Z.ltb_spec k 8); [done|lia].
    + rewrite Z.ones_spec_high, Z.ones_spec_low, andb_false_r, andb_true_r, Henc by lia.
      destruct (Z.ltb_spec (k + 12) 8), (Z.ltb_spec (k + 12) 20); try lia. cbn [orb]. f_equal. lia.
    + rewrite Z.ones_spec_high, Z.ones_spec_high, !andb_false_r, Bi by lia. done.
Qed.

(** ** Data written is read back *)

Lemma overwrite_get (c bs : list Z) (p : Z) : 0 <= p ->
  take (length bs) (drop (Z.to_nat p) (overwrite c p bs)) = bs.
Proof.
  intros Hp. unfold overwrite. set (k := Z.to_nat p).
  assert (length (take k c ++ replicate (k - length c) 0) = k) as Hl by (rewrite length_app, length_take, length_replicate; lia).
  rewrite app_assoc, drop_app_length' by done. by rewrite take_app_length.
Qed.
Lemma length_overwrite (c bs : list Z) (p : Z) : 0 <= p -> (Z.to_nat p + length bs <= length (overwrite c p bs))%nat.
Proof.
  intros Hp. unfold overwrite. rewrite !length_app, length_take, length_replicate, length_drop. lia.
Qed.
Lemma overwrite_app (c a b : list Z) (p : Z) : 0 <= p ->
  overwrite (overwrite c p a) (p + Z.of_nat (length a)) b = overwrite c p (a ++ b).
Proof.
  intros Hp. unfold overwrite at 1 3. set (k := Z.to_nat p).
  replace (Z.to_nat (p + Z.of_nat (length a))) with (k + length a)%nat by lia.
  pose proof (length_overwrite c a p Hp) as Hlen.
  replace (k + length a - length (overwrite c p a))%nat with 0%nat by lia. cbn [replicate app].
  assert (take k c ++ replicate (k - length c) 0 ++ a = take (k + length a) (overwrite c p a)) as <-.
  { unfold overwrite. fold k. rewrite !app_assoc. rewrite take_app_length'; [done|].
    rewrite !length_app, length_take, length_replicate. lia. }
  assert (drop (k + length a + length b) (overwrite c p a) = drop (k + length (a ++ b)) c) as ->.
  { unfold overwrite. fold k. rewrite !app_assoc, drop_app_ge; rewrite !length_app, length_take, length_replicate; [|lia].
    rewrite drop_drop. f_equal. lia. }
  by rewrite <- !app_assoc.
Qed.

(** What the buffers of the segments hold. *)
Definition seg_data (m : gmap Z (list Z)) (l : list bio_vec) : list Z :=
  l ≫= fun v => match m !! bv_addr v with Some bs => bs | None => [] end.
(** Each segment has a buffer of its size, small enough for an [int]. *)
Definition buffers_ok (m : gmap Z (list Z)) (l : list bio_vec) : Prop :=
  Forall (fun v => 0 < bv_len v < 2 ^ 31 /\ bv_len v mod 512 = 0 /\
    exists bs, m !! bv_addr v = Some bs /\ Z.of_nat (length bs) = bv_len v) l.

Section roundtrip.
Context (io_error : Z -> bool).

Lemma seg_size (n : Z) : 0 < n < 2 ^ 31 -> n mod 512 = 0 ->
  u64 (512 * (n / 512)) = n /\ u64 (n / 512 * 512) = n /\ u64 (s32 n) = n.
Proof.
  intros Hn Hm. pose proof (Z.div_mod n 512 ltac:(lia)). rewrite Hm, Z.add_0_r in *.
  rewrite (Z.mul_comm (n / 512)). rewrite <- H. rewrite swrap_id by (unfold in_s; lia). rewrite wrap_id by (unfold in_u; lia). done.
Qed.

(** A whole segment is transferred when the host does not fail. *)
Lemma posix_transfer (dev pos addr n : Z) (dir : bool) (f f' : file) :
  0 < n < 2 ^ 31 -> n mod 512 = 0 -> 0 <= pos -> 512 * pos < 2 ^ 62 ->
  transfer io_error addr n dir (File (content f) (512 * pos) (mem f)) = (n, f') ->
  lkl_disk_do_rw_posix io_error dev pos (n / 512) addr dir f = (Cs LKL_DISK_CS_SUCCESS 1, f').
Proof.
  intros Hn Hm Hp Hb Ht. destruct (seg_size n Hn Hm) as (E1 & E2 & E3). unfold lkl_disk_do_rw_posix, lseek.
  rewrite swrap_id by (unfold in_s; lia). destruct (Z.ltb_spec (512 * pos) 0); [lia|]. destruct (Z.ltb_spec (512 * pos) 0); [lia|].
  rewrite E1, Ht, E2, E3, Z.eqb_refl. done.
Qed.

(** Writing no bytes leaves the file as it is. *)
Definition written (c : list Z) (p : Z) (bs : list Z) : list Z := match bs with [] => c | _ => overwrite c p bs end.
Lemma written_app (c a b : list Z) (p : Z) : 0 <= p ->
  written (written c p a) (p + Z.of_nat (length a)) b = written c p (a ++ b).
Proof.
  intros Hp. destruct a as [|x a]; [by rewrite Z.add_0_r|]. destruct b as [|y b]; [by rewrite app_nil_r|].
  apply (overwrite_app c (x :: a) (y :: b) p Hp).
Qed.

Lemma seg_data_cons (m : gmap Z (list Z)) (v : bio_vec) (l : list bio_vec) (bs : list Z) :
  m !! bv_addr v = Some bs -> seg_data m (v :: l) = bs ++ seg_data m l.
Proof. intros E. unfold seg_data. cbn [mbind list_bind]. by rewrite E. Qed.
Lemma seg_data_app (m : gmap Z (list Z)) (l k : list bio_vec) : seg_data m (l ++ k) = seg_data m l ++ seg_data m k.
Proof. apply bind_app. Qed.
Lemma seg_data_ext (m m' : gmap Z (list Z)) (l : list bio_vec) :
  (forall v, v ∈ l -> m !! bv_addr v = m' !! bv_addr v) -> seg_data m l = seg_data m' l.
Proof.
  induction l as [|v l IH]; intros H; [done|]. unfold seg_data. cbn [mbind list_bind]. rewrite H by by left.
  f_equal. apply IH. intros w Hw. apply H. by right.
Qed.
Lemma length_seg_data (m : gmap Z (list Z)) (l : list bio_vec) : buffers_ok m l ->
  Z.of_nat (length (seg_data m l)) = bytes_of l /\ 512 * (bytes_of l / 512) = bytes_of l /\ 0 <= bytes_of l.
Proof.
  induction 1 as [|v l (Hn & Hm & bs & Eb & Hl) Hb (IH1 & IH2 & IH3)]; [done|].
  rewrite (seg_data_cons _ _ _ bs Eb), length_app, Nat2Z.inj_add, Hl, IH1. cbn [bytes_of foldr]. fold (bytes_of l).
  pose proof (Z.div_mod (bv_len v) 512 ltac:(lia)) as Hd. rewrite Hm, Z.add_0_r in Hd.
  assert ((bv_len v + bytes_of l) / 512 = bv_len v / 512 + bytes_of l / 512) as ->.
  { rewrite Hd at 1. rewrite (Z.mul_comm 512), Z.div_add_l by lia. done. }
  split_and!; lia.
Qed.

Lemma write_segs (dev pos : Z) (l : list bio_vec) (ok : bool) (f : file) :
  (forall off, io_error off = false) -> buffers_ok (mem f) l -> 0 <= pos -> 512 * pos + bytes_of l < 2 ^ 62 ->
  exists f', serve_segs (lkl_disk_do_rw_posix io_error) dev true pos l ok f = (ok, pos + bytes_of l / 512, f') /\
    content f' = written (content f) (512 * pos) (seg_data (mem f) l) /\ mem f' = mem f.
Proof.
  intros Hio. revert pos ok f. induction l as [|v l IH]; intros pos ok f Hb Hp Hlim.
  { exists f. cbn [serve_segs bytes_of foldr]. rewrite Z.div_0_l, Z.add_0_r by done. done. }
  pose proof (length_seg_data _ _ Hb) as (L1 & L2 & L3). apply Forall_cons in Hb as [(Hn & Hm & bs & Eb & Hl) Hb].
  pose proof (length_seg_data _ _ Hb) as (K1 & K2 & K3). cbn [bytes_of foldr] in *. fold (bytes_of l) in *.
  cbn [serve_segs]. erewrite (posix_transfer dev pos (bv_addr v) (bv_len v) true f); [|lia|done|done|lia|].
  2: { unfold transfer, write_. cbn [mem content f_pos]. rewrite Eb, Hio. destruct (Z.ltb_spec (Z.of_nat (length bs)) (bv_len v)); [lia|].
       cbn [orb]. reflexivity. }
  rewrite take_ge by lia. pose proof (Z.div_mod (bv_len v) 512 ltac:(lia)) as Hd. rewrite Hm, Z.add_0_r in Hd.
  assert (0 <= bv_len v / 512) by (apply Z.div_pos; lia).
  destruct (IH (pos + bv_len v / 512) (ok && (cs_error (Cs LKL_DISK_CS_SUCCESS 1) =? 0))
    (File (overwrite (content f) (512 * pos) bs) (512 * pos + bv_len v) (mem f))) as (f' & -> & E1 & E2); [done|lia|lia|].
  exists f'. split.
  - f_equal. f_equal; [apply andb_true_r|]. rewrite Hd at 2. rewrite (Z.mul_comm 512), Z.div_add_l by lia. lia.
  - cbn [content mem] in *. split; [|done]. rewrite E1, (seg_data_cons _ _ _ bs Eb), <- written_app by lia.
    f_equal; [destruct bs; [simpl in Hl; lia|done]|lia].
Qed.

Lemma buffers_ok_insert (m : gmap Z (list Z)) (l : list bio_vec) (a : Z) (bs : list Z) :
  a ∉ bv_addr <$> l -> buffers_ok m l -> buffers_ok (<[a := bs]> m) l.
Proof.
  intros Ha. unfold buffers_ok. rewrite !Forall_forall. intros H v Hv. destruct (H v Hv) as (H1 & H2 & b & Eb & H3).
  split; [done|]. split; [done|]. exists b. rewrite lookup_insert_ne; [done|]. intros ->. apply Ha. apply list_elem_of_fmap. eauto.
Qed.

Lemma read_segs (dev pos : Z) (l : list bio_vec) (ok : bool) (f : file) :
  (forall off, io_error off = false) -> buffers_ok (mem f) l -> NoDup (bv_addr <$> l) -> 0 <= pos ->
  512 * pos + bytes_of l <= Z.of_nat (length (content f)) -> 512 * pos + bytes_of l < 2 ^ 62 ->
  exists f', serve_segs (lkl_disk_do_rw_posix io_error) dev false pos l ok f = (ok, pos + bytes_of l / 512, f') /\
    content f' = content f /\ seg_data (mem f') l = take (Z.to_nat (bytes_of l)) (drop (Z.to_nat (512 * pos)) (content f)) /\
    (forall a, a ∉ bv_addr <$> l -> mem f' !! a = mem f !! a).
Proof.
  intros Hio. revert pos ok f. induction l as [|v l IH]; intros pos ok f Hb Hnd Hp Hlen Hlim.
  { exists f. cbn [serve_segs bytes_of foldr]. rewrite Z.div_0_l, Z.add_0_r by done. done. }
  apply NoDup_cons in Hnd as [Hni Hnd]. apply Forall_cons in Hb as [(Hn & Hm & bs & Eb & Hl) Hb].
  pose proof (length_seg_data _ _ Hb) as (K1 & K2 & K3). cbn [bytes_of foldr] in *. fold (bytes_of l) in *.
  cbn [serve_segs]. set (got := take (Z.to_nat (bv_len v)) (drop (Z.to_nat (512 * pos)) (content f))).
  assert (Z.of_nat (length got) = bv_len v) as Hg by (unfold got; rewrite length_take, length_drop; lia).
  assert (transfer io_error (bv_addr v) (bv_len v) false (File (content f) (512 * pos) (mem f)) =
    (bv_len v, File (content f) (512 * pos + bv_len v) (<[bv_addr v := got]> (mem f)))) as Ht.
  { unfold transfer, read_. cbn [mem content f_pos]. rewrite Eb, Hio. destruct (Z.ltb_spec (Z.of_nat (length bs)) (bv_len v)); [lia|].
    cbn [orb]. fold got. rewrite Hg, drop_ge, app_nil_r by lia. done. }
  rewrite (posix_transfer dev pos (bv_addr v) (bv_len v) false f _ ltac:(lia) Hm Hp ltac:(lia) Ht).
  pose proof (Z.div_mod (bv_len v) 512 ltac:(lia)) as Hd. rewrite Hm, Z.add_0_r in Hd.
  assert (0 <= bv_len v / 512) by (apply Z.div_pos; lia).
  destruct (IH (pos + bv_len v / 512) (ok && (cs_error (Cs LKL_DISK_CS_SUCCESS 1) =? 0))
    (File (content f) (512 * pos + bv_len v) (<[bv_addr v:=got]> (mem f)))) as (f' & -> & E1 & E2 & E3);
    [|done|lia|cbn [content]; lia|lia|].
  { by apply buffers_ok_insert. }
  cbn [content mem] in *. exists f'. split.
  { f_equal. f_equal; [apply andb_true_r|]. rewrite Hd at 2. rewrite (Z.mul_comm 512), Z.div_add_l by lia. lia. }
  split; [done|]. split.
  - rewrite (seg_data_cons _ _ _ got) by (by rewrite E3, lookup_insert_eq). rewrite E2. unfold got.
    replace (Z.to_nat (512 * (pos + bv_len v / 512))) with (Z.to_nat (512 * pos) + Z.to_nat (bv_len v))%nat by lia.
    rewrite <- drop_drop. rewrite Z2Nat.inj_add by lia. by rewrite take_take_drop.
  - intros a Ha. apply not_elem_of_cons in Ha as [Hne Ha]. by rewrite E3, lookup_insert_ne.
Qed.

Definition all_segs (rq : request) : list bio_vec := rq_bio rq ≫= segs.
Definition ok_ends (rq : request) : list (Z * Z) := (fun b => (bi_id b, 0)) <$> rq_bio rq.

Lemma bytes_of_app (l k : list bio_vec) : bytes_of (l ++ k) = bytes_of l + bytes_of k.
Proof. induction l as [|v l IH]; [done|]. simpl. rewrite IH. lia. Qed.

Lemma write_bios (dev : Z) (bios : list bio) :
  forall pos f, (forall off, io_error off = false) -> buffers_ok (mem f) (bios ≫= segs) -> Forall (fun b => bi_uptodate b = true) bios ->
  0 <= pos -> 512 * pos + bytes_of (bios ≫= segs) < 2 ^ 62 ->
  exists f', serve_bios (lkl_disk_do_rw_posix io_error) dev true pos bios f = ((fun b => (bi_id b, 0)) <$> bios, f') /\
    content f' = written (content f) (512 * pos) (seg_data (mem f) (bios ≫= segs)) /\ mem f' = mem f.
Proof.
  induction bios as [|b bios IH]; intros pos f Hio Hb Hu Hp Hlim; [by exists f|].
  apply Forall_cons in Hu as [Hub Hu]. cbn [mbind list_bind] in *. apply Forall_app in Hb as [Hb1 Hb2].
  rewrite bytes_of_app in Hlim. destruct (length_seg_data _ _ Hb1) as (L1 & L2 & L3), (length_seg_data _ _ Hb2) as (_ & _ & K3).
  cbn [serve_bios]. destruct (write_segs dev pos (segs b) (bi_uptodate b) f Hio Hb1 Hp ltac:(lia)) as (f1 & -> & C1 & M1).
  assert (0 <= bytes_of (segs b) / 512) by (apply Z.div_pos; lia).
  destruct (IH (pos + bytes_of (segs b) / 512) f1) as (f2 & -> & C2 & M2); [done|by rewrite M1|done|lia|lia|].
  exists f2. rewrite Hub. split; [done|]. split; [|congruence].
  rewrite C2, C1, M1, seg_data_app, <- written_app by lia. f_equal. lia.
Qed.

Lemma read_bios (dev : Z) (bios : list bio) :
  forall pos f, (forall off, io_error off = false) -> buffers_ok (mem f) (bios ≫= segs) -> Forall (fun b => bi_uptodate b = true) bios ->
  NoDup (bv_addr <$> (bios ≫= segs)) -> 0 <= pos -> 512 * pos + bytes_of (bios ≫= segs) < 2 ^ 62 ->
  512 * pos + bytes_of (bios ≫= segs) <= Z.of_nat (length (content f)) ->
  exists f', serve_bios (lkl_disk_do_rw_posix io_error) dev false pos bios f = ((fun b => (bi_id b, 0)) <$> bios, f') /\
    content f' = content f /\
    seg_data (mem f') (bios ≫= segs) = take (Z.to_nat (bytes_of (bios ≫= segs))) (drop (Z.to_nat (512 * pos)) (content f)) /\
    (forall a, a ∉ bv_addr <$> (bios ≫= segs) -> mem f' !! a = mem f !! a).
Proof.
  induction bios as [|b bios IH]; intros pos f Hio Hb Hu Hnd Hp Hlim Hlen; [by exists f|].
  apply Forall_cons in Hu as [Hub Hu]. cbn [mbind list_bind] in *. apply Forall_app in Hb as [Hb1 Hb2].
  rewrite fmap_app in Hnd. apply NoDup_app in Hnd as (Hnd1 & Hdis & Hnd2).
  rewrite bytes_of_app in *. destruct (length_seg_data _ _ Hb1) as (L1 & L2 & L3), (length_seg_data _ _ Hb2) as (_ & _ & K3).
  cbn [serve_bios]. destruct (read_segs dev pos (segs b) (bi_uptodate b) f Hio Hb1 Hnd1 Hp ltac:(lia) ltac:(lia)) as (f1 & -> & C1 & D1 & M1).
  assert (0 <= bytes_of (segs b) / 512) by (apply Z.div_pos; lia).
  assert (forall v, v ∈ bios ≫= segs -> mem f1 !! bv_addr v = mem f !! bv_addr v) as Hkeep.
  { intros v Hv. apply M1. intros Hi. apply (Hdis (bv_addr v) Hi). apply list_elem_of_fmap. eauto. }
  destruct (IH (pos + bytes_of (segs b) / 512) f1) as (f2 & -> & C2 & D2 & M2); try done; try lia.
  { unfold buffers_ok in *. rewrite Forall_forall in Hb2 |- *. intros v Hv. rewrite Hkeep by done. by apply Hb2. }
  { rewrite C1. lia. }
  exists f2. rewrite Hub. split; [done|]. split; [congruence|]. split.
  - rewrite seg_data_app, D2, C1. assert (seg_data (mem f2) (segs b) = seg_data (mem f1) (segs b)) as ->.
    { apply seg_data_ext. intros v Hv. apply M2, Hdis, list_elem_of_fmap. eauto. }
    rewrite D1. replace (Z.to_nat (512 * (pos + bytes_of (segs b) / 512))) with (Z.to_nat (512 * pos) + Z.to_nat (bytes_of (segs b)))%nat by lia.
    rewrite <- drop_drop, Z2Nat.inj_add by lia. by rewrite take_take_drop.
  - intros a Ha. rewrite fmap_app, not_elem_of_app in Ha. rewrite M2, M1; tauto.
Qed.

(** C23: what is written to the disk is read back.  On a POSIX host whose file can be read and
    written, a write request followed by a read request of the same sectors succeed, end
    every bio with success, and leave in the buffers of the read request exactly the bytes
    that the buffers of the write request held, however the two requests are cut into bios
    and segments. *)
Theorem disk_write_read_roundtrip (fuel : nat) (wr rd : request) (f : file) (e : list (Z * Z)) :
  (forall off, io_error off = false) -> request_wf wr -> request_wf rd ->
  (nsegs (rq_bio wr) <= fuel)%nat -> (nsegs (rq_bio rd) <= fuel)%nat ->
  cmd_write wr = true -> cmd_write rd = false -> rq_sector wr = rq_sector rd -> bytes_of (all_segs wr) = bytes_of (all_segs rd) ->
  Forall (fun b => bi_uptodate b = true) (rq_bio wr ++ rq_bio rd) -> NoDup (bv_addr <$> all_segs rd) ->
  buffers_ok (mem f) (all_segs wr) -> buffers_ok (mem f) (all_segs rd) ->
  0 <= rq_sector wr -> 512 * rq_sector wr + bytes_of (all_segs wr) < 2 ^ 62 ->
  exists f', lkl_disk_request (lkl_disk_do_rw_posix io_error) fuel [wr; rd] (Disk_state f e) =
      Ret (Disk_state f' (e ++ ok_ends wr ++ ok_ends rd)) /\
    seg_data (mem f') (all_segs rd) = seg_data (mem f) (all_segs wr).
Proof.
  intros Hio Hw Hr Hfw Hfr Dw Dr Es Eb Hu Hnd Bw Br Hp Hlim. apply Forall_app in Hu as [Hu1 Hu2].
  assert (forall dev pos n addr write h, cs_sync (fst (lkl_disk_do_rw_posix io_error dev pos n addr write h)) <> 0) as Hsync.
  { intros. unfold lkl_disk_do_rw_posix. destruct (lseek _ _). destruct (_ <? 0); [done|]. destruct (transfer _ _ _ _ _). by case_match. }
  cbn [lkl_disk_request]. rewrite (rw_fs _ Hw), (rw_fs _ Hr). cbn [negb]. rewrite (rw_loop_spec _ Hsync) by done.
  unfold all_segs in *. rewrite Dw.
  destruct (write_bios (rq_dev wr) (rq_bio wr) (rq_sector wr) f Hio Bw Hu1 Hp Hlim) as (f1 & E1 & C1 & M1). cbn [disk_host]. rewrite E1.
  cbn [res_bind]. rewrite (rw_loop_spec _ Hsync) by done. rewrite Dr, <- Es. cbn [disk_host ended].
  destruct (length_seg_data _ _ Bw) as (L1 & L2 & L3).
  assert (seg_data (mem f) (rq_bio wr ≫= segs) <> []) as Hne.
  { destruct Hw as [_ [H1 H2] _]. destruct (rq_bio wr) as [|b bios]; [done|]. apply Forall_cons in H2 as [[H3 H4 _] _].
    cbn [mbind list_bind] in *. rewrite bytes_of_app in L1. pose proof (bytes_of_pos _ H4 H3). apply Forall_app in Bw as [_ Bw].
    destruct (length_seg_data _ _ Bw) as (_ & _ & K). intros E. rewrite E in L1. simpl in L1. lia. }
  assert (content f1 = overwrite (content f) (512 * rq_sector wr) (seg_data (mem f) (rq_bio wr ≫= segs))) as C1'.
  { rewrite C1. destruct (seg_data _ _); done. }
  destruct (read_bios (rq_dev rd) (rq_bio rd) (rq_sector wr) f1 Hio) as (f2 & E2 & C2 & D2 & _); try done; try lia; [by rewrite M1| |].
  { rewrite C1'. pose proof (length_overwrite (content f) (seg_data (mem f) (rq_bio wr ≫= segs)) (512 * rq_sector wr) ltac:(lia)). lia. }
  rewrite E2. cbn [res_bind]. exists f2. split; [by rewrite <- app_assoc|]. rewrite D2, C1', <- Eb, <- L1, Nat2Z.id.
  apply overwrite_get. lia.
Qed.
End roundtrip.

Module DiskDemo.
Definition never (off : Z) : bool := false.
Definition wr : request :=
  Request true true 5 1536 [Bio 10 1024 0 [Bio_vec 1 512; Bio_vec 2 512] true; Bio 11 512 0 [Bio_vec 3 512] true] 0.
Definition rd : request := Request true false 5 1536 [Bio 12 1536 0 [Bio_vec 4 1024; Bio_vec 5 512] true] 0.
Definition disk : file :=
  File (replicate 1000 9) 0
    (<[1 := replicate 512 1]> (<[2 := replicate 512 2]> (<[3 := replicate 512 3]>
      (<[4 := replicate 1024 0]> {[5 := replicate 512 0]})))).

Lemma wr_wf : request_wf wr.
Proof.
  split; [done| |done]. split; [done|]. repeat apply Forall_cons_2; [..|apply Forall_nil_2];
    (split; [done|repeat apply Forall_cons_2; [..|apply Forall_nil_2]; done|done]).
Qed.
Lemma rd_wf : request_wf rd.
Proof.
  split; [done| |done]. split; [done|]. repeat apply Forall_cons_2; [..|apply Forall_nil_2];
    (split; [done|repeat apply Forall_cons_2; [..|apply Forall_nil_2]; done|done]).
Qed.


Lemma disk_write_read_roundtrip_witness :
  exists f', lkl_disk_request (lkl_disk_do_rw_posix never) 3 [wr; rd] (Disk_state disk []) =
      Ret (Disk_state f' ([] ++ ok_ends wr ++ ok_ends rd)) /\
    seg_data (mem f') (all_segs rd) = seg_data (mem disk) (all_segs wr).
Proof.
  apply (disk_write_read_roundtrip never 3 wr rd disk []).
  - done.
  - apply wr_wf.
  - apply rd_wf.
  - vm_compute. lia.
  - vm_compute. lia.
  - done.
  - done.
  - done.
  - done.
  - repeat apply Forall_cons_2; [..|apply Forall_nil_2]; done.
  - apply NoDup_cons. split; [set_solver|]. apply NoDup_singleton.
  - repeat apply Forall_cons_2; [..|apply Forall_nil_2]; (split; [done|split; [done|eexists; split; [by vm_compute|done]]]).
  - repeat apply Forall_cons_2; [..|apply Forall_nil_2]; (split; [done|split; [done|eexists; split; [by vm_compute|done]]]).
  - done.
  - done.
Defined.
End DiskDemo.
