(* ===== verification/EnvFs.v ===== *)
(** * Mounting helpers of the environment: arch/lkl/envs/lib/fs.c

    [lkl_mount] tries every file system that needs a device, from the text that
    [get_filesystem_list] (fs/filesystems.c) writes and [get_fs_names] turns in place into a
    list of strings.  [lkl_mount_dev] and [lkl_umount_dev] make and remove a device node and
    a mount point around it.  Text is a list of character codes; the system calls are
    parameters. *)
From S2P Require Import Prelude Native EnvPosix Bootmem.

Definition TAB : Z := 9.
Definition LF : Z := 10.

Record file_system_type := File_system_type { fs_name : list Z; fs_requires_dev : bool }.

(** The line for one file system; the five codes are [nodev]. *)
Definition fs_line (t : file_system_type) : list Z :=
  (if fs_requires_dev t then [] else [110; 111; 100; 101; 118]) ++ TAB :: fs_name t ++ [LF].
(** The text that [get_filesystem_list] writes, from position [len] on. *)
Fixpoint filesystem_text (len : Z) (l : list file_system_type) : list Z :=
  match l with
  | [] => []
  | t :: l =>
      if len <? PAGE_SIZE - 80
      then fs_line t ++ filesystem_text (len + Z.of_nat (length (fs_line t))) l
      else []
  end.
(** [sprintf] ends the text with a NUL; a text that does not fit overruns the buffer. *)
Definition get_filesystem_list (l : list file_system_type) (page : list Z) : res (Z * list Z) :=
  let text := filesystem_text 0 l in
  if Z.of_nat (length page) <? Z.of_nat (length text) + 1 then Bug
  else Ret (Z.of_nat (length text), text ++ 0 :: drop (S (length text)) page).

(** [strchr(p, c)]; a string without an end is a fault. *)
Fixpoint strchr (fuel : nat) (page : list Z) (p c : Z) : res (option Z) :=
  match fuel with
  | O => OutOfFuel
  | S fuel =>
      let! x := deref (aget page p) in
      if x =? c then Ret (Some p) else if x =? 0 then Ret None else strchr fuel page (p + 1) c
  end.
(** while ( *s++ = *p++ ) up to and with the line feed. *)
Fixpoint copy_name (fuel : nat) (page : list Z) (s p : Z) : res (list Z * Z * Z) :=
  match fuel with
  | O => OutOfFuel
  | S fuel =>
      let! x := deref (aget page p) in
      let! _ := deref (aget page s) in
      let page := aset page s x in
      if negb (x =? LF) then copy_name fuel page (s + 1) (p + 1) else Ret (page, s + 1, p + 1)
  end.
(** The loop over the lines: [p] is the line feed before the line. *)
Fixpoint names_loop (fuel : nat) (page : list Z) (s p : Z) : res (list Z * Z) :=
  match fuel with
  | O => OutOfFuel
  | S fuel =>
      let p := p + 1 in
      let! next := strchr (S (length page)) page p LF in
      let! x := deref (aget page p) in
      let p := p + 1 in
      let! (page, s) :=
        if negb (x =? TAB) then Ret (page, s)
        else
          let! (r, _) := copy_name (S (length page)) page s p in
          let '(page, s) := r in
          let! _ := deref (aget page (s - 1)) in
          Ret (aset page (s - 1) 0, s) in
      match next with
      | None => Ret (page, s)
      | Some p => names_loop fuel page s p
      end
  end.
Definition get_fs_names (l : list file_system_type) (page : list Z) : res (list Z) :=
  let! (len, page) := get_filesystem_list l page in
  let! _ := deref (aget page len) in
  let page := aset page len 0 in
  let! (page, s) := names_loop (S (length page)) page 0 (-1) in
  let! _ := deref (aget page s) in
  Ret (aset page s 0).

(** The string at [p], up to its NUL. *)
Fixpoint string_at (fuel : nat) (page : list Z) (p : Z) : res (list Z) :=
  match fuel with
  | O => OutOfFuel
  | S fuel =>
      let! x := deref (aget page p) in
      if x =? 0 then Ret [] else let! rest := string_at fuel page (p + 1) in Ret (x :: rest)
  end.

Section mount.
Context {N : Type} {ops : lkl_native_operations N} {W : Type}.
(** The system calls the helpers make, on the state of the kernel. *)
Context (lkl_sys_mount : list Z -> list Z -> list Z -> Z -> Z -> W -> Z * W).
(** What the block of the host holds before it is written. *)
Context (junk : list Z).

(** [for (p = fs_names; *p; p += strlen(p)+1)]. *)
Fixpoint try_names (fuel : nat) (page : list Z) (p err : Z) (dev mnt : list Z) (flags data : Z) (w : W) : res (Z * W) :=
  match fuel with
  | O => OutOfFuel
  | S fuel =>
      let! x := deref (aget page p) in
      if x =? 0 then Ret (err, w)
      else
        let! name := string_at (S (length page)) page p in
        let '(err, w) := lkl_sys_mount dev mnt name flags data w in
        let err := s32 err in
        if err =? 0 then Ret (err, w)
        else try_names fuel page (p + Z.of_nat (length name) + 1) err dev mnt flags data w
  end.

(** The result of [mem_alloc] is not tested: NULL is a fault. *)
Definition lkl_mount (l : list file_system_type) (dev mnt : list Z) (flags data : Z) (nw : N * W) : res (Z * (N * W)) :=
  let '(n, w) := nw in
  let '(p, n) := mem_alloc PAGE_SIZE n in
  if p =? NULL then Bug
  else
    let! page := get_fs_names l junk in
    let! (err, w) := try_names (S (length page)) page 0 1 dev mnt flags data w in
    let! n := mem_free p n in
    Ret (err, (n, w)).
End mount.

(** ** Device nodes and mount points *)

(** [%016x]: the device number has 32 bits. *)
Definition hex_digit (x : Z) : Z := if x <? 10 then 48 + x else 87 + x.
Definition hex16 (v : Z) : list Z :=
  (fun i : nat => hex_digit (Z.land (Z.shiftr (u32 v) (4 * (15 - Z.of_nat i))) 15)) <$> seq 0 16.
Definition dev_str (devt : Z) : list Z := [47; 100; 101; 118; 47] ++ hex16 devt.
Definition mnt_str (devt : Z) : list Z := [47; 109; 110; 116; 47] ++ hex16 devt.
Definition slash_mnt : list Z := [47; 109; 110; 116].

Definition S_IFBLK : Z := 0x6000.
Definition S_IRWXO : Z := 7.

(** The system calls of the helpers. *)
Class fs_calls (W : Type) : Type := {
  sys_mknod : list Z -> Z -> Z -> W -> Z * W;
  sys_access : list Z -> Z -> W -> Z * W;
  sys_mkdir : list Z -> Z -> W -> Z * W;
  sys_unlink : list Z -> W -> Z * W;
  sys_rmdir : list Z -> W -> Z * W;
  sys_umount : list Z -> Z -> W -> Z * W }.

Section mount_dev.
Context {W : Type} {calls : fs_calls W}.
(** [lkl_sys_mount] with the given type, or [lkl_mount] when there is none. *)
Context (mount : list Z -> list Z -> W -> Z * W).

(** [mnt_str_len < sizeof(...)] compares as [unsigned long]; [err] is an [int]. *)
Definition lkl_mount_dev (devt mnt_str_len : Z) (w : W) : Z * W :=
  if u64 mnt_str_len <? 22 then (- ENOMEM, w)
  else
    let '(r, w) := sys_mknod (dev_str devt) (Z.lor S_IFBLK 0x180) devt w in
    let err := s32 r in
    if err <? 0 then (err, w)
    else
      let '(r, w) := sys_access slash_mnt S_IRWXO w in
      let err := s32 r in
      let '(err, w) :=
        if err =? - ENOENT then let '(r, w) := sys_mkdir slash_mnt 0x1c0 w in (s32 r, w) else (err, w) in
      if err <? 0 then (err, w)
      else
        let '(r, w) := sys_mkdir (mnt_str devt) 0x1c0 w in
        let err := s32 r in
        if err <? 0 then let '(_, w) := sys_unlink (dev_str devt) w in (err, w)
        else
          let '(r, w) := mount (dev_str devt) (mnt_str devt) w in
          let err := s32 r in
          if err <? 0 then
            let '(_, w) := sys_unlink (dev_str devt) w in
            let '(_, w) := sys_rmdir (mnt_str devt) w in
            (err, w)
          else (0, w).

Definition lkl_umount_dev (devt flags : Z) (w : W) : Z * W :=
  let '(r, w) := sys_umount (mnt_str devt) flags w in
  let err := s32 r in
  if err <? 0 then (err, w)
  else
    let '(_, w) := sys_unlink (dev_str devt) w in
    let '(_, w) := sys_rmdir (mnt_str devt) w in
    (0, w).
End mount_dev.

(** ** The text becomes the list of names *)

Lemma aget_mid {A} (l k : list A) (x : A) (i : Z) : i = Z.of_nat (length l) -> aget (l ++ x :: k) i = Some x.
Proof.
  intros ->. unfold aget. destruct (Z.ltb_spec (Z.of_nat (length l)) 0); [lia|]. rewrite Nat2Z.id.
  by apply list_lookup_middle.
Qed.
Lemma aset_mid {A} (l k : list A) (x y : A) (i : Z) : i = Z.of_nat (length l) -> aset (l ++ x :: k) i y = l ++ y :: k.
Proof. intros ->. unfold aset. rewrite Nat2Z.id. by rewrite insert_app_r_alt, Nat.sub_diag. Qed.

(** A name: no line feed and no NUL. *)
Definition plain (l : list Z) : Prop := Forall (fun x => x <> LF /\ x <> 0) l.

Lemma strchr_spec (line : list Z) : forall (fuel : nat) (pre rest : list Z) (p : Z),
  plain line -> p = Z.of_nat (length pre) -> (length line < fuel)%nat ->
  strchr fuel (pre ++ line ++ LF :: rest) p LF = Ret (Some (p + Z.of_nat (length line))).
Proof.
  induction line as [|x line IH]; intros fuel pre rest p Hpl Hp Hf; (destruct fuel as [|fuel]; [simpl in Hf; lia|]); cbn [strchr].
  - cbn [app]. rewrite aget_mid by done. cbn [deref res_bind]. change (LF =? LF) with true. by rewrite Z.add_0_r.
  - apply Forall_cons in Hpl as [[H1 H2] Hpl]. cbn [app]. rewrite aget_mid by done. cbn [deref res_bind].
    rewrite (proj2 (Z.eqb_neq _ _) H1), (proj2 (Z.eqb_neq _ _) H2).
    replace (pre ++ x :: line ++ LF :: rest) with ((pre ++ [x]) ++ line ++ LF :: rest) by by rewrite <- app_assoc.
    rewrite IH; [|done|rewrite length_app; simpl; lia|simpl in Hf; lia]. f_equal. f_equal. cbn [length]. lia.
Qed.

(** The copy reads ahead of where it writes: [mid] has what lies between. *)
Lemma copy_name_spec (name : list Z) : forall (fuel : nat) (out mid rest : list Z) (s p : Z),
  plain name -> mid <> [] -> s = Z.of_nat (length out) -> p = Z.of_nat (length (out ++ mid)) -> (length name < fuel)%nat ->
  exists mid', length mid' = length mid /\
    copy_name fuel (out ++ mid ++ name ++ LF :: rest) s p =
      Ret (out ++ name ++ LF :: mid' ++ rest, s + Z.of_nat (length name) + 1, p + Z.of_nat (length name) + 1).
Proof.
  induction name as [|x name IH]; intros fuel out mid rest s p Hpl Hm Hs Hp Hf; (destruct fuel as [|fuel]; [simpl in Hf; lia|]);
    (destruct mid as [|m0 mid]; [done|]); cbn [copy_name].
  - replace (out ++ (m0 :: mid) ++ [] ++ LF :: rest) with ((out ++ m0 :: mid) ++ LF :: rest) by by rewrite <- app_assoc.
    rewrite (aget_mid (out ++ m0 :: mid)) by done. cbn [deref res_bind]. rewrite <- app_assoc. cbn [app].
    rewrite (aget_mid out) by done. cbn [deref res_bind]. rewrite aset_mid by done. change (negb (LF =? LF)) with false. cbn iota.
    exists (mid ++ [LF]). rewrite length_app. split; [simpl; lia|]. rewrite <- app_assoc. cbn [app length Z.of_nat]. by rewrite !Z.add_0_r.
  - apply Forall_cons in Hpl as [[H1 H2] Hpl].
    replace (out ++ (m0 :: mid) ++ (x :: name) ++ LF :: rest) with ((out ++ m0 :: mid) ++ x :: name ++ LF :: rest) by by rewrite <- app_assoc.
    rewrite (aget_mid (out ++ m0 :: mid)) by done. cbn [deref res_bind]. rewrite <- app_assoc. cbn [app].
    rewrite (aget_mid out) by done. cbn [deref res_bind]. rewrite aset_mid by done. rewrite (proj2 (Z.eqb_neq _ _) H1). cbn [negb].
    destruct (IH fuel (out ++ [x]) (mid ++ [x]) rest (s + 1) (p + 1)) as (mid' & Hl & E); [done|by destruct mid| | |simpl in Hf; lia|].
    { rewrite length_app. simpl. lia. }
    { rewrite !length_app in *. simpl in *. lia. }
    exists mid'. rewrite length_app in Hl. simpl in Hl. split; [simpl; lia|].
    rewrite <- !app_assoc in E. cbn [app] in E. rewrite E. cbn [app length]. do 2 f_equal; [f_equal|]; lia.
Qed.

Definition fs_ok (t : file_system_type) : Prop := plain (fs_name t) /\ fs_name t <> [].
(** The file systems that need a device, and their names as the buffer has them. *)
Definition dev_names (l : list file_system_type) : list (list Z) :=
  fs_name <$> filter (fun t => fs_requires_dev t = true) l.
Definition packed (ns : list (list Z)) : list Z := ns ≫= fun n => n ++ [0].

Lemma names_step_dev (fuel : nat) (out mid name rest : list Z) : plain name ->
  exists mid', length mid' = S (length mid) /\
    names_loop (S fuel) ((out ++ mid) ++ (TAB :: name) ++ LF :: rest) (Z.of_nat (length out)) (Z.of_nat (length (out ++ mid)) - 1) =
    names_loop fuel (((out ++ name ++ [0]) ++ mid') ++ rest) (Z.of_nat (length (out ++ name ++ [0])))
      (Z.of_nat (length ((out ++ name ++ [0]) ++ mid')) - 1).
Proof.
  intros Hpl. cbn [names_loop]. rewrite Z.sub_add. rewrite strchr_spec; [|by constructor|done|rewrite !length_app; simpl; lia].
  cbn [res_bind app]. rewrite aget_mid by done. cbn [deref res_bind]. change (negb (TAB =? TAB)) with false. cbn iota.
  destruct (copy_name_spec name (S (length ((out ++ mid) ++ TAB :: name ++ LF :: rest))) out (mid ++ [TAB]) rest (Z.of_nat (length out))
    (Z.of_nat (length (out ++ mid)) + 1)) as (mid' & Hl & E);
    [done|by destruct mid|done|rewrite !length_app; simpl; lia|rewrite !length_app; simpl; rewrite length_app; lia|].
  replace (out ++ (mid ++ [TAB]) ++ name ++ LF :: rest) with ((out ++ mid) ++ TAB :: name ++ LF :: rest) in E by by rewrite <- !app_assoc.
  rewrite E. cbn [res_bind]. rewrite app_assoc.
  assert (Z.of_nat (length out) + Z.of_nat (length name) + 1 - 1 = Z.of_nat (length (out ++ name))) as Hpos by (rewrite length_app; lia).
  rewrite (aget_mid (out ++ name)) by done. cbn [deref res_bind]. rewrite aset_mid by done.
  rewrite length_app in Hl. simpl in Hl. exists mid'. split; [lia|].
  f_equal; [by rewrite <- !app_assoc|..]; rewrite !length_app; simpl; lia.
Qed.

Lemma names_step_nodev (fuel : nat) (out mid : list Z) (c : Z) (line rest : list Z) : plain (c :: line) -> c <> TAB ->
  names_loop (S fuel) ((out ++ mid) ++ (c :: line) ++ LF :: rest) (Z.of_nat (length out)) (Z.of_nat (length (out ++ mid)) - 1) =
  names_loop fuel ((out ++ mid ++ (c :: line) ++ [LF]) ++ rest) (Z.of_nat (length out)) (Z.of_nat (length (out ++ mid ++ (c :: line) ++ [LF])) - 1).
Proof.
  intros Hpl Hc. cbn [names_loop]. rewrite Z.sub_add. rewrite strchr_spec; [|done|done|rewrite !length_app; simpl; lia].
  cbn [res_bind app]. rewrite aget_mid by done. cbn [deref res_bind]. rewrite (proj2 (Z.eqb_neq _ _) Hc). cbn [negb res_bind].
  f_equal; [by rewrite <- !app_assoc; cbn [app]; rewrite <- app_assoc|]. rewrite !length_app. simpl. rewrite length_app. simpl. lia.
Qed.

Lemma names_loop_spec (l : list file_system_type) : forall (fuel : nat) (out mid tail : list Z),
  Forall fs_ok l -> (length l < fuel)%nat ->
  exists tail', tail' <> [] /\
    names_loop fuel ((out ++ mid) ++ (l ≫= fs_line) ++ 0 :: tail) (Z.of_nat (length out)) (Z.of_nat (length (out ++ mid)) - 1) =
      Ret (out ++ packed (dev_names l) ++ tail', Z.of_nat (length (out ++ packed (dev_names l)))).
Proof.
  induction l as [|t l IH]; intros fuel out mid tail Hok Hf; (destruct fuel as [|fuel]; [simpl in Hf; lia|]).
  - cbn [names_loop mbind list_bind app]. rewrite Z.sub_add. cbn [strchr]. rewrite aget_mid by done. cbn [deref res_bind].
    change (0 =? LF) with false. change (0 =? 0) with true. cbn iota. cbn [res_bind]. change (negb (0 =? TAB)) with true. cbn iota. cbn [res_bind].
    exists (mid ++ 0 :: tail). split; [by destruct mid|]. cbn. by rewrite <- app_assoc, app_nil_r.
  - apply Forall_cons in Hok as [[Hpl Hne] Hok]. cbn [mbind list_bind]. unfold dev_names. rewrite filter_cons.
    destruct t as [name [|]]; cbn [fs_name fs_requires_dev] in *.
    + rewrite decide_True by done. destruct (names_step_dev fuel out mid name ((l ≫= fs_line) ++ 0 :: tail) Hpl) as (mid' & Hl & E).
      assert (fs_line (File_system_type name true) = (TAB :: name) ++ [LF]) as -> by done.
      replace ((out ++ mid) ++ (((TAB :: name) ++ [LF]) ++ (l ≫= fs_line)) ++ 0 :: tail)
        with ((out ++ mid) ++ (TAB :: name) ++ LF :: (l ≫= fs_line) ++ 0 :: tail) by (by rewrite <- !app_assoc).
      rewrite E. destruct (IH fuel (out ++ name ++ [0]) mid' tail Hok ltac:(simpl in Hf; lia)) as (tail' & Ht & E2).
      exists tail'. split; [done|]. rewrite E2. unfold packed, dev_names. cbn [fmap list_fmap mbind list_bind fs_name].
      by rewrite <- !app_assoc.
    + rewrite decide_False by done.
      assert (plain (110 :: [111; 100; 101; 118] ++ TAB :: name)) as Hpl'.
      { do 6 (constructor; [done|]). done. }
      assert (fs_line (File_system_type name false) = (110 :: [111; 100; 101; 118] ++ TAB :: name) ++ [LF]) as -> by (cbn; done).
      pose proof (names_step_nodev fuel out mid 110 ([111; 100; 101; 118] ++ TAB :: name) ((l ≫= fs_line) ++ 0 :: tail) Hpl' ltac:(done)) as E.
      replace ((out ++ mid) ++ (((110 :: [111; 100; 101; 118] ++ TAB :: name) ++ [LF]) ++ (l ≫= fs_line)) ++ 0 :: tail)
        with ((out ++ mid) ++ (110 :: [111; 100; 101; 118] ++ TAB :: name) ++ LF :: (l ≫= fs_line) ++ 0 :: tail) by (by rewrite <- !app_assoc).
      rewrite E. apply IH; [done|simpl in Hf; lia].
Qed.

(** The file systems that fit the page [get_filesystem_list] fills. *)
Fixpoint listed (len : Z) (l : list file_system_type) : list file_system_type :=
  match l with
  | [] => []
  | t :: l => if len <? PAGE_SIZE - 80 then t :: listed (len + Z.of_nat (length (fs_line t))) l else []
  end.
Lemma filesystem_text_listed (l : list file_system_type) : forall len, filesystem_text len l = listed len l ≫= fs_line.
Proof. induction l as [|t l IH]; intros len; cbn [filesystem_text listed]; [done|]. destruct (_ <? _); [cbn; by rewrite IH|done]. Qed.
Lemma listed_forall (P : file_system_type -> Prop) (l : list file_system_type) : forall len, Forall P l -> Forall P (listed len l).
Proof. induction l as [|t l IH]; intros len H; cbn [listed]; [done|]. apply Forall_cons in H as [? ?]. destruct (_ <? _); eauto. Qed.

(** A name of at most 73 characters cannot overrun the page, whatever the number of file systems. *)
Definition short (t : file_system_type) : Prop := (length (fs_name t) <= 73)%nat.
Lemma fs_line_length (t : file_system_type) : short t -> (2 <= length (fs_line t) <= 80)%nat.
Proof. unfold short, fs_line. intros H. destruct (fs_requires_dev t); rewrite !length_app; simpl; rewrite length_app; simpl; lia. Qed.
Lemma filesystem_text_fits (l : list file_system_type) : forall len,
  Forall short l -> 0 <= len < PAGE_SIZE -> len + Z.of_nat (length (filesystem_text len l)) < PAGE_SIZE.
Proof.
  induction l as [|t l IH]; intros len Hs Hlen; cbn [filesystem_text]; [simpl; lia|].
  apply Forall_cons in Hs as [Ht Hs]. pose proof (fs_line_length t Ht). unfold PAGE_SIZE in *.
  destruct (Z.ltb_spec len (4096 - 80)); [|simpl; lia]. rewrite length_app.
  specialize (IH (len + Z.of_nat (length (fs_line t))) Hs ltac:(lia)). lia.
Qed.
Lemma names_fit (l : list file_system_type) : (length l <= length (l ≫= fs_line))%nat.
Proof.
  induction l as [|t l IH]; [done|]. cbn [mbind list_bind]. rewrite length_app. change (length (t :: l)) with (S (length l)).
  unfold fs_line at 1. rewrite length_app. simpl. lia.
Qed.

Lemma get_fs_names_spec (l : list file_system_type) (junk : list Z) :
  Forall fs_ok l -> Forall short l -> Z.of_nat (length junk) = PAGE_SIZE ->
  exists tail, get_fs_names l junk = Ret (packed (dev_names (listed 0 l)) ++ 0 :: tail).
Proof.
  intros Hok Hsh Hj. pose proof (filesystem_text_fits l 0 Hsh ltac:(unfold PAGE_SIZE; lia)) as Hfit. unfold get_fs_names, get_filesystem_list.
  destruct (Z.ltb_spec (Z.of_nat (length junk)) (Z.of_nat (length (filesystem_text 0 l)) + 1)); [lia|]. cbn [res_bind].
  rewrite aget_mid by done. cbn [deref res_bind]. rewrite aset_mid by done.
  rewrite filesystem_text_listed. set (rest := drop _ junk).
  destruct (names_loop_spec (listed 0 l) (S (length ((listed 0 l ≫= fs_line) ++ 0 :: rest))) [] [] rest) as (tail' & Ht & E);
    [by apply listed_forall|rewrite length_app; pose proof (names_fit (listed 0 l)); simpl; lia|].
  change (Z.of_nat (length (@nil Z ++ []))%list - 1) with (-1) in E. cbn [app length] in E. change (Z.of_nat 0) with 0 in E. rewrite E. cbn [res_bind]. destruct tail' as [|x tail']; [done|].
  rewrite aget_mid by done. cbn [deref res_bind]. rewrite aset_mid by done. by exists tail'.
Qed.

Lemma string_at_spec (name : list Z) : forall (fuel : nat) (pre rest : list Z) (p : Z),
  plain name -> p = Z.of_nat (length pre) -> (length name < fuel)%nat ->
  string_at fuel (pre ++ name ++ 0 :: rest) p = Ret name.
Proof.
  induction name as [|x name IH]; intros fuel pre rest p Hpl Hp Hf; (destruct fuel as [|fuel]; [simpl in Hf; lia|]); cbn [string_at app].
  - by rewrite aget_mid.
  - apply Forall_cons in Hpl as [[H1 H2] Hpl]. rewrite aget_mid by done. cbn [deref res_bind]. rewrite (proj2 (Z.eqb_neq _ _) H2).
    replace (pre ++ x :: name ++ 0 :: rest) with ((pre ++ [x]) ++ name ++ 0 :: rest) by by rewrite <- app_assoc.
    rewrite IH; [done|done|rewrite length_app; simpl; lia|simpl in Hf; lia].
Qed.

Section mount_facts.
Context {N : Type} {ops : lkl_native_operations N} {laws : native_laws N} {W : Type}.
Context (lkl_sys_mount : list Z -> list Z -> list Z -> Z -> Z -> W -> Z * W).
#[local] Set Default Proof Using "Type laws".

(** What [lkl_mount] promises: each name in turn until a mount succeeds; the last error otherwise. *)
Fixpoint mount_first (names : list (list Z)) (err : Z) (dev mnt : list Z) (flags data : Z) (w : W) : Z * W :=
  match names with
  | [] => (err, w)
  | name :: names =>
      let '(r, w) := lkl_sys_mount dev mnt name flags data w in
      if s32 r =? 0 then (0, w) else mount_first names (s32 r) dev mnt flags data w
  end.

Lemma try_names_spec (names : list (list Z)) (dev mnt : list Z) (flags data : Z) : forall (fuel : nat) (pre tail : list Z) (p err : Z) (w : W),
  Forall (fun n => plain n /\ n <> []) names -> p = Z.of_nat (length pre) -> (length names < fuel)%nat ->
  try_names lkl_sys_mount fuel (pre ++ packed names ++ 0 :: tail) p err dev mnt flags data w =
    Ret (mount_first names err dev mnt flags data w).
Proof.
  induction names as [|name names IH]; intros fuel pre tail p err w Hok Hp Hf; (destruct fuel as [|fuel]; [simpl in Hf; lia|]); cbn [try_names mount_first].
  - cbn [packed mbind list_bind app]. by rewrite aget_mid.
  - apply Forall_cons in Hok as [[Hpl Hne] Hok]. destruct name as [|x name]; [done|].
    assert (packed ((x :: name) :: names) ++ 0 :: tail = (x :: name) ++ 0 :: packed names ++ 0 :: tail) as ->.
    { unfold packed. cbn [mbind list_bind]. by rewrite <- !app_assoc. }
    assert (x <> 0) as Hx by (apply Forall_cons in Hpl; naive_solver).
    assert (aget (pre ++ (x :: name) ++ 0 :: packed names ++ 0 :: tail) p = Some x) as -> by (by apply aget_mid).
    cbn [deref res_bind]. rewrite (proj2 (Z.eqb_neq _ _) Hx).
    rewrite string_at_spec; [|done|done|rewrite !length_app; simpl; lia]. cbn [res_bind].
    destruct (lkl_sys_mount dev mnt (x :: name) flags data w) as [r w']. destruct (s32 r =? 0) eqn:E; [by apply Z.eqb_eq in E as ->|].
    replace (pre ++ (x :: name) ++ 0 :: packed names ++ 0 :: tail) with ((pre ++ (x :: name) ++ [0]) ++ packed names ++ 0 :: tail)
      by by rewrite <- !app_assoc.
    apply IH; [done| |simpl in Hf; lia]. rewrite !length_app. simpl. lia.
Qed.

Lemma dev_names_ok (l : list file_system_type) : Forall fs_ok l -> Forall (fun n => plain n /\ n <> []) (dev_names l).
Proof. unfold dev_names. intros H. apply Forall_fmap, Forall_forall. intros t [_ Ht]%list_elem_of_filter. by eapply Forall_forall in H. Qed.
Lemma packed_length (names : list (list Z)) : (length names <= length (packed names))%nat.
Proof. induction names as [|n names IH]; [done|]. unfold packed in *. cbn [mbind list_bind length]. rewrite !length_app. simpl. lia. Qed.

(** C27: [lkl_mount] tries the file systems that need a device, in the order in which the
    kernel lists them and each under its own name, until one mounts: it returns 0 then, the
    error of the last attempt otherwise, and 1 when there is none to try.  The list the
    kernel writes never overruns the page when no name has more than 73 characters, however
    many file systems are registered; the parsing in place reads and writes inside it, and the
    page is given back to the host. *)
Theorem lkl_mount_first_success (junk : list Z) (l : list file_system_type) (dev mnt : list Z) (flags data p : Z) (n n1 : N) (w : W) :
  Forall fs_ok l -> Forall short l -> Z.of_nat (length junk) = PAGE_SIZE ->
  mem_alloc PAGE_SIZE n = (p, n1) -> p <> NULL ->
  exists n2, lkl_mount lkl_sys_mount junk l dev mnt flags data (n, w) =
      Ret ((mount_first (dev_names (listed 0 l)) 1 dev mnt flags data w).1, (n2, (mount_first (dev_names (listed 0 l)) 1 dev mnt flags data w).2)) /\
    blocks n2 = blocks n /\ sems n2 = sems n.
Proof.
  intros Hok Hsh Hj Ea Hp. destruct (mem_alloc_ok _ _ _ _ Ea Hp) as (Hfresh & Hb & Hs).
  destruct (mem_free_ok p n1 PAGE_SIZE ltac:(by rewrite Hb, lookup_insert_eq)) as (n2 & Ef & Hb2 & Hs2). exists n2.
  split; [|split; [by rewrite Hb2, Hb, delete_insert_id|congruence]].
  unfold lkl_mount. rewrite Ea, (proj2 (Z.eqb_neq _ _) Hp). destruct (get_fs_names_spec l junk Hok Hsh Hj) as (tail & ->). cbn [res_bind].
  pose proof (try_names_spec (dev_names (listed 0 l)) dev mnt flags data (S (length (packed (dev_names (listed 0 l)) ++ 0 :: tail))) [] tail 0 1 w
    ltac:(by apply dev_names_ok, listed_forall) eq_refl
    ltac:(rewrite length_app; pose proof (packed_length (dev_names (listed 0 l))); simpl; lia)) as E.
  cbn [app] in E. rewrite E.
  destruct (mount_first _ _ _ _ _ _ _) as [e w']. cbn [res_bind]. by rewrite Ef.
Qed.
End mount_facts.

(** ** Device nodes and mount points *)

(** What the helpers rely on: a path is made or nothing changes; a node that exists can be
    unlinked and an empty directory removed, unless it is a mount point. *)
Class fs_laws (W : Type) {calls : fs_calls W} : Type := {
  paths : W -> gset (list Z);
  mounted : W -> gset (list Z);
  mknod_law : forall p m d w, let '(r, w') := sys_mknod p m d w in
    mounted w' = mounted w /\ if s32 r <? 0 then paths w' = paths w else p ∉ paths w /\ paths w' = {[p]} ∪ paths w;
  access_law : forall p m w, let '(r, w') := sys_access p m w in
    mounted w' = mounted w /\ paths w' = paths w /\ (0 <= s32 r -> p ∈ paths w);
  mkdir_law : forall p m w, let '(r, w') := sys_mkdir p m w in
    mounted w' = mounted w /\ if s32 r <? 0 then paths w' = paths w else p ∉ paths w /\ paths w' = {[p]} ∪ paths w;
  unlink_law : forall p w, p ∈ paths w -> p ∉ mounted w -> let '(_, w') := sys_unlink p w in mounted w' = mounted w /\ paths w' = paths w ∖ {[p]};
  rmdir_law : forall p w, p ∈ paths w -> p ∉ mounted w ->
    let '(_, w') := sys_rmdir p w in mounted w' = mounted w /\ paths w' = paths w ∖ {[p]};
  umount_law : forall p f w, let '(r, w') := sys_umount p f w in
    paths w' = paths w /\ if s32 r <? 0 then mounted w' = mounted w else p ∈ mounted w /\ mounted w' = mounted w ∖ {[p]};
  mounted_paths : forall w, mounted w ⊆ paths w }.

Lemma dev_mnt_differ (devt devt' : Z) : dev_str devt <> mnt_str devt' /\ dev_str devt <> slash_mnt /\ mnt_str devt <> slash_mnt.
Proof. done. Qed.

Section mount_dev_facts.
Context {W : Type} {calls : fs_calls W} {flaws : fs_laws W}.
Context (mount : list Z -> list Z -> W -> Z * W).
#[local] Set Default Proof Using "Type".

(** A mount leaves the paths alone and mounts when it returns 0. *)
Definition mount_law : Prop := forall d m w, let '(r, w') := mount d m w in
  paths w' = paths w /\ mounted w' = if s32 r =? 0 then {[m]} ∪ mounted w else mounted w.

(** The paths a mounted device adds; [mk] says whether /mnt was made as well. *)
Definition dev_paths (devt : Z) (mk : bool) : gset (list Z) :=
  {[dev_str devt; mnt_str devt]} ∪ if mk then {[slash_mnt]} else ∅.
Definition mnt_made (mk : bool) : gset (list Z) := if mk then {[slash_mnt]} else ∅.

(** The state when the mount point is about to be made. *)
Lemma slash_mnt_step (w1 : W) :
  let '(r, w2) := sys_access slash_mnt S_IRWXO w1 in
  let '(err, w2) := if s32 r =? - ENOENT then let '(r, w) := sys_mkdir slash_mnt 0x1c0 w2 in (s32 r, w) else (s32 r, w2) in
  mounted w2 = mounted w1 /\
  if err <? 0 then paths w2 = paths w1
  else exists mk, paths w2 = mnt_made mk ∪ paths w1 /\ slash_mnt ∈ paths w2 /\ (mk = true -> slash_mnt ∉ paths w1).
Proof.
  clear mount. pose proof (access_law slash_mnt S_IRWXO w1) as Ha. destruct (sys_access slash_mnt S_IRWXO w1) as [r w2]. destruct Ha as (Hm & Hp & Hin).
  destruct (Z.eqb_spec (s32 r) (- ENOENT)).
  - pose proof (mkdir_law slash_mnt 0x1c0 w2) as Hd. destruct (sys_mkdir slash_mnt 0x1c0 w2) as [r2 w3]. destruct Hd as [Hm2 Hd].
    split; [congruence|]. destruct (Z.ltb_spec (s32 r2) 0); [congruence|]. destruct Hd as [Hni Hd]. rewrite Hp in *.
    exists true. split_and!; [done|rewrite Hd; set_solver|done].
  - split; [done|]. destruct (Z.ltb_spec (s32 r) 0); [done|]. exists false. rewrite Hp. split_and!; [set_solver|by apply Hin|done].
Qed.

(** The whole of [lkl_mount_dev]: success, undone failure, or a failure about /mnt, which leaves the node. *)
Definition mount_dev_outcome (devt err : Z) (w w' : W) : Prop :=
  dev_str devt ∉ paths w /\
  ((err = 0 /\ exists mk, paths w' = dev_paths devt mk ∪ paths w /\ mnt_str devt ∉ paths w /\
      (mk = true -> slash_mnt ∉ paths w) /\ (mounted w' = {[mnt_str devt]} ∪ mounted w \/ mounted w' = mounted w)) \/
   (err < 0 /\ mounted w' = mounted w /\
     ((exists mk, paths w' = mnt_made mk ∪ paths w) \/ paths w' = {[dev_str devt]} ∪ paths w))).

Lemma mount_step (devt : Z) (mk : bool) (w w2 : W) : mount_law ->
  mounted w2 = mounted w -> dev_str devt ∉ paths w -> paths w2 = mnt_made mk ∪ ({[dev_str devt]} ∪ paths w) ->
  (mk = true -> slash_mnt ∉ paths w) ->
  let '(r, w3) := sys_mkdir (mnt_str devt) 0x1c0 w2 in
  let '(err, w') :=
    if s32 r <? 0 then let '(_, w) := sys_unlink (dev_str devt) w3 in (s32 r, w)
    else
      let '(r, w) := mount (dev_str devt) (mnt_str devt) w3 in
      if s32 r <? 0 then
        let '(_, w) := sys_unlink (dev_str devt) w in
        let '(_, w) := sys_rmdir (mnt_str devt) w in (s32 r, w)
      else (0, w) in
  mount_dev_outcome devt err w w'.
Proof.
  intros Hlaw Hm Hdev Hp Hmk. destruct (dev_mnt_differ devt devt) as (D1 & D2 & D3).
  pose proof (mkdir_law (mnt_str devt) 0x1c0 w2) as Hd. destruct (sys_mkdir (mnt_str devt) 0x1c0 w2) as [r w3]. destruct Hd as [Hm3 Hd].
  pose proof (mounted_paths w) as Hsub. unfold mnt_made, dev_paths in *.
  destruct (Z.ltb_spec (s32 r) 0).
  - pose proof (unlink_law (dev_str devt) w3 ltac:(rewrite Hd, Hp; set_solver) ltac:(rewrite Hm3, Hm; set_solver)) as Hu. destruct (sys_unlink (dev_str devt) w3) as [r4 w4].
    destruct Hu as [Hm4 Hu]. split; [done|]. right. split_and!; [done|congruence|]. left. exists mk. unfold mnt_made.
    rewrite Hu, Hd, Hp. clear -Hdev D2. destruct mk; set_solver.
  - destruct Hd as [Hni Hd]. pose proof (Hlaw (dev_str devt) (mnt_str devt) w3) as Hmt.
    destruct (mount (dev_str devt) (mnt_str devt) w3) as [r4 w4]. destruct Hmt as [Hp4 Hm4].
    assert (mnt_str devt ∉ paths w) as Hnm by (rewrite Hp in Hni; clear -Hni; set_solver).
    destruct (Z.ltb_spec (s32 r4) 0).
    + rewrite (proj2 (Z.eqb_neq _ _)) in Hm4 by lia.
      pose proof (unlink_law (dev_str devt) w4 ltac:(rewrite Hp4, Hd, Hp; set_solver) ltac:(rewrite Hm4, Hm3, Hm; set_solver)) as Hu. destruct (sys_unlink (dev_str devt) w4) as [r5 w5].
      destruct Hu as [Hm5 Hu].
      pose proof (rmdir_law (mnt_str devt) w5 ltac:(rewrite Hu, Hp4, Hd; set_solver)
        ltac:(rewrite Hm5, Hm4, Hm3, Hm; set_solver)) as Hr.
      destruct (sys_rmdir (mnt_str devt) w5) as [r6 w6]. destruct Hr as [Hm6 Hr]. split; [done|]. right. split_and!; [done|congruence|].
      left. exists mk. unfold mnt_made. rewrite Hr, Hu, Hp4, Hd, Hp. clear -Hdev Hnm D1 D2 D3. destruct mk; set_solver.
    + split; [done|]. left. split; [done|]. exists mk. unfold dev_paths. split_and!; [|done|done|].
      * rewrite Hp4, Hd, Hp. clear. destruct mk; set_solver.
      * rewrite Hm4, Hm3, Hm. destruct (_ =? 0); auto.
Qed.

Lemma lkl_mount_dev_spec (devt mnt_str_len : Z) (w : W) : mount_law -> 22 <= u64 mnt_str_len ->
  let '(err, w') := lkl_mount_dev mount devt mnt_str_len w in
  (err < 0 /\ paths w' = paths w /\ mounted w' = mounted w) \/ mount_dev_outcome devt err w w'.
Proof.
  intros Hlaw Hlen. unfold lkl_mount_dev. rewrite (proj2 (Z.ltb_ge _ _) Hlen).
  pose proof (mknod_law (dev_str devt) (Z.lor S_IFBLK 0x180) devt w) as Hk.
  destruct (sys_mknod (dev_str devt) (Z.lor S_IFBLK 0x180) devt w) as [r w1]. destruct Hk as [Hm1 Hk].
  destruct (Z.ltb_spec (s32 r) 0); [by left|]. destruct Hk as [Hdev Hp1].
  pose proof (slash_mnt_step w1) as Hs. destruct (sys_access slash_mnt S_IRWXO w1) as [r2 w2].
  destruct (if s32 r2 =? - ENOENT then _ else _) as [err w2']. destruct Hs as [Hm2 Hs].
  destruct (Z.ltb_spec err 0).
  - right. split; [done|]. right. split_and!; [done|congruence|]. right. congruence.
  - destruct Hs as (mk & Hp2 & Hin & Hmk). pose proof (mount_step devt mk w w2' Hlaw ltac:(congruence) Hdev ltac:(congruence)
      ltac:(intros Ht Hin2; apply (Hmk Ht); rewrite Hp1; set_solver)) as Hst.
    destruct (sys_mkdir (mnt_str devt) 0x1c0 w2') as [r3 w3]. destruct (s32 r3 <? 0).
    + destruct (sys_unlink (dev_str devt) w3) as [r4 w4]. by right.
    + destruct (mount (dev_str devt) (mnt_str devt) w3) as [r4 w4]. destruct (s32 r4 <? 0); [|by right].
      destruct (sys_unlink (dev_str devt) w4) as [r5 w5]. destruct (sys_rmdir (mnt_str devt) w5) as [r6 w6]. by right.
Qed.

(** [lkl_mount_dev] and [lkl_umount_dev] clean up after themselves.  When
    [lkl_mount_dev] fails nothing is mounted, and the paths are those from before, but for
    the directory /mnt when it had to be made, and but for the device node when /mnt was the
    cause of the failure: that error path does not unlink it.  When it succeeds, a successful
    [lkl_umount_dev] takes back the mount, the node and the mount point. *)
Theorem mount_umount_dev_clean (devt mnt_str_len err : Z) (w w1 : W) :
  mount_law -> 22 <= u64 mnt_str_len -> lkl_mount_dev mount devt mnt_str_len w = (err, w1) ->
  (err < 0 /\ mounted w1 = mounted w /\ ((exists mk, paths w1 = mnt_made mk ∪ paths w) \/ paths w1 = {[dev_str devt]} ∪ paths w)) \/
  (err = 0 /\ {[dev_str devt; mnt_str devt]} ⊆ paths w1 /\
    forall flags w2, lkl_umount_dev devt flags w1 = (0, w2) -> mounted w2 = mounted w /\ exists mk, paths w2 = mnt_made mk ∪ paths w).
Proof.
  intros Hlaw Hlen E. pose proof (lkl_mount_dev_spec devt mnt_str_len w Hlaw Hlen) as Hs. rewrite E in Hs.
  destruct Hs as [(He & Hp & Hm)|[Hdev [(-> & mk & Hp & Hnm & Hmk & Hmt)|Hf]]];
    [left; split_and!; [done|done|left; exists false; rewrite Hp; set_solver]| |by left].
  right. unfold dev_paths in Hp. destruct (dev_mnt_differ devt devt) as (D1 & D2 & D3). pose proof (mounted_paths w) as Hsub.
  split_and!; [done|rewrite Hp; set_solver|]. intros flags w2 Eu. unfold lkl_umount_dev in Eu.
  pose proof (umount_law (mnt_str devt) flags w1) as Hu. destruct (sys_umount (mnt_str devt) flags w1) as [r w3]. destruct Hu as [Hp3 Hu].
  destruct (Z.ltb_spec (s32 r) 0); [simplify_eq; lia|]. destruct Hu as [Hin Hm3].
  pose proof (unlink_law (dev_str devt) w3 ltac:(rewrite Hp3, Hp; set_solver) ltac:(rewrite Hm3; destruct Hmt as [-> | ->]; set_solver)) as Hk. destruct (sys_unlink (dev_str devt) w3) as [r4 w4].
  destruct Hk as [Hm4 Hk].
  pose proof (rmdir_law (mnt_str devt) w4 ltac:(rewrite Hk, Hp3, Hp; set_solver) ltac:(rewrite Hm4, Hm3; set_solver)) as Hr.
  destruct (sys_rmdir (mnt_str devt) w4) as [r5 w5]. destruct Hr as [Hm5 Hr]. simplify_eq. split.
  - rewrite Hm5, Hm4, Hm3. destruct Hmt as [-> | Hmt]; [clear -Hnm Hsub; set_solver|]. rewrite Hmt in Hin. clear -Hin Hnm Hsub. set_solver.
  - exists mk. unfold mnt_made. rewrite Hr, Hk, Hp3, Hp. clear -Hdev Hnm D1 D2 D3. destruct mk; set_solver.
Qed.
End mount_dev_facts.

(** ** A concrete kernel: paths and mount points as sets *)

Module FsDemo.
Record world := World { w_paths : gset (list Z); w_mounted : gset (list Z); w_denied : bool }.
Definition demo_mounted (w : world) : gset (list Z) := w_mounted w ∩ w_paths w.
Definition demo_make (p : list Z) (w : world) : Z * world :=
  if decide (p ∈ w_paths w) then (- 17, w) else (0, World ({[p]} ∪ w_paths w) (demo_mounted w) (w_denied w)).
Definition demo_remove (p : list Z) (w : world) : Z * world :=
  if decide (p ∈ demo_mounted w) then (- 16, w) else (0, World (w_paths w ∖ {[p]}) (demo_mounted w) (w_denied w)).
Definition demo_umount (p : list Z) (w : world) : Z * world :=
  if decide (p ∈ demo_mounted w) then (0, World (w_paths w) (demo_mounted w ∖ {[p]}) (w_denied w)) else (- 22, w).
#[export] Instance demo_calls : fs_calls world := {
  sys_mknod p _ _ w := demo_make p w;
  sys_access p _ w := (if w_denied w then - 13 else if decide (p ∈ w_paths w) then 0 else - ENOENT, w);
  sys_mkdir p _ w := demo_make p w;
  sys_unlink p w := demo_remove p w;
  sys_rmdir p w := demo_remove p w;
  sys_umount p _ w := demo_umount p w }.
(** Mounting works for the given types. *)
Definition demo_sys_mount (types : list (list Z)) (dev mnt name : list Z) (_ _ : Z) (w : world) : Z * world :=
  if decide (name ∈ types /\ mnt ∈ w_paths w) then (0, World (w_paths w) ({[mnt]} ∪ demo_mounted w) (w_denied w)) else (- 19, w).

Lemma demo_make_law (p : list Z) (w : world) : let '(r, w') := demo_make p w in
  demo_mounted w' = demo_mounted w /\ if s32 r <? 0 then w_paths w' = w_paths w else p ∉ w_paths w /\ w_paths w' = {[p]} ∪ w_paths w.
Proof. unfold demo_make. case_decide; [done|]. change (s32 0 <? 0) with false. unfold demo_mounted. simpl. set_solver. Qed.
Lemma demo_remove_law (p : list Z) (w : world) : p ∈ w_paths w -> p ∉ demo_mounted w ->
  let '(_, w') := demo_remove p w in demo_mounted w' = demo_mounted w /\ w_paths w' = w_paths w ∖ {[p]}.
Proof. intros H1 H2. unfold demo_remove. case_decide; [done|]. unfold demo_mounted in *. simpl. set_solver. Qed.
#[export] Instance demo_fs_laws : fs_laws world.
Proof.
  refine {| paths := w_paths; mounted := demo_mounted |}.
  - intros p m d w. apply demo_make_law.
  - intros p m w. cbn. split_and!; [done|done|]. destruct (w_denied w); [done|]. by case_decide.
  - intros p m w. apply demo_make_law.
  - apply demo_remove_law.
  - apply demo_remove_law.
  - intros p f w. cbn. unfold demo_umount. case_decide; [|done]. change (s32 0 <? 0) with false. unfold demo_mounted in *. simpl. set_solver.
  - intros w. unfold demo_mounted. set_solver.
Defined.
Lemma demo_mount_law (types : list (list Z)) (name : list Z) (flags data : Z) :
  mount_law (fun d m w => demo_sys_mount types d m name flags data w).
Proof.
  intros d m w. unfold demo_sys_mount. case_decide as H; [|done]. change (s32 0 =? 0) with true. unfold demo_mounted. simpl. set_solver.
Qed.

Definition ext2 : list Z := [101; 120; 116; 50].
Definition vfat : list Z := [118; 102; 97; 116].
Definition proc : list Z := [112; 114; 111; 99].
Definition systems : list file_system_type := [File_system_type proc false; File_system_type ext2 true; File_system_type vfat true].
Definition empty_world : world := World ∅ ∅ false.

(** Concrete instance: the device has a vfat file system, proc is skipped and ext2 fails. *)
Lemma lkl_mount_first_success_witness : exists p n1 n2,
  mem_alloc (lkl_native_operations := posix_native bump_malloc) PAGE_SIZE (Posix ∅ []) = (p, n1) /\
  lkl_mount (ops := posix_native bump_malloc) (demo_sys_mount [vfat]) (replicate 4096 0) systems [100] [109] 0 0
    (Posix ∅ [], World {[ [109] ]} ∅ false) = Ret (0, (n2, World {[ [109] ]} {[ [109] ]} false)).
Proof.
  destruct (mem_alloc (lkl_native_operations := posix_native bump_malloc) PAGE_SIZE (Posix ∅ [])) as [p n1] eqn:E.
  destruct (lkl_mount_first_success (ops := posix_native bump_malloc) (laws := posix_laws bump_malloc bump_malloc_fresh)
    (demo_sys_mount [vfat]) (replicate 4096 0) systems [100] [109] 0 0 p (Posix ∅ []) n1 (World {[ [109] ]} ∅ false)) as (n2 & H & _).
  - repeat apply Forall_cons_2; [..|apply Forall_nil_2]; (split; [repeat apply Forall_cons_2; [..|apply Forall_nil_2]; done|done]).
  - repeat apply Forall_cons_2; [..|apply Forall_nil_2]; unfold short; simpl; lia.
  - by rewrite length_replicate.
  - exact E.
  - vm_compute in E. by injection E as <- _.
  - exists p, n1, n2. split; [done|]. rewrite H. f_equal.
Defined.

(** Concrete instance: device 8:0 is mounted and unmounted. *)
Lemma mount_umount_dev_clean_witness : exists w1 w2,
  lkl_mount_dev (fun d m w => demo_sys_mount [ext2] d m ext2 0 0 w) 0x800 64 empty_world = (0, w1) /\
  lkl_umount_dev 0x800 0 w1 = (0, w2) /\ mounted w2 = ∅.
Proof.
  destruct (lkl_mount_dev (fun d m w => demo_sys_mount [ext2] d m ext2 0 0 w) 0x800 64 empty_world) as [err w1] eqn:E.
  destruct (mount_umount_dev_clean (fun d m w => demo_sys_mount [ext2] d m ext2 0 0 w) 0x800 64 err empty_world w1
    (demo_mount_law [ext2] ext2 0 0) ltac:(done) E) as [(He & _)|(-> & _ & H)].
  - vm_compute in E. injection E as <- <-. done.
  - destruct (lkl_umount_dev 0x800 0 w1) as [e w2] eqn:E2. exists w1, w2.
    assert (e = 0) as -> by (vm_compute in E; injection E as <-; vm_compute in E2; by injection E2).
    split_and!; [done|done|]. by destruct (H 0 w2 E2) as [-> _].
Defined.

(** When /mnt cannot be searched the device node is left behind. *)
Example mount_dev_leaves_node :
  lkl_mount_dev (fun d m w => demo_sys_mount [ext2] d m ext2 0 0 w) 0x800 64 (World ∅ ∅ true) =
    (- 13, World {[dev_str 0x800]} ∅ true).
Proof. reflexivity. Qed.
(** A mount that returns 1, which [lkl_mount] does when there is no file system to try, counts as a success. *)
Example mount_dev_accepts_one : (lkl_mount_dev (fun _ _ w => (1, w)) 0x800 64 empty_world).1 = 0.
Proof. reflexivity. Qed.
(** A negative length passes the test for the length. *)
Example mount_dev_negative_length : (lkl_mount_dev (fun _ _ w => (0, w)) 0x800 (-1) empty_world).1 = 0.
Proof. reflexivity. Qed.
End FsDemo.
