(* ===== verification/Timer.v ===== *)
(** * Time: arch/lkl/kernel/timer.c and the timer thread of arch/lkl/envs/posix.c

    The kernel programs its clock event device in nanoseconds; the device is the [timer]
    callback of the host, whose two smallest arguments are commands.  On a POSIX host the
    callback writes the number to a pipe; a native thread reads the pipe, sleeps in [poll]
    and raises TIMER_IRQ when the time has passed.  The second half runs the kernel and the
    timer thread in every interleaving. *)
From S2P Require Import Prelude Native.

Definition ETIME : Z := 62.

Inductive clock_event_mode :=
| CLOCK_EVT_MODE_UNUSED | CLOCK_EVT_MODE_SHUTDOWN | CLOCK_EVT_MODE_PERIODIC
| CLOCK_EVT_MODE_ONESHOT | CLOCK_EVT_MODE_RESUME.
#[global] Instance clock_event_mode_eq_dec : EqDecision clock_event_mode.
Proof. solve_decision. Defined.

(** The fields of [struct clock_event_device] that the code reads or writes. *)
Record clock_event_device := Clock_event_device {
  ce_mult : Z; ce_shift : Z; max_delta_ns : Z; min_delta_ns : Z;
  ce_mode : clock_event_mode; next_event : Z }.
Definition with_mode (m : clock_event_mode) (d : clock_event_device) : clock_event_device :=
  Clock_event_device (ce_mult d) (ce_shift d) (max_delta_ns d) (min_delta_ns d) m (next_event d).
Definition with_next_event (t : Z) (d : clock_event_device) : clock_event_device :=
  Clock_event_device (ce_mult d) (ce_shift d) (max_delta_ns d) (min_delta_ns d) (ce_mode d) t.

Definition clockevent : clock_event_device := Clock_event_device 1 0 0xffffffff 0 CLOCK_EVT_MODE_UNUSED 0.

Definition clockevent_set_mode (mode : clock_event_mode) : res unit :=
  match mode with
  | CLOCK_EVT_MODE_SHUTDOWN | CLOCK_EVT_MODE_UNUSED | CLOCK_EVT_MODE_ONESHOT => Ret tt
  | CLOCK_EVT_MODE_PERIODIC | CLOCK_EVT_MODE_RESUME => Bug
  end.

(** The generic layer calls the driver only when the mode changes. *)
Definition clockevents_set_mode (dev : clock_event_device) (mode : clock_event_mode) : res clock_event_device :=
  if decide (ce_mode dev = mode) then Ret dev
  else
    let! _ := clockevent_set_mode mode in
    let dev := with_mode mode dev in
    if decide (mode = CLOCK_EVT_MODE_ONESHOT) then
      if ce_mult dev =? 0
      then Ret (Clock_event_device 1 (ce_shift dev) (max_delta_ns dev) (min_delta_ns dev) (ce_mode dev) (next_event dev))
      else Ret dev
    else Ret dev.

Definition KTIME_MAX : Z := 2 ^ 63 - 1.
Definition clockevents_shutdown (dev : clock_event_device) : res clock_event_device :=
  let! dev := clockevents_set_mode dev CLOCK_EVT_MODE_SHUTDOWN in
  Ret (with_next_event KTIME_MAX dev).

(** [tv_sec*1000000000ULL+tv_usec*1000ULL] *)
Definition time_ns (tv_sec tv_usec : Z) : Z := u64 (tv_sec * 1000000000 + tv_usec * 1000).

Section device.
Context {N : Type}.
(** The [timer] callback. *)
Context (nops_timer : Z -> N -> N).

Definition clockevent_next_event (delta : Z) (n : N) : Z * N :=
  let delta := if delta <=? LKL_TIMER_LAST_OP then LKL_TIMER_LAST_OP + 1 else delta in
  (0, nops_timer delta n).

(** kernel/time/clockevents.c: the comparisons with the limits are unsigned. *)
Definition clockevents_program_event (dev : clock_event_device) (expires now : Z) (n : N) : Z * (clock_event_device * N) :=
  if expires <? 0 then (- ETIME, (dev, n))
  else
    let delta := s64 (expires - now) in
    if delta <=? 0 then (- ETIME, (dev, n))
    else
      let dev := with_next_event expires dev in
      if decide (ce_mode dev = CLOCK_EVT_MODE_SHUTDOWN) then (0, (dev, n))
      else
        let delta := if max_delta_ns dev <? u64 delta then s64 (max_delta_ns dev) else delta in
        let delta := if u64 delta <? min_delta_ns dev then s64 (min_delta_ns dev) else delta in
        let clc := Z.shiftr (u64 (delta * ce_mult dev)) (ce_shift dev) in
        let '(r, n) := clockevent_next_event clc n in
        (r, (dev, n)).

(** [setup_irq] and [clockevents_register_device] belong to the generic layer; the error of
    [clocksource_register] is an argument. *)
Definition time_init (has_timer has_time : bool) (register_err : Z) (n : N) : res N :=
  let! _ := BUG_ON (negb has_timer || negb has_time) in
  let! _ := BUG_ON (negb (register_err =? 0)) in
  Ret (nops_timer LKL_TIMER_INIT n).
End device.

(** ** The timer thread *)

(** [timeout_ms=timeout_ns/1000000; if (!timeout_ms) timeout_ms++]; [poll] takes an [int]. *)
Definition next_timeout (timeout_ns : Z) : Z :=
  let timeout_ms := s64 (timeout_ns / 1000000) in
  if timeout_ms =? 0 then timeout_ms + 1 else timeout_ms.
Definition poll_arg (timeout_ms : Z) : Z := s32 timeout_ms.

(** Where the timer thread is: before [pipe], in the first [read], in [poll] with a timeout
    since a point in time, between a [poll] that returned 0 or an error and [lkl_trigger_irq],
    or at its end. *)
Inductive timer_pc := TStart | TRead | TPoll (timeout_ms since : Z) | TFire | TEnd.
(** The kernel: before [time_init], running, after LKL_TIMER_SHUTDOWN, after [free_IRQ]. *)
Inductive kernel_pc := KBoot | KRun | KStopped | KFreed.

(** [pipe] is what the pipe holds, [None] before [pipe()]; [stray] is what [timer] wrote to
    descriptor 0, the initial value of [timer_pipe[1]].  Ghosts: [triggered] counts the calls
    of [lkl_trigger_irq], [programmed] those of [timer] by the clock event device, [failures]
    the errors of [poll]; [armed] is the last event programmed that no interrupt has answered
    since the timer thread read it. *)
Record tsys := Tsys {
  pipe : option (list Z); stray : list Z; tpc : timer_pc; kpc : kernel_pc; now : Z; dev : clock_event_device;
  triggered : Z; programmed : Z; failures : Z; armed : option Z }.

Definition host_pipe := (option (list Z) * list Z)%type.
(** The callback: [write(timer_pipe[1], &delta, sizeof(delta))]. *)
Definition timer_write (delta : Z) (h : host_pipe) : host_pipe :=
  match h with
  | (Some q, st) => (Some (q ++ [delta]), st)
  | (None, st) => (None, st ++ [delta])
  end.

(** One step of [timer_thread] that does not wait; [None] when it waits. *)
Definition timer_thread_step (pipe_ok : bool) (poll_failed : bool) (s : tsys) : option tsys :=
  match tpc s with
  | TStart =>
      if pipe_ok then Some (Tsys (Some []) (stray s) TRead (kpc s) (now s) (dev s) (triggered s) (programmed s) (failures s) (armed s))
      else Some (Tsys None (stray s) TEnd (kpc s) (now s) (dev s) (triggered s) (programmed s) (failures s) (armed s))
  | TRead =>
      match pipe s with
      | Some (_ :: q) =>
          Some (Tsys (Some q) (stray s) (TPoll (-1) (now s)) (kpc s) (now s) (dev s) (triggered s) (programmed s) (failures s) (armed s))
      | _ => None
      end
  | TPoll ms since =>
      if poll_failed then
        Some (Tsys (pipe s) (stray s) TFire (kpc s) (now s) (dev s) (triggered s) (programmed s) (failures s + 1) (armed s))
      else
        match pipe s with
        | Some (ns :: q) =>
            let pc := if ns =? LKL_TIMER_SHUTDOWN then TEnd else TPoll (next_timeout ns) (now s) in
            Some (Tsys (Some q) (stray s) pc (kpc s) (now s) (dev s) (triggered s) (programmed s) (failures s) (armed s))
        | _ =>
            if (0 <=? poll_arg ms) && (since + poll_arg ms * 1000000 <=? now s) then
              Some (Tsys (pipe s) (stray s) TFire (kpc s) (now s) (dev s) (triggered s) (programmed s) (failures s) (armed s))
            else None
        end
  | TFire =>
      let armed := match pipe s with Some [] => None | _ => armed s end in
      Some (Tsys (pipe s) (stray s) (TPoll (-1) (now s)) (kpc s) (now s) (dev s) (triggered s + 1) (programmed s) (failures s) armed)
  | TEnd => None
  end.

(** ** The kernel and the timer thread together *)

Definition set_pipe (h : host_pipe) (s : tsys) : tsys :=
  Tsys (fst h) (snd h) (tpc s) (kpc s) (now s) (dev s) (triggered s) (programmed s) (failures s) (armed s).
Definition set_kpc (p : kernel_pc) (s : tsys) : tsys :=
  Tsys (pipe s) (stray s) (tpc s) p (now s) (dev s) (triggered s) (programmed s) (failures s) (armed s).
Definition set_dev (d : clock_event_device) (s : tsys) : tsys :=
  Tsys (pipe s) (stray s) (tpc s) (kpc s) (now s) d (triggered s) (programmed s) (failures s) (armed s).
Definition tick (dt : Z) (s : tsys) : tsys :=
  Tsys (pipe s) (stray s) (tpc s) (kpc s) (now s + dt) (dev s) (triggered s) (programmed s) (failures s) (armed s).
(** The ghosts after the device was programmed; [h] is the host before. *)
Definition note_event (h : host_pipe) (s : tsys) : tsys :=
  if decide (h = (pipe s, stray s)) then s
  else
    Tsys (pipe s) (stray s) (tpc s) (kpc s) (now s) (dev s) (triggered s) (programmed s + 1) (failures s)
      match pipe s with Some q => last q | None => last (stray s) end.

(** The timer thread on its own, and time. *)
Inductive thread_step : tsys -> tsys -> Prop :=
| step_thread s s' : timer_thread_step true false s = Some s' -> thread_step s s'
| step_tick s dt : 0 <= dt -> thread_step s (tick dt s).

Inductive tsys_step : tsys -> tsys -> Prop :=
| step_own s s' : thread_step s s' -> tsys_step s s'
(** a failing [pipe] or [poll] *)
| step_error s s' ok : timer_thread_step ok true s = Some s' -> tsys_step s s'
| step_time_init s h : kpc s = KBoot -> time_init timer_write true true 0 (pipe s, stray s) = Ret h ->
    tsys_step s (set_kpc KRun (set_pipe h s))
| step_set_mode s mode d : kpc s = KRun -> clockevents_set_mode (dev s) mode = Ret d -> tsys_step s (set_dev d s)
| step_program s expires r d h : kpc s = KRun ->
    clockevents_program_event timer_write (dev s) expires (now s) (pipe s, stray s) = (r, (d, h)) ->
    tsys_step s (note_event (pipe s, stray s) (set_pipe h (set_dev d s)))
(** [lkl_nops->timer(LKL_TIMER_SHUTDOWN)] of [lkl_start_kernel] *)
| step_shutdown s : kpc s = KRun ->
    tsys_step s (set_kpc KStopped (set_pipe (timer_write LKL_TIMER_SHUTDOWN (pipe s, stray s)) s))
(** its [free_IRQ] *)
| step_free_IRQ s : kpc s = KStopped -> tsys_step s (set_kpc KFreed s).

Definition tsys_start : tsys := Tsys None [] TStart KBoot 0 clockevent 0 0 0 None.
Definition tsys_reachable (s : tsys) : Prop := rtc tsys_step tsys_start s.

(** ** The device *)

(** What the clock event device writes: never a command, and at most the largest delta. *)
Definition is_delta (d : Z) : Prop := LKL_TIMER_LAST_OP < d <= 0xffffffff.
Record dev_ok (d : clock_event_device) : Prop := {
  dev_mult : ce_mult d = 1; dev_shift : ce_shift d = 0;
  dev_max : max_delta_ns d = 0xffffffff; dev_min : min_delta_ns d = 0 }.

Lemma set_mode_ok (d d' : clock_event_device) (m : clock_event_mode) :
  dev_ok d -> clockevents_set_mode d m = Ret d' -> dev_ok d'.
Proof.
  intros [H1 H2 H3 H4]. unfold clockevents_set_mode. case_decide; [by intros [= <-]|].
  destruct m; simpl; try done; rewrite ?H1; simpl; by intros [= <-].
Qed.

(** The clamp of [clockevents_program_event] and [clockevent_next_event] together. *)
Lemma program_event_eq {N : Type} (nops_timer : Z -> N -> N) (d : clock_event_device) (expires now : Z) (n : N) :
  dev_ok d ->
  clockevents_program_event nops_timer d expires now n =
    if (expires <? 0) || (s64 (expires - now) <=? 0) then (- ETIME, (d, n))
    else if decide (ce_mode d = CLOCK_EVT_MODE_SHUTDOWN) then (0, (with_next_event expires d, n))
    else (0, (with_next_event expires d, nops_timer (Z.max 2 (Z.min (s64 (expires - now)) 0xffffffff)) n)).
Proof.
  intros [H1 H2 H3 H4]. unfold clockevents_program_event. destruct (expires <? 0); [done|]. cbn [orb].
  pose proof (swrap_range 64 (expires - now) ltac:(done)) as Hr. unfold in_s in Hr. fold s64 in Hr. set (x := s64 (expires - now)) in *.
  change (2 ^ (64 - 1)) with 9223372036854775808 in Hr.
  destruct (Z.leb_spec x 0); [done|]. cbn [with_next_event ce_mode max_delta_ns min_delta_ns ce_mult ce_shift].
  case_decide; [done|]. rewrite H1, H2, H3, H4.
  assert (u64 x = x) as -> by (apply wrap_id; unfold in_u; change (2 ^ 64) with 18446744073709551616; lia).
  set (y := if 4294967295 <? x then s64 4294967295 else x).
  assert (y = Z.min x 0xffffffff) as Hy.
  { unfold y. destruct (Z.ltb_spec 4294967295 x); [change (s64 4294967295) with 4294967295|]; lia. }
  assert (u64 y = y) as Huy by (apply wrap_id; unfold in_u; change (2 ^ 64) with 18446744073709551616; lia).
  rewrite Huy. destruct (Z.ltb_spec y 0); [lia|]. rewrite Z.mul_1_r, Huy, Z.shiftr_0_r.
  unfold clockevent_next_event, LKL_TIMER_LAST_OP. rewrite <- Hy. do 3 f_equal. destruct (Z.leb_spec y 1); lia.
Qed.
Lemma clamped_delta (x : Z) : is_delta (Z.max 2 (Z.min x 0xffffffff)).
Proof. unfold is_delta, LKL_TIMER_LAST_OP. lia. Qed.

(** The timeout of [poll] is the delta in milliseconds, rounded down but at least one. *)
Lemma next_timeout_spec (d : Z) : is_delta d ->
  next_timeout d = Z.max 1 (d / 1000000) /\ poll_arg (next_timeout d) = next_timeout d /\
  1 <= next_timeout d <= 4294 /\ d - 1000000 < next_timeout d * 1000000 <= Z.max d 1000000.
Proof.
  unfold is_delta, LKL_TIMER_LAST_OP, next_timeout, poll_arg. intros Hd.
  assert (0 <= d / 1000000 <= 4294) as Hq.
  { split; [apply Z.div_pos; lia|]. apply Z.lt_succ_r, Z.div_lt_upper_bound; lia. }
  assert (s64 (d / 1000000) = d / 1000000) as -> by (apply swrap_id; [done|]; unfold in_s; change (2 ^ (64 - 1)) with 9223372036854775808; lia).
  assert ((if d / 1000000 =? 0 then d / 1000000 + 1 else d / 1000000) = Z.max 1 (d / 1000000)) as -> by (destruct (Z.eqb_spec (d / 1000000) 0); lia).
  assert (s32 (Z.max 1 (d / 1000000)) = Z.max 1 (d / 1000000)) as -> by (apply swrap_id; [done|]; unfold in_s; change (2 ^ (32 - 1)) with 2147483648; lia).
  pose proof (Z.div_mod d 1000000 ltac:(lia)). pose proof (Z.mod_pos_bound d 1000000 ltac:(lia)). split_and!; lia.
Qed.

(** ** Invariant *)

(** What the pipe holds besides deltas: the message of [time_init] and that of the shutdown. *)
Definition head_of (s : tsys) : list Z := match tpc s with TRead => [LKL_TIMER_INIT] | _ => [] end.
Definition tail_of (s : tsys) : list Z := match kpc s with KStopped | KFreed => [LKL_TIMER_SHUTDOWN] | _ => [] end.
(** The timer thread owes an interrupt. *)
Definition owes (p : timer_pc) : Z := match p with TFire => 1 | TPoll ms _ => if ms =? -1 then 0 else 1 | _ => 0 end.

Definition boot_inv (s : tsys) : Prop :=
  stray s = [] /\ armed s = None /\ triggered s = 0 /\ programmed s = 0 /\
  (tpc s = TRead /\ pipe s = Some [] \/ (tpc s = TStart \/ tpc s = TEnd) /\ pipe s = None).
(** The event the kernel waits for is in the pipe, or the thread sleeps for it, or is about to raise the interrupt. *)
Definition answered (p : timer_pc) (q : list Z) (d : Z) : Prop :=
  last q = Some d \/ q = [] /\ (p = TFire \/ exists since, p = TPoll (next_timeout d) since).
Record live_inv (s : tsys) (q : list Z) : Prop := {
  live_pipe : pipe s = Some (head_of s ++ q ++ tail_of s);
  live_deltas : Forall is_delta q;
  live_pc : tpc s <> TStart /\ tpc s <> TEnd;
  live_poll : forall ms since, tpc s = TPoll ms since ->
    since <= now s /\ (ms = -1 \/ exists d, is_delta d /\ ms = next_timeout d);
  live_armed : forall d, kpc s = KRun -> armed s = Some d -> is_delta d /\ answered (tpc s) q d;
  live_count : triggered s + Z.of_nat (length q) + owes (tpc s) <= programmed s + failures s }.
(** The timer thread has read the shutdown message. *)
Definition ended_inv (s : tsys) : Prop :=
  (kpc s = KStopped \/ kpc s = KFreed) /\ tpc s = TEnd /\ pipe s = Some [] /\ triggered s <= programmed s + failures s.

Definition tsys_inv (s : tsys) : Prop :=
  dev_ok (dev s) /\ 0 <= failures s /\
  (kpc s = KBoot /\ boot_inv s \/
   kpc s <> KBoot /\ stray s = [] /\ ((exists q, live_inv s q) \/ ended_inv s) \/
   kpc s <> KBoot /\ stray s <> []).

Lemma last_of_delta (q : list Z) (d : Z) : Forall is_delta q -> last q = Some d -> is_delta d.
Proof. intros H E. apply last_Some in E as [q' ->]. apply Forall_app in H as [_ H]. by apply Forall_inv in H. Qed.
Lemma delta_not_command (d : Z) : is_delta d -> (d =? LKL_TIMER_SHUTDOWN) = false.
Proof. unfold is_delta, LKL_TIMER_LAST_OP, LKL_TIMER_SHUTDOWN. intros. apply Z.eqb_neq. lia. Qed.

(** [poll] finds a delta: the thread sleeps for it. *)
Lemma live_read (s : tsys) (d : Z) (q : list Z) (ms since : Z) :
  live_inv s (d :: q) -> tpc s = TPoll ms since ->
  exists s', timer_thread_step true false s = Some s' /\
    s' = Tsys (Some (q ++ tail_of s)) (stray s) (TPoll (next_timeout d) (now s)) (kpc s) (now s) (dev s) (triggered s) (programmed s) (failures s) (armed s) /\
    live_inv s' q.
Proof.
  intros [Hp Hd Hpc Hpoll Ha Hc] E. apply Forall_cons in Hd as [Hd Hq]. unfold head_of in Hp. rewrite E in Hp. cbn [app] in Hp.
  destruct (next_timeout_spec d Hd) as (E1 & E2 & E3 & E4).
  eexists. split; [unfold timer_thread_step; rewrite E, Hp, delta_not_command by done; done|]. split; [done|].
  split; simpl; try done.
  - intros ms' since' [= <- <-]. split; [lia|]. right. by exists d.
  - intros e Hk He. specialize (Ha e Hk He) as [He' [Hl|[? _]]]; [|done]. split; [done|]. destruct q as [|x q]; [|by left].
    injection Hl as ->. right. split; [done|]. right. by eexists.
  - rewrite E in Hc. simpl in Hc. pose proof (Nat2Z.inj_succ (length q)).
    assert (0 <= owes (TPoll ms since)) by (simpl; destruct (_ =? _); lia). simpl in *. destruct (Z.eqb_spec (next_timeout d) (-1)); lia.
Qed.

(** The thread raises the interrupt. *)
Lemma live_fire (s : tsys) (q : list Z) : live_inv s q -> tpc s = TFire ->
  exists s', (forall ok f, timer_thread_step ok f s = Some s') /\ live_inv s' q /\
    tpc s' = TPoll (-1) (now s) /\ triggered s' = triggered s + 1 /\ now s' = now s /\ kpc s' = kpc s /\ stray s' = stray s /\
    (q <> [] -> armed s' = armed s) /\ (q = [] -> kpc s = KRun -> armed s' = None) /\ dev s' = dev s /\ failures s' = failures s.
Proof.
  intros [Hp Hd Hpc Hpoll Ha Hc] E. unfold head_of in Hp. rewrite E in Hp. cbn [app] in Hp.
  eexists. split; [intros; unfold timer_thread_step; by rewrite E|]. split_and!; try done.
  - split; simpl; try done.
    + intros ms since [= <- <-]. split; [lia|by left].
    + intros d Hk He. rewrite Hp in He. unfold tail_of in He. rewrite Hk, app_nil_r in He.
      destruct q as [|x q]; [done|]. destruct (Ha d Hk He) as [Hd' [Hl|[? _]]]; [|done]. split; [done|by left].
    + rewrite E in Hc. simpl in Hc. lia.
  - intros Hq. simpl. rewrite Hp. by destruct q.
  - intros -> Hk. simpl. rewrite Hp. unfold tail_of. by rewrite Hk.
Qed.

Lemma thread_step_frame (ok f : bool) (s s' : tsys) : timer_thread_step ok f s = Some s' ->
  kpc s' = kpc s /\ stray s' = stray s /\ dev s' = dev s /\ failures s <= failures s'.
Proof.
  unfold timer_thread_step. intros H. destruct (tpc s); [destruct ok| |destruct f| |]; repeat case_match; try done; injection H as <-; simpl; split_and!; done || lia.
Qed.

Lemma live_thread (ok f : bool) (s s' : tsys) (q : list Z) : kpc s <> KBoot -> live_inv s q ->
  timer_thread_step ok f s = Some s' -> (exists q', live_inv s' q') \/ ended_inv s'.
Proof.
  intros Hk Hl E. pose proof Hl as [Hp Hd [Hpc1 Hpc2] Hpoll Ha Hc]. destruct (tpc s) as [| |ms since| |] eqn:Et; try done.
  - unfold timer_thread_step in E. rewrite Et, Hp in E. unfold head_of in E. rewrite Et in E. cbn [app] in E. simplify_eq/=.
    left. exists q. split; simpl; try done.
    + intros ms since [= <- <-]. split; [lia|by left].
    + intros d Hkr He. destruct (Ha d Hkr He) as [? [?|(_ & [?|[? ?]])]]; try done. split; [done|by left].
  - destruct f.
    + unfold timer_thread_step in E. rewrite Et in E. simplify_eq. left. exists q. split; simpl; try done.
      * rewrite Hp. unfold head_of. by rewrite Et.
      * intros d Hkr He. destruct (Ha d Hkr He) as [? [?|[-> _]]]; (split; [done|]); [by left|]. right. split; [done|by left].
      * simpl in Hc. destruct (ms =? -1); lia.
    + destruct q as [|d q].
      * unfold timer_thread_step in E. rewrite Et, Hp in E. unfold head_of, tail_of in E. rewrite Et in E. cbn [app] in E.
        destruct (kpc s) eqn:Ek; [done| |right; simplify_eq; repeat split; simpl in *; auto; destruct (ms =? -1); lia..].
        destruct ((0 <=? poll_arg ms) && (since + poll_arg ms * 1000000 <=? now s)) eqn:Eb; [|done]. injection E as <-. left. exists []. split; simpl; try done.
        -- intros d _ He. destruct (Ha d eq_refl He) as [? _]. split; [done|]. right. split; [done|by left].
        -- apply andb_true_iff in Eb as [Eb _]. simpl in Hc. destruct (Z.eqb_spec ms (-1)) as [->|]; [done|lia].
      * destruct (live_read s d q ms since Hl Et) as (s1 & E1 & _ & Hs1). left. exists q.
        assert (timer_thread_step ok false s = timer_thread_step true false s) as Eok by (unfold timer_thread_step; by rewrite Et).
        assert (s' = s1) as -> by congruence. done.
  - destruct (live_fire s q Hl Et) as (s1 & E1 & Hs1 & _). assert (s' = s1) as -> by (specialize (E1 ok f); congruence). left. by exists q.
Qed.

Lemma tsys_inv_thread (ok f : bool) (s s' : tsys) : tsys_inv s -> timer_thread_step ok f s = Some s' -> tsys_inv s'.
Proof.
  intros (Hdev & Hf & Hinv) E. destruct (thread_step_frame ok f s s' E) as (Ek & Es & Ed & Ef). split; [congruence|]. split; [lia|].
  rewrite Ek, Es. destruct Hinv as [[Hk (B1 & B2 & B3 & B4 & B5)]|[(Hk & Hs & [[q Hl]|Hend])|Hs]].
  - left. split; [done|]. unfold timer_thread_step in E. destruct B5 as [[Et Hp]|[[Et|Et] Hp]]; rewrite Et, ?Hp in E; try done.
    destruct ok; simplify_eq; (split_and!; [done..|]); simpl; auto.
  - right; left. split_and!; [done|done|]. by eapply live_thread.
  - destruct Hend as (_ & Et & _). unfold timer_thread_step in E. by rewrite Et in E.
  - right; right. done.
Qed.

Lemma inv_tick (s : tsys) (dt : Z) : 0 <= dt -> tsys_inv s -> tsys_inv (tick dt s).
Proof.
  intros Hdt (Hdev & Hf & Hinv). split; [done|]. split; [done|]. destruct Hinv as [?|[(Hk & Hs & [[q Hl]|?])|?]]; [by left| |right; left; auto|by right; right].
  right; left. split_and!; [done..|]. left. exists q. destruct Hl as [Hp Hd Hpc Hpoll Ha Hc]. split; try done.
  simpl. intros ms since E. destruct (Hpoll ms since E) as [? ?]. split; [lia|done].
Qed.

(** A write by the clock event device joins the deltas. *)
Lemma live_write (s : tsys) (q : list Z) (d : Z) : kpc s = KRun -> stray s = [] -> is_delta d -> live_inv s q ->
  live_inv (note_event (pipe s, stray s) (set_pipe (timer_write d (pipe s, stray s)) s)) (q ++ [d]) /\
  stray (note_event (pipe s, stray s) (set_pipe (timer_write d (pipe s, stray s)) s)) = [].
Proof.
  intros Hk Hs Hd [Hp Hq Hpc Hpoll Ha Hc]. unfold tail_of in Hp. rewrite Hk, app_nil_r in Hp. rewrite Hp. unfold timer_write, note_event. cbn [set_pipe pipe stray fst snd].
  rewrite decide_False by (intros [= E]; apply (f_equal length) in E; rewrite !length_app in E; simpl in E; lia).
  split; [|done]. split; simpl; try done.
  - unfold tail_of. cbn [kpc]. rewrite Hk, app_nil_r. by rewrite app_assoc.
  - apply Forall_app. split; [done|]. by apply Forall_singleton.
  - intros e _ He. rewrite last_snoc in He. injection He as <-. split; [done|]. left. apply last_snoc.
  - rewrite length_app. simpl. lia.
Qed.

Lemma inv_program (s : tsys) (expires r : Z) (d : clock_event_device) (h : host_pipe) :
  tsys_inv s -> kpc s = KRun -> clockevents_program_event timer_write (dev s) expires (now s) (pipe s, stray s) = (r, (d, h)) ->
  tsys_inv (note_event (pipe s, stray s) (set_pipe h (set_dev d s))).
Proof.
  intros (Hdev & Hf & Hinv) Hk E. rewrite program_event_eq in E by done.
  assert (dev_ok (with_next_event expires (dev s))) as Hdev' by (destruct Hdev; by split).
  assert (forall d, dev_ok d -> tsys_inv (note_event (pipe s, stray s) (set_pipe (pipe s, stray s) (set_dev d s)))) as Hsame.
  { intros d' Hd'. unfold note_event. rewrite decide_True by done. split; [done|]. split; [done|]. destruct Hinv as [[? _]|[(? & ? & Hl)|?]]; [congruence| |by right; right].
    right; left. split_and!; [done..|]. destruct Hl as [[q []]|?]; [left; exists q; by split|by right]. }
  destruct (_ || _); [simplify_eq; by apply Hsame|]. case_decide; [simplify_eq; by apply Hsame|]. injection E as <- <- <-.
  set (x := Z.max 2 _). assert (is_delta x) as Hx by apply clamped_delta. clearbody x.
  destruct Hinv as [[? _]|[(_ & Hs & [[q Hl]|Hend])|[_ Hs]]]; [congruence| |destruct Hend as ([?|?] & _); congruence|].
  - assert (live_inv (set_dev (with_next_event expires (dev s)) s) q) as Hl' by (destruct Hl; by split).
    destruct (live_write (set_dev (with_next_event expires (dev s)) s) q x Hk Hs Hx Hl') as [Hw Hst]. cbn [pipe stray set_dev] in *.
    set (s' := note_event _ _) in *.
    assert (dev s' = with_next_event expires (dev s) /\ failures s' = failures s /\ kpc s' = KRun) as (E1 & E2 & E3)
      by (unfold s', note_event; case_decide; split_and!; done).
    split; [by rewrite E1|]. split; [lia|]. right; left. rewrite E3. split_and!; [done..|]. left. by eexists.
  - set (s' := note_event _ _).
    assert (dev s' = with_next_event expires (dev s) /\ failures s' = failures s /\ kpc s' = KRun /\ stray s' <> []) as (E1 & E2 & E3 & E4).
    { unfold s', note_event, timer_write. destruct (pipe s); case_decide; split_and!; simpl; try done. all: by destruct (stray s). }
    split; [by rewrite E1|]. split; [lia|]. right; right. by rewrite E3.
Qed.

Lemma inv_time_init (s : tsys) (h : host_pipe) : tsys_inv s -> kpc s = KBoot ->
  time_init timer_write true true 0 (pipe s, stray s) = Ret h -> tsys_inv (set_kpc KRun (set_pipe h s)).
Proof.
  intros (Hdev & Hf & Hinv) Hk [= <-]. split; [done|]. split; [done|]. destruct Hinv as [[_ (B1 & B2 & B3 & B4 & B5)]|[(? & _)|(? & _)]]; [|done..].
  right. destruct B5 as [[Et Hp]|[Et Hp]]; rewrite Hp, B1.
  - left. split_and!; [done..|]. left. exists []. split; simpl; rewrite ?Et; try done; [|by rewrite B2|simpl; lia].
    unfold head_of, tail_of. simpl. by rewrite Et.
  - right. done.
Qed.

Lemma inv_shutdown (s : tsys) : tsys_inv s -> kpc s = KRun ->
  tsys_inv (set_kpc KStopped (set_pipe (timer_write LKL_TIMER_SHUTDOWN (pipe s, stray s)) s)).
Proof.
  intros (Hdev & Hf & Hinv) Hk. split; [done|]. split; [done|]. destruct Hinv as [[? _]|[(_ & Hs & [[q Hl]|Hend])|[_ Hs]]]; [congruence| |destruct Hend as ([?|?] & _); congruence|].
  - destruct Hl as [Hp Hd Hpc Hpoll Ha Hc]. right; left. unfold tail_of in Hp. rewrite Hk, app_nil_r in Hp. rewrite Hp. split_and!; [done..|].
    left. exists q. split; simpl; try done. unfold tail_of, head_of. simpl. by rewrite app_assoc.
  - right; right. split; [done|]. unfold timer_write. destruct (pipe s); simpl; [done|]. by destruct (stray s).
Qed.

Lemma tsys_inv_step (s s' : tsys) : tsys_step s s' -> tsys_inv s -> tsys_inv s'.
Proof.
  intros Hs Hi. destruct Hs as [s s' [? ? E|]|s s' ok E| | | | |s Hk].
  - by eapply tsys_inv_thread.
  - by apply inv_tick.
  - by eapply tsys_inv_thread.
  - by apply inv_time_init.
  - destruct Hi as (Hdev & Hf & Hinv). split; [by eapply set_mode_ok|]. split; [done|]. destruct Hinv as [?|[(? & ? & Hl)|?]]; [by left| |by right; right].
    right; left. split_and!; [done..|]. destruct Hl as [[q []]|?]; [left; exists q; by split|by right].
  - by eapply inv_program.
  - by apply inv_shutdown.
  - destruct Hi as (Hdev & Hf & Hinv). split; [done|]. split; [done|]. destruct Hinv as [[? _]|[(? & ? & Hl)|[? ?]]]; [congruence| |by right; right].
    right; left. split_and!; [done..|]. destruct Hl as [[q [Hp Hd Hpc Hpoll Ha Hc]]|(? & ? & ? & ?)].
    + left. exists q. split; simpl; try done. rewrite Hp. unfold tail_of, head_of. simpl. by rewrite Hk.
    + right. split_and!; [by right|done..].
Qed.

Lemma reachable_tsys_inv (s : tsys) : tsys_reachable s -> tsys_inv s.
Proof.
  intros H. assert (tsys_inv tsys_start) as H0.
  { split; [done|]. split; [done|]. left. split; [done|]. split_and!; try done. right. split; [by left|done]. }
  revert H0. induction H; eauto using tsys_inv_step.
Qed.

(** ** The interrupt comes *)

(** The timer thread empties the pipe without waiting and sleeps for the last delta. *)
Lemma drain_pipe (q : list Z) : forall (s : tsys) (d ms since : Z), live_inv s q -> kpc s = KRun -> tpc s = TPoll ms since -> last q = Some d ->
  exists s', rtc thread_step s s' /\ live_inv s' [] /\ tpc s' = TPoll (next_timeout d) (now s') /\
    now s' = now s /\ kpc s' = KRun /\ armed s' = armed s /\ triggered s' = triggered s.
Proof.
  induction q as [|x q IH]; intros s d ms since Hl Hk Et Hlast; [done|].
  destruct (live_read s x q ms since Hl Et) as (s1 & E1 & -> & Hl1). destruct q as [|y q].
  - injection Hlast as ->. eexists. split; [apply rtc_once; by constructor|]. split_and!; try done.
  - destruct (IH _ d _ _ Hl1 Hk eq_refl Hlast) as (s2 & Hr & Hl2 & Et2 & En & Hk2 & Ea & Etr).
    exists s2. split_and!; try done. eapply rtc_l; [constructor; exact E1|done].
Qed.

(** It wakes up when the time has passed and raises the interrupt. *)
Lemma sleep_and_fire (s : tsys) (d since : Z) : live_inv s [] -> is_delta d -> kpc s = KRun -> tpc s = TPoll (next_timeout d) since ->
  exists s', rtc thread_step s s' /\ armed s' = None /\ triggered s' = triggered s + 1 /\
    now s <= now s' <= now s + Z.max d 1000000 /\ kpc s' = KRun.
Proof.
  intros Hl Hd Hk Et. destruct (next_timeout_spec d Hd) as (E1 & E2 & E3 & E4). pose proof Hl as [Hp _ _ Hpoll _ _].
  destruct (Hpoll _ _ Et) as [Hsince _]. set (dt := Z.max 0 (since + next_timeout d * 1000000 - now s)).
  unfold head_of, tail_of in Hp. rewrite Et, Hk in Hp. cbn [app] in Hp.
  assert (thread_step s (tick dt s)) as S1 by (constructor; lia).
  eexists. split.
  - eapply rtc_l; [exact S1|]. eapply rtc_l.
    { constructor. unfold timer_thread_step, tick. cbn [tpc pipe now]. rewrite Et, Hp, E2.
      rewrite (proj2 (Z.leb_le 0 _)) by lia. rewrite (proj2 (Z.leb_le _ (now s + dt))) by lia. reflexivity. }
    apply rtc_once. constructor. unfold timer_thread_step. cbn [tpc]. reflexivity.
  - cbn [armed triggered now kpc pipe tick]. rewrite ?Hp. split_and!; try done; lia.
Qed.

Lemma armed_fires (s : tsys) (q : list Z) (d : Z) : live_inv s q -> kpc s = KRun -> armed s = Some d ->
  exists s', rtc thread_step s s' /\ armed s' = None /\ triggered s < triggered s' /\ now s <= now s' <= now s + Z.max d 1000000 /\ kpc s' = KRun.
Proof.
  assert (forall s q d ms since, live_inv s q -> kpc s = KRun -> tpc s = TPoll ms since -> armed s = Some d ->
    exists s', rtc thread_step s s' /\ armed s' = None /\ triggered s < triggered s' /\ now s <= now s' <= now s + Z.max d 1000000 /\ kpc s' = KRun) as Hpoll.
  { clear. intros s q d ms since Hl Hk Et Ea. destruct (live_armed _ _ Hl d Hk Ea) as [Hd [Hlast|[-> [?|[since' Et']]]]]; [|congruence|].
    - destruct (drain_pipe q s d ms since Hl Hk Et Hlast) as (s1 & R1 & Hl1 & Et1 & En1 & Hk1 & _ & Etr1).
      destruct (sleep_and_fire s1 d _ Hl1 Hd Hk1 Et1) as (s2 & R2 & ? & ? & ? & ?). exists s2. split; [by etrans|]. split_and!; done || lia.
    - destruct (sleep_and_fire s d _ Hl Hd Hk Et') as (s2 & R2 & ? & ? & ? & ?). exists s2. split_and!; done || lia. }
  intros Hl Hk Ea. pose proof (live_armed _ _ Hl d Hk Ea) as [Hd Hans]. destruct (tpc s) as [| |ms since| |] eqn:Et.
  - by destruct (live_pc _ _ Hl).
  - destruct Hans as [Hlast|[_ [?|[? ?]]]]; [|done..].
    assert (exists s1, timer_thread_step true false s = Some s1 /\ kpc s1 = KRun /\ armed s1 = Some d /\ now s1 = now s /\ triggered s1 = triggered s /\
      exists ms since, tpc s1 = TPoll ms since) as (s1 & E1 & K1 & A1 & N1 & T1 & ms & since & P1).
    { unfold timer_thread_step. rewrite Et, (live_pipe _ _ Hl). unfold head_of. rewrite Et. cbn [app]. eexists. split; [done|]. simpl. split_and!; eauto. }
    destruct (live_thread true false s s1 q ltac:(congruence) Hl E1) as [[q1 Hl1]|([?|?] & _)]; [|congruence..].
    destruct (Hpoll s1 q1 d ms since Hl1 K1 P1 A1) as (s2 & R2 & ? & ? & ? & ?). exists s2.
    split; [eapply rtc_l; [by constructor|done]|]. split_and!; done || lia.
  - by eapply Hpoll.
  - destruct (live_fire s q Hl Et) as (s1 & E1 & Hl1 & P1 & T1 & N1 & K1 & _ & An & A0 & _).
    assert (thread_step s s1) as S1 by (constructor; apply E1). destruct q as [|x q].
    + exists s1. split; [by apply rtc_once|]. split_and!; [by apply A0|lia..|congruence].
    + destruct (Hpoll s1 (x :: q) d _ _ Hl1 ltac:(congruence) P1 ltac:(rewrite An; done)) as (s2 & R2 & ? & ? & ? & ?).
      exists s2. split; [by eapply rtc_l|]. split_and!; done || lia.
  - by destruct (live_pc _ _ Hl).
Qed.


(** Takes one step of a concrete run and evaluates the state it leads to. *)
Ltac run_step tac :=
  eapply rtc_l; [tac|];
  match goal with |- rtc _ ?s _ => let s' := eval vm_compute in s in change s with s' end.
Ltac run_thread := run_step ltac:(apply step_own, step_thread; reflexivity).

(** The race of [lkl_env_init]: nothing makes the kernel wait until the timer thread has its
    pipe.  When [time_init] comes first its message goes to descriptor 0, the thread takes the
    first event for that message, and the interrupt the kernel waits for never comes. *)
Definition raced_at (t : Z) : tsys :=
  Tsys (Some []) [LKL_TIMER_INIT] (TPoll (-1) 0) KRun t (with_next_event 5000000 (with_mode CLOCK_EVT_MODE_ONESHOT clockevent)) 0 1 0 (Some 5000000).
Definition raced : tsys := raced_at 0.
Lemma raced_reachable : tsys_reachable raced.
Proof.
  run_step ltac:(by eapply (step_time_init _ (None, [LKL_TIMER_INIT]))).
  run_thread.
  run_step ltac:(eapply (step_set_mode _ CLOCK_EVT_MODE_ONESHOT); reflexivity).
  run_step ltac:(eapply (step_program _ 5000000); reflexivity).
  run_thread. apply rtc_refl.
Qed.
Theorem early_time_init_loses_event :
  tsys_reachable raced /\ armed raced = Some 5000000 /\ failures raced = 0 /\
  forall s, rtc thread_step raced s -> triggered s = 0 /\ armed s = Some 5000000.
Proof.
  split_and!; [apply raced_reachable|done|done|]. intros s Hs.
  assert (exists t, s = raced_at t) as [t ->]; [|done].
  assert (exists t, raced = raced_at t) as H0 by (by exists 0).
  revert H0. induction Hs as [|s1 s2 s3 Hst _ IH]; [done|]. intros [t0 ->]. apply IH.
  inversion Hst as [? ? E|? dt]; simplify_eq. by exists (t0 + dt).
Qed.

(** [lkl_start_kernel] frees the interrupt queues without waiting for the timer thread: a
    [poll] that had returned 0 before raises TIMER_IRQ on freed semaphores. *)
Definition late : tsys :=
  Tsys (Some [LKL_TIMER_SHUTDOWN]) [] TFire KFreed 5000000 (with_next_event 5000000 (with_mode CLOCK_EVT_MODE_ONESHOT clockevent)) 0 1 0 (Some 5000000).
Theorem timer_irq_after_free : tsys_reachable late /\ exists s, thread_step late s /\ triggered s = 1 /\ kpc s = KFreed.
Proof.
  split; [|eexists; split; [by constructor|done]].
  run_thread.
  run_step ltac:(by eapply (step_time_init _ (Some [LKL_TIMER_INIT], []))).
  run_thread.
  run_step ltac:(eapply (step_set_mode _ CLOCK_EVT_MODE_ONESHOT); reflexivity).
  run_step ltac:(eapply (step_program _ 5000000); reflexivity).
  run_thread.
  run_step ltac:(apply step_own, (step_tick _ 5000000); lia).
  run_thread.
  run_step ltac:(by apply step_shutdown).
  run_step ltac:(by apply step_free_IRQ). apply rtc_refl.
Qed.

(** Concrete instance: the kernel programs an event of five milliseconds. *)
Module TimerDemo.
Definition waiting : tsys :=
  Tsys (Some [5000000]) [] (TPoll (-1) 0) KRun 0 (with_next_event 5000000 (with_mode CLOCK_EVT_MODE_ONESHOT clockevent)) 0 1 0 (Some 5000000).
Lemma five_ms_reachable : tsys_reachable waiting.
Proof.
  run_thread.
  run_step ltac:(by eapply (step_time_init _ (Some [LKL_TIMER_INIT], []))).
  run_thread.
  run_step ltac:(eapply (step_set_mode _ CLOCK_EVT_MODE_ONESHOT); reflexivity).
  run_step ltac:(eapply (step_program _ 5000000); reflexivity). apply rtc_refl.
Qed.
End TimerDemo.
