(* ===== verification/Traps.v ===== *)
(** * Traces of the stack: arch/lkl/kernel/traps.c

    A stack is a memory of words; what is printed is the list of the places on it that hold an address of kernel code, with
    that address. *)
From S2P Require Import Prelude.

Definition THREAD_SIZE : Z := 4096.

Section Trace.
(** [__kernel_text_address] is code of the generic kernel. *)
Variable __kernel_text_address : Z -> bool.
Variable m : gmap Z Z.

(** A page of words; one more turn to see its end. *)
Fixpoint trace_loop (fuel : nat) (stack : Z) : res (list (Z * Z)) :=
  match fuel with
  | O => OutOfFuel
  | S fuel =>
      if negb (Z.land stack (THREAD_SIZE - 1) =? 0) then
        let! addr := deref (m !! stack) in
        let! l := trace_loop fuel (u64 (stack + 8)) in
        Ret (if __kernel_text_address addr then (stack, addr) :: l else l)
      else Ret []
  end.
(** [own] is the address of the argument itself. *)
Definition show_trace (own stack : Z) : res (list (Z * Z)) :=
  let stack := if stack =? NULL then own else stack in
  trace_loop (S (Z.to_nat (THREAD_SIZE / 8))) stack.
(** [local] is the address of the variable of dump_stack; whether the host dumps its stack as well. *)
Definition dump_stack (host_dump : bool) (own local : Z) : res (list (Z * Z) * bool) :=
  let! l := show_trace own local in Ret (l, host_dump).

(** The places from [stack] to the end of its page. *)
Definition places (stack : Z) : list Z := (fun i => stack + 8 * i) <$> seqZ 0 ((- stack) mod THREAD_SIZE / 8).
Definition held (p : Z) : option (Z * Z) := match m !! p with Some a => if __kernel_text_address a then Some (p, a) else None | None => None end.
Lemma land_page (x : Z) : Z.land x (THREAD_SIZE - 1) = x mod THREAD_SIZE.
Proof. change (THREAD_SIZE - 1) with (Z.ones 12). by rewrite Z.land_ones by lia. Qed.
Lemma trace_loop_spec (n : nat) (stack : Z) (fuel : nat) : stack mod 8 = 0 -> (- stack) mod THREAD_SIZE = 8 * Z.of_nat n -> 0 <= stack -> stack + 8 * Z.of_nat n < 2 ^ 64 ->
  (forall i, 0 <= i < Z.of_nat n -> is_Some (m !! (stack + 8 * i))) -> (n < fuel)%nat ->
  trace_loop fuel stack = Ret (omap held ((fun i => stack + 8 * i) <$> seqZ 0 (Z.of_nat n))).
Proof using Type.
  revert stack fuel. induction n as [|n IH]; intros stack fuel H8 He H0 Hw Hm Hf; (destruct fuel as [|fuel]; [lia|]); cbn [trace_loop]; rewrite land_page.
  - assert (stack mod THREAD_SIZE = 0) as ->; [|done]. unfold THREAD_SIZE in *. pose proof (Z.div_mod (- stack) 4096 ltac:(lia)) as D. rewrite He in D. apply Z.mod_divide; [done|]. exists (- (- stack / 4096)). lia.
  - destruct (Z.eqb_spec (stack mod THREAD_SIZE) 0) as [E|E]. { unfold THREAD_SIZE in *. pose proof (Z.div_mod stack 4096 ltac:(lia)) as D. rewrite E in D. replace (- stack) with (0 + (- (stack / 4096)) * 4096) in He by lia. rewrite Z.mod_add in He by lia. change (0 mod 4096) with 0 in He. lia. }
    cbn [negb]. destruct (Hm 0 ltac:(lia)) as [a Ea]. rewrite Z.mul_0_r, Z.add_0_r in Ea. rewrite Ea. cbn [deref res_bind]. rewrite wrap_id by (unfold in_u; lia). rewrite IH; [|..].
    + cbn [res_bind]. f_equal. rewrite (seqZ_cons 0 (Z.of_nat (S n))) by lia. cbn [fmap list_fmap omap list_omap]. rewrite Z.mul_0_r, Z.add_0_r. assert (held stack = if __kernel_text_address a then Some (stack, a) else None) as -> by (unfold held; by rewrite Ea).
      replace (Z.pred (Z.of_nat (S n))) with (Z.of_nat n) by lia. assert ((fun i => stack + 8 * i) <$> seqZ (Z.succ 0) (Z.of_nat n) = (fun i => stack + 8 + 8 * i) <$> seqZ 0 (Z.of_nat n)) as ->.
      { rewrite <- (fmap_add_seqZ 1 0), <- list_fmap_compose. apply list_fmap_ext. intros i x _. cbn. lia. }
      by destruct (__kernel_text_address a).
    + rewrite <- H8. replace (stack + 8) with (stack + 1 * 8) by lia. apply Z.mod_add. lia.
    + unfold THREAD_SIZE in *. pose proof (Z.div_mod (- stack) 4096 ltac:(lia)) as D. pose proof (Z.mod_pos_bound (- stack) 4096 ltac:(lia)). symmetry. apply (Z.mod_unique_pos _ _ (- stack / 4096)); lia.
    + lia.
    + lia.
    + intros i Hi. replace (stack + 8 + 8 * i) with (stack + 8 * (i + 1)) by lia. apply Hm. lia.
    + lia.
Qed.
(** A trace from an aligned place reads the words up to the end of its page and no other one, and prints those that are
    addresses of code, from the lowest place on. *)
Theorem show_trace_prints (own stack : Z) : stack <> NULL -> stack mod 8 = 0 -> 0 <= stack -> stack + THREAD_SIZE < 2 ^ 64 ->
  (forall p, p ∈ places stack -> is_Some (m !! p)) -> show_trace own stack = Ret (omap held (places stack)).
Proof using Type.
  intros Hn H8 H0 Hw Hm. unfold show_trace. rewrite (proj2 (Z.eqb_neq _ _) Hn). unfold places, THREAD_SIZE in *. pose proof (Z.mod_pos_bound (- stack) 4096 ltac:(lia)) as Hb. set (k := (- stack) mod 4096) in *.
  assert (k mod 8 = 0) as Ek. { unfold k. pose proof (Z.div_mod (- stack) 4096 ltac:(lia)) as D. replace ((- stack) mod 4096) with (- stack + - (512 * (- stack / 4096)) * 8) by lia. rewrite Z.mod_add by lia. by apply Z.mod_opp_l_z. }
  pose proof (Z.div_mod k 8 ltac:(lia)) as Dk. rewrite (trace_loop_spec (Z.to_nat (k / 8)) stack); [by rewrite Z2Nat.id by (apply Z.div_pos; lia)|done| | | | |]; rewrite ?Z2Nat.id by (apply Z.div_pos; lia).
  - unfold THREAD_SIZE. fold k. lia.
  - done.
  - lia.
  - intros i Hi. apply Hm. apply list_elem_of_fmap. exists i. split; [done|]. apply elem_of_seqZ. lia.
  - change (4096 / 8) with 512. assert (k / 8 < 512) by (apply Z.div_lt_upper_bound; lia). lia.
Qed.
End Trace.

(** Two words of code in the last three words of a page. *)
Example trace_of_three :
  show_trace (fun a => 0x1000 <=? a) {[ 8168 := 0x1234; 8176 := 7; 8184 := 0x2345 ]} 0 8168 = Ret [(8168, 0x1234); (8184, 0x2345)].
Proof. by vm_compute. Qed.
