(* ===== verification/Setup.v ===== *)
(** * Start and stop of the kernel: arch/lkl/kernel/setup.c

    [lkl_start_kernel] starts the kernel, which calls the hooks of the port in the order of
    init/main.c, and runs until the idle loop sees [linux_halted].  Then it takes the port
    down.  The hooks are those of Threads, Bootmem, Irq, Timer and Syscalls; the generic
    kernel between the last hook and the halt is a parameter. *)
From S2P Require Import Prelude Native EnvPosix Irq Syscalls Threads Bootmem Timer.

(** [struct task_struct], as [kill_all_threads] sees it. *)
Record task := Task { t_task : Z; t_running : bool }.

Definition arch_ptrace (child request addr data : Z) : Z := - EINVAL.

Section setup.
Context {N W : Type} {ops : lkl_native_operations N}.
(** threads.c: the address of the static [thread_info], and the task's. *)
Context (init_thread_info : Z) (task_thread_info : Z -> Z).
(** The kernel of the port: threads.c over syscalls.c over the rest, and the boot memory. *)
Abbreviation kthr := (thr (sys W)).
Abbreviation state := (irq_state N (kthr * boot)).

Definition setup_arch (fuel : nat) (kzalloc : Z -> Z) (phys_mem_size : Z) (nk : N * kthr) : res (N * (kthr * boot)) :=
  let! (n, k) := threads_init init_thread_info nk in
  let! (n, b) := mem_init_0 fuel false kzalloc phys_mem_size n in
  Ret (n, (k, b)).

(** What [start_kernel] calls of the port; [reqs] are the boot allocations of the generic
    code, [run] is everything from [rest_init] to the return of the idle loop. *)
Context (fuel : nat) (kzalloc : Z -> Z) (phys_mem_size high_memory : Z) (reqs : list request) (register_err : Z).
Context (run : state -> res (Z * state)).
Definition start_kernel (nk : N * kthr) : res (Z * state) :=
  let! (n, kb) := setup_arch fuel kzalloc phys_mem_size nk in
  let '(k, b) := kb in
  let! (_, b) := boot_allocations fuel reqs b in
  let! b := mem_init fuel high_memory b in
  let! st := init_IRQ n (k, b) in
  let! n := time_init timer true true register_err (native st) in
  run (set_native n st).

(** [for_each_process] visits every task but the first. *)
Fixpoint kill_all_threads (tasks : list task) (nk : N * kthr) : res (N * kthr) :=
  match tasks with
  | [] => Ret nk
  | p :: tasks =>
      let! _ := BUG_ON (t_running p) in
      let! nk := free_thread_info (task_thread_info (t_task p)) nk in
      kill_all_threads tasks nk
  end.

Context (tasks_of : state -> list task) (schedule_timeout : N * kthr -> res (N * kthr)).
(** The optional [halt] callback. *)
Context (nops_halt : option (N -> N)).

(** The end of [lkl_start_kernel], from [kill_all_threads] on. *)
Definition stop_kernel (st : state) : res N :=
  let! nk := kill_all_threads (tasks_of st) (native st, fst (world st)) in
  let! (n, k) := threads_cleanup init_thread_info schedule_timeout fuel nk in
  let n := timer LKL_TIMER_SHUTDOWN n in
  let! n := free_syscall (n, trest k) in
  let! n := free_IRQ (set_native n st) in
  let n := match nops_halt with Some halt => halt n | None => n end in
  let! n := mem_cleanup n (snd (world st)) in
  if halt_sem (trest k) =? NULL then Ret n else sem_up (halt_sem (trest k)) n.

Definition lkl_start_kernel (nk : N * kthr) : res (Z * N) :=
  let! (init_err, st) := start_kernel nk in
  let! n := stop_kernel st in
  Ret (init_err, n).
End setup.

(** ** [kernel_execve] *)

Section execve.
Context {S : Type}.
(** The generic kernel: on the state [S] they act as their names say. *)
Context (set_exit_signal : Z -> S -> S) (synchronize_rcu run_syscalls kernel_halt clear_child_reaper do_exit : S -> res S).
(** The optional [init] callback, and where its result is kept. *)
Context (nops_init : option (S -> Z * S)) (set_init_err : Z -> S -> S).

Definition slash_init : list Z := [47; 105; 110; 105; 116].
Definition kernel_execve (filename : list Z) (s : S) : res (Z * S) :=
  let s := set_exit_signal (-1) s in
  if decide (filename = slash_init) then
    let! s := synchronize_rcu s in
    let '(ok, s) :=
      match nops_init with
      | None => (true, s)
      | Some init => let '(e, s) := init s in (s32 e =? 0, set_init_err (s32 e) s)
      end in
    let! s := if ok : bool then run_syscalls s else Ret s in
    let! s := kernel_halt s in
    let! s := clear_child_reaper s in
    let! s := do_exit s in
    Ret (0, s)
  else Ret (-1, s).
End execve.

(** ** What start and stop take from the host *)

Section facts.
Context {N W : Type} {ops : lkl_native_operations N} {laws : native_laws N}.
#[local] Set Default Proof Using "Type".

Lemma mem_init_0_host (fuel : nat) (slab : bool) (kzalloc : Z -> Z) (size : Z) (n n' : N) (b : boot) :
  mem_init_0 fuel slab kzalloc size n = Ret (n', b) ->
  mem_alloc (u32 size) n = (_phys_mem b, n') /\ _phys_mem b <> NULL.
Proof.
  unfold mem_init_0. destruct (mem_alloc (u32 size) n) as [p n1]. destruct (Z.eqb_spec p NULL); [done|].
  destruct (if negb _ then _ else _) as [pm sz]. destruct (init_bootmem _ _ _ _) as [bs nodes].
  intros (nodes1 & _ & H)%res_bind_Ret. apply res_bind_Ret in H as ([? ?] & _ & H). apply res_bind_Ret in H as ([? ?] & _ & [= <- <-]). done.
Qed.
Lemma mem_init_keeps (fuel : nat) (high_memory : Z) (reqs : list request) (b b1 b2 : boot) (addrs : list Z) :
  boot_allocations fuel reqs b = Ret (addrs, b1) -> mem_init fuel high_memory b1 = Ret b2 -> _phys_mem b2 = _phys_mem b.
Proof.
  unfold boot_allocations, mem_init. destruct (bdata_list b); [done|]. intros ([? ?] & _ & [= _ <-])%res_bind_Ret.
  by intros ([? ?] & _ & [= <-])%res_bind_Ret.
Qed.
Lemma threads_init_host (init_thread_info : Z) (n n' : N) (k k' : thr (sys W)) :
  threads_init init_thread_info (n, k) = Ret (n', k') ->
  exists ti, infos k' !! init_thread_info = Some ti /\
    NoDup [sched_sem ti; threads_counter_lock k'] /\ sems n !! sched_sem ti = None /\ sems n !! threads_counter_lock k' = None /\
    sems n' = <[threads_counter_lock k' := 1]> (<[sched_sem ti := 0]> (sems n)) /\ blocks n' = blocks n.
Proof using laws.
  unfold threads_init. destruct (infos k !! init_thread_info) as [ti|]; [|done]. cbn [deref res_bind].
  destruct (sem_alloc 0 n) as [s n1] eqn:E1. destruct (Z.eqb_spec s NULL); [done|]. cbn [BUG_ON res_bind].
  destruct (sem_alloc 1 n1) as [l n2] eqn:E2. destruct (Z.eqb_spec l NULL); [done|]. cbn [BUG_ON res_bind]. intros [= <- <-].
  destruct (sem_alloc_ok _ _ _ _ E1 ltac:(done)) as (F1 & S1 & B1). destruct (sem_alloc_ok _ _ _ _ E2 ltac:(done)) as (F2 & S2 & B2).
  rewrite S1 in F2. apply lookup_insert_None in F2 as [F2 Hne].
  eexists. split; [simpl; by rewrite lookup_insert_eq|]. simpl. split_and!; try done; [|congruence..].
  apply NoDup_cons. split; [set_solver|apply NoDup_singleton].
Qed.

(** The objects of the port at the end of a run that began in [st], after the other threads
    have gone: its globals are as [start_kernel] set them, the lock of the queue hash and
    the semaphore of [lkl_sys_halt], if any, are the only new semaphores, and only the ones
    that carry tokens have changed. *)
Record quiet (init_thread_info : Z) (st st' : irq_state N (thr (sys W) * boot)) (n : N) (k : thr (sys W)) : Prop := {
  quiet_info : infos k !! init_thread_info = infos (fst (world st)) !! init_thread_info;
  quiet_lock : threads_counter_lock k = threads_counter_lock (fst (world st));
  quiet_irqs : lock <$> irqs st' = lock <$> irqs st;
  quiet_sem : sem st' = sem st;
  quiet_mem : _phys_mem (snd (world st')) = _phys_mem (snd (world st));
  quiet_hash : sems (native st) !! syscall_queue_hash_lock (trest k) = None /\ is_Some (sems n !! syscall_queue_hash_lock (trest k));
  quiet_halt : halt_sem (trest k) <> NULL -> sems (native st) !! halt_sem (trest k) = None /\
    halt_sem (trest k) <> syscall_queue_hash_lock (trest k) /\ exists c, sems n !! halt_sem (trest k) = Some c /\ 0 <= c < sem_max;
  quiet_tokens : is_Some (sems n !! sem st) /\
    forall ti, infos (fst (world st)) !! init_thread_info = Some ti -> is_Some (sems n !! sched_sem ti);
  quiet_sems : forall p, p <> syscall_queue_hash_lock (trest k) -> p <> sem st ->
    (forall ti, infos (fst (world st)) !! init_thread_info = Some ti -> p <> sched_sem ti) ->
    (halt_sem (trest k) <> NULL -> p <> halt_sem (trest k)) -> sems n !! p = sems (native st) !! p;
  quiet_blocks : blocks n = blocks (native st) }.

(** The port as [start_kernel] has built it from the host [n0]. *)
Record port_built (init_thread_info : Z) (n0 : N) (st : irq_state N (thr (sys W) * boot)) (ti : thread_info) : Prop := {
  built_info : infos (fst (world st)) !! init_thread_info = Some ti;
  built_nodup : NoDup (sched_sem ti :: threads_counter_lock (fst (world st)) :: sem st :: (lock <$> irqs st));
  built_tokens : is_Some (sems (native st) !! sched_sem ti) /\ is_Some (sems (native st) !! sem st);
  built_lock : sems (native st) !! threads_counter_lock (fst (world st)) = Some 1;
  built_locks : Forall (fun ii => sems (native st) !! lock ii = Some 1) (irqs st);
  built_fresh : forall p, p ∈ sched_sem ti :: threads_counter_lock (fst (world st)) :: sem st :: (lock <$> irqs st) -> sems n0 !! p = None;
  built_sems : forall p, p ∉ sched_sem ti :: threads_counter_lock (fst (world st)) :: sem st :: (lock <$> irqs st) ->
    sems (native st) !! p = sems n0 !! p;
  built_mem : exists size, blocks n0 !! _phys_mem (snd (world st)) = None /\
    blocks (native st) = <[_phys_mem (snd (world st)) := size]> (blocks n0) }.

Lemma init_IRQ_built (init_thread_info : Z) (n0 n1 n2 : N) (k : thr (sys W)) (b : boot) (ti : thread_info) (st : irq_state N (thr (sys W) * boot)) (size : Z) :
  infos k !! init_thread_info = Some ti -> NoDup [sched_sem ti; threads_counter_lock k] ->
  sems n0 !! sched_sem ti = None -> sems n0 !! threads_counter_lock k = None ->
  sems n1 = <[threads_counter_lock k := 1]> (<[sched_sem ti := 0]> (sems n0)) ->
  blocks n0 !! _phys_mem b = None -> blocks n1 = <[_phys_mem b := size]> (blocks n0) ->
  init_IRQ n1 (k, b) = Ret st -> sems n2 = sems (native st) -> blocks n2 = blocks (native st) ->
  port_built init_thread_info n0 (set_native n2 st) ti.
Proof using laws.
  intros Hti Hnd F1 F2 HS FB HB Hinit ES EB. apply init_IRQ_ok in Hinit as (Hlen & Hw & Hb & Hnd' & Hf & Hsem & Hall & Hother).
  apply NoDup_cons in Hnd as [Hne _]. rewrite list_elem_of_singleton in Hne.
  assert (forall q, sems n1 !! q = None -> q <> sched_sem ti /\ q <> threads_counter_lock k /\ sems n0 !! q = None) as Hq.
  { intros q. rewrite HS, !lookup_insert_None. naive_solver. }
  assert (forall q, q ∈ sem st :: (lock <$> irqs st) -> sems n1 !! q = None) as Hfr.
  { intros q [->|(ii & -> & Hin)%list_elem_of_fmap]%elem_of_cons; [done|]. rewrite Forall_forall in Hall. by destruct (Hall _ Hin) as (_ & _ & ? & _). }
  assert (sched_sem ti ∉ sem st :: (lock <$> irqs st) /\ threads_counter_lock k ∉ sem st :: (lock <$> irqs st)) as [N1 N2].
  { split; intros Hin%Hfr%Hq; naive_solver. }
  split; simpl; rewrite ?Hw; simpl.
  - done.
  - apply NoDup_cons. split; [rewrite elem_of_cons; naive_solver|]. by apply NoDup_cons.
  - rewrite ES. split; [|by rewrite Hsem]. rewrite Hother, HS, lookup_insert_ne, lookup_insert_eq by naive_solver. by eexists.
  - by rewrite ES, Hother, HS, lookup_insert_eq.
  - rewrite ES. eapply Forall_impl; [done|]. by intros ii (_ & _ & _ & ?).
  - intros p [->|[->|Hin]%elem_of_cons]%elem_of_cons; [done|done|]. by apply Hfr, Hq in Hin as (_ & _ & ?).
  - intros p Hp. rewrite !not_elem_of_cons in Hp. destruct Hp as (P1 & P2 & P3 & P4).
    rewrite ES, Hother by (by rewrite not_elem_of_cons). by rewrite HS, !lookup_insert_ne by done.
  - exists size. split; [done|]. congruence.
Qed.

(** The locks are where they were: [free_IRQ] of the final state. *)
Lemma free_IRQ_lines (st : irq_state N (thr (sys W) * boot)) (n : N) (c : Z) :
  NoDup (sem st :: (lock <$> irqs st)) -> Forall (fun p => sems n !! p = Some 1) (lock <$> irqs st) -> sems n !! sem st = Some c ->
  exists n', free_IRQ (set_native n st) = Ret n' /\ blocks n' = blocks n /\
    forall q, sems n' !! q = if decide (q ∈ sem st :: (lock <$> irqs st)) then None else sems n !! q.
Proof using laws.
  intros [Hni Hnd]%NoDup_cons Hl Hs. unfold free_IRQ. simpl.
  destruct (free_lines_ok (irqs st) n Hnd) as (n1 & -> & B1 & S1); [by rewrite Forall_fmap in Hl|]. simpl.
  destruct (sem_free_ok (sem st) n1 c) as (n2 & -> & S2 & B2); [by rewrite S1, decide_False|].
  exists n2. split_and!; [done|congruence|]. intros q. rewrite S2, lookup_delete. case_decide as E.
  - subst. by rewrite decide_True by set_solver.
  - rewrite S1. do 2 case_decide; set_solver.
Qed.

Lemma wait_threads_ret (schedule_timeout : N * thr (sys W) -> res (N * thr (sys W))) (fuel : nat) (nk : N * thr (sys W)) (init_thread_info : Z)
    (n : N) (k : thr (sys W)) :
  wait_threads schedule_timeout fuel nk = Ret (n, k) ->
  threads_cleanup init_thread_info schedule_timeout fuel nk =
    let! ti := deref (infos k !! init_thread_info) in
    let! n := sem_free (sched_sem ti) n in
    let! n := sem_free (threads_counter_lock k) n in
    Ret (n, k).
Proof. intros E. unfold threads_cleanup. by rewrite E. Qed.

Context (init_thread_info : Z).

Section stop.
Context (n0 n : N) (k : thr (sys W)) (ti : thread_info) (st st' : irq_state N (thr (sys W) * boot)).
Context (Hb : port_built init_thread_info n0 st ti) (Hq : quiet init_thread_info st st' n k).
#[local] Set Default Proof Using "Type Hb Hq laws".
(** The semaphores of the port. *)
Definition port_sems : list Z := sched_sem ti :: threads_counter_lock (fst (world st)) :: sem st :: (lock <$> irqs st).

Lemma port_some (p : Z) : p ∈ port_sems -> is_Some (sems (native st) !! p).
Proof.
  destruct (built_tokens _ _ _ _ Hb) as [H1 H2]. unfold port_sems. rewrite !elem_of_cons. intros [->|[->|[->|(ii & -> & Hin)%list_elem_of_fmap]]]; [done| |done|].
  - by rewrite (built_lock _ _ _ _ Hb).
  - pose proof (built_locks _ _ _ _ Hb) as H. rewrite Forall_forall in H. by rewrite (H _ Hin).
Qed.
Lemma new_sems_apart : syscall_queue_hash_lock (trest k) ∉ port_sems /\ (halt_sem (trest k) <> NULL -> halt_sem (trest k) ∉ port_sems).
Proof.
  split; [|intros Hn]; intros [c Hc]%port_some.
  - destruct (quiet_hash _ _ _ _ _ Hq) as [E _]. congruence.
  - destruct (quiet_halt _ _ _ _ _ Hq Hn) as [E _]. congruence.
Qed.

(** The locks have not changed. *)
Lemma quiet_locks (p : Z) : p ∈ threads_counter_lock (fst (world st)) :: (lock <$> irqs st) -> sems n !! p = Some 1.
Proof.
  intros Hp. destruct new_sems_apart as [A1 A2]. pose proof (built_nodup _ _ _ _ Hb) as Hnd. unfold port_sems in *.
  apply NoDup_cons in Hnd as [D1 Hnd]. apply NoDup_cons in Hnd as [D2 Hnd]. apply NoDup_cons in Hnd as [D3 Hnd].
  rewrite (quiet_sems _ _ _ _ _ Hq).
  - apply elem_of_cons in Hp as [->|(ii & -> & Hin)%list_elem_of_fmap]; [apply (built_lock _ _ _ _ Hb)|].
    pose proof (built_locks _ _ _ _ Hb) as H. rewrite Forall_forall in H. by apply H.
  - intros ->. apply A1. clear -Hp. set_solver.
  - intros ->. clear -Hp D2 D3. set_solver.
  - intros ti' E. rewrite (built_info _ _ _ _ Hb) in E. injection E as <-. intros ->. clear -Hp D1. set_solver.
  - intros Hn ->. apply (A2 Hn). clear -Hp. set_solver.
Qed.

Lemma quiet_sems_at :
  is_Some (sems n !! sched_sem ti) /\ sems n !! threads_counter_lock (fst (world st)) = Some 1 /\
  is_Some (sems n !! syscall_queue_hash_lock (trest k)) /\
  syscall_queue_hash_lock (trest k) <> sched_sem ti /\ syscall_queue_hash_lock (trest k) <> threads_counter_lock (fst (world st)) /\
  sched_sem ti <> threads_counter_lock (fst (world st)).
Proof.
  destruct new_sems_apart as [A1 _]. pose proof (built_nodup _ _ _ _ Hb) as [D1 _]%NoDup_cons. unfold port_sems in A1. rewrite !elem_of_cons in A1, D1.
  split_and!; [apply (quiet_tokens _ _ _ _ _ Hq), Hb|apply quiet_locks, list_elem_of_here|apply Hq|naive_solver..].
Qed.

Lemma stop_irqs (n4 : N) :
  (forall p, sems n4 !! p = if decide (p = syscall_queue_hash_lock (trest k) \/ p = threads_counter_lock (fst (world st)) \/ p = sched_sem ti) then None else sems n !! p) ->
  exists n5, free_IRQ (set_native n4 st') = Ret n5 /\ blocks n5 = blocks n4 /\
    forall q, sems n5 !! q = if decide (q ∈ sem st :: (lock <$> irqs st)) then None else sems n4 !! q.
Proof.
  intros D4. destruct new_sems_apart as [A1 _]. pose proof (built_nodup _ _ _ _ Hb) as Hnd. unfold port_sems in A1.
  apply NoDup_cons in Hnd as [D1 Hnd]. apply NoDup_cons in Hnd as [D2 Hnd].
  assert (forall q, q ∈ sem st :: (lock <$> irqs st) -> sems n4 !! q = sems n !! q) as Hsame.
  { intros q Hin. rewrite D4, decide_False; [done|]. intros [->|[->| ->]]; [apply A1|apply D2|apply D1]; clear -Hin; set_solver. }
  destruct (quiet_tokens _ _ _ _ _ Hq) as [[c Hc] _].
  rewrite <- (quiet_irqs _ _ _ _ _ Hq), <- (quiet_sem _ _ _ _ _ Hq) in *. apply (free_IRQ_lines st' n4 c).
  - done.
  - apply Forall_forall. intros p Hp. rewrite Hsame by set_solver. apply quiet_locks. rewrite <- (quiet_irqs _ _ _ _ _ Hq). set_solver.
  - by rewrite Hsame by set_solver.
Qed.

(** The semaphore of the halt call is posted last. *)
Lemma stop_halt (n7 : N) :
  blocks n7 = blocks n0 ->
  (forall p, sems n7 !! p = if decide (p = syscall_queue_hash_lock (trest k) \/ p ∈ port_sems) then None else sems n !! p) ->
  exists n', (if halt_sem (trest k) =? NULL then Ret n7 else sem_up (halt_sem (trest k)) n7) = Ret n' /\ blocks n' = blocks n0 /\
    forall p, (halt_sem (trest k) <> NULL -> p <> halt_sem (trest k)) -> sems n' !! p = sems n0 !! p.
Proof.
  intros B7 D7. destruct new_sems_apart as [A1 A2].
  assert (forall p, (halt_sem (trest k) <> NULL -> p <> halt_sem (trest k)) -> sems n7 !! p = sems n0 !! p) as Hall.
  { intros p Hp. rewrite D7. destruct (decide (p = syscall_queue_hash_lock (trest k) \/ p ∈ port_sems)) as [[->|Hin]|Hn].
    - destruct (quiet_hash _ _ _ _ _ Hq) as [E _]. by rewrite <- (built_sems _ _ _ _ Hb).
    - by rewrite (built_fresh _ _ _ _ Hb).
    - rewrite <- (built_sems _ _ _ _ Hb) by (intros ?; apply Hn; by right). unfold port_sems in Hn. rewrite !elem_of_cons in Hn.
      apply (quiet_sems _ _ _ _ _ Hq); [naive_solver..| |done]. intros ti' E. rewrite (built_info _ _ _ _ Hb) in E. naive_solver. }
  destruct (Z.eqb_spec (halt_sem (trest k)) NULL) as [E|Hn]; [by exists n7|].
  destruct (quiet_halt _ _ _ _ _ Hq Hn) as (_ & Hne & c & Hc & Hr).
  destruct (sem_up_ok (halt_sem (trest k)) n7 c) as (n8 & -> & S8 & B8); [|done|].
  { rewrite D7, decide_False; [done|]. intros [?|?]; [done|by apply A2]. }
  exists n8. split_and!; [done|congruence|]. intros p Hp. rewrite S8, lookup_insert_ne by naive_solver. by apply Hall.
Qed.
End stop.

Context (task_thread_info : Z -> Z) (fuel : nat).
Context (tasks_of : irq_state N (thr (sys W) * boot) -> list task) (schedule_timeout : N * thr (sys W) -> res (N * thr (sys W))).
Context (nops_halt : option (N -> N)).
(** The [halt] callback of the application leaves the objects of the port alone. *)
Definition halt_frame : Prop := forall halt n, nops_halt = Some halt -> sems (halt n) = sems n /\ blocks (halt n) = blocks n.

Lemma stop_kernel_ok (n0 n : N) (k : thr (sys W)) (ti : thread_info) (nk : N * thr (sys W)) (st st' : irq_state N (thr (sys W) * boot)) :
  halt_frame -> port_built init_thread_info n0 st ti -> quiet init_thread_info st st' n k ->
  kill_all_threads task_thread_info (tasks_of st') (native st', fst (world st')) = Ret nk -> wait_threads schedule_timeout fuel nk = Ret (n, k) ->
  exists n', stop_kernel init_thread_info task_thread_info fuel tasks_of schedule_timeout nops_halt st' = Ret n' /\ blocks n' = blocks n0 /\
    forall p, (halt_sem (trest k) <> NULL -> p <> halt_sem (trest k)) -> sems n' !! p = sems n0 !! p.
Proof using laws.
  intros Hhalt Hb Hq Ekill Ewait. unfold stop_kernel. rewrite Ekill. cbn [res_bind]. rewrite (wait_threads_ret _ _ _ _ _ _ Ewait).
  destruct (quiet_sems_at n0 n k ti st st' Hb Hq) as (Q1 & Q2 & Q3 & Q4 & Q5 & Q6). pose proof (new_sems_apart n0 n k ti st st' Hb Hq) as [A1 _]. rewrite (quiet_info _ _ _ _ _ Hq), (built_info _ _ _ _ Hb). cbn [deref res_bind].
  set (hl := syscall_queue_hash_lock (trest k)) in *. set (l := threads_counter_lock (fst (world st))) in *.
  destruct Q1 as [c1 Q1]. destruct (sem_free_ok _ _ _ Q1) as (n1 & -> & S1 & B1). cbn [res_bind]. rewrite (quiet_lock _ _ _ _ _ Hq). fold l.
  assert (sems n1 !! l = Some 1) as L1 by (rewrite S1, lookup_delete_ne; [done|naive_solver]).
  destruct (sem_free_ok _ _ _ L1) as (n2 & -> & S2 & B2). cbn [res_bind].
  destruct (timer_frame LKL_TIMER_SHUTDOWN n2) as [S3 B3]. unfold free_syscall. cbn [fst snd]. fold hl.
  destruct Q3 as [c3 Q3]. assert (sems (timer LKL_TIMER_SHUTDOWN n2) !! hl = Some c3) as L3.
  { rewrite S3, S2, S1, !lookup_delete_ne; [done|naive_solver..]. }
  destruct (sem_free_ok _ _ _ L3) as (n4 & -> & S4 & B4). cbn [res_bind].
  assert (forall p, sems n4 !! p = if decide (p = hl \/ p = l \/ p = sched_sem ti) then None else sems n !! p) as D4.
  { intros p. rewrite S4, lookup_delete, S3, S2, lookup_delete, S1, lookup_delete. repeat case_decide; naive_solver. }
  destruct (stop_irqs n0 n k ti st st' Hb Hq n4 D4) as (n5 & -> & B5 & D5). cbn [res_bind].
  assert (exists n6, match nops_halt with Some halt => halt n5 | None => n5 end = n6 /\ sems n6 = sems n5 /\ blocks n6 = blocks n5) as (n6 & -> & S6 & B6).
  { destruct nops_halt as [h|] eqn:Eh; [|by eexists]. destruct (Hhalt h n5 Eh). by eexists. }
  destruct (built_mem _ _ _ _ Hb) as (size & F7 & B7). assert (blocks n6 = <[_phys_mem (snd (world st)) := size]> (blocks n0)) as E7.
  { rewrite B6, B5, B4, B3, B2, B1, (quiet_blocks _ _ _ _ _ Hq). done. }
  unfold mem_cleanup. rewrite (quiet_mem _ _ _ _ _ Hq).
  destruct (mem_free_ok (_phys_mem (snd (world st))) n6 size ltac:(by rewrite E7, lookup_insert_eq)) as (n7 & -> & B8 & S7). cbn [res_bind].
  apply (stop_halt n0 n k ti st st' Hb Hq n7).
  - rewrite B8, E7. by apply delete_insert_id.
  - intros p. rewrite S7, S6, D5, D4. fold hl l. unfold port_sems. fold l. clear. repeat case_decide; set_solver.
Qed.
Context (kzalloc : Z -> Z) (phys_mem_size high_memory : Z) (reqs : list request) (register_err : Z).
Context (run : irq_state N (thr (sys W) * boot) -> res (Z * irq_state N (thr (sys W) * boot))).

(** The generic kernel behaves: from a port that is built, it runs until it halts, its
    threads can be stopped, and by then it has left the objects of the port alone and has
    given back what else it took from the host. *)
Definition run_law : Prop := forall n0 st ti, port_built init_thread_info n0 st ti ->
  exists e st' nk n k, run st = Ret (e, st') /\
    kill_all_threads task_thread_info (tasks_of st') (native st', fst (world st')) = Ret nk /\
    wait_threads schedule_timeout fuel nk = Ret (n, k) /\ quiet init_thread_info st st' n k.

Lemma start_built (n0 : N) (k0 : thr (sys W)) (e : Z) (st' : irq_state N (thr (sys W) * boot)) :
  start_kernel init_thread_info fuel kzalloc phys_mem_size high_memory reqs register_err run (n0, k0) = Ret (e, st') ->
  exists st ti, port_built init_thread_info n0 st ti /\ run st = Ret (e, st').
Proof using laws.
  unfold start_kernel, setup_arch. intros ([n [k b]] & H1 & H2)%res_bind_Ret. apply res_bind_Ret in H1 as ([n1 k1] & Et & H1).
  apply res_bind_Ret in H1 as ([n2 b2] & Em & [= -> -> ->]). apply res_bind_Ret in H2 as ([addrs b3] & Ea & H2).
  apply res_bind_Ret in H2 as (b4 & Ei & H2). apply res_bind_Ret in H2 as (st & Eq & H2).
  apply res_bind_Ret in H2 as (n3 & Etm & Hrun).
  destruct (threads_init_host _ _ _ _ _ Et) as (ti & Hti & Hnd & F1 & F2 & S1 & B1).
  destruct (mem_init_0_host _ _ _ _ _ _ _ Em) as [Hal Hp]. destruct (mem_alloc_ok _ _ _ _ Hal Hp) as (F3 & B2 & S2).
  pose proof (mem_init_keeps _ _ _ _ _ _ _ Ea Ei) as Hkeep. rewrite B1 in F3, B2.
  unfold time_init in Etm. cbn [negb orb BUG_ON res_bind] in Etm. apply res_bind_Ret in Etm as (_ & _ & [= <-]).
  destruct (timer_frame LKL_TIMER_INIT (native st)) as [S3 B3].
  eexists _, ti. split; [|exact Hrun].
  eapply (init_IRQ_built init_thread_info n0 n _ k b4 ti st (u32 phys_mem_size)); try done; [congruence|by rewrite Hkeep|by rewrite Hkeep].
Qed.

End facts.

(** ** A concrete run: a kernel that makes the lock of the queue hash and halts *)
Module SetupDemo.
Import Irq.Demo Syscalls.SysDemo Bootmem.BootDemo.
#[local] Existing Instance demo_native.
#[local] Existing Instance demo_laws.

Abbreviation dstate := (irq_state posix (thr (sys slab) * boot)).
Definition first_kernel : thr (sys slab) := Thr {[1 := Thread_info 0 0 false 0]} ∅ 0 0 1 blank.
Definition demo_run (st : dstate) : res (Z * dstate) :=
  let '(k, b) := world st in
  let '(l, n) := sem_alloc 1 (native st) in
  let k := set_counter 0 (set_trest (set_halt_sem NULL (set_hash_lock l (trest k))) k) in
  Ret (0, Irq_state n (irqs st) (sem st) (irqs_enabled st) (irq_regs st) (k, b) (delivered st)).
Definition no_tasks (st : dstate) : list task := [].
Definition no_schedule (nk : posix * thr (sys slab)) : res (posix * thr (sys slab)) := Ret nk.

Lemma bump_not_null (h : gmap Z cell) (sz : Z) : bump_malloc h sz <> NULL.
Proof. unfold bump_malloc, NULL. assert (forall l, 0 <= foldr Z.max 0 l) as H by (induction l; simpl; lia). specialize (H (elements (dom h))). lia. Qed.

Lemma demo_run_law : run_law 1 id 24 no_tasks no_schedule demo_run.
Proof.
  intros n0 st ti Hb. unfold demo_run. destruct (world st) as [k b] eqn:Ew. destruct (sem_alloc 1 (native st)) as [l n] eqn:Ea.
  assert (l <> NULL) as Hl.
  { cbn in Ea. unfold posix_sem_alloc in Ea. rewrite (proj2 (Z.eqb_neq _ _) (bump_not_null _ _)) in Ea. injection Ea as <- _. apply bump_not_null. }
  destruct (sem_alloc_ok _ _ _ _ Ea Hl) as (Hf & Hs & HB). destruct Hb as [Hi Hnd [Ht1 Ht2] Hl1 Hls Hfr Hse Hm]. rewrite Ew in *. cbn [fst snd] in *.
  assert (forall p c, sems (native st) !! p = Some c -> sems n !! p = Some c) as Hkeep.
  { intros p c Hp. rewrite Hs, lookup_insert_ne by congruence. done. }
  destruct (lock_ok (threads_counter_lock k) n (Hkeep _ _ Hl1)) as (n1 & n2 & Ed & Eu & Hs2 & Hb2).
  eexists _, _, _, n2, _. split; [done|]. split; [done|]. split.
  - cbn [wait_threads native world fst]. unfold threads_counter_get. cbn [set_counter set_trest threads_counter_lock threads_counter].
    rewrite Ed. cbn [res_bind]. rewrite Eu. done.
  - split; rewrite ?Ew; cbn -[sems blocks]; rewrite ?Hs2, ?Hb2, ?Hs; try done.
    + split; [done|]. by rewrite lookup_insert_eq.
    + destruct Ht1 as [c1 Ht1], Ht2 as [c2 Ht2]. split; [eexists; rewrite <- Hs; by apply Hkeep|].
      intros ti' E. rewrite E in Hi. injection Hi as ->. eexists. rewrite <- Hs. by apply Hkeep.
    + intros p Hp _ _ _. by rewrite lookup_insert_ne by done.
Qed.

End SetupDemo.
