(* ===== verification/EnvLib.v ===== *)
(** * Small routines: arch/lkl/envs/lib/utils.c and net.c

    [lkl_printf] formats into a block of the host, with the [vsnprintf] of the kernel.
    The network helpers configure an interface with ioctls on a socket of the kernel, whose
    system calls are parameters. *)
From Stdlib Require String.
From S2P Require Import Prelude CString CStringSpec Vsprintf VsprintfBuf VsprintfFmt Native EnvPosix Checksum.
Import String.StringSyntax.

(** ** [lkl_printf] *)

Section printf.
Context {N : Type} {ops : lkl_native_operations N}.
(** The callback that prints [n] bytes of the block; what [mem_alloc] leaves in a fresh block. *)
Variable print : list Z -> Z -> N -> N.
Variable fresh : Z -> Z -> list Z.
Variable kallsyms : option (Z -> Z -> list Z).
Variable resources : gmap Z resource.
Variable rsz : Z.

(** The text is measured with a size of 0, and then formatted into a block of that size. *)
Definition lkl_printf (m : cmem) (fmt : Z) (args : list va) (h : N) : res (Z * N) :=
  let! (r, _) := vsnprintf kallsyms resources rsz m NULL 0 fmt args [] in
  let '(n, _) := r in
  let size := s32 (n + 1) in
  let '(buffer, h) := mem_alloc (u32 size) h in
  if buffer =? NULL then Ret (0, h)
  else
    let! (r, _) := vsnprintf kallsyms resources rsz m buffer (u64 size) fmt args (fresh buffer (u32 size)) in
    let '(_, block) := r in
    let h := print block n h in
    let! h := mem_free buffer h in
    Ret (n, h).

Context {laws : native_laws N}.
(** Printing does not touch the memory of the host; a block is inside the address space and has its size. *)
Hypothesis print_frame : forall b n h, sems (print b n h) = sems h /\ blocks (print b n h) = blocks h.
Hypothesis alloc_range : forall sz h p h', mem_alloc sz h = (p, h') -> p <> NULL -> 0 <= p /\ p + sz < 2 ^ 64.
Hypothesis fresh_length : forall p sz, 0 <= sz -> Z.of_nat (length (fresh p sz)) = sz.

(** [lkl_printf] prints the whole text of its format, however long, and a final NUL, from a block that is exactly
    large enough, and gives the block back; with no memory it prints nothing and returns 0. *)
Theorem lkl_printf_prints_text (m : cmem) (fmt : Z) (args : list va) (h : N) (text : list Z) (stores : list (Z * Z)) :
  call_ok kallsyms resources rsz m NULL 0 fmt args [] -> printed kallsyms resources rsz m fmt args text stores -> Z.of_nat (length text) < INT_MAX ->
  let n := Z.of_nat (length text) in
  exists r h', lkl_printf m fmt args h = Ret (r, h') /\ blocks h' = blocks h /\ sems h' = sems h /\
    let '(p, h1) := mem_alloc (n + 1) h in
    if p =? NULL then r = 0 /\ h' = h1 else r = n /\ mem_free p (print (text ++ [0]) n h1) = Ret h'.
Proof using laws print_frame alloc_range fresh_length.
  intros Hc Ht Hlt n. unfold lkl_printf. assert (n + 1 < 2 ^ 31 /\ 0 <= n) as [Hn Hn0] by (unfold n; change (2 ^ 31) with (INT_MAX + 1); lia).
  destruct (vsnprintf_text _ _ _ _ _ _ _ _ _ Hc) as (text' & stores' & Ht' & ->).
  pose proof (printed_fun _ _ _ _ _ _ _ _ _ _ Ht' Ht) as ->.
  cbn [res_bind]. fold n. rewrite (swrap_id 32 n), (swrap_id 32 (n + 1)) by first [lia | unfold in_s; change (2 ^ (32 - 1)) with (2 ^ 31); lia].
  rewrite (wrap_id 32 (n + 1)), (wrap_id 64 (n + 1)) by pow_lia.
  destruct (mem_alloc (n + 1) h) as [p h1] eqn:Ea. destruct (Z.eqb_spec p NULL) as [->|Hp].
  { destruct (mem_alloc_null _ _ _ Ea). exists 0, h1. by auto. }
  destruct (mem_alloc_ok _ _ _ _ Ea Hp) as (Hf & HB & HS). destruct (alloc_range _ _ _ _ Ea Hp).
  pose proof (fresh_length p (n + 1) ltac:(lia)) as Hfr.
  destruct (vsnprintf_text kallsyms resources rsz m p (n + 1) fmt args (fresh p (n + 1))) as (text2 & stores2 & Ht2 & ->).
  { destruct Hc as [C1 C2 C3 C4 C5 _ _]. split; try done; lia. }
  pose proof (printed_fun _ _ _ _ _ _ _ _ _ _ Ht2 Ht) as ->.
  assert (delivered (n + 1) text (fresh p (n + 1)) = text ++ [0]) as ->.
  { unfold delivered. rewrite (proj2 (Z.eqb_neq (n + 1) 0)) by lia. rewrite take_ge by lia. rewrite drop_ge by lia. done. }
  cbn [res_bind]. destruct (print_frame (text ++ [0]) n h1) as [P1 P2].
  destruct (mem_free_ok p (print (text ++ [0]) n h1) (n + 1)) as (h2 & E2 & B2 & S2); [by rewrite P2, HB, lookup_insert_eq|].
  rewrite E2. cbn [res_bind]. exists n, h2. split_and!; [done| | |done..].
  - by rewrite B2, P2, HB, delete_insert_id.
  - by rewrite S2, P1, HS.
Qed.
End printf.

Module PrintDemo.
(** A host with room for one block, and a console that drops what it gets. *)
Definition one_block (h : gmap Z cell) (sz : Z) : Z :=
  if (0 <=? sz) && (sz <? 2 ^ 32) then match h !! 4096 with None => 4096 | Some _ => NULL end else NULL.
Lemma one_block_fresh (h : gmap Z cell) (sz : Z) : one_block h sz <> NULL -> h !! one_block h sz = None.
Proof. unfold one_block. destruct (_ && _); [|done]. by destruct (h !! 4096) eqn:E. Qed.
Lemma one_block_range sz (h : posix) p h' : posix_mem_alloc one_block sz h = (p, h') -> p <> NULL -> 0 <= p /\ p + sz < 2 ^ 64.
Proof.
  unfold posix_mem_alloc, one_block. destruct (Z.leb_spec 0 sz), (Z.ltb_spec sz (2 ^ 32)); cbn [andb]; try (intros [= <- <-]; done).
  destruct (heap h !! 4096); intros [= <- <-] Hp; [done|]. pow_lia.
Qed.
Definition quiet (b : list Z) (n : Z) (h : posix) : posix := h.
Definition sevens (p sz : Z) : list Z := replicate (Z.to_nat sz) 7.
Lemma length_sevens (p sz : Z) : 0 <= sz -> Z.of_nat (length (sevens p sz)) = sz.
Proof. intros H. unfold sevens. rewrite length_replicate. lia. Qed.

Lemma lkl_printf_prints_text_witness :
  exists r h', lkl_printf (ops := posix_native one_block) quiet sevens None ∅ 8 VsprintfFmt.Demo.the_mem 10000 VsprintfFmt.Demo.the_args (Posix ∅ []) = Ret (r, h') /\ r = 29.
Proof.
  assert (printed None ∅ 8 VsprintfFmt.Demo.the_mem 10000 VsprintfFmt.Demo.the_args (codes "eth=  -42 [02:00:5e:10:ff:01]") []) as Hp.
  { eexists. split; [vm_compute; reflexivity|]. split; reflexivity. }
  destruct (lkl_printf_prints_text (ops := posix_native one_block) (laws := posix_laws one_block one_block_fresh) quiet sevens None ∅ 8
    ltac:(done) one_block_range length_sevens
    VsprintfFmt.Demo.the_mem 10000 VsprintfFmt.Demo.the_args (Posix ∅ []) _ _ (VsprintfFmt.Demo.the_call NULL 0 [] ltac:(done) ltac:(done) ltac:(done)) Hp ltac:(vm_compute; reflexivity)) as (r & h' & E & _ & _ & H).
  exists r, h'. split; [exact E|]. destruct H as [-> _]. reflexivity.
Defined.
End PrintDemo.

(** ** Network interfaces *)

Definition AF_INET : Z := 2.
Definition PF_INET : Z := 2.
Definition SOCK_DGRAM : Z := 2.
Definition SIOCADDRT : Z := 0x890B.
Definition SIOCGIFNAME : Z := 0x8910.
Definition SIOCGIFFLAGS : Z := 0x8913.
Definition SIOCSIFFLAGS : Z := 0x8914.
Definition SIOCSIFADDR : Z := 0x8916.
Definition SIOCSIFBRDADDR : Z := 0x891a.
Definition SIOCSIFNETMASK : Z := 0x891c.
Definition IFF_UP : Z := 1.
Definition RTF_UP : Z := 1.
Definition RTF_GATEWAY : Z := 2.

Record sockaddr_in := Sockaddr_in { sin_family : Z; sin_addr : Z; sin_port : Z }.
Definition set_sockaddr (addr port : Z) : sockaddr_in := Sockaddr_in AF_INET (u32 addr) (u16 port).
(** [struct ifreq]: the name and the union. *)
Inductive ifru := ifru_ivalue (i : Z) | ifru_flags (f : Z) | ifru_addr (a : sockaddr_in).
Record ifreq := Ifreq { ifr_name : list Z; ifr_ifru : ifru }.
Record rtentry := Rtentry { rt_dst : sockaddr_in; rt_genmask : sockaddr_in; rt_gateway : sockaddr_in; rt_flags : Z }.

(** The system calls: an [ioctl] reads and writes the [struct ifreq]. *)
Class net_calls (W : Type) : Type := {
  sys_socket : Z -> Z -> Z -> W -> Z * W;
  sys_ioctl : Z -> Z -> ifreq -> W -> Z * ifreq * W;
  sys_ioctl_rt : Z -> Z -> rtentry -> W -> Z * W;
  sys_close : Z -> W -> Z * W }.

(** [ifr.ifr_flags], a [short]; another member of the union is not a value of it. *)
Definition get_flags (ifr : ifreq) : res Z :=
  match ifr_ifru ifr with ifru_flags f => Ret f | _ => Bug end.

(** (((1<<netmask_len)-1))<<(32-netmask_len) in [int]; 0 for a length of 0. *)
Definition netmask_of (netmask_len : Z) : Z := s32 (Z.shiftl (s32 (s32 (Z.shiftl 1 netmask_len) - 1)) (32 - netmask_len)).
Definition htonl (x : Z) : Z := ___arch__swab32 (u32 x).
Definition ntohl (x : Z) : Z := ___arch__swab32 (u32 x).
Definition broadcast_of (addr netmask_len : Z) : Z := htonl (Z.lor (ntohl addr) (u32 (Z.lnot (netmask_of netmask_len)))).

Section net.
Context {W : Type} {calls : net_calls W}.
(** The [struct ifreq] on the stack before it is written. *)
Context (junk : list Z).

Definition ifindex_to_name (sock ifindex : Z) (w : W) : Z * ifreq * W :=
  let '(r, ifr, w) := sys_ioctl sock SIOCGIFNAME (Ifreq junk (ifru_ivalue ifindex)) w in
  (s32 r, ifr, w).

(** [lkl_if_up] and [lkl_if_down] differ in what they do to the flags. *)
Definition change_flags (change : Z -> Z) (ifindex : Z) (w : W) : res (Z * W) :=
  let '(r, w) := sys_socket PF_INET SOCK_DGRAM 0 w in
  let sock := s32 r in
  if sock <? 0 then Ret (sock, w)
  else
    let '(err, ifr, w) := ifindex_to_name sock ifindex w in
    if err <? 0 then Ret (err, w)
    else
      let '(r, ifr, w) := sys_ioctl sock SIOCGIFFLAGS ifr w in
      let err := s32 r in
      let! (err, w) :=
        if err =? 0 then
          let! f := get_flags ifr in
          let '(r, _, w) := sys_ioctl sock SIOCSIFFLAGS (Ifreq (ifr_name ifr) (ifru_flags (change f))) w in
          Ret (s32 r, w)
        else Ret (err, w) in
      let '(_, w) := sys_close sock w in
      Ret (err, w).
Definition lkl_if_up : Z -> W -> res (Z * W) := change_flags (fun f => swrap 16 (Z.lor f IFF_UP)).
Definition lkl_if_down : Z -> W -> res (Z * W) := change_flags (fun f => swrap 16 (Z.land f (Z.lnot IFF_UP))).

(** One ioctl that sets an address of the interface. *)
Definition set_address (sock cmd : Z) (ifr : ifreq) (addr : Z) (w : W) : Z * ifreq * W :=
  let '(r, ifr, w) := sys_ioctl sock cmd (Ifreq (ifr_name ifr) (ifru_addr (set_sockaddr addr 0))) w in
  (s32 r, ifr, w).
(** [netmask_len] is unsigned: the test [netmask_len < 0] is never true. *)
Definition lkl_if_set_ipv4 (ifindex addr netmask_len : Z) (w : W) : Z * W :=
  let '(r, w) := sys_socket PF_INET SOCK_DGRAM 0 w in
  let sock := s32 r in
  if sock <? 0 then (sock, w)
  else
    let '(err, ifr, w) := ifindex_to_name sock ifindex w in
    if err <? 0 then (err, w)
    else if (netmask_len <? 0) || (31 <=? netmask_len) then (- EINVAL, w)
    else
      let '(err, ifr, w) := set_address sock SIOCSIFADDR ifr addr w in
      let '(err, w) :=
        if err =? 0 then
          let '(err, ifr, w) := set_address sock SIOCSIFNETMASK ifr (htonl (netmask_of netmask_len)) w in
          if err =? 0 then
            let '(err, _, w) := set_address sock SIOCSIFBRDADDR ifr (broadcast_of addr netmask_len) w in (err, w)
          else (err, w)
        else (err, w) in
      let '(_, w) := sys_close sock w in
      (err, w).

Definition lkl_set_gateway (addr : Z) (w : W) : Z * W :=
  let '(r, w) := sys_socket PF_INET SOCK_DGRAM 0 w in
  let sock := s32 r in
  if sock <? 0 then (sock, w)
  else
    let re := Rtentry (set_sockaddr 0 0) (set_sockaddr 0 0) (set_sockaddr addr 0) (Z.lor RTF_UP RTF_GATEWAY) in
    let '(r, w) := sys_ioctl_rt sock SIOCADDRT re w in
    let err := s32 r in
    let '(_, w) := sys_close sock w in
    (err, w).
End net.

(** The mask has [netmask_len] ones at the top; its complement is the host part. *)
Lemma netmask_of_spec (netmask_len : Z) : 0 <= netmask_len < 31 ->
  u32 (netmask_of netmask_len) = 2 ^ 32 - 2 ^ (32 - netmask_len) /\ u32 (Z.lnot (netmask_of netmask_len)) = Z.ones (32 - netmask_len).
Proof.
  intros Hl.
  assert (forallb (fun i => (u32 (netmask_of (Z.of_nat i)) =? 2 ^ 32 - 2 ^ (32 - Z.of_nat i)) &&
    (u32 (Z.lnot (netmask_of (Z.of_nat i))) =? Z.ones (32 - Z.of_nat i))) (seq 0 31) = true) as H by (vm_compute; reflexivity).
  rewrite forallb_forall in H. specialize (H (Z.to_nat netmask_len)). rewrite Z2Nat.id in H by lia.
  apply andb_true_iff in H as [H1%Z.eqb_eq H2%Z.eqb_eq]; [done|]. apply in_seq. lia.
Qed.
(** The broadcast address: the network part of the address, and ones. *)
Lemma broadcast_of_spec (addr netmask_len i : Z) : 0 <= netmask_len < 31 -> 0 <= i ->
  exists b, broadcast_of addr netmask_len = htonl b /\ Z.testbit b i = (i <? 32 - netmask_len) || Z.testbit (ntohl addr) i.
Proof.
  intros Hl Hi. exists (Z.lor (ntohl addr) (Z.ones (32 - netmask_len))). unfold broadcast_of.
  rewrite (proj2 (netmask_of_spec _ Hl)). split; [done|]. rewrite Z.lor_spec, Z.testbit_ones by lia.
  rewrite (proj2 (Z.leb_le 0 i) Hi). by rewrite orb_comm.
Qed.

(** What the helpers rely on: the sockets that are open. *)
Class net_laws (W : Type) {calls : net_calls W} : Type := {
  socks : W -> gset Z;
  socket_law : forall d t p w, let '(r, w') := sys_socket d t p w in
    if s32 r <? 0 then socks w' = socks w else s32 r ∉ socks w /\ socks w' = {[s32 r]} ∪ socks w;
  ioctl_law : forall s cmd ifr w, let '(r, ifr', w') := sys_ioctl s cmd ifr w in
    socks w' = socks w /\ (cmd = SIOCGIFFLAGS -> s32 r = 0 -> exists f, ifr_ifru ifr' = ifru_flags f);
  ioctl_rt_law : forall s cmd re w, socks (snd (sys_ioctl_rt s cmd re w)) = socks w;
  close_law : forall s w, socks (snd (sys_close s w)) = socks w ∖ {[s]} }.

Section net_facts.
Context {W : Type} {calls : net_calls W} {nlaws : net_laws W}.
#[local] Set Default Proof Using "Type".
(** The socket is closed, or an error is returned and it stays open. *)
Definition socket_outcome (err : Z) (w w' : W) : Prop :=
  socks w' = socks w \/ err < 0 /\ exists s, s ∉ socks w /\ socks w' = {[s]} ∪ socks w.

Lemma change_flags_sockets (junk : list Z) (change : Z -> Z) (ifindex : Z) (w : W) :
  exists err w', change_flags junk change ifindex w = Ret (err, w') /\ socket_outcome err w w'.
Proof.
  unfold change_flags, ifindex_to_name. pose proof (socket_law PF_INET SOCK_DGRAM 0 w) as Hs. destruct (sys_socket PF_INET SOCK_DGRAM 0 w) as [r w1].
  destruct (Z.ltb_spec (s32 r) 0); [eexists _, _; split; [done|by left]|]. destruct Hs as [Hn Hs].
  pose proof (ioctl_law (s32 r) SIOCGIFNAME (Ifreq junk (ifru_ivalue ifindex)) w1) as H1. destruct (sys_ioctl _ _ _ w1) as [[r1 ifr1] w2].
  destruct H1 as [H1 _]. destruct (Z.ltb_spec (s32 r1) 0).
  { eexists _, _. split; [done|]. right. split; [done|]. exists (s32 r). split; [done|congruence]. }
  pose proof (ioctl_law (s32 r) SIOCGIFFLAGS ifr1 w2) as H2. destruct (sys_ioctl (s32 r) SIOCGIFFLAGS ifr1 w2) as [[r2 ifr2] w3].
  destruct H2 as [H2 Hf]. assert (socks w ∖ {[s32 r]} = socks w) as Hd by set_solver.
  destruct (Z.eqb_spec (s32 r2) 0) as [E|E].
  - destruct (Hf eq_refl E) as [f Ef]. unfold get_flags. rewrite Ef. cbn [res_bind].
    pose proof (ioctl_law (s32 r) SIOCSIFFLAGS (Ifreq (ifr_name ifr2) (ifru_flags (change f))) w3) as H3. destruct (sys_ioctl _ SIOCSIFFLAGS _ w3) as [[r3 ifr3] w4].
    destruct H3 as [H3 _]. cbn [res_bind]. pose proof (close_law (s32 r) w4) as H4. destruct (sys_close (s32 r) w4) as [? w5]. eexists _, _. split; [done|].
    left. simpl in H4. rewrite H4, H3, H2, H1, Hs. set_solver.
  - cbn [res_bind]. pose proof (close_law (s32 r) w3) as H4. destruct (sys_close (s32 r) w3) as [? w5]. eexists _, _. split; [done|].
    left. simpl in H4. rewrite H4, H2, H1, Hs. set_solver.
Qed.

(** [lkl_set_gateway] never leaves the socket open. *)
Lemma lkl_set_gateway_sockets (addr : Z) (w : W) : socks (snd (lkl_set_gateway addr w)) = socks w.
Proof.
  unfold lkl_set_gateway. pose proof (socket_law PF_INET SOCK_DGRAM 0 w) as Hs. destruct (sys_socket PF_INET SOCK_DGRAM 0 w) as [r w1].
  destruct (Z.ltb_spec (s32 r) 0); [done|]. destruct Hs as [Hn Hs]. set (re := Rtentry _ _ _ _).
  pose proof (ioctl_rt_law (s32 r) SIOCADDRT re w1) as H1. destruct (sys_ioctl_rt _ _ re w1) as [r1 w2].
  pose proof (close_law (s32 r) w2) as H2. destruct (sys_close (s32 r) w2) as [? w3]. simpl in *. rewrite H2, H1, Hs. set_solver.
Qed.
End net_facts.

(** A bad mask length is only looked at after the socket is open, and leaves it open. *)
Module NetDemo.
#[export] Instance demo_net : net_calls (gset Z) := {
  sys_socket _ _ _ w := (5, {[5]} ∪ w);
  sys_ioctl _ _ ifr w := (0, ifr, w);
  sys_ioctl_rt _ _ _ w := (0, w);
  sys_close s w := (0, w ∖ {[s]}) }.
Example set_ipv4_leaks_socket : lkl_if_set_ipv4 [] 1 0x0100007f 31 ∅ = (- EINVAL, {[5]}).
Proof. reflexivity. Qed.
Example set_ipv4_closes_socket : lkl_if_set_ipv4 [] 1 0x0100007f 24 ∅ = (0, ∅).
Proof. reflexivity. Qed.
End NetDemo.
