(* ===== verification/ImageWriter.v ===== *)
(** * The image writer: src/lkl-image-writer/main.c and live_os.c

    The application of the repository: it starts the kernel, gives it a disk image as a disk,
    mounts it, makes it the root and copies a file of the host into it.  The host is a map
    of files and of open descriptors; the library kernel is a parameter with the calls the
    program makes. *)
From S2P Require Import Prelude.

Abbreviation bytes := (list Z).
Abbreviation path := (list Z).

(** ** live_os.c on a POSIX host *)

(** Regular files and the open descriptors, with the path and the position. *)
Record host := Host { files : gmap path bytes; fds : gmap Z (path * Z) }.

Section live_os.
(** Permissions, and the most that one [read] returns. *)
Context (may_open : path -> bool) (read_limit : Z).
(** The descriptor the host chooses. *)
Definition new_fd (h : host) : Z := 3 + foldr Z.max 0 (elements (dom (fds h))).

(** open(image, O_RDWR | O_CREAT, 0777), or without O_CREAT. *)
Definition live_lib_open (image : path) (mode : bool) (h : host) : Z * host :=
  if negb (may_open image) then (-1, h)
  else
    match files h !! image with
    | Some _ => (new_fd h, Host (files h) (<[new_fd h := (image, 0)]> (fds h)))
    | None => if mode then (new_fd h, Host (<[image := []]> (files h)) (<[new_fd h := (image, 0)]> (fds h))) else (-1, h)
    end.
Definition live_lib_close (fd : Z) (h : host) : host := Host (files h) (delete fd (fds h)).
(** The result of [fstat] is not tested; on a bad descriptor the size is garbage, here a fault. *)
Definition live_lib_get_size (fd : Z) (h : host) : res Z :=
  let! (p, _) := deref (fds h !! fd) in
  let! b := deref (files h !! p) in
  Ret (Z.of_nat (length b)).
(** Returns the bytes as well as their number, and advances. *)
Definition live_lib_read (fd size : Z) (h : host) : res (bytes * host) :=
  let! (p, pos) := deref (fds h !! fd) in
  let! b := deref (files h !! p) in
  let got := take (Z.to_nat (Z.min size read_limit)) (drop (Z.to_nat pos) b) in
  Ret (got, Host (files h) (<[fd := (p, pos + Z.of_nat (length got))]> (fds h))).
End live_os.

(** ** The library kernel *)

(** The calls of [main]; [lkl_mount_dev] gives the mount point as well. *)
Class lkl_api (W : Type) : Type := {
  lkl_env_init : Z -> W -> Z * W;
  lkl_disk_add_disk : Z -> Z -> W -> Z * W;
  lkl_mount_dev : Z -> W -> Z * path * W;
  lkl_sys_chdir : path -> W -> Z * W;
  lkl_sys_chroot : path -> W -> Z * W;
  lkl_sys_open : path -> Z -> Z -> W -> Z * W;
  lkl_sys_write : Z -> bytes -> Z -> W -> Z * W;
  lkl_sys_close : Z -> W -> Z * W;
  lkl_sys_umount : path -> Z -> W -> Z * W;
  lkl_sys_halt : W -> Z * W }.

Definition O_RDWR : Z := 2.
Definition O_CREAT : Z := 0x40.
Definition dot : path := [46].
Definition slash : path := [47].

Section main.
Context {W : Type} {api : lkl_api W}.
Context (may_open : path -> bool) (read_limit : Z) (malloc_ok : Z -> bool).

(** Returns the result, [fd] and [devno]. *)
Definition lkl_add_disk (image : path) (h : host) (w : W) : res (Z * Z * Z * host * W) :=
  let '(fd, h) := live_lib_open may_open image false h in
  if fd <? 0 then Ret (-1, fd, 0, h, w)
  else
    let! size := live_lib_get_size fd h in
    let '(devno, w) := lkl_disk_add_disk fd (size / 512) w in
    if devno =? 0 then Ret (-1, fd, devno, live_lib_close fd h, w)
    else Ret (0, fd, devno, h, w).

(** The condition after the disk is there: each call is made if those before succeeded. *)
Definition enter_image (devno : Z) (w : W) : bool * W :=
  let '(err, mount_point, w) := lkl_mount_dev devno w in
  if s32 err <? 0 then (false, w)
  else
    let '(r, w) := lkl_sys_chdir mount_point w in
    if r <? 0 then (false, w)
    else
      let '(r, w) := lkl_sys_chroot dot w in
      (negb (r <? 0), w).

(** From the second [live_lib_open] on: the copy.  A failed [malloc] is a fault. *)
Definition copy_file (fd : Z) (file : path) (h : host) (w : W) : res (Z * host * W) :=
  let '(file_fd, h) := live_lib_open may_open file true h in
  if file_fd <? 0 then
    let '(_, w) := lkl_sys_halt w in
    Ret (-1, live_lib_close fd h, w)
  else
    let! size := live_lib_get_size file_fd h in
    if negb (malloc_ok (size + 1)) then Bug
    else
      let! (file_buf, h) := live_lib_read read_limit file_fd size h in
      let '(lkl_fd, w) := lkl_sys_open file (Z.lor O_CREAT O_RDWR) 0x1ff w in
      if s32 lkl_fd <? 0 then
        let '(_, w) := lkl_sys_halt w in
        Ret (-1, live_lib_close file_fd (live_lib_close fd h), w)
      else
        let '(_, w) := lkl_sys_write (s32 lkl_fd) file_buf size w in
        let '(_, w) := lkl_sys_close (s32 lkl_fd) w in
        let '(_, w) := lkl_sys_umount slash 0 w in
        Ret (0, live_lib_close file_fd (live_lib_close fd h), w).

Definition main (argv : list path) (h : host) (w : W) : res (Z * host * W) :=
  match argv with
  | _ :: image :: file :: _ =>
      let '(r, w) := lkl_env_init (16 * 1024 * 1024) w in
      if negb (r =? 0) then Ret (-1, h, w)
      else
        let! (x, w) := lkl_add_disk image h w in
        let '(r, fd, devno, h) := x in
        if r <? 0 then Ret (-1, h, w)
        else
          let '(ok, w) := enter_image devno w in
          if negb ok then
            let h := live_lib_close fd h in
            let '(_, w) := lkl_sys_halt w in
            Ret (-1, h, w)
          else copy_file fd file h w
  | _ => Ret (-1, h, w)
  end.
End main.

(** ** Properties *)

Lemma new_fd_fresh (h : host) : fds h !! new_fd h = None /\ 0 <= new_fd h.
Proof.
  assert (forall l : list Z, 0 <= foldr Z.max 0 l /\ forall x, x ∈ l -> x <= foldr Z.max 0 l) as H.
  { induction l as [|y l [IH1 IH2]]; simpl; [split; [lia|]; by intros x ?%elem_of_nil|].
    split; [lia|]. intros x [->|Hx]%elem_of_cons; [lia|]. specialize (IH2 x Hx). lia. }
  destruct (H (elements (dom (fds h)))) as [H1 H2]. unfold new_fd. split; [|lia]. apply not_elem_of_dom. intros Hin%elem_of_elements%H2. lia.
Qed.

Lemma live_lib_open_spec (may_open : path -> bool) (p : path) (mode : bool) (h : host) :
  (live_lib_open may_open p mode h = (-1, h)) \/
  exists fd b, 0 <= fd /\ fds h !! fd = None /\
    live_lib_open may_open p mode h = (fd, Host (<[p := b]> (files h)) (<[fd := (p, 0)]> (fds h))) /\ (b = default [] (files h !! p)).
Proof.
  unfold live_lib_open. destruct (negb (may_open p)); [by left|]. destruct (new_fd_fresh h) as [H1 H2]. destruct (files h !! p) as [b|] eqn:E.
  - right. exists (new_fd h), b. split_and!; try done. f_equal. f_equal. by rewrite insert_id.
  - destruct mode; [|by left]. right. by exists (new_fd h), [].
Qed.

(** What the kernel promises for the files of the mounted image. *)
Class api_laws (W : Type) {api : lkl_api W} : Type := {
  kfiles : W -> gmap path bytes;
  kfds : W -> gmap Z path;
  open_law : forall p f m w, let '(r, w') := lkl_sys_open p f m w in
    0 <= s32 r -> kfds w' = <[s32 r := p]> (kfds w) /\ kfiles w' = <[p := default [] (kfiles w !! p)]> (kfiles w);
  write_law : forall fd p buf old w, kfds w !! fd = Some p -> kfiles w !! p = Some old ->
    let '(_, w') := lkl_sys_write fd buf (Z.of_nat (length buf)) w in kfiles w' = <[p := buf ++ drop (length buf) old]> (kfiles w);
  close_law : forall fd w, kfiles (snd (lkl_sys_close fd w)) = kfiles w;
  umount_law : forall p f w, kfiles (snd (lkl_sys_umount p f w)) = kfiles w }.

Section facts.
Context {W : Type} {api : lkl_api W} {laws : api_laws W}.
Context (may_open : path -> bool) (read_limit : Z) (malloc_ok : Z -> bool).
#[local] Set Default Proof Using "Type".

(** The host file is in the image; what the image had of it beyond its length stays. *)
Definition file_copied (file : path) (h' : host) (w' : W) : Prop :=
  exists content tail, files h' !! file = Some content /\
    (Z.of_nat (length content) <= read_limit -> kfiles w' !! file = Some (content ++ tail)).

Lemma copy_file_spec (fd : Z) (file : path) (h : host) (w : W) : (forall n, malloc_ok n = true) -> is_Some (fds h !! fd) ->
  exists r h' w', copy_file may_open read_limit malloc_ok fd file h w = Ret (r, h', w') /\ fds h' = delete fd (fds h) /\
    (r = 0 /\ file_copied file h' w' \/ r = -1).
Proof using laws.
  intros Hm [v Hfd]. unfold copy_file. destruct (live_lib_open_spec may_open file true h) as [->|(f & b & Hf & Hfree & -> & Hb)].
  { change (-1 <? 0) with true. destruct (lkl_sys_halt w) as [? w']. eexists _, _, _. split; [done|]. split; [done|by right]. }
  rewrite (proj2 (Z.ltb_ge f 0) Hf). unfold live_lib_get_size. cbn [fds files]. rewrite lookup_insert_eq. cbn [deref res_bind].
  rewrite lookup_insert_eq. cbn [deref res_bind]. rewrite Hm. cbn [negb]. unfold live_lib_read. cbn [fds files]. rewrite lookup_insert_eq. cbn [deref res_bind].
  rewrite lookup_insert_eq. cbn [deref res_bind]. set (got := take _ _). set (h1 := Host _ _).
  assert (fds (live_lib_close f (live_lib_close fd h1)) = delete fd (fds h)) as Hfds.
  { unfold h1. cbn [live_lib_close fds]. rewrite insert_insert_eq, (delete_insert_ne _ fd f) by congruence. rewrite delete_insert_eq.
    apply delete_id. rewrite lookup_delete_ne by congruence. done. }
  pose proof (open_law file (Z.lor O_CREAT O_RDWR) 0x1ff w) as Ho. destruct (lkl_sys_open file _ 0x1ff w) as [lfd w1]. destruct (Z.ltb_spec (s32 lfd) 0).
  { destruct (lkl_sys_halt w1) as [? w2]. eexists _, _, _. split; [done|]. split; [done|by right]. }
  destruct (Ho ltac:(lia)) as [Hk1 Hk2]. destruct (lkl_sys_write (s32 lfd) got (Z.of_nat (length b)) w1) as [wr w2] eqn:Ew.
  pose proof (close_law (s32 lfd) w2) as Hc. destruct (lkl_sys_close (s32 lfd) w2) as [? w3]. pose proof (umount_law slash 0 w3) as Hu.
  destruct (lkl_sys_umount slash 0 w3) as [? w4]. eexists _, _, _. split; [done|]. split; [done|]. left. split; [done|].
  exists b, (drop (length b) (default [] (kfiles w !! file))). split; [cbn; by rewrite lookup_insert_eq|]. intros Hlim.
  assert (got = b) as Hg. { unfold got. cbn [Z.to_nat]. rewrite drop_0, Z.min_l by done. rewrite Nat2Z.id. by rewrite firstn_all. }
  rewrite Hg in Ew. pose proof (write_law (s32 lfd) file b (default [] (kfiles w !! file)) w1) as Hw. rewrite Ew in Hw.
  simpl in Hc, Hu. rewrite Hu, Hc, Hw; [by rewrite lookup_insert_eq|by rewrite Hk1, lookup_insert_eq|by rewrite Hk2, lookup_insert_eq].
Qed.

End facts.

(** Concrete instance: a kernel that keeps the files of one image. *)
Module WriterDemo.
Record kworld := Kworld { k_files : gmap path bytes; k_fds : gmap Z path; k_halted : bool }.
#[export] Instance demo_api : lkl_api kworld := {
  lkl_env_init _ w := (0, w);
  lkl_disk_add_disk _ _ w := (7, w);
  lkl_mount_dev _ w := (0, [47; 109], w);
  lkl_sys_chdir _ w := (0, w);
  lkl_sys_chroot _ w := (0, w);
  lkl_sys_open p _ _ w := (3, Kworld (<[p := default [] (k_files w !! p)]> (k_files w)) (<[3 := p]> (k_fds w)) (k_halted w));
  lkl_sys_write fd buf n w :=
    (n, match k_fds w !! fd with
        | Some p => Kworld (<[p := buf ++ drop (length buf) (default [] (k_files w !! p))]> (k_files w)) (k_fds w) (k_halted w)
        | None => w
        end);
  lkl_sys_close fd w := (0, Kworld (k_files w) (delete fd (k_fds w)) (k_halted w));
  lkl_sys_umount _ _ w := (0, w);
  lkl_sys_halt w := (0, Kworld (k_files w) (k_fds w) true) }.
#[export] Instance demo_api_laws : api_laws kworld.
Proof.
  refine {| kfiles := k_files; kfds := k_fds |}; try done.
  intros fd p buf old w Hfd Hp. cbn. by rewrite Hfd, Hp.
Defined.

Definition img : path := [105].
Definition src : path := [115].
Definition demo_host : host := Host (<[img := [0; 0]]> (<[src := [1; 2; 3]]> ∅)) ∅.
Definition fresh_kernel : kworld := Kworld ∅ ∅ false.

(** The kernel is not halted when everything went well, nor when the disk cannot be added. *)
Example success_leaves_kernel_running :
  match main (fun _ => true) 0x7ffff000 (fun _ => true) [[]; img; src] demo_host fresh_kernel with
  | Ret (r, _, w') => (r, k_halted w') | _ => (1, true) end = (0, false).
Proof. reflexivity. Qed.
(** The file is opened without O_TRUNC: a longer one in the image keeps its end. *)
Example old_tail_stays :
  match main (fun _ => true) 0x7ffff000 (fun _ => true) [[]; img; src] demo_host (Kworld {[src := [9; 9; 9; 9; 9]]} ∅ false) with
  | Ret (_, _, w') => k_files w' !! src | _ => None end = Some [1; 2; 3; 9; 9].
Proof. reflexivity. Qed.
End WriterDemo.
