(* ===== verification/EnvHosts.v ===== *)
(** * The other hosts: arch/lkl/envs/nt.c, ntk.c, khaiku.c and apr.c

    The callbacks of [nops] on Windows (user mode and kernel mode), in the Haiku kernel and
    over the Apache portable runtime.  Each gives an instance of the native operations; the
    objects the host hands out are parameters.  The two Windows hosts create every semaphore
    with a limit of 100 tokens. *)
From S2P Require Import Prelude Native EnvPosix Irq.

(** Semaphores by handle or address with their counts, heap blocks, and the due times the
    timer was set to, negative for relative ones; the last two are the timer's of Windows. *)
Record hostw := Hostw { h_sems : gmap Z Z; h_blocks : gmap Z Z; h_timer : list Z; timer_done : bool; timer_killer_sem : Z }.
Definition with_sems (x : gmap Z Z) (h : hostw) : hostw := Hostw x (h_blocks h) (h_timer h) (timer_done h) (timer_killer_sem h).
Definition with_blocks (x : gmap Z Z) (h : hostw) : hostw := Hostw (h_sems h) x (h_timer h) (timer_done h) (timer_killer_sem h).
Definition with_timer (x : list Z) (h : hostw) : hostw := Hostw (h_sems h) (h_blocks h) x (timer_done h) (timer_killer_sem h).
Definition set_done (h : hostw) : hostw := Hostw (h_sems h) (h_blocks h) (h_timer h) true (timer_killer_sem h).
Definition wake_killer (h : hostw) : hostw := Hostw (h_sems h) (h_blocks h) (h_timer h) (timer_done h) (timer_killer_sem h + 1).

Section hosts.
(** What the host returns for a new semaphore and a new block: NULL or something unused. *)
Context (new_sem new_block : hostw -> Z -> Z).
Context (new_sem_fresh : forall h c, new_sem h c <> NULL -> h_sems h !! new_sem h c = None).
Context (new_block_fresh : forall h sz, new_block h sz <> NULL -> h_blocks h !! new_block h sz = None).

Definition host_mem_alloc (size : Z) (h : hostw) : Z * hostw :=
  let p := new_block h size in
  if p =? NULL then (NULL, h) else (p, with_blocks (<[p := size]> (h_blocks h)) h).
Definition host_mem_free (p : Z) (h : hostw) : res hostw :=
  match h_blocks h !! p with
  | Some _ => Ret (with_blocks (delete p (h_blocks h)) h)
  | None => if p =? NULL then Ret h else Bug
  end.
Definition host_sem_free (sem : Z) (h : hostw) : res hostw :=
  match h_sems h !! sem with Some _ => Ret (with_sems (delete sem (h_sems h)) h) | None => Bug end.
Definition host_sem_down (sem : Z) (h : hostw) : res hostw :=
  match h_sems h !! sem with
  | Some c => if c <=? 0 then Blocked else Ret (with_sems (<[sem := c - 1]> (h_sems h)) h)
  | None => Bug
  end.

(** ** Windows, user mode: nt.c *)

Definition SEM_LIMIT : Z := 100.
(** CreateSemaphore(NULL, count, 100, NULL) fails for a count above the limit. *)
Definition nt_sem_alloc (count : Z) (h : hostw) : Z * hostw :=
  if (count <? 0) || (SEM_LIMIT <? count) then (NULL, h)
  else
    let s := new_sem h count in
    if s =? NULL then (NULL, h) else (s, with_sems (<[s := count]> (h_sems h)) h).
(** ReleaseSemaphore fails at the limit and leaves the count; its result is ignored. *)
Definition nt_sem_up (sem : Z) (h : hostw) : res hostw :=
  match h_sems h !! sem with
  | Some c => if c + 1 <=? SEM_LIMIT then Ret (with_sems (<[sem := c + 1]> (h_sems h)) h) else Ret h
  | None => Bug
  end.
(** The due time in units of 100 ns, from now on; a [long] of Windows has 32 bits.  The
    shutdown makes the timer fire at once. *)
Definition nt_set_timer (delta : Z) (h : hostw) : hostw :=
  if delta =? LKL_TIMER_INIT then h
  else if delta =? LKL_TIMER_SHUTDOWN then set_done (with_timer (h_timer h ++ [0]) h)
  else with_timer (h_timer h ++ [- s32 (u32 delta / 100)]) h.
(** The timer thread after a wait: its end, or the interrupt. *)
Definition nt_timer_thread (h : hostw) : bool := negb (timer_done h).
#[local] Instance nt_native : lkl_native_operations hostw := {|
  sem_alloc := nt_sem_alloc; sem_free := host_sem_free; sem_up := nt_sem_up; sem_down := host_sem_down;
  mem_alloc := host_mem_alloc; mem_free := host_mem_free; timer := nt_set_timer;
  sems := h_sems; blocks := h_blocks; sem_max := SEM_LIMIT |}.

(** ** Windows, kernel mode: ntk.c *)

(** The semaphore is a block of the pool; KeInitializeSemaphore requires a count up to the limit. *)
Definition ntk_sem_alloc (count : Z) (h : hostw) : Z * hostw :=
  let s := new_sem h count in
  if s =? NULL then (NULL, h) else (s, with_sems (<[s := count]> (h_sems h)) h).
(** KeReleaseSemaphore raises STATUS_SEMAPHORE_LIMIT_EXCEEDED at the limit, which nothing handles. *)
Definition ntk_sem_up (sem : Z) (h : hostw) : res hostw :=
  match h_sems h !! sem with
  | Some c => if c + 1 <=? SEM_LIMIT then Ret (with_sems (<[sem := c + 1]> (h_sems h)) h) else Bug
  | None => Bug
  end.
(** The shutdown cancels the timer, waits until its calls have run and wakes the timer thread
    through [timer_killer_sem]; a second one loops for ever. *)
Definition ntk_set_timer (delta : Z) (h : hostw) : res hostw :=
  if delta =? LKL_TIMER_INIT then Ret h
  else if delta =? LKL_TIMER_SHUTDOWN then
    if timer_done h then Blocked
    else Ret (wake_killer (set_done (with_timer [] h)))
  else Ret (with_timer (h_timer h ++ [s32 (- (u32 delta / 100))]) h).
#[local] Instance ntk_native : lkl_native_operations hostw := {|
  sem_alloc := ntk_sem_alloc; sem_free := host_sem_free; sem_up := ntk_sem_up; sem_down := host_sem_down;
  mem_alloc := host_mem_alloc; mem_free := host_mem_free; timer := fun d h => match ntk_set_timer d h with Ret h => h | _ => h end;
  sems := h_sems; blocks := h_blocks; sem_max := SEM_LIMIT |}.

(** ** Haiku: khaiku.c *)

(** [create_sem] gives an identifier or an error: [B_NO_MORE_SEMS] of the Haiku headers is the
    one the code knows, any other negative value is taken for a semaphore. *)
Context (B_NO_MORE_SEMS : Z).
Definition khaiku_env_sem_alloc (create_sem : hostw -> Z -> Z) (count : Z) (h : hostw) : Z * hostw :=
  let s := create_sem h count in
  if s =? B_NO_MORE_SEMS then (NULL, h)
  else (s, if s <? 0 then h else with_sems (<[s := count]> (h_sems h)) h).
Definition khaiku_env_sem_up (sem : Z) (h : hostw) : res hostw :=
  match h_sems h !! sem with
  | Some c => Ret (with_sems (<[sem := s32 (c + 1)]> (h_sems h)) h)
  | None => Bug
  end.
(** One timer structure: allocated at the first event, cancelled before it is set again; the
    time is in microseconds.  A failed [malloc] is a fault. *)
Definition khaiku_env_timer (g_timer : option (option Z)) (malloc_ok : bool) (delta : Z) : res (option (option Z)) :=
  if delta =? LKL_TIMER_INIT then Ret g_timer
  else if delta =? LKL_TIMER_SHUTDOWN then Ret None
  else
    match g_timer with
    | None => if malloc_ok then Ret (Some (Some (s64 delta / 1000))) else Bug
    | Some _ => Ret (Some (Some (s64 delta / 1000)))
    end.
#[local] Instance khaiku_native : lkl_native_operations hostw := {|
  sem_alloc := khaiku_env_sem_alloc new_sem; sem_free := host_sem_free; sem_up := khaiku_env_sem_up; sem_down := host_sem_down;
  mem_alloc := host_mem_alloc; mem_free := host_mem_free; timer := fun d h => with_timer (h_timer h ++ [d]) h;
  sems := h_sems; blocks := h_blocks; sem_max := INT_MAX |}.

(** ** Contracts *)

Lemma host_sem_free_ok (p : Z) (h : hostw) (c : Z) : h_sems h !! p = Some c ->
  exists h', host_sem_free p h = Ret h' /\ h_sems h' = delete p (h_sems h) /\ h_blocks h' = h_blocks h.
Proof. intros E. unfold host_sem_free. rewrite E. by eexists. Qed.
Lemma host_sem_down_ok (p : Z) (h : hostw) (c : Z) : h_sems h !! p = Some c -> 0 < c ->
  exists h', host_sem_down p h = Ret h' /\ h_sems h' = <[p := c - 1]> (h_sems h) /\ h_blocks h' = h_blocks h.
Proof. intros E Hc. unfold host_sem_down. rewrite E, (proj2 (Z.leb_gt c 0) Hc). by eexists. Qed.
Lemma host_sem_down_blocks (p : Z) (h : hostw) (c : Z) : h_sems h !! p = Some c -> c <= 0 -> host_sem_down p h = Blocked.
Proof. intros E Hc. unfold host_sem_down. by rewrite E, (proj2 (Z.leb_le c 0) Hc). Qed.
Lemma host_mem_alloc_null (sz : Z) (h h' : hostw) : host_mem_alloc sz h = (NULL, h') -> h_sems h' = h_sems h /\ h_blocks h' = h_blocks h.
Proof. unfold host_mem_alloc. destruct (Z.eqb_spec (new_block h sz) NULL); [by intros [= <-]|by intros [= ? _]]. Qed.
Lemma host_mem_alloc_ok (sz : Z) (h : hostw) (p : Z) (h' : hostw) : host_mem_alloc sz h = (p, h') -> p <> NULL ->
  h_blocks h !! p = None /\ h_blocks h' = <[p := sz]> (h_blocks h) /\ h_sems h' = h_sems h.
Proof using new_block_fresh.
  unfold host_mem_alloc. destruct (Z.eqb_spec (new_block h sz) NULL); [by intros [= <- <-]|]. intros [= <- <-] _. split; [by apply new_block_fresh|done].
Qed.
Lemma host_mem_free_ok (p : Z) (h : hostw) (sz : Z) : h_blocks h !! p = Some sz ->
  exists h', host_mem_free p h = Ret h' /\ h_blocks h' = delete p (h_blocks h) /\ h_sems h' = h_sems h.
Proof. intros E. unfold host_mem_free. rewrite E. by eexists. Qed.
Lemma nt_timer_frame (d : Z) (h : hostw) : h_sems (nt_set_timer d h) = h_sems h /\ h_blocks (nt_set_timer d h) = h_blocks h.
Proof. unfold nt_set_timer. by repeat case_match. Qed.
Lemma ntk_sem_alloc_null (c : Z) (h h' : hostw) : ntk_sem_alloc c h = (NULL, h') -> h_sems h' = h_sems h /\ h_blocks h' = h_blocks h.
Proof. unfold ntk_sem_alloc. destruct (Z.eqb_spec (new_sem h c) NULL); [by intros [= <-]|by intros [= ? _]]. Qed.
Lemma ntk_sem_alloc_ok (c : Z) (h : hostw) (p : Z) (h' : hostw) : ntk_sem_alloc c h = (p, h') -> p <> NULL ->
  h_sems h !! p = None /\ h_sems h' = <[p := c]> (h_sems h) /\ h_blocks h' = h_blocks h.
Proof using new_sem_fresh.
  unfold ntk_sem_alloc. destruct (Z.eqb_spec (new_sem h c) NULL); [by intros [= <- <-]|]. intros [= <- <-] _. split; [by apply new_sem_fresh|done].
Qed.

#[local] Hint Resolve host_sem_free_ok host_sem_down_ok host_sem_down_blocks host_mem_alloc_null host_mem_alloc_ok host_mem_free_ok
  nt_timer_frame ntk_sem_alloc_null ntk_sem_alloc_ok : hosts.

(** Both keep the contract of Native, with counts up to 100. *)
Theorem nt_meets_native_contract : native_laws hostw (ops := nt_native).
Proof using new_sem_fresh new_block_fresh.
  split; simpl; eauto with hosts; [..|done].
  - intros c h h'. unfold nt_sem_alloc. destruct (_ || _); [by intros [= <-]|]. apply ntk_sem_alloc_null.
  - intros c h p h'. unfold nt_sem_alloc. destruct (_ || _); [by intros [= <- <-]|]. apply ntk_sem_alloc_ok.
  - intros p h c E Hc. unfold nt_sem_up. rewrite E, (proj2 (Z.leb_le _ SEM_LIMIT)) by lia. by eexists.
Qed.
Theorem ntk_meets_native_contract : native_laws hostw (ops := ntk_native).
Proof using new_sem_fresh new_block_fresh.
  split; simpl; eauto with hosts; [..|done].
  - intros p h c E Hc. unfold ntk_sem_up. rewrite E, (proj2 (Z.leb_le _ SEM_LIMIT)) by lia. by eexists.
  - intros d h. unfold ntk_set_timer. by repeat case_match; simplify_eq.
Qed.

(** The Haiku host keeps the contract as long as [create_sem] fails in no other way than the
    one the code tests for. *)
Theorem khaiku_meets_native_contract :
  (forall h c, 0 < new_sem h c \/ new_sem h c = B_NO_MORE_SEMS) -> native_laws hostw (ops := khaiku_native).
Proof using new_sem_fresh new_block_fresh.
  intros Hnew. split; simpl; eauto with hosts; try done.
  - intros c h h'. unfold khaiku_env_sem_alloc. destruct (Z.eqb_spec (new_sem h c) B_NO_MORE_SEMS); [by intros [= <-]|].
    destruct (Hnew h c) as [Hp|?]; [|done]. intros [= E _]. unfold NULL in E. lia.
  - intros c h p h'. unfold khaiku_env_sem_alloc. destruct (Z.eqb_spec (new_sem h c) B_NO_MORE_SEMS); [by intros [= <- <-]|].
    destruct (Hnew h c) as [Hp|?]; [|done]. rewrite (proj2 (Z.ltb_ge _ 0)) by lia. intros [= <- <-] Hp'. split; [by apply new_sem_fresh|done].
  - intros p h c E Hc. unfold khaiku_env_sem_up. rewrite E. eexists. split; [done|]. simpl. split; [|done].
    f_equal. f_equal. apply swrap_id; [done|]. unfold INT_MAX in Hc. pow_lia.
Qed.
(** Any other error comes back as a semaphore that does not exist. *)
Lemma khaiku_error_as_semaphore (h : hostw) (c : Z) : new_sem h c < 0 -> new_sem h c <> B_NO_MORE_SEMS ->
  khaiku_env_sem_alloc new_sem c h = (new_sem h c, h) /\ new_sem h c <> NULL.
Proof.
  intros H1 H2. unfold khaiku_env_sem_alloc. rewrite (proj2 (Z.eqb_neq _ _) H2), (proj2 (Z.ltb_lt _ 0) H1). split; [done|]. unfold NULL. lia.
Qed.

(** ** The limit on pending interrupts *)

Section limit.
Context {K : Type} (st : irq_state hostw K) (irq : Z) (ii : irq_info).
Context (Hirq : aget (irqs st) irq = Some ii) (Hlen : length (irqs st) = Z.to_nat NR_IRQS).
Context (Hlock : h_sems (native st) !! lock ii = Some 1) (Hne : lock ii <> sem st).
Context (Hfull : h_sems (native st) !! sem st = Some SEM_LIMIT).

Lemma irq_in_range : (NR_IRQS <=? irq) = false.
Proof using Hirq Hlen. apply aget_Some in Hirq. apply Z.leb_gt. unfold NR_IRQS in *. lia. Qed.

(** In kernel mode the interrupt after 100 that wait crashes the host. *)
Theorem ntk_trigger_limit : lkl_trigger_irq (ops := ntk_native) irq st = Bug.
Proof using Hirq Hlen Hlock Hne Hfull.
  unfold lkl_trigger_irq, queue_nodata. rewrite irq_in_range. cbn [BUG_ON res_bind]. rewrite Hirq. cbn [deref res_bind]. cbn -[h_sems SEM_LIMIT].
  unfold host_sem_down. rewrite Hlock. cbn -[SEM_LIMIT]. unfold ntk_sem_up. cbn -[SEM_LIMIT]. rewrite lookup_insert_eq. cbn -[SEM_LIMIT].
  change (1 - 1 + 1 <=? SEM_LIMIT) with true. cbn -[SEM_LIMIT]. rewrite lookup_insert_ne, lookup_insert_ne by done. by rewrite Hfull.
Qed.
(** In user mode the interrupt is queued and the token is dropped: the idle loop has tokens
    left, and a pass serves every queued interrupt. *)
Theorem nt_trigger_limit : exists st', lkl_trigger_irq (ops := nt_native) irq st = Ret st' /\
  h_sems (native st') !! sem st' = Some SEM_LIMIT /\
  aget (irqs st') irq = Some (Irq_info (data_list ii) (s32 (no_data_count ii + 1)) (lock ii)).
Proof using Hirq Hlen Hlock Hne Hfull.
  unfold lkl_trigger_irq, queue_nodata. rewrite irq_in_range. cbn [BUG_ON res_bind]. rewrite Hirq. cbn [deref res_bind]. cbn -[h_sems SEM_LIMIT].
  unfold host_sem_down. rewrite Hlock. cbn -[SEM_LIMIT]. unfold nt_sem_up. cbn -[SEM_LIMIT]. rewrite lookup_insert_eq. cbn -[SEM_LIMIT].
  change (1 - 1 + 1 <=? SEM_LIMIT) with true. cbn -[SEM_LIMIT]. rewrite lookup_insert_ne, lookup_insert_ne by done. rewrite Hfull.
  change (SEM_LIMIT + 1 <=? SEM_LIMIT) with false. cbn -[SEM_LIMIT]. eexists. split; [done|]. cbn -[SEM_LIMIT].
  rewrite lookup_insert_ne, lookup_insert_ne by done. split; [done|]. by eapply aget_aset_eq.
Qed.
End limit.
End hosts.

(** ** Start of the Windows kernel host: [lkl_env_init] of ntk.c *)

Inductive ntk_res := InitHandle | TimerHandle | InitObj | TimerObj.
#[global] Instance ntk_res_eq_dec : EqDecision ntk_res.
Proof. solve_decision. Defined.
Definition STATUS_SUCCESS : Z := 0.
(** What the thread functions, the wait and the references answer, in order; the result is
    the status and what is still held. *)
Definition ntk_env_init (create_init wait_init create_timer ref_init ref_timer : Z) : Z * list ntk_res :=
  if negb (create_init =? STATUS_SUCCESS) then (create_init, [])
  else
    let held := [InitHandle] in
    let close_init_thread status held := (status, filter (fun r => r <> InitHandle) held) in
    let close_timer_thread status held := close_init_thread status (filter (fun r => r <> TimerHandle) held) in
    let deref_init_thread_obj status held := close_timer_thread status (filter (fun r => r <> InitObj) held) in
    if negb (wait_init =? STATUS_SUCCESS) then close_init_thread wait_init held
    else if negb (create_timer =? STATUS_SUCCESS) then close_init_thread create_timer held
    else
      let held := TimerHandle :: held in
      if ref_init <? 0 then close_timer_thread ref_init held
      else
        let held := InitObj :: held in
        if ref_timer <? 0 then deref_init_thread_obj ref_timer held
        else (STATUS_SUCCESS, filter (fun r => r <> InitHandle /\ r <> TimerHandle) (TimerObj :: held)).

(** The error paths release what was acquired, in every case. *)
Lemma ntk_env_init_releases (a b c d e : Z) :
  ntk_env_init a b c d e = (STATUS_SUCCESS, [TimerObj; InitObj]) \/
  exists status, status <> STATUS_SUCCESS /\ ntk_env_init a b c d e = (status, []).
Proof.
  unfold ntk_env_init, STATUS_SUCCESS. destruct (Z.eqb_spec a 0); [|right; by exists a]. cbn [negb].
  destruct (Z.eqb_spec b 0); [|right; by exists b]. cbn [negb]. destruct (Z.eqb_spec c 0); [|right; by exists c]. cbn [negb].
  destruct (Z.ltb_spec d 0); [right; exists d; split; [lia|done]|]. destruct (Z.ltb_spec e 0); [right; exists e; split; [lia|done]|]. by left.
Qed.

(** ** The Apache runtime: apr.c *)

(** The heap of the C library, and the mutexes and condition variables of the pool. *)
Record apr := Apr { a_host : posix; a_mutexes : Z; a_conds : Z }.
Section apr_host.
Context (malloc : gmap Z cell -> Z -> Z).
(** Whether the runtime can make a mutex and a condition variable. *)
Context (mutex_ok cond_ok : apr -> bool).
Definition sizeof_apr_sem : Z := 24.

Definition apr_sem_alloc (count : Z) (w : apr) : Z * apr :=
  let sem := malloc (heap (a_host w)) sizeof_apr_sem in
  if sem =? NULL then (NULL, w)
  else
    let h := set_heap (<[sem := Sem (Pthread_sem false count)]> (heap (a_host w))) (a_host w) in
    let freed := set_heap (delete sem (heap h)) h in
    let w := Apr h (a_mutexes w) (a_conds w) in
    if negb (mutex_ok w) then (NULL, Apr freed (a_mutexes w) (a_conds w))
    else
      let w := Apr h (a_mutexes w + 1) (a_conds w) in
      if negb (cond_ok w) then (NULL, Apr freed (a_mutexes w - 1) (a_conds w))
      else (sem, Apr h (a_mutexes w) (a_conds w + 1)).
Definition apr_sem_free (sem : Z) (w : apr) : res apr :=
  let! _ := get_sem sem (a_host w) in
  let! h := posix_free sem (a_host w) in
  Ret (Apr h (a_mutexes w - 1) (a_conds w - 1)).
(** The operations are those of the POSIX host. *)
Definition apr_sem_up (sem : Z) (w : apr) : res apr :=
  let! h := posix_sem_up sem (a_host w) in Ret (Apr h (a_mutexes w) (a_conds w)).
Definition apr_sem_down (sem : Z) (w : apr) : res apr :=
  let! h := posix_sem_down sem (a_host w) in Ret (Apr h (a_mutexes w) (a_conds w)).

Context (malloc_fresh : forall h sz, malloc h sz <> NULL -> h !! malloc h sz = None).
(** A failed allocation leaves nothing behind; a semaphore that is made and freed neither. *)
Lemma apr_sem_alloc_free (count : Z) (w : apr) :
  let '(sem, w') := apr_sem_alloc count w in
  (sem = NULL /\ w' = w) \/ apr_sem_free sem w' = Ret w.
Proof using malloc_fresh.
  unfold apr_sem_alloc. destruct (Z.eqb_spec (malloc (heap (a_host w)) sizeof_apr_sem) NULL) as [|Hn]; [by left|].
  pose proof (malloc_fresh _ _ Hn) as Hf. set (sem := malloc _ _) in *. destruct w as [[hp tp] m c]. simpl in *.
  assert (delete sem (<[sem := Sem (Pthread_sem false count)]> hp) = hp) as Hd by by apply delete_insert_id.
  destruct (negb _); [left; split; [done|]; unfold set_heap; simpl; by rewrite Hd|].
  destruct (negb _); [left; split; [done|]; unfold set_heap; simpl; rewrite Hd; f_equal; lia|].
  right. unfold apr_sem_free, get_sem, posix_free. simpl. rewrite lookup_insert_eq. cbn [res_bind]. rewrite Hd. unfold set_heap. simpl. do 2 f_equal; lia.
Qed.
End apr_host.

(** The timeout of the Apache timer thread in microseconds: at least a millisecond. *)
Definition apr_next_timeout (timeout_ns : Z) : Z :=
  let timeout_us := s64 (timeout_ns / 1000) in if timeout_us <? 1000 then 1000 else timeout_us.

(** ** A host with an unbounded supply, and 101 interrupts *)
Module HostsDemo.
Definition next_key (m : gmap Z Z) : Z := 1 + foldr Z.max 0 (elements (dom m)).
Definition some_sem (h : hostw) (_ : Z) : Z := next_key (h_sems h).
Definition some_block (h : hostw) (_ : Z) : Z := next_key (h_blocks h).
Definition start : irq_state hostw unit :=
  Irq_state (Hostw (<[1 := 0]> (<[2 := 1]> ∅)) ∅ [] false 0) (replicate 4 (Irq_info [] 0 2)) 1 0 None tt [].
Fixpoint triggers (ops : lkl_native_operations hostw) (k : nat) (st : irq_state hostw unit) : res (irq_state hostw unit) :=
  match k with O => Ret st | S k => let! st := lkl_trigger_irq TIMER_IRQ st in triggers ops k st end.
(** The interrupts that come before the idle thread runs: 100 are fine, the next one is not. *)
Example ntk_hundred : match triggers (ntk_native some_sem some_block) 100 start with Ret _ => true | _ => false end = true.
Proof. vm_compute. reflexivity. Qed.
Example ntk_hundred_and_one : triggers (ntk_native some_sem some_block) 101 start = Bug.
Proof. vm_compute. reflexivity. Qed.
End HostsDemo.
